(* ===== verification/_CoqProject ===== *)
-Q . S2P
Prelude.v
JsNumber.v
JsString.v
JsDate.v
JsText.v
BrokerOrderStatus.v
TradeLifecycle.v
SchedulerLease.v
ExecutionTables.v
ExecutionReservation.v
BrokerResult.v
ExecutionEvidence.v
AccountSync.v
ExecutionInvariants.v
ExecutionWitnesses.v
Idempotency.v
PortfolioArbitrator.v
WorkerPersistence.v
WorkerState.v
PostgresTransaction.v
PostgresNumeric.v
OperationDeadline.v
PortfolioRiskScore.v
OptionSymbol.v
JsJson.v
CanonicalJson.v
SubmissionEvidence.v
Effects.v
Submission.v
SubmissionFacts.v
SubmissionCommand.v
AlpacaClient.v
SubmissionRuns.v
SubmitConfiguration.v
BrokerSnapshot.v
OrderCancellation.v
CancellationRuns.v
Reconciliation.v
ReconciliationCommand.v
Recovery.v
BrokerStateSync.v
BrokerStateRuns.v
ReservationLedger.v
LedgerRuns.v
LedgerHistory.v
ReconciliationRuns.v
ObservationFacts.v
PendingIntents.v
SubmissionLiveness.v
SubmissionRetry.v
RecoveryRuns.v
LedgerWitnesses.v
ReviewConfiguration.v
ReviewEvidence.v
ExitEvaluation.v
ExitReview.v
ExitReviewRuns.v
ExitClaims.v
EntryEvaluation.v
EntryReview.v
ReviewWorkflow.v
EntryReviewRuns.v
ControlTables.v
ResearchRuns.v
WorkstreamEvents.v
DatabaseConfiguration.v
SchedulerExecution.v
ScheduledCommand.v
FencedHistory.v
ResearchSignals.v
ResearchSignalImport.v
HistoricalEvidence.v
InvestmentLanes.v
ResearchCandidates.v
ResearchEvidence.v
ResearchWorkflow.v
ResearchWorkflowFacts.v
ResearchFailure.v
