(* ===== verification/Prelude.v ===== *)
(** * A verification library for the AlpacaTrading paper-trading runtime

    The program (src/src) trades US equities and options on a paper account of
    the broker Alpaca.  Short-lived commands, started by a scheduler under a
    lease, research candidates, review them, reserve capital, submit orders,
    reconcile them with the broker, and recover after a crash.  Several commands
    may run at once, any of them may die between two awaits, and an answer of the
    broker or of the database may be lost; PostgreSQL is the only shared state.
    The library models the path of an order through these commands, the
    repositories under it, the scheduler and the research runs before it, and the
    language the code is written in, and proves that capital is accounted for and
    that no order is handed to the client of the broker twice.

    ** The files

    Language and effects.  [JsNumber] (binary64), [JsString], [JsText] (numbers as
    text), [JsDate], [JsJson] and [CanonicalJson] (lib/canonicalJson.ts) model what
    the code uses of JavaScript.  [Prelude] has errors ([res]), transactions ([tx],
    a Throw rolls back), lists as tables, sorting.  [Effects] has programs that
    await answers, one undisturbed [run], and histories of concurrent runners that
    crash ([step], [reachable]), with a proof rule for permits and a monitor logic.

    Database.  [PostgresTransaction] (with postgresRetry.ts) and
    [PostgresNumeric] are the files of that name in lib/database,
    [DatabaseConfiguration] is databaseConfig.ts.  [SchedulerLease] is
    postgresSchedulerLeaseRepository.ts; every write of the program is guarded by
    its fence ([fenceSql], [isCurrentFence], [requireCurrentFence]).  [Idempotency]
    is postgresIdempotencyRepository.ts.  [ExecutionTables] has the rows of
    migrations 001 and 006, and [ExecutionReservation], [BrokerResult],
    [ExecutionEvidence], [AccountSync] the operations of
    postgresExecutionStateRepository.ts; [ExecutionInvariants] is about their
    histories.  [ControlTables] has rows that carry a version and are written by
    whoever has read it; [ResearchRuns] is postgresResearchRunRepository.ts and
    [WorkstreamEvents] postgresWorkstreamEventRepository.ts.

    Scheduler.  [SchedulerExecution] is postgresSchedulerExecutionService.ts, a
    command beside the heartbeats of its lease as a machine driven by events;
    [ScheduledCommand] has the registry of jobs, postgresScheduledCommandService.ts
    and the dispatch of postgresOnlyCli.ts.

    Rules.  [BrokerOrderStatus], [TradeLifecycle] (autonomousTradeLifecycleService.ts:
    the state graph of an order), [OptionSymbol], [PortfolioRiskScore],
    [PortfolioArbitrator], [OperationDeadline], [SubmitConfiguration]
    (paperSubmitSafetyConfig.ts), [ReviewConfiguration] and [SubmissionEvidence] (the
    gate an order passes before the POST) are pure.

    Broker.  [AlpacaClient] is alpacaClient.ts with tradingSafetyService.ts: the
    retries of requests and the guards against live trading.  One call of
    submitPaperOrder or cancelPaperOrder is a list of fetches: the client repeats a
    request that got no answer up to ALPACA_MAX_RETRIES times.  [SubmissionRuns]
    and [CancellationRuns] record the calls with the fetches each of them made.  [BrokerSnapshot] is
    postgresAuthorityBrokerSnapshot.ts with the three reads it makes.

    Commands.  A command is a program of [Effects] whose requests are database
    statements, broker requests and the clock.
    - Research: [ResearchWorkflow] is [runPostgresResearchWorkflow] of
      postgresResearchWorkflowService.ts.  Its parts are the import of signals
      ([ResearchSignals], [ResearchSignalImport]), the evidence of past outcomes
      ([HistoricalEvidence]), the lanes ([InvestmentLanes]), the scoring and
      selection of candidates ([ResearchCandidates]) and the batches of evidence
      rows ([ResearchEvidence]).
    - Review: postgresReviewWorkflowService.ts.  [ReviewEvidence] has what entries
      and exits share; [ExitEvaluation] and [ExitReview] decide and store exits,
      [EntryEvaluation] and [EntryReview] entries with the arbitrator,
      [ReviewWorkflow] is the command.
    - Submission: [Submission] has the transactions of
      autonomousPostgresExecutionService.ts (promote, claim, record attempt, record
      answer, release, fail), [SubmissionCommand] the command.
    - Cancellation: [OrderCancellation] is postgresOrderCancellationService.ts.
    - Reconciliation: [Reconciliation] has the statements of
      postgresReconciliationService.ts, [ReconciliationCommand] the loop over the
      orders, [BrokerStateSync] the mirror of account, snapshot and positions.
    - Recovery: [Recovery] is autonomousPostgresCommandService.ts.
    - Worker: [WorkerPersistence] and [WorkerState] are
      autonomousWorkerStateService.ts.
    They interact through the tables only: [ResearchWorkflow] leaves candidates,
    [ReviewWorkflow] turns them into reviewed intents, [Submission] takes the rows of
    [ExecutionTables] (with the columns of migration 006 beside them),
    [Reconciliation] adds the transitions, [Recovery] the research runs, and each
    runs on the tables the others leave.

    ** What is proved

    - One submission, one cancellation ([SubmissionRuns], [CancellationRuns]): in
      every history of crashing concurrent runners submitPaperOrder is called at
      most once for a client order id and cancelPaperOrder at most once for an order,
      each after its attempt or claim was persisted, and a submission only with what
      the gate allowed ([SubmissionEvidence], [SubmissionFacts]).  The broker may
      see more than one POST or DELETE of such a call: at most ALPACA_MAX_RETRIES + 1,
      all of them the same request, and another one only when the one before was not
      answered.  [SubmissionRetry] shows what that costs.  An attempt that was
      recorded but not sent is never repeated.
    - Reviews ([ExitReviewRuns], [ExitClaims], [EntryReviewRuns]): an exit review
      that completes leaves every due position reviewed, once per snapshot, and what
      it stores can be claimed by the submission; an entry review decides every
      candidate, and the intents it adds never conflict with what is held, ordered
      or pending.
    - Research ([ResearchCandidates], [ResearchSignals], [ResearchSignalImport],
      [ResearchEvidence]): the best eligible targets are selected, signals move a
      score only within their bounds, an import accounts for every document,
      batches keep their bounds.  [ResearchWorkflowFacts]: what a completed run
      reports is in the tables; [ResearchFailure]: however a run ends, its row does
      not stay active.  [ResearchRuns]: what each answer of a reservation means for
      the table, each version of a row written once.
    - Commands ([SchedulerExecution], [ScheduledCommand]): the operation runs once; a
      value is returned only by a command that held its lease throughout, a lost
      lease is always reported, and a settled run ends within five events.
    - Capital ([ReservationLedger] to [LedgerHistory], [ExecutionInvariants]): reservations, allocations and deployed capital refine an
      abstract ledger under all statements of submission, reconciliation and
      recovery in any interleaving; a settled reservation stays settled.
    - Events between workstreams ([WorkstreamEvents]): an event is completed at most
      once.
    - Leases ([SchedulerLease]): mutual exclusion, fresh fencing tokens, and a stale
      fence writes nothing for ever.
    - Reconciliation ([ObservationFacts], [ReconciliationRuns], [BrokerStateRuns]):
      what an answer of the broker does to an intent, every listed order is looked
      up and counted once, an order is given up only after four absences, the
      mirrored positions are those of the broker.
    - Liveness ([SubmissionLiveness]): a run whose statements are executed and
      answered does not leave the intent it claimed pending, whatever others do to
      the database between its requests, as long as its lease stands to the end and
      nobody else touches the intent, its candidate and its failure events.  The
      recovery of an ambiguous submission reconciles by running the model of
      reconcilePostgresPaperOrders, whose statements never make an intent pending
      ([PendingIntents]).  [CancellationRuns]: an undisturbed runner cancels a live
      order.
    - Decisions: arbitration is free of conflicts, limits and the configuration of the
      database are well-formed in every environment that loads, decimal texts
      denote the numbers compared, option symbols round-trip, retries are bounded.
    - Defects, each as a theorem about the faithful model: see the theorems of
      [ReconciliationRuns], [ObservationFacts], [RecoveryRuns], [BrokerStateRuns],
      [SubmissionRetry], [BrokerResult], [WorkerState], [ExitReviewRuns],
      [ResearchSignalImport], [HistoricalEvidence], [WorkstreamEvents].
    The files ending in Witnesses, and the last section of the others, evaluate the
    definitions on a small account and apply the theorems there.

    ** Conventions

    A table is the list of its rows; a column of type numeric is a rational, a
    timestamp the milliseconds since 1970, jsonb its text, an enumeration an
    inductive type.  A statement is one [tx]: it commits as a whole, and a Throw
    commits nothing ([PostgresTransaction] justifies this reading).  [fenced] runs a
    statement under the fence in its WHERE clause.  Constraints of the schema that
    the code relies on are part of inserts and updates; the others would only
    refuse more.

    Parameters stand for code outside src: SHA-256 and HMAC ([digest], [hmac],
    [sha256]), the ids stableRecordId makes of them, localeCompare of the engine
    ([le], assumed a total order where sorting matters), time stamps in formats
    other than ISO 8601, the jsonb text of a document and the operator ||, the
    division of numerics.  The answers of the broker are arbitrary, and what other
    programs do to the tables between two awaits is arbitrary up to the facts a
    theorem names.  A request whose result the model does not compute (a query over
    tables that are not modelled, the market data of a research run) is answered
    with anything.

    For the research runs a [World] is one execution of a program among others
    ([FencedHistory]): every statement is answered, refused or lost, lost ones may
    have been applied, other processes write in between, and a token of a lease is
    never granted twice, so that a fence which was current at two times was current
    in between.

    Bounds.  The search for a chain of lifecycle transitions has fuel 27, the
    number of states, and is proved complete with it.  Retry loops have at most
    five attempts, a request of the client ALPACA_MAX_RETRIES + 1; both are
    structural in the number that is left.  Printing a number tries up to 17
    significant digits, which suffice for binary64.  The search through error
    causes visits at most 16 objects, as the code does, the search for a transient error in research at most 12.  A
    batch of evidence has at most 250 rows and 4,000,000 bytes; the recursion is
    on the rows that are left.  Lookups after a DELETE or
    an ambiguous POST are bounded by the arrays of delays in the code.

    ** Not modelled

    The collection of market data, features and targets and the learning from
    outcomes (large SQL and statistics in binary64, whose results the research run
    takes as answers); the repositories of candidates, checkpoints
    and market data that the modelled commands do not call; the older runtime over
    SQLite (the services named paper, hedge, zeroDte and leaps), superseded by the
    PostgreSQL services; one-time migrations; processes, HTTP, pools and pages;
    telemetry.  Of the modelled services: the record of a broker order without an
    intent, the times in the results of lanes, and the texts of summaries, which are
    parameters. *)

From Stdlib Require Export ZArith QArith Lqa Lia.
From stdpp Require Export base tactics option list strings numbers sorting relations.
#[export] Set Warnings "-clear-no-such-hyp,-inexact-float".

(** ** Errors and transactions *)

(** The outcome of a computation that may [throw new Error(code)]. *)
Inductive res (A : Type) : Type :=
| Ret (a : A)
| Throw (code : string).
Arguments Ret {A} a.
Arguments Throw {A} code.

#[export] Instance res_ret : MRet res := λ A a, Ret a.
#[export] Instance res_bind : MBind res := λ A B k m,
  match m with Ret a => k a | Throw c => Throw c end.

Lemma res_bind_Ret {A B} (m : res A) (k : A → res B) b : m ≫= k = Ret b ↔ ∃ a, m = Ret a ∧ k a = Ret b.
Proof. unfold mbind, res_bind. destruct m; naive_solver. Qed.

(** A database operation inside a checked-out transaction.  It reads and
    writes the tables [S]; a [Throw] carries no tables, because the caller
    issues ROLLBACK and every write is discarded. *)
Definition tx (S A : Type) : Type := S → res (A * S).

#[export] Instance tx_ret {S} : MRet (tx S) := λ A a s, Ret (a, s).
#[export] Instance tx_bind {S} : MBind (tx S) := λ A B k m s,
  match m s with
  | Ret (a, s') => k a s'
  | Throw c => Throw c
  end.

Definition throw {S A} (code : string) : tx S A := λ _, Throw code.
Definition gets {S A} (f : S → A) : tx S A := λ s, Ret (f s, s).
Definition modify {S} (f : S → S) : tx S unit := λ s, Ret (tt, f s).

Section tx_laws.
Context {S : Type}.

Lemma tx_bind_Ret {A B} (m : tx S A) (k : A → tx S B) s b s' :
  (m ≫= k) s = Ret (b, s') ↔
  ∃ a s1, m s = Ret (a, s1) ∧ k a s1 = Ret (b, s').
Proof.
  unfold mbind, tx_bind. split.
  - destruct (m s) as [[a s1]|c]; [eauto | done].
  - intros (a & s1 & -> & ?). done.
Qed.

Lemma tx_bind_Throw {A B} (m : tx S A) (k : A → tx S B) s c :
  (m ≫= k) s = Throw c ↔
  m s = Throw c ∨ ∃ a s1, m s = Ret (a, s1) ∧ k a s1 = Throw c.
Proof.
  unfold mbind, tx_bind. split.
  - destruct (m s) as [[a s1]|c']; naive_solver.
  - intros [->|(a & s1 & -> & ?)]; done.
Qed.

(** [P] is preserved by [m]: every committed outcome keeps it. *)
Definition preserves {A} (P : S → Prop) (m : tx S A) : Prop :=
  ∀ s a s', P s → m s = Ret (a, s') → P s'.

(** [m] only reads. *)
Definition read_only {A} (m : tx S A) : Prop :=
  ∀ s a s', m s = Ret (a, s') → s' = s.

Lemma preserves_ret {A} P (a : A) : preserves P (mret a : tx S A).
Proof. intros s b s' ? H. by injection H as <- <-. Qed.

Lemma preserves_throw {A} P c : preserves P (throw c : tx S A).
Proof. intros s b s' ? H. discriminate H. Qed.

Lemma preserves_gets {A} P (f : S → A) : preserves P (gets f).
Proof. intros s b s' ? H. by injection H as <- <-. Qed.

Lemma preserves_modify P (f : S → S) :
  (∀ s, P s → P (f s)) → preserves P (modify f).
Proof. intros Hf s b s' ? H. injection H as <- <-. auto. Qed.

Lemma preserves_bind {A B} P (m : tx S A) (k : A → tx S B) :
  preserves P m → (∀ a, preserves P (k a)) → preserves P (m ≫= k).
Proof.
  intros Hm Hk s b s' HP (a & s1 & H1 & H2)%tx_bind_Ret.
  exact (Hk a _ _ _ (Hm _ _ _ HP H1) H2).
Qed.

Lemma preserves_read_only {A} P (m : tx S A) : read_only m → preserves P m.
Proof. intros Hr s a s' HP H. by rewrite (Hr _ _ _ H). Qed.

Lemma read_only_ret {A} (a : A) : read_only (mret a : tx S A).
Proof. intros s b s' H. by injection H as <- <-. Qed.

Lemma read_only_throw {A} c : read_only (throw c : tx S A).
Proof. intros s b s' H. discriminate H. Qed.

Lemma read_only_gets {A} (f : S → A) : read_only (gets f).
Proof. intros s b s' H. by injection H as <- <-. Qed.

Lemma read_only_bind {A B} (m : tx S A) (k : A → tx S B) :
  read_only m → (∀ a, read_only (k a)) → read_only (m ≫= k).
Proof.
  intros Hm Hk s b s' (a & s1 & H1 & H2)%tx_bind_Ret.
  rewrite (Hk _ _ _ _ H2). exact (Hm _ _ _ H1).
Qed.
End tx_laws.

Create HintDb tx discriminated.
#[export] Hint Resolve preserves_ret preserves_throw preserves_gets
  preserves_bind read_only_ret read_only_throw read_only_gets
  read_only_bind : tx.

(** [tx_step H] peels one statement off a successful run [H]. *)
Ltac tx_step H :=
  let a := fresh "r" in let s := fresh "s" in let H1 := fresh "Hrun" in
  apply tx_bind_Ret in H as (a & s & H1 & H).

(** The same with names for the result, the tables after it and its run. *)
Tactic Notation "tx_step" hyp(H) "as" ident(a) ident(s) ident(E) :=
  apply tx_bind_Ret in H as (a & s & E & H).

(** [tx_done H] reads the value and the tables off a finished run. *)
Ltac tx_done H := first [discriminate H | injection H as <- <- | injection H as ? ?; subst].

(** Case analysis on the conditions of the code, in goal or hypothesis. *)
Ltac case_if_in H :=
  match type of H with
  | context [if ?b then _ else _] => destruct b eqn:?
  end.

Lemma not_elem_of_In {X} (x : X) (l : list X) : x ∉ l ↔ ¬ In x l.
Proof. by rewrite list_elem_of_In. Qed.

(** ** Tables: a relation is the list of its rows, in insertion order *)

Section tables.
Context {R : Type}.

(** [UPDATE ... SET f WHERE p]. *)
Definition update_where (p : R → bool) (f : R → R) (t : list R) : list R :=
  map (λ r, if p r then f r else r) t.

(** The row count the driver reports for the UPDATE. *)
Definition count_where (p : R → bool) (t : list R) : nat :=
  length (List.filter p t).

(** [SELECT ... WHERE p], first row. *)
Definition select_one (p : R → bool) (t : list R) : option R := List.find p t.

Lemma update_where_length p f t : length (update_where p f t) = length t.
Proof. apply length_map. Qed.

Lemma update_where_false p f t :
  (∀ r, In r t → p r = false) → update_where p f t = t.
Proof.
  induction t as [|r t IH]; intros Hp; [done|]. simpl.
  rewrite (Hp r) by (by left). f_equal. apply IH. intros; apply Hp; by right.
Qed.

Lemma update_where_In p f t r' :
  In r' (update_where p f t) ↔
  ∃ r, In r t ∧ r' = if p r then f r else r.
Proof. unfold update_where. rewrite in_map_iff. firstorder congruence. Qed.

(** An update that keeps a key keeps the column of keys. *)
Lemma update_where_key {K} (key : R → K) p f t :
  (∀ r, key (f r) = key r) → map key (update_where p f t) = map key t.
Proof.
  intros Hk. unfold update_where. rewrite map_map. apply map_ext.
  intros r. by destruct (p r).
Qed.

(** The same when only the updated rows of the table need keep it. *)
Lemma map_ext_in_update {K} (key : R → K) p f t :
  (∀ r, In r t → p r = true → key (f r) = key r) →
  map key (update_where p f t) = map key t.
Proof.
  intros Hk. unfold update_where. rewrite map_map. apply map_ext_in.
  intros r Hr. destruct (p r) eqn:E; auto.
Qed.

Lemma NoDup_map_In {K} (key : R → K) (t : list R) :
  NoDup (map key t) → NoDup t.
Proof. intros H. by apply NoDup_ListNoDup, (NoDup_map_inv key), NoDup_ListNoDup. Qed.

(** Keys stay unique when each updated row's new key differs from the keys of
    the other rows, old and new. *)
Lemma NoDup_update {K} (key : R → K) p f t :
  NoDup (map key t) →
  (∀ r r', In r t → In r' t → p r = true → r ≠ r' → key (f r) ≠ key r') →
  (∀ r r', In r t → In r' t → p r = true → p r' = true → r ≠ r' → key (f r) ≠ key (f r')) →
  NoDup (map key (update_where p f t)).
Proof.
  intros Hnd H1 H2. pose proof (NoDup_map_In key t Hnd) as Ht.
  unfold update_where. rewrite map_map. induction t as [|r t IH]; [constructor|].
  simpl in *. apply NoDup_cons in Hnd as [Hni Hnd].
  apply NoDup_cons in Ht as [Hrt Ht]. constructor; [|by eapply IH; eauto].
  apply not_elem_of_In in Hrt, Hni. rewrite list_elem_of_In.
  rewrite in_map_iff. intros (r' & Hk & Hr').
  assert (r ≠ r') as Hne by congruence.
  destruct (p r) eqn:Ep, (p r') eqn:Ep'.
  - by apply (H2 r r'); auto.
  - by apply (H1 r r'); auto.
  - by apply (H1 r' r); auto.
  - apply Hni, in_map_iff. eauto.
Qed.

Lemma select_one_Some p t r : select_one p t = Some r → In r t ∧ p r = true.
Proof. apply List.find_some. Qed.

Lemma select_one_None p t r : select_one p t = None → In r t → p r = false.
Proof. intros H Hin. exact (List.find_none p t H r Hin). Qed.

(** Two rows of a table with unique keys are equal when their keys are. *)
Lemma unique_key {K} (key : R → K) (t : list R) r1 r2 :
  NoDup (map key t) → In r1 t → In r2 t → key r1 = key r2 → r1 = r2.
Proof.
  induction t as [|r t IH]; intros Hnd H1 H2 Hk; [done|].
  simpl in Hnd. apply NoDup_cons in Hnd as [Hni Hnd].
  assert (Hin : ∀ x, In x t → key x ∈ map key t).
  { intros x Hx. apply list_elem_of_In, (in_map key), Hx. }
  simpl in H1, H2. destruct H1 as [E1|H1], H2 as [E2|H2]; subst; auto.
  - destruct Hni. rewrite Hk. auto.
  - destruct Hni. rewrite <- Hk. auto.
Qed.
End tables.

Lemma pow10_pos n : (0 < 10 ^ Z.of_nat n)%Z.
Proof. apply Z.pow_pos_nonneg; lia. Qed.

(** ** Lists *)

(** [array.some], [array.every] are [existsb], [forallb]; [array.includes] on
    strings: *)
Definition str_mem (x : string) (l : list string) : bool :=
  existsb (String.eqb x) l.

Lemma str_mem_true x l : str_mem x l = true ↔ In x l.
Proof.
  unfold str_mem. rewrite existsb_exists. split.
  - intros (y & Hy & ->%String.eqb_eq). done.
  - intros Hx. exists x. by rewrite String.eqb_refl.
Qed.

Lemma str_mem_false x l : str_mem x l = false ↔ ¬ In x l.
Proof. rewrite <- not_true_iff_false, str_mem_true. done. Qed.

(** [[...new Set(values)]]: the distinct values in first-occurrence order. *)
Fixpoint dedup_from (seen l : list string) : list string :=
  match l with
  | [] => []
  | x :: l' => if str_mem x seen then dedup_from seen l'
               else x :: dedup_from (x :: seen) l'
  end.
Definition js_unique (l : list string) : list string := dedup_from [] l.

Lemma dedup_from_In x seen l :
  In x (dedup_from seen l) ↔ In x l ∧ ¬ In x seen.
Proof.
  revert seen. induction l as [|y l IH]; intros seen; simpl; [tauto|].
  destruct (str_mem y seen) eqn:E.
  - apply str_mem_true in E. rewrite IH. naive_solver.
  - apply str_mem_false in E. simpl. rewrite IH. simpl.
    destruct (decide (y = x)); naive_solver.
Qed.

Lemma dedup_from_NoDup seen l : NoDup (dedup_from seen l).
Proof.
  revert seen. induction l as [|y l IH]; intros seen; simpl; [constructor|].
  destruct (str_mem y seen) eqn:E; [done|]. constructor; [|done].
  rewrite list_elem_of_In, dedup_from_In. simpl. naive_solver.
Qed.

Lemma js_unique_In x l : In x (js_unique l) ↔ In x l.
Proof. unfold js_unique. rewrite dedup_from_In. simpl. tauto. Qed.

Lemma js_unique_NoDup l : NoDup (js_unique l).
Proof. apply dedup_from_NoDup. Qed.

(** ** Sums of a numeric column *)

Definition qsum {R} (f : R → Q) (t : list R) : Q :=
  fold_right (λ r acc, (f r + acc)%Q) 0%Q t.

Section qsum.
Context {R : Type}.
Local Open Scope Q_scope.

Lemma qsum_app (f : R → Q) t1 t2 : qsum f (t1 ++ t2) == qsum f t1 + qsum f t2.
Proof. induction t1 as [|r t IH]; simpl; [lra|]. rewrite IH. lra. Qed.

Lemma qsum_single (f : R → Q) r : qsum f [r] == f r.
Proof. simpl. lra. Qed.

Lemma qsum_ext (f g : R → Q) t :
  (∀ r, In r t → f r == g r) → qsum f t == qsum g t.
Proof.
  induction t as [|r t IH]; intros H; simpl; [reflexivity|].
  rewrite (H r (or_introl eq_refl)), IH; [reflexivity|].
  intros; apply H; by right.
Qed.

Lemma qsum_nonneg (f : R → Q) t :
  (∀ r, In r t → 0 <= f r) → 0 <= qsum f t.
Proof.
  induction t as [|r t IH]; intros H; simpl; [lra|].
  pose proof (H r (or_introl eq_refl)).
  assert (0 <= qsum f t) by (apply IH; intros; apply H; by right). lra.
Qed.

Lemma qsum_member (f : R → Q) t r :
  (∀ r, In r t → 0 <= f r) → In r t → f r <= qsum f t.
Proof.
  induction t as [|r' t IH]; intros H Hin; simpl; [done|].
  destruct Hin as [->|Hin].
  - assert (0 <= qsum f t) by (apply qsum_nonneg; intros; apply H; by right).
    lra.
  - pose proof (H r' (or_introl eq_refl)).
    assert (f r <= qsum f t) by (apply IH; [intros; apply H; by right|done]).
    lra.
Qed.
(** Updating one row changes the sum by the change of that row. *)
Lemma qsum_update_one (h : R → Q) (p : R → bool) (f : R → R) t r :
  NoDup t → In r t → p r = true → (∀ y, In y t → p y = true → y = r) →
  qsum (λ x, h (if p x then f x else x)) t + h r == qsum h t + h (f r).
Proof.
  intros Hnd Hr Hp Hone. induction t as [|x t IH]; [done|]. simpl.
  apply NoDup_cons in Hnd as [Hni Hnd]. apply not_elem_of_In in Hni.
  destruct Hr as [->|Hr].
  - rewrite Hp. rewrite (qsum_ext (λ x, h (if p x then f x else x)) h t); [lra|].
    intros y Hy. destruct (p y) eqn:Hpy; [|reflexivity].
    rewrite (Hone y (or_intror Hy) Hpy) in Hy. done.
  - assert (p x = false) as ->.
    { apply not_true_iff_false. intros Hx. by rewrite (Hone x (or_introl eq_refl) Hx) in Hni. }
    specialize (IH Hnd Hr (λ y Hy, Hone y (or_intror Hy))). lra.
Qed.
End qsum.

(** ** Sorting

    [[...values].sort(compare)]: [le x y] is [compare(x, y) <= 0].  ES2019
    sorts are stable, so for a consistent comparator the result is this one. *)

Section sort_by.
Context {A : Type} (le : A → A → bool).

Fixpoint insert_by (x : A) (l : list A) : list A :=
  match l with
  | [] => [x]
  | y :: l' => if le x y then x :: y :: l' else y :: insert_by x l'
  end.

Definition sort_by (l : list A) : list A := foldr insert_by [] l.

Lemma insert_by_perm x l : insert_by x l ≡ₚ x :: l.
Proof.
  induction l as [|y l IH]; simpl; [done|]. destruct (le x y); [done|].
  rewrite IH. constructor.
Qed.

Lemma sort_by_perm l : sort_by l ≡ₚ l.
Proof. induction l as [|x l IH]; simpl; [done|]. by rewrite insert_by_perm, IH. Qed.

Lemma sort_by_In x l : In x (sort_by l) ↔ In x l.
Proof. by rewrite <- !list_elem_of_In, sort_by_perm. Qed.

Lemma sort_by_length l : length (sort_by l) = length l.
Proof. by rewrite sort_by_perm. Qed.

Context (le_total : ∀ x y, le x y = true ∨ le y x = true).
Context (le_trans : ∀ x y z, le x y = true → le y z = true → le x z = true).

Lemma insert_by_sorted x l :
  StronglySorted (λ a b, le a b = true) l →
  StronglySorted (λ a b, le a b = true) (insert_by x l).
Proof using le_total le_trans.
  induction 1 as [|y l Hs IH Hall]; simpl; [repeat constructor|].
  destruct (le x y) eqn:Hxy.
  - constructor; [by constructor|]. constructor; [done|].
    eapply Forall_impl; [exact Hall|]. eauto.
  - constructor; [done|]. rewrite Forall_forall in Hall |- *.
    intros z Hz. rewrite insert_by_perm, elem_of_cons in Hz.
    destruct Hz as [->|Hz]; [|by apply Hall].
    destruct (le_total x y); congruence.
Qed.

Lemma sort_by_sorted l : StronglySorted (λ a b, le a b = true) (sort_by l).
Proof using le_total le_trans.
  induction l; simpl; [constructor|]. by apply insert_by_sorted.
Qed.

(** When ties are impossible the result depends on the multiset only. *)
Lemma sort_by_perm_eq l1 l2 :
  (∀ x y, In x l1 → In y l1 → le x y = true → le y x = true → x = y) →
  l1 ≡ₚ l2 → sort_by l1 = sort_by l2.
Proof using le_total le_trans.
  intros Hanti Hp. apply (StronglySorted_unique_strong (λ a b, le a b = true)).
  - intros x y Hx Hy. rewrite sort_by_perm in Hx. rewrite sort_by_perm, <- Hp in Hy.
    rewrite list_elem_of_In in Hx, Hy. auto.
  - apply sort_by_sorted.
  - apply sort_by_sorted.
  - by rewrite !sort_by_perm.
Qed.
End sort_by.

(** Comparators that agree on the members sort the same way. *)
Lemma sort_by_ext {A} (le1 le2 : A → A → bool) l :
  (∀ x y, In x l → In y l → le1 x y = le2 x y) → sort_by le1 l = sort_by le2 l.
Proof.
  induction l as [|x l IH]; intros H; [done|]. simpl.
  rewrite <- IH by (intros; apply H; by right).
  assert (Hin : ∀ y, In y (sort_by le1 l) → le1 x y = le2 x y)
    by (intros y Hy%sort_by_In; apply H; [by left|by right]).
  clear H IH. induction (sort_by le1 l) as [|y m IHm]; [done|]. simpl.
  rewrite <- (Hin y) by (by left). rewrite IHm by (intros; apply Hin; by right). done.
Qed.

(** ** Comparison functions

    [LawfulCompare] is what the comparator of a sort has to satisfy; it is
    inherited by keys and by the lexicographic [a || b] of comparators. *)

Class LawfulCompare {A} (c : A → A → comparison) : Prop := {
  cmp_opp x y : c y x = CompOpp (c x y);
  cmp_lt_trans x y z : c x y = Lt → c y z = Lt → c x z = Lt;
  cmp_eq_l x y z : c x y = Eq → c x z = c y z
}.

Definition cmp_le {A} (c : A → A → comparison) (x y : A) : bool :=
  match c x y with Gt => false | _ => true end.
Definition cmp_on {A B} (f : A → B) (c : B → B → comparison) (x y : A) : comparison :=
  c (f x) (f y).
Definition cmp_lex {A} (c1 c2 : A → A → comparison) (x y : A) : comparison :=
  match c1 x y with Eq => c2 x y | r => r end.

Section comparisons.
Context {A : Type}.

Lemma cmp_le_total (c : A → A → comparison) `{!LawfulCompare c} x y :
  cmp_le c x y = true ∨ cmp_le c y x = true.
Proof. unfold cmp_le. rewrite (cmp_opp x y). destruct (c x y); auto. Qed.

Lemma cmp_le_trans (c : A → A → comparison) `{!LawfulCompare c} x y z :
  cmp_le c x y = true → cmp_le c y z = true → cmp_le c x z = true.
Proof.
  unfold cmp_le. destruct (c x y) eqn:E1; [|intros _|done].
  - by rewrite (cmp_eq_l x y z E1).
  - destruct (c y z) eqn:E2; [intros _|by rewrite (cmp_lt_trans x y z)|done].
    pose proof (cmp_opp y z) as E3. rewrite E2 in E3.
    rewrite (cmp_opp z x), (cmp_eq_l z y x E3), (cmp_opp x y), E1. done.
Qed.

Lemma cmp_le_antisym (c : A → A → comparison) `{!LawfulCompare c} x y :
  cmp_le c x y = true → cmp_le c y x = true → c x y = Eq.
Proof. unfold cmp_le. rewrite (cmp_opp x y). by destruct (c x y). Qed.

#[export] Instance cmp_on_lawful {B} (f : A → B) c : LawfulCompare c → LawfulCompare (cmp_on f c).
Proof. intros Hc. split; unfold cmp_on; intros *; apply Hc. Qed.

#[export] Instance cmp_lex_lawful (c1 c2 : A → A → comparison) :
  LawfulCompare c1 → LawfulCompare c2 → LawfulCompare (cmp_lex c1 c2).
Proof.
  intros H1 H2. split; unfold cmp_lex; intros *.
  - rewrite (cmp_opp (c := c1) x y). destruct (c1 x y); try done. apply H2.
  - destruct (c1 x y) eqn:E1; [|intros _|done].
    + rewrite (cmp_eq_l (c := c1) x y z E1). destruct (c1 y z); try done. apply H2.
    + destruct (c1 y z) eqn:E2; [intros _|by rewrite (cmp_lt_trans (c := c1) x y z)|done].
      pose proof (cmp_opp (c := c1) y z) as E3. rewrite E2 in E3.
      rewrite (cmp_opp (c := c1) z x), (cmp_eq_l (c := c1) z y x E3), (cmp_opp (c := c1) x y), E1. done.
  - destruct (c1 x y) eqn:E1; [|done..]. rewrite (cmp_eq_l (c := c1) x y z E1).
    destruct (c1 y z); try done. apply H2.
Qed.
End comparisons.

#[export] Instance Z_compare_lawful : LawfulCompare Z.compare.
Proof.
  split; intros x y.
  - apply Z.compare_antisym.
  - intros z. rewrite !Z.compare_lt_iff. lia.
  - intros z ->%Z.compare_eq. done.
Qed.

(** [lia] with Euclidean division by constants. *)
Ltac dlia := Z.to_euclidean_division_equations; lia.
