(* ===== verification/JsNumber.v ===== *)
(** JavaScript numbers.

    A number of the program is an IEEE 754 binary64 value, so it is modelled by
    the kernel's primitive floats: [+ - * /], [<], [<=], [===] are the
    operations the program runs, NaN and the infinities included.  This file
    adds the [Math] and [Number] functions the components use and the order
    theory of binary64: every non-NaN float has an exact integer value
    ([num_val], in units of the smallest subnormal) that the comparisons and
    the sign of a subtraction agree with. *)

From Stdlib Require Export PrimFloat.
From Stdlib Require Import FloatAxioms FloatOps SpecFloat.
From S2P Require Import Prelude.
Open Scope Z_scope.

Abbreviation number := PrimFloat.float.

(** ** Conversions *)

(** The number nearest to an integer: exact for [|z| <= 2^53]. *)
Definition num_of_Z (z : Z) : number :=
  SF2Prim (binary_normalize prec emax z 0 false).

(** The number as an integer, when it is one ([Number.isInteger]). *)
Definition num_to_Z (x : number) : option Z :=
  match Prim2SF x with
  | S754_zero _ => Some 0
  | S754_finite s m e =>
      let z := if s then Z.neg m else Z.pos m in
      if 0 <=? e then Some (z * 2 ^ e)
      else if z mod 2 ^ (- e) =? 0 then Some (z / 2 ^ (- e)) else None
  | _ => None
  end.

(** ** Math and Number *)

(** [Number.isFinite]. *)
Definition num_is_finite (x : number) : bool := is_finite x.

(** [Number.isSafeInteger]. *)
Definition num_is_safe_integer (x : number) : bool :=
  match num_to_Z x with
  | Some z => (Z.abs z <=? 2 ^ 53 - 1)
  | None => false
  end.

(** [Math.floor]: NaN, infinities, zeros and integers are fixed points. *)
Definition math_floor (x : number) : number :=
  match Prim2SF x with
  | S754_finite s m e =>
      if 0 <=? e then x
      else num_of_Z ((if s then Z.neg m else Z.pos m) / 2 ^ (- e))
  | _ => x
  end.

(** [Math.round]: the nearest integer, ties towards plus infinity, computed
    exactly (it is not [floor(x + 0.5)]); [-0] for [-0.5 <= x < 0]. *)
Definition math_round (x : number) : number :=
  match Prim2SF x with
  | S754_finite s m e =>
      let z := if s then Z.neg m else Z.pos m in
      if 0 <=? e then x
      else let r := (2 * z + 2 ^ (- e)) / (2 * 2 ^ (- e)) in
           if r =? 0 then (if s then neg_zero else zero) else num_of_Z r
  | _ => x
  end.

(** [Math.min] and [Math.max] of two arguments: NaN is contagious and [-0] is
    below [+0]. *)
Definition math_min (x y : number) : number :=
  if is_nan x then x else if is_nan y then y
  else if (x <? y)%float then x else if (y <? x)%float then y
  else if get_sign x then x else y.
Definition math_max (x y : number) : number :=
  if is_nan x then x else if is_nan y then y
  else if (x <? y)%float then y else if (y <? x)%float then x
  else if get_sign x then y else x.

Definition math_min_list (l : list number) : number := foldr math_min infinity l.

(** [x || y] on numbers: [0], [-0] and NaN are falsy. *)
Definition num_truthy (x : number) : bool := negb (is_nan x || (x =? 0)%float).
Definition num_or (x y : number) : number := if num_truthy x then x else y.

(** [2 ** n] for the exponents that occur. *)
Definition two_pow (n : nat) : number := num_of_Z (2 ^ Z.of_nat n).

(** [Number.EPSILON], [Number.MAX_SAFE_INTEGER]. *)
Definition NUM_EPSILON : number := (0x1p-52)%float.
Definition MAX_SAFE_INTEGER : Z := 2 ^ 53 - 1.

Example math_round_half : math_round (2.5)%float = (3)%float.
Proof. reflexivity. Qed.
Example math_round_neg_half : math_round (-2.5)%float = (-2)%float.
Proof. reflexivity. Qed.
Example math_floor_neg : math_floor (-0.5)%float = (-1)%float.
Proof. reflexivity. Qed.
Example math_round_not_floor :
  math_round (0.49999999999999994)%float = (0)%float.
Proof. reflexivity. Qed.

(** ** Exact values

    [sf_val] is the value of a specification float times [2^1074]: an integer.
    The infinities get a value beyond every finite one. *)

(** Above every finite value, which stays below [2^53 * 2^(971 + 1074)]. *)
Definition sf_inf : Z := 2 ^ 2098.

Definition sf_val (x : spec_float) : Z :=
  match x with
  | S754_zero _ => 0
  | S754_finite s m e => (if s then Z.neg m else Z.pos m) * 2 ^ (e + 1074)
  | S754_infinity s => if s then - sf_inf else sf_inf
  | S754_nan => 0
  end.

Definition sf_is_nan (x : spec_float) : bool :=
  match x with S754_nan => true | _ => false end.

Definition num_val (x : number) : option Z :=
  let s := Prim2SF x in if sf_is_nan s then None else Some (sf_val s).

Lemma digits2_bounds m :
  2 ^ (Z.pos (digits2_pos m) - 1) <= Z.pos m < 2 ^ Z.pos (digits2_pos m).
Proof.
  induction m as [m IH|m IH|]; cbn [digits2_pos]; [..|done];
    rewrite Pos2Z.inj_succ, Z.sub_1_r, Z.pred_succ;
    rewrite (Pos2Z.inj_xI m) || rewrite (Pos2Z.inj_xO m);
    set (d := Z.pos (digits2_pos m)) in *;
    rewrite Z.pow_succ_r by lia;
    replace (2 ^ d) with (2 * 2 ^ (d - 1)) in *
      by (rewrite <- Z.pow_succ_r by lia; f_equal; lia);
    lia.
Qed.

Definition sf_valid (x : spec_float) : bool := valid_binary prec emax x.

(** What validity of a finite binary64 says: the mantissa has at most 53
    digits, exactly 53 above the smallest exponent, and the exponent is in
    range. *)
Lemma valid_finite s m e :
  sf_valid (S754_finite s m e) = true →
  -1074 <= e <= 971 ∧ Z.pos m < 2 ^ 53 ∧ (-1074 < e → 2 ^ 52 <= Z.pos m).
Proof.
  unfold sf_valid, valid_binary, bounded, canonical_mantissa, fexp,
    SpecFloat.emin, prec, emax.
  intros [H1%Z.eqb_eq H2%Z.leb_le]%andb_prop.
  pose proof (digits2_bounds m) as [Hlo Hhi].
  set (d := Z.pos (digits2_pos m)) in *.
  assert (1 <= d) by lia.
  split_and!; [lia|lia| |].
  - eapply Z.lt_le_trans; [exact Hhi|]. apply Z.pow_le_mono_r; lia.
  - intros He. assert (d = 53) as -> by lia. exact Hlo.
Qed.

Lemma pow2_pos z : 0 <= z → 0 < 2 ^ z.
Proof. intros. apply Z.pow_pos_nonneg; lia. Qed.

Lemma sf_inf_pos : 0 < sf_inf.
Proof. apply pow2_pos; lia. Qed.

(** A finite value with a larger exponent is larger. *)
Lemma sf_val_exp_lt m1 e1 m2 e2 :
  sf_valid (S754_finite false m1 e1) = true →
  sf_valid (S754_finite false m2 e2) = true →
  e1 < e2 →
  Z.pos m1 * 2 ^ (e1 + 1074) < Z.pos m2 * 2 ^ (e2 + 1074).
Proof.
  intros (?&Hm1&_)%valid_finite (?&_&Hm2)%valid_finite Hlt.
  specialize (Hm2 ltac:(lia)).
  pose proof (pow2_pos (e1 + 1074) ltac:(lia)).
  apply Z.lt_le_trans with (2 ^ 53 * 2 ^ (e1 + 1074)).
  - apply Z.mul_lt_mono_pos_r; lia.
  - transitivity (2 ^ 52 * 2 ^ (e2 + 1074)).
    + rewrite <- !Z.pow_add_r by lia. apply Z.pow_le_mono_r; lia.
    + apply Z.mul_le_mono_nonneg_r; [|lia]. pose proof (pow2_pos (e2 + 1074)); lia.
Qed.

Lemma sf_val_finite_bound s m e :
  sf_valid (S754_finite s m e) = true →
  - sf_inf < sf_val (S754_finite s m e) < sf_inf.
Proof.
  intros (?&Hm&_)%valid_finite. cbn [sf_val].
  pose proof (pow2_pos (e + 1074) ltac:(lia)).
  assert (Z.pos m * 2 ^ (e + 1074) < sf_inf).
  { apply Z.lt_le_trans with (2 ^ 53 * 2 ^ (e + 1074)).
    - apply Z.mul_lt_mono_pos_r; lia.
    - rewrite <- Z.pow_add_r by lia. apply Z.pow_le_mono_r; lia. }
  pose proof sf_inf_pos.
  assert (0 < Z.pos m * 2 ^ (e + 1074)) by (apply Z.mul_pos_pos; lia).
  destruct s; [rewrite <- Pos2Z.opp_pos, Z.mul_opp_l|]; lia.
Qed.

(** The comparison of valid binary64 values is the comparison of their exact
    values. *)
Lemma SFcompare_pos_val m1 e1 m2 e2 :
  sf_valid (S754_finite false m1 e1) = true →
  sf_valid (S754_finite false m2 e2) = true →
  match e1 ?= e2 with
  | Lt => Lt | Gt => Gt | Eq => Pos.compare_cont Eq m1 m2
  end = (Z.pos m1 * 2 ^ (e1 + 1074) ?= Z.pos m2 * 2 ^ (e2 + 1074)).
Proof.
  intros V1 V2. symmetry. destruct (Z.compare_spec e1 e2) as [->|Hlt|Hgt].
  - symmetry. apply (Zmult_compare_compat_r (Z.pos m1) (Z.pos m2)).
    apply Z.lt_gt, pow2_pos. apply valid_finite in V2. lia.
  - apply Z.compare_lt_iff. by apply sf_val_exp_lt.
  - apply Z.compare_gt_iff. by apply sf_val_exp_lt.
Qed.

Lemma valid_sign s1 s2 m e :
  sf_valid (S754_finite s1 m e) = sf_valid (S754_finite s2 m e).
Proof. done. Qed.

Lemma SFcompare_val x y :
  sf_valid x = true → sf_valid y = true →
  sf_is_nan x = false → sf_is_nan y = false →
  SFcompare x y = Some (sf_val x ?= sf_val y).
Proof.
  intros Vx Vy Nx Ny.
  pose proof sf_inf_pos as Hbig.
  destruct x as [sx|sx| |sx mx ex], y as [sy|sy| |sy my ey]; try discriminate;
    cbn [SFcompare]; f_equal.
  - cbn [sf_val]. destruct sy; symmetry; [apply Z.compare_gt_iff|apply Z.compare_lt_iff]; lia.
  - cbn [sf_val]. apply valid_finite in Vy as ((?&?)&_).
    pose proof (pow2_pos (ey + 1074) ltac:(lia)).
    destruct sy; symmetry; [apply Z.compare_gt_iff|apply Z.compare_lt_iff]; nia.
  - cbn [sf_val]. destruct sx; symmetry; [apply Z.compare_lt_iff|apply Z.compare_gt_iff]; lia.
  - cbn [sf_val]. destruct sx, sy; symmetry;
      [apply Z.compare_refl|apply Z.compare_lt_iff|apply Z.compare_gt_iff|apply Z.compare_refl]; lia.
  - apply sf_val_finite_bound in Vy. cbn [sf_val] in Vy |- *.
    destruct sx; symmetry; [apply Z.compare_lt_iff|apply Z.compare_gt_iff]; lia.
  - cbn [sf_val]. apply valid_finite in Vx as ((?&?)&_).
    pose proof (pow2_pos (ex + 1074) ltac:(lia)).
    destruct sx; symmetry; [apply Z.compare_lt_iff|apply Z.compare_gt_iff]; nia.
  - apply sf_val_finite_bound in Vx. cbn [sf_val] in Vx |- *.
    destruct sy; symmetry; [apply Z.compare_gt_iff|apply Z.compare_lt_iff]; lia.
  - pose proof Vx as ((?&?)&_)%valid_finite. pose proof Vy as ((?&?)&_)%valid_finite.
    pose proof (pow2_pos (ex + 1074) ltac:(lia)).
    pose proof (pow2_pos (ey + 1074) ltac:(lia)).
    rewrite (valid_sign sx false) in Vx. rewrite (valid_sign sy false) in Vy.
    pose proof (SFcompare_pos_val _ _ _ _ Vx Vy) as Hc.
    destruct sx, sy; cbn [sf_val].
    + rewrite <- !Pos2Z.opp_pos, !Z.mul_opp_l, Z.compare_opp.
      rewrite (Z.compare_antisym (Z.pos mx * _)), <- Hc. by destruct (ex ?= ey).
    + symmetry; apply Z.compare_lt_iff; nia.
    + symmetry; apply Z.compare_gt_iff; nia.
    + done.
Qed.

Lemma Prim2SF_sf_valid x : sf_valid (Prim2SF x) = true.
Proof. apply Prim2SF_valid. Qed.

Definition opt_cmp (f : Z → Z → bool) (a b : option Z) : bool :=
  match a, b with Some x, Some y => f x y | _, _ => false end.

Lemma num_compare_val x y :
  SFcompare (Prim2SF x) (Prim2SF y) =
  match num_val x, num_val y with
  | Some a, Some b => Some (a ?= b)
  | _, _ => None
  end.
Proof.
  unfold num_val.
  destruct (sf_is_nan (Prim2SF x)) eqn:Nx.
  { by destruct (Prim2SF x). }
  destruct (sf_is_nan (Prim2SF y)) eqn:Ny.
  { destruct (Prim2SF y); try done. by destruct (Prim2SF x). }
  apply SFcompare_val; auto using Prim2SF_sf_valid.
Qed.

(** The boolean comparisons are those of the exact values, false on NaN. *)
Lemma num_ltb_val x y : (x <? y)%float = opt_cmp Z.ltb (num_val x) (num_val y).
Proof.
  rewrite FloatAxioms.ltb_spec. unfold SFltb. rewrite num_compare_val.
  destruct (num_val x) as [a|], (num_val y) as [b|]; try done.
Qed.

Lemma num_leb_val x y : (x <=? y)%float = opt_cmp Z.leb (num_val x) (num_val y).
Proof.
  rewrite FloatAxioms.leb_spec. unfold SFleb. rewrite num_compare_val.
  destruct (num_val x) as [a|], (num_val y) as [b|]; try done.
Qed.

Lemma num_eqb_val x y : (x =? y)%float = opt_cmp Z.eqb (num_val x) (num_val y).
Proof.
  rewrite FloatAxioms.eqb_spec. unfold SFeqb. rewrite num_compare_val.
  destruct (num_val x) as [a|], (num_val y) as [b|]; try done.
  simpl. destruct (Z.compare_spec a b), (Z.eqb_spec a b); try done; lia.
Qed.

Lemma is_nan_val x : is_nan x = match num_val x with None => true | _ => false end.
Proof.
  unfold is_nan. rewrite num_eqb_val.
  destruct (num_val x) as [a|]; simpl; [by rewrite Z.eqb_refl | done].
Qed.

Lemma num_truthy_val x :
  num_truthy x = match num_val x with None => false | Some a => negb (a =? 0) end.
Proof.
  unfold num_truthy. rewrite is_nan_val, num_eqb_val.
  replace (num_val 0%float) with (Some 0) by reflexivity.
  by destruct (num_val x).
Qed.

Lemma math_min_val x y a b :
  num_val x = Some a → num_val y = Some b → num_val (math_min x y) = Some (Z.min a b).
Proof.
  intros Hx Hy. unfold math_min. rewrite !is_nan_val, !num_ltb_val, Hx, Hy. simpl.
  destruct (Z.ltb_spec a b); [rewrite Hx; f_equal; lia|].
  destruct (Z.ltb_spec b a); [rewrite Hy; f_equal; lia|].
  assert (a = b) as -> by lia. rewrite Z.min_id. by destruct (get_sign x).
Qed.

Lemma math_max_val x y a b :
  num_val x = Some a → num_val y = Some b → num_val (math_max x y) = Some (Z.max a b).
Proof.
  intros Hx Hy. unfold math_max. rewrite !is_nan_val, !num_ltb_val, Hx, Hy. simpl.
  destruct (Z.ltb_spec a b); [rewrite Hy; f_equal; lia|].
  destruct (Z.ltb_spec b a); [rewrite Hx; f_equal; lia|].
  assert (a = b) as -> by lia. rewrite Z.max_id. by destruct (get_sign x).
Qed.

Lemma num_is_finite_val x :
  num_is_finite x = match num_val x with
                    | Some a => (- sf_inf <? a) && (a <? sf_inf)
                    | None => false end.
Proof.
  unfold num_is_finite, is_finite. rewrite is_nan_val.
  unfold is_infinity. rewrite num_eqb_val.
  assert (Habs : num_val (abs x) = Z.abs <$> num_val x).
  { unfold num_val. rewrite abs_spec.
    destruct (Prim2SF x) as [s|s| |s m e] eqn:E; simpl; try done.
    - destruct s; simpl; f_equal; lia.
    - f_equal. assert (-1074 <= e).
      { pose proof (Prim2SF_sf_valid x) as V. rewrite E in V.
        apply valid_finite in V. lia. }
      rewrite Z.abs_mul, (Z.abs_eq (2 ^ _)) by (apply Z.pow_nonneg; lia).
      by destruct s. }
  rewrite Habs. replace (num_val infinity) with (Some (sf_inf)) by reflexivity.
  destruct (num_val x) as [a|] eqn:Hx; simpl; [|done].
  pose proof sf_inf_pos.
  assert (Z.abs a <= sf_inf).
  { unfold num_val in Hx. destruct (sf_is_nan (Prim2SF x)) eqn:N; [done|].
    injection Hx as <-. pose proof (Prim2SF_sf_valid x) as V.
    destruct (Prim2SF x) as [s|s| |s m e].
    - done.
    - destruct s; simpl; lia.
    - done.
    - apply sf_val_finite_bound in V. lia. }
  destruct (Z.eqb_spec (Z.abs a) (sf_inf)), (Z.ltb_spec (- sf_inf) a),
    (Z.ltb_spec a (sf_inf)); simpl; try done; lia.
Qed.

(** ** The sign of a subtraction

    Rounding never turns a nonzero difference into zero (gradual underflow),
    so [a - b] has the sign of the comparison of [a] and [b].  This is what
    makes the subtraction comparators of the program order numbers. *)

Lemma shr_1_m mrs : 0 <= shr_m mrs → shr_m (shr_1 mrs) = shr_m mrs / 2.
Proof.
  destruct mrs as [m r s]. simpl. intros Hm.
  destruct m as [|[p|p|]|p]; simpl; try done; try lia.
  - rewrite (Pos2Z.inj_xI p). apply Z.div_unique with 1; lia.
  - rewrite (Pos2Z.inj_xO p). apply Z.div_unique with 0; lia.
Qed.

Lemma iter_shr_m n mrs :
  0 <= shr_m mrs → shr_m (SpecFloat.iter_pos shr_1 n mrs) = shr_m mrs / 2 ^ Z.pos n.
Proof.
  revert mrs. induction n as [n IH|n IH|]; intros mrs Hm; cbn [SpecFloat.iter_pos].
  - assert (0 <= shr_m (shr_1 mrs)) by (rewrite shr_1_m by done; apply Z.div_pos; lia).
    rewrite !IH, shr_1_m by (rewrite ?IH, ?shr_1_m by done; repeat apply Z.div_pos; lia).
    rewrite !Z.div_div by lia. f_equal.
    rewrite <- Z.pow_add_r, <- Z.pow_succ_r by lia. f_equal. lia.
  - rewrite !IH by (rewrite ?IH by done; try apply Z.div_pos; lia).
    rewrite Z.div_div by lia. f_equal.
    rewrite <- Z.pow_add_r by lia. f_equal. lia.
  - rewrite shr_1_m by done. done.
Qed.

(** Rounding to the format keeps a positive mantissa positive. *)
Lemma shr_fexp_pos m e l :
  1 <= m → -1074 <= e →
  ∃ mrs e', shr_fexp prec emax m e l = (mrs, e') ∧ 1 <= shr_m mrs ∧ -1074 <= e'.
Proof.
  intros Hm He. unfold shr_fexp, shr.
  assert (Hrec : shr_m (shr_record_of_loc m l) = m) by by destruct l as [|[]].
  destruct m as [|m|m]; try lia. cbn [Zdigits2].
  pose proof (digits2_bounds m) as [Hlo _].
  unfold fexp, SpecFloat.emin, prec, emax.
  set (d := Z.pos (digits2_pos m)) in *.
  destruct (_ - e) as [|p|p] eqn:Hp.
  - eexists _, _. split_and!; [done|lia|lia].
  - eexists _, _. split_and!; [done| |lia].
    rewrite iter_shr_m by lia. rewrite Hrec.
    assert (Z.pos p <= d - 53) by lia.
    apply Z.div_le_lower_bound; [apply pow2_pos; lia|].
    transitivity (2 ^ (d - 1)); [|lia].
    rewrite Z.mul_1_r. apply Z.pow_le_mono_r; lia.
  - eexists _, _. split_and!; [done|lia|lia].
Qed.

Definition sf_signed (s : bool) (x : spec_float) : Prop :=
  match x with
  | S754_finite s' _ _ | S754_infinity s' => s' = s
  | _ => False
  end.

Lemma binary_round_aux_sign s m e l :
  1 <= m → -1074 <= e → sf_signed s (binary_round_aux prec emax s m e l).
Proof.
  intros Hm He. unfold binary_round_aux.
  destruct (shr_fexp_pos m e l Hm He) as (mrs & e' & -> & Hm' & He').
  assert (Hr : 1 <= round_nearest_even (shr_m mrs) (loc_of_shr_record mrs)).
  { unfold round_nearest_even. destruct (loc_of_shr_record mrs) as [|[]]; try lia.
    destruct (Z.even _); lia. }
  destruct (shr_fexp_pos _ e' loc_Exact Hr He') as (mrs2 & e2 & -> & Hm2 & _).
  destruct (shr_m mrs2); try lia. by destruct (_ <=? _).
Qed.

Lemma binary_round_sign s m e :
  -1074 <= e → sf_signed s (binary_round prec emax s m e).
Proof.
  intros He. unfold binary_round, shl_align.
  destruct (fexp _ _ _ - e) as [|p|p] eqn:Hp; apply binary_round_aux_sign; try lia.
  unfold fexp, SpecFloat.emin, prec, emax in *. lia.
Qed.

Lemma binary_normalize_sign z e sz :
  -1074 <= e →
  match z with
  | 0 => binary_normalize prec emax z e sz = S754_zero sz
  | Z.pos _ => sf_signed false (binary_normalize prec emax z e sz)
  | Z.neg _ => sf_signed true (binary_normalize prec emax z e sz)
  end.
Proof. intros He. destruct z; simpl; [done|..]; by apply binary_round_sign. Qed.

Lemma shl_align_val m e e' :
  e' <= e → Z.pos (shl_align m e e').1 = Z.pos m * 2 ^ (e - e').
Proof.
  intros He. unfold shl_align. destruct (e' - e) as [|p|p] eqn:Hp; simpl; try lia.
  - replace (e - e') with 0 by lia. lia.
  - replace (e - e') with (Z.pos p) by lia.
    clear. revert m. induction p using Pos.peano_ind; intros m.
    + simpl. lia.
    + rewrite Pos.iter_succ, Pos2Z.inj_xO, IHp, Pos2Z.inj_succ, Z.pow_succ_r by lia. ring.
Qed.

(** Comparing a float with zero sees only its sign. *)
Lemma sf_signed_val s x :
  sf_valid x = true → sf_signed s x →
  sf_is_nan x = false ∧ if s then sf_val x < 0 else 0 < sf_val x.
Proof.
  pose proof sf_inf_pos.
  intros V Hs. destruct x as [|s'| |s' m e]; simpl in Hs; try done; subst s';
    (split; [done|]); simpl.
  - destruct s; lia.
  - apply valid_finite in V. pose proof (pow2_pos (e + 1074) ltac:(lia)).
    destruct s; nia.
Qed.

Definition sf_zero_or_nan (x : spec_float) : Prop :=
  match x with S754_zero _ | S754_nan => True | _ => False end.

Lemma SFsub_finite_sign sx mx ex sy my ey :
  sf_valid (S754_finite sx mx ex) = true →
  sf_valid (S754_finite sy my ey) = true →
  let d := SFsub prec emax (S754_finite sx mx ex) (S754_finite sy my ey) in
  match sf_val (S754_finite sx mx ex) ?= sf_val (S754_finite sy my ey) with
  | Lt => sf_signed true d
  | Gt => sf_signed false d
  | Eq => sf_zero_or_nan d
  end.
Proof.
  intros (?&_&_)%valid_finite (?&_&_)%valid_finite. cbn [SFsub sf_val].
  set (ez := Z.min ex ey). cbv zeta.
  rewrite (shl_align_val mx ex ez), (shl_align_val my ey ez) by lia.
  set (dz := cond_Zopp sx _ - cond_Zopp sy _).
  assert (Hd : (if sx then Z.neg mx else Z.pos mx) * 2 ^ (ex + 1074)
               - (if sy then Z.neg my else Z.pos my) * 2 ^ (ey + 1074)
               = dz * 2 ^ (ez + 1074)).
  { unfold dz. replace (ex + 1074) with ((ex - ez) + (ez + 1074)) by lia.
    replace (ey + 1074) with ((ey - ez) + (ez + 1074)) by lia.
    rewrite (Z.pow_add_r 2 (ex - ez)), (Z.pow_add_r 2 (ey - ez)) by lia.
    destruct sx, sy; cbn [cond_Zopp]; rewrite <- ?Pos2Z.opp_pos; ring. }
  pose proof (pow2_pos (ez + 1074) ltac:(lia)) as Hp.
  pose proof (binary_normalize_sign dz ez false ltac:(lia)) as Hn.
  destruct (Z.compare_spec ((if sx then Z.neg mx else Z.pos mx) * 2 ^ (ex + 1074))
              ((if sy then Z.neg my else Z.pos my) * 2 ^ (ey + 1074))) as [He|Hl|Hg];
    destruct dz as [|p|p]; try nia.
  - by rewrite Hn.
  - exact Hn.
  - exact Hn.
Qed.

Lemma SFsub_sign x y :
  sf_valid x = true → sf_valid y = true →
  sf_is_nan x = false → sf_is_nan y = false →
  match sf_val x ?= sf_val y with
  | Lt => sf_signed true (SFsub prec emax x y)
  | Gt => sf_signed false (SFsub prec emax x y)
  | Eq => sf_zero_or_nan (SFsub prec emax x y)
  end.
Proof.
  intros Vx Vy Nx Ny.
  pose proof (SFcompare_val x y Vx Vy Nx Ny) as Hc.
  destruct x as [sx|sx| |sx mx ex], y as [sy|sy| |sy my ey]; try discriminate;
    [..|by apply SFsub_finite_sign];
    revert Hc; destruct (sf_val _ ?= sf_val _); cbn [SFcompare SFsub];
    try destruct sx; try destruct sy; cbn; intros [=]; done.
Qed.

(** The three observations the program makes of [a - b]. *)
Lemma num_sub_val x y a b :
  num_val x = Some a → num_val y = Some b →
  ((x - y <? 0)%float = (a <? b)) ∧ ((0 <? x - y)%float = (b <? a)) ∧
  num_truthy (x - y)%float = negb (a =? b).
Proof.
  unfold num_val at 1 2.
  destruct (sf_is_nan (Prim2SF x)) eqn:Nx; [done|]. intros [= Ha].
  destruct (sf_is_nan (Prim2SF y)) eqn:Ny; [done|]. intros [= Hb].
  pose proof (SFsub_sign _ _ (Prim2SF_sf_valid x) (Prim2SF_sf_valid y) Nx Ny) as Hs.
  change (SFsub prec emax) with SF64sub in Hs. rewrite <- sub_spec, Ha, Hb in Hs.
  rewrite !num_ltb_val, num_truthy_val. replace (num_val 0%float) with (Some 0) by done.
  unfold num_val. pose proof (Prim2SF_sf_valid (x - y)) as V.
  destruct (Z.compare_spec a b).
  - destruct (Prim2SF (x - y)); try done; simpl.
    + destruct (Z.ltb_spec a b), (Z.ltb_spec b a), (Z.eqb_spec a b); try lia; done.
    + destruct (Z.ltb_spec a b), (Z.ltb_spec b a), (Z.eqb_spec a b); try lia; done.
  - apply (sf_signed_val true) in Hs as [-> Hv]; [|done]. simpl.
    destruct (Z.ltb_spec a b), (Z.ltb_spec b a), (Z.eqb_spec a b),
      (Z.ltb_spec (sf_val (Prim2SF (x - y))) 0), (Z.ltb_spec 0 (sf_val (Prim2SF (x - y)))),
      (Z.eqb_spec (sf_val (Prim2SF (x - y))) 0); try lia; done.
  - apply (sf_signed_val false) in Hs as [-> Hv]; [|done]. simpl.
    destruct (Z.ltb_spec a b), (Z.ltb_spec b a), (Z.eqb_spec a b),
      (Z.ltb_spec (sf_val (Prim2SF (x - y))) 0), (Z.ltb_spec 0 (sf_val (Prim2SF (x - y)))),
      (Z.eqb_spec (sf_val (Prim2SF (x - y))) 0); try lia; done.
Qed.

(** ** Integers

    An integer below [2^53] is represented exactly, so [Math.floor] is the
    floor of the exact value. *)

Lemma digits2_unique m d : 1 <= d → 2 ^ (d - 1) <= Z.pos m < 2 ^ d → Z.pos (digits2_pos m) = d.
Proof.
  intros Hd [Hlo Hhi]. pose proof (digits2_bounds m) as [Hlo' Hhi'].
  set (d' := Z.pos (digits2_pos m)) in *. assert (1 <= d') by lia.
  assert (d - 1 < d') by (apply (Z.pow_lt_mono_r_iff 2); lia).
  assert (d' - 1 < d) by (apply (Z.pow_lt_mono_r_iff 2); lia). lia.
Qed.

(** A mantissa of 53 digits in range is not rounded. *)
Lemma binary_round_aux_exact s m e :
  2 ^ 52 <= Z.pos m < 2 ^ 53 → -1074 <= e <= 971 →
  binary_round_aux prec emax s (Z.pos m) e loc_Exact = S754_finite s m e ∧
  sf_valid (S754_finite s m e) = true.
Proof.
  intros Hm He. pose proof (digits2_unique m 53 ltac:(lia) Hm) as Hd.
  assert (Hf : fexp prec emax (53 + e) = e).
  { unfold fexp, SpecFloat.emin, prec, emax. lia. }
  assert (Hshr : shr_fexp prec emax (Z.pos m) e loc_Exact = ({| shr_m := Z.pos m; shr_r := false; shr_s := false |}, e)).
  { unfold shr_fexp. cbn [Zdigits2]. rewrite Hd, Hf, Z.sub_diag. done. }
  split.
  - unfold binary_round_aux. rewrite Hshr. cbn [shr_m loc_of_shr_record shr_r shr_s round_nearest_even].
    rewrite Hshr. cbn [shr_m]. destruct (Z.leb_spec e (emax - prec)); [done|].
    unfold prec, emax in *. lia.
  - unfold sf_valid, valid_binary, bounded, canonical_mantissa. rewrite Hd, Hf, Z.eqb_refl.
    cbn [andb]. apply Z.leb_le. unfold prec, emax. lia.
Qed.

Lemma num_of_Z_val z : Z.abs z < 2 ^ 53 → num_val (num_of_Z z) = Some (z * 2 ^ 1074).
Proof.
  intros Hz.
  assert (Hpos : ∀ s p, Z.pos p < 2 ^ 53 →
    ∃ x, binary_round prec emax s p 0 = x ∧ sf_valid x = true ∧ sf_is_nan x = false ∧
      sf_val x = (if s then Z.neg p else Z.pos p) * 2 ^ 1074).
  { intros s p Hp. pose proof (digits2_bounds p) as [Hlo Hhi].
    set (d := Z.pos (digits2_pos p)) in *. assert (1 <= d) by lia.
    assert (d - 1 < 53) by (apply (Z.pow_lt_mono_r_iff 2); lia).
    unfold binary_round. fold d. rewrite Z.add_0_r.
    assert (fexp prec emax d = d - 53) as ->.
    { unfold fexp, SpecFloat.emin, prec, emax. lia. }
    pose proof (shl_align_val p 0 (d - 53) ltac:(lia)) as Hv.
    assert (He : (shl_align p 0 (d - 53)).2 = d - 53).
    { unfold shl_align. destruct (d - 53 - 0) eqn:E; simpl; lia. }
    destruct (shl_align p 0 (d - 53)) as [m e]. cbn [fst snd] in Hv, He. subst e.
    assert (Hpow : 2 ^ (0 - (d - 53)) * 2 ^ (d - 1) = 2 ^ 52) by
      (rewrite <- Z.pow_add_r by lia; f_equal; lia).
    assert (Hpow' : 2 ^ (0 - (d - 53)) * 2 ^ d = 2 ^ 53) by
      (rewrite <- Z.pow_add_r by lia; f_equal; lia).
    pose proof (pow2_pos (0 - (d - 53)) ltac:(lia)).
    destruct (binary_round_aux_exact s m (d - 53)) as [-> Hok]; [rewrite Hv; nia|lia|].
    eexists. split; [done|]. split; [done|]. split; [done|]. cbn [sf_val].
    assert (Hs : Z.pos m * 2 ^ (d - 53 + 1074) = Z.pos p * 2 ^ 1074).
    { rewrite Hv, <- Z.mul_assoc, <- Z.pow_add_r by lia. f_equal. f_equal. lia. }
    destruct s; [|done]. rewrite <- !Pos2Z.opp_pos, !Z.mul_opp_l. by rewrite Hs. }
  unfold num_of_Z, num_val. destruct z as [|p|p]; [by vm_compute|..]; cbn [binary_normalize].
  - destruct (Hpos false p ltac:(lia)) as (x & -> & V & N & E). by rewrite Prim2SF_SF2Prim, N, E.
  - destruct (Hpos true p ltac:(lia)) as (x & -> & V & N & E). by rewrite Prim2SF_SF2Prim, N, E.
Qed.

Lemma math_floor_val x a :
  num_val x = Some a → num_val (math_floor x) = Some (a / 2 ^ 1074 * 2 ^ 1074).
Proof.
  intros Hx. pose proof (Prim2SF_sf_valid x) as V. unfold math_floor.
  pose proof (pow2_pos 1074 ltac:(lia)) as Hp.
  assert (Hid : a mod 2 ^ 1074 = 0 → num_val x = Some (a / 2 ^ 1074 * 2 ^ 1074)).
  { intros Hm. rewrite Hx. f_equal. pose proof (Z.div_mod a (2 ^ 1074)). lia. }
  pose proof Hx as Hx'. unfold num_val in Hx.
  destruct (Prim2SF x) as [s|s| |s m e]; cbn [sf_is_nan] in Hx; try done; injection Hx as Ha.
  - apply Hid. subst a. cbn [sf_val]. apply Z.mod_0_l. lia.
  - apply Hid. subst a. cbn [sf_val]. destruct s; by vm_compute.
  - cbn [sf_val] in Ha. set (z := if s then Z.neg m else Z.pos m) in *.
    destruct (Z.leb_spec 0 e).
    + apply Hid. subst a. rewrite Z.pow_add_r, Z.mul_assoc by lia. apply Z.mod_mul. lia.
    + apply valid_finite in V as (He & Hm & _).
      assert (Hq : a / 2 ^ 1074 = z / 2 ^ (- e)).
      { subst a. replace (2 ^ 1074) with (2 ^ (- e) * 2 ^ (e + 1074))
          by (rewrite <- Z.pow_add_r by lia; f_equal; lia).
        apply Z.div_mul_cancel_r; apply Z.pow_nonzero; lia. }
      rewrite Hq. apply num_of_Z_val.
      pose proof (pow2_pos (- e) ltac:(lia)) as Hpe.
      assert (2 <= 2 ^ (- e)) by (change 2 with (2 ^ 1) at 1; apply Z.pow_le_mono_r; lia).
      assert (Z.abs z < 2 ^ 53) by (unfold z; destruct s; lia).
      pose proof (Z.mul_div_le z (2 ^ (- e)) Hpe). pose proof (Z.mul_succ_div_gt z (2 ^ (- e)) Hpe).
      apply Z.abs_lt. nia.
Qed.

Lemma math_floor_nan x : is_nan x = true → math_floor x = x.
Proof. rewrite is_nan_val. unfold num_val, math_floor. by destruct (Prim2SF x). Qed.

(** The floor of anything but NaN is a whole number (an infinity counts as
    one). *)
Lemma math_floor_whole x :
  is_nan (math_floor x) = false → ∃ z, num_val (math_floor x) = Some (z * 2 ^ 1074).
Proof.
  intros Hf. destruct (is_nan x) eqn:Hx; [by rewrite (math_floor_nan _ Hx), Hx in Hf|].
  rewrite is_nan_val in Hx. destruct (num_val x) as [a|] eqn:Ha; [|done].
  rewrite (math_floor_val x a Ha). eauto.
Qed.

Lemma math_min_nan x y : is_nan x || is_nan y = true → is_nan (math_min x y) = true.
Proof. unfold math_min. destruct (is_nan x) eqn:Ex, (is_nan y) eqn:Ey; done. Qed.

Lemma math_max_nan x y : is_nan x || is_nan y = true → is_nan (math_max x y) = true.
Proof. unfold math_max. destruct (is_nan x) eqn:Ex, (is_nan y) eqn:Ey; done. Qed.

Lemma not_nan_val x : is_nan x = false → ∃ a, num_val x = Some a.
Proof. rewrite is_nan_val. destruct (num_val x) as [a|]; [by exists a|done]. Qed.

Lemma math_min_le x y :
  is_nan (math_min x y) = false →
  (math_min x y <=? x)%float = true ∧ (math_min x y <=? y)%float = true.
Proof.
  intros Hn. destruct (is_nan x || is_nan y) eqn:E; [by rewrite math_min_nan in Hn|].
  apply orb_false_iff in E as [(a & Hx)%not_nan_val (b & Hy)%not_nan_val].
  rewrite !num_leb_val, (math_min_val x y a b), Hx, Hy by done. cbn. split; apply Z.leb_le; lia.
Qed.

Lemma math_max_ge x y :
  is_nan (math_max x y) = false →
  (x <=? math_max x y)%float = true ∧ (y <=? math_max x y)%float = true.
Proof.
  intros Hn. destruct (is_nan x || is_nan y) eqn:E; [by rewrite math_max_nan in Hn|].
  apply orb_false_iff in E as [(a & Hx)%not_nan_val (b & Hy)%not_nan_val].
  rewrite !num_leb_val, (math_max_val x y a b), Hx, Hy by done. cbn. split; apply Z.leb_le; lia.
Qed.

Lemma num_leb_trans x y z :
  (x <=? y)%float = true → (y <=? z)%float = true → (x <=? z)%float = true.
Proof.
  rewrite !num_leb_val. destruct (num_val x), (num_val y), (num_val z); try done.
  cbn. rewrite !Z.leb_le. lia.
Qed.

Lemma leb_not_nan x y : (x <=? y)%float = true → is_nan x = false ∧ is_nan y = false.
Proof. rewrite num_leb_val, !is_nan_val. by destruct (num_val x), (num_val y). Qed.

Lemma math_min_not_nan x y : is_nan (math_min x y) = false → is_nan y = false.
Proof. intros H. destruct (math_min_le x y H) as [_ H2]. by apply leb_not_nan in H2 as [_ ?]. Qed.

Lemma ltb_negb_leb x y :
  is_nan x = false → is_nan y = false → (x <? y)%float = negb (y <=? x)%float.
Proof.
  intros (a & Hx)%not_nan_val (b & Hy)%not_nan_val. rewrite num_ltb_val, num_leb_val, Hx, Hy. cbn.
  rewrite Z.ltb_antisym. done.
Qed.

Lemma num_of_nat_leb a b :
  (a ≤ 6)%nat → (b ≤ 6)%nat →
  (num_of_Z (Z.of_nat a) <=? num_of_Z (Z.of_nat b))%float = (a <=? b)%nat.
Proof.
  intros Ha Hb. do 7 (destruct a as [|a]; [do 7 (destruct b as [|b]; [by vm_compute|]); lia|]). lia.
Qed.

Lemma num_add_nan x y : is_nan x = true → is_nan (x + y)%float = true.
Proof. rewrite !is_nan_val. unfold num_val. rewrite add_spec. by destruct (Prim2SF x). Qed.
