(* ===== verification/JsString.v ===== *)
(** JavaScript strings.

    The strings the modelled components inspect (symbols, statuses, identifiers,
    error codes, environment values) are ASCII.  They are Rocq strings; a
    character of code 128 or more is left alone by the case maps and is not
    white space. *)

From Stdlib Require Export String Ascii.
From S2P Require Import Prelude.
Open Scope string_scope.
Open Scope list_scope.

(** ** Characters *)

Definition code (c : ascii) : N := N_of_ascii c.

(** Tab, line feed, vertical tab, form feed, carriage return, space. *)
Definition is_ws (c : ascii) : bool :=
  let n := code c in ((9 <=? n) && (n <=? 13) || (n =? 32))%N.
Definition is_digit (c : ascii) : bool :=
  let n := code c in ((48 <=? n) && (n <=? 57))%N.
Definition is_upper (c : ascii) : bool :=
  let n := code c in ((65 <=? n) && (n <=? 90))%N.
Definition is_lower (c : ascii) : bool :=
  let n := code c in ((97 <=? n) && (n <=? 122))%N.
Definition upper_char (c : ascii) : ascii :=
  if is_lower c then ascii_of_N (code c - 32) else c.
Definition lower_char (c : ascii) : ascii :=
  if is_upper c then ascii_of_N (code c + 32) else c.

(** ** Strings *)

Fixpoint string_map (f : ascii → ascii) (s : string) : string :=
  match s with
  | EmptyString => EmptyString
  | String c s' => String (f c) (string_map f s')
  end.
Definition to_upper (s : string) : string := string_map upper_char s.
Definition to_lower (s : string) : string := string_map lower_char s.

Fixpoint string_forall (p : ascii → bool) (s : string) : bool :=
  match s with
  | EmptyString => true
  | String c s' => p c && string_forall p s'
  end.

Fixpoint trim_left (s : string) : string :=
  match s with
  | EmptyString => EmptyString
  | String c s' => if is_ws c then trim_left s' else s
  end.
Fixpoint trim_right (s : string) : string :=
  match s with
  | EmptyString => EmptyString
  | String c s' =>
      match trim_right s' with
      | EmptyString => if is_ws c then EmptyString else String c EmptyString
      | s'' => String c s''
      end
  end.
(** [value.trim()]. *)
Definition trim (s : string) : string := trim_right (trim_left s).

(** A string is falsy when it is empty. *)
Definition str_truthy (s : string) : bool :=
  match s with EmptyString => false | _ => true end.

(** [value.replace(/\s+/g, "")]. *)
Fixpoint remove_ws (s : string) : string :=
  match s with
  | EmptyString => EmptyString
  | String c s' => if is_ws c then remove_ws s' else String c (remove_ws s')
  end.

(** [s.split(:, 1)[0]] *)
Fixpoint before_colon (s : string) : string :=
  match s with
  | EmptyString => EmptyString
  | String c s' => if Ascii.eqb c ":" then EmptyString else String c (before_colon s')
  end.

(** [left < right ? -1 : left > right ? 1 : 0]: code-unit order. *)
Definition compare_text (l r : string) : Z :=
  match String.compare l r with Lt => -1 | Gt => 1 | Eq => 0 end%Z.

(** [ids.sort()] without a comparator. *)
Definition sort_strings (l : list string) : list string := sort_by String.leb l.

(** ** Facts *)

Lemma upper_char_upper c : upper_char (upper_char c) = upper_char c.
Proof. by destruct c as [[] [] [] [] [] [] [] []]. Qed.
Lemma lower_char_lower c : lower_char (lower_char c) = lower_char c.
Proof. by destruct c as [[] [] [] [] [] [] [] []]. Qed.
Lemma is_ws_upper c : is_ws (upper_char c) = is_ws c.
Proof. by destruct c as [[] [] [] [] [] [] [] []]. Qed.
Lemma is_ws_lower c : is_ws (lower_char c) = is_ws c.
Proof. by destruct c as [[] [] [] [] [] [] [] []]. Qed.

Section map_trim.
Context (f : ascii → ascii) (Hws : ∀ c, is_ws (f c) = is_ws c).

Lemma trim_left_map s : trim_left (string_map f s) = string_map f (trim_left s).
Proof using Hws.
  induction s as [|c s IH]; simpl; [done|]. rewrite Hws. by destruct (is_ws c).
Qed.

Lemma trim_right_map s : trim_right (string_map f s) = string_map f (trim_right s).
Proof using Hws.
  induction s as [|c s IH]; simpl; [done|]. rewrite IH, Hws.
  destruct (trim_right s); simpl; [|done]. by destruct (is_ws c).
Qed.

Lemma trim_map s : trim (string_map f s) = string_map f (trim s).
Proof using Hws. unfold trim. by rewrite trim_left_map, trim_right_map. Qed.
End map_trim.

Lemma trim_upper s : trim (to_upper s) = to_upper (trim s).
Proof. apply trim_map, is_ws_upper. Qed.
Lemma trim_lower s : trim (to_lower s) = to_lower (trim s).
Proof. apply trim_map, is_ws_lower. Qed.

Lemma string_map_idem f s :
  (∀ c, f (f c) = f c) → string_map f (string_map f s) = string_map f s.
Proof. intros Hf. induction s; simpl; congruence. Qed.

Lemma to_upper_idem s : to_upper (to_upper s) = to_upper s.
Proof. apply string_map_idem, upper_char_upper. Qed.
Lemma to_lower_idem s : to_lower (to_lower s) = to_lower s.
Proof. apply string_map_idem, lower_char_lower. Qed.

Lemma trim_right_idem s : trim_right (trim_right s) = trim_right s.
Proof.
  induction s as [|c s IH]; simpl; [done|].
  destruct (trim_right s) as [|c' s'] eqn:E.
  - destruct (is_ws c) eqn:Hc; simpl; [done|]. by rewrite Hc.
  - change (trim_right (String c (String c' s')))
      with (match trim_right (String c' s') with
            | EmptyString => if is_ws c then EmptyString else String c EmptyString
            | s'' => String c s'' end).
    by rewrite IH.
Qed.

(** A string whose first character is not white space keeps it. *)
Lemma trim_left_trim_right s : trim_left (trim_right (trim_left s)) = trim_right (trim_left s).
Proof.
  induction s as [|c s IH]; simpl; [done|]. destruct (is_ws c) eqn:Hc; [done|].
  simpl. destruct (trim_right s); simpl; rewrite ?Hc; simpl; by rewrite ?Hc.
Qed.

Lemma trim_idem s : trim (trim s) = trim s.
Proof. unfold trim. by rewrite trim_left_trim_right, trim_right_idem. Qed.

Lemma compare_text_refl s : compare_text s s = 0%Z.
Proof.
  unfold compare_text.
  assert (String.compare s s = Eq) as ->; [|done].
  rewrite String.compare_antisym.
  destruct (String.compare s s) eqn:E; [done|..];
    pose proof (String.compare_antisym s s) as H; rewrite E in H; discriminate.
Qed.

Lemma compare_text_eq s1 s2 : compare_text s1 s2 = 0%Z ↔ s1 = s2.
Proof.
  split; [|intros ->; apply compare_text_refl]. unfold compare_text.
  destruct (String.compare s1 s2) eqn:E; [|done..]. intros _.
  by apply String.compare_eq_iff.
Qed.

Lemma compare_text_opp s1 s2 : compare_text s2 s1 = (- compare_text s1 s2)%Z.
Proof.
  unfold compare_text. rewrite String.compare_antisym. by destruct (String.compare s1 s2).
Qed.

Lemma compare_text_leb s1 s2 : (compare_text s1 s2 <=? 0)%Z = String.leb s1 s2.
Proof. unfold compare_text, String.leb. by destruct (String.compare s1 s2). Qed.

Lemma leb_trans s1 s2 s3 :
  String.leb s1 s2 = true → String.leb s2 s3 = true → String.leb s1 s3 = true.
Proof.
  intros H1 H2. apply Is_true_true. apply (transitivity (R := String.le) (y := s2));
    by apply Is_true_true.
Qed.

#[export] Instance string_compare_lawful : LawfulCompare String.compare.
Proof.
  split; intros x y.
  - by rewrite String.compare_antisym.
  - intros z H1 H2. pose proof (leb_trans x y z) as H. unfold String.leb in H.
    rewrite H1, H2 in H. specialize (H eq_refl eq_refl).
    destruct (String.compare x z) eqn:E; [|done..].
    apply String.compare_eq_iff in E as ->. rewrite String.compare_antisym, H1 in H2. done.
  - intros z ->%String.compare_eq_iff. done.
Qed.

Lemma sort_strings_In x l : In x (sort_strings l) ↔ In x l.
Proof. apply sort_by_In. Qed.

(** ** Rows in order *)

(** [ORDER BY created_at DESC, id DESC LIMIT 1] and the like: the greatest row
    under the key (time, id); ids are unique. *)
Definition newer {R} (time : R → Z) (id : R → string) (a b : R) : bool :=
  ((time b <? time a) || (time b =? time a) && (compare_text (id b) (id a) <=? 0))%Z.

Definition latest {R} (time : R → Z) (id : R → string) (rows : list R) : option R :=
  fold_right (λ r acc, match acc with
                       | None => Some r
                       | Some b => if newer time id r b then Some r else Some b
                       end) None rows.

Lemma latest_In {R} (time : R → Z) (id : R → string) rows r :
  latest time id rows = Some r → In r rows.
Proof.
  revert r. induction rows as [|x rows IH]; intros r; simpl; [done|].
  destruct (latest time id rows) as [b|].
  - destruct (newer time id x b); intros [= <-]; [by left|right; by apply IH].
  - intros [= <-]. by left.
Qed.

Lemma latest_None {R} (time : R → Z) (id : R → string) rows :
  latest time id rows = None → rows = [].
Proof.
  destruct rows as [|x rows]; [done|]. simpl. by destruct (latest time id rows) as [b|];
    [destruct (newer time id x b)|].
Qed.

(** The latest row is not older than any other. *)
Lemma latest_max {R} (time : R → Z) (id : R → string) rows r x :
  latest time id rows = Some r → In x rows → (time x <= time r)%Z.
Proof.
  revert r. induction rows as [|y rows IH]; intros r; simpl; [done|].
  destruct (latest time id rows) as [b|] eqn:E.
  - destruct (newer time id y b) eqn:En; intros [= <-] [->|Hx]; try lia.
    + unfold newer in En. apply orb_prop in En. specialize (IH b eq_refl Hx).
      destruct En as [En%Z.ltb_lt|[En%Z.eqb_eq _]%andb_prop]; lia.
    + unfold newer in En. apply orb_false_iff in En as [En%Z.ltb_ge _]. lia.
    + by apply IH.
  - apply latest_None in E as ->. intros [= <-] [->|[]]. lia.
Qed.
