(* ===== verification/JsDate.v ===== *)
(** JavaScript dates: the civil calendar behind [Date.UTC], [getUTC*] and
    [Date.parse] (ECMA-262, section "Time Values and Time Range").

    An instant is the number of milliseconds since 1970-01-01T00:00:00Z, and a
    day number counts days from that date. *)

From S2P Require Import Prelude.
From S2P Require Import JsString.
Open Scope Z_scope.

Definition MS_PER_DAY : Z := 86400000.

Definition is_leap (y : Z) : bool :=
  (y mod 4 =? 0) && (negb (y mod 100 =? 0) || (y mod 400 =? 0)).

(** [DayFromYear]: the day number of January 1 of a year. *)
Definition day_from_year (y : Z) : Z :=
  365 * (y - 1970) + (y - 1969) / 4 - (y - 1901) / 100 + (y - 1601) / 400.

(** First day of month [m] (0-based) within its year. *)
Definition month_offset (leap : bool) (m : Z) : Z :=
  let l := if leap then 1 else 0 in
  match m with
  | 0 => 0 | 1 => 31 | 2 => 59 + l | 3 => 90 + l | 4 => 120 + l | 5 => 151 + l
  | 6 => 181 + l | 7 => 212 + l | 8 => 243 + l | 9 => 273 + l | 10 => 304 + l
  | 11 => 334 + l | _ => 365 + l
  end.

(** [MakeDay]: months and days out of range roll over. *)
Definition make_day (year month date : Z) : Z :=
  let ym := year + month / 12 in
  day_from_year ym + month_offset (is_leap ym) (month mod 12) + date - 1.

(** [YearFromTime]: the estimate by the mean year is at most one year off. *)
Definition year_from_day (d : Z) : Z :=
  let y := 1970 + 400 * d / 146097 in
  if d <? day_from_year y then y - 1
  else if day_from_year (y + 1) <=? d then y + 1 else y.

Definition day_within_year (d : Z) : Z := d - day_from_year (year_from_day d).

(** [MonthFromTime], 0-based. *)
Definition month_from_day (d : Z) : Z :=
  let leap := is_leap (year_from_day d) in
  let w := day_within_year d in
  fold_right (λ m acc, if w <? month_offset leap (m + 1) then m else acc) 11
    [0; 1; 2; 3; 4; 5; 6; 7; 8; 9; 10].

(** [DateFromTime], 1-based. *)
Definition date_from_day (d : Z) : Z :=
  day_within_year d - month_offset (is_leap (year_from_day d)) (month_from_day d) + 1.

(** [Date.UTC(year, month, day)] for years of four digits. *)
Definition date_utc (year month day : Z) : Z := make_day year month day * MS_PER_DAY.

Definition days_in_month (y m : Z) : Z :=
  month_offset (is_leap y) (m + 1) - month_offset (is_leap y) m.

(** ** The calendar is consistent *)

Lemma day_from_year_step y :
  day_from_year (y + 1) = day_from_year y + (if is_leap y then 366 else 365).
Proof.
  unfold day_from_year, is_leap.
  destruct (Z.eqb_spec (y mod 4) 0), (Z.eqb_spec (y mod 100) 0),
    (Z.eqb_spec (y mod 400) 0); cbn [andb orb negb]; dlia.
Qed.

Lemma year_from_day_spec d :
  day_from_year (year_from_day d) <= d < day_from_year (year_from_day d + 1).
Proof.
  unfold year_from_day. set (y := 1970 + 400 * d / 146097).
  assert (146097 * (y - 1970) <= 400 * d < 146097 * (y - 1970) + 146097)
    by (unfold y; dlia).
  destruct (Z.ltb_spec d (day_from_year y)) as [H1|H1];
    [|destruct (Z.leb_spec (day_from_year (y + 1)) d) as [H2|H2]];
    clearbody y; unfold day_from_year in *; dlia.
Qed.

Lemma day_from_year_mono y1 y2 : y1 <= y2 → day_from_year y1 <= day_from_year y2.
Proof. unfold day_from_year. dlia. Qed.

Lemma year_from_day_unique d y :
  day_from_year y <= d < day_from_year (y + 1) → year_from_day d = y.
Proof.
  intros H. pose proof (year_from_day_spec d) as H'.
  destruct (Z.lt_trichotomy (year_from_day d) y) as [Hl|[?|Hg]]; [|done|].
  - pose proof (day_from_year_mono (year_from_day d + 1) y). lia.
  - pose proof (day_from_year_mono (y + 1) (year_from_day d)). lia.
Qed.

Lemma month_range m : 0 <= m <= 11 →
  m = 0 ∨ m = 1 ∨ m = 2 ∨ m = 3 ∨ m = 4 ∨ m = 5 ∨ m = 6 ∨ m = 7 ∨ m = 8 ∨ m = 9
  ∨ m = 10 ∨ m = 11.
Proof. lia. Qed.

Lemma month_from_day_range d : 0 <= month_from_day d <= 11.
Proof.
  unfold month_from_day. cbn [fold_right].
  repeat match goal with |- context [if ?b then _ else _] => destruct b end; lia.
Qed.

(** Replace the month offsets of known months by their values. *)
Ltac month_values :=
  repeat match goal with
  | |- context [month_offset ?l ?m] =>
      let v := eval vm_compute in (month_offset l m) in
      progress change (month_offset l m) with v
  | H : context [month_offset ?l ?m] |- _ =>
      let v := eval vm_compute in (month_offset l m) in
      progress change (month_offset l m) with v in H
  end.

Lemma date_from_day_range d :
  1 <= date_from_day d <= days_in_month (year_from_day d) (month_from_day d).
Proof.
  unfold date_from_day, days_in_month, month_from_day.
  pose proof (year_from_day_spec d) as Hy. rewrite day_from_year_step in Hy.
  set (l := is_leap (year_from_day d)) in *. set (w := day_within_year d).
  assert (0 <= w < (if l then 366 else 365)) by (unfold w, day_within_year; lia).
  clearbody w l. cbn [fold_right].
  repeat match goal with |- context [if ?a <? ?b then _ else _] =>
    destruct (Z.ltb_spec a b) end; destruct l; month_values; lia.
Qed.

(** Encoding a civil date and decoding it gives the date back. *)
Lemma make_day_decode y m d :
  0 <= m <= 11 → 1 <= d <= days_in_month y m →
  year_from_day (make_day y m d) = y ∧ month_from_day (make_day y m d) = m ∧
  date_from_day (make_day y m d) = d.
Proof.
  intros Hm Hd.
  assert (make_day y m d = day_from_year y + month_offset (is_leap y) m + d - 1) as ->.
  { unfold make_day. rewrite Z.mod_small, Z.div_small, Z.add_0_r by lia. done. }
  set (n := day_from_year y + _ + d - 1).
  assert (Hw : 0 <= month_offset (is_leap y) m + d - 1 < if is_leap y then 366 else 365).
  { unfold days_in_month in Hd. destruct (is_leap y);
      apply month_range in Hm; repeat destruct Hm as [->|Hm]; subst; month_values; lia. }
  assert (Hy : year_from_day n = y).
  { apply year_from_day_unique. rewrite day_from_year_step.
    unfold n. destruct (is_leap y); lia. }
  unfold date_from_day, month_from_day, day_within_year. rewrite Hy.
  replace (n - day_from_year y) with (month_offset (is_leap y) m + d - 1) by (unfold n; lia).
  unfold days_in_month in Hd. clear - Hm Hd.
  assert (Hmonth : fold_right (λ k acc,
      if month_offset (is_leap y) m + d - 1 <? month_offset (is_leap y) (k + 1)
      then k else acc) 11 [0; 1; 2; 3; 4; 5; 6; 7; 8; 9; 10] = m).
  { destruct (is_leap y); apply month_range in Hm;
      repeat destruct Hm as [->|Hm]; subst; cbn [fold_right]; month_values;
      repeat match goal with |- context [if ?a <? ?b then _ else _] =>
        destruct (Z.ltb_spec a b) end; lia. }
  rewrite Hmonth. split_and!; [done..|lia].
Qed.

(** ** Date strings *)

Definition digit_val (c : ascii) : Z := Z.of_N (code c) - 48.

(** The number a string of digits denotes. *)
Fixpoint digits_val (acc : Z) (s : string) : Z :=
  match s with
  | EmptyString => acc
  | String c s' => digits_val (10 * acc + digit_val c) s'
  end.

(** [YYYY-MM-DD] split into its numbers. *)
Definition split_iso_date (s : string) : option (Z * Z * Z) :=
  match s with
  | String a (String b (String c (String d (String h1 (String e (String f
      (String h2 (String g (String h EmptyString))))))))) =>
      if forallb is_digit [a; b; c; d; e; f; g; h]
         && (h1 =? "-")%char && (h2 =? "-")%char
      then Some (digits_val 0 (string_of_list_ascii [a; b; c; d]),
                 digits_val 0 (string_of_list_ascii [e; f]),
                 digits_val 0 (string_of_list_ascii [g; h]))
      else None
  | _ => None
  end.

(** [Date.parse(date + "T00:00:00Z")] in days, for a ten-character date: [None]
    is NaN.  The engine (V8) checks the month against 1..12 and the day against
    1..31 only; a day past the end of its month rolls over. *)
Definition parse_iso_day (s : string) : option Z :=
  match split_iso_date s with
  | Some (y, m, d) =>
      if (1 <=? m) && (m <=? 12) && (1 <=? d) && (d <=? 31)
      then Some (make_day y (m - 1) d) else None
  | None => None
  end.

Example parse_iso_day_epoch : parse_iso_day "1970-01-01" = Some 0.
Proof. reflexivity. Qed.
Example parse_iso_day_leap : parse_iso_day "2028-02-29" = Some 21243.
Proof. reflexivity. Qed.
Example parse_iso_day_rolls : parse_iso_day "2026-02-30" = parse_iso_day "2026-03-02".
Proof. reflexivity. Qed.
Example parse_iso_day_illegal : parse_iso_day "2026-13-01" = None.
Proof. reflexivity. Qed.
