(* ===== verification/JsText.v ===== *)
(** Numbers as text: the [String(x)] and [Number(s)] of JavaScript, and
    [BigInt.prototype.toString].  Both conversions are exact: a decimal is
    rounded once, to the nearest binary64 value (ties to even), and a number is
    printed with the least number of digits that reads back as the number. *)

From Stdlib Require Import FloatAxioms FloatOps SpecFloat.
From S2P Require Import Prelude.
From S2P Require Import JsString.
From S2P Require Import JsDate.
From S2P Require Import JsNumber.
Open Scope Z_scope.

(** ** Digits *)

Definition digit_char (d : Z) : ascii := ascii_of_N (Z.to_N (48 + d)).

(** The last [n] decimal digits of [z], most significant first. *)
Fixpoint last_digits (n : nat) (z : Z) (acc : string) : string :=
  match n with
  | O => acc
  | S n' => last_digits n' (z / 10) (String (digit_char (z mod 10)) acc)
  end.

(** The number of decimal digits of [z >= 0]; at least one. *)
Fixpoint count_digits (fuel : nat) (z : Z) : nat :=
  match fuel with
  | O => 1
  | S f => if z <? 10 then 1 else S (count_digits f (z / 10))
  end.
Definition digits_needed (z : Z) : nat := count_digits (Z.to_nat (Z.log2 z)) z.

(** [BigInt(z).toString()] of a natural number. *)
Definition nat_text (z : Z) : string := last_digits (digits_needed z) z "".

(** [BigInt(z).toString().padStart(width, "0")]. *)
Definition padded_text (width : nat) (z : Z) : string :=
  last_digits (Nat.max width (digits_needed z)) z "".

Fixpoint repeat_char (n : nat) (c : ascii) : string :=
  match n with O => EmptyString | S n' => String c (repeat_char n' c) end.

(** [s.slice(0, n)] and [s.slice(n)]. *)
Fixpoint str_take (n : nat) (s : string) : string :=
  match n, s with
  | S n', String c s' => String c (str_take n' s')
  | _, _ => EmptyString
  end.
Fixpoint str_drop (n : nat) (s : string) : string :=
  match n, s with
  | S n', String _ s' => str_drop n' s'
  | _, _ => s
  end.

(** ** Decimals to numbers *)

(** The binary64 value nearest to [num / den]: the quotient to 60 significant
    bits with a sticky bit below them, rounded once. *)
Definition num_of_ratio (num den : Z) : number :=
  let shift := Z.max 0 (60 - (Z.log2 num - Z.log2 den)) in
  let q := num * 2 ^ shift / den in
  let r := num * 2 ^ shift mod den in
  SF2Prim (binary_normalize prec emax (2 * q + (if r =? 0 then 0 else 1)) (- shift - 1) false).

(** The number nearest to [c * 10^e], for [c >= 0]. *)
Definition num_of_decimal (c e : Z) : number :=
  if c =? 0 then zero
  else if 0 <=? e then num_of_ratio (c * 10 ^ e) 1
  else num_of_ratio c (10 ^ (- e)).

(** ** Numbers to text *)

(** [v] as a ratio of integers. *)
Definition sf_ratio (m : positive) (e : Z) : Z * Z :=
  if 0 <=? e then (Z.pos m * 2 ^ e, 1) else (Z.pos m, 2 ^ (- e)).

(** The least [n] with [num / den < 10^n], searched upwards from [n]. *)
Fixpoint decimal_exponent (fuel : nat) (num den n : Z) : Z :=
  match fuel with
  | O => n
  | S f =>
      if (if 0 <=? n then num <? den * 10 ^ n else num * 10 ^ (- n) <? den) then n
      else decimal_exponent f num den (n + 1)
  end.

(** Digits and exponent [(s, n)] of the shortest decimal [0.s * 10^n] that
    reads back as [x], the nearest to [x] among those of that length. *)
Fixpoint shortest_digits (fuel : nat) (x : number) (num den n k : Z) : Z * Z * Z :=
  match fuel with
  | O => (0, k, n)
  | S f =>
      let scaled := if 0 <=? k - n then num * 10 ^ (k - n) else num in
      let den' := if 0 <=? k - n then den else den * 10 ^ (n - k) in
      let lo := scaled / den' in
      let ok s := (num_of_decimal s (n - k) =? x)%float in
      let lo_near := (2 * (scaled mod den') <? den') in
      let pick := if ok lo && (lo_near || negb (ok (lo + 1))) then Some lo
                  else if ok (lo + 1) then Some (lo + 1) else None in
      match pick with
      | Some s => if s =? 10 ^ k then (1, 1, n + 1) else (s, k, n)
      | None => shortest_digits f x num den n (k + 1)
      end
  end.

(** Number::toString of ECMA-262 for a positive finite number: [k] digits of
    [s] with the decimal point after the first [n]. *)
Definition positive_text (s k n : Z) : string := (
  let digits := nat_text s in
  if ((k <=? n) && (n <=? 21))%Z then digits ++ repeat_char (Z.to_nat (n - k)%Z) "0"
  else if ((0 <? n) && (n <=? 21))%Z then
    str_take (Z.to_nat n) digits ++ "." ++ str_drop (Z.to_nat n) digits
  else if ((-6 <? n) && (n <=? 0))%Z then "0." ++ repeat_char (Z.to_nat (- n)%Z) "0" ++ digits
  else
    let e := (n - 1)%Z in
    let exponent := (if (e <? 0)%Z then "-" else "+") ++ nat_text (Z.abs e) in
    if (k =? 1)%Z then digits ++ "e" ++ exponent
    else str_take 1 digits ++ "." ++ str_drop 1 digits ++ "e" ++ exponent)%string.

(** [String(x)]. *)
Definition num_text (x : number) : string :=
  match Prim2SF x with
  | S754_nan => "NaN"
  | S754_zero _ => "0"
  | S754_infinity s => if s then "-Infinity" else "Infinity"
  | S754_finite s m e =>
      let '(num, den) := sf_ratio m e in
      let start := (Z.log2 num - Z.log2 den) * 3 / 10 - 2 in
      let n := decimal_exponent 400 num den start in
      let '(d, k, n') := shortest_digits 17 (abs x) num den n 1 in
      ((if s then "-" else "") ++ positive_text d k n')%string
  end.

(** ** Text to numbers *)

(** The leading digits of a string, and what follows them. *)
Fixpoint span_digits (s : string) : string * string :=
  match s with
  | String c s' =>
      if is_digit c then let '(d, r) := span_digits s' in (String c d, r) else (EmptyString, s)
  | EmptyString => (EmptyString, EmptyString)
  end.

(** [([+-]?)]: true for a minus. *)
Definition span_sign (s : string) : bool * string :=
  match s with
  | String "-" s' => (true, s')
  | String "+" s' => (false, s')
  | _ => (false, s)
  end.

(** A decimal literal without its sign: whole digits, fraction digits and the
    exponent [(negative, digits)], as in
    [(?:(\d+)(?:\.(\d* ))?|\.(\d+))(?:[eE]([+-]?\d+))?]. *)
Definition split_decimal (s : string) : option (string * string * option (bool * string)) :=
  let '(whole, rest) := span_digits s in
  let '(fraction, rest) :=
    match rest with
    | String "." r => let '(f, r') := span_digits r in
                      if str_truthy whole || str_truthy f then (f, r') else (EmptyString, rest)
    | _ => (EmptyString, rest)
    end in
  if negb (str_truthy whole || str_truthy fraction) then None
  else match rest with
  | EmptyString => Some (whole, fraction, None)
  | String c r =>
      if (c =? "e")%char || (c =? "E")%char then
        let '(neg, r') := span_sign r in
        let '(d, r'') := span_digits r' in
        if str_truthy d && negb (str_truthy r'') then Some (whole, fraction, Some (neg, d))
        else None
      else None
  end.

Definition signed (neg : bool) (z : Z) : Z := if neg then - z else z.

Definition decimal_number (p : string * string * option (bool * string)) : number :=
  let '(whole, fraction, exponent) := p in
  let e := match exponent with Some (neg, d) => signed neg (digits_val 0 d) | None => 0 end in
  num_of_decimal (digits_val 0 (whole ++ fraction)%string) (e - Z.of_nat (String.length fraction)).

(** The value of a digit in a radix up to 16. *)
Definition radix_digit (radix : Z) (c : ascii) : option Z :=
  let l := lower_char c in
  let v := if is_digit c then digit_val c
           else if is_lower l then Z.of_N (code l) - 87 else radix in
  if v <? radix then Some v else None.

Fixpoint radix_val (radix acc : Z) (s : string) : option Z :=
  match s with
  | EmptyString => Some acc
  | String c s' =>
      match radix_digit radix c with
      | Some d => radix_val radix (acc * radix + d) s'
      | None => None
      end
  end.

Definition radix_number (radix : Z) (s : string) : number :=
  match s with
  | EmptyString => nan
  | _ => match radix_val radix 0 s with Some z => num_of_Z z | None => nan end
  end.

(** [Number(s)] (StringToNumber of ECMA-262). *)
Definition num_of_text (s : string) : number :=
  match trim s with
  | EmptyString => zero
  | String "0" (String "x" r) | String "0" (String "X" r) => radix_number 16 r
  | String "0" (String "o" r) | String "0" (String "O" r) => radix_number 8 r
  | String "0" (String "b" r) | String "0" (String "B" r) => radix_number 2 r
  | t =>
      let '(neg, u) := span_sign t in
      let sgn x := if neg then (- x)%float else x in
      if (u =? "Infinity")%string then sgn infinity
      else match split_decimal u with
      | Some p => sgn (decimal_number p)
      | None => nan
      end
  end.

Example text_third : num_text (0.1 + 0.2)%float = "0.30000000000000004"%string.
Proof. vm_compute. reflexivity. Qed.
Example text_large : num_text (100000000000000000000000)%float = "1e+23"%string.
Proof. vm_compute. reflexivity. Qed.
Example text_small : num_text (0x1p-1074)%float = "5e-324"%string.
Proof. vm_compute. reflexivity. Qed.
Example text_plain : num_text (-1234.5)%float = "-1234.5"%string.
Proof. vm_compute. reflexivity. Qed.
Example text_whole : num_text (123000)%float = "123000"%string.
Proof. vm_compute. reflexivity. Qed.
Example text_exponent : num_text (0.00000012)%float = "1.2e-7"%string.
Proof. vm_compute. reflexivity. Qed.
Example number_cents : num_of_text " 4999.99 " = (4999.99)%float.
Proof. vm_compute. reflexivity. Qed.
Example number_exponent : num_of_text "-2.5e3" = (-2500)%float.
Proof. vm_compute. reflexivity. Qed.
Example number_garbage : num_of_text "12 USD" = nan.
Proof. vm_compute. reflexivity. Qed.
Example number_max : num_of_text "1.7976931348623157e308" = (0x1.fffffffffffffp1023)%float.
Proof. vm_compute. reflexivity. Qed.
Example number_hex : num_of_text "0xFf" = (255)%float.
Proof. vm_compute. reflexivity. Qed.
Example number_point : num_of_text "." = nan.
Proof. vm_compute. reflexivity. Qed.

(** ** Decimal text of natural numbers *)

Lemma digits_val_app a s t : digits_val a (s ++ t)%string = digits_val (digits_val a s) t.
Proof. revert a. induction s as [|c s IH]; intros a; [done|]. simpl. apply IH. Qed.

Lemma str_app_assoc (a b c : string) : (a ++ (b ++ c) = (a ++ b) ++ c)%string.
Proof. induction a as [|x a IH]; [done|]. exact (f_equal (String x) IH). Qed.

Lemma str_app_nil (a : string) : (a ++ "")%string = a.
Proof. induction a as [|x a IH]; [done|]. exact (f_equal (String x) IH). Qed.

Lemma string_forall_app p a b : string_forall p (a ++ b)%string = string_forall p a && string_forall p b.
Proof.
  induction a as [|c a IH]; [done|]. change (string_forall p (String c a ++ b)%string)
    with (p c && string_forall p (a ++ b)%string). rewrite IH. apply andb_assoc.
Qed.

Lemma last_digits_acc n z acc : last_digits n z acc = (last_digits n z "" ++ acc)%string.
Proof.
  revert z acc. induction n as [|n IH]; intros z acc; [done|]. cbn [last_digits].
  rewrite IH, (IH _ (String _ "")). by rewrite <- str_app_assoc.
Qed.

Lemma digit_char_cases d : 0 <= d < 10 → is_digit (digit_char d) = true ∧ digit_val (digit_char d) = d.
Proof.
  intros Hd. assert (d = 0 ∨ d = 1 ∨ d = 2 ∨ d = 3 ∨ d = 4 ∨ d = 5 ∨ d = 6 ∨ d = 7 ∨ d = 8 ∨ d = 9)
    as H by lia.
  repeat destruct H as [->|H]; try (by split); by subst.
Qed.

Lemma last_digits_digit n z : string_forall is_digit (last_digits n z "") = true.
Proof.
  revert z. induction n as [|n IH]; intros z; [done|]. cbn [last_digits].
  rewrite last_digits_acc, string_forall_app, IH. simpl.
  destruct (digit_char_cases (z mod 10)) as [-> _]; [|done]. apply Z.mod_pos_bound. lia.
Qed.

Lemma str_length_app (a b : string) :
  String.length (a ++ b)%string = (String.length a + String.length b)%nat.
Proof. induction a as [|x a IH]; [done|]. exact (f_equal S IH). Qed.

Lemma last_digits_length n z : String.length (last_digits n z "") = n.
Proof.
  revert z. induction n as [|n IH]; intros z; [done|]. cbn [last_digits].
  rewrite last_digits_acc, str_length_app, IH. simpl. lia.
Qed.

Lemma last_digits_val n z a :
  0 <= z → digits_val a (last_digits n z "") = a * 10 ^ Z.of_nat n + z mod 10 ^ Z.of_nat n.
Proof.
  revert z a. induction n as [|n IH]; intros z a Hz.
  { cbn [last_digits digits_val]. rewrite Z.mod_1_r. cbn. lia. }
  cbn [last_digits]. rewrite last_digits_acc, digits_val_app, IH by (apply Z.div_pos; lia).
  cbn [digits_val]. destruct (digit_char_cases (z mod 10)) as [_ Hv]; [apply Z.mod_pos_bound; lia|].
  rewrite Hv, Nat2Z.inj_succ, Z.pow_succ_r by lia.
  pose proof (Z.pow_pos_nonneg 10 (Z.of_nat n) ltac:(lia) ltac:(lia)).
  rewrite (Z.rem_mul_r z 10 (10 ^ Z.of_nat n)) by lia. lia.
Qed.

(** The text of all digits is the text of the high ones and of the low ones. *)
Lemma last_digits_split n m z :
  0 <= z → last_digits (n + m) z "" =
    (last_digits n (z / 10 ^ Z.of_nat m) "" ++ last_digits m z "")%string.
Proof.
  revert z. induction m as [|m IH]; intros z Hz.
  { cbn [last_digits]. rewrite Nat.add_0_r, Z.div_1_r, str_app_nil. done. }
  rewrite Nat.add_succ_r. cbn [last_digits].
  rewrite last_digits_acc, IH by (apply Z.div_pos; lia).
  rewrite (last_digits_acc m (z / 10) (String _ _)).
  rewrite Z.div_div, <- Z.pow_succ_r, <- Nat2Z.inj_succ by (try apply Z.pow_pos_nonneg; lia).
  by rewrite str_app_assoc.
Qed.

Lemma count_digits_bound fuel z :
  0 <= z < 2 ^ (Z.of_nat fuel + 1) → z < 10 ^ Z.of_nat (count_digits fuel z).
Proof.
  revert z. induction fuel as [|fuel IH]; intros z Hz; cbn [count_digits]; [cbn in *; lia|].
  destruct (Z.ltb_spec z 10); [done|].
  rewrite Nat2Z.inj_succ, Z.pow_succ_r by lia.
  assert (z / 10 < 10 ^ Z.of_nat (count_digits fuel (z / 10))).
  { apply IH. split; [apply Z.div_pos; lia|].
    rewrite Nat2Z.inj_succ, Z.add_succ_l, Z.pow_succ_r in Hz by lia.
    apply Z.div_lt_upper_bound; lia. }
  pose proof (Z.mul_succ_div_gt z 10 ltac:(lia)). nia.
Qed.

Lemma digits_needed_bound z : 0 <= z → z < 10 ^ Z.of_nat (digits_needed z).
Proof.
  intros Hz. apply count_digits_bound. split; [done|].
  rewrite Z2Nat.id by apply Z.log2_nonneg.
  destruct (Z.eq_dec z 0) as [->|]; [done|]. apply Z.log2_spec. lia.
Qed.

(** ** Reading printed digits back *)

Lemma span_digits_app s rest :
  string_forall is_digit s = true →
  match rest with String c _ => is_digit c = false | EmptyString => True end →
  span_digits (s ++ rest)%string = (s, rest).
Proof.
  intros Hs Hr. induction s as [|c s IH].
  - destruct rest as [|c r]; [done|]. change ((EmptyString ++ String c r)%string) with (String c r).
    cbn [span_digits]. by rewrite Hr.
  - cbn [string_forall] in Hs. apply andb_prop in Hs as [Hc Hs].
    change ((String c s ++ rest)%string) with (String c (s ++ rest)%string).
    cbn [span_digits]. by rewrite Hc, (IH Hs).
Qed.

Lemma trim_no_ws s : string_forall (λ c, negb (is_ws c)) s = true → trim s = s.
Proof.
  intros Hs. assert (Hl : trim_left s = s).
  { destruct s as [|c s]; [done|]. simpl in *. apply andb_prop in Hs as [Hc%negb_true_iff _]. by rewrite Hc. }
  unfold trim. rewrite Hl. clear Hl. induction s as [|c s IH]; [done|]. simpl in *.
  apply andb_prop in Hs as [Hc%negb_true_iff Hs]. rewrite (IH Hs), Hc. by destruct s.
Qed.

Lemma is_digit_not_ws c : is_digit c = true → is_ws c = false.
Proof. unfold is_digit, is_ws. rewrite andb_true_iff, !N.leb_le. intros [H1 H2].
  apply orb_false_iff. split; [apply andb_false_iff; right; apply N.leb_gt; lia|apply N.eqb_neq; lia]. Qed.

Lemma string_forall_impl (p q : ascii → bool) s :
  (∀ c, p c = true → q c = true) → string_forall p s = true → string_forall q s = true.
Proof.
  intros Hpq. induction s as [|c s IH]; [done|]. simpl. rewrite !andb_true_iff. intuition.
Qed.

(** ** Reading digits and printing them *)

Lemma digit_chars c : is_digit c = true → 0 ≤ digit_val c < 10 ∧ digit_char (digit_val c) = c.
Proof. destruct c as [[] [] [] [] [] [] [] []]; try discriminate; intros _; by vm_compute. Qed.

Lemma digits_val_linear s a :
  string_forall is_digit s = true →
  digits_val a s = a * 10 ^ Z.of_nat (String.length s) + digits_val 0 s ∧
  0 ≤ digits_val 0 s < 10 ^ Z.of_nat (String.length s).
Proof.
  revert a. induction s as [|c s IH]; intros a Hs.
  { cbn [digits_val String.length]. change (10 ^ Z.of_nat 0) with 1. lia. }
  cbn [string_forall] in Hs. apply andb_prop in Hs as [Hc Hs].
  destruct (digit_chars c Hc) as [Hv _]. cbn [digits_val String.length].
  rewrite Nat2Z.inj_succ, Z.pow_succ_r by lia.
  destruct (IH (10 * a + digit_val c) Hs) as [-> Hb].
  destruct (IH (10 * 0 + digit_val c) Hs) as [-> _].
  pose proof (Z.pow_pos_nonneg 10 (Z.of_nat (String.length s)) ltac:(lia) ltac:(lia)). nia.
Qed.

(** Text of digits is what its number prints at its length. *)
Lemma last_digits_of_text s a :
  string_forall is_digit s = true → 0 ≤ a → last_digits (String.length s) (digits_val a s) "" = s.
Proof.
  revert a. induction s as [|c s IH]; intros a Hs Ha; [done|].
  cbn [string_forall] in Hs. apply andb_prop in Hs as [Hc Hs].
  destruct (digit_chars c Hc) as [Hv Hch]. cbn [digits_val String.length].
  destruct (digits_val_linear s (10 * a + digit_val c) Hs) as [Hl Hb].
  pose proof (Z.pow_pos_nonneg 10 (Z.of_nat (String.length s)) ltac:(lia) ltac:(lia)).
  change (S (String.length s)) with (1 + String.length s)%nat.
  rewrite last_digits_split, IH by (done || nia). rewrite Hl.
  rewrite Z.div_add_l, (Z.div_small (digits_val 0 s)), Z.add_0_r by lia.
  cbn [last_digits]. rewrite (Z.mul_comm 10), Z.add_comm, Z_mod_plus_full, Z.mod_small by lia. by rewrite Hch.
Qed.

(** ** Prefixes and suffixes *)

Lemma str_take_app n a b : String.length a = n → str_take n (a ++ b)%string = a.
Proof. intros <-. induction a as [|c a IH]; [by destruct b|]. exact (f_equal (String c) IH). Qed.

Lemma str_drop_app n a b : String.length a = n → str_drop n (a ++ b)%string = b.
Proof. intros <-. induction a as [|c a IH]; [by destruct b|]. exact IH. Qed.

Lemma str_take_drop n s : (str_take n s ++ str_drop n s)%string = s.
Proof.
  revert s. induction n as [|n IH]; intros s; [by destruct s|].
  destruct s as [|c s]; [done|]. exact (f_equal (String c) (IH s)).
Qed.

Lemma str_take_length n s : (n ≤ String.length s)%nat → String.length (str_take n s) = n.
Proof.
  revert s. induction n as [|n IH]; intros s Hn; [by destruct s|].
  destruct s as [|c s]; cbn [String.length] in Hn; [lia|]. cbn [str_take String.length].
  rewrite IH; lia.
Qed.

Lemma str_drop_length n s : String.length (str_drop n s) = (String.length s - n)%nat.
Proof.
  revert s. induction n as [|n IH]; intros s; [destruct s; cbn [str_drop]; lia|].
  destruct s as [|c s]; [done|]. cbn [str_drop String.length]. apply IH.
Qed.

Lemma str_drop_drop n m s : str_drop n (str_drop m s) = str_drop (m + n) s.
Proof.
  revert s. induction m as [|m IH]; intros s; [by destruct s|].
  destruct s as [|c s]; [by destruct n|]. apply IH.
Qed.
