(* ===== verification/BrokerOrderStatus.v ===== *)
(** Broker order statuses: src/services/brokerOrderStatusService.ts.

    A status is whatever string the broker reports (or nothing); the
    classification decides whether the order still consumes capacity. *)

From S2P Require Import Prelude.
From S2P Require Import JsString.

Definition TERMINAL_BROKER_ORDER_STATUSES : list string :=
  ["canceled"; "cancelled"; "expired"; "filled"; "rejected"; "replaced"]%string.

Definition KNOWN_ACTIVE_BROKER_ORDER_STATUSES : list string :=
  ["accepted"; "accepted_for_bidding"; "calculated"; "done_for_day"; "held";
   "new"; "partially_filled"; "pending_cancel"; "pending_new";
   "pending_replace"; "stopped"; "submitted"; "suspended"]%string.

Record BrokerOrderStatusClassification := {
  normalized : string;
  active : bool;
  terminal : bool;
  known : bool
}.

(** [String(value ?? "").trim().toLowerCase()]. *)
Definition normalize_status (value : option string) : string :=
  to_lower (trim (default EmptyString value)).

Definition classifyBrokerOrderStatus (value : option string)
    : BrokerOrderStatusClassification :=
  let normalized := normalize_status value in
  let terminal := str_mem normalized TERMINAL_BROKER_ORDER_STATUSES in
  let known := terminal || str_mem normalized KNOWN_ACTIVE_BROKER_ORDER_STATUSES in
  {| normalized := normalized; terminal := terminal; known := known;
     active := str_truthy normalized && negb terminal |}.

Definition isActiveBrokerOrderStatus (value : option string) : bool :=
  active (classifyBrokerOrderStatus value).

(** ** Properties *)

Lemma normalize_status_lower s :
  normalize_status (Some (to_lower s)) = normalize_status (Some s).
Proof. unfold normalize_status; simpl. by rewrite trim_lower, to_lower_idem. Qed.

Lemma normalize_status_trim s :
  normalize_status (Some (trim s)) = normalize_status (Some s).
Proof. unfold normalize_status; simpl. by rewrite trim_idem. Qed.

Lemma normalize_status_idem v :
  normalize_status (Some (normalize_status v)) = normalize_status v.
Proof.
  unfold normalize_status; simpl. by rewrite trim_lower, to_lower_idem, trim_idem.
Qed.

(** Every known status is listed once, as terminal or as active. *)
Lemma status_lists_disjoint s :
  In s TERMINAL_BROKER_ORDER_STATUSES → ¬ In s KNOWN_ACTIVE_BROKER_ORDER_STATUSES.
Proof. simpl. intros H. repeat destruct H as [<-|H]; [naive_solver..|done]. Qed.

Lemma str_truthy_spec s : str_truthy s = true ↔ s ≠ EmptyString.
Proof. destruct s; naive_solver. Qed.

Ltac classify_fields :=
  unfold classifyBrokerOrderStatus; cbn [active normalized terminal known].

Lemma classify_active v :
  active (classifyBrokerOrderStatus v) = true ↔
  normalized (classifyBrokerOrderStatus v) ≠ EmptyString ∧
  terminal (classifyBrokerOrderStatus v) = false.
Proof. classify_fields. by rewrite andb_true_iff, str_truthy_spec, negb_true_iff. Qed.

Lemma classify_terminal v :
  terminal (classifyBrokerOrderStatus v) = true →
  normalized (classifyBrokerOrderStatus v) ≠ EmptyString ∧
  known (classifyBrokerOrderStatus v) = true.
Proof.
  classify_fields. intros Ht. rewrite Ht. split; [|done]. intros He. by rewrite He in Ht.
Qed.

Lemma classify_unknown v :
  known (classifyBrokerOrderStatus v) = false →
  normalized (classifyBrokerOrderStatus v) ≠ EmptyString →
  isActiveBrokerOrderStatus v = true.
Proof.
  intros Hk Hn. apply classify_active. split; [done|].
  destruct (terminal _) eqn:Ht; [|done]. apply classify_terminal in Ht as [_ Hk']. congruence.
Qed.

Lemma classify_known_active v :
  known (classifyBrokerOrderStatus v) = true →
  terminal (classifyBrokerOrderStatus v) = false →
  In (normalized (classifyBrokerOrderStatus v)) KNOWN_ACTIVE_BROKER_ORDER_STATUSES.
Proof. classify_fields. intros Hk Ht. rewrite Ht in Hk. by apply str_mem_true. Qed.

Lemma classify_normalized v w :
  normalize_status v = normalize_status w →
  classifyBrokerOrderStatus v = classifyBrokerOrderStatus w.
Proof. unfold classifyBrokerOrderStatus. by intros ->. Qed.

(** The classification of a broker status is a partition: exactly one of
    blank, terminal and active holds; a status that is not recognised is not
    terminal, so a non-blank unknown one keeps consuming capacity; and letter
    case and surrounding white space never change the result. *)
Theorem classify_partition v :
  let c := classifyBrokerOrderStatus v in
  (active c = true ↔ normalized c ≠ EmptyString ∧ terminal c = false) ∧
  (terminal c = true → normalized c ≠ EmptyString ∧ known c = true) ∧
  (known c = false → normalized c ≠ EmptyString → isActiveBrokerOrderStatus v = true) ∧
  (known c = true → terminal c = false →
     In (normalized c) KNOWN_ACTIVE_BROKER_ORDER_STATUSES) ∧
  (∀ w, to_lower (trim (default EmptyString w)) = to_lower (trim (default EmptyString v)) →
     classifyBrokerOrderStatus w = c) ∧
  classifyBrokerOrderStatus (Some (normalized c)) = c.
Proof.
  cbv zeta. split_and!.
  - apply classify_active.
  - apply classify_terminal.
  - apply classify_unknown.
  - apply classify_known_active.
  - intros w Hw. apply classify_normalized, Hw.
  - apply classify_normalized, normalize_status_idem.
Qed.
