(* ===== verification/TradeLifecycle.v ===== *)
(** The lifecycle of an autonomous trade:
    src/services/autonomousTradeLifecycleService.ts.

    The state graph with its transition table, the breadth-first search that
    turns a jump into a chain of legal transitions, the mapping from broker
    statuses to states, and the rules for closing operations and option
    strategies. *)

From S2P Require Import Prelude.
From S2P Require Import JsString.
From S2P Require Import JsDate.
From S2P Require Import BrokerOrderStatus.

Inductive AutonomousTradeLifecycleState : Set :=
| candidate_created | review_created | confirmed | ready_for_submission
| submission_attempt_persisted | submission_ambiguous | broker_order_discovered
| broker_order_accepted | partially_filled | filled | position_reconciled
| exit_evaluated | exit_review_created | exit_confirmed | exit_ready_for_submission
| exit_submission_attempt_persisted | exit_submission_ambiguous
| exit_broker_order_discovered | exit_partially_filled | closed
| cancel_requested | cancel_ambiguous | cancelled | rejected | expired
| failed_terminal.
Abbreviation state := AutonomousTradeLifecycleState.

#[export] Instance state_eq_dec : EqDecision state.
Proof. solve_decision. Defined.

Definition AUTONOMOUS_TRADE_LIFECYCLE_STATES : list state :=
  [candidate_created; review_created; confirmed; ready_for_submission;
   submission_attempt_persisted; submission_ambiguous; broker_order_discovered;
   broker_order_accepted; partially_filled; filled; position_reconciled;
   exit_evaluated; exit_review_created; exit_confirmed; exit_ready_for_submission;
   exit_submission_attempt_persisted; exit_submission_ambiguous;
   exit_broker_order_discovered; exit_partially_filled; closed;
   cancel_requested; cancel_ambiguous; cancelled; rejected; expired;
   failed_terminal].

(** The states are string literals in the code. *)
Definition state_name (s : state) : string :=
  match s with
  | candidate_created => "candidate_created"
  | review_created => "review_created"
  | confirmed => "confirmed"
  | ready_for_submission => "ready_for_submission"
  | submission_attempt_persisted => "submission_attempt_persisted"
  | submission_ambiguous => "submission_ambiguous"
  | broker_order_discovered => "broker_order_discovered"
  | broker_order_accepted => "broker_order_accepted"
  | partially_filled => "partially_filled"
  | filled => "filled"
  | position_reconciled => "position_reconciled"
  | exit_evaluated => "exit_evaluated"
  | exit_review_created => "exit_review_created"
  | exit_confirmed => "exit_confirmed"
  | exit_ready_for_submission => "exit_ready_for_submission"
  | exit_submission_attempt_persisted => "exit_submission_attempt_persisted"
  | exit_submission_ambiguous => "exit_submission_ambiguous"
  | exit_broker_order_discovered => "exit_broker_order_discovered"
  | exit_partially_filled => "exit_partially_filled"
  | closed => "closed"
  | cancel_requested => "cancel_requested"
  | cancel_ambiguous => "cancel_ambiguous"
  | cancelled => "cancelled"
  | rejected => "rejected"
  | expired => "expired"
  | failed_terminal => "failed_terminal"
  end.

Definition state_of_name (n : string) : option state :=
  List.find (λ s, String.eqb (state_name s) n) AUTONOMOUS_TRADE_LIFECYCLE_STATES.

Definition transitions (s : state) : list state :=
  match s with
  | candidate_created => [review_created; failed_terminal]
  | review_created => [confirmed; failed_terminal]
  | confirmed => [ready_for_submission; failed_terminal]
  | ready_for_submission => [submission_attempt_persisted; cancel_requested]
  | submission_attempt_persisted =>
      [submission_ambiguous; broker_order_discovered; cancelled; rejected; expired]
  | submission_ambiguous => [broker_order_discovered; failed_terminal]
  | broker_order_discovered =>
      [broker_order_accepted; cancelled; rejected; expired; cancel_requested]
  | broker_order_accepted =>
      [partially_filled; filled; cancelled; rejected; expired; cancel_requested]
  | partially_filled =>
      [filled; position_reconciled; cancelled; rejected; expired; cancel_requested]
  | filled => [position_reconciled; exit_evaluated]
  | position_reconciled => [exit_evaluated]
  | exit_evaluated => [exit_review_created; closed]
  | exit_review_created => [exit_confirmed]
  | exit_confirmed => [exit_ready_for_submission]
  | exit_ready_for_submission => [exit_submission_attempt_persisted; cancel_requested]
  | exit_submission_attempt_persisted =>
      [exit_submission_ambiguous; exit_broker_order_discovered; cancelled; rejected; expired]
  | exit_submission_ambiguous => [exit_broker_order_discovered; failed_terminal]
  | exit_broker_order_discovered =>
      [exit_partially_filled; closed; cancelled; rejected; expired; cancel_requested]
  | exit_partially_filled => [closed; cancelled; rejected; expired; cancel_requested]
  | closed => []
  | cancel_requested =>
      [cancel_ambiguous; filled; exit_broker_order_discovered; rejected; expired;
       cancelled; failed_terminal]
  | cancel_ambiguous =>
      [filled; exit_broker_order_discovered; rejected; expired; cancelled; failed_terminal]
  | cancelled | rejected | expired | failed_terminal => []
  end.

Definition mem (x : state) (l : list state) : bool := bool_decide (x ∈ l).

Definition arrow (from to : string) : string := from +:+ "->" +:+ to.

Definition AUTONOMOUS_TRADE_LIFECYCLE_EDGES : list string :=
  flat_map (λ s, map (λ t, arrow (state_name s) (state_name t)) (transitions s))
    AUTONOMOUS_TRADE_LIFECYCLE_STATES.

(** Keys every object literal inherits: reading one of them gives a value
    without an [includes] method, and the call is a TypeError. *)
Definition OBJECT_PROTOTYPE_KEYS : list string :=
  ["constructor"; "hasOwnProperty"; "isPrototypeOf"; "propertyIsEnumerable";
   "toLocaleString"; "toString"; "valueOf"; "__defineGetter__"; "__defineSetter__";
   "__lookupGetter__"; "__lookupSetter__"; "__proto__"]%string.

(** The arguments are any strings; unknown ones have no transition. *)
Definition validateLifecycleTransition (from to : string) : res unit :=
  let invalid := Throw ("INVALID_LIFECYCLE_TRANSITION:" +:+ arrow from to) in
  match state_of_name from with
  | Some s => if str_mem to (map state_name (transitions s)) then Ret tt else invalid
  | None => if str_mem from OBJECT_PROTOTYPE_KEYS then Throw "TypeError" else invalid
  end.

Definition isTerminalLifecycleState (s : state) : bool :=
  mem s [closed; cancelled; rejected; expired; failed_terminal].

(** ** The breadth-first search

    [queue] holds paths, newest last; a path is kept reversed, so its head is
    [path[path.length - 1]].  [scan] is the inner [for] loop over the
    transitions of the current state. *)
Fixpoint scan (to : state) (path : list state) (nexts : list state)
    (queue : list (list state)) (visited : list state)
    : list state + list (list state) * list state :=
  match nexts with
  | [] => inr (queue, visited)
  | next :: nexts' =>
      if mem next visited then scan to path nexts' queue visited
      else if bool_decide (next = to) then inl (next :: path)
      else scan to path nexts' (queue ++ [next :: path]) (next :: visited)
  end.

(** The [while] loop; [None] is a loop that has not ended within the fuel. *)
Fixpoint search (fuel : nat) (to : state) (queue : list (list state))
    (visited : list state) : option (option (list state)) :=
  match fuel with
  | O => None
  | S fuel' =>
      match queue with
      | [] => Some None
      | path :: queue' =>
          match path with
          | [] => Some None
          | current :: _ =>
              match scan to path (transitions current) queue' visited with
              | inl candidate => Some (Some (rev candidate))
              | inr (queue'', visited') => search fuel' to queue'' visited'
              end
          end
      end
  end.

(** Every state is queued at most once, so 27 rounds drain the queue. *)
Definition SEARCH_FUEL : nat := 27.

Definition no_valid_path (from to : state) : string :=
  "NO_VALID_LIFECYCLE_PATH:" +:+ arrow (state_name from) (state_name to).

Definition resolveLifecycleTransitionPath (from to : state) : option (res (list state)) :=
  if bool_decide (from = to) then Some (Ret [from])
  else match search SEARCH_FUEL to [[from]] [from] with
       | None => None
       | Some None => Some (Throw (no_valid_path from to))
       | Some (Some path) => Some (Ret path)
       end.

(** ** Broker reconciliation *)

Inductive reviewType : Set := entry | exit.

Definition lifecycleStateForBrokerStatus (reviewType : reviewType) (brokerStatus : string)
    : state :=
  let status := to_lower (trim brokerStatus) in
  if (status =? "canceled")%string || (status =? "cancelled")%string then cancelled
  else if (status =? "rejected")%string then rejected
  else if (status =? "expired")%string then expired
  else match reviewType with
  | exit =>
      if (status =? "partially_filled")%string then exit_partially_filled
      else exit_broker_order_discovered
  | entry =>
      if (status =? "partially_filled")%string then partially_filled
      else if (status =? "filled")%string then filled
      else if str_mem status ["accepted"; "new"; "pending_new"; "held"]%string
      then broker_order_accepted else broker_order_discovered
  end.

Definition resolveBrokerReconciliationLifecyclePath (fromState : string)
    (reviewType : reviewType) (brokerStatus : string) : option (res (list state)) :=
  match state_of_name fromState with
  | None => Some (Throw ("UNKNOWN_LIFECYCLE_STATE:" +:+ fromState))
  | Some from =>
      let status := to_lower (trim brokerStatus) in
      if match reviewType with exit => true | entry => false end
         && (status =? "filled")%string && bool_decide (from = exit_partially_filled)
      then Some (Ret [from])
      else if mem from [cancel_requested; cancel_ambiguous]
              && negb (str_mem status
                   ["filled"; "canceled"; "cancelled"; "rejected"; "expired"]%string)
      then Some (Ret [from])
      else resolveLifecycleTransitionPath from
             (lifecycleStateForBrokerStatus reviewType status)
  end.

(** ** Closing operations and option strategies *)

Inductive TradeOperation : Set := buy_to_open | sell_to_open | sell_to_close | buy_to_cover.
Inductive assetClass : Set := equity | option_asset.
Inductive side : Set := long | short.
#[export] Instance TradeOperation_eq_dec : EqDecision TradeOperation.
Proof. solve_decision. Defined.

Definition operation_name (o : TradeOperation) : string :=
  match o with
  | buy_to_open => "buy_to_open" | sell_to_open => "sell_to_open"
  | sell_to_close => "sell_to_close" | buy_to_cover => "buy_to_cover"
  end.

(** The overload on a position: it throws, or returns nothing. *)
Definition validateCloseOperation (asset : assetClass) (positionSide : side)
    (operation : option TradeOperation) : res unit :=
  match operation with
  | None => Throw "MISSING_CLOSE_OPERATION"
  | Some op =>
      match asset, positionSide with
      | equity, short =>
          if bool_decide (op ≠ buy_to_cover)
          then Throw "SHORT_POSITION_REQUIRES_BUY_TO_COVER" else Ret tt
      | _, long =>
          if bool_decide (op ≠ sell_to_close)
          then Throw "LONG_POSITION_REQUIRES_SELL_TO_CLOSE" else Ret tt
      | option_asset, short => Ret tt
      end
  end.

(** The overload on a side and an operation name: a verdict with its reason. *)
Definition validateCloseInput (positionSide : side) (operation : string)
    : bool * option string :=
  let expected := operation_name
    match positionSide with short => buy_to_cover | long => sell_to_close end in
  if (operation =? expected)%string then (true, None)
  else (false, Some ("CLOSE_OPERATION_MISMATCH:" +:+ expected)).

Inductive optionType : Set := call | put.
Inductive StrategyClassification : Set :=
| equity_long | equity_short | standard_long_call | standard_long_put
| zero_dte_long_call | zero_dte_long_put | leaps_long_call | leaps_long_put | hedge.

(** Both dates are midnights, so the floored quotient is the difference of
    their day numbers; with an invalid date it is NaN, which fails both tests. *)
Definition classifyOptionStrategy (expirationDate : string) (ty : optionType)
    (date : string) : StrategyClassification :=
  let days := match parse_iso_day expirationDate, parse_iso_day (String.substring 0 10 date) with
              | Some e, Some d => Some (e - d)%Z
              | _, _ => None
              end in
  let is_call := match ty with call => true | put => false end in
  if match days with Some n => (n =? 0)%Z | None => false end
  then (if is_call then zero_dte_long_call else zero_dte_long_put)
  else if match days with Some n => (365 <=? n)%Z | None => false end
  then (if is_call then leaps_long_call else leaps_long_put)
  else (if is_call then standard_long_call else standard_long_put).

(** ** The graph *)

Lemma mem_true x l : mem x l = true ↔ In x l.
Proof. unfold mem. by rewrite bool_decide_eq_true, list_elem_of_In. Qed.

Lemma mem_false x l : mem x l = false ↔ ¬ In x l.
Proof. by rewrite <- not_true_iff_false, mem_true. Qed.

Lemma all_states s : In s AUTONOMOUS_TRADE_LIFECYCLE_STATES.
Proof. apply mem_true. by destruct s. Qed.

(** A decidable fact of every state, or of every pair, is checked by running
    through the list of states. *)
Lemma for_all_states (P : state → bool) :
  forallb P AUTONOMOUS_TRADE_LIFECYCLE_STATES = true → ∀ s, P s = true.
Proof. rewrite forallb_forall. intros H s. apply H, all_states. Qed.

Lemma for_all_pairs (P : state → state → bool) :
  forallb (λ s, forallb (P s) AUTONOMOUS_TRADE_LIFECYCLE_STATES)
    AUTONOMOUS_TRADE_LIFECYCLE_STATES = true → ∀ s t, P s t = true.
Proof. intros H s. apply (for_all_states (P s)). apply (for_all_states _ H). Qed.

Lemma state_of_state_name s : state_of_name (state_name s) = Some s.
Proof. by destruct s. Qed.

Lemma state_of_name_Some n s : state_of_name n = Some s → n = state_name s.
Proof.
  intros H. apply List.find_some in H as [_ H]. by apply String.eqb_eq in H.
Qed.

(** [chain s l]: the states [l], visited in order from [s], follow transitions. *)
Fixpoint chain (s : state) (l : list state) : Prop :=
  match l with
  | [] => True
  | t :: l' => In t (transitions s) ∧ chain t l'
  end.

Fixpoint chainb (s : state) (l : list state) : bool :=
  match l with
  | [] => true
  | t :: l' => mem t (transitions s) && chainb t l'
  end.

Lemma chainb_chain s l : chainb s l = true ↔ chain s l.
Proof.
  revert s. induction l as [|t l IH]; intros s; simpl; [done|].
  by rewrite andb_true_iff, mem_true, IH.
Qed.

(** A list is a path from [a] to [b]. *)
Definition is_path (a b : state) (p : list state) : Prop :=
  ∃ l, p = a :: l ∧ chain a l ∧ List.last l a = b.

Definition is_pathb (a b : state) (p : list state) : bool :=
  match p with
  | [] => false
  | a' :: l => bool_decide (a' = a) && chainb a l && bool_decide (List.last l a = b)
  end.

Lemma is_pathb_true a b p : is_pathb a b p = true → is_path a b p.
Proof.
  destruct p as [|a' l]; [done|]. unfold is_pathb.
  rewrite !andb_true_iff, !bool_decide_eq_true, chainb_chain.
  intros [[-> ?] ?]. exists l. done.
Qed.

Lemma last_cons (l : list state) t d : List.last (t :: l) d = List.last l t.
Proof.
  revert t d. induction l as [|u l IH]; intros t d; [done|].
  change (List.last (u :: l) d = List.last (u :: l) t). by rewrite !IH.
Qed.

(** The states [n] transitions away from [a]. *)
Fixpoint level (n : nat) (a : state) : list state :=
  match n with
  | O => [a]
  | S n' => remove_dups (flat_map transitions (level n' a))
  end.

Lemma level_step n a s t : In s (level n a) → In t (transitions s) → In t (level (S n) a).
Proof.
  intros Hs Ht. simpl. apply list_elem_of_In, elem_of_remove_dups, list_elem_of_In.
  apply in_flat_map. eauto.
Qed.

Lemma chain_level a s n l :
  In s (level n a) → chain s l → In (List.last l s) (level (n + List.length l) a).
Proof.
  revert s n. induction l as [|t l IH]; intros s n Hs Hc; simpl.
  - by rewrite Nat.add_0_r.
  - destruct Hc as [Ht Hc].
    replace (n + S (List.length l))%nat with (S n + List.length l)%nat by lia.
    change (In (List.last (t :: l) s) (level (S n + List.length l) a)).
    rewrite last_cons. apply IH; [by eapply level_step|done].
Qed.

Lemma path_level a b p : is_path a b p → In b (level (pred (List.length p)) a).
Proof. intros (l & -> & Hc & <-). apply (chain_level a a 0); [by left|done]. Qed.

(** A set of states closed under the transitions outside [avoid] holds every
    state that a path avoiding [avoid] reaches. *)
Definition closed_set (avoid C : list state) : bool :=
  forallb (λ s, forallb (λ t, mem t avoid || mem t C) (transitions s)) C.

Lemma closed_set_path avoid C a l :
  closed_set avoid C = true → In a C → chain a l →
  (∀ s, In s l → ¬ In s avoid) → In (List.last l a) C.
Proof.
  unfold closed_set. rewrite forallb_forall. intros HC. revert a.
  induction l as [|t l IH]; intros a Ha Hc Hav; [done|].
  destruct Hc as [Ht Hc].
  assert (HtC : In t C).
  { specialize (HC a Ha). rewrite forallb_forall in HC. specialize (HC t Ht).
    apply orb_true_iff in HC as [HC%mem_true|HC%mem_true]; [|done].
    destruct (Hav t); [by left|done]. }
  rewrite last_cons. apply IH; auto. intros s Hs. apply Hav. by right.
Qed.

(** The states reachable from [a] without entering [avoid]. *)
Fixpoint reach (n : nat) (avoid C : list state) : list state :=
  match n with
  | O => C
  | S n' => reach n' avoid
      (remove_dups (C ++ List.filter (λ t, negb (mem t avoid)) (flat_map transitions C)))
  end.

(** ** The search finds a shortest path, or proves that there is none *)

Definition search_check (a b : state) : bool :=
  match resolveLifecycleTransitionPath a b with
  | Some (Ret p) =>
      is_pathb a b p && forallb (λ n, negb (mem b (level n a))) (seq 0 (pred (List.length p)))
  | Some (Throw c) =>
      let C := reach 26 [] [a] in
      (c =? no_valid_path a b)%string && mem a C && closed_set [] C && negb (mem b C)
  | None => false
  end.

Lemma search_check_all a b : search_check a b = true.
Proof. revert a b. apply for_all_pairs. vm_cast_no_check (eq_refl true). Qed.

Lemma search_check_Ret a b p :
  resolveLifecycleTransitionPath a b = Some (Ret p) →
  is_path a b p ∧ ∀ q, is_path a b q → (List.length p <= List.length q)%nat.
Proof.
  intros H. pose proof (search_check_all a b) as Hc. unfold search_check in Hc.
  rewrite H in Hc. apply andb_true_iff in Hc as [Hp%is_pathb_true Hmin].
  split; [done|]. intros q Hq. rewrite forallb_forall in Hmin.
  destruct (Nat.le_gt_cases (List.length p) (List.length q)) as [|Hlt]; [done|].
  pose proof (path_level _ _ _ Hq) as Hlev. destruct Hq as (l & -> & _).
  specialize (Hmin (pred (List.length (a :: l)))).
  rewrite negb_true_iff, mem_false in Hmin. destruct Hmin; [|done].
  apply in_seq. simpl in *. lia.
Qed.

Lemma search_check_Throw a b c :
  resolveLifecycleTransitionPath a b = Some (Throw c) →
  c = no_valid_path a b ∧ ∀ q, ¬ is_path a b q.
Proof.
  intros H. pose proof (search_check_all a b) as Hc. unfold search_check in Hc.
  rewrite H in Hc. cbv zeta in Hc. generalize dependent (reach 26 [] [a]). intros C Hc.
  rewrite !andb_true_iff, negb_true_iff, mem_true, mem_false in Hc.
  destruct Hc as [[[Hc%String.eqb_eq HaC] Hclosed] Hb]. split; [done|].
  intros q (l & -> & Hch & <-). apply Hb.
  exact (closed_set_path [] _ a l Hclosed HaC Hch (λ s _ H, H)).
Qed.

Lemma search_check_None a b : resolveLifecycleTransitionPath a b ≠ None.
Proof.
  intros H. pose proof (search_check_all a b) as Hc. unfold search_check in Hc.
  by rewrite H in Hc.
Qed.

(** The breadth-first search of [resolveLifecycleTransitionPath] always
    ends, and between any two states it returns a chain of legal transitions
    that is as short as any, or throws NO_VALID_LIFECYCLE_PATH, and then no
    chain of legal transitions leads from the one state to the other. *)
Theorem resolve_path_shortest from to :
  ∃ r, resolveLifecycleTransitionPath from to = Some r ∧
  match r with
  | Ret p => is_path from to p ∧
      ∀ q, is_path from to q → (List.length p <= List.length q)%nat
  | Throw c => c = no_valid_path from to ∧ ∀ q, ¬ is_path from to q
  end.
Proof.
  destruct (resolveLifecycleTransitionPath from to) as [[p|c]|] eqn:E.
  - exists (Ret p). split; [done|]. by apply search_check_Ret.
  - exists (Throw c). split; [done|]. by apply search_check_Throw.
  - by apply search_check_None in E.
Qed.

(** ** What every history has gone through *)

(** [b] is outside a set that holds [a] and is closed under every transition
    that does not enter [avoid]. *)
Definition avoids (avoid : list state) (a b : state) : bool :=
  let C := reach 26 avoid [a] in mem a C && closed_set avoid C && negb (mem b C).

Lemma avoid_not_reached avoid a b p :
  avoids avoid a b = true →
  is_path a b p → ∃ s, In s avoid ∧ In s p.
Proof.
  unfold avoids. generalize (reach 26 avoid [a]). intros C Hc (l & -> & Hch & Hb).
  rewrite !andb_true_iff, negb_true_iff in Hc.
  destruct Hc as [[Ha%mem_true HC] HbC%mem_false].
  destruct (existsb (λ s, mem s avoid) l) eqn:Hex.
  - apply existsb_exists in Hex as (s & Hs & Hav%mem_true). exists s. split; [done|by right].
  - destruct HbC. rewrite <- Hb.
    apply (closed_set_path avoid _ a l HC Ha Hch).
    intros s Hs Hav. apply not_true_iff_false in Hex. apply Hex.
    apply existsb_exists. exists s. by rewrite mem_true.
Qed.

Lemma must_visit a b s p :
  avoids [s] a b = true → is_path a b p → In s p.
Proof.
  intros Hc Hp. destruct (avoid_not_reached [s] a b p Hc Hp) as (s' & [<-|[]] & ?). done.
Qed.

(** The states an entry order has only after its submission was attempted. *)
Definition submitted_states : list state :=
  [submission_ambiguous; broker_order_discovered; broker_order_accepted; partially_filled].

(** The states a candidate has before it is ready for submission, or when it
    is given up at one of them. *)
Definition unconfirmed_states : list state :=
  [candidate_created; review_created; confirmed; failed_terminal].

Lemma unavoidable_confirmed b :
  mem b unconfirmed_states
  || forallb (λ s, avoids [s] candidate_created b)
       [review_created; confirmed; ready_for_submission] = true.
Proof. revert b. apply for_all_states. vm_cast_no_check (eq_refl true). Qed.

Lemma unavoidable_attempt b :
  negb (mem b submitted_states)
  || avoids [submission_attempt_persisted] candidate_created b = true.
Proof. revert b. apply for_all_states. vm_cast_no_check (eq_refl true). Qed.

(** No history of legal transitions that starts with a candidate skips the
    safety steps: any state beyond the unconfirmed ones is reached only through
    review, confirmation and readiness, in particular every filled, closed or
    cancelled trade, and any broker-side entry state only after the submission
    attempt was persisted. *)
Theorem submission_steps_not_skipped b p :
  is_path candidate_created b p →
  (¬ In b unconfirmed_states →
     In review_created p ∧ In confirmed p ∧ In ready_for_submission p) ∧
  (In b submitted_states → In submission_attempt_persisted p).
Proof.
  intros Hp. split.
  - intros Hb%mem_false. pose proof (unavoidable_confirmed b) as H.
    rewrite Hb in H. cbn [orb forallb] in H. rewrite !andb_true_iff in H.
    destruct H as (H1 & H2 & H3 & _).
    split_and!; [exact (must_visit _ _ _ _ H1 Hp)|exact (must_visit _ _ _ _ H2 Hp)
                |exact (must_visit _ _ _ _ H3 Hp)].
  - intros Hb%mem_true. pose proof (unavoidable_attempt b) as H.
    rewrite Hb in H. cbn [orb negb] in H. exact (must_visit _ _ _ _ H Hp).
Qed.

Lemma submission_steps_not_skipped_witness :
  is_path candidate_created broker_order_discovered
    [candidate_created; review_created; confirmed; ready_for_submission;
     submission_attempt_persisted; broker_order_discovered] ∧
  In submission_attempt_persisted
    [candidate_created; review_created; confirmed; ready_for_submission;
     submission_attempt_persisted; broker_order_discovered].
Proof.
  assert (H : is_path candidate_created broker_order_discovered
    [candidate_created; review_created; confirmed; ready_for_submission;
     submission_attempt_persisted; broker_order_discovered])
    by (apply is_pathb_true; vm_compute; reflexivity).
  split; [exact H|].
  apply (proj2 (submission_steps_not_skipped _ _ H)). right; left; reflexivity.
Defined.

(** ** The transition table *)

Lemma validate_transition_Ret a b :
  validateLifecycleTransition a b = Ret tt ↔
  ∃ s t, a = state_name s ∧ b = state_name t ∧ In t (transitions s).
Proof.
  unfold validateLifecycleTransition. split.
  - destruct (state_of_name a) as [s|] eqn:Ea.
    + destruct (str_mem b _) eqn:Eb; [|done]. intros _.
      apply str_mem_true, in_map_iff in Eb as (t & <- & Ht).
      exists s, t. split_and!; [by apply state_of_name_Some|done..].
    + by destruct (str_mem a _).
  - intros (s & t & -> & -> & Ht). rewrite state_of_state_name.
    replace (str_mem _ _) with true; [done|]. symmetry.
    by apply str_mem_true, in_map.
Qed.

Definition ends_in_terminal (s : state) : bool :=
  existsb (λ t, match resolveLifecycleTransitionPath s t with
                | Some (Ret _) => isTerminalLifecycleState t
                | _ => false
                end) AUTONOMOUS_TRADE_LIFECYCLE_STATES.

Lemma ends_in_terminal_all s : ends_in_terminal s = true.
Proof. revert s. apply for_all_states. vm_cast_no_check (eq_refl true). Qed.

Lemma terminal_no_transition s : isTerminalLifecycleState s = true ↔ transitions s = [].
Proof. destruct s; vm_compute; naive_solver. Qed.

(** [validateLifecycleTransition] accepts two strings exactly when they
    name an edge of the transition table; the terminal states are exactly the
    states without a successor, so a trade that reaches one stays there; and
    from every state some terminal state can be reached: no trade is stuck. *)
Theorem lifecycle_graph_wellformed :
  (∀ a b, validateLifecycleTransition a b = Ret tt ↔
     ∃ s t, a = state_name s ∧ b = state_name t ∧ In t (transitions s)) ∧
  (∀ s, isTerminalLifecycleState s = true ↔ ∀ t p, is_path s t p → p = [s]) ∧
  (∀ s, ∃ t p, isTerminalLifecycleState t = true ∧ is_path s t p).
Proof.
  split_and!; [apply validate_transition_Ret|..].
  - intros s. rewrite terminal_no_transition. split.
    + intros Hs t p (l & -> & Hc & _). destruct l; [done|].
      simpl in Hc. rewrite Hs in Hc. by destruct Hc.
    + intros Hp. destruct (transitions s) as [|t l] eqn:E; [done|].
      exfalso. assert (Hq : is_path s t [s; t]).
      { exists [t]. simpl. rewrite E. split_and!; auto. by left. }
      apply Hp in Hq. discriminate Hq.
  - intros s. pose proof (ends_in_terminal_all s) as H.
    apply existsb_exists in H as (t & _ & Ht).
    destruct (resolveLifecycleTransitionPath s t) as [[p|]|] eqn:E; [|done..].
    exists t, p. split; [done|]. by apply search_check_Ret in E as [? _].
Qed.

(** ** Reconciliation *)

(** The broker-side states of an entry order in the order they are reached. *)
Definition entry_rank (s : state) : option nat :=
  match s with
  | submission_attempt_persisted | submission_ambiguous => Some 0%nat
  | broker_order_discovered => Some 1%nat
  | broker_order_accepted => Some 2%nat
  | partially_filled => Some 3%nat
  | filled | cancelled | rejected | expired => Some 4%nat
  | _ => None
  end.

Definition entry_phases : list state :=
  [submission_attempt_persisted; submission_ambiguous; broker_order_discovered;
   broker_order_accepted; partially_filled].

Definition entry_targets : list state :=
  [cancelled; rejected; expired; partially_filled; filled; broker_order_accepted;
   broker_order_discovered].

(** Jumping forward succeeds without a cancellation request on the way, jumping
    back throws. *)
Definition entry_jump_check (from target : state) : bool :=
  match entry_rank from, entry_rank target with
  | Some i, Some j =>
      match resolveLifecycleTransitionPath from target with
      | Some (Ret p) => Nat.leb i j && negb (mem cancel_requested p)
      | Some (Throw _) => Nat.ltb j i
      | None => false
      end
  | _, _ => false
  end.

Lemma entry_jump_checked :
  forallb (λ f, forallb (entry_jump_check f) entry_targets) entry_phases = true.
Proof. vm_cast_no_check (eq_refl true). Qed.

Lemma entry_target status : In (lifecycleStateForBrokerStatus entry status) entry_targets.
Proof.
  unfold lifecycleStateForBrokerStatus, entry_targets.
  repeat match goal with |- context [if ?b then _ else _] => destruct b end;
    simpl; tauto.
Qed.

Lemma lifecycle_state_normal rt status :
  lifecycleStateForBrokerStatus rt (to_lower (trim status)) =
  lifecycleStateForBrokerStatus rt status.
Proof.
  unfold lifecycleStateForBrokerStatus.
  by rewrite trim_lower, to_lower_idem, trim_idem.
Qed.

Lemma reconcile_entry_phase from status :
  In from entry_phases →
  resolveBrokerReconciliationLifecyclePath (state_name from) entry status =
  resolveLifecycleTransitionPath from (lifecycleStateForBrokerStatus entry status).
Proof.
  intros Hf. unfold resolveBrokerReconciliationLifecyclePath.
  rewrite state_of_state_name, lifecycle_state_normal. cbn [andb].
  by repeat destruct Hf as [<-|Hf].
Qed.

(** Reconciling an entry order whose submission was attempted moves it
    along legal transitions to the state its broker status stands for, never
    through a cancellation request nobody made, exactly when that state is not
    earlier in the order's life; a broker status that stands for an earlier
    state is refused with NO_VALID_LIFECYCLE_PATH and the order stays. *)
Theorem entry_reconciliation_forward_only from status :
  In from entry_phases →
  let target := lifecycleStateForBrokerStatus entry status in
  ∃ i j, entry_rank from = Some i ∧ entry_rank target = Some j ∧
  ∃ r, resolveBrokerReconciliationLifecyclePath (state_name from) entry status = Some r ∧
  match r with
  | Ret p => (i <= j)%nat ∧ is_path from target p ∧ ¬ In cancel_requested p
  | Throw c => (j < i)%nat ∧ c = no_valid_path from target
  end.
Proof.
  intros Hf target. rewrite (reconcile_entry_phase _ _ Hf). fold target.
  pose proof entry_jump_checked as H. rewrite forallb_forall in H.
  specialize (H from Hf). rewrite forallb_forall in H.
  specialize (H target (entry_target status)). clearbody target.
  unfold entry_jump_check in H.
  destruct (entry_rank from) as [i|]; [|done].
  destruct (entry_rank target) as [j|]; [|done]. exists i, j. split_and!; [done..|].
  destruct (resolveLifecycleTransitionPath from target) as [[p|c]|] eqn:E; [| |done].
  - exists (Ret p). split; [done|].
    apply andb_true_iff in H as [H1%Nat.leb_le H2%negb_true_iff%mem_false].
    apply search_check_Ret in E as [E _]. done.
  - exists (Throw c). split; [done|]. apply Nat.ltb_lt in H.
    apply search_check_Throw in E as [E _]. done.
Qed.

Lemma entry_reconciliation_forward_only_witness :
  In submission_ambiguous entry_phases ∧
  entry_rank (lifecycleStateForBrokerStatus entry " Filled ") = Some 4%nat ∧
  ∃ r, resolveBrokerReconciliationLifecyclePath "submission_ambiguous" entry " Filled " = Some r
       ∧ r = Ret [submission_ambiguous; broker_order_discovered; broker_order_accepted; filled].
Proof.
  assert (Hin : In submission_ambiguous entry_phases) by (right; left; reflexivity).
  split; [exact Hin|]. split; [reflexivity|].
  destruct (entry_reconciliation_forward_only submission_ambiguous " Filled " Hin)
    as (i & j & _ & _ & r & Hr & _).
  exists r. split; [exact Hr|]. vm_compute in Hr. congruence.
Defined.

(** Broker statuses of live orders that stand for no state of their own. *)
Definition unmapped_active_statuses : list string :=
  ["accepted_for_bidding"; "calculated"; "done_for_day"; "pending_cancel";
   "pending_replace"; "stopped"; "submitted"; "suspended"]%string.

(** The broker statuses of live orders outside the four the lifecycle maps
    to [broker_order_accepted] are known and active for the classification, yet
    reconciling an accepted or partially filled entry order that reports one of
    them always throws: [lifecycleStateForBrokerStatus] answers
    [broker_order_discovered], which those states cannot go back to. *)
Theorem active_status_not_reconcilable status from :
  In status unmapped_active_statuses →
  In from [broker_order_accepted; partially_filled] →
  isActiveBrokerOrderStatus (Some status) = true ∧
  known (classifyBrokerOrderStatus (Some status)) = true ∧
  resolveBrokerReconciliationLifecyclePath (state_name from) entry status =
    Some (Throw (no_valid_path from broker_order_discovered)).
Proof.
  intros Hs Hf.
  repeat destruct Hs as [<-|Hs]; [..|destruct Hs];
    repeat destruct Hf as [<-|Hf]; try destruct Hf; vm_compute; auto.
Qed.

Lemma active_status_not_reconcilable_witness :
  In "pending_cancel"%string unmapped_active_statuses ∧
  resolveBrokerReconciliationLifecyclePath "broker_order_accepted" entry "pending_cancel" =
    Some (Throw "NO_VALID_LIFECYCLE_PATH:broker_order_accepted->broker_order_discovered").
Proof.
  assert (H : In "pending_cancel"%string unmapped_active_statuses)
    by (simpl; tauto).
  split; [exact H|].
  exact (proj2 (proj2 (active_status_not_reconcilable _ broker_order_accepted H
    (or_introl eq_refl)))).
Defined.

(** ** Closing operations *)

(** The two overloads of [validateCloseOperation] agree on which operation
    closes a position: sell_to_close for a long, buy_to_cover for a short one,
    with the expected operation named in the refusal.  The overload on a
    position differs for short options only, which it accepts with any
    operation, and it refuses a missing operation. *)
Theorem close_operation_overloads asset positionSide op :
  validateCloseOperation asset positionSide None = Throw "MISSING_CLOSE_OPERATION" ∧
  ((asset, positionSide) ≠ (option_asset, short) →
   (validateCloseOperation asset positionSide (Some op) = Ret tt ↔
    validateCloseInput positionSide (operation_name op) = (true, None))) ∧
  validateCloseOperation option_asset short (Some op) = Ret tt ∧
  (fst (validateCloseInput positionSide (operation_name op)) = true ↔
    op = match positionSide with long => sell_to_close | short => buy_to_cover end) ∧
  (∀ name, name ≠ "sell_to_close"%string →
     validateCloseInput long name = (false, Some "CLOSE_OPERATION_MISMATCH:sell_to_close"%string)).
Proof.
  split_and!; [by destruct asset, positionSide| |done| |].
  - destruct asset, positionSide, op; cbn; naive_solver.
  - destruct positionSide, op; cbn; naive_solver.
  - intros name Hn. unfold validateCloseInput. cbn.
    by apply String.eqb_neq in Hn as ->.
Qed.
