(* ===== verification/SchedulerLease.v ===== *)
(** Scheduler leases with fencing tokens:
    src/repositories/postgres/postgresSchedulerLeaseRepository.ts, its contract
    src/repositories/contracts/schedulerLeaseRepository.ts, and the fence check
    of src/repositories/postgres/postgresRepositorySupport.ts.

    One row per job in the table scheduler_leases; fencing tokens come from the
    sequence scheduler_fencing_token_seq.  Every operation runs in a
    transaction that holds the row lock, so operations on one job are
    serialised; [now] is the statement timestamp of a statement, in
    milliseconds.  The CHECK constraints of the table abort the transaction. *)

From stdpp Require Import pretty.
From S2P Require Import Prelude.
From S2P Require Import JsString.
Open Scope Z_scope.

Inductive SchedulerLeaseStatus : Set := held | released | lease_expired.
#[export] Instance SchedulerLeaseStatus_eq_dec : EqDecision SchedulerLeaseStatus.
Proof. solve_decision. Defined.

(** A row; [mapLease] returns the same fields as a SchedulerLeaseRecord, with
    the token as decimal text. *)
Record SchedulerLeaseRow := {
  lease_job_name : string;
  lease_workstream : string;
  lease_owner_id : string;
  lease_run_id : string;
  lease_fencing_token : Z;
  lease_status : SchedulerLeaseStatus;
  lease_acquired_at : Z;
  lease_heartbeat_at : Z;
  lease_expires_at : Z;
  lease_released_at : option Z;
  lease_release_reason : option string;
  lease_version : Z
}.

(** The fence a run presents with its writes. *)
Record SchedulerFence := {
  fence_job_name : string;
  fence_workstream : string;
  fence_owner_id : string;
  fence_run_id : string;
  fence_token : string
}.

(** [fencing_token::text]. *)
Definition token_text (t : Z) : string := pretty t.

Inductive SchedulerLeaseAcquisitionResult : Type :=
| Acquired (lease : SchedulerLeaseRow)
| Held (lease : SchedulerLeaseRow).

Inductive SchedulerLeaseMutationResult : Type :=
| LeaseUpdated (lease : SchedulerLeaseRow)
| LeaseNotFound
| LeaseFenceRejected (currentFencingToken : string).

(** [decimalToken]: a token that is not a positive decimal number is refused. *)
Definition decimalToken (t : Z) : res string :=
  if 0 <? t then Ret (token_text t) else Throw "SCHEDULER_FENCING_TOKEN_INVALID".

Definition mapLease (row : SchedulerLeaseRow) : res SchedulerLeaseRow :=
  decimalToken (lease_fencing_token row) ≫= λ _, Ret row.

(** [Date.parse] has already been applied; [None] is NaN. *)
Definition leaseTtlMilliseconds (start end_ : option Z) : res Z :=
  match start, end_ with
  | Some s, Some e =>
      let ttl := e - s in
      if (Z.abs ttl <=? 2 ^ 53 - 1) && (0 <? ttl) then Ret ttl
      else Throw "SCHEDULER_LEASE_TTL_INVALID"
  | _, _ => Throw "SCHEDULER_LEASE_TTL_INVALID"
  end.

(** The table and the next value of the sequence. *)
Record LeaseDb := {
  leases : list SchedulerLeaseRow;
  token_seq : Z
}.

Definition is_job (job : string) (r : SchedulerLeaseRow) : bool :=
  (lease_job_name r =? job)%string.

Definition is_held (r : SchedulerLeaseRow) : bool := bool_decide (lease_status r = held).

(** [status = 'held' AND expires_at > now]. *)
Definition lease_is_current (now : Z) (r : SchedulerLeaseRow) : bool :=
  is_held r && (now <? lease_expires_at r).

(** [btrim(s) <> '']: [btrim] strips spaces only. *)
Definition btrim_nonempty (s : string) : bool := negb (string_forall (Ascii.eqb " ") s).

(** The CHECK constraints of scheduler_leases. *)
Definition lease_checks (r : SchedulerLeaseRow) : bool :=
  btrim_nonempty (lease_job_name r) && btrim_nonempty (lease_workstream r)
  && btrim_nonempty (lease_owner_id r) && btrim_nonempty (lease_run_id r)
  && (0 <? lease_fencing_token r)
  && (lease_acquired_at r <=? lease_heartbeat_at r)
  && (lease_acquired_at r <? lease_expires_at r)
  && match lease_released_at r with
     | Some t => (lease_acquired_at r <=? t) && negb (is_held r)
     | None => true
     end
  && (0 <? lease_version r).

Definition check_violation : string := "check_violation".

(** [lockLease]: the row of the job, locked until the transaction ends. *)
Definition lockLease (job : string) : tx LeaseDb (option SchedulerLeaseRow) :=
  gets (λ db, select_one (is_job job) (leases db)).

(** [fenceMatches]: the fencing identity without the workstream. *)
Definition fenceMatches (now : Z) (row : SchedulerLeaseRow) (fence : SchedulerFence) : bool :=
  (lease_job_name row =? fence_job_name fence)%string
  && (lease_owner_id row =? fence_owner_id fence)%string
  && (lease_run_id row =? fence_run_id fence)%string
  && (token_text (lease_fencing_token row) =? fence_token fence)%string
  && is_held row && lease_is_current now row.

(** The same test inside the statements of the services ([fenceSql]): the
    parameters are compared as text, the clock is that of the statement. *)
Definition fenceSql (now : Z) (fence : SchedulerFence) (rows : list SchedulerLeaseRow) : bool :=
  existsb (λ r, (lease_job_name r =? fence_job_name fence)%string
                && (lease_workstream r =? fence_workstream fence)%string
                && (lease_owner_id r =? fence_owner_id fence)%string
                && (lease_run_id r =? fence_run_id fence)%string
                && (token_text (lease_fencing_token r) =? fence_token fence)%string
                && lease_is_current now r) rows.

Definition rejectedLockedMutation (row : option SchedulerLeaseRow)
    : res SchedulerLeaseMutationResult :=
  match row with
  | Some r => decimalToken (lease_fencing_token r) ≫= λ t, Ret (LeaseFenceRejected t)
  | None => Ret LeaseNotFound
  end.

Definition lift_res {S A} (r : res A) : tx S A :=
  λ s, match r with Ret a => Ret (a, s) | Throw c => Throw c end.

(** [findByJobName]: a row whose token is not a positive integer is an error. *)
Definition findByJobName (job : string) : tx LeaseDb (option SchedulerLeaseRow) :=
  found ← gets (λ db, select_one (is_job job) (leases db));
  match found with
  | Some row => lease ← lift_res (mapLease row); mret (Some lease)
  | None => mret None
  end.

Record AcquireInput := {
  acq_jobName : string;
  acq_workstream : string;
  acq_ownerId : string;
  acq_runId : string;
  acq_acquiredAt : option Z;
  acq_expiresAt : option Z
}.

(** The row the INSERT of [acquire] proposes. *)
Definition proposed_lease (now ttl token : Z) (i : AcquireInput) : SchedulerLeaseRow :=
  {| lease_job_name := acq_jobName i; lease_workstream := acq_workstream i;
     lease_owner_id := acq_ownerId i; lease_run_id := acq_runId i;
     lease_fencing_token := token; lease_status := held;
     lease_acquired_at := now; lease_heartbeat_at := now;
     lease_expires_at := now + ttl; lease_released_at := None;
     lease_release_reason := None; lease_version := 1 |}.

(** [ON CONFLICT (job_name) DO UPDATE SET ...]: all columns from the proposed
    row, except that the version counts on. *)
Definition takeover (proposed old : SchedulerLeaseRow) : SchedulerLeaseRow :=
  {| lease_job_name := lease_job_name old;
     lease_workstream := lease_workstream proposed;
     lease_owner_id := lease_owner_id proposed;
     lease_run_id := lease_run_id proposed;
     lease_fencing_token := lease_fencing_token proposed;
     lease_status := held;
     lease_acquired_at := lease_acquired_at proposed;
     lease_heartbeat_at := lease_heartbeat_at proposed;
     lease_expires_at := lease_expires_at proposed;
     lease_released_at := None; lease_release_reason := None;
     lease_version := lease_version old + 1 |}.

(** The INSERT ... ON CONFLICT statement: the row written, if any.  The
    sequence value is consumed whether or not a row is written. *)
Definition insert_or_take_over (now ttl : Z) (i : AcquireInput)
    : tx LeaseDb (option SchedulerLeaseRow) := λ db,
  let proposed := proposed_lease now ttl (token_seq db) i in
  let seq' := token_seq db + 1 in
  match select_one (is_job (acq_jobName i)) (leases db) with
  | None =>
      if lease_checks proposed
      then Ret (Some proposed, {| leases := leases db ++ [proposed]; token_seq := seq' |})
      else Throw check_violation
  | Some old =>
      if negb (is_held old) || (lease_expires_at old <=? now) then
        let row := takeover proposed old in
        if lease_checks row && lease_checks proposed
        then Ret (Some row,
                  {| leases := update_where (is_job (acq_jobName i)) (takeover proposed)
                                 (leases db);
                     token_seq := seq' |})
        else Throw check_violation
      else if lease_checks proposed
      then Ret (None, {| leases := leases db; token_seq := seq' |})
      else Throw check_violation
  end.

Definition acquire (now : Z) (i : AcquireInput) : tx LeaseDb SchedulerLeaseAcquisitionResult :=
  ttl ← lift_res (leaseTtlMilliseconds (acq_acquiredAt i) (acq_expiresAt i));
  written ← insert_or_take_over now ttl i;
  match written with
  | Some row => lift_res (mapLease row ≫= λ l, Ret (Acquired l))
  | None =>
      held ← lockLease (acq_jobName i);
      match held with
      | Some r =>
          if is_held r then lift_res (mapLease r ≫= λ l, Ret (Held l))
          else throw "SCHEDULER_LEASE_COMPETITION_STATE_UNAVAILABLE"
      | None => throw "SCHEDULER_LEASE_COMPETITION_STATE_UNAVAILABLE"
      end
  end.

(** The WHERE clause of the fenced UPDATEs: [fencing_token = $4::bigint] holds
    of the token whose decimal text is the parameter. *)
Definition fenced_row (now : Z) (fence : SchedulerFence) (r : SchedulerLeaseRow) : bool :=
  is_job (fence_job_name fence) r
  && (lease_owner_id r =? fence_owner_id fence)%string
  && (lease_run_id r =? fence_run_id fence)%string
  && (token_text (lease_fencing_token r) =? fence_token fence)%string
  && lease_is_current now r.

(** [UPDATE scheduler_leases SET f WHERE fenced RETURNING ...] *)
Definition fenced_update (now : Z) (fence : SchedulerFence)
    (f : SchedulerLeaseRow → SchedulerLeaseRow) : tx LeaseDb (option SchedulerLeaseRow) := λ db,
  match select_one (fenced_row now fence) (leases db) with
  | Some r =>
      if lease_checks (f r)
      then Ret (Some (f r), {| leases := update_where (fenced_row now fence) f (leases db);
                               token_seq := token_seq db |})
      else Throw check_violation
  | None => Ret (None, db)
  end.

(** The common shape of [heartbeat] and [release]: lock and test at one
    statement's clock, update at the next one's. *)
Definition fenced_mutation (lockNow updateNow : Z) (fence : SchedulerFence)
    (f : SchedulerLeaseRow → SchedulerLeaseRow) : tx LeaseDb SchedulerLeaseMutationResult :=
  locked ← lockLease (fence_job_name fence);
  if match locked with Some r => fenceMatches lockNow r fence | None => false end then
    updated ← fenced_update updateNow fence f;
    match updated with
    | Some r => lift_res (mapLease r ≫= λ l, Ret (LeaseUpdated l))
    | None => lift_res (rejectedLockedMutation locked)
    end
  else lift_res (rejectedLockedMutation locked).

Definition beat (now ttl : Z) (r : SchedulerLeaseRow) : SchedulerLeaseRow :=
  {| lease_job_name := lease_job_name r; lease_workstream := lease_workstream r;
     lease_owner_id := lease_owner_id r; lease_run_id := lease_run_id r;
     lease_fencing_token := lease_fencing_token r; lease_status := lease_status r;
     lease_acquired_at := lease_acquired_at r; lease_heartbeat_at := now;
     lease_expires_at := now + ttl; lease_released_at := lease_released_at r;
     lease_release_reason := lease_release_reason r;
     lease_version := lease_version r + 1 |}.

Definition heartbeat (lockNow updateNow : Z) (fence : SchedulerFence)
    (heartbeatAt expiresAt : option Z) : tx LeaseDb SchedulerLeaseMutationResult :=
  ttl ← lift_res (leaseTtlMilliseconds heartbeatAt expiresAt);
  fenced_mutation lockNow updateNow fence (beat updateNow ttl).

Definition retire (now : Z) (reason : string) (r : SchedulerLeaseRow) : SchedulerLeaseRow :=
  {| lease_job_name := lease_job_name r; lease_workstream := lease_workstream r;
     lease_owner_id := lease_owner_id r; lease_run_id := lease_run_id r;
     lease_fencing_token := lease_fencing_token r; lease_status := released;
     lease_acquired_at := lease_acquired_at r; lease_heartbeat_at := lease_heartbeat_at r;
     lease_expires_at := lease_expires_at r; lease_released_at := Some now;
     lease_release_reason := Some reason;
     lease_version := lease_version r + 1 |}.

(** [input.releaseReason?.trim() || "completed"]. *)
Definition release_reason_or_default (reason : option string) : string :=
  let t := trim (default EmptyString reason) in
  if str_truthy t then t else "completed".

Definition release (lockNow updateNow : Z) (fence : SchedulerFence)
    (releaseReason : option string) : tx LeaseDb SchedulerLeaseMutationResult :=
  fenced_mutation lockNow updateNow fence
    (retire updateNow (release_reason_or_default releaseReason)).

Definition isCurrentFence (now : Z) (fence : SchedulerFence) : tx LeaseDb bool :=
  locked ← lockLease (fence_job_name fence);
  mret match locked with
       | Some r => fenceMatches now r fence
                   && (lease_workstream r =? fence_workstream fence)%string
       | None => false
       end.

(** ** The fence check other repositories run first

    A repository's tables include scheduler_leases; [requireCurrentFence] is
    stated for any such tables, so that the clients' theorems rest on this
    interface only. *)
Class HasLeases (D : Type) := leases_of : D → list SchedulerLeaseRow.

#[export] Instance LeaseDb_HasLeases : HasLeases LeaseDb := leases.

Inductive FenceVerdict : Type :=
| FenceAccepted (currentFencingToken leaseOwner : string) (heartbeatAt expiresAt : Z)
    (remainingLeaseMs : Z)
| FenceRejected (currentFencingToken leaseOwner : option string)
    (heartbeatAt expiresAt remainingLeaseMs : option Z).

Definition fence_accepted (v : FenceVerdict) : bool :=
  match v with FenceAccepted _ _ _ _ _ => true | FenceRejected _ _ _ _ _ => false end.

Definition rejected_token (v : FenceVerdict) : option string :=
  match v with FenceAccepted t _ _ _ _ => Some t | FenceRejected t _ _ _ _ => t end.

(** [now] is the transaction's clock, [clock] the wall clock. *)
Definition fence_verdict (now clock : Z) (rows : list SchedulerLeaseRow)
    (fence : SchedulerFence) : FenceVerdict :=
  match select_one (is_job (fence_job_name fence)) rows with
  | None => FenceRejected None None None None None
  | Some row =>
      let token := token_text (lease_fencing_token row) in
      let current := lease_is_current now row in
      let remaining := Z.max 0 (lease_expires_at row - clock) in
      if current && (token =? fence_token fence)%string
         && (lease_workstream row =? fence_workstream fence)%string
         && (lease_owner_id row =? fence_owner_id fence)%string
         && (lease_run_id row =? fence_run_id fence)%string
      then FenceAccepted token (lease_owner_id row) (lease_heartbeat_at row)
             (lease_expires_at row) remaining
      else FenceRejected (if current then Some token else None)
             (Some (lease_owner_id row)) (Some (lease_heartbeat_at row))
             (Some (lease_expires_at row)) (Some remaining)
  end.

Definition requireCurrentFence {D} `{HasLeases D} (now clock : Z) (fence : SchedulerFence)
    : tx D FenceVerdict :=
  gets (λ db, fence_verdict now clock (leases_of db) fence).

Lemma requireCurrentFence_read_only {D} `{HasLeases D} now clock fence :
  read_only (requireCurrentFence (D := D) now clock fence).
Proof. apply read_only_gets. Qed.
#[export] Hint Resolve requireCurrentFence_read_only : tx.

(** The fence of a lease. *)
Definition fence_of (l : SchedulerLeaseRow) : SchedulerFence :=
  {| fence_job_name := lease_job_name l; fence_workstream := lease_workstream l;
     fence_owner_id := lease_owner_id l; fence_run_id := lease_run_id l;
     fence_token := token_text (lease_fencing_token l) |}.

(** ** Invariant *)

Record lease_wf (db : LeaseDb) : Prop := {
  wf_jobs : NoDup (map lease_job_name (leases db));
  wf_tokens : NoDup (map lease_fencing_token (leases db));
  wf_seq : ∀ r, In r (leases db) → lease_fencing_token r < token_seq db;
  wf_checks : ∀ r, In r (leases db) → lease_checks r = true
}.

(** Every committed operation, and what a rolled-back one leaves behind: values
    taken from a sequence are not given back. *)
Inductive lease_step (db : LeaseDb) : LeaseDb → Prop :=
| step_acquire now i r db' : acquire now i db = Ret (r, db') → lease_step db db'
| step_heartbeat t1 t2 f hb ex r db' :
    heartbeat t1 t2 f hb ex db = Ret (r, db') → lease_step db db'
| step_release t1 t2 f reason r db' :
    release t1 t2 f reason db = Ret (r, db') → lease_step db db'
| step_rolled_back n :
    0 <= n → lease_step db {| leases := leases db; token_seq := token_seq db + n |}.

Definition lease_reachable : LeaseDb → LeaseDb → Prop := rtc lease_step.

(** The empty table. *)
Definition lease_init : LeaseDb := {| leases := []; token_seq := 1 |}.

(** The leases of [db2] are those of [db1], later or newer. *)
Definition tokens_advance (db1 db2 : LeaseDb) : Prop :=
  token_seq db1 <= token_seq db2 ∧
  ∀ r, In r (leases db1) →
    ∃ r', In r' (leases db2) ∧ lease_job_name r' = lease_job_name r ∧
          lease_fencing_token r <= lease_fencing_token r'.

#[export] Instance tokens_advance_preorder : PreOrder tokens_advance.
Proof.
  split.
  - intros db. split; [lia|]. intros r Hr. exists r. split_and!; [done..|lia].
  - intros d1 d2 d3 [H1 K1] [H2 K2]. split; [lia|]. intros r Hr.
    destruct (K1 r Hr) as (r1 & Hr1 & Hj1 & Ht1).
    destruct (K2 r1 Hr1) as (r2 & Hr2 & Hj2 & Ht2).
    exists r2. split_and!; [done|congruence|lia].
Qed.

Lemma is_job_true job r : is_job job r = true ↔ lease_job_name r = job.
Proof. apply String.eqb_eq. Qed.

Lemma lease_checks_token r : lease_checks r = true → 0 < lease_fencing_token r.
Proof. unfold lease_checks. rewrite !andb_true_iff. lia. Qed.

Lemma token_text_inj t1 t2 : token_text t1 = token_text t2 → t1 = t2.
Proof. apply (inj pretty). Qed.

Lemma lift_res_Ret {S A} (r : res A) (s : S) a s' :
  lift_res r s = Ret (a, s') ↔ r = Ret a ∧ s' = s.
Proof. unfold lift_res. destruct r; naive_solver. Qed.

(** A job's row is the one [lockLease] selects. *)
Lemma select_job db r :
  lease_wf db → In r (leases db) →
  select_one (is_job (lease_job_name r)) (leases db) = Some r.
Proof.
  intros Hwf Hr. destruct (select_one _ _) as [r'|] eqn:E.
  - apply select_one_Some in E as [Hin Hj%is_job_true].
    f_equal. by eapply (unique_key lease_job_name); [apply wf_jobs| | |].
  - apply (select_one_None _ _ r) in E; [|done].
    by rewrite <- not_true_iff_false, is_job_true in E.
Qed.

(** Updating a job's row by a function that keeps its job and gives it a token
    that is its own or unused keeps the invariant. *)
Lemma update_wf p f db seq' :
  lease_wf db → token_seq db <= seq' →
  (∀ r, In r (leases db) → p r = true →
     lease_job_name (f r) = lease_job_name r ∧ lease_checks (f r) = true ∧
     lease_fencing_token r <= lease_fencing_token (f r) < seq') →
  (∀ r r', In r (leases db) → In r' (leases db) → p r = true → r ≠ r' →
     lease_fencing_token (f r) ≠ lease_fencing_token r' ∧
     (p r' = true → lease_fencing_token (f r) ≠ lease_fencing_token (f r'))) →
  let db' := {| leases := update_where p f (leases db); token_seq := seq' |} in
  lease_wf db' ∧ tokens_advance db db'.
Proof.
  intros Hwf Hseq Hf Hd db'.
  assert (Hin : ∀ r, In r (leases db) → In (if p r then f r else r) (leases db')).
  { intros r Hr. apply update_where_In. eauto. }
  split; [split|split].
  - simpl. erewrite (map_ext_in_update lease_job_name); [apply Hwf|].
    intros r Hr Hp. apply Hf; done.
  - simpl. apply (NoDup_update lease_fencing_token); [apply Hwf|..].
    + intros r r' Hr Hr' Hp Hne. apply Hd; done.
    + intros r r' Hr Hr' Hp Hp' Hne. apply Hd; done.
  - intros r' (r & Hr & ->)%update_where_In. simpl.
    pose proof (wf_seq _ Hwf r Hr). destruct (p r) eqn:Hp; [|lia].
    pose proof (Hf r Hr Hp). lia.
  - intros r' (r & Hr & ->)%update_where_In.
    destruct (p r) eqn:Hp; [by apply Hf|by apply (wf_checks _ Hwf)].
  - done.
  - intros r Hr. exists (if p r then f r else r). split; [by apply Hin|].
    destruct (p r) eqn:Hp; [|split; [done|lia]].
    destruct (Hf r Hr Hp) as (? & _ & ?). split; [done|lia].
Qed.

(** Appending the row of a new job with the next token. *)
Lemma append_wf db r :
  lease_wf db → (∀ r', In r' (leases db) → lease_job_name r' ≠ lease_job_name r) →
  lease_fencing_token r = token_seq db → lease_checks r = true →
  let db' := {| leases := leases db ++ [r]; token_seq := token_seq db + 1 |} in
  lease_wf db' ∧ tokens_advance db db'.
Proof.
  intros Hwf Hj Ht Hc db'. split; [split|split].
  - simpl. rewrite map_app. apply NoDup_app. split_and!; [apply Hwf| |apply NoDup_singleton].
    intros j Hj1 ->%list_elem_of_singleton. apply list_elem_of_In, in_map_iff in Hj1
      as (r' & Hr' & Hin). by apply (Hj r').
  - simpl. rewrite map_app. apply NoDup_app. split_and!; [apply Hwf| |apply NoDup_singleton].
    intros j Hj1 ->%list_elem_of_singleton. apply list_elem_of_In, in_map_iff in Hj1
      as (r' & Hr' & Hin). pose proof (wf_seq _ Hwf r' Hin). lia.
  - intros r' [Hin|[<-|[]]]%in_app_or; simpl; [|lia].
    pose proof (wf_seq _ Hwf r' Hin). lia.
  - intros r' [Hin|[<-|[]]]%in_app_or; [by apply Hwf|done].
  - simpl. lia.
  - intros r' Hr'. exists r'. split_and!; [|done|lia]. simpl. apply in_or_app. by left.
Qed.

Lemma seq_wf db n : lease_wf db → 0 <= n →
  let db' := {| leases := leases db; token_seq := token_seq db + n |} in
  lease_wf db' ∧ tokens_advance db db'.
Proof.
  intros Hwf Hn db'. split; [split; try apply Hwf|split].
  - intros r Hr. pose proof (wf_seq _ Hwf r Hr). simpl. lia.
  - simpl; lia.
  - intros r Hr. exists r. split_and!; [done..|lia].
Qed.

(** What the INSERT ... ON CONFLICT of [acquire] does. *)
Lemma insert_or_take_over_spec now ttl i db w db' :
  lease_wf db → insert_or_take_over now ttl i db = Ret (w, db') →
  (lease_wf db' ∧ tokens_advance db db') ∧
  match w with
  | Some l =>
      In l (leases db') ∧ lease_job_name l = acq_jobName i ∧
      lease_workstream l = acq_workstream i ∧
      lease_owner_id l = acq_ownerId i ∧ lease_run_id l = acq_runId i ∧
      lease_fencing_token l = token_seq db ∧ lease_status l = held ∧
      lease_expires_at l = now + ttl ∧
      (∀ r, In r (leases db) → lease_job_name r = acq_jobName i →
         lease_is_current now r = false) ∧
      (∀ r, lease_job_name r ≠ acq_jobName i → In r (leases db) → In r (leases db'))
  | None =>
      leases db' = leases db ∧
      ∃ r, select_one (is_job (acq_jobName i)) (leases db) = Some r ∧
           lease_is_current now r = true
  end.
Proof.
  intros Hwf. unfold insert_or_take_over.
  destruct (select_one (is_job (acq_jobName i)) (leases db)) as [old|] eqn:E.
  - apply select_one_Some in E as [Hold Hj%is_job_true].
    assert (Huniq : ∀ r, In r (leases db) → is_job (acq_jobName i) r = true → r = old).
    { intros r Hr Hjr%is_job_true. eapply (unique_key lease_job_name);
        [apply Hwf|done..|congruence]. }
    destruct (negb (is_held old) || (lease_expires_at old <=? now)) eqn:Hfree.
    + case_match eqn:Hc; [|done]. intros [= <- <-].
      apply andb_true_iff in Hc as [Hc _]. split.
      * apply update_wf; [done|lia|..].
        -- intros r Hr Hp. rewrite (Huniq r Hr Hp). split_and!; [done..| |].
           ++ pose proof (wf_seq _ Hwf old Hold). simpl. lia.
           ++ simpl. lia.
        -- intros r r' Hr Hr' Hp Hne. pose proof (wf_seq _ Hwf r' Hr').
           split; [simpl; lia|]. intros Hp'. destruct Hne.
           by rewrite (Huniq r Hr Hp), (Huniq r' Hr' Hp').
      * split_and!; try done.
        -- simpl. apply update_where_In. exists old. split; [done|].
           by rewrite (proj2 (is_job_true _ _) Hj).
        -- intros r Hr Hjr. rewrite (Huniq r Hr (proj2 (is_job_true _ _) Hjr)).
           unfold lease_is_current. destruct (is_held old); simpl in *; [lia|done].
        -- intros r Hjr Hr. simpl. apply update_where_In. exists r. split; [done|].
           destruct (is_job _ r) eqn:Hp; [|done]. by apply is_job_true in Hp.
    + case_match eqn:Hc; [|done]. intros [= <- <-]. split; [by apply (seq_wf db 1)|].
      split; [done|]. exists old. split; [done|]. unfold lease_is_current.
      apply orb_false_iff in Hfree as [->%negb_false_iff ?]. simpl. lia.
  - case_match eqn:Hc; [|done]. intros [= <- <-].
    assert (Hno : ∀ r, In r (leases db) → lease_job_name r ≠ acq_jobName i).
    { intros r Hr Hjr%is_job_true. apply (select_one_None _ _ _ E) in Hr. congruence. }
    split; [by apply append_wf|]. split_and!; try done.
    + simpl. apply in_or_app. right. by left.
    + intros r Hr Hj. by apply Hno in Hr.
    + intros r _ Hr. simpl. apply in_or_app. by left.
Qed.

Lemma acquire_spec now i db res db' :
  lease_wf db → acquire now i db = Ret (res, db') →
  ∃ ttl w, leaseTtlMilliseconds (acq_acquiredAt i) (acq_expiresAt i) = Ret ttl ∧
    insert_or_take_over now ttl i db = Ret (w, db') ∧
    match w with
    | Some l => res = Acquired l
    | None => ∃ r, res = Held r ∧ select_one (is_job (acq_jobName i)) (leases db') = Some r
    end.
Proof.
  intros Hwf H. unfold acquire in H. tx_step H as ttl s1 E1. apply lift_res_Ret in E1 as [Httl ->].
  tx_step H as w s2 E2. exists ttl, w. split; [done|].
  destruct w as [l|].
  - apply lift_res_Ret in H as [H ->]. split; [done|].
    unfold mapLease, decimalToken in H. destruct (0 <? lease_fencing_token l); [|done].
    by injection H as <-.
  - tx_step H as l s3 E3. unfold lockLease, gets in E3. injection E3 as <- <-.
    destruct (select_one _ _) as [r'|] eqn:E; [|done].
    destruct (is_held r'); [|done]. apply lift_res_Ret in H as [H ->]. split; [done|].
    unfold mapLease, decimalToken in H. destruct (0 <? lease_fencing_token r'); [|done].
    injection H as <-. eauto.
Qed.

(** An update that keeps the job and the token of a row. *)
Definition keeps_identity (f : SchedulerLeaseRow → SchedulerLeaseRow) : Prop :=
  ∀ r, lease_job_name (f r) = lease_job_name r ∧
       lease_fencing_token (f r) = lease_fencing_token r.

Lemma fenced_row_job now fence r :
  fenced_row now fence r = true →
  lease_job_name r = fence_job_name fence ∧ lease_owner_id r = fence_owner_id fence ∧
  lease_run_id r = fence_run_id fence ∧
  token_text (lease_fencing_token r) = fence_token fence ∧ lease_is_current now r = true.
Proof.
  unfold fenced_row. rewrite !andb_true_iff, is_job_true, !String.eqb_eq. tauto.
Qed.

Lemma fenced_update_spec now fence f db w db' :
  lease_wf db → keeps_identity f → fenced_update now fence f db = Ret (w, db') →
  (lease_wf db' ∧ tokens_advance db db') ∧
  match w with
  | Some l => ∃ r, In r (leases db) ∧ fenced_row now fence r = true ∧ l = f r ∧
      leases db' = update_where (is_job (fence_job_name fence)) f (leases db)
  | None => db' = db
  end.
Proof.
  intros Hwf Hf. unfold fenced_update.
  destruct (select_one (fenced_row now fence) (leases db)) as [old|] eqn:E.
  - apply select_one_Some in E as [Hold Hp]. case_match eqn:Hc; [|done].
    intros [= <- <-].
    assert (Huniq : ∀ r, In r (leases db) → lease_job_name r = lease_job_name old → r = old).
    { intros r Hr Hj. eapply (unique_key lease_job_name); [apply Hwf|done..]. }
    pose proof (fenced_row_job _ _ _ Hp) as (Hjob & _).
    split.
    + apply update_wf; [done|lia|..].
      * intros r Hr Hpr. pose proof (fenced_row_job _ _ _ Hpr) as (Hjr & _).
        rewrite (Huniq r Hr) by congruence. destruct (Hf old) as [? ->].
        pose proof (wf_seq _ Hwf old Hold). split_and!; [done..|lia|lia].
      * intros r r' Hr Hr' Hpr Hne. destruct (Hf r) as [_ ->], (Hf r') as [_ ->].
        assert (lease_fencing_token r ≠ lease_fencing_token r'); [|done].
        intros Ht. apply Hne. by eapply (unique_key lease_fencing_token); [apply Hwf|..].
    + exists old. split_and!; [done..|]. simpl. apply map_ext_in. intros r Hr.
      destruct (is_job (fence_job_name fence) r) eqn:Hj.
      * apply is_job_true in Hj. rewrite (Huniq r Hr) by congruence. by rewrite Hp.
      * destruct (fenced_row now fence r) eqn:Hpr; [|done].
        apply fenced_row_job in Hpr as (Hjr%is_job_true & _). congruence.
  - intros [= <- <-]. split; [|done]. split; [done|reflexivity].
Qed.

Lemma mapLease_Ret r l : mapLease r = Ret l → l = r.
Proof.
  unfold mapLease, decimalToken. destruct (0 <? lease_fencing_token r); [|done].
  by intros [= <-].
Qed.

Lemma rejected_not_updated row res l :
  rejectedLockedMutation row = Ret res → res ≠ LeaseUpdated l.
Proof.
  destruct row as [r|]; simpl; [|by intros [= <-]].
  unfold decimalToken. destruct (0 <? lease_fencing_token r); [|done]. by intros [= <-].
Qed.

Lemma fenced_mutation_spec t1 t2 fence f db res db' :
  lease_wf db → keeps_identity f → fenced_mutation t1 t2 fence f db = Ret (res, db') →
  (lease_wf db' ∧ tokens_advance db db') ∧
  ((∀ l, res ≠ LeaseUpdated l) ∧ db' = db ∨
   ∃ r, res = LeaseUpdated (f r) ∧ In r (leases db) ∧
     fenced_row t1 fence r = true ∧ fenced_row t2 fence r = true ∧
     leases db' = update_where (is_job (fence_job_name fence)) f (leases db)).
Proof.
  intros Hwf Hf H. unfold fenced_mutation in H.
  tx_step H as locked s1 E1. unfold lockLease, gets in E1. injection E1 as <- <-.
  set (locked := select_one _ _) in *.
  destruct (match locked with Some r => _ | None => _ end) eqn:Hm.
  - destruct locked as [r|] eqn:El; [|done].
    apply select_one_Some in El as [Hr Hjr%is_job_true].
    tx_step H as w s2 E2. apply fenced_update_spec in E2 as [Hwf' Hw]; [|done..].
    destruct w as [l|].
    + destruct Hw as (r' & Hr' & Hp & -> & Hdb).
      assert (r' = r) as ->.
      { apply fenced_row_job in Hp as (Hj & _).
        eapply (unique_key lease_job_name); [apply Hwf|done..|congruence]. }
      apply lift_res_Ret in H as [H ->].
      destruct (mapLease (f r)) eqn:Em; [|done]. apply mapLease_Ret in Em as ->.
      injection H as <-. split; [done|]. right. exists r. split_and!; [done|done| |done|done].
      unfold fenceMatches in Hm. unfold fenced_row. rewrite !andb_true_iff in *.
      unfold is_job. tauto.
    + subst s2. apply lift_res_Ret in H as [H ->]. split; [done|]. left.
      split; [|done]. intros l. by eapply rejected_not_updated.
  - apply lift_res_Ret in H as [H ->]. split; [split; [done|reflexivity]|]. left.
    split; [|done]. intros l. by eapply rejected_not_updated.
Qed.

Lemma beat_keeps_identity now ttl : keeps_identity (beat now ttl).
Proof. by intros r. Qed.
Lemma retire_keeps_identity now reason : keeps_identity (retire now reason).
Proof. by intros r. Qed.
#[export] Hint Resolve beat_keeps_identity retire_keeps_identity : tx.

Lemma heartbeat_runs t1 t2 fence hb ex db res db' :
  heartbeat t1 t2 fence hb ex db = Ret (res, db') →
  ∃ ttl, leaseTtlMilliseconds hb ex = Ret ttl ∧
         fenced_mutation t1 t2 fence (beat t2 ttl) db = Ret (res, db').
Proof.
  intros H. unfold heartbeat in H. tx_step H as ttl s1 E1.
  apply lift_res_Ret in E1 as [? ->]. eauto.
Qed.

(** Every step keeps the invariant and never takes a token back. *)
Lemma lease_step_wf db db' :
  lease_wf db → lease_step db db' → lease_wf db' ∧ tokens_advance db db'.
Proof.
  intros Hwf [now i r db2 H|t1 t2 f hb ex r db2 H|t1 t2 f reason r db2 H|n Hn].
  - apply acquire_spec in H as (ttl & w & _ & H & _); [|done].
    by apply insert_or_take_over_spec in H as [? _].
  - apply heartbeat_runs in H as (ttl & _ & H).
    apply fenced_mutation_spec in H as [? _]; auto with tx.
  - apply fenced_mutation_spec in H as [? _]; auto with tx.
  - by apply seq_wf.
Qed.

Lemma lease_reachable_wf db db' :
  lease_wf db → lease_reachable db db' → lease_wf db' ∧ tokens_advance db db'.
Proof.
  intros Hwf H. revert Hwf. induction H as [db|d1 d2 d3 Hs _ IH]; intros Hwf.
  - split; [done|reflexivity].
  - apply lease_step_wf in Hs as [Hwf2 Ha]; [|done].
    destruct (IH Hwf2) as [Hwf3 Ha']. split; [done|]. by etrans.
Qed.

Lemma lease_init_wf : lease_wf lease_init.
Proof. split; simpl; [constructor..|done|done]. Qed.

Lemma reachable_init_wf db : lease_reachable lease_init db → lease_wf db.
Proof. intros H. apply (lease_reachable_wf _ _ lease_init_wf H). Qed.

(** ** Fences *)

Lemma verdict_accepted now clock rows fence :
  fence_accepted (fence_verdict now clock rows fence) = true →
  ∃ r, In r rows ∧ fence = fence_of r ∧ lease_is_current now r = true.
Proof.
  unfold fence_verdict. destruct (select_one _ _) as [r|] eqn:E; [|done].
  apply select_one_Some in E as [Hr Hj%is_job_true].
  case_match eqn:Hc; [|done]. intros _. rewrite !andb_true_iff, !String.eqb_eq in Hc.
  destruct Hc as [[[[? ?] ?] ?] ?]. exists r. split_and!; [done| |done].
  destruct fence; unfold fence_of; simpl in *. congruence.
Qed.

Lemma is_current_fence_accepted now fence db b db' :
  isCurrentFence now fence db = Ret (b, db') →
  db' = db ∧ ∀ clock, fence_accepted (fence_verdict now clock (leases db) fence) = b.
Proof.
  unfold isCurrentFence, lockLease. intros H. tx_step H as l s1 E.
  injection E as <- <-. injection H as <- <-. split; [done|]. intros clock.
  unfold fence_verdict. destruct (select_one _ _) as [r|] eqn:E; [|done].
  apply select_one_Some in E as [_ Hj]. unfold fenceMatches.
  unfold is_job in Hj. rewrite Hj. unfold lease_is_current.
  destruct (is_held r), (now <? lease_expires_at r),
    (token_text (lease_fencing_token r) =? fence_token fence)%string,
    (lease_workstream r =? fence_workstream fence)%string,
    (lease_owner_id r =? fence_owner_id fence)%string,
    (lease_run_id r =? fence_run_id fence)%string; done.
Qed.

(** A fence whose token is older than the row's is refused. *)
Lemma older_token_refused now clock db fence r z :
  lease_wf db → In r (leases db) → lease_job_name r = fence_job_name fence →
  fence_token fence = token_text z → z < lease_fencing_token r →
  fence_accepted (fence_verdict now clock (leases db) fence) = false ∧
  ∀ r', In r' (leases db) → fenced_row now fence r' = false.
Proof.
  intros Hwf Hr Hj Hz Hlt. split.
  - apply not_true_iff_false. intros (r' & Hr' & -> & _)%verdict_accepted.
    simpl in *. assert (r' = r) as -> by
      (eapply (unique_key lease_job_name); [apply Hwf|done..]).
    apply token_text_inj in Hz. lia.
  - intros r' Hr'. apply not_true_iff_false. intros (Hj' & _ & _ & Ht & _)%fenced_row_job.
    assert (r' = r) as -> by
      (eapply (unique_key lease_job_name); [apply Hwf|done..|congruence]).
    rewrite Hz in Ht. apply token_text_inj in Ht. lia.
Qed.

Lemma is_current_fence_run now fence db :
  isCurrentFence now fence db =
  Ret (fence_accepted (fence_verdict now 0 (leases db) fence), db).
Proof.
  destruct (isCurrentFence now fence db) as [[b db']|c] eqn:E.
  - apply is_current_fence_accepted in E as [-> H]. by rewrite H.
  - done.
Qed.

Lemma is_current_fence_false now fence db :
  (∀ r, In r (leases db) → lease_job_name r = fence_job_name fence →
     lease_is_current now r = false) →
  isCurrentFence now fence db = Ret (false, db).
Proof.
  intros H. rewrite is_current_fence_run. f_equal. f_equal. apply not_true_iff_false.
  intros (r & Hr & -> & Hc)%verdict_accepted. rewrite H in Hc; done.
Qed.

Lemma is_current_fence_of now db r :
  lease_wf db → In r (leases db) → lease_is_current now r = true →
  isCurrentFence now (fence_of r) db = Ret (true, db).
Proof.
  intros Hwf Hr Hc. rewrite is_current_fence_run. f_equal. f_equal.
  unfold fence_verdict. simpl. rewrite (select_job db r Hwf Hr), Hc.
  by rewrite !String.eqb_refl.
Qed.

Lemma held_is_current now r :
  lease_status r = held → now < lease_expires_at r → lease_is_current now r = true.
Proof.
  intros Hh Hn. unfold lease_is_current, is_held. rewrite bool_decide_eq_true_2 by done.
  simpl. lia.
Qed.

Lemma update_other_jobs job f rows r' :
  (∀ r, lease_job_name (f r) = lease_job_name r) → lease_job_name r' ≠ job →
  In r' (update_where (is_job job) f rows) ↔ In r' rows.
Proof.
  intros Hf Hj. rewrite update_where_In. split.
  - intros (r & Hr & ->). destruct (is_job job r) eqn:Hp; [|done].
    apply is_job_true in Hp. by rewrite Hf in Hj.
  - intros Hr. exists r'. split; [done|]. destruct (is_job job r') eqn:Hp; [|done].
    by apply is_job_true in Hp.
Qed.

(** The core of fencing: a token handed out before an acquisition is refused in
    every table reachable after it. *)
Lemma superseded_token_refused db now i l db1 db2 fence z :
  lease_reachable lease_init db →
  acquire now i db = Ret (Acquired l, db1) →
  lease_reachable db1 db2 →
  fence_job_name fence = acq_jobName i →
  fence_token fence = token_text z → z < token_seq db →
  lease_wf db2 ∧ ∀ t clock,
    fence_accepted (fence_verdict t clock (leases db2) fence) = false ∧
    ∀ r, In r (leases db2) → fenced_row t fence r = false.
Proof.
  intros Hreach Hacq Hreach2 Hj Hz Hlt. pose proof (reachable_init_wf _ Hreach) as Hwf.
  apply acquire_spec in Hacq as (ttl & w & _ & Hins & Hw); [|done].
  destruct w as [l'|]; [|by destruct Hw as (? & ? & _)]. injection Hw as <-.
  apply insert_or_take_over_spec in Hins as [[Hwf1 _] (Hin & Hjl & _ & _ & _ & Htl & _)];
    [|done].
  destruct (lease_reachable_wf _ _ Hwf1 Hreach2) as [Hwf2 [_ Hadv]].
  destruct (Hadv l Hin) as (r & Hr & Hjr & Htr). split; [done|]. intros t clock.
  apply (older_token_refused t clock db2 fence r z Hwf2 Hr); [congruence|done|lia].
Qed.

(** ** Properties *)

(** C4: Once a lease has been acquired, a fence with any token handed out
    before is refused for ever, whatever acquisitions, heartbeats, releases and
    rolled-back transactions follow and whatever the clocks say: it neither
    passes [isCurrentFence] nor [requireCurrentFence], and it cannot heartbeat
    or release the lease. *)
Theorem stale_fence_rejected_forever db now i l db1 db2 fence z :
  lease_reachable lease_init db →
  acquire now i db = Ret (Acquired l, db1) →
  lease_reachable db1 db2 →
  fence_job_name fence = acq_jobName i →
  fence_token fence = token_text z → z < token_seq db →
  (∀ t b db3, isCurrentFence t fence db2 = Ret (b, db3) → b = false) ∧
  (∀ t clock v db3, requireCurrentFence t clock fence db2 = Ret (v, db3) →
     fence_accepted v = false) ∧
  (∀ t1 t2 hb ex res db3, heartbeat t1 t2 fence hb ex db2 = Ret (res, db3) →
     (∀ l', res ≠ LeaseUpdated l') ∧ db3 = db2) ∧
  (∀ t1 t2 reason res db3, release t1 t2 fence reason db2 = Ret (res, db3) →
     (∀ l', res ≠ LeaseUpdated l') ∧ db3 = db2).
Proof.
  intros Hreach Hacq Hreach2 Hj Hz Hlt.
  destruct (superseded_token_refused _ _ _ _ _ _ _ _ Hreach Hacq Hreach2 Hj Hz Hlt)
    as [Hwf2 Hold].
  assert (Hmut : ∀ t1 t2 f res db3, keeps_identity f →
    fenced_mutation t1 t2 fence f db2 = Ret (res, db3) →
    (∀ l', res ≠ LeaseUpdated l') ∧ db3 = db2).
  { intros t1 t2 f res db3 Hf H. apply fenced_mutation_spec in H as [_ [H|H]]; [done| |done..].
    destruct H as (r' & _ & Hr' & Hp & _). destruct (Hold t1 0) as [_ Hno].
    rewrite Hno in Hp; done. }
  split_and!.
  - intros t b db3 H. apply is_current_fence_accepted in H as [_ H].
    rewrite <- (H 0). apply Hold.
  - intros t clock v db3 [= <- <-]. apply Hold.
  - intros t1 t2 hb ex res db3 (ttl' & _ & H)%heartbeat_runs. eauto with tx.
  - intros t1 t2 reason res db3 H. eauto with tx.
Qed.

(** C5: Mutual exclusion.  In every reachable table, any two fences of one job
    that are current at the same instant are the same fence; and [acquire]
    hands a lease out only when no fence of the job is current, giving it a
    token above every token handed out before, a current fence until its time
    to live has passed, and leaving the rows of other jobs alone; otherwise it
    reports the current holder and changes no row. *)
Theorem lease_mutual_exclusion db now :
  lease_reachable lease_init db →
  (∀ f1 f2 db1 db2,
     isCurrentFence now f1 db = Ret (true, db1) → isCurrentFence now f2 db = Ret (true, db2) →
     fence_job_name f1 = fence_job_name f2 → f1 = f2) ∧
  ∀ i res db', acquire now i db = Ret (res, db') →
  match res with
  | Acquired l =>
      (∀ f, fence_job_name f = acq_jobName i → isCurrentFence now f db = Ret (false, db)) ∧
      (∀ r, In r (leases db) → lease_fencing_token r < lease_fencing_token l) ∧
      (∀ t, t < lease_expires_at l → isCurrentFence t (fence_of l) db' = Ret (true, db')) ∧
      (∀ r, lease_job_name r ≠ acq_jobName i → In r (leases db) → In r (leases db'))
  | Held l => leases db' = leases db ∧ lease_job_name l = acq_jobName i ∧
      isCurrentFence now (fence_of l) db = Ret (true, db)
  end.
Proof.
  intros Hreach. pose proof (reachable_init_wf _ Hreach) as Hwf. split.
  - intros f1 f2 db1 db2 H1%is_current_fence_accepted H2%is_current_fence_accepted Hj.
    destruct H1 as [_ H1], H2 as [_ H2]. specialize (H1 0). specialize (H2 0).
    apply verdict_accepted in H1 as (r1 & Hr1 & -> & _).
    apply verdict_accepted in H2 as (r2 & Hr2 & -> & _).
    simpl in Hj. by rewrite (unique_key lease_job_name _ r1 r2 (wf_jobs _ Hwf)).
  - intros i res db' H. apply acquire_spec in H as (ttl & w & _ & Hins & Hw); [|done].
    pose proof Hins as Hspec. apply insert_or_take_over_spec in Hspec as [[Hwf' _] Hspec]; [|done].
    destruct w as [l|].
    + subst res. destruct Hspec as (Hin & Hj & _ & _ & _ & Ht & Hh & He & Hfree & Hoth).
      split_and!; [|intros r Hr; rewrite Ht; by apply Hwf| |done].
      * intros f Hf. apply is_current_fence_false. intros r Hr Hjr.
        apply Hfree; [done|congruence].
      * intros t Htt. by apply is_current_fence_of; [..|apply held_is_current].
    + destruct Hw as (r & -> & Hsel'). destruct Hspec as [Hl (r' & Hsel & Hcur)].
      rewrite Hl in Hsel'. rewrite Hsel in Hsel'. injection Hsel' as ->.
      apply select_one_Some in Hsel as [Hr Hj%is_job_true].
      split_and!; [done..|]. by apply is_current_fence_of.
Qed.

Definition demo_acquire (owner run : string) : AcquireInput :=
  {| acq_jobName := "job"; acq_workstream := "ws"; acq_ownerId := owner; acq_runId := run;
     acq_acquiredAt := Some 0; acq_expiresAt := Some 1000 |}.

Definition demo_lease (owner run : string) (token at_ version : Z) : SchedulerLeaseRow :=
  {| lease_job_name := "job"; lease_workstream := "ws"; lease_owner_id := owner;
     lease_run_id := run; lease_fencing_token := token; lease_status := held;
     lease_acquired_at := at_; lease_heartbeat_at := at_; lease_expires_at := at_ + 1000;
     lease_released_at := None; lease_release_reason := None; lease_version := version |}.

Definition demo_db1 : LeaseDb :=
  {| leases := [demo_lease "a" "r1" 1 0 1]; token_seq := 2 |}.
Definition demo_db2 : LeaseDb :=
  {| leases := [demo_lease "b" "r2" 2 2000 2]; token_seq := 3 |}.

Lemma demo_reachable : lease_reachable lease_init demo_db1.
Proof.
  apply rtc_once. apply (step_acquire _ 0 (demo_acquire "a" "r1")
    (Acquired (demo_lease "a" "r1" 1 0 1))). by vm_compute.
Qed.

(** The second run takes the expired lease over; the first run's fence is then
    refused although its own heartbeat never failed. *)
Lemma stale_fence_rejected_forever_witness :
  isCurrentFence 500 (fence_of (demo_lease "a" "r1" 1 0 1)) demo_db1 = Ret (true, demo_db1) ∧
  isCurrentFence 2500 (fence_of (demo_lease "a" "r1" 1 0 1)) demo_db2 = Ret (false, demo_db2).
Proof.
  assert (Hacq : acquire 2000 (demo_acquire "b" "r2") demo_db1 =
    Ret (Acquired (demo_lease "b" "r2" 2 2000 2), demo_db2)) by (vm_compute; reflexivity).
  assert (Hlt : 1 < token_seq demo_db1) by (vm_compute; reflexivity).
  split; [vm_compute; reflexivity|].
  pose proof (proj1 (stale_fence_rejected_forever demo_db1 2000 (demo_acquire "b" "r2")
    _ demo_db2 demo_db2 (fence_of (demo_lease "a" "r1" 1 0 1)) 1
    demo_reachable Hacq (rtc_refl lease_step demo_db2) eq_refl eq_refl Hlt) 2500) as H.
  destruct (isCurrentFence 2500 (fence_of (demo_lease "a" "r1" 1 0 1)) demo_db2)
    as [[b d]|c] eqn:E; [|vm_compute in E; discriminate E].
  rewrite (H b d eq_refl). f_equal. f_equal. vm_compute in E. vm_compute. congruence.
Defined.

Lemma lease_mutual_exclusion_witness :
  isCurrentFence 500 (fence_of (demo_lease "a" "r1" 1 0 1)) demo_db1 = Ret (true, demo_db1) ∧
  ∀ f2 db2, isCurrentFence 500 f2 demo_db1 = Ret (true, db2) → fence_job_name f2 = "job"%string →
    f2 = fence_of (demo_lease "a" "r1" 1 0 1).
Proof.
  assert (H : isCurrentFence 500 (fence_of (demo_lease "a" "r1" 1 0 1)) demo_db1
    = Ret (true, demo_db1)) by (vm_compute; reflexivity).
  split; [exact H|]. intros f2 db2 H2 Hj.
  exact (proj1 (lease_mutual_exclusion demo_db1 500 demo_reachable)
    f2 (fence_of (demo_lease "a" "r1" 1 0 1)) db2 demo_db1 H2 H Hj).
Defined.

(** A heartbeat or a release takes effect exactly for the holder of a
    lease that is still current at both statements: an expired or released
    lease is never revived, a refused call changes nothing, and no other row is
    touched.  A heartbeat extends the lease by its time to live; after a
    release no fence of the job is current at any time. *)
Theorem lease_mutation_only_by_holder db t1 t2 fence :
  lease_reachable lease_init db →
  (∀ hb ex res db', heartbeat t1 t2 fence hb ex db = Ret (res, db') →
     (∀ l, res ≠ LeaseUpdated l) ∧ db' = db ∨
     ∃ r ttl, In r (leases db) ∧ fenced_row t1 fence r = true ∧ fenced_row t2 fence r = true ∧
       leaseTtlMilliseconds hb ex = Ret ttl ∧ res = LeaseUpdated (beat t2 ttl r) ∧
       In (beat t2 ttl r) (leases db') ∧
       ∀ r', lease_job_name r' ≠ fence_job_name fence → (In r' (leases db') ↔ In r' (leases db))) ∧
  (∀ reason res db', release t1 t2 fence reason db = Ret (res, db') →
     (∀ l, res ≠ LeaseUpdated l) ∧ db' = db ∨
     (∃ r, In r (leases db) ∧ fenced_row t1 fence r = true ∧ fenced_row t2 fence r = true) ∧
     ∀ t f, fence_job_name f = fence_job_name fence → isCurrentFence t f db' = Ret (false, db')).
Proof.
  intros Hreach. pose proof (reachable_init_wf _ Hreach) as Hwf. split.
  - intros hb ex res db' (ttl & Httl & H)%heartbeat_runs.
    apply fenced_mutation_spec in H as [_ [H|(r & -> & Hr & H1 & H2 & Hl)]];
      [by left| |auto with tx..].
    right. exists r, ttl. split_and!; try done; rewrite ?Hl.
    + apply update_where_In. exists r. split; [done|].
      by rewrite (proj2 (is_job_true _ _) (proj1 (fenced_row_job _ _ _ H1))).
    + intros r' Hr'. by apply update_other_jobs.
  - intros reason res db' H.
    apply fenced_mutation_spec in H as [_ [H|(r & -> & Hr & H1 & H2 & Hl)]];
      [by left| |auto with tx..].
    right. split; [eauto|]. intros t f Hf. apply is_current_fence_false. rewrite Hl.
    intros r' (r0 & Hr0 & ->)%update_where_In. intros Hj.
    destruct (is_job (fence_job_name fence) r0) eqn:Hp; [done|].
    rewrite Hf in Hj. apply is_job_true in Hj. congruence.
Qed.

Lemma lease_mutation_only_by_holder_witness :
  lease_reachable lease_init demo_db1 ∧
  ∀ res db', heartbeat 1500 1500 (fence_of (demo_lease "a" "r1" 1 0 1)) (Some 0) (Some 1000)
    demo_db1 = Ret (res, db') → db' = demo_db1.
Proof.
  split; [exact demo_reachable|]. intros res db' H.
  destruct (proj1 (lease_mutation_only_by_holder demo_db1 1500 1500
    (fence_of (demo_lease "a" "r1" 1 0 1)) demo_reachable) _ _ _ _ H)
    as [[_ E]|(r & ttl & Hr & Hf & _)]; [exact E|].
  destruct Hr as [<-|[]]. vm_compute in Hf. discriminate Hf.
Defined.
