(* ===== verification/ExecutionTables.v ===== *)
(** The execution tables and the inputs of their repository:
    src/repositories/contracts/executionStateRepository.ts and the tables of
    src/lib/database/migrations/001_initial_operational_state.sql.

    A table is the list of its rows in insertion order.  Columns of type numeric
    are exact rationals: the inputs have passed the canonicalisation of
    postgresNumeric.ts, so storing them does not round.  Timestamps are
    milliseconds.  A JSON document is its canonical text (canonicalJson).  Text
    columns that a CHECK restricts to an enumeration are enumerations.  Of the
    other CHECK constraints the ones the code relies on are written out where
    rows are inserted; the rest would only reject more. *)

From S2P Require Import Prelude.
From S2P Require Import JsString.
From S2P Require Import SchedulerLease.
Open Scope Z_scope.

Definition json : Type := string.

(** ** Enumerations *)

Inductive ExecutionAssetClass : Set :=
| equity | option_contract.
#[export] Instance ExecutionAssetClass_eq_dec : EqDecision ExecutionAssetClass.
Proof. solve_decision. Defined.

Inductive ExecutionSide : Set :=
| buy | sell | buy_to_open | sell_to_close.
#[export] Instance ExecutionSide_eq_dec : EqDecision ExecutionSide.
Proof. solve_decision. Defined.

Inductive ExecutionOrderType : Set :=
| market | limit | stop | stop_limit.
#[export] Instance ExecutionOrderType_eq_dec : EqDecision ExecutionOrderType.
Proof. solve_decision. Defined.

Inductive ExecutionTimeInForce : Set :=
| day | gtc | opg | cls | ioc | fok.
#[export] Instance ExecutionTimeInForce_eq_dec : EqDecision ExecutionTimeInForce.
Proof. solve_decision. Defined.

Inductive IntentStatus : Set :=
| IntentCreated | IntentReady | IntentPending | IntentSubmitted
| IntentAmbiguous | IntentReconciled | IntentFailed | IntentCancelled.
#[export] Instance IntentStatus_eq_dec : EqDecision IntentStatus.
Proof. solve_decision. Defined.

Inductive ReservationStatus : Set :=
| ReservationActive | ReservationCommitted | ReservationReleased
| ReservationExpired | ReservationCancelled.
#[export] Instance ReservationStatus_eq_dec : EqDecision ReservationStatus.
Proof. solve_decision. Defined.

Inductive ReviewType : Set :=
| ReviewEntry | ReviewExit.
#[export] Instance ReviewType_eq_dec : EqDecision ReviewType.
Proof. solve_decision. Defined.

Inductive ReviewStatus : Set :=
| ReviewCreated | ReviewValid | ReviewBlocked | ReviewExpired
| ReviewConsumed | ReviewRevoked.
#[export] Instance ReviewStatus_eq_dec : EqDecision ReviewStatus.
Proof. solve_decision. Defined.

Inductive ConfirmationStatus : Set :=
| ConfirmationValid | ConfirmationExpired | ConfirmationConsumed
| ConfirmationRevoked.
#[export] Instance ConfirmationStatus_eq_dec : EqDecision ConfirmationStatus.
Proof. solve_decision. Defined.

Inductive ConfigStatus : Set :=
| ConfigActive | ConfigSuperseded | ConfigDisabled.
#[export] Instance ConfigStatus_eq_dec : EqDecision ConfigStatus.
Proof. solve_decision. Defined.

Inductive PositionSide : Set :=
| PositionLong | PositionShort.
#[export] Instance PositionSide_eq_dec : EqDecision PositionSide.
Proof. solve_decision. Defined.

Inductive PositionStatus : Set :=
| PositionOpen | PositionClosing | PositionClosed.
#[export] Instance PositionStatus_eq_dec : EqDecision PositionStatus.
Proof. solve_decision. Defined.

(** ** Inputs *)

(** One position of the broker account, as read by the projection. *)
Record ExecutionPositionProjection := {
  pp_id : string;
  pp_brokerPositionKey : string;
  pp_candidateId : option string;
  pp_openingOrderId : option string;
  pp_closingOrderId : option string;
  pp_symbol : string;
  pp_underlyingSymbol : option string;
  pp_optionSymbol : option string;
  pp_assetClass : ExecutionAssetClass;
  pp_side : PositionSide;
  pp_quantity : Q;
  pp_availableQuantity : option Q;
  pp_averageEntryPrice : option Q;
  pp_currentPrice : option Q;
  pp_marketValue : option Q;
  pp_costBasis : option Q;
  pp_unrealizedPnl : option Q;
  pp_realizedPnl : option Q;
  pp_openedAt : Z
}.

Record RiskLimitProjection := {
  rl_id : string;
  rl_cashReserveAmount : option Q;
  rl_cashReserveRatio : option Q;
  rl_maxDeploymentAmount : option Q;
  rl_maxDeploymentRatio : option Q;
  rl_maxGrossExposure : option Q;
  rl_maxNetExposure : option Q;
  rl_maxOpenOrderExposure : option Q;
  rl_maxPositionNotional : option Q;
  rl_maxSymbolNotional : option Q;
  rl_maxPositionCount : option Z;
  rl_maxOrderCount : option Z;
  rl_configVersion : string;
  rl_configFingerprint : string
}.

Record StrategyAllocationProjection := {
  sap_id : string;
  sap_strategyKey : string;
  sap_allocationAmount : option Q;
  sap_allocationRatio : option Q;
  sap_configVersion : string;
  sap_configFingerprint : string
}.

Record ExposureProjection := {
  ex_id : string;
  ex_grossExposure : Q;
  ex_netExposure : Q;
  ex_longExposure : Q;
  ex_shortExposure : Q;
  ex_openOrderExposure : Q;
  ex_activeReservationAmount : Q;
  ex_deployedAmount : Q;
  ex_cashReserveAmount : Q;
  ex_availableBuyingPower : option Q;
  ex_positionCount : Z;
  ex_openOrderCount : Z;
  ex_fingerprint : string;
  ex_evidence : json
}.

Record ExecutionAccountProjection := {
  ap_accountId : string;
  ap_brokerAccountId : string;
  ap_accountSnapshotId : string;
  ap_observedAt : Z;
  ap_accountStatus : string;
  ap_currency : string;
  ap_cash : option Q;
  ap_portfolioValue : option Q;
  ap_equity : option Q;
  ap_buyingPower : option Q;
  ap_optionsBuyingPower : option Q;
  ap_optionsApprovedLevel : option Z;
  ap_tradingBlocked : bool;
  ap_accountBlocked : bool;
  ap_snapshotFingerprint : string;
  ap_evidence : json;
  ap_positions : list ExecutionPositionProjection;
  ap_riskLimit : RiskLimitProjection;
  ap_strategyAllocation : StrategyAllocationProjection;
  ap_exposure : ExposureProjection
}.

Record ExecutionReservationIntentInput := {
  ri_reservationId : option string;
  ri_reservationRequired : bool;
  ri_orderIntentId : string;
  ri_accountId : string;
  ri_accountSnapshotId : string;
  ri_candidateId : option string;
  ri_strategyKey : string;
  ri_symbol : string;
  ri_underlyingSymbol : option string;
  ri_assetClass : ExecutionAssetClass;
  ri_amount : Q;
  ri_idempotencyKey : string;
  ri_reservationFingerprint : string;
  ri_expiresAt : Z;
  ri_clientOrderId : string;
  ri_side : ExecutionSide;
  ri_orderType : ExecutionOrderType;
  ri_timeInForce : ExecutionTimeInForce;
  ri_quantity : option Q;
  ri_notional : option Q;
  ri_limitPrice : option Q;
  ri_stopPrice : option Q;
  ri_estimatedPremium : option Q;
  ri_maxRisk : option Q;
  ri_intentFingerprint : string;
  ri_lifecycleFingerprint : string;
  ri_executionReviewId : option string;
  ri_confirmationEvidenceId : option string;
  ri_requestPayload : json;
  ri_requestId : option string;
  ri_correlationId : option string;
  ri_createdAt : Z
}.

(** An absent and a null field of the input are both [None]. *)
Record BrokerResultInput := {
  br_eventId : string;
  br_orderId : string;
  br_orderIntentId : string;
  br_brokerOrderId : option string;
  br_clientOrderId : string;
  br_brokerClientOrderId : option string;
  br_replacesBrokerOrderId : option string;
  br_symbol : string;
  br_assetClass : ExecutionAssetClass;
  br_side : ExecutionSide;
  br_orderType : ExecutionOrderType;
  br_timeInForce : ExecutionTimeInForce;
  br_status : string;
  br_quantity : option Q;
  br_notional : option Q;
  br_limitPrice : option Q;
  br_stopPrice : option Q;
  br_brokerQuantity : option Q;
  br_brokerNotional : option Q;
  br_brokerLimitPrice : option Q;
  br_brokerStopPrice : option Q;
  br_filledQuantity : Q;
  br_filledAveragePrice : option Q;
  br_requestId : option string;
  br_httpStatus : option Z;
  br_errorClassification : option string;
  br_retryable : option bool;
  br_responsePayload : json;
  br_responseFingerprint : string;
  br_occurredAt : Z;
  br_receivedAt : Z
}.

Record ReviewInput := {
  rv_id : string;
  rv_reviewType : ReviewType;
  rv_status : ReviewStatus;
  rv_clientOrderId : option string;
  rv_accountFingerprint : string;
  rv_sourceRecommendationId : option string;
  rv_sourceSnapshotId : option string;
  rv_configurationFingerprint : string;
  rv_payloadFingerprint : string;
  rv_signatureAlgorithm : string;
  rv_signature : string;
  rv_orderIntent : json;
  rv_marketEvidence : json;
  rv_portfolioEvidence : json;
  rv_warnings : json;
  rv_blockers : json;
  rv_requestId : option string;
  rv_correlationId : option string;
  rv_expiresAt : Z;
  rv_createdAt : Z
}.

Record ConfirmationInput := {
  cf_id : string;
  cf_evidenceType : string;
  cf_confirmationMethod : string;
  cf_status : ConfirmationStatus;
  cf_payloadFingerprint : string;
  cf_signatureAlgorithm : option string;
  cf_signature : option string;
  cf_evidence : json;
  cf_confirmedAt : Z;
  cf_expiresAt : Z
}.

Record LifecycleFingerprintInput := {
  lf_id : string;
  lf_entityType : string;
  lf_entityId : string;
  lf_lifecycleStage : string;
  lf_fingerprint : string;
  lf_payloadVersion : Z;
  lf_evidence : json;
  lf_requestId : option string;
  lf_correlationId : option string;
  lf_capturedAt : Z
}.

Record ExecutionEvidenceInput := {
  ev_accountId : string;
  ev_candidateId : option string;
  ev_review : ReviewInput;
  ev_confirmation : ConfirmationInput;
  ev_lifecycleFingerprint : LifecycleFingerprintInput
}.

(** ** Rows *)

Record AccountRow := {
  acct_id : string;
  acct_broker_account_id : string;
  acct_status : string;
  acct_currency : string;
  acct_version : Z;
  acct_created_at : Z;
  acct_updated_at : Z
}.

Record SnapshotRow := {
  snap_id : string;
  snap_account_id : string;
  snap_observed_at : Z;
  snap_account_status : string;
  snap_currency : string;
  snap_cash : option Q;
  snap_portfolio_value : option Q;
  snap_equity : option Q;
  snap_buying_power : option Q;
  snap_options_buying_power : option Q;
  snap_options_approved_level : option Z;
  snap_trading_blocked : bool;
  snap_account_blocked : bool;
  snap_fingerprint : string;
  snap_evidence : json
}.

Record PositionRow := {
  pos_id : string;
  pos_account_id : string;
  pos_candidate_id : option string;
  pos_opening_order_id : option string;
  pos_closing_order_id : option string;
  pos_broker_key : string;
  pos_symbol : string;
  pos_underlying_symbol : option string;
  pos_option_symbol : option string;
  pos_asset_class : ExecutionAssetClass;
  pos_side : PositionSide;
  pos_status : PositionStatus;
  pos_quantity : Q;
  pos_available_quantity : option Q;
  pos_average_entry_price : option Q;
  pos_current_price : option Q;
  pos_market_value : option Q;
  pos_cost_basis : option Q;
  pos_unrealized_pnl : option Q;
  pos_realized_pnl : option Q;
  pos_snapshot_id : option string;
  pos_opened_at : Z;
  pos_closed_at : option Z;
  pos_last_reconciled_at : option Z;
  pos_version : Z;
  pos_updated_at : Z
}.

Record RiskLimitRow := {
  lim_id : string;
  lim_account_id : string;
  lim_status : ConfigStatus;
  lim_currency : string;
  lim_config : RiskLimitProjection;
  lim_effective_from : Z;
  lim_effective_to : option Z;
  lim_version : Z;
  lim_updated_at : Z
}.

Record AllocationRow := {
  alloc_id : string;
  alloc_account_id : string;
  alloc_strategy_key : string;
  alloc_status : ConfigStatus;
  alloc_currency : string;
  alloc_amount : option Q;
  alloc_ratio : option Q;
  alloc_reserved : Q;
  alloc_deployed : Q;
  alloc_config_version : string;
  alloc_config_fingerprint : string;
  alloc_effective_from : Z;
  alloc_effective_to : option Z;
  alloc_version : Z;
  alloc_updated_at : Z
}.

Record ExposureRow := {
  expo_account_id : string;
  expo_snapshot_id : string;
  expo_currency : string;
  expo_values : ExposureProjection;
  expo_observed_at : Z
}.

Record ReviewRow := {
  review_input : ReviewInput;
  review_account_id : string;
  review_candidate_id : option string;
  review_status : ReviewStatus;
  review_consumed_at : option Z;
  review_version : Z;
  review_updated_at : Z
}.

Record ConfirmationRow := {
  conf_input : ConfirmationInput;
  conf_review_id : string;
  conf_account_id : string;
  conf_candidate_id : option string;
  conf_status : ConfirmationStatus;
  conf_consumed_at : option Z;
  conf_version : Z;
  conf_updated_at : Z
}.

Record ReservationRow := {
  resv_id : string;
  resv_account_id : string;
  resv_candidate_id : option string;
  resv_strategy_key : string;
  resv_symbol : string;
  resv_asset_class : ExecutionAssetClass;
  resv_amount : Q;
  resv_status : ReservationStatus;
  resv_idempotency_key : string;
  resv_fingerprint : string;
  resv_snapshot_id : string;
  resv_job_name : string;
  resv_fencing_token : string;
  resv_expires_at : Z;
  resv_committed_at : option Z;
  resv_released_at : option Z;
  resv_release_reason : option string;
  resv_version : Z;
  resv_created_at : Z;
  resv_updated_at : Z
}.

Record IntentRow := {
  intent_id : string;
  intent_account_id : string;
  intent_candidate_id : option string;
  intent_reservation_id : option string;
  intent_review_id : option string;
  intent_confirmation_id : option string;
  intent_client_order_id : string;
  intent_idempotency_key : string;
  intent_strategy_key : string;
  intent_symbol : string;
  intent_underlying_symbol : option string;
  intent_asset_class : ExecutionAssetClass;
  intent_side : ExecutionSide;
  intent_order_type : ExecutionOrderType;
  intent_time_in_force : ExecutionTimeInForce;
  intent_quantity : option Q;
  intent_notional : option Q;
  intent_limit_price : option Q;
  intent_stop_price : option Q;
  intent_estimated_premium : option Q;
  intent_max_risk : option Q;
  intent_status : IntentStatus;
  intent_fingerprint : string;
  intent_lifecycle_fingerprint : string;
  intent_request_payload : json;
  intent_request_id : option string;
  intent_correlation_id : option string;
  intent_ready_at : option Z;
  intent_submitted_at : option Z;
  intent_terminal_at : option Z;
  intent_version : Z;
  intent_created_at : Z;
  intent_updated_at : Z
}.

Record OrderRow := {
  order_id : string;
  order_account_id : string;
  order_intent_id : string;
  order_broker_order_id : option string;
  order_client_order_id : string;
  order_parent_order_id : option string;
  order_replacement_order_id : option string;
  order_symbol : string;
  order_asset_class : ExecutionAssetClass;
  order_side : ExecutionSide;
  order_order_type : ExecutionOrderType;
  order_time_in_force : ExecutionTimeInForce;
  order_status : string;
  order_quantity : option Q;
  order_notional : option Q;
  order_limit_price : option Q;
  order_stop_price : option Q;
  order_filled_quantity : Q;
  order_filled_average_price : option Q;
  order_broker_request_id : option string;
  order_submitted_at : option Z;
  order_last_broker_update_at : option Z;
  order_raw_status : json;
  order_version : Z;
  order_created_at : Z;
  order_updated_at : Z
}.

Record EventRow := {
  event_id : string;
  event_account_id : string;
  event_order_id : option string;
  event_intent_id : option string;
  event_broker_order_id : option string;
  event_client_order_id : option string;
  event_type : string;
  event_status : string;
  event_request_id : option string;
  event_http_status : option Z;
  event_error_classification : option string;
  event_retryable : option bool;
  event_response_payload : json;
  event_response_fingerprint : string;
  event_occurred_at : Z;
  event_received_at : Z
}.

Record FingerprintRow := {
  fp_id : string;
  fp_account_id : option string;
  fp_candidate_id : option string;
  fp_order_intent_id : option string;
  fp_entity_type : string;
  fp_entity_id : string;
  fp_stage : string;
  fp_value : string;
  fp_payload_version : Z;
  fp_evidence : json;
  fp_request_id : option string;
  fp_correlation_id : option string;
  fp_captured_at : Z
}.

(** ** The database *)

Record ExecDb := {
  db_leases : list SchedulerLeaseRow;
  db_candidates : list string;
  db_accounts : list AccountRow;
  db_snapshots : list SnapshotRow;
  db_positions : list PositionRow;
  db_risk_limits : list RiskLimitRow;
  db_allocations : list AllocationRow;
  db_exposures : list ExposureRow;
  db_reviews : list ReviewRow;
  db_confirmations : list ConfirmationRow;
  db_reservations : list ReservationRow;
  db_intents : list IntentRow;
  db_orders : list OrderRow;
  db_events : list EventRow;
  db_fingerprints : list FingerprintRow
}.

#[export] Instance ExecDb_HasLeases : HasLeases ExecDb := db_leases.

Definition set_accounts (x : list AccountRow) (d : ExecDb) : ExecDb :=
  {| db_leases := db_leases d; db_candidates := db_candidates d;
     db_accounts := x; db_snapshots := db_snapshots d;
     db_positions := db_positions d; db_risk_limits := db_risk_limits d;
     db_allocations := db_allocations d; db_exposures := db_exposures d;
     db_reviews := db_reviews d; db_confirmations := db_confirmations d;
     db_reservations := db_reservations d; db_intents := db_intents d;
     db_orders := db_orders d; db_events := db_events d;
     db_fingerprints := db_fingerprints d |}.

Definition set_snapshots (x : list SnapshotRow) (d : ExecDb) : ExecDb :=
  {| db_leases := db_leases d; db_candidates := db_candidates d;
     db_accounts := db_accounts d; db_snapshots := x;
     db_positions := db_positions d; db_risk_limits := db_risk_limits d;
     db_allocations := db_allocations d; db_exposures := db_exposures d;
     db_reviews := db_reviews d; db_confirmations := db_confirmations d;
     db_reservations := db_reservations d; db_intents := db_intents d;
     db_orders := db_orders d; db_events := db_events d;
     db_fingerprints := db_fingerprints d |}.

Definition set_positions (x : list PositionRow) (d : ExecDb) : ExecDb :=
  {| db_leases := db_leases d; db_candidates := db_candidates d;
     db_accounts := db_accounts d; db_snapshots := db_snapshots d;
     db_positions := x; db_risk_limits := db_risk_limits d;
     db_allocations := db_allocations d; db_exposures := db_exposures d;
     db_reviews := db_reviews d; db_confirmations := db_confirmations d;
     db_reservations := db_reservations d; db_intents := db_intents d;
     db_orders := db_orders d; db_events := db_events d;
     db_fingerprints := db_fingerprints d |}.

Definition set_risk_limits (x : list RiskLimitRow) (d : ExecDb) : ExecDb :=
  {| db_leases := db_leases d; db_candidates := db_candidates d;
     db_accounts := db_accounts d; db_snapshots := db_snapshots d;
     db_positions := db_positions d; db_risk_limits := x;
     db_allocations := db_allocations d; db_exposures := db_exposures d;
     db_reviews := db_reviews d; db_confirmations := db_confirmations d;
     db_reservations := db_reservations d; db_intents := db_intents d;
     db_orders := db_orders d; db_events := db_events d;
     db_fingerprints := db_fingerprints d |}.

Definition set_allocations (x : list AllocationRow) (d : ExecDb) : ExecDb :=
  {| db_leases := db_leases d; db_candidates := db_candidates d;
     db_accounts := db_accounts d; db_snapshots := db_snapshots d;
     db_positions := db_positions d; db_risk_limits := db_risk_limits d;
     db_allocations := x; db_exposures := db_exposures d;
     db_reviews := db_reviews d; db_confirmations := db_confirmations d;
     db_reservations := db_reservations d; db_intents := db_intents d;
     db_orders := db_orders d; db_events := db_events d;
     db_fingerprints := db_fingerprints d |}.

Definition set_exposures (x : list ExposureRow) (d : ExecDb) : ExecDb :=
  {| db_leases := db_leases d; db_candidates := db_candidates d;
     db_accounts := db_accounts d; db_snapshots := db_snapshots d;
     db_positions := db_positions d; db_risk_limits := db_risk_limits d;
     db_allocations := db_allocations d; db_exposures := x;
     db_reviews := db_reviews d; db_confirmations := db_confirmations d;
     db_reservations := db_reservations d; db_intents := db_intents d;
     db_orders := db_orders d; db_events := db_events d;
     db_fingerprints := db_fingerprints d |}.

Definition set_reviews (x : list ReviewRow) (d : ExecDb) : ExecDb :=
  {| db_leases := db_leases d; db_candidates := db_candidates d;
     db_accounts := db_accounts d; db_snapshots := db_snapshots d;
     db_positions := db_positions d; db_risk_limits := db_risk_limits d;
     db_allocations := db_allocations d; db_exposures := db_exposures d;
     db_reviews := x; db_confirmations := db_confirmations d;
     db_reservations := db_reservations d; db_intents := db_intents d;
     db_orders := db_orders d; db_events := db_events d;
     db_fingerprints := db_fingerprints d |}.

Definition set_confirmations (x : list ConfirmationRow) (d : ExecDb) : ExecDb :=
  {| db_leases := db_leases d; db_candidates := db_candidates d;
     db_accounts := db_accounts d; db_snapshots := db_snapshots d;
     db_positions := db_positions d; db_risk_limits := db_risk_limits d;
     db_allocations := db_allocations d; db_exposures := db_exposures d;
     db_reviews := db_reviews d; db_confirmations := x;
     db_reservations := db_reservations d; db_intents := db_intents d;
     db_orders := db_orders d; db_events := db_events d;
     db_fingerprints := db_fingerprints d |}.

Definition set_reservations (x : list ReservationRow) (d : ExecDb) : ExecDb :=
  {| db_leases := db_leases d; db_candidates := db_candidates d;
     db_accounts := db_accounts d; db_snapshots := db_snapshots d;
     db_positions := db_positions d; db_risk_limits := db_risk_limits d;
     db_allocations := db_allocations d; db_exposures := db_exposures d;
     db_reviews := db_reviews d; db_confirmations := db_confirmations d;
     db_reservations := x; db_intents := db_intents d;
     db_orders := db_orders d; db_events := db_events d;
     db_fingerprints := db_fingerprints d |}.

Definition set_intents (x : list IntentRow) (d : ExecDb) : ExecDb :=
  {| db_leases := db_leases d; db_candidates := db_candidates d;
     db_accounts := db_accounts d; db_snapshots := db_snapshots d;
     db_positions := db_positions d; db_risk_limits := db_risk_limits d;
     db_allocations := db_allocations d; db_exposures := db_exposures d;
     db_reviews := db_reviews d; db_confirmations := db_confirmations d;
     db_reservations := db_reservations d; db_intents := x;
     db_orders := db_orders d; db_events := db_events d;
     db_fingerprints := db_fingerprints d |}.

Definition set_orders (x : list OrderRow) (d : ExecDb) : ExecDb :=
  {| db_leases := db_leases d; db_candidates := db_candidates d;
     db_accounts := db_accounts d; db_snapshots := db_snapshots d;
     db_positions := db_positions d; db_risk_limits := db_risk_limits d;
     db_allocations := db_allocations d; db_exposures := db_exposures d;
     db_reviews := db_reviews d; db_confirmations := db_confirmations d;
     db_reservations := db_reservations d; db_intents := db_intents d;
     db_orders := x; db_events := db_events d;
     db_fingerprints := db_fingerprints d |}.

Definition set_events (x : list EventRow) (d : ExecDb) : ExecDb :=
  {| db_leases := db_leases d; db_candidates := db_candidates d;
     db_accounts := db_accounts d; db_snapshots := db_snapshots d;
     db_positions := db_positions d; db_risk_limits := db_risk_limits d;
     db_allocations := db_allocations d; db_exposures := db_exposures d;
     db_reviews := db_reviews d; db_confirmations := db_confirmations d;
     db_reservations := db_reservations d; db_intents := db_intents d;
     db_orders := db_orders d; db_events := x;
     db_fingerprints := db_fingerprints d |}.

Definition set_fingerprints (x : list FingerprintRow) (d : ExecDb) : ExecDb :=
  {| db_leases := db_leases d; db_candidates := db_candidates d;
     db_accounts := db_accounts d; db_snapshots := db_snapshots d;
     db_positions := db_positions d; db_risk_limits := db_risk_limits d;
     db_allocations := db_allocations d; db_exposures := db_exposures d;
     db_reviews := db_reviews d; db_confirmations := db_confirmations d;
     db_reservations := db_reservations d; db_intents := db_intents d;
     db_orders := db_orders d; db_events := db_events d; db_fingerprints := x |}.

(** ** Statements *)

Definition opt_str_eqb (a b : option string) : bool := bool_decide (a = b).

(** [a IS NOT DISTINCT FROM b] on numeric columns. *)
Definition same_numeric (a b : option Q) : bool :=
  match a, b with
  | Some x, Some y => Qeq_bool x y
  | None, None => true
  | _, _ => false
  end.

(** JavaScript truthiness of an optional string: neither null nor empty. *)
Definition present (s : option string) : option string :=
  match s with Some t => if str_truthy t then Some t else None | None => None end.

(** [Date.parse(String(value))] of a timestamp column: the driver returns a
    Date, whose text carries whole seconds only. *)
Definition date_text_ms (t : Z) : Z := t - t mod 1000.

Definition unique_violation : string := "unique_violation".
Definition check_failed : string := "check_violation".

(** [INSERT] of a row whose keys are not taken and whose constraints hold. *)
Definition insert_row {R} (conflicts : R → R → bool) (ok : R → bool)
    (get : ExecDb → list R) (set : list R → ExecDb → ExecDb) (r : R) : tx ExecDb unit := λ d,
  if existsb (conflicts r) (get d) then Throw unique_violation
  else if ok r then Ret (tt, set (get d ++ [r]) d) else Throw check_failed.

(** [UPDATE ... SET f WHERE p]: every updated row must satisfy the checks. *)
Definition update_rows {R} (ok : R → bool) (get : ExecDb → list R)
    (set : list R → ExecDb → ExecDb) (p : R → bool) (f : R → R) : tx ExecDb nat := λ d,
  let rows := List.filter p (get d) in
  if forallb (λ r, ok (f r)) rows
  then Ret (List.length rows, set (update_where p f (get d)) d)
  else Throw check_failed.

(** [SELECT ... WHERE p], the first row. *)
Definition select_row {R} (get : ExecDb → list R) (p : R → bool) : tx ExecDb (option R) :=
  gets (λ d, select_one p (get d)).

(** [SELECT id FROM candidates WHERE id = $1], used to drop dangling ids. *)
Definition known_candidate (candidateId : option string) : tx ExecDb (option string) :=
  match present candidateId with
  | None => mret candidateId
  | Some c => gets (λ d, if str_mem c (db_candidates d) then Some c else None)
  end.

Lemma insert_row_Ret {R} conflicts ok get set (r : R) d a d' :
  insert_row conflicts ok get set r d = Ret (a, d') ↔
  existsb (conflicts r) (get d) = false ∧ ok r = true ∧ d' = set (get d ++ [r]) d.
Proof.
  unfold insert_row. destruct (existsb _ _), (ok r), a; naive_solver.
Qed.

Lemma update_rows_Ret {R} ok get set p (f : R → R) d n d' :
  update_rows ok get set p f d = Ret (n, d') ↔
  n = count_where p (get d) ∧ d' = set (update_where p f (get d)) d ∧
  ∀ r, In r (get d) → p r = true → ok (f r) = true.
Proof.
  unfold update_rows, count_where. case_match eqn:E.
  - rewrite forallb_forall in E. split.
    + intros [= <- <-]. split_and!; [done..|]. intros r Hr Hp. apply E.
      by apply filter_In.
    + by intros (-> & -> & _).
  - split; [done|]. intros (_ & _ & Hok). apply not_true_iff_false in E.
    destruct E. apply forallb_forall. intros r [Hr Hp]%filter_In. auto.
Qed.

Lemma select_row_Ret {R} get (p : R → bool) d o d' :
  select_row get p d = Ret (o, d') ↔ o = select_one p (get d) ∧ d' = d.
Proof. unfold select_row, gets. split; [by intros [= <- <-]|by intros [-> ->]]. Qed.

Lemma select_row_read_only {R} get (p : R → bool) : read_only (select_row get p).
Proof. apply read_only_gets. Qed.

Lemma known_candidate_read_only c : read_only (known_candidate c).
Proof. unfold known_candidate. destruct (present c); auto with tx. Qed.
#[export] Hint Resolve select_row_read_only known_candidate_read_only : tx.

(** [INSERT ... ON CONFLICT (target) DO NOTHING]: whether a row was written.
    A conflict on another key is an error. *)
Definition insert_unless {R} (target conflicts : R → R → bool) (ok : R → bool)
    (get : ExecDb → list R) (set : list R → ExecDb → ExecDb) (r : R) : tx ExecDb bool := λ d,
  if existsb (target r) (get d) then Ret (false, d)
  else match insert_row conflicts ok get set r d with
       | Ret (_, d') => Ret (true, d')
       | Throw c => Throw c
       end.

Lemma insert_unless_Ret {R} target conflicts ok get set (r : R) d b d' :
  insert_unless target conflicts ok get set r d = Ret (b, d') ↔
  if b then existsb (target r) (get d) = false ∧
            insert_row conflicts ok get set r d = Ret (tt, d')
  else existsb (target r) (get d) = true ∧ d' = d.
Proof.
  unfold insert_unless. destruct (existsb _ _); [destruct b; naive_solver|].
  destruct (insert_row _ _ _ _ r d) as [[[] d1]|c], b; naive_solver.
Qed.

Definition same_fingerprint (a b : FingerprintRow) : bool :=
  (fp_entity_type a =? fp_entity_type b)%string && (fp_entity_id a =? fp_entity_id b)%string
  && (fp_stage a =? fp_stage b)%string && (fp_value a =? fp_value b)%string.

Definition fingerprint_conflicts (a b : FingerprintRow) : bool :=
  (fp_id a =? fp_id b)%string || same_fingerprint a b.

Definition fingerprint_checks (r : FingerprintRow) : bool :=
  btrim_nonempty (fp_id r) && btrim_nonempty (fp_entity_id r)
  && btrim_nonempty (fp_value r) && (0 <? fp_payload_version r).

(** [INSERT INTO lifecycle_fingerprints ... ON CONFLICT (...) DO NOTHING]. *)
Definition insert_fingerprint (r : FingerprintRow) : tx ExecDb bool :=
  insert_unless same_fingerprint fingerprint_conflicts fingerprint_checks
    db_fingerprints set_fingerprints r.

(** ** JSON texts built by the repository *)

Definition dquote : string := String (Ascii.ascii_of_nat 34) EmptyString.

(** [JSON.stringify] of a string without control characters. *)
Fixpoint json_escape (s : string) : string :=
  match s with
  | EmptyString => EmptyString
  | String c s' =>
      if (Ascii.nat_of_ascii c =? 34)%nat || (Ascii.nat_of_ascii c =? 92)%nat
      then String (Ascii.ascii_of_nat 92) (String c (json_escape s'))
      else String c (json_escape s')
  end.
Definition json_string (s : string) : json := dquote +:+ json_escape s +:+ dquote.

Definition json_nullable (s : option string) : json :=
  match s with Some t => json_string t | None => "null" end.

(** [canonicalJson] of an object whose keys are given in sorted order. *)
Definition json_object (fields : list (string * json)) : json :=
  "{" +:+ String.concat "," (map (λ '(k, v), json_string k +:+ ":" +:+ v) fields) +:+ "}".

(** ** Frames: the tables a statement leaves alone *)

Definition keeps {A B} (f : ExecDb → B) (m : tx ExecDb A) : Prop :=
  ∀ d a d', m d = Ret (a, d') → f d' = f d.

Section keeps.
Context {B : Type} (f : ExecDb → B).

Lemma keeps_read_only {A} (m : tx ExecDb A) : read_only m → keeps f m.
Proof. intros Hm d a d' H. by rewrite (Hm _ _ _ H). Qed.

Lemma keeps_bind {A C} (m : tx ExecDb A) (k : A → tx ExecDb C) :
  keeps f m → (∀ a, keeps f (k a)) → keeps f (m ≫= k).
Proof.
  intros Hm Hk d c d' (a & d1 & H1 & H2)%tx_bind_Ret.
  rewrite (Hk _ _ _ _ H2). by apply Hm in H1.
Qed.

Lemma keeps_insert {R} conflicts ok get set (r : R) :
  (∀ x d, f (set x d) = f d) → keeps f (insert_row conflicts ok get set r).
Proof. by intros Hset d a d' (_ & _ & ->)%insert_row_Ret. Qed.

Lemma keeps_insert_unless {R} target conflicts ok get set (r : R) :
  (∀ x d, f (set x d) = f d) → keeps f (insert_unless target conflicts ok get set r).
Proof.
  intros Hset d b d' H%insert_unless_Ret. destruct b.
  - destruct H as [_ H]. by apply keeps_insert in H.
  - by destruct H as [_ ->].
Qed.

Lemma keeps_update {R} ok get set p (g : R → R) :
  (∀ x d, f (set x d) = f d) → keeps f (update_rows ok get set p g).
Proof. by intros Hset d n d' (_ & -> & _)%update_rows_Ret. Qed.
End keeps.
#[export] Hint Resolve keeps_bind keeps_insert keeps_insert_unless keeps_update : tx.
#[export] Hint Extern 1 (keeps _ (mret _)) => apply keeps_read_only, read_only_ret : tx.
#[export] Hint Extern 1 (keeps _ (throw _)) => apply keeps_read_only, read_only_throw : tx.
#[export] Hint Extern 1 (keeps _ (gets _)) => apply keeps_read_only, read_only_gets : tx.
#[export] Hint Extern 1 (keeps _ (select_row _ _)) =>
  apply keeps_read_only, select_row_read_only : tx.
#[export] Hint Extern 1 (keeps _ (known_candidate _)) =>
  apply keeps_read_only, known_candidate_read_only : tx.
#[export] Hint Extern 1 (keeps _ (requireCurrentFence _ _ _)) =>
  apply keeps_read_only, requireCurrentFence_read_only : tx.
#[export] Hint Extern 1 (keeps _ (if ?b then _ else _)) => destruct b : tx.
#[export] Hint Extern 1 (keeps _ (match ?x with _ => _ end)) => destruct x : tx.
