(* ===== verification/ExecutionReservation.v ===== *)
(** Reserving buying power and creating order intents:
    reserveAndCreateOrderIntent and authorizeBrokerMutation of
    src/repositories/postgres/postgresExecutionStateRepository.ts. *)

From Stdlib Require Import Qabs Qminmax.
From S2P Require Import Prelude.
From S2P Require Import JsString.
From S2P Require Import SchedulerLease.
From S2P Require Import ExecutionTables.
Open Scope Z_scope.

(** ** The limit query *)

(** [COALESCE(x, 0)]. *)
Definition or_zero (x : option Q) : Q := default 0%Q x.

Definition open_order_statuses : list string :=
  ["new"; "accepted"; "pending_new"; "partially_filled"; "held"; "replaced"]%string.

(** [COALESCE(notional, quantity * limit_price)]; a NULL is skipped by SUM. *)
Definition order_exposure (o : OrderRow) : Q :=
  match order_notional o with
  | Some n => n
  | None => match order_quantity o, order_limit_price o with
            | Some q, Some p => (q * p)%Q
            | _, _ => 0%Q
            end
  end.

(** [ABS(COALESCE(market_value, cost_basis, 0))]. *)
Definition position_exposure (p : PositionRow) : Q :=
  Qabs match pos_market_value p with
       | Some v => v
       | None => or_zero (pos_cost_basis p)
       end.

Definition is_active_reservation (r : ReservationRow) : bool :=
  bool_decide (resv_status r = ReservationActive).

Definition counted_reservations (account : string) (now : Z) (d : ExecDb) : list ReservationRow :=
  List.filter (λ r, (resv_account_id r =? account)%string && is_active_reservation r
                    && (now <? resv_expires_at r)) (db_reservations d).

Definition counted_orders (account : string) (d : ExecDb) : list OrderRow :=
  List.filter (λ o, (order_account_id o =? account)%string
                    && str_mem (order_status o) open_order_statuses) (db_orders d).

Definition counted_positions (account : string) (d : ExecDb) : list PositionRow :=
  List.filter (λ p, (pos_account_id p =? account)%string
                    && negb (bool_decide (pos_status p = PositionClosed))) (db_positions d).

Definition current_config (status : ConfigStatus) (effective_to : option Z) : bool :=
  bool_decide (status = ConfigActive) && match effective_to with None => true | _ => false end.

(** The portfolio limits in force; a partial unique index allows one row. *)
Definition is_current_limit (account : string) (l : RiskLimitRow) : bool :=
  (lim_account_id l =? account)%string && current_config (lim_status l) (lim_effective_to l).

Definition is_current_allocation (account strategy : string) (a : AllocationRow) : bool :=
  (alloc_account_id a =? account)%string && (alloc_strategy_key a =? strategy)%string
  && current_config (alloc_status a) (alloc_effective_to a).

Definition is_snapshot (account id : string) (s : SnapshotRow) : bool :=
  (snap_id s =? id)%string && (snap_account_id s =? account)%string.

Record LimitVerdict := {
  buying_power_allowed : bool;
  deployment_allowed : bool;
  strategy_allowed : bool;
  symbol_allowed : bool;
  position_count_allowed : bool;
  order_count_allowed : bool
}.

(** [limit IS NULL OR value <= limit]. *)
Definition within (value : Q) (limit : option Q) : bool :=
  match limit with Some l => Qle_bool value l | None => true end.
Definition below (count : nat) (limit : option Z) : bool :=
  match limit with Some l => Z.of_nat count <? l | None => true end.

(** The sums of the query, over all symbols or one. *)
Definition exposure_total (account : string) (now : Z) (d : ExecDb) : Q :=
  (qsum position_exposure (counted_positions account d)
   + qsum order_exposure (counted_orders account d)
   + qsum resv_amount (counted_reservations account now d))%Q.

Definition symbol_total (account symbol : string) (now : Z) (d : ExecDb) : Q :=
  (qsum position_exposure (List.filter (λ p, (pos_symbol p =? symbol)%string) (counted_positions account d))
   + qsum order_exposure (List.filter (λ o, (order_symbol o =? symbol)%string) (counted_orders account d))
   + qsum resv_amount (List.filter (λ r, (resv_symbol r =? symbol)%string) (counted_reservations account now d)))%Q.

(** [GREATEST(cash_reserve_amount, equity * cash_reserve_ratio)]. *)
Definition cash_reserve (s : SnapshotRow) (l : RiskLimitProjection) : Q :=
  Qmax (or_zero (rl_cashReserveAmount l))
    (or_zero (snap_equity s) * or_zero (rl_cashReserveRatio l))%Q.

(** What buying power is left before the new amount. *)
Definition free_buying_power (account : string) (now : Z) (s : SnapshotRow)
    (l : RiskLimitProjection) (d : ExecDb) : Q :=
  (or_zero (snap_buying_power s) - qsum resv_amount (counted_reservations account now d)
   - qsum order_exposure (counted_orders account d) - cash_reserve s l)%Q.

Definition scaled_limit (base : Q) (ratio : option Q) : option Q :=
  match ratio with Some r => Some (base * r)%Q | None => None end.

Definition limit_verdict (i : ExecutionReservationIntentInput) (s : SnapshotRow)
    (l : RiskLimitProjection) (a : AllocationRow) (d : ExecDb) : LimitVerdict :=
  let account := ri_accountId i in
  let now := ri_createdAt i in
  let amount := ri_amount i in
  let equity := or_zero (snap_equity s) in
  let deployment := (exposure_total account now d + amount)%Q in
  let strategy := (alloc_deployed a + alloc_reserved a + amount)%Q in
  {| buying_power_allowed := Qle_bool amount (free_buying_power account now s l d);
     deployment_allowed := within deployment (rl_maxDeploymentAmount l)
       && within deployment (scaled_limit equity (rl_maxDeploymentRatio l));
     strategy_allowed := within strategy (alloc_amount a)
       && within strategy (scaled_limit equity (alloc_ratio a));
     symbol_allowed := within (symbol_total account (ri_symbol i) now d + amount)%Q
       (rl_maxSymbolNotional l);
     position_count_allowed := below (List.length (counted_positions account d))
       (rl_maxPositionCount l);
     order_count_allowed := below (List.length (counted_orders account d)) (rl_maxOrderCount l) |}.

(** The query joins the snapshot, the limits and the allocation: without one of
    them it has no row. *)
Definition limit_query (i : ExecutionReservationIntentInput) (d : ExecDb) : option LimitVerdict :=
  match select_one (is_snapshot (ri_accountId i) (ri_accountSnapshotId i)) (db_snapshots d),
        select_one (is_current_limit (ri_accountId i)) (db_risk_limits d),
        select_one (is_current_allocation (ri_accountId i) (ri_strategyKey i)) (db_allocations d) with
  | Some s, Some l, Some a => Some (limit_verdict i s (lim_config l) a d)
  | _, _, _ => None
  end.

(** [!allowed ? code : null], nulls filtered out. *)
Definition unless (allowed : bool) (code : string) : list string :=
  if allowed then [] else [code].

Definition reservationBlockers (v : LimitVerdict) : list string :=
  unless (buying_power_allowed v) "BUYING_POWER_LIMIT_EXCEEDED"
   ++ unless (deployment_allowed v) "DEPLOYMENT_LIMIT_EXCEEDED"
   ++ unless (strategy_allowed v) "STRATEGY_ALLOCATION_LIMIT_EXCEEDED"
   ++ unless (symbol_allowed v) "SYMBOL_EXPOSURE_LIMIT_EXCEEDED"
   ++ unless (position_count_allowed v) "POSITION_COUNT_LIMIT_EXCEEDED"
   ++ unless (order_count_allowed v) "ORDER_COUNT_LIMIT_EXCEEDED".

(** ** The reservation *)

Inductive ExecutionReservationResult : Type :=
| Authorized (reservationId : option string) (orderIntentId : string)
| DuplicateIntent (reservationId : option string) (orderIntentId : string)
| ReservationBlocked (blockers : list string)
| ReservationFenceRejected (currentFencingToken : option string).

Definition usable_review (now : Z) (r : ReviewRow) : bool :=
  bool_decide (review_status r = ReviewCreated ∨ review_status r = ReviewValid)
  && (now <? date_text_ms (rv_expiresAt (review_input r))).

Definition usable_confirmation (now : Z) (c : ConfirmationRow) : bool :=
  bool_decide (conf_status c = ConfirmationValid)
  && (now <? date_text_ms (cf_expiresAt (conf_input c))).

Definition is_review (account id : string) (r : ReviewRow) : bool :=
  (rv_id (review_input r) =? id)%string && (review_account_id r =? account)%string.

Definition is_confirmation (account review id : string) (c : ConfirmationRow) : bool :=
  (conf_review_id c =? review)%string && (cf_id (conf_input c) =? id)%string
  && (conf_account_id c =? account)%string.

(** The evidence query and its tests. *)
Definition evidence_usable (account review confirmation : string) (now : Z) (d : ExecDb) : bool :=
  match select_one (is_review account review) (db_reviews d),
        select_one (is_confirmation account review confirmation) (db_confirmations d) with
  | Some r, Some c => usable_review now r && usable_confirmation now c
  | _, _ => false
  end.

Definition consume_review (now : Z) (r : ReviewRow) : ReviewRow :=
  {| review_input := review_input r; review_account_id := review_account_id r;
     review_candidate_id := review_candidate_id r; review_status := ReviewConsumed;
     review_consumed_at := Some now; review_version := review_version r + 1;
     review_updated_at := now |}.

Definition consume_confirmation (now : Z) (c : ConfirmationRow) : ConfirmationRow :=
  {| conf_input := conf_input c; conf_review_id := conf_review_id c;
     conf_account_id := conf_account_id c; conf_candidate_id := conf_candidate_id c;
     conf_status := ConfirmationConsumed; conf_consumed_at := Some now;
     conf_version := conf_version c + 1; conf_updated_at := now |}.

Definition review_checks (r : ReviewRow) : bool :=
  match review_consumed_at r with
  | Some t => rv_createdAt (review_input r) <=? t
  | None => true
  end.

Definition confirmation_checks (c : ConfirmationRow) : bool :=
  match conf_consumed_at c with
  | Some t => cf_confirmedAt (conf_input c) <=? t
  | None => true
  end.

Definition reservation_conflicts (a b : ReservationRow) : bool :=
  (resv_id a =? resv_id b)%string
  || (resv_account_id a =? resv_account_id b)%string
     && (resv_idempotency_key a =? resv_idempotency_key b)%string.

Definition reservation_checks (r : ReservationRow) : bool :=
  btrim_nonempty (resv_id r) && btrim_nonempty (resv_strategy_key r)
  && btrim_nonempty (resv_symbol r) && negb (Qle_bool (resv_amount r) 0)
  && btrim_nonempty (resv_idempotency_key r) && btrim_nonempty (resv_fingerprint r)
  && (resv_created_at r <? resv_expires_at r).

Definition allocation_checks (a : AllocationRow) : bool :=
  Qle_bool 0 (alloc_reserved a) && Qle_bool 0 (alloc_deployed a)
  && match alloc_amount a with Some x => Qle_bool 0 x | None => true end.

Definition intent_conflicts (a b : IntentRow) : bool :=
  (intent_id a =? intent_id b)%string
  || (intent_account_id a =? intent_account_id b)%string
     && ((intent_client_order_id a =? intent_client_order_id b)%string
         || (intent_idempotency_key a =? intent_idempotency_key b)%string
         || (intent_fingerprint a =? intent_fingerprint b)%string).

Definition positive_or_null (x : option Q) : bool :=
  match x with Some v => negb (Qle_bool v 0) | None => true end.
Definition is_some_bool {A} (x : option A) : bool :=
  match x with Some _ => true | None => false end.

Definition intent_checks (r : IntentRow) : bool :=
  btrim_nonempty (intent_id r) && btrim_nonempty (intent_client_order_id r)
  && btrim_nonempty (intent_idempotency_key r) && btrim_nonempty (intent_strategy_key r)
  && btrim_nonempty (intent_symbol r)
  && (is_some_bool (intent_quantity r) || is_some_bool (intent_notional r))
  && positive_or_null (intent_quantity r) && positive_or_null (intent_notional r)
  && positive_or_null (intent_limit_price r) && positive_or_null (intent_stop_price r)
  && match intent_order_type r with
     | limit => is_some_bool (intent_limit_price r)
     | stop => is_some_bool (intent_stop_price r)
     | stop_limit => is_some_bool (intent_limit_price r) && is_some_bool (intent_stop_price r)
     | market => true
     end
  && btrim_nonempty (intent_fingerprint r) && btrim_nonempty (intent_lifecycle_fingerprint r).

Definition new_reservation (i : ExecutionReservationIntentInput) (id : string)
    (candidate : option string) (fence : SchedulerFence) : ReservationRow :=
  {| resv_id := id; resv_account_id := ri_accountId i; resv_candidate_id := candidate;
     resv_strategy_key := ri_strategyKey i; resv_symbol := ri_symbol i;
     resv_asset_class := ri_assetClass i; resv_amount := ri_amount i;
     resv_status := ReservationActive; resv_idempotency_key := ri_idempotencyKey i;
     resv_fingerprint := ri_reservationFingerprint i;
     resv_snapshot_id := ri_accountSnapshotId i;
     resv_job_name := fence_job_name fence; resv_fencing_token := fence_token fence;
     resv_expires_at := ri_expiresAt i; resv_committed_at := None; resv_released_at := None;
     resv_release_reason := None; resv_version := 1; resv_created_at := ri_createdAt i;
     resv_updated_at := ri_createdAt i |}.

Definition add_reserved (amount : Q) (now : Z) (a : AllocationRow) : AllocationRow :=
  {| alloc_id := alloc_id a; alloc_account_id := alloc_account_id a;
     alloc_strategy_key := alloc_strategy_key a; alloc_status := alloc_status a;
     alloc_currency := alloc_currency a; alloc_amount := alloc_amount a;
     alloc_ratio := alloc_ratio a; alloc_reserved := (alloc_reserved a + amount)%Q;
     alloc_deployed := alloc_deployed a; alloc_config_version := alloc_config_version a;
     alloc_config_fingerprint := alloc_config_fingerprint a;
     alloc_effective_from := alloc_effective_from a; alloc_effective_to := alloc_effective_to a;
     alloc_version := alloc_version a + 1; alloc_updated_at := now |}.

Definition new_intent (i : ExecutionReservationIntentInput) (candidate : option string)
    : IntentRow :=
  {| intent_id := ri_orderIntentId i; intent_account_id := ri_accountId i;
     intent_candidate_id := candidate; intent_reservation_id := ri_reservationId i;
     intent_review_id := ri_executionReviewId i;
     intent_confirmation_id := ri_confirmationEvidenceId i;
     intent_client_order_id := ri_clientOrderId i;
     intent_idempotency_key := ri_idempotencyKey i;
     intent_strategy_key := ri_strategyKey i; intent_symbol := ri_symbol i;
     intent_underlying_symbol := ri_underlyingSymbol i; intent_asset_class := ri_assetClass i;
     intent_side := ri_side i; intent_order_type := ri_orderType i;
     intent_time_in_force := ri_timeInForce i; intent_quantity := ri_quantity i;
     intent_notional := ri_notional i; intent_limit_price := ri_limitPrice i;
     intent_stop_price := ri_stopPrice i; intent_estimated_premium := ri_estimatedPremium i;
     intent_max_risk := ri_maxRisk i; intent_status := IntentReady;
     intent_fingerprint := ri_intentFingerprint i;
     intent_lifecycle_fingerprint := ri_lifecycleFingerprint i;
     intent_request_payload := ri_requestPayload i; intent_request_id := ri_requestId i;
     intent_correlation_id := ri_correlationId i; intent_ready_at := Some (ri_createdAt i);
     intent_submitted_at := None; intent_terminal_at := None; intent_version := 1;
     intent_created_at := ri_createdAt i; intent_updated_at := ri_createdAt i |}.

Definition ready_fingerprint (i : ExecutionReservationIntentInput) (candidate : option string)
    : FingerprintRow :=
  {| fp_id := ri_orderIntentId i +:+ ":ready"; fp_account_id := Some (ri_accountId i);
     fp_candidate_id := candidate; fp_order_intent_id := Some (ri_orderIntentId i);
     fp_entity_type := "order_intent"; fp_entity_id := ri_orderIntentId i;
     fp_stage := "ready_for_submission"; fp_value := ri_lifecycleFingerprint i;
     fp_payload_version := 1;
     fp_evidence := json_object [("intentFingerprint"%string, json_string (ri_intentFingerprint i))];
     fp_request_id := ri_requestId i; fp_correlation_id := ri_correlationId i;
     fp_captured_at := ri_createdAt i |}.

(** The foreign key order_intents.reservation_id. *)
Definition require_reservation (id : option string) : tx ExecDb unit :=
  match id with
  | None => mret tt
  | Some r => λ d, if existsb (λ x, (resv_id x =? r)%string) (db_reservations d)
                   then Ret (tt, d) else Throw "foreign_key_violation"
  end.

(** The statements from the consumption of the evidence to the result. *)
Definition reserve_writes (fence : SchedulerFence) (i : ExecutionReservationIntentInput)
    (candidate : option string) (review confirmation : string) : tx ExecDb ExecutionReservationResult :=
  _ ← update_rows review_checks db_reviews set_reviews
        (λ r, (rv_id (review_input r) =? review)%string) (consume_review (ri_createdAt i));
  _ ← update_rows confirmation_checks db_confirmations set_confirmations
        (λ c, (cf_id (conf_input c) =? confirmation)%string)
        (consume_confirmation (ri_createdAt i));
  _ ← match ri_reservationRequired i, ri_reservationId i with
      | true, Some id =>
          _ ← insert_row reservation_conflicts reservation_checks db_reservations
                set_reservations (new_reservation i id candidate fence);
          _ ← update_rows allocation_checks db_allocations set_allocations
                (is_current_allocation (ri_accountId i) (ri_strategyKey i))
                (add_reserved (ri_amount i) (ri_createdAt i));
          mret tt
      | _, _ => mret tt
      end;
  _ ← require_reservation (ri_reservationId i);
  _ ← insert_row intent_conflicts intent_checks db_intents set_intents (new_intent i candidate);
  _ ← insert_fingerprint (ready_fingerprint i candidate);
  mret (Authorized (ri_reservationId i) (ri_orderIntentId i)).

(** [now] and [clock] are the clocks of the fence check. *)
Definition reserveAndCreateOrderIntent (now clock : Z) (fence : SchedulerFence)
    (i : ExecutionReservationIntentInput) : tx ExecDb ExecutionReservationResult :=
  verdict ← requireCurrentFence now clock fence;
  if negb (fence_accepted verdict) then mret (ReservationFenceRejected (rejected_token verdict))
  else
  account ← select_row db_accounts (λ a, (acct_id a =? ri_accountId i)%string);
  match account with
  | None => throw "POSTGRES_EXECUTION_ACCOUNT_NOT_FOUND"
  | Some _ =>
  duplicate ← select_row db_intents
    (λ r, (intent_account_id r =? ri_accountId i)%string
          && (intent_idempotency_key r =? ri_idempotencyKey i)%string);
  match duplicate with
  | Some r =>
      if negb (intent_id r =? ri_orderIntentId i)%string
         || negb (opt_str_eqb (intent_reservation_id r) (ri_reservationId i))
         || negb (intent_fingerprint r =? ri_intentFingerprint i)%string
      then throw "POSTGRES_EXECUTION_INTENT_REPLAY_CONFLICT"
      else mret (DuplicateIntent (ri_reservationId i) (ri_orderIntentId i))
  | None =>
  candidate ← known_candidate (ri_candidateId i);
  if ri_reservationRequired i && negb (is_some_bool (present (ri_reservationId i)))
  then throw "POSTGRES_EXECUTION_RESERVATION_ID_REQUIRED"
  else
  match present (ri_executionReviewId i), present (ri_confirmationEvidenceId i) with
  | Some review, Some confirmation =>
      usable ← gets (evidence_usable (ri_accountId i) review confirmation (ri_createdAt i));
      if negb usable then mret (ReservationBlocked ["EXECUTION_CONFIRMATION_EVIDENCE_INVALID"%string])
      else
      limits ← gets (limit_query i);
      if ri_reservationRequired i then
        match limits with
        | None => mret (ReservationBlocked ["EXECUTION_LIMIT_STATE_MISSING"%string])
        | Some v =>
            match reservationBlockers v with
            | [] => reserve_writes fence i candidate review confirmation
            | blockers => mret (ReservationBlocked blockers)
            end
        end
      else reserve_writes fence i candidate review confirmation
  | _, _ => mret (ReservationBlocked ["EXECUTION_CONFIRMATION_EVIDENCE_REQUIRED"%string])
  end
  end
  end.

(** ** Authorising a replacement or a cancellation *)

Record BrokerMutationInput := {
  bm_accountId : string;
  bm_orderIntentId : string;
  bm_clientOrderId : string;
  bm_brokerOrderId : string
}.

Inductive BrokerMutationResult : Type :=
| MutationAuthorized
| MutationBlocked (blockers : list string)
| MutationFenceRejected (currentFencingToken : option string).

(** The newest order of an intent that has not been replaced. *)
Definition is_live_order (intent : string) (o : OrderRow) : bool :=
  (order_intent_id o =? intent)%string && negb (is_some_bool (order_replacement_order_id o)).

Definition current_order (intent : string) (d : ExecDb) : option OrderRow :=
  latest order_created_at order_id (List.filter (is_live_order intent) (db_orders d)).

Definition mutable_order_statuses : list string :=
  ["new"; "accepted"; "partially_filled"; "held"]%string.

Definition authorizeBrokerMutation (now clock : Z) (fence : SchedulerFence)
    (i : BrokerMutationInput) : tx ExecDb BrokerMutationResult :=
  verdict ← requireCurrentFence now clock fence;
  if negb (fence_accepted verdict) then mret (MutationFenceRejected (rejected_token verdict))
  else
  intent ← select_row db_intents
    (λ r, (intent_id r =? bm_orderIntentId i)%string
          && (intent_account_id r =? bm_accountId i)%string
          && (intent_client_order_id r =? bm_clientOrderId i)%string);
  match intent with
  | None => throw "POSTGRES_EXECUTION_ORDER_INTENT_NOT_FOUND"
  | Some r =>
      if negb (bool_decide (intent_status r = IntentSubmitted))
      then mret (MutationBlocked ["EXECUTION_BROKER_MUTATION_INTENT_NOT_ACTIVE"%string])
      else
      current ← gets (current_order (bm_orderIntentId i));
      match current with
      | None => throw "POSTGRES_EXECUTION_BROKER_MUTATION_IDENTITY_MISMATCH"
      | Some o =>
          if negb (opt_str_eqb (order_broker_order_id o) (Some (bm_brokerOrderId i)))
          then throw "POSTGRES_EXECUTION_BROKER_MUTATION_IDENTITY_MISMATCH"
          else if negb (str_mem (to_lower (trim (order_status o))) mutable_order_statuses)
          then mret (MutationBlocked ["EXECUTION_BROKER_MUTATION_ORDER_NOT_ACTIVE"%string])
          else mret MutationAuthorized
      end
  end.

(** ** Runs *)

Lemma require_reservation_Ret id d u d' :
  require_reservation id d = Ret (u, d') →
  d' = d ∧ ∀ r, id = Some r → ∃ x, In x (db_reservations d) ∧ resv_id x = r.
Proof.
  unfold require_reservation. destruct id as [r|].
  - destruct (existsb _ _) eqn:E; [|done]. intros [= <- <-]. split; [done|].
    intros r' [= <-]. apply existsb_exists in E as (x & Hx & Hr%String.eqb_eq). eauto.
  - intros [= <- <-]. done.
Qed.

(** Which tables a committed reservation writes, and how. *)
Record reserved (fence : SchedulerFence) (i : ExecutionReservationIntentInput)
    (candidate : option string) (review confirmation : string) (d d' : ExecDb) : Prop := {
  rsv_reviews : db_reviews d' =
    update_where (λ r, (rv_id (review_input r) =? review)%string)
      (consume_review (ri_createdAt i)) (db_reviews d);
  rsv_confirmations : db_confirmations d' =
    update_where (λ c, (cf_id (conf_input c) =? confirmation)%string)
      (consume_confirmation (ri_createdAt i)) (db_confirmations d);
  rsv_money :
    match ri_reservationRequired i, ri_reservationId i with
    | true, Some id =>
        existsb (reservation_conflicts (new_reservation i id candidate fence))
          (db_reservations d) = false ∧
        reservation_checks (new_reservation i id candidate fence) = true ∧
        db_reservations d' = db_reservations d ++ [new_reservation i id candidate fence] ∧
        db_allocations d' =
          update_where (is_current_allocation (ri_accountId i) (ri_strategyKey i))
            (add_reserved (ri_amount i) (ri_createdAt i)) (db_allocations d)
    | _, _ => db_reservations d' = db_reservations d ∧ db_allocations d' = db_allocations d
    end;
  rsv_reference : ∀ id, ri_reservationId i = Some id →
    ∃ x, In x (db_reservations d') ∧ resv_id x = id;
  rsv_intent_new :
    existsb (intent_conflicts (new_intent i candidate)) (db_intents d) = false ∧
    intent_checks (new_intent i candidate) = true ∧
    db_intents d' = db_intents d ++ [new_intent i candidate];
  rsv_others : db_leases d' = db_leases d ∧ db_candidates d' = db_candidates d ∧
    db_accounts d' = db_accounts d ∧ db_snapshots d' = db_snapshots d ∧
    db_positions d' = db_positions d ∧ db_risk_limits d' = db_risk_limits d ∧
    db_exposures d' = db_exposures d ∧ db_orders d' = db_orders d ∧ db_events d' = db_events d
}.

Lemma insert_fingerprint_Ret r d b d' :
  insert_fingerprint r d = Ret (b, d') →
  d' = d ∧ b = false ∧ existsb (same_fingerprint r) (db_fingerprints d) = true ∨
  d' = set_fingerprints (db_fingerprints d ++ [r]) d ∧ b = true ∧
  existsb (same_fingerprint r) (db_fingerprints d) = false.
Proof.
  unfold insert_fingerprint. intros H%insert_unless_Ret. destruct b.
  - destruct H as [Hx (_ & _ & ->)%insert_row_Ret]. by right.
  - destruct H as [Hx ->]. by left.
Qed.

Lemma reserve_writes_spec fence i candidate review confirmation d res d' :
  reserve_writes fence i candidate review confirmation d = Ret (res, d') →
  res = Authorized (ri_reservationId i) (ri_orderIntentId i) ∧
  reserved fence i candidate review confirmation d d'.
Proof.
  unfold reserve_writes. intros H.
  tx_step H as n1 d1 E1. apply update_rows_Ret in E1 as (_ & -> & _).
  tx_step H as n2 d2 E2. apply update_rows_Ret in E2 as (_ & -> & _).
  tx_step H as u3 d3 E3. tx_step H as u4 d4 E4. apply require_reservation_Ret in E4 as [-> E4].
  tx_step H as u5 d5 E5. apply insert_row_Ret in E5 as (Hc & Hk & ->).
  tx_step H as u6 d6 E6. injection H as <- <-. split; [done|].
  assert (Hd6 : d6 = set_fingerprints (db_fingerprints d6) (set_intents (db_intents d3 ++ [new_intent i candidate]) d3))
    by (apply insert_fingerprint_Ret in E6 as [(-> & _)|(-> & _)]; by destruct d3).
  clear E6. rewrite Hd6. generalize (db_fingerprints d6). clear Hd6. intros fps.
  destruct (ri_reservationRequired i) eqn:Hreq, (ri_reservationId i) as [id|] eqn:Hid.
  - tx_step E3 as n7 d7 E7. apply insert_row_Ret in E7 as (Hc7 & Hk7 & ->).
    tx_step E3 as n8 d8 E8. apply update_rows_Ret in E8 as (_ & -> & _).
    injection E3 as _ <-. split; rewrite ?Hreq, ?Hid; cbn; auto 12.
  - injection E3 as _ <-. split; rewrite ?Hreq, ?Hid; cbn; auto 12.
  - injection E3 as _ <-. split; rewrite ?Hreq, ?Hid; cbn; auto 12.
  - injection E3 as _ <-. split; rewrite ?Hreq, ?Hid; cbn; auto 12.
Qed.

(** What a reservation call that returns has done: it either changed nothing and
    authorised nothing, or all guards held and the writes were made. *)
Definition guards_held (now clock : Z) (fence : SchedulerFence)
    (i : ExecutionReservationIntentInput) (review confirmation : string) (d : ExecDb) : Prop :=
  fence_accepted (fence_verdict now clock (db_leases d) fence) = true ∧
  (∃ a, select_one (λ a, (acct_id a =? ri_accountId i)%string) (db_accounts d) = Some a) ∧
  present (ri_executionReviewId i) = Some review ∧
  present (ri_confirmationEvidenceId i) = Some confirmation ∧
  evidence_usable (ri_accountId i) review confirmation (ri_createdAt i) d = true ∧
  (ri_reservationRequired i = true → ri_reservationId i ≠ None ∧
     ∃ v, limit_query i d = Some v ∧ reservationBlockers v = []).

Lemma present_Some o x : present o = Some x → o = Some x.
Proof. unfold present. destruct o as [s|]; [|done]. by destruct (str_truthy s). Qed.

Lemma known_candidate_Ret c d r d' : known_candidate c d = Ret (r, d') → d' = d.
Proof. apply known_candidate_read_only. Qed.

Lemma reserve_spec now clock fence i d res d' :
  reserveAndCreateOrderIntent now clock fence i d = Ret (res, d') →
  d' = d ∧ (∀ r o, res ≠ Authorized r o) ∨
  ∃ candidate review confirmation,
    guards_held now clock fence i review confirmation d ∧
    res = Authorized (ri_reservationId i) (ri_orderIntentId i) ∧
    reserved fence i candidate review confirmation d d'.
Proof.
  unfold reserveAndCreateOrderIntent. intros H.
  tx_step H as v d1 E1. unfold requireCurrentFence, gets in E1. injection E1 as <- <-.
  set (v := fence_verdict _ _ _ _) in *.
  destruct (fence_accepted v) eqn:Hf; cbn [negb] in H; [|injection H as <- <-; by left].
  tx_step H as acct d1 E1. apply select_row_Ret in E1 as [-> ->].
  destruct (select_one _ (db_accounts d)) as [acct|] eqn:Hacct; [|done].
  tx_step H as dup d1 E1. apply select_row_Ret in E1 as [-> ->].
  destruct (select_one _ (db_intents d)) as [dup|].
  { case_match; [done|]. injection H as <- <-. by left. }
  tx_step H as cand d1 E1. apply known_candidate_Ret in E1 as ->.
  destruct (ri_reservationRequired i && _) eqn:Hid; [done|].
  destruct (present (ri_executionReviewId i)) as [review|] eqn:Hrv;
    [|injection H as <- <-; by left].
  destruct (present (ri_confirmationEvidenceId i)) as [confirmation|] eqn:Hcf;
    [|injection H as <- <-; by left].
  tx_step H as usable d1 E1. injection E1 as <- <-.
  destruct (evidence_usable _ _ _ _ _) eqn:Hev; cbn [negb] in H;
    [|injection H as <- <-; by left].
  tx_step H as limits d1 E1. injection E1 as <- <-.
  assert (Hg : ∀ res d', reserve_writes fence i cand review confirmation d = Ret (res, d') →
    (ri_reservationRequired i = true → ∃ v, limit_query i d = Some v ∧ reservationBlockers v = []) →
    ∃ candidate review confirmation,
      guards_held now clock fence i review confirmation d ∧
      res = Authorized (ri_reservationId i) (ri_orderIntentId i) ∧
      reserved fence i candidate review confirmation d d').
  { intros res1 d1 [-> Hw]%reserve_writes_spec Hlim. exists cand, review, confirmation.
    split_and!; [|done..]. split_and!; try done; [by eauto|]. intros Hreq. split; [|auto].
    rewrite Hreq in Hid. destruct (ri_reservationId i); [done|]. discriminate Hid. }
  destruct (ri_reservationRequired i) eqn:Hreq.
  - destruct (limit_query i d) as [lv|]; [|injection H as <- <-; by left].
    destruct (reservationBlockers lv) as [|b bs] eqn:Hb; [|injection H as <- <-; by left].
    right. eauto.
  - right. apply Hg; [done|]. done.
Qed.
