(* ===== verification/BrokerResult.v ===== *)
(** Recording what the broker answered: recordBrokerResult and
    orderIntentStatus of
    src/repositories/postgres/postgresExecutionStateRepository.ts. *)

From Stdlib Require Import Qminmax.
From S2P Require Import Prelude.
From S2P Require Import JsString.
From S2P Require Import BrokerOrderStatus.
From S2P Require Import SchedulerLease.
From S2P Require Import ExecutionTables.
From S2P Require Import ExecutionReservation.
Open Scope Z_scope.

Definition orderIntentStatus (status : string) : IntentStatus :=
  let normalized := to_lower (trim status) in
  if (normalized =? "filled")%string then IntentReconciled
  else if str_mem normalized ["new"; "accepted"; "pending_new"; "partially_filled"]%string
  then IntentSubmitted
  else if str_mem normalized ["ambiguous"; "timeout"; "unknown"]%string then IntentAmbiguous
  else if str_mem normalized ["cancelled"; "canceled"; "expired"]%string then IntentCancelled
  else IntentFailed.

Inductive BrokerRecordResult : Type :=
| Recorded (orderId : string)
| DuplicateResult (orderId : string)
| RecordFenceRejected (currentFencingToken : option string).

(** [a ?? b]. *)
Definition or_else {A} (a b : option A) : option A :=
  match a with Some x => Some x | None => b end.

Definition broker_client_order_id (i : BrokerResultInput) : string :=
  default (br_clientOrderId i) (br_brokerClientOrderId i).

(** The identity columns of the intent agree with the input. *)
Definition identity_matches (i : BrokerResultInput) (r : IntentRow) : bool :=
  (intent_client_order_id r =? br_clientOrderId i)%string
  && (intent_symbol r =? br_symbol i)%string
  && bool_decide (intent_asset_class r = br_assetClass i)
  && bool_decide (intent_side r = br_side i)
  && bool_decide (intent_order_type r = br_orderType i)
  && bool_decide (intent_time_in_force r = br_timeInForce i)
  && same_numeric (intent_quantity r) (br_quantity i)
  && same_numeric (intent_notional r) (br_notional i)
  && same_numeric (intent_limit_price r) (br_limitPrice i)
  && same_numeric (intent_stop_price r) (br_stopPrice i).

(** [recordLifecycleFingerprint]. *)
Definition result_fingerprint (i : BrokerResultInput) (intent : IntentRow) : FingerprintRow :=
  {| fp_id := br_eventId i +:+ ":broker-result"; fp_account_id := Some (intent_account_id intent);
     fp_candidate_id := intent_candidate_id intent;
     fp_order_intent_id := Some (br_orderIntentId i);
     fp_entity_type := "order"; fp_entity_id := br_orderId i; fp_stage := "broker_result";
     fp_value := br_responseFingerprint i; fp_payload_version := 1;
     fp_evidence := json_object
       [("brokerEventId"%string, json_string (br_eventId i));
        ("brokerOrderId"%string, json_nullable (br_brokerOrderId i));
        ("clientOrderId"%string, json_string (broker_client_order_id i));
        ("intentClientOrderId"%string, json_string (br_clientOrderId i));
        ("replacesBrokerOrderId"%string, json_nullable (br_replacesBrokerOrderId i));
        ("status"%string, json_string (br_status i))];
     fp_request_id := br_requestId i; fp_correlation_id := None;
     fp_captured_at := br_receivedAt i |}.

Definition recordLifecycleFingerprint (i : BrokerResultInput) (intent : IntentRow)
    : tx ExecDb bool :=
  insert_fingerprint (result_fingerprint i intent).

(** [storedOrder && storedOrder.id !== input.orderId && ...]: the result is that
    of the order that replaces the stored one. *)
Definition is_replacement (i : BrokerResultInput) (stored : option OrderRow) : bool :=
  match stored with
  | Some o =>
      negb (order_id o =? br_orderId i)%string
      && is_some_bool (order_broker_order_id o)
      && opt_str_eqb (br_replacesBrokerOrderId i) (order_broker_order_id o)
  | None => false
  end.

(** The stored order is another order than the one reported. *)
Definition order_mismatch (i : BrokerResultInput) (o : OrderRow) : bool :=
  negb (order_id o =? br_orderId i)%string
  || negb (order_client_order_id o =? broker_client_order_id i)%string
  || is_some_bool (order_broker_order_id o) && is_some_bool (br_brokerOrderId i)
     && negb (opt_str_eqb (order_broker_order_id o) (br_brokerOrderId i)).

Definition terminal_intent (s : IntentStatus) : bool :=
  bool_decide (s = IntentReconciled ∨ s = IntentFailed ∨ s = IntentCancelled).

Definition terminal_order (o : OrderRow) : bool :=
  str_mem (to_lower (order_status o))
    ["filled"; "rejected"; "cancelled"; "canceled"; "expired"]%string.

(** The guard against results that arrive late or out of order. *)
Definition status_regression (i : BrokerResultInput) (intent : IntentRow)
    (stored : option OrderRow) : bool :=
  let replacement := is_replacement i stored in
  negb replacement
    && match stored with
       | Some o => negb (Qle_bool (order_filled_quantity o) (br_filledQuantity i))
       | None => false
       end
  || terminal_intent (intent_status intent)
     && negb (bool_decide (orderIntentStatus (br_status i) = intent_status intent))
  || negb replacement
     && match stored with
        | Some o => terminal_order o
                    && negb (to_lower (order_status o) =? to_lower (br_status i))%string
        | None => false
        end.

Definition new_order (i : BrokerResultInput) (intent : IntentRow) (stored : option OrderRow)
    : OrderRow :=
  {| order_id := br_orderId i; order_account_id := intent_account_id intent;
     order_intent_id := br_orderIntentId i; order_broker_order_id := br_brokerOrderId i;
     order_client_order_id := broker_client_order_id i;
     order_parent_order_id := if is_replacement i stored then option_map order_id stored else None;
     order_replacement_order_id := None; order_symbol := br_symbol i;
     order_asset_class := br_assetClass i; order_side := br_side i;
     order_order_type := br_orderType i; order_time_in_force := br_timeInForce i;
     order_status := br_status i;
     order_quantity := or_else (br_brokerQuantity i) (br_quantity i);
     order_notional := or_else (br_brokerNotional i) (br_notional i);
     order_limit_price := or_else (br_brokerLimitPrice i) (br_limitPrice i);
     order_stop_price := or_else (br_brokerStopPrice i) (br_stopPrice i);
     order_filled_quantity := br_filledQuantity i;
     order_filled_average_price := br_filledAveragePrice i;
     order_broker_request_id := br_requestId i; order_submitted_at := Some (br_occurredAt i);
     order_last_broker_update_at := Some (br_receivedAt i);
     order_raw_status := br_responsePayload i; order_version := 1;
     order_created_at := br_occurredAt i; order_updated_at := br_receivedAt i |}.

(** [ON CONFLICT (account_id, client_order_id) DO UPDATE SET ...]. *)
Definition merge_order (new old : OrderRow) : OrderRow :=
  {| order_id := order_id old; order_account_id := order_account_id old;
     order_intent_id := order_intent_id old;
     order_broker_order_id := or_else (order_broker_order_id new) (order_broker_order_id old);
     order_client_order_id := order_client_order_id old;
     order_parent_order_id := order_parent_order_id old;
     order_replacement_order_id := order_replacement_order_id old;
     order_symbol := order_symbol old; order_asset_class := order_asset_class old;
     order_side := order_side old; order_order_type := order_order_type old;
     order_time_in_force := order_time_in_force old; order_status := order_status new;
     order_quantity := order_quantity old; order_notional := order_notional old;
     order_limit_price := order_limit_price old; order_stop_price := order_stop_price old;
     order_filled_quantity := Qmax (order_filled_quantity old) (order_filled_quantity new);
     order_filled_average_price :=
       or_else (order_filled_average_price new) (order_filled_average_price old);
     order_broker_request_id :=
       or_else (order_broker_request_id new) (order_broker_request_id old);
     order_submitted_at := order_submitted_at old;
     order_last_broker_update_at := order_last_broker_update_at new;
     order_raw_status := order_raw_status new; order_version := order_version old + 1;
     order_created_at := order_created_at old; order_updated_at := order_updated_at new |}.

Definition same_client_order (a b : OrderRow) : bool :=
  (order_account_id a =? order_account_id b)%string
  && (order_client_order_id a =? order_client_order_id b)%string.

(** The unique index on broker order ids. *)
Definition same_broker_order (a b : OrderRow) : bool :=
  is_some_bool (order_broker_order_id a)
  && opt_str_eqb (order_broker_order_id a) (order_broker_order_id b).

Definition order_conflicts (a b : OrderRow) : bool :=
  (order_id a =? order_id b)%string || same_broker_order a b.

Definition order_checks (o : OrderRow) : bool :=
  btrim_nonempty (order_id o) && btrim_nonempty (order_client_order_id o)
  && btrim_nonempty (order_symbol o) && btrim_nonempty (order_status o)
  && (is_some_bool (order_quantity o) || is_some_bool (order_notional o))
  && positive_or_null (order_quantity o) && positive_or_null (order_notional o)
  && positive_or_null (order_limit_price o) && positive_or_null (order_stop_price o)
  && Qle_bool 0 (order_filled_quantity o) && positive_or_null (order_filled_average_price o)
  && match order_quantity o with
     | Some q => Qle_bool (order_filled_quantity o) q
     | None => true
     end
  && (order_created_at o <=? order_updated_at o).

(** [INSERT INTO orders ... ON CONFLICT (account_id, client_order_id) DO UPDATE]. *)
Definition upsert_order (new : OrderRow) : tx ExecDb unit := λ d,
  match select_one (same_client_order new) (db_orders d) with
  | None => insert_row order_conflicts order_checks db_orders set_orders new d
  | Some old =>
      let merged := merge_order new old in
      if existsb (λ o, negb (order_id o =? order_id old)%string && same_broker_order merged o)
           (db_orders d)
      then Throw unique_violation
      else if order_checks merged
      then Ret (tt, set_orders (update_where (same_client_order new) (merge_order new)
                                  (db_orders d)) d)
      else Throw check_failed
  end.

Definition mark_replaced (by_ : string) (now : Z) (o : OrderRow) : OrderRow :=
  {| order_id := order_id o; order_account_id := order_account_id o;
     order_intent_id := order_intent_id o; order_broker_order_id := order_broker_order_id o;
     order_client_order_id := order_client_order_id o;
     order_parent_order_id := order_parent_order_id o;
     order_replacement_order_id := Some by_;
     order_symbol := order_symbol o; order_asset_class := order_asset_class o;
     order_side := order_side o; order_order_type := order_order_type o;
     order_time_in_force := order_time_in_force o; order_status := "replaced";
     order_quantity := order_quantity o; order_notional := order_notional o;
     order_limit_price := order_limit_price o; order_stop_price := order_stop_price o;
     order_filled_quantity := order_filled_quantity o;
     order_filled_average_price := order_filled_average_price o;
     order_broker_request_id := order_broker_request_id o;
     order_submitted_at := order_submitted_at o;
     order_last_broker_update_at := order_last_broker_update_at o;
     order_raw_status := order_raw_status o; order_version := order_version o + 1;
     order_created_at := order_created_at o; order_updated_at := now |}.

(** A reference to orders(id). *)
Definition require_order (id : string) : tx ExecDb unit := λ d,
  if existsb (λ o, (order_id o =? id)%string) (db_orders d)
  then Ret (tt, d) else Throw "foreign_key_violation".

Definition new_event (i : BrokerResultInput) (intent : IntentRow) : EventRow :=
  {| event_id := br_eventId i; event_account_id := intent_account_id intent;
     event_order_id := Some (br_orderId i); event_intent_id := Some (br_orderIntentId i);
     event_broker_order_id := br_brokerOrderId i;
     event_client_order_id := Some (broker_client_order_id i); event_type := "order_response";
     event_status := br_status i; event_request_id := br_requestId i;
     event_http_status := br_httpStatus i;
     event_error_classification := br_errorClassification i;
     event_retryable := br_retryable i; event_response_payload := br_responsePayload i;
     event_response_fingerprint := br_responseFingerprint i;
     event_occurred_at := br_occurredAt i; event_received_at := br_receivedAt i |}.

Definition same_event (a b : EventRow) : bool := (event_id a =? event_id b)%string.

Definition event_checks (e : EventRow) : bool :=
  btrim_nonempty (event_id e) && btrim_nonempty (event_status e)
  && btrim_nonempty (event_response_fingerprint e)
  && match event_http_status e with Some s => (100 <=? s) && (s <=? 599) | None => true end
  && (event_occurred_at e <=? event_received_at e).

(** [UPDATE order_intents SET status = ...]. *)
Definition settle_intent (status : IntentStatus) (now : Z) (r : IntentRow) : IntentRow :=
  {| intent_id := intent_id r; intent_account_id := intent_account_id r;
     intent_candidate_id := intent_candidate_id r;
     intent_reservation_id := intent_reservation_id r;
     intent_review_id := intent_review_id r; intent_confirmation_id := intent_confirmation_id r;
     intent_client_order_id := intent_client_order_id r;
     intent_idempotency_key := intent_idempotency_key r;
     intent_strategy_key := intent_strategy_key r; intent_symbol := intent_symbol r;
     intent_underlying_symbol := intent_underlying_symbol r;
     intent_asset_class := intent_asset_class r; intent_side := intent_side r;
     intent_order_type := intent_order_type r; intent_time_in_force := intent_time_in_force r;
     intent_quantity := intent_quantity r; intent_notional := intent_notional r;
     intent_limit_price := intent_limit_price r; intent_stop_price := intent_stop_price r;
     intent_estimated_premium := intent_estimated_premium r;
     intent_max_risk := intent_max_risk r; intent_status := status;
     intent_fingerprint := intent_fingerprint r;
     intent_lifecycle_fingerprint := intent_lifecycle_fingerprint r;
     intent_request_payload := intent_request_payload r;
     intent_request_id := intent_request_id r; intent_correlation_id := intent_correlation_id r;
     intent_ready_at := intent_ready_at r;
     intent_submitted_at :=
       if bool_decide (status = IntentSubmitted ∨ status = IntentReconciled)
       then or_else (intent_submitted_at r) (Some now) else intent_submitted_at r;
     intent_terminal_at := if terminal_intent status then Some now else intent_terminal_at r;
     intent_version := intent_version r + 1; intent_created_at := intent_created_at r;
     intent_updated_at := now |}.

Definition intent_time_checks (r : IntentRow) : bool :=
  intent_created_at r <=? intent_updated_at r.

(** [UPDATE buying_power_reservations SET status = ...]. *)
Definition settle_reservation (committed : bool) (now : Z) (r : ReservationRow) : ReservationRow :=
  {| resv_id := resv_id r; resv_account_id := resv_account_id r;
     resv_candidate_id := resv_candidate_id r; resv_strategy_key := resv_strategy_key r;
     resv_symbol := resv_symbol r; resv_asset_class := resv_asset_class r;
     resv_amount := resv_amount r;
     resv_status := if committed then ReservationCommitted else ReservationReleased;
     resv_idempotency_key := resv_idempotency_key r; resv_fingerprint := resv_fingerprint r;
     resv_snapshot_id := resv_snapshot_id r; resv_job_name := resv_job_name r;
     resv_fencing_token := resv_fencing_token r; resv_expires_at := resv_expires_at r;
     resv_committed_at := if committed then Some now else resv_committed_at r;
     resv_released_at := if committed then resv_released_at r else Some now;
     resv_release_reason :=
       if committed then resv_release_reason r else Some "BROKER_SUBMISSION_FAILED"%string;
     resv_version := resv_version r + 1; resv_created_at := resv_created_at r;
     resv_updated_at := now |}.

Definition reservation_time_checks (r : ReservationRow) : bool :=
  resv_created_at r <=? resv_updated_at r.

(** [UPDATE strategy_allocations SET reserved_amount = ..., deployed_amount = ...]. *)
Definition settle_allocation (amount : Q) (committed : bool) (now : Z) (a : AllocationRow)
    : AllocationRow :=
  {| alloc_id := alloc_id a; alloc_account_id := alloc_account_id a;
     alloc_strategy_key := alloc_strategy_key a; alloc_status := alloc_status a;
     alloc_currency := alloc_currency a; alloc_amount := alloc_amount a;
     alloc_ratio := alloc_ratio a;
     alloc_reserved := Qmax 0 (alloc_reserved a - amount);
     alloc_deployed := (alloc_deployed a + (if committed then amount else 0))%Q;
     alloc_config_version := alloc_config_version a;
     alloc_config_fingerprint := alloc_config_fingerprint a;
     alloc_effective_from := alloc_effective_from a; alloc_effective_to := alloc_effective_to a;
     alloc_version := alloc_version a + 1; alloc_updated_at := now |}.

Definition is_settled_reservation (id : string) (r : ReservationRow) : bool :=
  (resv_id r =? id)%string && is_active_reservation r.

(** The reservation of an intent that is no longer ambiguous is committed or
    released, and its strategy's allocation follows. *)
Definition settle (intent : IntentRow) (status : IntentStatus) (now : Z) : tx ExecDb unit :=
  match present (intent_reservation_id intent) with
  | None => mret tt
  | Some id =>
      if bool_decide (status = IntentAmbiguous) then mret tt
      else
      let committed := bool_decide (status = IntentSubmitted ∨ status = IntentReconciled) in
      active ← select_row db_reservations (is_settled_reservation id);
      _ ← update_rows reservation_time_checks db_reservations set_reservations
            (is_settled_reservation id) (settle_reservation committed now);
      match active with
      | None => mret tt
      | Some r =>
          _ ← update_rows allocation_checks db_allocations set_allocations
                (is_current_allocation (intent_account_id intent) (resv_strategy_key r))
                (settle_allocation (resv_amount r) committed now);
          mret tt
      end
  end.

(** From the event to the result. *)
Definition record_event (i : BrokerResultInput) (intent : IntentRow)
    : tx ExecDb BrokerRecordResult :=
  _ ← require_order (br_orderId i);
  written ← insert_unless same_event same_event event_checks db_events set_events
              (new_event i intent);
  if negb written then
    replay ← select_row db_events (λ e, (event_id e =? br_eventId i)%string);
    if opt_str_eqb (option_map event_response_fingerprint replay)
         (Some (br_responseFingerprint i))
    then mret (DuplicateResult (br_orderId i))
    else throw "POSTGRES_BROKER_EVENT_REPLAY_CONFLICT"
  else
  let status := orderIntentStatus (br_status i) in
  _ ← update_rows intent_time_checks db_intents set_intents
        (λ r, (intent_id r =? br_orderIntentId i)%string)
        (settle_intent status (br_receivedAt i));
  _ ← settle intent status (br_receivedAt i);
  _ ← recordLifecycleFingerprint i intent;
  mret (Recorded (br_orderId i)).

(** The replaced order is linked to the one that replaces it. *)
Definition link_replaced (i : BrokerResultInput) (stored : option OrderRow) : tx ExecDb unit :=
  match stored with
  | Some o =>
      if is_replacement i stored then
        _ ← require_order (br_orderId i);
        linked ← update_rows order_checks db_orders set_orders
          (λ x, (order_id x =? order_id o)%string
                && negb (is_some_bool (order_replacement_order_id x)))
          (mark_replaced (br_orderId i) (br_receivedAt i));
        if (linked =? 1)%nat then mret tt
        else throw "POSTGRES_BROKER_REPLACEMENT_CHAIN_CONFLICT"
      else mret tt
  | None => mret tt
  end.

(** From the stored order on. *)
Definition record_order (i : BrokerResultInput) (intent : IntentRow)
    : tx ExecDb BrokerRecordResult :=
  stored ← gets (current_order (br_orderIntentId i));
  let replacement := is_replacement i stored in
  if match stored with Some o => negb replacement && order_mismatch i o | None => false end
  then throw "POSTGRES_BROKER_RESULT_ORDER_MISMATCH"
  else if status_regression i intent stored
  then throw "POSTGRES_BROKER_RESULT_STATUS_REGRESSION"
  else
  _ ← upsert_order (new_order i intent stored);
  _ ← link_replaced i stored;
  record_event i intent.

Definition recordBrokerResult (now clock : Z) (fence : SchedulerFence) (i : BrokerResultInput)
    : tx ExecDb BrokerRecordResult :=
  verdict ← requireCurrentFence now clock fence;
  if negb (fence_accepted verdict) then mret (RecordFenceRejected (rejected_token verdict))
  else
  found ← select_row db_intents (λ r, (intent_id r =? br_orderIntentId i)%string);
  match found with
  | None => throw "POSTGRES_EXECUTION_ORDER_INTENT_NOT_FOUND"
  | Some intent =>
      if negb (identity_matches i intent) then throw "POSTGRES_BROKER_RESULT_INTENT_MISMATCH"
      else
      existing ← select_row db_events (λ e, (event_id e =? br_eventId i)%string);
      match existing with
      | Some e =>
          if negb (event_response_fingerprint e =? br_responseFingerprint i)%string
             || negb (opt_str_eqb (event_order_id e) (Some (br_orderId i)))
             || negb (opt_str_eqb (event_intent_id e) (Some (br_orderIntentId i)))
          then throw "POSTGRES_BROKER_EVENT_REPLAY_CONFLICT"
          else _ ← recordLifecycleFingerprint i intent; mret (DuplicateResult (br_orderId i))
      | None => record_order i intent
      end
  end.

(** ** Runs *)

(** Read the tables of [d] off an equation [d = ...]. *)
Ltac tables d H :=
  destruct d; cbn in H; injection H; intros; subst; cbn in *.

(** [d'] differs from [d] in the orders table only. *)
Definition only_orders (d d' : ExecDb) : Prop := d' = set_orders (db_orders d') d.

Lemma only_orders_refl d : only_orders d d.
Proof. by destruct d. Qed.

Lemma only_orders_set x d : only_orders d (set_orders x d).
Proof. by destruct d. Qed.

Lemma only_orders_trans d1 d2 d3 : only_orders d1 d2 → only_orders d2 d3 → only_orders d1 d3.
Proof. unfold only_orders. intros -> ->. by destruct d1. Qed.

(** No stored fill shrinks and no order changes its identity. *)
Definition fills_kept (d d' : ExecDb) : Prop :=
  ∀ o, In o (db_orders d) → ∃ o', In o' (db_orders d') ∧
    order_id o' = order_id o ∧ order_intent_id o' = order_intent_id o ∧
    order_account_id o' = order_account_id o ∧
    order_client_order_id o' = order_client_order_id o ∧
    (order_filled_quantity o <= order_filled_quantity o')%Q.

Lemma fills_kept_refl d : fills_kept d d.
Proof. intros o Ho. exists o. split_and!; [done..|lra]. Qed.

Lemma fills_kept_trans d1 d2 d3 : fills_kept d1 d2 → fills_kept d2 d3 → fills_kept d1 d3.
Proof.
  intros H1 H2 o Ho. destruct (H1 o Ho) as (o1 & Ho1 & E1 & E2 & E3 & E4 & Hq1).
  destruct (H2 o1 Ho1) as (o2 & Ho2 & F1 & F2 & F3 & F4 & Hq2).
  exists o2. split_and!; [done|congruence..|lra].
Qed.

Lemma fills_kept_update p f d :
  (∀ o, order_id (f o) = order_id o ∧ order_intent_id (f o) = order_intent_id o ∧
        order_account_id (f o) = order_account_id o ∧
        order_client_order_id (f o) = order_client_order_id o ∧
        (order_filled_quantity o <= order_filled_quantity (f o))%Q) →
  fills_kept d (set_orders (update_where p f (db_orders d)) d).
Proof.
  intros Hf o Ho. exists (if p o then f o else o). split.
  - cbn. apply update_where_In. eauto.
  - destruct (p o); [apply Hf|]. split_and!; [done..|lra].
Qed.

Lemma upsert_order_spec new d u d' :
  upsert_order new d = Ret (u, d') → only_orders d d' ∧ fills_kept d d' ∧
  (select_one (same_client_order new) (db_orders d) = None → In new (db_orders d')).
Proof.
  unfold upsert_order. destruct (select_one _ _) as [old|] eqn:E.
  - case_match; [done|]. case_match; [|done]. intros [= <- <-].
    split_and!; [apply only_orders_set| |done].
    apply fills_kept_update. intros o. cbn. split_and!; [done..|]. apply Q.le_max_l.
  - intros (_ & _ & ->)%insert_row_Ret. split_and!; [apply only_orders_set| |].
    + intros o Ho. exists o. split_and!; [|done..|lra]. cbn. apply in_or_app. by left.
    + intros _. cbn. apply in_or_app. right. by left.
Qed.

Lemma require_order_Ret id d u d' :
  require_order id d = Ret (u, d') → d' = d ∧ ∃ o, In o (db_orders d) ∧ order_id o = id.
Proof.
  unfold require_order. destruct (existsb _ _) eqn:E; [|done]. intros [= <- <-].
  apply existsb_exists in E as (o & Ho & He%String.eqb_eq). eauto.
Qed.

Lemma link_replaced_spec i stored d u d' :
  link_replaced i stored d = Ret (u, d') → only_orders d d' ∧ fills_kept d d'.
Proof.
  unfold link_replaced. intros H. destruct stored as [o|];
    [|injection H as <- <-; split; [apply only_orders_refl|apply fills_kept_refl]].
  destruct (is_replacement _ _);
    [|injection H as <- <-; split; [apply only_orders_refl|apply fills_kept_refl]].
  tx_step H as u1 d1 E1. apply require_order_Ret in E1 as [-> _].
  tx_step H as n d2 E2. apply update_rows_Ret in E2 as (_ & -> & _).
  case_match; [|done]. injection H as <- <-. split; [apply only_orders_set|].
  apply fills_kept_update. intros x. cbn. split_and!; [done..|lra].
Qed.

(** How the money follows the intent. *)
Definition settled (intent : IntentRow) (status : IntentStatus) (now : Z) (d d' : ExecDb) : Prop :=
  (db_reservations d' = db_reservations d ∧ db_allocations d' = db_allocations d ∧
   ∀ id r, present (intent_reservation_id intent) = Some id → status ≠ IntentAmbiguous →
     In r (db_reservations d) → is_settled_reservation id r = false) ∨
  ∃ id r, present (intent_reservation_id intent) = Some id ∧ status ≠ IntentAmbiguous ∧
    In r (db_reservations d) ∧ resv_id r = id ∧ resv_status r = ReservationActive ∧
    let committed := bool_decide (status = IntentSubmitted ∨ status = IntentReconciled) in
    db_reservations d' = update_where (is_settled_reservation id)
      (settle_reservation committed now) (db_reservations d) ∧
    db_allocations d' =
      update_where (is_current_allocation (intent_account_id intent) (resv_strategy_key r))
        (settle_allocation (resv_amount r) committed now) (db_allocations d) ∧
    (∀ a, In a (db_allocations d) →
       is_current_allocation (intent_account_id intent) (resv_strategy_key r) a = true →
       allocation_checks (settle_allocation (resv_amount r) committed now a) = true).

Lemma settle_spec intent status now d u d' :
  settle intent status now d = Ret (u, d') →
  settled intent status now d d' ∧
  d' = set_allocations (db_allocations d') (set_reservations (db_reservations d') d).
Proof.
  unfold settle. intros H.
  destruct (present _) as [id|] eqn:Hid;
    [|injection H as <- <-; split; [left; by rewrite Hid|by destruct d]].
  destruct (bool_decide (status = IntentAmbiguous)) eqn:Hamb;
    [apply bool_decide_eq_true in Hamb; injection H as <- <-; split; [by left|by destruct d]|].
  apply bool_decide_eq_false in Hamb.
  tx_step H as active d1 E1. apply select_row_Ret in E1 as [-> ->].
  tx_step H as n d2 E2. apply update_rows_Ret in E2 as (_ & -> & _).
  destruct (select_one _ _) as [r|] eqn:Hsel.
  - tx_step H as n3 d3 E3. apply update_rows_Ret in E3 as (_ & -> & Hok).
    injection H as <- <-. split; [|by destruct d]. right. exists id, r.
    apply select_one_Some in Hsel as [Hr Hset].
    unfold is_settled_reservation, is_active_reservation in Hset.
    apply andb_true_iff in Hset as [He%String.eqb_eq Ha%bool_decide_eq_true].
    split_and!; done.
  - injection H as <- <-. split; [left|by destruct d]. cbn. split_and!; [|done|].
    + apply update_where_false. intros r Hr. by apply (select_one_None _ _ _ Hsel).
    + intros id' r Hid' _ Hr. assert (id' = id) as -> by congruence.
      by apply (select_one_None _ _ _ Hsel).
Qed.

(** Everything a recorded result has checked and written. *)
Record recorded (now clock : Z) (fence : SchedulerFence) (i : BrokerResultInput)
    (intent : IntentRow) (d d' : ExecDb) : Prop := {
  rec_fence : fence_accepted (fence_verdict now clock (db_leases d) fence) = true;
  rec_intent : select_one (λ r, (intent_id r =? br_orderIntentId i)%string) (db_intents d)
    = Some intent;
  rec_identity : identity_matches i intent = true;
  rec_new : select_one (λ e, (event_id e =? br_eventId i)%string) (db_events d) = None;
  rec_regression : status_regression i intent (current_order (br_orderIntentId i) d) = false;
  rec_fills : fills_kept d d';
  rec_order : ∃ o, In o (db_orders d') ∧ order_id o = br_orderId i;
  rec_events : db_events d' = db_events d ++ [new_event i intent];
  rec_intents : db_intents d' =
    update_where (λ r, (intent_id r =? br_orderIntentId i)%string)
      (settle_intent (orderIntentStatus (br_status i)) (br_receivedAt i)) (db_intents d);
  rec_money : settled intent (orderIntentStatus (br_status i)) (br_receivedAt i) d d';
  rec_fingerprint : existsb (same_fingerprint (result_fingerprint i intent)) (db_fingerprints d')
    = true;
  rec_others : db_leases d' = db_leases d ∧ db_candidates d' = db_candidates d ∧
    db_accounts d' = db_accounts d ∧ db_snapshots d' = db_snapshots d ∧
    db_positions d' = db_positions d ∧ db_risk_limits d' = db_risk_limits d ∧
    db_exposures d' = db_exposures d ∧ db_reviews d' = db_reviews d ∧
    db_confirmations d' = db_confirmations d
}.

(** A call that records nothing changes at most the fingerprint log. *)
Definition only_fingerprints (d d' : ExecDb) : Prop := d' = set_fingerprints (db_fingerprints d') d.

Lemma same_fingerprint_refl r : same_fingerprint r r = true.
Proof. unfold same_fingerprint. by rewrite !String.eqb_refl. Qed.

Lemma fingerprint_inserted r d b d' :
  insert_fingerprint r d = Ret (b, d') →
  existsb (same_fingerprint r) (db_fingerprints d') = true ∧ only_fingerprints d d'.
Proof.
  intros [(-> & _ & H)|(-> & _ & H)]%insert_fingerprint_Ret.
  - split; [done|]. by destruct d.
  - split; [|by destruct d]. cbn. rewrite existsb_app. cbn.
    by rewrite same_fingerprint_refl, orb_true_r.
Qed.

Lemma record_event_spec i intent d res d' :
  record_event i intent d = Ret (res, d') →
  select_one (λ e, (event_id e =? br_eventId i)%string) (db_events d) = None →
  res = Recorded (br_orderId i) ∧
  (∃ o, In o (db_orders d) ∧ order_id o = br_orderId i) ∧
  db_events d' = db_events d ++ [new_event i intent] ∧
  db_intents d' = update_where (λ r, (intent_id r =? br_orderIntentId i)%string)
      (settle_intent (orderIntentStatus (br_status i)) (br_receivedAt i)) (db_intents d) ∧
  settled intent (orderIntentStatus (br_status i)) (br_receivedAt i) d d' ∧
  existsb (same_fingerprint (result_fingerprint i intent)) (db_fingerprints d') = true ∧
  db_orders d' = db_orders d ∧
  (db_leases d' = db_leases d ∧ db_candidates d' = db_candidates d ∧
    db_accounts d' = db_accounts d ∧ db_snapshots d' = db_snapshots d ∧
    db_positions d' = db_positions d ∧ db_risk_limits d' = db_risk_limits d ∧
    db_exposures d' = db_exposures d ∧ db_reviews d' = db_reviews d ∧
    db_confirmations d' = db_confirmations d).
Proof.
  unfold record_event. intros H Hnew.
  tx_step H as u1 d1 E1. apply require_order_Ret in E1 as [-> Hord].
  tx_step H as w d2 E2. apply insert_unless_Ret in E2.
  destruct w; cbn [negb] in H.
  - destruct E2 as [_ (_ & _ & ->)%insert_row_Ret].
    tx_step H as n d3 E3. apply update_rows_Ret in E3 as (_ & -> & _).
    tx_step H as u4 d4 E4. apply settle_spec in E4 as [Hs E4].
    tx_step H as u5 d5 E5. apply fingerprint_inserted in E5 as [Hf E5].
    injection H as <- <-. red in E5. unfold settled in *.
    tables d5 E5. tables d4 E4. split_and!; done.
  - destruct E2 as [Hex _]. exfalso. apply existsb_exists in Hex as (e & He & Hid).
    apply (select_one_None _ _ e) in Hnew; [|done].
    unfold same_event in Hid. cbn in Hid. apply String.eqb_eq in Hid.
    cbn in Hnew. by rewrite <- Hid, String.eqb_refl in Hnew.
Qed.

Lemma record_spec now clock fence i d res d' :
  recordBrokerResult now clock fence i d = Ret (res, d') →
  only_fingerprints d d' ∧ (∀ o, res ≠ Recorded o) ∨
  res = Recorded (br_orderId i) ∧ ∃ intent, recorded now clock fence i intent d d'.
Proof.
  unfold recordBrokerResult. intros H.
  tx_step H as v d1 E1. unfold requireCurrentFence, gets in E1. injection E1 as <- <-.
  destruct (fence_accepted _) eqn:Hf; cbn [negb] in H;
    [|injection H as <- <-; left; split; [by destruct d|done]].
  tx_step H as found d1 E1. apply select_row_Ret in E1 as [-> ->].
  destruct (select_one _ (db_intents d)) as [intent|] eqn:Hint; [|done].
  destruct (identity_matches i intent) eqn:Hidm; cbn [negb] in H; [|done].
  tx_step H as existing d1 E1. apply select_row_Ret in E1 as [-> ->].
  destruct (select_one _ (db_events d)) as [e|] eqn:Hev.
  { case_match; [done|]. tx_step H as b d1 E1. apply fingerprint_inserted in E1 as [_ E1].
    injection H as <- <-. by left. }
  right. unfold record_order in H. tx_step H as stored d1 E1. injection E1 as <- <-.
  case_match; [done|]. destruct (status_regression _ _ _) eqn:Hreg; [done|].
  tx_step H as u2 d2 E2. apply upsert_order_spec in E2 as (Ho2 & Hf2 & _).
  tx_step H as u3 d3 E3. apply link_replaced_spec in E3 as (Ho3 & Hf3).
  pose proof (only_orders_trans _ _ _ Ho2 Ho3) as Ho. red in Ho.
  pose proof (fills_kept_trans _ _ _ Hf2 Hf3) as Hfk. clear Ho2 Ho3 Hf2 Hf3.
  tables d3 Ho.
  apply record_event_spec in H; [|done].
  destruct H as (-> & Hord & He & Hi & Hs & Hfp & Hos & Hoth). split; [done|].
  exists intent. split; try done.
  - intros o Hin. destruct (Hfk o Hin) as (o' & Hin' & Hrest). exists o'.
    split; [|done]. by rewrite Hos.
  - by rewrite Hos.
Qed.

(** ** Properties *)

Lemma select_one_update {R} (q p : R → bool) (f : R → R) t r :
  (∀ x, q (f x) = q x) → select_one q t = Some r →
  select_one q (update_where p f t) = Some (if p r then f r else r).
Proof.
  intros Hq. unfold select_one, update_where. induction t as [|x t IH]; [done|]. simpl.
  replace (q (if p x then f x else x)) with (q x) by (by destruct (p x); rewrite ?Hq).
  destruct (q x); [by intros [= ->]|done].
Qed.

Lemma select_one_app_new {R} (q : R → bool) t r :
  select_one q t = None → q r = true → select_one q (t ++ [r]) = Some r.
Proof.
  unfold select_one. induction t as [|x t IH]; simpl; [by intros _ ->|].
  destruct (q x); [done|auto].
Qed.

Lemma insert_fingerprint_present r d :
  existsb (same_fingerprint r) (db_fingerprints d) = true →
  insert_fingerprint r d = Ret (false, d).
Proof. unfold insert_fingerprint, insert_unless. by intros ->. Qed.

(** The row of the intent after a recorded result. *)
Lemma recorded_intent now clock fence i intent d d' :
  recorded now clock fence i intent d d' →
  select_one (λ r, (intent_id r =? br_orderIntentId i)%string) (db_intents d') =
  Some (settle_intent (orderIntentStatus (br_status i)) (br_receivedAt i) intent).
Proof.
  intros Hrec. rewrite (rec_intents _ _ _ _ _ _ _ Hrec).
  pose proof (rec_intent _ _ _ _ _ _ _ Hrec) as Hsel.
  rewrite (select_one_update _ _ _ _ intent); [|done|done].
  apply select_one_Some in Hsel as [_ Hid]. by rewrite Hid.
Qed.

(** Delivering a broker result twice is harmless.  After a result has been
    recorded, the same result under any current fence is answered as a
    duplicate and changes no table at all; the same event with another content,
    order or intent is refused. *)
Theorem broker_result_replay now clock fence i d o d' now' clock' fence' :
  recordBrokerResult now clock fence i d = Ret (Recorded o, d') →
  fence_accepted (fence_verdict now' clock' (db_leases d') fence') = true →
  recordBrokerResult now' clock' fence' i d' = Ret (DuplicateResult o, d') ∧
  ∀ i' r d2, br_eventId i' = br_eventId i →
    recordBrokerResult now' clock' fence' i' d' = Ret (r, d2) →
    br_responseFingerprint i' = br_responseFingerprint i ∧ br_orderId i' = br_orderId i ∧
    br_orderIntentId i' = br_orderIntentId i.
Proof.
  intros [[_ H]|[Ho [intent Hrec]]]%record_spec Hf; [by destruct (H o)|].
  injection Ho as ->.
  assert (Hev : select_one (λ e, (event_id e =? br_eventId i)%string) (db_events d') =
    Some (new_event i intent)).
  { rewrite (rec_events _ _ _ _ _ _ _ Hrec). apply select_one_app_new;
      [apply Hrec|]. apply String.eqb_refl. }
  split.
  - unfold recordBrokerResult, mbind, tx_bind, requireCurrentFence, gets, leases_of,
      ExecDb_HasLeases. rewrite Hf. cbn [negb]. unfold select_row, gets.
    rewrite (recorded_intent _ _ _ _ _ _ _ Hrec).
    replace (identity_matches i (settle_intent _ _ intent)) with true
      by (symmetry; apply Hrec). cbn [negb].
    rewrite Hev. cbn [new_event event_response_fingerprint event_order_id event_intent_id].
    unfold opt_str_eqb. rewrite String.eqb_refl, !bool_decide_eq_true_2 by done. cbn [negb orb].
    unfold recordLifecycleFingerprint. rewrite insert_fingerprint_present; [done|].
    exact (rec_fingerprint _ _ _ _ _ _ _ Hrec).
  - intros i' r d2 Hid H. unfold recordBrokerResult in H.
    tx_step H as v d1 E1. unfold requireCurrentFence, gets in E1. injection E1 as <- <-.
    unfold leases_of, ExecDb_HasLeases in H. rewrite Hf in H. cbn [negb] in H.
    tx_step H as found d1 E1. apply select_row_Ret in E1 as [-> ->].
    destruct (select_one _ (db_intents d')) as [x|]; [|done].
    destruct (identity_matches i' x); [|done]. cbn [negb] in H.
    tx_step H as existing d1 E1. apply select_row_Ret in E1 as [-> ->].
    rewrite Hid, Hev in H. case_match eqn:E; [done|].
    rewrite !orb_false_iff, !negb_false_iff in E. unfold opt_str_eqb in E.
    rewrite !bool_decide_eq_true, String.eqb_eq in E. cbn in E.
    destruct E as [[E1 E2] E3]. split_and!; congruence.
Qed.

(** Broker results never move an order or an intent backwards.  Whatever
    result is recorded or replayed, every stored order keeps its identity and
    its filled quantity does not shrink, and an intent that has reached a
    terminal status (reconciled, failed or cancelled) keeps it. *)
Theorem broker_results_never_regress now clock fence i d r d' :
  NoDup (map intent_id (db_intents d)) →
  recordBrokerResult now clock fence i d = Ret (r, d') →
  fills_kept d d' ∧
  (∀ x, In x (db_intents d) → terminal_intent (intent_status x) = true →
     ∃ x', In x' (db_intents d') ∧ intent_id x' = intent_id x ∧
           intent_status x' = intent_status x) ∧
  (∀ x, In x (db_intents d) → intent_id x ≠ br_orderIntentId i → In x (db_intents d')).
Proof.
  intros Hnd [[Hof _]|[-> [intent Hrec]]]%record_spec.
  { assert (db_orders d' = db_orders d) as Ho by (by rewrite Hof).
    assert (db_intents d' = db_intents d) as Hi by (by rewrite Hof).
    unfold fills_kept. rewrite Ho, Hi. split_and!; [apply fills_kept_refl|by eauto|done]. }
  split_and!; [apply Hrec| |].
  - intros x Hx Ht. rewrite (rec_intents _ _ _ _ _ _ _ Hrec).
    pose proof (rec_intent _ _ _ _ _ _ _ Hrec) as Hsel.
    apply select_one_Some in Hsel as [Hin Hid%String.eqb_eq].
    destruct (intent_id x =? br_orderIntentId i)%string eqn:E.
    + apply String.eqb_eq in E.
      assert (x = intent) as -> by (eapply (unique_key intent_id); [done..|congruence]).
      exists (settle_intent (orderIntentStatus (br_status i)) (br_receivedAt i) intent).
      split_and!; [|done|].
      * apply update_where_In. exists intent. by rewrite E, String.eqb_refl.
      * pose proof (rec_regression _ _ _ _ _ _ _ Hrec) as Hreg. unfold status_regression in Hreg.
        rewrite !orb_false_iff, Ht in Hreg. destruct Hreg as [[_ Hreg] _]. cbn in Hreg.
        apply negb_false_iff, bool_decide_eq_true in Hreg. done.
    + exists x. split_and!; [|done..]. apply update_where_In. exists x. by rewrite E.
  - intros x Hx Hne. rewrite (rec_intents _ _ _ _ _ _ _ Hrec).
    apply update_where_In. exists x. split; [done|].
    by apply String.eqb_neq in Hne as ->.
Qed.

(** ** Live orders that are given up *)

(** A failed intent's active reservation is released by the settlement. *)
Lemma settled_releases intent now d d' id r :
  settled intent IntentFailed now d d' →
  present (intent_reservation_id intent) = Some id → In r (db_reservations d) →
  resv_id r = id → resv_status r = ReservationActive →
  ∃ r', In r' (db_reservations d') ∧ resv_id r' = id ∧ resv_amount r' = resv_amount r ∧
        resv_status r' = ReservationReleased.
Proof.
  intros Hset Hid Hr Hrid Hact.
  assert (Hp : is_settled_reservation id r = true).
  { unfold is_settled_reservation, is_active_reservation.
    by rewrite Hrid, String.eqb_refl, bool_decide_eq_true_2. }
  destruct Hset as [(_ & _ & Hno)|(id' & r0 & Hid' & _ & _ & _ & _ & Hres & _)].
  - rewrite (Hno id r Hid) in Hp; done.
  - assert (id' = id) as -> by congruence.
    exists (settle_reservation false now r). split_and!; [|done..].
    rewrite Hres. apply update_where_In. exists r. by rewrite Hp.
Qed.

(** The statuses that keep an intent submitted. *)
Definition submitted_statuses : list string :=
  ["new"; "accepted"; "pending_new"; "partially_filled"]%string.

Lemma live_status_failed status :
  let c := classifyBrokerOrderStatus (Some status) in
  known c = true → active c = true → ¬ In (normalized c) submitted_statuses →
  orderIntentStatus status = IntentFailed.
Proof.
  intros c Hk Ha Hn. apply classify_active in Ha as [_ Ht].
  pose proof (classify_known_active (Some status) Hk Ht) as Hin. fold c in Hin.
  unfold orderIntentStatus. change (to_lower (trim status)) with (normalized c).
  clearbody c. generalize dependent (normalized c). clear c Hk Ht status. intros n Hn Hin.
  unfold KNOWN_ACTIVE_BROKER_ORDER_STATUSES in Hin. unfold submitted_statuses in Hn.
  repeat destruct Hin as [<-|Hin]; try done; destruct Hn; simpl; tauto.
Qed.

(** A live order whose broker status is held, pending_cancel, done_for_day
    or any other known active status outside the four submitted ones is given
    up: the status classification calls the order active, but recording the
    result marks its intent failed and releases its active reservation, and a
    later result that reports anything else, such as a fill, is never
    recorded. *)
Theorem live_order_given_up now clock fence i d o d' :
  let c := classifyBrokerOrderStatus (Some (br_status i)) in
  known c = true → ¬ In (normalized c) submitted_statuses →
  recordBrokerResult now clock fence i d = Ret (Recorded o, d') →
  isActiveBrokerOrderStatus (Some (br_status i)) = true →
  (∃ x, select_one (λ r, (intent_id r =? br_orderIntentId i)%string) (db_intents d') = Some x ∧
     intent_status x = IntentFailed ∧
     ∀ id r, present (intent_reservation_id x) = Some id → In r (db_reservations d) →
       resv_id r = id → resv_status r = ReservationActive →
       ∃ r', In r' (db_reservations d') ∧ resv_id r' = id ∧ resv_amount r' = resv_amount r ∧
             resv_status r' = ReservationReleased) ∧
  ∀ now' clock' fence' i' o' d2,
    br_orderIntentId i' = br_orderIntentId i → orderIntentStatus (br_status i') ≠ IntentFailed →
    recordBrokerResult now' clock' fence' i' d' ≠ Ret (Recorded o', d2).
Proof.
  intros c Hk Hn Hrun Ha.
  pose proof (live_status_failed (br_status i) Hk Ha Hn) as Hst. clearbody c. clear Hk Ha Hn.
  apply record_spec in Hrun as [[_ H]|[_ [intent Hrec]]]; [by destruct (H o)|].
  pose proof (recorded_intent _ _ _ _ _ _ _ Hrec) as Hint. rewrite Hst in Hint. split.
  - exists (settle_intent IntentFailed (br_receivedAt i) intent).
    split_and!; [done..|]. intros id r Hid Hr Hrid Hra.
    pose proof (rec_money _ _ _ _ _ _ _ Hrec) as Hm. rewrite Hst in Hm.
    cbn in Hid. eapply settled_releases; eauto.
  - intros now' clock' fence' i' o' d2 Hsame Hne H.
    apply record_spec in H as [[_ H]|[_ [intent' Hrec']]]; [by destruct (H o')|].
    pose proof (rec_intent _ _ _ _ _ _ _ Hrec') as Hint'. rewrite Hsame, Hint in Hint'.
    injection Hint' as <-.
    pose proof (rec_regression _ _ _ _ _ _ _ Hrec') as Hreg. unfold status_regression in Hreg.
    rewrite !orb_false_iff in Hreg. destruct Hreg as [[_ Hreg] _]. cbn in Hreg.
    apply negb_false_iff, bool_decide_eq_true in Hreg. done.
Qed.
