(* ===== verification/ExecutionEvidence.v ===== *)
(** Storing reviews, confirmations and lifecycle fingerprints:
    upsertExecutionEvidence of
    src/repositories/postgres/postgresExecutionStateRepository.ts.

    Each of the three records is inserted unless it is there already; then the
    stored record must equal the input, a consumed one counting as the usable
    one it was. *)

From S2P Require Import Prelude.
From S2P Require Import JsString.
From S2P Require Import SchedulerLease.
From S2P Require Import ExecutionTables.
From S2P Require Import ExecutionReservation.
Open Scope Z_scope.

Inductive EvidenceResult : Type :=
| EvidenceStored
| EvidenceFenceRejected (currentFencingToken : option string).

Definition new_review (i : ExecutionEvidenceInput) (candidate : option string) : ReviewRow :=
  {| review_input := ev_review i; review_account_id := ev_accountId i;
     review_candidate_id := candidate; review_status := rv_status (ev_review i);
     review_consumed_at := None; review_version := 1;
     review_updated_at := rv_createdAt (ev_review i) |}.

Definition same_review (a b : ReviewRow) : bool :=
  (rv_id (review_input a) =? rv_id (review_input b))%string.

(** The primary key and the unique keys of execution_reviews. *)
Definition review_conflicts (a b : ReviewRow) : bool :=
  same_review a b
  || (review_account_id a =? review_account_id b)%string
     && ((rv_payloadFingerprint (review_input a) =? rv_payloadFingerprint (review_input b))%string
         || is_some_bool (rv_clientOrderId (review_input a))
            && opt_str_eqb (rv_clientOrderId (review_input a)) (rv_clientOrderId (review_input b))).

Definition new_review_checks (r : ReviewRow) : bool :=
  btrim_nonempty (rv_id (review_input r))
  && btrim_nonempty (rv_payloadFingerprint (review_input r))
  && (rv_createdAt (review_input r) <? rv_expiresAt (review_input r)).

(** [status = $5 OR (status = 'consumed' AND $5 IN ('created', 'valid'))]. *)
Definition review_status_matches (stored input : ReviewStatus) : bool :=
  bool_decide (stored = input)
  || bool_decide (stored = ReviewConsumed)
     && bool_decide (input = ReviewCreated ∨ input = ReviewValid).

Definition review_content_matches (a b : ReviewInput) : bool :=
  bool_decide (rv_reviewType a = rv_reviewType b)
  && opt_str_eqb (rv_clientOrderId a) (rv_clientOrderId b)
  && (rv_accountFingerprint a =? rv_accountFingerprint b)%string
  && opt_str_eqb (rv_sourceRecommendationId a) (rv_sourceRecommendationId b)
  && opt_str_eqb (rv_sourceSnapshotId a) (rv_sourceSnapshotId b)
  && (rv_configurationFingerprint a =? rv_configurationFingerprint b)%string
  && (rv_payloadFingerprint a =? rv_payloadFingerprint b)%string
  && (rv_signatureAlgorithm a =? rv_signatureAlgorithm b)%string
  && (rv_signature a =? rv_signature b)%string
  && (rv_orderIntent a =? rv_orderIntent b)%string
  && (rv_marketEvidence a =? rv_marketEvidence b)%string
  && (rv_portfolioEvidence a =? rv_portfolioEvidence b)%string
  && (rv_warnings a =? rv_warnings b)%string && (rv_blockers a =? rv_blockers b)%string
  && opt_str_eqb (rv_requestId a) (rv_requestId b)
  && opt_str_eqb (rv_correlationId a) (rv_correlationId b)
  && (rv_expiresAt a =? rv_expiresAt b) && (rv_createdAt a =? rv_createdAt b).

Definition review_replay_matches (new stored : ReviewRow) : bool :=
  (review_account_id stored =? review_account_id new)%string
  && opt_str_eqb (review_candidate_id stored) (review_candidate_id new)
  && review_status_matches (review_status stored) (review_status new)
  && review_content_matches (review_input stored) (review_input new).

(** A write that found a row in place must find the same content there:
    [replay.rows[0]?.matches !== true] throws. *)
Definition require_match (written : bool) (matches : option bool) (code : string)
    : tx ExecDb unit :=
  if written then mret tt
  else match matches with Some true => mret tt | _ => throw code end.

Definition store_review (r : ReviewRow) : tx ExecDb unit :=
  written ← insert_unless same_review review_conflicts new_review_checks db_reviews set_reviews r;
  stored ← select_row db_reviews (same_review r);
  require_match written (option_map (review_replay_matches r) stored)
    "POSTGRES_EXECUTION_REVIEW_REPLAY_CONFLICT".

Definition new_confirmation (i : ExecutionEvidenceInput) (candidate : option string)
    : ConfirmationRow :=
  {| conf_input := ev_confirmation i; conf_review_id := rv_id (ev_review i);
     conf_account_id := ev_accountId i; conf_candidate_id := candidate;
     conf_status := cf_status (ev_confirmation i); conf_consumed_at := None;
     conf_version := 1; conf_updated_at := cf_confirmedAt (ev_confirmation i) |}.

(** The conflict target is (execution_review_id, payload_fingerprint). *)
Definition same_confirmation (a b : ConfirmationRow) : bool :=
  (conf_review_id a =? conf_review_id b)%string
  && (cf_payloadFingerprint (conf_input a) =? cf_payloadFingerprint (conf_input b))%string.

Definition same_confirmation_id (a b : ConfirmationRow) : bool :=
  (cf_id (conf_input a) =? cf_id (conf_input b))%string.

Definition confirmation_conflicts (a b : ConfirmationRow) : bool :=
  same_confirmation_id a b || same_confirmation a b.

Definition new_confirmation_checks (c : ConfirmationRow) : bool :=
  btrim_nonempty (cf_id (conf_input c)) && btrim_nonempty (cf_payloadFingerprint (conf_input c))
  && Bool.eqb (is_some_bool (cf_signatureAlgorithm (conf_input c)))
       (is_some_bool (cf_signature (conf_input c)))
  && (cf_confirmedAt (conf_input c) <? cf_expiresAt (conf_input c)).

Definition confirmation_status_matches (stored input : ConfirmationStatus) : bool :=
  bool_decide (stored = input)
  || bool_decide (stored = ConfirmationConsumed) && bool_decide (input = ConfirmationValid).

Definition confirmation_content_matches (a b : ConfirmationInput) : bool :=
  (cf_evidenceType a =? cf_evidenceType b)%string
  && (cf_confirmationMethod a =? cf_confirmationMethod b)%string
  && (cf_payloadFingerprint a =? cf_payloadFingerprint b)%string
  && opt_str_eqb (cf_signatureAlgorithm a) (cf_signatureAlgorithm b)
  && opt_str_eqb (cf_signature a) (cf_signature b)
  && (cf_evidence a =? cf_evidence b)%string
  && (cf_confirmedAt a =? cf_confirmedAt b) && (cf_expiresAt a =? cf_expiresAt b).

Definition confirmation_replay_matches (new stored : ConfirmationRow) : bool :=
  (conf_review_id stored =? conf_review_id new)%string
  && (conf_account_id stored =? conf_account_id new)%string
  && opt_str_eqb (conf_candidate_id stored) (conf_candidate_id new)
  && confirmation_status_matches (conf_status stored) (conf_status new)
  && confirmation_content_matches (conf_input stored) (conf_input new).

Definition store_confirmation (c : ConfirmationRow) : tx ExecDb unit :=
  written ← insert_unless same_confirmation confirmation_conflicts new_confirmation_checks
              db_confirmations set_confirmations c;
  stored ← select_row db_confirmations (same_confirmation_id c);
  require_match written (option_map (confirmation_replay_matches c) stored)
    "POSTGRES_CONFIRMATION_EVIDENCE_REPLAY_CONFLICT".

Definition evidence_fingerprint (i : ExecutionEvidenceInput) (candidate : option string)
    : FingerprintRow :=
  let l := ev_lifecycleFingerprint i in
  {| fp_id := lf_id l; fp_account_id := Some (ev_accountId i); fp_candidate_id := candidate;
     fp_order_intent_id := None; fp_entity_type := lf_entityType l; fp_entity_id := lf_entityId l;
     fp_stage := lf_lifecycleStage l; fp_value := lf_fingerprint l;
     fp_payload_version := lf_payloadVersion l; fp_evidence := lf_evidence l;
     fp_request_id := lf_requestId l; fp_correlation_id := lf_correlationId l;
     fp_captured_at := lf_capturedAt l |}.

Definition fingerprint_replay_matches (new stored : FingerprintRow) : bool :=
  opt_str_eqb (fp_account_id stored) (fp_account_id new)
  && opt_str_eqb (fp_candidate_id stored) (fp_candidate_id new)
  && same_fingerprint new stored
  && (fp_payload_version stored =? fp_payload_version new)
  && (fp_evidence stored =? fp_evidence new)%string
  && opt_str_eqb (fp_request_id stored) (fp_request_id new)
  && opt_str_eqb (fp_correlation_id stored) (fp_correlation_id new)
  && (fp_captured_at stored =? fp_captured_at new).

Definition store_fingerprint (r : FingerprintRow) : tx ExecDb unit :=
  written ← insert_fingerprint r;
  stored ← select_row db_fingerprints (λ x, (fp_id x =? fp_id r)%string);
  require_match written (option_map (fingerprint_replay_matches r) stored)
    "POSTGRES_LIFECYCLE_FINGERPRINT_REPLAY_CONFLICT".

Definition upsertExecutionEvidence (now clock : Z) (fence : SchedulerFence)
    (i : ExecutionEvidenceInput) : tx ExecDb EvidenceResult :=
  verdict ← requireCurrentFence now clock fence;
  if negb (fence_accepted verdict) then mret (EvidenceFenceRejected (rejected_token verdict))
  else
  candidate ← known_candidate (ev_candidateId i);
  _ ← store_review (new_review i candidate);
  _ ← store_confirmation (new_confirmation i candidate);
  _ ← store_fingerprint (evidence_fingerprint i candidate);
  mret EvidenceStored.

(** ** Replays *)

Lemma require_match_Ret written m code d u d' :
  require_match written m code d = Ret (u, d') →
  d' = d ∧ (written = false → m = Some true).
Proof.
  unfold require_match. destruct written; [by intros [= _ <-]|].
  destruct m as [[]|]; [by intros [= _ <-]|done..].
Qed.

(** A record is in place and equal to the one uploaded. *)
Definition review_in_place (r : ReviewRow) (rows : list ReviewRow) : Prop :=
  existsb (same_review r) rows = true ∧
  option_map (review_replay_matches r) (select_one (same_review r) rows) = Some true.

Definition confirmation_in_place (c : ConfirmationRow) (rows : list ConfirmationRow) : Prop :=
  existsb (same_confirmation c) rows = true ∧
  option_map (confirmation_replay_matches c) (select_one (same_confirmation_id c) rows)
    = Some true.

Definition fingerprint_in_place (r : FingerprintRow) (rows : list FingerprintRow) : Prop :=
  existsb (same_fingerprint r) rows = true ∧
  option_map (fingerprint_replay_matches r)
    (select_one (λ x, (fp_id x =? fp_id r)%string) rows) = Some true.

Lemma opt_str_eqb_refl a : opt_str_eqb a a = true.
Proof. unfold opt_str_eqb. by rewrite bool_decide_eq_true_2. Qed.

Lemma review_replay_matches_refl r : review_replay_matches r r = true.
Proof.
  unfold review_replay_matches, review_status_matches, review_content_matches.
  rewrite !String.eqb_refl, !opt_str_eqb_refl, !Z.eqb_refl.
  by rewrite (bool_decide_eq_true_2 (rv_reviewType _ = _)), (bool_decide_eq_true_2 (review_status _ = _)).
Qed.

Lemma confirmation_replay_matches_refl c : confirmation_replay_matches c c = true.
Proof.
  unfold confirmation_replay_matches, confirmation_status_matches, confirmation_content_matches.
  rewrite !String.eqb_refl, !opt_str_eqb_refl, !Z.eqb_refl.
  by rewrite (bool_decide_eq_true_2 (conf_status _ = _)).
Qed.

Lemma fingerprint_replay_matches_refl r : fingerprint_replay_matches r r = true.
Proof.
  unfold fingerprint_replay_matches, same_fingerprint.
  by rewrite !String.eqb_refl, !opt_str_eqb_refl, !Z.eqb_refl.
Qed.

(** Looking up a row that has just been appended to rows without its key. *)
Lemma select_appended {R} (q p : R → bool) t r :
  (∀ x, q x = true → p x = true) → existsb p t = false → q r = true →
  select_one q (t ++ [r]) = Some r.
Proof.
  unfold select_one. intros Hqp. induction t as [|x t IH]; simpl; [by intros _ ->|].
  intros [Hx Ht]%orb_false_iff Hr. destruct (q x) eqn:E; [|auto].
  apply Hqp in E. congruence.
Qed.

Lemma existsb_appended {R} (p : R → bool) t r : p r = true → existsb p (t ++ [r]) = true.
Proof. intros H. rewrite existsb_app. simpl. by rewrite H, orb_true_r. Qed.

Lemma store_review_in_place r d u d' :
  store_review r d = Ret (u, d') → review_in_place r (db_reviews d').
Proof.
  unfold store_review. intros H. tx_step H as w d1 E1. tx_step H as s d2 E2.
  apply select_row_Ret in E2 as [-> ->]. apply require_match_Ret in H as [-> Hm].
  apply insert_unless_Ret in E1. destruct w.
  - destruct E1 as [Hno (_ & _ & ->)%insert_row_Ret]. unfold review_in_place. cbn.
    assert (Hself : same_review r r = true) by apply String.eqb_refl.
    rewrite existsb_appended, (select_appended _ (same_review r)) by done.
    cbn. by rewrite review_replay_matches_refl.
  - destruct E1 as [Hex ->]. split; auto.
Qed.

Lemma store_review_again r d :
  review_in_place r (db_reviews d) → store_review r d = Ret (tt, d).
Proof.
  intros [Hex Hm]. unfold store_review, mbind, tx_bind, insert_unless.
  rewrite Hex. unfold select_row, gets. by rewrite Hm.
Qed.

Lemma store_confirmation_in_place c d u d' :
  store_confirmation c d = Ret (u, d') → confirmation_in_place c (db_confirmations d').
Proof.
  unfold store_confirmation. intros H. tx_step H as w d1 E1. tx_step H as s d2 E2.
  apply select_row_Ret in E2 as [-> ->]. apply require_match_Ret in H as [-> Hm].
  apply insert_unless_Ret in E1. destruct w.
  - destruct E1 as [_ (Hno & _ & ->)%insert_row_Ret]. unfold confirmation_in_place. cbn.
    rewrite existsb_appended by (unfold same_confirmation; by rewrite !String.eqb_refl).
    rewrite (select_appended _ (confirmation_conflicts c)); [|..].
    + cbn. by rewrite confirmation_replay_matches_refl.
    + intros x Hx. unfold confirmation_conflicts. by rewrite Hx.
    + done.
    + apply String.eqb_refl.
  - destruct E1 as [Hex ->]. split; auto.
Qed.

Lemma store_confirmation_again c d :
  confirmation_in_place c (db_confirmations d) → store_confirmation c d = Ret (tt, d).
Proof.
  intros [Hex Hm]. unfold store_confirmation, mbind, tx_bind, insert_unless.
  rewrite Hex. unfold select_row, gets. by rewrite Hm.
Qed.

Lemma store_fingerprint_in_place r d u d' :
  store_fingerprint r d = Ret (u, d') → fingerprint_in_place r (db_fingerprints d').
Proof.
  unfold store_fingerprint, insert_fingerprint. intros H. tx_step H as w d1 E1.
  tx_step H as s d2 E2.
  apply select_row_Ret in E2 as [-> ->]. apply require_match_Ret in H as [-> Hm].
  apply insert_unless_Ret in E1. destruct w.
  - destruct E1 as [_ (Hno & _ & ->)%insert_row_Ret]. unfold fingerprint_in_place. cbn.
    rewrite existsb_appended by (unfold same_fingerprint; by rewrite !String.eqb_refl).
    rewrite (select_appended _ (fingerprint_conflicts r)); [|..].
    + cbn. by rewrite fingerprint_replay_matches_refl.
    + intros x Hx%String.eqb_eq. unfold fingerprint_conflicts. by rewrite Hx, String.eqb_refl.
    + done.
    + apply String.eqb_refl.
  - destruct E1 as [Hex ->]. split; auto.
Qed.

Lemma store_fingerprint_again r d :
  fingerprint_in_place r (db_fingerprints d) → store_fingerprint r d = Ret (tt, d).
Proof.
  intros [Hex Hm]. unfold store_fingerprint, insert_fingerprint, mbind, tx_bind, insert_unless.
  rewrite Hex. unfold select_row, gets. by rewrite Hm.
Qed.

(** Consuming a usable review or confirmation keeps it in place. *)
Lemma select_consumed {R} (q p : R → bool) (f : R → R) t :
  (∀ r, q (f r) = q r) →
  select_one q (update_where p f t) =
  option_map (λ r, if p r then f r else r) (select_one q t).
Proof.
  intros Hf. unfold select_one, update_where. induction t as [|r t IH]; [done|]. simpl.
  assert (q (if p r then f r else r) = q r) as -> by (destruct (p r); auto).
  by destruct (q r).
Qed.

Lemma existsb_consumed {R} (q p : R → bool) (f : R → R) t :
  (∀ r, q (f r) = q r) → existsb q (update_where p f t) = existsb q t.
Proof.
  intros Hf. unfold update_where. induction t as [|r t IH]; simpl; [done|].
  rewrite IH. by destruct (p r); rewrite ?Hf.
Qed.

Lemma review_in_place_consumed r rows p now :
  rv_status (review_input r) = ReviewCreated ∨ rv_status (review_input r) = ReviewValid →
  review_status r = rv_status (review_input r) →
  review_in_place r rows → review_in_place r (update_where p (consume_review now) rows).
Proof.
  intros Hst Hr [Hex Hm]. split; [by rewrite existsb_consumed|].
  rewrite select_consumed by done. destruct (select_one _ rows) as [x|]; [|done]. cbn in *.
  destruct (p x); [|done]. injection Hm as Hm. f_equal.
  unfold review_replay_matches, review_status_matches in *. cbn.
  rewrite !andb_true_iff in Hm. destruct Hm as [[[-> ->] _] ->].
  rewrite Hr. rewrite (bool_decide_eq_true_2 _ Hst), orb_true_r. done.
Qed.

Lemma confirmation_in_place_consumed c rows p now :
  conf_status c = ConfirmationValid →
  confirmation_in_place c rows →
  confirmation_in_place c (update_where p (consume_confirmation now) rows).
Proof.
  intros Hst [Hex Hm]. split; [by rewrite existsb_consumed|].
  rewrite select_consumed by done. destruct (select_one _ rows) as [x|]; [|done]. cbn in *.
  destruct (p x); [|done]. injection Hm as Hm. f_equal.
  unfold confirmation_replay_matches, confirmation_status_matches in *. cbn.
  rewrite !andb_true_iff in Hm. destruct Hm as [[[[-> ->] ->] _] ->].
  by rewrite Hst.
Qed.

(** All three records of an upload are in place. *)
Definition evidence_in_place (i : ExecutionEvidenceInput) (candidate : option string)
    (d : ExecDb) : Prop :=
  review_in_place (new_review i candidate) (db_reviews d) ∧
  confirmation_in_place (new_confirmation i candidate) (db_confirmations d) ∧
  fingerprint_in_place (evidence_fingerprint i candidate) (db_fingerprints d).

Lemma keeps_store_review {B} (f : ExecDb → B) r :
  (∀ x d, f (set_reviews x d) = f d) → keeps f (store_review r).
Proof. intros Hset. unfold store_review, require_match. auto 20 with tx. Qed.

Lemma keeps_store_confirmation {B} (f : ExecDb → B) c :
  (∀ x d, f (set_confirmations x d) = f d) → keeps f (store_confirmation c).
Proof. intros Hset. unfold store_confirmation, require_match. auto 20 with tx. Qed.

Lemma keeps_store_fingerprint {B} (f : ExecDb → B) r :
  (∀ x d, f (set_fingerprints x d) = f d) → keeps f (store_fingerprint r).
Proof.
  intros Hset. unfold store_fingerprint, require_match, insert_fingerprint. auto 20 with tx.
Qed.
#[export] Hint Resolve keeps_store_review keeps_store_confirmation keeps_store_fingerprint : tx.

Lemma upload_spec now clock fence i d d' :
  upsertExecutionEvidence now clock fence i d = Ret (EvidenceStored, d') →
  ∃ candidate, known_candidate (ev_candidateId i) d' = Ret (candidate, d') ∧
    evidence_in_place i candidate d'.
Proof.
  unfold upsertExecutionEvidence. intros H.
  tx_step H as v d1 E1. apply requireCurrentFence_read_only in E1 as ->.
  destruct (fence_accepted v); cbn [negb] in H; [|done].
  tx_step H as cand d1 E1. pose proof (known_candidate_read_only _ _ _ _ E1) as ->.
  tx_step H as u2 d2 E2. tx_step H as u3 d3 E3. tx_step H as u4 d4 E4. injection H as <-.
  exists cand. pose proof (store_review_in_place _ _ _ _ E2) as P2.
  pose proof (store_confirmation_in_place _ _ _ _ E3) as P3.
  pose proof (store_fingerprint_in_place _ _ _ _ E4) as P4.
  assert (Hc : db_candidates d4 = db_candidates d).
  { rewrite (keeps_store_fingerprint db_candidates _ (λ _ _, eq_refl) _ _ _ E4).
    rewrite (keeps_store_confirmation db_candidates _ (λ _ _, eq_refl) _ _ _ E3).
    by rewrite (keeps_store_review db_candidates _ (λ _ _, eq_refl) _ _ _ E2). }
  split.
  - unfold known_candidate in *. destruct (present _); [|by injection E1 as <-].
    unfold gets in *. rewrite Hc. by injection E1 as <-.
  - split_and!; [| |done].
    + rewrite (keeps_store_fingerprint db_reviews _ (λ _ _, eq_refl) _ _ _ E4).
      by rewrite (keeps_store_confirmation db_reviews _ (λ _ _, eq_refl) _ _ _ E3).
    + by rewrite (keeps_store_fingerprint db_confirmations _ (λ _ _, eq_refl) _ _ _ E4).
Qed.

Lemma upload_again now clock fence i candidate d :
  fence_accepted (fence_verdict now clock (db_leases d) fence) = true →
  known_candidate (ev_candidateId i) d = Ret (candidate, d) →
  evidence_in_place i candidate d →
  upsertExecutionEvidence now clock fence i d = Ret (EvidenceStored, d).
Proof.
  intros Hf Hc (Hr & Hcf & Hl).
  unfold upsertExecutionEvidence, mbind, tx_bind, requireCurrentFence, gets, leases_of,
    ExecDb_HasLeases. rewrite Hf. cbn [negb]. rewrite Hc.
  by rewrite store_review_again, store_confirmation_again, store_fingerprint_again.
Qed.

(** Uploading the same evidence again is harmless: after an upload, the same
    upload under any current fence succeeds and changes nothing, also once the
    review and the confirmation have been consumed by a reservation in the
    meantime, so a retry neither fails nor makes spent evidence usable again. *)
Theorem evidence_upload_replay now clock fence i d d' now' clock' fence' :
  upsertExecutionEvidence now clock fence i d = Ret (EvidenceStored, d') →
  fence_accepted (fence_verdict now' clock' (db_leases d') fence') = true →
  upsertExecutionEvidence now' clock' fence' i d' = Ret (EvidenceStored, d') ∧
  ∀ p q t,
    rv_status (ev_review i) = ReviewCreated ∨ rv_status (ev_review i) = ReviewValid →
    cf_status (ev_confirmation i) = ConfirmationValid →
    let spent := set_confirmations (update_where q (consume_confirmation t) (db_confirmations d'))
                   (set_reviews (update_where p (consume_review t) (db_reviews d')) d') in
    upsertExecutionEvidence now' clock' fence' i spent = Ret (EvidenceStored, spent).
Proof.
  intros (cand & Hc & Hplace)%upload_spec Hf. split; [by eapply upload_again|].
  intros p q t Hrv Hcf spent. destruct Hplace as (Hr & Hcp & Hl).
  apply (upload_again _ _ _ _ cand); [done| |split_and!; [| |done]].
  - unfold known_candidate in *. destruct (present _); [|by injection Hc as <-].
    unfold gets in *. by injection Hc as <-.
  - by apply review_in_place_consumed.
  - by apply confirmation_in_place_consumed.
Qed.
