(* ===== verification/AccountSync.v ===== *)
(** Mirroring the broker account: syncAccountState and the reads
    findCurrentAccount, listActiveReservations and listBrokerReconciliationTargets
    of src/repositories/postgres/postgresExecutionStateRepository.ts. *)

From S2P Require Import Prelude.
From S2P Require Import JsString.
From S2P Require Import SchedulerLease.
From S2P Require Import ExecutionTables.
From S2P Require Import ExecutionReservation.
Open Scope Z_scope.

(** ** Reads *)

Record CurrentAccount := {
  current_accountId : string;
  current_accountSnapshotId : string;
  current_strategyKey : option string
}.

(** The greatest row under (time descending, id ascending). *)
Definition newest_first (a b : AccountRow) : bool :=
  (acct_updated_at b <? acct_updated_at a)
  || (acct_updated_at b =? acct_updated_at a) && (compare_text (acct_id a) (acct_id b) <=? 0).

(** The query joins each account with its newest snapshot and its newest active
    allocation, but its SELECT list has no [strategy_key]: the property read
    from the row is undefined. *)
Definition findCurrentAccount (d : ExecDb) : option CurrentAccount :=
  let joined := List.filter (λ '(_, s, a), is_some_bool s && is_some_bool a)
    (map (λ x,
       (x, latest snap_observed_at snap_id
             (List.filter (λ s, (snap_account_id s =? acct_id x)%string) (db_snapshots d)),
        latest alloc_updated_at alloc_id
             (List.filter (λ a, (alloc_account_id a =? acct_id x)%string
                                && current_config (alloc_status a) (alloc_effective_to a))
                (db_allocations d))))
       (sort_by newest_first (db_accounts d))) in
  match joined with
  | (x, Some s, _) :: _ =>
      Some {| current_accountId := acct_id x; current_accountSnapshotId := snap_id s;
              current_strategyKey := None |}
  | _ => None
  end.

Record ExecutionReservationState := {
  ers_symbol : string;
  ers_assetClass : ExecutionAssetClass;
  ers_side : ExecutionSide;
  ers_status : ReservationStatus;
  ers_quantity : option Q;
  ers_notional : option Q;
  ers_estimatedPremium : option Q;
  ers_limitPrice : option Q;
  ers_clientOrderId : string
}.

Definition ers_order (a b : ExecutionReservationState) : bool :=
  match compare_text (ers_symbol a) (ers_symbol b) with
  | 0 => compare_text (ers_clientOrderId a) (ers_clientOrderId b) <=? 0
  | c => c <=? 0
  end.

Definition listActiveReservations (now : Z) (d : ExecDb) : list ExecutionReservationState :=
  sort_by ers_order
    (flat_map (λ r,
       map (λ x, {| ers_symbol := resv_symbol r; ers_assetClass := resv_asset_class r;
                    ers_side := intent_side x; ers_status := resv_status r;
                    ers_quantity := intent_quantity x; ers_notional := intent_notional x;
                    ers_estimatedPremium := intent_estimated_premium x;
                    ers_limitPrice := intent_limit_price x;
                    ers_clientOrderId := intent_client_order_id x |})
         (List.filter (λ x, opt_str_eqb (intent_reservation_id x) (Some (resv_id r)))
            (db_intents d)))
       (List.filter (λ r, is_active_reservation r && (now <? resv_expires_at r))
          (db_reservations d))).

Record BrokerReconciliationTarget := {
  brt_orderIntentId : string;
  brt_orderId : option string;
  brt_accountId : string;
  brt_clientOrderId : string;
  brt_brokerOrderId : option string;
  brt_brokerClientOrderId : string;
  brt_symbol : string;
  brt_underlyingSymbol : option string;
  brt_assetClass : ExecutionAssetClass;
  brt_side : ExecutionSide;
  brt_orderType : ExecutionOrderType;
  brt_timeInForce : ExecutionTimeInForce;
  brt_quantity : option Q;
  brt_notional : option Q;
  brt_limitPrice : option Q;
  brt_stopPrice : option Q;
  brt_brokerQuantity : option Q;
  brt_brokerNotional : option Q;
  brt_brokerLimitPrice : option Q;
  brt_brokerStopPrice : option Q;
  brt_intentStatus : IntentStatus;
  brt_createdAt : Z
}.

Definition coalesce {A} (a b : option A) : option A :=
  match a with Some x => Some x | None => b end.

Definition target_of (d : ExecDb) (r : IntentRow) : BrokerReconciliationTarget :=
  let o := current_order (intent_id r) d in
  let field {A} (f : OrderRow → option A) : option A := match o with Some x => f x | None => None end in
  {| brt_orderIntentId := intent_id r; brt_orderId := option_map order_id o;
     brt_accountId := intent_account_id r; brt_clientOrderId := intent_client_order_id r;
     brt_brokerOrderId := field order_broker_order_id;
     brt_brokerClientOrderId :=
       default (intent_client_order_id r) (option_map order_client_order_id o);
     brt_symbol := intent_symbol r; brt_underlyingSymbol := intent_underlying_symbol r;
     brt_assetClass := intent_asset_class r; brt_side := intent_side r;
     brt_orderType := intent_order_type r; brt_timeInForce := intent_time_in_force r;
     brt_quantity := intent_quantity r; brt_notional := intent_notional r;
     brt_limitPrice := intent_limit_price r; brt_stopPrice := intent_stop_price r;
     brt_brokerQuantity := coalesce (field order_quantity) (intent_quantity r);
     brt_brokerNotional := coalesce (field order_notional) (intent_notional r);
     brt_brokerLimitPrice := coalesce (field order_limit_price) (intent_limit_price r);
     brt_brokerStopPrice := coalesce (field order_stop_price) (intent_stop_price r);
     brt_intentStatus := intent_status r; brt_createdAt := intent_created_at r |}.

Definition open_intent (r : IntentRow) : bool :=
  bool_decide (intent_status r = IntentReady ∨ intent_status r = IntentPending ∨
               intent_status r = IntentSubmitted ∨ intent_status r = IntentAmbiguous).

Definition older_intent (a b : IntentRow) : bool :=
  (intent_created_at a <? intent_created_at b)
  || (intent_created_at a =? intent_created_at b)
     && (compare_text (intent_id a) (intent_id b) <=? 0).

Definition listBrokerReconciliationTargets (now clock : Z) (fence : SchedulerFence)
    : tx ExecDb (option string + list BrokerReconciliationTarget) :=
  verdict ← requireCurrentFence now clock fence;
  if negb (fence_accepted verdict) then mret (inl (rejected_token verdict))
  else gets (λ d, inr (map (target_of d)
                        (sort_by older_intent (List.filter open_intent (db_intents d))))).

(** ** Synchronisation *)

Inductive SyncResult : Type :=
| Synced (accountId snapshotId : string)
| SyncFenceRejected (currentFencingToken : option string).

Definition no_checks {R} (_ : R) : bool := true.

(** Insert a row, or update the row with the same key. *)
Definition upsert {R} (same : R → R → bool) (ok : R → bool) (get : ExecDb → list R)
    (set : list R → ExecDb → ExecDb) (merge : R → R → R) (r : R) : tx ExecDb unit := λ d,
  if existsb (same r) (get d)
  then if forallb (λ o, negb (same r o) || ok (merge r o)) (get d)
       then Ret (tt, set (update_where (same r) (merge r) (get d)) d)
       else Throw check_failed
  else if ok r then Ret (tt, set (get d ++ [r]) d) else Throw check_failed.

Definition new_account (i : ExecutionAccountProjection) : AccountRow :=
  {| acct_id := ap_accountId i; acct_broker_account_id := ap_brokerAccountId i;
     acct_status := ap_accountStatus i; acct_currency := ap_currency i; acct_version := 1;
     acct_created_at := ap_observedAt i; acct_updated_at := ap_observedAt i |}.

Definition merge_account (new old : AccountRow) : AccountRow :=
  {| acct_id := acct_id old; acct_broker_account_id := acct_broker_account_id old;
     acct_status := acct_status new; acct_currency := acct_currency new;
     acct_version := acct_version old + 1; acct_created_at := acct_created_at old;
     acct_updated_at := acct_updated_at new |}.

Definition account_checks (r : AccountRow) : bool :=
  btrim_nonempty (acct_id r) && btrim_nonempty (acct_broker_account_id r)
  && btrim_nonempty (acct_status r) && (acct_created_at r <=? acct_updated_at r).

Definition new_snapshot (i : ExecutionAccountProjection) : SnapshotRow :=
  {| snap_id := ap_accountSnapshotId i; snap_account_id := ap_accountId i;
     snap_observed_at := ap_observedAt i; snap_account_status := ap_accountStatus i;
     snap_currency := ap_currency i; snap_cash := ap_cash i;
     snap_portfolio_value := ap_portfolioValue i; snap_equity := ap_equity i;
     snap_buying_power := ap_buyingPower i; snap_options_buying_power := ap_optionsBuyingPower i;
     snap_options_approved_level := ap_optionsApprovedLevel i;
     snap_trading_blocked := ap_tradingBlocked i; snap_account_blocked := ap_accountBlocked i;
     snap_fingerprint := ap_snapshotFingerprint i; snap_evidence := ap_evidence i |}.

Definition same_snapshot (a b : SnapshotRow) : bool :=
  (snap_account_id a =? snap_account_id b)%string
  && (snap_fingerprint a =? snap_fingerprint b)%string.
Definition snapshot_conflicts (a b : SnapshotRow) : bool :=
  (snap_id a =? snap_id b)%string || same_snapshot a b.

Definition open_position (p : PositionRow) : bool := negb (bool_decide (pos_status p = PositionClosed)).

(** [UPDATE positions SET status = 'closed', ...]. *)
Definition close_position (now : Z) (p : PositionRow) : PositionRow :=
  {| pos_id := pos_id p; pos_account_id := pos_account_id p;
     pos_candidate_id := pos_candidate_id p; pos_opening_order_id := pos_opening_order_id p;
     pos_closing_order_id := pos_closing_order_id p; pos_broker_key := pos_broker_key p;
     pos_symbol := pos_symbol p; pos_underlying_symbol := pos_underlying_symbol p;
     pos_option_symbol := pos_option_symbol p; pos_asset_class := pos_asset_class p;
     pos_side := pos_side p; pos_status := PositionClosed; pos_quantity := 0%Q;
     pos_available_quantity := Some 0%Q; pos_average_entry_price := pos_average_entry_price p;
     pos_current_price := pos_current_price p; pos_market_value := pos_market_value p;
     pos_cost_basis := pos_cost_basis p; pos_unrealized_pnl := pos_unrealized_pnl p;
     pos_realized_pnl := pos_realized_pnl p; pos_snapshot_id := pos_snapshot_id p;
     pos_opened_at := pos_opened_at p; pos_closed_at := Some now;
     pos_last_reconciled_at := Some now; pos_version := pos_version p + 1;
     pos_updated_at := now |}.

Definition position_checks (p : PositionRow) : bool :=
  btrim_nonempty (pos_id p) && btrim_nonempty (pos_broker_key p)
  && btrim_nonempty (pos_symbol p) && Qle_bool 0 (pos_quantity p)
  && match pos_closed_at p with
     | Some t => (pos_opened_at p <=? t) && negb (open_position p)
     | None => open_position p
     end
  && match pos_last_reconciled_at p with Some t => pos_opened_at p <=? t | None => true end.

Definition new_position (i : ExecutionAccountProjection) (p : ExecutionPositionProjection)
    : PositionRow :=
  {| pos_id := pp_id p; pos_account_id := ap_accountId i; pos_candidate_id := pp_candidateId p;
     pos_opening_order_id := pp_openingOrderId p; pos_closing_order_id := pp_closingOrderId p;
     pos_broker_key := pp_brokerPositionKey p; pos_symbol := pp_symbol p;
     pos_underlying_symbol := pp_underlyingSymbol p; pos_option_symbol := pp_optionSymbol p;
     pos_asset_class := pp_assetClass p; pos_side := pp_side p; pos_status := PositionOpen;
     pos_quantity := pp_quantity p; pos_available_quantity := pp_availableQuantity p;
     pos_average_entry_price := pp_averageEntryPrice p; pos_current_price := pp_currentPrice p;
     pos_market_value := pp_marketValue p; pos_cost_basis := pp_costBasis p;
     pos_unrealized_pnl := pp_unrealizedPnl p; pos_realized_pnl := pp_realizedPnl p;
     pos_snapshot_id := Some (ap_accountSnapshotId i); pos_opened_at := pp_openedAt p;
     pos_closed_at := None; pos_last_reconciled_at := Some (pp_openedAt p); pos_version := 1;
     pos_updated_at := pp_openedAt p |}.

Definition same_position (a b : PositionRow) : bool :=
  (pos_account_id a =? pos_account_id b)%string && (pos_broker_key a =? pos_broker_key b)%string.

(** [ON CONFLICT (account_id, broker_position_key) DO UPDATE SET ...]. *)
Definition merge_position (new old : PositionRow) : PositionRow :=
  {| pos_id := pos_id old; pos_account_id := pos_account_id old;
     pos_candidate_id := coalesce (pos_candidate_id new) (pos_candidate_id old);
     pos_opening_order_id := coalesce (pos_opening_order_id new) (pos_opening_order_id old);
     pos_closing_order_id := pos_closing_order_id new; pos_broker_key := pos_broker_key old;
     pos_symbol := pos_symbol new; pos_underlying_symbol := pos_underlying_symbol new;
     pos_option_symbol := pos_option_symbol new; pos_asset_class := pos_asset_class new;
     pos_side := pos_side new; pos_status := PositionOpen; pos_quantity := pos_quantity new;
     pos_available_quantity := coalesce (pos_available_quantity new) (pos_available_quantity old);
     pos_average_entry_price :=
       coalesce (pos_average_entry_price new) (pos_average_entry_price old);
     pos_current_price := coalesce (pos_current_price new) (pos_current_price old);
     pos_market_value := coalesce (pos_market_value new) (pos_market_value old);
     pos_cost_basis := coalesce (pos_cost_basis new) (pos_cost_basis old);
     pos_unrealized_pnl := coalesce (pos_unrealized_pnl new) (pos_unrealized_pnl old);
     pos_realized_pnl := coalesce (pos_realized_pnl new) (pos_realized_pnl old);
     pos_snapshot_id := pos_snapshot_id new; pos_opened_at := pos_opened_at old;
     pos_closed_at := None; pos_last_reconciled_at := pos_last_reconciled_at new;
     pos_version := pos_version old + 1; pos_updated_at := pos_updated_at new |}.

(** The loop over [input.positions]. *)
Fixpoint write_positions (i : ExecutionAccountProjection)
    (ps : list ExecutionPositionProjection) : tx ExecDb unit :=
  match ps with
  | [] => mret tt
  | p :: ps' =>
      _ ← upsert same_position position_checks db_positions set_positions merge_position
            (new_position i p);
      write_positions i ps'
  end.

Definition supersede_limit (now : Z) (l : RiskLimitRow) : RiskLimitRow :=
  {| lim_id := lim_id l; lim_account_id := lim_account_id l; lim_status := ConfigSuperseded;
     lim_currency := lim_currency l; lim_config := lim_config l;
     lim_effective_from := lim_effective_from l; lim_effective_to := Some now;
     lim_version := lim_version l + 1; lim_updated_at := now |}.

Definition limit_checks (l : RiskLimitRow) : bool :=
  btrim_nonempty (lim_id l)
  && match lim_effective_to l with Some t => lim_effective_from l <? t | None => true end.

Definition new_limit (i : ExecutionAccountProjection) : RiskLimitRow :=
  {| lim_id := rl_id (ap_riskLimit i); lim_account_id := ap_accountId i;
     lim_status := ConfigActive; lim_currency := ap_currency i; lim_config := ap_riskLimit i;
     lim_effective_from := ap_observedAt i; lim_effective_to := None; lim_version := 1;
     lim_updated_at := ap_observedAt i |}.

Definition same_limit (a b : RiskLimitRow) : bool := (lim_id a =? lim_id b)%string.
(** The partial unique index on the limits in force. *)
Definition limit_conflicts (a b : RiskLimitRow) : bool :=
  same_limit a b
  || is_current_limit (lim_account_id a) b && current_config (lim_status a) (lim_effective_to a).

Definition supersede_allocation (now : Z) (a : AllocationRow) : AllocationRow :=
  {| alloc_id := alloc_id a; alloc_account_id := alloc_account_id a;
     alloc_strategy_key := alloc_strategy_key a; alloc_status := ConfigSuperseded;
     alloc_currency := alloc_currency a; alloc_amount := alloc_amount a;
     alloc_ratio := alloc_ratio a; alloc_reserved := alloc_reserved a;
     alloc_deployed := alloc_deployed a; alloc_config_version := alloc_config_version a;
     alloc_config_fingerprint := alloc_config_fingerprint a;
     alloc_effective_from := alloc_effective_from a; alloc_effective_to := Some now;
     alloc_version := alloc_version a + 1; alloc_updated_at := now |}.

Definition allocation_time_checks (a : AllocationRow) : bool :=
  match alloc_effective_to a with Some t => alloc_effective_from a <? t | None => true end.

Definition new_allocation (i : ExecutionAccountProjection) : AllocationRow :=
  let s := ap_strategyAllocation i in
  {| alloc_id := sap_id s; alloc_account_id := ap_accountId i;
     alloc_strategy_key := sap_strategyKey s; alloc_status := ConfigActive;
     alloc_currency := ap_currency i; alloc_amount := sap_allocationAmount s;
     alloc_ratio := sap_allocationRatio s;
     alloc_reserved := ex_activeReservationAmount (ap_exposure i);
     alloc_deployed := ex_deployedAmount (ap_exposure i);
     alloc_config_version := sap_configVersion s;
     alloc_config_fingerprint := sap_configFingerprint s;
     alloc_effective_from := ap_observedAt i; alloc_effective_to := None; alloc_version := 1;
     alloc_updated_at := ap_observedAt i |}.

Definition same_allocation (a b : AllocationRow) : bool := (alloc_id a =? alloc_id b)%string.

(** [ON CONFLICT (id) DO UPDATE SET reserved_amount, deployed_amount, ...]. *)
Definition merge_allocation (new old : AllocationRow) : AllocationRow :=
  {| alloc_id := alloc_id old; alloc_account_id := alloc_account_id old;
     alloc_strategy_key := alloc_strategy_key old; alloc_status := alloc_status old;
     alloc_currency := alloc_currency old; alloc_amount := alloc_amount old;
     alloc_ratio := alloc_ratio old; alloc_reserved := alloc_reserved new;
     alloc_deployed := alloc_deployed new; alloc_config_version := alloc_config_version old;
     alloc_config_fingerprint := alloc_config_fingerprint old;
     alloc_effective_from := alloc_effective_from old;
     alloc_effective_to := alloc_effective_to old; alloc_version := alloc_version old + 1;
     alloc_updated_at := alloc_updated_at new |}.

(** The partial unique index on the allocations in force. *)
Definition allocation_taken (new : AllocationRow) (d : ExecDb) : bool :=
  existsb (is_current_allocation (alloc_account_id new) (alloc_strategy_key new))
    (db_allocations d).

Definition upsert_allocation (new : AllocationRow) : tx ExecDb unit := λ d,
  if negb (existsb (same_allocation new) (db_allocations d)) && allocation_taken new d
  then Throw unique_violation
  else upsert same_allocation allocation_checks db_allocations set_allocations
         merge_allocation new d.

Definition new_exposure (i : ExecutionAccountProjection) : ExposureRow :=
  {| expo_account_id := ap_accountId i; expo_snapshot_id := ap_accountSnapshotId i;
     expo_currency := ap_currency i; expo_values := ap_exposure i;
     expo_observed_at := ap_observedAt i |}.

Definition same_exposure (a b : ExposureRow) : bool :=
  (expo_account_id a =? expo_account_id b)%string
  && (ex_fingerprint (expo_values a) =? ex_fingerprint (expo_values b))%string.
Definition exposure_conflicts (a b : ExposureRow) : bool :=
  same_exposure a b || (ex_id (expo_values a) =? ex_id (expo_values b))%string.

Definition sync_account_and_positions (i : ExecutionAccountProjection) : tx ExecDb unit :=
  _ ← upsert (λ a b, (acct_id a =? acct_id b)%string) account_checks db_accounts set_accounts
        merge_account (new_account i);
  _ ← insert_unless same_snapshot snapshot_conflicts no_checks db_snapshots set_snapshots
        (new_snapshot i);
  _ ← update_rows position_checks db_positions set_positions
        (λ p, (pos_account_id p =? ap_accountId i)%string && open_position p
              && negb (str_mem (pos_broker_key p) (map pp_brokerPositionKey (ap_positions i))))
        (close_position (ap_observedAt i));
  write_positions i (ap_positions i).

Definition sync_configuration (i : ExecutionAccountProjection) : tx ExecDb unit :=
  _ ← update_rows limit_checks db_risk_limits set_risk_limits
        (λ l, is_current_limit (ap_accountId i) l
              && negb (rl_configFingerprint (lim_config l)
                       =? rl_configFingerprint (ap_riskLimit i))%string)
        (supersede_limit (ap_observedAt i));
  _ ← insert_unless same_limit limit_conflicts limit_checks db_risk_limits set_risk_limits
        (new_limit i);
  _ ← update_rows allocation_time_checks db_allocations set_allocations
        (λ a, is_current_allocation (ap_accountId i) (sap_strategyKey (ap_strategyAllocation i)) a
              && negb (alloc_config_fingerprint a
                       =? sap_configFingerprint (ap_strategyAllocation i))%string)
        (supersede_allocation (ap_observedAt i));
  upsert_allocation (new_allocation i).

Definition syncAccountState (now clock : Z) (fence : SchedulerFence)
    (i : ExecutionAccountProjection) : tx ExecDb SyncResult :=
  verdict ← requireCurrentFence now clock fence;
  if negb (fence_accepted verdict) then mret (SyncFenceRejected (rejected_token verdict))
  else
  _ ← sync_account_and_positions i;
  _ ← sync_configuration i;
  _ ← insert_unless same_exposure exposure_conflicts no_checks db_exposures set_exposures
        (new_exposure i);
  mret (Synced (ap_accountId i) (ap_accountSnapshotId i)).

(** ** What a synchronisation leaves alone *)

Lemma keeps_upsert {B R} (f : ExecDb → B) same ok get set merge (r : R) :
  (∀ x d, f (set x d) = f d) → keeps f (upsert same ok get set merge r).
Proof.
  intros Hset d a d'. unfold upsert. repeat case_match; try done; by intros [= _ <-].
Qed.

Lemma keeps_upsert_allocation {B} (f : ExecDb → B) a :
  (∀ x d, f (set_allocations x d) = f d) → keeps f (upsert_allocation a).
Proof.
  intros Hset d u d'. unfold upsert_allocation. case_match; [done|]. by apply keeps_upsert.
Qed.
#[export] Hint Resolve keeps_upsert keeps_upsert_allocation : tx.

Lemma keeps_write_positions {B} (f : ExecDb → B) i ps :
  (∀ x d, f (set_positions x d) = f d) → keeps f (write_positions i ps).
Proof. intros Hset. induction ps as [|p ps IH]; simpl; auto with tx. Qed.
#[export] Hint Resolve keeps_write_positions : tx.

(** A statement about a table that the synchronisation does not write. *)
Lemma sync_keeps {B} (f : ExecDb → B) now clock fence i :
  (∀ x d, f (set_accounts x d) = f d) → (∀ x d, f (set_snapshots x d) = f d) →
  (∀ x d, f (set_positions x d) = f d) → (∀ x d, f (set_risk_limits x d) = f d) →
  (∀ x d, f (set_allocations x d) = f d) → (∀ x d, f (set_exposures x d) = f d) →
  keeps f (syncAccountState now clock fence i).
Proof.
  intros. unfold syncAccountState, sync_account_and_positions, sync_configuration.
  auto 20 with tx.
Qed.

(** ** The mirrored positions *)

(** A row of the account's position table after one broker position was written. *)
Lemma upsert_position_spec i p d u d' :
  upsert same_position position_checks db_positions set_positions merge_position
    (new_position i p) d = Ret (u, d') →
  (∀ r, In r (db_positions d') →
     (In r (db_positions d) ∧ same_position (new_position i p) r = false) ∨
     (pos_account_id r = ap_accountId i ∧ pos_broker_key r = pp_brokerPositionKey p ∧
      open_position r = true ∧ pos_quantity r = pp_quantity p ∧ pos_side r = pp_side p)) ∧
  (∀ r, In r (db_positions d) → same_position (new_position i p) r = false →
     In r (db_positions d')) ∧
  (∃ r, In r (db_positions d') ∧ pos_account_id r = ap_accountId i ∧
     pos_broker_key r = pp_brokerPositionKey p ∧ open_position r = true ∧
     pos_quantity r = pp_quantity p ∧ pos_side r = pp_side p).
Proof.
  unfold upsert. destruct (existsb (same_position (new_position i p)) (db_positions d)) eqn:Hex.
  - case_match; [|done]. intros [= _ <-]. cbn.
    assert (Hmerge : ∀ r, same_position (new_position i p) r = true →
      pos_account_id r = ap_accountId i ∧ pos_broker_key r = pp_brokerPositionKey p).
    { intros r [Ha%String.eqb_eq Hk%String.eqb_eq]%andb_true_iff. done. }
    split_and!.
    + intros r' (r & Hr & ->)%update_where_In.
      destruct (same_position _ r) eqn:E; [right|by left].
      destruct (Hmerge r E). done.
    + intros r Hr E. apply update_where_In. exists r. by rewrite E.
    + apply existsb_exists in Hex as (r & Hr & E). destruct (Hmerge r E).
      exists (merge_position (new_position i p) r). split; [|done].
      apply update_where_In. exists r. by rewrite E.
  - case_match; [|done]. intros [= _ <-]. cbn. split_and!.
    + intros r [Hr|[<-|[]]]%in_app_or; [left|by right]. split; [done|].
      apply not_true_iff_false. intros E. apply not_true_iff_false in Hex. apply Hex.
      apply existsb_exists. eauto.
    + intros r Hr _. apply in_or_app. by left.
    + exists (new_position i p). split; [|done]. apply in_or_app. right. by left.
Qed.

Definition is_position (account key : string) (r : PositionRow) : Prop :=
  pos_account_id r = account ∧ pos_broker_key r = key.

Lemma same_position_iff i p r :
  same_position (new_position i p) r = true ↔
  is_position (ap_accountId i) (pp_brokerPositionKey p) r.
Proof.
  unfold same_position, is_position. cbn. rewrite andb_true_iff, !String.eqb_eq.
  split; intros [-> ->]; done.
Qed.

(** The row of one broker position mirrors it. *)
Definition mirrored (i : ExecutionAccountProjection) (p : ExecutionPositionProjection)
    (d : ExecDb) : Prop :=
  ∃ r, In r (db_positions d) ∧ is_position (ap_accountId i) (pp_brokerPositionKey p) r ∧
    open_position r = true ∧ pos_quantity r = pp_quantity p ∧ pos_side r = pp_side p.

Lemma write_positions_spec i ps d u d' :
  write_positions i ps d = Ret (u, d') →
  (∀ r, In r (db_positions d') →
     In r (db_positions d) ∧ (pos_account_id r = ap_accountId i →
       ¬ In (pos_broker_key r) (map pp_brokerPositionKey ps)) ∨
     pos_account_id r = ap_accountId i ∧ open_position r = true ∧
       In (pos_broker_key r) (map pp_brokerPositionKey ps)) ∧
  (∀ r, In r (db_positions d) →
     (pos_account_id r = ap_accountId i → ¬ In (pos_broker_key r) (map pp_brokerPositionKey ps)) →
     In r (db_positions d')) ∧
  (NoDup (map pp_brokerPositionKey ps) → ∀ p, In p ps → mirrored i p d').
Proof.
  revert d. induction ps as [|p ps IH]; intros d H; simpl in *.
  - injection H as _ <-. split_and!; [by auto..|done].
  - tx_step H as u1 d1 E1. apply upsert_position_spec in E1 as (A1 & A2 & A3).
    apply IH in H as (B1 & B2 & B3). split_and!.
    + intros r Hr. destruct (B1 r Hr) as [[Hr1 Hn]|(Ha & Ho & Hk)]; [|right; tauto].
      destruct (A1 r Hr1) as [[Hr0 Hs]|(Ha & Hk & Ho & _)]; [left|right; auto].
      split; [done|]. intros Ha [Hk|Hk]; [|by apply Hn].
      apply not_true_iff_false in Hs. by destruct Hs; apply same_position_iff.
    + intros r Hr Hn. apply B2.
      * apply A2; [done|]. apply not_true_iff_false. rewrite same_position_iff.
        intros [Ha Hk]. apply Hn; auto.
      * intros Ha Hk. apply Hn; auto.
    + intros [Hni Hnd]%NoDup_cons q [<-|Hq]; [|exact (B3 Hnd q Hq)].
      destruct A3 as (r & Hr & Ha & Hk & Ho & Hq & Hs). exists r.
      split; [|done]. apply B2; [done|]. intros _ Hin. apply Hni, list_elem_of_In. congruence.
Qed.

(** After a synchronisation the position table mirrors the broker account:
    the account's open positions are exactly the ones the broker reported, each
    with the reported quantity and side, the others have been closed, and the
    positions of other accounts are untouched. *)
Theorem sync_mirrors_positions now clock fence i d a s d' :
  syncAccountState now clock fence i d = Ret (Synced a s, d') →
  let keys := map pp_brokerPositionKey (ap_positions i) in
  (∀ r, In r (db_positions d') → pos_account_id r = ap_accountId i →
     (open_position r = true ↔ In (pos_broker_key r) keys)) ∧
  (NoDup keys → ∀ p, In p (ap_positions i) → mirrored i p d') ∧
  (∀ r, pos_account_id r ≠ ap_accountId i → (In r (db_positions d') ↔ In r (db_positions d))).
Proof.
  intros H keys. unfold syncAccountState in H.
  tx_step H as v d1 E1. apply requireCurrentFence_read_only in E1 as ->.
  destruct (fence_accepted v); cbn [negb] in H; [|done].
  tx_step H as u2 d2 E2. tx_step H as u3 d3 E3. tx_step H as u4 d4 E4. injection H as _ _ <-.
  assert (Hpos : db_positions d4 = db_positions d2).
  { apply (keeps_insert_unless db_positions) in E4; [|done]. rewrite E4.
    assert (keeps db_positions (sync_configuration i)) as Hk
      by (unfold sync_configuration; auto 20 with tx).
    by apply Hk in E3. }
  unfold mirrored. rewrite Hpos. clear Hpos E3 E4.
  unfold sync_account_and_positions in E2.
  tx_step E2 as u5 d5 E5. apply (keeps_upsert db_positions) in E5; [|done].
  tx_step E2 as w6 d6 E6. apply (keeps_insert_unless db_positions) in E6; [|done].
  tx_step E2 as n7 d7 E7. apply update_rows_Ret in E7 as (_ & E7 & _).
  rewrite E6, E5 in E7. apply (f_equal db_positions) in E7. cbn in E7.
  apply write_positions_spec in E2 as (B1 & B2 & B3). fold keys in B1, B2, B3.
  split_and!; [|exact B3|].
  - intros r Hr Ha. destruct (B1 r Hr) as [[Hr7 Hn]|(_ & Ho & Hk)]; [|done].
    split; [|intros Hk; by destruct (Hn Ha)]. intros Ho. exfalso. rewrite E7 in Hr7.
    apply update_where_In in Hr7 as (r0 & Hr0 & ->).
    destruct (_ && negb (str_mem _ _)) eqn:E; [done|].
    rewrite Ha, String.eqb_refl, Ho in E. cbn [andb] in E.
    apply negb_false_iff, str_mem_true in E. by apply Hn in Ha.
  - intros r Ha. split.
    + intros Hr. destruct (B1 r Hr) as [[Hr7 _]|(Ha' & _)]; [|done].
      rewrite E7 in Hr7. apply update_where_In in Hr7 as (r0 & Hr0 & Hr'). subst r.
      destruct (_ && negb (str_mem _ _)) eqn:E; [|done].
      rewrite !andb_true_iff, String.eqb_eq in E. by destruct E as [[E _] _].
    + intros Hr. apply B2; [|done]. rewrite E7. apply update_where_In. exists r.
      split; [done|]. apply String.eqb_neq in Ha. by rewrite Ha.
Qed.

(** The current account never carries a strategy key: the query behind
    [findCurrentAccount] finds the allocation in force but does not return its
    key. *)
Lemma current_account_has_no_strategy d acc :
  findCurrentAccount d = Some acc → current_strategyKey acc = None.
Proof.
  intros H. unfold findCurrentAccount in H. repeat case_match; simplify_eq; done.
Qed.
