(* ===== verification/ExecutionInvariants.v ===== *)
(** What holds across the operations of the execution repository: evidence is
    used once, allocations are never over-committed, and a rejected fence writes
    nothing.  The operations are those of ExecutionReservation, BrokerResult,
    ExecutionEvidence and AccountSync; each runs in one transaction that first
    locks the scheduler lease, so a history is a sequence of committed calls. *)

From Stdlib Require Import Qminmax.
From S2P Require Import Prelude.
From S2P Require Import JsString.
From S2P Require Import SchedulerLease.
From S2P Require Import ExecutionTables.
From S2P Require Import ExecutionReservation.
From S2P Require Import BrokerResult.
From S2P Require Import ExecutionEvidence.
From S2P Require Import AccountSync.
Open Scope Z_scope.

(** Other programs write the leases and the candidates. *)
Definition set_environment (ls : list SchedulerLeaseRow) (cs : list string) (d : ExecDb) : ExecDb :=
  {| db_leases := ls; db_candidates := cs; db_accounts := db_accounts d;
     db_snapshots := db_snapshots d; db_positions := db_positions d;
     db_risk_limits := db_risk_limits d; db_allocations := db_allocations d;
     db_exposures := db_exposures d; db_reviews := db_reviews d;
     db_confirmations := db_confirmations d; db_reservations := db_reservations d;
     db_intents := db_intents d; db_orders := db_orders d; db_events := db_events d;
     db_fingerprints := db_fingerprints d |}.

Inductive exec_step (d : ExecDb) : ExecDb → Prop :=
| exec_reserve now clock f i r d' :
    reserveAndCreateOrderIntent now clock f i d = Ret (r, d') → exec_step d d'
| exec_record now clock f i r d' :
    recordBrokerResult now clock f i d = Ret (r, d') → exec_step d d'
| exec_evidence now clock f i r d' :
    upsertExecutionEvidence now clock f i d = Ret (r, d') → exec_step d d'
| exec_sync now clock f i r d' :
    syncAccountState now clock f i d = Ret (r, d') → exec_step d d'
| exec_environment ls cs : exec_step d (set_environment ls cs d).

Definition exec_reachable : ExecDb → ExecDb → Prop := rtc exec_step.

(** ** Evidence is used once *)

Definition review_spent (id : string) (d : ExecDb) : Prop :=
  (∃ r, In r (db_reviews d) ∧ rv_id (review_input r) = id) ∧
  ∀ r, In r (db_reviews d) → rv_id (review_input r) = id → review_status r = ReviewConsumed.

Definition confirmation_spent (id : string) (d : ExecDb) : Prop :=
  (∃ c, In c (db_confirmations d) ∧ cf_id (conf_input c) = id) ∧
  ∀ c, In c (db_confirmations d) → cf_id (conf_input c) = id →
       conf_status c = ConfirmationConsumed.

Lemma review_spent_eq id d d' :
  db_reviews d' = db_reviews d → review_spent id d → review_spent id d'.
Proof. unfold review_spent. by intros ->. Qed.

Lemma confirmation_spent_eq id d d' :
  db_confirmations d' = db_confirmations d → confirmation_spent id d → confirmation_spent id d'.
Proof. unfold confirmation_spent. by intros ->. Qed.

Lemma review_spent_consume id p now d d' :
  db_reviews d' = update_where p (consume_review now) (db_reviews d) →
  review_spent id d → review_spent id d'.
Proof.
  unfold review_spent. intros -> [(r & Hr & Hid) Hall]. split.
  - exists (if p r then consume_review now r else r). split; [apply update_where_In; eauto|].
    by destruct (p r).
  - intros r' (r0 & Hr0 & ->)%update_where_In. destruct (p r0); auto.
Qed.

Lemma confirmation_spent_consume id p now d d' :
  db_confirmations d' = update_where p (consume_confirmation now) (db_confirmations d) →
  confirmation_spent id d → confirmation_spent id d'.
Proof.
  unfold confirmation_spent. intros -> [(r & Hr & Hid) Hall]. split.
  - exists (if p r then consume_confirmation now r else r). split; [apply update_where_In; eauto|].
    by destruct (p r).
  - intros r' (r0 & Hr0 & ->)%update_where_In. destruct (p r0); auto.
Qed.

(** Storing evidence cannot replace a spent review. *)
Lemma store_review_spent id r d u d' :
  store_review r d = Ret (u, d') → review_spent id d → review_spent id d'.
Proof.
  unfold store_review. intros H [(r0 & Hr0 & Hid) Hall].
  tx_step H as w d1 E1. tx_step H as s d2 E2. apply select_row_Ret in E2 as [-> ->].
  assert (d' = d1) as -> by (unfold require_match in H;
    repeat case_match; try done; by injection H as _ <-).
  apply insert_unless_Ret in E1. destruct w; [|destruct E1 as [_ ->]; split; eauto].
  destruct E1 as [Hno (_ & _ & ->)%insert_row_Ret].
  split; cbn; [exists r0; split; [apply in_or_app; by left|done]|].
  intros r' [Hr'|[<-|[]]]%in_app_or Hid'; [by apply Hall|].
  exfalso. apply not_true_iff_false in Hno. apply Hno. apply existsb_exists.
  exists r0. split; [done|]. apply String.eqb_eq. congruence.
Qed.

Lemma store_confirmation_spent id c d u d' :
  store_confirmation c d = Ret (u, d') → confirmation_spent id d → confirmation_spent id d'.
Proof.
  unfold store_confirmation. intros H [(c0 & Hc0 & Hid) Hall].
  tx_step H as w d1 E1. tx_step H as s d2 E2. apply select_row_Ret in E2 as [-> ->].
  assert (d' = d1) as -> by (unfold require_match in H;
    repeat case_match; try done; by injection H as _ <-).
  apply insert_unless_Ret in E1. destruct w; [|destruct E1 as [_ ->]; split; eauto].
  destruct E1 as [_ (Hno & _ & ->)%insert_row_Ret].
  split; cbn; [exists c0; split; [apply in_or_app; by left|done]|].
  intros c' [Hc'|[<-|[]]]%in_app_or Hid'; [by apply Hall|].
  exfalso. apply not_true_iff_false in Hno. apply Hno. apply existsb_exists.
  exists c0. split; [done|]. unfold confirmation_conflicts, same_confirmation_id.
  apply orb_true_iff. left. apply String.eqb_eq. congruence.
Qed.

(** A statement about a table that storing evidence does not write. *)
Lemma evidence_keeps {B} (f : ExecDb → B) now clock fence i :
  (∀ x d, f (set_reviews x d) = f d) → (∀ x d, f (set_confirmations x d) = f d) →
  (∀ x d, f (set_fingerprints x d) = f d) →
  keeps f (upsertExecutionEvidence now clock fence i).
Proof. intros. unfold upsertExecutionEvidence. auto 20 with tx. Qed.

Lemma evidence_spent now clock fence i d r d' rid cid :
  upsertExecutionEvidence now clock fence i d = Ret (r, d') →
  (review_spent rid d → review_spent rid d') ∧
  (confirmation_spent cid d → confirmation_spent cid d').
Proof.
  unfold upsertExecutionEvidence. intros H.
  tx_step H as v d1 E1. apply requireCurrentFence_read_only in E1 as ->.
  destruct (fence_accepted v); cbn [negb] in H; [|by injection H as _ <-].
  tx_step H as cand d1 E1. apply known_candidate_Ret in E1 as ->.
  tx_step H as u2 d2 E2. tx_step H as u3 d3 E3. tx_step H as u4 d4 E4.
  injection H as _ <-.
  pose proof (store_review_spent rid _ _ _ _ E2) as Hr2.
  pose proof (store_confirmation_spent cid _ _ _ _ E3) as Hc3.
  apply (keeps_store_review db_confirmations) in E2; [|done].
  apply (keeps_store_confirmation db_reviews) in E3; [|done].
  pose proof E4 as E4'. apply (keeps_store_fingerprint db_reviews) in E4; [|done].
  apply (keeps_store_fingerprint db_confirmations) in E4'; [|done].
  split.
  - intros Hs. apply (review_spent_eq _ d3); [done|]. apply (review_spent_eq _ d2); auto.
  - intros Hs. apply (confirmation_spent_eq _ d3); [done|]. apply Hc3.
    by apply (confirmation_spent_eq _ d).
Qed.

Lemma spent_step rid cid d d' :
  exec_step d d' →
  (review_spent rid d → review_spent rid d') ∧
  (confirmation_spent cid d → confirmation_spent cid d').
Proof.
  intros [now clock f i r d2 H|now clock f i r d2 H|now clock f i r d2 H|now clock f i r d2 H|ls cs].
  - apply reserve_spec in H as [[-> _]|(cand & rv & cf & _ & _ & Hw)]; [done|].
    split; [eapply review_spent_consume, Hw|eapply confirmation_spent_consume, Hw].
  - apply record_spec in H as [[-> _]|[_ [intent Hrec]]]; [done|].
    destruct (rec_others _ _ _ _ _ _ _ Hrec) as (_ & _ & _ & _ & _ & _ & _ & Hr & Hc).
    split; [by apply review_spent_eq|by apply confirmation_spent_eq].
  - exact (evidence_spent _ _ _ _ _ _ _ rid cid H).
  - pose proof H as H'. apply (sync_keeps db_reviews) in H; [|done..].
    apply (sync_keeps db_confirmations) in H'; [|done..].
    split; [by apply review_spent_eq|by apply confirmation_spent_eq].
  - done.
Qed.

Lemma spent_reachable rid cid d d' :
  exec_reachable d d' →
  (review_spent rid d → review_spent rid d') ∧
  (confirmation_spent cid d → confirmation_spent cid d').
Proof.
  induction 1 as [d|d1 d2 d3 Hs _ [IHr IHc]]; [done|].
  destruct (spent_step rid cid _ _ Hs). auto.
Qed.

Lemma evidence_usable_rows account review confirmation now d :
  evidence_usable account review confirmation now d = true →
  (∃ r, In r (db_reviews d) ∧ rv_id (review_input r) = review ∧
     review_account_id r = account ∧
     (review_status r = ReviewCreated ∨ review_status r = ReviewValid) ∧
     now < rv_expiresAt (review_input r)) ∧
  ∃ c, In c (db_confirmations d) ∧ cf_id (conf_input c) = confirmation ∧
     conf_account_id c = account ∧ conf_review_id c = review ∧
     conf_status c = ConfirmationValid ∧ now < cf_expiresAt (conf_input c).
Proof.
  unfold evidence_usable. intros H.
  destruct (select_one _ (db_reviews d)) as [r|] eqn:Er; [|done].
  destruct (select_one _ (db_confirmations d)) as [c|] eqn:Ec; [|done].
  apply select_one_Some in Er as [Hr Hrid], Ec as [Hc Hcid].
  unfold is_review in Hrid. unfold is_confirmation in Hcid.
  rewrite !andb_true_iff, !String.eqb_eq in Hrid.
  rewrite !andb_true_iff, !String.eqb_eq in Hcid.
  unfold usable_review, usable_confirmation, date_text_ms in H.
  rewrite !andb_true_iff, !bool_decide_eq_true, !Z.ltb_lt in H.
  destruct H as [[Hrs Hrt] [Hcs Hct]].
  split; [exists r|exists c]; split_and!; try tauto; dlia.
Qed.

Lemma spent_not_usable account rid cid now d :
  review_spent rid d ∨ confirmation_spent cid d →
  evidence_usable account rid cid now d = false.
Proof.
  intros Hs. apply not_true_iff_false. intros [(r & Hr & Hid & _ & Hst & _)
    (c & Hc & Hcid & _ & _ & Hcst & _)]%evidence_usable_rows.
  destruct Hs as [[_ Hall]|[_ Hall]].
  - specialize (Hall r Hr Hid). destruct Hst; congruence.
  - specialize (Hall c Hc Hcid). congruence.
Qed.

Lemma authorized_spends fence i cand rid cid now d d' :
  evidence_usable (ri_accountId i) rid cid now d = true →
  reserved fence i cand rid cid d d' → review_spent rid d' ∧ confirmation_spent cid d'.
Proof.
  intros [(r & Hr & Hid & _) (c & Hc & Hcid & _)]%evidence_usable_rows Hw.
  unfold review_spent, confirmation_spent. rewrite (rsv_reviews _ _ _ _ _ _ _ Hw),
    (rsv_confirmations _ _ _ _ _ _ _ Hw). split; split.
  - exists (consume_review (ri_createdAt i) r). split; [|done].
    apply update_where_In. exists r. split; [done|]. by rewrite Hid, String.eqb_refl.
  - intros r' (r0 & Hr0 & ->)%update_where_In. case_match eqn:E; [done|].
    intros Hid'. by rewrite Hid', String.eqb_refl in E.
  - exists (consume_confirmation (ri_createdAt i) c). split; [|done].
    apply update_where_In. exists c. split; [done|]. by rewrite Hcid, String.eqb_refl.
  - intros c' (c0 & Hc0 & ->)%update_where_In. case_match eqn:E; [done|].
    intros Hid'. by rewrite Hid', String.eqb_refl in E.
Qed.

(** A review and its confirmation authorise at most one order intent, ever.
    When [reserveAndCreateOrderIntent] authorises an intent, the account owned a
    usable review and a valid confirmation of it, neither expired; and after
    that no call with the same review or the same confirmation is authorised
    again, whatever reservations, broker results, evidence uploads, account
    synchronisations and lease changes happen in between. *)
Theorem evidence_used_once now clock fence i d rid oid d1 d2 :
  reserveAndCreateOrderIntent now clock fence i d = Ret (Authorized rid oid, d1) →
  exec_reachable d1 d2 →
  ∃ review confirmation,
    ri_executionReviewId i = Some review ∧ ri_confirmationEvidenceId i = Some confirmation ∧
    (∃ r, In r (db_reviews d) ∧ rv_id (review_input r) = review ∧
       review_account_id r = ri_accountId i ∧
       (review_status r = ReviewCreated ∨ review_status r = ReviewValid) ∧
       ri_createdAt i < rv_expiresAt (review_input r)) ∧
    (∃ c, In c (db_confirmations d) ∧ cf_id (conf_input c) = confirmation ∧
       conf_account_id c = ri_accountId i ∧ conf_review_id c = review ∧
       conf_status c = ConfirmationValid ∧ ri_createdAt i < cf_expiresAt (conf_input c)) ∧
    ∀ now' clock' fence' i' rid' oid' d3,
      ri_executionReviewId i' = Some review ∨ ri_confirmationEvidenceId i' = Some confirmation →
      reserveAndCreateOrderIntent now' clock' fence' i' d2 ≠ Ret (Authorized rid' oid', d3).
Proof.
  intros H Hreach.
  apply reserve_spec in H as [[_ H]|(cand & review & confirmation & Hg & _ & Hw)];
    [by destruct (H rid oid)|].
  destruct Hg as (_ & _ & Hrv & Hcf & Hev & _).
  destruct (authorized_spends _ _ _ _ _ _ _ _ Hev Hw) as [Hs1 Hs2].
  destruct (spent_reachable review confirmation _ _ Hreach) as [Hr2 Hc2].
  apply present_Some in Hrv, Hcf. pose proof (evidence_usable_rows _ _ _ _ _ Hev) as [Hr Hc].
  exists review, confirmation. split_and!; [done..|].
  intros now' clock' fence' i' rid' oid' d3 Hsame H.
  apply reserve_spec in H as [[_ H]|(cand' & rv' & cf' & Hg' & _ & _)];
    [by destruct (H rid' oid')|].
  destruct Hg' as (_ & _ & Hrv' & Hcf' & Hev' & _). apply present_Some in Hrv', Hcf'.
  rewrite spent_not_usable in Hev'; [done|].
  destruct Hsame as [E|E]; [left|right]; rewrite E in *; simplify_eq; auto.
Qed.

(** ** Allocations are never over-committed *)

Definition reserves_for (account strategy : string) (r : ReservationRow) : bool :=
  (resv_account_id r =? account)%string && (resv_strategy_key r =? strategy)%string
  && is_active_reservation r.

(** What the active reservations of a strategy add up to. *)
Definition active_total (account strategy : string) (d : ExecDb) : Q :=
  qsum (λ r, if reserves_for account strategy r then resv_amount r else 0%Q) (db_reservations d).

Definition current_allocation (account strategy : string) (d : ExecDb) : option AllocationRow :=
  select_one (is_current_allocation account strategy) (db_allocations d).

(** Reservation rows are well formed and belong to the account of the intents
    that refer to them. *)
Record reservations_wf (d : ExecDb) : Prop := {
  rw_ids : NoDup (map resv_id (db_reservations d));
  rw_amounts : ∀ r, In r (db_reservations d) → (0 < resv_amount r)%Q;
  rw_owner : ∀ x id, In x (db_intents d) → intent_reservation_id x = Some id →
    ∃ r, In r (db_reservations d) ∧ resv_id r = id ∧ resv_account_id r = intent_account_id x
}.

(** The allocation in force of every account and strategy has reserved exactly
    what its active reservations hold, and its reserved and deployed amounts
    together stay within the allocated amount. *)
Definition allocations_balanced (d : ExecDb) : Prop :=
  ∀ account strategy a, current_allocation account strategy d = Some a →
    (alloc_reserved a == active_total account strategy d)%Q ∧
    ∀ cap, alloc_amount a = Some cap → (alloc_deployed a + alloc_reserved a <= cap)%Q.

(** Reservations and broker results.  The caller passes a reservation id exactly
    when it asks for a reservation (executionStateProjectionService.ts). *)
Inductive trade_step (d : ExecDb) : ExecDb → Prop :=
| trade_reserve now clock f i r d' :
    (ri_reservationRequired i = false → ri_reservationId i = None) →
    reserveAndCreateOrderIntent now clock f i d = Ret (r, d') → trade_step d d'
| trade_record now clock f i r d' :
    recordBrokerResult now clock f i d = Ret (r, d') → trade_step d d'
| trade_evidence now clock f i r d' :
    upsertExecutionEvidence now clock f i d = Ret (r, d') → trade_step d d'
| trade_environment ls cs : trade_step d (set_environment ls cs d).

Lemma balanced_eq d d' :
  db_reservations d' = db_reservations d → db_allocations d' = db_allocations d →
  allocations_balanced d → allocations_balanced d'.
Proof.
  unfold allocations_balanced, current_allocation, active_total. intros -> ->. done.
Qed.

Lemma wf_eq d d' :
  db_reservations d' = db_reservations d →
  (∀ x, In x (db_intents d') → ∃ x0, In x0 (db_intents d) ∧
     intent_reservation_id x = intent_reservation_id x0 ∧
     intent_account_id x = intent_account_id x0) →
  reservations_wf d → reservations_wf d'.
Proof.
  intros Hr Hi [H1 H2 H3]. split; rewrite ?Hr; auto.
  intros x id Hx Hid. destruct (Hi x Hx) as (x0 & Hx0 & E1 & E2).
  rewrite E2. apply H3; congruence.
Qed.

(** Updating rows in place, keeping what a lookup tests, is a lookup and an
    update of its result. *)
Lemma select_update {R} (q p : R → bool) (f : R → R) t :
  (∀ r, p r = true → q (f r) = q r) →
  select_one q (update_where p f t) =
  option_map (λ r, if p r then f r else r) (select_one q t).
Proof.
  intros Hf. unfold select_one, update_where. induction t as [|r t IH]; [done|]. simpl.
  assert (q (if p r then f r else r) = q r) as Hq by (destruct (p r) eqn:E; auto).
  rewrite Hq. by destruct (q r).
Qed.

(** What a reservation holds for a strategy. *)
Definition held_for (account strategy : string) (r : ReservationRow) : Q :=
  if reserves_for account strategy r then resv_amount r else 0%Q.

Lemma active_total_update account strategy p f d d' :
  db_reservations d' = update_where p f (db_reservations d) →
  active_total account strategy d' =
  qsum (λ r, held_for account strategy (if p r then f r else r)) (db_reservations d).
Proof.
  unfold active_total, qsum, update_where. intros ->. by induction (db_reservations d); simpl; f_equal.
Qed.

Lemma settled_holds_nothing account strategy committed now r :
  held_for account strategy (settle_reservation committed now r) = 0%Q.
Proof.
  unfold held_for, reserves_for, is_active_reservation. cbn.
  destruct committed; by rewrite andb_false_r.
Qed.

(** Settling one reservation takes its amount out of its strategy's total. *)
Lemma active_total_settle account strategy id committed now d d' r :
  reservations_wf d → In r (db_reservations d) → resv_id r = id →
  resv_status r = ReservationActive →
  db_reservations d' = update_where (is_settled_reservation id)
    (settle_reservation committed now) (db_reservations d) →
  (active_total account strategy d' + held_for account strategy r
   == active_total account strategy d)%Q.
Proof.
  intros Hwf Hr Hid Hst Hd'. rewrite (active_total_update _ _ _ _ _ _ Hd').
  rewrite (qsum_update_one (held_for account strategy)).
  - rewrite settled_holds_nothing. unfold active_total. fold (held_for account strategy).
    change (qsum (held_for account strategy) (db_reservations d) + 0 ==
      qsum (held_for account strategy) (db_reservations d))%Q. lra.
  - eapply NoDup_map_In, Hwf.
  - done.
  - unfold is_settled_reservation, is_active_reservation.
    by rewrite Hid, String.eqb_refl, bool_decide_eq_true_2.
  - intros y Hy Hp. unfold is_settled_reservation in Hp.
    apply andb_true_iff in Hp as [Hp%String.eqb_eq _].
    eapply (unique_key resv_id); [apply Hwf|done..|congruence].
Qed.

Lemma is_current_settle A K B L amount committed now a :
  is_current_allocation B L a = true →
  is_current_allocation A K (settle_allocation amount committed now a) = is_current_allocation A K a.
Proof. done. Qed.

Lemma is_current_add A K B L amount now a :
  is_current_allocation B L a = true →
  is_current_allocation A K (add_reserved amount now a) = is_current_allocation A K a.
Proof. done. Qed.

(** Two lookups that find the same row ask for the same account and strategy. *)
Lemma is_current_same A K B L a :
  is_current_allocation A K a = true → is_current_allocation B L a = true → A = B ∧ K = L.
Proof.
  unfold is_current_allocation. rewrite !andb_true_iff, !String.eqb_eq.
  intros [[-> ->] _] [[-> ->] _]. done.
Qed.

Lemma reserves_for_row A K r :
  reserves_for A K r = true ↔
  resv_account_id r = A ∧ resv_strategy_key r = K ∧ resv_status r = ReservationActive.
Proof.
  unfold reserves_for, is_active_reservation.
  rewrite !andb_true_iff, !String.eqb_eq, bool_decide_eq_true. tauto.
Qed.

Lemma held_le_total A K d r :
  reservations_wf d → In r (db_reservations d) → (held_for A K r <= active_total A K d)%Q.
Proof.
  intros Hwf Hr. unfold active_total.
  apply (qsum_member (held_for A K)); [|done].
  intros x Hx. unfold held_for. case_match; [|lra]. pose proof (rw_amounts _ Hwf x Hx). lra.
Qed.

(** A broker result keeps the balance. *)
Lemma balanced_settle intent status now d d' :
  reservations_wf d → In intent (db_intents d) → settled intent status now d d' →
  allocations_balanced d → allocations_balanced d'.
Proof.
  intros Hwf Hint [(Hr & Ha & _)|(id & r & Hid & _ & Hr & Hrid & Hst & Hres & Hall & _)];
    [by apply balanced_eq|].
  set (committed := bool_decide _) in *. clearbody committed.
  intros Hbal A K a Hcur. unfold current_allocation in Hcur. rewrite Hall in Hcur.
  rewrite (select_update _ _ _ _ (is_current_settle A K _ _ _ _ _)) in Hcur.
  destruct (select_one (is_current_allocation A K) (db_allocations d)) as [a0|] eqn:Hsel; [|done].
  cbn in Hcur. destruct (Hbal A K a0 Hsel) as [Hsum Hcap].
  pose proof (active_total_settle A K id committed now d d' r Hwf Hr Hrid Hst Hres) as Htot.
  apply select_one_Some in Hsel as [_ Hcur0].
  destruct (rw_owner _ Hwf intent id Hint (present_Some _ _ Hid)) as (r' & Hr' & Hrid' & Hacct).
  assert (r' = r) as -> by (eapply (unique_key resv_id); [apply Hwf|done..|congruence]).
  destruct (is_current_allocation (intent_account_id intent) (resv_strategy_key r) a0) eqn:Hmine.
  - destruct (is_current_same _ _ _ _ _ Hcur0 Hmine) as [-> ->].
    assert (Hheld : held_for (intent_account_id intent) (resv_strategy_key r) r = resv_amount r).
    { unfold held_for. by rewrite (proj2 (reserves_for_row _ _ _)). }
    pose proof (held_le_total (intent_account_id intent) (resv_strategy_key r) d r Hwf Hr) as Hle.
    rewrite Hheld in Htot, Hle. pose proof (rw_amounts _ Hwf r Hr).
    injection Hcur as <-. cbn.
    assert (Hmax : (Qmax 0 (alloc_reserved a0 - resv_amount r) == alloc_reserved a0 - resv_amount r)%Q)
      by (apply Q.max_r; lra).
    rewrite Hmax. split; [lra|]. intros cap Hcapa. specialize (Hcap cap Hcapa).
    destruct committed; lra.
  - injection Hcur as <-. split; [|done]. rewrite <- Htot in Hsum.
    assert (held_for A K r = 0%Q) as Hz; [|rewrite Hz in Hsum; lra].
    unfold held_for. case_match eqn:E; [|done]. apply reserves_for_row in E as (E1 & E2 & _).
    rewrite <- Hacct, E1, E2 in Hmine. congruence.
Qed.

Lemma no_blockers v : reservationBlockers v = [] →
  buying_power_allowed v = true ∧ deployment_allowed v = true ∧ strategy_allowed v = true ∧
  symbol_allowed v = true ∧ position_count_allowed v = true ∧ order_count_allowed v = true.
Proof.
  unfold reservationBlockers, unless. intros H.
  destruct (buying_power_allowed v), (deployment_allowed v), (strategy_allowed v),
    (symbol_allowed v), (position_count_allowed v), (order_count_allowed v); done.
Qed.

Lemma within_Some x l cap : within x l = true → l = Some cap → (x <= cap)%Q.
Proof. unfold within. intros H ->. by apply Qle_bool_iff. Qed.

Lemma limit_query_Some i d v : limit_query i d = Some v →
  ∃ s l a, select_one (is_snapshot (ri_accountId i) (ri_accountSnapshotId i)) (db_snapshots d) = Some s ∧
    select_one (is_current_limit (ri_accountId i)) (db_risk_limits d) = Some l ∧
    current_allocation (ri_accountId i) (ri_strategyKey i) d = Some a ∧
    v = limit_verdict i s (lim_config l) a d.
Proof.
  unfold limit_query, current_allocation. intros H. repeat case_match; try done.
  injection H as <-. eauto 10.
Qed.

Lemma reserve_new_total A K fence i id cand d d' :
  db_reservations d' = db_reservations d ++ [new_reservation i id cand fence] →
  (active_total A K d' == active_total A K d
     + (if ((ri_accountId i =? A)%string && (ri_strategyKey i =? K)%string)%bool
        then ri_amount i else 0))%Q.
Proof.
  unfold active_total. intros ->. rewrite qsum_app. cbn.
  unfold reserves_for, is_active_reservation. cbn. rewrite andb_true_r.
  destruct (_ && _); lra.
Qed.

(** An authorised reservation keeps the balance. *)
Lemma balanced_reserve now clock fence i cand rid cid d d' :
  guards_held now clock fence i rid cid d → reserved fence i cand rid cid d d' →
  allocations_balanced d → allocations_balanced d'.
Proof.
  intros (_ & _ & _ & _ & _ & Hlim) Hw Hbal.
  pose proof (rsv_money _ _ _ _ _ _ _ Hw) as Hm.
  destruct (ri_reservationRequired i); [|destruct Hm; by apply (balanced_eq d)].
  destruct (Hlim eq_refl) as [_ (v & Hv & Hnb)].
  destruct (ri_reservationId i) as [id|]; [|destruct Hm; by apply (balanced_eq d)].
  destruct Hm as (_ & _ & Hres & Hall).
  apply limit_query_Some in Hv as (s & l & a & _ & _ & Hcura & ->).
  apply no_blockers in Hnb as (_ & _ & Hstrat & _). cbn in Hstrat.
  apply andb_true_iff in Hstrat as [Hcapa _].
  intros A K x Hcur. unfold current_allocation in Hcur. rewrite Hall in Hcur.
  rewrite (select_update _ _ _ _ (is_current_add A K _ _ _ _)) in Hcur.
  destruct (select_one (is_current_allocation A K) (db_allocations d)) as [x0|] eqn:Hsel; [|done].
  cbn in Hcur. destruct (Hbal A K x0 Hsel) as [Hsum Hcap].
  rewrite (reserve_new_total A K _ _ _ _ _ _ Hres).
  pose proof Hsel as Hsel'. apply select_one_Some in Hsel' as [_ Hcur0].
  destruct (is_current_allocation (ri_accountId i) (ri_strategyKey i) x0) eqn:Hmine.
  - destruct (is_current_same _ _ _ _ _ Hcur0 Hmine) as [-> ->].
    unfold current_allocation in Hcura. rewrite Hsel in Hcura. injection Hcura as ->.
    rewrite !String.eqb_refl. cbn [andb]. injection Hcur as <-. cbn.
    split; [lra|]. intros cap Ha. pose proof (within_Some _ _ _ Hcapa Ha). lra.
  - injection Hcur as <-. split; [|done].
    destruct ((ri_accountId i =? A)%string && (ri_strategyKey i =? K)%string)%bool eqn:E; [|lra].
    apply andb_true_iff in E as [HA%String.eqb_eq HK%String.eqb_eq]. congruence.
Qed.

Lemma wf_reserve fence i cand rid cid d d' :
  (ri_reservationRequired i = false → ri_reservationId i = None) →
  (ri_reservationRequired i = true → ri_reservationId i ≠ None) →
  reserved fence i cand rid cid d d' → reservations_wf d → reservations_wf d'.
Proof.
  intros Hcaller Hreqid Hw Hwf. pose proof (rsv_money _ _ _ _ _ _ _ Hw) as Hm.
  destruct (rsv_intent_new _ _ _ _ _ _ _ Hw) as (_ & _ & Hi).
  destruct (ri_reservationRequired i) eqn:Hreq, (ri_reservationId i) as [id|] eqn:Hid.
  - destruct Hm as (Hc & Hk & Hres & _).
    assert (Hnew : ∀ r, In r (db_reservations d) → resv_id r ≠ id).
    { intros r Hr He. apply not_true_iff_false in Hc. apply Hc.
      apply existsb_exists. exists r. split; [done|]. unfold reservation_conflicts. cbn.
      by rewrite He, String.eqb_refl. }
    split; rewrite Hres.
    + rewrite map_app. apply NoDup_app. split_and!; [apply Hwf| |apply NoDup_singleton].
      intros x Hx ->%list_elem_of_singleton. apply list_elem_of_In, in_map_iff in Hx
        as (r & He & Hr). by apply (Hnew r).
    + intros r [Hr|[<-|[]]]%in_app_or; [by apply Hwf|].
      unfold reservation_checks in Hk. rewrite !andb_true_iff in Hk.
      destruct Hk as [[[[_ Hk%negb_true_iff] _] _] _]. cbn in Hk |- *.
      apply Qnot_le_lt. rewrite <- Qle_bool_iff. congruence.
    + intros x xid Hx Hxid. rewrite Hi in Hx. apply in_app_or in Hx as [Hx|[<-|[]]].
      * destruct (rw_owner _ Hwf x xid Hx Hxid) as (r & Hr & ?). exists r.
        split; [apply in_or_app; by left|done].
      * cbn in Hxid. rewrite Hid in Hxid. injection Hxid as <-.
        exists (new_reservation i id cand fence). split; [apply in_or_app; right; by left|done].
  - by destruct (Hreqid eq_refl).
  - by specialize (Hcaller eq_refl).
  - destruct Hm as [Hres _]. split; rewrite ?Hres; try apply Hwf.
    intros x xid Hx Hxid. rewrite Hi in Hx. apply in_app_or in Hx as [Hx|[<-|[]]];
      [by apply Hwf|]. cbn in Hxid. congruence.
Qed.

(** A broker result keeps the well-formedness of the reservations. *)
Lemma wf_record now clock fence i intent d d' :
  recorded now clock fence i intent d d' → reservations_wf d → reservations_wf d'.
Proof.
  intros Hrec Hwf.
  assert (Hrows : ∃ p committed now', db_reservations d' =
    update_where p (settle_reservation committed now') (db_reservations d)).
  { destruct (rec_money _ _ _ _ _ _ _ Hrec) as [(Hr & _)|(id & r & _ & _ & _ & _ & _ & Hr & _)];
      [|eauto]. exists (λ _, false), true, 0. rewrite Hr. symmetry. by apply update_where_false. }
  destruct Hrows as (p & committed & now' & Hrows).
  split; rewrite Hrows.
  - rewrite (update_where_key resv_id); [apply Hwf|done].
  - intros r' (r & Hr & ->)%update_where_In. pose proof (rw_amounts _ Hwf r Hr).
    by destruct (p r).
  - intros x id Hx Hid. rewrite (rec_intents _ _ _ _ _ _ _ Hrec) in Hx.
    apply update_where_In in Hx as (x0 & Hx0 & ->).
    destruct (rw_owner _ Hwf x0 id) as (r & Hr & Hrid & Hacct);
      [done|by destruct (intent_id x0 =? _)%string|].
    exists (if p r then settle_reservation committed now' r else r). split.
    + apply update_where_In. eauto.
    + destruct (p r), (intent_id x0 =? _)%string; done.
Qed.

Lemma trade_step_balanced d d' :
  trade_step d d' → reservations_wf d ∧ allocations_balanced d →
  reservations_wf d' ∧ allocations_balanced d'.
Proof.
  intros [now clock f i r d2 Hcaller H|now clock f i r d2 H|now clock f i r d2 H|ls cs]
    [Hwf Hbal].
  - apply reserve_spec in H as [[-> _]|(cand & rv & cf & Hg & _ & Hw)]; [done|].
    split; [|by eapply balanced_reserve]. eapply wf_reserve; eauto.
    intros Hreq. by apply Hg.
  - apply record_spec in H as [[-> _]|[_ [intent Hrec]]].
    + split; [|by apply (balanced_eq d)]. apply (wf_eq d); [done| |done]. intros x Hx. eauto.
    + split; [by eapply wf_record|].
      eapply balanced_settle; [done| |apply Hrec|done].
      pose proof (rec_intent _ _ _ _ _ _ _ Hrec) as Hsel. by apply select_one_Some in Hsel as [Hsel _].
  - assert (db_reservations d2 = db_reservations d ∧ db_intents d2 = db_intents d ∧
      db_allocations d2 = db_allocations d) as (Hr & Hi & Ha).
    { split_and!; [eapply (evidence_keeps db_reservations)|eapply (evidence_keeps db_intents)
        |eapply (evidence_keeps db_allocations)]; try exact H; done. }
    split; [|by apply (balanced_eq d)]. apply (wf_eq d); [done| |done].
    rewrite Hi. eauto.
  - split; [|by apply (balanced_eq d)]. apply (wf_eq d); [done| |done]. intros x Hx. eauto.
Qed.

(** C37: Strategy allocations balance and are never over-committed.  From tables
    whose allocations in force have reserved exactly what the active
    reservations of their strategy hold, any sequence of reservations, broker
    results and evidence uploads keeps it so for every account and strategy,
    and keeps the reserved and deployed amounts together within the allocated
    amount: committing a reservation moves its amount from reserved to deployed,
    releasing it gives the amount back, and a reservation that would exceed the
    allocation is blocked. *)
Theorem allocations_stay_balanced d d' :
  reservations_wf d → allocations_balanced d → rtc trade_step d d' →
  reservations_wf d' ∧
  ∀ account strategy a, current_allocation account strategy d' = Some a →
    (alloc_reserved a == active_total account strategy d')%Q ∧
    ∀ cap, alloc_amount a = Some cap → (alloc_deployed a + alloc_reserved a <= cap)%Q.
Proof.
  intros Hwf Hbal Hsteps.
  assert (H : reservations_wf d' ∧ allocations_balanced d'); [|exact H].
  assert (H : reservations_wf d ∧ allocations_balanced d) by done. clear Hwf Hbal.
  induction Hsteps as [d|d1 d2 d3 Hs _ IH]; [done|]. apply IH. by eapply trade_step_balanced.
Qed.

(** ** The limits of an authorised reservation *)

Lemma counted_reservations_new fence i id cand A now d d' :
  db_reservations d' = db_reservations d ++ [new_reservation i id cand fence] →
  A = ri_accountId i → now < ri_expiresAt i →
  counted_reservations A now d' =
  counted_reservations A now d ++ [new_reservation i id cand fence].
Proof.
  intros Hres -> Hexp. unfold counted_reservations. rewrite Hres, List.filter_app. f_equal.
  cbn. rewrite String.eqb_refl. unfold is_active_reservation. cbn.
  by apply Z.ltb_lt in Hexp as ->.
Qed.

(** C38: An authorised reservation is within every limit in force.  The account's
    snapshot, risk limits and the strategy's allocation exist; after the
    reservation, with its own amount counted, buying power still covers all
    unexpired reservations, open orders and the cash reserve; the deployment,
    the exposure of the symbol and the allocation stay within their limits, in
    amount and in proportion to equity; and the numbers of positions and orders
    were below theirs. *)
Theorem reservation_within_limits now clock fence i d rid oid d' :
  reserveAndCreateOrderIntent now clock fence i d = Ret (Authorized rid oid, d') →
  ri_reservationRequired i = true →
  ∃ s l a a',
    select_one (is_snapshot (ri_accountId i) (ri_accountSnapshotId i)) (db_snapshots d) = Some s ∧
    select_one (is_current_limit (ri_accountId i)) (db_risk_limits d) = Some l ∧
    current_allocation (ri_accountId i) (ri_strategyKey i) d = Some a ∧
    current_allocation (ri_accountId i) (ri_strategyKey i) d' = Some a' ∧
    let equity := or_zero (snap_equity s) in
    let exposure := exposure_total (ri_accountId i) (ri_createdAt i) d' in
    (0 <= free_buying_power (ri_accountId i) (ri_createdAt i) s (lim_config l) d')%Q ∧
    (∀ cap, rl_maxDeploymentAmount (lim_config l) = Some cap → (exposure <= cap)%Q) ∧
    (∀ q, rl_maxDeploymentRatio (lim_config l) = Some q → (exposure <= equity * q)%Q) ∧
    (∀ cap, rl_maxSymbolNotional (lim_config l) = Some cap →
       (symbol_total (ri_accountId i) (ri_symbol i) (ri_createdAt i) d' <= cap)%Q) ∧
    (alloc_reserved a' == alloc_reserved a + ri_amount i)%Q ∧
    (∀ cap, alloc_amount a' = Some cap → (alloc_deployed a' + alloc_reserved a' <= cap)%Q) ∧
    (∀ q, alloc_ratio a' = Some q → (alloc_deployed a' + alloc_reserved a' <= equity * q)%Q) ∧
    (∀ n, rl_maxPositionCount (lim_config l) = Some n →
       Z.of_nat (List.length (counted_positions (ri_accountId i) d')) < n) ∧
    (∀ n, rl_maxOrderCount (lim_config l) = Some n →
       Z.of_nat (List.length (counted_orders (ri_accountId i) d')) < n).
Proof.
  intros H Hreq.
  apply reserve_spec in H as [[_ H]|(cand & rv & cf & Hg & _ & Hw)]; [by destruct (H rid oid)|].
  destruct Hg as (_ & _ & _ & _ & _ & Hlim). destruct (Hlim Hreq) as [Hid (v & Hv & Hnb)].
  pose proof (rsv_money _ _ _ _ _ _ _ Hw) as Hm. rewrite Hreq in Hm.
  destruct (ri_reservationId i) as [id|]; [|done]. destruct Hm as (_ & Hk & Hres & Hall).
  apply limit_query_Some in Hv as (s & l & a & Hs & Hl & Ha & ->).
  apply no_blockers in Hnb as (Hbp & Hdep & Hstr & Hsym & Hpos & Hord).
  cbn [limit_verdict buying_power_allowed deployment_allowed strategy_allowed symbol_allowed
    position_count_allowed order_count_allowed] in *.
  apply andb_true_iff in Hdep as [Hdep1 Hdep2], Hstr as [Hstr1 Hstr2].
  apply Qle_bool_iff in Hbp.
  assert (Hexp : ri_createdAt i < ri_expiresAt i).
  { unfold reservation_checks in Hk. rewrite !andb_true_iff in Hk.
    destruct Hk as [_ Hk]. by apply Z.ltb_lt in Hk. }
  destruct (rsv_others _ _ _ _ _ _ _ Hw) as (_ & _ & _ & _ & Hp & _ & _ & Ho & _).
  pose proof (counted_reservations_new fence i id cand _ _ d d' Hres eq_refl Hexp) as Hcr.
  exists s, l, a, (add_reserved (ri_amount i) (ri_createdAt i) a).
  do 3 (split; [done|]). split.
  - unfold current_allocation in Ha |- *. rewrite Hall.
    rewrite (select_update _ _ _ _ (is_current_add _ _ _ _ _ _)), Ha. cbn.
    apply select_one_Some in Ha as [_ Ha]. by rewrite Ha.
  - unfold free_buying_power, exposure_total, symbol_total, counted_orders, counted_positions in *.
    rewrite Hcr, ?Hp, ?Ho, List.filter_app.
    cbn [List.filter resv_symbol new_reservation alloc_reserved alloc_deployed alloc_amount
      alloc_ratio add_reserved]. rewrite String.eqb_refl.
    split_and!; intros; rewrite ?qsum_app, ?qsum_single; cbn [resv_amount new_reservation];
      try lra.
    + pose proof (within_Some _ _ _ Hdep1 H). lra.
    + unfold scaled_limit in Hdep2. rewrite H in Hdep2. apply Qle_bool_iff in Hdep2. lra.
    + pose proof (within_Some _ _ _ Hsym H). lra.
    + pose proof (within_Some _ _ _ Hstr1 H). lra.
    + unfold scaled_limit in Hstr2. rewrite H in Hstr2. apply Qle_bool_iff in Hstr2. lra.
    + unfold below in Hpos. rewrite H in Hpos. lia.
    + unfold below in Hord. rewrite H in Hord. lia.
Qed.

(** ** Fencing *)

Lemma rejected_fence_no_write now clock fence d :
  fence_accepted (fence_verdict now clock (db_leases d) fence) = false →
  let token := rejected_token (fence_verdict now clock (db_leases d) fence) in
  (∀ i, reserveAndCreateOrderIntent now clock fence i d =
     Ret (ReservationFenceRejected token, d)) ∧
  (∀ i, authorizeBrokerMutation now clock fence i d = Ret (MutationFenceRejected token, d)) ∧
  (∀ i, recordBrokerResult now clock fence i d = Ret (RecordFenceRejected token, d)) ∧
  (∀ i, upsertExecutionEvidence now clock fence i d = Ret (EvidenceFenceRejected token, d)) ∧
  (∀ i, syncAccountState now clock fence i d = Ret (SyncFenceRejected token, d)) ∧
  listBrokerReconciliationTargets now clock fence d = Ret (inl token, d).
Proof.
  intros Hf token.
  split_and!; intros;
    unfold reserveAndCreateOrderIntent, authorizeBrokerMutation, recordBrokerResult,
      upsertExecutionEvidence, syncAccountState, listBrokerReconciliationTargets,
      mbind, tx_bind, requireCurrentFence, gets, leases_of, ExecDb_HasLeases;
    by rewrite Hf.
Qed.

(** A run that has lost its lease cannot write.  Once another run has
    acquired the job's lease, every execution operation called with a fence of
    an earlier token answers fence_rejected and leaves all tables as they were,
    for ever after, whatever the clocks say. *)
Theorem superseded_run_cannot_write ldb lnow li l ldb1 ldb2 fence z d :
  lease_reachable lease_init ldb →
  acquire lnow li ldb = Ret (Acquired l, ldb1) →
  lease_reachable ldb1 ldb2 →
  fence_job_name fence = acq_jobName li → fence_token fence = token_text z →
  z < token_seq ldb → db_leases d = leases ldb2 →
  ∀ now clock, ∃ token,
    (∀ i, reserveAndCreateOrderIntent now clock fence i d =
       Ret (ReservationFenceRejected token, d)) ∧
    (∀ i, authorizeBrokerMutation now clock fence i d = Ret (MutationFenceRejected token, d)) ∧
    (∀ i, recordBrokerResult now clock fence i d = Ret (RecordFenceRejected token, d)) ∧
    (∀ i, upsertExecutionEvidence now clock fence i d = Ret (EvidenceFenceRejected token, d)) ∧
    (∀ i, syncAccountState now clock fence i d = Ret (SyncFenceRejected token, d)) ∧
    listBrokerReconciliationTargets now clock fence d = Ret (inl token, d).
Proof.
  intros Hreach Hacq Hreach2 Hj Hz Hlt Hd now clock.
  destruct (superseded_token_refused _ _ _ _ _ _ _ _ Hreach Hacq Hreach2 Hj Hz Hlt)
    as [_ Hold].
  eexists. apply rejected_fence_no_write. rewrite Hd. apply Hold.
Qed.

(** ** Replays of reservations *)

Lemma select_none_existsb {R} (p q : R → bool) t :
  (∀ r, q r = true → p r = true) → existsb p t = false → select_one q t = None.
Proof.
  intros Hpq. unfold select_one. induction t as [|r t IH]; simpl; [done|].
  intros [Hr Ht]%orb_false_iff. destruct (q r) eqn:E; [|auto].
  apply Hpq in E. congruence.
Qed.

(** Retrying a reservation is harmless: after an authorised call the same
    call under any current fence answers duplicate and changes nothing, so a
    request reserves and creates its order intent once. *)
Theorem reservation_replay now clock fence i d rid oid d' now' clock' fence' :
  reserveAndCreateOrderIntent now clock fence i d = Ret (Authorized rid oid, d') →
  fence_accepted (fence_verdict now' clock' (db_leases d') fence') = true →
  reserveAndCreateOrderIntent now' clock' fence' i d' = Ret (DuplicateIntent rid oid, d') ∧
  ∃ candidate, db_intents d' = db_intents d ++ [new_intent i candidate].
Proof.
  intros H Hf.
  apply reserve_spec in H as [[_ H]|(cand & rv & cf & Hg & Hres & Hw)]; [by destruct (H rid oid)|].
  injection Hres as -> ->. destruct Hg as (_ & (a & Ha) & _).
  destruct (rsv_intent_new _ _ _ _ _ _ _ Hw) as (Hno & _ & Hi).
  destruct (rsv_others _ _ _ _ _ _ _ Hw) as (_ & _ & Haccts & _).
  split; [|by eauto].
  unfold reserveAndCreateOrderIntent, mbind, tx_bind, requireCurrentFence, gets, leases_of,
    ExecDb_HasLeases. rewrite Hf. cbn [negb]. unfold select_row, gets. rewrite Haccts, Ha.
  rewrite Hi, (select_one_app_new _ _ (new_intent i cand)).
  - cbn. unfold opt_str_eqb. rewrite !String.eqb_refl, bool_decide_eq_true_2 by done. done.
  - eapply select_none_existsb; [|exact Hno]. intros r Hr.
    apply andb_true_iff in Hr as [Hr1%String.eqb_eq Hr2%String.eqb_eq].
    unfold intent_conflicts. cbn. rewrite Hr1, Hr2, !String.eqb_refl. cbn.
    by rewrite !orb_true_r.
  - cbn. by rewrite !String.eqb_refl.
Qed.
