(* ===== verification/ExecutionWitnesses.v ===== *)
(** A small account on which the properties of the execution repository are
    exercised: one lease, one strategy allocation of 500 dollars, one review
    with its confirmation, and an order that is reserved, submitted, replayed
    and finally refused for want of allocation. *)

From S2P Require Import Prelude.
From S2P Require Import JsString.
From S2P Require Import BrokerOrderStatus.
From S2P Require Import SchedulerLease.
From S2P Require Import ExecutionTables.
From S2P Require Import ExecutionReservation.
From S2P Require Import BrokerResult.
From S2P Require Import ExecutionEvidence.
From S2P Require Import AccountSync.
From S2P Require Import ExecutionInvariants.
Open Scope Z_scope.

Definition demo_row : SchedulerLeaseRow := demo_lease "a" "r1" 1 0 1.
Definition demo_fence : SchedulerFence := fence_of demo_row.

Definition demo_limits : RiskLimitProjection :=
  {| rl_id := "limit"; rl_cashReserveAmount := Some 100%Q; rl_cashReserveRatio := None;
     rl_maxDeploymentAmount := Some 900%Q; rl_maxDeploymentRatio := None;
     rl_maxGrossExposure := None; rl_maxNetExposure := None; rl_maxOpenOrderExposure := None;
     rl_maxPositionNotional := None; rl_maxSymbolNotional := Some 700%Q;
     rl_maxPositionCount := Some 5; rl_maxOrderCount := Some 5;
     rl_configVersion := "v1"; rl_configFingerprint := "cfg" |}.

Definition demo_exposure : ExposureProjection :=
  {| ex_id := "exposure"; ex_grossExposure := 0; ex_netExposure := 0; ex_longExposure := 0;
     ex_shortExposure := 0; ex_openOrderExposure := 0; ex_activeReservationAmount := 0;
     ex_deployedAmount := 0; ex_cashReserveAmount := 0; ex_availableBuyingPower := None;
     ex_positionCount := 0; ex_openOrderCount := 0; ex_fingerprint := "exf"; ex_evidence := "{}" |}.

Definition demo_position : ExecutionPositionProjection :=
  {| pp_id := "position"; pp_brokerPositionKey := "SPY"; pp_candidateId := None;
     pp_openingOrderId := None; pp_closingOrderId := None; pp_symbol := "SPY";
     pp_underlyingSymbol := None; pp_optionSymbol := None; pp_assetClass := equity;
     pp_side := PositionLong; pp_quantity := 1; pp_availableQuantity := None;
     pp_averageEntryPrice := None; pp_currentPrice := None; pp_marketValue := Some 100%Q;
     pp_costBasis := None; pp_unrealizedPnl := None; pp_realizedPnl := None; pp_openedAt := 50 |}.

Definition demo_account : ExecutionAccountProjection :=
  {| ap_accountId := "acct"; ap_brokerAccountId := "broker"; ap_accountSnapshotId := "snap";
     ap_observedAt := 50; ap_accountStatus := "ACTIVE"; ap_currency := "USD";
     ap_cash := None; ap_portfolioValue := None; ap_equity := Some 1000%Q;
     ap_buyingPower := Some 1000%Q; ap_optionsBuyingPower := None;
     ap_optionsApprovedLevel := None; ap_tradingBlocked := false; ap_accountBlocked := false;
     ap_snapshotFingerprint := "snapf"; ap_evidence := "{}"; ap_positions := [demo_position];
     ap_riskLimit := demo_limits;
     ap_strategyAllocation :=
       {| sap_id := "allocation"; sap_strategyKey := "core"; sap_allocationAmount := Some 500%Q;
          sap_allocationRatio := None; sap_configVersion := "v1"; sap_configFingerprint := "cfg" |};
     ap_exposure := demo_exposure |}.

Definition demo_evidence (n : string) : ExecutionEvidenceInput :=
  {| ev_accountId := "acct"; ev_candidateId := None;
     ev_review :=
       {| rv_id := "review" +:+ n; rv_reviewType := ReviewEntry; rv_status := ReviewCreated;
          rv_clientOrderId := None; rv_accountFingerprint := "af";
          rv_sourceRecommendationId := None; rv_sourceSnapshotId := None;
          rv_configurationFingerprint := "cf"; rv_payloadFingerprint := "pf" +:+ n;
          rv_signatureAlgorithm := "hmac"; rv_signature := "sig"; rv_orderIntent := "{}";
          rv_marketEvidence := "{}"; rv_portfolioEvidence := "{}"; rv_warnings := "[]";
          rv_blockers := "[]"; rv_requestId := None; rv_correlationId := None;
          rv_expiresAt := 100000; rv_createdAt := 60 |};
     ev_confirmation :=
       {| cf_id := "confirmation" +:+ n; cf_evidenceType := "token"; cf_confirmationMethod := "auto";
          cf_status := ConfirmationValid; cf_payloadFingerprint := "cpf" +:+ n;
          cf_signatureAlgorithm := None; cf_signature := None; cf_evidence := "{}";
          cf_confirmedAt := 60; cf_expiresAt := 100000 |};
     ev_lifecycleFingerprint :=
       {| lf_id := "lifecycle" +:+ n; lf_entityType := "execution_review"; lf_entityId := "review" +:+ n;
          lf_lifecycleStage := "confirmed"; lf_fingerprint := "lfp"; lf_payloadVersion := 1;
          lf_evidence := "{}"; lf_requestId := None; lf_correlationId := None;
          lf_capturedAt := 60 |} |}.

(** A limit order for one share at [amount]. *)
Definition demo_order (n : string) (amount : Q) : ExecutionReservationIntentInput :=
  {| ri_reservationId := Some ("reservation" +:+ n); ri_reservationRequired := true;
     ri_orderIntentId := "intent" +:+ n; ri_accountId := "acct"; ri_accountSnapshotId := "snap";
     ri_candidateId := None; ri_strategyKey := "core"; ri_symbol := "SPY";
     ri_underlyingSymbol := None; ri_assetClass := equity; ri_amount := amount;
     ri_idempotencyKey := "key" +:+ n; ri_reservationFingerprint := "rf" +:+ n; ri_expiresAt := 9000;
     ri_clientOrderId := "client" +:+ n; ri_side := buy; ri_orderType := limit;
     ri_timeInForce := day; ri_quantity := Some 1%Q; ri_notional := None;
     ri_limitPrice := Some amount; ri_stopPrice := None; ri_estimatedPremium := None;
     ri_maxRisk := None; ri_intentFingerprint := "if" +:+ n; ri_lifecycleFingerprint := "lf" +:+ n;
     ri_executionReviewId := Some ("review" +:+ n); ri_confirmationEvidenceId := Some ("confirmation" +:+ n);
     ri_requestPayload := "{}"; ri_requestId := None; ri_correlationId := None;
     ri_createdAt := 70 |}.

Definition demo_result (n status : string) (amount filled : Q) : BrokerResultInput :=
  {| br_eventId := "event" +:+ n +:+ status; br_orderId := "order" +:+ n; br_orderIntentId := "intent" +:+ n;
     br_brokerOrderId := Some ("b" +:+ n); br_clientOrderId := "client" +:+ n;
     br_brokerClientOrderId := None; br_replacesBrokerOrderId := None; br_symbol := "SPY";
     br_assetClass := equity; br_side := buy; br_orderType := limit; br_timeInForce := day;
     br_status := status; br_quantity := Some 1%Q; br_notional := None;
     br_limitPrice := Some amount; br_stopPrice := None; br_brokerQuantity := None;
     br_brokerNotional := None; br_brokerLimitPrice := None; br_brokerStopPrice := None;
     br_filledQuantity := filled; br_filledAveragePrice := None; br_requestId := None;
     br_httpStatus := Some 200; br_errorClassification := None; br_retryable := None;
     br_responsePayload := "{}"; br_responseFingerprint := "fp" +:+ status; br_occurredAt := 80;
     br_receivedAt := 90 |}.

(** ** The runs *)

(** The tables after a run, or the tables before it when it throws. *)
Definition after {A} (m : tx ExecDb A) (d : ExecDb) : ExecDb :=
  match m d with Ret (_, d') => d' | Throw _ => d end.

Definition demo_empty : ExecDb :=
  {| db_leases := [demo_row]; db_candidates := []; db_accounts := []; db_snapshots := [];
     db_positions := []; db_risk_limits := []; db_allocations := []; db_exposures := [];
     db_reviews := []; db_confirmations := []; db_reservations := []; db_intents := [];
     db_orders := []; db_events := []; db_fingerprints := [] |}.

Definition demo_synced : ExecDb :=
  after (syncAccountState 100 100 demo_fence demo_account) demo_empty.
Definition demo_reviewed : ExecDb :=
  after (upsertExecutionEvidence 100 100 demo_fence (demo_evidence "1")) demo_synced.
Definition demo_reserved : ExecDb :=
  after (reserveAndCreateOrderIntent 100 100 demo_fence (demo_order "1" 300)) demo_reviewed.
Definition demo_submitted : ExecDb :=
  after (recordBrokerResult 100 100 demo_fence (demo_result "1" "new" 300 0)) demo_reserved.
Definition demo_held : ExecDb :=
  after (recordBrokerResult 100 100 demo_fence (demo_result "1" "held" 300 0)) demo_reserved.
Definition demo_filled : ExecDb :=
  after (recordBrokerResult 100 100 demo_fence (demo_result "1" "filled" 300 1)) demo_submitted.

(** A second order of the strategy would exceed its allocation. *)
Definition demo_second : res (ExecutionReservationResult * ExecDb) :=
  reserveAndCreateOrderIntent 100 100 demo_fence (demo_order "2" 201)
    (after (upsertExecutionEvidence 100 100 demo_fence (demo_evidence "2")) demo_submitted).

Example demo_second_blocked : ∃ d,
  demo_second = Ret (ReservationBlocked ["STRATEGY_ALLOCATION_LIMIT_EXCEEDED"%string], d).
Proof. eexists. vm_compute. reflexivity. Qed.

(** ** Witnesses *)

Ltac run := vm_compute; reflexivity.

Lemma evidence_used_once_witness :
  reserveAndCreateOrderIntent 100 100 demo_fence (demo_order "1" 300) demo_reviewed =
    Ret (Authorized (Some "reservation1"%string) "intent1", demo_reserved) ∧
  ∀ d3, reserveAndCreateOrderIntent 100 100 demo_fence (demo_order "1" 300) demo_reserved ≠
    Ret (Authorized (Some "reservation1"%string) "intent1", d3).
Proof.
  assert (H : reserveAndCreateOrderIntent 100 100 demo_fence (demo_order "1" 300) demo_reviewed =
    Ret (Authorized (Some "reservation1"%string) "intent1", demo_reserved)) by run.
  split; [exact H|]. intros d3.
  destruct (evidence_used_once _ _ _ _ _ _ _ _ demo_reserved H (rtc_refl _ _))
    as (review & confirmation & Hrv & Hcf & _ & _ & Hnever).
  apply Hnever. left. exact Hrv.
Defined.

Lemma reservation_within_limits_witness :
  ∃ a', current_allocation "acct" "core" demo_reserved = Some a' ∧
    (alloc_deployed a' + alloc_reserved a' <= 500)%Q.
Proof.
  assert (H : reserveAndCreateOrderIntent 100 100 demo_fence (demo_order "1" 300) demo_reviewed =
    Ret (Authorized (Some "reservation1"%string) "intent1", demo_reserved)) by run.
  destruct (reservation_within_limits _ _ _ _ _ _ _ _ H eq_refl)
    as (s & l & a & a' & _ & _ & _ & Ha' & _ & _ & _ & _ & _ & Hcap & _).
  exists a'. split; [exact Ha'|]. apply Hcap.
  assert (option_map alloc_amount (current_allocation "acct" "core" demo_reserved)
    = Some (Some 500%Q)) as E by run.
  cbn [ri_accountId ri_strategyKey demo_order] in Ha'. rewrite Ha' in E.
  cbn [option_map] in E. congruence.
Defined.

Lemma demo_wf : reservations_wf demo_reviewed.
Proof.
  split.
  - vm_compute. constructor.
  - intros r H. vm_compute in H. destruct H.
  - intros x id H. vm_compute in H. destruct H.
Qed.

Lemma demo_balanced : allocations_balanced demo_reviewed.
Proof.
  intros account strategy a H. apply select_one_Some in H as [H _].
  assert (E : db_reservations demo_reviewed = []) by run.
  unfold active_total. rewrite E. vm_compute in H. destruct H as [<-|[]]. cbn.
  split; [reflexivity|]. intros cap [= <-]. vm_compute. discriminate.
Qed.

Lemma allocations_stay_balanced_witness :
  ∃ a, current_allocation "acct" "core" demo_filled = Some a ∧
    (alloc_reserved a == active_total "acct" "core" demo_filled)%Q ∧
    (alloc_deployed a == 300)%Q.
Proof.
  assert (Hsteps : rtc trade_step demo_reviewed demo_filled).
  { eapply rtc_l; [eapply (trade_reserve _ 100 100 demo_fence (demo_order "1" 300));
      [discriminate|run]|].
    eapply rtc_l; [eapply (trade_record _ 100 100 demo_fence (demo_result "1" "new" 300 0)); run|].
    eapply rtc_l; [eapply (trade_record _ 100 100 demo_fence (demo_result "1" "filled" 300 1)); run|].
    apply rtc_refl. }
  destruct (allocations_stay_balanced _ _ demo_wf demo_balanced Hsteps) as [_ Hall].
  assert (E : option_map (λ a, Qeq_bool (alloc_deployed a) 300)
    (current_allocation "acct" "core" demo_filled) = Some true) by run.
  destruct (current_allocation "acct" "core" demo_filled) as [a|] eqn:Ha; [|discriminate E].
  exists a. split; [reflexivity|]. split; [exact (proj1 (Hall _ _ _ Ha))|].
  apply Qeq_bool_iff. cbn [option_map] in E. congruence.
Defined.

Lemma reservation_replay_witness :
  reserveAndCreateOrderIntent 500 500 demo_fence (demo_order "1" 300) demo_reserved =
    Ret (DuplicateIntent (Some "reservation1"%string) "intent1", demo_reserved).
Proof.
  assert (H : reserveAndCreateOrderIntent 100 100 demo_fence (demo_order "1" 300) demo_reviewed =
    Ret (Authorized (Some "reservation1"%string) "intent1", demo_reserved)) by run.
  assert (Hf : fence_accepted (fence_verdict 500 500 (db_leases demo_reserved) demo_fence) = true)
    by run.
  exact (proj1 (reservation_replay _ _ _ _ _ _ _ _ _ _ _ H Hf)).
Defined.

Lemma broker_result_replay_witness :
  recordBrokerResult 500 500 demo_fence (demo_result "1" "new" 300 0) demo_submitted =
    Ret (DuplicateResult "order1", demo_submitted).
Proof.
  assert (H : recordBrokerResult 100 100 demo_fence (demo_result "1" "new" 300 0) demo_reserved =
    Ret (Recorded "order1", demo_submitted)) by run.
  assert (Hf : fence_accepted (fence_verdict 500 500 (db_leases demo_submitted) demo_fence) = true)
    by run.
  exact (proj1 (broker_result_replay _ _ _ _ _ _ _ _ _ _ H Hf)).
Defined.

Lemma broker_results_never_regress_witness :
  fills_kept demo_submitted demo_filled ∧
  ∀ r d', recordBrokerResult 100 100 demo_fence (demo_result "1" "new" 300 0) demo_filled = Ret (r, d') →
    ∃ x, In x (db_intents d') ∧ intent_status x = IntentReconciled.
Proof.
  assert (H : recordBrokerResult 100 100 demo_fence (demo_result "1" "filled" 300 1) demo_submitted =
    Ret (Recorded "order1", demo_filled)) by run.
  assert (Hids : map intent_id (db_intents demo_submitted) = ["intent1"%string]) by run.
  assert (Hids' : map intent_id (db_intents demo_filled) = ["intent1"%string]) by run.
  split.
  - refine (proj1 (broker_results_never_regress _ _ _ _ _ _ _ _ H)).
    rewrite Hids. apply NoDup_singleton.
  - intros r d' Hr.
    assert (Hnd : NoDup (map intent_id (db_intents demo_filled)))
      by (rewrite Hids'; apply NoDup_singleton).
    destruct (broker_results_never_regress _ _ _ _ _ _ _ Hnd Hr) as (_ & Hterm & _).
    assert (Hst : map intent_status (db_intents demo_filled) = [IntentReconciled]) by run.
    destruct (db_intents demo_filled) as [|x [|y l]] eqn:Hx; try discriminate Hst.
    injection Hst as Hst. destruct (Hterm x (or_introl eq_refl)) as (x' & Hx' & _ & E).
    + rewrite Hst. reflexivity.
    + exists x'. split; [exact Hx'|congruence].
Defined.

Lemma live_order_given_up_witness :
  isActiveBrokerOrderStatus (Some "held"%string) = true ∧
  ∀ o d2, recordBrokerResult 200 200 demo_fence (demo_result "1" "filled" 300 1) demo_held ≠
    Ret (Recorded o, d2).
Proof.
  assert (H : recordBrokerResult 100 100 demo_fence (demo_result "1" "held" 300 0) demo_reserved =
    Ret (Recorded "order1", demo_held)) by run.
  assert (Ha : isActiveBrokerOrderStatus (Some (br_status (demo_result "1" "held" 300 0))) = true)
    by run.
  assert (Hk : known (classifyBrokerOrderStatus (Some (br_status (demo_result "1" "held" 300 0)))) = true)
    by run.
  assert (Hn : ¬ In (normalized (classifyBrokerOrderStatus
      (Some (br_status (demo_result "1" "held" 300 0))))) submitted_statuses).
  { vm_compute. intros Hin. repeat destruct Hin as [Hin|Hin]; try discriminate Hin; destruct Hin. }
  assert (Hst : orderIntentStatus (br_status (demo_result "1" "filled" 300 1)) ≠ IntentFailed)
    by (vm_compute; discriminate).
  split; [exact Ha|]. intros o d2.
  exact (proj2 (live_order_given_up _ _ _ _ _ _ _ Hk Hn H Ha) 200 200 demo_fence
    (demo_result "1" "filled" 300 1) o d2 eq_refl Hst).
Defined.

Lemma evidence_upload_replay_witness :
  upsertExecutionEvidence 500 500 demo_fence (demo_evidence "1") demo_reviewed =
    Ret (EvidenceStored, demo_reviewed).
Proof.
  assert (H : upsertExecutionEvidence 100 100 demo_fence (demo_evidence "1") demo_synced =
    Ret (EvidenceStored, demo_reviewed)) by run.
  assert (Hf : fence_accepted (fence_verdict 500 500 (db_leases demo_reviewed) demo_fence) = true)
    by run.
  exact (proj1 (evidence_upload_replay _ _ _ _ _ _ _ _ _ H Hf)).
Defined.

Lemma sync_mirrors_positions_witness : mirrored demo_account demo_position demo_synced.
Proof.
  assert (H : syncAccountState 100 100 demo_fence demo_account demo_empty =
    Ret (Synced "acct" "snap", demo_synced)) by run.
  refine (proj1 (proj2 (sync_mirrors_positions _ _ _ _ _ _ _ _ H)) _ _ _).
  - apply NoDup_singleton.
  - left. reflexivity.
Defined.

(** The run of [demo_db2]'s previous holder is locked out. *)
Lemma superseded_run_cannot_write_witness :
  ∃ token, recordBrokerResult 2500 2500 demo_fence (demo_result "1" "new" 300 0)
    (set_environment (leases demo_db2) [] demo_reserved) =
    Ret (RecordFenceRejected token, set_environment (leases demo_db2) [] demo_reserved).
Proof.
  assert (Hacq : acquire 2000 (demo_acquire "b" "r2") demo_db1 =
    Ret (Acquired (demo_lease "b" "r2" 2 2000 2), demo_db2)) by run.
  assert (Hlt : 1 < token_seq demo_db1) by run.
  destruct (superseded_run_cannot_write demo_db1 2000 (demo_acquire "b" "r2")
    _ demo_db2 demo_db2 demo_fence 1 (set_environment (leases demo_db2) [] demo_reserved)
    demo_reachable Hacq (rtc_refl lease_step demo_db2) eq_refl eq_refl Hlt eq_refl 2500 2500)
    as (token & _ & _ & Hrec & _).
  exists token. apply Hrec.
Defined.
