(* ===== verification/Idempotency.v ===== *)
(** Idempotency records: src/repositories/postgres/postgresIdempotencyRepository.ts
    with its contract src/repositories/contracts/idempotencyRepository.ts and the
    table idempotency_records of migration 001.

    A caller that wants to perform an external action once first [begin]s it
    under a scope and key, and settles it with [complete] or [fail].  Rows are
    unique per (scope, key); each method is one transaction that holds the row
    lock.  Hashing, JSON text and the jsonb cast belong to Node and the
    database: they are parameters.  Timestamps are milliseconds. *)

From S2P Require Import Prelude.
From S2P Require Import JsString.
From S2P Require Import SchedulerLease.
Open Scope Z_scope.

Inductive IdempotencyRecordStatus : Set := in_progress | completed | failed | expired.
#[export] Instance IdempotencyRecordStatus_eq_dec : EqDecision IdempotencyRecordStatus.
Proof. solve_decision. Defined.

Section idempotency.
Context {Json : Type}.
(** What the driver reads back after the cast to jsonb; JSON null is [None]. *)
Context (jsonb : Json → option Json).
Context (JSON_stringify : Json → string).
Context (stableRecordId : string → string → string).

Record IdempotencyRow := {
  idem_id : string;
  idem_scope : string;
  idem_key : string;
  idem_request_fingerprint : string;
  idem_status : IdempotencyRecordStatus;
  idem_response_data : option Json;
  idem_response_fingerprint : option string;
  idem_error_code : option string;
  idem_owner_id : string;
  idem_run_id : string;
  idem_expires_at : option Z;
  idem_completed_at : option Z;
  idem_created_at : Z;
  idem_updated_at : Z;
  idem_version : Z
}.

Record IdempotencyRecord := {
  scope : string;
  key : string;
  requestHash : string;
  status : IdempotencyRecordStatus;
  response : option Json;
  errorCode : option string;
  createdAt : Z;
  updatedAt : Z;
  expiresAt : option Z;
  version : Z
}.

Definition mapRecord (row : IdempotencyRow) : IdempotencyRecord :=
  {| scope := idem_scope row; key := idem_key row;
     requestHash := idem_request_fingerprint row; status := idem_status row;
     response := idem_response_data row; errorCode := idem_error_code row;
     createdAt := idem_created_at row; updatedAt := idem_updated_at row;
     expiresAt := idem_expires_at row; version := idem_version row |}.

Inductive IdempotencyBeginResult : Type :=
| BeginAcquired (record : IdempotencyRecord)
| Replay (record : IdempotencyRecord)
| InProgress (record : IdempotencyRecord)
| RequestConflict (existingRequestHash : string).

Inductive VersionedWriteResult : Set :=
| Updated (v : Z)
| NotFound
| VersionConflict (currentVersion : Z).

(** The actor and the operation of the repository context. *)
Record OperationContext := { actorId : string; operationId : string }.

Record BeginInput := {
  bg_scope : string;
  bg_key : string;
  bg_requestHash : string;
  bg_startedAt : Z;
  bg_expiresAt : option Z
}.

(** What identifies an attempt in [complete] and [fail]. *)
Record Attempt := {
  at_scope : string;
  at_key : string;
  at_requestHash : string;
  at_expectedVersion : Z
}.

Definition Db : Type := list IdempotencyRow.

(** The CHECK constraints of idempotency_records. *)
Definition idempotency_checks (r : IdempotencyRow) : bool :=
  btrim_nonempty (idem_id r) && btrim_nonempty (idem_scope r) && btrim_nonempty (idem_key r)
  && btrim_nonempty (idem_request_fingerprint r)
  && match idem_status r with completed => bool_decide (is_Some (idem_completed_at r)) | _ => true end
  && match idem_expires_at r with Some e => idem_created_at r <? e | None => true end
  && (0 <? idem_version r)
  && (idem_created_at r <=? idem_updated_at r).

Definition has_key (s k : string) (r : IdempotencyRow) : bool :=
  (idem_scope r =? s)%string && (idem_key r =? k)%string.

(** An UPDATE that aborts when a new row breaks a constraint; the first of the
    RETURNING rows. *)
Definition update_returning (p : IdempotencyRow → bool) (f : IdempotencyRow → IdempotencyRow)
    : tx Db (option IdempotencyRow) := λ db,
  match select_one p db with
  | Some r => if forallb (λ x, negb (p x) || idempotency_checks (f x)) db
              then Ret (Some (f r), update_where p f db)
              else Throw check_violation
  | None => Ret (None, db)
  end.

Definition find (s k : string) : tx Db (option IdempotencyRecord) :=
  gets (λ db, mapRecord <$> select_one (has_key s k) db).

Definition new_record (ctx : OperationContext) (i : BeginInput) : IdempotencyRow :=
  {| idem_id := stableRecordId (bg_scope i) (bg_key i); idem_scope := bg_scope i;
     idem_key := bg_key i; idem_request_fingerprint := bg_requestHash i;
     idem_status := in_progress; idem_response_data := None;
     idem_response_fingerprint := None; idem_error_code := None;
     idem_owner_id := actorId ctx; idem_run_id := operationId ctx;
     idem_expires_at := bg_expiresAt i; idem_completed_at := None;
     idem_created_at := bg_startedAt i; idem_updated_at := bg_startedAt i;
     idem_version := 1 |}.

(** [INSERT ... ON CONFLICT (scope, idempotency_key) DO NOTHING RETURNING ...];
    the primary key is not among the conflict targets. *)
Definition insert_record (r : IdempotencyRow) : tx Db (option IdempotencyRow) := λ db,
  if existsb (has_key (idem_scope r) (idem_key r)) db then Ret (None, db)
  else if existsb (λ x, (idem_id x =? idem_id r)%string) db then Throw "unique_violation"
  else if idempotency_checks r then Ret (Some r, db ++ [r])
  else Throw check_violation.

Definition reset_record (ctx : OperationContext) (i : BeginInput) (r : IdempotencyRow) : IdempotencyRow :=
  {| idem_id := idem_id r; idem_scope := idem_scope r; idem_key := idem_key r;
     idem_request_fingerprint := idem_request_fingerprint r; idem_status := in_progress;
     idem_response_data := None; idem_response_fingerprint := None; idem_error_code := None;
     idem_owner_id := actorId ctx; idem_run_id := operationId ctx;
     idem_expires_at := bg_expiresAt i; idem_completed_at := None;
     idem_created_at := idem_created_at r; idem_updated_at := bg_startedAt i;
     idem_version := idem_version r + 1 |}.

Definition record_expired (startedAt : Z) (r : IdempotencyRow) : bool :=
  match idem_expires_at r with Some e => e <=? startedAt | None => false end.

Definition begin (ctx : OperationContext) (i : BeginInput) : tx Db IdempotencyBeginResult :=
  inserted ← insert_record (new_record ctx i);
  match inserted with
  | Some row => mret (BeginAcquired (mapRecord row))
  | None =>
      selected ← gets (select_one (has_key (bg_scope i) (bg_key i)));
      match selected with
      | None => throw "POSTGRES_IDEMPOTENCY_CONFLICT_ROW_MISSING"
      | Some row =>
          if negb (idem_request_fingerprint row =? bg_requestHash i)%string
          then mret (RequestConflict (idem_request_fingerprint row))
          else if bool_decide (idem_status row = completed) then mret (Replay (mapRecord row))
          else if bool_decide (idem_status row = in_progress)
                  && negb (record_expired (bg_startedAt i) row)
          then mret (InProgress (mapRecord row))
          else
            reset ← update_returning (has_key (bg_scope i) (bg_key i)) (reset_record ctx i);
            match reset with
            | Some r => mret (BeginAcquired (mapRecord r))
            | None => throw "TypeError"
            end
      end
  end.

Definition attempt_row (a : Attempt) (r : IdempotencyRow) : bool :=
  has_key (at_scope a) (at_key a) r
  && (idem_request_fingerprint r =? at_requestHash a)%string
  && (idem_version r =? at_expectedVersion a)
  && bool_decide (idem_status r = in_progress).

Definition mutationMiss (a : Attempt) : tx Db VersionedWriteResult :=
  result ← gets (select_one (has_key (at_scope a) (at_key a)));
  match result with
  | None => mret NotFound
  | Some row =>
      if negb (idem_request_fingerprint row =? at_requestHash a)%string
         || negb (idem_version row =? at_expectedVersion a)
      then mret (VersionConflict (idem_version row))
      else mret NotFound
  end.

Definition completed_record (resp : Json) (completedAt : Z) (r : IdempotencyRow)
    : IdempotencyRow :=
  {| idem_id := idem_id r; idem_scope := idem_scope r; idem_key := idem_key r;
     idem_request_fingerprint := idem_request_fingerprint r; idem_status := completed;
     idem_response_data := jsonb resp;
     idem_response_fingerprint := Some (stableRecordId "response" (JSON_stringify resp));
     idem_error_code := idem_error_code r;
     idem_owner_id := idem_owner_id r; idem_run_id := idem_run_id r;
     idem_expires_at := idem_expires_at r; idem_completed_at := Some completedAt;
     idem_created_at := idem_created_at r; idem_updated_at := completedAt;
     idem_version := idem_version r + 1 |}.

Definition failed_record (code : string) (failedAt : Z) (r : IdempotencyRow) : IdempotencyRow :=
  {| idem_id := idem_id r; idem_scope := idem_scope r; idem_key := idem_key r;
     idem_request_fingerprint := idem_request_fingerprint r; idem_status := failed;
     idem_response_data := idem_response_data r;
     idem_response_fingerprint := idem_response_fingerprint r;
     idem_error_code := Some code;
     idem_owner_id := idem_owner_id r; idem_run_id := idem_run_id r;
     idem_expires_at := idem_expires_at r; idem_completed_at := idem_completed_at r;
     idem_created_at := idem_created_at r; idem_updated_at := failedAt;
     idem_version := idem_version r + 1 |}.

Definition settle_attempt (a : Attempt) (f : IdempotencyRow → IdempotencyRow)
    : tx Db VersionedWriteResult :=
  result ← update_returning (attempt_row a) f;
  match result with
  | Some r => mret (Updated (idem_version r))
  | None => mutationMiss a
  end.

Definition complete (a : Attempt) (resp : Json) (completedAt : Z) : tx Db VersionedWriteResult :=
  settle_attempt a (completed_record resp completedAt).

Definition fail (a : Attempt) (code : string) (failedAt : Z) : tx Db VersionedWriteResult :=
  settle_attempt a (failed_record code failedAt).

(** One committed call. *)
Inductive idem_step : Db → Db → Prop :=
| step_begin db ctx i res db' : begin ctx i db = Ret (res, db') → idem_step db db'
| step_complete db a resp t res db' : complete a resp t db = Ret (res, db') → idem_step db db'
| step_fail db a code t res db' : fail a code t db = Ret (res, db') → idem_step db db'.
Definition idem_reachable : Db → Db → Prop := rtc idem_step.

(** ** What every call keeps *)

Definition record_key (r : IdempotencyRow) : string * string := (idem_scope r, idem_key r).

Definition unique_records (db : Db) : Prop := NoDup (map record_key db).

(** A later state of a row: the row itself, or a row with the same identity
    and a larger version, which only a row that is not completed can get. *)
Definition later_row (r r' : IdempotencyRow) : Prop :=
  record_key r' = record_key r ∧ idem_request_fingerprint r' = idem_request_fingerprint r ∧
  (r' = r ∨ idem_status r ≠ completed ∧ idem_version r < idem_version r').

Definition evolves (db db' : Db) : Prop := ∀ r, In r db → ∃ r', In r' db' ∧ later_row r r'.

Lemma has_key_record s k r : has_key s k r = true ↔ record_key r = (s, k).
Proof.
  unfold has_key, record_key. rewrite andb_true_iff, !String.eqb_eq.
  split; [by intros [-> ->]|by intros [= -> ->]].
Qed.

Lemma later_row_refl r : later_row r r.
Proof. by repeat split; try left. Qed.

Lemma later_row_trans r1 r2 r3 : later_row r1 r2 → later_row r2 r3 → later_row r1 r3.
Proof.
  intros (K1 & H1 & E1) (K2 & H2 & E2). split_and!; [congruence..|].
  destruct E1 as [->|[S1 V1]]; [done|]. right. split; [done|].
  destruct E2 as [->|[_ V2]]; lia.
Qed.

Lemma evolves_refl db : evolves db db.
Proof. intros r Hr. eauto using later_row_refl. Qed.

Lemma evolves_trans db1 db2 db3 : evolves db1 db2 → evolves db2 db3 → evolves db1 db3.
Proof.
  intros H1 H2 r Hr. destruct (H1 r Hr) as (r2 & Hr2 & L1).
  destruct (H2 r2 Hr2) as (r3 & Hr3 & L2). eauto using later_row_trans.
Qed.

Lemma evolves_update p f db :
  (∀ r, In r db → p r = true → later_row r (f r)) → evolves db (update_where p f db).
Proof.
  intros Hf r Hr. exists (if p r then f r else r). split.
  - apply update_where_In. eauto.
  - destruct (p r) eqn:E; auto using later_row_refl.
Qed.

Lemma update_returning_Ret p f db o db' :
  update_returning p f db = Ret (o, db') →
  (o = None ∧ db' = db ∧ select_one p db = None) ∨
  (∃ r, o = Some (f r) ∧ In r db ∧ p r = true ∧ db' = update_where p f db).
Proof.
  unfold update_returning. destruct (select_one p db) as [r|] eqn:E.
  - destruct (forallb _ _); [|done]. injection 1 as <- <-.
    apply select_one_Some in E as []. right. eauto 6.
  - injection 1 as <- <-. by left.
Qed.

Lemma unique_record db r1 r2 :
  unique_records db → In r1 db → In r2 db → record_key r1 = record_key r2 → r1 = r2.
Proof. apply unique_key. Qed.

(** The last statement of [begin] rewrites the one row of the key. *)
Lemma reset_spec ctx i db r res db' :
  unique_records db → In r db → record_key r = (bg_scope i, bg_key i) →
  (update_returning (has_key (bg_scope i) (bg_key i)) (reset_record ctx i) ≫= λ reset,
     match reset with
     | Some r => mret (BeginAcquired (mapRecord r))
     | None => throw "TypeError"
     end) db = Ret (res, db') →
  res = BeginAcquired (mapRecord (reset_record ctx i r)) ∧
  db' = update_where (has_key (bg_scope i) (bg_key i)) (reset_record ctx i) db ∧
  In (reset_record ctx i r) db'.
Proof.
  intros Hu Hr Hk H. tx_step H as o db1 E.
  apply update_returning_Ret in E as [(-> & -> & _)|(r' & -> & Hr' & Hk' & ->)]; [done|].
  injection H as <- <-. apply has_key_record in Hk' as Hk2.
  assert (r' = r) as -> by (apply (unique_record db); [done..|congruence]).
  split_and!; [done..|]. apply update_where_In. exists r. by rewrite Hk'.
Qed.

(** What a successful [begin] means, answer by answer. *)
Lemma begin_spec ctx i db res db' :
  unique_records db → begin ctx i db = Ret (res, db') →
  (∃ r, res = BeginAcquired (mapRecord r) ∧ In r db' ∧ idem_status r = in_progress ∧
     record_key r = (bg_scope i, bg_key i) ∧ idem_request_fingerprint r = bg_requestHash i ∧
     idem_expires_at r = bg_expiresAt i ∧
     ((¬ (∃ r0, In r0 db ∧ record_key r0 = record_key r) ∧ db' = db ++ [r]) ∨
      (∃ r0, In r0 db ∧ r = reset_record ctx i r0 ∧ record_key r0 = (bg_scope i, bg_key i) ∧
         idem_request_fingerprint r0 = bg_requestHash i ∧
         idem_status r0 ≠ completed ∧
         (idem_status r0 = in_progress → record_expired (bg_startedAt i) r0 = true) ∧
         db' = update_where (has_key (bg_scope i) (bg_key i)) (reset_record ctx i) db))) ∨
  (db' = db ∧ ∃ r, In r db ∧ record_key r = (bg_scope i, bg_key i) ∧
     ((idem_request_fingerprint r ≠ bg_requestHash i ∧
         res = RequestConflict (idem_request_fingerprint r)) ∨
      (idem_request_fingerprint r = bg_requestHash i ∧
         (idem_status r = completed ∧ res = Replay (mapRecord r) ∨
          idem_status r = in_progress ∧ record_expired (bg_startedAt i) r = false ∧
            res = InProgress (mapRecord r))))).
Proof.
  intros Hu H. unfold begin in H. tx_step H as ins db1 E1.
  unfold insert_record in E1. cbn [idem_scope idem_key new_record] in E1.
  destruct (existsb (has_key (bg_scope i) (bg_key i)) db) eqn:Ex.
  - injection E1 as <- <-. tx_step H as sel db2 E2. injection E2 as <- <-.
    destruct (select_one _ db) as [r|] eqn:Es; [|done].
    apply select_one_Some in Es as [Hr Hk%has_key_record].
    destruct (idem_request_fingerprint r =? bg_requestHash i)%string eqn:Eh; cbn [negb] in H.
    2:{ injection H as <- <-. apply String.eqb_neq in Eh. right. eauto 10. }
    apply String.eqb_eq in Eh.
    case_bool_decide as Hc; [injection H as <- <-; right; eauto 12|].
    case_bool_decide as Hp; cbn [andb] in H.
    + destruct (record_expired (bg_startedAt i) r) eqn:He; cbn [negb] in H;
        [|injection H as <- <-; right; eauto 14].
      apply (reset_spec ctx i db r) in H as (-> & -> & Hin); [|done..]. left.
      exists (reset_record ctx i r). split_and!; try done.
      right. exists r. by split_and!.
    + apply (reset_spec ctx i db r) in H as (-> & -> & Hin); [|done..]. left.
      exists (reset_record ctx i r). split_and!; try done.
      right. exists r. by split_and!.
  - destruct (existsb _ db) in E1; [done|]. destruct (idempotency_checks _) in E1; [|done].
    injection E1 as <- <-. injection H as <- <-. left. exists (new_record ctx i).
    split_and!; try done.
    + apply in_or_app. right. by left.
    + left. split; [|done]. intros (r0 & Hr0 & Hk). apply not_true_iff_false in Ex. apply Ex.
      apply existsb_exists. exists r0. split; [done|]. by apply has_key_record.
Qed.

(** What [complete] and [fail] do, whatever they write. *)
Lemma settle_attempt_spec a f db res db' :
  settle_attempt a f db = Ret (res, db') →
  (∃ r, In r db ∧ attempt_row a r = true ∧ res = Updated (idem_version (f r)) ∧
     db' = update_where (attempt_row a) f db ∧ In (f r) db') ∨
  (db' = db ∧ (∀ v, res ≠ Updated v) ∧ ∀ r, In r db → attempt_row a r = false).
Proof.
  unfold settle_attempt. intros H. tx_step H as o db1 E.
  apply update_returning_Ret in E as [(-> & -> & Hno)|(r & -> & Hr & Hp & ->)].
  - right. unfold mutationMiss in H. tx_step H as o db1 E. injection E as <- <-.
    assert (Hall : ∀ r, In r db → attempt_row a r = false)
      by (intros r Hr; by eapply select_one_None).
    clear Hno. destruct (select_one _ db) as [r|]; [destruct (_ || _) in H|]; by injection H as <- <-.
  - injection H as <- <-. left. exists r. split_and!; try done.
    apply update_where_In. exists r. by rewrite Hp.
Qed.

Lemma attempt_row_true a r :
  attempt_row a r = true ↔ record_key r = (at_scope a, at_key a) ∧
    idem_request_fingerprint r = at_requestHash a ∧ idem_version r = at_expectedVersion a ∧
    idem_status r = in_progress.
Proof.
  unfold attempt_row.
  rewrite !andb_true_iff, has_key_record, String.eqb_eq, Z.eqb_eq, bool_decide_eq_true. tauto.
Qed.

Lemma settle_unique a f db res db' :
  (∀ r, record_key (f r) = record_key r) →
  unique_records db → settle_attempt a f db = Ret (res, db') → unique_records db'.
Proof.
  intros Hf Hu [(r & _ & _ & _ & -> & _)|(-> & _)]%settle_attempt_spec; [|done].
  unfold unique_records. by rewrite update_where_key.
Qed.

Lemma settle_evolves a f db res db' :
  (∀ r, record_key (f r) = record_key r ∧
     idem_request_fingerprint (f r) = idem_request_fingerprint r ∧
     idem_version (f r) = idem_version r + 1) →
  settle_attempt a f db = Ret (res, db') → evolves db db'.
Proof.
  intros Hf [(r & _ & _ & _ & -> & _)|(-> & _)]%settle_attempt_spec; [|apply evolves_refl].
  apply evolves_update. intros x _ (_ & _ & _ & Hs)%attempt_row_true.
  destruct (Hf x) as (? & ? & ?). split_and!; [done..|]. right. rewrite Hs. split; [done|lia].
Qed.

Lemma begin_unique ctx i db res db' :
  unique_records db → begin ctx i db = Ret (res, db') → unique_records db'.
Proof.
  intros Hu H. pose proof H as [(r & _ & _ & _ & _ & _ & _ & Hdb)|(-> & _)]%begin_spec; [|done..].
  destruct Hdb as [[Hno ->]|(r0 & _ & _ & _ & _ & _ & _ & ->)]; unfold unique_records.
  - rewrite map_app. cbn [map]. apply NoDup_app. split; [done|split; [|apply NoDup_singleton]].
    intros k Hk ->%list_elem_of_singleton. apply list_elem_of_In, in_map_iff in Hk as (r0 & E & Hr0).
    eauto.
  - by rewrite update_where_key.
Qed.

Lemma begin_evolves ctx i db res db' :
  unique_records db → begin ctx i db = Ret (res, db') → evolves db db'.
Proof.
  intros Hu H. apply begin_spec in H as [(r & _ & _ & _ & _ & _ & _ & Hdb)|(-> & _)];
    [|apply evolves_refl|done].
  destruct Hdb as [[_ ->]|(r0 & Hr0 & _ & Hk & _ & Hs & _ & ->)].
  - intros x Hx. exists x. split; [apply in_or_app; by left|apply later_row_refl].
  - apply evolves_update. intros x Hx Hkx%has_key_record.
    assert (x = r0) as -> by (apply (unique_record db); [done..|congruence]).
    split_and!; [done..|]. right. split; [done|]. cbn. lia.
Qed.

Lemma idem_step_sound db db' :
  idem_step db db' → unique_records db → unique_records db' ∧ evolves db db'.
Proof.
  intros [? ? ? ? ? H|? ? ? ? ? ? H|? ? ? ? ? ? H] Hu; split;
    eauto using begin_unique, begin_evolves.
  - eapply settle_unique; [|exact Hu|exact H]. done.
  - eapply settle_evolves; [|exact H]. done.
  - eapply settle_unique; [|exact Hu|exact H]. done.
  - eapply settle_evolves; [|exact H]. done.
Qed.

Lemma idem_reachable_sound db db' :
  idem_reachable db db' → unique_records db → unique_records db' ∧ evolves db db'.
Proof.
  induction 1 as [db|db1 db2 db3 H12 _ IH]; [eauto using evolves_refl|].
  intros [Hu H2]%(idem_step_sound _ _ H12). destruct (IH Hu). eauto using evolves_trans.
Qed.

Lemma reachable_unique db : idem_reachable [] db → unique_records db.
Proof. intros H. apply idem_reachable_sound in H as [? _]; [done|]. constructor. Qed.

(** ** Answers on a key whose row is known *)

Lemma select_record db r s k :
  unique_records db → In r db → record_key r = (s, k) → select_one (has_key s k) db = Some r.
Proof.
  intros Hu Hr Hk. destruct (select_one _ db) as [x|] eqn:E.
  - apply select_one_Some in E as [Hx Hkx%has_key_record]. f_equal.
    apply (unique_record db); [done..|congruence].
  - pose proof (select_one_None _ _ r E Hr) as Hf. by rewrite (proj2 (has_key_record _ _ _) Hk) in Hf.
Qed.

Lemma begin_known ctx i db r :
  unique_records db → In r db → record_key r = (bg_scope i, bg_key i) →
  idem_status r = completed →
  begin ctx i db = Ret (if (idem_request_fingerprint r =? bg_requestHash i)%string
                        then Replay (mapRecord r)
                        else RequestConflict (idem_request_fingerprint r), db).
Proof.
  intros Hu Hr Hk Hs. unfold begin, mbind, tx_bind, insert_record, gets.
  cbn [idem_scope idem_key new_record].
  rewrite (proj2 (existsb_exists _ _)) by (exists r; split; [done|by apply has_key_record]).
  rewrite (select_record db r) by done. destruct (_ =? _)%string; [|done]. cbn [negb].
  by rewrite bool_decide_eq_true_2.
Qed.

Lemma settle_refused a f db :
  (∀ r, In r db → attempt_row a r = false) →
  ∃ res, settle_attempt a f db = Ret (res, db) ∧ ∀ v, res ≠ Updated v.
Proof.
  intros Hno. unfold settle_attempt, mbind, tx_bind, update_returning.
  destruct (select_one _ db) as [r|] eqn:E.
  { apply select_one_Some in E as [Hr Hp]. by rewrite Hno in Hp. }
  unfold mutationMiss, mbind, tx_bind, gets. clear E. cbn.
  destruct (select_one (has_key _ _) db) as [r|];
    [destruct (_ || _)|]; eexists; (split; [reflexivity|done]).
Qed.

(** A completed action is answered from its stored response for ever:
    whatever calls follow, [find] returns the completed record, [begin] with
    the same request replays it and with another request reports the conflict,
    no attempt completes or fails the key again, and none of these calls
    changes a row. *)
Theorem completed_response_is_final db a resp t v db1 db2 :
  idem_reachable [] db → complete a resp t db = Ret (Updated v, db1) → idem_reachable db1 db2 →
  ∃ r, idem_response_data r = jsonb resp ∧ idem_status r = completed ∧ idem_version r = v ∧
    find (at_scope a) (at_key a) db2 = Ret (Some (mapRecord r), db2) ∧
    (∀ ctx i, bg_scope i = at_scope a → bg_key i = at_key a →
       begin ctx i db2 = Ret (if (at_requestHash a =? bg_requestHash i)%string
                              then Replay (mapRecord r) else RequestConflict (at_requestHash a), db2)) ∧
    (∀ a' f, at_scope a' = at_scope a → at_key a' = at_key a →
       ∃ res, settle_attempt a' f db2 = Ret (res, db2) ∧ ∀ w, res ≠ Updated w).
Proof.
  intros Hreach%reachable_unique Hc Hlater.
  assert (Hu1 : unique_records db1) by (eapply settle_unique; [|exact Hreach|exact Hc]; done).
  apply settle_attempt_spec in Hc as [(r0 & Hr0 & Hp & Hv & -> & Hin)|(_ & Hno & _)];
    [|by destruct (Hno v)].
  apply attempt_row_true in Hp as (Hk & Hh & _ & _). injection Hv as ->.
  apply idem_reachable_sound in Hlater as [Hu2 Hev]; [|done].
  set (r := completed_record resp t r0) in *.
  destruct (Hev r Hin) as (r' & Hr' & _ & _ & [->|[Hs _]]); [|done].
  assert (Hkr : record_key r = (at_scope a, at_key a)) by done.
  exists r. split_and!; try done.
  - unfold find, gets. by rewrite (select_record db2 r).
  - intros ctx i Hs Hk2. rewrite (begin_known ctx i db2 r); [|done|done|rewrite Hs, Hk2; exact Hkr|done].
    change (idem_request_fingerprint r) with (idem_request_fingerprint r0). by rewrite Hh.
  - intros a' f Hs Hk2. apply settle_refused. intros x Hx. apply not_true_iff_false.
    intros (Hkx & _ & _ & Hst)%attempt_row_true.
    assert (x = r) as -> by (apply (unique_record db2); [done..|by rewrite Hkx, Hs, Hk2]). done.
Qed.

(** Only the latest attempt on a key can settle it.  When a later [begin]
    acquires the key, its version is larger, every [complete] or [fail] with
    the version of the earlier attempt is refused from then on and writes
    nothing; and if the earlier attempt had not been settled, it had expired
    by the start of the later one. *)
Theorem superseded_attempt_refused db ctx i r1 db1 db2 ctx' i' r2 db3 db4 :
  idem_reachable [] db → begin ctx i db = Ret (BeginAcquired r1, db1) →
  idem_reachable db1 db2 → begin ctx' i' db2 = Ret (BeginAcquired r2, db3) →
  bg_scope i' = bg_scope i → bg_key i' = bg_key i → idem_reachable db3 db4 →
  version r1 < version r2 ∧
  (∀ a f, at_scope a = bg_scope i → at_key a = bg_key i → at_expectedVersion a = version r1 →
     ∃ res, settle_attempt a f db4 = Ret (res, db4) ∧ ∀ w, res ≠ Updated w) ∧
  (find (bg_scope i) (bg_key i) db2 = Ret (Some r1, db2) →
     ∃ e, bg_expiresAt i = Some e ∧ e ≤ bg_startedAt i').
Proof.
  intros Hu%reachable_unique H1 H12 H2 Es Ek H34.
  pose proof (begin_unique _ _ _ _ _ Hu H1) as Hu1.
  apply begin_spec in H1 as [(x1 & E1 & Hx1 & S1 & K1 & _ & X1 & _)|(_ & x & _ & _ & Hx)];
    [|naive_solver|done].
  injection E1 as ->.
  apply idem_reachable_sound in H12 as [Hu2 Hev2]; [|done].
  pose proof (begin_unique _ _ _ _ _ Hu2 H2) as Hu3.
  apply begin_spec in H2 as [(x2 & E2 & Hx2 & _ & K2 & _ & _ & Hdb)|(_ & x & _ & _ & Hx)];
    [|naive_solver|done].
  injection E2 as ->.
  apply idem_reachable_sound in H34 as [Hu4 Hev4]; [|done].
  destruct (Hev2 x1 Hx1) as (y & Hy & Ky & _ & Ly).
  destruct Hdb as [[Hno _]|(r0 & Hr0 & -> & K0 & _ & _ & Hexp & _)].
  { destruct Hno. exists y. split; [done|]. congruence. }
  assert (y = r0) as -> by (apply (unique_record db2); [done..|congruence]).
  assert (Hlt : idem_version x1 < idem_version (reset_record ctx' i' r0)).
  { cbn [idem_version reset_record]. destruct Ly as [->|[_ ?]]; lia. }
  split; [done|]. split.
  - intros a f Ea Ea' Ev. apply settle_refused. intros x Hx. apply not_true_iff_false.
    intros (Kx & _ & Vx & _)%attempt_row_true.
    destruct (Hev4 _ Hx2) as (z & Hz & Kz & _ & Lz).
    assert (x = z) as -> by (apply (unique_record db4); [done..|congruence]).
    cbn [version mapRecord] in Ev. destruct Lz as [->|[_ ?]]; lia.
  - unfold find, gets. rewrite (select_record db2 r0) by (done || congruence).
    intros E. injection E as E1 E2 E3 E4 E5 E6 E7 E8 E9 E10.
    assert (idem_status r0 = in_progress) as Hs.
    { destruct Ly as [->|[_ ?]]; [done|lia]. }
    apply Hexp in Hs. unfold record_expired in Hs. rewrite E9, X1 in Hs.
    destruct (bg_expiresAt i) as [e|]; [|done]. exists e. split; [done|]. by apply Z.leb_le.
Qed.

End idempotency.

(** ** One action, tried twice *)

(** Parameters for the witnesses: text as JSON, and an injective digest. *)
Definition demo_id (s k : string) : string := (s ++ "/" ++ k)%string.
Definition demo_json (j : string) : option string := Some j.
Definition demo_text (j : string) : string := j.
Definition demo_ctx (who : string) : OperationContext := {| actorId := who; operationId := who |}.
Definition demo_begin (t : Z) : BeginInput :=
  {| bg_scope := "order"; bg_key := "k1"; bg_requestHash := "h"; bg_startedAt := t;
     bg_expiresAt := Some (t + 100) |}.
Definition demo_attempt (v : Z) : Attempt :=
  {| at_scope := "order"; at_key := "k1"; at_requestHash := "h"; at_expectedVersion := v |}.

Definition demo_acquired (who : string) (created t v : Z) : IdempotencyRow :=
  {| idem_id := "order/k1"; idem_scope := "order"; idem_key := "k1";
     idem_request_fingerprint := "h"; idem_status := in_progress;
     idem_response_data := @None string; idem_response_fingerprint := None; idem_error_code := None;
     idem_owner_id := who; idem_run_id := who; idem_expires_at := Some (t + 100);
     idem_completed_at := None; idem_created_at := created; idem_updated_at := t;
     idem_version := v |}.
Definition demo_completed : list IdempotencyRow :=
  [completed_record demo_json demo_text demo_id "filled" 20 (demo_acquired "a" 0 0 1)].

Lemma demo_first_begin :
  begin demo_id (demo_ctx "a") (demo_begin 0) [] =
    Ret (BeginAcquired (mapRecord (demo_acquired "a" 0 0 1)), [demo_acquired "a" 0 0 1]).
Proof. vm_compute. reflexivity. Qed.

Lemma demo_acquired_reachable :
  idem_reachable demo_json demo_text demo_id [] [demo_acquired "a" 0 0 1].
Proof. apply rtc_once. exact (step_begin _ _ _ _ _ _ _ _ demo_first_begin). Qed.

Lemma completed_response_is_final_witness :
  begin demo_id (demo_ctx "b") (demo_begin 500) demo_completed =
    Ret (Replay (mapRecord (completed_record demo_json demo_text demo_id "filled" 20
                              (demo_acquired "a" 0 0 1))), demo_completed).
Proof.
  assert (H : complete demo_json demo_text demo_id (demo_attempt 1) "filled" 20
    [demo_acquired "a" 0 0 1] = Ret (Updated 2, demo_completed)) by (vm_compute; reflexivity).
  destruct (completed_response_is_final _ _ _ _ _ _ _ _ _ demo_completed
    demo_acquired_reachable H (rtc_refl _ _)) as (r & _ & _ & _ & Hf & Hb & _).
  rewrite (Hb (demo_ctx "b") (demo_begin 500) eq_refl eq_refl).
  vm_compute in Hf. vm_compute. congruence.
Defined.

Lemma superseded_attempt_refused_witness :
  complete demo_json demo_text demo_id (demo_attempt 1) "late" 180 [demo_acquired "b" 0 150 2] =
    Ret (VersionConflict 2, [demo_acquired "b" 0 150 2]) ∧ 100 ≤ 150.
Proof.
  assert (H : begin demo_id (demo_ctx "b") (demo_begin 150) [demo_acquired "a" 0 0 1] =
    Ret (BeginAcquired (mapRecord (demo_acquired "b" 0 150 2)), [demo_acquired "b" 0 150 2]))
    by (vm_compute; reflexivity).
  destruct (superseded_attempt_refused demo_json demo_text demo_id _ _ _ _ _ _ _ _ _ _
    [demo_acquired "b" 0 150 2] (rtc_refl _ []) demo_first_begin (rtc_refl _ _) H eq_refl eq_refl
    (rtc_refl _ _)) as (_ & Hold & Hexp).
  split.
  - destruct (Hold (demo_attempt 1) (completed_record demo_json demo_text demo_id "late" 180)
      eq_refl eq_refl eq_refl) as (res & Hr & _).
    unfold complete. rewrite Hr. vm_compute in Hr. injection Hr as <-. reflexivity.
  - destruct Hexp as (e & He & Hle); [vm_compute; reflexivity|]. injection He as <-. exact Hle.
Defined.
