(* ===== verification/PortfolioArbitrator.v ===== *)
(** Portfolio arbitration: src/services/portfolioResourceArbitrator.ts.

    Trade proposals of all lanes compete for buying power, cash, portfolio, lane
    and underlying capacity.  [arbitratePortfolioResources] ranks them and
    decides one after the other against the capacity the earlier ones left.
    Amounts are binary64 numbers; the Map and Set of the code are a gmap, a
    gset and an association list in insertion order. *)

From stdpp Require Import gmap.
From S2P Require Import Prelude.
From S2P Require Import JsString.
From S2P Require Import JsNumber.
From S2P Require Import JsText.
From S2P Require Import BrokerOrderStatus.
Open Scope Z_scope.

(** ** Data *)

Inductive WorkstreamLane : Set := equity_lane | options_0dte | options_leaps.
Inductive PortfolioArbitrationAction : Set := approve | resize | skip.
Inductive PortfolioArbitrationResizeMode : Set := notional | whole_shares | whole_contracts.
Inductive PortfolioExposureDirection : Set := long_direction | short_direction.
Inductive AssetClass : Set := equity_asset | option_asset.

#[export] Instance WorkstreamLane_eq_dec : EqDecision WorkstreamLane.
Proof. solve_decision. Defined.
#[export] Instance PortfolioArbitrationAction_eq_dec : EqDecision PortfolioArbitrationAction.
Proof. solve_decision. Defined.
#[export] Instance PortfolioArbitrationResizeMode_eq_dec : EqDecision PortfolioArbitrationResizeMode.
Proof. solve_decision. Defined.
#[export] Instance PortfolioExposureDirection_eq_dec : EqDecision PortfolioExposureDirection.
Proof. solve_decision. Defined.
#[export] Instance AssetClass_eq_dec : EqDecision AssetClass.
Proof. solve_decision. Defined.

Record PortfolioArbitrationProposal := {
  proposalId : string;
  cycleId : string;
  lane : WorkstreamLane;
  strategyPriority : number;
  score : option number;
  confidence : option number;
  symbol : string;
  underlyingSymbol : string;
  contractId : option string;
  direction : PortfolioExposureDirection;
  assetClass : AssetClass;
  requestedQuantity : option number;
  requestedNotional : option number;
  resourceRequirement : option number;
  unitResource : option number;
  resizeMode : PortfolioArbitrationResizeMode
}.

Record PortfolioPositionExposure := {
  exp_id : string;
  exp_symbol : string;
  exp_underlyingSymbol : string;
  exp_direction : PortfolioExposureDirection;
  exp_resourceExposure : option number
}.

(** An order is an exposure with its broker status. *)
Record PortfolioOrderExposure := {
  order_exposure : PortfolioPositionExposure;
  order_status : string
}.

Record PortfolioResourceContext := {
  contextId : string;
  contextVersion : string;
  buyingPowerAvailable : option number;
  optionsBuyingPowerAvailable : option number;
  cashAvailable : option number;
  portfolioCapacityAvailable : option number;
  maxUnderlyingExposure : option number;
  existingPositions : list PortfolioPositionExposure;
  openOrders : list PortfolioOrderExposure;
  pendingCommitments : list PortfolioPositionExposure;
  laneCapacityAvailable : list (WorkstreamLane * option number);
  accountSnapshotAsOf : option string;
  positionSnapshotAsOf : option string;
  openOrderSnapshotAsOf : option string
}.

Record PortfolioArbitrationDecision := {
  d_arbitrationId : string;
  d_cycleId : string;
  d_proposalId : string;
  d_lane : WorkstreamLane;
  d_rank : nat;
  d_action : PortfolioArbitrationAction;
  d_originalQuantity : option number;
  d_approvedQuantity : option number;
  d_originalNotional : option number;
  d_approvedNotional : option number;
  d_originalResourceRequirement : option number;
  d_approvedResourceRequirement : option number;
  d_score : option number;
  d_confidence : option number;
  d_strategyPriority : number;
  d_deterministicTiebreak : string;
  d_conflictTypes : list string;
  d_reasonCodes : list string;
  d_relatedProposalIds : list string;
  d_relatedPositionIds : list string;
  d_relatedOpenOrderIds : list string;
  d_sharedContextVersion : string;
  d_accountSnapshotAsOf : option string;
  d_positionSnapshotAsOf : option string;
  d_openOrderSnapshotAsOf : option string
}.

Record PortfolioArbitrationResult := {
  r_arbitrationId : string;
  r_cycleId : string;
  r_contextId : string;
  r_contextVersion : string;
  r_decisions : list PortfolioArbitrationDecision;
  r_approvedResourceTotal : number
}.

Record ArbitrationInput := {
  in_arbitrationId : string;
  in_cycleId : string;
  in_proposals : list PortfolioArbitrationProposal;
  in_context : PortfolioResourceContext
}.

(** ** Helpers *)

Definition normalized (value : string) : string := to_upper (trim value).

Definition finiteNonnegative (value : option number) : option number :=
  match value with
  | Some x => if num_is_finite x && (0 <=? x)%float then Some x else None
  | None => None
  end.
Definition finitePositive (value : option number) : option number :=
  match value with
  | Some x => if num_is_finite x && (0 <? x)%float then Some x else None
  | None => None
  end.
Definition normalizedScore (value : option number) : number :=
  match value with
  | Some x => if num_is_finite x then x else neg_infinity
  | None => neg_infinity
  end.
Definition exposureKey (p : PortfolioArbitrationProposal) : string := normalized (symbol p).
Definition contextExposureKey (e : PortfolioPositionExposure) : string := normalized (exp_symbol e).
Definition activeOrder (o : PortfolioOrderExposure) : bool :=
  isActiveBrokerOrderStatus (Some (order_status o)).
Definition money (value : number) : number :=
  (math_floor ((value + NUM_EPSILON) * 100) / 100)%float.
Definition resourcePrecision (value : number) : number :=
  (math_round ((value + NUM_EPSILON) * 100000000) / 100000000)%float.
Definition stableNumber (value : option number) : string :=
  match value with
  | Some x => if num_is_finite x then num_text x else ""
  | None => ""
  end.
Definition contract_text (p : PortfolioArbitrationProposal) : string :=
  normalized (default EmptyString (contractId p)).
Definition tiebreak (p : PortfolioArbitrationProposal) : string :=
  String.concat "|" [num_text (strategyPriority p); stableNumber (score p);
    stableNumber (confidence p); normalized (symbol p); contract_text p; proposalId p].

(** The comparator of [ranked]; [||] passes a zero or NaN on to the next key. *)
Definition compareProposals (left right : PortfolioArbitrationProposal) : number :=
  num_or (strategyPriority left - strategyPriority right)%float
  (num_or (normalizedScore (score right) - normalizedScore (score left))%float
  (num_or (normalizedScore (confidence right) - normalizedScore (confidence left))%float
  (num_or (num_of_Z (compare_text (normalized (symbol left)) (normalized (symbol right))))
  (num_or (num_of_Z (compare_text (contract_text left) (contract_text right)))
     (num_of_Z (compare_text (proposalId left) (proposalId right))))))).
Definition rank_le (left right : PortfolioArbitrationProposal) : bool :=
  (compareProposals left right <=? 0)%float.
Definition ranked (proposals : list PortfolioArbitrationProposal)
    : list PortfolioArbitrationProposal := sort_by rank_le proposals.

(** What a decision adds to the fields it copies. *)
Record DecisionDetails := {
  dd_action : PortfolioArbitrationAction;
  dd_approvedQuantity : option number;
  dd_approvedResource : option number;
  dd_conflictTypes : list string;
  dd_reasonCodes : list string;
  dd_relatedProposalIds : list string;
  dd_relatedPositionIds : list string;
  dd_relatedOpenOrderIds : list string
}.

Definition decisionBase (input : ArbitrationInput) (p : PortfolioArbitrationProposal)
    (rank : nat) (d : DecisionDetails) : PortfolioArbitrationDecision :=
  {| d_arbitrationId := in_arbitrationId input; d_cycleId := in_cycleId input;
     d_proposalId := proposalId p; d_lane := lane p; d_rank := rank; d_action := dd_action d;
     d_originalQuantity := requestedQuantity p; d_approvedQuantity := dd_approvedQuantity d;
     d_originalNotional := requestedNotional p; d_approvedNotional := dd_approvedResource d;
     d_originalResourceRequirement := resourceRequirement p;
     d_approvedResourceRequirement := dd_approvedResource d;
     d_score := score p; d_confidence := confidence p;
     d_strategyPriority := strategyPriority p; d_deterministicTiebreak := tiebreak p;
     d_conflictTypes := dd_conflictTypes d; d_reasonCodes := dd_reasonCodes d;
     d_relatedProposalIds := dd_relatedProposalIds d;
     d_relatedPositionIds := dd_relatedPositionIds d;
     d_relatedOpenOrderIds := dd_relatedOpenOrderIds d;
     d_sharedContextVersion := contextVersion (in_context input);
     d_accountSnapshotAsOf := accountSnapshotAsOf (in_context input);
     d_positionSnapshotAsOf := positionSnapshotAsOf (in_context input);
     d_openOrderSnapshotAsOf := openOrderSnapshotAsOf (in_context input) |}.

Definition skippedDecision (conflicts reasons proposals positions orders : list string)
    : DecisionDetails :=
  {| dd_action := skip; dd_approvedQuantity := None; dd_approvedResource := None;
     dd_conflictTypes := conflicts; dd_reasonCodes := reasons;
     dd_relatedProposalIds := proposals; dd_relatedPositionIds := positions;
     dd_relatedOpenOrderIds := orders |}.

(** [validSizing]: the requirement and the smallest unit, when consistent. *)
Definition validSizing (p : PortfolioArbitrationProposal) : option (number * number) :=
  match finitePositive (resourceRequirement p), finitePositive (unitResource p) with
  | Some requirement, Some unit_ =>
      if negb (bool_decide (resizeMode p = notional))
         && match requestedQuantity p with
            | None => true
            | Some q => negb (num_is_safe_integer q) || (q <? 1)%float
                || negb (resourcePrecision (q * unit_) =? resourcePrecision requirement)%float
            end
      then None else Some (requirement, unit_)
  | _, _ => None
  end.

(** [sizedResource]: the resource granted and, for whole units, their number. *)
Definition sizedResource (p : PortfolioArbitrationProposal) (requested unit_ available : number)
    : number * option number :=
  let bounded := math_min requested (math_max 0 available)%float in
  match resizeMode p with
  | notional => let amount := money bounded in ((if (unit_ <=? amount)%float then amount else 0%float), None)
  | _ => let units := math_floor ((bounded + NUM_EPSILON) / unit_)%float in
         ((if (1 <=? units)%float then resourcePrecision (units * unit_) else 0%float), Some units)
  end.

Record Dimensions := {
  dim_buyingPower : bool;
  dim_cash : bool;
  dim_portfolio : bool;
  dim_lane : bool;
  dim_underlying : bool
}.

Definition when (b : bool) (s : string) : list string := if b then [s] else [].

Definition reasonForUnavailableCapacity (d : Dimensions) : list string :=
  js_unique (
    when (dim_buyingPower d) "ARBITRATION_SKIPPED_INSUFFICIENT_BUYING_POWER" ++
    when (dim_cash d) "ARBITRATION_SKIPPED_INSUFFICIENT_CASH" ++
    when (dim_portfolio d) "ARBITRATION_SKIPPED_PORTFOLIO_LIMIT" ++
    when (dim_lane d) "ARBITRATION_SKIPPED_PORTFOLIO_LIMIT" ++
    when (dim_underlying d) "ARBITRATION_SKIPPED_UNDERLYING_EXPOSURE").

Definition resizeReasons (d : Dimensions) : list string :=
  let reasons :=
    when (dim_buyingPower d) "ARBITRATION_RESIZED_BUYING_POWER" ++
    when (dim_cash d) "ARBITRATION_RESIZED_CASH_LIMIT" ++
    when (dim_portfolio d) "ARBITRATION_RESIZED_PORTFOLIO_LIMIT" ++
    when (dim_lane d) "ARBITRATION_RESIZED_LANE_LIMIT" ++
    when (dim_underlying d) "ARBITRATION_RESIZED_UNDERLYING_EXPOSURE" in
  match reasons with [] => ["ARBITRATION_RESIZED_PORTFOLIO_LIMIT"%string] | _ => reasons end.

(** [Object.entries(limited)]: the constrained dimensions in upper case. *)
Definition constrained_names (d : Dimensions) : list string :=
  when (dim_buyingPower d) "BUYINGPOWER" ++ when (dim_cash d) "CASH" ++
  when (dim_portfolio d) "PORTFOLIO" ++ when (dim_lane d) "LANE" ++
  when (dim_underlying d) "UNDERLYING".

(** ** The running state *)

Record ArbitrationState := {
  buyingPowerRemaining : option number;
  optionsBuyingPowerRemaining : option number;
  cashRemaining : option number;
  portfolioRemaining : option number;
  laneRemaining : list (WorkstreamLane * option number);
  underlyingExposure : gmap string number;
  unknownUnderlyingExposure : gset string;
  approvals : list (PortfolioArbitrationProposal * number)
}.

Definition map_get (l : list (WorkstreamLane * option number)) (k : WorkstreamLane)
    : option (option number) := snd <$> select_one (λ e, bool_decide (fst e = k)) l.
Definition map_set (l : list (WorkstreamLane * option number)) (k : WorkstreamLane)
    (v : option number) : list (WorkstreamLane * option number) :=
  update_where (λ e, bool_decide (fst e = k)) (λ e, (fst e, v)) l.

(** [addUnderlyingExposure] on the Map and the Set. *)
Definition addUnderlyingExposure (m : gmap string number * gset string)
    (underlying : string) (value : option number) : gmap string number * gset string :=
  let key := normalized underlying in
  match finiteNonnegative value with
  | None => (fst m, {[key]} ∪ snd m)
  | Some exposure =>
      (<[key := resourcePrecision (default 0%float (fst m !! key) + exposure)%float]> (fst m), snd m)
  end.
Definition addExposure (m : gmap string number * gset string) (e : PortfolioPositionExposure)
    : gmap string number * gset string :=
  addUnderlyingExposure m (exp_underlyingSymbol e) (exp_resourceExposure e).

Definition currentOrders (ctx : PortfolioResourceContext) : list PortfolioPositionExposure :=
  map order_exposure (List.filter activeOrder (openOrders ctx)).

Definition contextExposures (ctx : PortfolioResourceContext) : list PortfolioPositionExposure :=
  existingPositions ctx ++ currentOrders ctx ++ pendingCommitments ctx.

Definition initialState (ctx : PortfolioResourceContext) : ArbitrationState :=
  let exposure := foldl addExposure (∅, ∅) (contextExposures ctx) in
  {| buyingPowerRemaining := finiteNonnegative (buyingPowerAvailable ctx);
     optionsBuyingPowerRemaining := finiteNonnegative (optionsBuyingPowerAvailable ctx);
     cashRemaining := finiteNonnegative (cashAvailable ctx);
     portfolioRemaining := finiteNonnegative (portfolioCapacityAvailable ctx);
     laneRemaining := map (λ e, (fst e, finiteNonnegative (snd e))) (laneCapacityAvailable ctx);
     underlyingExposure := fst exposure; unknownUnderlyingExposure := snd exposure;
     approvals := [] |}.

(** ** One proposal *)

Definition requirement_unavailable : string := "ARBITRATION_SKIPPED_RESOURCE_REQUIREMENT_UNAVAILABLE".

Definition opposes (p : PortfolioArbitrationProposal) (e : PortfolioPositionExposure) : bool :=
  negb (bool_decide (exp_direction e = direction p)).

Definition same_symbol (p : PortfolioArbitrationProposal) (e : PortfolioPositionExposure) : bool :=
  (contextExposureKey e =? exposureKey p)%string.

(** The skip decisions for exposure the account already has in the symbol. *)
Definition existingConflict (ctx : PortfolioResourceContext) (p : PortfolioArbitrationProposal)
    : option DecisionDetails :=
  let positions := List.filter (same_symbol p) (existingPositions ctx) in
  let orders := List.filter (same_symbol p) (currentOrders ctx) in
  let commitments := List.filter (same_symbol p) (pendingCommitments ctx) in
  if negb (bool_decide (positions = [])) then
    Some (skippedDecision
      ["EXISTING_POSITION"%string; (if existsb (opposes p) positions
        then "OPPOSING_EXISTING_POSITION" else "DUPLICATE_EXISTING_POSITION")%string]
      ["ARBITRATION_SKIPPED_SYMBOL_EXPOSURE"%string] [] (sort_strings (map exp_id positions)) [])
  else if negb (bool_decide (orders = [])) then
    Some (skippedDecision
      ["EXISTING_OPEN_ORDER"%string; (if existsb (opposes p) orders
        then "OPPOSING_EXISTING_OPEN_ORDER" else "DUPLICATE_EXISTING_OPEN_ORDER")%string]
      ["ARBITRATION_SKIPPED_EXISTING_OPEN_ORDER"%string] [] [] (sort_strings (map exp_id orders)))
  else if negb (bool_decide (commitments = [])) then
    Some (skippedDecision
      ["EXISTING_PENDING_COMMITMENT"%string; (if existsb (opposes p) commitments
        then "OPPOSING_PENDING_COMMITMENT" else "DUPLICATE_PENDING_COMMITMENT")%string]
      ["ARBITRATION_SKIPPED_SYMBOL_EXPOSURE"%string] [] [] [])
  else None.

(** The skip decision for a proposal approved earlier in the same symbol. *)
Definition priorConflict (st : ArbitrationState) (p : PortfolioArbitrationProposal)
    : option DecisionDetails :=
  match select_one (λ a, (exposureKey (fst a) =? exposureKey p)%string) (approvals st) with
  | None => None
  | Some (prior, _) =>
      let opposing := negb (bool_decide (direction prior = direction p)) in
      Some (skippedDecision
        [if opposing then "OPPOSING_PROPOSAL" else "DUPLICATE_PROPOSAL"]%string
        [if opposing then "ARBITRATION_SKIPPED_OPPOSING_PROPOSAL"
         else "ARBITRATION_SKIPPED_DUPLICATE_PROPOSAL"]%string [proposalId prior] [] [])
  end.

(** The capacities that must be known: buying power, cash, portfolio, lane and,
    for an option, options buying power ([infinity] for an equity). *)
Record Capacities := {
  cap_buyingPower : number;
  cap_cash : number;
  cap_portfolio : number;
  cap_lane : number;
  cap_options : number
}.

Definition laneCapacity (st : ArbitrationState) (p : PortfolioArbitrationProposal) : option number :=
  default (Some infinity) (map_get (laneRemaining st) (lane p)).

Definition optionsCapacity (st : ArbitrationState) (p : PortfolioArbitrationProposal) : option number :=
  match assetClass p with
  | option_asset => optionsBuyingPowerRemaining st
  | equity_asset => Some infinity
  end.

Definition capacities (st : ArbitrationState) (p : PortfolioArbitrationProposal)
    : option Capacities :=
  match buyingPowerRemaining st, cashRemaining st, portfolioRemaining st,
        optionsCapacity st p, laneCapacity st p with
  | Some b, Some c, Some f, Some o, Some l =>
      Some {| cap_buyingPower := b; cap_cash := c; cap_portfolio := f; cap_lane := l;
              cap_options := o |}
  | _, _, _, _, _ => None
  end.

(** The exposures of unknown size on the underlying of a proposal. *)
Definition unknownOn (p : PortfolioArbitrationProposal) (e : PortfolioPositionExposure) : bool :=
  (normalized (exp_underlyingSymbol e) =? normalized (underlyingSymbol p))%string
  && bool_decide (finiteNonnegative (exp_resourceExposure e) = None).

Definition underlyingUnknown (ctx : PortfolioResourceContext) (st : ArbitrationState)
    (p : PortfolioArbitrationProposal) : option DecisionDetails :=
  if bool_decide (is_Some (finiteNonnegative (maxUnderlyingExposure ctx)))
     && bool_decide (normalized (underlyingSymbol p) ∈ unknownUnderlyingExposure st)
  then Some (skippedDecision ["UNDERLYING_EXPOSURE_UNAVAILABLE"%string] [requirement_unavailable] []
         (sort_strings (map exp_id (List.filter (unknownOn p) (existingPositions ctx))))
         (sort_strings (map exp_id (List.filter (unknownOn p) (currentOrders ctx)))))
  else None.

Definition underlyingRemaining (ctx : PortfolioResourceContext) (st : ArbitrationState)
    (p : PortfolioArbitrationProposal) : number :=
  match finiteNonnegative (maxUnderlyingExposure ctx) with
  | None => infinity
  | Some limit =>
      math_max 0%float (limit - default 0%float (underlyingExposure st !! normalized (underlyingSymbol p)))%float
  end.

Definition available (c : Capacities) (underlying : number) : number :=
  math_min_list [cap_buyingPower c; cap_cash c; cap_portfolio c; cap_lane c; underlying; cap_options c].

Definition limitedBy (c : Capacities) (underlying requirement : number) : Dimensions :=
  {| dim_buyingPower := (cap_buyingPower c <? requirement)%float
                        || (cap_options c <? requirement)%float;
     dim_cash := (cap_cash c <? requirement)%float;
     dim_portfolio := (cap_portfolio c <? requirement)%float;
     dim_lane := (cap_lane c <? requirement)%float;
     dim_underlying := (underlying <? requirement)%float |}.

(** The state after an approval of [resource]. *)
Definition commit (st : ArbitrationState) (c : Capacities) (p : PortfolioArbitrationProposal)
    (resource : number) : ArbitrationState :=
  let exposure := addUnderlyingExposure (underlyingExposure st, unknownUnderlyingExposure st)
                    (underlyingSymbol p) (Some resource) in
  {| buyingPowerRemaining := Some (money (cap_buyingPower c - resource)%float);
     optionsBuyingPowerRemaining :=
       match assetClass p with
       | option_asset => Some (money (cap_options c - resource)%float)
       | equity_asset => optionsBuyingPowerRemaining st
       end;
     cashRemaining := Some (money (cap_cash c - resource)%float);
     portfolioRemaining := Some (money (cap_portfolio c - resource)%float);
     laneRemaining := map_set (laneRemaining st) (lane p) (Some (money (cap_lane c - resource)%float));
     underlyingExposure := fst exposure; unknownUnderlyingExposure := snd exposure;
     approvals := approvals st ++ [(p, resource)] |}.

(** Sizing against the capacity: the last part of the loop body. *)
Definition allocate (ctx : PortfolioResourceContext) (st : ArbitrationState)
    (p : PortfolioArbitrationProposal) (c : Capacities) (sizing : number * number)
    : DecisionDetails * ArbitrationState :=
  let underlying := underlyingRemaining ctx st p in
  let limited := limitedBy c underlying (fst sizing) in
  let '(resource, units) := sizedResource p (fst sizing) (snd sizing) (available c underlying) in
  if (resource <=? 0)%float then
    (skippedDecision
       [if dim_underlying limited then "UNDERLYING_EXPOSURE_LIMIT" else "SHARED_RESOURCE_CAPACITY"]%string
       (reasonForUnavailableCapacity limited ++ ["ARBITRATION_SKIPPED_NO_VALID_RESIZE"%string]) [] [] [],
     st)
  else
    let resized := (resourcePrecision resource <? resourcePrecision (fst sizing))%float in
    ({| dd_action := if resized then resize else approve;
        dd_approvedQuantity := match resizeMode p with notional => requestedQuantity p | _ => units end;
        dd_approvedResource := Some resource;
        dd_conflictTypes := if resized then constrained_names limited else [];
        dd_reasonCodes :=
          if resized then resizeReasons limited
          else ["ARBITRATION_APPROVED"%string; "ARBITRATION_APPROVED_WITHIN_BUYING_POWER"%string] ++
               when (bool_decide (is_Some (finiteNonnegative (maxUnderlyingExposure ctx))))
                 "ARBITRATION_APPROVED_WITHIN_EXPOSURE_LIMIT";
        dd_relatedProposalIds := []; dd_relatedPositionIds := []; dd_relatedOpenOrderIds := [] |},
     commit st c p resource).

(** The body of the loop. *)
Definition decideProposal (ctx : PortfolioResourceContext) (st : ArbitrationState)
    (p : PortfolioArbitrationProposal) : DecisionDetails * ArbitrationState :=
  match validSizing p with
  | None => (skippedDecision [] [requirement_unavailable] [] [] [], st)
  | Some sizing =>
  match existingConflict ctx p with
  | Some d => (d, st)
  | None =>
  match priorConflict st p with
  | Some d => (d, st)
  | None =>
  match capacities st p with
  | None => (skippedDecision [] [requirement_unavailable] [] [] [], st)
  | Some c =>
  match underlyingUnknown ctx st p with
  | Some d => (d, st)
  | None => allocate ctx st p c sizing
  end end end end end.

Fixpoint decideAll (input : ArbitrationInput) (st : ArbitrationState) (rank : nat)
    (l : list PortfolioArbitrationProposal) : list PortfolioArbitrationDecision :=
  match l with
  | [] => []
  | p :: l' =>
      let '(d, st') := decideProposal (in_context input) st p in
      decisionBase input p rank d :: decideAll input st' (S rank) l'
  end.

(** The returned object, with the total of the amounts granted. *)
Definition arbitrationResult (input : ArbitrationInput)
    (decisions : list PortfolioArbitrationDecision) : PortfolioArbitrationResult :=
  {| r_arbitrationId := in_arbitrationId input; r_cycleId := in_cycleId input;
     r_contextId := contextId (in_context input);
     r_contextVersion := contextVersion (in_context input);
     r_decisions := decisions;
     r_approvedResourceTotal := resourcePrecision
       (foldl (λ sum d, (sum + default 0%float (d_approvedResourceRequirement d))%float)
          0%float decisions) |}.

Definition arbitratePortfolioResources (input : ArbitrationInput) : res PortfolioArbitrationResult :=
  if existsb (λ p, negb (cycleId p =? in_cycleId input)%string) (in_proposals input)
  then Throw "PORTFOLIO_ARBITRATION_CYCLE_MISMATCH"
  else Ret (arbitrationResult input
         (decideAll input (initialState (in_context input)) 1 (ranked (in_proposals input)))).

(** ** The ranking is a total order *)

Definition num_key (x : number) : Z := default 0 (num_val x).

(** The six keys of the comparator, the scores and confidences descending. *)
Definition rank_cmp : PortfolioArbitrationProposal → PortfolioArbitrationProposal → comparison :=
  cmp_lex (cmp_on (λ p, num_key (strategyPriority p)) Z.compare)
  (cmp_lex (cmp_on (λ p, - num_key (normalizedScore (score p))) Z.compare)
  (cmp_lex (cmp_on (λ p, - num_key (normalizedScore (confidence p))) Z.compare)
  (cmp_lex (cmp_on (λ p, normalized (symbol p)) String.compare)
  (cmp_lex (cmp_on contract_text String.compare)
     (cmp_on proposalId String.compare))))).

#[export] Instance rank_cmp_lawful : LawfulCompare rank_cmp.
Proof. unfold rank_cmp. repeat apply cmp_lex_lawful; apply cmp_on_lawful; apply _. Qed.

Definition not_gt (c : comparison) : bool := match c with Gt => false | _ => true end.

Lemma num_or_sub_le x y a b rest c :
  num_val x = Some a → num_val y = Some b → (rest <=? 0)%float = not_gt c →
  (num_or (x - y) rest <=? 0)%float = not_gt (match a ?= b with Eq => c | r => r end).
Proof.
  intros Hx Hy Hr. destruct (num_sub_val x y a b Hx Hy) as (Hlt & Hgt & Ht).
  unfold num_or. rewrite Ht.
  destruct (Z.compare_spec a b), (Z.eqb_spec a b); try lia; cbn [negb]; [done|..].
  - destruct (Z.ltb_spec a b); [|lia]. revert Hlt. rewrite num_ltb_val, num_leb_val.
    destruct (num_val (x - y)) as [v|]; [|done]. cbn. intros Hv%Z.ltb_lt. by apply Z.leb_le, Z.lt_le_incl.
  - destruct (Z.ltb_spec b a); [|lia]. revert Hgt. rewrite num_ltb_val, num_leb_val.
    destruct (num_val (x - y)) as [v|]; [|done]. cbn. intros Hv%Z.ltb_lt. by apply Z.leb_gt.
Qed.

Lemma num_or_text_le s1 s2 rest c :
  (rest <=? 0)%float = not_gt c →
  (num_or (num_of_Z (compare_text s1 s2)) rest <=? 0)%float =
  not_gt (match String.compare s1 s2 with Eq => c | r => r end).
Proof. intros Hr. unfold compare_text. destruct (String.compare s1 s2); [exact Hr|reflexivity..]. Qed.

Lemma text_le s1 s2 :
  (num_of_Z (compare_text s1 s2) <=? 0)%float = not_gt (String.compare s1 s2).
Proof. unfold compare_text. by destruct (String.compare s1 s2). Qed.

Lemma num_key_val x : is_nan x = false → num_val x = Some (num_key x).
Proof. rewrite is_nan_val. unfold num_key. by destruct (num_val x). Qed.

Lemma normalizedScore_val v : num_val (normalizedScore v) = Some (num_key (normalizedScore v)).
Proof.
  apply num_key_val. destruct v as [x|]; [|done]. cbn. destruct (num_is_finite x) eqn:E; [|done].
  unfold num_is_finite, is_finite in E. by destruct (is_nan x).
Qed.

Lemma rank_le_cmp l r :
  is_nan (strategyPriority l) = false → is_nan (strategyPriority r) = false →
  rank_le l r = cmp_le rank_cmp l r.
Proof.
  intros Hl%num_key_val Hr%num_key_val. unfold rank_le, compareProposals.
  unfold cmp_le. change (rank_le l r) with (rank_le l r).
  erewrite num_or_sub_le; [|exact Hl|exact Hr|].
  2:{ erewrite num_or_sub_le; [|apply normalizedScore_val..|]; [reflexivity|].
      erewrite num_or_sub_le; [|apply normalizedScore_val..|]; [reflexivity|].
      apply num_or_text_le, num_or_text_le, text_le. }
  unfold rank_cmp, cmp_lex, cmp_on. fold not_gt.
  rewrite !Z.compare_opp. reflexivity.
Qed.

Definition priorities_known (l : list PortfolioArbitrationProposal) : Prop :=
  ∀ p, In p l → is_nan (strategyPriority p) = false.

Lemma ranked_cmp l : priorities_known l → ranked l = sort_by (cmp_le rank_cmp) l.
Proof. intros H. apply sort_by_ext. intros x y Hx Hy. apply rank_le_cmp; auto. Qed.

Lemma rank_cmp_eq x y : rank_cmp x y = Eq → proposalId x = proposalId y.
Proof.
  unfold rank_cmp, cmp_lex, cmp_on.
  repeat match goal with |- context [match ?c with _ => _ end] => destruct c; [|done..] end.
  apply String.compare_eq_iff.
Qed.

Lemma ranked_perm_eq l1 l2 :
  l1 ≡ₚ l2 → NoDup (map proposalId l1) → priorities_known l1 → ranked l1 = ranked l2.
Proof.
  intros Hp Hnd Hk. rewrite !ranked_cmp; [|intros x Hx; apply Hk; by rewrite Hp|done].
  apply sort_by_perm_eq; [apply cmp_le_total, _|apply cmp_le_trans, _| |done].
  intros x y Hx Hy H1 H2. apply (unique_key proposalId l1); [done..|].
  by apply rank_cmp_eq, cmp_le_antisym; [apply _|..].
Qed.

(** ** One decision *)

Definition approved (d : DecisionDetails) : bool := negb (bool_decide (dd_action d = skip)).

(** An approval passed every check; any other decision leaves the state. *)
Lemma decideProposal_spec ctx st p d st' :
  decideProposal ctx st p = (d, st') →
  (approved d = false ∧ dd_approvedResource d = None ∧ st' = st) ∨
  (approved d = true ∧
   existingConflict ctx p = None ∧ priorConflict st p = None ∧ underlyingUnknown ctx st p = None ∧
   ∃ sizing c, validSizing p = Some sizing ∧ capacities st p = Some c ∧
     let '(resource, units) :=
       sizedResource p (fst sizing) (snd sizing) (available c (underlyingRemaining ctx st p)) in
     (resource <=? 0)%float = false ∧ dd_approvedResource d = Some resource ∧
     st' = commit st c p resource).
Proof.
  unfold decideProposal. destruct (validSizing p) as [sizing|] eqn:Ev; [|injection 1 as <- <-; by left].
  destruct (existingConflict ctx p) as [e|] eqn:Ee.
  { injection 1 as <- <-. left. unfold existingConflict in Ee.
    repeat match type of Ee with context [if ?b then _ else _] => destruct b end;
      by simplify_eq. }
  destruct (priorConflict st p) as [e|] eqn:Ep.
  { injection 1 as <- <-. left. unfold priorConflict in Ep.
    destruct (select_one _ _) as [[q r]|]; by simplify_eq. }
  destruct (capacities st p) as [c|] eqn:Ec; [|injection 1 as <- <-; by left].
  destruct (underlyingUnknown ctx st p) as [e|] eqn:Eu.
  { injection 1 as <- <-. left. unfold underlyingUnknown in Eu. case_match; by simplify_eq. }
  unfold allocate. destruct (sizedResource _ _ _ _) as [resource units] eqn:Es.
  destruct (resource <=? 0)%float eqn:Er; injection 1 as <- <-; [by left|].
  right. split_and!; try done.
  - unfold approved. by destruct (_ <? _)%float.
  - exists sizing, c. by rewrite Es.
Qed.

Lemma filter_same_symbol p (l : list PortfolioPositionExposure) e :
  List.filter (same_symbol p) l = [] → In e l → contextExposureKey e ≠ exposureKey p.
Proof.
  intros Hf He Hk. assert (In e (List.filter (same_symbol p) l)) as Hin.
  { apply filter_In. split; [done|]. by apply String.eqb_eq. }
  by rewrite Hf in Hin.
Qed.

Lemma existingConflict_None ctx p e :
  existingConflict ctx p = None → In e (contextExposures ctx) →
  contextExposureKey e ≠ exposureKey p.
Proof.
  unfold existingConflict, contextExposures. rewrite !in_app_iff.
  repeat (case_bool_decide; cbn [negb]; [|done]). intros _ [?|[?|?]]; eauto using filter_same_symbol.
Qed.

Lemma priorConflict_None st p a :
  priorConflict st p = None → In a (approvals st) → exposureKey (fst a) ≠ exposureKey p.
Proof.
  unfold priorConflict. destruct (select_one _ _) as [[q r]|] eqn:E; [done|]. intros _ Ha.
  pose proof (select_one_None _ _ a E Ha) as Hn. by apply String.eqb_neq in Hn.
Qed.

(** ** The whole run *)

(** The proposals of a decision list with the decisions on them, and the keys
    of the approved ones. *)
Definition approved_keys (l : list PortfolioArbitrationProposal)
    (ds : list PortfolioArbitrationDecision) : list string :=
  map (λ e, exposureKey (fst e))
    (List.filter (λ e, negb (bool_decide (d_action (snd e) = skip))) (combine l ds)).

Lemma decideAll_decides input st rank l :
  Forall2 (λ p d, d_proposalId d = proposalId p ∧ d_lane d = lane p) l (decideAll input st rank l) ∧
  map d_rank (decideAll input st rank l) = seq rank (List.length l).
Proof.
  revert st rank. induction l as [|p l IH]; intros st rank; cbn [decideAll]; [by split|].
  destruct (decideProposal _ st p) as [d st']. destruct (IH st' (S rank)) as [H1 H2]. split.
  - by constructor.
  - cbn. by rewrite H2.
Qed.

(** The approved keys are new: neither held by the account, nor approved
    before, nor approved twice. *)
Lemma decideAll_keys input st rank l :
  (∀ k, In k (approved_keys l (decideAll input st rank l)) →
     (∀ e, In e (contextExposures (in_context input)) → contextExposureKey e ≠ k) ∧
     (∀ a, In a (approvals st) → exposureKey (fst a) ≠ k)) ∧
  NoDup (approved_keys l (decideAll input st rank l)).
Proof.
  revert st rank. induction l as [|p l IH]; intros st rank; cbn [decideAll]; [split; [done|constructor]|].
  destruct (decideProposal (in_context input) st p) as [d st'] eqn:Ed.
  destruct (IH st' (S rank)) as [Hnew Hnd].
  unfold approved_keys in *. cbn [combine List.filter snd d_action decisionBase].
  apply decideProposal_spec in Ed as [(Ha & _ & ->)|(Ha & He & Hp & _ & s & c & _ & _ & Hs)];
    unfold approved in Ha; rewrite Ha; [done|]. cbn [map fst].
  destruct (sizedResource _ _ _ _) as [resource units]. destruct Hs as (_ & _ & ->).
  cbn [approvals commit] in Hnew. split.
  - intros k [<-|Hk]; [eauto using existingConflict_None, priorConflict_None|].
    destruct (Hnew k Hk) as [H1 H2]. split; [done|]. intros a Hin. apply H2, in_or_app. by left.
  - constructor; [|done]. rewrite list_elem_of_In. intros Hk. destruct (Hnew _ Hk) as [_ H2].
    apply (H2 (p, resource)); [|done]. apply in_or_app. right. by left.
Qed.

(** What must be known before anything is granted to a proposal. *)
Definition known (v : option number) : Prop := is_Some (finiteNonnegative v).

Definition resources_known (ctx : PortfolioResourceContext) (p : PortfolioArbitrationProposal) : Prop :=
  known (buyingPowerAvailable ctx) ∧ known (cashAvailable ctx) ∧
  known (portfolioCapacityAvailable ctx) ∧
  (assetClass p = option_asset → known (optionsBuyingPowerAvailable ctx)) ∧
  (∀ v, map_get (laneCapacityAvailable ctx) (lane p) = Some v → known v) ∧
  (known (maxUnderlyingExposure ctx) →
   ∀ e, In e (contextExposures ctx) →
     normalized (exp_underlyingSymbol e) = normalized (underlyingSymbol p) →
     known (exp_resourceExposure e)).

(** The state forgets none of the unknowns of the context. *)
Definition remembers (ctx : PortfolioResourceContext) (st : ArbitrationState) : Prop :=
  (is_Some (buyingPowerRemaining st) → known (buyingPowerAvailable ctx)) ∧
  (is_Some (cashRemaining st) → known (cashAvailable ctx)) ∧
  (is_Some (portfolioRemaining st) → known (portfolioCapacityAvailable ctx)) ∧
  (is_Some (optionsBuyingPowerRemaining st) → known (optionsBuyingPowerAvailable ctx)) ∧
  (∀ k v, map_get (laneCapacityAvailable ctx) k = Some v →
     ∃ w, map_get (laneRemaining st) k = Some w ∧ (is_Some w → known v)) ∧
  (∀ e, In e (contextExposures ctx) → ¬ known (exp_resourceExposure e) →
     normalized (exp_underlyingSymbol e) ∈ unknownUnderlyingExposure st).

Lemma capacities_Some st p c :
  capacities st p = Some c →
  buyingPowerRemaining st = Some (cap_buyingPower c) ∧ cashRemaining st = Some (cap_cash c) ∧
  portfolioRemaining st = Some (cap_portfolio c) ∧ optionsCapacity st p = Some (cap_options c) ∧
  laneCapacity st p = Some (cap_lane c).
Proof.
  unfold capacities. destruct (buyingPowerRemaining st), (cashRemaining st), (portfolioRemaining st),
    (optionsCapacity st p), (laneCapacity st p); try done. by injection 1 as <-.
Qed.

Lemma map_get_set l k k' v :
  map_get (map_set l k v) k' = if decide (k = k') then const v <$> map_get l k' else map_get l k'.
Proof.
  unfold map_get, map_set, select_one. induction l as [|[j w] l IH]; cbn; [by case_decide|].
  destruct (decide (j = k)) as [->|Hj].
  - rewrite (bool_decide_eq_true_2 (k = k)) by done. cbn. destruct (decide (k = k')) as [->|Hk].
    + by rewrite bool_decide_eq_true_2.
    + rewrite bool_decide_eq_false_2 by done. exact IH.
  - rewrite (bool_decide_eq_false_2 (j = k)) by done. cbn. destruct (decide (j = k')) as [->|Hk].
    + rewrite bool_decide_eq_true_2 by done. cbn. rewrite decide_False by congruence. done.
    + rewrite bool_decide_eq_false_2 by done. exact IH.
Qed.

Lemma addExposure_unknown m e k :
  k ∈ snd m ∨ (¬ known (exp_resourceExposure e) ∧ normalized (exp_underlyingSymbol e) = k) →
  k ∈ snd (addExposure m e).
Proof.
  unfold addExposure, addUnderlyingExposure, known. intros [Hk|[Hu <-]];
    destruct (finiteNonnegative _) eqn:E; cbn; first [set_solver|destruct Hu; eauto].
Qed.

Lemma initial_unknown l m k :
  k ∈ snd m ∨ (∃ e, In e l ∧ ¬ known (exp_resourceExposure e) ∧ normalized (exp_underlyingSymbol e) = k) →
  k ∈ snd (foldl addExposure m l).
Proof.
  revert m. induction l as [|x l IH]; intros m H; cbn [foldl]; [by destruct H as [?|(e & [] & _)]|].
  apply IH. destruct H as [Hk|(e & [->|Hin] & Hu & Hn)]; [left|left|right; eauto];
    apply addExposure_unknown; auto.
Qed.

Lemma map_get_map (f : option number → option number) l k :
  map_get (map (λ e, (fst e, f (snd e))) l) k = f <$> map_get l k.
Proof.
  unfold map_get, select_one. induction l as [|[j w] l IH]; [done|]. cbn.
  by destruct (bool_decide (j = k)).
Qed.

Lemma remembers_initial ctx : remembers ctx (initialState ctx).
Proof.
  unfold remembers, initialState.
  cbn [buyingPowerRemaining cashRemaining portfolioRemaining optionsBuyingPowerRemaining
       laneRemaining unknownUnderlyingExposure]. split_and!; try done.
  - intros k v Hv. exists (finiteNonnegative v). by rewrite (map_get_map finiteNonnegative), Hv.
  - intros e He Hu. apply initial_unknown. right. eauto.
Qed.

Lemma remembers_commit ctx st p c resource :
  remembers ctx st → capacities st p = Some c → remembers ctx (commit st c p resource).
Proof.
  intros (Hb & Hc & Hf & Ho & Hl & Hu) Hcap.
  apply capacities_Some in Hcap as (Eb & Ec & Ef & Eo & El). unfold remembers, commit.
  cbn [buyingPowerRemaining cashRemaining portfolioRemaining optionsBuyingPowerRemaining
       laneRemaining unknownUnderlyingExposure]. split_and!.
  - intros _. apply Hb. eauto.
  - intros _. apply Hc. eauto.
  - intros _. apply Hf. eauto.
  - unfold optionsCapacity in Eo. destruct (assetClass p); [done|]. intros _. apply Ho. eauto.
  - intros k v Hv. destruct (Hl k v Hv) as (w & Hw & Hk). rewrite map_get_set.
    case_decide as Hlane; [|eauto]. rewrite Hw. eexists. split; [done|]. intros _. apply Hk.
    unfold laneCapacity in El. rewrite Hlane, Hw in El. cbn in El. eauto.
  - intros e He Hn. specialize (Hu e He Hn). unfold addUnderlyingExposure.
    destruct (finiteNonnegative _); cbn; set_solver.
Qed.

Lemma remembers_known ctx st p c :
  remembers ctx st → capacities st p = Some c → underlyingUnknown ctx st p = None →
  resources_known ctx p.
Proof.
  intros (Hb & Hc & Hf & Ho & Hl & Hu) Hcap Hun.
  apply capacities_Some in Hcap as (Eb & Ec & Ef & Eo & El). split_and!.
  - apply Hb. eauto.
  - apply Hc. eauto.
  - apply Hf. eauto.
  - intros Ha. apply Ho. unfold optionsCapacity in Eo. rewrite Ha in Eo. eauto.
  - intros v Hv. destruct (Hl _ _ Hv) as (w & Hw & Hk). apply Hk.
    unfold laneCapacity in El. rewrite Hw in El. cbn in El. eauto.
  - intros Hmax e He Hsym. unfold underlyingUnknown in Hun.
    rewrite bool_decide_eq_true_2 in Hun by done. cbn [andb] in Hun.
    case_bool_decide as Hin; [done|]. destruct (decide (known (exp_resourceExposure e))); [done|].
    destruct Hin. rewrite <- Hsym. auto.
Qed.

Lemma decideAll_known input st rank l p d :
  remembers (in_context input) st → In (p, d) (combine l (decideAll input st rank l)) →
  d_action d ≠ skip →
  resources_known (in_context input) p ∧
  ∃ resource, d_approvedResourceRequirement d = Some resource ∧ (resource <=? 0)%float = false.
Proof.
  revert st rank. induction l as [|q l IH]; intros st rank Hst Hin Hd; cbn [decideAll] in Hin; [done|].
  destruct (decideProposal (in_context input) st q) as [e st'] eqn:Ed.
  apply decideProposal_spec in Ed as [(Ha & _ & ->)|(Ha & _ & _ & Hu & s & c & _ & Hc & Hs)].
  - destruct Hin as [Heq|Hin]; [|by eapply IH]. injection Heq as <- <-.
    apply negb_false_iff, bool_decide_eq_true in Ha. by destruct Hd.
  - destruct (sizedResource _ _ _ _) as [resource units]. destruct Hs as (Hr & Hres & ->).
    destruct Hin as [Heq|Hin]; [|by eapply IH; [apply remembers_commit|..]].
    injection Heq as <- <-. split; [by eapply remembers_known|]. exists resource. by split.
Qed.

Lemma arbitrate_Ret input r :
  arbitratePortfolioResources input = Ret r →
  r_decisions r = decideAll input (initialState (in_context input)) 1 (ranked (in_proposals input)).
Proof. unfold arbitratePortfolioResources. destruct (existsb _ _); [done|]. by injection 1 as <-. Qed.

(** ** Properties *)

(** Arbitration decides every proposal exactly once, in rank order, and
    never creates conflicting exposure: the symbols (trimmed, upper case) of
    the approved or resized proposals are pairwise different, and the account
    has no position, active order or pending commitment in any of them. *)
Theorem arbitration_conflict_free input r :
  arbitratePortfolioResources input = Ret r →
  let l := ranked (in_proposals input) in
  l ≡ₚ in_proposals input ∧
  Forall2 (λ p d, d_proposalId d = proposalId p ∧ d_lane d = lane p) l (r_decisions r) ∧
  map d_rank (r_decisions r) = seq 1 (List.length (in_proposals input)) ∧
  NoDup (approved_keys l (r_decisions r)) ∧
  (∀ k e, In k (approved_keys l (r_decisions r)) → In e (contextExposures (in_context input)) →
     contextExposureKey e ≠ k).
Proof.
  intros H l. rewrite (arbitrate_Ret _ _ H).
  assert (Hp : l ≡ₚ in_proposals input) by apply sort_by_perm.
  destruct (decideAll_decides input (initialState (in_context input)) 1 l) as [Hd Hr].
  destruct (decideAll_keys input (initialState (in_context input)) 1 l) as [Hk Hn].
  split_and!; [exact Hp|exact Hd| |exact Hn|].
  - etransitivity; [exact Hr|]. f_equal. apply sort_by_length.
  - intros k e Hin He. by apply (proj1 (Hk k Hin)).
Qed.

(** Arbitration fails closed: a proposal is approved or resized only when
    buying power, cash, portfolio capacity, its lane's capacity and, for an
    option, options buying power are known, finite and not negative, and, under
    an exposure limit, the size of every exposure on its underlying is known;
    the amount granted is never zero or negative. *)
Theorem arbitration_fails_closed input r p d :
  arbitratePortfolioResources input = Ret r →
  In (p, d) (combine (ranked (in_proposals input)) (r_decisions r)) → d_action d ≠ skip →
  resources_known (in_context input) p ∧
  ∃ resource, d_approvedResourceRequirement d = Some resource ∧ (resource <=? 0)%float = false.
Proof.
  intros H. rewrite (arbitrate_Ret _ _ H). apply decideAll_known, remembers_initial.
Qed.

Lemma existsb_perm {A} (f : A → bool) l1 l2 : l1 ≡ₚ l2 → existsb f l1 = existsb f l2.
Proof. intros Hp. apply eq_iff_eq_true. rewrite !existsb_exists. by setoid_rewrite Hp. Qed.

(** The outcome of arbitration does not depend on the order in which the
    proposals are submitted, when their identifiers are distinct and no
    priority is NaN: the decisions, their order and the total are the same. *)
Theorem arbitration_order_independent id cycle ctx l1 l2 :
  l1 ≡ₚ l2 → NoDup (map proposalId l1) → priorities_known l1 →
  arbitratePortfolioResources {| in_arbitrationId := id; in_cycleId := cycle; in_proposals := l1; in_context := ctx |} =
  arbitratePortfolioResources {| in_arbitrationId := id; in_cycleId := cycle; in_proposals := l2; in_context := ctx |}.
Proof.
  intros Hp Hnd Hk. unfold arbitratePortfolioResources. cbn [in_proposals in_cycleId in_context].
  rewrite (existsb_perm _ l1 l2 Hp), (ranked_perm_eq l1 l2) by done.
  destruct (existsb _ l2); [done|].
  assert (Hall : ∀ l st rank,
    decideAll {| in_arbitrationId := id; in_cycleId := cycle; in_proposals := l1; in_context := ctx |} st rank l =
    decideAll {| in_arbitrationId := id; in_cycleId := cycle; in_proposals := l2; in_context := ctx |} st rank l).
  { induction l as [|p l IH]; intros st rank; [done|]. cbn. destruct (decideProposal _ st p). by rewrite IH. }
  unfold arbitrationResult. by rewrite Hall.
Qed.

(** ** Three proposals for 500 dollars *)

Definition demo_proposal (id sym : string) (d : PortfolioExposureDirection) (s req : number)
    : PortfolioArbitrationProposal :=
  {| proposalId := id; cycleId := "c1"; lane := equity_lane; strategyPriority := 1%float;
     score := Some s; confidence := None; symbol := sym; underlyingSymbol := sym;
     contractId := None; direction := d; assetClass := equity_asset; requestedQuantity := None;
     requestedNotional := Some req; resourceRequirement := Some req;
     unitResource := Some 1%float; resizeMode := notional |}.

Definition demo_context : PortfolioResourceContext :=
  {| contextId := "ctx"; contextVersion := "1"; buyingPowerAvailable := Some 500%float;
     optionsBuyingPowerAvailable := None; cashAvailable := Some 500%float;
     portfolioCapacityAvailable := Some 1000%float; maxUnderlyingExposure := Some 1000%float;
     existingPositions := []; openOrders := []; pendingCommitments := [];
     laneCapacityAvailable := [(equity_lane, Some 1000%float)]; accountSnapshotAsOf := None;
     positionSnapshotAsOf := None; openOrderSnapshotAsOf := None |}.

Definition demo_arbitration : ArbitrationInput :=
  {| in_arbitrationId := "arb"; in_cycleId := "c1";
     in_proposals := [demo_proposal "p1" "MSFT" long_direction 1 300;
                      demo_proposal "p2" "AAPL" long_direction 2 400;
                      demo_proposal "p3" " aapl" short_direction 0.5 100]%float;
     in_context := demo_context |}.

(** The better score is served in full, the next one gets what is left, and the
    opposing proposal on the same symbol is skipped. *)
Definition demo_decisions : list (string * PortfolioArbitrationAction * option number) :=
  [("p2", approve, Some 400); ("p1", resize, Some 100); ("p3", skip, None)]%float%string.

Definition summary (r : res PortfolioArbitrationResult)
    : list (string * PortfolioArbitrationAction * option number) :=
  match r with
  | Ret x => map (λ d, (d_proposalId d, d_action d, d_approvedResourceRequirement d)) (r_decisions x)
  | Throw _ => []
  end.

Lemma demo_arbitration_runs :
  ∃ r, arbitratePortfolioResources demo_arbitration = Ret r ∧
       summary (Ret r) = demo_decisions ∧
       approved_keys (ranked (in_proposals demo_arbitration)) (r_decisions r) = ["AAPL"; "MSFT"]%string ∧
       (∃ d, nth_error (combine (ranked (in_proposals demo_arbitration)) (r_decisions r)) 1 =
               Some (demo_proposal "p1" "MSFT" long_direction 1 300, d)%float ∧ d_action d = resize).
Proof. eexists. split; [vm_compute; reflexivity|]. vm_compute. eauto. Qed.

Lemma arbitration_conflict_free_witness :
  summary (arbitratePortfolioResources demo_arbitration) = demo_decisions ∧
  NoDup ["AAPL"; "MSFT"]%string.
Proof.
  destruct demo_arbitration_runs as (r & H & Hs & Hk & _).
  rewrite H. split; [exact Hs|]. rewrite <- Hk.
  exact (proj1 (proj2 (proj2 (proj2 (arbitration_conflict_free demo_arbitration r H))))).
Defined.

Lemma arbitration_fails_closed_witness :
  resources_known demo_context (demo_proposal "p1" "MSFT" long_direction 1 300)%float.
Proof.
  destruct demo_arbitration_runs as (r & H & _ & _ & d & Hn & Hd).
  apply nth_error_In in Hn.
  refine (proj1 (arbitration_fails_closed demo_arbitration r _ d H Hn _)).
  rewrite Hd. discriminate.
Defined.

Lemma arbitration_order_independent_witness :
  summary (arbitratePortfolioResources
    {| in_arbitrationId := "arb"; in_cycleId := "c1";
       in_proposals := rev (in_proposals demo_arbitration); in_context := demo_context |}) =
  demo_decisions.
Proof.
  rewrite <- (arbitration_order_independent "arb" "c1" demo_context (in_proposals demo_arbitration)).
  - vm_compute. reflexivity.
  - apply Permutation_rev.
  - apply (bool_decide_unpack _). vm_compute. exact I.
  - intros p [<-|[<-|[<-|[]]]]; vm_compute; reflexivity.
Defined.
