(* ===== verification/WorkerPersistence.v ===== *)
(** Bounded retries of worker persistence: lines 17 to 344 of
    src/services/autonomousWorkerStateService.ts.

    [runAutonomousWorkerPersistence] calls an operation until it succeeds, fails
    for good or has used its attempts, and reports evidence of the outcome.  The
    operation, the clock and the random source are arguments: the outcome of the
    n-th call, the n-th timestamp and the n-th random number.  Errors are
    objects of a heap, because causes can be shared and cyclic. *)

From S2P Require Import Prelude.
From S2P Require Import JsString.
From S2P Require Import JsNumber.
Open Scope Z_scope.

(** ** Constants and data *)

Definition DEFAULT_MAXIMUM_PERSISTENCE_ATTEMPTS : number := 3%float.
Definition DEFAULT_PERSISTENCE_RETRY_BASE_DELAY_MS : number := 100%float.
Definition DEFAULT_PERSISTENCE_RETRY_MAXIMUM_DELAY_MS : number := 1000%float.
Definition RETRYABLE_POSTGRES_CODES : list string :=
  ["40001"; "40P01"; "53300"; "55P03"; "57P01"; "57P02"; "57P03"]%string.
Definition RETRYABLE_SYSTEM_CODES : list string :=
  ["ECONNREFUSED"; "ECONNRESET"; "EHOSTUNREACH"; "ENETDOWN"; "ENETUNREACH"; "EPIPE"; "ETIMEDOUT"]%string.

Definition is_digit_or_upper (c : ascii) : bool := is_digit c || is_upper c.

(** [/^(?:(?:[0-9]{2}|[0-9][A-Z])|P0|XX)[0-9A-Z]{3}$/]. *)
Definition SQLSTATE_PATTERN (s : string) : bool :=
  match s with
  | String a (String b (String c (String d (String e EmptyString)))) =>
      (is_digit a && is_digit_or_upper b || (a =? "P")%char && (b =? "0")%char
       || (a =? "X")%char && (b =? "X")%char)
      && is_digit_or_upper c && is_digit_or_upper d && is_digit_or_upper e
  | _ => false
  end.

(** [/^[A-Z][A-Z0-9_]{0,159}$/]. *)
Definition APPLICATION_ERROR_CODE_PATTERN (s : string) : bool :=
  match s with
  | String a r => is_upper a && string_forall (λ c, is_digit_or_upper c || (c =? "_")%char) r
                  && (String.length r <=? 159)%nat
  | EmptyString => false
  end.

(** [code.startsWith("08")]. *)
Definition startsWith (p s : string) : bool := String.prefix p s.

Inductive AutonomousWorkerPersistenceClassification : Set :=
| AUTHORITATIVE_REQUIRED | AUTHORITATIVE_RECOVERABLE | OBSERVABILITY_SUPPLEMENTAL.
#[export] Instance AutonomousWorkerPersistenceClassification_eq_dec :
  EqDecision AutonomousWorkerPersistenceClassification.
Proof. solve_decision. Defined.

Inductive AutonomousWorkerPersistenceDisposition : Set :=
| PERSISTED | PERSISTED_AFTER_RETRY | CYCLE_FAILED_WORKER_CONTINUED | SUPPLEMENTAL_WRITE_SKIPPED
| NONRETRYABLE_PERSISTENCE_FAILURE | FENCE_LOST_DISPOSITION.
#[export] Instance AutonomousWorkerPersistenceDisposition_eq_dec :
  EqDecision AutonomousWorkerPersistenceDisposition.
Proof. solve_decision. Defined.

Inductive SchedulerFenceStatus : Set := fence_held | fence_lost | fence_not_applicable.
Inductive TransactionStatus : Set := tx_committed | tx_rolled_back_or_not_started.

(** The identity fields that every piece of evidence copies from the input. *)
Record OperationIdentity := {
  op_operationName : string;
  op_persistenceClassification : AutonomousWorkerPersistenceClassification;
  op_cycleId : string;
  op_workstreamName : string;
  op_lifecycleState : string;
  op_schedulerFenceStatus : SchedulerFenceStatus
}.

Record AutonomousWorkerPersistenceEvidence := {
  pe_operation : OperationIdentity;
  pe_retryAttempt : nat;
  pe_maximumAttempts : number;
  pe_errorCode : option string;
  pe_postgresErrorCode : option string;
  pe_retryable : bool;
  pe_schedulerFenceStatus : SchedulerFenceStatus;
  pe_transactionStatus : TransactionStatus;
  (** The final disposition, or the delay of a retry that follows. *)
  pe_final : AutonomousWorkerPersistenceDisposition + number;
  pe_timestamp : Z
}.

(** ** Error identity *)

(** What a thrown value or a cause can be: an object of the heap or not. *)
Inductive ErrorValue : Set := ErrorObject (id : nat) | OtherValue.

Record ErrorRecord := {
  err_code : option string;
  err_message : option string;
  err_cause : option ErrorValue;
  err_errors : list ErrorValue
}.

Section identity.
Context (heap : nat → ErrorRecord).

Record ErrorIdentity := {
  errorCode : option string;
  postgresErrorCode : option string
}.

Definition code_identity (code : string) : ErrorIdentity :=
  {| errorCode := Some code;
     postgresErrorCode := if SQLSTATE_PATTERN code then Some code else None |}.

Definition final_identity (fallback : option string) : ErrorIdentity :=
  {| errorCode := fallback;
     postgresErrorCode :=
       match fallback with Some c => if SQLSTATE_PATTERN c then Some c else None | None => None end |}.

(** A code that ends the search. *)
Definition decisive_code (code : string) : bool :=
  (code =? "SCHEDULER_FENCE_LOST")%string
  || (SQLSTATE_PATTERN code && startsWith "08" code)
  || str_mem code RETRYABLE_POSTGRES_CODES || str_mem code RETRYABLE_SYSTEM_CODES
  || SQLSTATE_PATTERN code.

(** [record.code.trim().toUpperCase()], when it is a nonblank string. *)
Definition trimmed_code (r : ErrorRecord) : option string :=
  match err_code r with
  | Some c => if str_truthy (trim c) then Some (to_upper (trim c)) else None
  | None => None
  end.

(** [fallback ??= candidate], for a candidate that matches the pattern. *)
Definition fall_back (fallback : option string) (candidate : option string) : option string :=
  match fallback, candidate with
  | None, Some c => if APPLICATION_ERROR_CODE_PATTERN c then Some c else None
  | f, _ => f
  end.

(** One object: a decisive code, or the new fallback. *)
Definition inspect (r : ErrorRecord) (fallback : option string) : string + option string :=
  match trimmed_code r with
  | Some c => if decisive_code c then inl c
              else inr (fall_back (fall_back fallback (Some c)) (trim <$> err_message r))
  | None => inr (fall_back fallback (trim <$> err_message r))
  end.

Definition successors (r : ErrorRecord) : list ErrorValue :=
  match err_cause r with Some v => [v] | None => [] end ++ err_errors r.

(** The breadth-first search of [errorIdentity]: [budget] is
    [16 - seen.size]; values that are not objects or were seen are skipped. *)
Fixpoint search_identity (budget : nat) (seen : list nat) (fallback : option string)
    (pending : list ErrorValue) : ErrorIdentity :=
  match budget with
  | O => final_identity fallback
  | S budget' =>
      (fix next (pending : list ErrorValue) : ErrorIdentity :=
         match pending with
         | [] => final_identity fallback
         | OtherValue :: rest => next rest
         | ErrorObject id :: rest =>
             if existsb (Nat.eqb id) seen then next rest
             else match inspect (heap id) fallback with
                  | inl code => code_identity code
                  | inr fallback' =>
                      search_identity budget' (id :: seen) fallback'
                        (rest ++ successors (heap id))
                  end
         end) pending
  end.

Definition errorIdentity (error : ErrorValue) : ErrorIdentity :=
  search_identity 16 [] None [error].

End identity.

Definition retryablePersistenceError (code : option string) : bool :=
  match code with
  | Some c =>
      str_truthy c &&
      ((SQLSTATE_PATTERN c && startsWith "08" c) || str_mem c RETRYABLE_POSTGRES_CODES
       || str_mem c RETRYABLE_SYSTEM_CODES)
  | None => false
  end.

(** ** The retry loop *)

Definition boundedRetryDelay (retryAttempt : nat) (baseDelayMs maximumDelayMs random : number) : number :=
  let exponential := math_min maximumDelayMs (baseDelayMs * two_pow (retryAttempt - 1))%float in
  let jitter := math_min 1%float (math_max 0%float random) in
  math_min maximumDelayMs
    (math_max 0%float (math_floor (exponential * (0x1p-1 + jitter * 0x1p-1))%float)).

Record PersistenceBounds := {
  dep_maximumAttempts : option number;
  dep_baseDelayMs : option number;
  dep_maximumDelayMs : option number
}.

Definition maximumAttempts (d : PersistenceBounds) : number :=
  math_max 1%float (math_min 5%float
    (math_floor (default DEFAULT_MAXIMUM_PERSISTENCE_ATTEMPTS (dep_maximumAttempts d)))).
Definition baseDelayMs (d : PersistenceBounds) : number :=
  math_max 0%float (math_floor (default DEFAULT_PERSISTENCE_RETRY_BASE_DELAY_MS (dep_baseDelayMs d))).
Definition maximumDelayMs (d : PersistenceBounds) : number :=
  math_max (baseDelayMs d)
    (math_floor (default DEFAULT_PERSISTENCE_RETRY_MAXIMUM_DELAY_MS (dep_maximumDelayMs d))).

Inductive PersistenceResult (T : Type) : Type :=
| Persisted (value : T) (evidence : AutonomousWorkerPersistenceEvidence)
| PersistenceFailed (evidence : AutonomousWorkerPersistenceEvidence) (error : ErrorValue)
| RetryBoundsInvalid.
Arguments Persisted {T}.
Arguments PersistenceFailed {T}.
Arguments RetryBoundsInvalid {T}.

Section loop.
Context {T : Type} (heap : nat → ErrorRecord).
(** The outcome of the n-th call, from 1. *)
Context (operation : nat → T + ErrorValue).
Context (random : nat → number) (now : nat → Z).
Context (input : OperationIdentity) (deps : PersistenceBounds).

(** What the loop remembers of the last failure. *)
Record LastError := {
  lastErrorCode : option string;
  lastPostgresErrorCode : option string;
  lastRetryable : bool
}.

Definition success_evidence (attempt : nat) (last : LastError) : AutonomousWorkerPersistenceEvidence :=
  {| pe_operation := input; pe_retryAttempt := attempt - 1; pe_maximumAttempts := maximumAttempts deps;
     pe_errorCode := lastErrorCode last; pe_postgresErrorCode := lastPostgresErrorCode last;
     pe_retryable := lastRetryable last; pe_schedulerFenceStatus := op_schedulerFenceStatus input;
     pe_transactionStatus := tx_committed;
     pe_final := inl (if (attempt =? 1)%nat then PERSISTED else PERSISTED_AFTER_RETRY);
     pe_timestamp := now attempt |}.

Definition retry_evidence (attempt : nat) (id : ErrorIdentity) (delay : number)
    : AutonomousWorkerPersistenceEvidence :=
  {| pe_operation := input; pe_retryAttempt := attempt; pe_maximumAttempts := maximumAttempts deps;
     pe_errorCode := errorCode id; pe_postgresErrorCode := postgresErrorCode id;
     pe_retryable := true; pe_schedulerFenceStatus := op_schedulerFenceStatus input;
     pe_transactionStatus := tx_rolled_back_or_not_started; pe_final := inr delay;
     pe_timestamp := now attempt |}.

Definition disposition (fenceLost retryable : bool) : AutonomousWorkerPersistenceDisposition :=
  if fenceLost then FENCE_LOST_DISPOSITION
  else if bool_decide (op_persistenceClassification input = OBSERVABILITY_SUPPLEMENTAL)
  then SUPPLEMENTAL_WRITE_SKIPPED
  else if retryable then CYCLE_FAILED_WORKER_CONTINUED else NONRETRYABLE_PERSISTENCE_FAILURE.

Definition failure_evidence (attempt : nat) (id : ErrorIdentity) (fenceLost retryable : bool)
    : AutonomousWorkerPersistenceEvidence :=
  {| pe_operation := input; pe_retryAttempt := attempt - 1; pe_maximumAttempts := maximumAttempts deps;
     pe_errorCode := errorCode id; pe_postgresErrorCode := postgresErrorCode id;
     pe_retryable := retryable;
     pe_schedulerFenceStatus := if fenceLost then fence_lost else op_schedulerFenceStatus input;
     pe_transactionStatus := tx_rolled_back_or_not_started;
     pe_final := inl (disposition fenceLost retryable); pe_timestamp := now attempt |}.

Definition is_fence_lost (id : ErrorIdentity) : bool :=
  match errorCode id with Some c => (c =? "SCHEDULER_FENCE_LOST")%string | None => false end.

(** The loop from [attempt] on, with the evidence emitted so far: the result
    and everything emitted.  The attempts never exceed five, so six rounds
    reach the end of the loop. *)
Fixpoint attempts (fuel attempt : nat) (last : LastError)
    (emitted : list AutonomousWorkerPersistenceEvidence)
    : option (PersistenceResult T * list AutonomousWorkerPersistenceEvidence) :=
  match fuel with
  | O => None
  | S fuel' =>
      if negb (num_of_Z (Z.of_nat attempt) <=? maximumAttempts deps)%float
      then Some (RetryBoundsInvalid, emitted)
      else match operation attempt with
      | inl value =>
          let e := success_evidence attempt last in Some (Persisted value e, emitted ++ [e])
      | inr error =>
          let id := errorIdentity heap error in
          let fenceLost := is_fence_lost id in
          let retryable := negb fenceLost && retryablePersistenceError (errorCode id) in
          if retryable && (num_of_Z (Z.of_nat attempt) <? maximumAttempts deps)%float then
            let delay := boundedRetryDelay attempt (baseDelayMs deps) (maximumDelayMs deps)
                           (random attempt) in
            attempts fuel' (S attempt)
              {| lastErrorCode := errorCode id; lastPostgresErrorCode := postgresErrorCode id;
                 lastRetryable := retryable |}
              (emitted ++ [retry_evidence attempt id delay])
          else
            let e := failure_evidence attempt id fenceLost retryable in
            Some (PersistenceFailed e error, emitted ++ [e])
      end
  end.

Definition runAutonomousWorkerPersistence
    : option (PersistenceResult T * list AutonomousWorkerPersistenceEvidence) :=
  attempts 6 1 {| lastErrorCode := None; lastPostgresErrorCode := None; lastRetryable := false |} [].

End loop.

(** ** Bounds *)

(** A delay is between zero and the maximum, when the maximum is not negative. *)
Lemma boundedRetryDelay_bounds n base maximum rnd :
  is_nan (boundedRetryDelay n base maximum rnd) = false → (0 <=? maximum)%float = true →
  (0 <=? boundedRetryDelay n base maximum rnd)%float = true ∧
  (boundedRetryDelay n base maximum rnd <=? maximum)%float = true.
Proof.
  unfold boundedRetryDelay. set (e := math_floor _). intros Hn H0.
  destruct (math_min_le _ _ Hn) as [Hmax Hle]. split; [|done].
  pose proof (math_min_not_nan _ _ Hn) as Hm.
  destruct (math_max_ge _ _ Hm) as [Hge _].
  revert Hge Hmax Hle H0. rewrite !num_leb_val.
  destruct (num_val maximum) as [m|] eqn:Em; [|by destruct (num_val 0)].
  destruct (num_val (math_max 0 e)) as [v|] eqn:Ev; [|by destruct (num_val 0)].
  rewrite (math_min_val _ _ m v) by done. replace (num_val 0%float) with (Some 0) by done. cbn.
  rewrite !Z.leb_le. lia.
Qed.

Lemma maximumAttempts_le_5 d :
  is_nan (maximumAttempts d) = false → (maximumAttempts d <=? 5)%float = true.
Proof.
  unfold maximumAttempts. set (f := math_floor _). intros H.
  destruct (math_max_ge _ _ H) as [_ H2]. apply leb_not_nan in H2 as [Hm _].
  destruct (math_min_le _ _ Hm) as [H5 _].
  revert H5. rewrite !num_leb_val. destruct (num_val (math_min 5 f)) as [v|] eqn:Ev; [|done].
  rewrite (math_max_val 1 _ (2 ^ 1074) v); [|vm_compute; reflexivity|exact Ev].
  replace (num_val 5%float) with (Some (5 * 2 ^ 1074)) by (vm_compute; reflexivity).
  cbn [opt_cmp]. rewrite !Z.leb_le. generalize (Z.pow_pos_nonneg 2 1074). lia.
Qed.

(** The number of attempts is a whole number from one to five. *)
Lemma maximumAttempts_whole d :
  is_nan (maximumAttempts d) = false →
  ∃ k, 1 ≤ k ≤ 5 ∧ num_val (maximumAttempts d) = Some (k * 2 ^ 1074).
Proof.
  unfold maximumAttempts. set (v := default _ _). intros H.
  destruct (math_max_ge _ _ H) as [_ H2]. apply leb_not_nan in H2 as [Hm _].
  destruct (math_floor_whole v (math_min_not_nan _ _ Hm)) as (z & Hz).
  pose proof (math_min_val 5 _ (5 * 2 ^ 1074) _ ltac:(vm_compute; reflexivity) Hz) as Hmin.
  pose proof (math_max_val 1 _ (2 ^ 1074) _ ltac:(vm_compute; reflexivity) Hmin) as ->.
  exists (Z.max 1 (Z.min 5 z)). split; [lia|]. f_equal.
  pose proof (pow2_pos 1074 ltac:(lia)). nia.
Qed.

Lemma maximumDelayMs_nonneg d :
  is_nan (maximumDelayMs d) = false → (0 <=? maximumDelayMs d)%float = true.
Proof.
  unfold maximumDelayMs. intros H. destruct (math_max_ge _ _ H) as [Hb _].
  apply leb_not_nan in Hb as Hn. destruct Hn as [Hn _]. unfold baseDelayMs in *.
  destruct (math_max_ge _ _ Hn) as [H0 _]. eapply num_leb_trans; done.
Qed.

(** ** The loop *)

Section loop_properties.
Context {T : Type} (heap : nat → ErrorRecord) (operation : nat → T + ErrorValue).
Context (random : nat → number) (now : nat → Z).
Context (input : OperationIdentity) (deps : PersistenceBounds).

Local Abbreviation run := (attempts heap operation random now input deps).
Local Abbreviation max := (maximumAttempts deps).

(** The error of a call is worth another attempt. *)
Definition worth_retrying (error : ErrorValue) : Prop :=
  is_fence_lost (errorIdentity heap error) = false ∧
  retryablePersistenceError (errorCode (errorIdentity heap error)) = true.

(** Calls [n0 .. n-1] failed with an error worth another attempt, and the
    [n]-th call decided the result, after [count] evidences. *)
Definition decided_at (n0 n : nat) (r : PersistenceResult T) : Prop :=
  (∀ k, (n0 ≤ k < n)%nat → ∃ error, operation k = inr error ∧ worth_retrying error) ∧
  match operation n with
  | inl value => ∃ e, r = Persisted value e ∧ pe_transactionStatus e = tx_committed ∧
      pe_final e = inl (if (n =? 1)%nat then PERSISTED else PERSISTED_AFTER_RETRY)
  | inr error => ∃ e, r = PersistenceFailed e error ∧
      pe_transactionStatus e = tx_rolled_back_or_not_started ∧
      (worth_retrying error → (max <=? num_of_Z (Z.of_nat n))%float = true) ∧
      (is_fence_lost (errorIdentity heap error) = true →
         pe_final e = inl FENCE_LOST_DISPOSITION ∧ pe_schedulerFenceStatus e = fence_lost)
  end.

(** A delay announced by an evidence lies within the configured maximum. *)
Definition delay_bounded (e : AutonomousWorkerPersistenceEvidence) : Prop :=
  ∀ d, pe_final e = inr d → is_nan d = false → is_nan (maximumDelayMs deps) = false →
  (0 <=? d)%float = true ∧ (d <=? maximumDelayMs deps)%float = true.

(** While at most [max] attempts are made, at most five are. *)
Lemma attempt_le_5 n :
  is_nan max = false → (n ≤ 6)%nat → (num_of_Z (Z.of_nat n) <=? max)%float = true → (n ≤ 5)%nat.
Proof.
  intros Hm Hn H. pose proof (num_leb_trans _ _ _ H (maximumAttempts_le_5 deps Hm)) as H5.
  change 5%float with (num_of_Z (Z.of_nat 5)) in H5. rewrite num_of_nat_leb in H5 by lia.
  by apply Nat.leb_le.
Qed.

Lemma attempts_decided fuel n last emitted :
  is_nan max = false → (1 ≤ n ≤ 6)%nat → (fuel + n = 7)%nat →
  (num_of_Z (Z.of_nat n) <=? max)%float = true → Forall delay_bounded emitted →
  ∃ m r out, run fuel n last emitted = Some (r, out) ∧ (n ≤ m ≤ 5)%nat ∧
    (num_of_Z (Z.of_nat m) <=? max)%float = true ∧ decided_at n m r ∧
    List.length out = (List.length emitted + (S m - n))%nat ∧ Forall delay_bounded out.
Proof.
  intros Hmax. revert n last emitted. induction fuel as [|fuel IH]; intros n last emitted Hn Hf Hle Hb.
  { lia. }
  assert (Hn5 : (n ≤ 5)%nat) by (apply attempt_le_5; [done|lia|done]).
  cbn [attempts]. rewrite Hle. cbn [negb].
  destruct (operation n) as [value|error] eqn:Eo.
  { eexists n, _, _. split; [done|]. split_and!; try done.
    - split; [intros k Hk; lia|]. rewrite Eo. by eexists.
    - rewrite length_app. cbn. lia.
    - apply Forall_app_2; [done|]. by repeat constructor. }
  destruct (negb (is_fence_lost (errorIdentity heap error)) &&
            retryablePersistenceError (errorCode (errorIdentity heap error))) eqn:Ew.
  1: destruct (num_of_Z (Z.of_nat n) <? max)%float eqn:Elt; cbn [andb].
  - apply andb_true_iff in Ew as [Hfl%negb_true_iff Hre].
    assert (HS : (num_of_Z (Z.of_nat (S n)) <=? max)%float = true).
    { destruct (maximumAttempts_whole deps Hmax) as (k & _ & Hk). revert Elt.
      rewrite num_ltb_val, num_leb_val, Hk, !num_of_Z_val by lia. cbn [opt_cmp].
      rewrite Z.ltb_lt, Z.leb_le. pose proof (pow2_pos 1074 ltac:(lia)). nia. }
    edestruct (IH (S n)) as (m & r & out & -> & Hm & Hle' & Hd & Hlen & Hb'); [lia|lia|done| |].
    2:{ exists m, r, out. split; [done|]. split_and!; [lia|lia|done| |rewrite Hlen, length_app; cbn; lia|done].
        destruct Hd as [Hd1 Hd2]. split; [|done]. intros k Hk.
        destruct (decide (k = n)) as [->|Hkn]; [|apply Hd1; lia]. exists error. by split. }
    apply Forall_app_2; [done|]. constructor; [|constructor]. intros delay Hd Hnd Hnm. injection Hd as <-.
    apply boundedRetryDelay_bounds; [done|]. by apply maximumDelayMs_nonneg.
  - eexists n, _, _. split; [done|]. split_and!; try done.
    + split; [intros k Hk; lia|]. rewrite Eo. eexists. split; [done|]. split_and!; [done| |].
      * intros _. rewrite ltb_negb_leb in Elt; [by apply negb_false_iff|by apply leb_not_nan in Hle as [? _]|done].
      * intros Hfl. by rewrite Hfl in Ew.
    + rewrite length_app. cbn. lia.
    + apply Forall_app_2; [done|]. by repeat constructor.
  - eexists n, _, _. split; [done|]. split_and!; try done.
    + split; [intros k Hk; lia|]. rewrite Eo. eexists. split; [done|]. split_and!; [done| |].
      * intros [Hfl Hre]. by rewrite Hfl, Hre in Ew.
      * intros Hfl. unfold failure_evidence, disposition.
        cbn [pe_final pe_schedulerFenceStatus]. by rewrite Hfl.
    + rewrite length_app. cbn. lia.
    + apply Forall_app_2; [done|]. by repeat constructor.
Qed.

(** The retry loop of worker persistence always ends.  When the configured
    number of attempts is NaN the operation is not called and the bounds are
    reported invalid; otherwise it is called one to five times, never more than
    configured: every call before the last failed with a retryable error other
    than a lost fence, and the last one succeeded or failed with an error that
    is not retryable or on the last attempt.  A lost fence is reported as such.
    One evidence is emitted per call, and each announced delay lies between
    zero and the configured maximum. *)
Theorem persistence_attempts_bounded :
  ∃ r out, runAutonomousWorkerPersistence heap operation random now input deps = Some (r, out) ∧
    (is_nan max = true → r = RetryBoundsInvalid ∧ out = []) ∧
    (is_nan max = false →
       ∃ n, (1 ≤ n ≤ 5)%nat ∧ (num_of_Z (Z.of_nat n) <=? max)%float = true ∧
         decided_at 1 n r ∧ List.length out = n ∧ Forall delay_bounded out).
Proof.
  destruct (is_nan max) eqn:Hn.
  - exists RetryBoundsInvalid, []. split; [|done].
    unfold runAutonomousWorkerPersistence. cbn [attempts].
    destruct (num_of_Z (Z.of_nat 1) <=? max)%float eqn:E; [|done].
    apply leb_not_nan in E as [_ E]. congruence.
  - destruct (attempts_decided 6 1 {| lastErrorCode := None; lastPostgresErrorCode := None;
      lastRetryable := false |} []) as (m & r & out & Hr & Hm & Hle & Hd & Hlen & Hb);
      [done|lia|done| |constructor|].
    + destruct (maximumAttempts_whole deps Hn) as (k & Hk & E).
      rewrite num_leb_val, E, num_of_Z_val by lia. cbn [opt_cmp]. apply Z.leb_le.
      pose proof (pow2_pos 1074 ltac:(lia)). nia.
    + exists r, out. split; [done|]. split; [done|]. intros _. exists m.
      split_and!; try done; try lia. rewrite Hlen. cbn. lia.
Qed.

End loop_properties.

(** ** Two serialization failures, then success *)

Definition demo_heap (id : nat) : ErrorRecord :=
  {| err_code := match id with 1%nat => Some " 40001 "%string | _ => None end;
     err_message := Some "query failed"%string;
     err_cause := Some (ErrorObject (1 - id)); err_errors := [] |}.
Definition demo_operation (n : nat) : string + ErrorValue :=
  if (n <=? 2)%nat then inr (ErrorObject 0) else inl "row"%string.
Definition demo_identity : OperationIdentity :=
  {| op_operationName := "persist"; op_persistenceClassification := AUTHORITATIVE_RECOVERABLE;
     op_cycleId := "c"; op_workstreamName := "w"; op_lifecycleState := "cycle_started";
     op_schedulerFenceStatus := fence_held |}.
Definition demo_bounds : PersistenceBounds :=
  {| dep_maximumAttempts := None; dep_baseDelayMs := None; dep_maximumDelayMs := None |}.

(** The code is found behind the cyclic cause of the error. *)
Example demo_error_identity :
  errorIdentity demo_heap (ErrorObject 0) =
    {| errorCode := Some "40001"%string; postgresErrorCode := Some "40001"%string |}.
Proof. vm_compute. reflexivity. Qed.

Lemma persistence_attempts_bounded_witness :
  ∃ e out, runAutonomousWorkerPersistence demo_heap demo_operation (λ _, 0x1p-1%float) (λ _, 0)
      demo_identity demo_bounds = Some (Persisted "row"%string e, out) ∧ List.length out = 3%nat.
Proof.
  destruct (persistence_attempts_bounded demo_heap demo_operation (λ _, 0x1p-1%float) (λ _, 0)
    demo_identity demo_bounds) as (r & out & Hrun & _ & H).
  assert (Hnan : is_nan (maximumAttempts demo_bounds) = false) by (vm_compute; reflexivity).
  destruct (H Hnan) as (n & Hn & _ & [Hfail Hres] & Hlen & _).
  assert (n = 3%nat) as ->.
  { vm_compute in Hrun. injection Hrun as _ <-. vm_compute in Hlen. congruence. }
  cbn in Hres. destruct Hres as (e & -> & _). exists e, out. split; [exact Hrun|exact Hlen].
Defined.
