(* ===== verification/WorkerState.v ===== *)
(** The event log of the autonomous worker: lines 346 to 615 of
    src/services/autonomousWorkerStateService.ts.

    A worker cycle is recorded as events in the table workstream_events;
    [persistAutonomousWorkerStateWithClient] checks the fence, replays, closes
    the cycle a crashed worker left behind, checks the state machine and appends
    the event.  Digests, the canonical JSON of a payload and its redaction are
    data of the input: a payload carries the JSON [asJsonPayload] makes of it
    and the text [payload->>'workstream'] the database reads back. *)

From stdpp Require Import pretty countable.
From S2P Require Import Prelude.
From S2P Require Import JsString.
From S2P Require Import JsText.
From S2P Require Import SchedulerLease.
Open Scope Z_scope.

(** ** The state machine *)

Definition ACTIVE_CYCLE_WINDOW_MS : Z := 6 * 3600000.

Definition AUTONOMOUS_WORKER_EVENT_TYPES : list string :=
  ["preflight_failed"; "cycle_started"; "workstream_started"; "workstream_completed";
   "workstream_failed"; "cycle_completed"; "cycle_failed"; "worker_stopped"]%string.

(** [/^[0-9a-f]{8}-[0-9a-f]{4}-[1-5][0-9a-f]{3}-[89ab][0-9a-f]{3}-[0-9a-f]{12}$/i],
    one character class per position. *)
Definition is_hex (c : ascii) : bool :=
  is_digit c || str_mem (String (lower_char c) EmptyString) ["a"; "b"; "c"; "d"; "e"; "f"]%string.
Definition is_dash (c : ascii) : bool := (c =? "-")%char.
Definition is_uuid_version (c : ascii) : bool := str_mem (String c EmptyString) ["1"; "2"; "3"; "4"; "5"]%string.
Definition is_uuid_variant (c : ascii) : bool :=
  str_mem (String (lower_char c) EmptyString) ["8"; "9"; "a"; "b"]%string.

Fixpoint matches (classes : list (ascii → bool)) (s : string) : bool :=
  match classes, s with
  | [], EmptyString => true
  | p :: classes', String c s' => p c && matches classes' s'
  | _, _ => false
  end.

Definition CYCLE_ID (s : string) : bool :=
  matches (replicate 8 is_hex ++ [is_dash] ++ replicate 4 is_hex ++ [is_dash; is_uuid_version] ++
           replicate 3 is_hex ++ [is_dash; is_uuid_variant] ++ replicate 3 is_hex ++ [is_dash] ++
           replicate 12 is_hex) s.

Definition allowedTransition (previous : option string) (next : string) : bool :=
  match previous with
  | None => (next =? "cycle_started") || (next =? "preflight_failed")
  | Some p =>
      if (p =? "preflight_failed") || (p =? "worker_stopped") then false
      else if next =? "worker_stopped" then true
      else if p =? "cycle_started" then (next =? "workstream_started") || (next =? "cycle_failed")
      else if p =? "workstream_started"
      then str_mem next ["workstream_completed"; "workstream_failed"; "cycle_failed"]
      else if p =? "workstream_completed"
      then str_mem next ["workstream_started"; "cycle_completed"; "cycle_failed"]
      else if p =? "workstream_failed" then next =? "cycle_failed"
      else false
  end%string.

Definition boundedText (value : option string) (fallback : string) (max : nat) : string :=
  let text := match value with Some v => trim v | None => EmptyString end in
  str_take max (if str_truthy text then text else fallback).

(** [eventType.startsWith("workstream_")] and [eventType.endsWith("_failed")]. *)
Definition workstream_event (t : string) : bool := String.prefix "workstream_" t.
Definition failed_event (t : string) : bool :=
  (String.substring (String.length t - 7) 7 t =? "_failed")%string && (7 <=? String.length t)%nat.

Section worker_state.
Context {Json : Type}.
(** [stableRecordId("autonomous_worker_event", canonicalJson(...))] of cycle,
    type, time and payload. *)
Context (event_digest : string → string → Z → Json → string).
(** [stableRecordId("autonomous_worker_payload", canonicalJson(payload))]. *)
Context (payload_digest : Json → string).
(** [stableRecordId("autonomous_worker_failure", eventId)]. *)
Context (failure_digest : string → string).
(** The JSON of an orphan's closing event, from the replacing cycle. *)
Context (orphan_json : string → Json).

(** ** Tables *)

Record WorkstreamEvent := {
  we_event_id : string;
  we_workstream : string;
  we_event_type : string;
  we_entity_id : string;
  we_occurred_at : Z;
  we_payload : Json;
  we_payload_workstream : option string;
  we_payload_fingerprint : string
}.

Record WorkstreamEventFailure := {
  wf_id : string;
  wf_event_id : string;
  wf_attempt_number : Z;
  wf_error_classification : string;
  wf_error_code : string;
  wf_redacted_error_message : string;
  wf_retryable : bool;
  wf_failed_at : Z;
  wf_details : Json
}.

Record WorkerDb := {
  wdb_leases : list SchedulerLeaseRow;
  wdb_events : list WorkstreamEvent;
  wdb_failures : list WorkstreamEventFailure
}.

Definition set_events (f : list WorkstreamEvent → list WorkstreamEvent) (db : WorkerDb) : WorkerDb :=
  {| wdb_leases := wdb_leases db; wdb_events := f (wdb_events db); wdb_failures := wdb_failures db |}.
Definition set_failures (f : list WorkstreamEventFailure → list WorkstreamEventFailure)
    (db : WorkerDb) : WorkerDb :=
  {| wdb_leases := wdb_leases db; wdb_events := wdb_events db; wdb_failures := f (wdb_failures db) |}.

(** ** Input and output *)

Record WorkerPayload := {
  pl_json : Json;
  pl_json_workstream : option string;
  pl_workstream : option string;
  pl_classification : option string;
  pl_code : option string;
  pl_message : option string
}.

(** [occurredAt] is parsed; [None] is an invalid date. *)
Record AutonomousWorkerStateInput := {
  wi_cycleId : string;
  wi_eventType : string;
  wi_payload : WorkerPayload;
  wi_occurredAt : option Z
}.

Record PersistOutcome := {
  po_eventId : string;
  po_replayed : bool;
  po_resumedCycleId : option string
}.

(** ** Statements *)

(** The lease row of a fence, at the wall clock of the statement.  A token is
    compared as the canonical decimal text the lease repository hands out. *)
Definition fence_row (clock : Z) (fence : SchedulerFence) (r : SchedulerLeaseRow) : bool :=
  (lease_job_name r =? fence_job_name fence)%string
  && (lease_workstream r =? fence_workstream fence)%string
  && (lease_owner_id r =? fence_owner_id fence)%string
  && (lease_run_id r =? fence_run_id fence)%string
  && (token_text (lease_fencing_token r) =? fence_token fence)%string
  && lease_is_current clock r.

Definition check_fence (clock : Z) (fence : option SchedulerFence) : tx WorkerDb unit :=
  match fence with
  | None => mret tt
  | Some f =>
      n ← gets (λ db, count_where (fence_row clock f) (wdb_leases db));
      if (n =? 1)%nat then mret tt else throw "SCHEDULER_FENCE_LOST"
  end.

Definition worker_event (cycle : string) (r : WorkstreamEvent) : bool :=
  (we_workstream r =? "autonomous_worker")%string && (we_entity_id r =? cycle)%string.

Definition terminal_type (t : string) : bool :=
  str_mem t ["cycle_completed"; "cycle_failed"; "worker_stopped"]%string.

(** [EXISTS (... terminal ...)]. *)
Definition has_terminal (events : list WorkstreamEvent) (cycle : string) : bool :=
  existsb (λ r, worker_event cycle r && terminal_type (we_event_type r)) events.

(** A start within the window whose cycle has no terminal event. *)
Definition open_start (since : Z) (events : list WorkstreamEvent) (r : WorkstreamEvent) : bool :=
  (we_workstream r =? "autonomous_worker")%string && (we_event_type r =? "cycle_started")%string
  && (since <=? we_occurred_at r) && negb (has_terminal events (we_entity_id r)).

Definition active_cycle (now : Z) (cycle : string) (events : list WorkstreamEvent)
    : option WorkstreamEvent :=
  latest we_occurred_at we_event_id
    (List.filter (λ r, open_start (now - ACTIVE_CYCLE_WINDOW_MS) events r
                       && negb (we_entity_id r =? cycle)%string) events).

(** [INSERT INTO workstream_events ... ON CONFLICT (event_id) DO NOTHING]; the
    row count. *)
Definition insert_event (r : WorkstreamEvent) : tx WorkerDb nat := λ db,
  if existsb (λ x, (we_event_id x =? we_event_id r)%string) (wdb_events db) then Ret (0%nat, db)
  else Ret (1%nat, set_events (λ l, l ++ [r]) db).

(** The same with [ON CONFLICT (event_id, attempt_number)]. *)
Definition insert_failure (r : WorkstreamEventFailure) : tx WorkerDb unit := λ db,
  if existsb (λ x, (wf_event_id x =? wf_event_id r)%string
                   && (wf_attempt_number x =? wf_attempt_number r)) (wdb_failures db)
  then Ret (tt, db)
  else if existsb (λ x, (wf_id x =? wf_id r)%string) (wdb_failures db) then Throw "unique_violation"
  else Ret (tt, set_failures (λ l, l ++ [r]) db).

Definition event_id (cycle type : string) (at_ : Z) (json : Json) : string :=
  ("autonomous_" ++ event_digest cycle type at_ json)%string.
Definition failure_id (eventId : string) : string :=
  ("autonomous_failure_" ++ failure_digest eventId)%string.

Definition new_event (cycle type : string) (at_ : Z) (json : Json) (ws : option string)
    : WorkstreamEvent :=
  {| we_event_id := event_id cycle type at_ json; we_workstream := "autonomous_worker";
     we_event_type := type; we_entity_id := cycle; we_occurred_at := at_; we_payload := json;
     we_payload_workstream := ws; we_payload_fingerprint := payload_digest json |}.

Definition orphan_event (orphan replacement : string) (at_ : Z) : WorkstreamEvent :=
  new_event orphan "cycle_failed" at_ (orphan_json replacement) None.

Definition orphan_failure (e : WorkstreamEvent) : WorkstreamEventFailure :=
  {| wf_id := failure_id (we_event_id e); wf_event_id := we_event_id e; wf_attempt_number := 1;
     wf_error_classification := "autonomous_worker_restart";
     wf_error_code := "AUTONOMOUS_CYCLE_ORPHANED_ON_RESTART";
     wf_redacted_error_message := "A nonterminal autonomous cycle was closed before restart.";
     wf_retryable := false; wf_failed_at := we_occurred_at e; wf_details := we_payload e |}.

(** Closing the cycle that is still open when another one starts. *)
Definition close_orphan (now : Z) (cycle : string) (at_ : Z) : tx WorkerDb (option string) :=
  active ← gets (λ db, active_cycle now cycle (wdb_events db));
  match active with
  | None => mret None
  | Some started =>
      let orphan := we_entity_id started in
      if negb (str_truthy orphan) then mret None
      else
        let e := orphan_event orphan cycle at_ in
        inserted ← insert_event e;
        _ ← (if (inserted =? 1)%nat then insert_failure (orphan_failure e) else mret tt);
        mret (Some orphan)
  end.

Definition previous_event (cycle : string) (events : list WorkstreamEvent) : option WorkstreamEvent :=
  latest we_occurred_at we_event_id (List.filter (worker_event cycle) events).

Definition event_failure (e : WorkstreamEvent) (p : WorkerPayload) : WorkstreamEventFailure :=
  {| wf_id := failure_id (we_event_id e); wf_event_id := we_event_id e; wf_attempt_number := 1;
     wf_error_classification := boundedText (pl_classification p) "autonomous_worker_failure" 120;
     wf_error_code := boundedText (pl_code p) "AUTONOMOUS_WORKER_FAILED" 160;
     wf_redacted_error_message := boundedText (pl_message p) "Autonomous worker event failed." 500;
     wf_retryable := false; wf_failed_at := we_occurred_at e; wf_details := we_payload e |}.

(** Lines 543 to 615: the transition and identity checks and the insertion. *)
Definition append_event (input : AutonomousWorkerStateInput) (at_ : Z) (workstreamName : string)
    (resumed : option string) : tx WorkerDb PersistOutcome :=
  previousRow ← gets (λ db, previous_event (wi_cycleId input) (wdb_events db));
  let previous := we_event_type <$> previousRow in
  let e := new_event (wi_cycleId input) (wi_eventType input) at_ (pl_json (wi_payload input))
             (pl_json_workstream (wi_payload input)) in
  if negb (allowedTransition previous (wi_eventType input))
  then throw "AUTONOMOUS_WORKER_STATE_TRANSITION_INVALID"
  else if str_mem (wi_eventType input) ["workstream_completed"; "workstream_failed"]%string
       && bool_decide (previous = Some "workstream_started"%string)
       && negb (bool_decide ((previousRow ≫= we_payload_workstream) = Some workstreamName))
  then throw "AUTONOMOUS_WORKER_WORKSTREAM_IDENTITY_MISMATCH"
  else
    _ ← insert_event e;
    _ ← (if failed_event (wi_eventType input) then insert_failure (event_failure e (wi_payload input))
         else mret tt);
    mret {| po_eventId := we_event_id e; po_replayed := false; po_resumedCycleId := resumed |}.

(** The whole function: [now] is the transaction's clock, [clock] the wall
    clock of the fence check. *)
Definition persistAutonomousWorkerStateWithClient (now clock : Z)
    (input : AutonomousWorkerStateInput) (fence : option SchedulerFence)
    : tx WorkerDb PersistOutcome :=
  if negb (CYCLE_ID (wi_cycleId input)) then throw "AUTONOMOUS_WORKER_CYCLE_ID_INVALID"
  else if negb (str_mem (wi_eventType input) AUTONOMOUS_WORKER_EVENT_TYPES)
  then throw "AUTONOMOUS_WORKER_EVENT_TYPE_INVALID"
  else match wi_occurredAt input with
  | None => throw "AUTONOMOUS_WORKER_EVENT_TIME_INVALID"
  | Some at_ =>
      _ ← check_fence clock fence;
      let workstreamName := match pl_workstream (wi_payload input) with Some w => trim w | None => EmptyString end in
      if workstream_event (wi_eventType input) && negb (str_truthy workstreamName)
      then throw "AUTONOMOUS_WORKER_WORKSTREAM_IDENTITY_REQUIRED"
      else
        let eventId := event_id (wi_cycleId input) (wi_eventType input) at_ (pl_json (wi_payload input)) in
        replay ← gets (λ db, existsb (λ r, (we_event_id r =? eventId)%string) (wdb_events db));
        if replay && str_truthy eventId
        then mret {| po_eventId := eventId; po_replayed := true; po_resumedCycleId := None |}
        else
          resumed ← (if (wi_eventType input =? "cycle_started")%string
                     then close_orphan now (wi_cycleId input) at_ else mret None);
          append_event input at_ workstreamName resumed
  end.

(** A run from an empty log: committed calls at times that do not decrease,
    and changes of the leases by others. *)
Inductive worker_run : Z → WorkerDb → Prop :=
| run_start now db : wdb_events db = [] → worker_run now db
| run_call now now' clock input fence out db db' :
    worker_run now db → now ≤ now' →
    persistAutonomousWorkerStateWithClient now' clock input fence db = Ret (out, db') →
    worker_run now' db'
| run_leases now db db' : worker_run now db → wdb_events db' = wdb_events db → worker_run now db'.

(** ** What a committed call does *)

Lemma insert_event_Ret r db n db' :
  insert_event r db = Ret (n, db') →
  (n = 0%nat ∧ db' = db ∧ ∃ x, In x (wdb_events db) ∧ we_event_id x = we_event_id r) ∨
  (n = 1%nat ∧ db' = set_events (λ l, l ++ [r]) db).
Proof.
  unfold insert_event. destruct (existsb _ _) eqn:E; injection 1 as <- <-; [left|by right].
  apply existsb_exists in E as (x & Hx & Hid%String.eqb_eq). eauto.
Qed.

Lemma insert_failure_Ret r db u db' :
  insert_failure r db = Ret (u, db') → wdb_events db' = wdb_events db ∧ wdb_leases db' = wdb_leases db.
Proof.
  unfold insert_failure. destruct (existsb _ _); [by injection 1 as _ <-|].
  destruct (existsb _ _); [done|]. by injection 1 as _ <-.
Qed.

Lemma check_fence_Ret clock fence db u db' : check_fence clock fence db = Ret (u, db') → db' = db.
Proof.
  destruct fence as [f|]; cbn; [|by injection 1 as _ <-]. intros H. tx_step H as n d E.
  injection E as <- <-. destruct (_ =? 1)%nat; [by injection H as _ <-|done].
Qed.

(** The log after closing an orphan. *)
Lemma close_orphan_Ret now cycle at_ db o db' :
  close_orphan now cycle at_ db = Ret (o, db') →
  match o with
  | None => db' = db ∧ ∀ started, active_cycle now cycle (wdb_events db) = Some started →
              we_entity_id started = EmptyString
  | Some orphan => ∃ started, active_cycle now cycle (wdb_events db) = Some started ∧
      we_entity_id started = orphan ∧ wdb_leases db' = wdb_leases db ∧
      (wdb_events db' = wdb_events db ++ [orphan_event orphan cycle at_] ∨
       wdb_events db' = wdb_events db ∧
         ∃ x, In x (wdb_events db) ∧ we_event_id x = we_event_id (orphan_event orphan cycle at_))
  end.
Proof.
  unfold close_orphan. intros H. tx_step H as a d E. injection E as <- <-.
  destruct (active_cycle _ _ _) as [started|] eqn:Ea; [|by injection H as <- <-].
  destruct (str_truthy (we_entity_id started)) eqn:Et; cbn [negb] in H.
  2:{ injection H as <- <-. split; [done|]. intros s [= <-]. by destruct (we_entity_id started). }
  tx_step H as n d1 E1. tx_step H as u d2 E2. injection H as <- <-.
  exists started. split; [done|]. split; [done|].
  apply insert_event_Ret in E1 as [(-> & -> & Hx)|(-> & ->)]; cbn [Nat.eqb] in E2.
  - injection E2 as _ <-. eauto.
  - apply insert_failure_Ret in E2 as [-> ->]. eauto.
Qed.

Lemma append_event_Ret input at_ ws resumed db out db' :
  append_event input at_ ws resumed db = Ret (out, db') →
  let p := previous_event (wi_cycleId input) (wdb_events db) in
  let e := new_event (wi_cycleId input) (wi_eventType input) at_ (pl_json (wi_payload input))
             (pl_json_workstream (wi_payload input)) in
  allowedTransition (we_event_type <$> p) (wi_eventType input) = true ∧
  (str_mem (wi_eventType input) ["workstream_completed"; "workstream_failed"]%string = true →
   we_event_type <$> p = Some "workstream_started"%string →
   p ≫= we_payload_workstream = Some ws) ∧
  out = {| po_eventId := we_event_id e; po_replayed := false; po_resumedCycleId := resumed |} ∧
  wdb_leases db' = wdb_leases db ∧
  (wdb_events db' = wdb_events db ++ [e] ∨
   wdb_events db' = wdb_events db ∧ ∃ x, In x (wdb_events db) ∧ we_event_id x = we_event_id e).
Proof.
  intros H p e. unfold append_event in H. tx_step H as a d E. injection E as <- <-. fold p e in H.
  destruct (allowedTransition (we_event_type <$> p) (wi_eventType input)); [|done]. cbn [negb] in H.
  destruct (str_mem (wi_eventType input) _ && _ && _) eqn:Em; [done|].
  tx_step H as n d1 E1. tx_step H as u d2 E2. injection H as <- <-.
  assert (Hd : wdb_events d2 = wdb_events d1 ∧ wdb_leases d2 = wdb_leases d1).
  { destruct (failed_event _); [by apply insert_failure_Ret in E2|by injection E2 as _ <-]. }
  destruct Hd as [-> ->]. split; [done|]. split.
  { intros Hmem Hst. rewrite Hmem, bool_decide_eq_true_2 in Em by done. cbn [andb] in Em.
    by apply negb_false_iff, bool_decide_eq_true in Em. }
  split; [done|].
  apply insert_event_Ret in E1 as [(_ & -> & Hx)|(_ & ->)]; eauto.
Qed.

(** The parts of a committed call that is not a replay. *)
Lemma persist_Ret now clock input fence db out db' :
  persistAutonomousWorkerStateWithClient now clock input fence db = Ret (out, db') →
  ∃ at_, wi_occurredAt input = Some at_ ∧ CYCLE_ID (wi_cycleId input) = true ∧
    let ws := match pl_workstream (wi_payload input) with Some w => trim w | None => EmptyString end in
    let eid := event_id (wi_cycleId input) (wi_eventType input) at_ (pl_json (wi_payload input)) in
    po_eventId out = eid ∧
    ((po_replayed out = true ∧ db' = db ∧ ∃ x, In x (wdb_events db) ∧ we_event_id x = eid) ∨
     (∀ x, In x (wdb_events db) → we_event_id x ≠ eid) ∧
     ∃ resumed db1,
       (if (wi_eventType input =? "cycle_started")%string
        then close_orphan now (wi_cycleId input) at_ db = Ret (resumed, db1)
        else resumed = None ∧ db1 = db) ∧
       append_event input at_ ws resumed db1 = Ret (out, db')).
Proof.
  unfold persistAutonomousWorkerStateWithClient.
  destruct (CYCLE_ID _); [|done]. destruct (str_mem _ _); [|done]. cbn [negb].
  destruct (wi_occurredAt input) as [at_|]; [|done]. intros H. exists at_. split; [done|]. split; [done|].
  tx_step H as u d E. apply check_fence_Ret in E as ->.
  destruct (workstream_event _ && _); [done|]. tx_step H as replay d E. injection E as <- <-.
  change (str_truthy (event_id _ _ _ _)) with true in H. rewrite andb_true_r in H.
  destruct (existsb _ _) eqn:Ex.
  - injection H as <- <-. split; [done|]. left. split; [done|]. split; [done|].
    apply existsb_exists in Ex as (x & Hx & Hid%String.eqb_eq). eauto.
  - assert (Hnew : ∀ x, In x (wdb_events db) → we_event_id x ≠
      event_id (wi_cycleId input) (wi_eventType input) at_ (pl_json (wi_payload input))).
    { intros x Hx Hid. apply not_true_iff_false in Ex. apply Ex, existsb_exists.
      exists x. split; [done|]. by apply String.eqb_eq. }
    tx_step H as resumed d E. split.
    { by apply append_event_Ret in H as (_ & _ & -> & _). }
    right. split; [done|]. exists resumed, d. split; [|done].
    destruct (_ =? _)%string; [done|]. by injection E as <- <-.
Qed.

(** ** One active cycle *)

Definition open_cycle (since : Z) (events : list WorkstreamEvent) (cycle : string) : Prop :=
  ∃ r, In r events ∧ we_entity_id r = cycle ∧ open_start since events r = true.

Definition single_open (since : Z) (events : list WorkstreamEvent) : Prop :=
  ∀ c1 c2, open_cycle since events c1 → open_cycle since events c2 → c1 = c2.

(** Every row of the log was made by a call, for a cycle identifier. *)
Definition made (r : WorkstreamEvent) : Prop :=
  CYCLE_ID (we_entity_id r) = true ∧
  ∃ cycle type at_ json ws, r = new_event cycle type at_ json ws.

Lemma has_terminal_mono events events' cycle :
  (∀ r, In r events → In r events') → has_terminal events cycle = true →
  has_terminal events' cycle = true.
Proof. intros Hsub. unfold has_terminal. rewrite !existsb_exists. firstorder. Qed.

Lemma open_start_spec since events r :
  open_start since events r = true ↔
  we_workstream r = "autonomous_worker"%string ∧ we_event_type r = "cycle_started"%string ∧
  since ≤ we_occurred_at r ∧ has_terminal events (we_entity_id r) = false.
Proof.
  unfold open_start. rewrite !andb_true_iff, !String.eqb_eq, Z.leb_le, negb_true_iff. tauto.
Qed.

(** A longer log and a later window leave no more starts open. *)
Lemma open_start_shrinks since since' events events' r :
  since ≤ since' → (∀ x, In x events → In x events') →
  open_start since' events' r = true → open_start since events r = true.
Proof.
  intros Hle Hsub. rewrite !open_start_spec. intros (Hw & Ht & Hs & Hn). split_and!; [done..|lia|].
  apply not_true_iff_false. intros Ho. by rewrite (has_terminal_mono _ _ _ Hsub Ho) in Hn.
Qed.

Lemma cycle_id_nonempty s : CYCLE_ID s = true → s ≠ EmptyString.
Proof. by intros H ->. Qed.

Lemma made_orphan orphan cycle at_ : CYCLE_ID orphan = true → made (orphan_event orphan cycle at_).
Proof. intros H. split; [done|]. unfold orphan_event. by repeat eexists. Qed.

Section injective.
(** The digest separates cycle and type; SHA-256 has no known collisions. *)
Context (digest_separates : ∀ c t a j c' t' a' j',
  event_digest c t a j = event_digest c' t' a' j' → c = c' ∧ t = t').

Lemma made_id r cycle type at_ json :
  made r → we_event_id r = event_id cycle type at_ json →
  we_workstream r = "autonomous_worker"%string ∧ we_entity_id r = cycle ∧ we_event_type r = type.
Proof using digest_separates.
  intros (_ & c & t & a & j & w & ->) Hid. cbn in Hid |- *. injection Hid as Hid.
  by apply digest_separates in Hid as [-> ->].
Qed.

Lemma made_terminal events cycle type at_ json ws :
  (∀ r, In r events → made r) → terminal_type type = true →
  (∃ x, In x events ∧ we_event_id x = we_event_id (new_event cycle type at_ json ws)) →
  has_terminal events cycle = true.
Proof using digest_separates.
  intros Hm Ht (x & Hx & Hid). apply existsb_exists. exists x. split; [done|].
  destruct (made_id x cycle type at_ json) as (Hw & He & Hty); [by apply Hm|done|].
  unfold worker_event. by rewrite Hw, He, Hty, !String.eqb_refl, Ht.
Qed.

(** Closing the orphan leaves no other cycle open. *)
Lemma close_orphan_single now now' cycle at_ db o db1 :
  now ≤ now' → (∀ r, In r (wdb_events db) → made r) →
  single_open (now - ACTIVE_CYCLE_WINDOW_MS) (wdb_events db) →
  close_orphan now' cycle at_ db = Ret (o, db1) →
  (∀ r, In r (wdb_events db) → In r (wdb_events db1)) ∧
  (∀ r, In r (wdb_events db1) → made r) ∧
  ∀ c, c ≠ cycle → ¬ open_cycle (now' - ACTIVE_CYCLE_WINDOW_MS) (wdb_events db1) c.
Proof using digest_separates.
  intros Hle Hm Hone H. apply close_orphan_Ret in H.
  set (since := now - ACTIVE_CYCLE_WINDOW_MS) in *. set (since' := now' - ACTIVE_CYCLE_WINDOW_MS) in *.
  assert (Hcand : ∀ r, In r (wdb_events db) → open_start since' (wdb_events db) r = true →
    we_entity_id r ≠ cycle →
    In r (List.filter (λ r, open_start since' (wdb_events db) r && negb (we_entity_id r =? cycle)%string)
            (wdb_events db))).
  { intros r Hr Ho Hc. apply filter_In. split; [done|]. rewrite Ho. cbn.
    by apply negb_true_iff, String.eqb_neq. }
  destruct o as [orphan|].
  - destruct H as (started & Ha & <- & _ & Hev).
    apply latest_In, filter_In in Ha as [Hs [Hos Hne%negb_true_iff%String.eqb_neq]%andb_prop].
    assert (Hsub : ∀ r, In r (wdb_events db) → In r (wdb_events db1)).
    { intros r Hr. destruct Hev as [->|[-> _]]; [|done]. apply in_or_app. by left. }
    assert (Hterm : has_terminal (wdb_events db1) (we_entity_id started) = true).
    { destruct Hev as [->|[-> Hx]].
      - apply existsb_exists. exists (orphan_event (we_entity_id started) cycle at_).
        split; [apply in_or_app; right; by left|]. unfold worker_event. cbn. by rewrite String.eqb_refl.
      - eapply made_terminal; [done| |exact Hx]. done. }
    split; [done|]. split.
    { intros r Hr. destruct Hev as [E|[E _]]; rewrite E in Hr; [|by apply Hm].
      apply in_app_or in Hr as [Hr|[<-|[]]]; [by apply Hm|]. apply made_orphan. by apply Hm. }
    intros c Hc (r & Hr & <- & Ho).
    assert (Hr0 : In r (wdb_events db)).
    { destruct Hev as [E|[E _]]; rewrite E in Hr; [|done].
      apply in_app_or in Hr as [?|[<-|[]]]; [done|]. by apply open_start_spec in Ho as (_ & ? & _). }
    assert (we_entity_id r = we_entity_id started) as Heq.
    { apply Hone; [exists r|exists started]; (split; [done|]; split; [done|]).
      - eapply open_start_shrinks; [|exact Hsub|exact Ho]. lia.
      - eapply open_start_shrinks; [| |exact Hos]; [lia|done]. }
    apply open_start_spec in Ho as (_ & _ & _ & Ho). rewrite Heq in Ho. congruence.
  - destruct H as [-> Hempty]. split; [done|]. split; [done|]. intros c Hc (r & Hr & <- & Ho).
    specialize (Hcand r Hr Ho Hc). unfold active_cycle in Hempty. fold since' in Hempty.
    destruct (latest _ _ _) as [started|] eqn:El; [|apply latest_None in El; by rewrite El in Hcand].
    specialize (Hempty started eq_refl). apply latest_In, filter_In in El as [Hs _].
    destruct (Hm started Hs) as [Hid _]. rewrite Hempty in Hid. done.
Qed.

Lemma run_invariant now db :
  worker_run now db →
  (∀ r, In r (wdb_events db) → made r) ∧ single_open (now - ACTIVE_CYCLE_WINDOW_MS) (wdb_events db).
Proof using digest_separates.
  induction 1 as [now db Hnil|now now' clock input fence out db db' _ [Hm Hone] Hle H|now db db' _ IH Heq].
  - rewrite Hnil. split; [done|]. by intros c1 c2 (r & [] & _).
  - apply persist_Ret in H as (at_ & _ & Hid & _ & [(_ & -> & _)|(_ & resumed & db1 & Hclose & Happ)]).
    { split; [done|]. intros c1 c2 (r1 & Hr1 & E1 & O1) (r2 & Hr2 & E2 & O2).
      apply Hone; [exists r1|exists r2]; (split; [done|]; split; [done|]);
        (eapply open_start_shrinks; [| |done]; [lia|done]). }
    apply append_event_Ret in Happ as (_ & _ & _ & _ & Hev).
    set (e := new_event _ _ _ _ _) in Hev.
    assert (He : made e) by (split; [done|by repeat eexists]).
    assert (Hmade : ∀ l, (∀ r, In r l → made r) → ∀ r, In r (l ++ [e]) → made r).
    { intros l Hl r [Hr|[<-|[]]]%in_app_or; auto. }
    destruct (wi_eventType input =? "cycle_started")%string eqn:Et.
    + destruct (close_orphan_single now now' _ _ _ _ _ Hle Hm Hone Hclose) as (_ & Hm1 & Hno).
      split; [by destruct Hev as [->|[-> _]]; [apply Hmade|]|].
      assert (Hall : ∀ c, open_cycle (now' - ACTIVE_CYCLE_WINDOW_MS) (wdb_events db') c → c = wi_cycleId input).
      { intros c (r & Hr & <- & Ho). destruct (decide (we_entity_id r = wi_cycleId input)); [done|].
        destruct (Hno (we_entity_id r)); [done|]. exists r.
        destruct Hev as [E|[E _]]; rewrite E in Hr, Ho; [|by eauto].
        apply in_app_or in Hr as [Hr|[<-|[]]]; [|done]. split; [done|]. split; [done|].
        eapply open_start_shrinks; [| |exact Ho]; [lia|]. intros x Hx. apply in_or_app. by left. }
      intros c1 c2 H1%Hall H2%Hall. congruence.
    + destruct Hclose as [-> ->]. split; [by destruct Hev as [->|[-> _]]; [apply Hmade|]|].
      assert (Hall : ∀ c, open_cycle (now' - ACTIVE_CYCLE_WINDOW_MS) (wdb_events db') c →
        open_cycle (now - ACTIVE_CYCLE_WINDOW_MS) (wdb_events db) c).
      { intros c (r & Hr & <- & Ho). exists r.
        destruct Hev as [E|[E _]]; rewrite E in Hr, Ho.
        - apply in_app_or in Hr as [Hr|[<-|[]]].
          + split; [done|]. split; [done|]. eapply open_start_shrinks; [| |exact Ho]; [lia|].
            intros x Hx. apply in_or_app. by left.
          + apply open_start_spec in Ho as (_ & Ht & _). cbn in Ht. rewrite Ht in Et. done.
        - split; [done|]. split; [done|]. eapply open_start_shrinks; [| |exact Ho]; [lia|done]. }
      intros c1 c2 H1%Hall H2%Hall. by apply Hone.
  - rewrite Heq. done.
Qed.

(** At most one worker cycle is active: in every log that a run produces
    from an empty one, under a clock that does not go back, at most one cycle
    has a start within the six-hour window and no terminal event. *)
Theorem single_active_cycle now db :
  worker_run now db →
  ∀ c1 c2, open_cycle (now - ACTIVE_CYCLE_WINDOW_MS) (wdb_events db) c1 →
    open_cycle (now - ACTIVE_CYCLE_WINDOW_MS) (wdb_events db) c2 → c1 = c2.
Proof using digest_separates. intros H. by apply run_invariant. Qed.
End injective.

(** ** Events of one cycle *)

Lemma previous_orphan cycle orphan at_ events :
  orphan ≠ cycle → previous_event cycle (events ++ [orphan_event orphan cycle at_]) = previous_event cycle events.
Proof.
  intros Hne. unfold previous_event. rewrite List.filter_app. cbn [List.filter].
  assert (worker_event cycle (orphan_event orphan cycle at_) = false) as ->.
  { unfold worker_event. cbn. by apply String.eqb_neq. }
  by rewrite app_nil_r.
Qed.

(** Closing an orphan does not touch the history of the starting cycle. *)
Lemma close_orphan_previous now cycle at_ db o db1 :
  close_orphan now cycle at_ db = Ret (o, db1) →
  previous_event cycle (wdb_events db1) = previous_event cycle (wdb_events db) ∧
  wdb_leases db1 = wdb_leases db.
Proof.
  intros H%close_orphan_Ret. destruct o as [orphan|]; [|by destruct H as [-> _]].
  destruct H as (started & Ha & <- & Hl & [->|[-> _]]); [|done]. split; [|done].
  apply latest_In, filter_In in Ha as [_ [_ Hne%negb_true_iff%String.eqb_neq]%andb_prop].
  by apply previous_orphan.
Qed.

(** A new event later than the cycle's history becomes its latest event. *)
Lemma previous_appended cycle events e :
  worker_event cycle e = true →
  (∀ x, In x events → worker_event cycle x = true → we_occurred_at x < we_occurred_at e) →
  previous_event cycle (events ++ [e]) = Some e.
Proof.
  intros He Hlater. unfold previous_event. rewrite List.filter_app. cbn [List.filter]. rewrite He.
  assert (Hin : ∀ x, In x (List.filter (worker_event cycle) events) → we_occurred_at x < we_occurred_at e).
  { intros x [? ?]%filter_In. auto. }
  destruct (latest we_occurred_at we_event_id (List.filter (worker_event cycle) events ++ [e])) as [b|] eqn:E.
  - pose proof (latest_max _ _ _ b e E ltac:(apply in_or_app; right; by left)) as Hmax.
    apply latest_In in E. apply in_app_or in E as [E|[<-|[]]]; [|done]. specialize (Hin b E). lia.
  - apply latest_None in E. by destruct (List.filter _ _).
Qed.

(** A committed event follows the worker's state machine: unless it is a
    replay, its type is an allowed successor of the cycle's latest event (the
    first one must start the cycle or report a failed preflight), it is in the
    log afterwards, and when it is later than the cycle's history it is what
    the next event is checked against.  After a completed or failed cycle only
    the stop of the worker is recorded, after a stop or a failed preflight
    nothing more. *)
Theorem worker_events_follow_state_machine now clock input fence db out db' :
  persistAutonomousWorkerStateWithClient now clock input fence db = Ret (out, db') →
  po_replayed out = false →
  let previous := we_event_type <$> previous_event (wi_cycleId input) (wdb_events db) in
  allowedTransition previous (wi_eventType input) = true ∧
  (previous = Some "cycle_completed"%string ∨ previous = Some "cycle_failed"%string →
     wi_eventType input = "worker_stopped"%string) ∧
  previous ≠ Some "worker_stopped"%string ∧ previous ≠ Some "preflight_failed"%string ∧
  (wi_eventType input ≠ "cycle_started"%string → ∃ e, wdb_events db' = wdb_events db ++ [e] ∧
     we_event_id e = po_eventId out ∧ we_event_type e = wi_eventType input ∧
     ((∀ x, In x (wdb_events db) → worker_event (wi_cycleId input) x = true →
         wi_occurredAt input = Some (we_occurred_at e) ∧ we_occurred_at x < we_occurred_at e) →
      previous_event (wi_cycleId input) (wdb_events db') = Some e)).
Proof.
  intros H Hr previous.
  apply persist_Ret in H as (at_ & Ht & _ & Hid & [(Hr' & _)|(Hfresh & resumed & db1 & Hc & Ha)]); [congruence|].
  apply append_event_Ret in Ha as (Hallow & _ & _ & _ & Hev).
  assert (Hprev : previous_event (wi_cycleId input) (wdb_events db1) =
                  previous_event (wi_cycleId input) (wdb_events db)).
  { destruct (_ =? _)%string; [|by destruct Hc as [_ ->]]. by apply close_orphan_previous in Hc as [-> _]. }
  rewrite Hprev in Hallow. fold previous in Hallow. split; [done|].
  split_and!.
  - intros [->| ->]; cbn in Hallow; by destruct (wi_eventType input =? "worker_stopped")%string eqn:E;
      [apply String.eqb_eq|].
  - intros ->. done.
  - intros ->. done.
  - intros Hne%String.eqb_neq. rewrite Hne in Hc. destruct Hc as [_ ->]. eexists.
    destruct Hev as [->|[_ (x & Hx & Hxid)]]; [|by destruct (Hfresh x Hx)].
    split; [done|]. split; [done|]. split; [done|]. intros Hlater.
    apply previous_appended; [unfold worker_event; cbn; by rewrite String.eqb_refl|].
    intros x Hx Hw. by apply (Hlater x Hx Hw).
Qed.

(** Persisting a committed event again, under a fence that is still held,
    is answered as a replay with the same identifier and changes nothing. *)
Theorem worker_event_replay now clock now' clock' input fence db out db' :
  persistAutonomousWorkerStateWithClient now clock input fence db = Ret (out, db') →
  check_fence clock' fence db' = Ret (tt, db') →
  persistAutonomousWorkerStateWithClient now' clock' input fence db' =
    Ret ({| po_eventId := po_eventId out; po_replayed := true; po_resumedCycleId := None |}, db').
Proof.
  intros H Hf. pose proof H as Hin. unfold persistAutonomousWorkerStateWithClient in H |- *.
  destruct (CYCLE_ID _); [|done]. destruct (str_mem _ _); [|done]. cbn [negb] in *.
  destruct (wi_occurredAt input) as [at_|] eqn:Eat; [|done].
  tx_step H as u d E. destruct (workstream_event _ && _); [done|]. clear H E.
  apply persist_Ret in Hin as (at' & Eat' & _ & Hid & Hcase). rewrite Eat in Eat'. injection Eat' as <-.
  unfold mbind, tx_bind. rewrite Hf.
  assert (existsb (λ r, (we_event_id r =? po_eventId out)%string) (wdb_events db') = true) as Hx.
  { apply existsb_exists. rewrite Hid. destruct Hcase as [(_ & -> & x & Hx & Ex)|(_ & r & db1 & _ & Ha)].
    - exists x. rewrite Ex, String.eqb_refl. done.
    - apply append_event_Ret in Ha as (_ & _ & _ & _ & [->|[-> (x & Hx & Ex)]]).
      + eexists. split; [apply in_or_app; right; by left|]. cbn. apply String.eqb_refl.
      + exists x. rewrite Ex. split; [done|]. apply String.eqb_refl. }
  unfold gets. rewrite <- Hid, Hx. rewrite Hid. reflexivity.
Qed.

(** A workstream recorded under a name with surrounding white space is
    never completed: the start event keeps the payload's name as it is, the
    completion is checked with the trimmed name, so every workstream_completed
    or workstream_failed event of the cycle is refused, with or without the
    white space. *)
Theorem untrimmed_workstream_never_ends now clock input fence db out db' started name :
  previous_event (wi_cycleId input) (wdb_events db) = Some started →
  we_event_type started = "workstream_started"%string →
  we_payload_workstream started = Some name → trim name ≠ name →
  str_mem (wi_eventType input) ["workstream_completed"; "workstream_failed"]%string = true →
  persistAutonomousWorkerStateWithClient now clock input fence db = Ret (out, db') →
  po_replayed out = true ∧ db' = db.
Proof.
  intros Hprev Ht Hn Htrim Hmem H.
  apply persist_Ret in H as (at_ & _ & _ & _ & [(Hr & -> & _)|(_ & resumed & db1 & Hc & Ha)]); [done|].
  assert (db1 = db) as ->.
  { destruct (wi_eventType input =? "cycle_started")%string eqn:E; [|by destruct Hc].
    apply String.eqb_eq in E. by rewrite E in Hmem. }
  apply append_event_Ret in Ha as (_ & Hid & _). rewrite Hprev in Hid. cbn in Hid.
  specialize (Hid Hmem ltac:(by rewrite Ht)). rewrite Hn in Hid. injection Hid as ->.
  destruct Htrim. destruct (pl_workstream (wi_payload input)); [apply trim_idem|done].
Qed.

End worker_state.

(** ** A worker that crashed and restarted *)

(** Parameters for the witnesses: an injective digest and no payloads. *)
Definition demo_event_digest (c t : string) (a : Z) (_ : unit) : string :=
  pretty (Npos (encode (c, t, a))).
Definition demo_payload_digest (_ : unit) : string := "p".
Definition demo_failure_digest (e : string) : string := e.
Definition demo_orphan_json (_ : string) : unit := tt.

Lemma demo_digest_separates c t a j c' t' a' j' :
  demo_event_digest c t a j = demo_event_digest c' t' a' j' → c = c' ∧ t = t'.
Proof.
  unfold demo_event_digest. intros H. apply (inj pretty) in H. injection H as H.
  apply (inj encode) in H. by injection H as -> -> ->.
Qed.

Local Abbreviation persist :=
  (persistAutonomousWorkerStateWithClient demo_event_digest demo_payload_digest
     demo_failure_digest demo_orphan_json).

Definition demo_c1 : string := "00000000-0000-4000-8000-000000000001".
Definition demo_c2 : string := "00000000-0000-4000-8000-000000000002".
Definition demo_payload (ws : string) : WorkerPayload :=
  {| pl_json := tt; pl_json_workstream := Some ws; pl_workstream := Some ws;
     pl_classification := None; pl_code := None; pl_message := None |}.
Definition demo_input (cycle type ws : string) (t : Z) : AutonomousWorkerStateInput :=
  {| wi_cycleId := cycle; wi_eventType := type; wi_payload := demo_payload ws;
     wi_occurredAt := Some t |}.
Definition demo_event (cycle type : string) (t : Z) (ws : option string) : WorkstreamEvent :=
  new_event demo_event_digest demo_payload_digest cycle type t tt ws.

Definition demo_empty : @WorkerDb unit := {| wdb_leases := []; wdb_events := []; wdb_failures := [] |}.
Definition demo_started : @WorkerDb unit :=
  {| wdb_leases := []; wdb_events := [demo_event demo_c1 "cycle_started" 10 (Some "w"%string)];
     wdb_failures := [] |}.
Definition demo_orphan : WorkstreamEvent :=
  orphan_event demo_event_digest demo_payload_digest demo_orphan_json demo_c1 demo_c2 20.
Definition demo_restarted : @WorkerDb unit :=
  {| wdb_leases := [];
     wdb_events := [demo_event demo_c1 "cycle_started" 10 (Some "w"%string); demo_orphan;
                    demo_event demo_c2 "cycle_started" 20 (Some "w"%string)];
     wdb_failures := [orphan_failure demo_failure_digest demo_orphan] |}.
Definition demo_outcome (e : @WorkstreamEvent unit) (resumed : option string) : PersistOutcome :=
  {| po_eventId := we_event_id e; po_replayed := false; po_resumedCycleId := resumed |}.

Lemma demo_start_runs :
  persist 10 10 (demo_input demo_c1 "cycle_started" "w" 10) None demo_empty =
    Ret (demo_outcome (demo_event demo_c1 "cycle_started" 10 (Some "w"%string)) None, demo_started).
Proof. vm_compute. reflexivity. Qed.

Lemma demo_restart_runs :
  persist 20 20 (demo_input demo_c2 "cycle_started" "w" 20) None demo_started =
    Ret (demo_outcome (demo_event demo_c2 "cycle_started" 20 (Some "w"%string)) (Some demo_c1),
         demo_restarted).
Proof. vm_compute. reflexivity. Qed.

Lemma demo_run :
  worker_run demo_event_digest demo_payload_digest demo_failure_digest demo_orphan_json 20 demo_restarted.
Proof.
  refine (run_call _ _ _ _ 10 20 20 _ None _ demo_started _ _ _ demo_restart_runs); [|lia].
  refine (run_call _ _ _ _ 10 10 10 _ None _ demo_empty _ _ _ demo_start_runs); [|lia].
  by apply run_start.
Qed.

Lemma single_active_cycle_witness :
  open_cycle (20 - ACTIVE_CYCLE_WINDOW_MS) (wdb_events demo_restarted) demo_c2 ∧
  ¬ open_cycle (20 - ACTIVE_CYCLE_WINDOW_MS) (wdb_events demo_restarted) demo_c1.
Proof.
  assert (H2 : open_cycle (20 - ACTIVE_CYCLE_WINDOW_MS) (wdb_events demo_restarted) demo_c2).
  { exists (demo_event demo_c2 "cycle_started" 20 (Some "w"%string)).
    split; [right; right; left; reflexivity|]. split; vm_compute; reflexivity. }
  split; [exact H2|]. intros H1.
  pose proof (single_active_cycle _ _ _ _ demo_digest_separates 20 demo_restarted demo_run _ _ H1 H2) as E.
  discriminate E.
Defined.

Lemma worker_event_replay_witness :
  persist 30 30 (demo_input demo_c2 "cycle_started" "w" 20) None demo_restarted =
    Ret ({| po_eventId := we_event_id (demo_event demo_c2 "cycle_started" 20 (Some "w"%string));
            po_replayed := true; po_resumedCycleId := None |}, demo_restarted).
Proof.
  exact (worker_event_replay _ _ _ _ 20 20 30 30 _ None _ _ _ demo_restart_runs eq_refl).
Defined.

Lemma worker_events_follow_state_machine_witness :
  allowedTransition None "cycle_started" = true ∧
  persist 20 20 (demo_input demo_c1 "workstream_started" "w" 30) None demo_restarted =
    Throw "AUTONOMOUS_WORKER_STATE_TRANSITION_INVALID".
Proof.
  split.
  - exact (proj1 (worker_events_follow_state_machine _ _ _ _ 10 10 _ None _ _ _ demo_start_runs eq_refl)).
  - vm_compute. reflexivity.
Defined.

(** The workstream [" w "] starts; the replayed call of its completion is all
    that ever succeeds. *)
Definition demo_untrimmed : @WorkerDb unit :=
  {| wdb_leases := [];
     wdb_events := [demo_event demo_c1 "cycle_started" 10 (Some "w"%string);
                    demo_event demo_c1 "workstream_started" 20 (Some " w "%string)];
     wdb_failures := [] |}.

Lemma untrimmed_workstream_never_ends_witness :
  persist 20 20 (demo_input demo_c1 "workstream_started" " w " 20) None demo_started =
    Ret (demo_outcome (demo_event demo_c1 "workstream_started" 20 (Some " w "%string)) None, demo_untrimmed) ∧
  ∀ out db', persist 30 30 (demo_input demo_c1 "workstream_completed" " w " 30) None demo_untrimmed ≠
    Ret (out, db').
Proof.
  split; [vm_compute; reflexivity|]. intros out db' H.
  destruct (untrimmed_workstream_never_ends _ _ _ _ 30 30
    (demo_input demo_c1 "workstream_completed" " w " 30) None demo_untrimmed out db'
    (demo_event demo_c1 "workstream_started" 20 (Some " w "%string)) " w "
    ltac:(vm_compute; reflexivity) eq_refl eq_refl ltac:(vm_compute; discriminate) eq_refl H) as [_ _].
  vm_compute in H. discriminate H.
Defined.
