(* ===== verification/PostgresTransaction.v ===== *)
(** Transactions: src/lib/database/postgresTransaction.ts.

    The client library and the server are not part of the program: which
    statement fails, and whether a failed COMMIT was applied all the same, are
    parameters.  The server keeps the committed tables and, inside a
    transaction, the working tables of the session.  An operation on the
    working tables is a [tx] of the Prelude; the theorem justifies the reading of
    [tx] everywhere else: a [Throw] leaves no trace.

    Retries of database operations: src/lib/database/postgresRetry.ts.

    [runWithPostgresRetry] repeats an operation after serialization failures,
    deadlocks and lost connections while a deadline allows it.  The operation,
    the clock and the random source are arguments: the outcome of the n-th call,
    the n-th reading and the n-th random number. *)
From S2P Require Import Prelude.
From S2P Require Import JsNumber.
From S2P Require Import JsString.

Open Scope Z_scope.

Inductive PostgresIsolationLevel : Set := read_committed | repeatable_read | serializable.

Record PostgresTransactionOptions := {
  isolationLevel : option PostgresIsolationLevel;
  readOnly : bool
}.

(** [config.statementTimeoutMs] and its siblings, whole milliseconds. *)
Record TimeoutConfig := {
  statementTimeoutMs : Z;
  lockTimeoutMs : Z;
  idleInTransactionTimeoutMs : Z;
  transactionTimeoutMs : Z
}.

Definition isolationSql (level : PostgresIsolationLevel) : string :=
  match level with
  | serializable => "SERIALIZABLE"
  | repeatable_read => "REPEATABLE READ"
  | read_committed => "READ COMMITTED"
  end.

Inductive Timeout : Set := statement_timeout | lock_timeout | idle_timeout | transaction_timeout.

(** The statements of a transaction.  [timeoutSql] sets at least 1 ms. *)
Inductive Statement : Set :=
| BEGIN
| SET_TRANSACTION (isolation : string) (read_only : bool)
| SET_LOCAL (t : Timeout) (milliseconds : Z)
| COMMIT
| ROLLBACK.

Definition timeoutSql (t : Timeout) (milliseconds : Z) : Statement := SET_LOCAL t (Z.max 1 milliseconds).

(** What the promise rejects with. *)
Inductive TransactionError : Type :=
| OperationError (code : string)
| PostgresTransactionRollbackError (operationError rollbackError : string).

Section transaction.
Context {S A : Type}.
Context (fault : Statement → option string).
Context (commit_applied : bool).

Record Session := {
  committed : S;
  working : option S;
  log : list Statement
}.

(** [client.query(statement)] for the control statements. *)
Definition query (q : Statement) (c : Session) : option string * Session :=
  let c' f := {| committed := committed (f c); working := working (f c); log := log c ++ [q] |} in
  match fault q with
  | Some e =>
      (Some e,
       c' (λ c, match q, working c with
                | COMMIT, Some w => if commit_applied
                    then {| committed := w; working := None; log := log c |} else c
                | _, _ => c
                end))
  | None =>
      (None,
       c' (λ c, match q, working c with
                | BEGIN, _ => {| committed := committed c; working := Some (committed c); log := log c |}
                | COMMIT, Some w => {| committed := w; working := None; log := log c |}
                | ROLLBACK, _ => {| committed := committed c; working := None; log := log c |}
                | _, _ => c
                end))
  end.

Fixpoint queries (qs : list Statement) (c : Session) : option string * Session :=
  match qs with
  | [] => (None, c)
  | q :: qs' => match query q c with
                | (Some e, c') => (Some e, c')
                | (None, c') => queries qs' c'
                end
  end.

(** The statements between BEGIN and the operation. *)
Definition preamble (config : TimeoutConfig) (options : PostgresTransactionOptions) : list Statement :=
  [SET_TRANSACTION (isolationSql (default read_committed (isolationLevel options))) (readOnly options);
   timeoutSql statement_timeout (statementTimeoutMs config);
   timeoutSql lock_timeout (lockTimeoutMs config);
   timeoutSql idle_timeout (idleInTransactionTimeoutMs config);
   timeoutSql transaction_timeout (transactionTimeoutMs config)].

(** The operation on the working tables of the session. *)
Definition run_operation (operation : tx S A) (c : Session) : (A + string) * Session :=
  match working c with
  | None => (inr "no transaction", c)
  | Some w =>
      match operation w with
      | Ret (a, w') => (inl a, {| committed := committed c; working := Some w'; log := log c |})
      | Throw e => (inr e, c)
      end
  end.

(** The catch block. *)
Definition rolled_back (began : bool) (e : string) (c : Session) : (A + TransactionError) * Session :=
  if began then
    match query ROLLBACK c with
    | (None, c') => (inr (OperationError e), c')
    | (Some e', c') => (inr (PostgresTransactionRollbackError e e'), c')
    end
  else (inr (OperationError e), c).

Definition withCheckedOutPostgresTransaction (config : TimeoutConfig)
    (options : PostgresTransactionOptions) (operation : tx S A) (c : Session)
    : (A + TransactionError) * Session :=
  match query BEGIN c with
  | (Some e, c1) => rolled_back false e c1
  | (None, c1) =>
      match queries (preamble config options) c1 with
      | (Some e, c2) => rolled_back true e c2
      | (None, c2) =>
          match run_operation operation c2 with
          | (inr e, c3) => rolled_back true e c3
          | (inl a, c3) =>
              match query COMMIT c3 with
              | (Some e, c4) => rolled_back true e c4
              | (None, c4) => (inl a, c4)
              end
          end
      end
  end.

(** What becomes of the client: back to the pool, or discarded.  The server
    drops the working tables of a discarded connection. *)
Inductive Release : Set := ToPool | Discarded.

Definition withPostgresTransaction (config : TimeoutConfig) (options : PostgresTransactionOptions)
    (operation : tx S A) (tables : S) : (A + TransactionError) * Release * Session :=
  let '(result, c) := withCheckedOutPostgresTransaction config options operation
    {| committed := tables; working := None; log := [] |} in
  match result with
  | inr (PostgresTransactionRollbackError _ _) =>
      (result, Discarded, {| committed := committed c; working := None; log := log c |})
  | _ => (result, ToPool, c)
  end.

(** ** Atomicity *)

(** Statements other than COMMIT leave the committed tables. *)
Lemma query_committed q c : q ≠ COMMIT → committed (query q c).2 = committed c.
Proof. intros Hq. unfold query. destruct (fault q); destruct q; try done; by destruct (working c). Qed.

Lemma preamble_keeps config options c e c' :
  queries (preamble config options) c = (e, c') → committed c' = committed c ∧ working c' = working c.
Proof.
  assert (Hset : ∀ q c, (∃ i r, q = SET_TRANSACTION i r) ∨ (∃ t m, q = SET_LOCAL t m) →
    committed (query q c).2 = committed c ∧ working (query q c).2 = working c).
  { intros q d [(i & r & ->)|(t & m & ->)]; unfold query; destruct (fault _); split;
      cbn; by destruct (working d). }
  assert (Hall : ∀ qs c c' e, (∀ q, In q qs → (∃ i r, q = SET_TRANSACTION i r) ∨ (∃ t m, q = SET_LOCAL t m)) →
    queries qs c = (e, c') → committed c' = committed c ∧ working c' = working c).
  { clear c c' e. induction qs as [|q qs IH]; intros c c' e Hqs H; [by injection H as _ <-|].
    cbn in H. destruct (Hset q c (Hqs q (or_introl eq_refl))) as [Hc Hw].
    destruct (query q c) as [[e1|] c1]; cbn in *.
    - by injection H as _ <-.
    - destruct (IH _ _ _ (λ x Hx, Hqs x (or_intror Hx)) H). split; congruence. }
  apply Hall. intros q [<-|[<-|[<-|[<-|[<-|[]]]]]]; eauto.
Qed.

Lemma rolled_back_spec began e c r c' :
  rolled_back began e c = (r, c') →
  committed c' = committed c ∧ (∀ a, r ≠ inl a) ∧
  ((∀ e1 e2, r ≠ inr (PostgresTransactionRollbackError e1 e2)) →
   r = inr (OperationError e) ∧ working c' = if began then None else working c).
Proof.
  unfold rolled_back. destruct began; [|by intros [= <- <-]].
  pose proof (query_committed ROLLBACK c ltac:(done)) as Hc. unfold query in *.
  destruct (fault ROLLBACK) as [e'|]; intros [= <- <-]; cbn in *; (split; [done|]; split; [done|]).
  - intros H. by destruct (H e e').
  - done.
Qed.

(** A transaction is atomic.  When the call returns a value, the operation
    ran on the committed tables and the tables it left are committed; when it
    throws, the committed tables are unchanged, except that a COMMIT whose
    answer was lost may have been applied; either way the connection has no
    open transaction when it goes back to the pool, and it is discarded exactly
    when the rollback failed. *)
Theorem transaction_atomic config options operation tables :
  let '(r, release, c) := withPostgresTransaction config options operation tables in
  working c = None ∧
  (release = Discarded ↔ ∃ e1 e2, r = inr (PostgresTransactionRollbackError e1 e2)) ∧
  match r with
  | inl a => operation tables = Ret (a, committed c)
  | inr _ => committed c = tables ∨
      is_Some (fault COMMIT) ∧ commit_applied = true ∧ ∃ a, operation tables = Ret (a, committed c)
  end.
Proof.
  set (P := λ (r : A + TransactionError) (c : Session),
    ((∀ e1 e2, r ≠ inr (PostgresTransactionRollbackError e1 e2)) → working c = None) ∧
    match r with
    | inl a => operation tables = Ret (a, committed c)
    | inr _ => committed c = tables ∨
        is_Some (fault COMMIT) ∧ commit_applied = true ∧ ∃ a, operation tables = Ret (a, committed c)
    end).
  assert (Hroll : ∀ began e c r c', rolled_back began e c = (r, c') → (began = false → working c = None) →
    (committed c = tables ∨ is_Some (fault COMMIT) ∧ commit_applied = true ∧
       ∃ a, operation tables = Ret (a, committed c)) → P r c').
  { intros began e c r c' Hr Hw Hc. apply rolled_back_spec in Hr as (Hcom & Hinl & Hno). split.
    - intros H. destruct (Hno H) as [_ ->]. destruct began; auto.
    - rewrite Hcom. destruct r as [a|]; [by destruct (Hinl a)|done]. }
  assert (H : let '(r, c) := withCheckedOutPostgresTransaction config options operation
    {| committed := tables; working := None; log := [] |} in P r c).
  { unfold withCheckedOutPostgresTransaction. unfold query at 1.
    destruct (fault BEGIN) as [e|]; cbn [committed working log].
    { destruct (rolled_back false e _) as [r c] eqn:E. eapply Hroll; [exact E|done|by left]. }
    destruct (queries (preamble config options) _) as [[e|] c2] eqn:E2;
      apply preamble_keeps in E2 as [Hc2 Hw2]; cbn in Hc2, Hw2.
    { destruct (rolled_back true e c2) as [r c] eqn:E. eapply Hroll; [exact E|done|by left]. }
    unfold run_operation. rewrite Hw2. destruct (operation tables) as [[a w']|e] eqn:Eop.
    2:{ destruct (rolled_back true e c2) as [r c] eqn:E. eapply Hroll; [exact E|done|by left]. }
    unfold query at 1. cbn [working committed log]. destruct (fault COMMIT) as [e|] eqn:Ec; [|by split].
    destruct (rolled_back true e _) as [r c] eqn:E. eapply Hroll; [exact E|done|].
    destruct commit_applied; cbn; [right; eauto|by left]. }
  unfold withPostgresTransaction.
  destruct (withCheckedOutPostgresTransaction _ _ _ _) as [r c]. destruct H as [Hw Hr].
  destruct r as [a|[e|e1 e2]].
  - split_and!; [by apply Hw| |done]. split; [done|by intros (? & ? & ?)].
  - split_and!; [by apply Hw| |done]. split; [done|by intros (? & ? & ?)].
  - split_and!; [done| |done]. split; [eauto|done].
Qed.

End transaction.

Open Scope Z_scope.

Inductive RetryClass : Set := serialization | deadlock | connection.
#[export] Instance RetryClass_eq_dec : EqDecision RetryClass.
Proof. solve_decision. Defined.

Inductive RetryOutcome : Set := retry | success | failed | not_retried.

Record PostgresRetryTelemetry := {
  rt_operation : string;
  rt_outcome : RetryOutcome;
  rt_retryClass : option RetryClass;
  rt_retryCount : nat;
  rt_delayMs : option number;
  rt_remainingDeadlineMs : number
}.

Record PostgresRetryOptions := {
  ro_operation : string;
  ro_idempotent : bool;
  ro_transactionallySafe : bool;
  ro_maxAttempts : option number;
  ro_retryDelayMs : option number;
  ro_maxRetryDelayMs : option number;
  ro_jitterRatio : option number;
  ro_retryDeadlineMs : option number
}.

Definition connectionRetryCodes : list string :=
  ["08001"; "08003"; "08004"; "08006"; "57P01"; "57P02"; "57P03"; "ECONNRESET"; "ETIMEDOUT"; "EPIPE"]%string.

(** What an operation rejects with: [undefined], or a value whose [code] may be
    a string. *)
Inductive Thrown : Type := ThrownUndefined | ThrownError (code : option string).

Definition thrown_code (e : Thrown) : option string :=
  match e with ThrownUndefined => None | ThrownError c => c end.

Definition classifyPostgresRetryableError (e : Thrown) : option RetryClass :=
  match thrown_code e with
  | None => None
  | Some code =>
      if (code =? "40001")%string then Some serialization
      else if (code =? "40P01")%string then Some deadlock
      else if str_mem code connectionRetryCodes then Some connection else None
  end.

(** ** Bounds *)

Definition maxAttempts (o : PostgresRetryOptions) : number :=
  math_min 5%float (math_max 1%float (math_floor (default 3%float (ro_maxAttempts o)))).
Definition retryDelayMs (o : PostgresRetryOptions) : number :=
  math_min 5000%float (math_max 0%float (math_floor (default 50%float (ro_retryDelayMs o)))).
Definition maxRetryDelayMs (o : PostgresRetryOptions) : number :=
  math_min 10000%float (math_max (retryDelayMs o) (math_floor (default 1000%float (ro_maxRetryDelayMs o)))).
Definition jitterRatio (o : PostgresRetryOptions) : number :=
  math_min 1%float (math_max 0%float (default (0x1.999999999999ap-3)%float (ro_jitterRatio o))).
Definition retryDeadlineMs (o : PostgresRetryOptions) : number :=
  math_min 30000%float (math_max 0%float (math_floor (default 5000%float (ro_retryDeadlineMs o)))).

Section loop.
Context {T : Type} (operation : nat → T + Thrown).
Context (clock : nat → number) (random : nat → number) (options : PostgresRetryOptions).

Definition deadlineAt : number := (clock 0 + retryDeadlineMs options)%float.

Definition proposedDelay (retryCount : nat) (rnd : number) : number :=
  math_round
    (math_min (maxRetryDelayMs options) (retryDelayMs options * two_pow retryCount)
     * (1 + ((math_min 1 (math_max 0 rnd) * 2) - 1) * jitterRatio options))%float.

(** [retryClass === "connection" ? idempotent : retryClass !== null && transactionallySafe]. *)
Definition safe_to_retry (c : option RetryClass) : bool :=
  match c with
  | Some connection => ro_idempotent options
  | Some _ => ro_transactionallySafe options
  | None => false
  end.

Definition telemetry (outcome : RetryOutcome) (c : option RetryClass) (retryCount : nat)
    (delay : option number) (remaining : number) : PostgresRetryTelemetry :=
  {| rt_operation := ro_operation options; rt_outcome := outcome; rt_retryClass := c;
     rt_retryCount := retryCount; rt_delayMs := delay; rt_remainingDeadlineMs := remaining |}.

Inductive RetryResult : Type :=
| Returned (value : T)
| Rejected (error : Thrown).

(** The loop from [attempt] on; [tick] is the number of clock readings so far.
    The result comes with the telemetry, the delays slept and the number of
    calls made. *)
Record RetryRun := {
  run_result : RetryResult;
  run_telemetry : list PostgresRetryTelemetry;
  run_sleeps : list number;
  run_calls : nat
}.

Fixpoint retry_loop (fuel attempt tick retryCount : nat) (finalError : Thrown)
    (tel : list PostgresRetryTelemetry) (sleeps : list number) : option RetryRun :=
  match fuel with
  | O => None
  | S fuel' =>
      if negb (num_of_Z (Z.of_nat attempt) <=? maxAttempts options)%float
      then Some {| run_result := Rejected finalError; run_telemetry := tel; run_sleeps := sleeps;
                   run_calls := attempt - 1 |}
      else
        let check := (1 <? attempt)%nat && match finalError with ThrownUndefined => false | _ => true end in
        if check && (deadlineAt <=? clock tick)%float
        then Some {| run_result := Rejected finalError;
                     run_telemetry := tel ++ [telemetry failed (classifyPostgresRetryableError finalError)
                                                retryCount None 0%float];
                     run_sleeps := sleeps; run_calls := attempt - 1 |}
        else
        let tick := if check then S tick else tick in
        match operation attempt with
        | inl value =>
            Some {| run_result := Returned value;
                    run_telemetry := tel ++
                      (if (0 <? retryCount)%nat
                       then [telemetry success None retryCount None (math_max 0 (deadlineAt - clock tick))%float]
                       else []);
                    run_sleeps := sleeps; run_calls := attempt |}
        | inr error =>
            let retryClass := classifyPostgresRetryableError error in
            let safe := safe_to_retry retryClass in
            let remaining := math_max 0%float (deadlineAt - clock tick)%float in
            let delay := proposedDelay retryCount (random attempt) in
            let canRetry := safe && (num_of_Z (Z.of_nat attempt) <? maxAttempts options)%float
                            && (0 <? remaining)%float && (delay <=? remaining)%float in
            if negb canRetry then
              Some {| run_result := Rejected error;
                      run_telemetry := tel ++
                        match retryClass with
                        | Some _ => [telemetry (if safe then failed else not_retried) retryClass
                                       retryCount (Some delay) remaining]
                        | None => []
                        end;
                      run_sleeps := sleeps; run_calls := attempt |}
            else
              retry_loop fuel' (S attempt) (S tick) (S retryCount) error
                (tel ++ [telemetry retry retryClass (S retryCount) (Some delay) remaining])
                (sleeps ++ [delay])
        end
  end.

Definition runWithPostgresRetry : option RetryRun :=
  retry_loop 6 1 1 0 ThrownUndefined [] [].
End loop.

(** ** The loop *)

Section properties.
Context {T : Type} (operation : nat → T + Thrown).
Context (clock : nat → number) (random : nat → number) (options : PostgresRetryOptions).

Local Abbreviation max := (maxAttempts options).
Local Abbreviation loop := (retry_loop operation clock random options).

(** The number of attempts is a whole number from one to five. *)
Lemma maxAttempts_whole :
  is_nan max = false → ∃ k, 1 ≤ k ≤ 5 ∧ num_val max = Some (k * 2 ^ 1074).
Proof.
  unfold maxAttempts. set (v := default _ _). intros H.
  apply math_min_not_nan in H as Hm. destruct (math_max_ge _ _ Hm) as [_ H2].
  apply leb_not_nan in H2 as [Hf _]. destruct (math_floor_whole v Hf) as (z & Hz).
  pose proof (math_max_val 1 _ (2 ^ 1074) _ ltac:(vm_compute; reflexivity) Hz) as Hmax.
  pose proof (math_min_val 5 _ (5 * 2 ^ 1074) _ ltac:(vm_compute; reflexivity) Hmax) as ->.
  exists (Z.min 5 (Z.max 1 z)). split; [lia|]. f_equal.
  pose proof (pow2_pos 1074 ltac:(lia)). nia.
Qed.

Lemma attempt_leb n k :
  (n ≤ 6)%nat → num_val max = Some (k * 2 ^ 1074) →
  (num_of_Z (Z.of_nat n) <=? max)%float = (Z.of_nat n <=? k) ∧
  (num_of_Z (Z.of_nat n) <? max)%float = (Z.of_nat n <? k).
Proof.
  intros Hn Hk. rewrite num_leb_val, num_ltb_val, Hk, num_of_Z_val by lia. cbn [opt_cmp].
  pose proof (pow2_pos 1074 ltac:(lia)).
  split; apply eq_iff_eq_true; rewrite ?Z.leb_le, ?Z.ltb_lt; nia.
Qed.

(** Call [k] failed with an error the options allow to repeat. *)
Definition repeatable (k : nat) : Prop :=
  ∃ e, operation k = inr e ∧ safe_to_retry options (classifyPostgresRetryableError e) = true.

(** A delay that fits into the time left at some reading of the clock. *)
Definition fits_deadline (d : number) : Prop :=
  ∃ tick, let remaining := math_max 0%float (deadlineAt clock options - clock tick)%float in
    (0 <? remaining)%float = true ∧ (d <=? remaining)%float = true.

(** The result is the outcome of the last call. *)
Definition last_outcome (r : RetryRun) : Prop :=
  match operation (run_calls r) with
  | inl v => run_result r = Returned v
  | inr e => run_result r = Rejected e
  end.

Definition run_ok (r : RetryRun) : Prop :=
  (1 ≤ run_calls r ≤ 5)%nat ∧ (∀ k, (1 ≤ k < run_calls r)%nat → repeatable k) ∧
  last_outcome r ∧ Forall fits_deadline (run_sleeps r) ∧
  (List.length (run_sleeps r) ≤ run_calls r ≤ S (List.length (run_sleeps r)))%nat.

Lemma retry_loop_ok fuel n tick count final tel sleeps k :
  num_val max = Some (k * 2 ^ 1074) → 1 ≤ k ≤ 5 → (1 ≤ n)%nat → Z.of_nat n ≤ k → (fuel + n = 7)%nat →
  (∀ j, (1 ≤ j < n)%nat → repeatable j) →
  ((1 < n)%nat → operation (n - 1) = inr final) →
  Forall fits_deadline sleeps → List.length sleeps = (n - 1)%nat →
  ∃ r, loop fuel n tick count final tel sleeps = Some r ∧ run_ok r.
Proof.
  intros Hk Hk5. revert n tick count final tel sleeps.
  induction fuel as [|fuel IH]; intros n tick count final tel sleeps Hn Hnk Hf Hrep Hfin Hsl Hlen; [lia|].
  destruct (attempt_leb n k ltac:(lia) Hk) as [Hle Hlt]. cbn [retry_loop]. rewrite Hle, Hlt.
  rewrite (proj2 (Z.leb_le _ _) Hnk). cbn [negb].
  set (check := (1 <? n)%nat && _).
  destruct (check && _) eqn:Ec.
  { eexists. split; [done|]. apply andb_prop in Ec as [Ec _]. apply andb_prop in Ec as [H1%Nat.ltb_lt _].
    unfold run_ok, last_outcome. cbn [run_calls run_sleeps run_result]. rewrite Hfin by done.
    split_and!; try done; try lia. intros j Hj. apply Hrep. lia. }
  destruct (operation n) as [v|e] eqn:Eo.
  { eexists. split; [done|]. unfold run_ok, last_outcome. cbn [run_calls run_sleeps run_result].
    rewrite Eo. split_and!; try done; lia. }
  destruct (negb _) eqn:Er.
  { eexists. split; [done|]. unfold run_ok, last_outcome. cbn [run_calls run_sleeps run_result].
    rewrite Eo. split_and!; try done; lia. }
  apply negb_false_iff in Er. rewrite !andb_true_iff in Er. destruct Er as [[[Hsafe Hlt'] Hrem] Hdel].
  apply Z.ltb_lt in Hlt'. apply IH; [lia..| | | |].
  - intros j Hj. destruct (decide (j = n)) as [->|]; [by exists e|apply Hrep; lia].
  - intros _. by replace (S n - 1)%nat with n by lia.
  - apply Forall_app_2; [done|]. constructor; [|constructor].
    exists (if check then S tick else tick). by split.
  - rewrite length_app. cbn. lia.
Qed.

(** Retrying always ends and never repeats an unsafe operation.  With a
    number of attempts that is not NaN the operation is called one to five
    times and the last outcome is the result; every earlier call failed with a
    serialization failure or deadlock of a transactionally safe operation, or
    with a lost connection of an idempotent one; every pause fits into the time
    left before the deadline.  With NaN the operation is not called. *)
Theorem retry_bounded_and_safe :
  ∃ r, runWithPostgresRetry operation clock random options = Some r ∧
    if is_nan max then run_calls r = 0%nat ∧ run_result r = Rejected ThrownUndefined
    else run_ok r.
Proof.
  unfold runWithPostgresRetry. destruct (is_nan max) eqn:Hn.
  - eexists. cbn [retry_loop]. destruct (num_of_Z (Z.of_nat 1) <=? max)%float eqn:E; [|by split].
    apply leb_not_nan in E as [_ E]. congruence.
  - destruct (maxAttempts_whole Hn) as (k & Hk & E).
    eapply retry_loop_ok; [exact E|done|lia|lia|lia|intros; lia|intros; lia|constructor|done].
Qed.

End properties.
