(* ===== verification/PostgresNumeric.v ===== *)
(** Decimal columns: src/lib/database/postgresNumeric.ts.

    Amounts from JavaScript are brought into the text PostgreSQL prints for a
    numeric(precision, scale) column, so that rows can be compared as text.
    BigInt arithmetic is exact: coefficients are integers. *)

From S2P Require Import Prelude.
From S2P Require Import JsString.
From S2P Require Import JsDate.
From S2P Require Import JsNumber.
From S2P Require Import JsText.
Open Scope Z_scope.

(** [number | string]. *)
Inductive NumericInput : Type := NumericNumber (x : number) | NumericText (s : string).

Definition nonfinite (v : NumericInput) : bool :=
  match v with NumericNumber x => negb (num_is_finite x) | NumericText _ => false end.

Definition input_text (v : NumericInput) : string :=
  trim (match v with NumericNumber x => num_text x | NumericText s => s end).

(** The value [coefficient / 10^scale]. *)
Record Decimal := { coefficient : Z; scale : nat }.

(** [while (scale > 0 && coefficient % 10n === 0n)]. *)
Fixpoint strip_zeros (c : Z) (k : nat) : Decimal :=
  match k with
  | O => {| coefficient := c; scale := 0 |}
  | S k' => if Z.rem c 10 =? 0 then strip_zeros (Z.quot c 10) k'
            else {| coefficient := c; scale := k |}
  end.

(** The coefficient and scale of [digits * 10^(-fraction digits + exponent)]. *)
Definition scaled (c s : Z) : Decimal :=
  if s <? 0 then strip_zeros (c * 10 ^ (- s)) 0 else strip_zeros c (Z.to_nat s).

Definition parsePostgresDecimal (v : NumericInput) : res Decimal :=
  if nonfinite v then Throw "POSTGRES_NUMERIC_NONFINITE"
  else
    let '(neg, u) := span_sign (input_text v) in
    match split_decimal u with
    | None => Throw "POSTGRES_NUMERIC_INVALID"
    | Some (whole, fraction, e) =>
        let exponent := match e with Some (n, d) => signed n (digits_val 0 d) | None => 0 end in
        (** Beyond 1000 the conversion by [Number] may round, but not below. *)
        if 1000 <? Z.abs exponent then Throw "POSTGRES_NUMERIC_INVALID"
        else Ret (scaled (signed neg (digits_val 0 (whole ++ fraction)%string))
                    (Z.of_nat (String.length fraction) - exponent))
    end.

(** Rounding to [s] decimals, half away from zero, on the absolute value. *)
Definition rescale (a : Z) (k s : nat) : Z :=
  if (s <? k)%nat then
    let divisor := 10 ^ Z.of_nat (k - s) in
    let remainder := Z.rem a divisor in
    Z.quot a divisor + (if divisor <=? remainder * 2 then 1 else 0)
  else if (k <? s)%nat then a * 10 ^ Z.of_nat (s - k)
  else a.

(** [digits.slice(0, -scale)] and [digits.slice(-scale)] around the point. *)
Definition unsigned_text (absolute : Z) (s : nat) : string :=
  let digits := padded_text (S s) absolute in
  match s with
  | O => digits
  | _ => let n := (String.length digits - s)%nat in
         (str_take n digits ++ "." ++ str_drop n digits)%string
  end.

Definition canonicalizePostgresNumeric (v : option NumericInput) (precision s : Z)
    : res (option string) :=
  match v with
  | None => Ret None
  | Some v =>
      if (precision <? 1) || (s <? 0) || (precision <? s)
      then Throw "POSTGRES_NUMERIC_DEFINITION_INVALID"
      else
        parsed ← parsePostgresDecimal v;
        let negative := coefficient parsed <? 0 in
        let absolute := rescale (Z.abs (coefficient parsed)) (scale parsed) (Z.to_nat s) in
        if 10 ^ precision <=? absolute then Throw "POSTGRES_NUMERIC_OVERFLOW"
        else
          let unsigned := unsigned_text absolute (Z.to_nat s) in
          Ret (Some (if negative && negb (absolute =? 0) then ("-" ++ unsigned)%string else unsigned))
  end.

Example canonical_half_up : canonicalizePostgresNumeric (Some (NumericText "1.005")) 10 2 = Ret (Some "1.01"%string).
Proof. vm_compute. reflexivity. Qed.
Example canonical_number : canonicalizePostgresNumeric (Some (NumericNumber (-0.1)%float)) 18 8 = Ret (Some "-0.10000000"%string).
Proof. vm_compute. reflexivity. Qed.
Example canonical_exponent : canonicalizePostgresNumeric (Some (NumericText " +12.5e-1 ")) 6 2 = Ret (Some "1.25"%string).
Proof. vm_compute. reflexivity. Qed.
Example canonical_negative_zero : canonicalizePostgresNumeric (Some (NumericText "-0.004")) 6 2 = Ret (Some "0.00"%string).
Proof. vm_compute. reflexivity. Qed.

(** ** Normal forms *)

Lemma pow10_S n : 10 ^ Z.of_nat (S n) = 10 * 10 ^ Z.of_nat n.
Proof. rewrite Nat2Z.inj_succ, Z.pow_succ_r; lia. Qed.

(** The value is kept, and no trailing zero is left after the point. *)
Lemma strip_zeros_spec c k :
  c * 10 ^ Z.of_nat (scale (strip_zeros c k)) = coefficient (strip_zeros c k) * 10 ^ Z.of_nat k ∧
  (scale (strip_zeros c k) = 0%nat ∨ Z.rem (coefficient (strip_zeros c k)) 10 ≠ 0).
Proof.
  revert c. induction k as [|k IH]; intros c; cbn [strip_zeros]; [by split; [|left]|].
  destruct (Z.eqb_spec (Z.rem c 10) 0) as [Hr|Hr]; [|by split; [|right]].
  destruct (IH (Z.quot c 10)) as [Hv Hn]. split; [|done].
  rewrite pow10_S. pose proof (Z.quot_rem' c 10). nia.
Qed.

Definition normal (d : Decimal) : Prop := scale d = 0%nat ∨ Z.rem (coefficient d) 10 ≠ 0.

(** Equal values have equal normal forms. *)
Lemma normal_unique d1 d2 :
  normal d1 → normal d2 →
  coefficient d1 * 10 ^ Z.of_nat (scale d2) = coefficient d2 * 10 ^ Z.of_nat (scale d1) → d1 = d2.
Proof.
  destruct d1 as [c1 k1], d2 as [c2 k2]. unfold normal. cbn. intros H1 H2 E.
  assert (Hlt : ∀ c c' k k', (k < k')%nat → (k' = 0%nat ∨ Z.rem c' 10 ≠ 0) →
    c * 10 ^ Z.of_nat k' = c' * 10 ^ Z.of_nat k → False).
  { intros c c' k k' Hk Hn Hv. destruct Hn as [->|Hn]; [lia|]. apply Hn.
    replace k' with (k + S (k' - k - 1))%nat in Hv by lia.
    rewrite Nat2Z.inj_add, Z.pow_add_r, pow10_S in Hv by lia.
    pose proof (pow10_pos k). assert (c' = c * 10 ^ Z.of_nat (k' - k - 1) * 10) as ->.
    { apply (Z.mul_reg_r _ _ (10 ^ Z.of_nat k)); [lia|]. rewrite <- Hv. ring. }
    apply Z.rem_mul. lia. }
  destruct (lt_eq_lt_dec k1 k2) as [[Hk|Hk]|Hk].
  - by destruct (Hlt c1 c2 k1 k2).
  - subst k2. pose proof (pow10_pos k1). f_equal. nia.
  - by destruct (Hlt c2 c1 k2 k1).
Qed.

Lemma scaled_value c s :
  normal (scaled c s) ∧
  coefficient (scaled c s) * 10 ^ Z.max 0 s = c * 10 ^ (Z.of_nat (scale (scaled c s)) + Z.max 0 (- s)).
Proof.
  unfold scaled. destruct (Z.ltb_spec s 0).
  - split; [by left|]. cbn [strip_zeros coefficient scale].
    replace (Z.max 0 s) with 0 by lia. replace (Z.max 0 (- s)) with (- s) by lia.
    rewrite Z.pow_0_r, Z.add_0_l. lia.
  - destruct (strip_zeros_spec c (Z.to_nat s)) as [Hv Hn]. split; [done|].
    rewrite Z2Nat.id in Hv by lia. replace (Z.max 0 s) with s by lia.
    replace (Z.max 0 (- s)) with 0 by lia. by rewrite Z.add_0_r.
Qed.

Lemma scaled_nat c (s : nat) : scaled c (Z.of_nat s) = strip_zeros c s.
Proof. unfold scaled. destruct (Z.ltb_spec (Z.of_nat s) 0); [lia|]. by rewrite Nat2Z.id. Qed.

(** ** Printed text reads back *)

(** The text of a rounded amount: whole digits, point, [s] decimals. *)
Lemma unsigned_text_shape a s :
  0 <= a → ∃ n, (1 ≤ n)%nat ∧ a < 10 ^ Z.of_nat (n + s) ∧
    unsigned_text a s = match s with
      | O => last_digits n a ""
      | _ => (last_digits n (a / 10 ^ Z.of_nat s) "" ++ "." ++ last_digits s a "")%string
      end.
Proof.
  intros Ha. pose proof (digits_needed_bound a Ha) as Hb. unfold unsigned_text, padded_text.
  assert (Hw : ∃ n, Nat.max (S s) (digits_needed a) = (n + s)%nat ∧ (1 ≤ n)%nat).
  { exists (Nat.max (S s) (digits_needed a) - s)%nat. lia. }
  destruct Hw as (n & Hw & Hn). exists n. split; [done|]. split.
  { eapply Z.lt_le_trans; [exact Hb|]. apply Z.pow_le_mono_r; lia. }
  rewrite Hw, last_digits_length, Nat.add_sub. destruct s as [|s]; [by rewrite Nat.add_0_r|].
  rewrite last_digits_split by done.
  by rewrite str_take_app, str_drop_app by apply last_digits_length.
Qed.

(** ** Reading the canonical text *)

Definition sign_text (neg : bool) (u : string) : string := if neg then ("-" ++ u)%string else u.

(** Text without white space whose first character is a digit is read with its
    sign. *)
Lemma input_sign neg u :
  string_forall (λ c, is_digit c || (c =? ".")%char) u = true →
  match u with String c _ => is_digit c = true | EmptyString => False end →
  span_sign (input_text (NumericText (sign_text neg u))) = (neg, u).
Proof.
  intros Hall Hfirst. unfold input_text. rewrite trim_no_ws.
  2:{ assert (string_forall (λ c, negb (is_ws c)) u = true).
      { eapply string_forall_impl; [|exact Hall]. intros c [Hc|Hc]%orb_prop; apply negb_true_iff.
        - by apply is_digit_not_ws.
        - by apply Ascii.eqb_eq in Hc as ->. }
      destruct neg; done. }
  destruct neg; [done|]. destruct u as [|c u]; [done|]. cbn [sign_text].
  destruct c as [[] [] [] [] [] [] [] []]; try done.
Qed.

(** The canonical text of [a / 10^s] parses to its normal form. *)
Lemma parse_unsigned neg a s :
  0 <= a →
  parsePostgresDecimal (NumericText (sign_text neg (unsigned_text a s))) =
    Ret (strip_zeros (signed neg a) s).
Proof.
  intros Ha. destruct (unsigned_text_shape a s Ha) as (n & Hn & Hlt & Hshape).
  assert (Hd : ∀ m z, string_forall is_digit (last_digits m z "") = true) by apply last_digits_digit.
  assert (Hdp : ∀ m z, string_forall (λ c, is_digit c || (c =? ".")%char) (last_digits m z "") = true).
  { intros m z. eapply string_forall_impl; [|apply Hd]. by intros c ->. }
  assert (Hfirst : ∀ m z r, (1 ≤ m)%nat →
    match (last_digits m z "" ++ r)%string with String c _ => is_digit c = true | EmptyString => False end).
  { intros m z r Hm. pose proof (last_digits_length m z). pose proof (Hd m z) as Hm'.
    destruct (last_digits m z "") as [|c u]; [simpl in *; lia|]. cbn [string_forall] in Hm'.
    by apply andb_prop in Hm' as [? _]. }
  unfold parsePostgresDecimal. cbn [nonfinite].
  rewrite input_sign.
  2:{ rewrite Hshape. destruct s; [apply Hdp|]. rewrite string_forall_app, Hdp.
      change (string_forall (λ c, is_digit c || (c =? ".")%char) ("." ++ last_digits (S s) a "")%string)
        with (string_forall (λ c, is_digit c || (c =? ".")%char) (last_digits (S s) a "")). apply Hdp. }
  2:{ rewrite Hshape. destruct s; [|by apply Hfirst]. rewrite <- (str_app_nil (last_digits n a "")).
      by apply Hfirst. }
  rewrite Hshape. unfold split_decimal. destruct s as [|s].
  - rewrite <- (str_app_nil (last_digits n a "")), span_digits_app by done.
    pose proof (last_digits_length n a) as Hl.
    assert (str_truthy (last_digits n a "") = true) as Ht by (destruct (last_digits n a ""); [simpl in *; lia|done]).
    rewrite Ht. cbn [orb negb]. rewrite str_app_nil, last_digits_val by done.
    rewrite Nat.add_0_r in Hlt. rewrite Z.mul_0_l, Z.add_0_l, Z.mod_small by lia. done.
  - rewrite span_digits_app by done.
    set (w := last_digits n (a / 10 ^ Z.of_nat (S s)) "").
    change (("." ++ last_digits (S s) a "")%string) with (String "." (last_digits (S s) a "")).
    rewrite <- (str_app_nil (last_digits (S s) a "")), span_digits_app by done.
    pose proof (last_digits_length n (a / 10 ^ Z.of_nat (S s))) as Hl. fold w in Hl.
    assert (str_truthy w = true) as -> by (destruct w; [simpl in *; lia|done]).
    cbn [orb negb]. rewrite last_digits_length, Z.sub_0_r, scaled_nat. f_equal. f_equal.
    unfold w. rewrite <- last_digits_split, last_digits_val by done.
    rewrite Z.mul_0_l, Z.add_0_l, Z.mod_small by lia. done.
Qed.

(** ** Rounding *)

(** [n] is [a / 10^k] rounded to [s] decimals, halves up, in units of [10^-s]. *)
Definition is_rounding (a : Z) (k s : nat) (n : Z) : Prop :=
  (2 * n - 1) * 10 ^ Z.of_nat k ≤ 2 * (a * 10 ^ Z.of_nat s) < (2 * n + 1) * 10 ^ Z.of_nat k.

Lemma is_rounding_unique a k s n m : is_rounding a k s n → is_rounding a k s m → n = m.
Proof. unfold is_rounding. pose proof (pow10_pos k). nia. Qed.

Lemma rescale_rounding a k s : 0 <= a → is_rounding a k s (rescale a k s).
Proof.
  intros Ha. unfold is_rounding, rescale.
  destruct (Nat.ltb_spec s k); [|destruct (Nat.ltb_spec k s)].
  - assert (10 ^ Z.of_nat k = 10 ^ Z.of_nat s * 10 ^ Z.of_nat (k - s)) as ->.
    { rewrite <- Z.pow_add_r by lia. f_equal. lia. }
    pose proof (pow10_pos s). pose proof (pow10_pos (k - s)).
    rewrite Z.quot_div_nonneg, Z.rem_mod_nonneg by lia.
    set (d := 10 ^ Z.of_nat (k - s)) in *. set (p := 10 ^ Z.of_nat s) in *.
    pose proof (Z.div_mod a d ltac:(lia)). pose proof (Z.mod_pos_bound a d ltac:(lia)).
    set (q := a / d) in *. set (r := a mod d) in *.
    clearbody q r d p. destruct (Z.leb_spec d (r * 2)); split; subst a; nia.
  - assert (10 ^ Z.of_nat s = 10 ^ Z.of_nat k * 10 ^ Z.of_nat (s - k)) as ->.
    { rewrite <- Z.pow_add_r by lia. f_equal. lia. }
    pose proof (pow10_pos k). pose proof (pow10_pos (s - k)). nia.
  - assert (s = k) as -> by lia. pose proof (pow10_pos k). nia.
Qed.

Lemma rescale_nonneg a k s : 0 <= a → 0 <= rescale a k s.
Proof.
  intros Ha. pose proof (rescale_rounding a k s Ha) as [_ H].
  pose proof (pow10_pos k). pose proof (pow10_pos s). nia.
Qed.

Definition valid_definition (precision s : Z) : Prop := 1 ≤ precision ∧ 0 ≤ s ≤ precision.

Lemma canonicalize_parsed v precision s d :
  valid_definition precision s → parsePostgresDecimal v = Ret d →
  canonicalizePostgresNumeric (Some v) precision s =
    let n := rescale (Z.abs (coefficient d)) (scale d) (Z.to_nat s) in
    if 10 ^ precision <=? n then Throw "POSTGRES_NUMERIC_OVERFLOW"
    else Ret (Some (sign_text ((coefficient d <? 0) && negb (n =? 0)) (unsigned_text n (Z.to_nat s)))).
Proof.
  intros [Hp Hs] Hd. unfold canonicalizePostgresNumeric.
  destruct (Z.ltb_spec precision 1), (Z.ltb_spec s 0), (Z.ltb_spec precision s); try lia.
  cbn [orb]. by rewrite Hd.
Qed.

Lemma parse_normal v d : parsePostgresDecimal v = Ret d → normal d.
Proof.
  unfold parsePostgresDecimal. destruct (nonfinite v); [done|].
  destruct (span_sign _) as [neg u]. destruct (split_decimal u) as [[[w f] e]|]; [|done].
  destruct (_ <? _); [done|]. injection 1 as <-. apply scaled_value.
Qed.

Lemma parse_canonical (neg : bool) n s :
  0 <= n → parsePostgresDecimal (NumericText (sign_text (neg && negb (n =? 0)) (unsigned_text n s))) =
    Ret (strip_zeros (signed neg n) s).
Proof.
  intros Hn. rewrite parse_unsigned by done.
  destruct neg; [|done]. by destruct (Z.eqb_spec n 0) as [->|].
Qed.

(** The canonical text of a decimal is its value rounded half away from
    zero to the column's scale: the printed text reads back as exactly that
    value, and amounts of [precision] digits or more are refused as an overflow,
    not truncated. *)
Theorem canonical_numeric_rounds v precision s d :
  valid_definition precision s → parsePostgresDecimal v = Ret d →
  ∃ n, is_rounding (Z.abs (coefficient d)) (scale d) (Z.to_nat s) n ∧ 0 ≤ n ∧
    match canonicalizePostgresNumeric (Some v) precision s with
    | Ret (Some out) => n < 10 ^ precision ∧
        parsePostgresDecimal (NumericText out) =
          Ret (strip_zeros (signed (coefficient d <? 0) n) (Z.to_nat s))
    | Ret None => False
    | Throw e => e = "POSTGRES_NUMERIC_OVERFLOW"%string ∧ 10 ^ precision ≤ n
    end.
Proof.
  intros Hdef Hd. set (n := rescale (Z.abs (coefficient d)) (scale d) (Z.to_nat s)).
  assert (Hn : 0 <= n) by (apply rescale_nonneg; lia).
  exists n. split; [apply rescale_rounding; lia|]. split; [done|].
  rewrite (canonicalize_parsed v precision s d) by done. fold n. cbv zeta.
  destruct (Z.leb_spec (10 ^ precision) n); [done|]. split; [done|]. by apply parse_canonical.
Qed.

(** Canonical texts decide equality of amounts: inputs of equal value get
    the same text, and the canonical text is its own canonical text. *)
Theorem canonical_numeric_form v1 v2 precision s d1 d2 :
  valid_definition precision s → parsePostgresDecimal v1 = Ret d1 → parsePostgresDecimal v2 = Ret d2 →
  coefficient d1 * 10 ^ Z.of_nat (scale d2) = coefficient d2 * 10 ^ Z.of_nat (scale d1) →
  canonicalizePostgresNumeric (Some v1) precision s = canonicalizePostgresNumeric (Some v2) precision s ∧
  ∀ out, canonicalizePostgresNumeric (Some v1) precision s = Ret (Some out) →
    canonicalizePostgresNumeric (Some (NumericText out)) precision s = Ret (Some out).
Proof.
  intros Hdef H1 H2 Hval. split.
  { rewrite (canonicalize_parsed v1 precision s d1), (canonicalize_parsed v2 precision s d2) by done.
    by rewrite (normal_unique d1 d2 (parse_normal _ _ H1) (parse_normal _ _ H2) Hval). }
  intros out. rewrite (canonicalize_parsed v1 precision s d1) by done. cbv zeta.
  set (n := rescale _ _ _). assert (Hn : 0 <= n) by (apply rescale_nonneg; lia).
  destruct (Z.leb_spec (10 ^ precision) n); [done|]. intros [= <-].
  rewrite (canonicalize_parsed _ precision s _ Hdef (parse_canonical _ n _ Hn)). cbv zeta.
  set (d := strip_zeros (signed (coefficient d1 <? 0) n) (Z.to_nat s)).
  destruct (strip_zeros_spec (signed (coefficient d1 <? 0) n) (Z.to_nat s)) as [Hv _]. fold d in Hv.
  pose proof (pow10_pos (scale d)). pose proof (pow10_pos (Z.to_nat s)).
  assert (Habs : Z.abs (coefficient d) * 10 ^ Z.of_nat (Z.to_nat s) = n * 10 ^ Z.of_nat (scale d)).
  { rewrite <- (Z.abs_eq (10 ^ Z.of_nat (Z.to_nat s))) by lia. rewrite <- Z.abs_mul, <- Hv, Z.abs_mul.
    f_equal; [|lia]. unfold signed. destruct (coefficient d1 <? 0); lia. }
  assert (rescale (Z.abs (coefficient d)) (scale d) (Z.to_nat s) = n) as ->.
  { eapply is_rounding_unique; [apply rescale_rounding; lia|]. unfold is_rounding. nia. }
  destruct (Z.leb_spec (10 ^ precision) n); [lia|]. f_equal. f_equal. f_equal.
  destruct (Z.eqb_spec n 0); [by rewrite !andb_false_r|]. rewrite !andb_true_r.
  unfold signed in Hv. destruct (Z.ltb_spec (coefficient d1) 0), (Z.ltb_spec (coefficient d) 0); try done; nia.
Qed.

Lemma canonical_numeric_rounds_witness :
  canonicalizePostgresNumeric (Some (NumericText "-2.675")) 4 2 = Ret (Some "-2.68"%string) ∧
  is_rounding 2675 3 2 268.
Proof.
  split; [vm_compute; reflexivity|].
  destruct (canonical_numeric_rounds (NumericText "-2.675") 4 2 {| coefficient := -2675; scale := 3 |})
    as (n & Hr & _ & _); [split; lia|vm_compute; reflexivity|].
  replace 268 with n; [exact Hr|].
  eapply is_rounding_unique; [exact Hr|]. unfold is_rounding. split; [apply Z.leb_le|apply Z.ltb_lt]; reflexivity.
Defined.

Lemma canonical_numeric_form_witness :
  canonicalizePostgresNumeric (Some (NumericText "1.50e1")) 6 2 =
    canonicalizePostgresNumeric (Some (NumericNumber 15%float)) 6 2 ∧
  canonicalizePostgresNumeric (Some (NumericText "15.00")) 6 2 = Ret (Some "15.00"%string).
Proof.
  destruct (canonical_numeric_form (NumericText "1.50e1") (NumericNumber 15%float) 6 2
    {| coefficient := 15; scale := 0 |} {| coefficient := 15; scale := 0 |}) as [He Hi];
    [split; lia|vm_compute; reflexivity|vm_compute; reflexivity|reflexivity|].
  split; [exact He|]. apply Hi. vm_compute. reflexivity.
Defined.
