(* ===== verification/OperationDeadline.v ===== *)
(** Deadlines of broker requests: src/services/operationDeadline.ts.

    An operation has a start, a timeout and a margin kept for its completion;
    request timeouts and retry delays are cut to the network budget that is
    left.  [now] is the reading of the clock a function makes.  Durations are
    binary64 milliseconds. *)

From S2P Require Import Prelude.
From S2P Require Import JsString.
From S2P Require Import JsNumber.
Open Scope Z_scope.

Record OperationDeadline := {
  startedAtMs : number;
  deadlineAtMs : number;
  timeoutMs : number;
  completionMarginMs : number
}.

Record OperationDeadlineMetadata := {
  timedOut : bool;
  md_timeoutMs : number;
  md_completionMarginMs : number;
  remainingMs : number
}.

Inductive DeadlineErrorCode : Set := DEADLINE_EXCEEDED | OPERATION_ABORTED.

Definition error_code_text (c : DeadlineErrorCode) : string :=
  match c with
  | DEADLINE_EXCEEDED => "ALPACA_OPERATION_DEADLINE_EXCEEDED"
  | OPERATION_ABORTED => "ALPACA_OPERATION_ABORTED"
  end.

(** The metadata of an AlpacaOperationDeadlineError. *)
Definition deadline_error (code : DeadlineErrorCode) (d : OperationDeadline) (now : number)
    : OperationDeadlineMetadata :=
  {| timedOut := match code with DEADLINE_EXCEEDED => true | OPERATION_ABORTED => false end;
     md_timeoutMs := timeoutMs d; md_completionMarginMs := completionMarginMs d;
     remainingMs := math_max 0%float (math_floor (deadlineAtMs d - now)%float) |}.

Definition createOperationDeadline (timeout margin now : number) : OperationDeadline :=
  let timeout := math_max 1%float (math_floor timeout) in
  {| startedAtMs := now; deadlineAtMs := (now + timeout)%float; timeoutMs := timeout;
     completionMarginMs := math_max 0%float (math_min (math_floor margin) (timeout - 1)%float) |}.

Definition getRemainingNetworkBudgetMs (d : OperationDeadline) (now : number) : number :=
  math_max 0%float (math_floor (deadlineAtMs d - now - completionMarginMs d)%float).

(** The timeout of the next request, or the deadline error; [later] is the
    clock when the error reads it. *)
Definition getRequestTimeoutMs (d : OperationDeadline) (configured now later : number)
    : number + OperationDeadlineMetadata :=
  let remaining := getRemainingNetworkBudgetMs d now in
  if (remaining <=? 0)%float then inr (deadline_error DEADLINE_EXCEEDED d later)
  else inl (math_max 1%float (math_min (math_floor configured) remaining)).

Definition getRetryDelayMs (d : OperationDeadline) (proposed minimumAttempt now : number)
    : option number :=
  let remaining := getRemainingNetworkBudgetMs d now in
  let delay := math_max 0%float (math_floor proposed) in
  let minimum := math_max 1%float (math_floor minimumAttempt) in
  if (delay + minimum <=? remaining)%float then Some delay else None.

(** How a wait ends: at once, after the delay, or by the signal. *)
Inductive WaitResult : Type :=
| Waited (milliseconds : number)
| AbortedWithDeadline (metadata : OperationDeadlineMetadata)
| AbortedDom.

(** [waitForRetry]: [aborted] says whether the signal was already aborted,
    [interrupted] whether it fires before the timer; [now] is the clock at the
    error. *)
Definition waitForRetry (delayMs : number) (deadline : option OperationDeadline)
    (aborted interrupted : bool) (now : number) : WaitResult :=
  let abort := match deadline with
               | Some d => AbortedWithDeadline (deadline_error OPERATION_ABORTED d now)
               | None => AbortedDom
               end in
  if aborted then abort
  else if (delayMs <=? 0)%float then Waited 0%float
  else if interrupted then abort else Waited delayMs.

(** ** Properties *)

(** The budget is a whole number of milliseconds, or NaN. *)
Lemma budget_whole d now :
  is_nan (getRemainingNetworkBudgetMs d now) = false →
  ∃ z, 0 ≤ z ∧ num_val (getRemainingNetworkBudgetMs d now) = Some (z * 2 ^ 1074).
Proof.
  unfold getRemainingNetworkBudgetMs. set (x := (_ - _ - _)%float). intros H.
  destruct (math_max_ge _ _ H) as [_ H2]. apply leb_not_nan in H2 as [Hf _].
  destruct (math_floor_whole x Hf) as (z & Hz).
  pose proof (math_max_val 0 _ 0 _ ltac:(vm_compute; reflexivity) Hz) as ->.
  exists (Z.max 0 z). split; [lia|]. f_equal. pose proof (pow2_pos 1074 ltac:(lia)). nia.
Qed.

(** A request never outlives its deadline: a granted timeout is at least a
    millisecond and at most the remaining budget, and at most the configured
    timeout when that is a millisecond or more; it is refused exactly when no
    budget is left.  A granted retry delay is not negative and leaves, after
    the delay, at least the minimum attempt within the budget. *)
Theorem requests_fit_deadline d configured proposed minimumAttempt now later :
  is_nan (getRemainingNetworkBudgetMs d now) = false → is_nan configured = false →
  match getRequestTimeoutMs d configured now later with
  | inl t => (1 <=? t)%float = true ∧ (t <=? getRemainingNetworkBudgetMs d now)%float = true ∧
      ((1 <=? math_floor configured)%float = true → (t <=? math_floor configured)%float = true)
  | inr m => (getRemainingNetworkBudgetMs d now <=? 0)%float = true ∧ timedOut m = true
  end ∧
  (∀ delay, getRetryDelayMs d proposed minimumAttempt now = Some delay →
     (0 <=? delay)%float = true ∧
     (delay + math_max 1 (math_floor minimumAttempt) <=? getRemainingNetworkBudgetMs d now)%float = true).
Proof.
  intros Hb Hc. destruct (budget_whole d now Hb) as (z & Hz0 & Hz). split.
  - unfold getRequestTimeoutMs. set (rem := getRemainingNetworkBudgetMs d now) in *.
    destruct (rem <=? 0)%float eqn:Er; [by split|].
    apply not_nan_val in Hc as (a & Ha). pose proof (math_floor_val configured a Ha) as Hf.
    set (f := math_floor configured) in *. set (q := a / 2 ^ 1074) in *.
    assert (Hz1 : 1 ≤ z).
    { revert Er. rewrite num_leb_val, Hz. replace (num_val 0%float) with (Some 0) by done. cbn [opt_cmp].
      intros Er%Z.leb_gt. pose proof (pow2_pos 1074 ltac:(lia)). nia. }
    pose proof (math_min_val f rem _ _ Hf Hz) as Hm.
    pose proof (math_max_val 1 _ (2 ^ 1074) _ ltac:(vm_compute; reflexivity) Hm) as Ht.
    rewrite !num_leb_val, Ht, Hz, Hf. replace (num_val 1%float) with (Some (2 ^ 1074)) by (vm_compute; reflexivity).
    pose proof (pow2_pos 1074 ltac:(lia)). cbn [opt_cmp]. rewrite !Z.leb_le. clearbody q.
    assert (1 * 2 ^ 1074 ≤ z * 2 ^ 1074) by (apply Z.mul_le_mono_nonneg_r; lia).
    generalize dependent (z * 2 ^ 1074). generalize dependent (q * 2 ^ 1074).
    generalize dependent (2 ^ 1074). intros. lia.
  - intros delay. unfold getRetryDelayMs. destruct (_ <=? _)%float eqn:E; [|done]. injection 1 as <-.
    split; [|done]. apply leb_not_nan in E as [E _].
    destruct (is_nan (math_max 0 (math_floor proposed))) eqn:En.
    + by rewrite num_add_nan in E.
    + by apply math_max_ge in En as [? _].
Qed.

Lemma requests_fit_deadline_witness :
  let d := createOperationDeadline 10000 500 0 in
  getRequestTimeoutMs d 30000 2000 2000 = inl 7500%float ∧
  (7500 <=? getRemainingNetworkBudgetMs d 2000)%float = true ∧
  getRetryDelayMs d 7000 1000 2000 = None.
Proof.
  intros d. split; [vm_compute; reflexivity|]. split; [|vm_compute; reflexivity].
  assert (Hb : is_nan (getRemainingNetworkBudgetMs d 2000) = false) by (vm_compute; reflexivity).
  assert (Hc : is_nan 30000%float = false) by reflexivity.
  destruct (requests_fit_deadline d 30000 7000 1000 2000 2000 Hb Hc) as [H _].
  assert (E : getRequestTimeoutMs d 30000 2000 2000 = inl 7500%float) by (vm_compute; reflexivity).
  rewrite E in H. destruct H as (_ & H & _). exact H.
Defined.
