(* ===== verification/PortfolioRiskScore.v ===== *)
(** The portfolio risk score: src/services/portfolioRiskScoreService.ts.

    Ten components add points for exposures above fixed thresholds; the total
    selects a band.  Measurements are binary64 numbers, [None] is null; points
    are whole numbers.  Of the snapshots only the fields the score reads are
    kept. *)

From S2P Require Import Prelude.
From S2P Require Import JsString.
From S2P Require Import JsNumber.
Open Scope Z_scope.

(** ** Data *)

Inductive PortfolioRiskBand : Set := low | moderate | elevated | high | critical.
Inductive MarketRegime : Set := risk_on | neutral | transition | insufficient_data | risk_off | crisis.
Inductive DataQualityStatus : Set := complete | partial | monitoring | blocked_data.
Inductive RiskAssessmentStatus : Set := measured | partially_measured | indeterminate | blocked.
Inductive ComponentQuality : Set := observed | quality_partial | unavailable.

#[export] Instance DataQualityStatus_eq_dec : EqDecision DataQualityStatus.
Proof. solve_decision. Defined.

Inductive ComponentKey : Set :=
| grossExposure | betaAdjustedExposure | optionsConvexity | positiveDeltaOptionConcentration
| largestPosition | topFiveConcentration | expirationConcentration | drawdown | marketRegime
| dataQuality.

(** The fields of PortfolioRiskSnapshot and MarketRegimeSnapshot in use. *)
Record PortfolioRiskSnapshot := {
  grossExposurePct : option number;
  portfolioBeta : option number;
  absoluteDeltaExposurePct : option number;
  positiveDeltaExposurePct : option number;
  largestUnderlyingWeight : option number;
  topFiveUnderlyingWeight : option number;
  nearTermExposurePct : option number;
  drawdownPct : option number;
  dataQualityStatus : DataQualityStatus;
  blockers : list string;
  materialCoverageMissing : bool;
  riskModelVersion : string
}.
Record MarketRegimeSnapshot := {
  regime : MarketRegime;
  regimeDataQualityStatus : DataQualityStatus
}.

Record PortfolioRiskScoreComponent := {
  key : ComponentKey;
  points : Z;
  maximum : Z;
  quality : ComponentQuality
}.

Record PortfolioRiskScore := {
  total : Z;
  band : PortfolioRiskBand;
  measurementStatus : RiskAssessmentStatus;
  (** [None] is the effective band "indeterminate". *)
  effectiveBand : option PortfolioRiskBand;
  components : list PortfolioRiskScoreComponent;
  modelVersion : string
}.

(** ** Scoring *)

(** The points of the first threshold the value does not exceed. *)
Definition thresholdPoints (value : option number) (thresholds : list (number * Z)) (fallback : Z) : Z :=
  match value with
  | None => 0
  | Some v => match List.find (λ e, (v <=? fst e)%float) thresholds with
              | Some e => snd e
              | None => fallback
              end
  end.

Definition regimePoints (r : MarketRegime) : Z :=
  match r with
  | risk_on => 0 | neutral => 1 | transition => 3 | insufficient_data => 3 | risk_off => 5 | crisis => 7
  end.

Definition qualityPoints (q : DataQualityStatus) : Z :=
  match q with complete => 0 | partial => 2 | monitoring => 4 | blocked_data => 5 end.

Definition component (k : ComponentKey) (p m : Z) (q : ComponentQuality) : PortfolioRiskScoreComponent :=
  {| key := k; points := p; maximum := m; quality := q |}.

Definition if_known (v : option number) : ComponentQuality :=
  match v with None => unavailable | Some _ => observed end.

(** The absolute beta. *)
Definition absoluteBeta (r : PortfolioRiskSnapshot) : option number := abs <$> portfolioBeta r.

(** The thresholds 0.1, 0.15, 0.25, ... are the binary64 values of the literals. *)
Definition scoreComponents (r : PortfolioRiskSnapshot) (g : MarketRegimeSnapshot)
    : list PortfolioRiskScoreComponent :=
  [component grossExposure
     (thresholdPoints (grossExposurePct r) [(1%float, 0); (1.25%float, 5); (1.5%float, 10)] 15) 15 observed;
   component betaAdjustedExposure
     (thresholdPoints (absoluteBeta r) [(0.8%float, 0); (1%float, 5); (1.25%float, 10)] 15) 15
     (if_known (absoluteBeta r));
   component optionsConvexity
     (thresholdPoints (absoluteDeltaExposurePct r) [(0.1%float, 0); (0.25%float, 5); (0.5%float, 10)] 15) 15
     (if_known (absoluteDeltaExposurePct r));
   component positiveDeltaOptionConcentration
     (thresholdPoints (positiveDeltaExposurePct r) [(0.1%float, 0); (0.25%float, 4); (0.4%float, 7)] 10) 10
     (if_known (positiveDeltaExposurePct r));
   component largestPosition
     (thresholdPoints (largestUnderlyingWeight r) [(0.1%float, 0); (0.15%float, 3); (0.25%float, 6)] 10) 10
     observed;
   component topFiveConcentration
     (thresholdPoints (topFiveUnderlyingWeight r) [(0.4%float, 0); (0.55%float, 3); (0.7%float, 5)] 8) 8
     observed;
   component expirationConcentration
     (thresholdPoints (nearTermExposurePct r) [(0.1%float, 0); (0.25%float, 3); (0.4%float, 5)] 7) 7
     (if_known (nearTermExposurePct r));
   component drawdown
     (thresholdPoints (drawdownPct r) [(0.03%float, 0); (0.05%float, 2); (0.1%float, 5)] 8) 8
     (if_known (drawdownPct r));
   component marketRegime (regimePoints (regime g)) 7 observed;
   component dataQuality (qualityPoints (dataQualityStatus r)) 5
     (if bool_decide (dataQualityStatus r = complete) then observed else quality_partial)].

(** The sum of the points, each capped by its maximum, and 100 in all. *)
Definition scoreTotal (cs : list PortfolioRiskScoreComponent) : Z :=
  Z.min 100 (foldl (λ sum c, sum + Z.min (maximum c) (points c)) 0 cs).

Definition scoreBand (t : Z) : PortfolioRiskBand :=
  if 80 <=? t then critical else if 65 <=? t then high
  else if 45 <=? t then elevated else if 25 <=? t then moderate else low.

Definition scoreMeasurement (r : PortfolioRiskSnapshot) (g : MarketRegimeSnapshot) : RiskAssessmentStatus :=
  if bool_decide (dataQualityStatus r = blocked_data) || negb (bool_decide (blockers r = [])) then blocked
  else if materialCoverageMissing r then indeterminate
  else if bool_decide (dataQualityStatus r = complete) && bool_decide (regimeDataQualityStatus g = complete)
  then measured else partially_measured.

Definition scorePortfolioRisk (r : PortfolioRiskSnapshot) (g : MarketRegimeSnapshot) : PortfolioRiskScore :=
  let cs := scoreComponents r g in
  let t := scoreTotal cs in
  let status := scoreMeasurement r g in
  {| total := t; band := scoreBand t; measurementStatus := status;
     effectiveBand := match status with indeterminate | blocked => None | _ => Some (scoreBand t) end;
     components := cs; modelVersion := riskModelVersion r |}.

(** ** Properties *)

(** Measurements ordered by risk; an unknown one is below every known one,
    because it adds no points. *)
Definition measure_le (v w : option number) : Prop :=
  match v, w with
  | None, _ => True
  | Some x, Some y => (x <=? y)%float = true
  | Some _, None => False
  end.

Definition band_rank (b : PortfolioRiskBand) : Z :=
  match b with low => 0 | moderate => 1 | elevated => 2 | high => 3 | critical => 4 end.

Fixpoint ascending (lo : Z) (l : list (number * Z)) (fallback : Z) : Prop :=
  match l with
  | [] => lo ≤ fallback
  | e :: l' => lo ≤ snd e ∧ ascending (snd e) l' fallback
  end.

Lemma ascending_weaken lo lo' l fallback : lo ≤ lo' → ascending lo' l fallback → ascending lo l fallback.
Proof. destruct l as [|e l]; cbn; [lia|]. intros ? [? ?]. split; [lia|done]. Qed.

Lemma threshold_ge lo l fallback y :
  ascending lo l fallback → lo ≤ thresholdPoints (Some y) l fallback ≤ fallback.
Proof.
  revert lo. induction l as [|[m p] l IH]; intros lo H; cbn in *; [lia|]. destruct H as [H1 H2].
  specialize (IH p H2). unfold thresholdPoints in IH. destruct (y <=? m)%float; [|lia].
  cbn. lia.
Qed.

(** With ascending points a larger measurement scores at least as much. *)
Lemma thresholdPoints_mono v w l fallback :
  ascending 0 l fallback → measure_le v w →
  thresholdPoints v l fallback ≤ thresholdPoints w l fallback.
Proof.
  intros Ha H. destruct v as [x|], w as [y|]; cbn in H; [|done| |cbn; lia].
  2:{ apply (threshold_ge 0 l fallback y Ha). }
  revert H Ha. generalize 0 as lo. intros lo Hxy. revert lo.
  induction l as [|[m p] l IH]; intros lo Ha; [cbn; lia|]. destruct Ha as [H1 H2].
  unfold thresholdPoints in *. cbn [List.find fst]. destruct (x <=? m)%float eqn:Ex.
  - pose proof (threshold_ge p l fallback y H2) as Hy. unfold thresholdPoints in Hy.
    destruct (y <=? m)%float; [lia|]. cbn [snd]. lia.
  - destruct (y <=? m)%float eqn:Ey; [|by apply (IH p)].
    by rewrite (num_leb_trans _ _ _ Hxy Ey) in Ex.
Qed.

Lemma thresholdPoints_bound v l fallback :
  ascending 0 l fallback → 0 ≤ thresholdPoints v l fallback ≤ fallback.
Proof.
  intros Ha. destruct v as [y|]; [by apply threshold_ge|].
  destruct (threshold_ge 0 l fallback 0%float Ha). cbn. lia.
Qed.

Definition snapshot_le (r1 r2 : PortfolioRiskSnapshot) : Prop :=
  measure_le (grossExposurePct r1) (grossExposurePct r2) ∧
  measure_le (absoluteBeta r1) (absoluteBeta r2) ∧
  measure_le (absoluteDeltaExposurePct r1) (absoluteDeltaExposurePct r2) ∧
  measure_le (positiveDeltaExposurePct r1) (positiveDeltaExposurePct r2) ∧
  measure_le (largestUnderlyingWeight r1) (largestUnderlyingWeight r2) ∧
  measure_le (topFiveUnderlyingWeight r1) (topFiveUnderlyingWeight r2) ∧
  measure_le (nearTermExposurePct r1) (nearTermExposurePct r2) ∧
  measure_le (drawdownPct r1) (drawdownPct r2) ∧
  qualityPoints (dataQualityStatus r1) ≤ qualityPoints (dataQualityStatus r2).

Lemma scoreTotal_sum r g :
  (∀ c, In c (scoreComponents r g) → 0 ≤ points c ≤ maximum c) ∧
  foldl (λ sum c, sum + maximum c) 0 (scoreComponents r g) = 100 ∧
  scoreTotal (scoreComponents r g) = foldl (λ sum c, sum + points c) 0 (scoreComponents r g).
Proof.
  assert (Hb : ∀ c, In c (scoreComponents r g) → 0 ≤ points c ≤ maximum c).
  { intros c Hc. repeat destruct Hc as [<-|Hc]; try done; cbn [points maximum component];
      try (apply thresholdPoints_bound; cbn; lia).
    - destruct (regime g); cbn; lia.
    - destruct (dataQualityStatus r); cbn; lia. }
  split; [done|]. split; [done|]. unfold scoreTotal.
  assert (Hfold : ∀ cs a, (∀ c, In c cs → 0 ≤ points c ≤ maximum c) →
    foldl (λ sum c, sum + Z.min (maximum c) (points c)) a cs = foldl (λ sum c, sum + points c) a cs ∧
    foldl (λ sum c, sum + points c) a cs ≤ foldl (λ sum c, sum + maximum c) a cs).
  { induction cs as [|c cs IH]; intros a Hcs; [done|]. cbn [foldl].
    pose proof (Hcs c (or_introl eq_refl)). rewrite Z.min_r by lia.
    destruct (IH (a + points c) (λ x Hx, Hcs x (or_intror Hx))) as [-> H2]. split; [done|].
    assert (Hm : ∀ l x y, x ≤ y → foldl (λ sum c, sum + maximum c) x l ≤ foldl (λ sum c, sum + maximum c) y l).
    { induction l as [|e l IHl]; intros x y Hxy; cbn [foldl]; [done|]. apply IHl. lia. }
    specialize (Hm cs (a + points c) (a + maximum c) ltac:(lia)). lia. }
  destruct (Hfold (scoreComponents r g) 0 Hb) as [-> H]. rewrite Z.min_r; [done|].
  etransitivity; [exact H|]. done.
Qed.

(** The risk score is a monotone measure from 0 to 100: every component
    lies between 0 and its maximum, the maxima add up to 100 so the caps never
    cut, and when no measurement decreases (an unknown one counting as none)
    and regime and data quality do not improve, neither the total nor the band
    decreases. *)
Theorem risk_score_monotone r1 r2 g1 g2 :
  snapshot_le r1 r2 → regimePoints (regime g1) ≤ regimePoints (regime g2) →
  0 ≤ total (scorePortfolioRisk r1 g1) ≤ total (scorePortfolioRisk r2 g2) ∧
  total (scorePortfolioRisk r2 g2) ≤ 100 ∧
  band_rank (band (scorePortfolioRisk r1 g1)) ≤ band_rank (band (scorePortfolioRisk r2 g2)) ∧
  (∀ c, In c (components (scorePortfolioRisk r1 g1)) → 0 ≤ points c ≤ maximum c).
Proof.
  intros (H1 & H2 & H3 & H4 & H5 & H6 & H7 & H8 & H9) Hg.
  cbn [total band components scorePortfolioRisk].
  destruct (scoreTotal_sum r1 g1) as (Hb1 & _ & E1). destruct (scoreTotal_sum r2 g2) as (Hb2 & _ & E2).
  assert (Hle : scoreTotal (scoreComponents r1 g1) ≤ scoreTotal (scoreComponents r2 g2)).
  { rewrite E1, E2. unfold scoreComponents. cbn [foldl points component].
    repeat (apply Z.add_le_mono; [|first [done|apply thresholdPoints_mono; [cbn; lia|done]]]). done. }
  assert (H0 : 0 ≤ scoreTotal (scoreComponents r1 g1)).
  { rewrite E1. revert Hb1. generalize (scoreComponents r1 g1). intros l Hl.
    assert (Hpos : ∀ a, 0 ≤ a → 0 ≤ foldl (λ sum c, sum + points c) a l); [|by apply Hpos].
    induction l as [|c l IH]; intros a Ha; [done|]. cbn [foldl].
    pose proof (Hl c (or_introl eq_refl)). apply IH; [|lia]. intros x Hx. apply Hl. by right. }
  split_and!; [done..| | |done].
  - unfold scoreTotal. lia.
  - unfold scoreBand. repeat case_match; rewrite ?Z.leb_le, ?Z.leb_gt in *; cbn; lia.
Qed.

(** The score abstains on bad evidence: the effective band is withheld
    exactly when the data quality is blocked, there are blockers, or material
    option coverage is missing; otherwise it is the band of the total, and
    "measured" means complete risk and regime data. *)
Theorem risk_score_abstains r g :
  let s := scorePortfolioRisk r g in
  (effectiveBand s = None ↔
     dataQualityStatus r = blocked_data ∨ blockers r ≠ [] ∨ materialCoverageMissing r = true) ∧
  (∀ b, effectiveBand s = Some b → b = scoreBand (total s)) ∧
  (measurementStatus s = measured →
     dataQualityStatus r = complete ∧ regimeDataQualityStatus g = complete ∧ blockers r = []).
Proof.
  cbn [effectiveBand measurementStatus total scorePortfolioRisk]. unfold scoreMeasurement.
  destruct (bool_decide_reflect (dataQualityStatus r = blocked_data)) as [E1|E1];
    destruct (bool_decide_reflect (blockers r = [])) as [E2|E2]; cbn [orb negb];
    try (split_and!; [split; [by auto|done]|done|done]).
  destruct (materialCoverageMissing r) eqn:E3; [split_and!; [split; auto|done|done]|].
  destruct (bool_decide_reflect (dataQualityStatus r = complete)) as [E4|E4];
    destruct (bool_decide_reflect (regimeDataQualityStatus g = complete)) as [E5|E5]; cbn [andb];
    (split_and!; [split; [done|intros [?|[?|?]]; done]|by intros b [= <-]|done]).
Qed.

Definition demo_risk (gross beta : option number) (q : DataQualityStatus) : PortfolioRiskSnapshot :=
  {| grossExposurePct := gross; portfolioBeta := beta; absoluteDeltaExposurePct := Some 0.3%float;
     positiveDeltaExposurePct := None; largestUnderlyingWeight := Some 0.2%float;
     topFiveUnderlyingWeight := Some 0.6%float; nearTermExposurePct := None;
     drawdownPct := Some 0.04%float; dataQualityStatus := q; blockers := [];
     materialCoverageMissing := false; riskModelVersion := "v1" |}.
Definition demo_regime (m : MarketRegime) : MarketRegimeSnapshot :=
  {| regime := m; regimeDataQualityStatus := complete |}.

Lemma risk_score_monotone_witness :
  total (scorePortfolioRisk (demo_risk (Some 1.1%float) None complete) (demo_regime neutral)) = 29 ∧
  total (scorePortfolioRisk (demo_risk (Some 1.3%float) (Some (-1.1)%float) partial) (demo_regime crisis)) = 52 ∧
  29 ≤ total (scorePortfolioRisk (demo_risk (Some 1.3%float) (Some (-1.1)%float) partial) (demo_regime crisis)).
Proof.
  split; [vm_compute; reflexivity|]. split; [vm_compute; reflexivity|].
  destruct (risk_score_monotone (demo_risk (Some 1.1%float) None complete)
    (demo_risk (Some 1.3%float) (Some (-1.1)%float) partial) (demo_regime neutral) (demo_regime crisis))
    as (H & _); [|vm_compute; discriminate|].
  - unfold snapshot_le. split_and!; try reflexivity; vm_compute; discriminate.
  - assert (E : total (scorePortfolioRisk (demo_risk (Some 1.1%float) None complete) (demo_regime neutral)) = 29)
      by (vm_compute; reflexivity).
    rewrite E in H. exact (proj2 H).
Defined.
