(* ===== verification/OptionSymbol.v ===== *)
(** Option symbols: src/services/optionSymbolService.ts.

    [parseOptionSymbol] reads the OCC format: a root of one to six letters or
    digits, the expiration as yymmdd, C or P, and the strike in thousandths with
    eight digits.  The messages of the failures and the verbatim input are not
    kept. *)

From S2P Require Import Prelude.
From S2P Require Import JsString.
From S2P Require Import JsDate.
From S2P Require Import JsNumber.
From S2P Require Import JsText.
Open Scope Z_scope.

Inductive OptionSymbolParseFailureCode : Set :=
| OPTION_SYMBOL_EMPTY | OPTION_SYMBOL_FORMAT_INVALID | OPTION_EXPIRATION_INVALID
| OPTION_STRIKE_INVALID.

Inductive OptionType : Set := call | put.

Record OptionSymbolParseSuccess := {
  normalizedSymbol : string;
  underlying : string;
  expirationDate : string;
  optionType : OptionType;
  strikePrice : number;
  strikeMilliunits : Z;
  occRoot : string
}.

Inductive OptionSymbolParseResult : Type :=
| ParseSuccess (s : OptionSymbolParseSuccess)
| ParseFailure (code : OptionSymbolParseFailureCode).

(** [Date.UTC] normalises the date; a real date survives. *)
Definition validUtcDate (year month day : Z) : bool :=
  let n := make_day year (month - 1) day in
  (year_from_day n =? year) && (month_from_day n =? month - 1) && (date_from_day n =? day).

Definition normalize (input : string) : string := remove_ws (to_upper (trim input)).

Definition is_root_char (c : ascii) : bool := is_upper c || is_digit c.
Definition is_marker (s : string) : bool := (s =? "C")%string || (s =? "P")%string.

(** The capture groups of
    [/^([A-Z0-9]{1,6})(\d{2})(\d{2})(\d{2})([CP])(\d{8})$/]; the last fifteen
    characters are of fixed length, so the root is what precedes them. *)
Definition split_symbol (s : string) : option (string * string * string * string * string * string) :=
  let n := (String.length s - 15)%nat in
  let root := str_take n s in
  let rest := str_drop n s in
  let yy := str_take 2 rest in
  let mm := str_take 2 (str_drop 2 rest) in
  let dd := str_take 2 (str_drop 4 rest) in
  let marker := str_take 1 (str_drop 6 rest) in
  let strike := str_drop 7 rest in
  if (16 <=? String.length s)%nat && (String.length s <=? 21)%nat && string_forall is_root_char root
     && string_forall is_digit yy && string_forall is_digit mm && string_forall is_digit dd
     && is_marker marker && string_forall is_digit strike
  then Some (root, yy, mm, dd, marker, strike) else None.

Definition parseOptionSymbol (input : string) : OptionSymbolParseResult :=
  let s := normalize input in
  if negb (str_truthy s) then ParseFailure OPTION_SYMBOL_EMPTY
  else match split_symbol s with
  | None => ParseFailure OPTION_SYMBOL_FORMAT_INVALID
  | Some (root, yy, mm, dd, marker, strike) =>
      let year := 2000 + digits_val 0 yy in
      let month := digits_val 0 mm in
      let day := digits_val 0 dd in
      if negb (validUtcDate year month day) then ParseFailure OPTION_EXPIRATION_INVALID
      else
        let milli := digits_val 0 strike in
        if negb (milli <=? MAX_SAFE_INTEGER) || (milli <? 0) then ParseFailure OPTION_STRIKE_INVALID
        else ParseSuccess
          {| normalizedSymbol := s; occRoot := root; underlying := root;
             expirationDate := (nat_text year ++ "-" ++ mm ++ "-" ++ dd)%string;
             optionType := if (marker =? "C")%string then call else put;
             strikeMilliunits := milli; strikePrice := (num_of_Z milli / 1000)%float |}
  end.

(** [utcDay] of an instant, in days; [None] is an invalid date. *)
Definition utcDay (instant : option Z) : option Z := (λ t, t / MS_PER_DAY) <$> instant.

(** [asOf] is parsed already. *)
Definition optionDaysToExpiration (expiration : string) (asOf : option Z) : option Z :=
  match parse_iso_day expiration, utcDay asOf with
  | Some e, Some c => Some (e - c)
  | _, _ => None
  end.

Example parse_spy : parseOptionSymbol " spy 280119c00450500 " =
  ParseSuccess {| normalizedSymbol := "SPY280119C00450500"; underlying := "SPY";
                  expirationDate := "2028-01-19"; optionType := call; strikePrice := 450.5%float;
                  strikeMilliunits := 450500; occRoot := "SPY" |}.
Proof. vm_compute. reflexivity. Qed.
Example parse_no_leap_day : parseOptionSymbol "SPY270229C00450000" = ParseFailure OPTION_EXPIRATION_INVALID.
Proof. vm_compute. reflexivity. Qed.
Example parse_long_root : parseOptionSymbol "ABCDEFG280119C00450000" = ParseFailure OPTION_SYMBOL_FORMAT_INVALID.
Proof. vm_compute. reflexivity. Qed.

(** ** The format *)

Definition marker_text (t : OptionType) : string := match t with call => "C" | put => "P" end.

(** The symbol of a contract. *)
Definition occ_symbol (root : string) (y m d : Z) (t : OptionType) (milli : Z) : string :=
  (root ++ last_digits 2 (y - 2000) "" ++ last_digits 2 m "" ++ last_digits 2 d "" ++ marker_text t ++
   last_digits 8 milli "")%string.

Definition occ_root (root : string) : Prop :=
  (1 ≤ String.length root ≤ 6)%nat ∧ string_forall is_root_char root = true.

Definition occ_date (y m d : Z) : Prop :=
  2000 ≤ y ≤ 2099 ∧ 1 ≤ m ≤ 12 ∧ 1 ≤ d ≤ days_in_month y (m - 1).

(** ** Splitting *)

#[local] Arguments str_take : simpl never.
#[local] Arguments str_drop : simpl never.

(** Capture groups of a match of the format. *)
Definition groups_ok (root yy mm dd marker strike : string) : Prop :=
  occ_root root ∧
  (String.length yy = 2 ∧ String.length mm = 2 ∧ String.length dd = 2 ∧ String.length marker = 1 ∧
   String.length strike = 8)%nat ∧
  string_forall is_digit yy = true ∧ string_forall is_digit mm = true ∧
  string_forall is_digit dd = true ∧ is_marker marker = true ∧ string_forall is_digit strike = true.

Lemma split_symbol_join root yy mm dd marker strike :
  groups_ok root yy mm dd marker strike →
  split_symbol (root ++ yy ++ mm ++ dd ++ marker ++ strike)%string = Some (root, yy, mm, dd, marker, strike).
Proof.
  intros ([Hr Hroot] & (H1 & H2 & H3 & H4 & H5) & Hy & Hm & Hd & Hk & Hs). unfold split_symbol.
  rewrite !str_length_app, H1, H2, H3, H4, H5.
  replace (String.length root + (2 + (2 + (2 + (1 + 8)))) - 15)%nat with (String.length root) by lia.
  rewrite (str_take_app _ root), (str_drop_app _ root) by done.
  set (rest := (yy ++ mm ++ dd ++ marker ++ strike)%string).
  assert (E2 : str_drop 2 rest = (mm ++ dd ++ marker ++ strike)%string) by by apply str_drop_app.
  assert (E4 : str_drop 4 rest = (dd ++ marker ++ strike)%string)
    by (rewrite <- (str_drop_drop 2 2), E2; by apply str_drop_app).
  assert (E6 : str_drop 6 rest = (marker ++ strike)%string)
    by (rewrite <- (str_drop_drop 2 4), E4; by apply str_drop_app).
  assert (E7 : str_drop 7 rest = strike)
    by (rewrite <- (str_drop_drop 1 6), E6; by apply str_drop_app).
  rewrite E2, E4, E6, E7. unfold rest. rewrite (str_take_app 2 yy), (str_take_app 2 mm), (str_take_app 2 dd),
    (str_take_app 1 marker) by done.
  rewrite Hroot, Hy, Hm, Hd, Hk, Hs.
  by rewrite (proj2 (Nat.leb_le _ _)), (proj2 (Nat.leb_le _ _)) by lia.
Qed.

Lemma split_symbol_groups s root yy mm dd marker strike :
  split_symbol s = Some (root, yy, mm, dd, marker, strike) →
  s = (root ++ yy ++ mm ++ dd ++ marker ++ strike)%string ∧ groups_ok root yy mm dd marker strike.
Proof.
  unfold split_symbol. intros H. destruct (_ && _) eqn:Hc in H; [|done].
  rewrite !andb_true_iff, !Nat.leb_le in Hc. destruct Hc as [[[[[[[? ?] Hr] Hy] Hm] Hd] Hk] Hs].
  injection H as <- <- <- <- <- <-. split.
  - rewrite <- (str_take_drop (String.length s - 15) s) at 1. f_equal. set (r := str_drop _ s).
    rewrite <- (str_take_drop 2 r) at 1. f_equal.
    rewrite <- (str_take_drop 2 (str_drop 2 r)) at 1. f_equal. rewrite str_drop_drop.
    rewrite <- (str_take_drop 2 (str_drop (2 + 2) r)) at 1. f_equal. rewrite str_drop_drop.
    rewrite <- (str_take_drop 1 (str_drop (2 + 2 + 2) r)) at 1. f_equal. apply str_drop_drop.
  - assert (Hn : String.length (str_drop (String.length s - 15) s) = 15%nat)
      by (rewrite str_drop_length; lia).
    split; [split; [rewrite str_take_length; lia|done]|].
    split; [|done]. rewrite !str_take_length, str_drop_length, Hn; rewrite ?str_drop_length, ?Hn; lia.
Qed.

(** ** The round trip *)

Lemma normalized_root c : is_root_char c = true → is_ws c = false ∧ upper_char c = c.
Proof. by destruct c as [[] [] [] [] [] [] [] []]. Qed.

Lemma year_text y : 2000 ≤ y ≤ 2099 → nat_text y = ("20" ++ last_digits 2 (y - 2000) "")%string.
Proof.
  intros Hy. assert (Hall : forallb (λ k, (nat_text (2000 + Z.of_nat k) =?
    "20" ++ last_digits 2 (Z.of_nat k) "")%string) (seq 0 100) = true) by by vm_compute.
  rewrite forallb_forall in Hall. specialize (Hall (Z.to_nat (y - 2000))).
  rewrite String.eqb_eq, Z2Nat.id in Hall by lia.
  replace (2000 + (y - 2000)) with y in Hall by lia. apply Hall. apply in_seq. lia.
Qed.

Lemma two_digits z : 0 ≤ z < 100 →
  ∃ a b, last_digits 2 z "" = String a (String b "") ∧ is_digit a = true ∧ is_digit b = true ∧
    10 * digit_val a + digit_val b = z.
Proof.
  intros Hz. exists (digit_char (z / 10 mod 10)), (digit_char (z mod 10)).
  destruct (digit_char_cases (z / 10 mod 10)) as [H1 H2]; [apply Z.mod_pos_bound; lia|].
  destruct (digit_char_cases (z mod 10)) as [H3 H4]; [apply Z.mod_pos_bound; lia|].
  split_and!; [done..|]. rewrite H2, H4. rewrite (Z.mod_small (z / 10)).
  - pose proof (Z.div_mod z 10). lia.
  - split; [apply Z.div_pos; lia|apply Z.div_lt_upper_bound; lia].
Qed.

Definition expiration_text (y m d : Z) : string :=
  (nat_text y ++ "-" ++ last_digits 2 m "" ++ "-" ++ last_digits 2 d "")%string.

Lemma days_in_month_le y m : 0 ≤ m ≤ 11 → days_in_month y m ≤ 31.
Proof.
  intros Hm. unfold days_in_month. destruct (is_leap y);
    apply month_range in Hm; repeat destruct Hm as [->|Hm]; subst; month_values; lia.
Qed.

Lemma parse_expiration_text y m d :
  occ_date y m d → parse_iso_day (expiration_text y m d) = Some (make_day y (m - 1) d).
Proof.
  intros (Hy & Hm & Hd). pose proof (days_in_month_le y (m - 1) ltac:(lia)).
  unfold expiration_text. rewrite year_text by done.
  destruct (two_digits (y - 2000) ltac:(lia)) as (y1 & y2 & -> & Hy1 & Hy2 & Ey).
  destruct (two_digits m ltac:(lia)) as (m1 & m2 & -> & Hm1 & Hm2 & Em).
  destruct (two_digits d ltac:(lia)) as (d1 & d2 & -> & Hd1 & Hd2 & Ed).
  unfold parse_iso_day.
  assert (split_iso_date (String "2" (String "0" (String y1 (String y2 (String "-" (String m1 (String m2
    (String "-" (String d1 (String d2 "")))))))))) = Some (y, m, d)) as Hs.
  { unfold split_iso_date. cbn [forallb]. rewrite Hy1, Hy2, Hm1, Hm2, Hd1, Hd2. cbn [andb].
    change ("-" =? "-")%char with true. change (is_digit "2") with true. change (is_digit "0") with true.
    cbn [andb string_of_list_ascii digits_val]. change (digit_val "2") with 2. change (digit_val "0") with 0.
    do 2 f_equal; [f_equal|]; lia. }
  change (("20" ++ String y1 (String y2 "")) ++ "-" ++ String m1 (String m2 "") ++ "-" ++
    String d1 (String d2 ""))%string with (String "2" (String "0" (String y1 (String y2 (String "-"
    (String m1 (String m2 (String "-" (String d1 (String d2 "")))))))))).
  rewrite Hs. by rewrite !(proj2 (Z.leb_le _ _)) by lia.
Qed.

(** What the parser returns for the symbol of a contract. *)
Definition occ_contract (root : string) (y m d : Z) (t : OptionType) (milli : Z) : OptionSymbolParseSuccess :=
  {| normalizedSymbol := occ_symbol root y m d t milli; underlying := root;
     expirationDate := expiration_text y m d; optionType := t;
     strikePrice := (num_of_Z milli / 1000)%float; strikeMilliunits := milli; occRoot := root |}.

Lemma digits_root s : string_forall is_digit s = true → string_forall is_root_char s = true.
Proof. apply string_forall_impl. intros c Hc. unfold is_root_char. by rewrite Hc, orb_true_r. Qed.

Lemma occ_symbol_chars root y m d t milli :
  occ_root root → string_forall is_root_char (occ_symbol root y m d t milli) = true.
Proof.
  intros [_ Hr]. unfold occ_symbol. rewrite !string_forall_app, Hr.
  rewrite !(digits_root (last_digits _ _ _)) by apply last_digits_digit. by destruct t.
Qed.

Lemma normalize_root s : string_forall is_root_char s = true → normalize s = s.
Proof.
  intros Hs. unfold normalize. rewrite trim_no_ws.
  2:{ revert Hs. apply string_forall_impl. intros c Hc. by destruct (normalized_root c Hc) as [-> _]. }
  induction s as [|c s IH]; [done|]. cbn [string_forall] in Hs. apply andb_prop in Hs as [Hc Hs].
  destruct (normalized_root c Hc) as [Hw Hu]. unfold to_upper. cbn [string_map remove_ws].
  rewrite Hu, Hw. exact (f_equal (String c) (IH Hs)).
Qed.

Lemma validUtcDate_spec y m d : validUtcDate y m d = true ↔ 1 ≤ m ≤ 12 ∧ 1 ≤ d ≤ days_in_month y (m - 1).
Proof.
  unfold validUtcDate. rewrite !andb_true_iff, !Z.eqb_eq. split.
  - intros [[Hy Hm] Hd]. pose proof (month_from_day_range (make_day y (m - 1) d)).
    pose proof (date_from_day_range (make_day y (m - 1) d)) as Hr. rewrite Hy, Hm, Hd in Hr. lia.
  - intros [Hm Hd]. by destruct (make_day_decode y (m - 1) d ltac:(lia) Hd) as (-> & -> & ->).
Qed.

(** A field of [n] digits, read and printed. *)
Lemma field_value n s :
  String.length s = n → string_forall is_digit s = true →
  0 ≤ digits_val 0 s < 10 ^ Z.of_nat n ∧ last_digits n (digits_val 0 s) "" = s.
Proof.
  intros <- Hs. split; [apply (digits_val_linear s 0 Hs)|by apply last_digits_of_text].
Qed.

Lemma field_of_number n z : 0 ≤ z < 10 ^ Z.of_nat n → digits_val 0 (last_digits n z "") = z.
Proof. intros Hz. rewrite last_digits_val by lia. rewrite Z.mod_small by lia. lia. Qed.

Lemma parse_of_groups s root y m d t milli :
  occ_root root → occ_date y m d → 0 ≤ milli < 10 ^ 8 → normalize s = occ_symbol root y m d t milli →
  parseOptionSymbol s = ParseSuccess (occ_contract root y m d t milli).
Proof.
  intros Hroot (Hy & Hm & Hd) Hmilli Hn. unfold parseOptionSymbol. rewrite Hn.
  pose proof (days_in_month_le y (m - 1) ltac:(lia)).
  assert (str_truthy (occ_symbol root y m d t milli) = true) as ->.
  { destruct Hroot as [[Hl _] _]. unfold occ_symbol. by destruct root; [cbn in Hl; lia|]. }
  unfold occ_symbol. rewrite split_symbol_join.
  2:{ repeat apply conj; try apply Hroot; try apply last_digits_length; try apply last_digits_digit;
        by destruct t. }
  rewrite !field_of_number by (cbn; lia). replace (2000 + (y - 2000)) with y by lia.
  rewrite (proj2 (validUtcDate_spec y m d)) by done. cbn [negb].
  unfold MAX_SAFE_INTEGER. rewrite (proj2 (Z.leb_le _ _)), (proj2 (Z.ltb_ge _ _)) by lia.
  cbn [negb orb]. unfold occ_contract, occ_symbol, expiration_text. by destruct t.
Qed.

Lemma parse_inv s r :
  parseOptionSymbol s = ParseSuccess r →
  ∃ root y m d t milli, occ_root root ∧ occ_date y m d ∧ 0 ≤ milli < 10 ^ 8 ∧
    normalize s = occ_symbol root y m d t milli.
Proof.
  unfold parseOptionSymbol. destruct (str_truthy _); [|done]. cbn [negb].
  destruct (split_symbol _) as [[[[[[root yy] mm] dd] k] strike]|] eqn:Hs; [|done].
  destruct (validUtcDate _ _ _) eqn:Hv; [|done]. intros _.
  apply split_symbol_groups in Hs as [-> (Hr & (H1 & H2 & H3 & H4 & H5) & Hy & Hm & Hd & Hk & Hst)].
  apply validUtcDate_spec in Hv.
  destruct (field_value 2 yy H1 Hy) as [By Ey], (field_value 2 mm H2 Hm) as [Bm Em],
    (field_value 2 dd H3 Hd) as [Bd Ed], (field_value 8 strike H5 Hst) as [Bs Es].
  exists root, (2000 + digits_val 0 yy), (digits_val 0 mm), (digits_val 0 dd),
    (if (k =? "C")%string then call else put), (digits_val 0 strike).
  split; [done|]. split; [unfold occ_date; cbn in By; lia|]. split; [exact Bs|].
  unfold occ_symbol. replace (2000 + digits_val 0 yy - 2000) with (digits_val 0 yy) by lia.
  rewrite Ey, Em, Ed, Es. do 4 f_equal. apply orb_prop in Hk as [Hk|Hk];
    apply String.eqb_eq in Hk; by subst.
Qed.

(** the inputs [parseOptionSymbol] accepts are, after trimming, upper-casing
    and dropping white space, exactly the symbols of contracts: a root of one to
    six capitals and digits, a real calendar date of the years 2000 to 2099, a
    marker and a strike of at most eight digits of thousandths; and the result
    has the fields of that contract. *)
Theorem option_symbol_format input r :
  parseOptionSymbol input = ParseSuccess r ↔
  ∃ root y m d t milli,
    occ_root root ∧ occ_date y m d ∧ 0 ≤ milli < 10 ^ 8 ∧
    normalize input = occ_symbol root y m d t milli ∧ r = occ_contract root y m d t milli.
Proof.
  split.
  - intros H. destruct (parse_inv _ _ H) as (root & y & m & d & t & milli & Hr & Hd & Hs & Hn).
    exists root, y, m, d, t, milli. repeat split; try apply Hr; try apply Hd; try apply Hs; try done.
    rewrite (parse_of_groups _ _ _ _ _ _ _ Hr Hd Hs Hn) in H. by injection H as <-.
  - intros (root & y & m & d & t & milli & Hr & Hd & Hs & Hn & ->). by apply parse_of_groups.
Qed.

(** C39: printing a contract as an OCC symbol and parsing it returns the
    contract, and its days to expiration from an instant are the difference of
    the two calendar days. *)
Theorem option_symbol_roundtrip root y m d t milli now :
  occ_root root → occ_date y m d → 0 ≤ milli < 10 ^ 8 →
  parseOptionSymbol (occ_symbol root y m d t milli) = ParseSuccess (occ_contract root y m d t milli) ∧
  optionDaysToExpiration (expirationDate (occ_contract root y m d t milli)) (Some now) =
    Some (make_day y (m - 1) d - now / MS_PER_DAY).
Proof.
  intros Hr Hd Hs. split.
  - apply parse_of_groups; [done..|]. by apply normalize_root, occ_symbol_chars.
  - unfold optionDaysToExpiration. change (expirationDate _) with (expiration_text y m d).
    by rewrite parse_expiration_text.
Qed.

Lemma option_symbol_roundtrip_witness :
  parseOptionSymbol (occ_symbol "SPY" 2028 2 29 put 450500) = ParseSuccess (occ_contract "SPY" 2028 2 29 put 450500) ∧
  optionDaysToExpiration (expirationDate (occ_contract "SPY" 2028 2 29 put 450500)) (Some 1835308800000) =
    Some (make_day 2028 1 29 - 1835308800000 / MS_PER_DAY).
Proof.
  apply (option_symbol_roundtrip "SPY" 2028 2 29 put 450500 1835308800000);
    [split; [cbn; lia|reflexivity]|unfold occ_date; vm_compute; intuition discriminate|lia].
Defined.
