(* ===== verification/JsJson.v ===== *)
(** JSON documents as the program reads them: the values of [JSON.parse], the
    conversions of the language applied to them, the [->>] operator of the
    database, and the time stamps found in them.

    A number keeps its text, as jsonb does; JavaScript sees the binary64 value
    nearest to it.  [None] stands for [undefined], a missing field. *)

From S2P Require Import Prelude.
From S2P Require Import JsString.
From S2P Require Import JsDate.
From S2P Require Import JsNumber.
From S2P Require Import JsText.
Open Scope Z_scope.

Unset Elimination Schemes.
Inductive jvalue : Type :=
| JNull
| JBool (b : bool)
| JNum (text : string)
| JStr (s : string)
| JArr (items : list jvalue)
| JObj (entries : list (string * jvalue)).
Set Elimination Schemes.

(** Documents are trees: what holds of the parts holds of the whole. *)
Lemma jvalue_ind (P : jvalue → Prop) :
  P JNull → (∀ b, P (JBool b)) → (∀ t, P (JNum t)) → (∀ s, P (JStr s)) →
  (∀ l, Forall P l → P (JArr l)) → (∀ l, Forall (λ e, P (snd e)) l → P (JObj l)) →
  ∀ v, P v.
Proof.
  intros Hn Hb Hm Hs Ha Ho. fix IH 1. intros [|b|t|s|l|l]; [done|auto..| |].
  - apply Ha. induction l as [|v l IHl]; constructor; [apply IH|apply IHl].
  - apply Ho. induction l as [|v l IHl]; constructor; [apply IH|apply IHl].
Qed.

(** ** Fields *)

Definition field (entries : list (string * jvalue)) (key : string) : option jvalue :=
  snd <$> select_one (λ e, (fst e =? key)%string) entries.

(** An object that is neither null nor an array, or [null]. *)
Definition record (v : option jvalue) : option (list (string * jvalue)) :=
  match v with Some (JObj l) => Some l | _ => None end.

(** [a ?? b] *)
Definition nullish (a b : option jvalue) : option jvalue :=
  match a with None | Some JNull => b | Some _ => a end.

(** [String(v)]; the elements of an array are joined, null as the empty text. *)
Fixpoint js_string (v : jvalue) : string :=
  match v with
  | JNull => "null"
  | JBool b => if b then "true" else "false"
  | JNum t => num_text (num_of_text t)
  | JStr s => s
  | JArr l => String.concat "," (map (λ x, match x with JNull => EmptyString | _ => js_string x end) l)
  | JObj _ => "[object Object]"
  end.

(** [Number(v)] *)
Definition js_number (v : option jvalue) : number :=
  match v with
  | None | Some (JObj _) => nan
  | Some JNull => zero
  | Some (JBool b) => if b then one else zero
  | Some (JNum t) => num_of_text t
  | Some (JStr s) => num_of_text s
  | Some (JArr l) => num_of_text (js_string (JArr l))
  end.

Definition js_truthy (v : option jvalue) : bool :=
  match v with
  | None | Some JNull => false
  | Some (JBool b) => b
  | Some (JNum t) => num_truthy (num_of_text t)
  | Some (JStr s) => str_truthy s
  | Some (JArr _) | Some (JObj _) => true
  end.

(** [a || b] *)
Definition js_or (a b : option jvalue) : option jvalue := if js_truthy a then a else b.

(** ** Text of documents *)

Definition quote_char : ascii := Ascii.ascii_of_nat 34.

(** The characters of a JSON string without control characters. *)
Fixpoint escaped (s : string) : string :=
  match s with
  | EmptyString => EmptyString
  | String c s' =>
      if (c =? quote_char)%char || (c =? "\")%char
      then String "\" (String c (escaped s')) else String c (escaped s')
  end.
Definition quoted (s : string) : string :=
  String quote_char (escaped s ++ String quote_char EmptyString)%string.

Section document_text.
Context (number_text : string → string) (comma colon : string).

Fixpoint document_text (v : jvalue) : string :=
  match v with
  | JNull => "null"
  | JBool b => if b then "true" else "false"
  | JNum t => number_text t
  | JStr s => quoted s
  | JArr l => ("[" ++ String.concat comma (map document_text l) ++ "]")%string
  | JObj l => ("{" ++ String.concat comma
                 (map (λ e, (quoted (fst e) ++ colon ++ document_text (snd e))%string) l) ++ "}")%string
  end.
End document_text.

(** [JSON.stringify(v)] *)
Definition json_stringify : jvalue → string := document_text (λ t, num_text (num_of_text t)) "," ":".

(** The text of a jsonb value, and [document->>key] (NULL for a JSON null). *)
Definition jsonb_text : jvalue → string := document_text (λ t, t) ", " ": ".
Definition field_text (document : jvalue) (key : string) : option string :=
  match document with
  | JObj l =>
      match field l key with
      | None | Some JNull => None
      | Some (JStr s) => Some s
      | Some v => Some (jsonb_text v)
      end
  | _ => None
  end.

(** [/a|b|.../.test(s)] for alternatives without special characters. *)
Definition includes_any (needles : list string) (s : string) : bool :=
  existsb (λ n, match String.index 0 n s with Some _ => true | None => false end) needles.

(** ** Time stamps *)

(** Two digits within [0, limit]. *)
Definition two_digits (limit : Z) (s : string) : option (Z * string) :=
  match s with
  | String a (String b r) =>
      let n := 10 * digit_val a + digit_val b in
      if is_digit a && is_digit b && (n <=? limit) then Some (n, r) else None
  | _ => None
  end.

(** Milliseconds of a fraction: its first three digits. *)
Definition fraction_ms (d : string) : Z := digits_val 0 (str_take 3 (d ++ "000")%string).

(** [:ss] and [.fff], both optional. *)
Definition seconds_part (s : string) : option (Z * string) :=
  match s with
  | String ":" r =>
      match two_digits 59 r with
      | Some (sec, String "." f) =>
          let '(d, rest) := span_digits f in
          if str_truthy d then Some (sec * 1000 + fraction_ms d, rest) else None
      | Some (sec, rest) => Some (sec * 1000, rest)
      | None => None
      end
  | _ => Some (0, s)
  end.

(** [Z] or [±hh:mm]; without it the time is local. *)
Definition offset_part (s : string) : option Z :=
  match s with
  | String "Z" EmptyString => Some 0
  | String c r =>
      if (c =? "+")%char || (c =? "-")%char then
        match two_digits 23 r with
        | Some (h, String ":" r') =>
            match two_digits 59 r' with
            | Some (m, EmptyString) => Some (signed (c =? "-")%char ((h * 60 + m) * 60000))
            | _ => None
            end
        | _ => None
        end
      else None
  | EmptyString => None
  end.

Definition clock_part (s : string) : option Z :=
  match two_digits 23 s with
  | Some (h, String ":" r) =>
      match two_digits 59 r with
      | Some (m, r') =>
          match seconds_part r' with
          | Some (ms, z) => (λ o, (h * 60 + m) * 60000 + ms - o) <$> offset_part z
          | None => None
          end
      | None => None
      end
  | _ => None
  end.

(** The ISO 8601 forms whose meaning does not depend on the time zone. *)
Definition iso_timestamp (s : string) : option Z :=
  match parse_iso_day (str_take 10 s), str_drop 10 s with
  | Some day, EmptyString => Some (day * MS_PER_DAY)
  | Some day, String "T" r => (λ ms, day * MS_PER_DAY + ms) <$> clock_part r
  | _, _ => None
  end.

(** [Date.parse(s)]; what other texts mean is up to the engine and its zone. *)
Definition date_parse (other_format : string → option Z) (s : string) : option Z :=
  match iso_timestamp s with Some t => Some t | None => other_format s end.

(** [new Date(t).toISOString()] for years of four digits. *)
Definition iso_text (t : Z) : string :=
  let day := t / MS_PER_DAY in let ms := t mod MS_PER_DAY in
  (padded_text 4 (year_from_day day) ++ "-" ++ padded_text 2 (month_from_day day + 1) ++ "-"
   ++ padded_text 2 (date_from_day day) ++ "T" ++ padded_text 2 (ms / 3600000) ++ ":"
   ++ padded_text 2 (ms / 60000 mod 60) ++ ":" ++ padded_text 2 (ms / 1000 mod 60) ++ "."
   ++ padded_text 3 (ms mod 1000) ++ "Z")%string.

Example iso_midnight : iso_timestamp "2026-01-02" = Some 1767312000000.
Proof. vm_compute. reflexivity. Qed.
Example iso_zulu : iso_timestamp "2026-01-02T14:30:05.1239Z" = Some 1767364205123.
Proof. vm_compute. reflexivity. Qed.
Example iso_offset : iso_timestamp "2026-01-02T09:30-05:00" = iso_timestamp "2026-01-02T14:30:00Z".
Proof. vm_compute. reflexivity. Qed.
Example iso_local : iso_timestamp "2026-01-02T09:30" = None.
Proof. vm_compute. reflexivity. Qed.
Example iso_printed : iso_text 1767364205123 = "2026-01-02T14:30:05.123Z"%string.
Proof. vm_compute. reflexivity. Qed.
Example number_of_array : js_number (Some (JArr [JStr " 5 "])) = (5)%float.
Proof. vm_compute. reflexivity. Qed.
Example text_of_document :
  json_stringify (JObj [("a", JArr [JNum "1.50"; JNull]); ("b", JBool true)]%string) =
  String.concat "" ["{"; quoted "a"; ":[1.5,null],"; quoted "b"; ":true}"]%string.
Proof. vm_compute. reflexivity. Qed.
