(* ===== verification/CanonicalJson.v ===== *)
(** Canonical JSON: src/lib/canonicalJson.ts.

    [canonicalizeJson] sorts the entries of every object, so that the hash of a
    document does not depend on the order in which its fields were written.
    [localeCompare] belongs to the engine: [le x y] stands for
    [x.localeCompare(y) <= 0].  [Object.fromEntries] keeps the order of the
    entries, except that keys that are array indices come first, ascending. *)

From S2P Require Import Prelude.
From S2P Require Import JsString.
From S2P Require Import JsDate.
From S2P Require Import JsText.
From S2P Require Import JsJson.
Open Scope Z_scope.

(** A key that is an array index, as a number. *)
Definition array_index (key : string) : option Z :=
  let n := digits_val 0 key in
  if str_truthy key && string_forall is_digit key && (nat_text n =? key)%string && (n <? 2 ^ 32 - 1)
  then Some n else None.

Definition index_before (a b : string * jvalue) : bool :=
  match array_index (fst a), array_index (fst b) with
  | Some x, Some y => x <=? y
  | _, _ => false
  end.

Definition is_index (e : string * jvalue) : bool :=
  match array_index (fst e) with Some _ => true | None => false end.

(** The properties of an object in the order in which they are enumerated. *)
Definition own_entries (entries : list (string * jvalue)) : list (string * jvalue) :=
  sort_by index_before (List.filter is_index entries) ++ List.filter (λ e, negb (is_index e)) entries.

Section canonical.
Context (le : string → string → bool).

Definition entry_le (a b : string * jvalue) : bool := le (fst a) (fst b).

Fixpoint canonicalizeJson (v : jvalue) : jvalue :=
  match v with
  | JArr l => JArr (map canonicalizeJson l)
  | JObj l => JObj (own_entries (sort_by entry_le (map (λ e, (fst e, canonicalizeJson (snd e))) l)))
  | _ => v
  end.

Context (sha256 : string → string).
Definition canonicalJsonHash (v : jvalue) : string := sha256 (json_stringify (canonicalizeJson v)).

(** ** Documents up to the order of fields *)

(** The same document, the fields of its objects in any order. *)
Unset Elimination Schemes.
Inductive same_json : jvalue → jvalue → Prop :=
| same_json_refl v : same_json v v
| same_json_arr l m : Forall2 same_json l m → same_json (JArr l) (JArr m)
| same_json_obj l m n :
    Forall2 (λ a b, fst a = fst b ∧ same_json (snd a) (snd b)) l m → m ≡ₚ n →
    same_json (JObj l) (JObj n).
Set Elimination Schemes.

(** The keys of every object are different, and in [K]. *)
Context (K : string → Prop).
Fixpoint well_keyed (v : jvalue) : Prop :=
  match v with
  | JArr l => (fix all l := match l with [] => True | x :: l' => well_keyed x ∧ all l' end) l
  | JObj l => NoDup (map fst l) ∧ Forall K (map fst l)
              ∧ (fix all l := match l with [] => True | (_, x) :: l' => well_keyed x ∧ all l' end) l
  | _ => True
  end.

Lemma well_keyed_arr l : well_keyed (JArr l) ↔ Forall well_keyed l.
Proof.
  induction l as [|x l IH]; [by split|]. rewrite Forall_cons, <- IH. reflexivity.
Qed.

Lemma well_keyed_obj l :
  well_keyed (JObj l) ↔ NoDup (map fst l) ∧ Forall K (map fst l) ∧ Forall (λ e, well_keyed (snd e)) l.
Proof.
  cbn [well_keyed]. do 2 (apply and_iff_compat_l).
  induction l as [|[k x] l IH]; [by split|]. rewrite Forall_cons, <- IH. reflexivity.
Qed.

Lemma own_entries_perm l : own_entries l ≡ₚ l.
Proof.
  unfold own_entries. rewrite sort_by_perm. induction l as [|e l IH]; [done|]. simpl.
  destruct (is_index e); simpl; [by rewrite IH|]. rewrite <- Permutation_middle. by rewrite IH.
Qed.

Context (le_total : ∀ x y, le x y = true ∨ le y x = true).
Context (le_trans : ∀ x y z, le x y = true → le y z = true → le x z = true).
Context (le_antisym : ∀ x y, K x → K y → le x y = true → le y x = true → x = y).

Lemma sort_entries_unique l m :
  NoDup (map fst l) → Forall K (map fst l) → l ≡ₚ m → sort_by entry_le l = sort_by entry_le m.
Proof using le_total le_trans le_antisym.
  intros Hd HK Hp. rewrite Forall_forall in HK.
  apply sort_by_perm_eq; [intros; apply le_total|intros x y z; apply le_trans| |done].
  intros x y Hx Hy H1 H2. apply (unique_key fst l); [done..|].
  apply le_antisym; try done; apply HK, list_elem_of_In, in_map; done.
Qed.

Lemma canonicalize_same v w : same_json v w → well_keyed v → canonicalizeJson v = canonicalizeJson w.
Proof using le_total le_trans le_antisym.
  revert w. induction v as [| | | |l IH|l IH] using jvalue_ind; intros w Hs Hk;
    inversion Hs as [|l' m Hlm|l' m n Hlm Hp]; subst; try done; cbn [canonicalizeJson]; f_equal.
  - apply well_keyed_arr in Hk. clear Hs. induction Hlm as [|x y l m Hxy Hlm IHl]; [done|].
    apply Forall_cons in IH as [IHx IH]. apply Forall_cons in Hk as [Hx Hk]. simpl. f_equal; [by apply IHx|auto].
  - apply well_keyed_obj in Hk as (Hd & HK & Hk). f_equal.
    set (f := λ e : string * jvalue, (fst e, canonicalizeJson (snd e))).
    assert (map f l = map f m) as Heq.
    { clear Hs Hd HK Hp. induction Hlm as [|x y l m [Hf Hxy] Hlm IHl]; [done|].
      apply Forall_cons in IH as [IHx IH]. apply Forall_cons in Hk as [Hx Hk]. simpl.
      f_equal; [|auto]. unfold f. by rewrite Hf, (IHx _ Hxy Hx). }
    rewrite Heq. assert (map fst (map f m) = map fst l) as Hkeys.
    { rewrite <- Heq, map_map. done. }
    apply sort_entries_unique; [by rewrite Hkeys..|]. by rewrite Hp.
Qed.

Lemma canonicalize_content v : same_json v (canonicalizeJson v).
Proof.
  induction v as [| | | |l IH|l IH] using jvalue_ind; try constructor.
  - induction IH as [|x l Hx _ IHl]; constructor; done.
  - cbn [canonicalizeJson]. apply (same_json_obj _ (map (λ e, (fst e, canonicalizeJson (snd e))) l)).
    + induction IH as [|x l Hx _ IHl]; constructor; done.
    + by rewrite own_entries_perm, sort_by_perm.
Qed.

(** The canonical form of a document has its content, and the hash does not
    depend on the order in which the fields were written: documents that differ
    in the order of fields only, at any depth, have the same canonical form and
    hash, and canonicalising again changes nothing. *)
Theorem canonical_hash_ignores_field_order v w :
  well_keyed v → same_json v w →
  canonicalJsonHash v = canonicalJsonHash w ∧ same_json v (canonicalizeJson v) ∧
  canonicalizeJson (canonicalizeJson v) = canonicalizeJson v.
Proof using le_total le_trans le_antisym.
  intros Hk Hs. split_and!.
  - unfold canonicalJsonHash. by rewrite (canonicalize_same _ _ Hs Hk).
  - apply canonicalize_content.
  - symmetry. apply canonicalize_same; [apply canonicalize_content|done].
Qed.
End canonical.

(** Two writings of one order, with keys in code unit order. *)
Lemma canonical_hash_ignores_field_order_witness :
  let v := JObj [("symbol", JStr "SPY"); ("limits", JObj [("b", JNum "2.0"); ("a", JNum "1")])]%string in
  let w := JObj [("limits", JObj [("a", JNum "1"); ("b", JNum "2.0")]); ("symbol", JStr "SPY")]%string in
  canonicalJsonHash String.leb (λ s, s) v = canonicalJsonHash String.leb (λ s, s) w.
Proof.
  intros v w.
  refine (proj1 (canonical_hash_ignores_field_order String.leb (λ s, s) (λ _, True) _ _ _ v w _ _)).
  - intros x y. destruct (String.leb_total x y) as [H|H]; [by left|by right].
  - exact leb_trans.
  - intros x y _ _. exact (String.leb_antisym x y).
  - assert (∀ l : list string, bool_decide (NoDup l) = true → NoDup l) as dec by (intros l; apply bool_decide_eq_true_1).
    split; [by apply dec|]. split; [by repeat constructor|]. split; [done|]. split; [|done].
    split; [by apply dec|]. split; [by repeat constructor|]. by repeat split.
  - apply (same_json_obj _ [("symbol", JStr "SPY"); ("limits", JObj [("a", JNum "1"); ("b", JNum "2.0")])]%string).
    + constructor; [split; [done|constructor]|]. constructor; [split; [done|]|constructor].
      apply (same_json_obj _ [("b", JNum "2.0"); ("a", JNum "1")]%string); [repeat constructor|].
      constructor.
    + constructor.
Defined.
