(* ===== verification/SubmissionEvidence.v ===== *)
(** What an order submission is checked against before the broker sees it: the
    pure part of src/services/autonomousPostgresExecutionService.ts.

    A claimed intent must be the reviewed one, its market evidence fresh and
    usable, an exit must fit the reconciled position; the payload of the POST is
    built from it.  Columns arrive as text ([numeric::text]); JSON columns as
    documents.  Arguments stand for the environment: the engine's reading of
    time stamps that are not ISO 8601, and OPTIONS_QUOTE_MAX_AGE_MS as
    optionsQuoteConfig() returns it. *)

From Stdlib Require Import FloatAxioms FloatOps SpecFloat.
From S2P Require Import Prelude.
From S2P Require Import JsString.
From S2P Require Import JsDate.
From S2P Require Import JsNumber.
From S2P Require Import JsText.
From S2P Require Import JsJson.
From S2P Require Import TradeLifecycle.
Open Scope Z_scope.

Record AutonomousExecutionIntentRow := {
  row_order_intent_id : string;
  row_candidate_id : option string;
  row_account_id : string;
  row_broker_account_id : string;
  row_account_snapshot_fingerprint : string;
  row_review_account_fingerprint : string;
  row_reservation_id : option string;
  row_execution_review_id : string;
  row_review_type : string;
  row_confirmation_evidence_id : string;
  row_review_signature : option string;
  row_payload_fingerprint : option string;
  row_review_client_order_id : option string;
  row_review_order_intent : jvalue;
  row_client_order_id : string;
  row_strategy_key : string;
  row_symbol : string;
  row_underlying_symbol : option string;
  row_asset_class : string;
  row_side : string;
  row_order_type : string;
  row_time_in_force : string;
  row_quantity : option string;
  row_notional : option string;
  row_limit_price : option string;
  row_stop_price : option string;
  row_intent_version : Z;
  row_market_evidence : jvalue;
  row_operation : option string;
  row_strategy_classification : option string;
  row_parent_position_id : option string;
  row_opening_intent_id : option string;
  row_contract_id : option string;
  row_position_side : option side;
  row_position_available_quantity : option string;
  row_position_option_symbol : option string;
  row_position_contract_id : option string
}.

Record AutonomousExecutionBrokerSnapshot := {
  accountIdentityHash : string;
  structuralPortfolioFingerprint : string;
  brokerAccountId : option string
}.

(** The body of POST /v2/orders. *)
Record AlpacaPaperOrderRequest := {
  p_symbol : string;
  p_qty : option string;
  p_notional : option string;
  p_side : string;
  p_type : string;
  p_time_in_force : string;
  p_limit_price : option string;
  p_client_order_id : string;
  p_position_intent : option string
}.

(** ** Conversions *)

Definition text (v : option jvalue) : string :=
  match v with Some (JStr s) => trim s | _ => EmptyString end.

Definition positive (v : option jvalue) : option number :=
  let parsed := js_number v in
  if num_is_finite parsed && (0 <? parsed)%float then Some parsed else None.

(** A nullable text column as a value. *)
Definition column (v : option string) : option jvalue :=
  Some match v with Some s => JStr s | None => JNull end.

(** [/^-?\d+(?:\.\d+)?$/]: sign, whole digits and fraction digits. *)
Definition plain_decimal (raw : string) : option (bool * string * string) :=
  let '(negative, unsigned) :=
    match raw with String "-" r => (true, r) | _ => (false, raw) end in
  let '(whole, rest) := span_digits unsigned in
  if negb (str_truthy whole) then None
  else match rest with
  | EmptyString => Some (negative, whole, EmptyString)
  | String "." r =>
      let '(fraction, rest') := span_digits r in
      if str_truthy fraction && negb (str_truthy rest') then Some (negative, whole, fraction) else None
  | _ => None
  end.

(** [whole.replace(/^0+(?=\d)/, "")] *)
Fixpoint strip_leading_zeros (s : string) : string :=
  match s with
  | String "0" r =>
      match r with
      | String c _ => if is_digit c then strip_leading_zeros r else s
      | EmptyString => s
      end
  | _ => s
  end.

(** [fraction.replace(/0+$/, "")] *)
Fixpoint strip_trailing_zeros (s : string) : string :=
  match s with
  | EmptyString => EmptyString
  | String c r =>
      let r' := strip_trailing_zeros r in
      if (c =? "0")%char && negb (str_truthy r') then EmptyString else String c r'
  end.

Definition decimalText (v : option jvalue) : option string :=
  match v with
  | None | Some JNull | Some (JStr EmptyString) => None
  | Some v =>
      let raw := trim (js_string v) in
      match plain_decimal raw with
      | None => Some raw
      | Some (negative, whole, fraction) =>
          let f := strip_trailing_zeros fraction in
          Some ((if negative then "-" else "") ++ strip_leading_zeros whole
                ++ (if str_truthy f then "." ++ f else ""))%string
      end
  end.

(** ** The reviewed intent *)

(** Field of the review, column of the intent. *)
Definition reviewed_texts (intent : AutonomousExecutionIntentRow) (reviewed : list (string * jvalue))
    : list (option jvalue * option jvalue) :=
  [(column (row_review_client_order_id intent), column (Some (row_client_order_id intent)));
   (field reviewed "clientOrderId", column (Some (row_client_order_id intent)));
   (field reviewed "symbol", column (Some (row_symbol intent)));
   (field reviewed "assetClass", column (Some (row_asset_class intent)));
   (field reviewed "side", column (Some (row_side intent)));
   (field reviewed "operation", column (row_operation intent));
   (field reviewed "orderType", column (Some (row_order_type intent)));
   (field reviewed "timeInForce", column (Some (row_time_in_force intent)));
   (field reviewed "strategyKey", column (Some (row_strategy_key intent)))].

Definition reviewed_decimals (intent : AutonomousExecutionIntentRow) (reviewed : list (string * jvalue))
    : list (option jvalue * option jvalue) :=
  [(field reviewed "quantity", column (row_quantity intent));
   (field reviewed "notional", column (row_notional intent));
   (field reviewed "limitPrice", column (row_limit_price intent));
   (field reviewed "stopPrice", column (row_stop_price intent))].

Definition assertExactReviewAuthorization (intent : AutonomousExecutionIntentRow) : res unit :=
  if negb (str_truthy (trim (row_order_intent_id intent))) then Throw "POSTGRES_EXECUTION_INTENT_ID_REQUIRED"
  else if negb (str_truthy (trim (row_execution_review_id intent)))
       || negb (str_truthy (trim (row_confirmation_evidence_id intent)))
  then Throw "POSTGRES_EXECUTION_REVIEW_LINEAGE_REQUIRED"
  else match record (Some (row_review_order_intent intent)) with
  | None => Throw "POSTGRES_REVIEW_INTENT_AUTHORIZATION_MISMATCH"
  | Some reviewed =>
      if existsb (λ c, negb (text (fst c) =? text (snd c))%string) (reviewed_texts intent reviewed)
         || existsb (λ c, negb (bool_decide (decimalText (fst c) = decimalText (snd c))))
              (reviewed_decimals intent reviewed)
      then Throw "POSTGRES_REVIEW_INTENT_AUTHORIZATION_MISMATCH"
      else Ret tt
  end.

(** ** Market evidence *)

Record MarketEvidence := {
  referencePrice : number;
  timestamp : string;
  evidence_record : list (string * jvalue)
}.

(** The test of one object of the document. *)
Definition evidence_of (symbol : string) (r : list (string * jvalue)) : option MarketEvidence :=
  let entrySymbol :=
    to_upper (text (js_or (js_or (field r "symbol") (field r "optionSymbol")) (field r "underlyingSymbol"))) in
  let price := positive (nullish (nullish (field r "referencePrice") (field r "marketReferencePrice"))
                           (field r "price")) in
  let timestamp := text (nullish (nullish (nullish (nullish (field r "timestamp") (field r "marketTimestamp"))
                           (field r "quoteTimestamp")) (field r "observedAt")) (field r "capturedAt")) in
  match price with
  | Some p =>
      if (negb (str_truthy entrySymbol) || (entrySymbol =? to_upper symbol)%string) && str_truthy timestamp
      then Some {| referencePrice := p; timestamp := timestamp; evidence_record := r |}
      else None
  | None => None
  end.

(** The first of the values that is found. *)
Fixpoint first_found {A B} (visit : A → option B) (l : list A) : option B :=
  match l with
  | [] => None
  | x :: l' => match visit x with Some e => Some e | None => first_found visit l' end
  end.

Fixpoint visit (symbol : string) (entry : jvalue) : option MarketEvidence :=
  match entry with
  | JArr l => first_found (visit symbol) l
  | JObj l =>
      match evidence_of symbol l with
      | Some e => Some e
      | None => first_found (λ e, visit symbol (snd e)) l
      end
  | _ => None
  end.

Definition marketEvidence (v : jvalue) (symbol : string) : option MarketEvidence := visit symbol v.

(** ** The checks before the broker *)

Definition AUTONOMOUS_MARKET_DATA_FRESHNESS_SECONDS : Z := 30 * 60.

Definition evidence_time_names : list string :=
  ["timestamp"; "marketTimestamp"; "quoteTimestamp"; "observedAt"; "capturedAt"]%string.

(** [(now - observedAt) / 1000], NaN when the time stamp is none. *)
Definition age_seconds (now : Z) (observedAt : option Z) : number :=
  match observedAt with
  | Some t => (num_of_Z (now - t) / 1000)%float
  | None => nan
  end.

Section checks.
Context (other_format : string → option Z) (optionsQuoteMaxAgeMs : number).

Definition observed_at (timestamp : string) : option Z := date_parse other_format timestamp.

Definition validateOptionUnderlyingSipEvidence (intent : AutonomousExecutionIntentRow)
    (r : list (string * jvalue)) (now : Z) : res number :=
  match record (field r "underlyingSip") with
  | None => Throw "POSTGRES_OPTION_UNDERLYING_SIP_EVIDENCE_UNUSABLE"
  | Some evidence =>
      let expectedUnderlying := to_upper (text (column (row_underlying_symbol intent))) in
      let observedUnderlying := to_upper (text (field evidence "symbol")) in
      let observedAt := observed_at (text (field evidence "timestamp")) in
      match positive (field evidence "referencePrice"), observedAt with
      | Some price, Some _ =>
          if negb (str_truthy expectedUnderlying)
             || negb (observedUnderlying =? expectedUnderlying)%string
             || negb (match positive (field r "underlyingPrice") with Some p => (p =? price)%float | None => false end)
             || negb (to_lower (text (field evidence "requestedFeed")) =? "sip")%string
             || negb (to_lower (text (field evidence "effectiveFeed")) =? "sip")%string
             || negb (to_lower (text (field evidence "provider")) =? "alpaca")%string
             || negb (text (field evidence "source") =? "postgres.stock_snapshots")%string
          then Throw "POSTGRES_OPTION_UNDERLYING_SIP_EVIDENCE_UNUSABLE"
          else
            let age := age_seconds now observedAt in
            if (age <? 0)%float || (num_of_Z AUTONOMOUS_MARKET_DATA_FRESHNESS_SECONDS <? age)%float
            then Throw "POSTGRES_OPTION_UNDERLYING_SIP_EVIDENCE_STALE"
            else Ret price
      | _, _ => Throw "POSTGRES_OPTION_UNDERLYING_SIP_EVIDENCE_UNUSABLE"
      end
  end.

Definition liquidity_valid (volume openInterest : number) : bool :=
  num_is_finite volume && (0 <=? volume)%float && num_is_finite openInterest && (0 <=? openInterest)%float
  && (0 <? volume + openInterest)%float.

Definition option_quote_usable (r : list (string * jvalue)) : bool :=
  let spreadPct := js_number (field r "spreadPct") in
  let maximumSpreadPct := js_number (field r "maximumSpreadPct") in
  match positive (field r "bid"), positive (field r "ask") with
  | Some bid, Some ask => negb (ask <? bid)%float
  | _, _ => false
  end
  && num_is_finite spreadPct && negb (spreadPct <? 0)%float
  && num_is_finite maximumSpreadPct && negb (maximumSpreadPct <? 0)%float
  && negb (maximumSpreadPct <? spreadPct)%float
  && liquidity_valid (js_number (field r "volume")) (js_number (field r "openInterest"))
  && (to_lower (text (field r "requestedFeed")) =? "opra")%string
  && (to_lower (text (field r "effectiveFeed")) =? "opra")%string
  && (text (field r "source") =? "postgres.option_snapshots")%string.

(** The found evidence, or the error that says what is missing. *)
Definition require_evidence (intent : AutonomousExecutionIntentRow) : res MarketEvidence :=
  match marketEvidence (row_market_evidence intent) (row_symbol intent) with
  | Some e => Ret e
  | None =>
      if includes_any evidence_time_names (json_stringify (row_market_evidence intent))
      then Throw "POSTGRES_MARKET_REFERENCE_PRICE_MISSING"
      else Throw "POSTGRES_MARKET_EVIDENCE_TIMESTAMP_MISSING"
  end.

Definition is_option (intent : AutonomousExecutionIntentRow) : bool := (row_asset_class intent =? "option")%string.
Definition is_exit (intent : AutonomousExecutionIntentRow) : bool := (row_review_type intent =? "exit")%string.

Definition effectiveMaxAgeSeconds (intent : AutonomousExecutionIntentRow) (quoteMaxAgeSeconds : number) : number :=
  if is_option intent then math_min quoteMaxAgeSeconds (optionsQuoteMaxAgeMs / 1000)%float else quoteMaxAgeSeconds.

Definition require_fresh (intent : AutonomousExecutionIntentRow) (e : MarketEvidence) (now : Z)
    (quoteMaxAgeSeconds : number) : res unit :=
  let age := age_seconds now (observed_at (timestamp e)) in
  match observed_at (timestamp e) with
  | None => Throw "POSTGRES_MARKET_EVIDENCE_STALE"
  | Some _ =>
      if (age <? 0)%float || (effectiveMaxAgeSeconds intent quoteMaxAgeSeconds <? age)%float
      then Throw "POSTGRES_MARKET_EVIDENCE_STALE" else Ret tt
  end.

Definition require_option_quote (intent : AutonomousExecutionIntentRow) (e : MarketEvidence) (now : Z) : res unit :=
  if is_option intent then
    _ ← validateOptionUnderlyingSipEvidence intent (evidence_record e) now;
    if option_quote_usable (evidence_record e) then Ret tt else Throw "POSTGRES_OPTION_MARKET_EVIDENCE_UNUSABLE"
  else Ret tt.

Definition given (s : option string) : bool := match s with Some t => str_truthy t | None => false end.

Definition require_size (intent : AutonomousExecutionIntentRow) : res unit :=
  if negb (given (row_quantity intent)) && negb (given (row_notional intent))
  then Throw "POSTGRES_ORDER_INTENT_SIZE_MISSING"
  else if (row_order_type intent =? "limit")%string
          && match positive (column (row_limit_price intent)) with Some _ => false | None => true end
  then Throw "POSTGRES_ORDER_INTENT_LIMIT_PRICE_MISSING"
  else Ret tt.

(** An exit closes the reconciled position it names, and no more than that. *)
Definition require_exit (intent : AutonomousExecutionIntentRow) : res unit :=
  if is_exit intent then
    match row_position_side intent, row_operation intent with
    | Some position_side, Some operation =>
        if negb (given (row_parent_position_id intent)) || negb (str_truthy operation)
        then Throw "POSTGRES_CLOSE_POSITION_LINEAGE_MISSING"
        else match validateCloseInput position_side operation with
        | (false, reason) => Throw (default EmptyString reason)
        | (true, _) =>
            match positive (column (row_quantity intent)), positive (column (row_position_available_quantity intent)) with
            | Some closeQuantity, Some availableQuantity =>
                if (availableQuantity + 1e-12 <? closeQuantity)%float
                then Throw "POSTGRES_CLOSE_QUANTITY_EXCEEDS_RECONCILED_POSITION"
                else if is_option intent
                     && (negb (given (row_contract_id intent))
                         || negb (bool_decide (row_contract_id intent = row_position_contract_id intent))
                         || negb (bool_decide (Some (row_symbol intent) = row_position_option_symbol intent)))
                then Throw "POSTGRES_OPTION_CLOSE_CONTRACT_MISMATCH"
                else Ret tt
            | _, _ => Throw "POSTGRES_CLOSE_QUANTITY_MISSING"
            end
        end
    | _, _ => Throw "POSTGRES_CLOSE_POSITION_LINEAGE_MISSING"
    end
  else Ret tt.

Definition effective_operation (intent : AutonomousExecutionIntentRow) : string :=
  match row_operation intent with
  | Some operation => operation
  | None =>
      if (row_side intent =? "buy_to_open")%string || (row_side intent =? "sell_to_close")%string
      then row_side intent
      else if (row_review_type intent =? "entry")%string && (row_side intent =? "sell")%string then "sell_to_open"
      else if is_exit intent && (row_side intent =? "buy")%string then "buy_to_cover"
      else "buy_to_open"
  end.

Definition given_text (s : option string) : option string := if given s then s else None.

Definition order_payload (intent : AutonomousExecutionIntentRow) : AlpacaPaperOrderRequest :=
  let operation := effective_operation intent in
  {| p_symbol := row_symbol intent;
     p_qty := given_text (row_quantity intent);
     p_notional := given_text (row_notional intent);
     p_side := if (operation =? "buy_to_open")%string || (operation =? "buy_to_cover")%string
               then "buy" else "sell";
     p_type := row_order_type intent;
     p_time_in_force := row_time_in_force intent;
     p_limit_price := given_text (row_limit_price intent);
     p_client_order_id := row_client_order_id intent;
     p_position_intent :=
       if is_option intent && ((operation =? "buy_to_open")%string || (operation =? "sell_to_close")%string)
       then Some operation else None |}.

Definition validateAutonomousExecutionEvidence (intent : AutonomousExecutionIntentRow)
    (broker : AutonomousExecutionBrokerSnapshot) (now : Z) (quoteMaxAgeSeconds : number)
    : res AlpacaPaperOrderRequest :=
  if negb (default (accountIdentityHash broker) (brokerAccountId broker) =? row_broker_account_id intent)%string
  then Throw "POSTGRES_BROKER_ACCOUNT_IDENTITY_CONFLICT"
  else if negb (structuralPortfolioFingerprint broker =? row_review_account_fingerprint intent)%string
  then Throw "POSTGRES_REVIEW_ACCOUNT_EVIDENCE_CONFLICT"
  else
    e ← require_evidence intent;
    _ ← require_fresh intent e now quoteMaxAgeSeconds;
    _ ← require_option_quote intent e now;
    _ ← require_size intent;
    _ ← require_exit intent;
    Ret (order_payload intent).
End checks.

Example decimal_text_zeros : decimalText (Some (JStr " 007.500 ")) = Some "7.5"%string.
Proof. vm_compute. reflexivity. Qed.
Example decimal_text_number : decimalText (Some (JNum "0.00000010")) = Some "1e-7"%string.
Proof. vm_compute. reflexivity. Qed.

(** ** Market evidence is the first matching object *)

(** The objects of a document, each before those nested in it. *)
Fixpoint objects (v : jvalue) : list (list (string * jvalue)) :=
  match v with
  | JArr l => flat_map objects l
  | JObj l => l :: flat_map (λ e, objects (snd e)) l
  | _ => []
  end.

Lemma first_found_app {A B} (f : A → option B) l1 l2 :
  first_found f (l1 ++ l2) = match first_found f l1 with Some e => Some e | None => first_found f l2 end.
Proof. induction l1 as [|x l1 IH]; [done|]. cbn. by destruct (f x). Qed.

Lemma first_found_flat {A B C} (f : A → option C) (g : A → list B) (h : B → option C) l :
  Forall (λ x, f x = first_found h (g x)) l → first_found f l = first_found h (flat_map g l).
Proof. induction 1 as [|x l Hx _ IH]; [done|]. cbn. by rewrite first_found_app, Hx, IH. Qed.

Lemma first_found_Some {A B} (f : A → option B) l e :
  first_found f l = Some e ↔ ∃ l1 x l2, l = l1 ++ x :: l2 ∧ f x = Some e ∧ ∀ y, In y l1 → f y = None.
Proof.
  split.
  - induction l as [|x l IH]; [done|]. cbn. destruct (f x) as [e'|] eqn:E.
    + intros [= ->]. by exists [], x, l.
    + intros (l1 & y & l2 & -> & Hy & Hl)%IH. exists (x :: l1), y, l2.
      split_and!; [done..|]. by intros z [<-|Hz]; [|apply Hl].
  - intros (l1 & x & l2 & -> & Hx & Hl). rewrite first_found_app. cbn. rewrite Hx.
    replace (first_found f l1) with (@None B); [done|]. clear Hx.
    induction l1 as [|y l1 IH]; [done|]. cbn. rewrite (Hl y) by by left. apply IH. intros; apply Hl; by right.
Qed.

Lemma visit_objects symbol v : visit symbol v = first_found (evidence_of symbol) (objects v).
Proof.
  induction v as [| | | |l IH|l IH] using jvalue_ind; try done; cbn.
  - by apply first_found_flat.
  - destruct (evidence_of symbol l); [done|]. by apply first_found_flat.
Qed.

(** What makes an object evidence for a symbol. *)
Lemma evidence_of_Some symbol r e :
  evidence_of symbol r = Some e →
  evidence_record e = r ∧ num_is_finite (referencePrice e) = true ∧ (0 <? referencePrice e)%float = true ∧
  timestamp e ≠ EmptyString ∧
  let named := to_upper (text (js_or (js_or (field r "symbol") (field r "optionSymbol")) (field r "underlyingSymbol"))) in
  named = EmptyString ∨ named = to_upper symbol.
Proof.
  unfold evidence_of. destruct (positive _) as [p|] eqn:Ep; [|done]. intros H.
  destruct (_ && _) eqn:E in H; [|done]. injection H as <-. cbn.
  unfold positive in Ep. destruct (_ && _) eqn:Ep' in Ep; [|done]. injection Ep as <-.
  apply andb_true_iff in Ep' as [Hf Hp]. apply andb_true_iff in E as [Es Et].
  split_and!; [done..| |].
  - intros E0. by rewrite E0 in Et.
  - apply orb_true_iff in Es as [Es|Es%String.eqb_eq]; [left|by right].
    destruct (to_upper _); [done|]. discriminate Es.
Qed.

(** ** Decimal texts *)

Lemma str_length_cons c s : String.length (String c s) = S (String.length s).
Proof. done. Qed.

Lemma digits_val_zeros_l s : digits_val 0 (strip_leading_zeros s) = digits_val 0 s.
Proof.
  induction s as [|c s IH]; [done|]. cbn [strip_leading_zeros]. destruct (ascii_dec c "0") as [->|Hc].
  - destruct s as [|c' s']; [done|]. destruct (is_digit c'); [|done]. rewrite IH. done.
  - by destruct c as [[] [] [] [] [] [] [] []].
Qed.

Lemma strip_leading_digits s : string_forall is_digit s = true → str_truthy s = true →
  string_forall is_digit (strip_leading_zeros s) = true ∧ str_truthy (strip_leading_zeros s) = true.
Proof.
  induction s as [|c s IH]; [done|]. intros Hd _. cbn [strip_leading_zeros].
  cbn [string_forall] in Hd. apply andb_true_iff in Hd as [Hc Hs].
  destruct (ascii_dec c "0") as [->|Hne].
  - destruct s as [|c' s']; [done|]. pose proof Hs as Hs'. cbn [string_forall] in Hs'.
    apply andb_true_iff in Hs' as [-> _]. by apply IH.
  - assert (E : match c with "0"%char => match s with String c0 _ => if is_digit c0 then strip_leading_zeros s
        else String c s | _ => String c s end | _ => String c s end = String c s)
      by by destruct c as [[] [] [] [] [] [] [] []].
    rewrite E. cbn [string_forall]. by rewrite Hc, Hs.
Qed.

(** No leading zero but a single one: the length follows from the value. *)
Definition leading_normal (s : string) : Prop :=
  s = "0"%string ∨ 10 ^ (Z.of_nat (String.length s) - 1) <= digits_val 0 s.

Lemma strip_leading_normal s :
  string_forall is_digit s = true → str_truthy s = true → leading_normal (strip_leading_zeros s).
Proof.
  induction s as [|c s IH]; [done|]. intros Hd _.
  cbn [string_forall] in Hd. apply andb_true_iff in Hd as [Hc Hs]. cbn [strip_leading_zeros].
  destruct (ascii_dec c "0") as [->|Hne].
  - destruct s as [|c' s']; [by left|]. pose proof Hs as Hs'. cbn [string_forall] in Hs'.
    apply andb_true_iff in Hs' as [-> _]. by apply IH.
  - assert (E : match c with "0"%char => match s with String c0 _ => if is_digit c0 then strip_leading_zeros s
        else String c s | _ => String c s end | _ => String c s end = String c s)
      by by destruct c as [[] [] [] [] [] [] [] []].
    rewrite E. right. rewrite str_length_cons. replace (Z.of_nat (S (String.length s)) - 1)
      with (Z.of_nat (String.length s)) by lia.
    cbn [digits_val]. destruct (digits_val_linear s (10 * 0 + digit_val c) Hs) as [-> Hb].
    destruct (digit_chars c Hc) as [Hv Hch].
    assert (digit_val c ≠ 0) by (intros E0; apply Hne; by rewrite <- Hch, E0). nia.
Qed.

Lemma leading_normal_eq a b :
  string_forall is_digit a = true → string_forall is_digit b = true →
  str_truthy a = true → str_truthy b = true →
  leading_normal a → leading_normal b → digits_val 0 a = digits_val 0 b → a = b.
Proof.
  intros Ha Hb Ta Tb Na Nb He.
  destruct (digits_val_linear a 0 Ha) as [_ Ba], (digits_val_linear b 0 Hb) as [_ Bb].
  assert (Hlen : ∀ x, string_forall is_digit x = true → str_truthy x = true → leading_normal x →
    digits_val 0 x < 10 ^ Z.of_nat (String.length x) → (1 <= String.length x)%nat ∧
    (x = "0"%string ∨ 10 ^ (Z.of_nat (String.length x) - 1) <= digits_val 0 x)).
  { intros [|c x] _ Tx Nx _; [done|]. rewrite str_length_cons. split; [lia|exact Nx]. }
  destruct (Hlen a Ha Ta Na (proj2 Ba)) as [La [->|Va]], (Hlen b Hb Tb Nb (proj2 Bb)) as [Lb [->|Vb]].
  - done.
  - change (digits_val 0 "0") with 0 in He.
    pose proof (Z.pow_pos_nonneg 10 (Z.of_nat (String.length b) - 1) ltac:(lia) ltac:(lia)). lia.
  - change (digits_val 0 "0") with 0 in He.
    pose proof (Z.pow_pos_nonneg 10 (Z.of_nat (String.length a) - 1) ltac:(lia) ltac:(lia)). lia.
  - assert (String.length a = String.length b) as Hl.
    { destruct (Nat.lt_trichotomy (String.length a) (String.length b)) as [Hlt|[?|Hlt]]; [|done|].
      - assert (10 ^ Z.of_nat (String.length a) <= 10 ^ (Z.of_nat (String.length b) - 1))
          by (apply Z.pow_le_mono_r; lia). lia.
      - assert (10 ^ Z.of_nat (String.length b) <= 10 ^ (Z.of_nat (String.length a) - 1))
          by (apply Z.pow_le_mono_r; lia). lia. }
    rewrite <- (last_digits_of_text a 0 Ha) by lia. rewrite <- (last_digits_of_text b 0 Hb) by lia.
    by rewrite Hl, He.
Qed.

Lemma strip_trailing_app s : ∃ k, s = (strip_trailing_zeros s ++ repeat_char k "0")%string.
Proof.
  induction s as [|c s [k IH]]; [by exists O|]. cbn [strip_trailing_zeros].
  destruct (c =? "0")%char eqn:Ec; cbn [andb].
  - destruct (str_truthy (strip_trailing_zeros s)) eqn:Et; cbn [negb].
    + exists k. exact (f_equal (String c) IH).
    + exists (S k). apply Ascii.eqb_eq in Ec as ->. destruct (strip_trailing_zeros s); [|done].
      exact (f_equal (String "0") IH).
  - exists k. exact (f_equal (String c) IH).
Qed.

Lemma strip_trailing_digits s :
  string_forall is_digit s = true → string_forall is_digit (strip_trailing_zeros s) = true.
Proof.
  destruct (strip_trailing_app s) as [k E]. intros H. rewrite E, string_forall_app in H.
  by apply andb_true_iff in H as [H _].
Qed.

Lemma strip_trailing_mod s :
  string_forall is_digit s = true →
  strip_trailing_zeros s = EmptyString ∨ digits_val 0 (strip_trailing_zeros s) mod 10 ≠ 0.
Proof.
  induction s as [|c s IH]; [by left|]. intros Hd. cbn [string_forall] in Hd.
  apply andb_true_iff in Hd as [Hc Hs]. cbn [strip_trailing_zeros].
  destruct ((c =? "0")%char && _) eqn:E; [by left|]. right. cbn [digits_val].
  destruct (digit_chars c Hc) as [Hv Hch].
  destruct (digits_val_linear (strip_trailing_zeros s) (10 * 0 + digit_val c) (strip_trailing_digits s Hs)) as [-> _].
  destruct (strip_trailing_zeros s) as [|c' r].
  - cbn [str_truthy negb] in E. rewrite andb_true_r in E. apply Ascii.eqb_neq in E.
    cbn [String.length digits_val]. change (10 ^ Z.of_nat 0) with 1. rewrite Z.mod_small by lia.
    intros E0. apply E. rewrite <- Hch. replace (digit_val c) with 0 by lia. done.
  - destruct (IH Hs) as [|Hm]; [done|]. rewrite str_length_cons, Nat2Z.inj_succ, Z.pow_succ_r by lia.
    replace ((10 * 0 + digit_val c) * (10 * 10 ^ Z.of_nat (String.length r)))
      with ((10 * 0 + digit_val c) * 10 ^ Z.of_nat (String.length r) * 10) by ring.
    by rewrite Z.add_comm, Z_mod_plus_full.
Qed.

Lemma span_digits_spec s d r :
  span_digits s = (d, r) → string_forall is_digit d = true ∧ s = (d ++ r)%string.
Proof.
  revert d r. induction s as [|c s IH]; intros d r H; cbn [span_digits] in H; [by injection H as <- <-|].
  destruct (is_digit c) eqn:Ec; [|by injection H as <- <-].
  destruct (span_digits s) as [d' r']. injection H as <- <-. destruct (IH d' r' eq_refl) as [Hd ->].
  cbn [string_forall]. by rewrite Ec.
Qed.

Lemma plain_decimal_digits raw neg w f :
  plain_decimal raw = Some (neg, w, f) →
  string_forall is_digit w = true ∧ str_truthy w = true ∧ string_forall is_digit f = true.
Proof.
  unfold plain_decimal. destruct (match raw with String "-" _ => _ | _ => _ end) as [n u].
  destruct (span_digits u) as [d r] eqn:Es. apply span_digits_spec in Es as [Hd _].
  destruct (str_truthy d) eqn:Et; [|done]. cbn [negb].
  destruct r as [|c r']; [by intros [= <- <- <-]|].
  destruct c as [[] [] [] [] [] [] [] []]; try done.
  destruct (span_digits r') as [f' r''] eqn:Es'. apply span_digits_spec in Es' as [Hf _].
  destruct (_ && _); [|done]. by intros [= <- <- <-].
Qed.

(** The number a plain decimal denotes, without its sign. *)
Definition decimal_value (whole fraction : string) : Q :=
  (inject_Z (digits_val 0 (whole ++ fraction)) / inject_Z (10 ^ Z.of_nat (String.length fraction)))%Q.

Lemma decimal_value_eq w1 f1 w2 f2 :
  (decimal_value w1 f1 == decimal_value w2 f2)%Q ↔
  digits_val 0 (w1 ++ f1) * 10 ^ Z.of_nat (String.length f2)
  = digits_val 0 (w2 ++ f2) * 10 ^ Z.of_nat (String.length f1).
Proof.
  unfold decimal_value. set (v1 := digits_val 0 (w1 ++ f1)). set (v2 := digits_val 0 (w2 ++ f2)).
  pose proof (pow10_pos (String.length f1)) as H1. pose proof (pow10_pos (String.length f2)) as H2.
  set (p1 := 10 ^ Z.of_nat (String.length f1)) in *.
  set (p2 := 10 ^ Z.of_nat (String.length f2)) in *. clearbody v1 v2 p1 p2.
  destruct p1 as [|p1|]; [lia| |lia]. destruct p2 as [|p2|]; [lia| |lia].
  unfold Qdiv, Qeq, Qmult, Qinv, inject_Z. cbn. lia.
Qed.

Lemma digits_val_zeros w k : digits_val 0 (w ++ repeat_char k "0") = digits_val 0 w * 10 ^ Z.of_nat k.
Proof.
  rewrite digits_val_app. generalize (digits_val 0 w). induction k as [|k IH]; intros z.
  { cbn [repeat_char digits_val]. change (10 ^ Z.of_nat 0) with 1. lia. }
  cbn [repeat_char digits_val]. rewrite IH, Nat2Z.inj_succ, Z.pow_succ_r by lia.
  change (digit_val "0") with 0. ring.
Qed.

Lemma repeat_char_length k c : String.length (repeat_char k c) = k.
Proof. induction k as [|k IH]; [done|]. cbn [repeat_char]. by rewrite str_length_cons, IH. Qed.

(** Normalising does not change the number. *)
Lemma normal_value w f : string_forall is_digit w = true → string_forall is_digit f = true →
  (decimal_value (strip_leading_zeros w) (strip_trailing_zeros f) == decimal_value w f)%Q.
Proof.
  intros Hw Hf. apply decimal_value_eq. destruct (strip_trailing_app f) as [k E].
  set (r := strip_trailing_zeros f) in *. rewrite E, str_app_assoc, digits_val_zeros.
  rewrite str_length_app, repeat_char_length, Nat2Z.inj_add, Z.pow_add_r by lia.
  rewrite !digits_val_app, digits_val_zeros_l. ring.
Qed.

(** Two normal decimals of equal value are equal. *)
Lemma normal_decimal_eq w1 f1 w2 f2 :
  string_forall is_digit w1 = true → str_truthy w1 = true → leading_normal w1 →
  string_forall is_digit w2 = true → str_truthy w2 = true → leading_normal w2 →
  string_forall is_digit f1 = true → f1 = EmptyString ∨ digits_val 0 f1 mod 10 ≠ 0 →
  string_forall is_digit f2 = true → f2 = EmptyString ∨ digits_val 0 f2 mod 10 ≠ 0 →
  (decimal_value w1 f1 == decimal_value w2 f2)%Q → w1 = w2 ∧ f1 = f2.
Proof.
  intros D1 T1 N1 D2 T2 N2 E1 M1 E2 M2 He%decimal_value_eq. rewrite !digits_val_app in He.
  destruct (digits_val_linear f1 (digits_val 0 w1) E1) as [L1 B1].
  destruct (digits_val_linear f2 (digits_val 0 w2) E2) as [L2 B2]. rewrite L1, L2 in He.
  set (n1 := String.length f1) in *. set (n2 := String.length f2) in *.
  pose proof (pow10_pos n1) as P1. pose proof (pow10_pos n2) as P2.
  assert (Hless : ∀ W1 W2 F1 F2 p1 p2, 0 <= F2 → F1 < p1 → 0 < p1 → 0 < p2 →
    (W1 * p1 + F1) * p2 = (W2 * p2 + F2) * p1 → W1 < W2 → False).
  { intros W1 W2 F1 F2 p1 p2 HF2 HF1 Hp1 Hp2 Heq Hlt.
    assert (0 <= (W2 - W1 - 1) * (p1 * p2)) by (apply Z.mul_nonneg_nonneg; nia).
    pose proof (Z.mul_nonneg_nonneg F2 p1 HF2 ltac:(lia)).
    pose proof (proj1 (Z.mul_lt_mono_pos_r p2 F1 p1 Hp2) HF1). nia. }
  assert (Hw : digits_val 0 w1 = digits_val 0 w2).
  { destruct (Z.lt_trichotomy (digits_val 0 w1) (digits_val 0 w2)) as [H|[H|H]]; [|done|]; exfalso.
    - eapply (Hless _ _ _ _ _ _ (proj1 B2) (proj2 B1) P1 P2 He H).
    - eapply (Hless _ _ _ _ _ _ (proj1 B1) (proj2 B2) P2 P1 (eq_sym He) H). }
  split; [by apply leading_normal_eq|]. rewrite Hw in He.
  assert (Hf : digits_val 0 f1 * 10 ^ Z.of_nat n2 = digits_val 0 f2 * 10 ^ Z.of_nat n1) by lia.
  assert (Hshift : ∀ n m x y, (n < m)%nat → x * 10 ^ Z.of_nat m = y * 10 ^ Z.of_nat n → y mod 10 = 0).
  { intros n m x y Hlt H. pose proof (pow10_pos n).
    replace (Z.of_nat m) with (Z.of_nat n + Z.succ (Z.of_nat (m - n - 1))) in H by lia.
    rewrite Z.pow_add_r, Z.pow_succ_r in H by lia.
    assert (y = x * 10 ^ Z.of_nat (m - n - 1) * 10) as -> by nia. apply Z_mod_mult. }
  assert (Hempty : ∀ m f, f = EmptyString ∨ digits_val 0 f mod 10 ≠ 0 → digits_val 0 f mod 10 = 0 →
    (m < String.length f)%nat → False).
  { intros m f [->|Hm] H0 Hlt; [cbn in Hlt; lia|done]. }
  destruct (Nat.lt_trichotomy n1 n2) as [Hlt|[Heq|Hlt]].
  - exfalso. apply (Hempty n1 f2 M2); [|done]. by eapply Hshift.
  - rewrite Heq in Hf. rewrite <- (last_digits_of_text f1 0 E1), <- (last_digits_of_text f2 0 E2) by lia.
    fold n1 n2. rewrite Heq. f_equal. nia.
  - exfalso. apply (Hempty n2 f1 M1); [|done]. symmetry in Hf. by eapply Hshift.
Qed.

Definition decimal_out (neg : bool) (w f : string) : string :=
  ((if neg then "-" else "") ++ w ++ (if str_truthy f then "." ++ f else ""))%string.

(** Sign, whole digits and fraction can be read off the text. *)
Lemma decimal_out_inj n1 w1 f1 n2 w2 f2 :
  string_forall is_digit w1 = true → str_truthy w1 = true →
  string_forall is_digit w2 = true → str_truthy w2 = true →
  decimal_out n1 w1 f1 = decimal_out n2 w2 f2 → n1 = n2 ∧ w1 = w2 ∧ f1 = f2.
Proof.
  intros D1 T1 D2 T2 H. unfold decimal_out in H.
  assert (Hn : n1 = n2).
  { destruct w1 as [|c1 r1], w2 as [|c2 r2]; try done. cbn [string_forall] in D1, D2.
    apply andb_true_iff in D1 as [D1 _], D2 as [D2 _].
    destruct n1, n2; try done; injection H as H _; subst; discriminate. }
  split; [done|]. subst n2.
  assert (Hr : (w1 ++ (if str_truthy f1 then "." ++ f1 else "") =
                w2 ++ (if str_truthy f2 then "." ++ f2 else ""))%string) by (destruct n1; [by injection H|done]).
  assert (Hs : ∀ w f, string_forall is_digit w = true →
    span_digits (w ++ (if str_truthy f then "." ++ f else ""))%string =
    (w, (if str_truthy f then "." ++ f else ""))%string).
  { intros w f Hw. apply span_digits_app; [done|]. by destruct f. }
  pose proof (Hs w1 f1 D1) as E1. rewrite Hr, (Hs w2 f2 D2) in E1. injection E1 as -> E1.
  split; [done|]. destruct f1, f2; try done. by injection E1 as -> ->.
Qed.

Lemma decimalText_plain s neg w f :
  plain_decimal (trim s) = Some (neg, w, f) →
  decimalText (Some (JStr s)) = Some (decimal_out neg (strip_leading_zeros w) (strip_trailing_zeros f)).
Proof. intros H. unfold decimalText. destruct s as [|c s]; [done|]. cbn [js_string]. by rewrite H. Qed.

(** The comparison of reviewed and requested amounts is the comparison of
    numbers.  Of two decimal texts, with any zeros in front, zeros at the end
    and white space around, [decimalText] makes the same text exactly when they
    have the same sign and denote the same number. *)
Theorem decimal_text_same_number a b na wa fa nb wb fb :
  plain_decimal (trim a) = Some (na, wa, fa) → plain_decimal (trim b) = Some (nb, wb, fb) →
  decimalText (Some (JStr a)) = decimalText (Some (JStr b)) ↔
  na = nb ∧ (decimal_value wa fa == decimal_value wb fb)%Q.
Proof.
  intros Ha Hb. rewrite (decimalText_plain _ _ _ _ Ha), (decimalText_plain _ _ _ _ Hb).
  apply plain_decimal_digits in Ha as (Dwa & Twa & Dfa), Hb as (Dwb & Twb & Dfb).
  destruct (strip_leading_digits wa Dwa Twa) as [Da Ta], (strip_leading_digits wb Dwb Twb) as [Db Tb].
  split.
  - intros [= H]. apply decimal_out_inj in H as (-> & Hw & Hf); try done. split; [done|].
    rewrite <- (normal_value wa fa), <- (normal_value wb fb), Hw, Hf by done. reflexivity.
  - intros [-> Hv]. rewrite <- (normal_value wa fa), <- (normal_value wb fb) in Hv by done.
    destruct (normal_decimal_eq (strip_leading_zeros wa) (strip_trailing_zeros fa)
      (strip_leading_zeros wb) (strip_trailing_zeros fb)) as [-> ->];
      auto using strip_leading_normal, strip_trailing_mod, strip_trailing_digits.
Qed.

Lemma decimal_text_same_number_witness :
  plain_decimal (trim " 007.500") = Some (false, "007", "500")%string ∧
  (decimalText (Some (JStr " 007.500")) = decimalText (Some (JStr "7.5")) ↔
   false = false ∧ (decimal_value "007" "500" == decimal_value "7" "5")%Q).
Proof.
  split; [vm_compute; reflexivity|].
  apply (decimal_text_same_number " 007.500" "7.5" false "007" "500" false "7" "5"); vm_compute; reflexivity.
Defined.

(** ** The age of evidence *)

(** A quotient of numbers of ordinary size does not underflow: it has the sign
    of the operands. *)
Lemma SFdiv_sign sx mx ex sy my ey :
  sf_valid (S754_finite sx mx ex) = true → sf_valid (S754_finite sy my ey) = true → -900 <= ex - ey →
  sf_signed (xorb sx sy) (SFdiv prec emax (S754_finite sx mx ex) (S754_finite sy my ey)).
Proof.
  intros (_ & Hx & _)%valid_finite (_ & Hy & _)%valid_finite He.
  pose proof (digits2_bounds mx) as [Lx _]. pose proof (digits2_bounds my) as [_ Uy].
  assert (Hdig : ∀ p, Z.pos p < 2 ^ 53 → 1 <= Z.pos (digits2_pos p) <= 53).
  { intros p Hp. pose proof (digits2_bounds p) as [Hlo _]. split; [lia|].
    assert (Z.pos (digits2_pos p) - 1 < 53) by (apply (Z.pow_lt_mono_r_iff 2); lia). lia. }
  pose proof (Hdig mx ltac:(lia)) as Dx. pose proof (Hdig my ltac:(lia)) as Dy.
  cbn [SFdiv]. unfold SFdiv_core_binary. cbn [Zdigits2].
  set (d1 := Z.pos (digits2_pos mx)) in *. set (d2 := Z.pos (digits2_pos my)) in *.
  assert (fexp prec emax (d1 + ex - (d2 + ey)) = d1 + ex - (d2 + ey) - 53) as ->
    by (unfold fexp, SpecFloat.emin, prec, emax; lia).
  set (e' := Z.min _ _). set (s := ex - ey - e').
  assert (Hs : 0 <= s ∧ d2 - d1 + 53 <= s) by (unfold s, e'; lia).
  assert (Hm : Z.pos my <= match s with Z0 => Z.pos mx | Z.pos _ => Z.shiftl (Z.pos mx) s | Z.neg _ => 0 end).
  { assert (Hmul : Z.pos my <= Z.pos mx * 2 ^ s).
    { transitivity (2 ^ (d1 - 1) * 2 ^ s).
      - rewrite <- Z.pow_add_r by lia. transitivity (2 ^ d2); [lia|]. apply Z.pow_le_mono_r; lia.
      - apply Z.mul_le_mono_nonneg_r; [apply Z.pow_nonneg; lia|lia]. }
    destruct s as [|p|p]; [lia| |lia]. by rewrite Z.shiftl_mul_pow2 by lia. }
  set (m' := match s with Z0 => _ | Z.pos _ => _ | Z.neg _ => _ end) in *.
  pose proof (Z_div_mod m' (Z.pos my) ltac:(lia)) as Hdm.
  destruct (Z.div_eucl m' (Z.pos my)) as [q r]. destruct Hdm as [Hq Hr].
  apply binary_round_aux_sign; [|unfold e'; lia].
  assert (0 < Z.pos my * (q + 1)) as Hpos by nia. assert (0 <= q) by nia.
  destruct (Z.eq_dec q 0) as [->|]; lia.
Qed.

(** A whole number is not a tiny one. *)
Lemma num_of_Z_finite z : z ≠ 0 → Z.abs z < 2 ^ 53 →
  ∃ m e, Prim2SF (num_of_Z z) = S754_finite (z <? 0) m e ∧ -53 < e.
Proof.
  intros Hz Hb. pose proof (num_of_Z_val z Hb) as Hv. unfold num_val in Hv.
  pose proof (Prim2SF_sf_valid (num_of_Z z)) as V.
  destruct (sf_is_nan _); [done|]. injection Hv as Hv.
  pose proof (Z.pow_pos_nonneg 2 1074 ltac:(lia) ltac:(lia)) as Hp.
  assert (Hbig : 2 ^ 53 * 2 ^ 1074 < sf_inf).
  { unfold sf_inf. rewrite <- Z.pow_add_r by lia. apply Z.pow_lt_mono_r; lia. }
  destruct (Prim2SF (num_of_Z z)) as [s|s| |s m e]; cbn [sf_val] in Hv.
  - nia.
  - destruct s; nia.
  - nia.
  - apply valid_finite in V as (He & Hm & _). exists m, e.
    pose proof (Z.pow_pos_nonneg 2 (e + 1074) ltac:(lia) ltac:(lia)) as Hpe.
    split.
    + f_equal. destruct (Z.ltb_spec z 0), s; try done; nia.
    + assert (1 * 2 ^ 1074 <= Z.pos m * 2 ^ (e + 1074)) as Hle by (destruct s; nia).
      assert (Hlt : 2 ^ 1074 < 2 ^ (53 + (e + 1074))) by (rewrite Z.pow_add_r by lia; nia).
      apply Z.pow_lt_mono_r_iff in Hlt; lia.
Qed.

(** Evidence of a negative age is evidence from the future. *)
Lemma age_sign now t : Z.abs (now - t) < 2 ^ 53 →
  (age_seconds now (Some t) <? 0)%float = (now <? t).
Proof.
  intros Hb. unfold age_seconds. destruct (Z.eq_dec (now - t) 0) as [E|Hne].
  { rewrite E. replace (now <? t) with false by (symmetry; apply Z.ltb_ge; lia). by vm_compute. }
  destruct (num_of_Z_finite _ Hne Hb) as (m & e & Hx & He).
  assert (H1000 : Prim2SF 1000 = S754_finite false 8796093022208000 (-43)) by by vm_compute.
  pose proof (Prim2SF_sf_valid (num_of_Z (now - t))) as V1. pose proof (Prim2SF_sf_valid 1000) as V2.
  rewrite Hx in V1. rewrite H1000 in V2.
  pose proof (SFdiv_sign _ _ _ _ _ _ V1 V2 ltac:(lia)) as Hs.
  rewrite xorb_false_r, <- Hx, <- H1000 in Hs. change (SFdiv prec emax) with SF64div in Hs.
  rewrite <- div_spec in Hs.
  destruct (sf_signed_val _ _ (Prim2SF_sf_valid (num_of_Z (now - t) / 1000)) Hs) as [Hn Hv].
  rewrite num_ltb_val. unfold num_val at 1. rewrite Hn. replace (num_val 0) with (Some 0) by done.
  cbn [opt_cmp]. destruct (Z.ltb_spec (now - t) 0), (Z.ltb_spec now t); try lia; destruct (Z.ltb_spec
    (sf_val (Prim2SF (num_of_Z (now - t) / 1000))) 0); try lia; done.
Qed.

(** ** What passes the checks *)

Lemma positive_Some v x :
  positive v = Some x → x = js_number v ∧ num_is_finite x = true ∧ (0 <? x)%float = true ∧ is_nan x = false.
Proof.
  unfold positive. destruct (_ && _) eqn:E; [|done]. intros [= <-]. apply andb_true_iff in E as [E1 E2].
  split_and!; [done..|]. rewrite num_ltb_val in E2. rewrite is_nan_val.
  destruct (num_val 0%float); [|done]. by destruct (num_val (js_number v)).
Qed.

Section gate.
Context (other_format : string → option Z) (optionsQuoteMaxAgeMs : number).

(** Fresh at [now]: neither from the future nor older than [limit] seconds. *)
Definition fresh (limit : number) (now : Z) (timestamp : string) : Prop :=
  ∃ t, observed_at other_format timestamp = Some t ∧ (Z.abs (now - t) < 2 ^ 53 → t <= now) ∧
    (limit <? age_seconds now (Some t))%float = false.

Lemma fresh_intro limit now ts t :
  observed_at other_format ts = Some t →
  (age_seconds now (Some t) <? 0)%float || (limit <? age_seconds now (Some t))%float = false →
  fresh limit now ts.
Proof.
  intros Ht [H1 H2]%orb_false_iff. exists t. split_and!; [done| |done].
  intros Hb. rewrite age_sign in H1 by done. by apply Z.ltb_ge in H1.
Qed.

(** An option's quote and its underlying: from the right feeds, not crossed,
    spread within the limit it was reviewed with, traded or held by someone. *)
Record option_evidence (intent : AutonomousExecutionIntentRow) (r : list (string * jvalue)) (now : Z) : Prop := {
  oe_quote : ∃ bid ask, positive (field r "bid") = Some bid ∧ positive (field r "ask") = Some ask ∧
    (bid <=? ask)%float = true;
  oe_spread : ∃ s m, js_number (field r "spreadPct") = s ∧ js_number (field r "maximumSpreadPct") = m ∧
    num_is_finite s = true ∧ num_is_finite m = true ∧ (m <? s)%float = false;
  oe_liquid : liquidity_valid (js_number (field r "volume")) (js_number (field r "openInterest")) = true;
  oe_feed : to_lower (text (field r "effectiveFeed")) = "opra"%string;
  oe_underlying : ∃ sip price, record (field r "underlyingSip") = Some sip ∧
    to_upper (text (field sip "symbol")) = to_upper (text (column (row_underlying_symbol intent))) ∧
    positive (field sip "referencePrice") = Some price ∧
    to_lower (text (field sip "effectiveFeed")) = "sip"%string ∧
    fresh (num_of_Z AUTONOMOUS_MARKET_DATA_FRESHNESS_SECONDS) now (text (field sip "timestamp"))
}.

Lemma sip_spec intent r now price :
  validateOptionUnderlyingSipEvidence other_format intent r now = Ret price →
  ∃ sip, record (field r "underlyingSip") = Some sip ∧
    to_upper (text (field sip "symbol")) = to_upper (text (column (row_underlying_symbol intent))) ∧
    positive (field sip "referencePrice") = Some price ∧
    to_lower (text (field sip "effectiveFeed")) = "sip"%string ∧
    fresh (num_of_Z AUTONOMOUS_MARKET_DATA_FRESHNESS_SECONDS) now (text (field sip "timestamp")).
Proof.
  unfold validateOptionUnderlyingSipEvidence. destruct (record _) as [sip|]; [|done].
  destruct (positive (field sip _)) as [p|] eqn:Ep; [|done]. cbv zeta.
  destruct (observed_at _ _) as [t|] eqn:Et; [|done].
  destruct (_ || _) eqn:E; [done|]. destruct (_ || _) eqn:Ea in |- *; [done|]. intros [= <-].
  rewrite !orb_false_iff, !negb_false_iff, !String.eqb_eq in E.
  exists sip. split_and!; try tauto. by eapply fresh_intro.
Qed.

Lemma option_quote_spec intent r now price :
  validateOptionUnderlyingSipEvidence other_format intent r now = Ret price → option_quote_usable r = true →
  option_evidence intent r now.
Proof.
  intros Hsip Hq. apply sip_spec in Hsip as (sip & Hs). unfold option_quote_usable in Hq. cbv zeta in Hq.
  rewrite !andb_true_iff, !negb_true_iff, !String.eqb_eq in Hq.
  destruct Hq as [[[[[[[[[Hba Hs1] _] Hm1] _] Hsm] Hl] _] Hfeed] _].
  destruct (positive (field r "bid")) as [bid|] eqn:Eb; [|done].
  destruct (positive (field r "ask")) as [ask|] eqn:Ea; [|done].
  pose proof (positive_Some _ _ Eb) as (_ & _ & _ & Nb). pose proof (positive_Some _ _ Ea) as (_ & _ & _ & Na).
  split; try done; [|eexists _, _; by split_and!|exists sip, price; tauto].
  exists bid, ask. split_and!; [done..|]. rewrite ltb_negb_leb in Hba by done.
  by rewrite negb_involutive in Hba.
Qed.

(** What an exit sells or buys back: the position's own contract, on the closing
    side, and no more than is available. *)
Definition closes_position (intent : AutonomousExecutionIntentRow) (p : AlpacaPaperOrderRequest) : Prop :=
  ∃ position_side q available, row_position_side intent = Some position_side ∧
    p_side p = match position_side with long => "sell" | short => "buy" end%string ∧
    p_qty p = row_quantity intent ∧ positive (column (row_quantity intent)) = Some q ∧
    positive (column (row_position_available_quantity intent)) = Some available ∧
    (available + 1e-12 <? q)%float = false ∧
    (is_option intent = true → p_symbol p = default EmptyString (row_position_option_symbol intent) ∧
       row_contract_id intent = row_position_contract_id intent).

Lemma exit_spec intent : require_exit intent = Ret tt → is_exit intent = true →
  closes_position intent (order_payload intent).
Proof.
  unfold require_exit. intros H He. rewrite He in H.
  destruct (row_position_side intent) as [ps|] eqn:Eps; [|done].
  destruct (row_operation intent) as [op|] eqn:Eop; [|done].
  destruct (negb (given _) || _) eqn:Eg in H; [done|].
  destruct (validateCloseInput ps op) as [[|] reason] eqn:Ev; [|done].
  destruct (positive (column (row_quantity intent))) as [q|] eqn:Eq; [|done].
  destruct (positive (column (row_position_available_quantity intent))) as [a|] eqn:Ea; [|done].
  destruct (_ <? q)%float eqn:El in H; [done|].
  exists ps, q, a. unfold order_payload, effective_operation. rewrite Eop.
  cbn [p_side p_qty p_symbol]. split_and!; try done.
  - unfold validateCloseInput in Ev. destruct (op =? _)%string eqn:Eo in Ev; [|done].
    apply String.eqb_eq in Eo as ->. by destruct ps.
  - unfold given_text, given. destruct (row_quantity intent) as [s|]; [|done].
    destruct s; [|done]. exfalso. by vm_compute in Eq.
  - intros Ho. rewrite Ho in H. cbn [andb] in H. destruct (_ || _) eqn:E in H; [done|].
    rewrite !orb_false_iff, !negb_false_iff, !bool_decide_eq_true in E. destruct E as [[_ Hc] Hsym].
    by rewrite <- Hsym.
Qed.

(** C22: Only an order that is covered by current evidence reaches the broker.
    When the checks return a payload, the broker account and its portfolio are
    the reviewed ones; the first object of the market evidence that names the
    symbol and carries a price and a time has a positive finite price and is
    fresh; an option has an uncrossed OPRA quote within its spread limit, some
    liquidity and a fresh SIP price of its underlying; an exit trades on the
    closing side of its reconciled position, within its available quantity, in
    its own contract; and the payload repeats the intent's symbol, size, type
    and client order id. *)
Theorem submission_evidence_gate intent broker now quoteMaxAgeSeconds p :
  validateAutonomousExecutionEvidence other_format optionsQuoteMaxAgeMs intent broker now quoteMaxAgeSeconds = Ret p →
  default (accountIdentityHash broker) (brokerAccountId broker) = row_broker_account_id intent ∧
  structuralPortfolioFingerprint broker = row_review_account_fingerprint intent ∧
  (∃ e l1 l2, objects (row_market_evidence intent) = l1 ++ evidence_record e :: l2 ∧
     evidence_of (row_symbol intent) (evidence_record e) = Some e ∧
     (∀ r, In r l1 → evidence_of (row_symbol intent) r = None) ∧
     (0 <? referencePrice e)%float = true ∧ num_is_finite (referencePrice e) = true ∧
     fresh (effectiveMaxAgeSeconds optionsQuoteMaxAgeMs intent quoteMaxAgeSeconds) now (timestamp e) ∧
     (is_option intent = true → option_evidence intent (evidence_record e) now)) ∧
  (is_exit intent = true → closes_position intent p) ∧
  p_symbol p = row_symbol intent ∧ p_client_order_id p = row_client_order_id intent ∧
  p_type p = row_order_type intent ∧
  ((∃ q, q ≠ EmptyString ∧ p_qty p = Some q ∧ row_quantity intent = Some q) ∨
   (∃ n, n ≠ EmptyString ∧ p_notional p = Some n ∧ row_notional intent = Some n)).
Proof.
  unfold validateAutonomousExecutionEvidence. intros H.
  destruct (_ =? row_broker_account_id intent)%string eqn:Eb in H; [|done].
  destruct (_ =? row_review_account_fingerprint intent)%string eqn:Ef in H; [|done].
  apply String.eqb_eq in Eb, Ef. cbn [negb] in H. unfold mbind, res_bind in H.
  destruct (require_evidence intent) as [e|] eqn:Ee; [|done].
  destruct (require_fresh _ _ intent e _ _) as [[]|] eqn:Er; [|done].
  destruct (require_option_quote _ intent e now) as [[]|] eqn:Eo; [|done].
  destruct (require_size intent) as [[]|] eqn:Es; [|done].
  destruct (require_exit intent) as [[]|] eqn:Ex; [|done]. injection H as <-.
  split; [done|]. split; [done|]. split; [|split; [by apply exit_spec|split_and!; [done..|]]].
  - unfold require_evidence, marketEvidence in Ee. destruct (visit _ _) as [e'|] eqn:Ev; [|by case_match].
    injection Ee as ->. rewrite visit_objects in Ev.
    apply first_found_Some in Ev as (l1 & r & l2 & El & Hr & Hl).
    pose proof (evidence_of_Some _ _ _ Hr) as (Hrec & Hfin & Hpos & _). subst r.
    exists e, l1, l2. split_and!; try done.
    + unfold require_fresh in Er. destruct (observed_at _ _) as [t|] eqn:Et; [|done].
      destruct (_ || _) eqn:Ea in Er; [done|]. by eapply fresh_intro.
    + intros Hopt. unfold require_option_quote in Eo. rewrite Hopt in Eo. unfold mbind, res_bind in Eo.
      destruct (validateOptionUnderlyingSipEvidence _ _ _ _) as [price|] eqn:Esip; [|done].
      destruct (option_quote_usable _) eqn:Eq; [|done]. by eapply option_quote_spec.
  - unfold require_size in Es. destruct (negb _ && negb _) eqn:E in Es; [done|].
    cbn [order_payload p_qty p_notional]. unfold given_text, given in *.
    destruct (row_quantity intent) as [[|c q]|]; [|left; by exists (String c q)|];
      (destruct (row_notional intent) as [[|c n]|]; [done|right; by exists (String c n)|done]).
Qed.
End gate.

(** ** A concrete exit *)

Definition sample_evidence : jvalue :=
  JArr [JObj [("note", JStr "close"); ("symbol", JStr "SPY260116C00500000"); ("referencePrice", JNum "4.20");
    ("timestamp", JStr "2026-01-02T14:30:00Z"); ("bid", JNum "4.10"); ("ask", JStr "4.30");
    ("spreadPct", JNum "4.7"); ("maximumSpreadPct", JNum "10"); ("volume", JNum "12"); ("openInterest", JNum "0");
    ("requestedFeed", JStr "opra"); ("effectiveFeed", JStr "OPRA"); ("source", JStr "postgres.option_snapshots");
    ("underlyingPrice", JNum "501.5");
    ("underlyingSip", JObj [("symbol", JStr "spy"); ("referencePrice", JNum "501.50");
       ("timestamp", JStr "2026-01-02T14:20:00.000Z"); ("requestedFeed", JStr "sip"); ("effectiveFeed", JStr "sip");
       ("provider", JStr "alpaca"); ("source", JStr "postgres.stock_snapshots")])]]%string.

Definition sample_exit : AutonomousExecutionIntentRow :=
  {| row_order_intent_id := "intent-1"; row_candidate_id := None; row_account_id := "account-1";
     row_broker_account_id := "broker-account"; row_account_snapshot_fingerprint := "s";
     row_review_account_fingerprint := "portfolio"; row_reservation_id := None;
     row_execution_review_id := "review-1"; row_review_type := "exit";
     row_confirmation_evidence_id := "confirmation-1"; row_review_signature := None;
     row_payload_fingerprint := None; row_review_client_order_id := Some "client-1"%string;
     row_review_order_intent := JObj []; row_client_order_id := "client-1"; row_strategy_key := "leaps";
     row_symbol := "SPY260116C00500000"; row_underlying_symbol := Some "SPY"%string; row_asset_class := "option";
     row_side := "sell_to_close"; row_order_type := "limit"; row_time_in_force := "day";
     row_quantity := Some "2.000000000000"%string; row_notional := None;
     row_limit_price := Some "4.20000000"%string; row_stop_price := None; row_intent_version := 1;
     row_market_evidence := sample_evidence; row_operation := Some "sell_to_close"%string;
     row_strategy_classification := None; row_parent_position_id := Some "position-1"%string;
     row_opening_intent_id := Some "intent-0"%string; row_contract_id := Some "contract"%string;
     row_position_side := Some long; row_position_available_quantity := Some "2.000000000000"%string;
     row_position_option_symbol := Some "SPY260116C00500000"%string;
     row_position_contract_id := Some "contract"%string |}.

Definition sample_snapshot : AutonomousExecutionBrokerSnapshot :=
  {| accountIdentityHash := "hash"; structuralPortfolioFingerprint := "portfolio";
     brokerAccountId := Some "broker-account"%string |}.

(** 2026-01-02T14:31:00Z *)
Definition sample_now : Z := 1767364260000.

Lemma submission_evidence_gate_witness :
  ∃ p, validateAutonomousExecutionEvidence (λ _, None) 900000 sample_exit sample_snapshot sample_now 600 = Ret p ∧
    closes_position sample_exit p.
Proof.
  eexists. split; [vm_compute; reflexivity|].
  eapply (submission_evidence_gate (λ _, None) 900000 sample_exit sample_snapshot sample_now 600);
    vm_compute; reflexivity.
Defined.
