(* ===== verification/Effects.v ===== *)
(** Programs that talk to the outside: requests and their answers, runs of one
    program, and concurrent runs of several that may crash at any point.

    An [async] function of the runtime is a [prog]: it computes until it awaits
    an answer (a database statement, a broker request, a timer) and continues
    with the answer.  Everything between two awaits runs without interruption,
    so the awaits are the only points at which runners interleave. *)

From S2P Require Import Prelude.

(** [E X] are the requests answered by an [X]. *)
Inductive prog (E : Type → Type) (A : Type) : Type :=
| Done (a : A)
| Ask (X : Type) (e : E X) (k : X → prog E A).
Arguments Done {E A} a.
Arguments Ask {E A X} e k.

(** An [async] function: it resolves or rejects. *)
Definition async (E : Type → Type) (A : Type) : Type := prog E (res A).

Section prog.
Context {E : Type → Type}.

Fixpoint prog_bind {A B} (p : prog E A) (f : A → prog E B) : prog E B :=
  match p with
  | Done a => f a
  | Ask e k => Ask e (λ x, prog_bind (k x) f)
  end.

(** [await p] and what follows; a rejection skips it. *)
Definition async_bind {A B} (p : async E A) (f : A → async E B) : async E B :=
  prog_bind p (λ r, match r with Ret a => f a | Throw c => Done (Throw c) end).

Definition async_ret {A} (a : A) : async E A := Done (Ret a).
Definition reject {A} (c : string) : async E A := Done (Throw c).

(** A synchronous computation that may throw. *)
Definition sync {A} (r : res A) : async E A := Done r.

(** [await] of a request. *)
Definition ask {A} (e : E (res A)) : async E A := Ask e (λ x, Done x).
Definition ask_value {A} (e : E A) : async E A := Ask e (λ x, Done (Ret x)).

(** [try { p } catch (error) { h(error) }] *)
Definition attempt {A} (p : async E A) (h : string → async E A) : async E A :=
  prog_bind p (λ r, match r with Ret a => Done (Ret a) | Throw c => h c end).

(** [if (b) throw new Error(c);] *)
Definition reject_if (b : bool) (c : string) : async E unit := if b then reject c else async_ret tt.

(** ** Monitors

    A monitor reads the requests and answers of a program; [allowed] says which
    requests it accepts in its present state. *)

Section monitor.
Context {M : Type} (allowed : M → ∀ X, E X → Prop) (next : M → ∀ X, E X → X → M).

(** Every request [p] may make is allowed, and [p] ends in [Q]. *)
Fixpoint monitored {B} (m : M) (p : prog E B) (Q : M → B → Prop) : Prop :=
  match p with
  | Done a => Q m a
  | Ask e k => allowed m _ e ∧ ∀ x, monitored (next m _ e x) (k x) Q
  end.

Lemma monitored_mono {B} m (p : prog E B) (Q Q' : M → B → Prop) :
  (∀ m b, Q m b → Q' m b) → monitored m p Q → monitored m p Q'.
Proof.
  intros HQ. revert m. induction p as [a|X e k IH]; intros m; cbn [monitored]; [apply HQ|].
  intros [He Hk]. split; [done|]. intros x. by apply IH, Hk.
Qed.

Lemma monitored_bind {B C} m (p : prog E B) (f : B → prog E C) Q :
  monitored m p (λ m' a, monitored m' (f a) Q) → monitored m (prog_bind p f) Q.
Proof.
  revert m. induction p as [a|X e k IH]; intros m; cbn [monitored prog_bind]; [done|].
  intros [He Hk]. split; [done|]. intros x. by apply IH, Hk.
Qed.

Lemma monitored_async_bind {B C} m (p : async E B) (f : B → async E C) (Q : M → res C → Prop) :
  monitored m p (λ m' r, match r with Ret a => monitored m' (f a) Q | Throw c => Q m' (Throw c) end) →
  monitored m (async_bind p f) Q.
Proof.
  intros H. apply monitored_bind. revert H. apply monitored_mono. by intros m' [a|c].
Qed.

Lemma monitored_sync {B} m (r : res B) (Q : M → res B → Prop) : Q m r → monitored m (sync r) Q.
Proof. done. Qed.

Lemma monitored_ask {B} m (e : E (res B)) (Q : M → res B → Prop) :
  allowed m _ e → (∀ x, Q (next m _ e x) x) → monitored m (ask e) Q.
Proof. by split. Qed.
End monitor.

(** What a program asked and was answered. *)
Inductive entry : Type :=
| Entry (X : Type) (e : E X) (x : X).

(** [p] asks the requests of the log, gets its answers, and becomes [q]. *)
Inductive path {A} : prog E A → list entry → prog E A → Prop :=
| path_here p : path p [] p
| path_ask X (e : E X) k x l q : path (k x) l q → path (Ask e k) (Entry X e x :: l) q.

(** The monitor that remembers everything. *)
Definition extend (l : list entry) (X : Type) (e : E X) (x : X) : list entry := l ++ [Entry X e x].

Lemma monitored_path {A} (allowed : list entry → ∀ X, E X → Prop) l0 (p : prog E A) Q l X (e : E X) k :
  monitored allowed extend l0 p Q → path p l (Ask e k) → allowed (l0 ++ l) X e.
Proof.
  intros Hm Hp. remember (Ask e k) as q eqn:Eq. revert l0 Hm.
  induction Hp as [p|X' e' k' x l q Hp IH]; intros l0.
  - subst. cbn [monitored]. intros [He _]. by rewrite app_nil_r.
  - cbn [monitored]. intros [_ Hk]. specialize (IH Eq _ (Hk x)). unfold extend in IH.
    by rewrite <- app_assoc in IH.
Qed.

Lemma monitored_done {A} (allowed : list entry → ∀ X, E X → Prop) l0 (p : prog E A) Q l a :
  monitored allowed extend l0 p Q → path p l (Done a) → Q (l0 ++ l) a.
Proof.
  intros Hm Hp. remember (Done a) as q eqn:Eq. revert l0 Hm.
  induction Hp as [p|X' e' k' x l q Hp IH]; intros l0.
  - subst. cbn [monitored]. by rewrite app_nil_r.
  - cbn [monitored]. intros [_ Hk]. specialize (IH Eq _ (Hk x)). unfold extend in IH.
    by rewrite <- app_assoc in IH.
Qed.

(** ** One undisturbed run *)

Section run.
Context {S : Type} (answer : ∀ X, E X → S → X * S).

Fixpoint run {A} (p : prog E A) (w : S) : A * S :=
  match p with
  | Done a => (a, w)
  | Ask e k => let '(x, w') := answer _ e w in run (k x) w'
  end.

(** The run up to a request: what was asked before, and the program there. *)
Fixpoint run_until (stop : ∀ X, E X → bool) {A} (p : prog E A) (w : S) : list entry * prog E A :=
  match p with
  | Done a => ([], Done a)
  | Ask e k =>
      if stop _ e then ([], Ask e k)
      else let '(x, w') := answer _ e w in
           let '(l, q) := run_until stop (k x) w' in (Entry _ e x :: l, q)
  end.

Lemma run_until_path stop {A} (p : prog E A) w : path p (run_until stop p w).1 (run_until stop p w).2.
Proof.
  revert w. induction p as [a|X e k IH]; intros w; cbn [run_until]; [constructor|].
  destruct (stop X e); [constructor|]. destruct (answer X e w) as [x w']. specialize (IH x w').
  destruct (run_until stop (k x) w') as [l q]. by constructor.
Qed.

Lemma run_until_done {A} (p : prog E A) w : (run_until (λ _ _, false) p w).2 = Done (run p w).1.
Proof.
  revert w. induction p as [a|X e k IH]; intros w; [done|]. cbn [run_until run]. destruct (answer X e w) as [x w'].
  specialize (IH x w'). by destruct (run_until _ (k x) w').
Qed.

Lemma run_bind {A B} (p : prog E A) (f : A → prog E B) w :
  run (prog_bind p f) w = let '(a, w') := run p w in run (f a) w'.
Proof.
  revert w. induction p as [a|X e k IH]; intros w; [done|]. cbn [prog_bind run].
  destruct (answer X e w) as [x w']. apply IH.
Qed.

Lemma run_async_bind {A B} (p : async E A) (f : A → async E B) w :
  run (async_bind p f) w =
    match run p w with (Ret a, w') => run (f a) w' | (Throw c, w') => (Throw c, w') end.
Proof. unfold async_bind. rewrite run_bind. by destruct (run p w) as [[a|c] w']. Qed.

(** What every allowed request keeps, the run keeps. *)
Lemma run_monitored {M A} (allowed : M → ∀ X, E X → Prop) (next : M → ∀ X, E X → X → M) (J : S → Prop)
    m (p : prog E A) Q w :
  (∀ m X (e : E X) w, allowed m X e → J w → J (answer X e w).2) →
  monitored allowed next m p Q → J w → J (run p w).2.
Proof.
  intros HJ. revert m w. induction p as [a|X e k IH]; intros m w; [done|]. cbn [monitored run].
  intros [He Hk] Hw. pose proof (HJ m X e w He Hw) as H. destruct (answer X e w) as [x w']. by eapply IH.
Qed.

Lemma run_ask {A} (e : E (res A)) w : run (ask e) w = answer _ e w.
Proof. unfold ask. cbn [run]. by destruct (answer (res A) e w). Qed.

(** What it takes for a run to resolve. *)
Lemma run_bind_Ret {A B} (p : async E A) (f : A → async E B) w b w' :
  run (async_bind p f) w = (Ret b, w') ↔ ∃ a w1, run p w = (Ret a, w1) ∧ run (f a) w1 = (Ret b, w').
Proof.
  rewrite run_async_bind. destruct (run p w) as [[a|c] w1]; [naive_solver|]. split; [done|]. by intros (?&?&[=]&?).
Qed.

Lemma run_sync_Ret {A} (r : res A) w a w' : run (sync r) w = (Ret a, w') ↔ r = Ret a ∧ w' = w.
Proof. unfold sync. cbn. naive_solver. Qed.

Lemma run_reject_if_Ret b c w u w' : run (reject_if b c) w = (Ret u, w') ↔ b = false ∧ w' = w.
Proof. destruct b, u; cbn; naive_solver. Qed.
End run.

(** ** Concurrent runners *)

Section system.
Context {S A : Type}.
(** The answers the outside may give, and what it becomes. *)
Context (handle : ∀ X, E X → S → X → S → Prop).
(** What everything else may do to the outside. *)
Context (others : S → S → Prop).
(** The programs that may be started. *)
Context (starts : prog E A → Prop).

Record system := { world : S; runners : list (prog E A) }.

(** A runner gets an answer, dies, or is started; or the outside changes. *)
Inductive step : system → system → Prop :=
| step_answer w w' l1 l2 X (e : E X) k x :
    handle X e w x w' →
    step {| world := w; runners := l1 ++ Ask e k :: l2 |} {| world := w'; runners := l1 ++ k x :: l2 |}
| step_crash w l1 l2 p :
    step {| world := w; runners := l1 ++ p :: l2 |} {| world := w; runners := l1 ++ l2 |}
| step_start w l p :
    starts p → step {| world := w; runners := l |} {| world := w; runners := p :: l |}
| step_others w w' l :
    others w w' → step {| world := w; runners := l |} {| world := w'; runners := l |}.

Definition reachable (w : S) (s : system) : Prop := rtc step {| world := w; runners := [] |} s.

(** A run whose answers the outside may give is one of the histories. *)
Lemma run_reachable answer p w l :
  (∀ X (e : E X) w, handle X e w (answer X e w).1 (answer X e w).2) →
  rtc step {| world := w; runners := p :: l |}
    {| world := (run answer p w).2; runners := Done (run answer p w).1 :: l |}.
Proof.
  intros Ha. revert w. induction p as [a|X e k IH]; intros w; [apply rtc_refl|].
  cbn [run]. pose proof (Ha X e w) as Hs. destruct (answer X e w) as [x w'].
  eapply rtc_l; [exact (step_answer w w' [] l X e k x Hs)|]. apply IH.
Qed.

(** ** Permits

    Some requests (a POST, a DELETE) must happen at most once.  A runner obtains
    the permit for one of them by winning a claim; the request spends it. *)

Section permits.
Context (I : S → Prop).
Context (is_use : ∀ X, E X → bool) (wins : ∀ X, E X → X → bool).
Context (claimed used : S → nat).

Definition possible {X} (e : E X) (x : X) : Prop := ∃ w w', I w ∧ handle X e w x w'.

Definition permit_after (b : bool) {X} (e : E X) (x : X) : bool :=
  if is_use X e then false else b || wins X e x.

(** With the permit [b], [p] makes the request only while it holds the permit,
    and ends with a permit and a value in [Q]. *)
Fixpoint guarded {B} (b : bool) (p : prog E B) (Q : bool → B → Prop) : Prop :=
  match p with
  | Done a => Q b a
  | Ask e k => (is_use _ e = true → b = true) ∧
               ∀ x, possible e x → guarded (permit_after b e x) (k x) Q
  end.

Lemma guarded_mono {B} b (p : prog E B) (Q Q' : bool → B → Prop) :
  (∀ b a, Q b a → Q' b a) → guarded b p Q → guarded b p Q'.
Proof.
  intros HQ. revert b. induction p as [a|X e k IH]; intros b; cbn [guarded]; [apply HQ|].
  intros [Hu Hk]. split; [done|]. intros x Hx. by apply IH, Hk.
Qed.

Lemma guarded_bind {B C} b (p : prog E B) (f : B → prog E C) Q :
  guarded b p (λ b' a, guarded b' (f a) Q) → guarded b (prog_bind p f) Q.
Proof.
  revert b. induction p as [a|X e k IH]; intros b; cbn [guarded prog_bind]; [done|].
  intros [Hu Hk]. split; [done|]. intros x Hx. by apply IH, Hk.
Qed.

Lemma guarded_async_bind {B C} b (p : async E B) (f : B → async E C) (Q : bool → res C → Prop) :
  guarded b p (λ b' r, match r with Ret a => guarded b' (f a) Q | Throw c => Q b' (Throw c) end) →
  guarded b (async_bind p f) Q.
Proof.
  intros H. apply guarded_bind. revert H. apply guarded_mono. by intros b' [a|c].
Qed.

Lemma guarded_ask {B} b (e : E (res B)) (Q : bool → res B → Prop) :
  is_use _ e = false → (∀ x, possible e x → Q (permit_after b e x) x) → guarded b (ask e) Q.
Proof. intros He HQ. split; [by rewrite He|]. exact HQ. Qed.

(** A part of a program whose end does not matter. *)
Definition anything {B} : bool → res B → Prop := λ _ _, True.

Lemma guarded_any {B} b (p : async E B) Q : guarded b p Q → guarded b p anything.
Proof. by apply guarded_mono. Qed.

Lemma guarded_any_bind {B C} b (p : async E B) (f : B → async E C) :
  guarded b p anything → (∀ a b', guarded b' (f a) anything) → guarded b (async_bind p f) anything.
Proof.
  intros Hp Hf. apply guarded_async_bind. revert Hp. apply guarded_mono. intros b' [a|c] _; [apply Hf|done].
Qed.

Lemma guarded_reject_if b c e : guarded b (reject_if c e) anything.
Proof. by destruct c. Qed.

Definition disciplined (b : bool) (p : prog E A) : Prop := guarded b p (λ _ _, True).

Definition permit_count (bs : list bool) : nat := length (List.filter id bs).

Lemma permit_count_app bs1 bs2 : permit_count (bs1 ++ bs2) = (permit_count bs1 + permit_count bs2)%nat.
Proof. unfold permit_count. by rewrite List.filter_app, length_app. Qed.

Lemma permit_count_cons b bs : permit_count (b :: bs) = ((if b then 1 else 0) + permit_count bs)%nat.
Proof. by destruct b. Qed.

(** Uses and permits together never exceed the claims. *)
Definition permits_ok (s : system) : Prop :=
  I (world s) ∧ ∃ bs, Forall2 disciplined bs (runners s) ∧
    (used (world s) + permit_count bs <= claimed (world s))%nat.

Hypothesis handle_inv : ∀ X (e : E X) w x w', I w → handle X e w x w' → I w'.
Hypothesis handle_count : ∀ X (e : E X) w x w', I w → handle X e w x w' →
  used w' = (used w + if is_use X e then 1 else 0)%nat ∧
  (claimed w + (if wins X e x then 1 else 0) <= claimed w')%nat.
Hypothesis others_inv : ∀ w w', I w → others w w' → I w'.
Hypothesis others_count : ∀ w w', I w → others w w' → used w' = used w ∧ (claimed w <= claimed w')%nat.
Hypothesis starts_disciplined : ∀ p, starts p → disciplined false p.

Lemma step_permits s s' : permits_ok s → step s s' → permits_ok s'.
Proof using handle_inv handle_count others_inv others_count starts_disciplined.
  intros [HI (bs & Hbs & Hle)] Hs. destruct Hs as [w w' l1 l2 X e k x Hx|w l1 l2 p|w l p Hp|w w' l Hw];
    cbn [world runners] in *.
  - apply Forall2_app_inv_r in Hbs as (b1 & bt & H1 & H2 & ->).
    apply Forall2_cons_inv_r in H2 as (b & b2 & Hb & H2 & ->).
    split; [by eapply handle_inv|]. destruct (handle_count _ _ _ _ _ HI Hx) as [Hu Hc].
    destruct Hb as [Huse Hk]. exists (b1 ++ permit_after b e x :: b2). split.
    + apply Forall2_app; [done|]. constructor; [|done]. apply Hk. by exists w, w'.
    + cbn [world]. rewrite Hu. rewrite !permit_count_app, !permit_count_cons in *. unfold permit_after.
      destruct (is_use X e).
      * rewrite Huse in Hle by done. lia.
      * destruct b, (wins X e x); cbn [orb]; lia.
  - split; [done|]. apply Forall2_app_inv_r in Hbs as (b1 & bt & H1 & H2 & ->).
    apply Forall2_cons_inv_r in H2 as (b & b2 & Hb & H2 & ->).
    exists (b1 ++ b2). split; [by apply Forall2_app|].
    rewrite !permit_count_app, !permit_count_cons in *. cbn [world]. lia.
  - split; [done|]. exists (false :: bs). split; [constructor; auto|]. by rewrite permit_count_cons.
  - split; [by eapply others_inv|]. destruct (others_count _ _ HI Hw) as [Hu Hc].
    exists bs. split; [done|]. cbn [world]. lia.
Qed.

(** The requests made never outnumber the claims won. *)
Lemma uses_bounded w s :
  I w → used w = 0%nat → reachable w s → I (world s) ∧ (used (world s) <= claimed (world s))%nat.
Proof using handle_inv handle_count others_inv others_count starts_disciplined.
  intros HI H0 Hr. assert (Hok : permits_ok s).
  { unfold reachable in Hr. remember {| world := w; runners := [] |} as s0 eqn:E0.
    assert (permits_ok s0) as Hs0 by (subst; split; [done|]; exists []; split; [constructor|cbn; lia]).
    clear E0. induction Hr as [|s1 s2 s3 H12 _ IH]; [done|]. apply IH. by eapply step_permits. }
  destruct Hok as [? (bs & _ & ?)]. split; [done|]. lia.
Qed.
End permits.

(** Less is possible where more is known of the outside. *)
Lemma guarded_stronger (I I' : S → Prop) is_use wins {B} b (p : prog E B) (Q : bool → B → Prop) :
  (∀ w, I' w → I w) → guarded I is_use wins b p Q → guarded I' is_use wins b p Q.
Proof.
  intros HI. revert b. induction p as [a|X e k IH]; intros b; cbn [guarded]; [done|].
  intros [Hu Hk]. split; [done|]. intros x (w & w' & Hw & Hx). apply IH, Hk. exists w, w'. auto.
Qed.
End system.

(** ** One run among others *)

Section among_others.
Context {S : Type}.
(** The answers to this run, and what everything else does between them. *)
Context (handle : ∀ X, E X → S → X → S → Prop) (others : S → S → Prop).

(** [p] can end with [a]. *)
Fixpoint runs {A} (p : prog E A) (w : S) (a : A) (w' : S) : Prop :=
  match p with
  | Done b => a = b ∧ w' = w
  | Ask e k => ∃ x w1 w2, handle _ e w x w1 ∧ others w1 w2 ∧ runs (k x) w2 a w'
  end.

Lemma runs_bind {A B} (p : prog E A) (f : A → prog E B) w b w' :
  runs (prog_bind p f) w b w' ↔ ∃ a w1, runs p w a w1 ∧ runs (f a) w1 b w'.
Proof.
  revert w. induction p as [a|X e k IH]; intros w; cbn [prog_bind runs].
  - split; [intros H; by exists a, w|]. by intros (a' & w1 & [-> ->] & H).
  - split.
    + intros (x & w1 & w2 & Hh & Ho & (a & w3 & H1 & H2)%IH). exists a, w3. split; [|done]. by exists x, w1, w2.
    + intros (a & w3 & (x & w1 & w2 & Hh & Ho & H1) & H2). exists x, w1, w2. split_and!; [done..|].
      apply IH. by exists a, w3.
Qed.

Lemma runs_async_bind {A B} (p : async E A) (f : A → async E B) w b w' :
  runs (async_bind p f) w b w' →
  ∃ r w1, runs p w r w1 ∧ match r with Ret a => runs (f a) w1 b w' | Throw c => b = Throw c ∧ w' = w1 end.
Proof. intros (r & w1 & H1 & H2)%runs_bind. exists r, w1. split; [done|]. by destruct r. Qed.

Lemma runs_ask_then {A B} (e : E (res A)) (k : res A → prog E B) w b w' :
  runs (prog_bind (ask e) k) w b w' → ∃ x w1 w2, handle _ e w x w1 ∧ others w1 w2 ∧ runs (k x) w2 b w'.
Proof. done. Qed.

Lemma runs_ask_bind {A B} (e : E (res A)) (f : A → async E B) w b w' :
  runs (async_bind (ask e) f) w b w' →
  ∃ x w1 w2, handle _ e w x w1 ∧ others w1 w2 ∧
    match x with Ret a => runs (f a) w2 b w' | Throw c => b = Throw c ∧ w' = w2 end.
Proof. intros (x & w1 & w2 & H1 & H2 & H3)%runs_ask_then. exists x, w1, w2. split_and!; [done..|]. by destruct x. Qed.

Lemma runs_ask_value {A B} (e : E A) (f : A → async E B) w b w' :
  runs (async_bind (ask_value e) f) w b w' → ∃ x w1 w2, handle _ e w x w1 ∧ others w1 w2 ∧ runs (f x) w2 b w'.
Proof. done. Qed.

(** What every allowed request and the others keep, the run keeps. *)
Lemma runs_monitored {M A} (allowed : M → ∀ X, E X → Prop) (next : M → ∀ X, E X → X → M) (J : S → Prop)
    m (p : prog E A) Q w a w' :
  (∀ m X (e : E X) w x w', allowed m X e → J w → handle X e w x w' → J w') →
  (∀ w w', J w → others w w' → J w') →
  monitored allowed next m p Q → runs p w a w' → J w → J w'.
Proof.
  intros HJ HO. revert m w. induction p as [b|X e k IH]; intros m w; cbn [monitored runs].
  - by intros _ [_ ->].
  - intros [He Hk] (x & w1 & w2 & Hh & Ho & Hr) Hw. eapply IH; [apply Hk|exact Hr|]. eapply HO; [|exact Ho]. by eapply HJ.
Qed.

(** A run on its own, the others idle. *)
Lemma run_runs answer {A} (p : prog E A) w :
  (∀ X (e : E X) w, handle X e w (answer X e w).1 (answer X e w).2) → (∀ w, others w w) →
  runs p w (run answer p w).1 (run answer p w).2.
Proof.
  intros Ha Ho. revert w. induction p as [a|X e k IH]; intros w; [done|]. cbn [runs run].
  pose proof (Ha X e w) as H. destruct (answer X e w) as [x w1]. exists x, w1, w1. by split_and!.
Qed.
End among_others.
End prog.
Arguments Entry {E X} e x.

Create HintDb guarded discriminated.
#[export] Hint Resolve guarded_bind guarded_reject_if : guarded.

Declare Scope async_scope.
Delimit Scope async_scope with async.
Notation "'let!' x := p 'in' k" := (async_bind p (λ x, k))
  (at level 10, x pattern, p at level 100, k at level 200) : async_scope.
Open Scope async_scope.
