(* ===== verification/Submission.v ===== *)
(** Submitting paper orders, the database side: the transactions of
    src/services/autonomousPostgresExecutionService.ts.

    The tables are those of ExecutionTables.v.  The columns that migration 006
    adds to order_intents, the decision columns of candidates and the
    reservation_terminal_transitions are kept in lists of their own, keyed by
    the row they belong to.  Each transaction is one operation [tx]: it locks the
    rows it selects, and PostgresTransaction.v shows that it commits as a whole
    or not at all; now() is the start of the transaction.

    Section variables stand for code outside src/: SHA-256 and HMAC of
    node:crypto ([digest], [hmac]) and the document a jsonb column holds
    ([document]). *)

From Stdlib Require Import Qminmax Qround.
From S2P Require Import Prelude.
From S2P Require Import JsString.
From S2P Require Import JsDate.
From S2P Require Import JsNumber.
From S2P Require Import JsText.
From S2P Require Import JsJson.
From S2P Require Import PostgresNumeric.
From S2P Require Import TradeLifecycle.
From S2P Require Import SchedulerLease.
From S2P Require Import ExecutionTables.
From S2P Require Import ExecutionReservation.
From S2P Require Import BrokerResult.
From S2P Require Import ExecutionEvidence.
From S2P Require Import SubmissionEvidence.
Open Scope Z_scope.

(** ** Tables *)

(** Columns of order_intents. *)
Record LifecycleColumns := {
  lc_intent_id : string;
  lc_operation : option string;
  lc_strategy_classification : option string;
  lc_parent_position_id : option string;
  lc_opening_intent_id : option string;
  lc_contract_id : option string;
  lc_lifecycle_state : string;
  lc_autonomous_cycle_id : option string;
  lc_workstream_execution_id : option string;
  lc_reservation_release_reason : option string
}.

(** Columns of candidates. *)
Record CandidateRow := {
  cand_id : string;
  cand_decision : string;
  cand_lifecycle_status : string;
  cand_decision_reason : string;
  cand_updated_at : Z;
  cand_version : Z
}.

Record TerminalTransitionRow := {
  tt_id : string;
  tt_reservation_id : string;
  tt_order_intent_id : string;
  tt_terminal_state : string;
  tt_release_reason : string;
  tt_idempotency_key : string;
  tt_occurred_at : Z
}.

(** [s_now] is now() of the next statement or transaction. *)
Record SubmissionDb := {
  s_now : Z;
  s_exec : ExecDb;
  s_lifecycle : list LifecycleColumns;
  s_candidates : list CandidateRow;
  s_terminals : list TerminalTransitionRow
}.

Definition set_exec (x : ExecDb) (d : SubmissionDb) : SubmissionDb :=
  {| s_now := s_now d; s_exec := x; s_lifecycle := s_lifecycle d; s_candidates := s_candidates d;
     s_terminals := s_terminals d |}.
Definition set_lifecycle (x : list LifecycleColumns) (d : SubmissionDb) : SubmissionDb :=
  {| s_now := s_now d; s_exec := s_exec d; s_lifecycle := x; s_candidates := s_candidates d;
     s_terminals := s_terminals d |}.
Definition set_candidates (x : list CandidateRow) (d : SubmissionDb) : SubmissionDb :=
  {| s_now := s_now d; s_exec := s_exec d; s_lifecycle := s_lifecycle d; s_candidates := x;
     s_terminals := s_terminals d |}.
Definition set_terminals (x : list TerminalTransitionRow) (d : SubmissionDb) : SubmissionDb :=
  {| s_now := s_now d; s_exec := s_exec d; s_lifecycle := s_lifecycle d; s_candidates := s_candidates d;
     s_terminals := x |}.

(** A statement on the tables of ExecutionTables.v. *)
Definition exec {A} (m : tx ExecDb A) : tx SubmissionDb A := λ d,
  match m (s_exec d) with Ret (a, x) => Ret (a, set_exec x d) | Throw c => Throw c end.

Definition held (fence : SchedulerFence) (d : SubmissionDb) : bool :=
  fenceSql (s_now d) fence (db_leases (s_exec d)).

(** [... WHERE ... AND fence]: without the fence no row is touched. *)
Definition fenced (fence : SchedulerFence) (m : tx SubmissionDb nat) : tx SubmissionDb nat := λ d,
  if held fence d then m d else Ret (0%nat, d).

(** [if (result.rowCount !== 1) throw new Error(code);] *)
Definition require_one (code : string) (m : tx SubmissionDb nat) : tx SubmissionDb unit :=
  n ← m; if (n =? 1)%nat then mret tt else throw code.

Definition require (b : bool) (code : string) : tx SubmissionDb unit :=
  if b then mret tt else throw code.

Definition lift {A} (r : res A) : tx SubmissionDb A := λ d,
  match r with Ret a => Ret (a, d) | Throw c => Throw c end.

Definition row_count (inserted : bool) : nat := if inserted then 1 else 0.

Definition lifecycle_of (d : SubmissionDb) (id : string) : option LifecycleColumns :=
  select_one (λ l, (lc_intent_id l =? id)%string) (s_lifecycle d).

(** ** Text of columns *)

Definition asset_class_name (a : ExecutionAssetClass) : string :=
  match a with equity => "equity" | option_contract => "option" end.
Definition side_name (s : ExecutionSide) : string :=
  match s with buy => "buy" | sell => "sell" | buy_to_open => "buy_to_open" | sell_to_close => "sell_to_close" end.
Definition order_type_name (t : ExecutionOrderType) : string :=
  match t with market => "market" | limit => "limit" | stop => "stop" | stop_limit => "stop_limit" end.
Definition time_in_force_name (t : ExecutionTimeInForce) : string :=
  match t with day => "day" | gtc => "gtc" | opg => "opg" | cls => "cls" | ioc => "ioc" | fok => "fok" end.
Definition review_type_name (t : ReviewType) : string :=
  match t with ReviewEntry => "entry" | ReviewExit => "exit" end.
Definition position_side_of (s : PositionSide) : side :=
  match s with PositionLong => long | PositionShort => short end.

(** [column::text] of a numeric column with [scale] decimals. *)
Definition numeric_text (scale : nat) (q : Q) : string :=
  let z := Qfloor (q * inject_Z (10 ^ Z.of_nat scale)) in
  String.append (if z <? 0 then "-" else "") (unsigned_text (Z.abs z) scale).
Definition quantity_text : option Q → option string := fmap (numeric_text 12).
Definition amount_text : option Q → option string := fmap (numeric_text 8).

(** [text::numeric] *)
Definition numeric_of_text (s : string) : option Q :=
  let '(negative, unsigned) := span_sign (trim s) in
  match split_decimal unsigned with
  | Some (w, f, e) =>
      let exponent := match e with Some (n, d) => signed n (digits_val 0 d) | None => 0 end in
      let shift := exponent - Z.of_nat (String.length f) in
      Some (inject_Z (signed negative (digits_val 0 (w ++ f)%string))
            * (if shift <? 0 then / inject_Z (10 ^ (- shift)) else inject_Z (10 ^ shift)))%Q
  | None => None
  end.

(** What a numeric column with [scale] decimals stores: it rounds half away
    from zero. *)
Definition numeric_round (scale : nat) (q : Q) : Q :=
  let unit := inject_Z (10 ^ Z.of_nat scale) in
  let n := Qfloor (Qabs.Qabs q * unit + (1 # 2))%Q in
  (inject_Z (if Qle_bool 0 q then n else - n) / unit)%Q.

(** ** Conditions shared by the queries *)

(** [commandFilter]: the rows a command works on. *)
Definition commandFilter (command : string)
    : res (ReviewType → LifecycleColumns → IntentRow → bool) :=
  let operation_in (names : list string) (l : LifecycleColumns) :=
    match lc_operation l with Some o => str_mem o names | None => false end in
  if (command =? "paper:execute:reviewed")%string then
    Ret (λ t l _, bool_decide (t = ReviewEntry) && operation_in ["buy_to_open"; "sell_to_open"]%string l)
  else if (command =? "paper:exit:execute")%string then
    Ret (λ t l _, bool_decide (t = ReviewExit) && operation_in ["sell_to_close"; "buy_to_cover"]%string l)
  else if (command =? "hedge:exit:execute")%string then
    Ret (λ t l i, bool_decide (t = ReviewExit) && operation_in ["sell_to_close"]%string l
                  && includes_any ["hedge"]%string (to_lower (intent_strategy_key i)))
  else if (command =? "zero-dte:engine")%string then
    Ret (λ t l _, bool_decide (t = ReviewEntry) && operation_in ["buy_to_open"]%string l
                  && match lc_strategy_classification l with
                     | Some c => str_mem c ["zero_dte_long_call"; "zero_dte_long_put"]%string | None => false end)
  else Throw ("POSTGRES_EXECUTION_COMMAND_UNSUPPORTED: " ++ command)%string.

Definition text_is (a : option string) (b : string) : bool := bool_decide (a = Some b).

(** [reviewedNumericMatchesIntentSql] *)
Definition reviewed_numeric_matches (reviewed : option string) (column : option Q) : bool :=
  match column with
  | None => match reviewed with None | Some EmptyString => true | _ => false end
  | Some q =>
      match reviewed with
      | Some s => match plain_decimal s with
                  | Some (false, w, f) => Qeq_bool (decimal_value w f) q
                  | _ => false
                  end
      | None => false
      end
  end.

(** [noPriorBrokerAcknowledgementSql] *)
Definition acknowledged_statuses : list string :=
  ["submission_acknowledged"; "submission_reconciled"; "accepted"; "new"; "pending_new"; "partially_filled";
   "filled"]%string.

Definition acknowledging_order (i : IntentRow) (o : OrderRow) : bool :=
  (order_account_id o =? intent_account_id i)%string
  && ((order_intent_id o =? intent_id i)%string || (order_client_order_id o =? intent_client_order_id i)%string).

Definition acknowledging_event (i : IntentRow) (e : EventRow) : bool :=
  (event_account_id e =? intent_account_id i)%string
  && (text_is (event_intent_id e) (intent_id i) || text_is (event_client_order_id e) (intent_client_order_id i))
  && (is_some_bool (event_broker_order_id e) || str_mem (event_status e) acknowledged_statuses).

Definition no_prior_acknowledgement (i : IntentRow) (d : ExecDb) : bool :=
  negb (existsb (acknowledging_order i) (db_orders d)) && negb (existsb (acknowledging_event i) (db_events d)).

Definition review_of (d : ExecDb) (i : IntentRow) : option ReviewRow :=
  match intent_review_id i with
  | Some id => select_one (λ r, (rv_id (review_input r) =? id)%string) (db_reviews d)
  | None => None
  end.

Definition confirmation_of (d : ExecDb) (i : IntentRow) (r : ReviewRow) : option ConfirmationRow :=
  match intent_confirmation_id i with
  | Some id => select_one (λ c, (cf_id (conf_input c) =? id)%string
                                && (conf_review_id c =? rv_id (review_input r))%string) (db_confirmations d)
  | None => None
  end.

(** The newest snapshot of the account. *)
Definition latest_snapshot (d : ExecDb) (account : string) : option SnapshotRow :=
  latest snap_observed_at snap_id (List.filter (λ s, (snap_account_id s =? account)%string) (db_snapshots d)).

(** [COALESCE(notional, quantity * limit_price * CASE asset_class WHEN 'option'
    THEN 100 ELSE 1 END)]; a NULL is skipped by SUM. *)
Definition contract_exposure (o : OrderRow) : Q :=
  match order_notional o with
  | Some n => n
  | None => match order_quantity o, order_limit_price o with
            | Some q, Some p => (q * p * (if bool_decide (order_asset_class o = option_contract) then 100 else 1))%Q
            | _, _ => 0%Q
            end
  end.

(** The six limits with [amount] added to what is deployed. *)
Definition capacity (account symbol : string) (now : Z) (amount : Q) (s : SnapshotRow) (l : RiskLimitProjection)
    (a : AllocationRow) (d : ExecDb) : LimitVerdict :=
  let equity := or_zero (snap_equity s) in
  let reservations := counted_reservations account now d in
  let orders := counted_orders account d in
  let positions := counted_positions account d in
  let total := (qsum position_exposure positions + qsum contract_exposure orders
                + qsum resv_amount reservations + amount)%Q in
  let symbol_total :=
    (qsum position_exposure (List.filter (λ p, (pos_symbol p =? symbol)%string) positions)
     + qsum contract_exposure (List.filter (λ o, (order_symbol o =? symbol)%string) orders)
     + qsum resv_amount (List.filter (λ r, (resv_symbol r =? symbol)%string) reservations) + amount)%Q in
  let strategy := (alloc_deployed a + alloc_reserved a + amount)%Q in
  {| buying_power_allowed :=
       Qle_bool amount (or_zero (snap_buying_power s) - qsum resv_amount reservations
                        - qsum contract_exposure orders - cash_reserve s l);
     deployment_allowed := within total (rl_maxDeploymentAmount l)
       && within total (scaled_limit equity (rl_maxDeploymentRatio l));
     strategy_allowed := within strategy (alloc_amount a) && within strategy (scaled_limit equity (alloc_ratio a));
     symbol_allowed := within symbol_total (rl_maxSymbolNotional l);
     position_count_allowed := below (List.length positions) (rl_maxPositionCount l);
     order_count_allowed := below (List.length orders) (rl_maxOrderCount l) |}.

Definition capacityAllowed (v : LimitVerdict) : bool :=
  buying_power_allowed v && deployment_allowed v && strategy_allowed v && symbol_allowed v
  && position_count_allowed v && order_count_allowed v.

(** ** Writes *)

Definition set_intent (status : IntentStatus) (reservation confirmation : option string) (fingerprint : string)
    (ready_at submitted_at terminal_at : option Z) (now : Z) (r : IntentRow) : IntentRow :=
  {| intent_id := intent_id r; intent_account_id := intent_account_id r;
     intent_candidate_id := intent_candidate_id r; intent_reservation_id := reservation;
     intent_review_id := intent_review_id r; intent_confirmation_id := confirmation;
     intent_client_order_id := intent_client_order_id r; intent_idempotency_key := intent_idempotency_key r;
     intent_strategy_key := intent_strategy_key r; intent_symbol := intent_symbol r;
     intent_underlying_symbol := intent_underlying_symbol r; intent_asset_class := intent_asset_class r;
     intent_side := intent_side r; intent_order_type := intent_order_type r;
     intent_time_in_force := intent_time_in_force r; intent_quantity := intent_quantity r;
     intent_notional := intent_notional r; intent_limit_price := intent_limit_price r;
     intent_stop_price := intent_stop_price r; intent_estimated_premium := intent_estimated_premium r;
     intent_max_risk := intent_max_risk r; intent_status := status; intent_fingerprint := intent_fingerprint r;
     intent_lifecycle_fingerprint := fingerprint; intent_request_payload := intent_request_payload r;
     intent_request_id := intent_request_id r; intent_correlation_id := intent_correlation_id r;
     intent_ready_at := ready_at; intent_submitted_at := submitted_at; intent_terminal_at := terminal_at;
     intent_version := intent_version r + 1; intent_created_at := intent_created_at r; intent_updated_at := now |}.

(** [SET status = $, updated_at = now, version = version + 1] *)
Definition set_intent_status (status : IntentStatus) (now : Z) (r : IntentRow) : IntentRow :=
  set_intent status (intent_reservation_id r) (intent_confirmation_id r) (intent_lifecycle_fingerprint r)
    (intent_ready_at r) (intent_submitted_at r) (intent_terminal_at r) now r.

(** The same with [terminal_at = now]. *)
Definition end_intent (status : IntentStatus) (now : Z) (r : IntentRow) : IntentRow :=
  set_intent status (intent_reservation_id r) (intent_confirmation_id r) (intent_lifecycle_fingerprint r)
    (intent_ready_at r) (intent_submitted_at r) (Some now) now r.

Definition in_status (id : string) (status : IntentStatus) (r : IntentRow) : bool :=
  (intent_id r =? id)%string && bool_decide (intent_status r = status).

(** Constraints on the times of an intent. *)
Definition intent_times_ok (r : IntentRow) : bool :=
  let after t := match t with Some t => intent_created_at r <=? t | None => true end in
  after (intent_ready_at r) && after (intent_submitted_at r) && after (intent_terminal_at r)
  && (intent_created_at r <=? intent_updated_at r).

Definition update_intent (p : IntentRow → bool) (f : IntentRow → IntentRow) : tx SubmissionDb nat :=
  exec (update_rows intent_times_ok db_intents set_intents p f).

(** The lifecycle columns of an intent, in the same statement as its row. *)
Definition update_lifecycle (id : string) (f : LifecycleColumns → LifecycleColumns) : tx SubmissionDb unit :=
  modify (λ d, set_lifecycle (update_where (λ l, (lc_intent_id l =? id)%string) f (s_lifecycle d)) d).

Definition in_state (state : string) (l : LifecycleColumns) : LifecycleColumns :=
  {| lc_intent_id := lc_intent_id l; lc_operation := lc_operation l;
     lc_strategy_classification := lc_strategy_classification l; lc_parent_position_id := lc_parent_position_id l;
     lc_opening_intent_id := lc_opening_intent_id l; lc_contract_id := lc_contract_id l;
     lc_lifecycle_state := state; lc_autonomous_cycle_id := lc_autonomous_cycle_id l;
     lc_workstream_execution_id := lc_workstream_execution_id l;
     lc_reservation_release_reason := lc_reservation_release_reason l |}.

Definition in_cycle (cycle workstream : string) (l : LifecycleColumns) : LifecycleColumns :=
  {| lc_intent_id := lc_intent_id l; lc_operation := lc_operation l;
     lc_strategy_classification := lc_strategy_classification l; lc_parent_position_id := lc_parent_position_id l;
     lc_opening_intent_id := lc_opening_intent_id l; lc_contract_id := lc_contract_id l;
     lc_lifecycle_state := lc_lifecycle_state l; lc_autonomous_cycle_id := Some cycle;
     lc_workstream_execution_id := Some workstream;
     lc_reservation_release_reason := lc_reservation_release_reason l |}.

Definition with_release_reason (reason : option string) (l : LifecycleColumns) : LifecycleColumns :=
  {| lc_intent_id := lc_intent_id l; lc_operation := lc_operation l;
     lc_strategy_classification := lc_strategy_classification l; lc_parent_position_id := lc_parent_position_id l;
     lc_opening_intent_id := lc_opening_intent_id l; lc_contract_id := lc_contract_id l;
     lc_lifecycle_state := lc_lifecycle_state l; lc_autonomous_cycle_id := lc_autonomous_cycle_id l;
     lc_workstream_execution_id := lc_workstream_execution_id l;
     lc_reservation_release_reason := or_else reason (lc_reservation_release_reason l) |}.

(** An UPDATE of an intent in a status, row and lifecycle columns, when the
    fence holds. *)
Definition move_intent (fence : SchedulerFence) (id : string) (from : IntentStatus) (f : IntentRow → IntentRow)
    (g : LifecycleColumns → LifecycleColumns) : tx SubmissionDb nat :=
  fenced fence
    (n ← update_intent (in_status id from) f;
     _ ← (if (n =? 0)%nat then mret tt else update_lifecycle id g);
     mret n).

Definition set_candidate (status reason : string) (now : Z) (c : CandidateRow) : CandidateRow :=
  {| cand_id := cand_id c; cand_decision := cand_decision c; cand_lifecycle_status := status;
     cand_decision_reason := reason; cand_updated_at := now; cand_version := cand_version c + 1 |}.

Definition update_candidate (fence : SchedulerFence) (id status reason : string) (now : Z) : tx SubmissionDb nat :=
  fenced fence (λ d,
    let selected c := (cand_id c =? id)%string && (cand_decision c =? "selected")%string in
    Ret (count_where selected (s_candidates d),
         set_candidates (update_where selected (set_candidate status reason now) (s_candidates d)) d)).

(** INSERT ... WHERE fence ON CONFLICT (event_id) DO NOTHING *)
Definition insert_event (e : EventRow) : tx SubmissionDb nat :=
  written ← exec (insert_unless same_event same_event event_checks db_events set_events e);
  mret (row_count written).

Definition consume (fence : SchedulerFence) (review : string) (statuses : list ReviewStatus) (now : Z)
    : tx SubmissionDb nat :=
  fenced fence (exec (update_rows review_checks db_reviews set_reviews
    (λ r, (rv_id (review_input r) =? review)%string && bool_decide (review_status r ∈ statuses)) (consume_review now))).

Definition consume_confirmed (fence : SchedulerFence) (confirmation : string) (statuses : list ConfirmationStatus)
    (now : Z) : tx SubmissionDb nat :=
  fenced fence (exec (update_rows confirmation_checks db_confirmations set_confirmations
    (λ c, (cf_id (conf_input c) =? confirmation)%string && bool_decide (conf_status c ∈ statuses))
    (consume_confirmation now))).

Definition release_reservation (reason : string) (now : Z) (r : ReservationRow) : ReservationRow :=
  {| resv_id := resv_id r; resv_account_id := resv_account_id r; resv_candidate_id := resv_candidate_id r;
     resv_strategy_key := resv_strategy_key r; resv_symbol := resv_symbol r; resv_asset_class := resv_asset_class r;
     resv_amount := resv_amount r; resv_status := ReservationReleased;
     resv_idempotency_key := resv_idempotency_key r; resv_fingerprint := resv_fingerprint r;
     resv_snapshot_id := resv_snapshot_id r; resv_job_name := resv_job_name r;
     resv_fencing_token := resv_fencing_token r; resv_expires_at := resv_expires_at r;
     resv_committed_at := resv_committed_at r; resv_released_at := Some now; resv_release_reason := Some reason;
     resv_version := resv_version r + 1; resv_created_at := resv_created_at r; resv_updated_at := now |}.

(** [reserved_amount = GREATEST(0, reserved_amount - amount)] *)
Definition give_back (amount : Q) (now : Z) (a : AllocationRow) : AllocationRow :=
  {| alloc_id := alloc_id a; alloc_account_id := alloc_account_id a; alloc_strategy_key := alloc_strategy_key a;
     alloc_status := alloc_status a; alloc_currency := alloc_currency a; alloc_amount := alloc_amount a;
     alloc_ratio := alloc_ratio a; alloc_reserved := Qmax 0 (alloc_reserved a - amount);
     alloc_deployed := alloc_deployed a; alloc_config_version := alloc_config_version a;
     alloc_config_fingerprint := alloc_config_fingerprint a; alloc_effective_from := alloc_effective_from a;
     alloc_effective_to := alloc_effective_to a; alloc_version := alloc_version a + 1; alloc_updated_at := now |}.

Section transactions.
Context (digest : string → string) (hmac : string → string → string) (document : json → jvalue).
Context (stableRecordId : string → string → string).

(** [canonicalJsonHash] of an object, its keys in canonical order. *)
Definition canonicalJsonHash (fields : list (string * json)) : string := digest (json_object fields).

(** [exactReviewAuthorizationSql] *)
Definition exact_review_authorization (i : IntentRow) (l : LifecycleColumns) (r : ReviewRow) : bool :=
  let reviewed := document (rv_orderIntent (review_input r)) in
  text_is (rv_clientOrderId (review_input r)) (intent_client_order_id i)
  && text_is (field_text reviewed "clientOrderId") (intent_client_order_id i)
  && text_is (field_text reviewed "symbol") (intent_symbol i)
  && text_is (field_text reviewed "assetClass") (asset_class_name (intent_asset_class i))
  && text_is (field_text reviewed "side") (side_name (intent_side i))
  && match lc_operation l with Some o => text_is (field_text reviewed "operation") o | None => false end
  && text_is (field_text reviewed "orderType") (order_type_name (intent_order_type i))
  && text_is (field_text reviewed "timeInForce") (time_in_force_name (intent_time_in_force i))
  && text_is (field_text reviewed "strategyKey") (intent_strategy_key i)
  && reviewed_numeric_matches (field_text reviewed "quantity") (intent_quantity i)
  && reviewed_numeric_matches (field_text reviewed "notional") (intent_notional i)
  && reviewed_numeric_matches (field_text reviewed "limitPrice") (intent_limit_price i)
  && reviewed_numeric_matches (field_text reviewed "stopPrice") (intent_stop_price i)
  && match document (rv_blockers (review_input r)) with JArr [] => true | _ => false end.

(** [review.status = 'valid' AND ... AND review.expires_at > now]; every review
    is paper only (a CHECK of the table). *)
Definition review_valid (now : Z) (r : ReviewRow) : bool :=
  bool_decide (review_status r = ReviewValid) && (now <? rv_expiresAt (review_input r)).

Definition confirmation_valid (now : Z) (c : ConfirmationRow) : bool :=
  bool_decide (conf_status c = ConfirmationValid) && (now <? cf_expiresAt (conf_input c)).

(** [snapshot.evidence->>'structuralPortfolioFingerprint' = review.account_fingerprint] *)
Definition portfolio_unchanged (s : SnapshotRow) (r : ReviewRow) : bool :=
  text_is (field_text (document (snap_evidence s)) "structuralPortfolioFingerprint")
    (rv_accountFingerprint (review_input r)).

(** ** Counting the work *)

Definition countable (d : SubmissionDb) (filter : ReviewType → LifecycleColumns → IntentRow → bool) (i : IntentRow)
    : option ReviewRow :=
  match review_of (s_exec d) i, lifecycle_of d (intent_id i) with
  | Some r, Some l =>
      if filter (rv_reviewType (review_input r)) l i && review_valid (s_now d) r
         && exact_review_authorization i l r && no_prior_acknowledgement i (s_exec d)
      then Some r else None
  | _, _ => None
  end.

Definition counts_ready d filter (i : IntentRow) : bool :=
  match countable d filter i with
  | Some r => bool_decide (intent_status i = IntentReady)
              && match confirmation_of (s_exec d) i r with
                 | Some c => confirmation_valid (s_now d) c | None => false end
  | None => false
  end.

Definition counts_confirmable d filter (i : IntentRow) : bool :=
  match countable d filter i with
  | Some _ => bool_decide (intent_status i = IntentCreated)
  | None => false
  end.

(** ready_count and confirmable_count *)
Definition count_intents (command : string) (d : SubmissionDb) : res (nat * nat) :=
  filter ← commandFilter command;
  let intents := db_intents (s_exec d) in
  Ret (count_where (counts_ready d filter) intents, count_where (counts_confirmable d filter) intents).

(** ** Confirming the next created intent *)

(** [ORDER BY created_at, id] *)
Definition created_before (a b : IntentRow) : bool :=
  (intent_created_at a <? intent_created_at b)
  || (intent_created_at a =? intent_created_at b) && String.leb (intent_id a) (intent_id b).

Definition confirmable (fence : SchedulerFence) (now : Z)
    (filter : ReviewType → LifecycleColumns → IntentRow → bool) (d : SubmissionDb) (i : IntentRow)
    : option (IntentRow * ReviewRow * SnapshotRow) :=
  match review_of (s_exec d) i, lifecycle_of d (intent_id i), latest_snapshot (s_exec d) (intent_account_id i),
        select_one (is_current_allocation (intent_account_id i) (intent_strategy_key i)) (db_allocations (s_exec d)) with
  | Some r, Some l, Some s, Some _ =>
      if bool_decide (intent_status i = IntentCreated) && filter (rv_reviewType (review_input r)) l i
         && review_valid now r && portfolio_unchanged s r && held fence d
      then Some (i, r, s) else None
  | _, _, _, _ => None
  end.

Definition next_confirmable fence now filter (d : SubmissionDb) : option (IntentRow * ReviewRow * SnapshotRow) :=
  first_found (confirmable fence now filter d) (sort_by created_before (db_intents (s_exec d))).

Inductive PromotionResult : Type :=
| PromotionNone
| PromotionBlocked (orderIntentId : string)
| Promoted (orderIntentId confirmationId : string) (reservationId : option string).

Definition scheduler_json (fence : SchedulerFence) : json :=
  json_object [("fencingToken", json_string (fence_token fence)); ("jobName", json_string (fence_job_name fence));
    ("ownerId", json_string (fence_owner_id fence)); ("runId", json_string (fence_run_id fence));
    ("workstream", json_string (fence_workstream fence))]%string.

Definition confirmation_evidence (command : string) (fence : SchedulerFence) : json :=
  json_object [("command", json_string command); ("confirmPaper", "true"); ("scheduler", scheduler_json fence)]%string.

Definition confirmation_fingerprint (command : string) (fence : SchedulerFence) (r : ReviewRow) : string :=
  canonicalJsonHash [("evidence", confirmation_evidence command fence);
    ("executionReviewId", json_string (rv_id (review_input r)));
    ("reviewPayloadFingerprint", json_string (rv_payloadFingerprint (review_input r)))]%string.

Definition promotion_confirmation (command signingKey : string) (fence : SchedulerFence) (now expiresAt : Z)
    (i : IntentRow) (r : ReviewRow) : ConfirmationRow :=
  let fingerprint := confirmation_fingerprint command fence r in
  {| conf_input :=
       {| cf_id := ("confirmation_" ++ fingerprint)%string; cf_evidenceType := "paper_execution_confirmation";
          cf_confirmationMethod := "autonomous_worker_confirm_paper"; cf_status := ConfirmationValid;
          cf_payloadFingerprint := fingerprint; cf_signatureAlgorithm := Some "hmac-sha256"%string;
          cf_signature := Some (hmac signingKey fingerprint);
          cf_evidence := confirmation_evidence command fence; cf_confirmedAt := now; cf_expiresAt := expiresAt |};
     conf_review_id := rv_id (review_input r); conf_account_id := intent_account_id i;
     conf_candidate_id := intent_candidate_id i; conf_status := ConfirmationValid; conf_consumed_at := None;
     conf_version := 1; conf_updated_at := now |}.

Definition promotion_reservation (fence : SchedulerFence) (now expiresAt : Z) (i : IntentRow) (s : SnapshotRow)
    (confirmationId confirmationFingerprint : string) (amount : number) : ReservationRow :=
  let account := json_string (intent_account_id i) in
  {| resv_id := ("reservation_" ++ canonicalJsonHash [("accountId", account);
       ("confirmationId", json_string confirmationId); ("orderIntentId", json_string (intent_id i))])%string;
     resv_account_id := intent_account_id i; resv_candidate_id := intent_candidate_id i;
     resv_strategy_key := intent_strategy_key i; resv_symbol := intent_symbol i;
     resv_asset_class := intent_asset_class i; resv_amount := numeric_round 8 (default 0%Q (numeric_of_text (num_text amount)));
     resv_status := ReservationActive; resv_idempotency_key := ("confirmation:" ++ confirmationFingerprint)%string;
     resv_fingerprint := canonicalJsonHash [("accountId", account); ("accountSnapshotId", json_string (snap_id s));
       ("amount", num_text amount); ("strategyKey", json_string (intent_strategy_key i));
       ("symbol", json_string (intent_symbol i))]%string;
     resv_snapshot_id := snap_id s; resv_job_name := fence_job_name fence; resv_fencing_token := fence_token fence;
     resv_expires_at := expiresAt; resv_committed_at := None; resv_released_at := None; resv_release_reason := None;
     resv_version := 1; resv_created_at := now; resv_updated_at := now |}.

(** The capacity query: without a snapshot, limits or an allocation it has no
    row, and the capacity is not allowed. *)
Definition confirmation_capacity (i : IntentRow) (s : SnapshotRow) (now : Z) (amount : Q) (d : ExecDb) : bool :=
  let account := intent_account_id i in
  match select_one (is_snapshot account (snap_id s)) (db_snapshots d),
        select_one (is_current_limit account) (db_risk_limits d),
        select_one (is_current_allocation account (intent_strategy_key i)) (db_allocations d) with
  | Some s, Some l, Some a => capacityAllowed (capacity account (intent_symbol i) now amount s (lim_config l) a d)
  | _, _, _ => false
  end.

(** The reservation and its amount in the allocation. *)
Definition promote_reservation (fence : SchedulerFence) (now : Z) (r : ReservationRow) : tx SubmissionDb unit :=
  _ ← require_one "POSTGRES_CONFIRMATION_RESERVATION_PERSISTENCE_FAILED"
        (fenced fence (_ ← exec (insert_row reservation_conflicts reservation_checks db_reservations
                                   set_reservations r); mret 1%nat));
  require_one "POSTGRES_CONFIRMATION_ALLOCATION_PERSISTENCE_FAILED"
    (fenced fence (exec (update_rows allocation_checks db_allocations set_allocations
      (is_current_allocation (resv_account_id r) (resv_strategy_key r)) (add_reserved (resv_amount r) now)))).

Definition ready_intent (confirmationId : string) (reservationId : option string) (fingerprint : string) (now : Z)
    (i : IntentRow) : IntentRow :=
  set_intent IntentReady reservationId (Some confirmationId) fingerprint (Some now) (intent_submitted_at i)
    (intent_terminal_at i) now i.

Definition promotion_fingerprint (command confirmationId confirmationFingerprint : string)
    (reservationId : option string) (fingerprint : string) (now : Z) (i : IntentRow) : FingerprintRow :=
  {| fp_id := (intent_id i ++ ":ready:" ++ confirmationFingerprint)%string;
     fp_account_id := Some (intent_account_id i); fp_candidate_id := intent_candidate_id i;
     fp_order_intent_id := Some (intent_id i); fp_entity_type := "order_intent"; fp_entity_id := intent_id i;
     fp_stage := "ready_for_submission"; fp_value := fingerprint; fp_payload_version := 1;
     fp_evidence := json_object [("command", json_string command); ("confirmationId", json_string confirmationId);
       ("reservationId", json_nullable reservationId)]%string;
     fp_request_id := None; fp_correlation_id := None; fp_captured_at := now |}.

(** The statements from the confirmation on. *)
Definition promote_writes (command signingKey : string) (fence : SchedulerFence) (now expiresAt : Z)
    (i : IntentRow) (r : ReviewRow) (s : SnapshotRow) (amount : option number) : tx SubmissionDb PromotionResult :=
  let confirmation := promotion_confirmation command signingKey fence now expiresAt i r in
  let confirmationId := cf_id (conf_input confirmation) in
  let confirmationFingerprint := cf_payloadFingerprint (conf_input confirmation) in
  _ ← require_one "POSTGRES_CONFIRMATION_EVIDENCE_PERSISTENCE_FAILED"
        (fenced fence (w ← exec (insert_unless same_confirmation confirmation_conflicts new_confirmation_checks
                                   db_confirmations set_confirmations confirmation); mret (row_count w)));
  let reservation := promotion_reservation fence now expiresAt i s confirmationId confirmationFingerprint <$> amount in
  _ ← match reservation with Some x => promote_reservation fence now x | None => mret tt end;
  let reservationId := resv_id <$> reservation in
  let fingerprint := canonicalJsonHash [("at", json_string (iso_text now)); ("confirmationId", json_string confirmationId);
    ("orderIntentId", json_string (intent_id i)); ("reservationId", json_nullable reservationId);
    ("status", json_string "ready_for_submission")]%string in
  _ ← require_one "POSTGRES_CONFIRMATION_PROMOTION_FAILED"
        (fenced fence (update_intent (in_status (intent_id i) IntentCreated)
                         (ready_intent confirmationId reservationId fingerprint now)));
  _ ← require_one "POSTGRES_CONFIRMATION_LIFECYCLE_PERSISTENCE_FAILED"
        (fenced fence (w ← exec (insert_fingerprint (promotion_fingerprint command confirmationId
                                   confirmationFingerprint reservationId fingerprint now i)); mret (row_count w)));
  _ ← match present (intent_candidate_id i) with
      | Some c => require_one "POSTGRES_CONFIRMATION_CANDIDATE_PERSISTENCE_FAILED"
                    (update_candidate fence c "confirmed" "PAPER_ORDER_INTENT_CONFIRMED" now)
      | None => mret tt
      end;
  mret (Promoted (intent_id i) confirmationId reservationId).

Definition promoteNextConfirmedPostgresIntent (command signingKey : string) (fence : SchedulerFence) (now : Z)
    : tx SubmissionDb PromotionResult :=
  if (String.length (trim signingKey) <? 16)%nat then throw "PAPER_REVIEW_SIGNING_KEY_REQUIRED"
  else
  filter ← lift (commandFilter command);
  selected ← gets (next_confirmable fence now filter);
  match selected with
  | None => mret PromotionNone
  | Some (i, r, s) =>
      let required := bool_decide (rv_reviewType (review_input r) = ReviewEntry) in
      let amount := positive (column (amount_text (intent_max_risk i))) in
      _ ← require (negb required || is_some_bool amount) "POSTGRES_CONFIRMATION_RISK_AMOUNT_MISSING";
      allowed ← (if required then
                   gets (λ d, confirmation_capacity i s now (default 0%Q (amount ≫= λ x, numeric_of_text (num_text x)))
                                (s_exec d))
                 else mret true);
      if negb allowed then mret (PromotionBlocked (intent_id i))
      else
        let expiresAt := Z.min (date_text_ms (rv_expiresAt (review_input r))) (now + 15 * 60000) in
        _ ← require (now <? expiresAt) "POSTGRES_CONFIRMATION_EXPIRATION_INVALID";
        promote_writes command signingKey fence now expiresAt i r s (if required then amount else None)
  end.

(** ** Candidate stages *)

Definition persistCandidateExecutionStage (fence : SchedulerFence) (now : Z) (intent : AutonomousExecutionIntentRow)
    (status reason : string) : tx SubmissionDb unit :=
  match present (row_candidate_id intent) with
  | None => mret tt
  | Some c => require_one "POSTGRES_CANDIDATE_STAGE_PERSISTENCE_FAILED" (update_candidate fence c status reason now)
  end.

(** ** Claiming an intent *)

(** [ORDER BY ready_at, created_at, id]; a missing time comes last. *)
Definition ready_before (a b : IntentRow) : bool :=
  match intent_ready_at a, intent_ready_at b with
  | Some s, Some t => (s <? t) || (s =? t) && created_before a b
  | Some _, None => true
  | None, Some _ => false
  | None, None => created_before a b
  end.

Definition parent_position (d : ExecDb) (i : IntentRow) (l : LifecycleColumns) : option PositionRow :=
  match lc_parent_position_id l with
  | Some id => select_one (λ p, (pos_id p =? id)%string && (pos_account_id p =? intent_account_id i)%string
                                && bool_decide (pos_status p = PositionOpen)) (db_positions d)
  | None => None
  end.

(** The contract of the intent that opened the position. *)
Definition opening_contract (d : SubmissionDb) (l : LifecycleColumns) : option string :=
  match lc_opening_intent_id l with
  | Some id => match lifecycle_of d id with Some o => lc_contract_id o | None => None end
  | None => None
  end.

Definition claimed_row (d : SubmissionDb) (i : IntentRow) (l : LifecycleColumns) (account : AccountRow)
    (s : SnapshotRow) (r : ReviewRow) (confirmationId : string) : AutonomousExecutionIntentRow :=
  let position := parent_position (s_exec d) i l in
  {| row_order_intent_id := intent_id i; row_candidate_id := intent_candidate_id i;
     row_account_id := intent_account_id i; row_broker_account_id := acct_broker_account_id account;
     row_account_snapshot_fingerprint := snap_fingerprint s;
     row_review_account_fingerprint := rv_accountFingerprint (review_input r);
     row_reservation_id := intent_reservation_id i; row_execution_review_id := rv_id (review_input r);
     row_review_type := review_type_name (rv_reviewType (review_input r));
     row_confirmation_evidence_id := confirmationId;
     row_review_signature := Some (rv_signature (review_input r));
     row_payload_fingerprint := Some (rv_payloadFingerprint (review_input r));
     row_review_client_order_id := rv_clientOrderId (review_input r);
     row_review_order_intent := document (rv_orderIntent (review_input r));
     row_client_order_id := intent_client_order_id i; row_strategy_key := intent_strategy_key i;
     row_symbol := intent_symbol i; row_underlying_symbol := intent_underlying_symbol i;
     row_asset_class := asset_class_name (intent_asset_class i); row_side := side_name (intent_side i);
     row_order_type := order_type_name (intent_order_type i);
     row_time_in_force := time_in_force_name (intent_time_in_force i);
     row_quantity := quantity_text (intent_quantity i); row_notional := amount_text (intent_notional i);
     row_limit_price := amount_text (intent_limit_price i); row_stop_price := amount_text (intent_stop_price i);
     row_intent_version := intent_version i;
     row_market_evidence := document (rv_marketEvidence (review_input r)); row_operation := lc_operation l;
     row_strategy_classification := lc_strategy_classification l;
     row_parent_position_id := lc_parent_position_id l; row_opening_intent_id := lc_opening_intent_id l;
     row_contract_id := lc_contract_id l; row_position_side := (λ p, position_side_of (pos_side p)) <$> position;
     row_position_available_quantity :=
       match position with Some p => quantity_text (pos_available_quantity p) | None => None end;
     row_position_option_symbol := match position with Some p => pos_option_symbol p | None => None end;
     row_position_contract_id := opening_contract d l |}.

(** The reservation of the intent still stands, and the account's limits hold
    with every reservation counted. *)
Definition reservation_stands (now : Z) (i : IntentRow) (s : SnapshotRow) (lim : RiskLimitRow) (a : AllocationRow)
    (d : ExecDb) : bool :=
  match intent_reservation_id i with
  | None => true
  | Some id =>
      match select_one (λ r, (resv_id r =? id)%string) (db_reservations d) with
      | Some r => is_active_reservation r && (now <? resv_expires_at r)
                  && capacityAllowed (capacity (intent_account_id i) (intent_symbol i) now 0 s (lim_config lim) a d)
      | None => false
      end
  end.

Definition claimable (now : Z) (filter : ReviewType → LifecycleColumns → IntentRow → bool) (d : SubmissionDb)
    (i : IntentRow) : option AutonomousExecutionIntentRow :=
  let x := s_exec d in
  let account := intent_account_id i in
  match select_one (λ a, (acct_id a =? account)%string) (db_accounts x), lifecycle_of d (intent_id i),
        latest_snapshot x account, review_of x i,
        select_one (is_current_allocation account (intent_strategy_key i)) (db_allocations x),
        select_one (is_current_limit account) (db_risk_limits x) with
  | Some acct, Some l, Some s, Some r, Some a, Some lim =>
      match confirmation_of x i r with
      | Some c =>
          if bool_decide (intent_status i = IntentReady) && filter (rv_reviewType (review_input r)) l i
             && review_valid now r && exact_review_authorization i l r && confirmation_valid now c
             && no_prior_acknowledgement i x && portfolio_unchanged s r
             && existsb (λ e, (expo_account_id e =? account)%string) (db_exposures x)
             && reservation_stands now i s lim a x
          then Some (claimed_row d i l acct s r (cf_id (conf_input c))) else None
      | None => None
      end
  | _, _, _, _, _, _ => None
  end.

Definition next_claimable now filter (d : SubmissionDb) : option AutonomousExecutionIntentRow :=
  first_found (claimable now filter d) (sort_by ready_before (db_intents (s_exec d))).

Definition claimIntent (command : string) (fence : SchedulerFence) (now : Z)
    (expectedPayloadSignature : option string) : tx SubmissionDb AutonomousExecutionIntentRow :=
  filter ← lift (commandFilter command);
  selected ← gets (next_claimable now filter);
  match selected with
  | None => throw "POSTGRES_EXECUTION_EVIDENCE_GATE_FAILED"
  | Some intent =>
      _ ← lift (assertExactReviewAuthorization intent);
      _ ← require (match present expectedPayloadSignature with
                   | Some e => text_is (row_review_signature intent) e || text_is (row_payload_fingerprint intent) e
                   | None => true
                   end) "PAPER_REVIEW_ARTIFACT_MISMATCH";
      _ ← require_one "POSTGRES_EXECUTION_INTENT_CLAIM_FAILED"
            (fenced fence (update_intent
               (λ r, in_status (row_order_intent_id intent) IntentReady r
                     && (intent_version r =? row_intent_version intent))
               (set_intent_status IntentPending now)));
      mret intent
  end.

Definition releaseClaim (fence : SchedulerFence) (intent : AutonomousExecutionIntentRow) (now : Z) (reason : string)
    : tx SubmissionDb unit :=
  _ ← require_one "POSTGRES_EXECUTION_INTENT_RELEASE_FAILED"
        (fenced fence (update_intent (in_status (row_order_intent_id intent) IntentPending)
                         (set_intent_status IntentReady now)));
  persistCandidateExecutionStage fence now intent "execution_deferred" reason.

(** ** The mutation receipt *)

Inductive BrokerMutationOutcome : Set :=
| submission_attempted | submission_acknowledged | submission_rejected | submission_transport_unknown
| submission_reconciled.

Definition outcome_name (o : BrokerMutationOutcome) : string :=
  match o with
  | submission_attempted => "submission_attempted"
  | submission_acknowledged => "submission_acknowledged"
  | submission_rejected => "submission_rejected"
  | submission_transport_unknown => "submission_transport_unknown"
  | submission_reconciled => "submission_reconciled"
  end.

Record BrokerMutationReceipt := {
  mutationReceiptId : string;
  intentId : string;
  cycleId : string;
  workstream : string;
  schedulerRunId : string;
  fencingToken : string;
  deterministicClientOrderId : string;
  submissionAction : string;
  receiptBrokerOrderId : option string;
  requestFingerprint : string;
  requestedSymbol : string;
  requestedSide : string;
  requestedQuantity : option string;
  requestedNotional : option string;
  requestedOrderType : string;
  requestedLimitPrice : option string;
  requestedStopPrice : option string;
  requestedPositionIntent : string;
  submissionAttemptTimestamp : Z;
  brokerAcknowledgementTimestamp : option Z;
  outcomeClassification : BrokerMutationOutcome;
  resultingLifecycleState : string
}.

Definition time_json (t : Z) : json := json_string (iso_text t).

Definition receipt_fields (r : BrokerMutationReceipt) : list (string * json) :=
  [("brokerAcknowledgementTimestamp", match brokerAcknowledgementTimestamp r with Some t => time_json t | None => "null" end);
   ("brokerOrderId", json_nullable (receiptBrokerOrderId r)); ("cycleId", json_string (cycleId r));
   ("deterministicClientOrderId", json_string (deterministicClientOrderId r)); ("environment", json_string "paper");
   ("fencingToken", json_string (fencingToken r)); ("intentId", json_string (intentId r));
   ("mutationReceiptId", json_string (mutationReceiptId r));
   ("outcomeClassification", json_string (outcome_name (outcomeClassification r)));
   ("requestedLimitPrice", json_nullable (requestedLimitPrice r));
   ("requestedNotional", json_nullable (requestedNotional r));
   ("requestedOrderType", json_string (requestedOrderType r));
   ("requestedPositionIntent", json_string (requestedPositionIntent r));
   ("requestedQuantity", json_nullable (requestedQuantity r)); ("requestedSide", json_string (requestedSide r));
   ("requestedStopPrice", json_nullable (requestedStopPrice r)); ("requestedSymbol", json_string (requestedSymbol r));
   ("requestFingerprint", json_string (requestFingerprint r));
   ("resultingLifecycleState", json_string (resultingLifecycleState r));
   ("schedulerRunId", json_string (schedulerRunId r)); ("submissionAction", json_string (submissionAction r));
   ("submissionAttemptSequence", "1"); ("submissionAttemptTimestamp", time_json (submissionAttemptTimestamp r));
   ("workstream", json_string (workstream r))]%string.

Definition payload_fields (p : AlpacaPaperOrderRequest) : list (string * json) :=
  let optional (k : string) (v : option string) := match v with Some s => [(k, json_string s)] | None => [] end in
  [("client_order_id"%string, json_string (p_client_order_id p))] ++ optional "limit_price"%string (p_limit_price p)
  ++ optional "notional"%string (p_notional p) ++ optional "position_intent"%string (p_position_intent p)
  ++ optional "qty"%string (p_qty p)
  ++ [("side", json_string (p_side p)); ("symbol", json_string (p_symbol p));
      ("time_in_force", json_string (p_time_in_force p)); ("type", json_string (p_type p))]%string.

Record LifecycleContext := { context_cycleId : string; context_workstreamExecutionId : string }.

Definition row_is_exit (intent : AutonomousExecutionIntentRow) : bool := (row_review_type intent =? "exit")%string.

Definition attempt_state (intent : AutonomousExecutionIntentRow) : string :=
  if row_is_exit intent then "exit_submission_attempt_persisted" else "submission_attempt_persisted".
Definition ambiguous_state (intent : AutonomousExecutionIntentRow) : string :=
  if row_is_exit intent then "exit_submission_ambiguous" else "submission_ambiguous".

Definition submission_key (intent : AutonomousExecutionIntentRow) : string :=
  (row_account_id intent ++ ":" ++ row_order_intent_id intent ++ ":" ++ row_client_order_id intent)%string.

Definition buildMutationReceipt (intent : AutonomousExecutionIntentRow) (payload : AlpacaPaperOrderRequest)
    (command : string) (fence : SchedulerFence) (context : LifecycleContext) (attemptedAt : Z)
    : res BrokerMutationReceipt :=
  let cycle := trim (context_cycleId context) in
  let execution := trim (context_workstreamExecutionId context) in
  if negb (str_truthy cycle) then Throw "POSTGRES_MUTATION_CYCLE_ID_REQUIRED"
  else if negb (str_truthy execution) then Throw "POSTGRES_MUTATION_WORKSTREAM_EXECUTION_ID_REQUIRED"
  else if negb (execution =? fence_run_id fence)%string then Throw "POSTGRES_MUTATION_SCHEDULER_RUN_MISMATCH"
  else
  let id := trim (row_order_intent_id intent) in
  if negb (str_truthy id) then Throw "POSTGRES_EXECUTION_INTENT_ID_REQUIRED"
  else Ret
  {| mutationReceiptId := ("mutation_receipt_" ++ stableRecordId "alpaca_order_submission"
       (row_account_id intent ++ ":" ++ id ++ ":" ++ row_client_order_id intent))%string;
     intentId := id; cycleId := cycle; workstream := command; schedulerRunId := fence_run_id fence;
     fencingToken := fence_token fence; deterministicClientOrderId := row_client_order_id intent;
     submissionAction := if row_is_exit intent then "closing" else "opening"; receiptBrokerOrderId := None;
     requestFingerprint := canonicalJsonHash (payload_fields payload); requestedSymbol := p_symbol payload;
     requestedSide := p_side payload; requestedQuantity := p_qty payload; requestedNotional := p_notional payload;
     requestedOrderType := p_type payload; requestedLimitPrice := p_limit_price payload;
     requestedStopPrice := row_stop_price intent;
     requestedPositionIntent := default (p_side payload) (or_else (row_operation intent) (p_position_intent payload));
     submissionAttemptTimestamp := attemptedAt; brokerAcknowledgementTimestamp := None;
     outcomeClassification := submission_attempted; resultingLifecycleState := attempt_state intent |}.

Definition receiptWithOutcome (r : BrokerMutationReceipt) (outcome : BrokerMutationOutcome) (state : string)
    (brokerOrderId : option string) (acknowledgedAt : option Z) : BrokerMutationReceipt :=
  {| mutationReceiptId := mutationReceiptId r; intentId := intentId r; cycleId := cycleId r;
     workstream := workstream r; schedulerRunId := schedulerRunId r; fencingToken := fencingToken r;
     deterministicClientOrderId := deterministicClientOrderId r; submissionAction := submissionAction r;
     receiptBrokerOrderId := or_else brokerOrderId (receiptBrokerOrderId r);
     requestFingerprint := requestFingerprint r; requestedSymbol := requestedSymbol r;
     requestedSide := requestedSide r; requestedQuantity := requestedQuantity r;
     requestedNotional := requestedNotional r; requestedOrderType := requestedOrderType r;
     requestedLimitPrice := requestedLimitPrice r; requestedStopPrice := requestedStopPrice r;
     requestedPositionIntent := requestedPositionIntent r;
     submissionAttemptTimestamp := submissionAttemptTimestamp r;
     brokerAcknowledgementTimestamp := or_else acknowledgedAt (brokerAcknowledgementTimestamp r);
     outcomeClassification := outcome; resultingLifecycleState := state |}.


Definition receipt_json (r : BrokerMutationReceipt) : json := json_object (receipt_fields r).

(** [{ ...receipt, code, message }], its keys in canonical order. *)
Definition failure_fields (r : BrokerMutationReceipt) (code message : string) : list (string * json) :=
  let fields := receipt_fields r in
  take 2 fields ++ [("code"%string, json_string code)] ++ take 5 (drop 2 fields)
  ++ [("message"%string, json_string message)] ++ drop 7 fields.

(** A row of broker_events. *)
Definition submission_event (id type : string) (intent : AutonomousExecutionIntentRow) (orderId brokerOrderId : option string)
    (status : string) (classification : option string) (retryable : option bool)
    (fields : list (string * json)) (occurredAt receivedAt : Z) : EventRow :=
  {| event_id := ("broker_event_" ++ id)%string; event_account_id := row_account_id intent; event_order_id := orderId;
     event_intent_id := Some (row_order_intent_id intent); event_broker_order_id := brokerOrderId;
     event_client_order_id := Some (row_client_order_id intent); event_type := type; event_status := status;
     event_request_id := None;
     event_http_status := None; event_error_classification := classification; event_retryable := retryable;
     event_response_payload := json_object fields; event_response_fingerprint := canonicalJsonHash fields;
     event_occurred_at := occurredAt; event_received_at := receivedAt |}.

(** ** The attempt *)

Definition attempt_event (intent : AutonomousExecutionIntentRow) (receipt : BrokerMutationReceipt) (now : Z) : EventRow :=
  submission_event (stableRecordId "alpaca_broker_submission_attempt" (submission_key intent))
    "order_submission_attempt" intent None None "submission_attempted" None (Some true) (receipt_fields receipt) now now.

Definition recordSubmissionAttempt (intent : AutonomousExecutionIntentRow) (payload : AlpacaPaperOrderRequest)
    (command : string) (fence : SchedulerFence) (now : Z) (context : LifecycleContext)
    : tx SubmissionDb BrokerMutationReceipt :=
  receipt ← lift (buildMutationReceipt intent payload command fence context now);
  _ ← require_one "POSTGRES_BROKER_SUBMISSION_ATTEMPT_PERSISTENCE_FAILED"
        (fenced fence (insert_event (attempt_event intent receipt now)));
  _ ← require_one "POSTGRES_BROKER_SUBMISSION_ATTEMPT_LIFECYCLE_PERSISTENCE_FAILED"
        (move_intent fence (row_order_intent_id intent) IntentPending (set_intent_status IntentPending now)
           (λ l, in_cycle (context_cycleId context) (context_workstreamExecutionId context)
                   (in_state (attempt_state intent) l)));
  mret receipt.

(** ** The broker's answer *)

(** [AlpacaSubmittedOrder]: the fields in use, and the answer as JSON. *)
Record SubmittedOrder := {
  so_id : option string;
  so_client_order_id : option string;
  so_status : option string;
  so_submitted_at : option string;
  so_created_at : option string;
  so_qty : option string;
  so_notional : option string;
  so_limit_price : option string;
  so_stop_price : option string;
  so_filled_qty : option string;
  so_filled_avg_price : option string;
  so_symbol : option string;
  so_asset_class : option string;
  so_side : option string;
  so_type : option string;
  so_time_in_force : option string;
  so_position_intent : option string;
  so_filled_at : option string;
  so_updated_at : option string;
  so_canceled_at : option string;
  so_cancelled_at : option string;
  so_expired_at : option string;
  so_rejected_at : option string;
  so_json : json
}.

(** [AlpacaApiResponse<AlpacaSubmittedOrder>] *)
Record BrokerResponse := {
  response_data : SubmittedOrder;
  response_requestId : option string;
  response_status : Z
}.

(** [text] of an optional string. *)
Definition text_of (s : option string) : string := trim (default EmptyString s).
Definition broker_status (o : SubmittedOrder) : string := to_lower (text_of (so_status o)).
Definition broker_time_text (o : SubmittedOrder) : string :=
  text_of (match present (so_submitted_at o) with Some t => Some t | None => so_created_at o end).

Definition review_kind (intent : AutonomousExecutionIntentRow) : TradeLifecycle.reviewType :=
  if row_is_exit intent then exit else entry.
Definition broker_lifecycle_state (intent : AutonomousExecutionIntentRow) (status : string) : state :=
  lifecycleStateForBrokerStatus (review_kind intent) status.

Definition acknowledged_outcome (status : string) : BrokerMutationOutcome :=
  if (status =? "rejected")%string then submission_rejected else submission_acknowledged.

(** A text parameter of a numeric column. *)
Definition numeric_column (scale : nat) (s : option string) : res (option Q) :=
  match s with
  | None => Ret None
  | Some t => match numeric_of_text t with
              | Some q => Ret (Some (numeric_round scale q))
              | None => Throw "invalid_text_representation"
              end
  end.

(** A text parameter of an enumerated column: a CHECK of the table. *)
Definition enumerated {A} (name : A → string) (values : list A) (s : string) : res A :=
  match List.find (λ a, (name a =? s)%string) values with Some a => Ret a | None => Throw check_failed end.

(** Text of a timestamptz, ISO or in another format PostgreSQL reads. *)
Context (timestamp_format : string → option Z).
Definition timestamptz (s : string) : res Z :=
  match date_parse timestamp_format s with Some t => Ret t | None => Throw "invalid_datetime_format" end.

Definition acknowledged_order_id (intent : AutonomousExecutionIntentRow) (brokerOrderId : string) : string :=
  ("order_" ++ stableRecordId "alpaca_order" (row_account_id intent ++ ":" ++ brokerOrderId))%string.

Definition acknowledged_order (intent : AutonomousExecutionIntentRow) (response : BrokerResponse) (occurredAt : Z)
    : res OrderRow :=
  let data := response_data response in
  let brokerOrderId := text_of (so_id data) in
  assetClass ← enumerated asset_class_name [equity; option_contract] (row_asset_class intent);
  side ← enumerated side_name [buy; sell; buy_to_open; sell_to_close] (row_side intent);
  orderType ← enumerated order_type_name [market; limit; stop; stop_limit] (row_order_type intent);
  timeInForce ← enumerated time_in_force_name [day; gtc; opg; cls; ioc; fok] (row_time_in_force intent);
  quantity ← numeric_column 12 (or_else (so_qty data) (row_quantity intent));
  notional ← numeric_column 8 (or_else (so_notional data) (row_notional intent));
  limitPrice ← numeric_column 8 (or_else (so_limit_price data) (row_limit_price intent));
  stopPrice ← numeric_column 8 (or_else (so_stop_price data) (row_stop_price intent));
  filled ← numeric_column 12 (or_else (so_filled_qty data) (Some "0"%string));
  average ← numeric_column 8 (so_filled_avg_price data);
  mret {| order_id := acknowledged_order_id intent brokerOrderId; order_account_id := row_account_id intent;
          order_intent_id := row_order_intent_id intent; order_broker_order_id := Some brokerOrderId;
          order_client_order_id := row_client_order_id intent; order_parent_order_id := None;
          order_replacement_order_id := None; order_symbol := row_symbol intent; order_asset_class := assetClass;
          order_side := side; order_order_type := orderType; order_time_in_force := timeInForce;
          order_status := broker_status data; order_quantity := quantity; order_notional := notional;
          order_limit_price := limitPrice; order_stop_price := stopPrice;
          order_filled_quantity := default 0%Q filled; order_filled_average_price := average;
          order_broker_request_id := response_requestId response; order_submitted_at := Some occurredAt;
          order_last_broker_update_at := Some occurredAt; order_raw_status := so_json data; order_version := 1;
          order_created_at := occurredAt; order_updated_at := occurredAt |}.

Definition with_response (response : BrokerResponse) (e : EventRow) : EventRow :=
  {| event_id := event_id e; event_account_id := event_account_id e; event_order_id := event_order_id e;
     event_intent_id := event_intent_id e; event_broker_order_id := event_broker_order_id e;
     event_client_order_id := event_client_order_id e; event_type := event_type e; event_status := event_status e;
     event_request_id := response_requestId response; event_http_status := Some (response_status response);
     event_error_classification := event_error_classification e; event_retryable := event_retryable e;
     event_response_payload := event_response_payload e; event_response_fingerprint := event_response_fingerprint e;
     event_occurred_at := event_occurred_at e; event_received_at := event_received_at e |}.

Definition acknowledged_event (intent : AutonomousExecutionIntentRow) (response : BrokerResponse)
    (receipt : BrokerMutationReceipt) (occurredText : string) (occurredAt receivedAt : Z) : EventRow :=
  let data := response_data response in
  let brokerOrderId := text_of (so_id data) in
  let orderId := acknowledged_order_id intent brokerOrderId in
  with_response response
    (submission_event (stableRecordId "alpaca_broker_event" (orderId ++ ":" ++ broker_status data ++ ":" ++ occurredText))
       "order_submission" intent (Some orderId) (Some brokerOrderId) (outcome_name (outcomeClassification receipt)) None None
       (receipt_fields receipt) occurredAt (Z.max receivedAt occurredAt)).

(** *** The reservation *)

Definition release_reason (s : state) : option string :=
  match s with
  | cancelled => Some "broker_terminal_cancelled"
  | rejected => Some "broker_terminal_rejected"
  | expired => Some "broker_terminal_expired"
  | _ => None
  end%string.

Definition insert_terminal (t : TerminalTransitionRow) : tx SubmissionDb nat := λ d,
  if existsb (λ x, (tt_reservation_id x =? tt_reservation_id t)%string) (s_terminals d) then Ret (0%nat, d)
  else if existsb (λ x, (tt_id x =? tt_id t)%string) (s_terminals d) then Throw unique_violation
  else Ret (1%nat, set_terminals (s_terminals d ++ [t]) d).

Definition releasable (id : string) (r : ReservationRow) : bool :=
  (resv_id r =? id)%string && bool_decide (resv_status r ∈ [ReservationActive; ReservationCommitted]).

(** The statement with three data-modifying parts and its three counts. *)
Definition release_terminal (fence : SchedulerFence) (reason : string) (now : Z) (t : TerminalTransitionRow)
    : tx SubmissionDb (nat * nat * nat) :=
  released ← gets (λ d, if held fence d then select_one (releasable (tt_reservation_id t)) (db_reservations (s_exec d))
                        else None);
  match released with
  | None => mret (0, 0, 0)%nat
  | Some r =>
      n ← exec (update_rows reservation_time_checks db_reservations set_reservations
                  (releasable (tt_reservation_id t)) (release_reservation reason now));
      m ← exec (update_rows allocation_checks db_allocations set_allocations
                  (is_current_allocation (resv_account_id r) (resv_strategy_key r)) (give_back (resv_amount r) now));
      k ← insert_terminal t;
      mret (n, m, k)
  end.

Definition terminal_transition (intent : AutonomousExecutionIntentRow) (reservation : string) (s : state) (reason : string)
    (now : Z) : TerminalTransitionRow :=
  {| tt_id := ("reservation_transition_" ++ stableRecordId "reservation_terminal" (reservation ++ ":" ++ state_name s))%string;
     tt_reservation_id := reservation; tt_order_intent_id := row_order_intent_id intent;
     tt_terminal_state := state_name s; tt_release_reason := reason;
     tt_idempotency_key := (row_order_intent_id intent ++ ":" ++ state_name s)%string; tt_occurred_at := now |}.

Definition settle_submission (fence : SchedulerFence) (intent : AutonomousExecutionIntentRow) (s : state) (now : Z)
    : tx SubmissionDb unit :=
  match present (row_reservation_id intent), release_reason s with
  | None, _ => mret tt
  | Some reservation, Some reason =>
      n ← release_terminal fence reason now (terminal_transition intent reservation s reason now);
      require (bool_decide (n = (1, 1, 1)%nat)) "POSTGRES_EXECUTION_TERMINAL_RESERVATION_RELEASE_FAILED"
  | Some reservation, None =>
      require_one "POSTGRES_EXECUTION_RESERVATION_COMMIT_FAILED"
        (fenced fence (exec (update_rows reservation_time_checks db_reservations set_reservations
           (is_settled_reservation reservation) (settle_reservation true now))))
  end.

(** *** The whole transaction *)

Record SubmissionRecord := {
  recorded_orderId : string;
  recorded_brokerOrderId : string;
  recorded_status : string;
  recorded_receipt : BrokerMutationReceipt
}.

Definition submitted_intent (s : state) (now : Z) (i : IntentRow) : IntentRow :=
  let terminal := is_some_bool (release_reason s) in
  let status := if terminal then (if bool_decide (s = cancelled) then IntentCancelled else IntentFailed)
                else IntentSubmitted in
  set_intent status (intent_reservation_id i) (intent_confirmation_id i) (intent_lifecycle_fingerprint i)
    (intent_ready_at i) (Some now) (if terminal then Some now else intent_terminal_at i) now i.

Definition consume_evidence (fence : SchedulerFence) (intent : AutonomousExecutionIntentRow)
    (reviews : list ReviewStatus) (confirmations : list ConfirmationStatus) (now : Z) : tx SubmissionDb unit :=
  _ ← require_one "POSTGRES_EXECUTION_REVIEW_CONSUMPTION_FAILED"
        (consume fence (row_execution_review_id intent) reviews now);
  require_one "POSTGRES_EXECUTION_CONFIRMATION_CONSUMPTION_FAILED"
    (consume_confirmed fence (row_confirmation_evidence_id intent) confirmations now).

Definition recordSubmission (intent : AutonomousExecutionIntentRow) (response : BrokerResponse)
    (receipt : BrokerMutationReceipt) (fence : SchedulerFence) (receivedAt : Z) : tx SubmissionDb SubmissionRecord :=
  let data := response_data response in
  let brokerOrderId := text_of (so_id data) in
  let status := broker_status data in
  _ ← require (str_truthy brokerOrderId && (text_of (so_client_order_id data) =? row_client_order_id intent)%string
               && str_truthy status) "POSTGRES_BROKER_SUBMISSION_IDENTITY_INCOMPLETE";
  let occurredText := if str_truthy (broker_time_text data) then broker_time_text data else iso_text receivedAt in
  let s := broker_lifecycle_state intent status in
  let acknowledged := receiptWithOutcome receipt (acknowledged_outcome status) (state_name s) (Some brokerOrderId)
                        (Some receivedAt) in
  occurredAt ← lift (timestamptz occurredText);
  order ← lift (acknowledged_order intent response occurredAt);
  _ ← require_one "POSTGRES_BROKER_ORDER_LINEAGE_CONFLICT"
        (fenced fence (w ← exec (insert_unless same_client_order order_conflicts order_checks db_orders set_orders order);
                       mret (row_count w)));
  _ ← require_one "POSTGRES_MUTATION_RECEIPT_ACKNOWLEDGEMENT_PERSISTENCE_FAILED"
        (insert_event (acknowledged_event intent response acknowledged occurredText occurredAt receivedAt));
  _ ← require_one "POSTGRES_EXECUTION_RESULT_PERSISTENCE_FAILED"
        (move_intent fence (row_order_intent_id intent) IntentPending (submitted_intent s receivedAt)
           (λ l, with_release_reason (release_reason s) (in_state (state_name s) l)));
  _ ← settle_submission fence intent s receivedAt;
  _ ← consume_evidence fence intent [ReviewValid] [ConfirmationValid] receivedAt;
  let terminal := is_some_bool (release_reason s) in
  _ ← persistCandidateExecutionStage fence receivedAt intent (if terminal then "execution_deferred" else "executed")
        (if terminal then "PAPER_ORDER_" ++ to_upper status else "PAPER_ORDER_SUBMITTED");
  mret {| recorded_orderId := acknowledged_order_id intent brokerOrderId; recorded_brokerOrderId := brokerOrderId;
          recorded_status := status; recorded_receipt := acknowledged |}.

(** ** Without a broker answer *)

Definition recordAmbiguousSubmission (intent : AutonomousExecutionIntentRow) (receipt : BrokerMutationReceipt)
    (error : string) (fence : SchedulerFence) (now : Z) (errorClassification : string)
    : tx SubmissionDb BrokerMutationReceipt :=
  let fields := failure_fields receipt "POSTGRES_BROKER_SUBMISSION_AMBIGUOUS" (str_take 500 error) in
  let id := stableRecordId "alpaca_broker_submission_ambiguous"
    (row_account_id intent ++ ":" ++ row_client_order_id intent ++ ":" ++ iso_text now)%string in
  _ ← require_one "POSTGRES_BROKER_SUBMISSION_AMBIGUITY_PERSISTENCE_FAILED"
        (move_intent fence (row_order_intent_id intent) IntentPending (set_intent_status IntentAmbiguous now)
           (in_state (ambiguous_state intent)));
  _ ← require_one "POSTGRES_BROKER_SUBMISSION_AMBIGUITY_PERSISTENCE_FAILED"
        (fenced fence (insert_event
           (submission_event id "order_submission" intent None None (outcome_name (outcomeClassification receipt))
              (Some errorClassification) (Some true) fields now now)));
  _ ← persistCandidateExecutionStage fence now intent "execution_ambiguous" "POSTGRES_BROKER_SUBMISSION_AMBIGUOUS";
  mret receipt.

(** A rejected request: [status] is the HTTP status when there is one. *)
Record BrokerError := { error_status : option Z; error_message : string }.

Definition isAmbiguousSubmissionError (e : BrokerError) : bool :=
  let deterministic := match error_status e with
    | Some s => (400 <=? s) && (s <? 500) && negb (s =? 408) && negb (s =? 409) && negb (s =? 429)
    | None => false
    end in
  if deterministic then false
  else negb (includes_any ["invalid"; "rejected"; "not tradable"; "insufficient"; "forbidden"; "unauthorized";
                           "bad request"]%string (to_lower (error_message e))).

Definition recordDeterministicSubmissionFailure (intent : AutonomousExecutionIntentRow)
    (receipt : BrokerMutationReceipt) (error : string) (fence : SchedulerFence) (now : Z)
    : tx SubmissionDb BrokerMutationReceipt :=
  let rejectedReceipt := receiptWithOutcome receipt submission_rejected "failed_terminal" None None in
  let fields := failure_fields rejectedReceipt "POSTGRES_BROKER_SUBMISSION_REJECTED" (str_take 500 error) in
  let id := stableRecordId "alpaca_broker_submission_rejected"
    (row_account_id intent ++ ":" ++ row_client_order_id intent ++ ":" ++ iso_text now)%string in
  _ ← require_one "POSTGRES_BROKER_SUBMISSION_REJECTION_PERSISTENCE_FAILED"
        (move_intent fence (row_order_intent_id intent) IntentPending (end_intent IntentFailed now)
           (in_state "failed_terminal"));
  _ ← require_one "POSTGRES_MUTATION_RECEIPT_REJECTION_PERSISTENCE_FAILED"
        (fenced fence (insert_event
           (submission_event id "order_submission" intent None None "submission_rejected" (Some "deterministic_broker_rejection"%string)
              (Some false) fields now now)));
  mret rejectedReceipt.

(** ** After a recovery *)

(** [AmbiguousSubmissionRecovery] *)
Inductive Recovery : Type :=
| Recovered (orderId brokerOrderId brokerStatus : string)
| RecoveryPending (attempts : Z).

Definition recordReconciledSubmissionReceipt (intent : AutonomousExecutionIntentRow) (receipt : BrokerMutationReceipt)
    (orderId brokerOrderId brokerStatus : string) (fence : SchedulerFence) (now : Z)
    : tx SubmissionDb BrokerMutationReceipt :=
  let reconciledReceipt := receiptWithOutcome receipt submission_reconciled
    (state_name (broker_lifecycle_state intent brokerStatus)) (Some brokerOrderId) (Some now) in
  let id := stableRecordId "alpaca_broker_submission_receipt_reconciled"
    (row_account_id intent ++ ":" ++ row_client_order_id intent ++ ":" ++ brokerOrderId)%string in
  _ ← require_one "POSTGRES_MUTATION_RECEIPT_RECONCILIATION_PERSISTENCE_FAILED"
        (fenced fence (insert_event
           (submission_event id "order_submission_receipt" intent (Some orderId) (Some brokerOrderId) "submission_reconciled" None
              (Some false) (receipt_fields reconciledReceipt) now now)));
  _ ← consume_evidence fence intent [ReviewValid; ReviewExpired] [ConfirmationValid; ConfirmationExpired] now;
  mret reconciledReceipt.

(** The transaction of [recoverSubmission]. *)
Definition record_recovery (intent : AutonomousExecutionIntentRow) (receipt : BrokerMutationReceipt)
    (orderId brokerOrderId brokerStatus : string) (fence : SchedulerFence) (reconciledAt : Z)
    : tx SubmissionDb BrokerMutationReceipt :=
  persisted ← recordReconciledSubmissionReceipt intent receipt orderId brokerOrderId brokerStatus fence reconciledAt;
  _ ← persistCandidateExecutionStage fence reconciledAt intent "executed" "PAPER_ORDER_RECOVERED_BY_CLIENT_ID";
  mret persisted.
End transactions.
