(* ===== verification/SubmissionFacts.v ===== *)
(** What the transactions of Submission.v commit. *)

From S2P Require Import Prelude.
From S2P Require Import JsString.
From S2P Require Import JsNumber.
From S2P Require Import JsText.
From S2P Require Import JsJson.
From S2P Require Import TradeLifecycle.
From S2P Require Import SchedulerLease.
From S2P Require Import ExecutionTables.
From S2P Require Import ExecutionReservation.
From S2P Require Import BrokerResult.
From S2P Require Import SubmissionEvidence.
From S2P Require Import Submission.
Open Scope Z_scope.

Definition has_event (id : string) (d : SubmissionDb) : bool :=
  existsb (λ e, (event_id e =? id)%string) (db_events (s_exec d)).

(** ** Inversion of the statements *)

Lemma require_one_Ret c m d u d' : require_one c m d = Ret (u, d') ↔ m d = Ret (1%nat, d').
Proof.
  unfold require_one. rewrite tx_bind_Ret. split.
  - intros (n & d1 & H1 & H2). destruct (n =? 1)%nat eqn:E; [|done]. injection H2 as <- <-.
    by apply Nat.eqb_eq in E as ->.
  - intros H. exists 1%nat, d'. split; [done|]. cbn. by destruct u.
Qed.

Lemma fenced_one f m d d' : fenced f m d = Ret (1%nat, d') ↔ held f d = true ∧ m d = Ret (1%nat, d').
Proof. unfold fenced. destruct (held f d); [naive_solver|]. split; [by intros [=]|by intros [? _]]. Qed.

Lemma require_Ret b c d u d' : require b c d = Ret (u, d') ↔ b = true ∧ d' = d.
Proof. unfold require. destruct b, u; cbn; unfold mret, tx_ret, throw; naive_solver. Qed.

Lemma lift_Ret {A} (r : res A) d a d' : lift r d = Ret (a, d') ↔ r = Ret a ∧ d' = d.
Proof. unfold lift. destruct r; naive_solver. Qed.

Lemma gets_Ret {A} (f : SubmissionDb → A) d a d' : gets f d = Ret (a, d') ↔ a = f d ∧ d' = d.
Proof. unfold gets. naive_solver. Qed.

Lemma insert_event_one e d d' :
  insert_event e d = Ret (1%nat, d') → has_event (event_id e) d = false ∧ has_event (event_id e) d' = true.
Proof.
  unfold insert_event. intros (b & d1 & H1 & H2)%tx_bind_Ret. destruct b; [|done]. injection H2 as <-.
  unfold exec in H1. destruct (insert_unless _ _ _ _ _ _ _) as [[b x]|] eqn:E; [|done].
  injection H1 as -> <-. apply insert_unless_Ret in E as [E (_ & _ & ->)%insert_row_Ret].
  unfold has_event, same_event in *. cbn. rewrite existsb_app. cbn. rewrite String.eqb_refl, orb_true_r.
  split; [|done]. rewrite <- E. clear. induction (db_events (s_exec d)) as [|x l IH]; [done|]. cbn.
  by rewrite IH, String.eqb_sym.
Qed.

Lemma first_found_In {R C} (f : R → option C) l x : first_found f l = Some x → ∃ y, In y l ∧ f y = Some x.
Proof.
  induction l as [|y l IH]; [done|]. cbn [first_found]. destruct (f y) eqn:E.
  - intros [= <-]. exists y. split; [by left|done].
  - intros H. apply IH in H as (z & ? & ?). exists z. split; [by right|done].
Qed.


(** ** Claiming *)

Section claim.
Context (document : json → jvalue).

(** What the query and the checks of a claim established of the intent [i],
    read as [row]. *)
Record claim_authorized (command : string) (fence : SchedulerFence) (now : Z) (d : SubmissionDb)
    (i : IntentRow) (row : AutonomousExecutionIntentRow) : Prop := {
  ca_intent : In i (db_intents (s_exec d));
  ca_ready : intent_status i = IntentReady;
  ca_fence : held fence d = true;
  ca_filter : ∃ filter r l, commandFilter command = Ret filter ∧ review_of (s_exec d) i = Some r ∧
    lifecycle_of d (intent_id i) = Some l ∧ filter (rv_reviewType (review_input r)) l i = true ∧
    review_status r = ReviewValid ∧ now < rv_expiresAt (review_input r) ∧
    exact_review_authorization document i l r = true ∧
    row_payload_fingerprint row = Some (rv_payloadFingerprint (review_input r)) ∧
    ∃ c s, confirmation_of (s_exec d) i r = Some c ∧ conf_status c = ConfirmationValid ∧
      now < cf_expiresAt (conf_input c) ∧ row_confirmation_evidence_id row = cf_id (conf_input c) ∧
      latest_snapshot (s_exec d) (intent_account_id i) = Some s ∧
      portfolio_unchanged document s r = true ∧
      ∀ id, intent_reservation_id i = Some id →
        ∃ v a lim, select_one (λ x, (resv_id x =? id)%string) (db_reservations (s_exec d)) = Some v ∧
          resv_status v = ReservationActive ∧ now < resv_expires_at v ∧
          capacityAllowed (capacity (intent_account_id i) (intent_symbol i) now 0 s (lim_config lim) a (s_exec d)) = true;
  ca_new : no_prior_acknowledgement i (s_exec d) = true;
  ca_reviewed : assertExactReviewAuthorization row = Ret tt;
  ca_row : (row_order_intent_id row, row_account_id row, row_client_order_id row) =
           (intent_id i, intent_account_id i, intent_client_order_id i) ∧
           row_intent_version row = intent_version i ∧ row_reservation_id row = intent_reservation_id i
}.

Lemma claimable_spec now filter d i row :
  claimable document now filter d i = Some row →
  ∃ acct l s r a lim c, lifecycle_of d (intent_id i) = Some l ∧
    latest_snapshot (s_exec d) (intent_account_id i) = Some s ∧ review_of (s_exec d) i = Some r ∧
    confirmation_of (s_exec d) i r = Some c ∧
    row = claimed_row document d i l acct s r (cf_id (conf_input c)) ∧
    intent_status i = IntentReady ∧ filter (rv_reviewType (review_input r)) l i = true ∧ review_valid now r = true ∧
    exact_review_authorization document i l r = true ∧ confirmation_valid now c = true ∧
    no_prior_acknowledgement i (s_exec d) = true ∧ portfolio_unchanged document s r = true ∧
    reservation_stands now i s lim a (s_exec d) = true.
Proof.
  unfold claimable. destruct (select_one _ (db_accounts _)) as [acct|]; [|done].
  destruct (lifecycle_of d _) as [l|]; [|done]. destruct (latest_snapshot _ _) as [s|]; [|done].
  destruct (review_of _ i) as [r|]; [|done]. destruct (select_one _ (db_allocations _)) as [a|]; [|done].
  destruct (select_one _ (db_risk_limits _)) as [lim|]; [|done].
  destruct (confirmation_of _ i r) as [c|] eqn:Hc; [|done]. destruct (_ && _) eqn:E; [|done]. intros [= <-].
  rewrite !andb_true_iff in E. destruct E as [[[[[[[[Hs Hf] Hr] Hx] Hv] Hn] Hp] _] Ha].
  apply bool_decide_eq_true in Hs. exists acct, l, s, r, a, lim, c. by split_and!.
Qed.

Definition claims (row : AutonomousExecutionIntentRow) (r : IntentRow) : bool :=
  in_status (row_order_intent_id row) IntentReady r && (intent_version r =? row_intent_version row).

Lemma claimIntent_Ret command fence now expected d row d' :
  claimIntent document command fence now expected d = Ret (row, d') →
  ∃ filter, commandFilter command = Ret filter ∧ next_claimable document now filter d = Some row ∧
    assertExactReviewAuthorization row = Ret tt ∧ held fence d = true ∧
    (∀ e, present expected = Some e →
       row_review_signature row = Some e ∨ row_payload_fingerprint row = Some e) ∧
    update_intent (claims row) (set_intent_status IntentPending now) d = Ret (1%nat, d').
Proof.
  unfold claimIntent. intros (filter & d1 & [Hf ->]%lift_Ret & H)%tx_bind_Ret.
  apply tx_bind_Ret in H as (o & d1 & [-> ->]%gets_Ret & H).
  destruct (next_claimable _ _ _ _) as [x|] eqn:E; [|done].
  apply tx_bind_Ret in H as ([] & d1 & [Hx ->]%lift_Ret & H). apply tx_bind_Ret in H as (? & d1 & [He ->]%require_Ret & H).
  apply tx_bind_Ret in H as (? & d2 & [Hh Hu]%require_one_Ret%fenced_one & H). injection H as <- <-.
  exists filter. split_and!; try done. intros e Hp. rewrite Hp in He. unfold text_is in He.
  apply orb_true_iff in He as [?%bool_decide_eq_true|?%bool_decide_eq_true]; auto.
Qed.

Lemma update_intent_Ret p f d n d' :
  update_intent p f d = Ret (n, d') ↔
  n = count_where p (db_intents (s_exec d)) ∧
  d' = set_exec (set_intents (update_where p f (db_intents (s_exec d))) (s_exec d)) d ∧
  ∀ i, In i (db_intents (s_exec d)) → p i = true → intent_times_ok (f i) = true.
Proof.
  unfold update_intent, exec. split.
  - destruct (update_rows _ _ _ _ _ _) as [[m x]|] eqn:E; [|done]. intros [= <- <-].
    by apply update_rows_Ret in E as (-> & -> & ?).
  - intros (-> & -> & Hok). by rewrite (proj2 (update_rows_Ret _ _ _ _ _ _ _ _) (conj eq_refl (conj eq_refl Hok))).
Qed.

Lemma claimed_authorized command fence now expected d row d' :
  claimIntent document command fence now expected d = Ret (row, d') → ∃ i, claim_authorized command fence now d i row.
Proof.
  intros (filter & Hf & Hn & Hx & Hh & _ & _)%claimIntent_Ret.
  unfold next_claimable in Hn. apply first_found_In in Hn as (i & Hi%sort_by_In & Hc).
  apply claimable_spec in Hc as (acct & l & s & r & a & lim & c & Hl & Hs & Hr & Hc & -> & Hst & Hfl & Hv & Hex & Hcv
    & Hna & Hp & Ha).
  exists i. split; try done.
  unfold review_valid, confirmation_valid in *. apply andb_true_iff in Hv as [Hv1%bool_decide_eq_true Hv2%Z.ltb_lt].
  apply andb_true_iff in Hcv as [Hc1%bool_decide_eq_true Hc2%Z.ltb_lt].
  exists filter, r, l. split_and!; try done. exists c, s. split_and!; try done.
  intros id Hid. unfold reservation_stands in Ha. rewrite Hid in Ha.
  destruct (select_one _ _) as [v|] eqn:Ev; [|done]. apply andb_true_iff in Ha as [[Ha1 Ha2%Z.ltb_lt]%andb_true_iff Ha3].
  exists v, a, lim. split_and!; try done. unfold is_active_reservation in Ha1. by apply bool_decide_eq_true in Ha1.
Qed.
End claim.

Lemma updated_at_id id (p : IntentRow → bool) (f : IntentRow → IntentRow) t :
  NoDup (map intent_id t) → (∃ i, In i t ∧ intent_id i = id ∧ p i = true) →
  (∀ i, p i = true → intent_id i = id) →
  update_where p f t = update_where (λ i, (intent_id i =? id)%string) f t.
Proof.
  intros Hnd (i & Hi & Hid & Hp) Hall. apply map_ext_in. intros j Hj.
  destruct (p j) eqn:Ej.
  - by rewrite (Hall j Ej), String.eqb_refl.
  - destruct (intent_id j =? id)%string eqn:E; [|done]. apply String.eqb_eq in E.
    assert (j = i) as -> by (apply (unique_key intent_id t); congruence). congruence.
Qed.

Lemma in_status_true id s r : in_status id s r = true ↔ intent_id r = id ∧ intent_status r = s.
Proof. unfold in_status. by rewrite andb_true_iff, String.eqb_eq, bool_decide_eq_true. Qed.

(** The intents with [f] applied to the one with this id. *)
Definition with_intent (id : string) (f : IntentRow → IntentRow) (d : SubmissionDb) : SubmissionDb :=
  set_exec (set_intents (update_where (λ i, (intent_id i =? id)%string) f (db_intents (s_exec d))) (s_exec d)) d.

Definition intent_ids (d : SubmissionDb) : list string := map intent_id (db_intents (s_exec d)).

Lemma with_intent_ids id f d :
  (∀ i, intent_id (f i) = intent_id i) → intent_ids (with_intent id f d) = intent_ids d.
Proof. intros Hf. unfold intent_ids, with_intent. cbn. by apply update_where_key. Qed.

(** An update of the intent in a status finds the one with the id. *)
Lemma update_intent_one p f d n d' id :
  NoDup (intent_ids d) → (∀ i, p i = true → intent_id i = id) → update_intent p f d = Ret (n, d') →
  n = 1%nat → d' = with_intent id f d ∧ ∃ i, In i (db_intents (s_exec d)) ∧ p i = true.
Proof.
  intros Hnd Hp (Hn & -> & _)%update_intent_Ret ->. unfold count_where in Hn.
  destruct (List.filter p (db_intents (s_exec d))) as [|i l] eqn:E; [done|].
  assert (In i (List.filter p (db_intents (s_exec d)))) as [Hi Hpi]%filter_In by (rewrite E; by left).
  split; [|by exists i]. unfold with_intent. by rewrite (updated_at_id id) by eauto.
Qed.

(** A claim is of an intent that was authorized, and changes nothing else.
    When claimIntent returns, the intent was ready under the held fence, for an
    operation of the command; its review was valid, unexpired and of exactly
    this order, its confirmation valid and unexpired, no broker order or
    acknowledgement existed, the portfolio was the one of the review, and its
    reservation active, unexpired and within the account's limits.  The intent
    is pending, and no other row has changed. *)
Theorem claim_only_authorized document command fence now expected d row d' :
  NoDup (intent_ids d) →
  claimIntent document command fence now expected d = Ret (row, d') →
  (∃ i, claim_authorized document command fence now d i row) ∧
  d' = with_intent (row_order_intent_id row) (set_intent_status IntentPending now) d.
Proof.
  intros Hnd H. split; [by eapply claimed_authorized|]. apply claimIntent_Ret in H as (? & _ & _ & _ & _ & _ & H).
  apply (update_intent_one _ _ _ _ _ (row_order_intent_id row)) in H as [-> _]; try done.
  intros i Hi. unfold claims in Hi. by apply andb_true_iff in Hi as [[? _]%in_status_true _].
Qed.

(** ** Giving a claim back *)

Lemma update_candidate_tables f c s r now d n d' :
  update_candidate f c s r now d = Ret (n, d') → ∃ cs, d' = set_candidates cs d.
Proof.
  unfold update_candidate, fenced. destruct (held f d); intros [= <- <-]; [by eexists|].
  exists (s_candidates d). by destruct d.
Qed.

Lemma stage_tables f now row s r d u d' :
  persistCandidateExecutionStage f now row s r d = Ret (u, d') → ∃ cs, d' = set_candidates cs d.
Proof.
  unfold persistCandidateExecutionStage. destruct (present _).
  - intros H%require_one_Ret. by eapply update_candidate_tables.
  - intros [= <- <-]. exists (s_candidates d). by destruct d.
Qed.

Lemma releaseClaim_Ret f row now reason d u d' :
  NoDup (intent_ids d) → releaseClaim f row now reason d = Ret (u, d') →
  (∃ cs, d' = set_candidates cs (with_intent (row_order_intent_id row) (set_intent_status IntentReady now) d)) ∧
  ∃ i, In i (db_intents (s_exec d)) ∧ intent_id i = row_order_intent_id row ∧ intent_status i = IntentPending.
Proof.
  intros Hnd (? & d1 & [_ Hu]%require_one_Ret%fenced_one & Hs%stage_tables)%tx_bind_Ret.
  apply (update_intent_one _ _ _ _ _ (row_order_intent_id row)) in Hu as [-> (i & Hi & Hp%in_status_true)]; try done.
  - split; [done|]. exists i. naive_solver.
  - intros i. rewrite in_status_true. by intros [? _].
Qed.

Lemma update_where_twice {R} (p : R → bool) f g t :
  (∀ r, p (f r) = p r) → update_where p g (update_where p f t) = update_where p (λ r, g (f r)) t.
Proof.
  intros Hp. unfold update_where. rewrite map_map. apply map_ext. intros r. destruct (p r) eqn:E; [by rewrite Hp, E|].
  by rewrite E.
Qed.

(** The same intent at another version. *)
Definition at_version (version updated_at : Z) (i : IntentRow) : IntentRow :=
  {| intent_id := intent_id i; intent_account_id := intent_account_id i;
     intent_candidate_id := intent_candidate_id i; intent_reservation_id := intent_reservation_id i;
     intent_review_id := intent_review_id i; intent_confirmation_id := intent_confirmation_id i;
     intent_client_order_id := intent_client_order_id i; intent_idempotency_key := intent_idempotency_key i;
     intent_strategy_key := intent_strategy_key i; intent_symbol := intent_symbol i;
     intent_underlying_symbol := intent_underlying_symbol i; intent_asset_class := intent_asset_class i;
     intent_side := intent_side i; intent_order_type := intent_order_type i;
     intent_time_in_force := intent_time_in_force i; intent_quantity := intent_quantity i;
     intent_notional := intent_notional i; intent_limit_price := intent_limit_price i;
     intent_stop_price := intent_stop_price i; intent_estimated_premium := intent_estimated_premium i;
     intent_max_risk := intent_max_risk i; intent_status := intent_status i; intent_fingerprint := intent_fingerprint i;
     intent_lifecycle_fingerprint := intent_lifecycle_fingerprint i; intent_request_payload := intent_request_payload i;
     intent_request_id := intent_request_id i; intent_correlation_id := intent_correlation_id i;
     intent_ready_at := intent_ready_at i; intent_submitted_at := intent_submitted_at i; intent_terminal_at := intent_terminal_at i;
     intent_version := version; intent_created_at := intent_created_at i; intent_updated_at := updated_at |}.

(** A claim that is given back leaves the order as it was.  After claimIntent
    and releaseClaim the intent is ready again with every other column but its
    version and time of update as before, and no reservation, review,
    confirmation, order, event or other intent has changed. *)
Theorem claim_release_roundtrip document command fence now expected later reason d row d1 d2 :
  NoDup (intent_ids d) →
  claimIntent document command fence now expected d = Ret (row, d1) →
  releaseClaim fence row later reason d1 = Ret (tt, d2) →
  s_exec d2 = s_exec (with_intent (row_order_intent_id row)
                        (λ i, set_intent_status IntentReady later (set_intent_status IntentPending now i)) d) ∧
  ∃ i, In i (db_intents (s_exec d)) ∧ intent_id i = row_order_intent_id row ∧
    set_intent_status IntentReady later (set_intent_status IntentPending now i) =
    at_version (intent_version i + 2) later i.
Proof.
  intros Hnd Hc Hr. pose proof Hc as Hc'. apply claimed_authorized in Hc' as [i [Hi Hs _ _ _ _ [Hid _]]].
  injection Hid as Hid _ _.
  apply claimIntent_Ret in Hc as (? & _ & _ & _ & _ & _ & Hu).
  apply (update_intent_one _ _ _ _ _ (row_order_intent_id row)) in Hu as [-> _]; try done.
  2: { intros j Hj. unfold claims in Hj. by apply andb_true_iff in Hj as [[? _]%in_status_true _]. }
  apply releaseClaim_Ret in Hr as [[cs ->] _]; [|by rewrite with_intent_ids].
  split; [unfold with_intent; cbn -[update_where]; by rewrite update_where_twice|].
  exists i. split; [done|]. split; [done|]. unfold set_intent_status, set_intent, at_version. cbn.
  rewrite Hs. f_equal. lia.
Qed.

(** ** Recording the broker's answer *)

Lemma exec_Ret {A} (m : tx ExecDb A) d a d' :
  exec m d = Ret (a, d') ↔ ∃ x, m (s_exec d) = Ret (a, x) ∧ d' = set_exec x d.
Proof. unfold exec. destruct (m (s_exec d)) as [[b x]|]; naive_solver. Qed.

Lemma written_one (m : tx ExecDb bool) d d' :
  (w ← exec m; mret (row_count w)) d = Ret (1%nat, d') ↔ exec m d = Ret (true, d').
Proof.
  rewrite tx_bind_Ret. split.
  - intros (b & d1 & H & E). destruct b; [|done]. by injection E as <-.
  - intros H. by exists true, d'.
Qed.

Lemma insert_unless_true {R} target conflicts ok get set (r : R) d d' :
  exec (insert_unless target conflicts ok get set r) d = Ret (true, d') ↔
  existsb (target r) (get (s_exec d)) = false ∧ existsb (conflicts r) (get (s_exec d)) = false ∧ ok r = true ∧
  d' = set_exec (set (get (s_exec d) ++ [r]) (s_exec d)) d.
Proof.
  rewrite exec_Ret. split.
  - intros (x & [E (? & ? & ->)%insert_row_Ret]%insert_unless_Ret & ->). done.
  - intros (E & Ec & Eo & ->). eexists. split; [|done]. apply insert_unless_Ret. split; [done|]. by apply insert_row_Ret.
Qed.

Lemma update_one {R} ok get set p (f : R → R) d d' :
  exec (update_rows ok get set p f) d = Ret (1%nat, d') →
  d' = set_exec (set (update_where p f (get (s_exec d))) (s_exec d)) d ∧
  ∃ r, In r (get (s_exec d)) ∧ p r = true ∧ ∀ r', In r' (get (s_exec d)) → p r' = true → r' = r.
Proof.
  intros (x & (Hn & -> & _)%update_rows_Ret & ->)%exec_Ret. split; [done|]. unfold count_where in Hn.
  destruct (List.filter p (get (s_exec d))) as [|r [|]] eqn:E; [done| |done]. exists r.
  assert (∀ r', In r' (get (s_exec d)) ∧ p r' = true ↔ r = r') as Hr.
  { intros r'. rewrite <- filter_In, E. cbn. tauto. }
  destruct (proj2 (Hr r) eq_refl). split_and!; try done. intros r' H1 H2. symmetry. by apply Hr.
Qed.

Lemma move_intent_one f id from g h d d' :
  NoDup (intent_ids d) → move_intent f id from g h d = Ret (1%nat, d') →
  d' = set_lifecycle (update_where (λ l, (lc_intent_id l =? id)%string) h (s_lifecycle d)) (with_intent id g d) ∧
  held f d = true ∧ ∃ i, In i (db_intents (s_exec d)) ∧ intent_id i = id ∧ intent_status i = from.
Proof.
  intros Hnd [Hf (n & d1 & Hu & H)%tx_bind_Ret]%fenced_one. apply tx_bind_Ret in H as (? & d2 & Hl & H).
  injection H as -> <-. apply (update_intent_one _ _ _ _ _ id) in Hu as [-> (i & Hi & Hp%in_status_true)]; try done.
  - injection Hl as _ <-. split_and!; [done..|]. exists i. naive_solver.
  - intros i. rewrite in_status_true. by intros [? _].
Qed.

(** What a recorded answer does to the reservation of the intent, when it has
    one: a terminal order without a fill gives it back, any other commits it. *)
Definition reservation_settled (row : AutonomousExecutionIntentRow) (s : state) (now : Z) (d d' : SubmissionDb) : Prop :=
  match present (row_reservation_id row), release_reason s with
  | None, _ => d' = d
  | Some id, None =>
      d' = set_exec (set_reservations (update_where (is_settled_reservation id) (settle_reservation true now)
             (db_reservations (s_exec d))) (s_exec d)) d ∧
      ∃ r, In r (db_reservations (s_exec d)) ∧ resv_id r = id ∧ resv_status r = ReservationActive
  | Some id, Some reason =>
      ∃ r t, In r (db_reservations (s_exec d)) ∧ resv_id r = id ∧
        resv_status r ∈ [ReservationActive; ReservationCommitted] ∧
        tt_reservation_id t = id ∧ tt_release_reason t = reason ∧
        ¬ In id (map tt_reservation_id (s_terminals d)) ∧
        d' = set_terminals (s_terminals d ++ [t])
               (set_exec (set_allocations (update_where (is_current_allocation (resv_account_id r) (resv_strategy_key r))
                            (give_back (resv_amount r) now) (db_allocations (s_exec d)))
                  (set_reservations (update_where (releasable id) (release_reservation reason now)
                     (db_reservations (s_exec d))) (s_exec d))) d)
  end.

Lemma select_one_In {R} (p : R → bool) l r : select_one p l = Some r → In r l ∧ p r = true.
Proof. apply select_one_Some. Qed.

Lemma release_terminal_one f reason now t d d' :
  release_terminal f reason now t d = Ret ((1, 1, 1)%nat, d') →
  ∃ r, In r (db_reservations (s_exec d)) ∧ releasable (tt_reservation_id t) r = true ∧
    ¬ In (tt_reservation_id t) (map tt_reservation_id (s_terminals d)) ∧
    d' = set_terminals (s_terminals d ++ [t])
           (set_exec (set_allocations (update_where (is_current_allocation (resv_account_id r) (resv_strategy_key r))
                        (give_back (resv_amount r) now) (db_allocations (s_exec d)))
              (set_reservations (update_where (releasable (tt_reservation_id t)) (release_reservation reason now)
                 (db_reservations (s_exec d))) (s_exec d))) d).
Proof.
  unfold release_terminal. intros (o & d1 & [-> ->]%gets_Ret & H)%tx_bind_Ret.
  destruct (held f d); [|done]. destruct (select_one _ _) as [r|] eqn:Er; [|done].
  apply select_one_In in Er as [Hr Hp]. exists r.
  apply tx_bind_Ret in H as (n & d1 & Hn & H). apply tx_bind_Ret in H as (m & d2 & Hm & H).
  apply tx_bind_Ret in H as (k & d3 & Hk & H). injection H as -> -> -> ->.
  apply update_one in Hn as [-> _]. apply update_one in Hm as [-> _]. unfold insert_terminal in Hk.
  destruct (existsb _ _) eqn:E; [done|]. destruct (existsb (λ x, (tt_id x =? tt_id t)%string) _); [done|].
  injection Hk as <-.
  split_and!; try done. intros (x & Hx & Hin)%in_map_iff. apply not_true_iff_false in E. apply E, existsb_exists.
  exists x. by rewrite Hx, String.eqb_refl.
Qed.

Lemma settle_submission_Ret srid f row s now d u d' :
  settle_submission srid f row s now d = Ret (u, d') → reservation_settled row s now d d'.
Proof.
  unfold settle_submission, reservation_settled. destruct (present _) as [id|]; [|by intros [= _ <-]].
  destruct (release_reason s) as [reason|].
  - intros (n & d1 & H & [Hn%bool_decide_eq_true ->]%require_Ret)%tx_bind_Ret. subst n.
    apply release_terminal_one in H as (r & Hr & Hp & Ht & ->). cbn [terminal_transition tt_reservation_id] in *.
    unfold releasable in Hp. apply andb_true_iff in Hp as [Hi%String.eqb_eq Hs%bool_decide_eq_true].
    exists r, (terminal_transition srid row id s reason now). by split_and!.
  - intros [_ H]%require_one_Ret%fenced_one. apply update_one in H as (-> & r & Hr & Hp & _). split; [done|].
    unfold is_settled_reservation, is_active_reservation in Hp.
    apply andb_true_iff in Hp as [Hi%String.eqb_eq Hs%bool_decide_eq_true]. by exists r.
Qed.

(** The tables that a settlement changes, before and after. *)
Definition settles (row : AutonomousExecutionIntentRow) (s : state) (now : Z) (d d' : SubmissionDb) : Prop :=
  match present (row_reservation_id row), release_reason s with
  | None, _ =>
      db_reservations (s_exec d') = db_reservations (s_exec d) ∧ db_allocations (s_exec d') = db_allocations (s_exec d)
      ∧ s_terminals d' = s_terminals d
  | Some id, None =>
      db_reservations (s_exec d') = update_where (is_settled_reservation id) (settle_reservation true now)
                                      (db_reservations (s_exec d)) ∧
      db_allocations (s_exec d') = db_allocations (s_exec d) ∧ s_terminals d' = s_terminals d ∧
      ∃ r, In r (db_reservations (s_exec d)) ∧ resv_id r = id ∧ resv_status r = ReservationActive
  | Some id, Some reason =>
      ∃ r t, In r (db_reservations (s_exec d)) ∧ resv_id r = id ∧
        resv_status r ∈ [ReservationActive; ReservationCommitted] ∧
        db_reservations (s_exec d') = update_where (releasable id) (release_reservation reason now)
                                        (db_reservations (s_exec d)) ∧
        db_allocations (s_exec d') = update_where (is_current_allocation (resv_account_id r) (resv_strategy_key r))
                                       (give_back (resv_amount r) now) (db_allocations (s_exec d)) ∧
        tt_reservation_id t = id ∧ tt_release_reason t = reason ∧
        ¬ In id (map tt_reservation_id (s_terminals d)) ∧ s_terminals d' = s_terminals d ++ [t]
  end.

(** What a recorded answer leaves in the database. *)
Record submission_stored (row : AutonomousExecutionIntentRow) (response : BrokerResponse) (fence : SchedulerFence)
    (at_ : Z) (d d' : SubmissionDb) : Prop := {
  ss_fence : held fence d = true;
  ss_pending : ∃ i, In i (db_intents (s_exec d)) ∧ intent_id i = row_order_intent_id row ∧
                    intent_status i = IntentPending;
  ss_intent : db_intents (s_exec d') =
    update_where (λ i, (intent_id i =? row_order_intent_id row)%string)
      (submitted_intent (broker_lifecycle_state row (broker_status (response_data response))) at_)
      (db_intents (s_exec d));
  ss_order : ∃ o, db_orders (s_exec d') = db_orders (s_exec d) ++ [o] ∧ order_intent_id o = row_order_intent_id row ∧
    order_client_order_id o = row_client_order_id row ∧ order_status o = broker_status (response_data response) ∧
    order_broker_order_id o = Some (text_of (so_id (response_data response))) ∧
    existsb (same_client_order o) (db_orders (s_exec d)) = false;
  ss_event : ∃ e, db_events (s_exec d') = db_events (s_exec d) ++ [e] ∧
    event_broker_order_id e = Some (text_of (so_id (response_data response))) ∧
    event_status e = outcome_name (acknowledged_outcome (broker_status (response_data response)));
  ss_settled : settles row (broker_lifecycle_state row (broker_status (response_data response))) at_ d d';
  ss_review : db_reviews (s_exec d') =
    update_where (λ r, (rv_id (review_input r) =? row_execution_review_id row)%string
                       && bool_decide (review_status r ∈ [ReviewValid])) (consume_review at_) (db_reviews (s_exec d))
    ∧ ∃ r, In r (db_reviews (s_exec d)) ∧ rv_id (review_input r) = row_execution_review_id row ∧
           review_status r = ReviewValid;
  ss_confirmation : db_confirmations (s_exec d') =
    update_where (λ c, (cf_id (conf_input c) =? row_confirmation_evidence_id row)%string
                       && bool_decide (conf_status c ∈ [ConfirmationValid])) (consume_confirmation at_)
      (db_confirmations (s_exec d))
    ∧ ∃ c, In c (db_confirmations (s_exec d)) ∧ cf_id (conf_input c) = row_confirmation_evidence_id row ∧
           conf_status c = ConfirmationValid
}.

Lemma insert_event_true e d d' :
  insert_event e d = Ret (1%nat, d') → d' = set_exec (set_events (db_events (s_exec d) ++ [e]) (s_exec d)) d.
Proof. unfold insert_event. by intros (_ & _ & _ & ->)%written_one%insert_unless_true. Qed.

Lemma consume_one f id s now d d' :
  consume f id s now d = Ret (1%nat, d') →
  d' = set_exec (set_reviews (update_where (λ r, (rv_id (review_input r) =? id)%string
         && bool_decide (review_status r ∈ s)) (consume_review now) (db_reviews (s_exec d))) (s_exec d)) d ∧
  ∃ r, In r (db_reviews (s_exec d)) ∧ rv_id (review_input r) = id ∧ review_status r ∈ s.
Proof.
  intros [_ (-> & r & Hr & Hp & _)%update_one]%fenced_one. split; [done|].
  apply andb_true_iff in Hp as [?%String.eqb_eq ?%bool_decide_eq_true]. by exists r.
Qed.

Lemma consume_confirmed_one f id s now d d' :
  consume_confirmed f id s now d = Ret (1%nat, d') →
  d' = set_exec (set_confirmations (update_where (λ c, (cf_id (conf_input c) =? id)%string
         && bool_decide (conf_status c ∈ s)) (consume_confirmation now) (db_confirmations (s_exec d))) (s_exec d)) d ∧
  ∃ c, In c (db_confirmations (s_exec d)) ∧ cf_id (conf_input c) = id ∧ conf_status c ∈ s.
Proof.
  intros [_ (-> & r & Hr & Hp & _)%update_one]%fenced_one. split; [done|].
  apply andb_true_iff in Hp as [?%String.eqb_eq ?%bool_decide_eq_true]. by exists r.
Qed.

Lemma acknowledged_order_fields srid row response at_ o :
  acknowledged_order srid row response at_ = Ret o →
  order_intent_id o = row_order_intent_id row ∧ order_client_order_id o = row_client_order_id row ∧
  order_status o = broker_status (response_data response) ∧
  order_broker_order_id o = Some (text_of (so_id (response_data response))).
Proof.
  unfold acknowledged_order. repeat (intros (? & _ & H)%res_bind_Ret; revert H). intros [= <-]. done.
Qed.

Lemma reservation_settled_tables row s now d d' :
  reservation_settled row s now d d' →
  settles row s now d d' ∧ db_intents (s_exec d') = db_intents (s_exec d) ∧
  db_orders (s_exec d') = db_orders (s_exec d) ∧ db_events (s_exec d') = db_events (s_exec d) ∧
  db_reviews (s_exec d') = db_reviews (s_exec d) ∧ db_confirmations (s_exec d') = db_confirmations (s_exec d).
Proof.
  unfold reservation_settled, settles. destruct (present _) as [id|], (release_reason s) as [reason|].
  - intros (r & t & Hr & Hi & Hs & Ht & Hre & Hn & ->). split; [|done]. exists r, t. by split_and!.
  - intros [-> Hr]. split; [|done]. by split_and!.
  - by intros ->.
  - by intros ->.
Qed.

Lemma settles_same row s now d1 d1' d d' :
  db_reservations (s_exec d1) = db_reservations (s_exec d) → db_allocations (s_exec d1) = db_allocations (s_exec d) →
  s_terminals d1 = s_terminals d →
  db_reservations (s_exec d1') = db_reservations (s_exec d') → db_allocations (s_exec d1') = db_allocations (s_exec d') →
  s_terminals d1' = s_terminals d' →
  settles row s now d1 d1' → settles row s now d d'.
Proof. unfold settles. by intros -> -> -> -> -> ->. Qed.

(** Recording the broker's answer.  When recordSubmission returns, the fence
    was held and the intent pending; exactly one order, with the broker's
    identifier and the client order id, and one event were added, and no order
    with that client order id existed; the intent has the status and the
    lifecycle state of the broker's status; an order that ended without a fill
    gives its reservation back to the allocation, with one terminal transition,
    and any other commits an active reservation; the review and the confirmation
    were valid and are consumed. *)
Theorem submission_recorded digest stableRecordId timestamp_format row response receipt fence at_ d recorded d' :
  NoDup (intent_ids d) →
  recordSubmission digest stableRecordId timestamp_format row response receipt fence at_ d = Ret (recorded, d') →
  submission_stored row response fence at_ d d'.
Proof.
  intros Hnd. unfold recordSubmission. intros (? & d0 & [_ ->]%require_Ret & H)%tx_bind_Ret.
  apply tx_bind_Ret in H as (occurredAt & d0 & [_ ->]%lift_Ret & H).
  apply tx_bind_Ret in H as (o & d0 & [(Ho1 & Ho2 & Ho3 & Ho4)%acknowledged_order_fields ->]%lift_Ret & H).
  apply tx_bind_Ret in H as (? & d1 & [Hf (Hc & _ & _ & ->)%written_one%insert_unless_true]%require_one_Ret%fenced_one & H).
  apply tx_bind_Ret in H as (? & d2 & ->%require_one_Ret%insert_event_true & H).
  apply tx_bind_Ret in H as (? & d3 & Hm%require_one_Ret & H).
  apply move_intent_one in Hm as (-> & _ & Hi); [|done].
  apply tx_bind_Ret in H as (? & d4 & Hs%settle_submission_Ret%reservation_settled_tables & H).
  destruct Hs as (Hs & Ei & Eo & Ee & Er & Ec).
  apply tx_bind_Ret in H as (? & d6 & He & H). unfold consume_evidence in He.
  apply tx_bind_Ret in He as (? & d5 & [-> (r & Hr & Hrid & Hrs)]%require_one_Ret%consume_one & He).
  apply require_one_Ret, consume_confirmed_one in He as [-> (c & Hcf & Hcid & Hcs)].
  apply tx_bind_Ret in H as (? & d7 & [cs ->]%stage_tables & H). injection H as _ <-.
  apply list_elem_of_singleton in Hrs, Hcs. cbn in Hr, Hcf. rewrite Er in Hr. rewrite Ec in Hcf.
  split; [exact Hf|exact Hi|exact Ei|..].
  - exists o. by split.
  - eexists. split; [exact Ee|done].
  - revert Hs. by apply settles_same.
  - split; [cbn; by rewrite Er|]. by exists r.
  - split; [cbn; by rewrite Ec|]. by exists c.
Qed.

(** ** A claim given back is the next one *)

Lemma insert_by_map {A} (le : A → A → bool) (f : A → A) x l :
  (∀ a b, le (f a) (f b) = le a b) → insert_by le (f x) (map f l) = map f (insert_by le x l).
Proof.
  intros Hf. induction l as [|y l IH]; [done|]. cbn. rewrite Hf. destruct (le x y); [done|]. cbn. by rewrite IH.
Qed.

Lemma sort_by_map {A} (le : A → A → bool) (f : A → A) l :
  (∀ a b, le (f a) (f b) = le a b) → sort_by le (map f l) = map f (sort_by le l).
Proof. intros Hf. induction l as [|x l IH]; [done|]. unfold sort_by in *. cbn. rewrite IH. by apply insert_by_map. Qed.

Lemma first_found_map {A B C} (F G : A → option B) (h : B → C) (f : A → A) l :
  (∀ x, In x l → h <$> F (f x) = h <$> G x) → h <$> first_found F (map f l) = h <$> first_found G l.
Proof.
  induction l as [|x l IH]; intros H; [done|]. cbn. pose proof (H x (or_introl eq_refl)) as Hx.
  destruct (F (f x)), (G x); try done. apply IH. intros y Hy. apply H. by right.
Qed.

Lemma commandFilter_version command filter rt l v t j :
  commandFilter command = Ret filter → filter rt l (at_version v t j) = filter rt l j.
Proof. unfold commandFilter. repeat (case_match; [by intros [= <-]|]). done. Qed.

Lemma claimable_version document now command filter d d2 v t j :
  commandFilter command = Ret filter → (∃ cs l, d2 = set_candidates cs (set_exec (set_intents l (s_exec d)) d)) →
  row_order_intent_id <$> claimable document now filter d2 (at_version v t j) =
  row_order_intent_id <$> claimable document now filter d j.
Proof.
  intros Hfl (cs & l & ->). unfold claimable. cbn [s_exec set_candidates set_exec].
  change (intent_account_id (at_version v t j)) with (intent_account_id j).
  change (intent_id (at_version v t j)) with (intent_id j).
  change (intent_strategy_key (at_version v t j)) with (intent_strategy_key j).
  change (db_accounts (set_intents l (s_exec d))) with (db_accounts (s_exec d)).
  destruct (select_one _ (db_accounts _)) as [acct|]; [|done].
  change (lifecycle_of _ (intent_id j)) with (lifecycle_of d (intent_id j)).
  destruct (lifecycle_of d _) as [lc|]; [|done].
  change (latest_snapshot (set_intents l (s_exec d))) with (latest_snapshot (s_exec d)).
  destruct (latest_snapshot _ _) as [s|]; [|done].
  change (review_of (set_intents l (s_exec d)) _) with (review_of (s_exec d) j).
  destruct (review_of _ j) as [r|]; [|done].
  change (db_allocations (set_intents l (s_exec d))) with (db_allocations (s_exec d)).
  destruct (select_one _ (db_allocations _)) as [a|]; [|done].
  change (db_risk_limits (set_intents l (s_exec d))) with (db_risk_limits (s_exec d)).
  destruct (select_one _ (db_risk_limits _)) as [lim|]; [|done].
  change (confirmation_of (set_intents l (s_exec d)) _ r) with (confirmation_of (s_exec d) j r).
  destruct (confirmation_of _ j r) as [c|]; [|done].
  rewrite (commandFilter_version command) by done.
  match goal with |- _ <$> (if ?b then _ else _) = _ <$> (if ?b' then _ else _) => change b with b'; by destruct b' end.
Qed.

(** A claim that is given back is the next claim.  After claimIntent and
    releaseClaim the first claimable intent, at the same time, is the same one:
    an intent whose submission keeps failing before the request keeps the place
    at the head of the queue, and no intent behind it is claimed. *)
Theorem released_claim_is_next document command fence now expected later reason d row d1 d2 filter :
  NoDup (intent_ids d) → commandFilter command = Ret filter →
  claimIntent document command fence now expected d = Ret (row, d1) →
  releaseClaim fence row later reason d1 = Ret (tt, d2) →
  row_order_intent_id <$> next_claimable document now filter d2 = Some (row_order_intent_id row).
Proof.
  intros Hnd Hf Hc Hr. pose proof Hc as Hc'. apply claimed_authorized in Hc' as [i [Hi Hs _ _ _ _ [Hid _]]].
  injection Hid as Hid _ _.
  apply claimIntent_Ret in Hc as (filter' & Hf' & Hn & _ & _ & _ & Hu). rewrite Hf in Hf'. injection Hf' as <-.
  apply (update_intent_one _ _ _ _ _ (row_order_intent_id row)) in Hu as [-> _]; try done.
  2: { intros j Hj. unfold claims in Hj. by apply andb_true_iff in Hj as [[? _]%in_status_true _]. }
  apply releaseClaim_Ret in Hr as [[cs ->] _]; [|by rewrite with_intent_ids].
  set (p := λ i, (intent_id i =? row_order_intent_id row)%string).
  set (g := λ i, set_intent_status IntentReady later (set_intent_status IntentPending now i)).
  set (d2 := set_candidates cs _).
  assert (Hd : d2 = set_candidates cs (set_exec (set_intents (update_where p g (db_intents (s_exec d))) (s_exec d)) d)).
  { unfold d2, with_intent. cbn -[update_where]. by rewrite update_where_twice. }
  unfold next_claimable in *. rewrite Hd at 2. cbn [s_exec set_candidates set_exec].
  change (db_intents (set_intents ?l _)) with l. unfold update_where at 1. rewrite sort_by_map.
  2: { intros a b. by destruct (p a), (p b). }
  change (Some (row_order_intent_id row)) with (row_order_intent_id <$> Some row). rewrite <- Hn. apply first_found_map. intros j Hj%sort_by_In.
  destruct (p j) eqn:E; unfold p in E.
  - apply String.eqb_eq in E. assert (j = i) as -> by (by apply (unique_key intent_id (db_intents (s_exec d))); [..|congruence]).
    assert (g i = at_version (intent_version i + 2) later i) as ->.
    { unfold g, set_intent_status, set_intent, at_version. cbn. rewrite Hs. f_equal. lia. }
    apply (claimable_version _ _ command); [done|]. rewrite Hd. by do 2 eexists.
  - assert (j = at_version (intent_version j) (intent_updated_at j) j) as Ej by by destruct j.
    rewrite Ej at 1. apply (claimable_version _ _ command); [done|]. rewrite Hd. by do 2 eexists.
Qed.

(** ** Transactions that commit

    Under a held fence a pending intent can always be given back, failed or
    marked ambiguous. *)

Lemma count_unique {R K} (key : R → K) (p : R → bool) (l : list R) r :
  NoDup (map key l) → In r l → p r = true → (∀ x, p x = true → key x = key r) → count_where p l = 1%nat.
Proof.
  intros Hnd Hr Hp Hk. unfold count_where. assert (List.filter p l = [r]) as ->; [|done].
  induction l as [|x l IH]; [done|]. cbn in Hnd. apply NoDup_cons in Hnd as [Hx Hnd]. cbn.
  destruct Hr as [->|Hr].
  - rewrite Hp. f_equal. destruct (List.filter p l) as [|y m] eqn:E; [done|].
    assert (In y (List.filter p l)) as [Hy Hpy]%filter_In by (rewrite E; by left).
    destruct Hx. rewrite <- (Hk y Hpy). apply list_elem_of_In, in_map, Hy.
  - destruct (p x) eqn:E; [|by apply IH]. destruct Hx. rewrite (Hk x E). apply list_elem_of_In, in_map, Hr.
Qed.

Lemma update_intent_go id s f d i :
  NoDup (intent_ids d) → In i (db_intents (s_exec d)) → intent_id i = id → intent_status i = s →
  intent_times_ok (f i) = true →
  update_intent (in_status id s) f d = Ret (1%nat, with_intent id f d).
Proof.
  intros Hnd Hi Hid Hs Hok. assert (Hp : in_status id s i = true) by by apply in_status_true.
  apply update_intent_Ret. split_and!.
  - symmetry. apply (count_unique intent_id _ _ i); try done. intros j [? _]%in_status_true. congruence.
  - unfold with_intent. by rewrite (updated_at_id id (in_status id s)); [..|exists i|intros j [? _]%in_status_true].
  - intros j Hj [Hj1 _]%in_status_true. assert (j = i) as ->; [|done].
    apply (unique_key intent_id (db_intents (s_exec d))); [exact Hnd|done|done|congruence].
Qed.

(** The candidate of the row can be updated. *)
Definition candidate_known (row : AutonomousExecutionIntentRow) (d : SubmissionDb) : Prop :=
  ∀ c, present (row_candidate_id row) = Some c →
    count_where (λ x, (cand_id x =? c)%string && (cand_decision x =? "selected")%string) (s_candidates d) = 1%nat.

Lemma stage_go f now row s r d :
  held f d = true → candidate_known row d →
  ∃ cs, persistCandidateExecutionStage f now row s r d = Ret (tt, set_candidates cs d).
Proof.
  intros Hf Hc. unfold persistCandidateExecutionStage. destruct (present _) as [c|] eqn:Ep.
  - eexists. apply require_one_Ret, fenced_one. split; [done|]. by rewrite <- (Hc c Ep).
  - exists (s_candidates d). by destruct d.
Qed.

(** The intent of the row is pending, and can be updated at the time. *)
Definition pending_intent (row : AutonomousExecutionIntentRow) (now : Z) (d : SubmissionDb) : Prop :=
  ∃ i, In i (db_intents (s_exec d)) ∧ intent_id i = row_order_intent_id row ∧ intent_status i = IntentPending ∧
    intent_created_at i <= now ∧ intent_times_ok i = true.

Lemma times_after i status now :
  intent_times_ok i = true → intent_created_at i <= now → intent_times_ok (set_intent_status status now i) = true.
Proof.
  unfold intent_times_ok. cbn. rewrite !andb_true_iff. intros [[[-> ->] ->] _] ?. repeat split; try done. by apply Z.leb_le.
Qed.

Lemma times_ended i status now :
  intent_times_ok i = true → intent_created_at i <= now → intent_times_ok (end_intent status now i) = true.
Proof.
  unfold intent_times_ok. cbn. rewrite !andb_true_iff. intros [[[-> ->] _] _] ?.
  repeat split; try done; by apply Z.leb_le.
Qed.

Lemma releaseClaim_go f row now reason d :
  NoDup (intent_ids d) → held f d = true → pending_intent row now d → candidate_known row d →
  ∃ cs, releaseClaim f row now reason d =
    Ret (tt, set_candidates cs (with_intent (row_order_intent_id row) (set_intent_status IntentReady now) d)).
Proof.
  intros Hnd Hf (i & Hi & Hid & Hs & Ht & Hok) Hc.
  destruct (stage_go f now row "execution_deferred" reason
    (with_intent (row_order_intent_id row) (set_intent_status IntentReady now) d)) as [cs Hcs]; [done..|].
  exists cs. unfold releaseClaim. apply tx_bind_Ret. exists tt. eexists. split; [|exact Hcs].
  apply require_one_Ret, fenced_one. split; [done|]. apply (update_intent_go _ _ _ _ i); try done. by apply times_after.
Qed.

Lemma move_intent_go f id from g h d i :
  NoDup (intent_ids d) → held f d = true → In i (db_intents (s_exec d)) → intent_id i = id →
  intent_status i = from → intent_times_ok (g i) = true →
  move_intent f id from g h d =
    Ret (1%nat, set_lifecycle (update_where (λ l, (lc_intent_id l =? id)%string) h (s_lifecycle d)) (with_intent id g d)).
Proof.
  intros Hnd Hf Hi Hid Hs Hok. unfold move_intent. apply fenced_one. split; [done|].
  apply tx_bind_Ret. exists 1%nat. eexists. split; [by apply (update_intent_go _ _ _ _ i)|]. done.
Qed.

Lemma insert_event_go e d :
  has_event (event_id e) d = false → event_checks e = true →
  insert_event e d = Ret (1%nat, set_exec (set_events (db_events (s_exec d) ++ [e]) (s_exec d)) d).
Proof.
  intros Hn Hok. apply written_one, insert_unless_true.
  assert (existsb (same_event e) (db_events (s_exec d)) = false).
  { rewrite <- Hn. unfold has_event, same_event. clear. induction (db_events (s_exec d)) as [|x l IH]; [done|]. cbn.
    by rewrite IH, String.eqb_sym. }
  by split_and!.
Qed.
