(* ===== verification/SubmissionCommand.v ===== *)
(** Submitting paper orders, the command:
    [runAutonomousPostgresExecutionCommand] of
    src/services/autonomousPostgresExecutionService.ts and the recovery it is
    wired to in src/postgresOnlyCli.ts, [recoverAmbiguousPostgresSubmission] of
    src/services/postgresReconciliationService.ts.

    Both are programs of Effects.v: a database transaction (an [Operation],
    executed by the functions of Submission.v), a broker request, the clock and
    the timer are requests.  [SubmitOrder] is one call of [submitPaperOrder]:
    SubmissionRuns.v lists what the client sends in it.
    [reconcilePostgresPaperOrders] is one request, answered with its errors and the
    orders it recorded; for the theorem of SubmissionLiveness.v it is answered by
    running the program of ReconciliationCommand.v. *)

From S2P Require Import Prelude.
From S2P Require Import JsString.
From S2P Require Import JsNumber.
From S2P Require Import JsText.
From S2P Require Import JsJson.
From S2P Require Import TradeLifecycle.
From S2P Require Import SchedulerLease.
From S2P Require Import ExecutionTables.
From S2P Require Import BrokerResult.
From S2P Require Import SubmissionEvidence.
From S2P Require Import Effects.
From S2P Require Import Submission.
Open Scope Z_scope.

(** ** Operations on the database *)

Inductive Operation : Type → Type :=
| CountIntents (command : string) : Operation (nat * nat)
| Promote (command signingKey : string) (fence : SchedulerFence) (now : Z) : Operation PromotionResult
| Claim (command : string) (fence : SchedulerFence) (now : Z) (expectedPayloadSignature : option string)
    : Operation AutonomousExecutionIntentRow
| Release (fence : SchedulerFence) (intent : AutonomousExecutionIntentRow) (now : Z) (reason : string) : Operation unit
| Attempt (intent : AutonomousExecutionIntentRow) (payload : AlpacaPaperOrderRequest) (command : string)
    (fence : SchedulerFence) (now : Z) (context : LifecycleContext) : Operation BrokerMutationReceipt
| Acknowledge (intent : AutonomousExecutionIntentRow) (response : BrokerResponse) (receipt : BrokerMutationReceipt)
    (fence : SchedulerFence) (receivedAt : Z) : Operation SubmissionRecord
| Ambiguous (intent : AutonomousExecutionIntentRow) (receipt : BrokerMutationReceipt) (error : string)
    (fence : SchedulerFence) (now : Z) (errorClassification : string) : Operation BrokerMutationReceipt
| Fail (intent : AutonomousExecutionIntentRow) (receipt : BrokerMutationReceipt) (error : string)
    (fence : SchedulerFence) (now : Z) : Operation BrokerMutationReceipt
| RecordRecovery (intent : AutonomousExecutionIntentRow) (receipt : BrokerMutationReceipt)
    (orderId brokerOrderId brokerStatus : string) (fence : SchedulerFence) (now : Z)
    : Operation BrokerMutationReceipt
| FenceHeld (fence : SchedulerFence) : Operation bool.

Section execute.
Context (digest : string → string) (hmac : string → string → string) (document : json → jvalue).
Context (stableRecordId : string → string → string) (timestamp_format : string → option Z).

Definition count_operation (command : string) : tx SubmissionDb (nat * nat) := λ d,
  match count_intents document command d with Ret n => Ret (n, d) | Throw c => Throw c end.

Definition execute {A} (o : Operation A) : tx SubmissionDb A :=
  match o with
  | CountIntents command => count_operation command
  | Promote command key fence now => promoteNextConfirmedPostgresIntent digest hmac document command key fence now
  | Claim command fence now expected => claimIntent document command fence now expected
  | Release fence intent now reason => releaseClaim fence intent now reason
  | Attempt intent payload command fence now context =>
      recordSubmissionAttempt digest stableRecordId intent payload command fence now context
  | Acknowledge intent response receipt fence receivedAt =>
      recordSubmission digest stableRecordId timestamp_format intent response receipt fence receivedAt
  | Ambiguous intent receipt error fence now classification =>
      recordAmbiguousSubmission digest stableRecordId intent receipt error fence now classification
  | Fail intent receipt error fence now =>
      recordDeterministicSubmissionFailure digest stableRecordId intent receipt error fence now
  | RecordRecovery intent receipt orderId brokerOrderId brokerStatus fence now =>
      record_recovery digest stableRecordId intent receipt orderId brokerOrderId brokerStatus fence now
  | FenceHeld fence => gets (held fence)
  end.
End execute.

(** ** Requests *)

(** [AlpacaAssetTradabilityResult]: the fields in use. *)
Record Tradability := {
  tradable : bool;
  shortable : option bool;
  easyToBorrow : option bool
}.

(** The result of [reconcilePostgresPaperOrders]. *)
Record Reconciliation := {
  reconciliation_errors : nat;
  reconciled_orders : list (string * string)
}.

Inductive effect : Type → Type :=
| Database {A : Type} (o : Operation A) : effect (res A)
| MarketOpen : effect (res bool)
| CaptureBrokerSnapshot : effect (res AutonomousExecutionBrokerSnapshot)
| PersistBrokerSnapshot (s : AutonomousExecutionBrokerSnapshot) : effect (res unit)
| CheckAsset (symbol : string) : effect (res Tradability)
| SubmitOrder (payload : AlpacaPaperOrderRequest) : effect (BrokerError + BrokerResponse)
| LookupOrder (clientOrderId : string) : effect (BrokerError + BrokerResponse)
| ReconcileOrders (clientOrderId : string) (response : BrokerResponse) : effect (res Reconciliation)
| Clock : effect Z
| Sleep (milliseconds : Z) : effect unit.

(** ** Recovering an ambiguous submission *)

(** [required] of the reconciliation service. *)
Definition required (value : option string) (code : string) : res string :=
  if str_truthy (text_of value) then Ret (text_of value) else Throw code.

Definition is_word_char (c : ascii) : bool :=
  is_digit c || is_upper c || is_lower c || (N_of_ascii c =? 95)%N.

(** The regular expression [\b w \b], [previous] telling whether a word
    character precedes. *)
Fixpoint has_word (w : string) (previous : bool) (s : string) : bool :=
  negb previous && String.prefix w s
  && match str_drop (String.length w) s with EmptyString => true | String c _ => negb (is_word_char c) end
  || match s with EmptyString => false | String c s' => has_word w (is_word_char c) s' end.

Definition brokerOrderAbsent (e : BrokerError) : bool :=
  match error_status e with
  | Some s => s =? 404
  | None => has_word "404" false (error_message e)
            || includes_any ["order not found"; "not visible"]%string (to_lower (error_message e))
  end.

Definition deterministic_lookup_failure (e : BrokerError) : bool :=
  match error_status e with
  | Some s => (400 <=? s) && (s <? 500) && negb (s =? 408) && negb (s =? 429)
  | None => false
  end.

(** [maxAttempts] and [retryDelayMs]: [None] is undefined, [Some None] a number
    that is not a safe integer. *)
Record RecoveryPolicy := {
  recovery_maxAttempts : option (option Z);
  recovery_retryDelayMs : option (option Z)
}.

Definition policy_value (value : option (option Z)) (default_value low high : Z) : res Z :=
  match value with
  | None => Ret default_value
  | Some (Some v) => if (low <=? v) && (v <=? high) then Ret v
                     else Throw "POSTGRES_BROKER_SUBMISSION_RECOVERY_POLICY_INVALID"
  | Some None => Throw "POSTGRES_BROKER_SUBMISSION_RECOVERY_POLICY_INVALID"
  end.

Definition assertFence (fence : SchedulerFence) : async effect unit :=
  let! current := ask (Database (FenceHeld fence)) in
  reject_if (negb current) "SCHEDULER_FENCE_LOST".

(** The order was found: it is reconciled with what the broker said. *)
Definition reconcile_found (fence : SchedulerFence) (clientOrderId : string) (response : BrokerResponse)
    : async effect Recovery :=
  let data := response_data response in
  let! brokerOrderId := sync (required (so_id data) "POSTGRES_RECONCILIATION_BROKER_ID_MISSING") in
  let! status := sync (required (so_status data) "POSTGRES_RECONCILIATION_STATUS_MISSING") in
  let! client := sync (required (so_client_order_id data) "POSTGRES_RECONCILIATION_CLIENT_ID_MISSING") in
  let! _ := reject_if (negb (client =? clientOrderId)%string) "POSTGRES_RECONCILIATION_BROKER_IDENTITY_MISMATCH" in
  let! _ := assertFence fence in
  let! reconciliation := ask (ReconcileOrders clientOrderId response) in
  let! _ := reject_if (negb (reconciliation_errors reconciliation =? 0)%nat)
              "POSTGRES_BROKER_SUBMISSION_RECOVERY_RECONCILIATION_FAILED" in
  match List.find (λ o, (fst o =? clientOrderId)%string) (reconciled_orders reconciliation) with
  | None => reject "POSTGRES_BROKER_SUBMISSION_RECOVERY_ORDER_MISSING"
  | Some (_, orderId) => async_ret (Recovered orderId brokerOrderId (to_lower status))
  end.

Fixpoint recovery_loop (fence : SchedulerFence) (clientOrderId : string) (maxAttempts delay : Z) (left : nat)
    (attempt : Z) (absenceOnly sawAbsence : bool) : async effect Recovery :=
  match left with
  | O => if negb sawAbsence || negb absenceOnly
         then reject "POSTGRES_BROKER_SUBMISSION_RECOVERY_INFRASTRUCTURE_UNRESOLVED"
         else async_ret (RecoveryPending maxAttempts)
  | S left' =>
      let! _ := assertFence fence in
      Ask (LookupOrder clientOrderId) (λ answer,
        match answer with
        | inr response => reconcile_found fence clientOrderId response
        | inl error =>
            let absent := brokerOrderAbsent error in
            let! _ := reject_if (negb absent && deterministic_lookup_failure error)
                        "POSTGRES_BROKER_SUBMISSION_RECOVERY_DETERMINISTIC_LOOKUP_FAILED" in
            let! _ := if attempt <? maxAttempts then ask_value (Sleep (Z.min (delay * 2 ^ (attempt - 1)) 5000))
                      else async_ret tt in
            recovery_loop fence clientOrderId maxAttempts delay left' (attempt + 1) (absenceOnly && absent)
              (sawAbsence || absent)
        end)
  end.

Definition recoverAmbiguousPostgresSubmission (fence : SchedulerFence) (policy : RecoveryPolicy)
    (clientOrderId : string) : async effect Recovery :=
  let! id := sync (required (Some clientOrderId) "POSTGRES_BROKER_SUBMISSION_RECOVERY_CLIENT_ID_REQUIRED") in
  let! maxAttempts := sync (policy_value (recovery_maxAttempts policy) 8 1 10) in
  let! delay := sync (policy_value (recovery_retryDelayMs policy) 500 0 10000) in
  recovery_loop fence id maxAttempts delay (Z.to_nat maxAttempts) 1 true false.

(** ** The command *)

Record AutonomousExecutionSafety := {
  environment : string;
  tradingMode : string;
  liveTradingEnabled : bool;
  paperOrderExecutionEnabled : bool;
  paperOptionsExecutionEnabled : bool;
  quoteMaxAgeSeconds : number
}.

Definition assertSafety (s : AutonomousExecutionSafety) (confirm : bool) : res unit :=
  if negb (environment s =? "paper")%string || negb (tradingMode s =? "paper")%string
  then Throw "PAPER_RUNTIME_REQUIRED"
  else if liveTradingEnabled s then Throw "LIVE_TRADING_MUST_BE_DISABLED"
  else if negb (paperOrderExecutionEnabled s) then Throw "PAPER_ORDER_EXECUTION_DISABLED"
  else if negb confirm then Throw "PAPER_CONFIRMATION_REQUIRED"
  else Ret tt.

(** The optional callbacks are told by whether they are given; the recovery is
    the one of the reconciliation service.  [environmentSigningKey] is
    PAPER_REVIEW_SIGNING_KEY of the environment. *)
Record CommandInput := {
  command : string;
  checks_market : bool;
  persists_snapshot : bool;
  recovery : option RecoveryPolicy;
  fence : SchedulerFence;
  safety : AutonomousExecutionSafety;
  confirmPaper : bool;
  confirmationSigningKey : option string;
  environmentSigningKey : option string;
  expectedPayloadSignature : option string;
  lifecycleContext : option LifecycleContext;
  input_now : option Z
}.

Record SubmissionSummary := {
  readyIntentCount : nat;
  confirmableIntentCount : nat;
  confirmationPromoted : bool;
  orderIntentId : string
}.

Inductive CommandResult : Type :=
| NoOp (code : string) (ready confirmable : nat)
| PendingRecovery (summary : SubmissionSummary) (clientOrderId : string) (attempts : Z) (receipt : BrokerMutationReceipt)
| Completed (summary : SubmissionSummary) (orderId brokerOrderId brokerStatus : string) (recoveredFromAmbiguous : bool)
    (receipt : BrokerMutationReceipt).

(** [try { p } catch (error) { h }]; what follows depends on the outcome. *)
Definition try_catch {A B} (p : async effect A) (h : string → async effect B) (k : A → async effect B)
    : async effect B :=
  prog_bind p (λ r, match r with Ret a => k a | Throw c => h c end).

Section command.
Context (other_format : string → option Z) (optionsQuoteMaxAgeMs : number).

(** The first [try]: the payload of a claimed intent. *)
Definition checked_payload (input : CommandInput) (intent : AutonomousExecutionIntentRow)
    (broker : AutonomousExecutionBrokerSnapshot) (now : Z) : async effect AlpacaPaperOrderRequest :=
  let! _ := reject_if ((row_asset_class intent =? "option")%string
                       && negb (paperOptionsExecutionEnabled (safety input))) "PAPER_OPTIONS_EXECUTION_DISABLED" in
  let! _ := if (row_review_type intent =? "entry")%string && (row_asset_class intent =? "equity")%string
               && text_is (row_operation intent) "sell_to_open"
            then
              let! asset := ask (CheckAsset (row_symbol intent)) in
              reject_if (negb (tradable asset) || negb (bool_decide (shortable asset = Some true))
                         || negb (bool_decide (easyToBorrow asset = Some true))) "POSTGRES_SHORT_ASSET_INELIGIBLE"
            else async_ret tt in
  sync (validateAutonomousExecutionEvidence other_format optionsQuoteMaxAgeMs intent broker now
          (quoteMaxAgeSeconds (safety input))).

(** The claim is given back and the error rethrown. *)
Definition release_and_rethrow {A} (input : CommandInput) (intent : AutonomousExecutionIntentRow) (now : Z)
    (error : string) : async effect A :=
  let! _ := ask (Database (Release (fence input) intent now (str_take 240 error))) in
  reject error.

Definition recoverSubmission (input : CommandInput) (intent : AutonomousExecutionIntentRow) (now : Z)
    (summary : SubmissionSummary) (uncertain : BrokerMutationReceipt) : async effect CommandResult :=
  match recovery input with
  | None => reject "POSTGRES_BROKER_SUBMISSION_AMBIGUOUS"
  | Some policy =>
      let! recovered := recoverAmbiguousPostgresSubmission (fence input) policy (row_client_order_id intent) in
      match recovered with
      | RecoveryPending attempts =>
          async_ret (PendingRecovery summary (row_client_order_id intent) attempts uncertain)
      | Recovered orderId brokerOrderId brokerStatus =>
          let! clock := ask_value Clock in
          let! receipt := ask (Database (RecordRecovery intent uncertain orderId brokerOrderId brokerStatus
                                           (fence input) (Z.max clock now))) in
          async_ret (Completed summary orderId brokerOrderId brokerStatus true receipt)
      end
  end.

(** The request failed. *)
Definition submission_failed (input : CommandInput) (intent : AutonomousExecutionIntentRow) (now : Z)
    (summary : SubmissionSummary) (receipt : BrokerMutationReceipt) (error : BrokerError)
    : async effect CommandResult :=
  let! clock := ask_value Clock in
  let failedAt := Z.max clock now in
  if negb (isAmbiguousSubmissionError error) then
    let! _ := ask (Database (Fail intent receipt (error_message error) (fence input) failedAt)) in
    reject (error_message error)
  else
    let uncertain := receiptWithOutcome receipt submission_transport_unknown (ambiguous_state intent) None None in
    let! _ := ask (Database (Ambiguous intent uncertain (error_message error) (fence input) failedAt
                               "ambiguous_network_result")) in
    recoverSubmission input intent now summary uncertain.

(** The broker's time stamp, when it has one. *)
Definition broker_time (response : BrokerResponse) : option Z :=
  let s := broker_time_text (response_data response) in
  if str_truthy s then date_parse other_format s else None.

Definition acknowledgement_time (clock now : Z) (response : BrokerResponse) : Z :=
  match broker_time response with
  | Some t => Z.max (Z.max clock now) t + 1
  | None => Z.max (Z.max clock now) 0
  end.

Definition unrecorded_receipt (intent : AutonomousExecutionIntentRow) (receipt : BrokerMutationReceipt)
    (response : BrokerResponse) (at_ : Z) : BrokerMutationReceipt :=
  let brokerOrderId := text_of (so_id (response_data response)) in
  let status := broker_status (response_data response) in
  if str_truthy brokerOrderId && str_truthy status then
    receiptWithOutcome receipt (acknowledged_outcome status) (state_name (broker_lifecycle_state intent status))
      (Some brokerOrderId) (Some at_)
  else receiptWithOutcome receipt submission_transport_unknown (ambiguous_state intent) None None.

(** The broker answered. *)
Definition submission_answered (input : CommandInput) (intent : AutonomousExecutionIntentRow) (now : Z)
    (summary : SubmissionSummary) (receipt : BrokerMutationReceipt) (response : BrokerResponse)
    : async effect CommandResult :=
  let! clock := ask_value Clock in
  let at_ := acknowledgement_time clock now response in
  try_catch (ask (Database (Acknowledge intent response receipt (fence input) at_)))
    (λ error,
      let uncertain := unrecorded_receipt intent receipt response at_ in
      let classification :=
        if str_truthy (text_of (so_id (response_data response))) then "acknowledgement_persistence_failure"
        else "malformed_broker_acknowledgement" in
      let! _ := ask (Database (Ambiguous intent uncertain error (fence input) at_ classification)) in
      recoverSubmission input intent now summary uncertain)
    (λ recorded,
      async_ret (Completed summary (recorded_orderId recorded) (recorded_brokerOrderId recorded)
                   (recorded_status recorded) false (recorded_receipt recorded))).

(** From the attempt on. *)
Definition submit_claimed (input : CommandInput) (intent : AutonomousExecutionIntentRow)
    (payload : AlpacaPaperOrderRequest) (now : Z) (summary : SubmissionSummary) : async effect CommandResult :=
  let context := default {| context_cycleId := fence_run_id (fence input);
                            context_workstreamExecutionId := fence_run_id (fence input) |} (lifecycleContext input) in
  try_catch (ask (Database (Attempt intent payload (command input) (fence input) now context)))
    (release_and_rethrow input intent now)
    (λ receipt,
      Ask (SubmitOrder payload) (λ answer,
        match answer with
        | inl error => submission_failed input intent now summary receipt error
        | inr response => submission_answered input intent now summary receipt response
        end)).

(** One intent is claimed, checked and submitted. *)
Definition submit_next (input : CommandInput) (broker : AutonomousExecutionBrokerSnapshot) (now : Z)
    (ready confirmable : nat) (promoted : bool) : async effect CommandResult :=
  let! intent := ask (Database (Claim (command input) (fence input) now (expectedPayloadSignature input))) in
  try_catch (checked_payload input intent broker now) (release_and_rethrow input intent now)
    (λ payload, submit_claimed input intent payload now
       {| readyIntentCount := ready; confirmableIntentCount := confirmable; confirmationPromoted := promoted;
          orderIntentId := row_order_intent_id intent |}).

Definition signing_key (input : CommandInput) : string :=
  default EmptyString (or_else (confirmationSigningKey input) (trim <$> environmentSigningKey input)).

Definition NO_READY_INTENTS : string := "NO_READY_POSTGRES_ORDER_INTENTS".

Definition runAutonomousPostgresExecutionCommand (input : CommandInput) : async effect CommandResult :=
  let! _ := sync (assertSafety (safety input) (confirmPaper input)) in
  let! _ := sync (commandFilter (command input)) in
  let! (ready, confirmable) := ask (Database (CountIntents (command input))) in
  if (ready =? 0)%nat && (confirmable =? 0)%nat then async_ret (NoOp NO_READY_INTENTS 0 0)
  else
  let! isOpen := if checks_market input then ask MarketOpen else async_ret true in
  if negb isOpen then async_ret (NoOp "PAPER_MARKET_CLOSED" ready confirmable)
  else
  let! now := match input_now input with Some t => async_ret t | None => ask_value Clock end in
  let! broker := ask CaptureBrokerSnapshot in
  let! _ := if persists_snapshot input then ask (PersistBrokerSnapshot broker) else async_ret tt in
  if (ready =? 0)%nat then
    let! promotion := ask (Database (Promote (command input) (signing_key input) (fence input) now)) in
    match promotion with
    | PromotionNone => async_ret (NoOp NO_READY_INTENTS 0 confirmable)
    | PromotionBlocked _ => async_ret (NoOp "POSTGRES_CONFIRMATION_CAPACITY_BLOCKED" 0 confirmable)
    | Promoted _ _ _ => submit_next input broker now 1 confirmable true
    end
  else submit_next input broker now ready confirmable false.
End command.
