(* ===== verification/AlpacaClient.v ===== *)
(** The broker client: src/services/alpacaClient.ts and the guards of
    src/services/tradingSafetyService.ts.

    The environment is a function from names to values.  One fetch, with its
    timer and the reading of its body, is one request of a program of Effects.v;
    the clock, the abort signal and the wait between attempts are others.  The
    request log (apiLog.ts) is not modelled. *)

From S2P Require Import Prelude.
From S2P Require Import JsString.
From S2P Require Import JsNumber.
From S2P Require Import JsDate.
From S2P Require Import JsText.
From S2P Require Import JsJson.
From S2P Require Import OperationDeadline.
From S2P Require Import ExecutionTables.
From S2P Require Import ExecutionReservation.
From S2P Require Import BrokerResult.
From S2P Require Import SubmissionEvidence.
From S2P Require Import Effects.
From S2P Require Import Submission.
Open Scope Z_scope.

(** ** The environment *)

Definition Environment : Type := string → option string.

(** [process.env.NAME || fallback] *)
Definition env_or (env : Environment) (name fallback : string) : string := default fallback (present (env name)).

Inductive AlpacaEnvironment : Set := env_paper | env_live.
#[export] Instance AlpacaEnvironment_eq_dec : EqDecision AlpacaEnvironment.
Proof. solve_decision. Defined.

Record TradingSafetyState := {
  alpacaEnv : AlpacaEnvironment;
  liveTradingEnabled : bool;
  paperOnly : bool;
  mutationAllowed : bool;
  liveMutationAllowed : bool
}.

Definition parseBoolean (value : option string) : bool :=
  match value with Some v => (v =? "true")%string || (v =? "1")%string | None => false end.

Definition parseAlpacaEnv (env : Environment) : AlpacaEnvironment :=
  if (to_lower (env_or env "ALPACA_ENV" "paper") =? "live")%string then env_live else env_paper.

Definition getTradingSafetyState (env : Environment) : TradingSafetyState :=
  let e := parseAlpacaEnv env in
  let live := parseBoolean (env "LIVE_TRADING_ENABLED") || parseBoolean (env "ALPACA_LIVE_TRADE") in
  {| alpacaEnv := e; liveTradingEnabled := live; paperOnly := bool_decide (e = env_paper) && negb live;
     mutationAllowed := false; liveMutationAllowed := false |}.

Definition assertReadOnlyAlpacaAccessAllowed (env : Environment) : res unit :=
  if paperOnly (getTradingSafetyState env) then Ret tt
  else Throw "Alpaca read-only access is disabled. Configure ALPACA_ENV=paper and LIVE_TRADING_ENABLED=false.".

Definition assertNoTradingMutationsAllowed (env : Environment) : res unit :=
  let state := getTradingSafetyState env in
  if negb (mutationAllowed state) then Throw "Trading mutation operations are disabled in this phase."
  else if liveMutationAllowed state then Ret tt
  else Throw "Live mutation operations are disabled in this phase.".

Definition assertLiveTradingDisabled (env : Environment) : res unit :=
  if liveTradingEnabled (getTradingSafetyState env)
  then Throw ("Live trading is disabled by default. Set LIVE_TRADING_ENABLED=true only for an explicitly "
              ++ "enabled live phase.")%string
  else Ret tt.

(** *** Client settings *)

Definition firstEnv (env : Environment) (names : list string) : string :=
  default EmptyString (first_found (λ name, match env name with
    | Some v => if str_truthy (trim v) then Some (trim v) else None
    | None => None end) names).

Record Credentials := { apiKey : string; secretKey : string; baseUrl : string; dataBaseUrl : string }.

(** The base URLs of alpacaRuntimeConfig. *)
Definition configured_url (env : Environment) (name fallback : string) : string :=
  default fallback (present (trim <$> env name)).

Definition getAlpacaPaperCredentials (env : Environment) : res Credentials :=
  let apiKey := firstEnv env ["ALPACA_PAPER_API_KEY"; "ALPACA_PAPER_KEY"; "ALPACA_API_KEY"]%string in
  let secretKey := firstEnv env ["ALPACA_PAPER_SECRET_KEY"; "ALPACA_PAPER_SECRET"; "ALPACA_SECRET_KEY"]%string in
  let base := firstEnv env ["ALPACA_PAPER_BASE_URL"]%string in
  let data := firstEnv env ["ALPACA_DATA_BASE_URL"]%string in
  if negb (str_truthy apiKey) || negb (str_truthy secretKey)
  then Throw "Missing Alpaca paper credentials. Set ALPACA_PAPER_API_KEY and ALPACA_PAPER_SECRET_KEY."
  else Ret {| apiKey := apiKey; secretKey := secretKey;
              baseUrl := if str_truthy base then base
                         else configured_url env "ALPACA_PAPER_BASE_URL" "https://paper-api.alpaca.markets";
              dataBaseUrl := if str_truthy data then data
                             else configured_url env "ALPACA_DATA_BASE_URL" "https://data.alpaca.markets" |}.

(** [Number.parseInt(s, 10)]; [None] is NaN. *)
Definition parse_int (s : string) : option Z :=
  let '(negative, unsigned) := span_sign (trim_left s) in
  let '(digits, _) := span_digits unsigned in
  if str_truthy digits then Some (signed negative (digits_val 0 digits)) else None.

Definition parseTimeoutMs (env : Environment) : Z :=
  match parse_int (env_or env "ALPACA_REQUEST_TIMEOUT_MS" "15000") with
  | Some v => if 0 <? v then v else 15000
  | None => 15000
  end.

Definition parseRetryCount (env : Environment) : Z :=
  match parse_int (env_or env "ALPACA_MAX_RETRIES" "2") with
  | Some v => if 0 <=? v then v else 2
  | None => 2
  end.

Definition parseRetryBaseDelayMs (env : Environment) : Z :=
  match parse_int (env_or env "ALPACA_RETRY_BASE_DELAY_MS" "250") with
  | Some v => if 0 <=? v then Z.min v 5000 else 250
  | None => 250
  end.

(** ** Requests *)

Record HttpRequest := { url : string; method : string; body : option json }.

(** How a fetch ends: an answer, the timer or the caller's signal, the caller's
    signal with a deadline error as its reason, or no answer for another reason. *)
Inductive HttpOutcome : Type :=
| Responded (status : Z) (requestId : option string) (answer : jvalue)
| Aborted
| AbortedByDeadline (metadata : OperationDeadlineMetadata)
| NetworkFailure (message : string).

Inductive http : Type → Type :=
| Fetch (request : HttpRequest) (timeout : number) : http HttpOutcome
| ReadClock : http number
| SignalAborted : http bool
| Pause (delay : number) : http (bool * bool).

Record ApiResponse := {
  data : jvalue;
  requestId : option string;
  response_http_status : Z;
  response_url : string
}.

Inductive ClientError : Type :=
| AlpacaApiError (status : Z) (requestId : option string) (message : string) (responseBody : jvalue)
| DeadlineError (metadata : OperationDeadlineMetadata)
| AbortSignalError
| PlainError (message : string).

Abbreviation outcome := (ClientError + ApiResponse)%type.

(** [response.ok] *)
Definition ok_status (status : Z) : bool := (200 <=? status) && (status <=? 299).

Definition api_error (prefix endpoint : string) (status : Z) (requestId : option string) (answer : jvalue) : ClientError :=
  AlpacaApiError status requestId
    (prefix ++ " " ++ endpoint ++ ". status=" ++ nat_text status ++ ".")%string answer.

Definition answered (prefix url endpoint : string) (status : Z) (requestId : option string) (answer : jvalue) : outcome :=
  if ok_status status
  then inr {| data := answer; requestId := requestId; response_http_status := status; response_url := url |}
  else inl (api_error prefix endpoint status requestId answer).

(** *** Trading requests *)

Definition PAPER_TRADING_BASE_URL : string := "https://paper-api.alpaca.markets".

Definition assertPaperTradingEndpointAllowed (env : Environment) : res unit :=
  let state := getTradingSafetyState env in
  if negb (bool_decide (alpacaEnv state = env_paper)) then Throw "PAPER_ENV_REQUIRED"
  else if liveTradingEnabled state then Throw "LIVE_TRADING_MUST_BE_DISABLED"
  else Ret tt.

Definition timeout_message (timeout : number) : string := ("Alpaca request timed out after " ++ num_text timeout ++ "ms.")%string.

(** The attempts, [left] more after this one. *)
Fixpoint paper_attempts (endpoint : string) (request : HttpRequest) (timeout : number) (left : nat) : prog http outcome :=
  Ask (Fetch request timeout) (λ o,
    let retry (lastError : ClientError) :=
      match left with
      | O => Done (inl lastError)
      | S left' => paper_attempts endpoint request timeout left'
      end in
    match o with
    | Responded status requestId answer =>
        Done (answered "Alpaca paper trading request failed for" (url request) endpoint status requestId answer)
    | Aborted => retry (PlainError (timeout_message timeout))
    | AbortedByDeadline metadata => retry (DeadlineError metadata)
    | NetworkFailure message => retry (PlainError message)
    end).

Definition requestPaperTradingJson (env : Environment) (endpoint method : string) (body : option json) : prog http outcome :=
  match (_ ← assertPaperTradingEndpointAllowed env; _ ← assertLiveTradingDisabled env; getAlpacaPaperCredentials env) with
  | Throw e => Done (inl (PlainError e))
  | Ret _ =>
      paper_attempts endpoint
        {| url := (PAPER_TRADING_BASE_URL ++ endpoint)%string; method := to_upper method; body := body |}
        (num_of_Z (parseTimeoutMs env)) (Z.to_nat (parseRetryCount env))
  end.

(** [JSON.stringify(payload)] *)
Definition order_body (p : AlpacaPaperOrderRequest) : json :=
  let optional (k : string) (v : option string) := match v with Some s => [(k, json_string s)] | None => [] end in
  json_object ([("symbol"%string, json_string (p_symbol p))] ++ optional "qty"%string (p_qty p)
    ++ optional "notional"%string (p_notional p)
    ++ [("side", json_string (p_side p)); ("type", json_string (p_type p));
        ("time_in_force", json_string (p_time_in_force p))]%string
    ++ optional "limit_price"%string (p_limit_price p)
    ++ [("client_order_id"%string, json_string (p_client_order_id p))]
    ++ optional "position_intent"%string (p_position_intent p)).

Definition submitPaperOrder (env : Environment) (payload : AlpacaPaperOrderRequest) : prog http outcome :=
  requestPaperTradingJson env "/v2/orders" "POST" (Some (order_body payload)).

(** [encoded] stands for the identifier in URL encoding. *)
Definition getPaperOrder (env : Environment) (encoded : string) : prog http outcome :=
  requestPaperTradingJson env ("/v2/orders/" ++ encoded) "GET" None.
Definition getPaperOrderByClientOrderId (env : Environment) (encoded : string) : prog http outcome :=
  requestPaperTradingJson env ("/v2/orders:by_client_order_id?client_order_id=" ++ encoded) "GET" None.
Definition cancelPaperOrder (env : Environment) (encoded : string) : prog http outcome :=
  requestPaperTradingJson env ("/v2/orders/" ++ encoded) "DELETE" None.

(** *** Reading requests, with a deadline *)

Record AlpacaRequestContext := {
  ctx_deadline : option OperationDeadline;
  ctx_signal : bool;
  ctx_timeoutMs : option number;
  ctx_maxRetries : option Z;
  ctx_retryBaseDelayMs : option number
}.

Definition reads_clock {A} (k : number → prog http A) : prog http A := Ask ReadClock k.

(** The signal, when the caller gave one. *)
Definition signal_aborted {A} (c : AlpacaRequestContext) (k : bool → prog http A) : prog http A :=
  if ctx_signal c then Ask SignalAborted k else k false.

(** The timeout of the attempt and whether the deadline bounds it. *)
Definition attempt_timeout (c : AlpacaRequestContext) (timeoutMs : number)
    (k : number → bool → prog http outcome) : prog http outcome :=
  match ctx_deadline c with
  | None => k timeoutMs false
  | Some d =>
      reads_clock (λ now, reads_clock (λ later,
        match getRequestTimeoutMs d timeoutMs now later with
        | inr metadata => Done (inl (DeadlineError metadata))
        | inl t => reads_clock (λ now2, k t (getRemainingNetworkBudgetMs d now2 <=? t)%float)
        end))
  end.

(** The wait before the next attempt. *)
Definition wait_between (c : AlpacaRequestContext) (proposed : number) (next : prog http outcome) : prog http outcome :=
  let pause (delay : number) (deadline : option OperationDeadline) :=
    Ask (Pause delay) (λ '(aborted, interrupted), reads_clock (λ now,
      match waitForRetry delay deadline (ctx_signal c && aborted) (ctx_signal c && interrupted) now with
      | Waited _ => next
      | AbortedWithDeadline metadata => Done (inl (DeadlineError metadata))
      | AbortedDom => Done (inl AbortSignalError)
      end)) in
  match ctx_deadline c with
  | None => pause (num_or proposed 0%float) None
  | Some d =>
      reads_clock (λ now,
        match getRetryDelayMs d proposed 100%float now with
        | None => reads_clock (λ later, Done (inl (DeadlineError (deadline_error DEADLINE_EXCEEDED d later))))
        | Some delay => pause (num_or delay 0%float) (Some d)
        end)
  end.

Definition deadline_failure (c : AlpacaRequestContext) (code : DeadlineErrorCode) : prog http outcome :=
  match ctx_deadline c with
  | Some d => reads_clock (λ now, Done (inl (DeadlineError (deadline_error code d now))))
  | None => Done (inl AbortSignalError)
  end.

Fixpoint json_attempts (endpoint : string) (request : HttpRequest) (c : AlpacaRequestContext) (timeoutMs base : number)
    (attempt : Z) (left : nat) : prog http outcome :=
  signal_aborted c (λ aborted,
    if aborted && is_some_bool (ctx_deadline c) then deadline_failure c OPERATION_ABORTED
    else attempt_timeout c timeoutMs (λ timeout bound,
      Ask (Fetch request timeout) (λ o,
        let retry (lastError : ClientError) :=
          match left with
          | O => Done (inl lastError)
          | S left' =>
              wait_between c (base * num_of_Z (2 ^ attempt))%float
                (json_attempts endpoint request c timeoutMs base (attempt + 1) left')
          end in
        match o with
        | Responded status requestId answer =>
            Done (answered "Alpaca request failed for" (url request) endpoint status requestId answer)
        | AbortedByDeadline metadata => Done (inl (DeadlineError metadata))
        | Aborted =>
            signal_aborted c (λ aborted,
              if aborted && is_some_bool (ctx_deadline c) then deadline_failure c OPERATION_ABORTED
              else if is_some_bool (ctx_deadline c) && bound then deadline_failure c DEADLINE_EXCEEDED
              else retry (PlainError (timeout_message timeout)))
        | NetworkFailure message => retry (PlainError message)
        end))).

Inductive BaseUrl : Set := trade | market_data.

Definition requestJson (env : Environment) (endpoint : string) (base : BaseUrl) (c : AlpacaRequestContext)
    : prog http outcome :=
  match (_ ← assertReadOnlyAlpacaAccessAllowed env; _ ← assertLiveTradingDisabled env; getAlpacaPaperCredentials env) with
  | Throw e => Done (inl (PlainError e))
  | Ret credentials =>
      let root := match base with trade => baseUrl credentials | market_data => dataBaseUrl credentials end in
      let maxRetries := default (parseRetryCount env) (ctx_maxRetries c) in
      if maxRetries <? 0 then Done (inl (PlainError "Alpaca request failed and could not be completed."))
      else json_attempts endpoint {| url := (root ++ endpoint)%string; method := "GET"; body := None |} c
             (default (num_of_Z (parseTimeoutMs env)) (ctx_timeoutMs c))
             (default (num_of_Z (parseRetryBaseDelayMs env)) (ctx_retryBaseDelayMs c)) 0 (Z.to_nat maxRetries)
  end.

Definition getAlpacaPaperEndpoint (env : Environment) (endpoint : string) (c : AlpacaRequestContext) : prog http outcome :=
  requestJson env endpoint trade c.
Definition getAlpacaDataEndpoint (env : Environment) (endpoint : string) (c : AlpacaRequestContext) : prog http outcome :=
  requestJson env endpoint market_data c.

(** ** Trading requests stay on the paper endpoint *)

Abbreviation http_log := (list (entry (E := http))).

(** A fetch that got no answer. *)
Definition unanswered (x : entry (E := http)) : Prop :=
  match x with
  | Entry (Fetch _ _) o => match o with Responded _ _ _ => False | _ => True end
  | _ => False
  end.

Definition paper_fetch (env : Environment) (request : HttpRequest) (bound : nat) (l : http_log) (X : Type) (e : http X)
    : Prop :=
  match e with
  | Fetch r t => r = request ∧ t = num_of_Z (parseTimeoutMs env) ∧ (List.length l <= bound)%nat ∧ Forall unanswered l
  | _ => False
  end.

Lemma paper_attempts_monitored env endpoint request bound left l :
  Forall unanswered l → (List.length l + left <= bound)%nat →
  monitored (paper_fetch env request bound) extend l
    (paper_attempts endpoint request (num_of_Z (parseTimeoutMs env)) left)
    (λ l' r, (∃ e, r = inl e ∧ Forall unanswered l') ∨
             ∃ l0 s q b, l' = l0 ++ [Entry (Fetch request (num_of_Z (parseTimeoutMs env))) (Responded s q b)] ∧
               r = answered "Alpaca paper trading request failed for" (url request) endpoint s q b).
Proof.
  revert l. induction left as [|left IH]; intros l Hl Hb; (split; [split_and!; [done|done|lia|done]|]);
    intros [s q b| |m|m]; cbn [monitored]; try (right; by exists l, s, q, b).
  1-3: left; eexists; split; [done|]; apply Forall_app; by repeat constructor.
  all: apply IH; [apply Forall_app; by repeat constructor|]; unfold extend; rewrite length_app; cbn; lia.
Qed.

(** A trading request stays on the paper endpoint and is repeated only
    without an answer.  Whatever the network answers: every fetch of
    requestPaperTradingJson is made in the paper environment with live trading
    off, is of the fixed paper URL with the method and the body that were asked
    for, comes after fetches that got no answer, and is at most number
    ALPACA_MAX_RETRIES + 1. *)
Theorem paper_requests_retry_unanswered env endpoint method body l X (e : http X) k :
  path (requestPaperTradingJson env endpoint method body) l (Ask e k) →
  parseAlpacaEnv env = env_paper ∧ liveTradingEnabled (getTradingSafetyState env) = false ∧
  paper_fetch env
    {| url := (PAPER_TRADING_BASE_URL ++ endpoint)%string; method := to_upper method; body := body |}
    (Z.to_nat (parseRetryCount env)) l X e.
Proof.
  unfold requestPaperTradingJson. destruct (_ ≫= _) as [c|] eqn:E; [|by inversion 1].
  unfold mbind, res_bind in E. destruct (assertPaperTradingEndpointAllowed env) eqn:Ea; [|done].
  unfold assertPaperTradingEndpointAllowed in Ea. destruct (negb (bool_decide _)) eqn:Ep; [done|].
  destruct (liveTradingEnabled _) eqn:El; [done|]. apply negb_false_iff, bool_decide_eq_true in Ep.
  intros Hp. split; [exact Ep|]. split; [done|].
  eapply (monitored_path _ [] _ _ l); [|exact Hp]. by apply paper_attempts_monitored.
Qed.

(** *** What one call sends *)

(** The fetches of a log with their outcomes. *)
Definition fetch_of (x : entry (E := http)) : list (HttpRequest * HttpOutcome) :=
  match x with
  | Entry e o => (match e in http X return X → list (HttpRequest * HttpOutcome) with
                  | Fetch r _ => λ o, [(r, o)]
                  | _ => λ _, []
                  end) o
  end.
Definition fetched (l : http_log) : list (HttpRequest * HttpOutcome) := flat_map fetch_of l.

Definition no_answer (o : HttpOutcome) : Prop := match o with Responded _ _ _ => False | _ => True end.

(** The fetches are of one request, at most ALPACA_MAX_RETRIES + 1 of them, each but
    the last without an answer; there is one only in the paper environment with live
    trading off. *)
Definition one_request (env : Environment) (request : HttpRequest) (fs : list (HttpRequest * HttpOutcome)) : Prop :=
  ∃ os, fs = map (pair request) os ∧ (List.length os <= S (Z.to_nat (parseRetryCount env)))%nat ∧
    Forall no_answer (removelast os) ∧
    (os ≠ [] → parseAlpacaEnv env = env_paper ∧ liveTradingEnabled (getTradingSafetyState env) = false).

(** The outcomes of fetches of one request. *)
Definition outcomes (request : HttpRequest) (l : http_log) (os : list HttpOutcome) : Prop := fetched l = map (pair request) os.

Lemma outcomes_more request l os t o :
  outcomes request l os → outcomes request (extend l HttpOutcome (Fetch request t) o) (os ++ [o]).
Proof. unfold outcomes, fetched, extend. intros H. rewrite flat_map_app, map_app, H. done. Qed.

Lemma last_unanswered (os : list HttpOutcome) o : Forall no_answer os → Forall no_answer (removelast (os ++ [o])).
Proof. intros H. by rewrite removelast_last. Qed.

Lemma paper_attempts_fetches endpoint request timeout bound left l os :
  outcomes request l os → (List.length os + S left <= bound)%nat → Forall no_answer os →
  let sent (l : http_log) := ∃ os, outcomes request l os ∧ (List.length os <= bound)%nat ∧ Forall no_answer (removelast os) in
  monitored (λ l _ _, sent l) extend l (paper_attempts endpoint request timeout left) (λ l _, sent l).
Proof.
  intros Ho Hb Hu sent. revert l os Ho Hb Hu. induction left as [|left IH]; intros l os Ho Hb Hu.
  all: assert (Hr : Forall no_answer (removelast os)) by
    (destruct os as [|o os _] using rev_ind; [constructor|]; rewrite removelast_last; by apply Forall_app in Hu as [? _]).
  all: split; [exists os; split_and!; [done|lia|done]|].
  all: intros o; pose proof (outcomes_more _ _ _ timeout o Ho) as Ho'.
  all: assert (Hend : sent (extend l HttpOutcome (Fetch request timeout) o))
    by (exists (os ++ [o]); rewrite length_app; split_and!; [done|cbn; lia|by apply last_unanswered]).
  - by destruct o.
  - assert (Hl : (List.length (os ++ [o]) + S left <= bound)%nat) by (rewrite length_app; cbn; lia).
    destruct o; [done|..]; (eapply IH; [exact Ho'|done|apply Forall_app; by repeat constructor]).
Qed.

(** Wherever a call ends, or is cut off. *)
Lemma request_fetches env endpoint method body l q :
  path (requestPaperTradingJson env endpoint method body) l q →
  one_request env {| url := (PAPER_TRADING_BASE_URL ++ endpoint)%string; method := to_upper method; body := body |} (fetched l).
Proof.
  intros Hp. unfold requestPaperTradingJson in Hp. destruct (_ ≫= _) as [c|] eqn:E.
  2: { inversion Hp. exists []. split_and!; [done|cbn; lia|constructor|done]. }
  unfold mbind, res_bind in E. destruct (assertPaperTradingEndpointAllowed env) eqn:Ea; [|done].
  unfold assertPaperTradingEndpointAllowed in Ea. destruct (negb (bool_decide _)) eqn:Ep; [done|].
  destruct (liveTradingEnabled _) eqn:El; [done|]. apply negb_false_iff, bool_decide_eq_true in Ep.
  set (r := {| url := _ |}) in *. set (n := Z.to_nat (parseRetryCount env)) in *.
  pose proof (paper_attempts_fetches endpoint r (num_of_Z (parseTimeoutMs env)) (S n) n [] [] eq_refl ltac:(cbn; lia)
    ltac:(constructor)) as Hm. cbv zeta in Hm.
  assert (∃ os, outcomes r l os ∧ (List.length os <= S n)%nat ∧ Forall no_answer (removelast os)) as (os & Ho & Hn & Hu).
  { destruct q as [y|X e k]; [exact (monitored_done _ [] _ _ l y Hm Hp)|exact (monitored_path _ [] _ _ l X e k Hm Hp)]. }
  exists os. by split_and!.
Qed.

(** ** What a retried submission looks like *)

(** What [submitPaperOrder] throws, for the service that submits. *)
Definition broker_error (e : ClientError) : BrokerError :=
  match e with
  | AlpacaApiError status _ message _ => {| error_status := Some status; error_message := message |}
  | DeadlineError _ => {| error_status := None; error_message := "" |}
  | AbortSignalError => {| error_status := None; error_message := "aborted" |}
  | PlainError message => {| error_status := None; error_message := message |}
  end.

(** A field of the answer that is a string. *)
Definition text_field (v : jvalue) (name : string) : option string :=
  match v with JObj fields => match field fields name with Some (JStr s) => Some s | _ => None end | _ => None end.

Definition submitted_order (v : jvalue) : SubmittedOrder :=
  {| so_id := text_field v "id"; so_client_order_id := text_field v "client_order_id"; so_status := text_field v "status";
     so_submitted_at := text_field v "submitted_at"; so_created_at := text_field v "created_at";
     so_qty := text_field v "qty"; so_notional := text_field v "notional"; so_limit_price := text_field v "limit_price";
     so_stop_price := text_field v "stop_price"; so_filled_qty := text_field v "filled_qty";
     so_filled_avg_price := text_field v "filled_avg_price"; so_symbol := text_field v "symbol";
     so_asset_class := text_field v "asset_class";
     so_side := text_field v "side";
     so_type := text_field v "type";
     so_time_in_force := text_field v "time_in_force";
     so_position_intent := text_field v "position_intent";
     so_filled_at := text_field v "filled_at";
     so_updated_at := text_field v "updated_at";
     so_canceled_at := text_field v "canceled_at";
     so_cancelled_at := text_field v "cancelled_at";
     so_expired_at := text_field v "expired_at";
     so_rejected_at := text_field v "rejected_at";
     so_json := json_stringify v |}.

(** What [submitOrder: submitPaperOrder] gives the command. *)
Definition submission_answer (o : ClientError + ApiResponse) : BrokerError + BrokerResponse :=
  match o with
  | inl e => inl (broker_error e)
  | inr r => inr {| response_data := submitted_order (data r); response_requestId := requestId r;
                    response_status := response_http_status r |}
  end.

(** A broker that knows the client order ids it has accepted, and loses its
    next [losing] answers.  A client order id is used once: a second order with
    it is refused with status 422. *)
Record Broker := { accepted : list string; losing : nat }.

Definition serve_order (client : string) (order : jvalue) (b : Broker) : HttpOutcome * Broker :=
  let reply (o : HttpOutcome) (accepted' : list string) :=
    match losing b with
    | O => (o, {| accepted := accepted'; losing := O |})
    | S n => (Aborted, {| accepted := accepted'; losing := n |})
    end in
  if str_mem client (accepted b)
  then reply (Responded 422 None (JObj [("message", JStr "client_order_id must be unique")]%string)) (accepted b)
  else reply (Responded 200 None order) (client :: accepted b).

Definition serve (client : string) (order : jvalue) (X : Type) (e : http X) : Broker → X * Broker :=
  match e in http X return Broker → X * Broker with
  | Fetch _ _ => serve_order client order
  | ReadClock => λ b, (0%float, b)
  | SignalAborted => λ b, (false, b)
  | Pause _ => λ b, ((false, false), b)
  end.

(** One lost answer: the order is accepted, and the repeated request refused. *)
Lemma retried_post_refused env payload order credentials :
  getTradingSafetyState env = {| alpacaEnv := env_paper; liveTradingEnabled := false; paperOnly := true;
                                 mutationAllowed := false; liveMutationAllowed := false |} →
  getAlpacaPaperCredentials env = Ret credentials → 1 <= parseRetryCount env →
  let '(r, b) := run (serve (p_client_order_id payload) order) (submitPaperOrder env payload)
                   {| accepted := []; losing := 1 |} in
  accepted b = [p_client_order_id payload] ∧
  ∃ e, r = inl e ∧ isAmbiguousSubmissionError (broker_error e) = false.
Proof.
  intros Hs Hc Hr. unfold submitPaperOrder, requestPaperTradingJson, assertPaperTradingEndpointAllowed,
    assertLiveTradingDisabled. rewrite Hs, Hc. cbn [alpacaEnv liveTradingEnabled].
  rewrite bool_decide_eq_true_2 by done. cbn [negb]. unfold mbind, res_bind.
  destruct (Z.to_nat (parseRetryCount env)) as [|left] eqn:El; [lia|].
  assert (Hm : str_mem (p_client_order_id payload) [p_client_order_id payload] = true) by (apply str_mem_true; by left).
  cbn [paper_attempts run serve serve_order str_mem existsb accepted losing].
  destruct left; cbn [paper_attempts run serve]; unfold serve_order; cbn [accepted losing]; rewrite Hm;
    (split; [done|]); eexists; by split.
Qed.
