(* ===== verification/SubmissionRuns.v ===== *)
(** What the runners of SubmissionCommand.v do: at most one call of
    [submitPaperOrder] for an order in every history of concurrent and crashing
    runners, and only with what the evidence gate allowed.  A call is recorded with
    the requests it sent: the client of AlpacaClient.v repeats one that got no
    answer. *)

From S2P Require Import Prelude.
From S2P Require Import JsString.
From S2P Require Import JsNumber.
From S2P Require Import JsJson.
From S2P Require Import TradeLifecycle.
From S2P Require Import SchedulerLease.
From S2P Require Import ExecutionTables.
From S2P Require Import ExecutionReservation.
From S2P Require Import BrokerResult.
From S2P Require Import SubmissionEvidence.
From S2P Require Import Effects.
From S2P Require Import Submission.
From S2P Require Import AlpacaClient.
From S2P Require Import SubmissionFacts.
From S2P Require Import SubmissionCommand.
Open Scope Z_scope.

(** ** The outside *)

(** One call of [submitPaperOrder]: its order, and what it sent to the broker and
    how that ended. *)
Record BrokerCall := {
  call_payload : AlpacaPaperOrderRequest;
  call_fetches : list (HttpRequest * HttpOutcome)
}.

(** The database and the calls of [submitPaperOrder] so far, latest first. *)
Record World := {
  db : SubmissionDb;
  calls : list BrokerCall
}.

Definition with_db (w : World) (d : SubmissionDb) : World := {| db := d; calls := calls w |}.
Definition with_call (w : World) (p : AlpacaPaperOrderRequest) (fs : list (HttpRequest * HttpOutcome)) : World :=
  {| db := db w; calls := {| call_payload := p; call_fetches := fs |} :: calls w |}.

(** The POST of an order. *)
Definition order_request (p : AlpacaPaperOrderRequest) : HttpRequest :=
  {| url := "https://paper-api.alpaca.markets/v2/orders"; method := "POST"; body := Some (order_body p) |}.

(** What a call of [submitPaperOrder] may do: it follows a path of the client.  One
    that ends answers with its outcome; one that its process does not survive is
    cut off anywhere, its last request sent or not, and answers anything. *)
Definition submission_call (env : Environment) (p : AlpacaPaperOrderRequest) (x : BrokerError + BrokerResponse)
    (fs : list (HttpRequest * HttpOutcome)) : Prop :=
  ∃ l q, path (submitPaperOrder env p) l q ∧ fs = fetched l ∧ ∀ o, q = Done o → x = submission_answer o.

Lemma submission_call_fetches env p x fs : submission_call env p x fs → one_request env (order_request p) fs.
Proof. intros (l & q & Hp & -> & _). exact (request_fetches env "/v2/orders" "POST" _ l q Hp). Qed.

(** What identifies an intent: no statement changes it. *)
Definition identity (i : IntentRow) : string * string * string :=
  (intent_id i, intent_account_id i, intent_client_order_id i).
Definition identities (d : SubmissionDb) : list (string * string * string) := map identity (db_intents (s_exec d)).

(** ** What no operation of the service undoes *)

Definition grows (d d' : SubmissionDb) : Prop :=
  identities d' = identities d ∧ ∀ id, has_event id d = true → has_event id d' = true.

Definition growing {A} (m : tx SubmissionDb A) : Prop := ∀ d a d', m d = Ret (a, d') → grows d d'.

Lemma grows_refl d : grows d d.
Proof. by split. Qed.

Lemma grows_same_tables d d' :
  db_intents (s_exec d') = db_intents (s_exec d) → db_events (s_exec d') = db_events (s_exec d) → grows d d'.
Proof. unfold grows, identities, has_event. by intros -> ->. Qed.

Lemma growing_bind {A B} (m : tx SubmissionDb A) (k : A → tx SubmissionDb B) :
  growing m → (∀ a, growing (k a)) → growing (m ≫= k).
Proof.
  intros Hm Hk d b d' (a & d1 & H1 & H2)%tx_bind_Ret.
  destruct (Hm _ _ _ H1) as [Hi1 He1], (Hk a _ _ _ H2) as [Hi2 He2].
  split; [by rewrite Hi2|]. auto.
Qed.

Lemma growing_read_only {A} (m : tx SubmissionDb A) : read_only m → growing m.
Proof. intros Hm d a d' H. rewrite (Hm _ _ _ H). apply grows_refl. Qed.

Lemma growing_lift {A} (r : res A) : growing (lift r).
Proof. intros d a d' H. unfold lift in H. destruct r; [|done]. injection H as <- <-. apply grows_refl. Qed.

Lemma growing_require b c : growing (require b c).
Proof. unfold require. destruct b; apply growing_read_only; auto with tx. Qed.

Lemma growing_require_one c m : growing m → growing (require_one c m).
Proof.
  intros Hm. apply growing_bind; [done|]. intros n. destruct (n =? 1)%nat; apply growing_read_only; auto with tx.
Qed.

Lemma growing_fenced f m : growing m → growing (fenced f m).
Proof.
  intros Hm d n d' H. unfold fenced in H. destruct (held f d); [by eapply Hm|]. injection H as <- <-. apply grows_refl.
Qed.

(** A statement on tables other than the intents and the events. *)
Lemma growing_exec {A} (m : tx ExecDb A) : keeps db_intents m → keeps db_events m → growing (exec m).
Proof.
  intros Hi He d a d' H. unfold exec in H. destruct (m (s_exec d)) as [[a' x]|] eqn:E; [|done].
  injection H as <- <-. apply grows_same_tables; cbn [s_exec set_exec]; [by eapply Hi|by eapply He].
Qed.

Lemma growing_modify f : (∀ d, s_exec (f d) = s_exec d) → growing (modify f).
Proof. intros Hf d a d' H. injection H as <- <-. apply grows_same_tables; by rewrite Hf. Qed.

Lemma growing_update_intent p f : (∀ i, identity (f i) = identity i) → growing (update_intent p f).
Proof.
  intros Hf d n d' H. unfold update_intent, exec in H.
  destruct (update_rows _ _ _ _ _ _) as [[m x]|] eqn:E; [|done]. injection H as <- <-.
  apply update_rows_Ret in E as (_ & -> & _). split; [|done]. unfold identities. cbn. by apply update_where_key.
Qed.

Lemma growing_insert_event e : growing (insert_event e).
Proof.
  apply growing_bind; [|intros b; apply growing_read_only; auto with tx].
  intros d b d' H. unfold exec in H. destruct (insert_unless _ _ _ _ _ _ _) as [[c x]|] eqn:E; [|done].
  injection H as <- <-. apply insert_unless_Ret in E. destruct c.
  - destruct E as [_ (_ & _ & ->)%insert_row_Ret]. split; [done|]. intros id. unfold has_event; cbn.
    rewrite existsb_app. by intros ->.
  - destruct E as [_ ->]. by destruct d.
Qed.

Create HintDb growing discriminated.
Hint Resolve growing_bind growing_lift growing_require growing_require_one growing_fenced growing_insert_event : growing.
Hint Extern 1 (growing (mret _)) => apply growing_read_only, read_only_ret : growing.
Hint Extern 1 (growing (throw _)) => apply growing_read_only, read_only_throw : growing.
Hint Extern 1 (growing (gets _)) => apply growing_read_only, read_only_gets : growing.
Hint Extern 1 (growing (if ?b then _ else _)) => destruct b : growing.
Hint Extern 1 (growing (match ?x with _ => _ end)) => destruct x : growing.
Hint Extern 1 (growing (update_intent _ _)) => apply growing_update_intent; intros; reflexivity : growing.
Hint Extern 2 (growing (exec _)) => apply growing_exec; auto with tx : growing.
Hint Extern 2 (growing (modify _)) => apply growing_modify; intros; reflexivity : growing.
(* Case distinctions and binds nest deeply: the budget bounds the number of
   statements of one transaction. *)
Ltac grow := solve [intros; eauto 30 with growing].

Lemma growing_move_intent f id from g h :
  (∀ i, identity (g i) = identity i) → growing (move_intent f id from g h).
Proof.
  intros Hg. apply growing_fenced, growing_bind; [by apply growing_update_intent|].
  intros n. apply growing_bind; [|grow]. destruct (n =? 0)%nat; [grow|]. unfold update_lifecycle. grow.
Qed.
Hint Extern 1 (growing (move_intent _ _ _ _ _)) => apply growing_move_intent; intros; reflexivity : growing.

Lemma growing_update_candidate f c s r now : growing (update_candidate f c s r now).
Proof.
  apply growing_fenced. intros d a d' [= <- <-]. by apply grows_same_tables.
Qed.
Hint Resolve growing_update_candidate : growing.

Lemma growing_consume f id s now : growing (consume f id s now).
Proof. apply growing_fenced, growing_exec; by apply keeps_update. Qed.
Lemma growing_consume_confirmed f id s now : growing (consume_confirmed f id s now).
Proof. apply growing_fenced, growing_exec; by apply keeps_update. Qed.
Hint Resolve growing_consume growing_consume_confirmed : growing.

Lemma growing_stage f now i s r : growing (persistCandidateExecutionStage f now i s r).
Proof. unfold persistCandidateExecutionStage. grow. Qed.
Hint Resolve growing_stage : growing.

Lemma growing_insert_terminal t : growing (insert_terminal t).
Proof.
  intros d a d' H. unfold insert_terminal in H. destruct (existsb _ _); [injection H as <- <-; apply grows_refl|].
  destruct (existsb _ _); [done|]. injection H as <- <-. by apply grows_same_tables.
Qed.
Hint Resolve growing_insert_terminal : growing.

Lemma growing_settle f i s now srid : growing (settle_submission srid f i s now).
Proof.
  unfold settle_submission. destruct (present _); [|grow]. destruct (release_reason s); [|grow].
  unfold release_terminal. apply growing_bind; [|grow]. apply growing_bind; [grow|].
  intros [r|]; [|grow]. repeat (apply growing_bind; [grow|intros ?]). grow.
Qed.
Hint Resolve growing_settle : growing.

Lemma growing_fingerprint r : growing (exec (insert_fingerprint r)).
Proof. apply growing_exec; by apply keeps_insert_unless. Qed.
Hint Resolve growing_fingerprint : growing.

Section operations.
Context (digest : string → string) (hmac : string → string → string) (document : json → jvalue).
Context (stableRecordId : string → string → string) (timestamp_format : string → option Z).

Definition perform {A} : Operation A → tx SubmissionDb A :=
  execute digest hmac document stableRecordId timestamp_format.

Lemma growing_promotion command key f now :
  growing (promoteNextConfirmedPostgresIntent digest hmac document command key f now).
Proof.
  unfold promoteNextConfirmedPostgresIntent. destruct (_ <? _)%nat; [grow|].
  apply growing_bind; [grow|]. intros filter. apply growing_bind; [grow|]. intros [[[i r] s]|]; [|grow].
  apply growing_bind; [grow|]. intros _. apply growing_bind; [grow|]. intros allowed.
  destruct (negb allowed); [grow|]. apply growing_bind; [grow|]. intros _. unfold promote_writes, promote_reservation.
  repeat (apply growing_bind; [grow|intros ?]). grow.
Qed.

Lemma growing_operation {A} (o : Operation A) : growing (perform o).
Proof.
  destruct o; cbn [perform execute].
  - intros d n d' H. unfold perform, execute, count_operation in H. destruct (count_intents _ _ _); [|done].
    injection H as <- <-. apply grows_refl.
  - apply growing_promotion.
  - unfold perform, execute, claimIntent. repeat (apply growing_bind; [grow|intros ?]). case_match; [|grow].
    repeat (apply growing_bind; [grow|intros ?]). grow.
  - unfold perform, execute, releaseClaim. apply growing_bind; grow.
  - unfold perform, execute, recordSubmissionAttempt. repeat (apply growing_bind; [grow|intros ?]). grow.
  - unfold perform, execute, recordSubmission, consume_evidence. repeat (apply growing_bind; [grow|intros ?]). grow.
  - unfold perform, execute, recordAmbiguousSubmission. repeat (apply growing_bind; [grow|intros ?]). grow.
  - unfold perform, execute, recordDeterministicSubmissionFailure. repeat (apply growing_bind; [grow|intros ?]). grow.
  - unfold perform, execute, record_recovery, recordReconciledSubmissionReceipt, consume_evidence.
    repeat (apply growing_bind; [repeat (apply growing_bind; [grow|intros ?]); grow|intros ?]). grow.
  - unfold perform, execute. grow.
Qed.
End operations.

(** ** At most one submission *)

Section at_most_once.
Context (env : Environment).
Context (digest : string → string) (hmac : string → string → string) (document : json → jvalue).
Context (stableRecordId : string → string → string) (timestamp_format : string → option Z).
Context (other_format : string → option Z) (optionsQuoteMaxAgeMs : number).
Context (intent account client : string).

Definition attempt_id : string :=
  ("broker_event_" ++ stableRecordId "alpaca_broker_submission_attempt"
     (account ++ ":" ++ intent ++ ":" ++ client))%string.

(** The only intent with the client order id [client]. *)
Definition recorded (w : World) : Prop :=
  In (intent, account, client) (identities (db w)) ∧
  ∀ i a, In (i, a, client) (identities (db w)) → i = intent ∧ a = account.

(** What the rest of the program may do to the database: anything that removes
    no intent and no broker event, changes the identity of none, and gives a
    new intent a client order id of its own.  Only this service submits. *)
Definition others (w w' : World) : Prop :=
  calls w' = calls w ∧
  (∀ x, In x (identities (db w)) → In x (identities (db w'))) ∧
  (∀ i a c, In (i, a, c) (identities (db w')) →
     In (i, a, c) (identities (db w)) ∨ ∀ j b, ¬ In (j, b, c) (identities (db w))) ∧
  (∀ id, has_event id (db w) = true → has_event id (db w') = true).

(** A transaction commits or fails without effect, and its answer may be lost;
    everybody else answers anything. *)
Definition handle (X : Type) (e : effect X) : World → X → World → Prop :=
  match e in effect X return World → X → World → Prop with
  | Database o => λ w x w',
      match perform digest hmac document stableRecordId timestamp_format o (db w) with
      | Ret (a, d) => x = Ret a ∧ w' = with_db w d ∨ ∃ c, x = Throw c ∧ (w' = w ∨ w' = with_db w d)
      | Throw c => w' = w ∧ ∃ c', x = Throw c'
      end
  | SubmitOrder p => λ w x w', ∃ fs, submission_call env p x fs ∧ w' = with_call w p fs
  | PersistBrokerSnapshot _ | ReconcileOrders _ _ => λ w _ w', others w w'
  | _ => λ w _ w', w' = w
  end.

(** The calls for an order of this client order id. *)
Definition calls_of (w : World) : list BrokerCall :=
  List.filter (λ c, (p_client_order_id (call_payload c) =? client)%string) (calls w).
Definition sent (w : World) : nat := List.length (calls_of w).

(** Each sends its POST and repeats it only without an answer. *)
Definition calls_ok (w : World) : Prop :=
  Forall (λ c, one_request env (order_request (call_payload c)) (call_fetches c)) (calls_of w).
Definition claimed (w : World) : nat := if has_event attempt_id (db w) then 1 else 0.

Definition is_submission (X : Type) (e : effect X) : bool :=
  match e with SubmitOrder p => (p_client_order_id p =? client)%string | _ => false end.

(** The attempt of this intent was recorded. *)
Definition wins_attempt (X : Type) (e : effect X) : X → bool :=
  match e in effect X return X → bool with
  | Database o =>
      match o in Operation A return res A → bool with
      | Attempt row _ _ _ _ _ => λ x, match x with
          | Ret _ => (row_order_intent_id row =? intent)%string && (row_account_id row =? account)%string
                     && (row_client_order_id row =? client)%string
          | Throw _ => false
          end
      | _ => λ _, false
      end
  | _ => λ _, false
  end.

Abbreviation does := (perform digest hmac document stableRecordId timestamp_format).

Lemma attempt_others_recorded w w' : recorded w → others w w' → recorded w'.
Proof.
  intros [Hin Hu] (_ & Hk & Hn & _). split; [auto|]. intros i a [H|H]%Hn; [by apply Hu|]. by apply H in Hin.
Qed.

Lemma grows_recorded w d : grows (db w) d → recorded w → recorded (with_db w d).
Proof. unfold recorded. intros [Hi _]. cbn [db with_db]. by rewrite Hi. Qed.

Lemma attempt_handle_recorded X (e : effect X) w x w' : recorded w → handle X e w x w' → recorded w'.
Proof.
  intros Hw. destruct e; cbn [handle]; try by intros ->.
  2,4: by apply attempt_others_recorded.
  2: by intros (fs & _ & ->).
  destruct (does o (db w)) as [[a d]|c] eqn:E; [|by intros [-> _]].
  apply growing_operation, grows_recorded in E; [|done].
  intros [[_ ->]|(c & _ & [->| ->])]; done.
Qed.

Lemma attempt_claimed_mono w w' : (∀ id, has_event id (db w) = true → has_event id (db w') = true) →
  (claimed w <= claimed w')%nat.
Proof.
  intros H. unfold claimed. specialize (H attempt_id). destruct (has_event _ (db w)); [by rewrite H|].
  case_match; lia.
Qed.

(** *** The permit is the attempt that was recorded *)

Lemma recorded_attempt row p command f now context d receipt d' :
  recordSubmissionAttempt digest stableRecordId row p command f now context d = Ret (receipt, d') →
  let id := event_id (attempt_event digest stableRecordId row receipt now) in
  has_event id d = false ∧ has_event id d' = true.
Proof.
  unfold recordSubmissionAttempt. intros (r & d1 & [Hr ->]%lift_Ret & H)%tx_bind_Ret.
  apply tx_bind_Ret in H as (u & d2 & Hi & H). apply tx_bind_Ret in H as (u2 & d3 & Hm & H).
  injection H as <- <-. apply require_one_Ret, fenced_one in Hi as [_ [Hf Ht]%insert_event_one].
  split; [done|]. assert (growing (require_one "POSTGRES_BROKER_SUBMISSION_ATTEMPT_LIFECYCLE_PERSISTENCE_FAILED"
    (move_intent f (row_order_intent_id row) IntentPending (set_intent_status IntentPending now)
       (λ l, in_cycle (context_cycleId context) (context_workstreamExecutionId context)
               (in_state (attempt_state row) l))))) as Hg by grow.
  by apply (Hg _ _ _ Hm).
Qed.

Lemma attempt_handle_counts X (e : effect X) w x w' :
  handle X e w x w' →
  sent w' = (sent w + if is_submission X e then 1 else 0)%nat ∧
  (claimed w + (if wins_attempt X e x then 1 else 0) <= claimed w')%nat.
Proof.
  destruct e; cbn [handle is_submission wins_attempt]; try by (intros ->; split; lia).
  - intros H. assert (Hd : calls w' = calls w).
    { destruct (does o (db w)) as [[? ?]|]; [|by destruct H as [-> _]].
      by destruct H as [[_ ->]|(? & _ & [->| ->])]. }
    unfold sent, calls_of. rewrite Hd. split; [lia|].
    assert (Hm : (claimed w <= claimed w')%nat).
    { destruct (does o (db w)) as [[a d]|] eqn:E; [|by destruct H as [-> _]].
      apply growing_operation in E as [_ E]. destruct H as [[_ ->]|(? & _ & [->| ->])]; auto using attempt_claimed_mono. }
    destruct o; try (destruct x; lia). destruct x as [receipt|]; [|lia].
    destruct (_ && _) eqn:Ew; [|lia].
    apply andb_true_iff in Ew as [[Ei Ea]%andb_true_iff Ec]. apply String.eqb_eq in Ei, Ea, Ec.
    destruct (does _ (db w)) as [[a d]|] eqn:E; [|by destruct H as (_ & ? & ?)].
    destruct H as [[[= <-] ->]|(? & ? & _)]; [|done]. apply recorded_attempt in E as [E1 E2].
    unfold claimed. cbn [db with_db]. unfold attempt_event, submission_event, submission_key in E1, E2.
    cbn [event_id] in E1, E2. rewrite Ei, Ea, Ec in E1, E2. fold attempt_id in E1, E2. rewrite E1, E2. lia.
  - intros (Hd & _ & _ & He). unfold sent, calls_of. rewrite Hd. pose proof (attempt_claimed_mono w w' He). lia.
  - intros (fs & _ & ->). unfold sent, calls_of. cbn [with_call calls List.filter call_payload].
    split; [|unfold claimed; cbn [with_call db]; lia]. destruct (_ =? client)%string; cbn [List.length]; lia.
  - intros (Hd & _ & _ & He). unfold sent, calls_of. rewrite Hd. pose proof (attempt_claimed_mono w w' He). lia.
Qed.

Lemma attempt_others_counts w w' : others w w' → sent w' = sent w ∧ (claimed w <= claimed w')%nat.
Proof. intros (Hd & _ & _ & He). unfold sent, calls_of. rewrite Hd. split; [done|]. by apply attempt_claimed_mono. Qed.

Lemma others_calls_ok w w' : others w w' → calls_ok w → calls_ok w'.
Proof. intros (Hd & _). unfold calls_ok, calls_of. by rewrite Hd. Qed.

Lemma handle_calls_ok X (e : effect X) w x w' : handle X e w x w' → calls_ok w → calls_ok w'.
Proof.
  destruct e; cbn [handle]; try by intros ->.
  - destruct (does o (db w)) as [[? ?]|]; [|by intros [-> _]]. by intros [[_ ->]|(? & _ & [->| ->])].
  - by apply others_calls_ok.
  - intros (fs & Hf%submission_call_fetches & ->) Hw. unfold calls_ok, calls_of in *.
    cbn [with_call calls List.filter call_payload]. destruct (_ =? client)%string; [by constructor|done].
  - by apply others_calls_ok.
Qed.

(** *** The command submits with the permit of the intent it claimed *)

Definition guards {B} := guarded (B := B) handle recorded is_submission wins_attempt.

Hint Resolve guarded_reject_if : core.

Lemma guards_value {A} b (e : effect A) :
  is_submission _ e = false → guards b (ask_value e) anything.
Proof. intros He. by split; [rewrite He|]. Qed.

Lemma guards_any {A} b (e : effect (res A)) : is_submission _ e = false → guards b (ask e) anything.
Proof. intros He. by apply guarded_ask. Qed.

Ltac walk_with submit :=
  repeat first
    [ progress intros
    | match goal with |- guarded _ _ _ _ _ (submit_next _ _ _ _ _ _ _ _) _ => submit end
    | apply guarded_reject_if
    | apply guarded_any_bind
    | by apply guards_any
    | by apply guards_value
    | match goal with |- guarded _ _ _ _ _ (match ?x with _ => _ end) _ => destruct x end
    | match goal with |- guarded _ _ _ _ _ (let '(_, _) := ?x in _) _ => destruct x end
    | exact I ].
Ltac walk := walk_with fail.

Lemma guards_reconcile_found b f id response : guards b (reconcile_found f id response) anything.
Proof. unfold reconcile_found, assertFence, guards, sync. walk. Qed.

Lemma guards_recovery_loop b f id m delay left attempt o s :
  guards b (recovery_loop f id m delay left attempt o s) anything.
Proof.
  revert b attempt o s. induction left as [|left IH]; intros b attempt o s; cbn [recovery_loop]; [by case_match|].
  apply guarded_any_bind; [unfold assertFence; walk|]. intros [] b'. split; [done|].
  intros [error|response] _; [|apply guards_reconcile_found]. walk. apply IH.
Qed.

Lemma attempt_guards_recover b f policy id : guards b (recoverAmbiguousPostgresSubmission f policy id) anything.
Proof.
  unfold recoverAmbiguousPostgresSubmission, guards, sync. walk. apply guards_recovery_loop.
Qed.

Lemma guards_recoverSubmission b input row now summary receipt :
  guards b (recoverSubmission input row now summary receipt) anything.
Proof.
  unfold recoverSubmission. destruct (recovery input); [|done].
  apply guarded_any_bind; [apply attempt_guards_recover|]. unfold guards. walk.
Qed.

(** The row is the intent [client] names, when it has that client order id. *)
Definition right_row (row : AutonomousExecutionIntentRow) : Prop :=
  row_client_order_id row = client → row_order_intent_id row = intent ∧ row_account_id row = account.

Lemma guards_release b input row now error : guards b (release_and_rethrow (A := CommandResult) input row now error) anything.
Proof. unfold release_and_rethrow, guards, reject. walk. Qed.

Lemma guards_submit_claimed b input row payload now summary :
  right_row row → p_client_order_id payload = row_client_order_id row →
  guards b (submit_claimed other_format input row payload now summary) anything.
Proof.
  intros Hr Hp. apply guarded_bind, guarded_ask; [done|]. intros [receipt|c] _; [|apply guards_release]. split.
  - cbn [is_submission]. rewrite Hp. intros Hc%String.eqb_eq. destruct (Hr Hc) as [Hi Ha].
    unfold permit_after. cbn [is_submission wins_attempt]. rewrite Hi, Ha, Hc, !String.eqb_refl. by rewrite orb_true_r.
  - intros [error|response] _; cbn beta.
    + unfold submission_failed, guards, reject. walk. apply guards_recoverSubmission.
    + unfold submission_answered. apply guarded_any_bind; [by apply guards_value|]. intros clock b'.
      apply guarded_bind, guarded_ask; [done|]. intros [recorded'|error] _; [done|].
      apply guarded_any_bind; [by apply guards_any|]. intros _ b2. apply guards_recoverSubmission.
Qed.

Lemma validated_client row broker now age payload :
  validateAutonomousExecutionEvidence other_format optionsQuoteMaxAgeMs row broker now age = Ret payload →
  payload = order_payload row.
Proof.
  unfold validateAutonomousExecutionEvidence. destruct (negb _); [done|]. destruct (negb _); [done|].
  unfold mbind, res_bind. repeat (case_match; [|done]). by intros [= <-].
Qed.

Lemma guards_checked_payload b input row broker now :
  guards b (checked_payload other_format optionsQuoteMaxAgeMs input row broker now)
    (λ _ r, ∀ payload, r = Ret payload → p_client_order_id payload = row_client_order_id row).
Proof.
  apply guarded_async_bind. destruct (_ && _); [done|]. cbn [reject_if async_ret guarded].
  apply guarded_async_bind. assert (Hend : ∀ b', guards b'
    (sync (validateAutonomousExecutionEvidence other_format optionsQuoteMaxAgeMs row broker now
             (quoteMaxAgeSeconds (safety input))))
    (λ _ r, ∀ payload, r = Ret payload → p_client_order_id payload = row_client_order_id row)).
  { intros b' payload ->%validated_client. done. }
  destruct (_ && _); [|apply Hend]. apply guarded_async_bind, guarded_ask; [done|].
  intros [asset|c] _; [|done]. destruct (_ || _); [done|]. apply Hend.
Qed.

Lemma claimed_right_row w command f now expected row d' :
  recorded w → does (Claim command f now expected) (db w) = Ret (row, d') → right_row row.
Proof.
  intros [_ Hu]. unfold perform, execute, claimIntent. intros (filter & d1 & [_ ->]%lift_Ret & H)%tx_bind_Ret.
  apply tx_bind_Ret in H as (o & d1 & [-> ->]%gets_Ret & H).
  destruct (next_claimable _ _ _ _) as [x|] eqn:E; [|done].
  apply tx_bind_Ret in H as (? & d1 & [_ ->]%lift_Ret & H). apply tx_bind_Ret in H as (? & d1 & [_ ->]%require_Ret & H).
  apply tx_bind_Ret in H as (? & d2 & _ & H). injection H as <- <-.
  unfold next_claimable in E. apply first_found_In in E as (i & Hi%sort_by_In & E).
  unfold claimable in E. destruct (select_one _ _) as [acct|]; [|done]. destruct (lifecycle_of _ _); [|done].
  destruct (latest_snapshot _ _); [|done]. destruct (review_of _ _); [|done]. destruct (select_one _ _); [|done].
  destruct (select_one _ _); [|done]. destruct (confirmation_of _ _ _); [|done].
  destruct (_ && _); [|done]. injection E as <-. intros Hc. cbn [claimed_row row_client_order_id] in *.
  apply Hu. rewrite <- Hc. by apply (in_map identity).
Qed.

Lemma guards_submit_next b input broker now ready confirmable promoted :
  guards b (submit_next other_format optionsQuoteMaxAgeMs input broker now ready confirmable promoted) anything.
Proof.
  apply guarded_async_bind, guarded_ask; [done|]. intros [row|c] (w & w' & Hw & Hh); [|done].
  cbn [handle] in Hh. destruct (does _ (db w)) as [[a d]|] eqn:E; [|by destruct Hh as (_ & ? & ?)].
  destruct Hh as [[[= ->] _]|(? & ? & _)]; [|done]. apply claimed_right_row in E; [|done].
  apply guarded_bind. eapply guarded_mono; [|apply guards_checked_payload].
  intros b' [payload|c] Hp; [|apply guards_release]. apply guards_submit_claimed; [done|]. by apply Hp.
Qed.

Lemma guards_command b input :
  guards b (runAutonomousPostgresExecutionCommand other_format optionsQuoteMaxAgeMs input) anything.
Proof.
  unfold runAutonomousPostgresExecutionCommand, guards, sync, reject. walk_with ltac:(apply guards_submit_next).
Qed.
End at_most_once.

Section histories.
Context (env : Environment).
Context (digest : string → string) (hmac : string → string → string) (document : json → jvalue).
Context (stableRecordId : string → string → string) (timestamp_format : string → option Z).
Context (other_format : string → option Z) (optionsQuoteMaxAgeMs : number).

(** The runners of the command. *)
Inductive runner : prog effect (res CommandResult) → Prop :=
| command_runner input : runner (runAutonomousPostgresExecutionCommand other_format optionsQuoteMaxAgeMs input).

(** Histories of any number of runners with the rest of the program. *)
Definition history := reachable (handle env digest hmac document stableRecordId timestamp_format) others runner.
End histories.

(** C1: An order is handed to the broker client at most once, and what the client
    sends is one POST.  Whatever runners are started, on whichever machines and
    under whichever fences, however their transactions interleave, fail or lose
    their answers, wherever runners crash (in the middle of a call too), and
    whatever the broker and the recovery answer: from a state in which the client
    order id belongs to one intent and [submitPaperOrder] was not called for it, no
    history calls it a second time.  The call comes after the attempt was recorded;
    it sends nothing but the POST of its order to the fixed paper URL, in the paper
    environment with live trading off, at most ALPACA_MAX_RETRIES + 1 times, and
    again only when the request before it got no answer. *)
Theorem submission_sent_at_most_once env digest hmac document stableRecordId timestamp_format other_format
    optionsQuoteMaxAgeMs intent account client w s :
  recorded intent account client w → sent client w = 0%nat →
  history env digest hmac document stableRecordId timestamp_format other_format optionsQuoteMaxAgeMs w s →
  (sent client (world s) <= 1)%nat ∧
  ∀ c, In c (calls (world s)) → p_client_order_id (call_payload c) = client →
    has_event (attempt_id stableRecordId intent account client) (db (world s)) = true ∧
    one_request env (order_request (call_payload c)) (call_fetches c).
Proof.
  intros Hw H0 Hs. set (I := λ w, recorded intent account client w ∧ calls_ok env client w).
  destruct (uses_bounded (handle env digest hmac document stableRecordId timestamp_format) others
    (runner other_format optionsQuoteMaxAgeMs) I (is_submission client)
    (wins_attempt intent account client) (claimed stableRecordId intent account client) (sent client))
    with (w := w) (s := s) as [[_ Hok] Hle]; try done.
  - intros X e w1 x w2 [Hr Hc] Hx. split; [by eapply attempt_handle_recorded|by eapply handle_calls_ok].
  - intros X e w1 x w2 _ Hx.
    exact (attempt_handle_counts env digest hmac document stableRecordId timestamp_format intent account client X e w1 x w2 Hx).
  - intros w1 w2 [Hr Hc] Hx. split; [by eapply attempt_others_recorded|by eapply others_calls_ok].
  - intros w1 w2 _ Hx. by apply (attempt_others_counts stableRecordId intent account client).
  - intros p [input]. eapply guarded_stronger; [|apply guards_command]. by intros w1 [? _].
  - split; [done|]. unfold sent in H0. apply length_zero_iff_nil in H0. unfold calls_ok. by rewrite H0.
  - assert (Hc : (claimed stableRecordId intent account client (world s) <= 1)%nat) by (unfold claimed; case_match; lia).
    split; [lia|]. intros c Hin Hid.
    assert (Hin' : In c (calls_of client (world s))) by (apply filter_In; split; [done|by apply String.eqb_eq]).
    split; [|exact (proj1 (List.Forall_forall _ _) Hok c Hin')].
    unfold claimed in Hle. destruct (has_event _ _); [done|]. unfold sent in Hle.
    destruct (calls_of client (world s)); [done|cbn in Hle; lia].
Qed.

(** An order whose attempt is recorded is not submitted again.  From a state
    in which the attempt of an intent is recorded and nothing was submitted (its
    runner crashed, or lost the answer of the COMMIT and gave the claim back) no
    history submits it. *)
Theorem attempted_never_submitted_again env digest hmac document stableRecordId timestamp_format other_format
    optionsQuoteMaxAgeMs intent account client w s :
  recorded intent account client w → has_event (attempt_id stableRecordId intent account client) (db w) = true →
  sent client w = 0%nat →
  history env digest hmac document stableRecordId timestamp_format other_format optionsQuoteMaxAgeMs w s →
  sent client (world s) = 0%nat.
Proof.
  intros Hw He H0 Hs. set (id := attempt_id stableRecordId intent account client) in *.
  set (I := λ w, recorded intent account client w ∧ has_event id (db w) = true).
  assert (Hc : ∀ w, I w → claimed stableRecordId intent account client w = 1%nat).
  { intros w1 [_ H]. unfold claimed. fold id. by rewrite H. }
  assert (HI : ∀ w1 w2, recorded intent account client w2 →
    (claimed stableRecordId intent account client w1 <= claimed stableRecordId intent account client w2)%nat →
    I w1 → I w2).
  { intros w1 w2 Hr Hle HI1. split; [done|]. rewrite (Hc w1 HI1) in Hle. unfold claimed in Hle. fold id in Hle.
    destruct (has_event id (db w2)); [done|lia]. }
  destruct (uses_bounded (handle env digest hmac document stableRecordId timestamp_format) others
    (runner other_format optionsQuoteMaxAgeMs) I (is_submission client)
    (wins_attempt intent account client) (λ _, 0%nat) (sent client)) with (w := w) (s := s) as [_ Hle]; try done.
  - intros X e w1 x w2 HI1 Hx. apply (HI w1); [by eapply attempt_handle_recorded; [apply HI1|]| |done].
    apply (attempt_handle_counts _ _ _ _ stableRecordId _ intent account client) in Hx as [_ Hx]. lia.
  - intros X e w1 x w2 HI1 Hx. pose proof (attempt_handle_recorded _ _ _ _ _ _ _ _ _ X e w1 x w2 (proj1 HI1) Hx) as Hr.
    apply (attempt_handle_counts _ _ _ _ stableRecordId _ intent account client) in Hx as [Hu Hx]. split; [done|].
    rewrite (Hc w1 HI1) in Hx. unfold claimed in Hx. destruct (has_event _ (db w2)), (wins_attempt _ _ _ _ _ _); lia.
  - intros w1 w2 HI1 Hx. apply (HI w1); [by eapply attempt_others_recorded; [apply HI1|]| |done].
    by apply (attempt_others_counts stableRecordId intent account client).
  - intros w1 w2 HI1 Hx. apply (attempt_others_counts stableRecordId intent account client) in Hx as [? _]. done.
  - intros p [input]. eapply guarded_stronger; [|apply guards_command]. by intros w1 [? _].
  - lia.
Qed.

(** ** What the recovery asks for *)

Definition recovery_request (X : Type) (e : effect X) : Prop :=
  match e with
  | Database (FenceHeld _) | Database (RecordRecovery _ _ _ _ _ _ _) | LookupOrder _ | ReconcileOrders _ _ | Clock
  | Sleep _ => True
  | _ => False
  end.

Section recovery.
Context {M : Type} (allowed : M → ∀ X, effect X → Prop) (next : M → ∀ X, effect X → X → M).
Hypothesis recovery_allowed : ∀ m X (e : effect X), recovery_request X e → allowed m X e.

Lemma monitored_any_bind {A B} m (p : async effect A) (f : A → async effect B) :
  monitored allowed next m p (λ _ _, True) → (∀ m' a, monitored allowed next m' (f a) (λ _ _, True)) →
  monitored allowed next m (async_bind p f) (λ _ _, True).
Proof.
  intros Hp Hf. apply monitored_async_bind. revert Hp. apply monitored_mono. intros m' [a|c] _; [apply Hf|done].
Qed.

Ltac quiet :=
  repeat first
    [ progress intros
    | match goal with |- monitored _ _ _ (async_bind _ _) _ => apply monitored_any_bind end
    | match goal with |- monitored _ _ _ (ask _) _ => split; [by apply recovery_allowed|] end
    | match goal with |- monitored _ _ _ (ask_value _) _ => split; [by apply recovery_allowed|] end
    | match goal with |- monitored _ _ _ (match ?x with _ => _ end) _ => destruct x end
    | match goal with |- monitored _ _ _ (reject_if ?x _) _ => destruct x; exact I end
    | exact I ].

Lemma monitored_reconcile_found m f id response :
  monitored allowed next m (reconcile_found f id response) (λ _ _, True).
Proof using recovery_allowed. unfold reconcile_found, assertFence, sync. quiet. Qed.

Lemma monitored_recovery_loop m f id max delay left attempt o s :
  monitored allowed next m (recovery_loop f id max delay left attempt o s) (λ _ _, True).
Proof using recovery_allowed.
  revert m attempt o s. induction left as [|left IH]; intros m attempt o s; cbn [recovery_loop]; [by case_match|].
  apply monitored_any_bind; [unfold assertFence; quiet|]. intros m' []. split; [by apply recovery_allowed|].
  intros [error|response]; [|apply monitored_reconcile_found]. quiet. apply IH.
Qed.

Lemma monitored_recoverSubmission m input row now summary receipt :
  monitored allowed next m (recoverSubmission input row now summary receipt) (λ _ _, True).
Proof using recovery_allowed.
  unfold recoverSubmission. destruct (recovery input); [|done]. apply monitored_any_bind; [|quiet].
  unfold recoverAmbiguousPostgresSubmission, sync. quiet. apply monitored_recovery_loop.
Qed.
End recovery.

(** ** Only what the gate allowed is submitted *)

Section gate.
Context (other_format : string → option Z) (optionsQuoteMaxAgeMs : number).
Context (input : CommandInput).

Abbreviation log := (list (entry (E := effect))).

Definition submits (x : entry (E := effect)) : Prop :=
  match x with Entry (SubmitOrder _) _ => True | _ => False end.

Definition command_context : LifecycleContext :=
  default {| context_cycleId := fence_run_id (fence input);
             context_workstreamExecutionId := fence_run_id (fence input) |} (lifecycleContext input).

Definition short_sale (row : AutonomousExecutionIntentRow) : bool :=
  (row_review_type row =? "entry")%string && (row_asset_class row =? "equity")%string
  && text_is (row_operation row) "sell_to_open".

Definition shortable_asset (a : Tradability) : Prop :=
  tradable a = true ∧ shortable a = Some true ∧ easyToBorrow a = Some true.

(** What a runner has done before it submits [payload]. *)
Record authorized (l : log) (payload : AlpacaPaperOrderRequest) (row : AutonomousExecutionIntentRow)
    (broker : AutonomousExecutionBrokerSnapshot) (now : Z) : Prop := {
  auth_safety : assertSafety (safety input) (confirmPaper input) = Ret tt;
  auth_market : checks_market input = true → In (Entry MarketOpen (Ret true)) l;
  auth_snapshot : In (Entry CaptureBrokerSnapshot (Ret broker)) l;
  auth_claim : In (Entry (Database (Claim (command input) (fence input) now (expectedPayloadSignature input)))
                     (Ret row)) l;
  auth_options : row_asset_class row = "option"%string → paperOptionsExecutionEnabled (safety input) = true;
  auth_short : short_sale row = true → ∃ a, In (Entry (CheckAsset (row_symbol row)) (Ret a)) l ∧ shortable_asset a;
  auth_evidence : validateAutonomousExecutionEvidence other_format optionsQuoteMaxAgeMs row broker now
                    (quoteMaxAgeSeconds (safety input)) = Ret payload;
  auth_attempt : ∃ pre receipt,
    l = pre ++ [Entry (Database (Attempt row payload (command input) (fence input) now command_context)) (Ret receipt)];
  auth_first : Forall (λ x, ¬ submits x) l
}.

Definition allowed (l : log) (X : Type) (e : effect X) : Prop :=
  match e with SubmitOrder payload => ∃ row broker now, authorized l payload row broker now | _ => True end.

Definition monitors {B} := monitored (B := B) allowed (extend (E := effect)).
Definition whatever {B} : log → B → Prop := λ _ _, True.

Lemma monitors_bind {A B} l (p : async effect A) (f : A → async effect B) Q :
  monitors l p (λ l' r, match r with Ret a => monitors l' (f a) Q | Throw c => Q l' (Throw c) end) →
  monitors l (async_bind p f) Q.
Proof. apply monitored_async_bind. Qed.

Lemma monitors_then {A B} l (p : async effect A) (f : A → async effect B) (R : log → A → Prop) :
  monitors l p (λ l' r, ∀ a, r = Ret a → R l' a) → (∀ l' a, R l' a → monitors l' (f a) whatever) →
  monitors l (async_bind p f) whatever.
Proof.
  intros Hp Hf. apply monitors_bind. revert Hp. apply monitored_mono.
  intros l' [a|c] Ha; [|done]. by apply Hf, Ha.
Qed.

Lemma monitors_any {A B} l (p : async effect A) (f : A → async effect B) :
  monitors l p whatever → (∀ l' a, monitors l' (f a) whatever) → monitors l (async_bind p f) whatever.
Proof. intros Hp Hf. eapply (monitors_then _ _ _ (λ _ _, True)); [|auto]. revert Hp. by apply monitored_mono. Qed.

Ltac quiet :=
  repeat first
    [ progress intros
    | apply monitors_any
    | by split
    | match goal with |- monitors _ (match ?x with _ => _ end) _ => destruct x end
    | match goal with |- monitors _ (reject_if ?x _) _ => destruct x end
    | exact I ].

Lemma monitors_recoverSubmission l row now summary receipt :
  monitors l (recoverSubmission input row now summary receipt) whatever.
Proof. apply monitored_recoverSubmission. by intros m X []. Qed.

Lemma monitors_answer l row now summary receipt answer :
  monitors l match answer with
             | inl error => submission_failed input row now summary receipt error
             | inr response => submission_answered other_format input row now summary receipt response
             end whatever.
Proof.
  destruct answer as [error|response].
  - unfold submission_failed, reject. quiet. apply monitors_recoverSubmission.
  - unfold submission_answered. apply monitors_any; [by split|]. intros l' clock.
    apply monitored_bind, monitored_ask; [done|]. intros [r|error]; [done|].
    apply monitors_any; [by split|]. intros. apply monitors_recoverSubmission.
Qed.

(** *** The way to the submission *)

(** What holds once an intent is claimed. *)
Record claimed_so_far (l : log) (row : AutonomousExecutionIntentRow) (broker : AutonomousExecutionBrokerSnapshot)
    (now : Z) : Prop := {
  so_safety : assertSafety (safety input) (confirmPaper input) = Ret tt;
  so_market : checks_market input = true → In (Entry MarketOpen (Ret true)) l;
  so_snapshot : In (Entry CaptureBrokerSnapshot (Ret broker)) l;
  so_claim : In (Entry (Database (Claim (command input) (fence input) now (expectedPayloadSignature input)))
                   (Ret row)) l;
  so_first : Forall (λ x, ¬ submits x) l
}.

(** What holds once its payload is checked. *)
Record checked_so_far (l : log) (payload : AlpacaPaperOrderRequest) (row : AutonomousExecutionIntentRow)
    (broker : AutonomousExecutionBrokerSnapshot) (now : Z) : Prop := {
  ck_claimed : claimed_so_far l row broker now;
  ck_options : row_asset_class row = "option"%string → paperOptionsExecutionEnabled (safety input) = true;
  ck_short : short_sale row = true → ∃ a, In (Entry (CheckAsset (row_symbol row)) (Ret a)) l ∧ shortable_asset a;
  ck_evidence : validateAutonomousExecutionEvidence other_format optionsQuoteMaxAgeMs row broker now
                  (quoteMaxAgeSeconds (safety input)) = Ret payload
}.

Lemma extend_In l X (e : effect X) x y : In y l → In y (extend l X e x).
Proof. intros H. apply in_or_app. by left. Qed.
Lemma extend_last l X (e : effect X) x : In (Entry e x) (extend l X e x).
Proof. apply in_or_app. right. by left. Qed.
Lemma extend_quiet l X (e : effect X) x :
  ¬ submits (Entry e x) → Forall (λ x, ¬ submits x) l → Forall (λ x, ¬ submits x) (extend l X e x).
Proof. intros. apply Forall_app. auto. Qed.
Hint Resolve extend_In extend_last extend_quiet : core.
Hint Resolve Forall_nil_2 : core.
Hint Extern 1 (¬ submits _) => intros [] : core.

Lemma claimed_extend l row broker now X (e : effect X) x :
  ¬ submits (Entry e x) → claimed_so_far l row broker now → claimed_so_far (extend l X e x) row broker now.
Proof. intros He []. split; auto. Qed.

Lemma monitors_checked l row broker now :
  claimed_so_far l row broker now →
  monitors l (checked_payload other_format optionsQuoteMaxAgeMs input row broker now)
    (λ l' r, ∀ payload, r = Ret payload → checked_so_far l' payload row broker now).
Proof.
  intros Hl. apply monitors_bind. destruct (_ && _) eqn:Eo; [done|]. cbn [reject_if async_ret].
  assert (Ho : row_asset_class row = "option"%string → paperOptionsExecutionEnabled (safety input) = true).
  { intros Hc. rewrite Hc, String.eqb_refl in Eo. by destruct (paperOptionsExecutionEnabled (safety input)). }
  apply monitors_bind. fold (short_sale row). destruct (short_sale row) eqn:Es.
  - apply monitors_bind, monitored_ask; [done|]. intros [a|c]; [|done]. destruct (_ || _) eqn:Ea; [done|].
    intros payload Hp. apply orb_false_iff in Ea as [[Ht Hs]%orb_false_iff Hb].
    rewrite negb_false_iff in Ht, Hs, Hb. apply bool_decide_eq_true in Hs, Hb.
    split; [apply claimed_extend; auto|done| |done]. intros _. exists a. by split; [|split].
  - intros payload Hp. split; [done|done|congruence|done].
Qed.

Lemma monitors_submit l payload row broker now summary :
  checked_so_far l payload row broker now →
  monitors l (submit_claimed other_format input row payload now summary) whatever.
Proof.
  intros [[] Ho Hs He]. apply monitored_bind, monitored_ask; [done|].
  intros [receipt|c]; [|unfold release_and_rethrow, reject; quiet].
  split; [|intros; apply monitors_answer]. exists row, broker, now. split; auto.
  - intros Hshort. destruct (Hs Hshort) as (a & Ha & ?). exists a. auto.
  - by exists l, receipt.
Qed.

Lemma monitors_submit_next l broker now ready confirmable promoted :
  assertSafety (safety input) (confirmPaper input) = Ret tt →
  (checks_market input = true → In (Entry MarketOpen (Ret true)) l) →
  In (Entry CaptureBrokerSnapshot (Ret broker)) l → Forall (λ x, ¬ submits x) l →
  monitors l (submit_next other_format optionsQuoteMaxAgeMs input broker now ready confirmable promoted) whatever.
Proof.
  intros Hs Hm Hb Hf. apply monitors_bind, monitored_ask; [done|]. intros [row|c]; [|done].
  assert (Hc : claimed_so_far (extend l _ (Database (Claim (command input) (fence input) now
                 (expectedPayloadSignature input))) (Ret row)) row broker now) by (split; auto).
  apply monitored_bind. eapply monitored_mono; [|by apply monitors_checked].
  intros l' [payload|e] Hp; [|unfold release_and_rethrow, reject; quiet]. by eapply monitors_submit, Hp.
Qed.

Lemma monitors_command :
  monitors [] (runAutonomousPostgresExecutionCommand other_format optionsQuoteMaxAgeMs input) whatever.
Proof.
  unfold runAutonomousPostgresExecutionCommand. destruct (assertSafety _ _) as [[]|] eqn:Hs; [|done].
  unfold sync at 1, async_bind at 1. cbn [prog_bind]. unfold sync. apply monitors_bind.
  destruct (commandFilter _); [|done]. cbn [monitored]. apply monitors_bind, monitored_ask; [done|].
  intros [[ready confirmable]|]; [|done]. destruct (_ && _); [done|].
  eapply (monitors_then _ _ _ (λ l open, (open = true → checks_market input = true →
    In (Entry MarketOpen (Ret true)) l) ∧ Forall (λ x, ¬ submits x) l)).
  { destruct (checks_market input); [|by intros ? ?; split; auto].
    apply monitored_ask; [done|]. intros x open' ->. split; [intros -> _|]; auto. }
  intros l [|] [Hm Hf]; [|done]. cbn [negb].
  eapply (monitors_then _ _ _ (λ l _, (checks_market input = true → In (Entry MarketOpen (Ret true)) l)
    ∧ Forall (λ x, ¬ submits x) l)).
  { destruct (input_now input); [by split; auto|]. split; [done|]. intros x _ _. auto 6. }
  intros l1 now [Hm1 Hf1]. apply monitors_bind, monitored_ask; [done|]. intros [broker|]; [|done].
  eapply (monitors_then _ _ _ (λ l _, (checks_market input = true → In (Entry MarketOpen (Ret true)) l)
    ∧ In (Entry CaptureBrokerSnapshot (Ret broker)) l ∧ Forall (λ x, ¬ submits x) l)).
  { destruct (persists_snapshot input); [|intros u _; auto 6].
    apply monitored_ask; [done|]. intros x _ _. split_and!; auto 6. }
  intros l2 _ (Hm2 & Hb & Hf2). destruct (ready =? 0)%nat; [|by apply monitors_submit_next].
  apply monitors_bind, monitored_ask; [done|]. intros [[| |]|]; try done. apply monitors_submit_next; auto.
Qed.
End gate.

(** C3: Nothing is submitted that the gate did not allow.  In every execution of
    the command, whatever the database, the market data, the broker and the
    clock answer, the request before a submission recorded its attempt, this is
    the only submission, and before it the runner found the paper-only safety
    settings in order, saw the market open (when it is told to look), captured a
    snapshot of the account, claimed the intent, checked that a short sale is of
    an easy-to-borrow asset and that options may be traded, and built exactly
    this payload from the intent by validateAutonomousExecutionEvidence. *)
Theorem submission_follows_gate other_format optionsQuoteMaxAgeMs input l payload k :
  path (runAutonomousPostgresExecutionCommand other_format optionsQuoteMaxAgeMs input) l (Ask (SubmitOrder payload) k) →
  ∃ row broker now, authorized other_format optionsQuoteMaxAgeMs input l payload row broker now.
Proof.
  intros Hp. exact (monitored_path (allowed other_format optionsQuoteMaxAgeMs input) [] _ whatever l _ _ _
    (monitors_command other_format optionsQuoteMaxAgeMs input) Hp).
Qed.
