(* ===== verification/SubmitConfiguration.v ===== *)
(** The limits of paper orders: src/services/paperSubmitSafetyConfig.ts.

    The environment is a function from names to values; [process_runtime] says
    whether it is the one of the process, for which some defaults differ. *)

From Stdlib Require Import Floats.
From S2P Require Import Prelude.
From S2P Require Import JsString.
From S2P Require Import JsNumber.
From S2P Require Import JsText.
From S2P Require Import AlpacaClient.
Open Scope Z_scope.

Record PaperSubmitConfiguration := {
  psc_environment : string;
  psc_tradingMode : string;
  psc_liveTradingEnabled : bool;
  psc_paperOrderExecutionEnabled : bool;
  psc_paperOptionsExecutionEnabled : bool;
  psc_maxPositionNotional : number;
  psc_maxTotalPlanNotional : number;
  psc_equityMaxNotionalPerOrder : number;
  psc_equityMaxPortfolioDeployPct : number;
  psc_equityMaxPositionPct : number;
  psc_equityMinCashReservePct : number;
  psc_optionMaxOrderNotional : number;
  psc_optionMaxContracts : number;
  psc_optionMaxPortfolioRiskPct : number;
  psc_optionMaxPositionRiskPct : number;
  psc_quoteMaxAgeSeconds : number;
  psc_maxPriceDriftPct : number;
  psc_zeroDteMaxTradesPerDay : number;
  psc_zeroDteMaxDailyPremium : number;
  psc_zeroDteMaxDailyRealizedLoss : number;
  psc_zeroDteMaxOpenPositions : number
}.

(** ** Reading a value *)

Definition finite (value : option string) : option number :=
  match value with
  | None => None
  | Some v => if (v =? "")%string then None
              else let parsed := num_of_text v in if num_is_finite parsed then Some parsed else None
  end.

Definition positive (value : option string) (fallback : number) : number :=
  match finite value with Some x => if (0 <? x)%float then x else fallback | None => fallback end.

Definition nonNegative (value : option string) (fallback : number) : number :=
  match finite value with Some x => if (0 <=? x)%float then x else fallback | None => fallback end.

Definition positiveInteger (value : option string) (fallback : number) : number :=
  match finite value with Some x => if (0 <? x)%float then math_floor x else fallback | None => fallback end.

Definition nonNegativeInteger (value : option string) (fallback : number) : number :=
  match finite value with Some x => if (0 <=? x)%float then math_floor x else fallback | None => fallback end.

Definition percent (value : option string) (fallback : number) : number :=
  match finite value with Some x => math_min 100 (math_max 0 x) | None => fallback end.

(** The first value that is not blank. *)
Fixpoint first (env : Environment) (names : list string) : option string :=
  match names with
  | [] => None
  | name :: names' =>
      match env name with
      | Some v => if str_truthy (trim v) then Some v else first env names'
      | None => first env names'
      end
  end.

(** ** The configuration *)

Definition paperSubmitConfiguration (process_runtime : bool) (env : Environment) : PaperSubmitConfiguration :=
  let equityMaxNotionalPerOrder :=
    positive (if process_runtime
              then first env ["PAPER_EQUITY_MAX_NOTIONAL_PER_ORDER"; "PAPER_PLAN_MAX_POSITION_NOTIONAL"]%string
              else env "PAPER_EQUITY_MAX_NOTIONAL_PER_ORDER"%string) 5000 in
  let orderNotional := first env ["PAPER_OPTION_MAX_ORDER_NOTIONAL"; "PAPER_OPTIONS_MAX_PREMIUM_PER_ORDER"]%string in
  let contracts := first env ["PAPER_OPTION_MAX_CONTRACTS"; "PAPER_OPTIONS_MAX_CONTRACTS"]%string in
  let daily name fallback :=
    if process_runtime then nonNegativeInteger (env name) fallback
    else math_max 1 (positiveInteger (env name) fallback) in
  let amount name fallback :=
    if process_runtime then nonNegative (env name) fallback else positive (env name) fallback in
  {| psc_environment := to_lower (trim (env_or env "ALPACA_ENV" "paper"));
     psc_tradingMode := to_lower (trim (env_or env "TRADING_MODE" "paper"));
     psc_liveTradingEnabled := parseBoolean (env "ALPACA_LIVE_TRADE"%string) || parseBoolean (env "LIVE_TRADING_ENABLED"%string);
     psc_paperOrderExecutionEnabled := parseBoolean (env "PAPER_ORDER_EXECUTION_ENABLED"%string);
     psc_paperOptionsExecutionEnabled := parseBoolean (env "PAPER_OPTIONS_EXECUTION_ENABLED"%string);
     psc_maxPositionNotional :=
       if process_runtime then equityMaxNotionalPerOrder
       else positive (first env ["PAPER_PLAN_MAX_POSITION_NOTIONAL"; "PAPER_EQUITY_MAX_NOTIONAL_PER_ORDER"]%string) 5000;
     psc_maxTotalPlanNotional :=
       if process_runtime then positiveInteger (env "PAPER_PLAN_MAX_TOTAL_PLAN_NOTIONAL"%string) 50000
       else positive (env "PAPER_PLAN_MAX_TOTAL_PLAN_NOTIONAL"%string) 50000;
     psc_equityMaxNotionalPerOrder := equityMaxNotionalPerOrder;
     psc_equityMaxPortfolioDeployPct := percent (env "PAPER_EQUITY_MAX_PORTFOLIO_DEPLOY_PCT"%string) 50;
     psc_equityMaxPositionPct := percent (env "PAPER_EQUITY_MAX_POSITION_PCT"%string) 10;
     psc_equityMinCashReservePct :=
       percent (first env ["PAPER_EQUITY_MIN_CASH_RESERVE_PCT"; "PAPER_PLAN_MIN_BUYING_POWER_RESERVE_PCT"]%string) 20;
     psc_optionMaxOrderNotional :=
       if process_runtime then nonNegative orderNotional 1500 else positive orderNotional 1500;
     psc_optionMaxContracts :=
       math_max 1 (if process_runtime then nonNegativeInteger contracts 1 else positiveInteger contracts 1);
     psc_optionMaxPortfolioRiskPct := percent (env "PAPER_OPTIONS_MAX_PORTFOLIO_RISK_PCT"%string) 20;
     psc_optionMaxPositionRiskPct := percent (env "PAPER_OPTIONS_MAX_POSITION_RISK_PCT"%string) 5;
     psc_quoteMaxAgeSeconds := positive (env "PAPER_SUBMIT_QUOTE_MAX_AGE_SECONDS"%string) 1800;
     psc_maxPriceDriftPct := percent (env "PAPER_SUBMIT_MAX_PRICE_DRIFT_PCT"%string) 10;
     psc_zeroDteMaxTradesPerDay := daily "ZERO_DTE_MAX_TRADES_PER_DAY"%string 3%float;
     psc_zeroDteMaxDailyPremium := amount "ZERO_DTE_MAX_DAILY_PREMIUM"%string 750%float;
     psc_zeroDteMaxDailyRealizedLoss := amount "ZERO_DTE_MAX_DAILY_REALIZED_LOSS"%string 250%float;
     psc_zeroDteMaxOpenPositions := daily "ZERO_DTE_MAX_OPEN_POSITIONS"%string 3%float |}.

(** ** What the limits are *)

(** A finite number between the bounds. *)
Definition between (lo hi x : number) : Prop :=
  (lo <=? x)%float = true ∧ (x <=? hi)%float = true ∧ num_is_finite x = true.
Definition at_least (lo x : number) : Prop := (lo <=? x)%float = true ∧ num_is_finite x = true.

Lemma finite_Some value x : finite value = Some x → num_is_finite x = true.
Proof.
  unfold finite. destruct value as [v|]; [|done]. destruct (v =? "")%string; [done|].
  destruct (num_is_finite (num_of_text v)) eqn:E; [|done]. by intros [= <-].
Qed.

Lemma finite_val x : num_is_finite x = true → ∃ a, num_val x = Some a ∧ - sf_inf < a < sf_inf.
Proof.
  rewrite num_is_finite_val. destruct (num_val x) as [a|]; [|done]. intros [H1%Z.ltb_lt H2%Z.ltb_lt]%andb_true_iff.
  by exists a.
Qed.

Lemma finite_of_val x a : num_val x = Some a → - sf_inf < a < sf_inf → num_is_finite x = true.
Proof. intros Hx [H1 H2]. rewrite num_is_finite_val, Hx. by apply andb_true_iff; split; apply Z.ltb_lt. Qed.

(** A number between zero and a finite number, by their values. *)
Lemma at_least_val lo x l a : num_val lo = Some l → num_val x = Some a → 0 <= l → l <= a < sf_inf → at_least lo x.
Proof.
  intros Hl Hx ? [? ?]. split; [|apply (finite_of_val x a); [done|pose proof sf_inf_pos; lia]].
  rewrite num_leb_val, Hl, Hx. cbn. by apply Z.leb_le.
Qed.

Lemma zero_val : num_val 0%float = Some 0.
Proof. by vm_compute. Qed.
Lemma one_val : num_val 1%float = Some (2 ^ 1074).
Proof. by vm_compute. Qed.
Lemma hundred_val : num_val 100%float = Some (100 * 2 ^ 1074).
Proof. by vm_compute. Qed.

Lemma whole_bounds a : 0 <= a < sf_inf → 0 <= a / 2 ^ 1074 * 2 ^ 1074 < sf_inf.
Proof.
  intros [H1 H2]. pose proof (pow2_pos 1074 ltac:(lia)). pose proof (Z.mul_div_le a (2 ^ 1074)).
  pose proof (Z.div_pos a (2 ^ 1074)). nia.
Qed.

Lemma floor_at_least_zero x : at_least 0 x → at_least 0 (math_floor x).
Proof.
  intros [Hle Hf]. apply finite_val in Hf as (a & Hx & _ & Hlt). rewrite num_leb_val, zero_val, Hx in Hle. cbn in Hle.
  apply Z.leb_le in Hle. pose proof (whole_bounds a (conj Hle Hlt)).
  by apply (at_least_val _ _ 0 (a / 2 ^ 1074 * 2 ^ 1074)); [apply zero_val|apply math_floor_val| |].
Qed.

Lemma percent_between value fallback : between 0 100 fallback → between 0 100 (percent value fallback).
Proof.
  intros Hfb. unfold percent. destruct (finite value) as [x|] eqn:E; [|done].
  apply finite_Some, finite_val in E as (a & Hx & _).
  assert (num_val (math_min 100 (math_max 0 x)) = Some (Z.min (100 * 2 ^ 1074) (Z.max 0 a))) as Hv.
  { apply math_min_val; [apply hundred_val|]. apply math_max_val; [apply zero_val|done]. }
  assert (100 * 2 ^ 1074 < sf_inf) by by vm_compute.
  split_and!; [| |apply (finite_of_val _ _ Hv); pose proof (pow2_pos 1074 ltac:(lia)); pose proof sf_inf_pos; lia].
  - rewrite num_leb_val, zero_val, Hv. cbn. apply Z.leb_le. pose proof (pow2_pos 1074 ltac:(lia)). lia.
  - rewrite num_leb_val, hundred_val, Hv. cbn. apply Z.leb_le. lia.
Qed.

Lemma positive_above value fallback :
  (0 <? fallback)%float = true → num_is_finite fallback = true →
  (0 <? positive value fallback)%float = true ∧ num_is_finite (positive value fallback) = true.
Proof.
  intros H1 H2. unfold positive. destruct (finite value) as [x|] eqn:E; [|done]. apply finite_Some in E.
  destruct (0 <? x)%float eqn:Ex; done.
Qed.

Lemma above_at_least x : (0 <? x)%float = true → num_is_finite x = true → at_least 0 x.
Proof.
  intros H1 H2. split; [|done]. revert H1. rewrite num_ltb_val, num_leb_val. destruct (num_val _), (num_val x); try done.
  cbn. rewrite Z.ltb_lt, Z.leb_le. lia.
Qed.

Lemma nonNegative_at_least value fallback : at_least 0 fallback → at_least 0 (nonNegative value fallback).
Proof.
  intros H. unfold nonNegative. destruct (finite value) as [x|] eqn:E; [|done]. apply finite_Some in E.
  by destruct (0 <=? x)%float eqn:Ex.
Qed.

Lemma positiveInteger_at_least value fallback : at_least 0 fallback → at_least 0 (positiveInteger value fallback).
Proof.
  intros H. unfold positiveInteger. destruct (finite value) as [x|] eqn:E; [|done]. apply finite_Some in E.
  destruct (0 <? x)%float eqn:Ex; [|done]. by apply floor_at_least_zero, above_at_least.
Qed.

Lemma nonNegativeInteger_at_least value fallback : at_least 0 fallback → at_least 0 (nonNegativeInteger value fallback).
Proof.
  intros H. unfold nonNegativeInteger. destruct (finite value) as [x|] eqn:E; [|done]. apply finite_Some in E.
  destruct (0 <=? x)%float eqn:Ex; [|done]. by apply floor_at_least_zero.
Qed.

Lemma max_one_at_least x : at_least 0 x → at_least 1 (math_max 1 x).
Proof.
  intros [_ Hf]. apply finite_val in Hf as (a & Hx & _ & Hlt). assert (2 ^ 1074 < sf_inf) by by vm_compute.
  pose proof (pow2_pos 1074 ltac:(lia)).
  apply (at_least_val _ _ (2 ^ 1074) (Z.max (2 ^ 1074) a)); [apply one_val|apply math_max_val; [apply one_val|done]|lia|lia].
Qed.

(** The limits are numbers of the kind the code computes with. *)
Record limits_ok (c : PaperSubmitConfiguration) : Prop := {
  lk_percentages : Forall (between 0 100) [psc_equityMaxPortfolioDeployPct c; psc_equityMaxPositionPct c;
    psc_equityMinCashReservePct c; psc_optionMaxPortfolioRiskPct c; psc_optionMaxPositionRiskPct c; psc_maxPriceDriftPct c];
  lk_positive : Forall (λ x, (0 <? x)%float = true ∧ num_is_finite x = true)
    [psc_maxPositionNotional c; psc_equityMaxNotionalPerOrder c; psc_quoteMaxAgeSeconds c];
  lk_amounts : Forall (at_least 0) [psc_maxTotalPlanNotional c; psc_optionMaxOrderNotional c; psc_zeroDteMaxTradesPerDay c;
    psc_zeroDteMaxDailyPremium c; psc_zeroDteMaxDailyRealizedLoss c; psc_zeroDteMaxOpenPositions c];
  lk_contracts : at_least 1 (psc_optionMaxContracts c)
}.

Lemma at_least_weaken x : at_least 1 x → at_least 0 x.
Proof. intros [H Hf]. split; [by apply (num_leb_trans 0 1 x)|done]. Qed.

(** The limits of paper orders are well-formed in every environment.  Whatever
    the variables are set to (nothing, text, NaN, infinities, negative numbers),
    every percentage is a finite number between 0 and 100, the notional limit of
    an order and the age of a quote are finite and positive, every other limit is
    finite and not negative, and at least one contract is allowed. *)
Theorem submit_limits_well_formed process_runtime env :
  limits_ok (paperSubmitConfiguration process_runtime env).
Proof.
  split; cbn.
  - repeat constructor; apply percent_between; by vm_compute.
  - destruct process_runtime; repeat (constructor; [by apply positive_above|]); constructor.
  - destruct process_runtime; repeat (constructor;
      [first [by apply positiveInteger_at_least | by apply nonNegative_at_least | by apply nonNegativeInteger_at_least
             |by apply at_least_weaken, max_one_at_least, positiveInteger_at_least
             |by apply above_at_least; apply positive_above]|]); constructor.
  - apply max_one_at_least. destruct process_runtime; [by apply nonNegativeInteger_at_least|by apply positiveInteger_at_least].
Qed.
