(* ===== verification/BrokerSnapshot.v ===== *)
(** The state of the broker account as the runtime sees it:
    src/services/postgresAuthorityBrokerSnapshot.ts and the reads it makes,
    alpacaAccountService.ts, alpacaPositionService.ts and alpacaOrderReadService.ts.

    An answer of the broker is a JSON document; [localeCompare] and the digest are
    parameters as in CanonicalJson.v. *)

From Stdlib Require Import Floats.
From S2P Require Import Prelude.
From S2P Require Import JsString.
From S2P Require Import JsNumber.
From S2P Require Import JsText.
From S2P Require Import JsJson.
From S2P Require Import CanonicalJson.
From S2P Require Import ExecutionTables.
From S2P Require Import Submission.
From S2P Require Import SubmitConfiguration.
Open Scope Z_scope.

(** ** Rows of the answers *)

Record AlpacaAccountSnapshot := {
  as_id : option jvalue;
  as_status : option jvalue;
  as_currency : option jvalue;
  as_cash : option jvalue;
  as_equity : option jvalue;
  as_buyingPower : option jvalue;
  as_optionsBuyingPower : option jvalue;
  as_optionsApprovedLevel : option jvalue;
  as_tradingBlocked : option jvalue;
  as_accountBlocked : option jvalue
}.

(** The fields the runtime uses. *)
Definition mapAccount (row : list (string * jvalue)) : AlpacaAccountSnapshot :=
  {| as_id := field row "id"; as_status := field row "status"; as_currency := field row "currency";
     as_cash := field row "cash"; as_equity := field row "equity"; as_buyingPower := field row "buying_power";
     as_optionsBuyingPower := field row "options_buying_power";
     as_optionsApprovedLevel := field row "options_approved_level";
     as_tradingBlocked := field row "trading_blocked"; as_accountBlocked := field row "account_blocked" |}.

(** [String(value || EMPTY)] *)
Definition or_empty (v : option jvalue) : string :=
  if js_truthy v then match v with Some x => js_string x | None => EmptyString end else EmptyString.

Record AlpacaPositionSnapshot := {
  ps_symbol : string;
  ps_assetClass : option jvalue;
  ps_qty : option jvalue;
  ps_qtyAvailable : option jvalue;
  ps_averageEntryPrice : option jvalue;
  ps_marketValue : option jvalue;
  ps_costBasis : option jvalue;
  ps_unrealizedPl : option jvalue;
  ps_currentPrice : option jvalue
}.

Definition mapPosition (row : list (string * jvalue)) : AlpacaPositionSnapshot :=
  {| ps_symbol := or_empty (field row "symbol"); ps_assetClass := field row "asset_class"; ps_qty := field row "qty";
     ps_qtyAvailable := field row "qty_available"; ps_averageEntryPrice := field row "avg_entry_price";
     ps_marketValue := field row "market_value"; ps_costBasis := field row "cost_basis";
     ps_unrealizedPl := field row "unrealized_pl"; ps_currentPrice := field row "current_price" |}.

Record AlpacaOpenOrderSnapshot := {
  oo_id : string;
  oo_clientOrderId : option jvalue;
  oo_symbol : string;
  oo_assetClass : option jvalue;
  oo_qty : option jvalue;
  oo_notional : option jvalue;
  oo_limitPrice : option jvalue;
  oo_side : option jvalue;
  oo_type : option jvalue;
  oo_timeInForce : option jvalue;
  oo_status : option jvalue;
  oo_positionIntent : option jvalue
}.

Definition mapOrder (row : list (string * jvalue)) : AlpacaOpenOrderSnapshot :=
  {| oo_id := or_empty (field row "id"); oo_clientOrderId := field row "client_order_id";
     oo_symbol := or_empty (field row "symbol"); oo_assetClass := field row "asset_class"; oo_qty := field row "qty";
     oo_notional := field row "notional"; oo_limitPrice := field row "limit_price"; oo_side := field row "side";
     oo_type := field row "type"; oo_timeInForce := field row "time_in_force"; oo_status := field row "status";
     oo_positionIntent := field row "position_intent" |}.

(** The rows of an array; what is not an object has no fields. *)
Definition entries_of (v : jvalue) : list (string * jvalue) := match v with JObj l => l | _ => [] end.

(** [listAlpacaPositions] refuses what is not an array, [listAlpacaOpenOrders]
    takes it for the empty one. *)
Definition listAlpacaPositions (answer : jvalue) : res (list AlpacaPositionSnapshot) :=
  match answer with
  | JArr rows => Ret (map (λ v, mapPosition (entries_of v)) rows)
  | _ => Throw "BROKER_POSITION_RESPONSE_INVALID"
  end.

Definition listAlpacaOpenOrders (answer : jvalue) : list AlpacaOpenOrderSnapshot :=
  match answer with JArr rows => map (λ v, mapOrder (entries_of v)) rows | _ => [] end.

(** ** Normalised rows *)

Record AuthorityBrokerPosition := {
  bp_brokerPositionKey : string;
  bp_symbol : string;
  bp_underlyingSymbol : option string;
  bp_optionSymbol : option string;
  bp_assetClass : ExecutionAssetClass;
  bp_side : PositionSide;
  bp_quantity : number;
  bp_availableQuantity : number;
  bp_averageEntryPrice : number;
  bp_currentPrice : number;
  bp_marketValue : number;
  bp_costBasis : number;
  bp_unrealizedPnl : number
}.

Record AuthorityBrokerOrder := {
  bo_brokerOrderId : string;
  bo_clientOrderId : string;
  bo_symbol : string;
  bo_assetClass : ExecutionAssetClass;
  bo_side : string;
  bo_orderType : string;
  bo_timeInForce : string;
  bo_status : string;
  bo_quantity : option number;
  bo_notional : option number;
  bo_limitPrice : option number
}.

Record AuthorityBrokerAccount := {
  ba_status : string;
  ba_currency : string;
  ba_cash : number;
  ba_equity : number;
  ba_buyingPower : number;
  ba_optionsBuyingPower : number;
  ba_optionsApprovalLevel : number;
  ba_tradingBlocked : bool;
  ba_accountBlocked : bool
}.

(** [String(value ?? EMPTY).trim()] *)
Definition value_text (v : option jvalue) : string :=
  match v with None | Some JNull => EmptyString | Some x => trim (js_string x) end.

Definition requiredText (v : option jvalue) (code : string) : res string :=
  if str_truthy (value_text v) then Ret (value_text v) else Throw code.

Definition requiredNumber (v : option jvalue) (code : string) : res number :=
  if num_is_finite (js_number v) then Ret (js_number v) else Throw code.

Definition optionalNumber (v : option jvalue) (code : string) : res (option number) :=
  match v with
  | None | Some JNull => Ret None
  | Some (JStr s) => if (s =? "")%string then Ret None else x ← requiredNumber v code; mret (Some x)
  | Some _ => x ← requiredNumber v code; mret (Some x)
  end.

(** [/\d{6}[CP]\d{8}$/] *)
Definition occ_suffix (s : string) : bool :=
  string_forall is_digit (str_take 6 s) && string_forall is_digit (str_drop 7 s)
  && (String.length s =? 15)%nat
  && match str_drop 6 s with String c _ => (c =? "C")%char || (c =? "P")%char | EmptyString => false end.
Definition ends_as_option (symbol : string) : bool := occ_suffix (str_drop (String.length symbol - 15)%nat symbol).

Definition assetClass (v : option jvalue) (symbol : string) : ExecutionAssetClass :=
  let text := match v with None | Some JNull => EmptyString | Some x => js_string x end in
  if includes_any ["option"]%string (to_lower text) || ends_as_option symbol then option_contract else equity.

(** [/^([A-Z.]+)\d{6}[CP]\d{8}$/] *)
Definition optionUnderlying (symbol : string) : option string :=
  let root := str_take (String.length symbol - 15)%nat symbol in
  if ends_as_option symbol && str_truthy root && string_forall (λ c, is_upper c || (c =? ".")%char) root
  then Some root else None.

Fixpoint map_res {A B} (f : A → res B) (l : list A) : res (list B) :=
  match l with
  | [] => Ret []
  | x :: l' => y ← f x; ys ← map_res f l'; mret (y :: ys)
  end.

Definition read_account (a : AlpacaAccountSnapshot) : res AuthorityBrokerAccount :=
  status ← requiredText (as_status a) "CURRENT_PAPER_ACCOUNT_STATUS_MISSING";
  currency ← requiredText (as_currency a) "CURRENT_PAPER_ACCOUNT_CURRENCY_MISSING";
  cash ← requiredNumber (as_cash a) "CURRENT_PAPER_ACCOUNT_CASH_MISSING";
  equity ← requiredNumber (as_equity a) "CURRENT_PAPER_ACCOUNT_EQUITY_MISSING";
  power ← requiredNumber (as_buyingPower a) "CURRENT_PAPER_ACCOUNT_BUYING_POWER_MISSING";
  options ← requiredNumber (as_optionsBuyingPower a) "CURRENT_PAPER_ACCOUNT_OPTIONS_BUYING_POWER_MISSING";
  level ← requiredNumber (as_optionsApprovedLevel a) "CURRENT_PAPER_ACCOUNT_OPTIONS_LEVEL_MISSING";
  mret {| ba_status := status; ba_currency := currency; ba_cash := cash; ba_equity := equity; ba_buyingPower := power;
          ba_optionsBuyingPower := options; ba_optionsApprovalLevel := level;
          ba_tradingBlocked := js_truthy (as_tradingBlocked a); ba_accountBlocked := js_truthy (as_accountBlocked a) |}.

Definition text_value (s : string) : option jvalue := Some (JStr s).

Definition read_position (raw : AlpacaPositionSnapshot) : res AuthorityBrokerPosition :=
  text ← requiredText (text_value (ps_symbol raw)) "CURRENT_BROKER_POSITION_SYMBOL_MISSING";
  let symbol := to_upper text in
  let kind := assetClass (ps_assetClass raw) symbol in
  let is_option := bool_decide (kind = option_contract) in
  quantity ← requiredNumber (ps_qty raw) "CURRENT_BROKER_POSITION_QUANTITY_MISSING";
  let underlying := if is_option then optionUnderlying symbol else None in
  if match underlying with None => is_option | Some _ => false end then Throw "CURRENT_BROKER_OPTION_IDENTITY_INVALID"
  else
  available ← requiredNumber (ps_qtyAvailable raw) "CURRENT_BROKER_POSITION_AVAILABLE_QUANTITY_MISSING";
  average ← requiredNumber (ps_averageEntryPrice raw) "CURRENT_BROKER_POSITION_AVERAGE_ENTRY_MISSING";
  price ← requiredNumber (ps_currentPrice raw) "CURRENT_BROKER_POSITION_PRICE_MISSING";
  value ← requiredNumber (ps_marketValue raw) "CURRENT_BROKER_POSITION_VALUE_MISSING";
  cost ← requiredNumber (ps_costBasis raw) "CURRENT_BROKER_POSITION_COST_BASIS_MISSING";
  pnl ← requiredNumber (ps_unrealizedPl raw) "CURRENT_BROKER_POSITION_UNREALIZED_PNL_MISSING";
  mret {| bp_brokerPositionKey := (asset_class_name kind ++ ":" ++ symbol)%string;
          bp_symbol := default symbol underlying; bp_underlyingSymbol := underlying;
          bp_optionSymbol := if is_option then Some symbol else None; bp_assetClass := kind;
          bp_side := if (quantity <? 0)%float then PositionShort else PositionLong; bp_quantity := abs quantity;
          bp_availableQuantity := abs available; bp_averageEntryPrice := average; bp_currentPrice := price;
          bp_marketValue := value; bp_costBasis := cost; bp_unrealizedPnl := pnl |}.

Definition read_order (raw : AlpacaOpenOrderSnapshot) : res AuthorityBrokerOrder :=
  text ← requiredText (text_value (oo_symbol raw)) "CURRENT_BROKER_ORDER_SYMBOL_MISSING";
  let symbol := to_upper text in
  id ← requiredText (text_value (oo_id raw)) "CURRENT_BROKER_ORDER_ID_MISSING";
  client ← requiredText (oo_clientOrderId raw) "CURRENT_BROKER_CLIENT_ORDER_ID_MISSING";
  side ← requiredText (js_or (oo_positionIntent raw) (oo_side raw)) "CURRENT_BROKER_ORDER_SIDE_MISSING";
  type ← requiredText (oo_type raw) "CURRENT_BROKER_ORDER_TYPE_MISSING";
  force ← requiredText (oo_timeInForce raw) "CURRENT_BROKER_ORDER_TIME_IN_FORCE_MISSING";
  status ← requiredText (oo_status raw) "CURRENT_BROKER_ORDER_STATUS_MISSING";
  quantity ← optionalNumber (oo_qty raw) "CURRENT_BROKER_ORDER_QUANTITY_INVALID";
  notional ← optionalNumber (oo_notional raw) "CURRENT_BROKER_ORDER_NOTIONAL_INVALID";
  price ← optionalNumber (oo_limitPrice raw) "CURRENT_BROKER_ORDER_LIMIT_PRICE_INVALID";
  mret {| bo_brokerOrderId := id; bo_clientOrderId := client; bo_symbol := symbol;
          bo_assetClass := assetClass (oo_assetClass raw) symbol; bo_side := to_lower side;
          bo_orderType := to_lower type; bo_timeInForce := to_lower force; bo_status := to_lower status;
          bo_quantity := quantity; bo_notional := notional; bo_limitPrice := price |}.

(** ** Fingerprints *)

Definition jnum (x : number) : jvalue := JNum (num_text x).
Definition jnum_opt (x : option number) : jvalue := match x with Some x => jnum x | None => JNull end.
Definition jstr_opt (x : option string) : jvalue := match x with Some x => JStr x | None => JNull end.
Definition position_side_name (s : PositionSide) : string :=
  match s with PositionLong => "long" | PositionShort => "short" end.

Definition order_document (o : AuthorityBrokerOrder) : jvalue :=
  JObj [("brokerOrderId", JStr (bo_brokerOrderId o)); ("clientOrderId", JStr (bo_clientOrderId o));
        ("symbol", JStr (bo_symbol o)); ("assetClass", JStr (asset_class_name (bo_assetClass o)));
        ("side", JStr (bo_side o)); ("orderType", JStr (bo_orderType o)); ("timeInForce", JStr (bo_timeInForce o));
        ("status", JStr (bo_status o)); ("quantity", jnum_opt (bo_quantity o)); ("notional", jnum_opt (bo_notional o));
        ("limitPrice", jnum_opt (bo_limitPrice o))]%string.

Definition position_document (p : AuthorityBrokerPosition) : jvalue :=
  JObj [("brokerPositionKey", JStr (bp_brokerPositionKey p)); ("symbol", JStr (bp_symbol p));
        ("underlyingSymbol", jstr_opt (bp_underlyingSymbol p)); ("optionSymbol", jstr_opt (bp_optionSymbol p));
        ("assetClass", JStr (asset_class_name (bp_assetClass p))); ("side", JStr (position_side_name (bp_side p)));
        ("quantity", jnum (bp_quantity p)); ("availableQuantity", jnum (bp_availableQuantity p));
        ("averageEntryPrice", jnum (bp_averageEntryPrice p)); ("currentPrice", jnum (bp_currentPrice p));
        ("marketValue", jnum (bp_marketValue p)); ("costBasis", jnum (bp_costBasis p));
        ("unrealizedPnl", jnum (bp_unrealizedPnl p))]%string.

Definition account_document (a : AuthorityBrokerAccount) : jvalue :=
  JObj [("status", JStr (ba_status a)); ("currency", JStr (ba_currency a)); ("cash", jnum (ba_cash a));
        ("equity", jnum (ba_equity a)); ("buyingPower", jnum (ba_buyingPower a));
        ("optionsBuyingPower", jnum (ba_optionsBuyingPower a));
        ("optionsApprovalLevel", jnum (ba_optionsApprovalLevel a)); ("tradingBlocked", JBool (ba_tradingBlocked a));
        ("accountBlocked", JBool (ba_accountBlocked a))]%string.

(** What of a position is structural. *)
Definition structural_position (p : AuthorityBrokerPosition) : jvalue :=
  JObj [("brokerPositionKey", JStr (bp_brokerPositionKey p)); ("side", JStr (position_side_name (bp_side p)));
        ("quantity", jnum (bp_quantity p)); ("availableQuantity", jnum (bp_availableQuantity p));
        ("averageEntryPrice", jnum (bp_averageEntryPrice p)); ("costBasis", jnum (bp_costBasis p))]%string.

Definition configuration_document (c : PaperSubmitConfiguration) : jvalue :=
  JObj [("environment", JStr (psc_environment c)); ("tradingMode", JStr (psc_tradingMode c));
        ("liveTradingEnabled", JBool (psc_liveTradingEnabled c));
        ("paperOrderExecutionEnabled", JBool (psc_paperOrderExecutionEnabled c));
        ("paperOptionsExecutionEnabled", JBool (psc_paperOptionsExecutionEnabled c));
        ("maxPositionNotional", jnum (psc_maxPositionNotional c));
        ("maxTotalPlanNotional", jnum (psc_maxTotalPlanNotional c));
        ("equityMaxNotionalPerOrder", jnum (psc_equityMaxNotionalPerOrder c));
        ("equityMaxPortfolioDeployPct", jnum (psc_equityMaxPortfolioDeployPct c));
        ("equityMaxPositionPct", jnum (psc_equityMaxPositionPct c));
        ("equityMinCashReservePct", jnum (psc_equityMinCashReservePct c));
        ("optionMaxOrderNotional", jnum (psc_optionMaxOrderNotional c));
        ("optionMaxContracts", jnum (psc_optionMaxContracts c));
        ("optionMaxPortfolioRiskPct", jnum (psc_optionMaxPortfolioRiskPct c));
        ("optionMaxPositionRiskPct", jnum (psc_optionMaxPositionRiskPct c));
        ("quoteMaxAgeSeconds", jnum (psc_quoteMaxAgeSeconds c)); ("maxPriceDriftPct", jnum (psc_maxPriceDriftPct c));
        ("zeroDteMaxTradesPerDay", jnum (psc_zeroDteMaxTradesPerDay c));
        ("zeroDteMaxDailyPremium", jnum (psc_zeroDteMaxDailyPremium c));
        ("zeroDteMaxDailyRealizedLoss", jnum (psc_zeroDteMaxDailyRealizedLoss c));
        ("zeroDteMaxOpenPositions", jnum (psc_zeroDteMaxOpenPositions c))]%string.

Record PostgresAuthorityBrokerSnapshot := {
  bs_capturedAt : Z;
  bs_accountIdentityHash : string;
  bs_account : AuthorityBrokerAccount;
  bs_configuration : PaperSubmitConfiguration;
  bs_configurationFingerprint : string;
  bs_positions : list AuthorityBrokerPosition;
  bs_orders : list AuthorityBrokerOrder;
  bs_structuralPortfolioFingerprint : string;
  bs_portfolioFingerprint : string
}.

Section capture.
Context (le : string → string → bool) (sha256 : string → string).

Local Abbreviation canonicalJsonHash := (CanonicalJson.canonicalJsonHash le sha256).

Definition buildStructuralPortfolioFingerprint (accountIdentityHash : string) (a : AuthorityBrokerAccount)
    (positions : list AuthorityBrokerPosition) (orders : list AuthorityBrokerOrder) : string :=
  canonicalJsonHash (JObj
    [("accountIdentityHash", JStr accountIdentityHash); ("accountStatus", JStr (ba_status a));
     ("accountCurrency", JStr (ba_currency a)); ("accountCash", jnum (ba_cash a));
     ("accountBlocked", JBool (ba_accountBlocked a)); ("tradingBlocked", JBool (ba_tradingBlocked a));
     ("optionsApprovalLevel", jnum (ba_optionsApprovalLevel a)); ("positions", JArr (map structural_position positions));
     ("openOrders", JArr (map order_document orders))]%string).

Definition position_le (a b : AuthorityBrokerPosition) : bool := le (bp_brokerPositionKey a) (bp_brokerPositionKey b).
Definition order_le (a b : AuthorityBrokerOrder) : bool := le (bo_brokerOrderId a) (bo_brokerOrderId b).

Definition portfolio_document (hash : string) (a : AuthorityBrokerAccount) (positions : list AuthorityBrokerPosition)
    (orders : list AuthorityBrokerOrder) : jvalue :=
  JObj [("accountIdentityHash", JStr hash); ("account", account_document a);
        ("positions", JArr (map position_document positions)); ("openOrders", JArr (map order_document orders))]%string.

Definition paper_runtime (c : PaperSubmitConfiguration) : bool :=
  (psc_environment c =? "paper")%string && (psc_tradingMode c =? "paper")%string && negb (psc_liveTradingEnabled c).

(** [capturePostgresAuthorityBrokerSnapshot] on the three answers of the broker. *)
Definition capturePostgresAuthorityBrokerSnapshot (configuration : PaperSubmitConfiguration) (capturedAt : Z)
    (accountAnswer positionsAnswer ordersAnswer : jvalue) : res PostgresAuthorityBrokerSnapshot :=
  if negb (paper_runtime configuration) then Throw "PAPER_RUNTIME_REQUIRED"
  else
  let accountResult := mapAccount (entries_of accountAnswer) in
  positionResult ← listAlpacaPositions positionsAnswer;
  accountId ← requiredText (as_id accountResult) "CURRENT_PAPER_ACCOUNT_ID_MISSING";
  account ← read_account accountResult;
  if ba_tradingBlocked account || ba_accountBlocked account then Throw "CURRENT_PAPER_ACCOUNT_BLOCKED"
  else
  positions ← map_res read_position positionResult;
  orders ← map_res read_order (listAlpacaOpenOrders ordersAnswer);
  let positions := sort_by position_le positions in
  let orders := sort_by order_le orders in
  let hash := canonicalJsonHash (JObj [("accountId", JStr accountId)]%string) in
  mret {| bs_capturedAt := capturedAt; bs_accountIdentityHash := hash; bs_account := account;
          bs_configuration := configuration;
          bs_configurationFingerprint := canonicalJsonHash (configuration_document configuration);
          bs_positions := positions; bs_orders := orders;
          bs_structuralPortfolioFingerprint := buildStructuralPortfolioFingerprint hash account positions orders;
          bs_portfolioFingerprint := canonicalJsonHash (portfolio_document hash account positions orders) |}.

(** ** What the structural fingerprint depends on *)

Lemma map_sort_by {A B} (f : A → B) (leA : A → A → bool) (leB : B → B → bool) l :
  (∀ x y, leA x y = leB (f x) (f y)) → map f (sort_by leA l) = sort_by leB (map f l).
Proof.
  intros H. unfold sort_by. induction l as [|x l IH]; [done|]. cbn [foldr map]. rewrite <- IH. clear IH.
  induction (foldr (insert_by leA) [] l) as [|y m IHm]; [done|]. cbn. rewrite H. by destruct (leB (f x) (f y)); [|rewrite <- IHm].
Qed.

(** The key of a document: its first field. *)
Definition document_key (v : jvalue) : string := match v with JObj ((_, JStr k) :: _) => k | _ => EmptyString end.
Definition keyed (v : jvalue) : string * jvalue := (document_key v, v).

Context (K : string → Prop).
Context (le_total : ∀ x y, le x y = true ∨ le y x = true).
Context (le_trans : ∀ x y z, le x y = true → le y z = true → le x z = true).
Context (le_antisym : ∀ x y, K x → K y → le x y = true → le y x = true → x = y).

Lemma sorted_documents {A} (f : A → jvalue) l m :
  map f l ≡ₚ map f m → NoDup (map document_key (map f l)) → Forall K (map document_key (map f l)) →
  let before a b := le (document_key (f a)) (document_key (f b)) in
  map f (sort_by before l) = map f (sort_by before m).
Proof using le_total le_trans le_antisym.
  intros Hp Hd HK before.
  assert (∀ l, map f (sort_by before l) = map snd (sort_by (entry_le le) (map keyed (map f l)))) as E.
  { intros l'. rewrite map_map, <- (map_sort_by (λ x, keyed (f x)) before) by done. by rewrite map_map. }
  rewrite !E. f_equal. apply (sort_entries_unique le K); [done..| | |by rewrite Hp];
    by rewrite map_map.
Qed.

(** What of the account is structural. *)
Definition structural_account (s : PostgresAuthorityBrokerSnapshot) :=
  let a := bs_account s in
  (bs_accountIdentityHash s, ba_status a, ba_currency a, num_text (ba_cash a), ba_accountBlocked a, ba_tradingBlocked a,
   num_text (ba_optionsApprovalLevel a)).

(** What of a position does not change with the market. *)
Definition position_structure (p : AuthorityBrokerPosition) : string * PositionSide * number * number * number * number :=
  (bp_brokerPositionKey p, bp_side p, bp_quantity p, bp_availableQuantity p, bp_averageEntryPrice p, bp_costBasis p).

(** Captures that list the same structure, in any order and at any prices: nothing is
    said about equity and buying power, and of the positions nothing about the current
    price, the market value and the result. *)
Record same_structure (s s' : PostgresAuthorityBrokerSnapshot) : Prop := {
  ss_account : structural_account s = structural_account s';
  ss_positions : map position_structure (bs_positions s) ≡ₚ map position_structure (bs_positions s');
  ss_orders : bs_orders s ≡ₚ bs_orders s'
}.

(** Positions of the same structure have the same documents. *)
Lemma structural_positions l m :
  map position_structure l ≡ₚ map position_structure m → map structural_position l ≡ₚ map structural_position m.
Proof using Type.
  intros H. pose (document := λ t : string * PositionSide * number * number * number * number,
    let '(key, side, quantity, available, average, cost) := t in
    JObj [("brokerPositionKey", JStr key); ("side", JStr (position_side_name side)); ("quantity", jnum quantity);
          ("availableQuantity", jnum available); ("averageEntryPrice", jnum average); ("costBasis", jnum cost)]%string).
  assert (E : ∀ k, map structural_position k = map document (map position_structure k)).
  { intros k. rewrite map_map. by apply map_ext. }
  rewrite !E. by apply Permutation_map.
Qed.

Definition distinct (keys : list string) : Prop := NoDup keys ∧ Forall K keys.

Lemma capture_parts c t a p o s :
  capturePostgresAuthorityBrokerSnapshot c t a p o = Ret s →
  ∃ ps os, bs_positions s = sort_by position_le ps ∧ bs_orders s = sort_by order_le os ∧
    bs_structuralPortfolioFingerprint s =
      buildStructuralPortfolioFingerprint (bs_accountIdentityHash s) (bs_account s) (bs_positions s) (bs_orders s).
Proof using Type.
  unfold capturePostgresAuthorityBrokerSnapshot. case_match; [done|]. unfold mbind, res_bind. intros Hs.
  repeat case_match; try done. injection Hs as <-. cbn. eauto.
Qed.

Lemma position_keys l : map document_key (map structural_position l) = map bp_brokerPositionKey l.
Proof using Type. rewrite map_map. by apply map_ext. Qed.
Lemma order_keys l : map document_key (map order_document l) = map bo_brokerOrderId l.
Proof using Type. rewrite map_map. by apply map_ext. Qed.

(** C36: The structural fingerprint, which ties a review to the account it was made
    for, depends on the structure only.  Two captures of one account that agree in
    status, currency, cash, blocks and options level, whose positions agree in key,
    side, quantity, available quantity, entry price and cost, and whose open orders
    are the same, have the same structural fingerprint, whatever equity, buying power,
    current prices, market values and results did in between and in whatever order
    the broker listed positions and orders. *)
Theorem structural_fingerprint_ignores_prices c t a p o s c' t' a' p' o' s' :
  capturePostgresAuthorityBrokerSnapshot c t a p o = Ret s →
  capturePostgresAuthorityBrokerSnapshot c' t' a' p' o' = Ret s' →
  same_structure s s' →
  distinct (map bp_brokerPositionKey (bs_positions s)) → distinct (map bo_brokerOrderId (bs_orders s)) →
  bs_structuralPortfolioFingerprint s = bs_structuralPortfolioFingerprint s'.
Proof using le_total le_trans le_antisym.
  intros (ps & os & Hps & Hos & ->)%capture_parts (ps' & os' & Hps' & Hos' & ->)%capture_parts [Ha Hp Ho] [Dp Kp] [Do Ko].
  apply structural_positions in Hp. apply (Permutation_map order_document) in Ho.
  rewrite Hps, Hps', !sort_by_perm in Hp. rewrite Hos, Hos', !sort_by_perm in Ho.
  rewrite Hps, sort_by_perm in Dp, Kp. rewrite Hos, sort_by_perm in Do, Ko.
  assert (map structural_position (bs_positions s) = map structural_position (bs_positions s')) as Ep.
  { rewrite Hps, Hps'. by apply (sorted_documents structural_position ps ps' Hp); rewrite position_keys. }
  assert (map order_document (bs_orders s) = map order_document (bs_orders s')) as Eo.
  { rewrite Hos, Hos'. by apply (sorted_documents order_document os os' Ho); rewrite order_keys. }
  unfold structural_account in Ha. rewrite !pair_equal_spec in Ha. destruct Ha as [[[[[[E1 E2] E3] E4] E5] E6] E7].
  unfold buildStructuralPortfolioFingerprint, jnum. by rewrite E1, E2, E3, E4, E5, E6, E7, Ep, Eo.
Qed.
End capture.

(** ** One account twice, the second time at other prices *)

Section witness.
Open Scope string_scope.

Definition demo_account_answer (equity power : string) : jvalue :=
  JObj [("id", JStr "a1"); ("status", JStr "ACTIVE"); ("currency", JStr "USD"); ("cash", JStr "5000");
        ("equity", JStr equity); ("buying_power", JStr power); ("options_buying_power", JStr power);
        ("options_approved_level", JNum "2"); ("trading_blocked", JBool false); ("account_blocked", JBool false)].

Definition demo_position_row (symbol qty price value pnl : string) : jvalue :=
  JObj [("symbol", JStr symbol); ("asset_class", JStr "us_equity"); ("qty", JStr qty); ("qty_available", JStr qty);
        ("avg_entry_price", JStr "300.5"); ("market_value", JStr value); ("cost_basis", JStr "601");
        ("unrealized_pl", JStr pnl); ("current_price", JStr price)].

Definition demo_capture (account positions : jvalue) (t : Z) : res PostgresAuthorityBrokerSnapshot :=
  capturePostgresAuthorityBrokerSnapshot String.leb (λ s, s) (paperSubmitConfiguration true (λ _, None)) t account positions (JArr []).

Definition morning : {s | demo_capture (demo_account_answer "6202" "5000")
  (JArr [demo_position_row "spy" "2" "301" "602" "1"; demo_position_row "AAPL" "-2" "299" "-598" "3"]) 100 = Ret s}.
Proof. eexists. vm_compute. reflexivity. Defined.

Definition noon : {s | demo_capture (demo_account_answer "6190.5" "4990")
  (JArr [demo_position_row "AAPL" "-2" "305" "-610" "-9"; demo_position_row "SPY" "2" "296.25" "592.5" "-8.5"]) 200 = Ret s}.
Proof. eexists. vm_compute. reflexivity. Defined.

Lemma structural_fingerprint_ignores_prices_witness :
  bs_structuralPortfolioFingerprint (proj1_sig morning) = bs_structuralPortfolioFingerprint (proj1_sig noon) ∧
  bs_portfolioFingerprint (proj1_sig morning) ≠ bs_portfolioFingerprint (proj1_sig noon).
Proof.
  assert (∀ l : list string, bool_decide (NoDup l) = true → distinct (λ _, True) l) as dec.
  { intros l Hl. split; [by apply bool_decide_eq_true_1 in Hl|]. by apply Forall_forall. }
  split; [|vm_compute; discriminate].
  refine (structural_fingerprint_ignores_prices String.leb (λ s, s) (λ _, True) _ leb_trans _ _ _ _ _ _ _ _ _ _ _ _ _
            (proj2_sig morning) (proj2_sig noon) _ (dec _ _) (dec _ _)).
  - intros x y. destruct (String.leb_total x y) as [H|H]; [by left|by right].
  - intros x y _ _. exact (String.leb_antisym x y).
  - split; vm_compute; reflexivity.
  - vm_compute. reflexivity.
  - vm_compute. reflexivity.
Defined.
End witness.
