(* ===== verification/OrderCancellation.v ===== *)
(** Cancelling paper orders: src/services/postgresOrderCancellationService.ts.

    A runner selects an order, asks the broker for it, persists the cancellation
    request, claims the one call of [cancelPaperOrder] by persisting the transition to
    cancel_ambiguous with its broker event, makes the call (one or more equal DELETEs, as AlpacaClient.v says), and then only looks
    the order up.  Every statement is one autocommitted SQL statement, executed
    at once; runners on other machines, the reconciliation and the rest of the
    program act between the statements.

    Of the tables the columns in use are kept; JSON evidence and its fingerprints
    are not.  [stableRecordId] (a SHA-256 digest) is a parameter. *)

From S2P Require Import Prelude.
From S2P Require Import JsString.
From S2P Require Import SchedulerLease.
From S2P Require Import TradeLifecycle.
From S2P Require Import Effects.
From S2P Require Import AlpacaClient.
Open Scope Z_scope.

(** ** Tables *)

Record CancelOrderRow := {
  o_id : string;
  o_order_intent_id : string;
  o_account_id : string;
  o_broker_order_id : option string;
  o_client_order_id : string;
  o_environment : string;
  o_status : string;
  o_quantity : option Q;
  o_filled_quantity : Q;
  o_submitted_at : option Z;
  o_created_at : Z
}.

(** [i_true_fields] are the fields of request_payload whose text is true. *)
Record CancelIntentRow := {
  i_id : string;
  i_asset_class : string;
  i_lifecycle_state : AutonomousTradeLifecycleState;
  i_execution_review_id : option string;
  i_candidate_id : option string;
  i_true_fields : list string;
  i_updated_at : Z;
  i_version : Z
}.

(** autonomous_trade_lifecycle_transitions, an append-only table. *)
Record TransitionRow := {
  t_id : string;
  t_order_intent_id : string;
  t_from_state : AutonomousTradeLifecycleState;
  t_to_state : AutonomousTradeLifecycleState;
  t_idempotency_key : string;
  t_occurred_at : Z
}.

Record CancelEventRow := {
  e_event_id : string;
  e_account_id : string;
  e_order_id : string;
  e_order_intent_id : string;
  e_broker_order_id : string;
  e_client_order_id : string;
  e_event_type : string;
  e_event_status : string;
  e_occurred_at : Z
}.

(** [c_now] is now() of the statement that runs next. *)
Record CancellationDb := {
  c_now : Z;
  c_leases : list SchedulerLeaseRow;
  c_orders : list CancelOrderRow;
  c_intents : list CancelIntentRow;
  c_review_expiries : list (string * Z);
  c_candidate_statuses : list (string * string);
  c_transitions : list TransitionRow;
  c_events : list CancelEventRow
}.

(** ** Statements *)

Definition db_fence (fence : SchedulerFence) (db : CancellationDb) : bool :=
  fenceSql (c_now db) fence (c_leases db).

Record CancellationTarget := {
  order_id : string;
  order_intent_id : string;
  account_id : string;
  broker_order_id : option string;
  client_order_id : string;
  asset_class : string;
  lifecycle_state : string
}.

Definition target_of (o : CancelOrderRow) (i : CancelIntentRow) : CancellationTarget :=
  {| order_id := o_id o; order_intent_id := o_order_intent_id o; account_id := o_account_id o;
     broker_order_id := o_broker_order_id o; client_order_id := o_client_order_id o;
     asset_class := i_asset_class i; lifecycle_state := state_name (i_lifecycle_state i) |}.

Definition intent_of (db : CancellationDb) (o : CancelOrderRow) : option CancelIntentRow :=
  select_one (λ i, (i_id i =? o_order_intent_id o)%string) (c_intents db).

(** An order joined with its intent. *)
Definition joined (db : CancellationDb) : list (CancelOrderRow * CancelIntentRow) :=
  flat_map (λ o, match intent_of db o with Some i => [(o, i)] | None => [] end) (c_orders db).

Definition opt_eqb (o : option string) (s : string) : bool :=
  match o with Some x => (x =? s)%string | None => false end.

Definition select_target (brokerOrderId clientOrderId : string) (fence : SchedulerFence) (db : CancellationDb)
    : option CancellationTarget :=
  let matching :=
    List.filter (λ r, let o := fst r in
      (o_environment o =? "paper")%string
      && (negb (str_truthy brokerOrderId) || opt_eqb (o_broker_order_id o) brokerOrderId)
      && (negb (str_truthy clientOrderId) || (o_client_order_id o =? clientOrderId)%string)
      && db_fence fence db) (joined db) in
  (λ r, target_of (fst r) (snd r)) <$>
    latest (λ r, o_created_at (fst r)) (λ r, o_id (fst r)) matching.

(** The parameters of the two statements that move an intent. *)
Record LifecycleWrite := {
  w_transition_id : string;
  w_order_intent_id : string;
  w_event_id : string;
  w_account_id : string;
  w_order_id : string;
  w_broker_order_id : string;
  w_client_order_id : string;
  w_now : Z;
  w_idempotency_key : string;
  w_from : string;
  w_to : AutonomousTradeLifecycleState;
  w_event_type : string
}.

(** transition_count, updated_intent_count and event_count. *)
Abbreviation counts := (Z * Z * Z)%type.

Definition set_state (w : LifecycleWrite) (i : CancelIntentRow) : CancelIntentRow :=
  {| i_id := i_id i; i_asset_class := i_asset_class i; i_lifecycle_state := w_to w;
     i_execution_review_id := i_execution_review_id i; i_candidate_id := i_candidate_id i;
     i_true_fields := i_true_fields i; i_updated_at := w_now w; i_version := i_version i + 1 |}.

Definition moved_intent (w : LifecycleWrite) (i : CancelIntentRow) : bool :=
  (i_id i =? w_order_intent_id w)%string && (state_name (i_lifecycle_state i) =? w_from w)%string.

Definition has_event (id : string) (db : CancellationDb) : bool :=
  existsb (λ e, (e_event_id e =? id)%string) (c_events db).

Definition new_event (w : LifecycleWrite) : CancelEventRow :=
  {| e_event_id := w_event_id w; e_account_id := w_account_id w; e_order_id := w_order_id w;
     e_order_intent_id := w_order_intent_id w; e_broker_order_id := w_broker_order_id w;
     e_client_order_id := w_client_order_id w; e_event_type := w_event_type w;
     e_event_status := "pending"; e_occurred_at := w_now w |}.

Definition new_transition (w : LifecycleWrite) (i : CancelIntentRow) : TransitionRow :=
  {| t_id := w_transition_id w; t_order_intent_id := i_id i; t_from_state := i_lifecycle_state i;
     t_to_state := w_to w; t_idempotency_key := w_idempotency_key w; t_occurred_at := w_now w |}.

(** What the statement leaves when the transition is inserted. *)
Definition moved_db (w : LifecycleWrite) (i : CancelIntentRow) (db : CancellationDb) : CancellationDb :=
  {| c_now := c_now db; c_leases := c_leases db; c_orders := c_orders db;
     c_intents := update_where (moved_intent w) (set_state w) (c_intents db);
     c_review_expiries := c_review_expiries db; c_candidate_statuses := c_candidate_statuses db;
     c_transitions := new_transition w i :: c_transitions db;
     c_events := if has_event (w_event_id w) db then c_events db else new_event w :: c_events db |}.

(** The data-modifying statement: the intent in the expected state under the
    fence, the transition unless its key was used, the intent and the event of
    that transition.  The trigger checks the edge before the key is looked at;
    a transition identifier used under another key is a unique violation. *)
Definition lifecycle_write (w : LifecycleWrite) (fence : SchedulerFence) : tx CancellationDb counts :=
  λ db, match select_one (λ i, moved_intent w i && db_fence fence db) (c_intents db) with
  | None => Ret ((0, 0, 0), db)
  | Some i =>
      if negb (bool_decide (w_to w ∈ transitions (i_lifecycle_state i)))
      then Throw "INVALID_LIFECYCLE_TRANSITION"
      else if existsb (λ t, (t_order_intent_id t =? i_id i)%string
                            && (t_idempotency_key t =? w_idempotency_key w)%string) (c_transitions db)
      then Ret ((0, 0, 0), db)
      else if existsb (λ t, (t_id t =? w_transition_id w)%string) (c_transitions db)
      then Throw "unique_violation"
      else Ret ((1, 1, if has_event (w_event_id w) db then 0 else 1), moved_db w i db)
  end.

(** ** Selecting an order to cancel *)

Definition cancellable_statuses : list string :=
  ["new"; "accepted"; "pending_new"; "partially_filled"; "held"; "pending_replace"; "pending_cancel"]%string.
Definition obsolete_candidate_statuses : list string :=
  ["expired"; "rejected"; "blocked"; "execution_deferred"]%string.
Definition cancellation_fields : list string :=
  ["cancellable"; "materiallyObsolete"; "recoveryCancellable"; "cancelBeforeReplace"]%string.

Definition assoc {V} (k : option string) (l : list (string * V)) : option V :=
  match k with
  | Some k => snd <$> select_one (λ r, (fst r =? k)%string) l
  | None => None
  end.

Definition wants_cancellation (now staleAfterMinutes : Z) (db : CancellationDb)
    (r : CancelOrderRow * CancelIntentRow) : bool :=
  let '(o, i) := r in
  match o_submitted_at o with Some t => t <=? now - staleAfterMinutes * 60000 | None => false end
  || match assoc (i_execution_review_id i) (c_review_expiries db) with Some t => t <=? now | None => false end
  || match assoc (i_candidate_id i) (c_candidate_statuses db) with
     | Some s => str_mem s obsolete_candidate_statuses | None => false
     end
  || existsb (λ f, str_mem f (i_true_fields i)) cancellation_fields
  || bool_decide (i_lifecycle_state i ∈ [cancel_requested; cancel_ambiguous]).

Definition autonomous_target (now staleAfterMinutes : Z) (fence : SchedulerFence) (db : CancellationDb)
    (r : CancelOrderRow * CancelIntentRow) : bool :=
  let o := fst r in
  (o_environment o =? "paper")%string && str_mem (o_status o) cancellable_statuses
  && match o_quantity o with Some q => negb (Qle_bool q (o_filled_quantity o)) | None => true end
  && wants_cancellation now staleAfterMinutes db r
  && match o_broker_order_id o with Some _ => true | None => false end
  && db_fence fence db.

(** ORDER BY submitted_at, created_at, id; a missing time comes last. *)
Definition order_before (a b : CancelOrderRow * CancelIntentRow) : bool :=
  let later_ids := (o_created_at (fst a) <? o_created_at (fst b))
    || (o_created_at (fst a) =? o_created_at (fst b)) && String.leb (o_id (fst a)) (o_id (fst b)) in
  match o_submitted_at (fst a), o_submitted_at (fst b) with
  | Some s, Some t => (s <? t) || (s =? t) && later_ids
  | Some _, None => true
  | None, Some _ => false
  | None, None => later_ids
  end.

Definition select_autonomous (now staleAfterMinutes : Z) (fence : SchedulerFence) (db : CancellationDb)
    : option (option string * string) :=
  (λ r, (o_broker_order_id (fst r), o_client_order_id (fst r))) <$>
    List.hd_error (sort_by order_before (List.filter (autonomous_target now staleAfterMinutes fence db) (joined db))).

(** The statements of the service, and what the database does. *)
Inductive Statement : Type → Type :=
| SelectTarget (brokerOrderId clientOrderId : string) (fence : SchedulerFence)
    : Statement (option CancellationTarget)
| FenceCheck (fence : SchedulerFence) : Statement bool
| WriteLifecycle (w : LifecycleWrite) (fence : SchedulerFence) : Statement counts
| SelectAutonomous (now staleAfterMinutes : Z) (fence : SchedulerFence)
    : Statement (option (option string * string)).

Definition execute {A} (s : Statement A) : tx CancellationDb A :=
  match s with
  | SelectTarget b c f => gets (select_target b c f)
  | FenceCheck f => gets (db_fence f)
  | WriteLifecycle w f => lifecycle_write w f
  | SelectAutonomous now m f => gets (select_autonomous now m f)
  end.

(** ** The service *)

(** An order as the broker reports it; a missing field is [None]. *)
Record BrokerOrder := {
  bo_id : option string;
  bo_client_order_id : option string;
  bo_status : option string
}.

(** Requests: a statement, the broker, the reconciliation of
    postgresReconciliationService (its number of errors), clock and timer. *)
Inductive effect : Type → Type :=
| Sql {A : Type} (s : Statement A) : effect (res A)
| GetOrderById (id : string) : effect (res BrokerOrder)
| GetOrderByClientOrderId (id : string) : effect (res BrokerOrder)
| CancelOrder (id : string) : effect (res unit)
| Reconcile (clientOrderId : string) (after : BrokerOrder) : effect (res Z)
| Clock : effect Z
| Sleep (delayMs : Z) : effect unit.

Record CancellationSafety := {
  environment : string;
  tradingMode : string;
  liveTradingEnabled : bool;
  paperOrderExecutionEnabled : bool;
  paperOptionsExecutionEnabled : option bool
}.

(** A recovery bound: [None] is undefined, [Some None] a number that is not a
    safe integer. *)
Record CancellationInput := {
  fence : SchedulerFence;
  brokerOrderId : option string;
  clientOrderId : option string;
  confirmPaper : bool;
  safety : CancellationSafety;
  maxRecoveryAttempts : option (option Z);
  recoveryDelayMs : option (option Z)
}.

Inductive CancellationStatus : Set := already_terminal | canceled | cancellation_pending.

Record CancellationResult := {
  status : CancellationStatus;
  resultBrokerOrderId : string;
  resultClientOrderId : string;
  brokerStatus : string
}.

Definition required (value : option string) (code : string) : res string :=
  let normalized := trim (default EmptyString value) in
  if str_truthy normalized then Ret normalized else Throw code.

Definition terminalStatuses : list string := ["filled"; "canceled"; "cancelled"; "expired"; "rejected"]%string.
Definition DEFAULT_CANCEL_RECOVERY_ATTEMPTS : Z := 8.
Definition DEFAULT_CANCEL_RECOVERY_DELAY_MS : Z := 500.
Definition MAX_CANCEL_RECOVERY_DELAY_MS : Z := 5000.

Definition assertSafety (s : CancellationSafety) (confirm : bool) : res unit :=
  if negb (environment s =? "paper")%string || negb (tradingMode s =? "paper")%string
  then Throw "PAPER_RUNTIME_REQUIRED"
  else if liveTradingEnabled s then Throw "LIVE_TRADING_MUST_BE_DISABLED"
  else if negb (paperOrderExecutionEnabled s) then Throw "PAPER_ORDER_EXECUTION_DISABLED"
  else if negb confirm then Throw "PAPER_CONFIRMATION_REQUIRED"
  else Ret tt.

Definition MISMATCH : string := "POSTGRES_CANCEL_RECOVERY_IDENTITY_MISMATCH".

(** The two identifiers of a broker order against the expected ones; the second
    is not looked at when the first differs. *)
Definition identity_differs (o : BrokerOrder) (brokerId clientId : string) : res bool :=
  id ← required (bo_id o) "POSTGRES_CANCEL_BROKER_ID_MISSING";
  if negb (id =? brokerId)%string then mret true
  else client ← required (bo_client_order_id o) "POSTGRES_CANCEL_CLIENT_ID_MISSING";
       mret (negb (client =? clientId)%string).

Definition order_status (o : BrokerOrder) : res string :=
  s ← required (bo_status o) "POSTGRES_CANCEL_BROKER_STATUS_MISSING"; mret (to_lower s).

Section service.
Context (stableRecordId : string → string → string).

Definition target_key (t : CancellationTarget) (brokerId clientId : string) : string :=
  (account_id t ++ ":" ++ brokerId ++ ":" ++ clientId)%string.

Definition event_id_of (scope : string) (t : CancellationTarget) (brokerId clientId : string) : string :=
  ("broker_event_" ++ stableRecordId scope (target_key t brokerId clientId))%string.

Definition transition_id_of (scope : string) (t : CancellationTarget) (brokerId : string) : string :=
  ("lifecycle_transition_" ++ stableRecordId scope (order_intent_id t ++ ":" ++ brokerId))%string.

Definition request_write (t : CancellationTarget) (brokerId clientId from : string) (now : Z) : LifecycleWrite :=
  {| w_transition_id := transition_id_of "cancel_requested" t brokerId;
     w_order_intent_id := order_intent_id t;
     w_event_id := event_id_of "alpaca_order_cancellation_request" t brokerId clientId;
     w_account_id := account_id t; w_order_id := order_id t;
     w_broker_order_id := brokerId; w_client_order_id := clientId; w_now := now;
     w_idempotency_key := ("cancel-request:" ++ brokerId)%string;
     w_from := from; w_to := cancel_requested; w_event_type := "order_cancellation_request" |}.

Definition claim_write (t : CancellationTarget) (brokerId clientId : string) (now : Z) : LifecycleWrite :=
  {| w_transition_id := transition_id_of "cancel_ambiguous" t brokerId;
     w_order_intent_id := order_intent_id t;
     w_event_id := event_id_of "alpaca_order_cancellation_ambiguous" t brokerId clientId;
     w_account_id := account_id t; w_order_id := order_id t;
     w_broker_order_id := brokerId; w_client_order_id := clientId; w_now := now;
     w_idempotency_key := ("cancel-ambiguous:" ++ brokerId)%string;
     w_from := "cancel_requested"; w_to := cancel_ambiguous;
     w_event_type := "order_cancellation_ambiguous" |}.

Definition assertFence (f : SchedulerFence) : async effect unit :=
  let! current := ask (Sql (FenceCheck f)) in
  reject_if (negb current) "SCHEDULER_FENCE_LOST".

(** The request is persisted unless an earlier runner did. *)
Definition persistRequest (f : SchedulerFence) (t : CancellationTarget) (brokerId clientId state : string)
    (now : Z) : async effect unit :=
  if (state =? "cancel_requested")%string || (state =? "cancel_ambiguous")%string then async_ret tt
  else
    let! c := ask (Sql (WriteLifecycle (request_write t brokerId clientId state now) f)) in
    reject_if (negb (bool_decide (c = (1, 1, 1)))) "POSTGRES_CANCEL_REQUEST_PERSISTENCE_FAILED".

(** The DELETE belongs to the runner whose statement inserted the claim. *)
Definition claimMutation (f : SchedulerFence) (t : CancellationTarget) (brokerId clientId : string) (now : Z)
    : async effect bool :=
  let! _ := assertFence f in
  let! c := ask (Sql (WriteLifecycle (claim_write t brokerId clientId now) f)) in
  if bool_decide (c = (0, 0, 0)) || bool_decide (c = (1, 1, 1))
  then async_ret (bool_decide (c = (1, 1, 1)))
  else reject "POSTGRES_CANCEL_AMBIGUITY_PERSISTENCE_FAILED".

Definition sendDelete (f : SchedulerFence) (brokerId : string) : async effect unit :=
  let! _ := assertFence f in
  attempt (ask (CancelOrder brokerId)) (λ _, async_ret tt).

(** The body of the [try] of the recovery loop: the order seen (when it has the
    expected identity), the error, and whether its status is terminal. *)
Definition observe (after : BrokerOrder) (brokerId clientId : string) (answer : res BrokerOrder)
    : res (BrokerOrder * option string * bool) :=
  match answer with
  | Throw e => if (e =? MISMATCH)%string then Throw e else Ret (after, Some e, false)
  | Ret observed =>
      match identity_differs observed brokerId clientId with
      | Throw e => Ret (after, Some e, false)
      | Ret true => Throw MISMATCH
      | Ret false =>
          match order_status observed with
          | Throw e => Ret (observed, Some e, false)
          | Ret s => Ret (observed, None, str_mem s terminalStatuses)
          end
      end
  end.

Fixpoint recover (f : SchedulerFence) (brokerId clientId : string) (delay : Z) (left : nat) (attempt : Z)
    (after : BrokerOrder) (lastLookupError : option string) : async effect (BrokerOrder * option string) :=
  match left with
  | O => async_ret (after, lastLookupError)
  | S left' =>
      let! _ := assertFence f in
      Ask (GetOrderByClientOrderId clientId) (λ answer,
        match observe after brokerId clientId answer with
        | Throw e => reject e
        | Ret (after', e, true) => async_ret (after', e)
        | Ret (after', e, false) =>
            let! _ := match left' with
                      | O => async_ret tt
                      | S _ => ask_value (Sleep (Z.min (delay * 2 ^ (attempt - 1)) MAX_CANCEL_RECOVERY_DELAY_MS))
                      end in
            recover f brokerId clientId delay left' (attempt + 1) after' e
        end)
  end.

(** What follows the selection of an order that is still open at the broker. *)
Definition cancelOpenOrder (f : SchedulerFence) (t : CancellationTarget) (brokerId clientId state : string)
    (attempts delay : Z) (before : BrokerOrder) : async effect (BrokerOrder * CancellationStatus) :=
  let! current := sync (required (Some state) "POSTGRES_CANCEL_LIFECYCLE_STATE_MISSING") in
  let! now := ask_value Clock in
  let! _ := persistRequest f t brokerId clientId current now in
  let! claimed := if (state =? "cancel_ambiguous")%string then async_ret true
                  else claimMutation f t brokerId clientId now in
  let! _ := if claimed && negb (state =? "cancel_ambiguous")%string then sendDelete f brokerId
            else async_ret tt in
  let! (after, e) := recover f brokerId clientId delay (Z.to_nat attempts) 1 before None in
  match e with
  | Some _ => reject "POSTGRES_CANCEL_RECOVERY_INFRASTRUCTURE_UNRESOLVED"
  | None =>
      let! s := sync (order_status after) in
      async_ret (after, if (s =? "canceled")%string || (s =? "cancelled")%string then canceled
                        else if str_mem s terminalStatuses then already_terminal
                        else cancellation_pending)
  end.

Definition policy (value : option (option Z)) (default_value low high : Z) : option Z :=
  match value with
  | None => Some default_value
  | Some None => None
  | Some (Some v) => if (low <=? v) && (v <=? high) then Some v else None
  end.

Definition runPostgresPaperOrderCancellation (input : CancellationInput) : async effect CancellationResult :=
  let! _ := sync (assertSafety (safety input) (confirmPaper input)) in
  let brokerOrderId := trim (default EmptyString (brokerOrderId input)) in
  let clientOrderId := trim (default EmptyString (clientOrderId input)) in
  let! _ := reject_if (negb (str_truthy brokerOrderId) && negb (str_truthy clientOrderId))
              "POSTGRES_CANCEL_ORDER_ID_REQUIRED" in
  let! selected := ask (Sql (SelectTarget brokerOrderId clientOrderId (fence input))) in
  match selected with
  | None => reject "POSTGRES_CANCEL_ORDER_NOT_FOUND"
  | Some t =>
      let! _ := reject_if ((to_lower (asset_class t) =? "option")%string
                           && negb (bool_decide (paperOptionsExecutionEnabled (safety input) = Some true)))
                  "PAPER_OPTIONS_EXECUTION_DISABLED" in
      let! brokerId := sync (required (broker_order_id t) "POSTGRES_CANCEL_BROKER_ORDER_ID_MISSING") in
      let! clientId := sync (required (Some (client_order_id t)) "POSTGRES_CANCEL_CLIENT_ORDER_ID_MISSING") in
      let! _ := reject_if (str_truthy brokerOrderId && negb (brokerId =? brokerOrderId)%string
                           || str_truthy clientOrderId && negb (clientId =? clientOrderId)%string)
                  "POSTGRES_CANCEL_ORDER_IDENTITY_MISMATCH" in
      let! before := ask (GetOrderById brokerId) in
      let! differs := sync (identity_differs before brokerId clientId) in
      let! _ := reject_if differs "POSTGRES_CANCEL_BROKER_IDENTITY_MISMATCH" in
      let! beforeStatus := sync (order_status before) in
      let state := to_lower (trim (lifecycle_state t)) in
      match policy (maxRecoveryAttempts input) DEFAULT_CANCEL_RECOVERY_ATTEMPTS 1 32,
            policy (recoveryDelayMs input) DEFAULT_CANCEL_RECOVERY_DELAY_MS 0 MAX_CANCEL_RECOVERY_DELAY_MS with
      | Some attempts, Some delay =>
          let! (after, st) := if str_mem beforeStatus terminalStatuses
                               then async_ret (before, already_terminal)
                               else cancelOpenOrder (fence input) t brokerId clientId state attempts delay before in
          let! errors := ask (Reconcile clientId after) in
          let! _ := reject_if (0 <? errors) "POSTGRES_CANCEL_RECONCILIATION_FAILED" in
          let! s := sync (order_status after) in
          async_ret {| status := st; resultBrokerOrderId := brokerId; resultClientOrderId := clientId;
                       brokerStatus := s |}
      | _, _ => reject "POSTGRES_CANCEL_RECOVERY_POLICY_INVALID"
      end
  end.

(** [None] is the no-op result NO_CANCELLABLE_POSTGRES_ORDERS. *)
Definition runAutonomousPostgresPaperOrderCancellation (f : SchedulerFence) (confirm : bool)
    (s : CancellationSafety) (now : Z) (staleAfterMinutes : option (option Z))
    : async effect (option CancellationResult) :=
  let! _ := sync (assertSafety s confirm) in
  match policy staleAfterMinutes 30 1 (24 * 60) with
  | None => reject "POSTGRES_AUTONOMOUS_CANCEL_POLICY_INVALID"
  | Some minutes =>
      let! selected := ask (Sql (SelectAutonomous now minutes f)) in
      match selected with
      | None => async_ret None
      | Some (b, c) =>
          let! brokerId := sync (required b "POSTGRES_CANCEL_BROKER_ORDER_ID_MISSING") in
          let! clientId := sync (required (Some c) "POSTGRES_CANCEL_CLIENT_ORDER_ID_MISSING") in
          let! r := runPostgresPaperOrderCancellation
                      {| fence := f; brokerOrderId := Some brokerId; clientOrderId := Some clientId;
                         confirmPaper := confirm; safety := s; maxRecoveryAttempts := None;
                         recoveryDelayMs := None |} in
          async_ret (Some r)
      end
  end.
End service.

(** ** The outside *)

(** One call of [cancelPaperOrder]: its order, and what it sent to the broker and
    how that ended. *)
Record DeleteCall := {
  del_order : string;
  del_fetches : list (HttpRequest * HttpOutcome)
}.

(** The database and the calls of [cancelPaperOrder] so far, latest first. *)
Record World := {
  db : CancellationDb;
  deletes : list DeleteCall
}.

Definition with_db (w : World) (d : CancellationDb) : World := {| db := d; deletes := deletes w |}.
Definition with_delete (w : World) (id : string) (fs : list (HttpRequest * HttpOutcome)) : World :=
  {| db := db w; deletes := {| del_order := id; del_fetches := fs |} :: deletes w |}.

(** The unique index orders_broker_order_idx. *)
Definition orders_unique (d : CancellationDb) : Prop :=
  ∀ o1 o2 b, In o1 (c_orders d) → In o2 (c_orders d) →
    o_broker_order_id o1 = Some b → o_broker_order_id o2 = Some b → o1 = o2.

(** Broker identifiers are stored without surrounding white space. *)
Definition broker_ids_trimmed (d : CancellationDb) : Prop :=
  ∀ o b, In o (c_orders d) → o_broker_order_id o = Some b → trim b = b.

(** What the rest of the program may do to the database: anything that keeps
    the unique index, deletes no broker event, and keeps the identity of a
    recorded order; only this service calls [cancelPaperOrder]. *)
Definition others (w w' : World) : Prop :=
  deletes w' = deletes w ∧
  (orders_unique (db w) → orders_unique (db w')) ∧ (broker_ids_trimmed (db w) → broker_ids_trimmed (db w')) ∧
  (∀ id, has_event id (db w) = true → has_event id (db w') = true) ∧
  (∀ o b, In o (c_orders (db w)) → o_broker_order_id o = Some b →
     ∃ o', In o' (c_orders (db w')) ∧ o_broker_order_id o' = Some b ∧
       o_account_id o' = o_account_id o ∧ o_client_order_id o' = o_client_order_id o).

(** [encode] is encodeURIComponent. *)
Section outside.
Context (env : Environment) (encode : string → string).

(** The DELETE of an order. *)
Definition delete_request (id : string) : HttpRequest :=
  {| url := "https://paper-api.alpaca.markets/v2/orders/" ++ encode id; method := "DELETE"; body := None |}.

(** What a call of [cancelPaperOrder] may do: it follows a path of the client.  One
    that ends resolves or throws as the client does; one that its process does not
    survive is cut off anywhere, its last request sent or not, and answers
    anything. *)
Definition cancellation_call (id : string) (x : res unit) (fs : list (HttpRequest * HttpOutcome)) : Prop :=
  ∃ l q, path (cancelPaperOrder env (encode id)) l q ∧ fs = fetched l ∧
    ∀ o, q = Done o → match o with inr _ => x = Ret tt | inl _ => ∃ c, x = Throw c end.

Lemma cancellation_call_fetches id x fs : cancellation_call id x fs → one_request env (delete_request id) fs.
Proof. intros (l & q & Hp & -> & _). exact (request_fetches env ("/v2/orders/" ++ encode id) "DELETE" None l q Hp). Qed.

(** A statement is executed or fails without effect; its answer may be lost.
    The broker answers anything. *)
Definition handle (X : Type) (e : effect X) : World → X → World → Prop :=
  match e in effect X return World → X → World → Prop with
  | Sql s => λ w x w',
      match execute s (db w) with
      | Ret (a, d) => x = Ret a ∧ w' = with_db w d ∨ ∃ c, x = Throw c ∧ (w' = w ∨ w' = with_db w d)
      | Throw c => w' = w ∧ ∃ c', x = Throw c'
      end
  | GetOrderById _ | GetOrderByClientOrderId _ => λ w _ w', w' = w
  | CancelOrder id => λ w x w', ∃ fs, cancellation_call id x fs ∧ w' = with_delete w id fs
  | Reconcile _ _ => λ w _ w', others w w'
  | Clock => λ w _ w', w' = w
  | Sleep _ => λ w _ w', w' = w
  end.

(** The calls for an order. *)
Definition calls_of (b : string) (w : World) : list DeleteCall := List.filter (λ c, (b =? del_order c)%string) (deletes w).
Definition sent (b : string) (w : World) : nat := List.length (calls_of b w).

(** Each sends its DELETE and repeats it only without an answer. *)
Definition calls_ok (b : string) (w : World) : Prop :=
  Forall (λ c, one_request env (delete_request (del_order c)) (del_fetches c)) (calls_of b w).
End outside.
