(* ===== verification/CancellationRuns.v ===== *)
(** What the runners of OrderCancellation.v do: at most one
    call of [cancelPaperOrder] for an order, which sends one DELETE and repeats it
    only without an answer, in every history of concurrent and crashing runners; and
    what a single undisturbed runner does from every state of the intent. *)

From S2P Require Import Prelude.
From S2P Require Import JsString.
From S2P Require Import SchedulerLease.
From S2P Require Import TradeLifecycle.
From S2P Require Import Effects.
From S2P Require Import JsNumber.
From S2P Require Import JsJson.
From S2P Require Import AlpacaClient.
From S2P Require Import OrderCancellation.
Open Scope Z_scope.

(** ** At most one call of the client *)

Section at_most_once.
Context (env : Environment) (encode : string → string).
Context (stableRecordId : string → string → string).
Context (b account client : string).

Definition claim_event : string :=
  ("broker_event_" ++ stableRecordId "alpaca_order_cancellation_ambiguous"
     (account ++ ":" ++ b ++ ":" ++ trim client))%string.

(** The order [b] is recorded, with its account and client identifier. *)
Definition recorded (w : World) : Prop :=
  orders_unique (db w) ∧ broker_ids_trimmed (db w) ∧
  ∃ o, In o (c_orders (db w)) ∧ o_broker_order_id o = Some b ∧ o_account_id o = account ∧
       o_client_order_id o = client.

#[local] Abbreviation handle := (handle env encode).

Definition claimed (w : World) : nat := if has_event claim_event (db w) then 1 else 0.

Definition is_delete (X : Type) (e : effect X) : bool :=
  match e with CancelOrder id => (b =? id)%string | _ => false end.

(** The answer says that the statement inserted the claim. *)
Definition wins_claim (X : Type) (e : effect X) : X → bool :=
  match e in effect X return X → bool with
  | Sql s =>
      match s in Statement A return res A → bool with
      | WriteLifecycle w _ => λ x, match x with
          | Ret c => (w_event_id w =? claim_event)%string && bool_decide (c = (1, 1, 1))
          | Throw _ => false
          end
      | _ => λ _, false
      end
  | _ => λ _, false
  end.

Definition guards {B} := guarded (B := B) handle recorded is_delete wins_claim.

Lemma lifecycle_write_kept w f d c d' :
  lifecycle_write w f d = Ret (c, d') →
  c_orders d' = c_orders d ∧ (∀ id, has_event id d = true → has_event id d' = true) ∧
  (c = (1, 1, 1) → has_event (w_event_id w) d = false ∧ has_event (w_event_id w) d' = true).
Proof.
  unfold lifecycle_write. destruct (select_one _ _) as [i|]; [|by intros [= <- <-]].
  destruct (negb _); [done|]. destruct (existsb _ _); [by intros [= <- <-]|].
  destruct (existsb _ _); [done|]. intros [= <- <-]. split; [done|].
  assert (Hid : (w_event_id w =? w_event_id w)%string = true) by apply String.eqb_refl.
  unfold moved_db, has_event; cbn [c_events]. fold (has_event (w_event_id w) d).
  destruct (has_event (w_event_id w) d) eqn:E; split; try done.
  - intros id Hin. cbn [existsb]. by rewrite Hin, orb_true_r.
  - intros _. split; [done|]. cbn [existsb new_event e_event_id]. by rewrite Hid.
Qed.

Lemma execute_kept A (s : Statement A) d a d' :
  execute s d = Ret (a, d') →
  c_orders d' = c_orders d ∧ (∀ id, has_event id d = true → has_event id d' = true).
Proof.
  destruct s; cbn [execute]; unfold gets; try by intros [= <- <-].
  intros H. by apply lifecycle_write_kept in H as (? & ? & _).
Qed.

Lemma others_recorded w w' : recorded w → others w w' → recorded w'.
Proof.
  intros (Hu0 & Ht0 & o & Ho & Hb & Ha & Hc) (_ & Hu & Ht & _ & Hk). split; [auto|]. split; [auto|].
  destruct (Hk o b Ho Hb) as (o' & Ho' & Hb' & Ha' & Hc'). exists o'. by rewrite Ha', Hc'.
Qed.

Lemma recorded_same_orders w w' : c_orders (db w') = c_orders (db w) → recorded w → recorded w'.
Proof. unfold recorded, orders_unique, broker_ids_trimmed. by intros ->. Qed.

Lemma handle_recorded X (e : effect X) w x w' : recorded w → handle X e w x w' → recorded w'.
Proof.
  intros Hw. destruct e; cbn [OrderCancellation.handle]; try by intros ->.
  - destruct (execute s (db w)) as [[a d]|c] eqn:E; [|by intros [-> _]].
    apply execute_kept in E as [E _].
    assert (recorded (with_db w d)) by by apply (recorded_same_orders w).
    intros [[_ ->]|(c & _ & [->| ->])]; done.
  - by intros (fs & _ & ->).
  - by apply others_recorded.
Qed.

Lemma claimed_mono w w' : (∀ id, has_event id (db w) = true → has_event id (db w') = true) →
  (claimed w <= claimed w')%nat.
Proof.
  intros H. unfold claimed. specialize (H claim_event). destruct (has_event _ (db w)); [by rewrite H|].
  case_match; lia.
Qed.

Lemma handle_counts X (e : effect X) w x w' :
  handle X e w x w' →
  sent b w' = (sent b w + if is_delete X e then 1 else 0)%nat ∧
  (claimed w + (if wins_claim X e x then 1 else 0) <= claimed w')%nat.
Proof.
  destruct e; cbn [OrderCancellation.handle is_delete wins_claim]; try by (intros ->; split; [lia|lia]).
  - intros H. assert (Hd : deletes w' = deletes w).
    { destruct (execute s (db w)) as [[? ?]|]; [|by destruct H as [-> _]].
      by destruct H as [[_ ->]|(? & _ & [->| ->])]. }
    unfold sent, calls_of. rewrite Hd. split; [lia|].
    assert (Hm : (claimed w <= claimed w')%nat).
    { destruct (execute s (db w)) as [[a d]|] eqn:E; [|by destruct H as [-> _]].
      apply execute_kept in E as [_ E]. destruct H as [[_ ->]|(? & _ & [->| ->])]; auto using claimed_mono. }
    destruct s; try (destruct x; lia). destruct x as [c|]; [|lia].
    destruct (w_event_id w0 =? claim_event)%string eqn:Ew; [|cbn [andb]; lia].
    apply String.eqb_eq in Ew. cbn [andb]. case_bool_decide as Hc; [|lia]. subst c.
    cbn [execute] in H. destruct (lifecycle_write _ _ _) as [[a d]|] eqn:E; [|by destruct H as (_ & ? & ?)].
    destruct H as [[[= <-] ->]|(? & ? & _)]; [|done].
    apply lifecycle_write_kept in E as (_ & _ & E). destruct (E eq_refl) as [E1 E2].
    unfold claimed. cbn [db with_db]. rewrite <- Ew, E1, E2. lia.
  - intros (fs & _ & ->). unfold sent, calls_of. cbn [with_delete deletes List.filter del_order].
    split; [|unfold claimed; cbn [with_delete db]; lia]. destruct (b =? id)%string; cbn [List.length]; lia.
  - intros (Hd & _ & _ & He & _). unfold sent, calls_of. rewrite Hd. pose proof (claimed_mono w w' He). lia.
Qed.

Lemma others_counts w w' : others w w' → sent b w' = sent b w ∧ (claimed w <= claimed w')%nat.
Proof. intros (Hd & _ & _ & He & _). unfold sent, calls_of. rewrite Hd. split; [done|]. by apply claimed_mono. Qed.

Lemma others_deletes_ok w w' : others w w' → calls_ok env encode b w → calls_ok env encode b w'.
Proof. intros (Hd & _). unfold calls_ok, calls_of. by rewrite Hd. Qed.

Lemma handle_deletes_ok X (e : effect X) w x w' : handle X e w x w' → calls_ok env encode b w → calls_ok env encode b w'.
Proof.
  destruct e; cbn [OrderCancellation.handle]; try by intros ->.
  - destruct (execute s (db w)) as [[? ?]|]; [|by intros [-> _]]. by intros [[_ ->]|(? & _ & [->| ->])].
  - intros (fs & Hf%cancellation_call_fetches & ->) Hw. unfold calls_ok, calls_of in *.
    cbn [with_delete deletes List.filter del_order]. destruct (b =? id)%string; [by constructor|done].
  - by apply others_deletes_ok.
Qed.

Lemma guards_bind {A B} p (m : async effect A) (f : A → async effect B) Q :
  guards p m (λ p' r, match r with Ret a => guards p' (f a) Q | Throw c => Q p' (Throw c) end) →
  guards p (async_bind m f) Q.
Proof. apply guarded_async_bind. Qed.

Lemma guards_ask {A} p (e : effect (res A)) (Q : bool → res A → Prop) :
  is_delete _ e = false →
  (∀ x, possible handle recorded e x → Q (permit_after is_delete wins_claim p e x) x) → guards p (ask e) Q.
Proof. apply guarded_ask. Qed.

Lemma guards_weaken {A} p (m : async effect A) Q : guards p m Q → guards p m anything.
Proof. apply guarded_any. Qed.

Lemma guards_any_bind {A B} p (m : async effect A) (f : A → async effect B) :
  guards p m anything → (∀ a p', guards p' (f a) anything) → guards p (async_bind m f) anything.
Proof. apply guarded_any_bind. Qed.

Lemma guards_reject_if p c e : guards p (reject_if c e) anything.
Proof. apply guarded_reject_if. Qed.

Hint Resolve guards_reject_if : core.

Lemma guards_fence_keeps p f : guards p (assertFence f) (λ p' _, p = true → p' = true).
Proof.
  apply guards_bind, guards_ask; [done|]. intros [c|c] _; [|by intros ->]. destruct c; by intros ->.
Qed.

Lemma guards_assertFence p f : guards p (assertFence f) anything.
Proof. eapply guards_weaken, guards_fence_keeps. Qed.

Lemma guards_persistRequest p f t brokerId clientId state now :
  guards p (persistRequest stableRecordId f t brokerId clientId state now) anything.
Proof.
  unfold persistRequest. destruct (_ || _); [done|]. apply guards_any_bind; [by apply guards_ask|]. by intros.
Qed.

Lemma guards_recover p f brokerId clientId delay left attempt after e :
  guards p (recover f brokerId clientId delay left attempt after e) anything.
Proof.
  revert p attempt after e. induction left as [|left IH]; intros p attempt after e; [done|].
  cbn [recover]. apply guards_any_bind; [apply guards_assertFence|]. intros [] p'.
  split; [done|]. intros answer _. cbn beta.
  destruct (observe _ _ _ _) as [[[after' e'] [|]]|c]; [done| |done].
  apply guards_any_bind; [|intros; apply IH]. destruct left; [done|]. by split.
Qed.

(** The claim is for [b] when the target is the recorded order [b]. *)
Definition right_target (t : CancellationTarget) (brokerId clientId : string) : Prop :=
  brokerId = b → event_id_of stableRecordId "alpaca_order_cancellation_ambiguous" t brokerId clientId = claim_event.

Lemma guards_claim p f t brokerId clientId now :
  right_target t brokerId clientId →
  guards p (claimMutation stableRecordId f t brokerId clientId now)
    (λ p' r, brokerId = b → r = Ret true → p' = true).
Proof.
  intros Ht. apply guards_bind. generalize (guards_assertFence p f). apply guarded_mono.
  intros p1 [[]|c] _; [|done]. apply guards_bind, guards_ask; [done|]. intros [c|c] _; [|done].
  destruct (bool_decide (c = (0, 0, 0)) || _) eqn:E; [|done]. intros Hb [= Hc%bool_decide_eq_true].
  subst c. unfold permit_after. cbn [is_delete wins_claim w_event_id claim_write].
  rewrite (Ht Hb), String.eqb_refl. by rewrite orb_true_r.
Qed.

Lemma guards_sendDelete p f brokerId :
  (brokerId = b → p = true) → guards p (sendDelete f brokerId) anything.
Proof.
  intros Hp. apply guards_bind. generalize (guards_fence_keeps p f). apply guarded_mono.
  intros p1 [[]|c] Hp1; [|done]. apply guarded_bind.
  split; [|by intros [[]|c] _]. cbn [is_delete]. intros Hd%String.eqb_eq. auto.
Qed.

Lemma guards_cancelOpenOrder p f t brokerId clientId state attempts delay before :
  right_target t brokerId clientId →
  guards p (cancelOpenOrder stableRecordId f t brokerId clientId state attempts delay before) anything.
Proof.
  intros Ht. unfold cancelOpenOrder. apply guards_any_bind; [done|]. intros current p1.
  apply guards_any_bind; [by split|]. intros now p2.
  apply guards_any_bind; [apply guards_persistRequest|]. intros [] p3.
  apply guards_bind. assert (Hrest : ∀ p4 claimed, (claimed && negb (state =? "cancel_ambiguous")%string = true →
      brokerId = b → p4 = true) → guards p4
    (let! _ := if claimed && negb (state =? "cancel_ambiguous")%string then sendDelete f brokerId else async_ret tt in
     let! (after, e) := recover f brokerId clientId delay (Z.to_nat attempts) 1 before None in
     match e with
     | Some _ => reject "POSTGRES_CANCEL_RECOVERY_INFRASTRUCTURE_UNRESOLVED"
     | None =>
         let! s := sync (order_status after) in
         async_ret (after, if (s =? "canceled")%string || (s =? "cancelled")%string then canceled
                           else if str_mem s terminalStatuses then already_terminal
                           else cancellation_pending)
     end) anything).
  { intros p4 claimed Hc. apply guards_any_bind.
    - destruct (claimed && _); [|done]. apply guards_sendDelete. auto.
    - intros _ p5. apply guards_any_bind; [apply guards_recover|]. intros [after [e|]] p6; [done|].
      by destruct (order_status after). }
  destruct (state =? "cancel_ambiguous")%string.
  - apply Hrest. done.
  - generalize (guards_claim p3 f t brokerId clientId now Ht). apply guarded_mono.
    intros p4 [c|c] Hc; [|done]. apply Hrest. rewrite andb_true_r. intros -> Hb. by apply Hc.
Qed.

Lemma required_trim v code x : required v code = Ret x → ∃ s, v = Some s ∧ x = trim s.
Proof.
  unfold required. destruct v as [s|]; [|done]. cbn [default]. destruct (str_truthy _); [|done].
  intros [= <-]. by exists s.
Qed.

Lemma joined_In d o i : In (o, i) (joined d) → In o (c_orders d).
Proof.
  unfold joined. intros (o' & Ho & H)%in_flat_map. destruct (intent_of d o'); [|done].
  by destruct H as [[= -> ->]|[]].
Qed.

(** A selected target with the identifier [b] is the recorded order. *)
Lemma select_target_right w bid cid f t brokerId clientId code1 code2 :
  recorded w → select_target bid cid f (db w) = Some t →
  required (broker_order_id t) code1 = Ret brokerId → required (Some (client_order_id t)) code2 = Ret clientId →
  right_target t brokerId clientId.
Proof.
  intros (Hu & Ht & o & Ho & Hb & Ha & Hc) Hs (x & Hx & ->)%required_trim (y & [= <-] & ->)%required_trim.
  unfold select_target in Hs. destruct (latest _ _ _) as [[o' i]|] eqn:El; [|done].
  apply latest_In, filter_In in El as [El _]. apply joined_In in El.
  injection Hs as <-. cbn [fst snd target_of broker_order_id client_order_id] in *.
  intros Hb'. rewrite (Ht o' x El Hx) in Hb'. subst x.
  assert (o' = o) as -> by by apply (Hu o' o b).
  unfold event_id_of, target_key, claim_event, target_of. cbn [account_id client_order_id].
  by rewrite (Ht o b Ho Hb), Ha, Hc.
Qed.

Lemma guards_run p input : guards p (runPostgresPaperOrderCancellation stableRecordId input) anything.
Proof.
  unfold runPostgresPaperOrderCancellation. apply guards_any_bind; [done|]. intros [] p1. cbv zeta.
  apply guards_any_bind; [auto|]. intros [] p2. apply guards_bind, guards_ask; [done|].
  intros [[t|]|c] (w & w' & Hw & Hh); [|done..].
  cbn [handle execute] in Hh. unfold gets in Hh.
  destruct Hh as [[[= Hs] ->]|(? & ? & _)]; [|done].
  generalize (permit_after is_delete wins_claim p2 (Sql (SelectTarget (trim (default EmptyString (brokerOrderId input)))
    (trim (default EmptyString (clientOrderId input))) (fence input))) (Ret (Some t))). intros p3.
  apply guards_any_bind; [auto|]. intros [] p4.
  destruct (required (broker_order_id t) _) as [brokerId|] eqn:Eb; [|done]. cbn [sync].
  destruct (required (Some (client_order_id t)) _) as [clientId|] eqn:Ec; [|done].
  pose proof (select_target_right w _ _ _ t brokerId clientId _ _ Hw (eq_sym Hs) Eb Ec) as Ht.
  unfold async_bind at 1, sync at 1. cbn [prog_bind]. unfold async_bind at 1, sync at 1. cbn [prog_bind].
  apply guards_any_bind; [auto|]. intros [] p5.
  apply guards_any_bind; [by apply guards_ask|]. intros before p6.
  apply guards_any_bind; [by destruct (identity_differs _ _ _)|]. intros differs p7.
  apply guards_any_bind; [auto|]. intros [] p8.
  apply guards_any_bind; [by destruct (order_status before)|]. intros beforeStatus p9.
  destruct (policy (maxRecoveryAttempts input) _ _ _) as [attempts|]; [|done].
  destruct (policy (recoveryDelayMs input) _ _ _) as [delay|]; [|done].
  apply guards_any_bind.
  { destruct (str_mem _ _); [done|]. by apply guards_cancelOpenOrder. }
  intros [after st] p10. apply guards_any_bind; [by apply guards_ask|]. intros errors p11.
  apply guards_any_bind; [auto|]. intros [] p12. by destruct (order_status after).
Qed.

Lemma guards_autonomous p f confirm s now m :
  guards p (runAutonomousPostgresPaperOrderCancellation stableRecordId f confirm s now m) anything.
Proof.
  unfold runAutonomousPostgresPaperOrderCancellation. apply guards_any_bind; [done|]. intros [] p1.
  destruct (policy m _ _ _) as [minutes|]; [|done]. apply guards_any_bind; [by apply guards_ask|].
  intros [[b' c']|] p2; [|done]. apply guards_any_bind; [by destruct (required b' _)|]. intros brokerId p3.
  apply guards_any_bind; [by destruct (required (Some c') _)|]. intros clientId p4.
  apply guards_any_bind; [apply guards_run|]. done.
Qed.
End at_most_once.

(** The runners of the service: a command for one order or the autonomous one. *)
Inductive runner (stableRecordId : string → string → string) : prog effect (res (option CancellationResult)) → Prop :=
| command_runner input :
    runner stableRecordId (let! r := runPostgresPaperOrderCancellation stableRecordId input in async_ret (Some r))
| autonomous_runner f confirm s now m :
    runner stableRecordId (runAutonomousPostgresPaperOrderCancellation stableRecordId f confirm s now m).

(** Histories of any number of runners with the rest of the program. *)
Definition history (env : Environment) (encode : string → string) (stableRecordId : string → string → string) :=
  reachable (handle env encode) others (runner stableRecordId).

(** C23: A cancellation is handed to the broker client at most once, and what the
    client sends is one DELETE.  Whatever runners are started for the order, on
    whichever machines and under whichever fences, however their statements
    interleave, fail or lose their answers, wherever runners crash (in the middle
    of a call too), and whatever the broker answers: from a state in which the
    order is recorded and [cancelPaperOrder] was not called for it, no history
    calls it a second time.  The call comes after the claim was persisted; it sends
    nothing but the DELETE of its order to the fixed paper URL, in the paper
    environment with live trading off, at most ALPACA_MAX_RETRIES + 1 times, and
    again only when the request before it got no answer. *)
Theorem cancellation_sent_at_most_once env encode stableRecordId b account client w s :
  recorded b account client w → sent b w = 0%nat → history env encode stableRecordId w s →
  (sent b (world s) <= 1)%nat ∧
  ∀ c, In c (deletes (world s)) → del_order c = b →
    has_event (claim_event stableRecordId b account client) (db (world s)) = true ∧
    one_request env (delete_request encode b) (del_fetches c).
Proof.
  intros Hw H0 Hs. set (I := λ w, recorded b account client w ∧ calls_ok env encode b w).
  destruct (uses_bounded (handle env encode) others (runner stableRecordId) I (is_delete b)
    (wins_claim stableRecordId b account client) (claimed stableRecordId b account client) (sent b))
    with (w := w) (s := s) as [[_ Hok] Hle]; try done.
  - intros X e w1 x w2 [Hr Hc] Hx. split; [by eapply handle_recorded|by eapply handle_deletes_ok].
  - intros X e w1 x w2 _ Hx. exact (handle_counts env encode stableRecordId b account client X e w1 x w2 Hx).
  - intros w1 w2 [Hr Hc] Hx. split; [by eapply others_recorded|by eapply others_deletes_ok].
  - intros w1 w2 _ Hx. by apply (others_counts stableRecordId b account client).
  - intros p Hp. apply (guarded_stronger _ (recorded b account client)); [by intros w1 [? _]|].
    destruct Hp as [input|f confirm sf now m].
    + apply guards_any_bind; [apply guards_run|]. done.
    + apply guards_autonomous.
  - split; [done|]. unfold sent in H0. apply length_zero_iff_nil in H0. unfold calls_ok. by rewrite H0.
  - assert (Hc : (claimed stableRecordId b account client (world s) <= 1)%nat) by (unfold claimed; case_match; lia).
    split; [lia|]. intros c Hin <-.
    assert (Hin' : In c (calls_of (del_order c) (world s))) by (apply filter_In; split; [done|apply String.eqb_refl]).
    split; [|exact (proj1 (List.Forall_forall _ _) Hok c Hin')].
    unfold claimed in Hle. destruct (has_event _ _); [done|]. unfold sent in Hle.
    destruct (calls_of (del_order c) (world s)); [done|cbn in Hle; lia].
Qed.

(** ** An undisturbed runner *)

Section undisturbed.
Context (stableRecordId : string → string → string).
Context (env : Environment) (encode : string → string).
(** What a call of [cancelPaperOrder] sends, and the order as the broker reports it
    after the calls so far. *)
Context (posted : string → list (HttpRequest * HttpOutcome)).
Hypothesis posted_possible : ∀ id, cancellation_call env encode id (Ret tt) (posted id).
Context (look : list string → BrokerOrder).
Context (now : Z).

(** The orders of the calls so far. *)
Definition orders_of (w : World) : list string := map del_order (deletes w).
Definition call (id : string) : DeleteCall := {| del_order := id; del_fetches := posted id |}.

(** Every request succeeds. *)
Definition healthy (X : Type) (e : effect X) : World → X * World :=
  match e in effect X return World → X * World with
  | Sql s => λ w, match execute s (db w) with
                  | Ret (a, d) => (Ret a, with_db w d)
                  | Throw c => (Throw c, w)
                  end
  | GetOrderById _ | GetOrderByClientOrderId _ => λ w, (Ret (look (orders_of w)), w)
  | CancelOrder id => λ w, (Ret tt, with_delete w id (posted id))
  | Reconcile _ _ => λ w, (Ret 0, w)
  | Clock => λ w, (now, w)
  | Sleep _ => λ w, (tt, w)
  end.

Lemma healthy_possible X (e : effect X) w :
  handle env encode X e w (healthy X e w).1 (healthy X e w).2.
Proof using posted_possible.
  destruct e; cbn [healthy handle fst snd]; try done.
  - destruct (execute s (db w)) as [[a d]|c]; cbn [fst snd]; [by left|]. split; [done|by eexists].
  - exists (posted id). by split.
  - split; [done|]. split; [done|]. split; [done|]. split; [done|]. intros o b Ho Hb. by exists o.
Qed.

(** An undisturbed command is a history. *)
Lemma command_history input w l :
  rtc (step (handle env encode) others (runner stableRecordId)) {| world := w; runners := l |}
    {| world := (run healthy (let! r := runPostgresPaperOrderCancellation stableRecordId input in
                              async_ret (Some r)) w).2;
       runners := Done (run healthy (let! r := runPostgresPaperOrderCancellation stableRecordId input in
                                     async_ret (Some r)) w).1 :: l |}.
Proof using posted_possible.
  eapply rtc_l; [apply step_start, (command_runner stableRecordId input)|].
  apply run_reachable, healthy_possible.
Qed.

Definition fresh_write (w : LifecycleWrite) (d : CancellationDb) : Prop :=
  (∀ t, In t (c_transitions d) → t_id t ≠ w_transition_id w ∧
     (t_order_intent_id t = w_order_intent_id w → t_idempotency_key t ≠ w_idempotency_key w)) ∧
  has_event (w_event_id w) d = false.

Lemma existsb_none {R} (p : R → bool) l : (∀ x, In x l → p x = false) → existsb p l = false.
Proof.
  induction l as [|x l IH]; intros H; [done|]. cbn [existsb]. rewrite H by by left.
  apply IH. intros y Hy. apply H. by right.
Qed.

Lemma lifecycle_write_moves w f d i :
  NoDup (map i_id (c_intents d)) → In i (c_intents d) → moved_intent w i = true → db_fence f d = true →
  w_to w ∈ transitions (i_lifecycle_state i) → fresh_write w d →
  lifecycle_write w f d = Ret ((1, 1, 1), moved_db w i d).
Proof.
  intros Hn Hi Hm Hf Hedge [Ht He]. unfold lifecycle_write.
  destruct (select_one _ (c_intents d)) as [j|] eqn:Es.
  2:{ apply (select_one_None _ _ i) in Es; [|done]. cbv beta in Es. by rewrite Hm, Hf in Es. }
  apply select_one_Some in Es as [Hj [Hmj _]%andb_prop].
  assert (j = i) as ->.
  { apply (unique_key i_id (c_intents d)); [done..|]. unfold moved_intent in *.
    apply andb_prop in Hm as [Hm%String.eqb_eq _], Hmj as [Hmj%String.eqb_eq _]. congruence. }
  rewrite bool_decide_eq_true_2 by done. cbn [negb].
  pose proof (andb_prop _ _ Hm) as [Hid%String.eqb_eq _].
  rewrite existsb_none.
  2:{ intros t Hin. destruct (Ht t Hin) as [_ Hk]. apply andb_false_iff.
      destruct (String.eqb_spec (t_order_intent_id t) (i_id i)) as [E|]; [right|by left].
      apply String.eqb_neq, Hk. congruence. }
  rewrite existsb_none; [by rewrite He|]. intros t Hin. destruct (Ht t Hin) as [Hne _]. by apply String.eqb_neq.
Qed.

Lemma has_event_moved w i d id :
  has_event id d = false → id ≠ w_event_id w → has_event id (moved_db w i d) = false.
Proof.
  intros He Hne. unfold moved_db, has_event at 1; cbn [c_events].
  destruct (has_event (w_event_id w) d); [done|]. cbn [existsb new_event e_event_id].
  apply orb_false_iff. split; [by apply String.eqb_neq, not_eq_sym|exact He].
Qed.

Lemma moved_ids w d i : map i_id (c_intents (moved_db w i d)) = map i_id (c_intents d).
Proof. cbn [moved_db c_intents]. apply update_where_key. done. Qed.

(** The intent after the write. *)
Lemma moved_In w d i :
  In i (c_intents d) → moved_intent w i = true → In (set_state w i) (c_intents (moved_db w i d)).
Proof.
  intros Hi Hm. cbn [moved_db c_intents]. unfold update_where. apply in_map_iff. exists i. by rewrite Hm.
Qed.

(** ** The situation of one order *)

Context (o : CancelOrderRow) (i : CancelIntentRow) (b client : string) (f : SchedulerFence).

Definition order_target : CancellationTarget := target_of o i.

Definition request (from : AutonomousTradeLifecycleState) : LifecycleWrite :=
  request_write stableRecordId order_target b client (state_name from) now.
Definition claim : LifecycleWrite := claim_write stableRecordId order_target b client now.

(** The order and its intent are recorded, the runner holds the fence, and no
    earlier runner has persisted a claim. *)
Record situation (d : CancellationDb) : Prop := {
  sit_order : In o (c_orders d);
  sit_unique : orders_unique d;
  sit_trimmed : broker_ids_trimmed d;
  sit_broker : o_broker_order_id o = Some b;
  sit_client : o_client_order_id o = client ∧ trim client = client ∧ client ≠ EmptyString ∧ b ≠ EmptyString;
  sit_paper : o_environment o = "paper"%string;
  sit_intents : NoDup (map i_id (c_intents d));
  sit_intent : In i (c_intents d);
  sit_link : o_order_intent_id o = i_id i;
  sit_fence : db_fence f d = true
}.

Definition command (s : CancellationSafety) : CancellationInput :=
  {| fence := f; brokerOrderId := Some b; clientOrderId := None; confirmPaper := true; safety := s;
     maxRecoveryAttempts := None; recoveryDelayMs := None |}.

Definition paper_safety : CancellationSafety :=
  {| environment := "paper"; tradingMode := "paper"; liveTradingEnabled := false;
     paperOrderExecutionEnabled := true; paperOptionsExecutionEnabled := Some true |}.

Lemma truthy_nonempty s : s ≠ EmptyString → str_truthy s = true.
Proof. by destruct s. Qed.

Lemma intent_of_order d : situation d → intent_of d o = Some i.
Proof.
  intros Hs. unfold intent_of. destruct (select_one _ _) as [j|] eqn:E.
  - apply select_one_Some in E as [Hj Hid%String.eqb_eq]. f_equal.
    apply (unique_key i_id (c_intents d)); try apply Hs; [done|]. rewrite Hid. apply Hs.
  - apply (select_one_None _ _ i) in E; [|apply Hs]. cbv beta in E.
    by rewrite (sit_link _ Hs), String.eqb_refl in E.
Qed.

Lemma select_target_order d : situation d → select_target b EmptyString f d = Some order_target.
Proof.
  intros Hs. unfold select_target. rewrite (sit_fence _ Hs).
  set (rows := List.filter _ (joined d)).
  assert (Hin : In (o, i) rows).
  { apply filter_In. split.
    - unfold joined. apply in_flat_map. exists o. split; [apply Hs|]. rewrite intent_of_order by done. by left.
    - cbn [fst]. rewrite (sit_paper _ Hs), (sit_broker _ Hs). cbn [opt_eqb]. rewrite !String.eqb_refl.
      by destruct (str_truthy b). }
  destruct (latest _ _ rows) as [[o' i']|] eqn:E.
  2:{ apply latest_None in E. by rewrite E in Hin. }
  apply latest_In in E. unfold rows in E. apply filter_In in E as [E Hc]. cbn [fst snd fmap option_fmap option_map].
  cbn [fst] in Hc. apply andb_prop in Hc as [Hc _], Hc as [Hc _], Hc as [_ Hc].
  destruct (sit_client _ Hs) as (_ & _ & _ & Hb). pose proof (truthy_nonempty b Hb) as Hb'.
  rewrite Hb' in Hc. cbn [negb orb] in Hc. destruct (o_broker_order_id o') as [b'|] eqn:Eb; [|done].
  apply String.eqb_eq in Hc. subst b'.
  assert (o' = o) as -> by (eapply (sit_unique _ Hs); [by eapply joined_In|apply Hs|done|apply Hs]).
  unfold joined in E. apply in_flat_map in E as (o2 & Ho2 & E).
  destruct (intent_of d o2) as [i2|] eqn:Ei; [|done]. destruct E as [[= -> ->]|[]].
  rewrite intent_of_order in Ei by done. injection Ei as Ei. by subst.
Qed.

(** The broker knows the order under both identifiers. *)
Hypothesis look_identity : ∀ ds, identity_differs (look ds) b client = Ret false.

#[local] Abbreviation go := (run healthy).

Lemma run_assertFence w : db_fence f (db w) = true → go (assertFence f) w = (Ret tt, w).
Proof.
  intros Hf. unfold assertFence. rewrite run_async_bind, run_ask. cbn [healthy execute].
  unfold gets. rewrite Hf. by destruct w.
Qed.

Lemma run_recover delay w st n : ∀ attempt after e,
  db_fence f (db w) = true → order_status (look (orders_of w)) = Ret st →
  go (recover f b client delay (S n) attempt after e) w = (Ret (look (orders_of w), None), w).
Proof using look_identity.
  intros attempt after e Hf Hs. revert attempt after e. induction n as [|n IH]; intros attempt after e;
    cbn [recover]; rewrite run_async_bind, run_assertFence by done; cbn [run healthy];
    unfold observe; rewrite look_identity, Hs; destruct (str_mem st terminalStatuses); try done.
  rewrite run_async_bind. unfold ask_value. cbn [run healthy]. exact (IH _ _ None).
Qed.

Lemma run_write w wr d' c :
  lifecycle_write wr f (db w) = Ret (c, d') →
  go (ask (Sql (WriteLifecycle wr f))) w = (Ret c, with_db w d').
Proof. intros H. rewrite run_ask. cbn [healthy execute]. by rewrite H. Qed.

Lemma run_claim w :
  db_fence f (db w) = true → lifecycle_write claim f (db w) = Ret ((1, 1, 1), moved_db claim i (db w)) →
  go (claimMutation stableRecordId f order_target b client now) w = (Ret true, with_db w (moved_db claim i (db w))).
Proof.
  intros Hf Hc. unfold claimMutation. rewrite run_async_bind, run_assertFence, run_async_bind by done.
  fold claim. by rewrite (run_write w claim _ _ Hc).
Qed.

Lemma run_sendDelete w :
  db_fence f (db w) = true → go (sendDelete f b) w = (Ret tt, with_delete w b (posted b)).
Proof. intros Hf. unfold sendDelete. rewrite run_async_bind, run_assertFence by done. done. Qed.

(** The tail of the open-order branch, once the DELETE is sent or left to an
    earlier runner. *)
Lemma run_tail w st (k : BrokerOrder * option string → async effect (BrokerOrder * CancellationStatus)) :
  db_fence f (db w) = true → order_status (look (orders_of w)) = Ret st →
  go (async_bind (recover f b client 500 8 1 (look []) None) k) w = go (k (look (orders_of w), None)) w.
Proof using look_identity.
  intros Hf Hs. rewrite run_async_bind. change 8%nat with (S 7). by rewrite (run_recover 500 w st 7).
Qed.

(** The intent waits in [s0]. *)
Definition opens : async effect (BrokerOrder * CancellationStatus) :=
  cancelOpenOrder stableRecordId f order_target b client (state_name (i_lifecycle_state i)) 8 500 (look []).

(** The writes of this runner can take effect: no earlier runner used their
    keys, and their digests differ. *)
Definition writes_fresh (d : CancellationDb) : Prop :=
  fresh_write claim d ∧ fresh_write (request (i_lifecycle_state i)) d ∧
  w_transition_id claim ≠ w_transition_id (request (i_lifecycle_state i)) ∧
  w_event_id claim ≠ w_event_id (request (i_lifecycle_state i)).

Lemma claim_fresh_after d :
  writes_fresh d → fresh_write claim (moved_db (request (i_lifecycle_state i)) i d).
Proof.
  intros ([Ht He] & _ & Hti & Hei). split; [|by apply has_event_moved].
  intros t [<-|Hin]; [|by apply Ht]. split; [done|]. by intros _ ?.
Qed.

Lemma request_writes d :
  situation d → writes_fresh d → cancel_requested ∈ transitions (i_lifecycle_state i) →
  lifecycle_write (request (i_lifecycle_state i)) f d = Ret ((1, 1, 1), moved_db (request (i_lifecycle_state i)) i d).
Proof.
  intros Hs (_ & Hfr & _) Hedge. apply lifecycle_write_moves; try apply Hs; try done.
  unfold moved_intent. cbn. rewrite (sit_link _ Hs), !String.eqb_refl. done.
Qed.

Lemma claim_writes d :
  situation d → writes_fresh d → i_lifecycle_state i = cancel_requested →
  lifecycle_write claim f d = Ret ((1, 1, 1), moved_db claim i d).
Proof.
  intros Hs (Hfr & _) Hst. apply lifecycle_write_moves; try apply Hs; try done.
  - unfold moved_intent. cbn. by rewrite (sit_link _ Hs), String.eqb_refl, Hst.
  - rewrite Hst. apply list_elem_of_In; by left.
Qed.

(** The intent after the request. *)
Definition requested : CancelIntentRow := set_state (request (i_lifecycle_state i)) i.

Lemma claim_writes_after d :
  situation d → writes_fresh d →
  let d1 := moved_db (request (i_lifecycle_state i)) i d in
  lifecycle_write claim f d1 = Ret ((1, 1, 1), moved_db claim requested d1).
Proof.
  intros Hs Hf d1.
  assert (Hm : moved_intent (request (i_lifecycle_state i)) i = true)
    by (unfold moved_intent; cbn; by rewrite (sit_link _ Hs), !String.eqb_refl).
  apply lifecycle_write_moves.
  - unfold d1. rewrite moved_ids. apply Hs.
  - by apply moved_In; [apply Hs|].
  - unfold moved_intent. cbn. by rewrite (sit_link _ Hs), String.eqb_refl.
  - apply Hs.
  - apply list_elem_of_In; by left.
  - by apply claim_fresh_after.
Qed.

Hypothesis live : order_status (look []) = Ret "new"%string.
Hypothesis gone : order_status (look [b]) = Ret "canceled"%string.

Definition outcome (r : BrokerOrder * option string) : async effect (BrokerOrder * CancellationStatus) :=
  let '(after, e) := r in
  match e with
  | Some _ => reject "POSTGRES_CANCEL_RECOVERY_INFRASTRUCTURE_UNRESOLVED"
  | None =>
      let! s := sync (order_status after) in
      async_ret (after, if (s =? "canceled")%string || (s =? "cancelled")%string then canceled
                        else if str_mem s terminalStatuses then already_terminal
                        else cancellation_pending)
  end.

Lemma run_delete d :
  db_fence f d = true →
  go (let! _ := sendDelete f b in
      let! r := recover f b client 500 8 1 (look []) None in outcome r) {| db := d; deletes := [] |} =
  (Ret (look [b], canceled), {| db := d; deletes := [call b] |}).
Proof using look_identity gone.
  intros Hf. rewrite run_async_bind, run_sendDelete by done.
  change (with_delete _ _ _) with {| db := d; deletes := [call b] |}.
  rewrite run_async_bind. change 8%nat with (S 7).
  rewrite (run_recover 500 {| db := d; deletes := [call b] |} _ 7 1 (look []) None Hf gone).
  cbn [outcome]. rewrite run_async_bind. cbn [orders_of deletes map call del_order]. rewrite gone. done.
Qed.

Lemma run_open_start w :
  go opens w =
  go (let! _ := persistRequest stableRecordId f order_target b client (state_name (i_lifecycle_state i)) now in
      let! c := if (state_name (i_lifecycle_state i) =? "cancel_ambiguous")%string then async_ret true
                else claimMutation stableRecordId f order_target b client now in
      let! _ := if c && negb (state_name (i_lifecycle_state i) =? "cancel_ambiguous")%string
                then sendDelete f b else async_ret tt in
      let! r := recover f b client 500 8 1 (look []) None in outcome r) w.
Proof.
  unfold opens, cancelOpenOrder. rewrite run_async_bind. cbn [sync run].
  assert (required (Some (state_name (i_lifecycle_state i))) "POSTGRES_CANCEL_LIFECYCLE_STATE_MISSING" =
    Ret (state_name (i_lifecycle_state i))) as -> by by destruct (i_lifecycle_state i).
  rewrite run_async_bind. done.
Qed.

Lemma state_name_inj s t : state_name s = state_name t → s = t.
Proof. intros H. pose proof (state_of_state_name s) as E. rewrite H, state_of_state_name in E. by injection E. Qed.

Lemma state_name_eqb s t : (state_name s =? state_name t)%string = bool_decide (s = t).
Proof.
  case_bool_decide as H; [by subst; apply String.eqb_refl|].
  apply String.eqb_neq. by intros ?%state_name_inj.
Qed.

(** The DELETE was left to an earlier runner: the order is looked up only. *)
Lemma run_open_claimed d :
  situation d → i_lifecycle_state i = cancel_ambiguous →
  go opens {| db := d; deletes := [] |} = (Ret (look [], cancellation_pending), {| db := d; deletes := [] |}).
Proof using look_identity live.
  intros Hs Hst. rewrite run_open_start, Hst. rewrite !run_async_bind. cbn -[recover].
  rewrite run_async_bind. change 8%nat with (S 7).
  rewrite (run_recover 500 {| db := d; deletes := [] |} _ 7 1 (look []) None (sit_fence _ Hs) live).
  cbn [outcome]. rewrite run_async_bind. cbn [orders_of deletes map]. by rewrite live.
Qed.

(** After the claim of this runner, one call of the client. *)
Lemma run_claim_and_delete d j :
  db_fence f d = true → lifecycle_write claim f d = Ret ((1, 1, 1), moved_db claim j d) →
  state_name (i_lifecycle_state i) ≠ "cancel_ambiguous"%string →
  go (let! c := if (state_name (i_lifecycle_state i) =? "cancel_ambiguous")%string then async_ret true
                else claimMutation stableRecordId f order_target b client now in
      let! _ := if c && negb (state_name (i_lifecycle_state i) =? "cancel_ambiguous")%string
                then sendDelete f b else async_ret tt in
      let! r := recover f b client 500 8 1 (look []) None in outcome r) {| db := d; deletes := [] |} =
  (Ret (look [b], canceled), {| db := moved_db claim j d; deletes := [call b] |}).
Proof using look_identity gone.
  intros Hf Hc Hst%String.eqb_neq. rewrite Hst. cbn [negb].
  rewrite run_async_bind. unfold claimMutation. rewrite run_async_bind, run_assertFence by done.
  rewrite run_async_bind. fold claim. rewrite (run_write {| db := d; deletes := [] |} claim _ _ Hc).
  cbn [run async_ret andb bool_decide]. exact (run_delete (moved_db claim j d) Hf).
Qed.

Lemma run_open_requested d :
  situation d → writes_fresh d → i_lifecycle_state i = cancel_requested →
  go opens {| db := d; deletes := [] |} =
    (Ret (look [b], canceled), {| db := moved_db claim i d; deletes := [call b] |}).
Proof using look_identity gone.
  intros Hs Hf Hst. rewrite run_open_start, run_async_bind.
  replace (go _ _) with (Ret tt : res unit, {| db := d; deletes := [] |}) by by rewrite Hst.
  apply run_claim_and_delete; [apply Hs|by apply claim_writes|by rewrite Hst].
Qed.

Lemma run_open_other d :
  situation d → writes_fresh d → i_lifecycle_state i ≠ cancel_ambiguous →
  i_lifecycle_state i ≠ cancel_requested → cancel_requested ∈ transitions (i_lifecycle_state i) →
  let d1 := moved_db (request (i_lifecycle_state i)) i d in
  go opens {| db := d; deletes := [] |} =
    (Ret (look [b], canceled), {| db := moved_db claim requested d1; deletes := [call b] |}).
Proof using look_identity gone.
  intros Hs Hf Ha Hr Hedge d1. rewrite run_open_start, run_async_bind. unfold persistRequest.
  change "cancel_requested"%string with (state_name cancel_requested).
  change "cancel_ambiguous"%string with (state_name cancel_ambiguous).
  rewrite !state_name_eqb, !bool_decide_eq_false_2 by done. cbn [orb].
  rewrite run_async_bind. fold (request (i_lifecycle_state i)).
  rewrite (run_write {| db := d; deletes := [] |} (request (i_lifecycle_state i)) _ _
    (request_writes d Hs Hf Hedge)).
  cbn [run reject_if bool_decide negb async_ret with_db deletes].
  pose proof (run_claim_and_delete d1 requested (sit_fence _ Hs) (claim_writes_after d Hs Hf)) as H.
  change "cancel_ambiguous"%string with (state_name cancel_ambiguous) in H.
  rewrite !state_name_eqb, !bool_decide_eq_false_2 in H by done. apply H. by intros ?%state_name_inj.
Qed.

(** No edge leads to cancel_requested: the trigger rejects the request. *)
Lemma run_open_rejected d :
  situation d → i_lifecycle_state i ≠ cancel_ambiguous → i_lifecycle_state i ≠ cancel_requested →
  cancel_requested ∉ transitions (i_lifecycle_state i) →
  go opens {| db := d; deletes := [] |} =
    (Throw "INVALID_LIFECYCLE_TRANSITION", {| db := d; deletes := [] |}).
Proof.
  intros Hs Ha Hr Hedge. rewrite run_open_start, run_async_bind. unfold persistRequest.
  change "cancel_requested"%string with (state_name cancel_requested).
  change "cancel_ambiguous"%string with (state_name cancel_ambiguous).
  rewrite !state_name_eqb, !bool_decide_eq_false_2 by done. cbn [orb].
  rewrite run_async_bind. fold (request (i_lifecycle_state i)). rewrite run_ask. cbn [healthy execute db].
  assert (lifecycle_write (request (i_lifecycle_state i)) f d = Throw "INVALID_LIFECYCLE_TRANSITION") as ->; [|done].
  unfold lifecycle_write. destruct (select_one _ (c_intents d)) as [j|] eqn:E.
  - apply select_one_Some in E as [Hj [Hm _]%andb_prop].
    assert (j = i) as ->.
    { apply (unique_key i_id (c_intents d)); try apply Hs; [done|].
      apply andb_prop in Hm as [Hm%String.eqb_eq _]. rewrite Hm. apply Hs. }
    by rewrite bool_decide_eq_false_2.
  - apply (select_one_None _ _ i) in E; [|apply Hs]. cbv beta in E. unfold moved_intent in E. cbn in E.
    by rewrite (sit_link _ Hs), !String.eqb_refl, (sit_fence _ Hs) in E.
Qed.

(** The whole command: selection, first look, the branch above, reconciliation. *)
Lemma run_command d :
  situation d →
  go (runPostgresPaperOrderCancellation stableRecordId (command paper_safety)) {| db := d; deletes := [] |} =
  go (let! (after, st) := opens in
      let! errors := ask (Reconcile client after) in
      let! _ := reject_if (0 <? errors) "POSTGRES_CANCEL_RECONCILIATION_FAILED" in
      let! s := sync (order_status after) in
      async_ret {| status := st; resultBrokerOrderId := b; resultClientOrderId := client; brokerStatus := s |})
    {| db := d; deletes := [] |}.
Proof using look_identity live.
  intros Hs. destruct (sit_client _ Hs) as (Hc & Htc & Hce & Hbe).
  assert (Htb : trim b = b) by (apply (sit_trimmed _ Hs o); apply Hs).
  pose proof (truthy_nonempty _ Hbe) as Hb1. pose proof (truthy_nonempty _ Hce) as Hc1.
  unfold runPostgresPaperOrderCancellation. rewrite run_async_bind. cbn [sync run assertSafety command].
  change (trim (default EmptyString (clientOrderId (command paper_safety)))) with EmptyString.
  cbv zeta. cbn [brokerOrderId command default from_option id fence safety confirmPaper maxRecoveryAttempts recoveryDelayMs].
  rewrite Htb. change (assertSafety paper_safety true) with (Ret tt : res unit). cbv iota.
  change (str_truthy EmptyString) with false. rewrite run_async_bind, Hb1. cbn [negb andb reject_if run async_ret].
  rewrite run_async_bind, run_ask. cbn [healthy execute db gets]. rewrite (select_target_order d Hs).
  change (with_db {| db := d; deletes := [] |} d) with {| db := d; deletes := [] |}. cbv iota.
  assert (Hopt : ∀ s, (to_lower s =? "option")%string &&
    negb (bool_decide (paperOptionsExecutionEnabled paper_safety = Some true)) = false)
    by (intros s; apply andb_false_r).
  rewrite run_async_bind, Hopt. cbn [reject_if run async_ret].
  cbn [order_target target_of broker_order_id client_order_id]. rewrite (sit_broker _ Hs), Hc.
  assert (Hreq : ∀ x c, trim x = x → str_truthy x = true → required (Some x) c = Ret x).
  { intros x c Ht1 Ht2. unfold required. cbn [default from_option id]. by rewrite Ht1, Ht2. }
  rewrite run_async_bind. rewrite (Hreq b) by done. cbn [sync run].
  rewrite run_async_bind. rewrite (Hreq client) by done. cbn [sync run].
  rewrite run_async_bind, String.eqb_refl. cbn [negb andb orb reject_if run async_ret].
  rewrite run_async_bind, run_ask. cbn [healthy orders_of deletes map].
  rewrite run_async_bind, look_identity. cbn [sync run]. rewrite run_async_bind. cbn [reject_if run async_ret].
  rewrite run_async_bind, live. cbn [sync run].
  change (str_mem "new" terminalStatuses) with false. cbn [policy DEFAULT_CANCEL_RECOVERY_ATTEMPTS].
  replace (to_lower (trim (lifecycle_state order_target))) with (state_name (i_lifecycle_state i))
    by (unfold order_target, target_of; cbn [lifecycle_state]; by destruct (i_lifecycle_state i)).
  done.
Qed.

Definition ends (st : CancellationStatus) (s : string) : CancellationResult :=
  {| status := st; resultBrokerOrderId := b; resultClientOrderId := client; brokerStatus := s |}.

Lemma run_command_end d after st s w :
  situation d → go opens {| db := d; deletes := [] |} = (Ret (after, st), w) → order_status after = Ret s →
  go (runPostgresPaperOrderCancellation stableRecordId (command paper_safety)) {| db := d; deletes := [] |} =
    (Ret (ends st s), w).
Proof using look_identity live.
  intros Hs Hr Ha. rewrite run_command by done. rewrite run_async_bind, Hr, run_async_bind, run_ask.
  cbn [healthy]. rewrite run_async_bind. change (0 <? 0) with false. cbn [reject_if run async_ret].
  by rewrite run_async_bind, Ha.
Qed.

Lemma claim_recorded d j : has_event (w_event_id claim) (moved_db claim j d) = true.
Proof.
  unfold moved_db, has_event at 1. cbn [c_events]. destruct (has_event (w_event_id claim) d) eqn:E; [done|].
  cbn [existsb new_event e_event_id]. by rewrite String.eqb_refl.
Qed.
End undisturbed.

(** An undisturbed runner does its job, also after a crash of an earlier
    one.  For a live order whose broker and database answer, the command sends
    exactly one DELETE, persists the claim and the state cancel_ambiguous, and
    ends as canceled, when the trade may still request a cancellation or an
    earlier runner died after requesting it; it sends none and only looks the
    order up when an earlier runner claimed the DELETE; and it is refused by the
    trigger, without a DELETE, in every other state. *)
Theorem undisturbed_cancellation stableRecordId posted look now o i b client f d :
  situation o i b client f d →
  (∀ ds, identity_differs (look ds) b client = Ret false) →
  order_status (look []) = Ret "new"%string → order_status (look [b]) = Ret "canceled"%string →
  (i_lifecycle_state i ≠ cancel_ambiguous → writes_fresh stableRecordId now o i b client d) →
  let '(r, w) := run (healthy posted look now)
    (runPostgresPaperOrderCancellation stableRecordId (command b f paper_safety)) {| db := d; deletes := [] |} in
  if bool_decide (i_lifecycle_state i = cancel_ambiguous)
  then r = Ret (ends b client cancellation_pending "new") ∧ deletes w = []
  else if bool_decide (i_lifecycle_state i = cancel_requested) ||
          bool_decide (cancel_requested ∈ transitions (i_lifecycle_state i))
  then r = Ret (ends b client canceled "canceled") ∧ deletes w = [call posted b] ∧
       has_event (w_event_id (claim stableRecordId now o i b client)) (db w) = true ∧
       ∃ j, In j (c_intents (db w)) ∧ i_id j = i_id i ∧ i_lifecycle_state j = cancel_ambiguous
  else r = Throw "INVALID_LIFECYCLE_TRANSITION" ∧ w = {| db := d; deletes := [] |}.
Proof.
  intros Hs Hid Hlive Hgone Hfresh.
  case_bool_decide as Ha.
  { erewrite (run_command_end _ _ _ _ _ _ _ _ _ Hid Hlive _ _ _ _ _ Hs (run_open_claimed _ _ _ _ _ _ _ _ _ Hid Hlive d Hs Ha) Hlive).
    done. }
  specialize (Hfresh Ha). case_bool_decide as Hr; cbn [orb].
  { erewrite (run_command_end _ _ _ _ _ _ _ _ _ Hid Hlive _ _ _ _ _ Hs
      (run_open_requested _ _ _ _ _ _ _ _ _ Hid Hgone d Hs Hfresh Hr) Hgone).
    split; [done|]. split; [done|]. split; [apply claim_recorded|].
    eexists. split; [apply moved_In; [apply Hs|]|done].
    unfold moved_intent. cbn. by rewrite (sit_link _ _ _ _ _ _ Hs), String.eqb_refl, Hr. }
  case_bool_decide as He.
  { erewrite (run_command_end _ _ _ _ _ _ _ _ _ Hid Hlive _ _ _ _ _ Hs
      (run_open_other _ _ _ _ _ _ _ _ _ Hid Hgone d Hs Hfresh Ha Hr He) Hgone).
    split; [done|]. split; [done|]. split; [apply claim_recorded|].
    eexists. split; [apply moved_In|done].
    - apply moved_In; [apply Hs|]. unfold moved_intent. cbn. by rewrite (sit_link _ _ _ _ _ _ Hs), !String.eqb_refl.
    - unfold moved_intent. cbn. by rewrite (sit_link _ _ _ _ _ _ Hs), String.eqb_refl. }
  rewrite (run_command _ _ _ _ _ _ _ _ _ Hid Hlive d Hs), run_async_bind.
  by rewrite (run_open_rejected _ _ _ _ _ _ _ _ _ d Hs Ha Hr He).
Qed.

(** ** Concrete inputs *)

Definition sample_fence : SchedulerFence :=
  {| fence_job_name := "cancel"; fence_workstream := "exit"; fence_owner_id := "host"; fence_run_id := "run";
     fence_token := "7" |}.
Definition sample_lease : SchedulerLeaseRow :=
  {| lease_job_name := "cancel"; lease_workstream := "exit"; lease_owner_id := "host"; lease_run_id := "run";
     lease_fencing_token := 7; lease_status := held; lease_acquired_at := 0; lease_heartbeat_at := 0;
     lease_expires_at := 60000; lease_released_at := None; lease_release_reason := None; lease_version := 1 |}.
Definition sample_order : CancelOrderRow :=
  {| o_id := "order-1"; o_order_intent_id := "intent-1"; o_account_id := "account-1";
     o_broker_order_id := Some "broker-1"%string; o_client_order_id := "client-1"; o_environment := "paper";
     o_status := "accepted"; o_quantity := Some (5#1)%Q; o_filled_quantity := 0%Q; o_submitted_at := Some 0;
     o_created_at := 0 |}.
Definition sample_intent : CancelIntentRow :=
  {| i_id := "intent-1"; i_asset_class := "equity"; i_lifecycle_state := broker_order_accepted;
     i_execution_review_id := None; i_candidate_id := None; i_true_fields := []; i_updated_at := 0; i_version := 1 |}.
Definition sample_db : CancellationDb :=
  {| c_now := 1000; c_leases := [sample_lease]; c_orders := [sample_order]; c_intents := [sample_intent];
     c_review_expiries := []; c_candidate_statuses := []; c_transitions := []; c_events := [] |}.
Definition sample_id (scope key : string) : string := (scope ++ "/" ++ key)%string.
Definition sample_look (ds : list string) : BrokerOrder :=
  {| bo_id := Some "broker-1"%string; bo_client_order_id := Some "client-1"%string;
     bo_status := Some (if str_mem "broker-1" ds then "canceled" else "new")%string |}.

(** A client with credentials and a broker that answers 204. *)
Definition sample_env : Environment := λ name,
  if (name =? "ALPACA_PAPER_API_KEY")%string then Some "key"%string
  else if (name =? "ALPACA_PAPER_SECRET_KEY")%string then Some "secret"%string else None.
Definition sample_net (X : Type) (e : http X) : unit → X * unit :=
  match e in http X return unit → X * unit with
  | Fetch _ _ => λ w, (Responded 204 None JNull, w)
  | ReadClock => λ w, (num_of_Z 0, w)
  | SignalAborted => λ w, (false, w)
  | Pause _ => λ w, ((false, false), w)
  end.
Definition sample_posted (id : string) : list (HttpRequest * HttpOutcome) :=
  fetched (run_until sample_net (λ _ _, false) (cancelPaperOrder sample_env id) tt).1.

Lemma sample_posted_possible id : cancellation_call sample_env (λ s, s) id (Ret tt) (sample_posted id).
Proof.
  eexists _, _. split; [exact (run_until_path sample_net (λ _ _, false) (cancelPaperOrder sample_env id) tt)|].
  split; [reflexivity|]. rewrite run_until_done. by intros o [= <-].
Qed.

Lemma sample_situation : situation sample_order sample_intent "broker-1" "client-1" sample_fence sample_db.
Proof.
  split; try by left.
  - by intros o1 o2 b [<-|[]] [<-|[]] _ _.
  - intros o b [<-|[]] [= <-]. reflexivity.
  - reflexivity.
  - done.
  - reflexivity.
  - apply NoDup_singleton.
  - reflexivity.
  - vm_compute. reflexivity.
Qed.

Lemma undisturbed_cancellation_witness :
  let '(r, w) := run (healthy sample_posted sample_look 2000)
    (runPostgresPaperOrderCancellation sample_id (command "broker-1" sample_fence paper_safety))
    {| db := sample_db; deletes := [] |} in
  r = Ret (ends "broker-1" "client-1" canceled "canceled") ∧ deletes w = [call sample_posted "broker-1"] ∧
  has_event (w_event_id (claim sample_id 2000 sample_order sample_intent "broker-1" "client-1")) (db w) = true ∧
  ∃ j, In j (c_intents (db w)) ∧ i_id j = "intent-1"%string ∧ i_lifecycle_state j = cancel_ambiguous.
Proof.
  apply (undisturbed_cancellation sample_id sample_posted sample_look 2000 sample_order sample_intent "broker-1" "client-1"
    sample_fence sample_db sample_situation); try reflexivity.
  intros _. split; [split; [by intros t []|reflexivity]|].
  split; [split; [by intros t []|reflexivity]|split; intros H; by vm_compute in H].
Defined.

(** Two commands for the same order: one call of the client. *)
Definition sample_input : CancellationInput := command "broker-1" sample_fence paper_safety.
Definition sample_run (w : World) : World :=
  (run (healthy sample_posted sample_look 2000) (let! r := runPostgresPaperOrderCancellation sample_id sample_input in
                                   async_ret (Some r)) w).2.

Lemma sample_history w : ∃ s, history sample_env (λ s, s) sample_id w s ∧ world s = sample_run (sample_run w).
Proof.
  eexists. split.
  - eapply rtc_trans; [apply (command_history sample_id sample_env (λ s, s) sample_posted sample_posted_possible sample_look 2000 sample_input w [])|].
    apply (command_history sample_id sample_env (λ s, s) sample_posted sample_posted_possible sample_look 2000 sample_input).
  - reflexivity.
Qed.

Lemma cancellation_sent_at_most_once_witness :
  let w := {| db := sample_db; deletes := [] |} in
  ∃ s, history sample_env (λ s, s) sample_id w s ∧ world s = sample_run (sample_run w) ∧
    deletes (world s) = [call sample_posted "broker-1"] ∧ List.length (sample_posted "broker-1") = 1%nat ∧
    one_request sample_env (delete_request (λ s, s) "broker-1") (sample_posted "broker-1") ∧
    has_event (claim_event sample_id "broker-1" "account-1" "client-1") (db (world s)) = true.
Proof.
  intros w. destruct (sample_history w) as (s & Hh & Hw). exists s. split; [exact Hh|]. split; [exact Hw|].
  assert (Hd : deletes (world s) = [call sample_posted "broker-1"]) by (rewrite Hw; vm_compute; reflexivity).
  split; [exact Hd|]. split; [vm_compute; reflexivity|].
  destruct (cancellation_sent_at_most_once sample_env (λ s, s) sample_id "broker-1" "account-1" "client-1" w s) as [_ H];
    [| |exact Hh|].
  - split; [|split].
    + by intros o1 o2 b [<-|[]] [<-|[]] _ _.
    + intros o b [<-|[]] [= <-]. reflexivity.
    + exists sample_order. split; [by left|]. done.
  - reflexivity.
  - destruct (H (call sample_posted "broker-1")) as [He Ho]; [rewrite Hd; by left|reflexivity|]. by split.
Defined.
