(* ===== verification/Reconciliation.v ===== *)
(** Reconciling paper orders, the database side: the statements of
    [reconcilePostgresPaperOrders] and [recordBrokerOrderAbsence] of
    src/services/postgresReconciliationService.ts.

    The tables are those of Submission.v with the transitions of migration 006
    and the time that migration was applied.  Every statement is autocommitted:
    its data-modifying parts read one snapshot and commit together, and what the
    program decides afterwards on the counts it returns does not take the writes
    back.

    [numeric_ratio] is the division of the database, whose result is rounded to
    a scale of its choice. *)

From Stdlib Require Import Qminmax.
From S2P Require Import Prelude.
From S2P Require Import JsString.
From S2P Require Import JsNumber.
From S2P Require Import JsText.
From S2P Require Import JsJson.
From S2P Require Import CanonicalJson.
From S2P Require Import TradeLifecycle.
From S2P Require Import SchedulerLease.
From S2P Require Import ExecutionTables.
From S2P Require Import ExecutionReservation.
From S2P Require Import BrokerResult.
From S2P Require Import Submission.
Open Scope Z_scope.

(** ** Tables *)

(** autonomous_trade_lifecycle_transitions; its evidence and the snapshot of the
    authorization are not kept. *)
Record TransitionRow := {
  tr_id : string;
  tr_intent_id : string;
  tr_from_state : state;
  tr_to_state : state;
  tr_operation : option string;
  tr_idempotency_key : string;
  tr_cycle_id : option string;
  tr_workstream_execution_id : option string;
  tr_occurred_at : Z
}.

(** [r_cutover] is [applied_at] of migration 6 in schema_migrations. *)
Record ReconcileDb := {
  r_sub : SubmissionDb;
  r_transitions : list TransitionRow;
  r_cutover : option Z
}.

Definition set_sub (x : SubmissionDb) (d : ReconcileDb) : ReconcileDb :=
  {| r_sub := x; r_transitions := r_transitions d; r_cutover := r_cutover d |}.
Definition set_transitions (x : list TransitionRow) (d : ReconcileDb) : ReconcileDb :=
  {| r_sub := r_sub d; r_transitions := x; r_cutover := r_cutover d |}.

(** A statement on the tables of Submission.v. *)
Definition sub {A} (m : tx SubmissionDb A) : tx ReconcileDb A := λ d,
  match m (r_sub d) with Ret (a, x) => Ret (a, set_sub x d) | Throw c => Throw c end.
Definition tables {A} (m : tx ExecDb A) : tx ReconcileDb A := sub (exec m).

Definition rows (d : ReconcileDb) : ExecDb := s_exec (r_sub d).

(** ** Orders to look up *)

Record Target := {
  t_order_intent_id : string;
  t_candidate_id : option string;
  t_account_id : string;
  t_client_order_id : string;
  t_broker_order_id : option string;
  t_reservation_id : option string;
  t_strategy_key : string;
  t_review_type : ReviewType;
  t_symbol : string;
  t_asset_class : ExecutionAssetClass;
  t_side : ExecutionSide;
  t_order_type : ExecutionOrderType;
  t_time_in_force : ExecutionTimeInForce;
  t_quantity : option string;
  t_notional : option string;
  t_limit_price : option string;
  t_intent_status : IntentStatus;
  t_intent_updated_at : Z;
  t_lifecycle_state : string;
  t_prior_filled_quantity : option string
}.

(** A reservation that still holds its amount. *)
Definition unsettled (r : ReservationRow) : bool :=
  bool_decide (resv_status r ∈ [ReservationActive; ReservationCommitted]).

Definition settles (id : string) (t : TerminalTransitionRow) : bool := (tt_reservation_id t =? id)%string.

(** The WHERE clause of [targetsSql]. *)
Definition needs_reconciliation (d : SubmissionDb) (i : IntentRow) : bool :=
  bool_decide (intent_status i ∈ [IntentPending; IntentSubmitted; IntentAmbiguous])
  || bool_decide (intent_status i = IntentReconciled)
     && match intent_reservation_id i with
        | Some id => existsb (λ r, (resv_id r =? id)%string && unsettled r) (db_reservations (s_exec d))
                     && negb (existsb (settles id) (s_terminals d))
        | None => false
        end.

(** The newest order of an intent. *)
Definition newest_order (d : ExecDb) (intent : string) : option OrderRow :=
  latest order_created_at ExecutionTables.order_id
    (List.filter (λ o, (order_intent_id o =? intent)%string) (db_orders d)).

Definition target_of (i : IntentRow) (r : ReviewRow) (l : LifecycleColumns) (o : option OrderRow) : Target :=
  {| t_order_intent_id := intent_id i; t_candidate_id := intent_candidate_id i; t_account_id := intent_account_id i;
     t_client_order_id := intent_client_order_id i;
     t_broker_order_id := match o with Some o => order_broker_order_id o | None => None end;
     t_reservation_id := intent_reservation_id i; t_strategy_key := intent_strategy_key i;
     t_review_type := rv_reviewType (review_input r); t_symbol := intent_symbol i;
     t_asset_class := intent_asset_class i; t_side := intent_side i; t_order_type := intent_order_type i;
     t_time_in_force := intent_time_in_force i; t_quantity := quantity_text (intent_quantity i);
     t_notional := amount_text (intent_notional i); t_limit_price := amount_text (intent_limit_price i);
     t_intent_status := intent_status i; t_intent_updated_at := intent_updated_at i;
     t_lifecycle_state := lc_lifecycle_state l;
     t_prior_filled_quantity := (λ o, numeric_text 12 (order_filled_quantity o)) <$> o |}.

Definition joined_target (d : SubmissionDb) (i : IntentRow) : option Target :=
  match review_of (s_exec d) i, lifecycle_of d (intent_id i) with
  | Some r, Some l => Some (target_of i r l (newest_order (s_exec d) (intent_id i)))
  | _, _ => None
  end.

(** [targetsSql] *)
Definition list_targets (clientOrderId : string) (d : ReconcileDb) : list Target :=
  omap (joined_target (r_sub d))
    (sort_by created_before
       (List.filter (λ i, needs_reconciliation (r_sub d) i
                          && (negb (str_truthy clientOrderId) || (intent_client_order_id i =? clientOrderId)%string))
          (db_intents (rows d)))).

(** ** What the broker said, as parameters of a statement *)

Record Observation := {
  ob_intent_id : string;
  ob_order : OrderRow;
  ob_event : EventRow;
  ob_status : IntentStatus;
  ob_state : state;
  ob_steps : list (state * state);
  ob_transition_id : string;
  ob_key : string;
  ob_submitted_at : option Z;
  ob_now : Z
}.

Record ObservationCounts := {
  stored_order_count : nat;
  event_count : nat;
  lifecycle_transition_count : nat;
  updated_intent_count : nat;
  partial_reservation_count : nat;
  adjusted_allocation_count : nat
}.

Definition no_counts : ObservationCounts :=
  {| stored_order_count := 0; event_count := 0; lifecycle_transition_count := 0; updated_intent_count := 0;
     partial_reservation_count := 0; adjusted_allocation_count := 0 |}.

Definition reconcilable (id : string) (i : IntentRow) : bool :=
  (intent_id i =? id)%string
  && bool_decide (intent_status i ∈ [IntentPending; IntentSubmitted; IntentAmbiguous; IntentReconciled]).

(** current_order_intent *)
Definition current_intent (fence : SchedulerFence) (id : string) (d : ReconcileDb)
    : option (IntentRow * LifecycleColumns) :=
  if held fence (r_sub d) then
    match select_one (reconcilable id) (db_intents (rows d)), lifecycle_of (r_sub d) id with
    | Some i, Some l => Some (i, l)
    | _, _ => None
    end
  else None.

(** lifecycle_path_guard *)
Definition path_allowed (o : Observation) (l : LifecycleColumns) : bool :=
  match ob_steps o with
  | [] => (lc_lifecycle_state l =? state_name (ob_state o))%string
  | (from, _) :: _ =>
      (lc_lifecycle_state l =? state_name from)%string
      && bool_decide (snd <$> last (ob_steps o) = Some (ob_state o))
  end.

(** ON CONFLICT (account_id, client_order_id) DO UPDATE *)
Definition greatest (a b : option Z) : option Z :=
  match a, b with Some x, Some y => Some (Z.max x y) | Some x, None => Some x | None, y => y end.

Definition observe_order (new old : OrderRow) : OrderRow :=
  {| ExecutionTables.order_id := ExecutionTables.order_id old; order_account_id := order_account_id old;
     order_intent_id := order_intent_id old; order_broker_order_id := order_broker_order_id new;
     order_client_order_id := order_client_order_id old; order_parent_order_id := order_parent_order_id old;
     order_replacement_order_id := order_replacement_order_id old; order_symbol := order_symbol old;
     order_asset_class := order_asset_class old; order_side := order_side old;
     order_order_type := order_order_type old; order_time_in_force := order_time_in_force old;
     order_status := order_status new; order_quantity := order_quantity new; order_notional := order_notional new;
     order_limit_price := order_limit_price new; order_stop_price := order_stop_price old;
     order_filled_quantity := order_filled_quantity new;
     order_filled_average_price := order_filled_average_price new;
     order_broker_request_id := order_broker_request_id new; order_submitted_at := order_submitted_at old;
     order_last_broker_update_at := greatest (order_last_broker_update_at old) (order_last_broker_update_at new);
     order_raw_status := order_raw_status new; order_version := order_version old + 1;
     order_created_at := order_created_at old;
     order_updated_at := Z.max (Z.max (order_updated_at old) (order_created_at old)) (order_updated_at new) |}.

(** stored_order *)
Definition store_order (new : OrderRow) : tx ExecDb unit := λ d,
  match select_one (same_client_order new) (db_orders d) with
  | None => insert_row order_conflicts order_checks db_orders set_orders new d
  | Some old =>
      let merged := observe_order new old in
      if existsb (λ o, negb (ExecutionTables.order_id o =? ExecutionTables.order_id old)%string
                       && same_broker_order merged o) (db_orders d)
      then Throw unique_violation
      else if order_checks merged
      then Ret (tt, set_orders (update_where (same_client_order new) (observe_order new) (db_orders d)) d)
      else Throw check_failed
  end.

(** The identifier the statement returns. *)
Definition stored_order_id (new : OrderRow) (d : ExecDb) : string :=
  match select_one (same_client_order new) (db_orders d) with
  | Some old => ExecutionTables.order_id old
  | None => ExecutionTables.order_id new
  end.

Definition ordinal_text (n : nat) : string := nat_text (Z.of_nat n).

Definition new_transition (o : Observation) (l : LifecycleColumns) (ordinal : nat) (step : state * state)
    : TransitionRow :=
  {| tr_id := (ob_transition_id o ++ ":" ++ ordinal_text ordinal)%string; tr_intent_id := ob_intent_id o;
     tr_from_state := fst step; tr_to_state := snd step; tr_operation := lc_operation l;
     tr_idempotency_key := (ob_key o ++ ":" ++ ordinal_text ordinal)%string;
     tr_cycle_id := lc_autonomous_cycle_id l; tr_workstream_execution_id := lc_workstream_execution_id l;
     tr_occurred_at := ob_now o |}.

Definition same_transition_key (a b : TransitionRow) : bool :=
  (tr_intent_id a =? tr_intent_id b)%string && (tr_idempotency_key a =? tr_idempotency_key b)%string.

(** One row of lifecycle_transition: the trigger checks the edge, a used key is
    skipped, and a used identifier is an error. *)
Definition insert_transition (t : TransitionRow) : tx ReconcileDb nat := λ d,
  if negb (bool_decide (tr_to_state t ∈ transitions (tr_from_state t))) then Throw "INVALID_LIFECYCLE_TRANSITION"
  else if existsb (same_transition_key t) (r_transitions d) then Ret (0%nat, d)
  else if existsb (λ x, (tr_id x =? tr_id t)%string) (r_transitions d) then Throw unique_violation
  else Ret (1%nat, set_transitions (r_transitions d ++ [t]) d).

Fixpoint insert_transitions (ts : list TransitionRow) : tx ReconcileDb nat :=
  match ts with
  | [] => mret 0%nat
  | t :: ts' => n ← insert_transition t; m ← insert_transitions ts'; mret (n + m)%nat
  end.

Definition observed_intent (o : Observation) (i : IntentRow) : IntentRow :=
  set_intent (ob_status o) (intent_reservation_id i) (intent_confirmation_id i) (intent_lifecycle_fingerprint i)
    (intent_ready_at i) (or_else (intent_submitted_at i) (ob_submitted_at o))
    (if bool_decide (ob_status o = IntentReconciled) then Some (ob_now o) else intent_terminal_at i) (ob_now o) i.

(** updated_intent and reconciliation_event; the event names the stored order. *)
Definition update_observed (o : Observation) (orderId : string) : tx ReconcileDb (nat * nat) :=
  n ← sub (update_intent (reconcilable (ob_intent_id o)) (observed_intent o));
  _ ← sub (update_lifecycle (ob_intent_id o) (in_state (state_name (ob_state o))));
  e ← sub (insert_event
        (let e := ob_event o in
         {| event_id := event_id e; event_account_id := event_account_id e; event_order_id := Some orderId;
            event_intent_id := event_intent_id e; event_broker_order_id := event_broker_order_id e;
            event_client_order_id := event_client_order_id e; event_type := event_type e;
            event_status := event_status e; event_request_id := event_request_id e;
            event_http_status := event_http_status e; event_error_classification := event_error_classification e;
            event_retryable := event_retryable e; event_response_payload := event_response_payload e;
            event_response_fingerprint := event_response_fingerprint e; event_occurred_at := event_occurred_at e;
            event_received_at := event_received_at e |}));
  mret (n, e).

(** From stored_order on, when the guards let it pass. *)
Definition observe (o : Observation) (l : LifecycleColumns) (settle : tx ReconcileDb (nat * nat))
    : tx ReconcileDb ObservationCounts :=
  orderId ← gets (λ d, stored_order_id (ob_order o) (rows d));
  _ ← tables (store_order (ob_order o));
  partial ← settle;
  k ← insert_transitions (imap (λ n, new_transition o l (S n)) (ob_steps o));
  written ← (if bool_decide (ob_steps o = []) || (k =? List.length (ob_steps o))%nat
             then update_observed o orderId else mret (0, 0)%nat);
  mret {| stored_order_count := 1; event_count := snd written; lifecycle_transition_count := k;
          updated_intent_count := fst written; partial_reservation_count := fst partial;
          adjusted_allocation_count := snd partial |}.

(** The statement for a status other than a partial fill. *)
Definition store_observation (fence : SchedulerFence) (o : Observation) : tx ReconcileDb ObservationCounts := λ d,
  match current_intent fence (ob_intent_id o) d with
  | Some (_, l) => if path_allowed o l then observe o l (mret (0, 0)%nat) d else Ret (no_counts, d)
  | None => Ret (no_counts, d)
  end.

(** ** Partial fills *)

Section partial.
Context (numeric_ratio : Q → Q → Q).

(** The quantities of the statement: filled, ordered and filled before. *)
Record Fill := { fill_filled : Q; fill_ordered : Q; fill_prior : Q }.

(** [amount * ((ordered - filled) / NULLIF(ordered - prior, 0))] *)
Definition remaining_amount (f : Fill) (amount : Q) : option Q :=
  if Qeq_bool (fill_ordered f - fill_prior f) 0 then None
  else Some (amount * numeric_ratio (fill_ordered f - fill_filled f) (fill_ordered f - fill_prior f))%Q.

Definition more_filled (f : Fill) : bool :=
  negb (Qle_bool (fill_filled f) (fill_prior f)) && negb (Qle_bool (fill_ordered f) (fill_filled f)).

(** resized: the reservation, the amount that remains and the settled one. *)
Definition resized (f : Fill) (reservation : option string) (d : ReconcileDb) : option (ReservationRow * Q * Q) :=
  match reservation with
  | None => None
  | Some id =>
      match select_one (λ r, (resv_id r =? id)%string && unsettled r) (db_reservations (rows d)) with
      | None => None
      | Some r =>
          match select_one (is_current_allocation (resv_account_id r) (resv_strategy_key r)) (db_allocations (rows d)),
                remaining_amount f (resv_amount r) with
          | Some a, Some remaining =>
              let settled := (resv_amount r - remaining)%Q in
              if more_filled f && Qle_bool settled (alloc_reserved a) then Some (r, remaining, settled) else None
          | _, _ => None
          end
      end
  end.

Definition resize_reservation (amount : Q) (now : Z) (r : ReservationRow) : ReservationRow :=
  {| resv_id := resv_id r; resv_account_id := resv_account_id r; resv_candidate_id := resv_candidate_id r;
     resv_strategy_key := resv_strategy_key r; resv_symbol := resv_symbol r; resv_asset_class := resv_asset_class r;
     resv_amount := numeric_round 8 amount; resv_status := resv_status r;
     resv_idempotency_key := resv_idempotency_key r; resv_fingerprint := resv_fingerprint r;
     resv_snapshot_id := resv_snapshot_id r; resv_job_name := resv_job_name r;
     resv_fencing_token := resv_fencing_token r; resv_expires_at := resv_expires_at r;
     resv_committed_at := resv_committed_at r; resv_released_at := resv_released_at r;
     resv_release_reason := resv_release_reason r; resv_version := resv_version r + 1;
     resv_created_at := resv_created_at r; resv_updated_at := now |}.

Definition with_amounts (reserved deployed : Q) (now : Z) (a : AllocationRow) : AllocationRow :=
  {| alloc_id := alloc_id a; alloc_account_id := alloc_account_id a; alloc_strategy_key := alloc_strategy_key a;
     alloc_status := alloc_status a; alloc_currency := alloc_currency a; alloc_amount := alloc_amount a;
     alloc_ratio := alloc_ratio a; alloc_reserved := numeric_round 8 reserved;
     alloc_deployed := numeric_round 8 deployed; alloc_config_version := alloc_config_version a;
     alloc_config_fingerprint := alloc_config_fingerprint a; alloc_effective_from := alloc_effective_from a;
     alloc_effective_to := alloc_effective_to a; alloc_version := alloc_version a + 1; alloc_updated_at := now |}.

Definition deploy (settled : Q) (now : Z) (a : AllocationRow) : AllocationRow :=
  with_amounts (alloc_reserved a - settled) (alloc_deployed a + settled) now a.

Definition amount_checks (r : ReservationRow) : bool :=
  reservation_time_checks r && negb (Qle_bool (resv_amount r) 0).

(** partial_reservation and adjusted *)
Definition settle_partial (x : option (ReservationRow * Q * Q)) (now : Z) : tx ReconcileDb (nat * nat) :=
  match x with
  | Some (r, remaining, settled) =>
      if Qle_bool settled 0 then mret (0, 0)%nat
      else
      n ← tables (update_rows amount_checks db_reservations set_reservations
                    (λ y, (resv_id y =? resv_id r)%string) (resize_reservation remaining now));
      m ← tables (update_rows allocation_checks db_allocations set_allocations
                    (is_current_allocation (resv_account_id r) (resv_strategy_key r)) (deploy settled now));
      mret (n, m)
  | None => mret (0, 0)%nat
  end.

(** persistence_guard *)
Definition persistable (f : Fill) (x : option (ReservationRow * Q * Q)) : bool :=
  Qeq_bool (fill_filled f) (fill_prior f)
  || match x with Some (_, _, settled) => negb (Qle_bool settled 0) | None => false end.

(** The statement for a partial fill of an order with a reservation. *)
Definition store_partial (fence : SchedulerFence) (o : Observation) (reservation : option string) (f : Fill)
    : tx ReconcileDb ObservationCounts := λ d,
  match current_intent fence (ob_intent_id o) d with
  | Some (_, l) =>
      let x := resized f reservation d in
      if path_allowed o l && persistable f x then observe o l (settle_partial x (ob_now o)) d
      else Ret (no_counts, d)
  | None => Ret (no_counts, d)
  end.
End partial.

(** ** Terminal settlement *)

Record Settlement := {
  se_reservation_id : string;
  se_intent_id : string;
  se_now : Z;
  se_terminal_state : string;
  se_release_reason : string;
  se_transition_id : string;
  se_lifecycle_state : string
}.

Record SettlementCounts := {
  released_count : nat;
  adjusted_count : nat;
  terminal_transition_count : nat;
  existing_transition_count : nat;
  legacy_settlement_count : nat
}.

Definition existing_transition (s : Settlement) (t : TerminalTransitionRow) : bool :=
  settles (se_reservation_id s) t && (tt_order_intent_id t =? se_intent_id s)%string
  && (tt_terminal_state t =? se_terminal_state s)%string && (tt_release_reason t =? se_release_reason s)%string.

(** The intent of the settlement, when it is reconciled in the state. *)
Definition settled_intent (fence : SchedulerFence) (s : Settlement) (d : ReconcileDb) : option IntentRow :=
  if held fence (r_sub d) then
    match select_one (λ i, (intent_id i =? se_intent_id s)%string && bool_decide (intent_status i = IntentReconciled))
            (db_intents (rows d)), lifecycle_of (r_sub d) (se_intent_id s) with
    | Some i, Some l => if (lc_lifecycle_state l =? se_lifecycle_state s)%string then Some i else None
    | _, _ => None
    end
  else None.

Inductive SettlementKind : Set := fresh_settlement | legacy_unrepresented.

(** settlement_candidate: a reservation the allocation still represents, or one
    from before the migration that no allocation represents.  Both parts of the
    UNION may hold, for an amount that is not positive (no such row exists). *)
Definition settlement_candidate (i : IntentRow) (r : ReservationRow) (a : AllocationRow) (cutover : option Z)
    : option SettlementKind :=
  if Qle_bool (resv_amount r) (alloc_reserved a) then Some fresh_settlement
  else if Qeq_bool (alloc_reserved a) 0 && negb (Qle_bool (resv_amount r) 0)
          && match cutover with Some t => intent_created_at i <? t | None => false end
  then Some legacy_unrepresented else None.

Definition terminal_row (s : Settlement) : TerminalTransitionRow :=
  {| tt_id := se_transition_id s; tt_reservation_id := se_reservation_id s; tt_order_intent_id := se_intent_id s;
     tt_terminal_state := se_terminal_state s; tt_release_reason := se_release_reason s;
     tt_idempotency_key := (se_intent_id s ++ ":" ++ se_terminal_state s)%string; tt_occurred_at := se_now s |}.

(** adjusted: reserved falls by the amount, a fill deploys it. *)
Definition settle_amount (filled : bool) (amount : Q) (now : Z) (a : AllocationRow) : AllocationRow :=
  with_amounts (Qmax 0 (alloc_reserved a - amount)) (alloc_deployed a + (if filled then amount else 0)) now a.

Definition settle_row (s : Settlement) (kind : SettlementKind) (r : ReservationRow) : tx ReconcileDb SettlementCounts :=
  t ← sub (insert_terminal (terminal_row s));
  if (t =? 0)%nat then
    mret {| released_count := 0; adjusted_count := 0; terminal_transition_count := 0;
            existing_transition_count := 0; legacy_settlement_count := 0 |}
  else
  n ← tables (update_rows reservation_time_checks db_reservations set_reservations
                (λ y, (resv_id y =? se_reservation_id s)%string && unsettled y)
                (release_reservation (se_release_reason s) (se_now s)));
  m ← match kind with
      | fresh_settlement =>
          tables (update_rows allocation_checks db_allocations set_allocations
            (is_current_allocation (resv_account_id r) (resv_strategy_key r))
            (settle_amount (se_terminal_state s =? "filled")%string (resv_amount r) (se_now s)))
      | legacy_unrepresented => mret 0%nat
      end;
  mret {| released_count := n; adjusted_count := m; terminal_transition_count := t; existing_transition_count := 0;
          legacy_settlement_count := match kind with legacy_unrepresented => n | fresh_settlement => 0 end |}.

Definition settle_terminal (fence : SchedulerFence) (s : Settlement) : tx ReconcileDb SettlementCounts := λ d,
  let existing := count_where (existing_transition s) (s_terminals (r_sub d)) in
  let nothing := {| released_count := 0; adjusted_count := 0; terminal_transition_count := 0;
                    existing_transition_count := existing; legacy_settlement_count := 0 |} in
  match settled_intent fence s d,
        select_one (λ r, (resv_id r =? se_reservation_id s)%string && unsettled r) (db_reservations (rows d)) with
  | Some i, Some r =>
      if negb (existing =? 0)%nat then Ret (nothing, d)
      else match select_one (is_current_allocation (resv_account_id r) (resv_strategy_key r))
                   (db_allocations (rows d)) with
           | None => Ret (nothing, d)
           | Some a => match settlement_candidate i r a (r_cutover d) with
                       | Some kind => settle_row s kind r d
                       | None => Ret (nothing, d)
                       end
           end
  | _, _ => Ret (nothing, d)
  end.

(** The query for a settlement that another runner made meanwhile. *)
Definition concurrent_replays (fence : SchedulerFence) (s : Settlement) (d : ReconcileDb) : nat :=
  if held fence (r_sub d) then
    List.length (List.filter (existing_transition s) (s_terminals (r_sub d)))
    * List.length (List.filter (λ r, (resv_id r =? se_reservation_id s)%string
        && bool_decide (resv_status r = ReservationReleased)
        && bool_decide (resv_release_reason r = Some (se_release_reason s))
        && match resv_released_at r with Some _ => true | None => false end) (db_reservations (rows d)))
  else 0.

#[export] Instance SettlementCounts_eq_dec : EqDecision SettlementCounts.
Proof. solve_decision. Defined.

(** Which counts the program accepts. *)
Definition settlement_accepted (c : SettlementCounts) : bool :=
  bool_decide (c = {| released_count := 1; adjusted_count := 1; terminal_transition_count := 1;
                      existing_transition_count := 0; legacy_settlement_count := 0 |})
  || bool_decide (c = {| released_count := 1; adjusted_count := 0; terminal_transition_count := 1;
                         existing_transition_count := 0; legacy_settlement_count := 1 |})
  || bool_decide (c = {| released_count := 0; adjusted_count := 0; terminal_transition_count := 0;
                         existing_transition_count := 1; legacy_settlement_count := 0 |}).

(** ** Orders the broker does not know *)

Definition BROKER_ABSENCE_TERMINAL_OBSERVATIONS : nat := 4.
Definition BROKER_ABSENCE_TERMINAL_AGE_MS : Z := 120000.

Definition submission_event_of (t : Target) (type : string) (e : EventRow) : bool :=
  bool_decide (event_intent_id e = Some (t_order_intent_id t))
  && bool_decide (event_client_order_id e = Some (t_client_order_id t)) && (event_type e =? type)%string.

(** The first query: the observations so far and the time of the first attempt. *)
Definition absence_evidence (t : Target) (d : ReconcileDb) : nat * Z :=
  let attempts := List.filter (submission_event_of t "order_submission_attempt") (db_events (rows d)) in
  (count_where (submission_event_of t "order_submission_absence") (db_events (rows d)),
   match map event_occurred_at attempts with
   | [] => t_intent_updated_at t
   | x :: l => fold_left Z.min l x
   end).

Definition absence_terminal (observation : nat) (firstAttemptAt now : Z) : bool :=
  (BROKER_ABSENCE_TERMINAL_OBSERVATIONS <=? observation)%nat
  && (BROKER_ABSENCE_TERMINAL_AGE_MS <=? now - firstAttemptAt).

(** The evidence, its keys in canonical order. *)
Definition absence_fields (t : Target) (terminal : bool) (observation : nat) (firstAttemptAt : Z)
    : list (string * json) :=
  [("clientOrderId", json_string (t_client_order_id t));
   ("code", json_string (if terminal then "POSTGRES_BROKER_SUBMISSION_ABSENCE_CONFIRMED"
                         else "POSTGRES_BROKER_SUBMISSION_RECOVERY_PENDING"));
   ("firstAttemptAt", json_string (iso_text firstAttemptAt));
   ("observation", ordinal_text observation);
   ("requiredObservations", ordinal_text BROKER_ABSENCE_TERMINAL_OBSERVATIONS);
   ("terminalAfterMs", nat_text BROKER_ABSENCE_TERMINAL_AGE_MS)]%string.

Section absence.
Context (digest : string → string) (stableRecordId : string → string → string).

Definition absence_event (t : Target) (terminal : bool) (observation : nat) (firstAttemptAt now : Z) : EventRow :=
  let fields := absence_fields t terminal observation firstAttemptAt in
  {| event_id := ("broker_event_" ++ stableRecordId "alpaca_broker_submission_absence"
                   (t_account_id t ++ ":" ++ t_client_order_id t ++ ":" ++ ordinal_text observation))%string;
     event_account_id := t_account_id t; event_order_id := None; event_intent_id := Some (t_order_intent_id t);
     event_broker_order_id := None; event_client_order_id := Some (t_client_order_id t);
     event_type := "order_submission_absence"; event_status := if terminal then "terminal" else "pending";
     event_request_id := None; event_http_status := None;
     event_error_classification := Some (if terminal then "broker_order_absence_confirmed"
                                         else "broker_order_not_found")%string;
     event_retryable := Some (negb terminal); event_response_payload := json_object fields;
     event_response_fingerprint := Submission.canonicalJsonHash digest fields; event_occurred_at := now;
     event_received_at := now |}.

Definition record_absence (fence : SchedulerFence) (e : EventRow) : tx ReconcileDb nat :=
  sub (fenced fence (insert_event e)).

Definition unanswered_intent (id : string) (i : IntentRow) : bool :=
  (intent_id i =? id)%string && bool_decide (intent_status i ∈ [IntentPending; IntentAmbiguous]).

(** The statement that gives an order up: failed_intent_count,
    released_reservation_count and adjusted_allocation_count. *)
Definition terminalize_absence (fence : SchedulerFence) (t : Target) (e : EventRow) (now : Z) : tx ReconcileDb (nat * nat * nat) := λ d,
  if negb (held fence (r_sub d)) then Ret ((0, 0, 0)%nat, d)
  else
  (written ← sub (insert_event e);
   if (written =? 0)%nat then mret (0, 0, 0)%nat
   else match select_one (unanswered_intent (t_order_intent_id t)) (db_intents (rows d)) with
   | None => mret (0, 0, 0)%nat
   | Some i =>
       n ← sub (update_intent (unanswered_intent (t_order_intent_id t)) (end_intent IntentFailed now));
       match match intent_reservation_id i with
             | Some id => select_one (λ r, (resv_id r =? id)%string && unsettled r) (db_reservations (rows d))
             | None => None
             end with
       | None => mret (n, 0, 0)%nat
       | Some r =>
           m ← tables (update_rows reservation_time_checks db_reservations set_reservations
                 (λ y, (resv_id y =? resv_id r)%string && unsettled y)
                 (release_reservation "broker_order_absence_confirmed" now));
           k ← tables (update_rows allocation_checks db_allocations set_allocations
                 (is_current_allocation (resv_account_id r) (resv_strategy_key r)) (give_back (resv_amount r) now));
           mret (n, m, k)
       end
   end) d.

Definition defer_absent (fence : SchedulerFence) (candidate : string) (now : Z) : tx ReconcileDb nat :=
  sub (update_candidate fence candidate "execution_deferred" "POSTGRES_BROKER_SUBMISSION_ABSENCE_CONFIRMED" now).
End absence.

(** ** Parameters of a statement *)

Section observation.
Context (digest : string → string) (document : json → jvalue) (localeCompare : string → string → bool).
Context (stableRecordId : string → string → string).
Context (timestamp_format other_format : string → option Z).

(** [value ?? ...], the first that is neither undefined nor null. *)
Fixpoint first_given (l : list (option string)) : option string :=
  match l with [] => None | Some s :: _ => Some s | None :: l' => first_given l' end.

Definition occurred_text (data : SubmittedOrder) (now : Z) : option string :=
  first_given [so_filled_at data; so_canceled_at data; so_cancelled_at data; so_expired_at data;
               so_updated_at data; so_submitted_at data; Some (iso_text now)].

Definition required_text (value : option string) (code : string) : res string :=
  if str_truthy (text_of value) then Ret (text_of value) else Throw code.

(** [optional]: null, undefined and the empty text are null. *)
Definition optional (value : option string) : option string :=
  match value with Some s => if str_truthy s then Some s else None | None => None end.

Definition terminalStatuses : list string := ["filled"; "canceled"; "cancelled"; "expired"; "rejected"]%string.
Definition is_terminal (status : string) : bool := str_mem status terminalStatuses.

Definition review_type_of (t : ReviewType) : TradeLifecycle.reviewType :=
  match t with ReviewEntry => entry | ReviewExit => exit end.

(** What the code reads from the answer before the statement. *)
Record Seen := {
  seen_broker_id : string;
  seen_client_id : string;
  seen_status : string;
  seen_occurred_text : string;
  seen_occurred_at : Z;
  seen_path : list state;
  seen_symbol : string;
  seen_filled : string;
  seen_ordered : option string;
  seen_prior : string
}.

(** The last state of the path, which is never empty. *)
Definition final_state (path : list state) : state := default candidate_created (last path).

Definition read_answer (t : Target) (response : BrokerResponse) (now : Z) : res Seen :=
  let data := response_data response in
  brokerId ← required_text (so_id data) "POSTGRES_RECONCILIATION_BROKER_ID_MISSING";
  clientId ← required_text (so_client_order_id data) "POSTGRES_RECONCILIATION_CLIENT_ID_MISSING";
  if negb (clientId =? t_client_order_id t)%string
     || match present (t_broker_order_id t) with Some b => negb (brokerId =? b)%string | None => false end
  then Throw "POSTGRES_RECONCILIATION_BROKER_IDENTITY_MISMATCH"
  else
  statusText ← required_text (so_status data) "POSTGRES_RECONCILIATION_STATUS_MISSING";
  let status := to_lower statusText in
  if bool_decide (t_intent_status t = IntentReconciled) && negb (is_terminal status)
  then Throw "POSTGRES_RECONCILIATION_TERMINAL_SETTLEMENT_STATE_INVALID"
  else
  occurredText ← required_text (occurred_text data now) "POSTGRES_RECONCILIATION_TIMESTAMP_MISSING";
  from ← required_text (Some (t_lifecycle_state t)) "POSTGRES_RECONCILIATION_LIFECYCLE_STATE_MISSING";
  path ← default (Throw "NO_VALID_LIFECYCLE_PATH")
           (resolveBrokerReconciliationLifecyclePath from (review_type_of (t_review_type t)) status);
  symbol ← required_text (or_else (so_symbol data) (Some (t_symbol t))) "POSTGRES_RECONCILIATION_SYMBOL_MISSING";
  occurredAt ← match date_parse other_format occurredText with
               | Some at_ => Ret at_ | None => Throw "Invalid time value" end;
  mret {| seen_broker_id := brokerId; seen_client_id := clientId; seen_status := status;
          seen_occurred_text := occurredText; seen_occurred_at := occurredAt; seen_path := path;
          seen_symbol := symbol; seen_filled := default "0"%string (optional (so_filled_qty data));
          seen_ordered := optional (or_else (so_qty data) (t_quantity t));
          seen_prior := default "0"%string (optional (t_prior_filled_quantity t)) |}.

(** [path.slice(0, -1)] and [path.slice(1)], side by side. *)
Definition path_steps (path : list state) : list (state * state) := zip path (tail path).

Definition observed_order_row (t : Target) (response : BrokerResponse) (s : Seen) : res OrderRow :=
  let data := response_data response in
  quantity ← numeric_column 12 (seen_ordered s);
  notional ← numeric_column 8 (optional (or_else (so_notional data) (t_notional t)));
  limitPrice ← numeric_column 8 (optional (or_else (so_limit_price data) (t_limit_price t)));
  filled ← numeric_column 12 (Some (seen_filled s));
  average ← numeric_column 8 (optional (so_filled_avg_price data));
  submitted ← match optional (so_submitted_at data) with
              | Some x => at_ ← timestamptz timestamp_format x; mret (Some at_) | None => mret None end;
  mret {| ExecutionTables.order_id :=
            ("order_" ++ stableRecordId "alpaca_order" (t_account_id t ++ ":" ++ seen_broker_id s))%string;
          order_account_id := t_account_id t; order_intent_id := t_order_intent_id t;
          order_broker_order_id := Some (seen_broker_id s); order_client_order_id := seen_client_id s;
          order_parent_order_id := None; order_replacement_order_id := None; order_symbol := seen_symbol s;
          order_asset_class := t_asset_class t; order_side := t_side t; order_order_type := t_order_type t;
          order_time_in_force := t_time_in_force t; order_status := seen_status s; order_quantity := quantity;
          order_notional := notional; order_limit_price := limitPrice; order_stop_price := None;
          order_filled_quantity := default 0%Q filled; order_filled_average_price := average;
          order_broker_request_id := response_requestId response; order_submitted_at := submitted;
          order_last_broker_update_at := Some (seen_occurred_at s); order_raw_status := so_json data;
          order_version := 1; order_created_at := seen_occurred_at s; order_updated_at := seen_occurred_at s |}.

Definition intent_status_for (status : string) : IntentStatus :=
  if is_terminal status then IntentReconciled else IntentSubmitted.

Definition observed_event (t : Target) (response : BrokerResponse) (s : Seen) (now : Z) : EventRow :=
  {| event_id := ("broker_event_" ++ stableRecordId "reconciliation"
                   (seen_broker_id s ++ ":" ++ seen_status s ++ ":" ++ seen_occurred_text s))%string;
     event_account_id := t_account_id t; event_order_id := None; event_intent_id := Some (t_order_intent_id t);
     event_broker_order_id := Some (seen_broker_id s); event_client_order_id := Some (seen_client_id s);
     event_type := "reconciliation"; event_status := seen_status s;
     event_request_id := response_requestId response; event_http_status := Some (response_status response);
     event_error_classification := None; event_retryable := None;
     event_response_payload := so_json (response_data response);
     event_response_fingerprint :=
       CanonicalJson.canonicalJsonHash localeCompare digest (document (so_json (response_data response)));
     event_occurred_at := seen_occurred_at s; event_received_at := now |}.

Definition observation_of (t : Target) (response : BrokerResponse) (s : Seen) (now : Z) : res Observation :=
  order ← observed_order_row t response s;
  let to := final_state (seen_path s) in
  mret {| ob_intent_id := t_order_intent_id t; ob_order := order; ob_event := observed_event t response s now;
          ob_status := intent_status_for (seen_status s); ob_state := to; ob_steps := path_steps (seen_path s);
          ob_transition_id := ("lifecycle_transition_" ++ stableRecordId "broker_reconciliation"
             (t_order_intent_id t ++ ":" ++ state_name to ++ ":" ++ seen_broker_id s))%string;
          ob_key := ("broker-reconciliation:" ++ seen_broker_id s ++ ":" ++ state_name to)%string;
          ob_submitted_at := order_submitted_at order; ob_now := now |}.

(** The check of a partial fill on binary64 numbers. *)
Definition partial_quantities_valid (s : Seen) : bool :=
  let filled := num_of_text (seen_filled s) in
  let ordered := match seen_ordered s with Some t => num_of_text t | None => 0%float end in
  let prior := num_of_text (seen_prior s) in
  num_is_finite filled && num_is_finite ordered && num_is_finite prior
  && negb (ordered <=? 0)%float && negb (prior <? 0)%float && negb (filled <? prior)%float
  && negb (ordered <=? filled)%float.

Definition is_partial_replay (s : Seen) : bool := (num_of_text (seen_filled s) =? num_of_text (seen_prior s))%float.

(** The three quantities as numeric parameters. *)
Definition fill_of (s : Seen) : res Fill :=
  match numeric_of_text (seen_filled s), numeric_of_text (default EmptyString (seen_ordered s)),
        numeric_of_text (seen_prior s) with
  | Some f, Some o, Some p => Ret {| fill_filled := f; fill_ordered := o; fill_prior := p |}
  | _, _, _ => Throw "invalid_text_representation"
  end.

Definition reservationTerminalState (status : string) : string :=
  if (status =? "canceled")%string then "cancelled" else status.

Definition reservationReleaseReason (status : string) : string :=
  if (status =? "filled")%string then "broker_terminal_filled"
  else if (status =? "canceled")%string || (status =? "cancelled")%string then "broker_terminal_cancelled"
  else if (status =? "rejected")%string then "broker_terminal_rejected" else "broker_terminal_expired".

Definition settlement_of (t : Target) (reservation : string) (s : Seen) (now : Z) : Settlement :=
  let terminal := reservationTerminalState (seen_status s) in
  {| se_reservation_id := reservation; se_intent_id := t_order_intent_id t; se_now := now;
     se_terminal_state := terminal; se_release_reason := reservationReleaseReason (seen_status s);
     se_transition_id := ("reservation_transition_" ++
        stableRecordId "reservation_terminal" (reservation ++ ":" ++ terminal))%string;
     se_lifecycle_state := state_name (final_state (seen_path s)) |}.
End observation.
