(* ===== verification/ReconciliationCommand.v ===== *)
(** Reconciling paper orders, the program: [reconcilePostgresPaperOrders] of
    src/services/postgresReconciliationService.ts over the statements of
    Reconciliation.v.

    The observation of an order that no intent authorised (externalBrokerOrderId)
    and the mirroring of account and positions (syncBrokerState) are requests. *)

From S2P Require Import Prelude.
From S2P Require Import JsString.
From S2P Require Import JsNumber.
From S2P Require Import JsText.
From S2P Require Import JsJson.
From S2P Require Import TradeLifecycle.
From S2P Require Import SchedulerLease.
From S2P Require Import ExecutionTables.
From S2P Require Import BrokerResult.
From S2P Require Import Effects.
From S2P Require Import Submission.
From S2P Require Import SubmissionCommand.
From S2P Require Import Reconciliation.
Open Scope Z_scope.

(** ** Statements *)

Inductive Statement : Type → Type :=
| ListTargets (clientOrderId : string) : Statement (list Target)
| StorePartial (fence : SchedulerFence) (o : Observation) (reservation : option string) (f : Fill)
    : Statement ObservationCounts
| StoreObservation (fence : SchedulerFence) (o : Observation) : Statement ObservationCounts
| SettleTerminal (fence : SchedulerFence) (s : Settlement) : Statement SettlementCounts
| ConcurrentReplays (fence : SchedulerFence) (s : Settlement) : Statement nat
| AbsenceEvidence (t : Target) : Statement (nat * Z)
| RecordAbsence (fence : SchedulerFence) (e : EventRow) : Statement nat
| GiveUp (fence : SchedulerFence) (t : Target) (e : EventRow) (now : Z) : Statement (nat * nat * nat)
| DeferCandidate (fence : SchedulerFence) (candidate : string) (now : Z) : Statement nat.

Definition execute_statement (numeric_ratio : Q → Q → Q) {A} (s : Statement A) : tx ReconcileDb A :=
  match s with
  | ListTargets c => gets (list_targets c)
  | StorePartial f o r q => store_partial numeric_ratio f o r q
  | StoreObservation f o => store_observation f o
  | SettleTerminal f s => settle_terminal f s
  | ConcurrentReplays f s => gets (concurrent_replays f s)
  | AbsenceEvidence t => gets (absence_evidence t)
  | RecordAbsence f e => record_absence f e
  | GiveUp f t e now => terminalize_absence f t e now
  | DeferCandidate f c now => defer_absent f c now
  end.

(** ** Requests *)

Inductive effect : Type → Type :=
| Sql {A : Type} (s : Statement A) : effect (res A)
| LookupOrder (clientOrderId : string) : effect (BrokerError + BrokerResponse)
| ObserveExternalOrder (brokerOrderId : string) (now : Z) : effect (res unit)
| SyncBrokerState (now : Z) : effect (res unit)
| Clock : effect Z.

(** ** Results *)

Record ReconciledOrder := {
  ro_orderId : string;
  ro_orderIntentId : string;
  ro_brokerOrderId : string;
  ro_clientOrderId : string;
  ro_status : string
}.

(** What became of one target. *)
Inductive TargetOutcome : Type :=
| Recorded (replayed : bool) (o : ReconciledOrder)
| AbsencePending
| AbsenceFailed
| TargetError (code : string).

Record ReconciliationResult := {
  checked : nat;
  recorded : nat;
  replayed : nat;
  filled_count : nat;
  partial_count : nat;
  terminal_count : nat;
  pending : nat;
  failedAbsent : nat;
  orders : list ReconciledOrder;
  errors : list (string * string)
}.

Definition empty_result : ReconciliationResult :=
  {| checked := 0; recorded := 0; replayed := 0; filled_count := 0; partial_count := 0; terminal_count := 0;
     pending := 0; failedAbsent := 0; orders := []; errors := [] |}.

Definition bump (b : bool) (n : nat) : nat := if b then S n else n.

(** The counters after one target. *)
Definition tally (r : ReconciliationResult) (t : Target) (o : TargetOutcome) : ReconciliationResult :=
  match o with
  | Recorded again order =>
      let status := ro_status order in
      let filled := (status =? "filled")%string in
      let partial := (status =? "partially_filled")%string in
      {| checked := S (checked r); recorded := bump (negb again) (recorded r); replayed := bump again (replayed r);
         filled_count := bump filled (filled_count r); partial_count := bump partial (partial_count r);
         terminal_count := bump (negb filled && negb partial && is_terminal status) (terminal_count r);
         pending := pending r; failedAbsent := failedAbsent r; orders := orders r ++ [order]; errors := errors r |}
  | AbsencePending =>
      {| checked := S (checked r); recorded := recorded r; replayed := replayed r; filled_count := filled_count r;
         partial_count := partial_count r; terminal_count := terminal_count r; pending := S (pending r);
         failedAbsent := failedAbsent r; orders := orders r; errors := errors r |}
  | AbsenceFailed =>
      {| checked := S (checked r); recorded := recorded r; replayed := replayed r; filled_count := filled_count r;
         partial_count := partial_count r; terminal_count := terminal_count r; pending := pending r;
         failedAbsent := S (failedAbsent r); orders := orders r; errors := errors r |}
  | TargetError code =>
      {| checked := S (checked r); recorded := recorded r; replayed := replayed r; filled_count := filled_count r;
         partial_count := partial_count r; terminal_count := terminal_count r; pending := pending r;
         failedAbsent := failedAbsent r; orders := orders r; errors := errors r ++ [(t_order_intent_id t, code)] |}
  end.

(** ** One target *)

Section reconcile.
Context (digest : string → string) (document : json → jvalue) (localeCompare : string → string → bool).
Context (stableRecordId : string → string → string).
Context (timestamp_format other_format : string → option Z).
Context (fence : SchedulerFence) (now : Z).

Definition counts_stored (c : ObservationCounts) (s : Seen) : bool :=
  (stored_order_count c =? 1)%nat && (updated_intent_count c =? 1)%nat
  && (lifecycle_transition_count c =? List.length (path_steps (seen_path s)))%nat.

Definition partial_accepted (c : ObservationCounts) (s : Seen) : bool :=
  counts_stored c s && (partial_reservation_count c =? adjusted_allocation_count c)%nat
  && (partial_reservation_count c =? (if is_partial_replay s then 0 else 1))%nat.

(** The statement that stores the observation; it returns event_count. *)
Definition store (t : Target) (response : BrokerResponse) (s : Seen) : async effect nat :=
  let observation := observation_of digest document localeCompare stableRecordId timestamp_format t response s now in
  match present (t_reservation_id t), (seen_status s =? "partially_filled")%string with
  | Some reservation, true =>
      let! _ := reject_if (negb (partial_quantities_valid s)) "POSTGRES_RECONCILIATION_PARTIAL_QUANTITY_INVALID" in
      let! o := sync observation in
      let! f := sync (fill_of s) in
      let! c := ask (Sql (StorePartial fence o (Some reservation) f)) in
      let! _ := reject_if (negb (partial_accepted c s)) "POSTGRES_RECONCILIATION_PARTIAL_RESERVATION_FAILED" in
      async_ret (event_count c)
  | _, _ =>
      let! o := sync observation in
      let! c := ask (Sql (StoreObservation fence o)) in
      let! _ := reject_if (negb (counts_stored c s)) "POSTGRES_RECONCILIATION_INTENT_PERSISTENCE_FAILED" in
      async_ret (event_count c)
  end.

Definition all_zero (c : SettlementCounts) : bool :=
  bool_decide (c = {| released_count := 0; adjusted_count := 0; terminal_transition_count := 0;
                      existing_transition_count := 0; legacy_settlement_count := 0 |}).

(** The settlement of the reservation of a terminal order. *)
Definition settle_reservation_of (t : Target) (s : Seen) : async effect unit :=
  match present (t_reservation_id t), is_terminal (seen_status s) with
  | Some reservation, true =>
      let settlement := settlement_of stableRecordId t reservation s now in
      let! c := ask (Sql (SettleTerminal fence settlement)) in
      let! again := if all_zero c
                    then let! n := ask (Sql (ConcurrentReplays fence settlement)) in async_ret (n =? 1)%nat
                    else async_ret false in
      reject_if (negb (settlement_accepted c) && negb again) "POSTGRES_RECONCILIATION_RESERVATION_RELEASE_FAILED"
  | _, _ => async_ret tt
  end.

(** The body of the try block after the lookup. *)
Definition record_answer (t : Target) (response : BrokerResponse) : async effect TargetOutcome :=
  let! s := sync (read_answer other_format t response now) in
  let! events := store t response s in
  let! _ := settle_reservation_of t s in
  async_ret (Recorded (events =? 0)%nat
    {| ro_orderId := ("order_" ++ stableRecordId "alpaca_order" (t_account_id t ++ ":" ++ seen_broker_id s))%string;
       ro_orderIntentId := t_order_intent_id t; ro_brokerOrderId := seen_broker_id s;
       ro_clientOrderId := seen_client_id s; ro_status := seen_status s |}).

(** [recordBrokerOrderAbsence] *)
Definition recordBrokerOrderAbsence (t : Target) : async effect TargetOutcome :=
  let! (prior, firstAttemptAt) := ask (Sql (AbsenceEvidence t)) in
  let observation := S prior in
  let terminal := absence_terminal observation firstAttemptAt now in
  let event := absence_event digest stableRecordId t terminal observation firstAttemptAt now in
  if negb terminal then
    let! _ := ask (Sql (RecordAbsence fence event)) in async_ret AbsencePending
  else
    let! counts := ask (Sql (GiveUp fence t event now)) in
    let expected := match present (t_reservation_id t) with Some _ => 1%nat | None => 0%nat end in
    let! _ := reject_if (negb (bool_decide (counts = (1, expected, expected)%nat)))
                "POSTGRES_BROKER_ABSENCE_TERMINALIZATION_FAILED" in
    let! _ := match present (t_candidate_id t) with
              | Some c =>
                  let! n := ask (Sql (DeferCandidate fence c now)) in
                  reject_if (negb (n =? 1)%nat) "POSTGRES_BROKER_ABSENCE_CANDIDATE_PERSISTENCE_FAILED"
              | None => async_ret tt
              end in
    async_ret AbsenceFailed.

(** The catch block. *)
Definition target_failed (t : Target) (e : BrokerError) : prog effect TargetOutcome :=
  if bool_decide (t_intent_status t ∈ [IntentPending; IntentAmbiguous]) && brokerOrderAbsent e
  then prog_bind (recordBrokerOrderAbsence t) (λ r,
         Done (match r with Ret o => o | Throw c => TargetError (before_colon c) end))
  else Done (TargetError (before_colon (error_message e))).

Definition reconcile_target (t : Target) : prog effect TargetOutcome :=
  Ask (LookupOrder (t_client_order_id t)) (λ answer,
    match answer with
    | inl e => target_failed t e
    | inr response =>
        prog_bind (record_answer t response) (λ r,
          match r with
          | Ret o => Done o
          | Throw c => target_failed t {| error_status := None; error_message := c |}
          end)
    end).

Fixpoint reconcile_targets (ts : list Target) (r : ReconciliationResult) : prog effect ReconciliationResult :=
  match ts with
  | [] => Done r
  | t :: ts' => prog_bind (reconcile_target t) (λ o, reconcile_targets ts' (tally r t o))
  end.
End reconcile.

(** ** The command *)

Record ReconcileInput := {
  ri_fence : SchedulerFence;
  ri_now : option Z;
  ri_externalBrokerOrderId : option string;
  ri_syncBrokerState : bool;
  ri_clientOrderId : option string
}.

Section command.
Context (digest : string → string) (document : json → jvalue) (localeCompare : string → string → bool).
Context (stableRecordId : string → string → string).
Context (timestamp_format other_format : string → option Z).

Definition with_error (r : ReconciliationResult) (id code : string) : ReconciliationResult :=
  {| checked := checked r; recorded := recorded r; replayed := replayed r; filled_count := filled_count r;
     partial_count := partial_count r; terminal_count := terminal_count r; pending := pending r;
     failedAbsent := failedAbsent r; orders := orders r; errors := errors r ++ [(id, code)] |}.

Definition reconcilePostgresPaperOrders (input : ReconcileInput) : async effect ReconciliationResult :=
  let! now := match ri_now input with Some t => async_ret t | None => ask_value Clock end in
  let! _ := match present (ri_externalBrokerOrderId input) with
            | Some id => ask (ObserveExternalOrder id now) | None => async_ret tt end in
  let! targets := ask (Sql (ListTargets (text_of (ri_clientOrderId input)))) in
  let! result := prog_bind (reconcile_targets digest document localeCompare stableRecordId timestamp_format other_format
                              (ri_fence input) now targets empty_result) async_ret in
  if ri_syncBrokerState input then
    prog_bind (ask (SyncBrokerState now)) (λ s,
      match s with
      | Ret _ => async_ret result
      | Throw c => async_ret (with_error result "__broker_state__" (before_colon c))
      end)
  else async_ret result.
End command.
