(* ===== verification/Recovery.v ===== *)
(** Recovering after a crash, the database side: the statements of
    [runAutonomousPostgresRecovery] and the counts of [inspectionSql], of
    src/services/autonomousPostgresCommandService.ts.

    The tables are those of Reconciliation.v, with research_runs and the columns
    of candidates that the statements read.  Every statement is autocommitted and
    its parts read one snapshot.

    [merge] is the jsonb operator [||], [timestamp_json] the jsonb text of a
    timestamptz.

    Recovering after a crash, the program: [runAutonomousPostgresRecovery] and
    [runAutonomousPostgresCommand] of src/services/autonomousPostgresCommandService.ts
    over the statements of Recovery.v. *)
From S2P Require Import Prelude.
From S2P Require Import JsString.
From S2P Require Import JsText.
From S2P Require Import SchedulerLease.
From S2P Require Import ExecutionTables.
From S2P Require Import ExecutionReservation.
From S2P Require Import BrokerResult.
From S2P Require Import JsJson.
From S2P Require Import Effects.
From S2P Require Import Submission.
From S2P Require Import SubmissionCommand.
From S2P Require Import Reconciliation.

Open Scope Z_scope.

(** ** Tables *)

Record ResearchRunRow := {
  run_id : string;
  run_status : string;
  run_started_at : Z;
  run_heartbeat_at : option Z;
  run_completed_at : option Z;
  run_recovered_at : option Z;
  run_recovery_reason : option string;
  run_recovery_source : option string;
  run_version : Z;
  run_updated_at : Z
}.

(** candidates: [research_run_id] and [as_of], keyed by the candidate. *)
Record CandidateSource := {
  source_candidate_id : string;
  source_research_run_id : string;
  source_as_of : Z
}.

Record RecoveryDb := {
  v_db : ReconcileDb;
  v_sources : list CandidateSource;
  v_runs : list ResearchRunRow
}.

Definition set_db (x : ReconcileDb) (d : RecoveryDb) : RecoveryDb :=
  {| v_db := x; v_sources := v_sources d; v_runs := v_runs d |}.
Definition set_runs (x : list ResearchRunRow) (d : RecoveryDb) : RecoveryDb :=
  {| v_db := v_db d; v_sources := v_sources d; v_runs := x |}.

(** A statement on the tables of Submission.v, and one on ExecutionTables.v. *)
Definition on_sub {A} (m : tx SubmissionDb A) : tx RecoveryDb A := λ d,
  match sub m (v_db d) with Ret (a, x) => Ret (a, set_db x d) | Throw c => Throw c end.
Definition on_tables {A} (m : tx ExecDb A) : tx RecoveryDb A := on_sub (exec m).

Definition submission (d : RecoveryDb) : SubmissionDb := r_sub (v_db d).
Definition records (d : RecoveryDb) : ExecDb := s_exec (submission d).

(** ** Intents that are ready and stale *)

Definition AUTONOMOUS_MARKET_DATA_FRESHNESS_SECONDS : Z := 30 * 60.

Definition after_or_null (t : option Z) (now : Z) : bool :=
  match t with Some t => t <=? now | None => true end.

Definition source_of (d : RecoveryDb) (i : IntentRow) : option (CandidateRow * CandidateSource) :=
  match intent_candidate_id i with
  | Some id =>
      match select_one (λ c, (cand_id c =? id)%string) (s_candidates (submission d)),
            select_one (λ c, (source_candidate_id c =? id)%string) (v_sources d) with
      | Some c, Some s => Some (c, s)
      | _, _ => None
      end
  | None => None
  end.

Definition reservation_of (d : ExecDb) (i : IntentRow) : option ReservationRow :=
  match intent_reservation_id i with
  | Some id => select_one (λ r, (resv_id r =? id)%string) (db_reservations d)
  | None => None
  end.

(** The confirmation row of an intent, whatever its review. *)
Definition linked_confirmation (d : ExecDb) (i : IntentRow) : option ConfirmationRow :=
  match intent_confirmation_id i with
  | Some id => select_one (λ c, (cf_id (conf_input c) =? id)%string) (db_confirmations d)
  | None => None
  end.

Definition stale_candidate (now : Z) (c : CandidateRow) (s : CandidateSource) : bool :=
  negb (cand_decision c =? "selected")%string
  || str_mem (cand_lifecycle_status c) ["expired"; "rejected"; "blocked"; "skipped"]%string
  || (source_as_of s <=? now - AUTONOMOUS_MARKET_DATA_FRESHNESS_SECONDS * 1000).

Definition stale_review (now : Z) (r : ReviewRow) : bool :=
  bool_decide (review_status r ∈ [ReviewExpired; ReviewRevoked; ReviewBlocked])
  || (rv_expiresAt (review_input r) <=? now).

Definition stale_confirmation (now : Z) (c : option ConfirmationRow) : bool :=
  match c with
  | Some c => negb (bool_decide (conf_status c = ConfirmationValid)) || (cf_expiresAt (conf_input c) <=? now)
  | None => true
  end.

Definition stale_reservation (now : Z) (r : option ReservationRow) : bool :=
  match r with Some r => negb (unsettled r) || (resv_expires_at r <=? now) | None => true end.

Definition has_order (d : ExecDb) (intent : string) : bool :=
  existsb (λ o, (order_intent_id o =? intent)%string) (db_orders d).

Definition stale_ready (now : Z) (d : RecoveryDb) (i : IntentRow) : bool :=
  bool_decide (intent_status i = IntentReady) && negb (has_order (records d) (intent_id i))
  && match review_of (records d) i, source_of d i with
     | Some r, Some (c, s) =>
         stale_candidate now c s || stale_review now r
         || stale_confirmation now (linked_confirmation (records d) i)
         || stale_reservation now (reservation_of (records d) i)
     | _, _ => false
     end.

Definition stale_ready_intents (fence : SchedulerFence) (now : Z) (d : RecoveryDb) : list (string * string) :=
  if held fence (submission d) then
    map (λ i, (intent_id i, intent_client_order_id i)) (List.filter (stale_ready now d) (db_intents (records d)))
  else [].

(** ** What happens to one of them *)

Section statements.
Context (digest : string → string) (merge : json → json → json) (timestamp_json : Z → json).

Definition with_payload (status : IntentStatus) (terminal_at : option Z) (fingerprint : string) (payload : json)
    (now : Z) (r : IntentRow) : IntentRow :=
  {| intent_id := intent_id r; intent_account_id := intent_account_id r;
     intent_candidate_id := intent_candidate_id r; intent_reservation_id := intent_reservation_id r;
     intent_review_id := intent_review_id r; intent_confirmation_id := intent_confirmation_id r;
     intent_client_order_id := intent_client_order_id r; intent_idempotency_key := intent_idempotency_key r;
     intent_strategy_key := intent_strategy_key r; intent_symbol := intent_symbol r;
     intent_underlying_symbol := intent_underlying_symbol r; intent_asset_class := intent_asset_class r;
     intent_side := intent_side r; intent_order_type := intent_order_type r;
     intent_time_in_force := intent_time_in_force r; intent_quantity := intent_quantity r;
     intent_notional := intent_notional r; intent_limit_price := intent_limit_price r;
     intent_stop_price := intent_stop_price r; intent_estimated_premium := intent_estimated_premium r;
     intent_max_risk := intent_max_risk r; intent_status := status; intent_fingerprint := intent_fingerprint r;
     intent_lifecycle_fingerprint := fingerprint; intent_request_payload := payload;
     intent_request_id := intent_request_id r; intent_correlation_id := intent_correlation_id r;
     intent_ready_at := intent_ready_at r; intent_submitted_at := intent_submitted_at r;
     intent_terminal_at := terminal_at; intent_version := intent_version r + 1;
     intent_created_at := intent_created_at r; intent_updated_at := now |}.

(** The broker has an order of the intent. *)
Definition preserved_intent (brokerOrderId brokerStatus : string) (now : Z) (i : IntentRow) : IntentRow :=
  with_payload IntentAmbiguous (intent_terminal_at i) (intent_lifecycle_fingerprint i)
    (merge (intent_request_payload i)
       (json_object [("staleReadyRecovery", json_object [
          ("brokerOrderId", json_string brokerOrderId); ("brokerStatus", json_string brokerStatus);
          ("reason", json_string "BROKER_ORDER_FOUND_DURING_STALE_READY_RECOVERY")])])%string) now i.

Definition preserve (fence : SchedulerFence) (id brokerOrderId brokerStatus : string) (now : Z) : tx RecoveryDb nat :=
  on_sub (fenced fence (update_intent (in_status id IntentReady) (preserved_intent brokerOrderId brokerStatus now))).

(** The broker has none. *)
Record CancellationCounts := {
  cc_ok : bool;
  cc_locked : nat;
  cc_cancelled : nat;
  cc_transitions : nat;
  cc_released : nat;
  cc_adjusted : nat
}.

Definition locked_reservation (id : string) (d : ExecDb) : option ReservationRow :=
  match select_one (λ i, (intent_id i =? id)%string) (db_intents d) with
  | Some i => match intent_reservation_id i with
              | Some r => select_one (λ x, (resv_id x =? r)%string && unsettled x) (db_reservations d)
              | None => None
              end
  | None => None
  end.

Definition allocations_of (d : ExecDb) (r : ReservationRow) : list AllocationRow :=
  List.filter (is_current_allocation (resv_account_id r) (resv_strategy_key r)) (db_allocations d).

(** validation *)
Definition represented (d : ExecDb) (r : option ReservationRow) : bool :=
  match r with
  | None => true
  | Some r => match allocations_of d r with [a] => Qle_bool (resv_amount r) (alloc_reserved a) | _ => false end
  end.

Definition joined_text (l : list string) : string := String.concat "|" l.

Definition cancelled_intent (now : Z) (i : IntentRow) : IntentRow :=
  with_payload IntentCancelled (Some now)
    (digest (joined_text [intent_id i; intent_lifecycle_fingerprint i; "cancelled"; "STALE_READY_INTENT_RECOVERY"]%string))
    (merge (intent_request_payload i)
       (json_object [("recoveryReason", json_string "STALE_READY_INTENT_RECOVERY")])%string) now i.

Definition cancellable (id : string) (d : ExecDb) (i : IntentRow) : bool :=
  in_status id IntentReady i && negb (has_order d id).

(** The transition of a reservation; the empty text stands for a missing intent. *)
Definition stale_transition (reservation : string) (fields : list string) (intent scope state : string) (now : Z)
    : TerminalTransitionRow :=
  {| tt_id := ("reservation_transition_" ++ digest (joined_text fields))%string; tt_reservation_id := reservation;
     tt_order_intent_id := intent; tt_terminal_state := state; tt_release_reason := "stale_intent_recovery";
     tt_idempotency_key := (scope ++ ":stale_intent_recovery")%string; tt_occurred_at := now |}.

Definition cancelled_transition (r : ReservationRow) (intent : string) (now : Z) : TerminalTransitionRow :=
  stale_transition (resv_id r) [resv_id r; intent; "cancelled"; "stale_intent_recovery"]%string intent intent
    "cancelled" now.

(** [reserved_amount = reserved_amount - amount] *)
Definition take_back (amount : Q) (now : Z) (a : AllocationRow) : AllocationRow :=
  {| alloc_id := alloc_id a; alloc_account_id := alloc_account_id a; alloc_strategy_key := alloc_strategy_key a;
     alloc_status := alloc_status a; alloc_currency := alloc_currency a; alloc_amount := alloc_amount a;
     alloc_ratio := alloc_ratio a; alloc_reserved := (alloc_reserved a - amount)%Q;
     alloc_deployed := alloc_deployed a; alloc_config_version := alloc_config_version a;
     alloc_config_fingerprint := alloc_config_fingerprint a; alloc_effective_from := alloc_effective_from a;
     alloc_effective_to := alloc_effective_to a; alloc_version := alloc_version a + 1; alloc_updated_at := now |}.

(** released and adjusted, for the reservation whose transition was new. *)
Definition release_stale (r : ReservationRow) (now : Z) : tx SubmissionDb (nat * nat) :=
  n ← exec (update_rows reservation_time_checks db_reservations set_reservations
              (λ x, (resv_id x =? resv_id r)%string && unsettled x)
              (release_reservation "stale_intent_recovery" now));
  m ← exec (update_rows allocation_checks db_allocations set_allocations
              (is_current_allocation (resv_account_id r) (resv_strategy_key r)) (take_back (resv_amount r) now));
  mret (n, m).

Definition cancel_stale (fence : SchedulerFence) (id : string) (now : Z) : tx SubmissionDb CancellationCounts := λ d,
  let reservation := locked_reservation id (s_exec d) in
  let locked := match reservation with Some _ => 1%nat | None => 0%nat end in
  let ok := represented (s_exec d) reservation in
  let counts n k c := {| cc_ok := ok; cc_locked := locked; cc_cancelled := n; cc_transitions := k;
                         cc_released := fst c; cc_adjusted := snd c |} in
  if negb (ok && held fence d) then Ret (counts 0%nat 0%nat (0, 0)%nat, d)
  else
  (n ← update_intent (cancellable id (s_exec d)) (cancelled_intent now);
   match n, reservation with
   | S _, Some r =>
       k ← insert_terminal (cancelled_transition r id now);
       c ← (if (k =? 0)%nat then mret (0, 0)%nat else release_stale r now);
       mret (counts n k c)
   | _, _ => mret (counts n 0%nat (0, 0)%nat)
   end) d.

(** ** Research runs *)

Definition STALE_RUN_MS : Z := 15 * 60 * 1000.

Definition stale_run (now : Z) (r : ResearchRunRow) : bool :=
  str_mem (run_status r) ["reserved"; "running"]%string
  && (default (run_started_at r) (run_heartbeat_at r) <=? now - STALE_RUN_MS).

Definition recovered_run (now : Z) (r : ResearchRunRow) : ResearchRunRow :=
  {| run_id := run_id r; run_status := "recovered"; run_started_at := run_started_at r;
     run_heartbeat_at := run_heartbeat_at r; run_completed_at := Some now; run_recovered_at := Some now;
     run_recovery_reason := Some "WORKER_TERMINATED_OR_HEARTBEAT_EXPIRED"%string;
     run_recovery_source := Some "autonomous_worker"%string; run_version := run_version r + 1;
     run_updated_at := now |}.

Definition recover_runs (fence : SchedulerFence) (now : Z) : tx RecoveryDb nat := λ d,
  if held fence (submission d) then
    if forallb (λ r, run_started_at r <=? now) (List.filter (stale_run now) (v_runs d))
    then Ret (count_where (stale_run now) (v_runs d),
              set_runs (update_where (stale_run now) (recovered_run now) (v_runs d)) d)
    else Throw check_failed
  else Ret (0%nat, d).

(** ** Reservations that expired *)

Record ExpiryCounts := {
  ec_ok : bool;
  ec_locked : nat;
  ec_transitions : nat;
  ec_expired : nat
}.

(** locked_reservations *)
Definition is_expired (now : Z) (r : ReservationRow) : bool :=
  is_active_reservation r && (resv_expires_at r <=? now).

Definition same_strategy (account strategy : string) (r : ReservationRow) : bool :=
  (resv_account_id r =? account)%string && (resv_strategy_key r =? strategy)%string.

(** [SUM(amount)] of a group. *)
Definition group_total (account strategy : string) (l : list ReservationRow) : Q :=
  qsum resv_amount (List.filter (same_strategy account strategy) l).

(** The validation of the statement, on the group of [r]. *)
Definition group_represented (d : ExecDb) (locked : list ReservationRow) (r : ReservationRow) : bool :=
  match allocations_of d r with
  | [a] => Qle_bool (group_total (resv_account_id r) (resv_strategy_key r) locked) (alloc_reserved a)
  | _ => false
  end.

(** [ORDER BY intent.created_at DESC, intent.id DESC LIMIT 1] *)
Definition latest_intent_of (d : ExecDb) (reservation : string) : option IntentRow :=
  latest intent_created_at intent_id
    (List.filter (λ i, bool_decide (intent_reservation_id i = Some reservation)) (db_intents d)).

Definition expired_transition (d : ExecDb) (now : Z) (r : ReservationRow) : TerminalTransitionRow :=
  stale_transition (resv_id r) [resv_id r; "expired"; "stale_intent_recovery"]%string
    (match latest_intent_of d (resv_id r) with Some i => intent_id i | None => EmptyString end)
    (resv_id r) "expired" now.

(** terminal_transitions: the reservations whose transition was new. *)
Fixpoint insert_expired (d0 : ExecDb) (now : Z) (l : list ReservationRow) : tx SubmissionDb (list ReservationRow) :=
  match l with
  | [] => mret []
  | r :: l' =>
      k ← insert_terminal (expired_transition d0 now r);
      rest ← insert_expired d0 now l';
      mret (if (k =? 0)%nat then rest else r :: rest)
  end.

(** totals joined with an allocation *)
Definition total_for (new : list ReservationRow) (a : AllocationRow) : Q :=
  group_total (alloc_account_id a) (alloc_strategy_key a) new.

Definition reduced (new : list ReservationRow) (a : AllocationRow) : bool :=
  current_config (alloc_status a) (alloc_effective_to a)
  && existsb (same_strategy (alloc_account_id a) (alloc_strategy_key a)) new
  && Qle_bool (total_for new a) (alloc_reserved a).

Definition expired_row (now : Z) (r : ReservationRow) : ReservationRow :=
  {| resv_id := resv_id r; resv_account_id := resv_account_id r; resv_candidate_id := resv_candidate_id r;
     resv_strategy_key := resv_strategy_key r; resv_symbol := resv_symbol r; resv_asset_class := resv_asset_class r;
     resv_amount := resv_amount r; resv_status := ReservationExpired;
     resv_idempotency_key := resv_idempotency_key r; resv_fingerprint := resv_fingerprint r;
     resv_snapshot_id := resv_snapshot_id r; resv_job_name := resv_job_name r;
     resv_fencing_token := resv_fencing_token r; resv_expires_at := resv_expires_at r;
     resv_committed_at := resv_committed_at r; resv_released_at := Some now;
     resv_release_reason := Some "stale_intent_recovery"%string; resv_version := resv_version r + 1;
     resv_created_at := resv_created_at r; resv_updated_at := now |}.

(** expired: the new transitions whose allocation was reduced. *)
Definition expires (d : ExecDb) (new : list ReservationRow) (now : Z) (r : ReservationRow) : bool :=
  existsb (λ x, (resv_id x =? resv_id r)%string) new && is_expired now r
  && existsb (λ a, is_current_allocation (resv_account_id r) (resv_strategy_key r) a && reduced new a)
       (db_allocations d).

Definition expire_reservations (fence : SchedulerFence) (now : Z) : tx SubmissionDb ExpiryCounts := λ d,
  let locked := if held fence d then List.filter (is_expired now) (db_reservations (s_exec d)) else [] in
  let counts ok k n := {| ec_ok := ok; ec_locked := List.length locked; ec_transitions := k; ec_expired := n |} in
  if negb (forallb (group_represented (s_exec d) locked) locked) then Ret (counts false 0%nat 0%nat, d)
  else
  (new ← insert_expired (s_exec d) now locked;
   _ ← exec (update_rows allocation_checks db_allocations set_allocations (reduced new)
               (λ a, take_back (total_for new a) now a));
   n ← exec (update_rows reservation_time_checks db_reservations set_reservations (expires (s_exec d) new now)
               (expired_row now));
   mret (counts true (List.length new) n)) d.

(** ** Reviews, confirmations and intents that nobody confirmed *)

Definition expire_review (now : Z) (r : ReviewRow) : ReviewRow :=
  {| review_input := review_input r; review_account_id := review_account_id r;
     review_candidate_id := review_candidate_id r; review_status := ReviewExpired;
     review_consumed_at := review_consumed_at r; review_version := review_version r + 1; review_updated_at := now |}.

Definition expire_reviews (fence : SchedulerFence) (now : Z) : tx SubmissionDb nat :=
  fenced fence (exec (update_rows review_checks db_reviews set_reviews
    (λ r, bool_decide (review_status r ∈ [ReviewCreated; ReviewValid]) && (rv_expiresAt (review_input r) <=? now))
    (expire_review now))).

Definition expire_confirmation (now : Z) (c : ConfirmationRow) : ConfirmationRow :=
  {| conf_input := conf_input c; conf_review_id := conf_review_id c; conf_account_id := conf_account_id c;
     conf_candidate_id := conf_candidate_id c; conf_status := ConfirmationExpired;
     conf_consumed_at := conf_consumed_at c; conf_version := conf_version c + 1; conf_updated_at := now |}.

Definition expire_confirmations (fence : SchedulerFence) (now : Z) : tx SubmissionDb nat :=
  fenced fence (exec (update_rows confirmation_checks db_confirmations set_confirmations
    (λ c, bool_decide (conf_status c = ConfirmationValid) && (cf_expiresAt (conf_input c) <=? now))
    (expire_confirmation now))).

Definition stale_created (now : Z) (d : ExecDb) (i : IntentRow) : bool :=
  bool_decide (intent_status i = IntentCreated)
  && match review_of d i with Some r => stale_review now r | None => false end.

Definition dropped_fingerprint (now : Z) (i : IntentRow) : string :=
  digest (joined_text [intent_id i; intent_lifecycle_fingerprint i; "cancelled"; iso_text now]%string).

Definition dropped_intent (now : Z) (i : IntentRow) : IntentRow :=
  set_intent IntentCancelled (intent_reservation_id i) (intent_confirmation_id i) (dropped_fingerprint now i)
    (intent_ready_at i) (intent_submitted_at i) (Some now) now i.

Definition review_status_name (s : ReviewStatus) : string :=
  match s with
  | ReviewCreated => "created" | ReviewValid => "valid" | ReviewBlocked => "blocked" | ReviewExpired => "expired"
  | ReviewConsumed => "consumed" | ReviewRevoked => "revoked"
  end.

(** The fingerprint row of an intent and its review, as they were. *)
Definition dropped_row (now : Z) (i : IntentRow) (r : ReviewRow) : FingerprintRow :=
  {| fp_id := ("recovery_order_intent_cancelled:" ++ intent_id i)%string; fp_account_id := Some (intent_account_id i);
     fp_candidate_id := None; fp_order_intent_id := Some (intent_id i); fp_entity_type := "order_intent";
     fp_entity_id := intent_id i; fp_stage := "cancelled"; fp_value := dropped_fingerprint now i;
     fp_payload_version := 1;
     fp_evidence := json_object [("executionReviewId", json_string (rv_id (review_input r)));
       ("recoveryReason", json_string "STALE_CREATED_INTENT_RECOVERY");
       ("reviewExpiresAt", timestamp_json (rv_expiresAt (review_input r)));
       ("reviewStatus", json_string (review_status_name (review_status r)))]%string;
     fp_request_id := None; fp_correlation_id := None; fp_captured_at := now |}.

Fixpoint insert_dropped (now : Z) (d0 : ExecDb) (l : list IntentRow) : tx ExecDb unit :=
  match l with
  | [] => mret tt
  | i :: l' =>
      _ ← match review_of d0 i with
          | Some r => insert_row fingerprint_conflicts fingerprint_checks db_fingerprints set_fingerprints
                        (dropped_row now i r)
          | None => mret tt
          end;
      insert_dropped now d0 l'
  end.

Definition drop_created (fence : SchedulerFence) (now : Z) : tx SubmissionDb nat := λ d,
  if held fence d then
    (n ← update_intent (stale_created now (s_exec d)) (dropped_intent now);
     _ ← exec (insert_dropped now (s_exec d) (List.filter (stale_created now (s_exec d)) (db_intents (s_exec d))));
     mret n) d
  else Ret (0%nat, d).
End statements.

(** ** Evidence counts *)

Record Evidence := {
  account_count : nat;
  snapshot_count : nat;
  risk_limit_count : nat;
  allocation_count : nat;
  exposure_count : nat;
  activeReservationCount : nat;
  pendingIntentCount : nat;
  openOrderCount : nat;
  openPositionCount : nat;
  completedResearchCount : nat;
  eligibleCandidateCount : nat;
  validReviewCount : nat;
  reconciliableOrderCount : nat
}.

(** [ORDER BY updated_at DESC, id LIMIT 1] *)
Definition newer_account (a b : AccountRow) : bool :=
  (acct_updated_at b <? acct_updated_at a)
  || (acct_updated_at a =? acct_updated_at b) && String.leb (acct_id a) (acct_id b).

Definition current_account (d : ExecDb) : option string :=
  acct_id <$> head (sort_by newer_account (db_accounts d)).

(** [ORDER BY completed_at DESC, id DESC LIMIT 1] *)
Definition latest_research (d : RecoveryDb) : option string :=
  run_id <$> latest (λ r, default 0 (run_completed_at r)) run_id
               (List.filter (λ r, (run_status r =? "completed")%string) (v_runs d)).

Definition eligible_candidate (d : RecoveryDb) (run : string) (s : CandidateSource) : bool :=
  (source_research_run_id s =? run)%string
  && existsb (λ c, (cand_id c =? source_candidate_id s)%string && (cand_decision c =? "selected")%string
                   && negb (str_mem (cand_lifecycle_status c)
                              ["closed"; "expired"; "rejected"; "skipped"; "blocked"]%string))
       (s_candidates (submission d)).

Definition inspection (d : RecoveryDb) : Evidence :=
  let e := records d in
  let of_account {R} (account : R → string) (p : R → bool) (l : list R) : nat :=
    match current_account e with
    | Some a => count_where (λ r, (account r =? a)%string && p r) l
    | None => 0%nat
    end in
  {| account_count := match current_account e with Some _ => 1 | None => 0 end;
     snapshot_count := of_account snap_account_id (λ _, true) (db_snapshots e);
     risk_limit_count := of_account lim_account_id (λ l, current_config (lim_status l) (lim_effective_to l)) (db_risk_limits e);
     allocation_count := of_account alloc_account_id (λ a, current_config (alloc_status a) (alloc_effective_to a)) (db_allocations e);
     exposure_count := of_account expo_account_id (λ _, true) (db_exposures e);
     activeReservationCount := of_account resv_account_id
       (λ r, is_active_reservation r && (s_now (submission d) <? resv_expires_at r)) (db_reservations e);
     pendingIntentCount := of_account intent_account_id
       (λ i, bool_decide (intent_status i ∈ [IntentReady; IntentPending; IntentAmbiguous])) (db_intents e);
     openOrderCount := of_account order_account_id
       (λ o, str_mem (order_status o) ["new"; "accepted"; "pending_new"; "partially_filled"; "held"; "pending_cancel"]%string)
       (db_orders e);
     openPositionCount := of_account pos_account_id
       (λ p, bool_decide (pos_status p ∈ [PositionOpen; PositionClosing])) (db_positions e);
     completedResearchCount := count_where (λ r, (run_status r =? "completed")%string) (v_runs d);
     eligibleCandidateCount := match latest_research d with
       | Some run => count_where (eligible_candidate d run) (v_sources d) | None => 0%nat end;
     validReviewCount := of_account review_account_id
       (λ r, bool_decide (review_status r = ReviewValid) && (s_now (submission d) <? rv_expiresAt (review_input r)))
       (db_reviews e);
     reconciliableOrderCount := of_account intent_account_id
       (λ i, bool_decide (intent_status i ∈ [IntentSubmitted; IntentAmbiguous])) (db_intents e) |}.

Open Scope Z_scope.

(** ** Statements *)

Inductive RecoveryStatement : Type → Type :=
| ListStale (fence : SchedulerFence) (now : Z) : RecoveryStatement (list (string * string))
| Preserve (fence : SchedulerFence) (id brokerOrderId brokerStatus : string) (now : Z) : RecoveryStatement nat
| CancelStale (fence : SchedulerFence) (id : string) (now : Z) : RecoveryStatement CancellationCounts
| RecoverRuns (fence : SchedulerFence) (now : Z) : RecoveryStatement nat
| ExpireReservations (fence : SchedulerFence) (now : Z) : RecoveryStatement ExpiryCounts
| ExpireReviews (fence : SchedulerFence) (now : Z) : RecoveryStatement nat
| ExpireConfirmations (fence : SchedulerFence) (now : Z) : RecoveryStatement nat
| DropCreated (fence : SchedulerFence) (now : Z) : RecoveryStatement nat
| Inspect : RecoveryStatement Evidence.

Definition execute_recovery (digest : string → string) (merge : json → json → json) (timestamp_json : Z → json)
    {A} (s : RecoveryStatement A) : tx RecoveryDb A :=
  match s with
  | ListStale f now => gets (stale_ready_intents f now)
  | Preserve f id order status now => preserve merge f id order status now
  | CancelStale f id now => on_sub (cancel_stale digest merge f id now)
  | RecoverRuns f now => recover_runs f now
  | ExpireReservations f now => on_sub (expire_reservations digest f now)
  | ExpireReviews f now => on_sub (expire_reviews f now)
  | ExpireConfirmations f now => on_sub (expire_confirmations f now)
  | DropCreated f now => on_sub (drop_created digest timestamp_json f now)
  | Inspect => gets inspection
  end.

Inductive recovery_effect : Type → Type :=
| RecoverySql {A : Type} (s : RecoveryStatement A) : recovery_effect (res A)
| FindOrder (clientOrderId : string) : recovery_effect (BrokerError + BrokerResponse)
| RecoveryClock : recovery_effect Z.

(** ** Stale ready intents *)

(** [brokerOrderAbsent] of this file. *)
Definition lookup_absent (e : BrokerError) : bool :=
  match error_status e with Some s => s =? 404 | None => false end
  || has_word "404" false (error_message e)
  || includes_any ["order not found"]%string (to_lower (error_message e)).

Record StaleCounts := {
  staleReadyIntents : nat;
  staleReadyCancelled : nat;
  staleReadyPreserved : nat;
  staleReadyReservationsReleased : nat;
  staleReadyAllocationsAdjusted : nat
}.

Definition no_stale (n : nat) : StaleCounts :=
  {| staleReadyIntents := n; staleReadyCancelled := 0; staleReadyPreserved := 0;
     staleReadyReservationsReleased := 0; staleReadyAllocationsAdjusted := 0 |}.

Definition preserved (b : bool) (c : StaleCounts) : StaleCounts :=
  {| staleReadyIntents := staleReadyIntents c; staleReadyCancelled := staleReadyCancelled c;
     staleReadyPreserved := (staleReadyPreserved c + if b then 1 else 0)%nat;
     staleReadyReservationsReleased := staleReadyReservationsReleased c;
     staleReadyAllocationsAdjusted := staleReadyAllocationsAdjusted c |}.

Definition cancelled_one (k : CancellationCounts) (c : StaleCounts) : StaleCounts :=
  {| staleReadyIntents := staleReadyIntents c; staleReadyCancelled := S (staleReadyCancelled c);
     staleReadyPreserved := staleReadyPreserved c;
     staleReadyReservationsReleased := (staleReadyReservationsReleased c + cc_released k)%nat;
     staleReadyAllocationsAdjusted := (staleReadyAllocationsAdjusted c + cc_adjusted k)%nat |}.

(** Exactly one of each for a reservation, none without one. *)
Definition release_complete (k : CancellationCounts) : bool :=
  let expected := cc_locked k in
  (expected <=? 1)%nat && (cc_released k =? expected)%nat && (cc_adjusted k =? expected)%nat
  && (cc_transitions k =? expected)%nat.

Section recovery.
Context (fence : SchedulerFence) (now : Z).

(** The catch block. *)
Definition stale_failed (id : string) (e : BrokerError) (c : StaleCounts) : async recovery_effect StaleCounts :=
  if negb (lookup_absent e) then reject (error_message e)
  else
  let! k := ask (RecoverySql (CancelStale fence id now)) in
  let! _ := reject_if (negb (cc_ok k)) "POSTGRES_STALE_READY_RESERVATION_ALLOCATION_MISMATCH" in
  if negb (cc_cancelled k =? 1)%nat then async_ret c
  else
  let! _ := reject_if (negb (release_complete k)) "POSTGRES_STALE_READY_RESERVATION_RELEASE_FAILED" in
  async_ret (cancelled_one k c).

(** The try block after the lookup. *)
Definition stale_found (id clientOrderId : string) (response : BrokerResponse) (c : StaleCounts)
    : async recovery_effect StaleCounts :=
  let data := response_data response in
  let brokerId := default EmptyString (so_id data) in
  let! _ := reject_if (negb (str_truthy brokerId && bool_decide (so_client_order_id data = Some clientOrderId)))
              "POSTGRES_STALE_READY_BROKER_IDENTITY_MISMATCH" in
  let! n := ask (RecoverySql (Preserve fence id brokerId (default "unknown"%string (so_status data)) now)) in
  async_ret (preserved (n =? 1)%nat c).

Definition recover_stale (row : string * string) (c : StaleCounts) : async recovery_effect StaleCounts :=
  let clientOrderId := trim (snd row) in
  if negb (str_truthy clientOrderId) then async_ret c
  else
  Ask (FindOrder clientOrderId) (λ answer,
    match answer with
    | inl e => stale_failed (fst row) e c
    | inr response =>
        attempt (stale_found (fst row) clientOrderId response c)
          (λ code, stale_failed (fst row) {| error_status := None; error_message := code |} c)
    end).

Fixpoint recover_each (l : list (string * string)) (c : StaleCounts) : async recovery_effect StaleCounts :=
  match l with
  | [] => async_ret c
  | row :: l' => let! c' := recover_stale row c in recover_each l' c'
  end.

(** ** The whole recovery *)

Record RecoveryResult := {
  rr_researchRuns : nat;
  rr_reservations : nat;
  rr_reviews : nat;
  rr_confirmations : nat;
  rr_intents : nat;
  rr_stale : StaleCounts
}.

Definition runAutonomousPostgresRecovery (lookup : bool) : async recovery_effect RecoveryResult :=
  let! stale := (if lookup then
                   let! rows := ask (RecoverySql (ListStale fence now)) in
                   recover_each rows (no_stale (List.length rows))
                 else async_ret (no_stale 0)) in
  let! runs := ask (RecoverySql (RecoverRuns fence now)) in
  let! e := ask (RecoverySql (ExpireReservations fence now)) in
  let! _ := reject_if (negb (ec_ok e)) "POSTGRES_RECOVERY_RESERVATION_ALLOCATION_MISMATCH" in
  let! _ := reject_if (negb ((ec_expired e =? ec_locked e)%nat && (ec_transitions e =? ec_locked e)%nat))
              "POSTGRES_RECOVERY_RESERVATION_TERMINAL_TRANSITION_FAILED" in
  let! reviews := ask (RecoverySql (ExpireReviews fence now)) in
  let! confirmations := ask (RecoverySql (ExpireConfirmations fence now)) in
  let! intents := ask (RecoverySql (DropCreated fence now)) in
  async_ret {| rr_researchRuns := runs; rr_reservations := ec_expired e; rr_reviews := reviews;
               rr_confirmations := confirmations; rr_intents := intents; rr_stale := stale |}.
End recovery.

(** ** The command *)

Definition INSPECTION_COMMANDS : list string :=
  ["research:daily"; "paper:review"; "paper:portfolio:review"; "paper:options:discover"; "paper:ops:review";
   "paper:exit:review"; "hedge:review"; "hedge:exit:review"; "zero-dte:exit:review"; "zero-dte:reconcile";
   "system:recover"]%string.

(** [requireAuthorityEvidence]; the counts of a query are never negative. *)
Definition requireAuthorityEvidence (e : Evidence) : res unit :=
  if negb (account_count e =? 1)%nat then Throw "POSTGRES_EXECUTION_ACCOUNT_EVIDENCE_MISSING"
  else if (snapshot_count e <? 1)%nat then Throw "POSTGRES_ACCOUNT_SNAPSHOT_EVIDENCE_MISSING"
  else if (risk_limit_count e <? 1)%nat then Throw "POSTGRES_RISK_LIMIT_EVIDENCE_MISSING"
  else if (allocation_count e <? 1)%nat then Throw "POSTGRES_STRATEGY_ALLOCATION_EVIDENCE_MISSING"
  else if (exposure_count e <? 1)%nat then Throw "POSTGRES_PORTFOLIO_EXPOSURE_EVIDENCE_MISSING"
  else Ret tt.

(** [code]: why a command has nothing to do. *)
Definition no_op_code (command : string) (e : Evidence) : option string :=
  if (command =? "research:daily")%string && (eligibleCandidateCount e =? 0)%nat
  then Some "NO_ELIGIBLE_POSTGRES_CANDIDATES"%string
  else if str_mem command ["paper:exit:review"; "hedge:exit:review"; "zero-dte:exit:review"]%string
          && (openPositionCount e =? 0)%nat
  then Some "NO_OPEN_POSTGRES_POSITIONS"%string
  else if str_mem command ["paper:review"; "paper:ops:review"; "hedge:review"]%string
          && (eligibleCandidateCount e =? 0)%nat
  then Some "NO_ELIGIBLE_POSTGRES_CANDIDATES"%string
  else if (command =? "zero-dte:reconcile")%string && (reconciliableOrderCount e =? 0)%nat
  then Some "NO_RECONCILIABLE_POSTGRES_ORDERS"%string
  else None.

Record InspectionResult := {
  ir_code : option string;
  ir_command : string;
  ir_mutationAttempted : bool;
  ir_evidence : Evidence;
  ir_recovery : option RecoveryResult
}.

(** [now]: the time given by the caller. *)
Definition runAutonomousPostgresCommand (command : string) (fence : SchedulerFence) (now : option Z) (lookup : bool)
    : async recovery_effect InspectionResult :=
  let! _ := reject_if (negb (str_mem command INSPECTION_COMMANDS))
              ("POSTGRES_AUTONOMOUS_COMMAND_UNSUPPORTED: " ++ command)%string in
  let! at_ := match now with Some t => async_ret t | None => ask_value RecoveryClock end in
  let recovers := (command =? "system:recover")%string in
  let! recovery := (if recovers then
                      let! r := runAutonomousPostgresRecovery fence at_ lookup in async_ret (Some r)
                    else async_ret None) in
  let! evidence := ask (RecoverySql Inspect) in
  let! _ := sync (requireAuthorityEvidence evidence) in
  async_ret {| ir_code := no_op_code command evidence; ir_command := command; ir_mutationAttempted := recovers;
               ir_evidence := evidence; ir_recovery := recovery |}.
