(* ===== verification/BrokerStateSync.v ===== *)
(** Mirroring the broker account: [syncBrokerAccountAndPositions] of
    src/services/postgresReconciliationService.ts.

    Every statement commits by itself.  [filled_at] is the column of orders of
    that name, which only the migration of old orders writes. *)

From Stdlib Require Import Floats.
From S2P Require Import Prelude.
From S2P Require Import JsString.
From S2P Require Import JsNumber.
From S2P Require Import JsText.
From S2P Require Import JsJson.
From S2P Require Import CanonicalJson.
From S2P Require Import SchedulerLease.
From S2P Require Import ExecutionTables.
From S2P Require Import ExecutionReservation.
From S2P Require Import BrokerResult.
From S2P Require Import AccountSync.
From S2P Require Import Effects.
From S2P Require Import Submission.
From S2P Require Import SubmitConfiguration.
From S2P Require Import BrokerSnapshot.
Open Scope Z_scope.

(** ** Statements *)

Section statements.
Context (filled_at : OrderRow → option Z).

(** [COALESCE(filled_at, updated_at, created_at)] *)
Definition order_time (o : OrderRow) : Z := default (order_updated_at o) (filled_at o).

Definition upsert_account (fence : SchedulerFence) (new : AccountRow) : tx SubmissionDb nat :=
  fenced fence (_ ← exec (upsert (λ a b, (acct_id a =? acct_id b)%string) account_checks db_accounts set_accounts
                            merge_account new);
                mret 1%nat).

Definition insert_snapshot (fence : SchedulerFence) (new : SnapshotRow) : tx SubmissionDb nat :=
  fenced fence (written ← exec (insert_unless same_snapshot snapshot_conflicts no_checks db_snapshots set_snapshots new);
                mret (row_count written)).

Definition find_snapshot (account fingerprint : string) (d : SubmissionDb) : option string :=
  snap_id <$> select_one (λ s, (snap_account_id s =? account)%string && (snap_fingerprint s =? fingerprint)%string)
                (db_snapshots (s_exec d)).

Definition child_of (position : string) (d : SubmissionDb) (intent : string) : bool :=
  match lifecycle_of d intent with
  | Some l => bool_decide (lc_parent_position_id l = Some position) | None => false end.

(** The newest filled order of an intent that closes the position. *)
Definition closing_order (d : SubmissionDb) (position : string) : option string :=
  ExecutionTables.order_id <$> latest order_time ExecutionTables.order_id
    (List.filter (λ o, child_of position d (order_intent_id o) && (order_status o =? "filled")%string)
       (db_orders (s_exec d))).

Definition with_closing_order (o : option string) (p : PositionRow) : PositionRow :=
  {| pos_id := pos_id p; pos_account_id := pos_account_id p; pos_candidate_id := pos_candidate_id p;
     pos_opening_order_id := pos_opening_order_id p; pos_closing_order_id := o; pos_broker_key := pos_broker_key p;
     pos_symbol := pos_symbol p; pos_underlying_symbol := pos_underlying_symbol p;
     pos_option_symbol := pos_option_symbol p; pos_asset_class := pos_asset_class p; pos_side := pos_side p;
     pos_status := pos_status p; pos_quantity := pos_quantity p; pos_available_quantity := pos_available_quantity p;
     pos_average_entry_price := pos_average_entry_price p; pos_current_price := pos_current_price p;
     pos_market_value := pos_market_value p; pos_cost_basis := pos_cost_basis p;
     pos_unrealized_pnl := pos_unrealized_pnl p; pos_realized_pnl := pos_realized_pnl p;
     pos_snapshot_id := pos_snapshot_id p; pos_opened_at := pos_opened_at p; pos_closed_at := pos_closed_at p;
     pos_last_reconciled_at := pos_last_reconciled_at p; pos_version := pos_version p;
     pos_updated_at := pos_updated_at p |}.

Definition gone (account : string) (keys : list string) (p : PositionRow) : bool :=
  (pos_account_id p =? account)%string && open_position p && negb (str_mem (pos_broker_key p) keys).

Definition close_gone (d : SubmissionDb) (now : Z) (p : PositionRow) : PositionRow :=
  with_closing_order (or_else (pos_closing_order_id p) (closing_order d (pos_id p))) (close_position now p).

Definition close_positions (fence : SchedulerFence) (account : string) (now : Z) (keys : list string)
    : tx SubmissionDb nat := λ d,
  fenced fence (exec (update_rows position_checks db_positions set_positions (gone account keys) (close_gone d now))) d.

(** The exit intents of a closed position with a filled order. *)
Definition exit_done (account : string) (d : SubmissionDb) (i : IntentRow) : bool :=
  match lifecycle_of d (intent_id i) with
  | Some l =>
      str_mem (lc_lifecycle_state l) ["exit_broker_order_discovered"; "exit_partially_filled"]%string
      && existsb (λ p, bool_decide (lc_parent_position_id l = Some (pos_id p)) && (pos_account_id p =? account)%string
                       && bool_decide (pos_status p = PositionClosed)) (db_positions (s_exec d))
      && existsb (λ o, (order_intent_id o =? intent_id i)%string && (order_status o =? "filled")%string)
           (db_orders (s_exec d))
  | None => false
  end.

Definition close_intent (now : Z) (i : IntentRow) : IntentRow :=
  set_intent IntentReconciled (intent_reservation_id i) (intent_confirmation_id i) (intent_lifecycle_fingerprint i)
    (intent_ready_at i) (intent_submitted_at i) (Some (default now (intent_terminal_at i))) now i.

Definition close_lifecycles (fence : SchedulerFence) (account : string) (now : Z) : tx SubmissionDb nat := λ d,
  fenced fence
    (n ← update_intent (exit_done account d) (close_intent now);
     _ ← modify (λ d', set_lifecycle (update_where (λ l, existsb (λ i, (intent_id i =? lc_intent_id l)%string
                          && exit_done account d i) (db_intents (s_exec d))) (in_state "closed") (s_lifecycle d')) d');
     mret n) d.

Record Lineage := {
  lin_candidate_id : option string;
  lin_opening_order_id : string;
  lin_opening_filled_at : Z
}.

(** What the query compares with. *)
Record LineageKey := {
  lk_account : string;
  lk_symbol : string;
  lk_asset_class : ExecutionAssetClass;
  lk_side : PositionSide;
  lk_now : Z;
  lk_quantity : Q;
  lk_average : Q;
  lk_broker_key : string
}.

Definition Qdistance (a b : Q) : Q := if Qle_bool a b then (b - a)%Q else (a - b)%Q.

Definition opens (k : LineageKey) (d : SubmissionDb) (o : OrderRow) (i : IntentRow) : bool :=
  (order_account_id o =? lk_account k)%string && (order_symbol o =? lk_symbol k)%string
  && bool_decide (order_asset_class o = lk_asset_class k)
  && str_mem (order_status o) ["filled"; "partially_filled"]%string
  && (order_time o <=? lk_now k)
  && Qle_bool (Qdistance (order_filled_quantity o) (lk_quantity k)) (1 # 1000000000000)
  && match order_filled_average_price o with
     | Some x => Qle_bool (Qdistance x (lk_average k)) (1 # 100000000) | None => false end
  && match select_one (λ p, (pos_account_id p =? lk_account k)%string && (pos_broker_key p =? lk_broker_key k)%string)
            (db_positions (s_exec d)) with
     | Some p => match pos_closed_at p with Some t => t <? order_time o | None => true end
     | None => true
     end
  && match lk_side k with
     | PositionLong => bool_decide (intent_side i ∈ [buy; buy_to_open])
     | PositionShort => bool_decide (intent_side i = sell) && bool_decide (intent_asset_class i = equity)
     end.

Definition find_lineage (k : LineageKey) (d : SubmissionDb) : option Lineage :=
  let intent_of o := select_one (λ i, (intent_id i =? order_intent_id o)%string) (db_intents (s_exec d)) in
  match latest order_time ExecutionTables.order_id
          (List.filter (λ o, match intent_of o with Some i => opens k d o i | None => false end) (db_orders (s_exec d))) with
  | Some o => Some {| lin_candidate_id := match intent_of o with Some i => intent_candidate_id i | None => None end;
                      lin_opening_order_id := ExecutionTables.order_id o; lin_opening_filled_at := order_time o |}
  | None => None
  end.

Definition is_closed (p : PositionRow) : bool := bool_decide (pos_status p = PositionClosed).

(** ON CONFLICT (account_id, broker_position_key) DO UPDATE; the closing order
    and the realised result stay. *)
Definition observe_position (new old : PositionRow) : PositionRow :=
  {| pos_id := pos_id old; pos_account_id := pos_account_id old;
     pos_candidate_id := if is_closed old then pos_candidate_id new else or_else (pos_candidate_id old) (pos_candidate_id new);
     pos_opening_order_id :=
       if is_closed old then pos_opening_order_id new else or_else (pos_opening_order_id old) (pos_opening_order_id new);
     pos_closing_order_id := pos_closing_order_id old; pos_broker_key := pos_broker_key old;
     pos_symbol := pos_symbol new; pos_underlying_symbol := pos_underlying_symbol new;
     pos_option_symbol := pos_option_symbol new; pos_asset_class := pos_asset_class new; pos_side := pos_side new;
     pos_status := PositionOpen; pos_quantity := pos_quantity new; pos_available_quantity := pos_available_quantity new;
     pos_average_entry_price := pos_average_entry_price new; pos_current_price := pos_current_price new;
     pos_market_value := pos_market_value new; pos_cost_basis := pos_cost_basis new;
     pos_unrealized_pnl := pos_unrealized_pnl new; pos_realized_pnl := pos_realized_pnl old;
     pos_snapshot_id := pos_snapshot_id new;
     pos_opened_at := if is_closed old then pos_opened_at new else pos_opened_at old; pos_closed_at := None;
     pos_last_reconciled_at := pos_last_reconciled_at new; pos_version := pos_version old + 1;
     pos_updated_at := pos_updated_at new |}.

(** The constraints on the prices of a position. *)
Definition price_checks (p : PositionRow) : bool :=
  position_checks p
  && match pos_available_quantity p with Some q => Qle_bool 0 q | None => true end
  && match pos_average_entry_price p with Some q => negb (Qle_bool q 0) | None => true end
  && match pos_current_price p with Some q => Qle_bool 0 q | None => true end.

Definition upsert_position (fence : SchedulerFence) (new : PositionRow) : tx SubmissionDb nat := λ d,
  if negb (existsb (same_position new) (db_positions (s_exec d)))
     && existsb (λ p, (pos_id p =? pos_id new)%string) (db_positions (s_exec d))
     && held fence d
  then Throw unique_violation
  else fenced fence (_ ← exec (upsert same_position price_checks db_positions set_positions observe_position new);
                     mret 1%nat) d.
End statements.

(** ** Parameters of the statements *)

(** A number as the parameter of a numeric column, and as compared with one. *)
Definition numeric_parameter (scale : nat) (x : number) : res (option Q) := numeric_column scale (Some (num_text x)).
Definition numeric_operand (x : number) : res Q :=
  match numeric_of_text (num_text x) with Some q => Ret q | None => Throw "invalid_text_representation" end.

(** A number as the parameter of an integer column. *)
Definition integer_parameter (x : number) : res Z :=
  match num_to_Z x with
  | Some z => if (- 2 ^ 31 <=? z) && (z <? 2 ^ 31) then Ret z else Throw "numeric_value_out_of_range"
  | None => Throw "invalid_text_representation"
  end.

Section rows.
Context (le : string → string → bool) (sha256 : string → string).

Definition mirrored_account_id (s : PostgresAuthorityBrokerSnapshot) : string :=
  ("account_" ++ bs_accountIdentityHash s)%string.

Definition mirrored_account (s : PostgresAuthorityBrokerSnapshot) : AccountRow :=
  {| acct_id := mirrored_account_id s; acct_broker_account_id := bs_accountIdentityHash s;
     acct_status := ba_status (bs_account s); acct_currency := ba_currency (bs_account s); acct_version := 1;
     acct_created_at := bs_capturedAt s; acct_updated_at := bs_capturedAt s |}.

Definition mirrored_snapshot_id (s : PostgresAuthorityBrokerSnapshot) : string :=
  ("snapshot_" ++ CanonicalJson.canonicalJsonHash le sha256 (JObj
     [("accountId", JStr (mirrored_account_id s)); ("capturedAt", JStr (iso_text (bs_capturedAt s)));
      ("portfolioFingerprint", JStr (bs_portfolioFingerprint s))]%string))%string.

Definition snapshot_evidence (s : PostgresAuthorityBrokerSnapshot) : jvalue :=
  JObj [("source", JStr "alpaca_paper_api"); ("configurationFingerprint", JStr (bs_configurationFingerprint s));
        ("structuralPortfolioFingerprint", JStr (bs_structuralPortfolioFingerprint s));
        ("portfolioFingerprint", JStr (bs_portfolioFingerprint s));
        ("brokerOpenOrderCount", JNum (nat_text (Z.of_nat (List.length (bs_orders s)))));
        ("brokerPositionCount", JNum (nat_text (Z.of_nat (List.length (bs_positions s)))));
        ("reconciledAt", JStr (iso_text (bs_capturedAt s)))]%string.

Definition mirrored_snapshot (s : PostgresAuthorityBrokerSnapshot) : res SnapshotRow :=
  let a := bs_account s in
  cash ← numeric_parameter 8 (ba_cash a);
  equity ← numeric_parameter 8 (ba_equity a);
  power ← numeric_parameter 8 (ba_buyingPower a);
  options ← numeric_parameter 8 (ba_optionsBuyingPower a);
  level ← integer_parameter (ba_optionsApprovalLevel a);
  mret {| snap_id := mirrored_snapshot_id s; snap_account_id := mirrored_account_id s;
          snap_observed_at := bs_capturedAt s; snap_account_status := ba_status a; snap_currency := ba_currency a;
          snap_cash := cash; snap_portfolio_value := equity; snap_equity := equity; snap_buying_power := power;
          snap_options_buying_power := options; snap_options_approved_level := Some level;
          snap_trading_blocked := ba_tradingBlocked a; snap_account_blocked := ba_accountBlocked a;
          snap_fingerprint := bs_portfolioFingerprint s; snap_evidence := json_stringify (snapshot_evidence s) |}.

Definition mirrored_position_id (account key : string) : string :=
  ("position_" ++ CanonicalJson.canonicalJsonHash le sha256 (JObj
     [("accountId", JStr account); ("brokerPositionKey", JStr key)]%string))%string.

Definition lineage_key (s : PostgresAuthorityBrokerSnapshot) (p : AuthorityBrokerPosition) : res LineageKey :=
  quantity ← numeric_operand (bp_quantity p);
  average ← numeric_operand (bp_averageEntryPrice p);
  mret {| lk_account := mirrored_account_id s; lk_symbol := default (bp_symbol p) (bp_optionSymbol p);
          lk_asset_class := bp_assetClass p; lk_side := bp_side p; lk_now := bs_capturedAt s; lk_quantity := quantity;
          lk_average := average; lk_broker_key := bp_brokerPositionKey p |}.

Definition mirrored_position (s : PostgresAuthorityBrokerSnapshot) (snapshotId : string) (lineage : option Lineage)
    (p : AuthorityBrokerPosition) : res PositionRow :=
  quantity ← numeric_parameter 12 (bp_quantity p);
  available ← numeric_parameter 12 (bp_availableQuantity p);
  average ← numeric_parameter 8 (bp_averageEntryPrice p);
  price ← numeric_parameter 8 (bp_currentPrice p);
  value ← numeric_parameter 8 (bp_marketValue p);
  cost ← numeric_parameter 8 (bp_costBasis p);
  pnl ← numeric_parameter 8 (bp_unrealizedPnl p);
  mret {| pos_id := mirrored_position_id (mirrored_account_id s) (bp_brokerPositionKey p);
          pos_account_id := mirrored_account_id s; pos_candidate_id := lineage ≫= lin_candidate_id;
          pos_opening_order_id := lin_opening_order_id <$> lineage; pos_closing_order_id := None;
          pos_broker_key := bp_brokerPositionKey p; pos_symbol := bp_symbol p;
          pos_underlying_symbol := bp_underlyingSymbol p; pos_option_symbol := bp_optionSymbol p;
          pos_asset_class := bp_assetClass p; pos_side := bp_side p; pos_status := PositionOpen;
          pos_quantity := default 0%Q quantity; pos_available_quantity := available; pos_average_entry_price := average;
          pos_current_price := price; pos_market_value := value; pos_cost_basis := cost; pos_unrealized_pnl := pnl;
          pos_realized_pnl := None; pos_snapshot_id := Some snapshotId;
          pos_opened_at := default (bs_capturedAt s) (lin_opening_filled_at <$> lineage); pos_closed_at := None;
          pos_last_reconciled_at := Some (bs_capturedAt s); pos_version := 1; pos_updated_at := bs_capturedAt s |}.
End rows.

(** ** The program *)

Inductive SyncStatement : Type → Type :=
| UpsertAccount (fence : SchedulerFence) (a : AccountRow) : SyncStatement nat
| InsertSnapshot (fence : SchedulerFence) (s : SnapshotRow) : SyncStatement nat
| FindSnapshot (account fingerprint : string) : SyncStatement (option string)
| ClosePositions (fence : SchedulerFence) (account : string) (now : Z) (keys : list string) : SyncStatement nat
| CloseLifecycles (fence : SchedulerFence) (account : string) (now : Z) : SyncStatement nat
| FindLineage (k : LineageKey) : SyncStatement (option Lineage)
| UpsertPosition (fence : SchedulerFence) (p : PositionRow) : SyncStatement nat.

Definition execute_sync (filled_at : OrderRow → option Z) {A} (s : SyncStatement A) : tx SubmissionDb A :=
  match s with
  | UpsertAccount f a => upsert_account f a
  | InsertSnapshot f s => insert_snapshot f s
  | FindSnapshot a p => gets (find_snapshot a p)
  | ClosePositions f a now keys => close_positions filled_at f a now keys
  | CloseLifecycles f a now => close_lifecycles f a now
  | FindLineage k => gets (find_lineage filled_at k)
  | UpsertPosition f p => upsert_position f p
  end.

(** The only requests are statements; an answer may be an error. *)
Inductive sync_effect : Type → Type :=
| SyncSql {A : Type} (s : SyncStatement A) : sync_effect (res A).

Record SyncOutcome := {
  sy_accountId : string;
  sy_accountSnapshotId : string;
  sy_accountSnapshotStored : bool;
  sy_positionsObserved : nat;
  sy_positionsUpserted : nat
}.

Section sync.
Context (le : string → string → bool) (sha256 : string → string).
Context (fence : SchedulerFence) (snapshot : PostgresAuthorityBrokerSnapshot).

(** The body of the loop over the positions. *)
Definition sync_position (snapshotId : string) (p : AuthorityBrokerPosition) : async sync_effect unit :=
  let! k := sync (lineage_key snapshot p) in
  let! lineage := ask (SyncSql (FindLineage k)) in
  let! row := sync (mirrored_position le sha256 snapshot snapshotId lineage p) in
  let! stored := ask (SyncSql (UpsertPosition fence row)) in
  reject_if (negb (stored =? 1)%nat) "POSTGRES_RECONCILIATION_POSITION_PERSISTENCE_FAILED".

Fixpoint sync_positions (snapshotId : string) (ps : list AuthorityBrokerPosition) : async sync_effect nat :=
  match ps with
  | [] => async_ret 0%nat
  | p :: ps' =>
      let! _ := sync_position snapshotId p in
      let! n := sync_positions snapshotId ps' in
      async_ret (S n)
  end.

(** The id of the stored snapshot and whether it was stored now. *)
Definition persist_snapshot : async sync_effect (string * bool) :=
  let! row := sync (mirrored_snapshot le sha256 snapshot) in
  let! written := ask (SyncSql (InsertSnapshot fence row)) in
  if (written =? 0)%nat then
    let! existing := ask (SyncSql (FindSnapshot (mirrored_account_id snapshot) (bs_portfolioFingerprint snapshot))) in
    match existing with
    | Some id => if str_truthy (trim id) then async_ret (trim id, false)
                 else reject "POSTGRES_RECONCILIATION_ACCOUNT_SNAPSHOT_PERSISTENCE_FAILED"
    | None => reject "POSTGRES_RECONCILIATION_ACCOUNT_SNAPSHOT_PERSISTENCE_FAILED"
    end
  else async_ret (mirrored_snapshot_id le sha256 snapshot, true).

Definition syncBrokerAccountAndPositions : async sync_effect SyncOutcome :=
  let! _ := reject_if (negb (paper_runtime (bs_configuration snapshot)))
              "POSTGRES_RECONCILIATION_PAPER_SNAPSHOT_REQUIRED" in
  let! account := ask (SyncSql (UpsertAccount fence (mirrored_account snapshot))) in
  let! _ := reject_if (negb (account =? 1)%nat) "POSTGRES_RECONCILIATION_ACCOUNT_PERSISTENCE_FAILED" in
  let! (snapshotId, stored) := persist_snapshot in
  let keys := map bp_brokerPositionKey (bs_positions snapshot) in
  let! _ := ask (SyncSql (ClosePositions fence (mirrored_account_id snapshot) (bs_capturedAt snapshot) keys)) in
  let! _ := ask (SyncSql (CloseLifecycles fence (mirrored_account_id snapshot) (bs_capturedAt snapshot))) in
  let! n := sync_positions snapshotId (bs_positions snapshot) in
  async_ret {| sy_accountId := mirrored_account_id snapshot; sy_accountSnapshotId := snapshotId;
               sy_accountSnapshotStored := stored; sy_positionsObserved := List.length (bs_positions snapshot);
               sy_positionsUpserted := n |}.
End sync.
