(* ===== verification/BrokerStateRuns.v ===== *)
(** What mirroring the broker account does: runs of
    [syncBrokerAccountAndPositions] of BrokerStateSync.v. *)

From Stdlib Require Import Floats.
From S2P Require Import Prelude.
From S2P Require Import JsString.
From S2P Require Import JsNumber.
From S2P Require Import JsText.
From S2P Require Import JsJson.
From S2P Require Import SchedulerLease.
From S2P Require Import ExecutionTables.
From S2P Require Import ExecutionReservation.
From S2P Require Import BrokerResult.
From S2P Require Import AccountSync.
From S2P Require Import Effects.
From S2P Require Import Submission.
From S2P Require Import SubmissionFacts.
From S2P Require Import SubmitConfiguration.
From S2P Require Import BrokerSnapshot.
From S2P Require Import BrokerStateSync.
From S2P Require Import ExecutionWitnesses.
Open Scope Z_scope.

Section runs.
Context (filled_at : OrderRow → option Z).

(** The database executes a statement and commits it. *)
Definition answer_sync (X : Type) (e : sync_effect X) (d : SubmissionDb) : X * SubmissionDb :=
  match e in sync_effect Y return Y * SubmissionDb with
  | SyncSql s => match execute_sync filled_at s d with Ret (a, d') => (Ret a, d') | Throw c => (Throw c, d) end
  end.

Local Abbreviation go := (run answer_sync).

Lemma run_sync_sql {A} (s : SyncStatement A) d a d' :
  go (ask (SyncSql s)) d = (Ret a, d') ↔ execute_sync filled_at s d = Ret (a, d').
Proof. rewrite run_ask. cbn. destruct (execute_sync filled_at s d) as [[b x]|c]; naive_solver. Qed.

(** ** Statements and the position table *)

Lemma fenced_Ret f m d n d' :
  fenced f m d = Ret (n, d') ↔ if held f d then m d = Ret (n, d') else n = 0%nat ∧ d' = d.
Proof. unfold fenced. destruct (held f d); naive_solver. Qed.

Local Abbreviation positions d := (db_positions (s_exec d)).

Lemma exec_keeps_positions {A} (m : tx ExecDb A) d a d' :
  keeps db_positions m → exec m d = Ret (a, d') → positions d' = positions d.
Proof. intros Hm (x & Hx & ->)%exec_Ret. by apply Hm in Hx. Qed.

Lemma upsert_account_positions f a d n d' : upsert_account f a d = Ret (n, d') → positions d' = positions d.
Proof.
  unfold upsert_account. intros H%fenced_Ret. destruct (held f d); [|by destruct H as [_ ->]].
  tx_step H as u d1 E. injection H as _ <-. revert E. apply exec_keeps_positions. by apply keeps_upsert.
Qed.

Lemma insert_snapshot_positions f s d n d' : insert_snapshot f s d = Ret (n, d') → positions d' = positions d.
Proof.
  unfold insert_snapshot. intros H%fenced_Ret. destruct (held f d); [|by destruct H as [_ ->]].
  tx_step H as u d1 E. injection H as _ <-. revert E. apply exec_keeps_positions. by apply keeps_insert_unless.
Qed.

Lemma close_lifecycles_positions f a now d n d' : close_lifecycles f a now d = Ret (n, d') → positions d' = positions d.
Proof.
  unfold close_lifecycles. intros H%fenced_Ret. destruct (held f d); [|by destruct H as [_ ->]].
  tx_step H as u d1 E. tx_step H as u2 d2 E2. injection H as _ <-. unfold modify in E2. injection E2 as _ <-. cbn.
  revert E. apply exec_keeps_positions. by apply keeps_update.
Qed.

Lemma close_positions_positions f a now keys d n d' :
  close_positions filled_at f a now keys d = Ret (n, d') →
  positions d' = if held f d then update_where (gone a keys) (close_gone filled_at d now) (positions d) else positions d.
Proof.
  unfold close_positions. intros H%fenced_Ret. destruct (held f d); [|by destruct H as [_ ->]].
  apply exec_Ret in H as (x & (_ & -> & _)%update_rows_Ret & ->). done.
Qed.

Lemma upsert_position_positions f new d n d' :
  upsert_position f new d = Ret (n, d') →
  n = 0%nat ∧ positions d' = positions d ∨
  n = 1%nat ∧ positions d' = if existsb (same_position new) (positions d)
                             then update_where (same_position new) (observe_position new) (positions d)
                             else positions d ++ [new].
Proof.
  unfold upsert_position. case_match; [done|]. intros Hf%fenced_Ret.
  destruct (held f d); [right|left; by destruct Hf as [-> ->]].
  tx_step Hf as u d1 E. injection Hf as <- <-. split; [done|]. apply exec_Ret in E as (x & E & ->).
  revert E. unfold upsert. repeat case_match; try done; by intros [= _ <-].
Qed.

(** ** The closing order of a position *)

(** Any number of synchronisations in any interleaving: their statements one
    after the other. *)
Definition sync_step (d d' : SubmissionDb) : Prop := ∃ A (s : SyncStatement A) a, execute_sync filled_at s d = Ret (a, d').

(** Every run is such a sequence, also one that fails on the way. *)
Lemma run_steps {A} (p : prog sync_effect A) d : rtc sync_step d (go p d).2.
Proof.
  revert d. induction p as [a|X e k IH]; intros d; cbn [run]; [apply rtc_refl|]. destruct e as [B s]. cbn [answer_sync].
  destruct (execute_sync filled_at s d) as [[b d']|c] eqn:E; [|apply IH].
  apply rtc_l with d'; [by exists B, s, b|apply IH].
Qed.

(** The position is attributed to this closing order. *)
Definition attributed (id order : string) (d : SubmissionDb) : Prop :=
  ∃ p, In p (positions d) ∧ pos_id p = id ∧ pos_closing_order_id p = Some order.

Lemma attributed_update id order (f : PositionRow → PositionRow) sel l :
  (∀ p, pos_id (f p) = pos_id p) → (∀ p o, pos_closing_order_id p = Some o → pos_closing_order_id (f p) = Some o) →
  (∃ p, In p l ∧ pos_id p = id ∧ pos_closing_order_id p = Some order) →
  ∃ p, In p (update_where sel f l) ∧ pos_id p = id ∧ pos_closing_order_id p = Some order.
Proof.
  intros Hid Hc (p & Hp & <- & Ho). exists (if sel p then f p else p).
  split; [apply update_where_In; by exists p|]. destruct (sel p); auto.
Qed.

Lemma sync_step_attributed id order d d' : sync_step d d' → attributed id order d → attributed id order d'.
Proof.
  intros (A & s & a & H) Hp. unfold attributed in *. destruct s; cbn [execute_sync] in H.
  - apply upsert_account_positions in H. by rewrite H.
  - apply insert_snapshot_positions in H. by rewrite H.
  - injection H as _ <-. done.
  - apply close_positions_positions in H as ->. destruct (held fence d); [|done]. revert Hp. apply attributed_update; [done|].
    intros p o Ho. cbn. by rewrite Ho.
  - apply close_lifecycles_positions in H. by rewrite H.
  - injection H as _ <-. done.
  - apply upsert_position_positions in H as [[_ ->]|[_ ->]]; [done|]. case_match.
    + revert Hp. by apply attributed_update.
    + destruct Hp as (q & Hq & ?). exists q. split; [|done]. apply in_or_app. by left.
Qed.

(** The first closing order of a position is its closing order for ever.  When
    a position was closed by an order and the broker later reports it again, the
    row is reopened with its closing order still in place, and closing it a second
    time keeps that order: whatever synchronisations follow, in any interleaving,
    the order that closed the later position is never recorded, so its result is
    attributed to the earlier one. *)
Theorem first_closing_order_stays id order d d' :
  rtc sync_step d d' → attributed id order d → attributed id order d'.
Proof. induction 1 as [|d d1 d2 H _ IH]; [done|]. intros Hp. by eapply IH, sync_step_attributed. Qed.
(** ** One undisturbed run *)

Context (le : string → string → bool) (sha256 : string → string).
Context (fence : SchedulerFence) (snapshot : PostgresAuthorityBrokerSnapshot).

Local Abbreviation account := (mirrored_account_id snapshot).

Definition has_key (key : string) (r : PositionRow) : Prop := pos_account_id r = account ∧ pos_broker_key r = key.

(** The row shows what the broker reported, numbers at the scale of their column. *)
Definition shows (p : AuthorityBrokerPosition) (r : PositionRow) : Prop :=
  has_key (bp_brokerPositionKey p) r ∧ open_position r = true ∧
  (pos_symbol r = bp_symbol p ∧ pos_underlying_symbol r = bp_underlyingSymbol p ∧ pos_option_symbol r = bp_optionSymbol p ∧
   pos_asset_class r = bp_assetClass p ∧ pos_side r = bp_side p) ∧
  numeric_parameter 12 (bp_quantity p) = Ret (Some (pos_quantity r)) ∧
  numeric_parameter 12 (bp_availableQuantity p) = Ret (pos_available_quantity r) ∧
  numeric_parameter 8 (bp_averageEntryPrice p) = Ret (pos_average_entry_price r) ∧
  numeric_parameter 8 (bp_currentPrice p) = Ret (pos_current_price r) ∧
  numeric_parameter 8 (bp_marketValue p) = Ret (pos_market_value r) ∧
  numeric_parameter 8 (bp_costBasis p) = Ret (pos_cost_basis r) ∧
  numeric_parameter 8 (bp_unrealizedPnl p) = Ret (pos_unrealized_pnl r).

(** The snapshot row shows the captured account. *)
Definition snapshot_shows (r : SnapshotRow) : Prop :=
  let a := bs_account snapshot in
  (snap_account_id r = account ∧ snap_fingerprint r = bs_portfolioFingerprint snapshot ∧
   snap_observed_at r = bs_capturedAt snapshot ∧ snap_account_status r = ba_status a ∧ snap_currency r = ba_currency a ∧
   snap_trading_blocked r = ba_tradingBlocked a ∧ snap_account_blocked r = ba_accountBlocked a) ∧
  numeric_parameter 8 (ba_cash a) = Ret (snap_cash r) ∧
  numeric_parameter 8 (ba_equity a) = Ret (snap_equity r) ∧
  numeric_parameter 8 (ba_equity a) = Ret (snap_portfolio_value r) ∧
  numeric_parameter 8 (ba_buyingPower a) = Ret (snap_buying_power r) ∧
  numeric_parameter 8 (ba_optionsBuyingPower a) = Ret (snap_options_buying_power r) ∧
  ∃ level, integer_parameter (ba_optionsApprovalLevel a) = Ret level ∧ snap_options_approved_level r = Some level.

Lemma numeric_parameter_Some scale x q : numeric_parameter scale x = Ret q → ∃ v, q = Some v.
Proof. unfold numeric_parameter, numeric_column. case_match; [|done]. intros [= <-]. eauto. Qed.

Lemma mirrored_position_shows id lineage p row :
  mirrored_position le sha256 snapshot id lineage p = Ret row → shows p row.
Proof.
  unfold mirrored_position. intros H. apply res_bind_Ret in H as (quantity & Hq & H).
  apply res_bind_Ret in H as (available & Ha & H). apply res_bind_Ret in H as (average & Hv & H).
  apply res_bind_Ret in H as (price & Hp & H). apply res_bind_Ret in H as (value & Hw & H).
  apply res_bind_Ret in H as (cost & Hc & H). apply res_bind_Ret in H as (pnl & Hg & H).
  injection H as <-. unfold shows, has_key. cbn -[numeric_parameter].
  pose proof (numeric_parameter_Some _ _ _ Hq) as [v ->]. revert Hq Ha Hv Hp Hw Hc Hg.
  generalize numeric_parameter. intros text Hq Ha Hv Hp Hw Hc Hg. by split_and!.
Qed.

Lemma mirrored_snapshot_shows row : mirrored_snapshot le sha256 snapshot = Ret row → snapshot_shows row.
Proof.
  unfold mirrored_snapshot. intros H. apply res_bind_Ret in H as (cash & Hc & H).
  apply res_bind_Ret in H as (equity & He & H). apply res_bind_Ret in H as (power & Hp & H).
  apply res_bind_Ret in H as (options & Ho & H). apply res_bind_Ret in H as (level & Hl & H). injection H as <-.
  unfold snapshot_shows. cbn -[numeric_parameter integer_parameter].
  revert Hc He Hp Ho Hl. generalize (numeric_parameter 8) integer_parameter. intros text whole Hc He Hp Ho Hl.
  split_and!; [done..|]. exists level. by split.
Qed.

Lemma same_position_key new r :
  pos_account_id new = account → same_position new r = true ↔ has_key (pos_broker_key new) r.
Proof.
  intros Ha. unfold same_position, has_key. rewrite andb_true_iff, !String.eqb_eq, Ha. split; intros [-> ->]; done.
Qed.

Lemma observe_shows p new old : shows p new → has_key (bp_brokerPositionKey p) old → shows p (observe_position new old).
Proof.
  intros ([Ha Hk] & Ho & Hs & Hr) [Ha' Hk']. split; [by split|]. split; [done|]. split; [exact Hs|exact Hr].
Qed.

(** One position: its row shows it, the other rows stay. *)
Lemma sync_position_spec id p d u d' :
  go (sync_position le sha256 fence snapshot id p) d = (Ret u, d') →
  (∀ r, In r (positions d') → In r (positions d) ∧ ¬ has_key (bp_brokerPositionKey p) r ∨ shows p r) ∧
  (∀ r, In r (positions d) → ¬ has_key (bp_brokerPositionKey p) r → In r (positions d')) ∧
  (∃ r, In r (positions d') ∧ shows p r).
Proof.
  unfold sync_position. intros (k & d1 & (_ & ->)%run_sync_Ret & H)%run_bind_Ret.
  apply run_bind_Ret in H as (lineage & d2 & [= _ ->]%run_sync_sql & H).
  apply run_bind_Ret in H as (row & d3 & (Hrow & ->)%run_sync_Ret & H).
  apply run_bind_Ret in H as (n & d4 & Hup%run_sync_sql & (Hn & ->)%run_reject_if_Ret).
  apply negb_false_iff, Nat.eqb_eq in Hn as ->. apply mirrored_position_shows in Hrow.
  apply upsert_position_positions in Hup as [[? _]|[_ Hup]]; [done|].
  destruct Hrow as [[Ha Hk] Hrest] eqn:E. pose proof Hrow as Hshow. clear E.
  assert (∀ r, same_position row r = true ↔ has_key (bp_brokerPositionKey p) r) as Hsame.
  { intros r. rewrite <- Hk. by apply same_position_key. }
  destruct (existsb (same_position row) (positions d2)) eqn:Hex; rewrite Hup; split_and!.
  - intros r' (r & Hr & ->)%update_where_In. destruct (same_position row r) eqn:E.
    + right. apply observe_shows; [done|]. by apply Hsame.
    + left. split; [done|]. rewrite <- Hsame. by rewrite E.
  - intros r Hr Hno. apply update_where_In. exists r. split; [done|]. rewrite <- Hsame in Hno.
    by destruct (same_position row r).
  - apply existsb_exists in Hex as (r & Hr & Er). exists (observe_position row r). split.
    + apply update_where_In. exists r. by rewrite Er.
    + apply observe_shows; [done|]. by apply Hsame.
  - intros r [Hr|[<-|[]]]%in_app_or; [left|by right]. split; [done|]. rewrite <- Hsame. intros Er.
    apply not_true_iff_false in Hex. apply Hex, existsb_exists. eauto.
  - intros r Hr _. apply in_or_app. by left.
  - exists row. split; [|done]. apply in_or_app. right. by left.
Qed.

Lemma sync_positions_spec id ps d n d' :
  go (sync_positions le sha256 fence snapshot id ps) d = (Ret n, d') →
  n = List.length ps ∧
  (∀ r, In r (positions d') →
     In r (positions d) ∧ (∀ p, In p ps → ¬ has_key (bp_brokerPositionKey p) r) ∨ ∃ p, In p ps ∧ shows p r) ∧
  (∀ r, In r (positions d) → (∀ p, In p ps → ¬ has_key (bp_brokerPositionKey p) r) → In r (positions d')) ∧
  (NoDup (map bp_brokerPositionKey ps) → ∀ p, In p ps → ∃ r, In r (positions d') ∧ shows p r).
Proof.
  revert d n. induction ps as [|p ps IH]; intros d n H; cbn [sync_positions] in H.
  - injection H as <- <-. split_and!; [done|by left; auto|done|done].
  - apply run_bind_Ret in H as (u & d1 & H1%sync_position_spec & H).
    apply run_bind_Ret in H as (m & d2 & H2 & [= <- <-]). destruct H1 as (A1 & A2 & A3).
    apply IH in H2 as (-> & B1 & B2 & B3). split_and!; [done| | |].
    + intros r Hr. destruct (B1 r Hr) as [[Hr1 Hn]|(q & Hq & Hs)]; [|right; exists q; by split; [right|]].
      destruct (A1 r Hr1) as [[Hr0 Hno]|Hs]; [left|right; exists p; by split; [left|]].
      split; [done|]. intros q [<-|Hq]; [done|by apply Hn].
    + intros r Hr Hn. apply B2; [apply A2; [done|apply Hn; by left]|]. intros q Hq. apply Hn. by right.
    + intros [Hni Hnd]%NoDup_cons q [<-|Hq]; [|exact (B3 Hnd q Hq)].
      destruct A3 as (r & Hr & Hs). exists r. split; [|done]. apply B2; [done|]. intros q Hq [_ Hk].
      destruct Hs as [[_ Hk'] _]. apply Hni, list_elem_of_In, in_map_iff. exists q. by rewrite <- Hk, Hk'.
Qed.

(** *** The stored snapshot *)

Local Abbreviation snapshots d := (db_snapshots (s_exec d)).

(** What the readers take for the present state of the account. *)
Definition latest_snapshot (id : string) (d : SubmissionDb) : option SnapshotRow :=
  latest snap_observed_at snap_id (List.filter (λ s, (snap_account_id s =? id)%string) (snapshots d)).

Definition in_state_of (s : SnapshotRow) : bool :=
  (snap_account_id s =? account)%string && (snap_fingerprint s =? bs_portfolioFingerprint snapshot)%string.

Lemma exec_keeps_snapshots {A} (m : tx ExecDb A) d a d' :
  keeps db_snapshots m → exec m d = Ret (a, d') → snapshots d' = snapshots d.
Proof. intros Hm (x & Hx & ->)%exec_Ret. by apply Hm in Hx. Qed.

Lemma upsert_account_one a d d' :
  upsert_account fence a d = Ret (1%nat, d') → held fence d = true ∧ held fence d' = true ∧ snapshots d' = snapshots d.
Proof.
  unfold upsert_account. intros H%fenced_Ret. destruct (held fence d) eqn:Hh; [|by destruct H].
  tx_step H as u d1 E. injection H as <-. split; [done|]. pose proof E as E'.
  apply exec_keeps_snapshots in E'; [|by apply keeps_upsert]. split; [|done]. rewrite <- Hh. unfold held.
  apply exec_Ret in E as (x & E & ->). cbn.
  assert (db_leases x = db_leases (s_exec d)) as -> by (by eapply (keeps_upsert db_leases) in E). done.
Qed.

Lemma mirrored_snapshot_state row : mirrored_snapshot le sha256 snapshot = Ret row → in_state_of row = true.
Proof.
  unfold mirrored_snapshot. intros H. do 5 (apply res_bind_Ret in H as (? & _ & H)). injection H as <-.
  unfold in_state_of. cbn. by rewrite !String.eqb_refl.
Qed.

Lemma persist_snapshot_spec d id stored d' :
  held fence d = true → go (persist_snapshot le sha256 fence snapshot) d = (Ret (id, stored), d') →
  positions d' = positions d ∧
  if stored then existsb in_state_of (snapshots d) = false ∧
       ∃ row, mirrored_snapshot le sha256 snapshot = Ret row ∧ snapshots d' = snapshots d ++ [row] ∧ snap_id row = id
  else d' = d ∧ ∃ row, In row (snapshots d) ∧ in_state_of row = true ∧ id = trim (snap_id row).
Proof.
  intros Hh. unfold persist_snapshot. intros (row & d1 & (Hrow & ->)%run_sync_Ret & H)%run_bind_Ret.
  assert (snap_id row = mirrored_snapshot_id le sha256 snapshot ∧ snap_account_id row = account ∧
          snap_fingerprint row = bs_portfolioFingerprint snapshot) as (Hi & Ha & Hf).
  { clear H. unfold mirrored_snapshot in Hrow. do 5 (apply res_bind_Ret in Hrow as (? & _ & Hrow)).
    by injection Hrow as <-. }
  apply run_bind_Ret in H as (n & d2 & Hn%run_sync_sql & H). cbn [execute_sync] in Hn.
  pose proof (insert_snapshot_positions _ _ _ _ _ Hn) as Hp.
  unfold insert_snapshot in Hn. apply fenced_Ret in Hn. rewrite Hh in Hn. tx_step Hn as w d3 Ew. injection Hn as <- <-.
  apply exec_Ret in Ew as (x & Ew%insert_unless_Ret & ->). destruct w; cbn [row_count Nat.eqb] in H.
  - injection H as <- <- <-. split; [done|]. destruct Ew as [E (_ & _ & ->)%insert_row_Ret]. split.
    + rewrite <- E. clear -Ha Hf. induction (snapshots d) as [|s l IH]; [done|]. cbn [existsb]. rewrite IH. f_equal.
      unfold in_state_of, same_snapshot. by rewrite Ha, Hf, String.eqb_sym, (String.eqb_sym (snap_fingerprint s)).
    + by exists row.
  - destruct Ew as [E ->]. assert (set_exec (s_exec d) d = d) as Hd by (by destruct d). rewrite Hd in *.
    apply run_bind_Ret in H as (found & d4 & Hf4%run_sync_sql & H). cbn [execute_sync gets] in Hf4.
    injection Hf4 as <- <-. unfold find_snapshot in H.
    destruct (select_one _ (snapshots d)) as [s|] eqn:Es; [|done]. cbn [fmap option_fmap option_map] in H.
    destruct (str_truthy (trim (snap_id s))); [|done]. injection H as <- <- <-. split; [done|]. split; [done|].
    apply select_one_Some in Es as [Hs1 Hs2]. exists s. by split_and!.
Qed.

Lemma exec_snapshots_step {A} (s : SyncStatement A) d a d' :
  match s with ClosePositions _ _ _ _ | CloseLifecycles _ _ _ | FindLineage _ | UpsertPosition _ _ => True | _ => False end →
  execute_sync filled_at s d = Ret (a, d') → snapshots d' = snapshots d.
Proof.
  destruct s; intros Hs H; try done; cbn [execute_sync] in H.
  - unfold close_positions in H. apply fenced_Ret in H. destruct (held _ d); [|by destruct H as [_ ->]].
    revert H. apply exec_keeps_snapshots. by apply keeps_update.
  - unfold close_lifecycles in H. apply fenced_Ret in H. destruct (held _ d); [|by destruct H as [_ ->]].
    tx_step H as u d1 E. tx_step H as u2 d2 E2. injection H as _ <-. unfold modify in E2. injection E2 as _ <-. cbn.
    revert E. apply exec_keeps_snapshots. by apply keeps_update.
  - injection H as _ <-. done.
  - unfold upsert_position in H. case_match; [done|]. apply fenced_Ret in H. destruct (held _ d); [|by destruct H as [_ ->]].
    tx_step H as u d1 E. injection H as _ <-. revert E. apply exec_keeps_snapshots. by apply keeps_upsert.
Qed.

Lemma sync_positions_snapshots id ps d n d' :
  go (sync_positions le sha256 fence snapshot id ps) d = (Ret n, d') → snapshots d' = snapshots d.
Proof.
  revert d n. induction ps as [|p ps IH]; intros d n H; cbn [sync_positions] in H; [by injection H as _ <-|].
  apply run_bind_Ret in H as (u & d1 & H1 & H). apply run_bind_Ret in H as (m & d2 & H2 & [= _ <-]).
  apply IH in H2 as ->. unfold sync_position in H1. apply run_bind_Ret in H1 as (k & d3 & (_ & ->)%run_sync_Ret & H1).
  apply run_bind_Ret in H1 as (lineage & d4 & [= _ ->]%run_sync_sql & H1).
  apply run_bind_Ret in H1 as (row & d5 & (_ & ->)%run_sync_Ret & H1).
  apply run_bind_Ret in H1 as (n1 & d6 & Hup%run_sync_sql & (_ & ->)%run_reject_if_Ret).
  by apply exec_snapshots_step in Hup.
Qed.

(** The steps of a run that returns. *)
Lemma sync_steps r d d' :
  go (syncBrokerAccountAndPositions le sha256 fence snapshot) d = (Ret r, d') →
  ∃ d1 d2 d3 d4,
    paper_runtime (bs_configuration snapshot) = true ∧
    upsert_account fence (mirrored_account snapshot) d = Ret (1%nat, d1) ∧
    go (persist_snapshot le sha256 fence snapshot) d1 = (Ret (sy_accountSnapshotId r, sy_accountSnapshotStored r), d2) ∧
    execute_sync filled_at (ClosePositions fence account (bs_capturedAt snapshot)
      (map bp_brokerPositionKey (bs_positions snapshot))) d2 = Ret d3 ∧
    execute_sync filled_at (CloseLifecycles fence account (bs_capturedAt snapshot)) d3.2 = Ret d4 ∧
    go (sync_positions le sha256 fence snapshot (sy_accountSnapshotId r) (bs_positions snapshot)) d4.2
      = (Ret (sy_positionsUpserted r), d') ∧
    sy_positionsObserved r = List.length (bs_positions snapshot).
Proof.
  unfold syncBrokerAccountAndPositions. intros (u & d0 & (Hp & ->)%run_reject_if_Ret & H)%run_bind_Ret.
  apply run_bind_Ret in H as (n & d1 & H1%run_sync_sql & H).
  apply run_bind_Ret in H as (u1 & d1' & (Hn & ->)%run_reject_if_Ret & H).
  apply negb_false_iff, Nat.eqb_eq in Hn as ->. apply negb_false_iff in Hp.
  apply run_bind_Ret in H as ([id stored] & d2 & H2 & H).
  apply run_bind_Ret in H as (n3 & d3 & H3%run_sync_sql & H).
  apply run_bind_Ret in H as (n4 & d4 & H4%run_sync_sql & H).
  apply run_bind_Ret in H as (n5 & d5 & H5 & [= <- <-]).
  exists d1, d2, (n3, d3), (n4, d4). by split_and!.
Qed.

Lemma closed_stays_closed now keys r d :
  In r (update_where (gone account keys) (close_gone filled_at d now) (positions d)) →
  pos_account_id r = account → open_position r = true → In (pos_broker_key r) keys.
Proof.
  intros (r0 & Hr0 & ->)%update_where_In. destruct (gone account keys r0) eqn:E; [done|]. intros Ha Ho.
  unfold gone in E. rewrite Ha, String.eqb_refl, Ho in E. cbn [andb] in E. by apply negb_false_iff, str_mem_true in E.
Qed.

Lemma close_other_account now keys r d :
  pos_account_id r ≠ account →
  In r (update_where (gone account keys) (close_gone filled_at d now) (positions d)) ↔ In r (positions d).
Proof.
  intros Ha. rewrite update_where_In. split.
  - intros (r0 & Hr0 & ->). destruct (gone account keys r0) eqn:E; [|done]. unfold gone in E.
    rewrite !andb_true_iff, String.eqb_eq in E. by destruct E as [[E _] _].
  - intros Hr. exists r. split; [done|]. unfold gone. apply String.eqb_neq in Ha. by rewrite Ha.
Qed.

Lemma persist_held d id stored d' :
  held fence d = true → go (persist_snapshot le sha256 fence snapshot) d = (Ret (id, stored), d') → held fence d' = true.
Proof.
  intros Hh. unfold persist_snapshot. intros (row & d1 & (_ & ->)%run_sync_Ret & H)%run_bind_Ret.
  apply run_bind_Ret in H as (n & d2 & Hn%run_sync_sql & H). cbn [execute_sync] in Hn.
  assert (held fence d2 = true) as Hd2.
  { unfold insert_snapshot in Hn. apply fenced_Ret in Hn. rewrite Hh in Hn. tx_step Hn as w d3 Ew. injection Hn as _ <-.
    apply exec_Ret in Ew as (x & Ew & ->). rewrite <- Hh. unfold held. cbn.
    by apply (keeps_insert_unless db_leases) in Ew as ->. }
  destruct (n =? 0)%nat; [|by injection H as _ _ <-].
  apply run_bind_Ret in H as (found & d4 & [= _ ->]%run_sync_sql & H).
  destruct found as [x|]; [|done]. destruct (str_truthy (trim x)); [|done]. by injection H as _ _ <-.
Qed.

(** What a run that returns did to positions and snapshots. *)
Lemma sync_tables r d d' :
  go (syncBrokerAccountAndPositions le sha256 fence snapshot) d = (Ret r, d') →
  ∃ d1 d2 d4,
    snapshots d1 = snapshots d ∧ snapshots d' = snapshots d2 ∧ held fence d1 = true ∧
    go (persist_snapshot le sha256 fence snapshot) d1 = (Ret (sy_accountSnapshotId r, sy_accountSnapshotStored r), d2) ∧
    positions d4 = update_where (gone account (map bp_brokerPositionKey (bs_positions snapshot)))
                     (close_gone filled_at d2 (bs_capturedAt snapshot)) (positions d2) ∧
    positions d2 = positions d ∧
    go (sync_positions le sha256 fence snapshot (sy_accountSnapshotId r) (bs_positions snapshot)) d4
      = (Ret (sy_positionsUpserted r), d') ∧
    sy_positionsObserved r = List.length (bs_positions snapshot).
Proof.
  intros (d1 & d2 & [n3 d3] & [n4 d4] & _ & H1 & H2 & H3 & H4 & H5 & Hobs)%sync_steps. cbn [snd] in *.
  pose proof (upsert_account_one _ _ _ H1) as (_ & Hh & Hs1). pose proof (upsert_account_positions _ _ _ _ _ H1) as Hp1.
  pose proof (persist_held _ _ _ _ Hh H2) as Hh2. pose proof (persist_snapshot_spec _ _ _ _ Hh H2) as [Hp2 _].
  pose proof (sync_positions_snapshots _ _ _ _ _ H5) as Hs5.
  pose proof (close_lifecycles_positions _ _ _ _ _ _ H4) as Hp4.
  apply exec_snapshots_step in H4; [|done].
  pose proof (close_positions_positions _ _ _ _ _ _ _ H3) as Hp3. rewrite Hh2 in Hp3.
  apply exec_snapshots_step in H3; [|done].
  exists d1, d2, d4. rewrite Hs5, H4, H3, Hp4, Hp3, Hp2, Hp1. by split_and!.
Qed.

(** C35: A mirroring run that returns leaves the tables equal to the captured
    account.  The open positions of the account are exactly the captured ones, and
    each row shows what was captured: symbol, class, side, quantity, quantity
    available, entry price, current price, market value, cost basis and profit, the
    numbers at the scale of their column.  The rows of other accounts are untouched.
    A snapshot that was stored shows the captured account: status, currency,
    blocks, cash, equity, buying power, buying power for options and the approval
    level; otherwise no snapshot was added and the returned id is that of a stored
    one with this account and fingerprint.  Every observed position was written. *)
Theorem broker_state_mirrored r d d' :
  go (syncBrokerAccountAndPositions le sha256 fence snapshot) d = (Ret r, d') →
  (∀ row, In row (positions d') → pos_account_id row = account →
     (open_position row = true ↔ ∃ p, In p (bs_positions snapshot) ∧ bp_brokerPositionKey p = pos_broker_key row) ∧
     (open_position row = true → ∃ p, In p (bs_positions snapshot) ∧ shows p row)) ∧
  (NoDup (map bp_brokerPositionKey (bs_positions snapshot)) →
     ∀ p, In p (bs_positions snapshot) → ∃ row, In row (positions d') ∧ shows p row) ∧
  (∀ row, pos_account_id row ≠ account → In row (positions d') ↔ In row (positions d)) ∧
  (if sy_accountSnapshotStored r
   then ∃ row, snapshots d' = snapshots d ++ [row] ∧ snapshot_shows row ∧ sy_accountSnapshotId r = snap_id row
   else snapshots d' = snapshots d ∧
        ∃ row, In row (snapshots d) ∧ in_state_of row = true ∧ sy_accountSnapshotId r = trim (snap_id row)) ∧
  sy_positionsUpserted r = sy_positionsObserved r ∧ sy_positionsObserved r = List.length (bs_positions snapshot).
Proof.
  intros (d1 & d2 & d4 & Hs1 & Hs' & Hh & H2 & Hp4 & Hp2 & H5 & Hobs)%sync_tables.
  apply sync_positions_spec in H5 as (Hlen & B1 & B2 & B3). rewrite Hp4 in B1, B2.
  split_and!; [|done| | |congruence|done].
  - intros row Hr Ha. assert (Hopen : open_position row = true → ∃ p, In p (bs_positions snapshot) ∧ shows p row).
    { intros Ho. destruct (B1 row Hr) as [[Hr4 Hn]|Hp]; [|done].
      apply closed_stays_closed, in_map_iff in Hr4 as (p & Hk & Hp); [|done..]. by destruct (Hn p Hp). }
    split; [split|done].
    + intros (p & Hp & [[_ Hk] _])%Hopen. by exists p.
    + intros (p & Hp & Hk). destruct (B1 row Hr) as [[_ Hn]|(q & _ & _ & Ho & _)]; [|done]. by destruct (Hn p Hp).
  - intros row Ha. rewrite <- Hp2.
    rewrite <- (close_other_account (bs_capturedAt snapshot) (map bp_brokerPositionKey (bs_positions snapshot)) row d2 Ha).
    split.
    + intros Hr. by destruct (B1 row Hr) as [[Hr4 _]|(p & _ & [[Ha' _] _])].
    + intros Hr. apply B2; [done|]. by intros p _ [Ha' _].
  - apply persist_snapshot_spec in H2 as [_ H2]; [|done]. rewrite Hs'. destruct (sy_accountSnapshotStored r).
    + destruct H2 as (_ & row & Hrow & Hs2 & Hi). exists row. rewrite Hs2, Hs1.
      split_and!; [done|by apply mirrored_snapshot_shows|done].
    + destruct H2 as (-> & row & Hin & Hst & Hi). split; [done|]. rewrite Hs1 in Hin. by exists row.
Qed.

(** When the account returns to a state recorded earlier, readers do not see
    it.  If a snapshot of exactly this state is stored already and the newest one
    shows another state, the run stores nothing and returns the old id, and the
    newest snapshot of the account, the one reviews, confirmation and submission
    read, still shows the other state. *)
Theorem returned_state_not_latest r d d' other :
  go (syncBrokerAccountAndPositions le sha256 fence snapshot) d = (Ret r, d') →
  existsb in_state_of (snapshots d) = true →
  latest_snapshot account d = Some other → in_state_of other = false →
  latest_snapshot account d' = Some other ∧ in_state_of other = false ∧ sy_accountSnapshotStored r = false ∧
  ∃ row, In row (snapshots d) ∧ in_state_of row = true ∧ sy_accountSnapshotId r = trim (snap_id row).
Proof.
  intros (d1 & d2 & d4 & Hs1 & Hs' & Hh & H2 & _)%sync_tables Hex Hlatest Hother.
  apply persist_snapshot_spec in H2 as [_ H2]; [|done]. destruct (sy_accountSnapshotStored r).
  - destruct H2 as [H2 _]. by rewrite Hs1, Hex in H2.
  - destruct H2 as (-> & row & Hin & Hst & Hi). rewrite Hs1 in Hs', Hin. split_and!; [|done|done|by exists row].
    unfold latest_snapshot. by rewrite Hs'.
Qed.
End runs.

(** ** A small account *)

Section witnesses.
Open Scope string_scope.

Definition demo_configuration : PaperSubmitConfiguration := paperSubmitConfiguration true (λ _, None).

Definition demo_reported : AuthorityBrokerPosition :=
  {| bp_brokerPositionKey := "equity:SPY"; bp_symbol := "SPY"; bp_underlyingSymbol := None; bp_optionSymbol := None;
     bp_assetClass := equity; bp_side := PositionLong; bp_quantity := 2; bp_availableQuantity := 2;
     bp_averageEntryPrice := 300.5; bp_currentPrice := 301; bp_marketValue := 602; bp_costBasis := 601;
     bp_unrealizedPnl := 1 |}.

Definition demo_captured (t : Z) (fingerprint : string) (ps : list AuthorityBrokerPosition) : PostgresAuthorityBrokerSnapshot :=
  {| bs_capturedAt := t; bs_accountIdentityHash := "A";
     bs_account := {| ba_status := "ACTIVE"; ba_currency := "USD"; ba_cash := 5000; ba_equity := 5602; ba_buyingPower := 5000;
                      ba_optionsBuyingPower := 5000; ba_optionsApprovalLevel := 2; ba_tradingBlocked := false;
                      ba_accountBlocked := false |};
     bs_configuration := demo_configuration; bs_configurationFingerprint := "configuration"; bs_positions := ps;
     bs_orders := []; bs_structuralPortfolioFingerprint := fingerprint; bs_portfolioFingerprint := fingerprint |}.

Definition no_fill_time : OrderRow → option Z := λ _, None.
Definition demo_sync (s : PostgresAuthorityBrokerSnapshot) : SubmissionDb → res SyncOutcome * SubmissionDb :=
  run (answer_sync no_fill_time) (syncBrokerAccountAndPositions String.leb id demo_fence s).

Definition demo_unsynced : SubmissionDb :=
  {| s_now := 100; s_exec := demo_empty; s_lifecycle := []; s_candidates := []; s_terminals := [] |}.

Definition first_sync : {x | demo_sync (demo_captured 100 "held" [demo_reported]) demo_unsynced = (Ret (fst x), snd x)}.
Proof. eexists (_, _). cbn [fst snd]. vm_compute. reflexivity. Defined.
Definition second_sync : {x | demo_sync (demo_captured 110 "flat" []) (snd (proj1_sig first_sync)) = (Ret (fst x), snd x)}.
Proof. eexists (_, _). cbn [fst snd]. vm_compute. reflexivity. Defined.
Definition third_sync : {x | demo_sync (demo_captured 120 "held" [demo_reported]) (snd (proj1_sig second_sync)) = (Ret (fst x), snd x)}.
Proof. eexists (_, _). cbn [fst snd]. vm_compute. reflexivity. Defined.

Lemma broker_state_mirrored_witness :
  (∃ row, In row (db_positions (s_exec (snd (proj1_sig first_sync)))) ∧
    shows (demo_captured 100 "held" [demo_reported]) demo_reported row ∧ Qeq (pos_quantity row) 2) ∧
  ∃ row, In row (db_snapshots (s_exec (snd (proj1_sig first_sync)))) ∧
    snapshot_shows (demo_captured 100 "held" [demo_reported]) row.
Proof.
  destruct (broker_state_mirrored _ _ _ _ _ _ _ _ (proj2_sig first_sync)) as (_ & H & _ & Hsnap & _). split.
  - destruct (H (NoDup_singleton _) demo_reported (or_introl eq_refl)) as (row & Hr & Hs). exists row.
    split; [exact Hr|]. split; [exact Hs|]. destruct Hs as (_ & _ & _ & Hq & _). revert Hq. vm_compute. by intros [= <-].
  - assert (Hst : sy_accountSnapshotStored (fst (proj1_sig first_sync)) = true) by (vm_compute; reflexivity).
    rewrite Hst in Hsnap. destruct Hsnap as (row & Hd & Hs & _). exists row. split; [|exact Hs].
    rewrite Hd. apply in_or_app. right. by left.
Defined.

Lemma returned_state_not_latest_witness :
  snap_fingerprint <$> latest_snapshot "account_A" (snd (proj1_sig third_sync)) = Some "flat" ∧
  map pos_status (db_positions (s_exec (snd (proj1_sig third_sync)))) = [PositionOpen].
Proof.
  destruct (latest_snapshot "account_A" (snd (proj1_sig second_sync))) as [other|] eqn:E; [|vm_compute in E; discriminate E].
  assert (snap_fingerprint other = "flat") as Hf by (revert E; vm_compute; by intros [= <-]).
  split; [|vm_compute; reflexivity].
  refine (eq_trans (f_equal (fmap snap_fingerprint)
    (proj1 (returned_state_not_latest _ _ _ _ _ _ _ _ other (proj2_sig third_sync) _ E _))) _).
  - vm_compute. reflexivity.
  - revert E. vm_compute. by intros [= <-].
  - cbn. by rewrite Hf.
Defined.

(** The exit order [o1] closes the position, then the account buys again and the
    exit order [o2] is filled. *)
Definition demo_exit (n : string) (t : Z) : OrderRow :=
  {| order_id := "o" ++ n; order_account_id := "account_A"; order_intent_id := "exit" ++ n;
     order_broker_order_id := Some ("b" ++ n); order_client_order_id := "c" ++ n; order_parent_order_id := None;
     order_replacement_order_id := None; order_symbol := "SPY"; order_asset_class := equity; order_side := sell;
     order_order_type := market; order_time_in_force := day; order_status := "filled"; order_quantity := Some 2%Q;
     order_notional := None; order_limit_price := None; order_stop_price := None; order_filled_quantity := 2;
     order_filled_average_price := Some 300%Q; order_broker_request_id := None; order_submitted_at := Some t;
     order_last_broker_update_at := Some t; order_raw_status := "{}"; order_version := 1; order_created_at := t;
     order_updated_at := t |}.

Definition demo_position_id : string := mirrored_position_id String.leb id "account_A" "equity:SPY".

Definition demo_exit_columns (n : string) : LifecycleColumns :=
  {| lc_intent_id := "exit" ++ n; lc_operation := Some "sell_to_close"; lc_strategy_classification := Some "equity_long";
     lc_parent_position_id := Some demo_position_id; lc_opening_intent_id := None; lc_contract_id := None;
     lc_lifecycle_state := "exit_submitted"; lc_autonomous_cycle_id := None; lc_workstream_execution_id := None;
     lc_reservation_release_reason := None |}.

Definition add_exit (n : string) (t : Z) (d : SubmissionDb) : SubmissionDb :=
  set_lifecycle (s_lifecycle d ++ [demo_exit_columns n])
    (set_exec (set_orders (db_orders (s_exec d) ++ [demo_exit n t]) (s_exec d)) d).

Definition closed_once : {d | d = add_exit "2" 130 (demo_sync (demo_captured 110 "flat" [])
                                    (add_exit "1" 105 (proj1_sig first_sync).2)).2}.
Proof. eexists. vm_compute. reflexivity. Defined.

Definition closed_twice : SubmissionDb :=
  (demo_sync (demo_captured 140 "flat" []) (demo_sync (demo_captured 125 "held" [demo_reported]) (proj1_sig closed_once)).2).2.

Lemma first_closing_order_stays_witness :
  attributed demo_position_id "o1" closed_twice ∧ closing_order no_fill_time closed_twice demo_position_id = Some "o2".
Proof.
  split; [|vm_compute; reflexivity].
  apply (first_closing_order_stays no_fill_time demo_position_id "o1" (proj1_sig closed_once)).
  - etransitivity; apply run_steps.
  - eexists. split; [left; reflexivity|]. split; vm_compute; reflexivity.
Defined.
End witnesses.
