(* ===== verification/ReservationLedger.v ===== *)
(** Amounts of money in a numeric(28, 8) column: the multiples of [10^-8], their
    whole units, and how the rounding of the column interacts with sums.

    What a strategy has reserved and deployed: an abstract ledger, and the
    updates of reservations and allocations that implement its steps.

    For an account and a strategy the ledger maps every reservation that still
    holds an amount to its units of 10^-8, remembers which reservations are
    settled, and counts the units deployed.  [simulates] says that an update of
    the two tables keeps [ledger_ok] and is a run of the ledger for every account
    and strategy; LedgerRuns.v shows it of every statement that writes them. *)
From Stdlib Require Import Qminmax Qround Qabs Permutation.
From stdpp Require Import gmap.
From S2P Require Import Prelude.
From S2P Require Import ExecutionTables.
From S2P Require Import ExecutionReservation.
From S2P Require Import ExecutionInvariants.
From S2P Require Import Submission.
From S2P Require Import Reconciliation.
From S2P Require Import Recovery.

Definition UNITS : Z := 100000000.

(** The whole units of an amount, and the amount of some units. *)
Definition units (q : Q) : Z := Qfloor (q * inject_Z UNITS).
Definition of_units (z : Z) : Q := z # 100000000.

(** The amount has at most eight decimals. *)
Definition on_grid (q : Q) : Prop := (q == of_units (units q))%Q.

#[export] Instance units_proper : Proper (Qeq ==> eq) units.
Proof. intros x y H. apply Qfloor_comp. by rewrite H. Qed.

#[export] Instance on_grid_proper : Proper (Qeq ==> iff) on_grid.
Proof. intros x y H. unfold on_grid. by rewrite (units_proper _ _ H), H. Qed.

Local Open Scope Q_scope.

Lemma of_units_scaled z : of_units z * inject_Z UNITS == inject_Z z.
Proof. unfold of_units, UNITS, inject_Z, Qeq, Qmult. cbn [Qnum Qden]. lia. Qed.

Lemma of_units_div z : inject_Z z / inject_Z UNITS == of_units z.
Proof. unfold of_units, UNITS, inject_Z, Qdiv, Qinv, Qeq, Qmult. cbn [Qnum Qden]. lia. Qed.

Lemma units_of_units z : units (of_units z) = z.
Proof. unfold units. by rewrite of_units_scaled, Qfloor_Z. Qed.

Lemma grid_of_units z : on_grid (of_units z).
Proof. unfold on_grid. by rewrite units_of_units. Qed.

Lemma of_units_0 : of_units 0 == 0.
Proof. done. Qed.

Lemma of_units_add x y : of_units (x + y) == of_units x + of_units y.
Proof. unfold of_units, Qeq, Qplus. cbn [Qnum Qden]. lia. Qed.

Lemma of_units_sub x y : of_units (x - y) == of_units x - of_units y.
Proof. unfold of_units, Qeq, Qminus, Qplus, Qopp. cbn [Qnum Qden]. lia. Qed.

Lemma of_units_le x y : of_units x <= of_units y ↔ (x <= y)%Z.
Proof. unfold of_units, Qle. cbn [Qnum Qden]. lia. Qed.

Lemma of_units_lt x y : of_units x < of_units y ↔ (x < y)%Z.
Proof. unfold of_units, Qlt. cbn [Qnum Qden]. lia. Qed.

(** Reasoning about amounts on the grid is reasoning about their units. *)
Lemma grid_units q : on_grid q ↔ ∃ z, q == of_units z.
Proof. split; [by exists (units q)|]. intros [z ->]. apply grid_of_units. Qed.

Lemma units_eq q z : q == of_units z → units q = z.
Proof. intros ->. apply units_of_units. Qed.

Lemma grid_value q : on_grid q → of_units (units q) == q.
Proof. by symmetry. Qed.

Lemma grid_scaled q : on_grid q → q * inject_Z UNITS == inject_Z (units q).
Proof. intros H. rewrite <- (of_units_scaled (units q)). apply Qmult_comp; [exact H|reflexivity]. Qed.

Lemma grid_add x y : on_grid x → on_grid y → on_grid (x + y).
Proof.
  rewrite !grid_units. intros [a Ha] [b Hb]. exists (a + b)%Z. by rewrite of_units_add, Ha, Hb.
Qed.

Lemma grid_sub x y : on_grid x → on_grid y → on_grid (x - y).
Proof.
  rewrite !grid_units. intros [a Ha] [b Hb]. exists (a - b)%Z. by rewrite of_units_sub, Ha, Hb.
Qed.

Lemma units_add x y : on_grid x → on_grid y → units (x + y) = (units x + units y)%Z.
Proof. intros Hx Hy. apply units_eq. by rewrite of_units_add, (grid_value x Hx), (grid_value y Hy). Qed.

Lemma units_sub x y : on_grid x → on_grid y → units (x - y) = (units x - units y)%Z.
Proof. intros Hx Hy. apply units_eq. by rewrite of_units_sub, (grid_value x Hx), (grid_value y Hy). Qed.

Lemma units_pos q : on_grid q → 0 < q → (0 < units q)%Z.
Proof. intros Hq H. rewrite <- (grid_value q Hq) in H. rewrite <- of_units_0 in H. by rewrite of_units_lt in H. Qed.

Lemma units_nonneg q : 0 <= q → (0 <= units q)%Z.
Proof.
  intros H. unfold units. change 0%Z with (Qfloor 0). apply Qfloor_resp_le. unfold UNITS.
  change (inject_Z 100000000) with 100000000. lra.
Qed.

Lemma grid_nonneg q : on_grid q → (0 <= units q)%Z → 0 <= q.
Proof. intros Hq H. rewrite <- (grid_value q Hq). rewrite <- of_units_0. by apply of_units_le. Qed.

Lemma units_mono x y : x <= y → (units x <= units y)%Z.
Proof.
  intros H. apply Qfloor_resp_le. unfold UNITS. change (inject_Z 100000000) with 100000000. lra.
Qed.

(** ** Rounding *)

Lemma round_units q : 0 <= q → units (numeric_round 8 q) = Qfloor (q * inject_Z UNITS + (1 # 2)).
Proof.
  intros H. unfold numeric_round. change (inject_Z (10 ^ Z.of_nat 8)) with (inject_Z UNITS).
  rewrite (proj2 (Qle_bool_iff 0 q) H).
  rewrite of_units_div, units_of_units. apply Qfloor_comp. by rewrite (Qabs_pos q H).
Qed.

Lemma round_comp x y : x == y → numeric_round 8 x == numeric_round 8 y.
Proof.
  intros H. unfold numeric_round. assert (Qle_bool 0 x = Qle_bool 0 y) as -> by (by rewrite H).
  rewrite (Qfloor_comp (Qabs x * inject_Z (10 ^ Z.of_nat 8) + (1 # 2)) (Qabs y * inject_Z (10 ^ Z.of_nat 8) + (1 # 2)));
    [reflexivity|by rewrite H].
Qed.

Lemma round_grid q : on_grid (numeric_round 8 q).
Proof. apply grid_units. eexists. apply of_units_div. Qed.

Lemma round_value q : numeric_round 8 q == of_units (units (numeric_round 8 q)).
Proof. apply round_grid. Qed.

(** The floor of a number between two integers. *)
Lemma floor_unique q z : inject_Z z <= q → q < inject_Z (z + 1) → Qfloor q = z.
Proof.
  intros H1 H2. pose proof (Qfloor_le q) as H3. pose proof (Qlt_floor q) as H4.
  assert (inject_Z z < inject_Z (Qfloor q + 1)) as H5 by lra.
  assert (inject_Z (Qfloor q) < inject_Z (z + 1)) as H6 by lra.
  rewrite <- Zlt_Qlt in H5, H6. lia.
Qed.

Lemma floor_shift q z : Qfloor (inject_Z z + q) = (z + Qfloor q)%Z.
Proof.
  apply floor_unique; rewrite ?inject_Z_plus.
  - pose proof (Qfloor_le q). lra.
  - pose proof (Qlt_floor q) as H. rewrite inject_Z_plus in H. lra.
Qed.

(** Rounding only the part that is off the grid. *)
Lemma round_shift g q :
  on_grid g → 0 <= g → 0 <= q → units (numeric_round 8 (g + q)) = (units g + units (numeric_round 8 q))%Z.
Proof.
  intros Hg H0 Hq. rewrite !round_units by lra. rewrite <- floor_shift. apply Qfloor_comp.
  rewrite <- (grid_scaled g Hg). ring.
Qed.

Lemma round_id q : on_grid q → 0 <= q → units (numeric_round 8 q) = units q.
Proof.
  intros Hq H0. rewrite round_units by done.
  pose proof (grid_scaled q Hq) as E.
  apply floor_unique; rewrite ?inject_Z_plus, E; [lra|]. change (inject_Z 1) with 1. lra.
Qed.

(** Both parts of a split amount are rounded, and a tie is rounded up twice. *)
Lemma round_split g q :
  on_grid g → 0 <= q → q <= g →
  ∃ tie, (tie = 0 ∨ tie = 1)%Z ∧
    units (numeric_round 8 (g - q)) = (units g - units (numeric_round 8 q) + tie)%Z.
Proof.
  intros Hg Hq Hle. rewrite !round_units by lra. set (x := q * inject_Z UNITS).
  assert (E : (g - q) * inject_Z UNITS + (1 # 2) == inject_Z (units g) + ((1 # 2) - x)).
  { rewrite <- (grid_scaled g Hg). unfold x. ring. }
  rewrite (Qfloor_comp _ _ E), floor_shift. clear E.
  pose proof (Qfloor_le (x + (1 # 2))) as H1. pose proof (Qlt_floor (x + (1 # 2))) as H2.
  set (n := Qfloor (x + (1 # 2))) in *. clearbody n. rewrite inject_Z_plus in H2. change (inject_Z 1) with 1 in *.
  destruct (Qlt_le_dec (inject_Z n) (x + (1 # 2))) as [Hlt|Hge].
  - exists 0%Z. split; [by left|]. rewrite (floor_unique _ (- n)); [lia|..];
      rewrite ?inject_Z_plus, inject_Z_opp; change (inject_Z 1) with 1; lra.
  - exists 1%Z. split; [by right|]. rewrite (floor_unique _ (1 - n)); [lia|..]; unfold Z.sub;
      rewrite !inject_Z_plus, inject_Z_opp; change (inject_Z 1) with 1; lra.
Qed.

Lemma round_positive q : 0 < numeric_round 8 q → 0 < q.
Proof.
  intros H. apply Qnot_le_lt. intros Hq.
  assert (numeric_round 8 q <= 0) as Hr; [|lra].
  rewrite round_value. rewrite <- of_units_0. apply of_units_le.
  unfold numeric_round. change (inject_Z (10 ^ Z.of_nat 8)) with (inject_Z UNITS). rewrite of_units_div, units_of_units.
  set (n := Qfloor (Qabs q * inject_Z UNITS + (1 # 2))).
  assert (0 <= n)%Z as Hn.
  { unfold n. change 0%Z with (Qfloor 0). apply Qfloor_resp_le. pose proof (Qabs_nonneg q). unfold UNITS.
    change (inject_Z 100000000) with 100000000. lra. }
  destruct (Qle_bool 0 q) eqn:E.
  - apply Qle_bool_iff in E. assert (q == 0) as Hz by lra.
    unfold n. rewrite Hz. by vm_compute.
  - lia.
Qed.

Open Scope Z_scope.

(** ** The abstract ledger *)

Record Ledger := {
  lg_held : gmap string Z;
  lg_settled : gset string;
  lg_deployed : Z
}.

Definition lg_total (L : Ledger) : Z := map_fold (λ _ n acc, n + acc) 0 (lg_held L).

(** A reservation is made; a part of one is filled, the two parts being rounded
    apart by at most one unit; or one is settled, deployed as a whole or not at
    all. *)
Inductive ledger_step (L : Ledger) : Ledger → Prop :=
| ledger_reserve id n :
    0 < n → lg_held L !! id = None → id ∉ lg_settled L →
    ledger_step L {| lg_held := <[id := n]> (lg_held L); lg_settled := lg_settled L; lg_deployed := lg_deployed L |}
| ledger_fill id n n' tie :
    lg_held L !! id = Some n → 0 < n' → n' <= n → tie = 0 ∨ tie = 1 →
    ledger_step L {| lg_held := <[id := n']> (lg_held L); lg_settled := lg_settled L;
                     lg_deployed := lg_deployed L + (n - n' + tie) |}
| ledger_close id n deployed :
    lg_held L !! id = Some n → deployed = 0 ∨ deployed = n →
    ledger_step L {| lg_held := delete id (lg_held L); lg_settled := {[id]} ∪ lg_settled L;
                     lg_deployed := lg_deployed L + deployed |}.

(** ** The ledger of the tables *)

Record Books := {
  bk_reservations : list ReservationRow;
  bk_allocations : list AllocationRow
}.

Definition books (d : ExecDb) : Books :=
  {| bk_reservations := db_reservations d; bk_allocations := db_allocations d |}.

Definition holds (account strategy : string) (r : ReservationRow) : bool :=
  same_strategy account strategy r && unsettled r.

Definition held_amount (account strategy : string) (r : ReservationRow) : Q :=
  if holds account strategy r then resv_amount r else 0%Q.

(** What the reservations of a strategy add up to. *)
Definition held_total (account strategy : string) (rs : list ReservationRow) : Q :=
  qsum (held_amount account strategy) rs.

Definition current (account strategy : string) (l : list AllocationRow) : option AllocationRow :=
  select_one (is_current_allocation account strategy) l.

Definition entry_of (r : ReservationRow) : string * Z := (resv_id r, units (resv_amount r)).

Definition ledger (account strategy : string) (b : Books) : Ledger :=
  {| lg_held := list_to_map (map entry_of (List.filter (holds account strategy) (bk_reservations b)));
     lg_settled := list_to_set (map resv_id
       (List.filter (λ r, same_strategy account strategy r && negb (unsettled r)) (bk_reservations b)));
     lg_deployed := match current account strategy (bk_allocations b) with
                    | Some a => units (alloc_deployed a) | None => 0 end |}.

Definition amount_ok (r : ReservationRow) : Prop := on_grid (resv_amount r) ∧ (0 < resv_amount r)%Q.

Definition allocation_ok (a : AllocationRow) : Prop :=
  on_grid (alloc_reserved a) ∧ on_grid (alloc_deployed a) ∧ (0 <= alloc_reserved a)%Q ∧ (0 <= alloc_deployed a)%Q.

(** The amounts are those the columns can store, and the allocation in force has
    reserved exactly what the reservations of its strategy hold. *)
Record ledger_ok (b : Books) : Prop := {
  lo_ids : NoDup (map resv_id (bk_reservations b));
  lo_amounts : ∀ r, In r (bk_reservations b) → amount_ok r;
  lo_allocations : ∀ a, In a (bk_allocations b) → allocation_ok a;
  lo_reserved : ∀ account strategy a, In a (bk_allocations b) → is_current_allocation account strategy a = true →
    (alloc_reserved a == held_total account strategy (bk_reservations b))%Q
}.

(** An update that keeps the promise and is a run of every ledger. *)
Definition simulates (b b' : Books) : Prop :=
  ledger_ok b → ledger_ok b' ∧ ∀ account strategy, rtc ledger_step (ledger account strategy b) (ledger account strategy b').

Lemma simulates_refl b : simulates b b.
Proof. done. Qed.

Lemma simulates_trans b1 b2 b3 : simulates b1 b2 → simulates b2 b3 → simulates b1 b3.
Proof.
  intros H1 H2 H. destruct (H1 H) as [Hok1 Hr1]. destruct (H2 Hok1) as [Hok2 Hr2]. split; [done|].
  intros A K. exact (transitivity (Hr1 A K) (Hr2 A K)).
Qed.

(** ** Rows and entries *)

Lemma unsettled_true r :
  unsettled r = true ↔ resv_status r = ReservationActive ∨ resv_status r = ReservationCommitted.
Proof. unfold unsettled. rewrite bool_decide_eq_true, !elem_of_cons, elem_of_nil. tauto. Qed.

Lemma In_filter {R} (p : R → bool) l x : In x (List.filter p l) ↔ In x l ∧ p x = true.
Proof. apply filter_In. Qed.

Lemma NoDup_filtered {R K} (key : R → K) (p : R → bool) l : NoDup (map key l) → NoDup (map key (List.filter p l)).
Proof.
  induction l as [|x l IH]; intros H; [done|]. cbn [map List.filter] in *. apply NoDup_cons in H as [Hx H].
  destruct (p x); [|auto]. cbn [map]. constructor; [|auto]. rewrite list_elem_of_In, in_map_iff in Hx |- *.
  intros (y & Hy & Hin%In_filter). apply Hx. exists y. tauto.
Qed.

Lemma entries_keys l : (map entry_of l).*1 = map resv_id l.
Proof. induction l as [|r l IH]; [done|]. cbn. f_equal. exact IH. Qed.

Section lookup.
Context (A K : string).

Lemma held_lookup b id n :
  NoDup (map resv_id (bk_reservations b)) →
  lg_held (ledger A K b) !! id = Some n ↔
  ∃ r, In r (bk_reservations b) ∧ holds A K r = true ∧ resv_id r = id ∧ units (resv_amount r) = n.
Proof.
  intros Hnd. cbn [ledger lg_held]. rewrite <- elem_of_list_to_map.
  - rewrite list_elem_of_In, in_map_iff. unfold entry_of. split.
    + intros (r & [= <- <-] & [Hr Hh]%In_filter). by exists r.
    + intros (r & Hr & Hh & <- & <-). exists r. split; [done|]. by apply In_filter.
  - rewrite entries_keys. by apply NoDup_filtered.
Qed.

Lemma settled_lookup b id :
  id ∈ lg_settled (ledger A K b) ↔
  ∃ r, In r (bk_reservations b) ∧ same_strategy A K r = true ∧ unsettled r = false ∧ resv_id r = id.
Proof.
  cbn [ledger lg_settled]. rewrite elem_of_list_to_set, list_elem_of_In, in_map_iff. split.
  - intros (r & <- & [Hr [Hs Hu%negb_true_iff]%andb_true_iff]%In_filter). by exists r.
  - intros (r & Hr & Hs & Hu & <-). exists r. split; [done|]. apply In_filter. by rewrite Hs, Hu.
Qed.

(** A ledger that agrees with the rows is theirs. *)
Lemma ledger_is b H S D :
  NoDup (map resv_id (bk_reservations b)) →
  (∀ id n, H !! id = Some n ↔
     ∃ r, In r (bk_reservations b) ∧ holds A K r = true ∧ resv_id r = id ∧ units (resv_amount r) = n) →
  (∀ id, id ∈ S ↔
     ∃ r, In r (bk_reservations b) ∧ same_strategy A K r = true ∧ unsettled r = false ∧ resv_id r = id) →
  lg_deployed (ledger A K b) = D → ledger A K b = {| lg_held := H; lg_settled := S; lg_deployed := D |}.
Proof.
  intros Hnd HH HS HD.
  assert (lg_held (ledger A K b) = H) as E1.
  { apply map_eq. intros id. apply option_eq. intros n. by rewrite held_lookup, HH. }
  assert (lg_settled (ledger A K b) = S) as E2.
  { apply set_eq. intros id. by rewrite settled_lookup, HS. }
  rewrite <- E1, <- E2, <- HD. by destruct (ledger A K b).
Qed.

(** What the abstract ledger holds is what the rows add up to. *)
Lemma total_held b :
  NoDup (map resv_id (bk_reservations b)) → (∀ r, In r (bk_reservations b) → on_grid (resv_amount r)) →
  lg_total (ledger A K b) = units (held_total A K (bk_reservations b)) ∧
  on_grid (held_total A K (bk_reservations b)).
Proof.
  unfold lg_total. cbn [ledger lg_held]. generalize (bk_reservations b). clear b. intros l.
  induction l as [|r l IH]; intros Hnd Hg.
  - cbn. split; [done|]. by apply (grid_units 0); exists 0.
  - cbn [map] in Hnd. apply NoDup_cons in Hnd as [Hr Hnd].
    destruct IH as [IH Hgrid]; [done|by intros; apply Hg; right|].
    unfold held_total in *. cbn [qsum fold_right List.filter]. fold (qsum (held_amount A K) l).
    unfold held_amount at 1 3. destruct (holds A K r) eqn:E.
    + cbn [map list_to_map foldr]. unfold entry_of at 1. cbn [fst snd]. rewrite map_fold_insert_L.
      * rewrite IH. pose proof (Hg r (or_introl eq_refl)). split; [|by apply grid_add]. by rewrite units_add.
      * intros. lia.
      * apply not_elem_of_list_to_map_1. rewrite entries_keys. intros Hin. apply Hr.
        rewrite list_elem_of_In, in_map_iff in Hin |- *. destruct Hin as (y & Hy & [Hin _]%In_filter). by exists y.
    + rewrite IH. assert ((0 + qsum (held_amount A K) l == qsum (held_amount A K) l)%Q) as Ez by lra.
      split; [by apply units_proper|]. by rewrite Ez.
Qed.
End lookup.

(** ** Updating allocations *)

Lemma held_total_update A K p f rs :
  held_total A K (update_where p f rs) = qsum (λ r, held_amount A K (if p r then f r else r)) rs.
Proof. unfold held_total, qsum, update_where. by induction rs; simpl; f_equal. Qed.

(** [g] touches amounts only. *)
Definition keeps_current (g : AllocationRow → AllocationRow) : Prop :=
  ∀ A K a, is_current_allocation A K (g a) = is_current_allocation A K a.

Lemma current_update A K q g l :
  keeps_current g →
  current A K (update_where q g l) = (λ a, if q a then g a else a) <$> current A K l.
Proof. intros Hg. apply select_update. intros a _. apply Hg. Qed.

(** When the reserved amount of every allocation in force moves with what its
    strategy holds, the tables stay balanced. *)
Lemma balanced_update rs rs' l q g :
  ledger_ok {| bk_reservations := rs; bk_allocations := l |} →
  NoDup (map resv_id rs') → (∀ r, In r rs' → amount_ok r) → keeps_current g →
  (∀ a, In a l → q a = true → allocation_ok (g a)) →
  (∀ A K a, In a l → is_current_allocation A K a = true →
     (alloc_reserved (if q a then g a else a) == alloc_reserved a + (held_total A K rs' - held_total A K rs))%Q) →
  ledger_ok {| bk_reservations := rs'; bk_allocations := update_where q g l |}.
Proof.
  intros [_ _ Ha Hr] Hnd Hok Hg Hq Hm. split; cbn [bk_reservations bk_allocations] in *; [done..| |].
  - intros a (a0 & Hin & ->)%update_where_In. destruct (q a0) eqn:E; auto.
  - intros A K a (a0 & Hin & ->)%update_where_In Hcur.
    assert (is_current_allocation A K a0 = true) as Hc by (destruct (q a0); [by rewrite <- Hg|done]).
    rewrite (Hm A K a0 Hin Hc), (Hr A K a0 Hin Hc). lra.
Qed.

(** A strategy has one allocation in force. *)
Lemma current_same A K B L a :
  is_current_allocation A K a = true → is_current_allocation B L a = true → A = B ∧ K = L.
Proof. apply is_current_same. Qed.

Lemma same_strategy_true A K r : same_strategy A K r = true ↔ resv_account_id r = A ∧ resv_strategy_key r = K.
Proof. unfold same_strategy. by rewrite andb_true_iff, !String.eqb_eq. Qed.

Lemma same_strategy_refl r : same_strategy (resv_account_id r) (resv_strategy_key r) r = true.
Proof. by apply same_strategy_true. Qed.

(** An allocation is in force for the strategy of [r], or [r] is nothing to it. *)
Lemma current_strategy A K r a :
  is_current_allocation A K a = true →
  same_strategy A K r = is_current_allocation (resv_account_id r) (resv_strategy_key r) a.
Proof.
  intros Hc. apply eq_true_iff_eq. rewrite same_strategy_true. split.
  - by intros [-> ->].
  - intros Hr. destruct (current_same _ _ _ _ _ Hc Hr) as [-> ->]. done.
Qed.

(** ** Making a reservation *)

Lemma held_amount_unsettled A K r :
  unsettled r = true → held_amount A K r = if same_strategy A K r then resv_amount r else 0%Q.
Proof. intros H. unfold held_amount, holds. by rewrite H, andb_true_r. Qed.

Lemma held_amount_settled A K r : unsettled r = false → held_amount A K r = 0%Q.
Proof. intros H. unfold held_amount, holds. by rewrite H, andb_false_r. Qed.

Lemma deployed_update A K q g rs rs' l :
  keeps_current g → (∀ a, alloc_deployed (g a) = alloc_deployed a) →
  lg_deployed (ledger A K {| bk_reservations := rs'; bk_allocations := update_where q g l |}) =
  lg_deployed (ledger A K {| bk_reservations := rs; bk_allocations := l |}).
Proof.
  intros Hg Hd. cbn [ledger lg_deployed bk_allocations]. rewrite current_update by done.
  destruct (current A K l) as [a|]; [|done]. cbn. destruct (q a); [by rewrite Hd|done].
Qed.

(** The entries of a table with one more reservation. *)
Lemma held_appended A K rs l r id n :
  NoDup (map resv_id rs) → ¬ In (resv_id r) (map resv_id rs) → same_strategy A K r = true → unsettled r = true →
  <[resv_id r := units (resv_amount r)]> (lg_held (ledger A K {| bk_reservations := rs; bk_allocations := l |})) !! id
    = Some n ↔
  ∃ x, In x (rs ++ [r]) ∧ holds A K x = true ∧ resv_id x = id ∧ units (resv_amount x) = n.
Proof.
  intros Hnd Hnew Hs Hu. destruct (decide (resv_id r = id)) as [<-|Hne].
  - rewrite lookup_insert_eq. split.
    + intros [= <-]. exists r. split_and!; [by apply in_or_app; right; left| |done|done]. unfold holds. by rewrite Hs, Hu.
    + intros (x & [Hx|[<-|[]]]%in_app_or & _ & Hid & <-); [|done]. exfalso. apply Hnew. rewrite <- Hid. by apply in_map.
  - rewrite lookup_insert_ne by done. rewrite held_lookup by done. cbn [bk_reservations]. split.
    + intros (x & Hx & ?). exists x. split; [by apply in_or_app; left|done].
    + intros (x & [Hx|[<-|[]]]%in_app_or & ? & ? & ?); [by exists x|done].
Qed.

Lemma settled_appended A K rs l r :
  unsettled r = true → ∀ id,
  id ∈ lg_settled (ledger A K {| bk_reservations := rs; bk_allocations := l |}) ↔
  ∃ x, In x (rs ++ [r]) ∧ same_strategy A K x = true ∧ unsettled x = false ∧ resv_id x = id.
Proof.
  intros Hu id. rewrite settled_lookup. cbn [bk_reservations]. split.
  - intros (x & Hx & ?). exists x. split; [by apply in_or_app; left|done].
  - intros (x & [Hx|[<-|[]]]%in_app_or & ? & ? & ?); [by exists x|congruence].
Qed.

Lemma reserve_simulates rs l r now :
  unsettled r = true → amount_ok r → ¬ In (resv_id r) (map resv_id rs) →
  simulates {| bk_reservations := rs; bk_allocations := l |}
    {| bk_reservations := rs ++ [r];
       bk_allocations := update_where (is_current_allocation (resv_account_id r) (resv_strategy_key r))
                           (add_reserved (resv_amount r) now) l |}.
Proof.
  intros Hu [Hg Hp] Hnew Hok. pose proof (lo_ids _ Hok) as Hnd. cbn [bk_reservations] in Hnd.
  assert (NoDup (map resv_id (rs ++ [r]))) as Hnd'.
  { rewrite map_app. apply NoDup_app. split; [done|]. split; [|apply NoDup_singleton].
    intros x Hx ->%list_elem_of_singleton. by apply Hnew, list_elem_of_In. }
  split.
  - apply (balanced_update rs); try done.
    + intros x [Hx|[<-|[]]]%in_app_or; [by apply Hok|done].
    + intros a Ha _. destruct (lo_allocations _ Hok a Ha) as (G1 & G2 & P1 & P2).
      split_and!; cbn [add_reserved alloc_reserved alloc_deployed]; [by apply grid_add|done|lra|done].
    + intros A K a _ Hc. unfold held_total. rewrite qsum_app, qsum_single, held_amount_unsettled by done.
      rewrite (current_strategy A K r a Hc). clear Hc.
      destruct (is_current_allocation _ _ a); cbn [add_reserved alloc_reserved]; lra.
  - intros A K.
    pose proof (deployed_update A K (is_current_allocation (resv_account_id r) (resv_strategy_key r))
      (add_reserved (resv_amount r) now) rs (rs ++ [r]) l (λ _ _ _, eq_refl) (λ _, eq_refl)) as Hdep.
    set (b' := Build_Books _ _) in Hdep |- *. set (b := Build_Books rs l) in *.
    destruct (same_strategy A K r) eqn:Es.
    + assert (Hlook : lg_held (ledger A K b) !! resv_id r = None).
      { apply eq_None_not_Some. intros [n (x & Hx & _ & Hid & _)%held_lookup]; [|done].
        apply Hnew. rewrite <- Hid. by apply in_map. }
      rewrite (ledger_is A K b' (<[resv_id r := units (resv_amount r)]> (lg_held (ledger A K b)))
                 (lg_settled (ledger A K b)) _ Hnd' (λ id n, held_appended A K rs l r id n Hnd Hnew Es Hu)
                 (settled_appended A K rs l r Hu) Hdep).
      apply rtc_once. constructor; [by apply units_pos|done|].
      intros (x & Hx & _ & _ & Hid)%settled_lookup. apply Hnew. rewrite <- Hid. by apply in_map.
    + rewrite (ledger_is A K b' (lg_held (ledger A K b)) (lg_settled (ledger A K b)) (lg_deployed (ledger A K b)));
        try done.
      * intros id n. rewrite held_lookup by done. cbn [b b' bk_reservations]. split.
        -- intros (x & Hx & ?). exists x. split; [by apply in_or_app; left|done].
        -- intros (x & [Hx|[<-|[]]]%in_app_or & Hh & ?); [by exists x|]. unfold holds in Hh. by rewrite Es in Hh.
      * apply (settled_appended A K rs l r Hu).
Qed.

(** ** Changing one reservation *)

(** [f] keeps what identifies a reservation. *)
Definition keeps_identity (f : ReservationRow → ReservationRow) : Prop :=
  ∀ r, resv_id (f r) = resv_id r ∧ resv_account_id (f r) = resv_account_id r ∧
       resv_strategy_key (f r) = resv_strategy_key r.

Lemma keeps_strategy f A K r : keeps_identity f → same_strategy A K (f r) = same_strategy A K r.
Proof. intros H. unfold same_strategy. by destruct (H r) as (_ & -> & ->). Qed.

Lemma keeps_ids p f rs : keeps_identity f → map resv_id (update_where p f rs) = map resv_id rs.
Proof. intros H. apply update_where_key. intros r. apply H. Qed.

Section one.
Context (rs : list ReservationRow) (p : ReservationRow → bool) (f : ReservationRow → ReservationRow) (r : ReservationRow).
Hypotheses (Hnd : NoDup (map resv_id rs)) (Hr : In r rs) (Hp : p r = true)
  (Hone : ∀ y, In y rs → p y = true → y = r) (Hf : keeps_identity f).

Lemma one_In x : In x (update_where p f rs) ↔ x = f r ∨ In x rs ∧ x ≠ r.
Proof using Hr Hp Hone.
  rewrite update_where_In. split.
  - intros (y & Hy & ->). destruct (p y) eqn:E; [left; by rewrite (Hone y Hy E)|]. right. split; [done|].
    intros ->. congruence.
  - intros [->|[Hx Hne]]; [exists r; by rewrite Hp|]. exists x. split; [done|].
    destruct (p x) eqn:E; [|done]. by destruct Hne; apply Hone.
Qed.

Lemma one_other x : In x rs → x ≠ r → resv_id x ≠ resv_id r.
Proof using Hnd Hr. intros Hx Hne Hid. apply Hne. by eapply (unique_key resv_id). Qed.

Lemma one_total A K :
  (held_total A K (update_where p f rs) == held_total A K rs + (held_amount A K (f r) - held_amount A K r))%Q.
Proof using Hnd Hr Hp Hone.
  rewrite held_total_update. unfold held_total.
  pose proof (qsum_update_one (held_amount A K) p f rs r (NoDup_map_In resv_id rs Hnd) Hr Hp Hone). lra.
Qed.

(** The reservation still holds an amount: its entry changes. *)
Lemma one_held A K l id n :
  unsettled r = true → unsettled (f r) = true →
  (if same_strategy A K r then <[resv_id r := units (resv_amount (f r))]> else (λ m, m))
    (lg_held (ledger A K {| bk_reservations := rs; bk_allocations := l |})) !! id = Some n ↔
  ∃ x, In x (update_where p f rs) ∧ holds A K x = true ∧ resv_id x = id ∧ units (resv_amount x) = n.
Proof using Hnd Hr Hp Hone Hf.
  intros Hu Hu'. setoid_rewrite one_In.
  assert (Hh : holds A K (f r) = same_strategy A K r) by (unfold holds; by rewrite Hu', andb_true_r, keeps_strategy).
  destruct (decide (resv_id r = id)) as [<-|Hne].
  - destruct (same_strategy A K r) eqn:Es.
    + rewrite lookup_insert_eq. split.
      * intros [= <-]. exists (f r). split_and!; [by left|done|apply Hf|done].
      * intros (x & [->|[Hx Hx']] & _ & Hid & <-); [done|]. by destruct (one_other x Hx Hx').
    + rewrite held_lookup by done. cbn [bk_reservations]. split.
      * intros (x & Hx & Hhx & Hid & <-). assert (x = r) as -> by (by eapply (unique_key resv_id)).
        unfold holds in Hhx. by rewrite Es in Hhx.
      * intros (x & [->|[Hx Hx']] & Hhx & Hid & <-); [congruence|]. by destruct (one_other x Hx Hx').
  - transitivity (lg_held (ledger A K {| bk_reservations := rs; bk_allocations := l |}) !! id = Some n).
    { destruct (same_strategy A K r); [by rewrite lookup_insert_ne|done]. }
    rewrite held_lookup by done. cbn [bk_reservations]. split.
    + intros (x & Hx & Hhx & <- & <-). exists x. split_and!; try done. right. split; [done|]. intros ->. done.
    + intros (x & [->|[Hx Hx']] & Hhx & Hid & <-); [|by exists x]. rewrite (proj1 (Hf r)) in Hid. done.
Qed.

Lemma one_settled A K l id :
  unsettled r = true → unsettled (f r) = true →
  id ∈ lg_settled (ledger A K {| bk_reservations := rs; bk_allocations := l |}) ↔
  ∃ x, In x (update_where p f rs) ∧ same_strategy A K x = true ∧ unsettled x = false ∧ resv_id x = id.
Proof using Hr Hp Hone.
  intros Hu Hu'. setoid_rewrite one_In. rewrite settled_lookup. cbn [bk_reservations]. split.
  - intros (x & Hx & Hs & Hux & <-). exists x. split_and!; try done. right. split; [done|]. intros ->. congruence.
  - intros (x & [->|[Hx _]] & Hs & Hux & <-); [congruence|]. by exists x.
Qed.

(** The same amount under another status. *)
Lemma commit_simulates l :
  unsettled r = true → unsettled (f r) = true → resv_amount (f r) = resv_amount r →
  simulates {| bk_reservations := rs; bk_allocations := l |}
    {| bk_reservations := update_where p f rs; bk_allocations := l |}.
Proof using Hnd Hr Hp Hone Hf.
  intros Hu Hu' Ham Hok.
  assert (Hh : ∀ A K, (held_total A K (update_where p f rs) == held_total A K rs)%Q).
  { intros A K. rewrite one_total, !held_amount_unsettled, keeps_strategy, Ham by done. lra. }
  split.
  - split; cbn [bk_reservations bk_allocations].
    + by rewrite keeps_ids.
    + intros x [->|[Hx _]]%one_In; [|by apply Hok]. unfold amount_ok. rewrite Ham. by apply Hok.
    + apply Hok.
    + intros A K a Ha Hc. rewrite Hh. by apply Hok.
  - intros A K. set (L := ledger A K {| bk_reservations := rs; bk_allocations := l |}).
    rewrite (ledger_is A K (Build_Books (update_where p f rs) l) (lg_held L) (lg_settled L) (lg_deployed L)); try done.
    + cbn [bk_reservations]. by rewrite keeps_ids.
    + intros id n. rewrite <- (one_held A K l id n Hu Hu'). fold L. destruct (same_strategy A K r) eqn:Es; [|done].
      rewrite Ham. by rewrite insert_id; [|apply held_lookup; [done|]; exists r; unfold holds; rewrite Es, Hu].
    + intros id. by rewrite <- (one_settled A K l id Hu Hu').
Qed.

(** Part of the amount is filled. *)
Lemma fill_simulates l g tie :
  unsettled r = true → unsettled (f r) = true → amount_ok (f r) → (resv_amount (f r) <= resv_amount r)%Q →
  tie = 0 ∨ tie = 1 → keeps_current g →
  (∀ a, In a l → is_current_allocation (resv_account_id r) (resv_strategy_key r) a = true →
     allocation_ok (g a) ∧ (alloc_reserved (g a) == alloc_reserved a + (resv_amount (f r) - resv_amount r))%Q ∧
     units (alloc_deployed (g a)) =
       units (alloc_deployed a) + (units (resv_amount r) - units (resv_amount (f r)) + tie)) →
  current (resv_account_id r) (resv_strategy_key r) l ≠ None →
  simulates {| bk_reservations := rs; bk_allocations := l |}
    {| bk_reservations := update_where p f rs;
       bk_allocations := update_where (is_current_allocation (resv_account_id r) (resv_strategy_key r)) g l |}.
Proof using Hnd Hr Hp Hone Hf.
  intros Hu Hu' Ham Hle Htie Hg Hall Hcur Hok.
  assert (Hh : ∀ A K, (held_total A K (update_where p f rs) - held_total A K rs ==
    if same_strategy A K r then resv_amount (f r) - resv_amount r else 0)%Q).
  { intros A K. rewrite one_total, !held_amount_unsettled, keeps_strategy by done. destruct (same_strategy A K r); lra. }
  assert (Hids : NoDup (map resv_id (update_where p f rs))) by (by rewrite keeps_ids).
  split.
  - apply (balanced_update rs); try done.
    + intros x [->|[Hx _]]%one_In; [done|by apply Hok].
    + intros a Ha Hc. by apply Hall.
    + intros A K a Ha Hc. rewrite Hh, (current_strategy A K r a Hc). clear Hc.
      destruct (is_current_allocation _ _ a) eqn:E; [|lra]. by apply Hall.
  - intros A K. set (L := ledger A K {| bk_reservations := rs; bk_allocations := l |}).
    set (b' := Build_Books _ _).
    assert (lg_deployed (ledger A K b') = lg_deployed L +
      if same_strategy A K r then units (resv_amount r) - units (resv_amount (f r)) + tie else 0) as Hdep.
    { unfold L. cbn [ledger b' lg_deployed bk_allocations]. rewrite current_update by done.
      destruct (current A K l) as [a|] eqn:Ec; cbn [fmap option_fmap option_map].
      - apply select_one_Some in Ec as [Ha Hc]. rewrite (current_strategy A K r a Hc). clear Hc.
        destruct (is_current_allocation _ _ a) eqn:E; [by apply Hall|lia].
      - destruct (same_strategy A K r) eqn:Es; [|done]. by apply same_strategy_true in Es as [<- <-]. }
    rewrite (ledger_is A K b' _ (lg_settled L) _ Hids (λ id n, iff_sym (iff_sym (one_held A K l id n Hu Hu')))
              (λ id, one_settled A K l id Hu Hu') Hdep). fold L.
    destruct (same_strategy A K r) eqn:Es.
    + apply rtc_once. apply ledger_fill; [|apply units_pos; apply Ham|by apply units_mono|done].
      apply held_lookup; [done|]. exists r. unfold holds. by rewrite Es, Hu.
    + rewrite Z.add_0_r. by destruct L.
Qed.
End one.

(** ** Settling reservations *)

Definition without (cl : list ReservationRow) (m : gmap string Z) : gmap string Z :=
  foldr (λ r, delete (resv_id r)) m cl.

Definition units_of (cl : list ReservationRow) : Z := foldr (λ r n, units (resv_amount r) + n) 0 cl.

Lemma without_lookup cl m id n :
  without cl m !! id = Some n ↔ ¬ In id (map resv_id cl) ∧ m !! id = Some n.
Proof.
  induction cl as [|r cl IH]; [cbn; tauto|]. cbn [without foldr map In]. rewrite lookup_delete_Some.
  fold (without cl m). rewrite IH. tauto.
Qed.

(** Settling them one after the other. *)
Lemma close_all (fill : bool) cl L :
  NoDup (map resv_id cl) → (∀ r, In r cl → lg_held L !! resv_id r = Some (units (resv_amount r))) →
  rtc ledger_step L {| lg_held := without cl (lg_held L); lg_settled := list_to_set (map resv_id cl) ∪ lg_settled L;
                       lg_deployed := lg_deployed L + (if fill then units_of cl else 0) |}.
Proof.
  induction cl as [|r cl IH]; intros Hnd Hin.
  - cbn. rewrite union_empty_l_L. replace (lg_deployed L + (if fill then 0 else 0)) with (lg_deployed L)
      by (destruct fill; lia). by destruct L.
  - cbn [map] in Hnd. apply NoDup_cons in Hnd as [Hr Hnd].
    eapply rtc_r; [apply IH; [done|by intros; apply Hin; right]|].
    set (L1 := Build_Ledger _ _ _).
    assert (lg_held L1 !! resv_id r = Some (units (resv_amount r))) as Hl.
    { cbn [L1 lg_held]. apply without_lookup. split; [by rewrite <- list_elem_of_In|]. by apply Hin; left. }
    pose proof (ledger_close L1 _ _ (if fill then units (resv_amount r) else 0) Hl) as Hs.
    refine (eq_ind _ (ledger_step L1) (Hs _) _ _); [destruct fill; auto|].
    cbn [L1 lg_held lg_settled lg_deployed map list_to_set without foldr units_of]. f_equal.
    + by rewrite union_assoc_L.
    + destruct fill; unfold units_of; lia.
Qed.

Lemma units_of_sum cl :
  (∀ r, In r cl → on_grid (resv_amount r)) → units (qsum resv_amount cl) = units_of cl ∧ on_grid (qsum resv_amount cl).
Proof.
  induction cl as [|r cl IH]; intros Hg.
  - split; [done|]. apply grid_units. by exists 0.
  - destruct IH as [IH Hs]; [by intros; apply Hg; right|]. cbn [qsum fold_right units_of foldr].
    fold (qsum resv_amount cl) (units_of cl).
    pose proof (Hg r (or_introl eq_refl)). split; [|by apply grid_add]. by rewrite units_add, IH.
Qed.

Section closing.
Context (rs : list ReservationRow) (p : ReservationRow → bool) (f : ReservationRow → ReservationRow).
Hypotheses (Hpu : ∀ x, In x rs → p x = true → unsettled x = true) (Hfu : ∀ x, unsettled (f x) = false)
  (Hf : keeps_identity f) (Hfa : ∀ x, resv_amount (f x) = resv_amount x).

(** The reservations of a strategy that the update settles. *)
Definition closing (A K : string) : list ReservationRow := List.filter (λ x, p x && same_strategy A K x) rs.

Lemma closing_In A K x : In x (closing A K) ↔ In x rs ∧ p x = true ∧ same_strategy A K x = true.
Proof. unfold closing. by rewrite In_filter, andb_true_iff. Qed.

Lemma closing_total A K :
  (held_total A K (update_where p f rs) == held_total A K rs - qsum resv_amount (closing A K))%Q.
Proof using Hpu Hfu.
  rewrite held_total_update. unfold held_total, closing. revert Hpu. clear -Hfu.
  induction rs as [|x l IH]; intros Hpu; [cbn; lra|].
  change (qsum ?h (x :: l)) with (h x + qsum h l)%Q.
  rewrite IH by (intros; apply Hpu; [by right|done]).
  set (m := List.filter (λ y, p y && same_strategy A K y) l).
  change (List.filter (λ y, p y && same_strategy A K y) (x :: l)) with
    (if p x && same_strategy A K x then x :: m else m).
  destruct (p x) eqn:E; cbn [andb]; [|lra]. rewrite (held_amount_settled A K (f x)) by apply Hfu.
  rewrite held_amount_unsettled by (apply Hpu; [by left|done]).
  destruct (same_strategy A K x); [|lra].
  change (qsum resv_amount (x :: m)) with (resv_amount x + qsum resv_amount m)%Q. lra.
Qed.

Lemma closing_held A K l id n :
  NoDup (map resv_id rs) →
  without (closing A K) (lg_held (ledger A K {| bk_reservations := rs; bk_allocations := l |})) !! id = Some n ↔
  ∃ x, In x (update_where p f rs) ∧ holds A K x = true ∧ resv_id x = id ∧ units (resv_amount x) = n.
Proof using Hfu.
  intros Hnd. rewrite without_lookup, held_lookup by done. cbn [bk_reservations]. setoid_rewrite update_where_In. split.
  - intros [Hni (x & Hx & Hh & <- & <-)]. exists x. split_and!; try done. exists x. split; [done|].
    destruct (p x) eqn:E; [|done]. destruct Hni. apply in_map. apply closing_In. split_and!; [done..|].
    unfold holds in Hh. by apply andb_true_iff in Hh as [? _].
  - intros (x & (y & Hy & ->) & Hh & <- & <-). destruct (p y) eqn:E.
    { unfold holds in Hh. by rewrite Hfu, andb_false_r in Hh. }
    split; [|by exists y]. intros (z & Hz & Hin%closing_In)%in_map_iff. destruct Hin as (Hin & Hpz & _).
    assert (z = y) as -> by (by eapply (unique_key resv_id)). congruence.
Qed.

Lemma closing_settled A K l id :
  id ∈ (list_to_set (map resv_id (closing A K)) : gset string)
       ∪ lg_settled (ledger A K {| bk_reservations := rs; bk_allocations := l |}) ↔
  ∃ x, In x (update_where p f rs) ∧ same_strategy A K x = true ∧ unsettled x = false ∧ resv_id x = id.
Proof using Hpu Hfu Hf.
  rewrite elem_of_union, elem_of_list_to_set, list_elem_of_In, in_map_iff, settled_lookup. cbn [bk_reservations].
  setoid_rewrite update_where_In. split.
  - intros [(x & <- & (Hx & Hp & Hs)%closing_In)|(x & Hx & Hs & Hu & <-)].
    + exists (f x). split_and!; [exists x; by rewrite Hp|by rewrite keeps_strategy|apply Hfu|apply Hf].
    + exists x. split_and!; try done. exists x. split; [done|]. destruct (p x) eqn:E; [|done].
      by rewrite (Hpu x Hx E) in Hu.
  - intros (x & (y & Hy & ->) & Hs & Hu & <-). destruct (p y) eqn:E; [left|right; by exists y].
    exists y. rewrite keeps_strategy in Hs by done. split; [symmetry; apply Hf|]. by apply closing_In.
Qed.

(** [fill] tells whether the amounts are deployed. *)
Lemma close_simulates l q g (fill : bool) :
  keeps_current g → (∀ a, In a l → q a = true → allocation_ok (g a)) →
  (∀ A K a, In a l → is_current_allocation A K a = true →
     let a' := if q a then g a else a in
     (alloc_reserved a' == alloc_reserved a - qsum resv_amount (closing A K))%Q ∧
     units (alloc_deployed a') = units (alloc_deployed a) + (if fill then units_of (closing A K) else 0)) →
  (∀ A K, current A K l = None → fill = true → closing A K = []) →
  simulates {| bk_reservations := rs; bk_allocations := l |}
    {| bk_reservations := update_where p f rs; bk_allocations := update_where q g l |}.
Proof using Hpu Hfu Hf Hfa.
  intros Hg Hq Hall Hnone Hok. pose proof (lo_ids _ Hok) as Hnd. cbn [bk_reservations] in Hnd.
  assert (Hids : NoDup (map resv_id (update_where p f rs))) by (by rewrite keeps_ids).
  split.
  - apply (balanced_update rs); try done.
    + intros x (y & Hy & ->)%update_where_In. unfold amount_ok. destruct (p y); rewrite ?Hfa; by apply Hok.
    + intros A K a Ha Hc. destruct (Hall A K a Ha Hc) as [-> _]. rewrite closing_total. lra.
  - intros A K. set (L := ledger A K {| bk_reservations := rs; bk_allocations := l |}). set (b' := Build_Books _ _).
    assert (lg_deployed (ledger A K b') = lg_deployed L + (if fill then units_of (closing A K) else 0)) as Hdep.
    { unfold L. cbn [ledger b' lg_deployed bk_allocations]. rewrite current_update by done.
      destruct (current A K l) as [a|] eqn:Ec; cbn [fmap option_fmap option_map].
      - apply select_one_Some in Ec as [Ha Hc]. by apply (Hall A K a).
      - destruct fill; [|done]. by rewrite (Hnone A K Ec eq_refl). }
    rewrite (ledger_is A K b' _ _ _ Hids (λ id n, closing_held A K l id n Hnd) (closing_settled A K l) Hdep).
    apply close_all.
    + by apply NoDup_filtered.
    + intros x (Hx & Hpx & Hs)%closing_In. apply held_lookup; [done|]. exists x. unfold holds. by rewrite Hs, Hpu.
Qed.
End closing.

(** Settling one reservation. *)
Lemma closing_one rs p r A K :
  NoDup (map resv_id rs) → In r rs → p r = true → (∀ y, In y rs → p y = true → y = r) →
  closing rs p A K = if same_strategy A K r then [r] else [].
Proof.
  unfold closing. induction rs as [|x l IH]; intros Hnd Hin Hp Hone; [done|]. cbn [map List.filter] in *.
  apply NoDup_cons in Hnd as [Hx Hnd].
  assert (Hrest : ¬ In r l → List.filter (λ y, p y && same_strategy A K y) l = []).
  { intros Hni. destruct (List.filter _ l) as [|y m] eqn:E; [done|]. exfalso.
    assert (In y (List.filter (λ y, p y && same_strategy A K y) l)) as Hy by (rewrite E; by left).
    apply In_filter in Hy as [Hy [Hpy _]%andb_true_iff]. apply Hni. by rewrite <- (Hone y (or_intror Hy) Hpy). }
  destruct Hin as [->|Hin].
  - rewrite Hp. cbn [andb]. rewrite Hrest; [done|]. intros Hin. apply Hx, list_elem_of_In. by apply in_map.
  - destruct (p x) eqn:E; cbn [andb].
    + exfalso. apply Hx. rewrite (Hone x (or_introl eq_refl) E). by apply list_elem_of_In, in_map.
    + apply IH; [done..|]. intros y Hy. by apply Hone; right.
Qed.

Lemma held_le_reserved rs l r a :
  ledger_ok {| bk_reservations := rs; bk_allocations := l |} → In r rs → unsettled r = true → In a l →
  is_current_allocation (resv_account_id r) (resv_strategy_key r) a = true → (resv_amount r <= alloc_reserved a)%Q.
Proof.
  intros Hok Hr Hu Ha Hc. rewrite (lo_reserved _ Hok _ _ a Ha Hc). cbn [bk_reservations]. unfold held_total.
  assert (E : (resv_amount r == held_amount (resv_account_id r) (resv_strategy_key r) r)%Q)
    by (rewrite held_amount_unsettled, same_strategy_refl by done; reflexivity).
  rewrite E. apply qsum_member; [intros x Hx|done].
  unfold held_amount. destruct (holds _ _ x); [|lra]. destruct (lo_amounts _ Hok x Hx). lra.
Qed.

Lemma close_one_simulates rs l p f r g (fill : bool) :
  In r rs → p r = true → unsettled r = true → (∀ y, In y rs → p y = true → resv_id y = resv_id r) →
  (∀ x, unsettled (f x) = false) → keeps_identity f → (∀ x, resv_amount (f x) = resv_amount x) → keeps_current g →
  (∀ a, In a l → is_current_allocation (resv_account_id r) (resv_strategy_key r) a = true →
     (resv_amount r <= alloc_reserved a)%Q → allocation_ok a → on_grid (resv_amount r) → (0 < resv_amount r)%Q →
     allocation_ok (g a) ∧ (alloc_reserved (g a) == alloc_reserved a - resv_amount r)%Q ∧
     units (alloc_deployed (g a)) = units (alloc_deployed a) + (if fill then units (resv_amount r) else 0)) →
  (fill = true → current (resv_account_id r) (resv_strategy_key r) l ≠ None) →
  simulates {| bk_reservations := rs; bk_allocations := l |}
    {| bk_reservations := update_where p f rs;
       bk_allocations := update_where (is_current_allocation (resv_account_id r) (resv_strategy_key r)) g l |}.
Proof.
  intros Hr Hp Hu Hid Hfu Hf Hfa Hg Hall Hcur Hok.
  pose proof (lo_ids _ Hok) as Hnd. cbn [bk_reservations] in Hnd.
  assert (Hone : ∀ y, In y rs → p y = true → y = r) by (intros y Hy Hpy; eapply (unique_key resv_id); eauto).
  destruct (lo_amounts _ Hok r Hr) as [Hgr Hpos].
  assert (Hga : ∀ a, In a l → is_current_allocation (resv_account_id r) (resv_strategy_key r) a = true →
    allocation_ok (g a) ∧ (alloc_reserved (g a) == alloc_reserved a - resv_amount r)%Q ∧
    units (alloc_deployed (g a)) = units (alloc_deployed a) + (if fill then units (resv_amount r) else 0)).
  { intros a Ha Hc. apply Hall; try done; [by eapply held_le_reserved|by apply Hok]. }
  revert Hok. apply (close_simulates rs p f) with (fill := fill); try done.
  - intros x Hx Hpx. by rewrite (Hone x Hx Hpx).
  - intros a Ha Hc. by apply Hga.
  - intros A K a Ha Hc. rewrite (closing_one rs p r A K Hnd Hr Hp Hone), (current_strategy A K r a Hc). clear Hc.
    destruct (is_current_allocation _ _ a) eqn:E; cbn [qsum fold_right units_of foldr].
    + destruct (Hga a Ha E) as (_ & -> & ->). split; [lra|]. destruct fill; lia.
    + split; [lra|]. destruct fill; lia.
  - intros A K HN Hfill. rewrite (closing_one rs p r A K Hnd Hr Hp Hone).
    destruct (same_strategy A K r) eqn:Es; [|done]. apply same_strategy_true in Es as [<- <-]. by destruct (Hcur Hfill).
Qed.
