(* ===== verification/LedgerRuns.v ===== *)
(** The statements that write reservations and allocations are runs of the
    ledger: those of Submission.v, Reconciliation.v and Recovery.v, whatever
    their parameters.  Since each commits as a whole, every interleaving of
    runners, crashes included, is a sequence of them. *)

From Stdlib Require Import Qminmax.
From stdpp Require Import gmap.
From S2P Require Import Prelude.
From S2P Require Import JsNumber.
From S2P Require Import JsJson.
From S2P Require Import SchedulerLease.
From S2P Require Import ExecutionTables.
From S2P Require Import ExecutionReservation.
From S2P Require Import BrokerResult.
From S2P Require Import SubmissionEvidence.
From S2P Require Import Submission.
From S2P Require Import SubmissionFacts.
From S2P Require Import SubmissionCommand.
From S2P Require Import SubmissionRuns.
From S2P Require Import Reconciliation.
From S2P Require Import ReconciliationCommand.
From S2P Require Import Recovery.
From S2P Require Import ReservationLedger.
Open Scope Z_scope.

(** ** Statements and the ledger *)

(** The execution tables inside a larger database. *)
Class HasTables (S : Type) := tables_in : S → ExecDb.
#[export] Instance SubmissionDb_HasTables : HasTables SubmissionDb := s_exec.
#[export] Instance ReconcileDb_HasTables : HasTables ReconcileDb := rows.
#[export] Instance RecoveryDb_HasTables : HasTables RecoveryDb := records.

(** Every committed outcome keeps the promise and is a run of the ledgers. *)
Definition accounted {S : Type} `{!HasTables S} {A} (m : tx S A) : Prop :=
  ∀ d a d', m d = Ret (a, d') → simulates (books (tables_in d)) (books (tables_in d')).

Section accounted.
Context {S : Type} `{!HasTables S}.

Lemma accounted_bind {A B} (m : tx S A) (k : A → tx S B) : accounted m → (∀ a, accounted (k a)) → accounted (m ≫= k).
Proof.
  intros Hm Hk d b d' (a & d1 & H1 & H2)%tx_bind_Ret.
  eapply simulates_trans; [by eapply Hm|by eapply Hk].
Qed.

Lemma accounted_read_only {A} (m : tx S A) : read_only m → accounted m.
Proof. intros Hm d a d' Hr. rewrite (Hm _ _ _ Hr). apply simulates_refl. Qed.

Lemma accounted_modify f : (∀ d, books (tables_in (f d)) = books (tables_in d)) → accounted (modify f).
Proof. intros Hf d a d' Hr. injection Hr as <- <-. rewrite Hf. apply simulates_refl. Qed.
End accounted.

Lemma accounted_lift {A} (r : res A) : accounted (lift r).
Proof. apply accounted_read_only. by intros d a d' [_ ->]%lift_Ret. Qed.

Lemma accounted_require b c : accounted (require b c).
Proof. apply accounted_read_only. by intros d u d' [_ ->]%require_Ret. Qed.

Lemma accounted_require_one c m : accounted m → accounted (require_one c m).
Proof. intros Hm d u d' Hr%require_one_Ret. by eapply Hm. Qed.

Lemma accounted_fenced f m : accounted m → accounted (fenced f m).
Proof.
  intros Hm d n d' Hr. unfold fenced in Hr. destruct (held f d); [by eapply Hm|].
  injection Hr as <- <-. apply simulates_refl.
Qed.

(** A statement on other tables. *)
Lemma accounted_exec {A} (m : tx ExecDb A) : keeps books m → accounted (exec m).
Proof.
  intros Hm d a d' (x & Hx & ->)%exec_Ret. change (simulates (books (s_exec d)) (books x)).
  rewrite (Hm _ _ _ Hx). apply simulates_refl.
Qed.

Lemma accounted_sub {A} (m : tx SubmissionDb A) : accounted m → accounted (sub m).
Proof.
  intros Hm d a d' Hr. unfold sub in Hr. destruct (m (r_sub d)) as [[b x]|] eqn:E; [|done].
  injection Hr as <- <-. exact (Hm _ _ _ E).
Qed.

Lemma accounted_on_sub {A} (m : tx SubmissionDb A) : accounted m → accounted (on_sub m).
Proof.
  intros Hm d a d' Hr. unfold on_sub in Hr. destruct (sub m (v_db d)) as [[b x]|] eqn:E; [|done].
  injection Hr as <- <-. exact (accounted_sub m Hm _ _ _ E).
Qed.

Create HintDb ledger discriminated.
#[export] Hint Resolve accounted_bind accounted_lift accounted_require accounted_require_one accounted_fenced
  accounted_sub accounted_on_sub : ledger.
#[export] Hint Extern 1 (accounted (mret _)) => apply accounted_read_only, read_only_ret : ledger.
#[export] Hint Extern 1 (accounted (throw _)) => apply accounted_read_only, read_only_throw : ledger.
#[export] Hint Extern 1 (accounted (gets _)) => apply accounted_read_only, read_only_gets : ledger.
#[export] Hint Extern 1 (accounted (if ?b then _ else _)) => destruct b : ledger.
#[export] Hint Extern 1 (accounted (match ?x with _ => _ end)) => destruct x : ledger.
#[export] Hint Extern 2 (accounted (exec _)) => apply accounted_exec; auto with tx : ledger.
#[export] Hint Extern 2 (accounted (modify _)) => apply accounted_modify; intros; reflexivity : ledger.
Ltac account := solve [intros; eauto 30 with ledger].

Lemma accounted_update_intent p f : accounted (update_intent p f).
Proof. apply accounted_exec. by apply keeps_update. Qed.
Lemma accounted_update_lifecycle id f : accounted (update_lifecycle id f).
Proof. by apply accounted_modify. Qed.
Lemma accounted_insert_event e : accounted (insert_event e).
Proof. apply accounted_bind; [apply accounted_exec; by apply keeps_insert_unless|account]. Qed.
Lemma accounted_insert_terminal t : accounted (insert_terminal t).
Proof.
  intros d a d' Hr. unfold insert_terminal in Hr. repeat case_if_in Hr; try done; injection Hr as <- <-;
    apply simulates_refl.
Qed.
Lemma accounted_update_candidate f c s r now : accounted (update_candidate f c s r now).
Proof. apply accounted_fenced. intros d a d' [= <- <-]. apply simulates_refl. Qed.
Lemma accounted_fingerprint r : accounted (exec (insert_fingerprint r)).
Proof. apply accounted_exec. by apply keeps_insert_unless. Qed.
Lemma accounted_consume f id s now : accounted (consume f id s now).
Proof. apply accounted_fenced, accounted_exec. by apply keeps_update. Qed.
Lemma accounted_consume_confirmed f id s now : accounted (consume_confirmed f id s now).
Proof. apply accounted_fenced, accounted_exec. by apply keeps_update. Qed.
#[export] Hint Resolve accounted_update_intent accounted_update_lifecycle accounted_insert_event
  accounted_insert_terminal accounted_update_candidate accounted_fingerprint accounted_consume
  accounted_consume_confirmed : ledger.

Lemma accounted_move_intent f id from g h : accounted (move_intent f id from g h).
Proof. unfold move_intent. account. Qed.
Lemma accounted_stage f now i s r : accounted (persistCandidateExecutionStage f now i s r).
Proof. unfold persistCandidateExecutionStage. account. Qed.
#[export] Hint Resolve accounted_move_intent accounted_stage : ledger.

(** ** Submission *)

Lemma not_le_false x y : Qle_bool x y = false → (y < x)%Q.
Proof. intros Hn. apply Qnot_le_lt. intros Hle%Qle_bool_iff. congruence. Qed.

Lemma accounted_promote_reservation f now r :
  on_grid (resv_amount r) → unsettled r = true → accounted (promote_reservation f now r).
Proof.
  intros Hg Hu d u d' Hr. unfold promote_reservation in Hr. tx_step Hr as u1 d1 E1.
  apply require_one_Ret, fenced_one in E1 as [_ E1]. tx_step E1 as u2 d2 E2. injection E1 as <-.
  apply exec_Ret in E2 as (x & E2 & ->). apply insert_row_Ret in E2 as (Hno & Hc & ->).
  apply require_one_Ret, fenced_one in Hr as [_ Hr]. apply exec_Ret in Hr as (y & Hr & ->).
  apply update_rows_Ret in Hr as (_ & -> & _). unfold reservation_checks in Hc. rewrite !andb_true_iff in Hc.
  destruct Hc as [[[[_ Hpos%negb_true_iff%not_le_false] _] _] _].
  apply reserve_simulates; [done|by split|]. intros (z & Hz & Hin)%in_map_iff.
  apply not_true_iff_false in Hno. apply Hno, existsb_exists. exists z. split; [done|].
  unfold reservation_conflicts. by rewrite Hz, String.eqb_refl.
Qed.

(** [GREATEST(0, reserved - amount)] of a reservation that is represented. *)
Lemma give_back_exact amount now a :
  (amount <= alloc_reserved a)%Q → allocation_ok a → on_grid amount → (0 < amount)%Q →
  allocation_ok (give_back amount now a) ∧
  (alloc_reserved (give_back amount now a) == alloc_reserved a - amount)%Q ∧
  units (alloc_deployed (give_back amount now a)) = units (alloc_deployed a) + 0.
Proof.
  intros Hle (G1 & G2 & P1 & P2) Hg Hpos. cbn [give_back alloc_reserved alloc_deployed].
  assert ((Qmax 0 (alloc_reserved a - amount) == alloc_reserved a - amount)%Q) as Em by (apply Q.max_r; lra).
  split; [|split; [done|lia]]. unfold allocation_ok. cbn [give_back alloc_reserved alloc_deployed]. rewrite Em.
  split_and!; [by apply grid_sub|done|lra|done].
Qed.

Lemma select_unsettled (id : string) (p : ReservationRow → bool) rs r :
  (∀ x, p x = (resv_id x =? id)%string && unsettled x) → select_one p rs = Some r →
  In r rs ∧ resv_id r = id ∧ unsettled r = true ∧ p r = true ∧
  ∀ y, In y rs → p y = true → resv_id y = resv_id r.
Proof.
  intros Hp [Hr Hpr]%select_one_Some. pose proof Hpr as H. rewrite Hp in H.
  apply andb_true_iff in H as [Hid%String.eqb_eq Hu]. split_and!; try done.
  intros y _ Hy. rewrite Hp in Hy. apply andb_true_iff in Hy as [Hy%String.eqb_eq _]. congruence.
Qed.

Lemma accounted_release_terminal f reason now t : accounted (release_terminal f reason now t).
Proof.
  intros d n d' Hr. unfold release_terminal in Hr. tx_step Hr as o d1 E1. apply gets_Ret in E1 as [-> ->].
  destruct (held f d); [|injection Hr as <- <-; apply simulates_refl].
  destruct (select_one _ _) as [r|] eqn:Er; [|injection Hr as <- <-; apply simulates_refl].
  apply (select_unsettled (tt_reservation_id t)) in Er as (Hin & Hid & Hu & Hp & Hone); [|done].
  tx_step Hr as k d1 E1. apply exec_Ret in E1 as (x & E1 & ->). apply update_rows_Ret in E1 as (_ & -> & _).
  tx_step Hr as m d2 E2. apply exec_Ret in E2 as (y & E2 & ->). apply update_rows_Ret in E2 as (_ & -> & _).
  tx_step Hr as j d3 E3. injection Hr as _ <-.
  eapply simulates_trans; [|exact (accounted_insert_terminal t _ _ _ E3)].
  apply (close_one_simulates _ _ _ _ r _ false); try done. intros a _ _. apply give_back_exact.
Qed.
#[export] Hint Resolve accounted_release_terminal : ledger.

Lemma accounted_commit f id now :
  accounted (fenced f (exec (update_rows reservation_time_checks db_reservations set_reservations
    (is_settled_reservation id) (settle_reservation true now)))).
Proof.
  apply accounted_fenced. intros d n d' (x & E & ->)%exec_Ret. apply update_rows_Ret in E as (_ & -> & _).
  intros Hok. pose proof (lo_ids _ Hok) as Hnd. cbn [books bk_reservations] in Hnd. revert Hok.
  destruct (select_one (is_settled_reservation id) (db_reservations (s_exec d))) as [r|] eqn:Er.
  - apply select_one_Some in Er as [Hr Hp]. pose proof Hp as Hp'. unfold is_settled_reservation, is_active_reservation in Hp'.
    apply andb_true_iff in Hp' as [Hid%String.eqb_eq Hst%bool_decide_eq_true].
    refine (commit_simulates _ _ _ r Hnd Hr Hp _ _ _ _ _ _); try done; [|apply unsettled_true; by left].
    intros y Hy Hpy. apply andb_true_iff in Hpy as [Hy'%String.eqb_eq _].
    eapply (unique_key resv_id); [done..|congruence].
  - cbn. rewrite update_where_false; [done|]. intros r Hr. by eapply select_one_None.
Qed.
#[export] Hint Resolve accounted_commit : ledger.

Lemma accounted_settle srid f i s now : accounted (settle_submission srid f i s now).
Proof. unfold settle_submission. account. Qed.
#[export] Hint Resolve accounted_settle : ledger.

Section operations.
Context (digest : string → string) (hmac : string → string → string) (document : json → jvalue).
Context (stableRecordId : string → string → string) (timestamp_format : string → option Z).

Lemma accounted_promotion command key f now :
  accounted (promoteNextConfirmedPostgresIntent digest hmac document command key f now).
Proof.
  unfold promoteNextConfirmedPostgresIntent. destruct (_ <? _)%nat; [account|].
  apply accounted_bind; [account|]. intros filter. apply accounted_bind; [account|]. intros [[[i r] s]|]; [|account].
  apply accounted_bind; [account|]. intros _. apply accounted_bind; [account|]. intros allowed.
  destruct (negb allowed); [account|]. apply accounted_bind; [account|]. intros _. unfold promote_writes.
  apply accounted_bind.
  { apply accounted_require_one, accounted_fenced, accounted_bind; [|account]. apply accounted_exec.
    by apply keeps_insert_unless. }
  intros _. apply accounted_bind; [|intros _; repeat (apply accounted_bind; [account|intros ?]); account].
  destruct (promotion_reservation _ _ _ _ _ _ _ _ <$> _) as [x|] eqn:E; [|account].
  apply accounted_promote_reservation.
  - destruct (if bool_decide _ then _ else None); [|done]. injection E as <-. apply round_grid.
  - destruct (if bool_decide _ then _ else None); [|done]. injection E as <-. apply unsettled_true. by left.
Qed.

(** Every operation of the submission service. *)
Lemma accounted_operation {A} (o : Operation A) :
  accounted (execute digest hmac document stableRecordId timestamp_format o).
Proof.
  destruct o; cbn [execute].
  - intros d n d' H. unfold count_operation in H. destruct (count_intents _ _ _); [|done].
    injection H as <- <-. apply simulates_refl.
  - apply accounted_promotion.
  - unfold claimIntent. repeat (apply accounted_bind; [account|intros ?]). case_match; [|account].
    repeat (apply accounted_bind; [account|intros ?]). account.
  - unfold releaseClaim. apply accounted_bind; account.
  - unfold recordSubmissionAttempt. repeat (apply accounted_bind; [account|intros ?]). account.
  - unfold recordSubmission, consume_evidence.
    repeat (apply accounted_bind; [repeat (apply accounted_bind; [account|intros ?]); account|intros ?]). account.
  - unfold recordAmbiguousSubmission. repeat (apply accounted_bind; [account|intros ?]). account.
  - unfold recordDeterministicSubmissionFailure. repeat (apply accounted_bind; [account|intros ?]). account.
  - unfold record_recovery, recordReconciledSubmissionReceipt, consume_evidence.
    repeat (apply accounted_bind; [repeat (apply accounted_bind; [account|intros ?]); account|intros ?]). account.
  - account.
Qed.
End operations.

(** ** Reconciliation *)

Lemma accounted_tables {A} (m : tx ExecDb A) : keeps books m → accounted (tables m).
Proof. intros Hm. by apply accounted_sub, accounted_exec. Qed.

Lemma tables_Ret {A} (m : tx ExecDb A) d a d' :
  tables m d = Ret (a, d') ↔ ∃ x, m (rows d) = Ret (a, x) ∧ d' = set_sub (set_exec x (r_sub d)) d.
Proof. unfold tables, sub, exec, rows. destruct (m (s_exec (r_sub d))) as [[b x]|]; naive_solver. Qed.

(** An update of reservations and one of allocations, in one statement. *)
Lemma two_updates {B} ok p f ok' q g (k : nat → nat → B) d b d' :
  (n ← tables (update_rows ok db_reservations set_reservations p f);
   m ← tables (update_rows ok' db_allocations set_allocations q g); mret (k n m)) d = Ret (b, d') →
  books (rows d') = {| bk_reservations := update_where p f (db_reservations (rows d));
                       bk_allocations := update_where q g (db_allocations (rows d)) |} ∧
  (∀ r, In r (db_reservations (rows d)) → p r = true → ok (f r) = true) ∧
  (∀ a, In a (db_allocations (rows d)) → q a = true → ok' (g a) = true).
Proof.
  intros H. tx_step H as n d1 E1. apply tables_Ret in E1 as (x & (_ & -> & H1)%update_rows_Ret & ->).
  tx_step H as m d2 E2. apply tables_Ret in E2 as (y & (_ & -> & H2)%update_rows_Ret & ->).
  injection H as _ <-. done.
Qed.

Lemma store_order_books o : keeps books (store_order o).
Proof.
  intros d u d' H. unfold store_order in H. destruct (select_one _ _).
  - repeat case_if_in H; try done. by injection H as _ <-.
  - by apply insert_row_Ret in H as (_ & _ & ->).
Qed.

Lemma accounted_insert_transition t : accounted (insert_transition t).
Proof.
  intros d n d' H. unfold insert_transition in H. repeat case_if_in H; try done; injection H as <- <-;
    apply simulates_refl.
Qed.

Lemma accounted_insert_transitions ts : accounted (insert_transitions ts).
Proof. induction ts; cbn [insert_transitions]; [account|]. eauto using accounted_insert_transition with ledger. Qed.
#[export] Hint Resolve accounted_insert_transitions : ledger.

(** The order is stored before the reservation is touched. *)
Lemma accounted_observe o l settle d c d' :
  (∀ d1 n d2, books (rows d1) = books (rows d) → settle d1 = Ret (n, d2) → simulates (books (rows d1)) (books (rows d2))) →
  observe o l settle d = Ret (c, d') → simulates (books (rows d)) (books (rows d')).
Proof.
  intros Hs H. unfold observe in H. tx_step H as orderId d1 E1. injection E1 as _ <-.
  tx_step H as u d1 E1. apply tables_Ret in E1 as (x & E1 & ->). apply store_order_books in E1.
  tx_step H as n d2 E2. apply Hs in E2; [|done]. unfold rows in E2 at 1. cbn [set_sub r_sub set_exec s_exec] in E2.
  rewrite E1 in E2. eapply simulates_trans; [exact E2|].
  revert H. apply (accounted_bind (S := ReconcileDb)); [account|]. intros k. unfold update_observed. account.
Qed.

Lemma with_amounts_ok reserved deployed now a :
  (0 <= numeric_round 8 reserved)%Q → (0 <= numeric_round 8 deployed)%Q → allocation_ok (with_amounts reserved deployed now a).
Proof. intros H1 H2. split_and!; try done; apply round_grid. Qed.

Lemma allocation_checks_sign a :
  allocation_checks a = true → (0 <= alloc_reserved a)%Q ∧ (0 <= alloc_deployed a)%Q.
Proof. unfold allocation_checks. rewrite !andb_true_iff. by intros [[H1%Qle_bool_iff H2%Qle_bool_iff] _]. Qed.

Lemma resized_spec ratio f id d r remaining settled :
  resized ratio f id d = Some (r, remaining, settled) →
  In r (db_reservations (rows d)) ∧ unsettled r = true ∧ settled = (resv_amount r - remaining)%Q ∧
  current (resv_account_id r) (resv_strategy_key r) (db_allocations (rows d)) ≠ None.
Proof.
  unfold resized. intros H. destruct id as [id|]; [|done]. destruct (select_one _ (db_reservations _)) as [x|] eqn:Ex; [|done].
  destruct (select_one _ (db_allocations _)) as [a|] eqn:Ea; [|done]. destruct (remaining_amount _ _ _) as [q|]; [|done].
  destruct (_ && _); [|done]. injection H as -> <- <-. apply (select_unsettled id) in Ex as (? & ? & ? & _); [|done].
  unfold current. by rewrite Ea.
Qed.

Lemma resized_books ratio f id d1 d : books (rows d1) = books (rows d) → resized ratio f id d1 = resized ratio f id d.
Proof. unfold books, resized. by intros [= -> ->]. Qed.

Lemma accounted_settle_partial ratio f id now d n d' :
  settle_partial (resized ratio f id d) now d = Ret (n, d') → simulates (books (rows d)) (books (rows d')).
Proof.
  destruct (resized ratio f id d) as [[[r remaining] settled]|] eqn:Er;
    [|intros [= _ <-]; apply simulates_refl].
  apply resized_spec in Er as (Hr & Hu & -> & Hcur). unfold settle_partial.
  destruct (Qle_bool _ 0) eqn:Es; [intros [= _ <-]; apply simulates_refl|].
  apply not_le_false in Es. intros H. apply two_updates in H as (-> & Hck & Hca). intros Hok.
  pose proof (lo_ids _ Hok) as Hnd. cbn [books bk_reservations] in Hnd.
  assert (Hone : ∀ y, In y (db_reservations (rows d)) → (resv_id y =? resv_id r)%string = true → y = r).
  { intros y Hy Hid%String.eqb_eq. by eapply (unique_key resv_id). }
  pose proof (Hck r Hr (String.eqb_refl _)) as Hpos. unfold amount_checks in Hpos.
  apply andb_true_iff in Hpos as [_ Hpos%negb_true_iff%not_le_false]. cbn [resize_reservation resv_amount] in Hpos.
  pose proof (round_positive _ Hpos) as Hrem. destruct (lo_amounts _ Hok r Hr) as [Hg Ha].
  assert (Hle : (numeric_round 8 remaining <= resv_amount r)%Q).
  { rewrite round_value, <- (grid_value _ Hg). apply of_units_le. rewrite <- (round_id _ Hg) by lra.
    rewrite !round_units by lra. apply Qround.Qfloor_resp_le. unfold UNITS. change (inject_Z 100000000) with 100000000%Q. lra. }
  destruct (round_split (resv_amount r) remaining Hg) as (tie & Htie & Hsplit); [lra|lra|].
  pose proof Hok as Hok'. revert Hok.
  refine (fill_simulates _ (λ y, (resv_id y =? resv_id r)%string) (resize_reservation remaining now) r Hnd Hr
            (String.eqb_refl _) Hone _ _ (deploy (resv_amount r - remaining) now) tie Hu Hu _ Hle Htie _ _ Hcur);
    [done|split; [apply round_grid|done]|done|].
  intros a Hin Hc. destruct (allocation_checks_sign _ (Hca a Hin Hc)) as [C1 C2].
  destruct (lo_allocations _ Hok' a Hin) as (G1 & G2 & P1 & P2).
  pose proof (held_le_reserved _ _ r a Hok' Hr Hu Hin Hc) as Hrep.
  split; [by apply with_amounts_ok|]. cbn [deploy with_amounts alloc_reserved alloc_deployed resize_reservation resv_amount].
  split.
  - rewrite (round_value (alloc_reserved a - _)), (round_comp _ (alloc_reserved a - resv_amount r + remaining)) by lra.
    rewrite round_shift by (try apply grid_sub; try done; lra).
    rewrite of_units_add, <- round_value, (grid_value _ (grid_sub _ _ G1 Hg)). lra.
  - rewrite round_shift by (done || lra). lia.
Qed.

Lemma accounted_store_partial ratio f o id q : accounted (store_partial ratio f o id q).
Proof.
  intros d c d' H. unfold store_partial in H.
  destruct (current_intent _ _ _) as [[i l]|]; [|injection H as <- <-; apply simulates_refl].
  case_if_in H; [|injection H as <- <-; apply simulates_refl].
  revert H. apply accounted_observe. intros d1 n d2 Hb H. rewrite <- (resized_books ratio q id d1 d Hb) in H.
  exact (accounted_settle_partial _ _ _ _ _ _ _ H).
Qed.

Lemma accounted_store_observation f o : accounted (store_observation f o).
Proof.
  intros d c d' H. unfold store_observation in H.
  destruct (current_intent _ _ _) as [[i l]|]; [|injection H as <- <-; apply simulates_refl].
  case_if_in H; [|injection H as <- <-; apply simulates_refl].
  revert H. apply accounted_observe. intros d1 n d2 _ [= _ <-]. apply simulates_refl.
Qed.

(** [settle_amount] of a reservation that is represented. *)
Lemma settle_amount_exact filled amount now a :
  (amount <= alloc_reserved a)%Q → allocation_ok a → on_grid amount → (0 < amount)%Q →
  allocation_ok (settle_amount filled amount now a) ∧
  (alloc_reserved (settle_amount filled amount now a) == alloc_reserved a - amount)%Q ∧
  units (alloc_deployed (settle_amount filled amount now a)) =
    units (alloc_deployed a) + (if filled then units amount else 0).
Proof.
  intros Hle (G1 & G2 & P1 & P2) Hg Hpos. unfold settle_amount.
  assert ((Qmax 0 (alloc_reserved a - amount) == alloc_reserved a - amount)%Q) as Em by (apply Q.max_r; lra).
  assert (Hd : on_grid (alloc_deployed a + (if filled then amount else 0))%Q).
  { destruct filled; [by apply grid_add|]. apply grid_add; [done|]. apply grid_units. by exists 0. }
  assert (Hd0 : (0 <= alloc_deployed a + (if filled then amount else 0))%Q) by (destruct filled; lra).
  assert (Er : (numeric_round 8 (Qmax 0 (alloc_reserved a - amount)) == alloc_reserved a - amount)%Q).
  { rewrite (round_comp _ _ Em), round_value, round_id by (try apply grid_sub; try done; lra).
    by apply grid_value, grid_sub. }
  assert (Ed : units (numeric_round 8 (alloc_deployed a + (if filled then amount else 0))) =
    units (alloc_deployed a) + (if filled then units amount else 0)).
  { rewrite round_id by done. destruct filled; [by apply units_add|]. rewrite Z.add_0_r. apply units_proper. lra. }
  cbn [with_amounts alloc_reserved alloc_deployed]. split; [|by rewrite Er, Ed].
  apply with_amounts_ok; [rewrite Er; lra|].
  apply grid_nonneg; [apply round_grid|]. rewrite round_id by done. by apply units_nonneg.
Qed.

Lemma sub_terminal_books t d n d' : sub (insert_terminal t) d = Ret (n, d') → books (rows d') = books (rows d).
Proof.
  unfold sub, insert_terminal. intros H. destruct (existsb _ _); [by injection H as _ <-|].
  destruct (existsb _ _); [done|]. by injection H as _ <-.
Qed.

Lemma accounted_settle_terminal f s : accounted (settle_terminal f s).
Proof.
  intros d c d' H. change (simulates (books (rows d)) (books (rows d'))). unfold settle_terminal in H. intros Hok.
  destruct (settled_intent _ _ _) as [i|]; [|by injection H as <- <-].
  destruct (select_one _ (db_reservations _)) as [r|] eqn:Er; [|by injection H as <- <-].
  case_if_in H; [by injection H as <- <-|].
  destruct (select_one _ (db_allocations _)) as [a|] eqn:Ea; [|by injection H as <- <-].
  destruct (settlement_candidate _ _ _ _) as [kind|] eqn:Ek; [|by injection H as <- <-].
  apply (select_unsettled (se_reservation_id s)) in Er as (Hin & Hid & Hu & Hp & Hone); [|done].
  pose proof Ea as Ea'. apply select_one_Some in Ea' as [Hina Hc].
  assert (kind = fresh_settlement) as ->.
  { unfold settlement_candidate in Ek.
    rewrite (proj2 (Qle_bool_iff _ _) (held_le_reserved _ _ r a Hok Hin Hu Hina Hc)) in Ek. congruence. }
  revert Hok. unfold settle_row in H. tx_step H as t d1 E1. apply sub_terminal_books in E1.
  case_if_in H; [injection H as _ <-; rewrite E1; apply simulates_refl|].
  apply two_updates in H as (-> & _). pose proof E1 as [= -> ->].
  apply (close_one_simulates _ _ _ _ r _ (se_terminal_state s =? "filled")%string); try done.
  - intros x _ _. apply settle_amount_exact.
  - intros _. unfold current. by rewrite Ea.
Qed.

Lemma sub_event_books e d n d' : sub (insert_event e) d = Ret (n, d') → books (rows d') = books (rows d).
Proof.
  intros H. unfold sub in H. destruct (insert_event e (r_sub d)) as [[m x]|] eqn:E; [|done]. injection H as _ <-.
  unfold insert_event in E. tx_step E as b y E1. injection E as _ <-. apply exec_Ret in E1 as (z & E1 & ->).
  apply (keeps_insert_unless books) in E1; done.
Qed.

Lemma sub_intent_books p f d n d' : sub (update_intent p f) d = Ret (n, d') → books (rows d') = books (rows d).
Proof.
  intros H. unfold sub in H. destruct (update_intent p f (r_sub d)) as [[m x]|] eqn:E; [|done]. injection H as _ <-.
  by apply update_intent_Ret in E as (_ & -> & _).
Qed.

Lemma accounted_terminalize f t e now : accounted (terminalize_absence f t e now).
Proof.
  intros d c d' H. change (simulates (books (rows d)) (books (rows d'))). unfold terminalize_absence in H.
  case_if_in H; [injection H as _ <-; apply simulates_refl|].
  tx_step H as n d1 E1. apply sub_event_books in E1. rewrite <- E1.
  case_if_in H; [injection H as _ <-; apply simulates_refl|].
  destruct (select_one _ _) as [i|]; [|injection H as _ <-; apply simulates_refl].
  tx_step H as m d2 E2. apply sub_intent_books in E2. rewrite E1 in E2. rewrite E1, <- E2.
  destruct (intent_reservation_id i) as [id|]; [|injection H as _ <-; apply simulates_refl].
  destruct (select_one _ _) as [r|] eqn:Er; [|injection H as _ <-; apply simulates_refl].
  apply (select_unsettled id) in Er as (Hin & Hid & Hu & _); [|done]. pose proof E2 as [= Eb _].
  apply two_updates in H as (-> & _).
  apply (close_one_simulates _ _ _ _ r _ false); try done.
  - cbn [books bk_reservations]. by rewrite Eb.
  - by rewrite String.eqb_refl, Hu.
  - by intros y _ [Hy%String.eqb_eq _]%andb_true_iff.
  - intros a _ _. apply give_back_exact.
Qed.

(** Every statement of the reconciliation service. *)
Lemma accounted_statement ratio {A} (s : Statement A) : accounted (execute_statement ratio s).
Proof.
  destruct s; cbn [execute_statement]; unfold record_absence, defer_absent;
    first [account | apply accounted_store_partial | apply accounted_store_observation
          | apply accounted_settle_terminal | apply accounted_terminalize].
Qed.

(** ** Recovery *)

Lemma exec_updates {B} ok p f ok' q g (k : nat → nat → B) d b d' :
  (n ← exec (update_rows ok db_reservations set_reservations p f);
   m ← exec (update_rows ok' db_allocations set_allocations q g); mret (k n m)) d = Ret (b, d') →
  books (s_exec d') = {| bk_reservations := update_where p f (db_reservations (s_exec d));
                         bk_allocations := update_where q g (db_allocations (s_exec d)) |}.
Proof.
  intros H. tx_step H as n d1 E1. apply exec_Ret in E1 as (x & (_ & -> & _)%update_rows_Ret & ->).
  tx_step H as m d2 E2. apply exec_Ret in E2 as (y & (_ & -> & _)%update_rows_Ret & ->). by injection H as _ <-.
Qed.

Lemma take_back_exact amount now a :
  (amount <= alloc_reserved a)%Q → allocation_ok a → on_grid amount → (0 < amount)%Q →
  allocation_ok (take_back amount now a) ∧
  (alloc_reserved (take_back amount now a) == alloc_reserved a - amount)%Q ∧
  units (alloc_deployed (take_back amount now a)) = units (alloc_deployed a) + 0.
Proof.
  intros Hle (G1 & G2 & P1 & P2) Hg Hpos. split; [|split; [done|cbn [take_back alloc_deployed]; lia]].
  split_and!; cbn [take_back alloc_reserved alloc_deployed]; [by apply grid_sub|done|lra|done].
Qed.

Lemma locked_reservation_spec id d r : locked_reservation id d = Some r → In r (db_reservations d) ∧ unsettled r = true.
Proof.
  unfold locked_reservation. destruct (select_one _ _) as [i|]; [|done]. destruct (intent_reservation_id i); [|done].
  intros [Hr Hp]%select_one_Some. by apply andb_true_iff in Hp as [_ ->].
Qed.

Lemma terminal_books t d n d' : insert_terminal t d = Ret (n, d') → books (s_exec d') = books (s_exec d).
Proof.
  unfold insert_terminal. intros H. destruct (existsb _ _); [by injection H as _ <-|].
  destruct (existsb _ _); [done|]. by injection H as _ <-.
Qed.

Lemma accounted_cancel_stale digest merge f id now : accounted (cancel_stale digest merge f id now).
Proof.
  intros d c d' H. change (simulates (books (s_exec d)) (books (s_exec d'))). unfold cancel_stale in H.
  case_if_in H; [injection H as _ <-; apply simulates_refl|].
  tx_step H as n d1 E1. apply update_intent_Ret in E1 as (_ & -> & _).
  destruct n as [|n]; [injection H as _ <-; apply simulates_refl|].
  destruct (locked_reservation id (s_exec d)) as [r|] eqn:Er; [|injection H as _ <-; apply simulates_refl].
  apply locked_reservation_spec in Er as [Hin Hu].
  tx_step H as k d2 E2. apply terminal_books in E2. tx_step H as x d3 E3. injection H as _ <-.
  case_if_in E3; [injection E3 as _ <-; rewrite E2; apply simulates_refl|].
  unfold release_stale in E3. apply exec_updates in E3 as ->. pose proof E2 as [= -> ->].
  apply (close_one_simulates _ _ _ _ r _ false); try done.
  - by rewrite String.eqb_refl, Hu.
  - by intros y _ [Hy%String.eqb_eq _]%andb_true_iff.
  - intros a _ _. apply take_back_exact.
Qed.

(** *** Expiry: several reservations and allocations at once *)

Lemma qsum_perm {R} (f : R → Q) l1 l2 : l1 ≡ₚ l2 → (qsum f l1 == qsum f l2)%Q.
Proof.
  induction 1 as [|x l1 l2 _ IH|x y l|l1 l2 l3 _ IH1 _ IH2]; [reflexivity|..|lra];
    change (qsum f (?x :: ?l)) with (f x + qsum f l)%Q; [lra|].
  change (qsum f (?x :: ?l)) with (f x + qsum f l)%Q. lra.
Qed.

Lemma insert_expired_spec digest d0 now l d new d' :
  insert_expired digest d0 now l d = Ret (new, d') →
  books (s_exec d') = books (s_exec d) ∧ (∀ r, In r new → In r l) ∧
  (NoDup (map resv_id l) → NoDup (map resv_id new)) ∧
  ((∀ r, In r l → 0 <= resv_amount r)%Q → ∀ A K, (group_total A K new <= group_total A K l)%Q).
Proof.
  revert d new d'. induction l as [|r l IH]; intros d new d' H.
  - by injection H as <- <-.
  - cbn [insert_expired] in H. tx_step H as k d1 E1. tx_step H as rest d2 E2. injection H as <- <-.
    apply terminal_books in E1. destruct (IH _ _ _ E2) as (Hb & Hin & Hnd & Hle). split_and!.
    + by rewrite Hb.
    + intros x. destruct (k =? 0)%nat; cbn [In]; naive_solver.
    + cbn [map]. intros [Hr Hl]%NoDup_cons. destruct (k =? 0)%nat; [by apply Hnd|]. cbn [map]. constructor; [|by apply Hnd].
      rewrite list_elem_of_In, in_map_iff in Hr |- *. intros (x & Hx & Hxi). apply Hr. eauto.
    + intros Hp A K. specialize (Hle (λ x Hx, Hp x (or_intror Hx)) A K). pose proof (Hp r (or_introl eq_refl)).
      unfold group_total in *. cbn [List.filter].
      destruct (k =? 0)%nat; cbn [List.filter]; destruct (same_strategy A K r);
        change (qsum resv_amount (?x :: ?l)) with (resv_amount x + qsum resv_amount l)%Q; lra.
Qed.

Section expiry.
Context (d : ExecDb) (now : Z) (locked new : list ReservationRow).
Let rs := db_reservations d.
Hypotheses (Hnd : NoDup (map resv_id rs)) (Hlocked : ∀ r, In r locked → In r rs ∧ is_expired now r = true)
  (Hok : forallb (group_represented d locked) locked = true) (Hin : ∀ r, In r new → In r locked)
  (Hnew : NoDup (map resv_id new)) (Hle : ∀ A K, (group_total A K new <= group_total A K locked)%Q).

Lemma new_row r : In r new → In r rs ∧ is_expired now r = true.
Proof using Hin Hlocked. intros H. by apply Hlocked, Hin. Qed.

(** The allocation of a new transition is the only one in force, and reduced. *)
Lemma new_reduced r :
  In r new → ∃ a, allocations_of d r = [a] ∧ reduced new a = true.
Proof using Hok Hin Hle.
  intros Hr. rewrite forallb_forall in Hok. pose proof (Hok r (Hin r Hr)) as Hg. unfold group_represented in Hg.
  destruct (allocations_of d r) as [|a [|]] eqn:E; try done. exists a. split; [done|].
  assert (In a (allocations_of d r)) as Ha by (rewrite E; by left).
  apply In_filter in Ha as [_ Hc]. unfold is_current_allocation in Hc.
  apply andb_true_iff in Hc as [[HA%String.eqb_eq HK%String.eqb_eq]%andb_true_iff Hcc].
  unfold reduced, total_for. rewrite Hcc, HA, HK. apply Qle_bool_iff in Hg. cbn [andb].
  apply andb_true_iff. split.
  - apply existsb_exists. exists r. split; [done|]. apply same_strategy_refl.
  - apply Qle_bool_iff. specialize (Hle (resv_account_id r) (resv_strategy_key r)). lra.
Qed.

Lemma expires_new r : In r rs → expires d new now r = true ↔ In r new.
Proof using Hnd Hok Hin Hle Hlocked.
  intros Hr. unfold expires. rewrite !andb_true_iff, !existsb_exists. split.
  - intros [[(x & Hx & Hid%String.eqb_eq) _] _].
    assert (x = r) as <-; [|done]. eapply (unique_key resv_id); [exact Hnd|by apply new_row|done|done].
  - intros Hx. destruct (new_reduced r Hx) as (a & Ha & Hred). split; [split|].
    + exists r. split; [done|]. apply String.eqb_refl.
    + by apply new_row.
    + exists a. assert (In a (allocations_of d r)) as Hin' by (rewrite Ha; by left).
      apply In_filter in Hin' as [? ->]. by rewrite Hred.
Qed.

Lemma closing_new A K :
  (qsum resv_amount (closing rs (expires d new now) A K) == group_total A K new)%Q.
Proof using Hnd Hok Hin Hle Hnew Hlocked.
  unfold group_total. apply qsum_perm, NoDup_Permutation.
  - by eapply NoDup_map_In, NoDup_filtered.
  - by eapply NoDup_map_In, NoDup_filtered.
  - intros r. rewrite !list_elem_of_In, closing_In, In_filter. split.
    + intros (Hr & He & Hs). by rewrite expires_new in He.
    + intros (Hr & Hs). pose proof (proj1 (new_row r Hr)). by rewrite expires_new.
Qed.

(** What an allocation in force loses. *)
Lemma reduced_total A K a :
  In a (db_allocations d) → is_current_allocation A K a = true →
  ((if reduced new a then total_for new a else 0) == group_total A K new)%Q.
Proof using Hok Hin Hle.
  intros Ha Hc. pose proof Hc as Hc'. unfold is_current_allocation in Hc'.
  apply andb_true_iff in Hc' as [[HA%String.eqb_eq HK%String.eqb_eq]%andb_true_iff Hcc].
  unfold total_for. rewrite HA, HK. destruct (reduced new a) eqn:E; [reflexivity|].
  unfold group_total. destruct (List.filter (same_strategy A K) new) as [|r l] eqn:El; [reflexivity|]. exfalso.
  assert (In r (List.filter (same_strategy A K) new)) as [Hr Hs]%In_filter by (rewrite El; by left).
  destruct (new_reduced r Hr) as (a' & Ha' & Hred).
  assert (In a (allocations_of d r)) as Hin'.
  { apply In_filter. apply same_strategy_true in Hs as [-> ->]. done. }
  rewrite Ha' in Hin'. destruct Hin' as [->|[]]. congruence.
Qed.
End expiry.

Lemma expired_unsettled now r : is_expired now r = true → unsettled r = true.
Proof.
  unfold is_expired, is_active_reservation. intros [H%bool_decide_eq_true _]%andb_true_iff.
  apply unsettled_true. by left.
Qed.

Lemma accounted_expire digest f now : accounted (expire_reservations digest f now).
Proof.
  intros d c d' H. change (simulates (books (s_exec d)) (books (s_exec d'))). unfold expire_reservations in H.
  set (locked := if held f d then _ else _) in H.
  assert (Hl : ∀ r, In r locked → In r (db_reservations (s_exec d)) ∧ is_expired now r = true).
  { unfold locked. destruct (held f d); [by intros r ?%In_filter|done]. }
  case_if_in H; [injection H as _ <-; apply simulates_refl|]. rename Heqb into Hok. apply negb_false_iff in Hok.
  tx_step H as new d1 E1. apply insert_expired_spec in E1 as (Hb & Hin & Hndl & Hle).
  tx_step H as n d2 E2. apply exec_Ret in E2 as (x & (_ & -> & _)%update_rows_Ret & ->).
  tx_step H as m d3 E3. apply exec_Ret in E3 as (y & (_ & -> & _)%update_rows_Ret & ->). injection H as _ <-.
  unfold books in *. injection Hb as Hr Ha. cbn in *. rewrite Hr, Ha. intros Hwf.
  pose proof (lo_ids _ Hwf) as Hnd. cbn [bk_reservations] in Hnd.
  assert (Hnew : NoDup (map resv_id new)).
  { apply Hndl. unfold locked. destruct (held f d); [by apply NoDup_filtered|constructor]. }
  specialize (Hle (λ r Hlr, Qlt_le_weak _ _ (proj2 (lo_amounts _ Hwf r (proj1 (Hl r Hlr)))))).
  pose proof (closing_new (s_exec d) now locked new Hnd Hl Hok Hin Hnew Hle) as Hcl.
  pose proof (reduced_total (s_exec d) locked new Hok Hin Hle) as Hred.
  pose proof Hwf as Hwf'. revert Hwf'. apply (close_simulates _ _ (expired_row now)) with (fill := false); try done.
  - intros r Hin' He. apply expired_unsettled with now. unfold expires in He.
    by apply andb_true_iff in He as [[_ ?]%andb_true_iff _].
  - intros a Ha' Hq. unfold reduced in Hq. apply andb_true_iff in Hq as [_ Hq%Qle_bool_iff].
    destruct (lo_allocations _ Hwf a Ha') as (G1 & G2 & P1 & P2).
    split_and!; cbn [take_back alloc_reserved alloc_deployed]; [|done|lra|done].
    apply grid_sub; [done|]. apply units_of_sum. intros r [Hr' _]%In_filter.
    apply (lo_amounts _ Hwf). by apply Hl, Hin.
  - intros A K a Ha' Hc. specialize (Hred A K a Ha' Hc). specialize (Hcl A K). cbv zeta.
    destruct (reduced new a); cbn [take_back alloc_reserved alloc_deployed]; (split; [lra|lia]).
Qed.
#[export] Hint Resolve accounted_cancel_stale accounted_expire : ledger.

Lemma accounted_drop_created digest timestamp_json f now : accounted (drop_created digest timestamp_json f now).
Proof.
  intros d n d' H. unfold drop_created in H. destruct (held f d); [|injection H as _ <-; apply simulates_refl].
  revert H. apply (accounted_bind (S := SubmissionDb)); [account|]. intros k.
  apply accounted_bind; [|account]. apply accounted_exec. generalize (List.filter (stale_created now (s_exec d)) (db_intents (s_exec d))).
  intros l. induction l as [|i l IH]; cbn [insert_dropped]; [auto with tx|].
  apply keeps_bind; [|by intros]. destruct (review_of _ _); [by apply keeps_insert|auto with tx].
Qed.
#[export] Hint Resolve accounted_drop_created : ledger.

Lemma accounted_recover_runs f now : accounted (recover_runs f now).
Proof.
  intros d n d' H. unfold recover_runs in H. repeat case_if_in H; try done; injection H as _ <-; apply simulates_refl.
Qed.

(** Every statement of the recovery service. *)
Lemma accounted_recovery digest merge timestamp_json {A} (s : RecoveryStatement A) :
  accounted (execute_recovery digest merge timestamp_json s).
Proof.
  destruct s; cbn [execute_recovery]; unfold preserve, expire_reviews, expire_confirmations;
    first [account | apply accounted_recover_runs].
Qed.
