(* ===== verification/LedgerHistory.v ===== *)
(** Histories of submission, reconciliation and recovery: the ledger they
    implement, and what follows from it.

    Terminal transitions of reservations are written once, and what that means
    for a reservation that expired: the settlement of its order fails for good. *)
From stdpp Require Import gmap.
From S2P Require Import Prelude.
From S2P Require Import JsString.
From S2P Require Import JsText.
From S2P Require Import TradeLifecycle.
From S2P Require Import SchedulerLease.
From S2P Require Import ExecutionTables.
From S2P Require Import ExecutionReservation.
From S2P Require Import BrokerResult.
From S2P Require Import JsJson.
From S2P Require Import SubmissionEvidence.
From S2P Require Import Effects.
From S2P Require Import Submission.
From S2P Require Import SubmissionFacts.
From S2P Require Import SubmissionCommand.
From S2P Require Import Reconciliation.
From S2P Require Import ReconciliationCommand.
From S2P Require Import Recovery.
From S2P Require Import ReservationLedger.
From S2P Require Import LedgerRuns.

Open Scope Z_scope.

(** The code outside src/ that the services call. *)
Record Outside := {
  o_digest : string → string;
  o_hmac : string → string → string;
  o_document : json → jvalue;
  o_stableRecordId : string → string → string;
  o_timestamp_format : string → option Z;
  o_numeric_ratio : Q → Q → Q;
  o_merge : json → json → json;
  o_timestamp_json : Z → json
}.

(** A statement on the tables of Reconciliation.v. *)
Definition on_db {A} (m : tx ReconcileDb A) : tx RecoveryDb A := λ d,
  match m (v_db d) with Ret (a, x) => Ret (a, set_db x d) | Throw c => Throw c end.

Section history.
Context (o : Outside).

Definition submit {A} (op : Operation A) : tx RecoveryDb A :=
  on_sub (execute (o_digest o) (o_hmac o) (o_document o) (o_stableRecordId o) (o_timestamp_format o) op).
Definition reconcile {A} (s : Statement A) : tx RecoveryDb A := on_db (execute_statement (o_numeric_ratio o) s).
Definition recover {A} (s : RecoveryStatement A) : tx RecoveryDb A :=
  execute_recovery (o_digest o) (o_merge o) (o_timestamp_json o) s.

(** One committed transaction or statement of the three services, or anything
    else that leaves reservations, allocations and their transitions alone. *)
Inductive trading_step (d : RecoveryDb) : RecoveryDb → Prop :=
| step_submission A (op : Operation A) a d' : submit op d = Ret (a, d') → trading_step d d'
| step_reconciliation A (s : Statement A) a d' : reconcile s d = Ret (a, d') → trading_step d d'
| step_recovery A (s : RecoveryStatement A) a d' : recover s d = Ret (a, d') → trading_step d d'
| step_elsewhere d' :
    books (records d') = books (records d) → s_terminals (submission d') = s_terminals (submission d) →
    trading_step d d'.

Definition history : RecoveryDb → RecoveryDb → Prop := rtc trading_step.

Lemma step_simulates d d' : trading_step d d' → simulates (books (records d)) (books (records d')).
Proof.
  intros [A op a x H|A s a x H|A s a x H|x Hb _].
  - exact (accounted_on_sub _ (accounted_operation _ _ _ _ _ op) _ _ _ H).
  - unfold reconcile, on_db in H. destruct (execute_statement _ s (v_db d)) as [[b y]|] eqn:E; [|done].
    injection H as <- <-. exact (accounted_statement _ s _ _ _ E).
  - exact (accounted_recovery _ _ _ s _ _ _ H).
  - rewrite Hb. apply simulates_refl.
Qed.

Lemma history_simulates d d' : history d d' → simulates (books (records d)) (books (records d')).
Proof.
  induction 1 as [d|d1 d2 d3 Hs _ IH]; [apply simulates_refl|].
  eapply simulates_trans; [by apply step_simulates|done].
Qed.
End history.

(** ** What runs of the ledger keep *)

(** Held amounts are positive, and what is settled is not held. *)
Definition ledger_sane (L : Ledger) : Prop :=
  (∀ id n, lg_held L !! id = Some n → 0 < n) ∧ (∀ id, id ∈ lg_settled L → lg_held L !! id = None).

Lemma ledger_step_sane L L' :
  ledger_step L L' → ledger_sane L →
  ledger_sane L' ∧ lg_settled L ⊆ lg_settled L' ∧ lg_deployed L <= lg_deployed L'.
Proof.
  intros [id n Hn Hnone Hset|id n n' tie Hid Hn Hle Htie|id n deployed Hid Hd] [Hpos Hdis];
    unfold ledger_sane; cbn [lg_held lg_settled lg_deployed].
  - split_and!; [|intros i Hi|done|lia].
    + intros i m [[<- <-]|[_ Hm]]%lookup_insert_Some; [done|by eapply Hpos].
    + rewrite lookup_insert_ne by (intros ->; done). by apply Hdis.
  - split_and!; [|intros i Hi|done|lia].
    + intros i m [[<- <-]|[_ Hm]]%lookup_insert_Some; [done|by eapply Hpos].
    + rewrite lookup_insert_ne; [by apply Hdis|]. intros ->. by rewrite Hdis in Hid.
  - pose proof (Hpos _ _ Hid). split_and!; [| |apply union_subseteq_r|destruct Hd; lia].
    + intros i m [_ Hm]%lookup_delete_Some. by eapply Hpos.
    + intros i [->%elem_of_singleton|Hi]%elem_of_union; [apply lookup_delete_eq|].
      apply lookup_delete_None. right. by apply Hdis.
Qed.

Lemma ledger_run_sane L L' :
  rtc ledger_step L L' → ledger_sane L →
  ledger_sane L' ∧ lg_settled L ⊆ lg_settled L' ∧ lg_deployed L <= lg_deployed L'.
Proof.
  induction 1 as [L|L1 L2 L3 Hs _ IH]; intros H; [done|].
  destruct (ledger_step_sane _ _ Hs H) as (H2 & Hs2 & Hd2). destruct (IH H2) as (H3 & Hs3 & Hd3).
  split_and!; [done|set_solver|lia].
Qed.

Lemma books_sane A K b : ledger_ok b → ledger_sane (ledger A K b).
Proof.
  intros [Hnd Ham _ _]. split.
  - intros id n (r & Hr & _ & _ & <-)%held_lookup; [|done]. destruct (Ham r Hr). by apply units_pos.
  - intros id (r & Hr & Hs & Hu & <-)%settled_lookup. apply eq_None_not_Some.
    intros [n (x & Hx & Hh & Hid & _)%held_lookup]; [|done].
    assert (x = r) as -> by (by eapply (unique_key resv_id)). unfold holds in Hh. by rewrite Hu, andb_false_r in Hh.
Qed.

Lemma history_settled o d d' r :
  ledger_ok (books (records d)) → history o d d' →
  In r (db_reservations (records d)) → unsettled r = false →
  (∀ r', In r' (db_reservations (records d')) → resv_id r' = resv_id r → unsettled r' = false) ∧
  lg_deployed (ledger (resv_account_id r) (resv_strategy_key r) (books (records d))) <=
  lg_deployed (ledger (resv_account_id r) (resv_strategy_key r) (books (records d'))).
Proof.
  intros Hok Hh Hr Hu. destruct (history_simulates o d d' Hh Hok) as [Hok' Hruns].
  destruct (ledger_run_sane _ _ (Hruns (resv_account_id r) (resv_strategy_key r)) (books_sane _ _ _ Hok))
    as (_ & Hset & Hdep). split; [|done]. intros r' Hr' Hid.
  assert (resv_id r ∈ lg_settled (ledger (resv_account_id r) (resv_strategy_key r) (books (records d')))) as Hs.
  { apply Hset, settled_lookup. exists r. split_and!; try done. apply same_strategy_refl. }
  apply settled_lookup in Hs as (x & Hx & _ & Hux & Hidx).
  assert (r' = x) as ->; [|done]. eapply (unique_key resv_id); [exact (lo_ids _ Hok')|done|done|congruence].
Qed.

(** ** The properties *)

(** C2: Reservations, allocations and deployed capital implement the ledger.
    From tables whose allocations reserve exactly what their strategy's
    unsettled reservations hold, every history of submissions,
    reconciliations and recoveries, interleaved in any order and with any
    parameters and answers, is for every account and strategy a run of the
    abstract ledger: reservations are made under fresh identifiers, shrink by
    what a partial fill deploys, and are settled once, deployed as a whole or not
    at all.  The tables stay balanced, so the reserved amount of the allocation
    in force is always the sum of what the ledger holds. *)
Theorem tables_implement_ledger o d d' :
  ledger_ok (books (records d)) → history o d d' →
  ledger_ok (books (records d')) ∧
  ∀ account strategy,
    rtc ledger_step (ledger account strategy (books (records d))) (ledger account strategy (books (records d'))) ∧
    ∀ a, current account strategy (db_allocations (records d')) = Some a →
      (alloc_reserved a == of_units (lg_total (ledger account strategy (books (records d')))))%Q.
Proof.
  intros Hok Hh. destruct (history_simulates o d d' Hh Hok) as [Hok' Hruns]. split; [done|]. intros A K.
  split; [apply Hruns|]. intros a [Ha Hc]%select_one_Some.
  pose proof (lo_reserved _ Hok' A K a Ha Hc) as Hr. cbn [books bk_reservations] in Hr.
  destruct (total_held A K (books (records d')) (lo_ids _ Hok')) as [-> Hg].
  - intros r Hin. by apply (lo_amounts _ Hok').
  - rewrite Hr. symmetry. by apply grid_value.
Qed.

(** C20: Capital is settled once and for all.  When a reservation is released or
    expired, no later submission, reconciliation or recovery makes it hold an
    amount again, and the capital deployed by the strategy never shrinks. *)
Theorem settled_reservation_stays_settled o d d' r :
  ledger_ok (books (records d)) → history o d d' →
  In r (db_reservations (records d)) → unsettled r = false →
  (∀ r', In r' (db_reservations (records d')) → resv_id r' = resv_id r → unsettled r' = false) ∧
  lg_deployed (ledger (resv_account_id r) (resv_strategy_key r) (books (records d))) <=
  lg_deployed (ledger (resv_account_id r) (resv_strategy_key r) (books (records d'))).
Proof. apply history_settled. Qed.

Open Scope Z_scope.

(** ** Transitions are only appended, one for a reservation *)

Class HasTransitions (S : Type) := transitions_in : S → list TerminalTransitionRow.
#[export] Instance SubmissionDb_HasTransitions : HasTransitions SubmissionDb := s_terminals.
#[export] Instance ReconcileDb_HasTransitions : HasTransitions ReconcileDb := λ d, s_terminals (r_sub d).
#[export] Instance RecoveryDb_HasTransitions : HasTransitions RecoveryDb := λ d, s_terminals (submission d).

Definition transitions_of (id : string) (l : list TerminalTransitionRow) : list TerminalTransitionRow :=
  List.filter (settles id) l.

(** A reservation that has a transition keeps it and gets no other. *)
Definition kept (l l' : list TerminalTransitionRow) : Prop :=
  ∀ id, transitions_of id l ≠ [] → transitions_of id l' = transitions_of id l.

Lemma kept_refl l : kept l l.
Proof. done. Qed.

Lemma kept_trans l1 l2 l3 : kept l1 l2 → kept l2 l3 → kept l1 l3.
Proof. intros H1 H2 id H. rewrite H2; [by apply H1|]. by rewrite H1. Qed.

Definition appending {S : Type} `{!HasTransitions S} {A} (m : tx S A) : Prop :=
  ∀ d a d', m d = Ret (a, d') → kept (transitions_in d) (transitions_in d').

Section appending.
Context {S : Type} `{!HasTransitions S}.

Lemma appending_bind {A B} (m : tx S A) (k : A → tx S B) : appending m → (∀ a, appending (k a)) → appending (m ≫= k).
Proof. intros Hm Hk d b d' (a & d1 & H1 & H2)%tx_bind_Ret. eapply kept_trans; [by eapply Hm|by eapply Hk]. Qed.

Lemma appending_read_only {A} (m : tx S A) : read_only m → appending m.
Proof. intros Hm d a d' Hr. rewrite (Hm _ _ _ Hr). apply kept_refl. Qed.
End appending.

Lemma appending_lift {A} (r : res A) : appending (lift r).
Proof. apply appending_read_only. by intros d a d' [_ ->]%lift_Ret. Qed.
Lemma appending_require b c : appending (require b c).
Proof. apply appending_read_only. by intros d u d' [_ ->]%require_Ret. Qed.
Lemma appending_require_one c m : appending m → appending (require_one c m).
Proof. intros Hm d u d' Hr%require_one_Ret. by eapply Hm. Qed.
Lemma appending_fenced f m : appending m → appending (fenced f m).
Proof.
  intros Hm d n d' Hr. unfold fenced in Hr. destruct (held f d); [by eapply Hm|]. injection Hr as <- <-. apply kept_refl.
Qed.
Lemma appending_exec {A} (m : tx ExecDb A) : appending (exec m).
Proof. intros d a d' (x & Hx & ->)%exec_Ret. apply kept_refl. Qed.
Lemma appending_modify f : (∀ d, s_terminals (f d) = s_terminals d) → appending (modify f).
Proof. intros Hf d a d' [= _ <-]. unfold transitions_in, SubmissionDb_HasTransitions. rewrite Hf. apply kept_refl. Qed.
Lemma appending_sub {A} (m : tx SubmissionDb A) : appending m → appending (sub m).
Proof.
  intros Hm d a d' Hr. unfold sub in Hr. destruct (m (r_sub d)) as [[b x]|] eqn:E; [|done].
  injection Hr as <- <-. exact (Hm _ _ _ E).
Qed.
Lemma appending_on_sub {A} (m : tx SubmissionDb A) : appending m → appending (on_sub m).
Proof.
  intros Hm d a d' Hr. unfold on_sub in Hr. destruct (sub m (v_db d)) as [[b x]|] eqn:E; [|done].
  injection Hr as <- <-. exact (appending_sub m Hm _ _ _ E).
Qed.

(** The only statement that writes a transition. *)
Lemma appending_insert_terminal t : appending (insert_terminal t).
Proof.
  intros d n d' H. unfold insert_terminal in H. destruct (existsb _ _) eqn:E; [injection H as _ <-; apply kept_refl|].
  case_if_in H; [done|]. injection H as _ <-. intros id Hid.
  unfold transitions_of. cbn [transitions_in SubmissionDb_HasTransitions set_terminals s_terminals].
  rewrite List.filter_app. cbn [List.filter]. destruct (settles id t) eqn:Es; [|by rewrite app_nil_r].
  unfold settles in Es. apply String.eqb_eq in Es. subst id.
  destruct (transitions_of (tt_reservation_id t) (s_terminals d)) as [|x l] eqn:Ex; [done|].
  assert (In x (transitions_of (tt_reservation_id t) (s_terminals d))) as [Hx Hs]%In_filter by (rewrite Ex; by left).
  apply not_true_iff_false in E. destruct E. apply existsb_exists. by exists x.
Qed.

Create HintDb appending discriminated.
#[export] Hint Resolve appending_bind appending_lift appending_require appending_require_one appending_fenced
  appending_exec appending_sub appending_on_sub appending_insert_terminal : appending.
#[export] Hint Extern 1 (appending (mret _)) => apply appending_read_only, read_only_ret : appending.
#[export] Hint Extern 1 (appending (throw _)) => apply appending_read_only, read_only_throw : appending.
#[export] Hint Extern 1 (appending (gets _)) => apply appending_read_only, read_only_gets : appending.
#[export] Hint Extern 1 (appending (if ?b then _ else _)) => destruct b : appending.
#[export] Hint Extern 1 (appending (match ?x with _ => _ end)) => destruct x : appending.
#[export] Hint Extern 2 (appending (modify _)) => apply appending_modify; intros; reflexivity : appending.
Ltac append := solve [intros; eauto 30 with appending].

Lemma appending_update_intent p f : appending (update_intent p f).
Proof. apply appending_exec. Qed.
Lemma appending_update_lifecycle id f : appending (update_lifecycle id f).
Proof. by apply appending_modify. Qed.
Lemma appending_insert_event e : appending (insert_event e).
Proof. unfold insert_event. append. Qed.
Lemma appending_update_candidate f c s r now : appending (update_candidate f c s r now).
Proof. apply appending_fenced. intros d a d' [= _ <-]. apply kept_refl. Qed.
Lemma appending_consume f id s now : appending (consume f id s now).
Proof. unfold consume. append. Qed.
Lemma appending_consume_confirmed f id s now : appending (consume_confirmed f id s now).
Proof. unfold consume_confirmed. append. Qed.
#[export] Hint Resolve appending_update_intent appending_update_lifecycle appending_insert_event
  appending_update_candidate appending_consume appending_consume_confirmed : appending.

Lemma appending_move_intent f id from g h : appending (move_intent f id from g h).
Proof. unfold move_intent. append. Qed.
Lemma appending_stage f now i s r : appending (persistCandidateExecutionStage f now i s r).
Proof. unfold persistCandidateExecutionStage. append. Qed.
Lemma appending_release f reason now t : appending (release_terminal f reason now t).
Proof.
  unfold release_terminal. apply appending_bind; [append|]. intros [r|]; [|append].
  repeat (apply appending_bind; [append|intros ?]). append.
Qed.
#[export] Hint Resolve appending_move_intent appending_stage appending_release : appending.
Lemma appending_settle srid f i s now : appending (settle_submission srid f i s now).
Proof. unfold settle_submission. append. Qed.
#[export] Hint Resolve appending_settle : appending.
Lemma appending_insert_transition t : appending (insert_transition t).
Proof. intros d n d' H. unfold insert_transition in H. repeat case_if_in H; try done; injection H as <- <-; apply kept_refl. Qed.
Lemma appending_insert_transitions ts : appending (insert_transitions ts).
Proof. induction ts; cbn [insert_transitions]; [append|]. eauto using appending_insert_transition with appending. Qed.
Lemma appending_tables {A} (m : tx ExecDb A) : appending (tables m).
Proof. apply appending_sub, appending_exec. Qed.
#[export] Hint Resolve appending_insert_transitions appending_tables : appending.

Lemma appending_observe o l settle : appending settle → appending (observe o l settle).
Proof. intros Hs. unfold observe, update_observed. append. Qed.

(** *** The operations of the three services *)

Lemma appending_operation digest hmac document srid tf {A} (o : Operation A) :
  appending (execute digest hmac document srid tf o).
Proof.
  destruct o; cbn [execute].
  - intros d n d' H. unfold count_operation in H. destruct (count_intents _ _ _); [|done].
    injection H as <- <-. apply kept_refl.
  - unfold promoteNextConfirmedPostgresIntent. destruct (_ <? _)%nat; [append|].
    apply appending_bind; [append|]. intros filter. apply appending_bind; [append|]. intros [[[i r] s]|]; [|append].
    apply appending_bind; [append|]. intros _. apply appending_bind; [append|]. intros allowed.
    destruct (negb allowed); [append|]. apply appending_bind; [append|]. intros _.
    unfold promote_writes, promote_reservation. repeat (apply appending_bind; [append|intros ?]). append.
  - unfold claimIntent. repeat (apply appending_bind; [append|intros ?]). case_match; [|append].
    repeat (apply appending_bind; [append|intros ?]). append.
  - unfold releaseClaim. apply appending_bind; append.
  - unfold recordSubmissionAttempt. repeat (apply appending_bind; [append|intros ?]). append.
  - unfold recordSubmission, consume_evidence.
    repeat (apply appending_bind; [repeat (apply appending_bind; [append|intros ?]); append|intros ?]). append.
  - unfold recordAmbiguousSubmission. repeat (apply appending_bind; [append|intros ?]). append.
  - unfold recordDeterministicSubmissionFailure. repeat (apply appending_bind; [append|intros ?]). append.
  - unfold record_recovery, recordReconciledSubmissionReceipt, consume_evidence.
    repeat (apply appending_bind; [repeat (apply appending_bind; [append|intros ?]); append|intros ?]). append.
  - append.
Qed.

Lemma appending_statement ratio {A} (s : Statement A) : appending (execute_statement ratio s).
Proof.
  destruct s; cbn [execute_statement]; unfold record_absence, defer_absent; try append; intros d c d' H.
  - unfold store_partial in H. destruct (current_intent _ _ _) as [[i l]|]; [|injection H as <- <-; apply kept_refl].
    case_if_in H; [|injection H as <- <-; apply kept_refl]. revert H. apply appending_observe.
    unfold settle_partial. append.
  - unfold store_observation in H. destruct (current_intent _ _ _) as [[i l]|]; [|injection H as <- <-; apply kept_refl].
    case_if_in H; [|injection H as <- <-; apply kept_refl]. revert H. apply appending_observe. append.
  - unfold settle_terminal, settle_row in H.
    repeat match type of H with context [match ?x with _ => _ end] => destruct x end;
      try (injection H as <- <-; apply kept_refl); revert H; apply (appending_bind (S := ReconcileDb)); append.
  - unfold terminalize_absence in H. case_if_in H; [injection H as <- <-; apply kept_refl|]. revert H.
    apply (appending_bind (S := ReconcileDb)); append.
Qed.

Lemma appending_insert_expired digest d0 now l : appending (insert_expired digest d0 now l).
Proof. induction l; cbn [insert_expired]; append. Qed.
#[export] Hint Resolve appending_insert_expired : appending.

Lemma appending_recovery digest merge timestamp_json {A} (s : RecoveryStatement A) :
  appending (execute_recovery digest merge timestamp_json s).
Proof.
  destruct s; cbn [execute_recovery]; unfold preserve, expire_reviews, expire_confirmations; try append;
    try apply appending_on_sub; intros d c d' H.
  - unfold cancel_stale in H. case_if_in H; [injection H as <- <-; apply kept_refl|]. revert H.
    unfold release_stale. apply (appending_bind (S := SubmissionDb)); append.
  - unfold recover_runs in H. repeat case_if_in H; try done; injection H as <- <-; apply kept_refl.
  - unfold expire_reservations in H. case_if_in H; [injection H as <- <-; apply kept_refl|]. revert H.
    apply (appending_bind (S := SubmissionDb)); append.
  - unfold drop_created in H. destruct (held _ d); [|injection H as <- <-; apply kept_refl]. revert H.
    apply (appending_bind (S := SubmissionDb)); append.
Qed.

Lemma history_kept o d d' : history o d d' → kept (transitions_in d) (transitions_in d').
Proof.
  induction 1 as [d|d1 d2 d3 Hs _ IH]; [apply kept_refl|]. eapply kept_trans; [|exact IH].
  destruct Hs as [A op a x H|A s a x H|A s a x H|x _ Ht].
  - exact (appending_on_sub _ (appending_operation _ _ _ _ _ op) _ _ _ H).
  - unfold reconcile, on_db in H. destruct (execute_statement _ s (v_db _)) as [[b y]|] eqn:E; [|done].
    injection H as <- <-. exact (appending_statement _ s _ _ _ E).
  - exact (appending_recovery _ _ _ s _ _ _ H).
  - unfold transitions_in, RecoveryDb_HasTransitions. rewrite Ht. apply kept_refl.
Qed.
