(* ===== verification/ReconciliationRuns.v ===== *)
(** Runs of the reconciliation program of ReconciliationCommand.v.

    A reservation that expires while its order may still be filled. *)
From stdpp Require Import gmap.
From S2P Require Import Prelude.
From S2P Require Import JsString.
From S2P Require Import JsText.
From S2P Require Import SchedulerLease.
From S2P Require Import ExecutionTables.
From S2P Require Import ExecutionReservation.
From S2P Require Import BrokerResult.
From S2P Require Import JsJson.
From S2P Require Import Effects.
From S2P Require Import Submission.
From S2P Require Import SubmissionFacts.
From S2P Require Import SubmissionCommand.
From S2P Require Import Reconciliation.
From S2P Require Import ReconciliationCommand.
From S2P Require Import Recovery.
From S2P Require Import ReservationLedger.
From S2P Require Import LedgerRuns.
From S2P Require Import LedgerHistory.

Open Scope Z_scope.

(** An undisturbed database, and a broker that answers [lookup]. *)
Definition reply (ratio : Q → Q → Q) (lookup : string → BrokerError + BrokerResponse) (clock : Z)
    (X : Type) (e : ReconciliationCommand.effect X) : ReconcileDb → X * ReconcileDb :=
  match e in ReconciliationCommand.effect X return ReconcileDb → X * ReconcileDb with
  | Sql s => λ d, match execute_statement ratio s d with Ret (a, d') => (Ret a, d') | Throw c => (Throw c, d) end
  | ReconciliationCommand.LookupOrder id => λ d, (lookup id, d)
  | ObserveExternalOrder _ _ | SyncBrokerState _ => λ d, (Ret tt, d)
  | ReconciliationCommand.Clock => λ d, (clock, d)
  end.

Lemma run_sql ratio lookup clock {A} (s : Statement A) d a d' :
  execute_statement ratio s d = Ret (a, d') →
  run (reply ratio lookup clock) (ask (Sql s)) d = (Ret a, d').
Proof. intros H. unfold ask. cbn [run reply]. by rewrite H. Qed.

(** ** When an order is given up *)

Section absence_rule.
Context (digest : string → string) (document : json → jvalue) (localeCompare : string → string → bool).
Context (stableRecordId : string → string → string) (timestamp_format other_format : string → option Z).
Context (fence : SchedulerFence) (now : Z) (t : Target).

Local Abbreviation effect := ReconciliationCommand.effect.
Local Abbreviation reconcile_one :=
  (reconcile_target digest document localeCompare stableRecordId timestamp_format other_format fence now t).

(** The target of a statement that gives an order up. *)
Definition gives_up {X} (e : effect X) : option Target :=
  match e with Sql (GiveUp _ t _ _) => Some t | _ => None end.

Definition absence_established (l : list entry) : Prop :=
  ∃ n first, In (Entry (E := effect) (Sql (AbsenceEvidence t)) (Ret (n, first))) l ∧
    (3 <= n)%nat ∧ first + 120000 <= now.

Definition may_give_up (l : list entry) (X : Type) (e : effect X) : Prop :=
  ∀ t', gives_up e = Some t' →
    t' = t ∧ absence_established l ∧ (t_intent_status t = IntentPending ∨ t_intent_status t = IntentAmbiguous).

Definition watched {A} (l : list entry) (p : prog effect A) : Prop :=
  monitored may_give_up extend l p (λ _ _, True).

Lemma watched_async_bind {A B} l (p : async effect A) (f : A → async effect B) :
  watched l p → (∀ l' a, watched l' (f a)) → watched l (async_bind p f).
Proof.
  intros Hp Hf. apply monitored_async_bind. revert Hp. apply monitored_mono. intros l' [a|c] _; [apply Hf|done].
Qed.

Lemma watched_ask {A} l (e : effect (res A)) : gives_up e = None → watched l (ask e).
Proof. intros He. apply monitored_ask; [|done]. intros t' Ht. congruence. Qed.

Lemma watched_reject_if l b c : watched l (reject_if b c).
Proof. by destruct b. Qed.

Lemma watched_record l response :
  watched l (record_answer digest document localeCompare stableRecordId timestamp_format other_format fence now t response).
Proof.
  unfold record_answer. apply watched_async_bind; [done|]. intros l1 s. apply watched_async_bind; [|intros l2 n].
  - unfold store. destruct (present (t_reservation_id t)), (seen_status s =? "partially_filled")%string;
      repeat first [done | apply watched_async_bind; [first [done | apply watched_reject_if | by apply watched_ask]|intros ? ?]].
  - apply watched_async_bind; [|done]. unfold settle_reservation_of.
    destruct (present (t_reservation_id t)), (is_terminal (seen_status s)); try done.
    apply watched_async_bind; [by apply watched_ask|]. intros l3 c.
    apply watched_async_bind; [|intros; apply watched_reject_if].
    destruct (all_zero c); [|done]. apply watched_async_bind; [by apply watched_ask|done].
Qed.

Lemma absence_terminal_true n first :
  absence_terminal n first now = true → (4 <= n)%nat ∧ first + 120000 <= now.
Proof.
  unfold absence_terminal, BROKER_ABSENCE_TERMINAL_OBSERVATIONS, BROKER_ABSENCE_TERMINAL_AGE_MS.
  intros [H1%Nat.leb_le H2%Z.leb_le]%andb_true_iff. lia.
Qed.

Lemma watched_absence l :
  t_intent_status t = IntentPending ∨ t_intent_status t = IntentAmbiguous →
  watched l (recordBrokerOrderAbsence digest stableRecordId fence now t).
Proof.
  intros Hst. unfold recordBrokerOrderAbsence. apply monitored_async_bind. apply monitored_ask; [by intros t' [=]|].
  intros [[n first]|c]; [|done]. cbv beta iota zeta.
  destruct (absence_terminal (S n) first now) eqn:E; cbn [negb].
  - apply absence_terminal_true in E as [Hn Hf]. apply monitored_async_bind. apply monitored_ask.
    + intros t' [= <-]. split_and!; [done| |done]. exists n, first. split_and!; [|lia|lia].
      unfold extend. apply in_or_app. right. by left.
    + intros [counts|c]; [|done]. apply watched_async_bind; [apply watched_reject_if|]. intros l' _.
      apply watched_async_bind; [|done]. destruct (present (t_candidate_id t)); [|done].
      apply watched_async_bind; [by apply watched_ask|]. intros. apply watched_reject_if.
  - apply watched_async_bind; [by apply watched_ask|done].
Qed.

Lemma watched_failed l e : watched l (target_failed digest stableRecordId fence now t e).
Proof.
  unfold target_failed. destruct (_ && _) eqn:E; [|done]. apply andb_true_iff in E as [E _]. apply monitored_bind.
  eapply monitored_mono; [|apply watched_absence].
  - by intros l' [a|c] _.
  - apply bool_decide_eq_true in E. rewrite !elem_of_cons, elem_of_nil in E. tauto.
Qed.

(** C21: An order is given up only on repeated evidence.  Whatever the broker and
    the database answer, reconciling an order gives it up (fails its intent and
    releases its reservation) only when its intent is pending or ambiguous, the
    database has counted at least three earlier absences of the order, and its
    first attempt lies at least two minutes back. *)
Theorem given_up_only_after_four_absences l X (e : effect X) k t' :
  path reconcile_one l (Ask e k) → gives_up e = Some t' →
  t' = t ∧ absence_established l ∧ (t_intent_status t = IntentPending ∨ t_intent_status t = IntentAmbiguous).
Proof.
  intros Hp He. assert (watched [] reconcile_one) as Hw.
  { unfold reconcile_target. split; [by intros t0 [=]|]. intros [e0|response]; [apply watched_failed|].
    apply monitored_bind. eapply monitored_mono; [|apply watched_record].
    intros l' [a|c] _; [done|apply watched_failed]. }
  by apply (monitored_path may_give_up [] _ _ l X e k Hw Hp).
Qed.
End absence_rule.

(** ** One target does not stop the others *)

Section every_target.
Context (digest : string → string) (document : json → jvalue) (localeCompare : string → string → bool).
Context (stableRecordId : string → string → string) (timestamp_format other_format : string → option Z).
Context (fence : SchedulerFence) (now : Z).

Local Abbreviation effect := ReconciliationCommand.effect.

Definition looked_up {X} (e : effect X) : option string :=
  match e with ReconciliationCommand.LookupOrder id => Some id | _ => None end.

(** The lookups of a log. *)
Definition lookups (l : list (entry (E := effect))) : list string :=
  omap (λ x, match x with Entry e _ => looked_up e end) l.

(** What a tally accounts for. *)
Definition accounted_for (r : ReconciliationResult) : nat :=
  (recorded r + replayed r + pending r + failedAbsent r + List.length (errors r))%nat.

(** [p] looks nothing up. *)
Fixpoint no_lookup {A} (p : prog effect A) : Prop :=
  match p with Done _ => True | Ask e k => looked_up e = None ∧ ∀ x, no_lookup (k x) end.

Lemma no_lookup_bind {A B} (p : prog effect A) (f : A → prog effect B) :
  no_lookup p → (∀ a, no_lookup (f a)) → no_lookup (prog_bind p f).
Proof. intros Hp Hf. induction p as [a|X e k IH]; [apply Hf|]. destruct Hp as [He Hk]. split; auto. Qed.

Lemma no_lookup_async {A B} (p : async effect A) (f : A → async effect B) :
  no_lookup p → (∀ a, no_lookup (f a)) → no_lookup (async_bind p f).
Proof. intros Hp Hf. apply no_lookup_bind; [done|]. by intros [a|c]. Qed.

Lemma no_lookup_ask {A} (e : effect (res A)) : looked_up e = None → no_lookup (ask e).
Proof. done. Qed.

Lemma no_lookup_reject b c : no_lookup (reject_if b c).
Proof. by destruct b. Qed.

Lemma no_lookup_record t response :
  no_lookup (record_answer digest document localeCompare stableRecordId timestamp_format other_format fence now t response).
Proof.
  unfold record_answer. apply no_lookup_async; [done|]. intros s. apply no_lookup_async; [|intros n].
  - unfold store. destruct (present (t_reservation_id t)), (seen_status s =? "partially_filled")%string;
      repeat first [done | apply no_lookup_async; [first [done | apply no_lookup_reject]|intros ?]].
  - apply no_lookup_async; [|done]. unfold settle_reservation_of.
    destruct (present (t_reservation_id t)), (is_terminal (seen_status s)); try done.
    apply no_lookup_async; [done|]. intros c. apply no_lookup_async; [|intros; apply no_lookup_reject].
    destruct (all_zero c); [apply no_lookup_async; [done|by intros ?]|done].
Qed.

Lemma no_lookup_failed t e : no_lookup (target_failed digest stableRecordId fence now t e).
Proof.
  unfold target_failed. destruct (_ && _); [|done]. apply no_lookup_bind; [|by intros [a|c]].
  unfold recordBrokerOrderAbsence. apply no_lookup_async; [done|]. intros [n first].
  destruct (absence_terminal _ _ _); cbn [negb]; [|by apply no_lookup_async].
  apply no_lookup_async; [done|]. intros counts. apply no_lookup_async; [apply no_lookup_reject|]. intros _.
  apply no_lookup_async; [|done]. destruct (present (t_candidate_id t)); [|done].
  apply no_lookup_async; [done|]. intros. apply no_lookup_reject.
Qed.

Definition any (l : list (entry (E := effect))) (X : Type) (e : effect X) : Prop := True.

Lemma no_lookup_monitored {A} l (p : prog effect A) :
  no_lookup p → monitored any extend l p (λ l' _, lookups l' = lookups l).
Proof.
  revert l. induction p as [a|X e k IH]; intros l; [done|]. intros [He Hk]. split; [done|]. intros x.
  eapply monitored_mono; [|apply IH, Hk]. cbn. intros l' _ ->. unfold extend, lookups. rewrite omap_app. cbn.
  by rewrite He, app_nil_r.
Qed.

Local Abbreviation reconcile_one :=
  (reconcile_target digest document localeCompare stableRecordId timestamp_format other_format fence now).
Local Abbreviation reconcile_all :=
  (reconcile_targets digest document localeCompare stableRecordId timestamp_format other_format fence now).

Lemma target_looked_up l t :
  monitored any extend l (reconcile_one t) (λ l' _, lookups l' = lookups l ++ [t_client_order_id t]).
Proof.
  assert (Hlook : ∀ answer, lookups (extend l _ (ReconciliationCommand.LookupOrder (t_client_order_id t)) answer) =
    lookups l ++ [t_client_order_id t]).
  { intros answer. unfold extend, lookups. by rewrite omap_app. }
  split; [done|]. intros [e|response].
  - eapply monitored_mono; [|apply no_lookup_monitored, no_lookup_failed]. cbn. intros l' _ ->. apply Hlook.
  - apply monitored_bind. eapply monitored_mono; [|apply no_lookup_monitored, no_lookup_record].
    cbn. intros l' [a|c] Hl; rewrite Hlook in Hl; [done|]. rewrite <- Hl. eapply monitored_mono; [|apply no_lookup_monitored, no_lookup_failed].
    cbn. by intros l2 _ ->.
Qed.

Lemma tally_counts r t o : checked (tally r t o) = S (checked r) ∧ accounted_for (tally r t o) = S (accounted_for r).
Proof.
  split; destruct o as [again order| | |code]; try done; unfold accounted_for; cbn [tally recorded replayed pending failedAbsent errors];
    rewrite ?length_app; cbn [List.length]; try lia. destruct again; cbn [bump negb]; lia.
Qed.

Lemma targets_monitored ts : ∀ l r,
  monitored any extend l (reconcile_all ts r) (λ l' r',
    lookups l' = lookups l ++ map t_client_order_id ts ∧
    checked r' = (checked r + List.length ts)%nat ∧ accounted_for r' = (accounted_for r + List.length ts)%nat).
Proof.
  induction ts as [|t ts IH]; intros l r; cbn [reconcile_targets map List.length].
  - cbn [monitored]. rewrite app_nil_r. split_and!; [done|lia..].
  - apply monitored_bind. eapply monitored_mono; [|apply target_looked_up]. cbn. intros l1 o Hl1.
    eapply monitored_mono; [|apply IH]. cbn. intros l2 r' (-> & -> & ->). rewrite Hl1, <- app_assoc.
    destruct (tally_counts r t o) as [-> ->]. split_and!; [done|lia..].
Qed.

(** Every target gets its turn.  However the broker and the database answer,
    a reconciliation that comes to its end has looked up every listed order
    exactly once and in order (an error of one does not keep the others
    waiting), has checked as many as were listed, and accounts for each of them
    exactly once: recorded, replayed, still pending, given up, or an error. *)
Theorem every_target_accounted_for ts l r :
  path (reconcile_all ts empty_result) l (Done r) →
  lookups l = map t_client_order_id ts ∧ checked r = List.length ts ∧ accounted_for r = List.length ts.
Proof.
  intros Hp. exact (monitored_done any [] _ _ l r (targets_monitored ts [] empty_result) Hp).
Qed.
End every_target.

Open Scope Z_scope.

(** ** What the expiry writes *)

Lemma transitions_appended t l :
  existsb (λ x, (tt_reservation_id x =? tt_reservation_id t)%string) l = false →
  transitions_of (tt_reservation_id t) (l ++ [t]) = [t].
Proof.
  intros H. unfold transitions_of. rewrite List.filter_app. cbn [List.filter]. unfold settles at 2.
  rewrite String.eqb_refl. assert (List.filter (settles (tt_reservation_id t)) l = []) as ->; [|done].
  induction l as [|x l IH]; [done|]. cbn in H |- *. apply orb_false_iff in H as [H1 H2].
  unfold settles at 1. rewrite String.eqb_sym in H1. by rewrite String.eqb_sym, H1, IH.
Qed.

Lemma insert_expired_length digest d0 now l d new d' :
  insert_expired digest d0 now l d = Ret (new, d') → (List.length new <= List.length l)%nat.
Proof.
  revert d new d'. induction l as [|r l IH]; intros d new d' H; [by injection H as <- _|].
  cbn [insert_expired] in H. tx_step H as k d1 E1. tx_step H as rest d2 E2. injection H as <- _.
  apply IH in E2. destruct (k =? 0)%nat; cbn [List.length]; lia.
Qed.

(** When every transition was new, each reservation has exactly its own. *)
Lemma insert_expired_all digest d0 now l d new d' :
  insert_expired digest d0 now l d = Ret (new, d') → List.length new = List.length l →
  new = l ∧ ∀ r, In r l → transitions_of (resv_id r) (s_terminals d') = [expired_transition digest d0 now r].
Proof.
  revert d new d'. induction l as [|r l IH]; intros d new d' H Hlen; [by destruct new|].
  cbn [insert_expired] in H. tx_step H as k d1 E1. tx_step H as rest d2 E2. injection H as <- <-.
  pose proof (insert_expired_length _ _ _ _ _ _ _ E2) as Hle.
  destruct (k =? 0)%nat eqn:Ek; cbn [List.length] in Hlen; [lia|].
  destruct (IH _ _ _ E2) as [-> Hall]; [lia|]. split; [done|]. intros x [<-|Hx]; [|by apply Hall].
  unfold insert_terminal in E1. destruct (existsb _ _) eqn:Ex in E1; [by injection E1 as <- _|].
  case_if_in E1; [done|]. injection E1 as _ <-.
  assert (Ht : transitions_of (resv_id r) (s_terminals d ++ [expired_transition digest d0 now r]) =
    [expired_transition digest d0 now r]) by exact (transitions_appended _ _ Ex).
  pose proof (appending_insert_expired _ _ _ _ _ _ _ E2 (resv_id r)) as Hk.
  unfold transitions_in, SubmissionDb_HasTransitions in Hk. cbn [set_terminals s_terminals] in Hk.
  rewrite Ht in Hk. by apply Hk.
Qed.

Lemma expire_writes digest fence now d counts x r :
  ledger_ok (books (s_exec d)) → expire_reservations digest fence now d = Ret (counts, x) →
  ec_ok counts = true → ec_transitions counts = ec_locked counts →
  held fence d = true → In r (db_reservations (s_exec d)) → is_expired now r = true →
  transitions_of (resv_id r) (s_terminals x) = [expired_transition digest (s_exec d) now r] ∧
  In (expired_row now r) (db_reservations (s_exec x)).
Proof.
  intros Hwf H Hok Hall Hf Hr He. unfold expire_reservations in H. rewrite Hf in H.
  set (locked := List.filter (is_expired now) (db_reservations (s_exec d))) in H.
  case_if_in H; [by injection H as <- _|]. rename Heqb into Hrep. apply negb_false_iff in Hrep.
  tx_step H as new d1 E1. pose proof E1 as Hs. apply insert_expired_spec in Hs as (Hb & Hin & _ & Hle).
  tx_step H as n d2 E2. apply exec_Ret in E2 as (y & (_ & -> & _)%update_rows_Ret & ->).
  tx_step H as m d3 E3. apply exec_Ret in E3 as (z & (_ & -> & _)%update_rows_Ret & ->). injection H as <- <-.
  cbn [ec_transitions ec_locked] in Hall. destruct (insert_expired_all _ _ _ _ _ _ _ E1 Hall) as [-> Htr].
  assert (Hlr : In r locked) by (by apply In_filter). split; [by apply Htr|].
  pose proof (lo_ids _ Hwf) as Hnd. cbn [books bk_reservations] in Hnd.
  specialize (Hle (λ r' Hr', Qlt_le_weak _ _ (proj2 (lo_amounts _ Hwf r' (proj1 (proj1 (In_filter _ _ _) Hr')))))).
  cbn. unfold books in Hb. injection Hb as -> _. apply update_where_In. exists r. split; [done|].
  by rewrite (proj2 (expires_new (s_exec d) now locked locked Hnd (λ r', proj1 (In_filter _ _ r')) Hrep Hin Hle r Hr)).
Qed.

(** ** The settlement of its order *)

Lemma release_reason_not_stale status : reservationReleaseReason status ≠ "stale_intent_recovery"%string.
Proof. unfold reservationReleaseReason. by repeat case_match. Qed.

(** No transition of the reservation is the one the settlement looks for. *)
Lemma no_existing digest srid e now r t s now' l :
  transitions_of (resv_id r) l = [expired_transition digest e now r] →
  List.filter (existing_transition (settlement_of srid t (resv_id r) s now')) l = [].
Proof.
  intros Ht. destruct (List.filter _ l) as [|y m] eqn:E; [done|]. exfalso.
  assert (In y (List.filter (existing_transition (settlement_of srid t (resv_id r) s now')) l)) as [Hy Hex]%In_filter
    by (rewrite E; by left).
  unfold existing_transition in Hex. rewrite !andb_true_iff in Hex. destruct Hex as [[[Hs _] _] Hr%String.eqb_eq].
  assert (In y (transitions_of (resv_id r) l)) as Hin by (by apply In_filter). rewrite Ht in Hin.
  destruct Hin as [<-|[]]. by destruct (release_reason_not_stale (seen_status s)).
Qed.

Lemma nothing_unsettled id rs :
  (∀ r, In r rs → resv_id r = id → unsettled r = false) →
  select_one (λ r, (resv_id r =? id)%string && unsettled r) rs = None.
Proof.
  intros H. destruct (select_one _ rs) as [r|] eqn:E; [|done]. exfalso.
  apply (select_unsettled id) in E as (Hr & Hid & Hu & _); [|done]. by rewrite (H r Hr Hid) in Hu.
Qed.

(** Without an unsettled reservation and without its own transition the
    settlement fails and writes nothing. *)
Lemma settlement_refused ratio lookup clock srid fence now t s d id :
  present (t_reservation_id t) = Some id → is_terminal (seen_status s) = true →
  List.filter (existing_transition (settlement_of srid t id s now)) (s_terminals (r_sub d)) = [] →
  select_one (λ r, (resv_id r =? id)%string && unsettled r) (db_reservations (rows d)) = None →
  run (reply ratio lookup clock) (settle_reservation_of srid fence now t s) d =
    (Throw "POSTGRES_RECONCILIATION_RESERVATION_RELEASE_FAILED", d).
Proof.
  intros Ht Hs Hex Hnone. unfold settle_reservation_of. rewrite Ht, Hs. set (st := settlement_of _ _ _ _ _) in *.
  assert (Hset : execute_statement ratio (SettleTerminal fence st) d =
    Ret ({| released_count := 0; adjusted_count := 0; terminal_transition_count := 0;
            existing_transition_count := 0; legacy_settlement_count := 0 |}, d)).
  { cbn [execute_statement]. unfold settle_terminal, count_where. rewrite Hex. cbn [List.length].
    change (se_reservation_id st) with id. rewrite Hnone. by destruct (settled_intent fence st d). }
  assert (Hrep : execute_statement ratio (ConcurrentReplays fence st) d = Ret (0%nat, d)).
  { cbn [execute_statement]. unfold gets, concurrent_replays. rewrite Hex. by destruct (held fence (r_sub d)). }
  rewrite run_async_bind, (run_sql _ _ _ _ _ _ _ Hset).
  assert (all_zero {| released_count := 0; adjusted_count := 0; terminal_transition_count := 0;
                      existing_transition_count := 0; legacy_settlement_count := 0 |} = true) as -> by done.
  rewrite run_async_bind, run_async_bind, (run_sql _ _ _ _ _ _ _ Hrep). done.
Qed.

(** C26: Filled after expiry.  Recovery expires the active reservation of an
    intent whose order may still be open (it looks at the expiry time only).
    From then on, in every later state that submissions, reconciliations and
    recoveries can reach, the settlement of the finished order of that intent
    fails with POSTGRES_RECONCILIATION_RESERVATION_RELEASE_FAILED and changes
    nothing: the capital of a filled order is never deployed.  The intent is not
    even looked at again once it is reconciled. *)
Theorem expired_reservation_never_deployed o fence now counts d x d2 r t s ratio lookup clock fence' now' :
  ledger_ok (books (records d)) →
  expire_reservations (o_digest o) fence now (submission d) = Ret (counts, x) →
  ec_ok counts = true → ec_transitions counts = ec_locked counts →
  held fence (submission d) = true → In r (db_reservations (records d)) → is_expired now r = true →
  history o (set_db (set_sub x (v_db d)) d) d2 →
  present (t_reservation_id t) = Some (resv_id r) → is_terminal (seen_status s) = true →
  run (reply ratio lookup clock) (settle_reservation_of (o_stableRecordId o) fence' now' t s) (v_db d2) =
    (Throw "POSTGRES_RECONCILIATION_RESERVATION_RELEASE_FAILED", v_db d2) ∧
  ∀ i, In i (db_intents (records d2)) → intent_reservation_id i = Some (resv_id r) →
    intent_status i = IntentReconciled → needs_reconciliation (submission d2) i = false.
Proof.
  intros Hwf Hx Hok Hall Hf Hr He Hh Ht Hs.
  destruct (expire_writes _ _ _ _ _ _ _ Hwf Hx Hok Hall Hf Hr He) as [Htr Hrow].
  pose proof (accounted_expire _ _ _ _ _ _ Hx Hwf) as [Hwf1 _].
  destruct (history_settled o (set_db (set_sub x (v_db d)) d) d2 (expired_row now r) Hwf1 Hh Hrow) as [Huns _]; [done|]. cbn [expired_row resv_id] in Huns.
  assert (Htr2 : transitions_of (resv_id r) (s_terminals (submission d2)) = [expired_transition (o_digest o) (records d) now r]).
  { pose proof (history_kept _ _ _ Hh (resv_id r)) as Hk.
    unfold transitions_in, RecoveryDb_HasTransitions in Hk. cbn [submission set_db v_db set_sub r_sub] in Hk.
    rewrite Htr in Hk. by apply Hk. }
  pose proof (nothing_unsettled (resv_id r) (db_reservations (records d2)) Huns) as Hnone.
  split.
  - apply settlement_refused with (resv_id r); [done|done| |done]. by eapply no_existing.
  - intros i _ Hi Hst. unfold needs_reconciliation. rewrite Hi, Hst.
    assert (existsb (λ y, (resv_id y =? resv_id r)%string && unsettled y) (db_reservations (records d2)) = false) as Hex.
    { apply not_true_iff_false. intros (y & Hy & [Hid%String.eqb_eq Hu]%andb_true_iff)%existsb_exists.
      by rewrite (Huns y Hy Hid) in Hu. }
    unfold records in Hex. rewrite Hex. done.
Qed.
