(* ===== verification/ObservationFacts.v ===== *)
(** What storing the broker's answer to a lookup does to an intent: it moves
    along the path of legal transitions or is left where it was. *)

From S2P Require Import Prelude.
From S2P Require Import JsString.
From S2P Require Import JsText.
From S2P Require Import JsJson.
From S2P Require Import TradeLifecycle.
From S2P Require Import SchedulerLease.
From S2P Require Import ExecutionTables.
From S2P Require Import BrokerResult.
From S2P Require Import Effects.
From S2P Require Import Submission.
From S2P Require Import SubmissionFacts.
From S2P Require Import SubmissionCommand.
From S2P Require Import Reconciliation.
From S2P Require Import ReconciliationCommand.
From S2P Require Import ReconciliationRuns.
Open Scope Z_scope.

(** ** Frames *)

(** The tables a lookup moves an intent in. *)
Definition intents_of (d : ReconcileDb) : list IntentRow * list LifecycleColumns :=
  (db_intents (rows d), s_lifecycle (r_sub d)).

(** A part of the statement that leaves [f] of the tables alone. *)
Definition leaves {B A} (f : ReconcileDb → B) (m : tx ReconcileDb A) : Prop :=
  ∀ d a d', m d = Ret (a, d') → f d' = f d.

Lemma leaves_tables {B A} (f : ReconcileDb → B) (g : ExecDb → B) (m : tx ExecDb A) :
  (∀ d x, g x = g (rows d) → f (set_sub (set_exec x (r_sub d)) d) = f d) → keeps g m → leaves f (tables m).
Proof.
  intros Hf Hm d a d' Hr. unfold tables, sub, exec in Hr. destruct (m (s_exec (r_sub d))) as [[b x]|] eqn:E; [|done].
  injection Hr as <- <-. apply Hf. exact (Hm _ _ _ E).
Qed.

Lemma leaves_bind {B A C} (f : ReconcileDb → B) (m : tx ReconcileDb A) (k : A → tx ReconcileDb C) :
  leaves f m → (∀ a, leaves f (k a)) → leaves f (m ≫= k).
Proof. intros Hm Hk d c d' (a & d1 & H1 & H2)%tx_bind_Ret. rewrite (Hk _ _ _ _ H2). by eapply Hm. Qed.

Lemma leaves_ret {B A} (f : ReconcileDb → B) (a : A) : leaves f (mret a).
Proof. by intros d b d' [= _ <-]. Qed.

Definition untouched (d : ReconcileDb) : list TransitionRow * (list IntentRow * list LifecycleColumns) :=
  (r_transitions d, intents_of d).

Lemma untouched_tables {A} (m : tx ExecDb A) : keeps db_intents m → leaves untouched (tables m).
Proof.
  intros Hm d a d' Hr. unfold tables, sub, exec in Hr. destruct (m (s_exec (r_sub d))) as [[b x]|] eqn:E; [|done].
  injection Hr as <- <-. unfold untouched, intents_of, rows. cbn. by rewrite (Hm _ _ _ E).
Qed.

Lemma store_order_intents o : keeps db_intents (store_order o).
Proof.
  intros d a d' H. unfold store_order in H. destruct (select_one _ _); [|by eapply keeps_insert in H].
  repeat case_if_in H; try done. by injection H as _ <-.
Qed.

Lemma settle_partial_untouched x now : leaves untouched (settle_partial x now).
Proof.
  unfold settle_partial. destruct x as [[[r remaining] settled]|]; [|apply leaves_ret].
  destruct (Qle_bool settled 0); [apply leaves_ret|].
  repeat (apply leaves_bind; [by apply untouched_tables, keeps_update|intros ?]). apply leaves_ret.
Qed.

(** ** Transitions *)

Lemma insert_transition_Ret t d n d' :
  insert_transition t d = Ret (n, d') →
  tr_to_state t ∈ TradeLifecycle.transitions (tr_from_state t) ∧
  (n = 0%nat ∧ d' = d ∧ existsb (same_transition_key t) (r_transitions d) = true ∨
   n = 1%nat ∧ d' = set_transitions (r_transitions d ++ [t]) d ∧
   existsb (same_transition_key t) (r_transitions d) = false).
Proof.
  unfold insert_transition. case_bool_decide as Hstep; [|done]. cbn [negb]. intros H. split; [done|].
  destruct (existsb (same_transition_key t) _); [injection H as <- <-; by left|]. case_if_in H; [done|].
  injection H as <- <-. by right.
Qed.

(** The rows are appended, as many as were new; all of them when none was used. *)
Lemma insert_transitions_Ret ts d k d' :
  insert_transitions ts d = Ret (k, d') →
  Forall (λ t, tr_to_state t ∈ TradeLifecycle.transitions (tr_from_state t)) ts ∧ (k <= List.length ts)%nat ∧
  ∃ l, d' = set_transitions (r_transitions d ++ l) d ∧ (k = List.length ts → l = ts).
Proof.
  revert d k d'. induction ts as [|t ts IH]; intros d k d' H; cbn [insert_transitions] in H.
  - injection H as <- <-. split_and!; [done|done|]. exists []. split; [|done]. rewrite app_nil_r. by destruct d.
  - tx_step H as n d1 E1. tx_step H as m d2 E2. injection H as <- <-. apply insert_transition_Ret in E1 as [Ht E1].
    apply IH in E2 as (Hall & Hm & l & -> & Hl). cbn [List.length]. destruct E1 as [(-> & -> & _)|(-> & -> & _)].
    + split_and!; [by constructor|lia|]. exists l. split; [done|lia].
    + split_and!; [by constructor|lia|]. exists (t :: l). cbn. rewrite <- app_assoc. split; [done|].
      intros [= Hk]. by rewrite Hl.
Qed.

(** A used key keeps its row out. *)
Lemma insert_transitions_blocked t ts d k d' :
  existsb (same_transition_key t) (r_transitions d) = true →
  insert_transitions (t :: ts) d = Ret (k, d') → (k <= List.length ts)%nat.
Proof.
  intros Hused H. cbn [insert_transitions] in H. tx_step H as n d1 E1. tx_step H as m d2 E2. injection H as <- <-.
  apply insert_transition_Ret in E1 as [_ [(-> & -> & _)|(_ & _ & Hnew)]]; [|congruence].
  by apply insert_transitions_Ret in E2 as (_ & Hm & _).
Qed.

(** ** The observation *)

(** The rows of the path. *)
Definition path_rows (o : Observation) (l : LifecycleColumns) : list TransitionRow :=
  imap (λ n, new_transition o l (S n)) (ob_steps o).

Lemma path_rows_length o l : List.length (path_rows o l) = List.length (ob_steps o).
Proof. unfold path_rows. by rewrite length_imap. Qed.

Definition moved (o : Observation) (d d' : ReconcileDb) : Prop :=
  intents_of d' =
    (update_where (reconcilable (ob_intent_id o)) (observed_intent o) (db_intents (rows d)),
     update_where (λ l, (lc_intent_id l =? ob_intent_id o)%string) (in_state (state_name (ob_state o)))
       (s_lifecycle (r_sub d))).

Lemma update_observed_Ret o id d n e d' :
  update_observed o id d = Ret ((n, e), d') →
  moved o d d' ∧ r_transitions d' = r_transitions d ∧
  n = count_where (reconcilable (ob_intent_id o)) (db_intents (rows d)).
Proof.
  intros H. unfold update_observed in H. tx_step H as m d1 E1. tx_step H as u d2 E2. tx_step H as k d3 E3.
  injection H as <- <- <-. unfold sub in E1, E2, E3.
  destruct (update_intent _ _ _) as [[m' x1]|] eqn:F1 in E1; [|done]. injection E1 as <- <-.
  apply update_intent_Ret in F1 as (-> & -> & _).
  destruct (update_lifecycle _ _ _) as [[u' x2]|] eqn:F2 in E2; [|done]. injection E2 as <- <-. injection F2 as <- <-.
  destruct (insert_event _ _) as [[k' x3]|] eqn:F3 in E3; [|done]. injection E3 as <- <-.
  unfold insert_event in F3. tx_step F3 as w x4 F4. injection F3 as <- <-. apply exec_Ret in F4 as (y & F4 & ->).
  apply (keeps_insert_unless db_intents) in F4; [|done]. unfold moved, intents_of, rows. cbn in *. by rewrite F4.
Qed.

Lemma observe_Ret o l settle d c d' :
  leaves untouched settle → observe o l settle d = Ret (c, d') →
  (lifecycle_transition_count c <= List.length (ob_steps o))%nat ∧
  (updated_intent_count c = 0%nat ∧ intents_of d' = intents_of d ∧ (∃ m, r_transitions d' = r_transitions d ++ m) ∨
   moved o d d' ∧ r_transitions d' = r_transitions d ++ path_rows o l ∧
   Forall (λ s, snd s ∈ TradeLifecycle.transitions (fst s)) (ob_steps o) ∧
   lifecycle_transition_count c = List.length (ob_steps o) ∧
   updated_intent_count c = count_where (reconcilable (ob_intent_id o)) (db_intents (rows d))).
Proof.
  intros Hs H. unfold observe in H. tx_step H as id d1 E1. injection E1 as _ <-. tx_step H as u d2 E2.
  tx_step H as p d3 E3. tx_step H as k d4 E4. tx_step H as w d5 E5. injection H as <- <-.
  apply (untouched_tables _ (store_order_intents _)) in E2. apply Hs in E3. rewrite E2 in E3. clear E2.
  injection E3 as Htr Hin Hlc. cbn [lifecycle_transition_count updated_intent_count].
  apply insert_transitions_Ret in E4 as (Hall & Hk & m & -> & Hm). change (imap _ _) with (path_rows o l) in *.
  rewrite path_rows_length in *. split; [done|].
  destruct (bool_decide (ob_steps o = []) || (k =? List.length (ob_steps o))%nat) eqn:E.
  - assert (k = List.length (ob_steps o)) as ->.
    { apply orb_true_iff in E as [E%bool_decide_eq_true|E%Nat.eqb_eq]; [|done]. rewrite E in *. cbn in *. lia. }
    rewrite (Hm eq_refl) in E5. destruct w as [n e]. apply update_observed_Ret in E5 as (Hmv & Htr5 & ->). right.
    split_and!; [|by rewrite Htr5, <- Htr| |done|cbn; by rewrite <- Hin].
    + unfold moved in *. cbn [set_transitions r_sub rows] in Hmv. rewrite Hmv. unfold rows in *. cbn. by rewrite Hin, Hlc.
    + apply Forall_forall. intros s Hin'. apply list_elem_of_lookup in Hin' as [j Hj].
      rewrite Forall_forall in Hall. apply (Hall (new_transition o l (S j) s)).
      apply list_elem_of_lookup. exists j. unfold path_rows. by rewrite list_lookup_imap, Hj.
  - injection E5 as <- <-. left. unfold intents_of, rows in *. cbn. rewrite Hin, Hlc. split_and!; [done|done|].
    exists m. by rewrite Htr.
Qed.

(** With the first key used, fewer rows than steps are written. *)
Lemma observe_blocked o l settle d c d' step steps :
  leaves untouched settle → observe o l settle d = Ret (c, d') → ob_steps o = step :: steps →
  existsb (same_transition_key (new_transition o l 1 step)) (r_transitions d) = true →
  (lifecycle_transition_count c < List.length (ob_steps o))%nat.
Proof.
  intros Hs H Hst Hused. unfold observe in H. tx_step H as id d1 E1. injection E1 as _ <-. tx_step H as u d2 E2.
  tx_step H as p d3 E3. tx_step H as k d4 E4. tx_step H as w d5 E5. injection H as <- <-.
  apply (untouched_tables _ (store_order_intents _)) in E2. apply Hs in E3. rewrite E2 in E3.
  injection E3 as Htr _ _. rewrite Hst in E4 |- *. cbn [imap lifecycle_transition_count List.length] in E4 |- *.
  apply insert_transitions_blocked in E4; [|by rewrite Htr]. rewrite length_imap in E4. lia.
Qed.

(** The key of the first transition an answer leads to. *)
Definition first_key (s : Seen) : string :=
  (("broker-reconciliation:" ++ seen_broker_id s ++ ":" ++ state_name (final_state (seen_path s)))
   ++ ":" ++ ordinal_text 1)%string.

Definition used_key (intent : string) (s : Seen) (d : ReconcileDb) : bool :=
  existsb (λ x, (intent =? tr_intent_id x)%string && (first_key s =? tr_idempotency_key x)%string) (r_transitions d).

(** ** The program *)

Section store.
Context (ratio : Q → Q → Q) (lookup : string → BrokerError + BrokerResponse) (clock : Z).
Context (digest : string → string) (document : json → jvalue) (localeCompare : string → string → bool).
Context (stableRecordId : string → string → string) (timestamp_format : string → option Z).
Context (fence : SchedulerFence) (now : Z).

Local Abbreviation observation_of := (observation_of digest document localeCompare stableRecordId timestamp_format).
Local Abbreviation store := (store digest document localeCompare stableRecordId timestamp_format fence now).

Lemma observation_of_Ret t response s o :
  observation_of t response s now = Ret o →
  ob_intent_id o = t_order_intent_id t ∧ ob_steps o = path_steps (seen_path s) ∧ ob_now o = now ∧
  ob_state o = final_state (seen_path s) ∧ ob_status o = intent_status_for (seen_status s) ∧
  ob_key o = ("broker-reconciliation:" ++ seen_broker_id s ++ ":" ++ state_name (final_state (seen_path s)))%string.
Proof. intros (x & _ & [= <-])%res_bind_Ret. done. Qed.

(** What a statement did, as the program sees it. *)
Definition observed (t : Target) (response : BrokerResponse) (s : Seen) (d d' : ReconcileDb) (r : res nat) : Prop :=
  ∃ o i l settle c, observation_of t response s now = Ret o ∧
    current_intent fence (ob_intent_id o) d = Some (i, l) ∧ path_allowed o l = true ∧ leaves untouched settle ∧
    observe o l settle d = Ret (c, d') ∧ match r with Ret _ => counts_stored c s = true | Throw _ => True end.

Lemma no_counts_refused s : counts_stored no_counts s = false.
Proof. done. Qed.

Lemma store_run t response s d r d' :
  run (reply ratio lookup clock) (store t response s) d = (r, d') →
  (∃ c, r = Throw c ∧ d' = d) ∨ observed t response s d d' r.
Proof.
  assert (Hstop : ∀ (b : bool) (code : string) (n : nat) r' d1 d2,
    run (reply ratio lookup clock) (let! _ := reject_if b code in async_ret n) d1 = (r', d2) →
    d2 = d1 ∧ match r' with Ret _ => b = false | Throw _ => True end).
  { intros b code n r' d1 d2 H. destruct b; by injection H as <- <-. }
  unfold ReconciliationCommand.store. cbv zeta.
  assert (Hplain : run (reply ratio lookup clock)
      (let! o := sync (observation_of t response s now) in
       let! c := ask (Sql (StoreObservation fence o)) in
       let! _ := reject_if (negb (counts_stored c s)) "POSTGRES_RECONCILIATION_INTENT_PERSISTENCE_FAILED" in
       async_ret (event_count c)) d = (r, d') → (∃ c, r = Throw c ∧ d' = d) ∨ observed t response s d d' r).
  { destruct (observation_of t response s now) as [o|c] eqn:Eo; [|intros [= <- <-]; eauto].
    rewrite run_async_bind. cbn [run sync]. rewrite run_async_bind, run_ask. cbn [reply execute_statement].
    unfold store_observation. destruct (current_intent fence (ob_intent_id o) d) as [[i l]|] eqn:Ei;
      [destruct (path_allowed o l) eqn:Ep|]; try (intros [= <- <-]; by eauto).
    destruct (observe o l (mret (0, 0)%nat) d) as [[c d1]|c] eqn:Ec; [|intros [= <- <-]; eauto].
    intros [-> Hr]%Hstop. right. exists o, i, l, (mret (0, 0)%nat), c. split_and!; try done; [apply leaves_ret|].
    destruct r; [|done]. by apply negb_false_iff. }
  destruct (present (t_reservation_id t)) as [reservation|]; [|exact Hplain].
  destruct (seen_status s =? "partially_filled")%string; [|exact Hplain]. clear Hplain.
  destruct (partial_quantities_valid s); [|intros [= <- <-]; eauto]. rewrite run_async_bind. cbn [negb reject_if run].
  destruct (observation_of t response s now) as [o|c] eqn:Eo; [|intros [= <- <-]; eauto].
  cbn [async_ret run]. rewrite run_async_bind. cbn [run sync]. rewrite run_async_bind.
  destruct (fill_of s) as [f|c]; [|intros [= <- <-]; eauto]. cbn [sync run].
  rewrite run_async_bind, run_ask. cbn [reply execute_statement].
  unfold store_partial. destruct (current_intent fence (ob_intent_id o) d) as [[i l]|] eqn:Ei;
    [destruct (path_allowed o l) eqn:Ep|]; try (intros [= <- <-]; by eauto).
  set (x := resized ratio f (Some reservation) d). destruct (persistable f x); [|intros [= <- <-]; by eauto].
  cbn [andb]. destruct (observe o l (settle_partial x (ob_now o)) d) as [[c d1]|c] eqn:Ec; [|intros [= <- <-]; eauto].
  intros [-> Hr]%Hstop. right. exists o, i, l, (settle_partial x (ob_now o)), c.
  split_and!; try done; [apply settle_partial_untouched|]. destruct r; [|done].
  apply negb_false_iff in Hr. unfold partial_accepted in Hr. rewrite !andb_true_iff in Hr. tauto.
Qed.

(** C24: A recorded answer moves its intent along legal transitions.  When the
    answer of the broker is stored, the intent was reconcilable under the fence
    and its lifecycle was where the path starts; the rows of the path, each a
    legal transition, are appended to the log, the lifecycle and the status of the
    intent become those of the broker's status and no other intent changes.  An
    answer that is not stored leaves every intent as it was. *)
Theorem recorded_answer_moves_intent t response s d r d' :
  run (reply ratio lookup clock) (store t response s) d = (r, d') →
  match r with
  | Throw _ => intents_of d' = intents_of d ∨ ∃ o, observation_of t response s now = Ret o ∧ moved o d d'
  | Ret _ => ∃ o i l, observation_of t response s now = Ret o ∧
      current_intent fence (t_order_intent_id t) d = Some (i, l) ∧ path_allowed o l = true ∧
      Forall (λ s, snd s ∈ TradeLifecycle.transitions (fst s)) (path_steps (seen_path s)) ∧
      r_transitions d' = r_transitions d ++ path_rows o l ∧ moved o d d' ∧
      count_where (reconcilable (t_order_intent_id t)) (db_intents (rows d)) = 1%nat
  end.
Proof.
  intros [(c & -> & ->)|(o & i & l & settle & c & Eo & Ei & Ep & Hs & Ec & Hr)]%store_run; [by left|].
  pose proof (observation_of_Ret _ _ _ _ Eo) as (Hid & Hst & _). apply observe_Ret in Ec as [_ Ec]; [|done].
  destruct r as [n|code].
  - unfold counts_stored in Hr. rewrite !andb_true_iff, !Nat.eqb_eq in Hr. destruct Hr as [[_ Hu] _].
    exists o, i, l. rewrite <- Hid, <- Hst. destruct Ec as [(Hz & _)|(Hm & Ht & Hall & _ & Hn)]; [lia|].
    split_and!; try done. congruence.
  - destruct Ec as [(_ & Hi & _)|(Hm & _)]; [by left|]. right. by exists o.
Qed.

(** A used transition key blocks the reconciliation of an order.  The key of a
    transition names the broker order, the state at the end of the path and the
    position.  When an earlier pass used the first key (an exit order was
    discovered, its cancellation was asked for, and then it was filled), no answer
    of the broker can be stored: the pass fails, the intent stays where it was,
    and the key stays used, so that every later pass fails in the same way. *)
Theorem reused_transition_key_blocks t response s d r d' :
  path_steps (seen_path s) ≠ [] → used_key (t_order_intent_id t) s d = true →
  run (reply ratio lookup clock) (store t response s) d = (r, d') →
  (∃ code, r = Throw code) ∧ intents_of d' = intents_of d ∧ used_key (t_order_intent_id t) s d' = true.
Proof.
  intros Hne Hused [(c & -> & ->)|(o & i & l & settle & c & Eo & Ei & Ep & Hs & Ec & Hr)]%store_run; [by eauto|].
  pose proof (observation_of_Ret _ _ _ _ Eo) as (Hid & Hst & _ & _ & _ & Hkey).
  destruct (ob_steps o) as [|step steps] eqn:Est; [congruence|].
  pose proof Ec as Hlt. apply (observe_blocked _ _ _ _ _ _ step steps) in Hlt; [|done|done|].
  2:{ unfold used_key, first_key in Hused. unfold same_transition_key. cbn. by rewrite Hid, Hkey. }
  apply observe_Ret in Ec as [_ [(Hu & Hi & m & Hm)|(_ & _ & _ & Hfull & _)]]; [|lia|done].
  split_and!; [|done|].
  - destruct r as [n|code]; [|by eauto]. unfold counts_stored in Hr. by rewrite Hu, andb_false_r in Hr.
  - unfold used_key in *. by rewrite Hm, existsb_app, Hused.
Qed.
End store.
