(* ===== verification/PendingIntents.v ===== *)
(** Reconciliation takes no intent back to submission_pending: the statements of
    Reconciliation.v and BrokerStateSync.v, and the runs of
    [reconcilePostgresPaperOrders] that execute them. *)

From S2P Require Import Prelude.
From S2P Require Import JsNumber.
From S2P Require Import JsString.
From S2P Require Import JsText.
From S2P Require Import JsJson.
From S2P Require Import TradeLifecycle.
From S2P Require Import SchedulerLease.
From S2P Require Import ExecutionTables.
From S2P Require Import BrokerResult.
From S2P Require Import AccountSync.
From S2P Require Import Effects.
From S2P Require Import Submission.
From S2P Require Import SubmissionFacts.
From S2P Require Import SubmissionCommand.
From S2P Require Import Reconciliation.
From S2P Require Import ReconciliationCommand.
From S2P Require Import BrokerStateSync.
From S2P Require Import ObservationFacts.
Open Scope Z_scope.

(** ** Statements *)

(** Every pending intent of [l'] was a pending intent of [l]. *)
Definition no_new_pending (l l' : list IntentRow) : Prop :=
  ∀ i, In i l' → intent_status i = IntentPending → In i l.

Lemma no_new_refl l : no_new_pending l l.
Proof. by intros i. Qed.

Lemma no_new_trans l1 l2 l3 : no_new_pending l1 l2 → no_new_pending l2 l3 → no_new_pending l1 l3.
Proof. intros H1 H2 i Hi Hs. auto. Qed.

Lemma no_new_update p f l : (∀ i, intent_status (f i) ≠ IntentPending) → no_new_pending l (update_where p f l).
Proof.
  intros Hf i Hi Hs. apply update_where_In in Hi as (j & Hj & ->). destruct (p j); [by apply Hf in Hs|done].
Qed.

(** [m] makes no intent pending. *)
Definition settling {S A} (rows : S → ExecDb) (m : tx S A) : Prop :=
  ∀ d a d', m d = Ret (a, d') → no_new_pending (db_intents (rows d)) (db_intents (rows d')).

Section settling.
Context {S : Type} (tab : S → ExecDb).

Lemma settling_bind {A B} (m : tx S A) (k : A → tx S B) :
  settling tab m → (∀ a, settling tab (k a)) → settling tab (m ≫= k).
Proof. intros Hm Hk d b d' (a & d1 & H1 & H2)%tx_bind_Ret. eapply no_new_trans; [by eapply Hm|by eapply Hk]. Qed.

Lemma settling_read_only {A} (m : tx S A) : read_only m → settling tab m.
Proof. intros Hm d a d' H. rewrite (Hm _ _ _ H). apply no_new_refl. Qed.

Lemma settling_ret {A} (a : A) : settling tab (mret a).
Proof. apply settling_read_only, read_only_ret. Qed.

Lemma settling_gets {A} (f : S → A) : settling tab (gets f).
Proof. apply settling_read_only, read_only_gets. Qed.
End settling.

Lemma settling_exec {A} (m : tx ExecDb A) : keeps db_intents m → settling s_exec (exec m).
Proof. intros Hm d a d' (x & Hx & ->)%exec_Ret. cbn. rewrite (Hm _ _ _ Hx). apply no_new_refl. Qed.

Lemma settling_fenced f m : settling s_exec m → settling s_exec (fenced f m).
Proof.
  intros Hm d a d' H. unfold fenced in H. destruct (held f d); [by eapply Hm|]. injection H as _ <-. apply no_new_refl.
Qed.

Lemma settling_update_intent p f :
  (∀ i, intent_status (f i) ≠ IntentPending) → settling s_exec (update_intent p f).
Proof. intros Hf d n d' (_ & -> & _)%update_intent_Ret. by apply no_new_update. Qed.

Lemma settling_modify f : (∀ d, db_intents (s_exec (f d)) = db_intents (s_exec d)) → settling s_exec (modify f).
Proof. intros Hf d a d' [= _ <-]. rewrite Hf. apply no_new_refl. Qed.

Lemma settling_insert_event e : settling s_exec (insert_event e).
Proof. apply settling_bind; [by apply settling_exec, keeps_insert_unless|]. intros b. apply settling_ret. Qed.

Lemma settling_insert_terminal t : settling s_exec (insert_terminal t).
Proof.
  intros d a d' H. unfold insert_terminal in H. repeat case_if_in H; try done; injection H as _ <-; apply no_new_refl.
Qed.

Lemma settling_candidate f c s r now : settling s_exec (update_candidate f c s r now).
Proof. apply settling_fenced. intros d a d' [= _ <-]. apply no_new_refl. Qed.

Lemma settling_sub {A} (m : tx SubmissionDb A) : settling s_exec m → settling rows (sub m).
Proof.
  intros Hm d a d' H. unfold sub in H. destruct (m (r_sub d)) as [[b x]|] eqn:E; [|done]. injection H as <- <-.
  exact (Hm _ _ _ E).
Qed.

Lemma settling_tables {A} (m : tx ExecDb A) : keeps db_intents m → settling rows (tables m).
Proof. intros Hm. by apply settling_sub, settling_exec. Qed.

Create HintDb settling discriminated.
Hint Resolve settling_bind settling_ret settling_gets settling_insert_event settling_insert_terminal settling_candidate
  settling_sub settling_fenced settling_exec settling_tables : settling.
Hint Extern 1 (settling _ (if ?b then _ else _)) => destruct b : settling.
Hint Extern 1 (settling _ (match ?x with _ => _ end)) => destruct x : settling.
Hint Extern 1 (keeps _ _) => solve [auto with tx] : settling.
Ltac settle := solve [intros; eauto 12 with settling].

(** *** Observations *)

Lemma settling_observe o l settle d c d' :
  ob_status o ≠ IntentPending → leaves untouched settle → observe o l settle d = Ret (c, d') →
  no_new_pending (db_intents (rows d)) (db_intents (rows d')).
Proof.
  intros Hs Hl H. apply observe_Ret in H as [_ [(_ & [= -> _] & _)|([= -> _] & _)]]; [apply no_new_refl| |done].
  by apply no_new_update.
Qed.

Lemma settling_store_observation f o : ob_status o ≠ IntentPending → settling rows (store_observation f o).
Proof.
  intros Ho d c d' H. unfold store_observation in H. destruct (current_intent _ _ _) as [[i l]|];
    [|injection H as _ <-; apply no_new_refl].
  destruct (path_allowed _ _); [|injection H as _ <-; apply no_new_refl].
  by eapply settling_observe; [|apply leaves_ret|].
Qed.

Lemma settling_store_partial ratio f o id q :
  ob_status o ≠ IntentPending → settling rows (store_partial ratio f o id q).
Proof.
  intros Ho d c d' H. unfold store_partial in H. destruct (current_intent _ _ _) as [[i l]|];
    [|injection H as _ <-; apply no_new_refl].
  destruct (_ && _); [|injection H as _ <-; apply no_new_refl].
  by eapply settling_observe; [|apply settle_partial_untouched|].
Qed.

(** *** Settlements and absences *)

Lemma settling_settle_terminal f s : settling rows (settle_terminal f s).
Proof.
  assert (Hr : ∀ kind r, settling rows (settle_row s kind r)) by (intros; unfold settle_row; settle).
  intros d c d' H. unfold settle_terminal in H.
  destruct (settled_intent _ _ _); [|injection H as _ <-; apply no_new_refl].
  destruct (select_one _ (db_reservations _)); [|injection H as _ <-; apply no_new_refl].
  case_if_in H; [injection H as _ <-; apply no_new_refl|].
  destruct (select_one _ (db_allocations _)); [|injection H as _ <-; apply no_new_refl].
  destruct (settlement_candidate _ _ _ _); [|injection H as _ <-; apply no_new_refl]. by eapply Hr.
Qed.

Lemma settling_terminalize f t e now : settling rows (terminalize_absence f t e now).
Proof.
  assert (Hu : settling rows (sub (update_intent (unanswered_intent (t_order_intent_id t)) (end_intent IntentFailed now))))
    by (by apply settling_sub, settling_update_intent).
  intros d c d' H. unfold terminalize_absence in H. case_if_in H; [injection H as _ <-; apply no_new_refl|].
  revert H. match goal with |- ?m d = _ → _ => assert (settling rows m) as Hm; [|exact (Hm d c d')] end.
  apply settling_bind; [settle|]. intros n. destruct (_ =? _)%nat; [settle|].
  destruct (select_one _ (db_intents _)); [|settle]. apply settling_bind; [exact Hu|]. settle.
Qed.

(** A statement that stores an observation of a pending intent. *)
Definition stores_pending {A} (s : Statement A) : bool :=
  match s with
  | StorePartial _ o _ _ | StoreObservation _ o => bool_decide (ob_status o = IntentPending)
  | _ => false
  end.

Lemma settling_statement ratio {A} (s : Statement A) :
  stores_pending s = false → settling rows (execute_statement ratio s).
Proof.
  destruct s; cbn [stores_pending execute_statement]; intros Hs; unfold record_absence, defer_absent;
    try apply bool_decide_eq_false in Hs;
    first [settle | by apply settling_store_partial | by apply settling_store_observation
          | apply settling_settle_terminal | apply settling_terminalize].
Qed.

(** *** Mirroring the account *)

Lemma settling_sync filled_at {A} (s : SyncStatement A) : settling s_exec (execute_sync filled_at s).
Proof.
  destruct s; cbn [execute_sync].
  - unfold upsert_account. apply settling_fenced, settling_bind; [by apply settling_exec, keeps_upsert|settle].
  - unfold insert_snapshot. settle.
  - settle.
  - unfold close_positions. intros d. apply settling_fenced. settle.
  - unfold close_lifecycles. intros d. apply settling_fenced, settling_bind; [by apply settling_update_intent|].
    intros n. apply settling_bind; [by apply settling_modify|settle].
  - settle.
  - unfold upsert_position. intros d a d' H. case_if_in H; [done|]. revert H.
    apply settling_fenced, settling_bind; [by apply settling_exec, keeps_upsert|settle].
Qed.

(** ** The program *)

Section reconcile.
Context (digest : string → string) (document : json → jvalue) (localeCompare : string → string → bool).
Context (stableRecordId : string → string → string).
Context (timestamp_format other_format : string → option Z).

(** No observation of a pending intent is stored, and no external order observed. *)
Definition settling_request (X : Type) (e : ReconciliationCommand.effect X) : Prop :=
  match e with Sql s => stores_pending s = false | ObserveExternalOrder _ _ => False | _ => True end.

Local Abbreviation only := (monitored (λ (_ : unit), settling_request) (λ m _ _ _, m) tt).

Definition nothing {A} : unit → A → Prop := λ _ _, True.

Lemma only_bind {A B} (p : async ReconciliationCommand.effect A) (f : A → async _ B) :
  only p nothing → (∀ a, only (f a) nothing) → only (async_bind p f) nothing.
Proof.
  intros Hp Hf. apply monitored_async_bind. revert Hp. apply monitored_mono. by intros [] [a|c] _; [apply Hf|].
Qed.

Lemma only_prog_bind {A B} (p : prog ReconciliationCommand.effect A) (f : A → prog _ B) :
  only p nothing → (∀ a, only (f a) nothing) → only (prog_bind p f) nothing.
Proof. intros Hp Hf. apply monitored_bind. revert Hp. apply monitored_mono. intros [] a _. apply Hf. Qed.

Ltac quiet :=
  repeat first
    [ progress intros
    | apply only_bind
    | by split
    | match goal with |- monitored _ _ _ (match ?x with _ => _ end) _ => destruct x end
    | match goal with |- monitored _ _ _ (reject_if ?x _) _ => destruct x end
    | exact I ].

Lemma observation_status t response s now o :
  observation_of digest document localeCompare stableRecordId timestamp_format t response s now = Ret o →
  ob_status o ≠ IntentPending.
Proof.
  unfold observation_of. intros H. destruct (observed_order_row _ _ _ _ _) as [r|]; [|done]. injection H as <-.
  cbn. unfold intent_status_for. by destruct (is_terminal _).
Qed.

(** The statement of an observation is asked once it is made. *)
Lemma only_observed {B} t response s now (f : Observation → async ReconciliationCommand.effect B) :
  (∀ o, ob_status o ≠ IntentPending → only (f o) nothing) →
  only (async_bind (sync (observation_of digest document localeCompare stableRecordId timestamp_format t response s now)) f)
    nothing.
Proof.
  intros Hf. destruct (observation_of _ _ _ _ _ _ _ _ _) as [o|c] eqn:E; [|done]. by apply Hf, (observation_status _ _ _ _ _ E).
Qed.

Lemma only_store f now t response s :
  only (store digest document localeCompare stableRecordId timestamp_format f now t response s) nothing.
Proof.
  unfold store. destruct (present _) as [r|]; [destruct (_ =? _)%string; [apply only_bind; [quiet|intros _]|]|];
    apply only_observed; intros o Ho;
    assert (bool_decide (ob_status o = IntentPending) = false) as Hb by (by apply bool_decide_eq_false).
  - apply only_bind; [quiet|]. intros q. apply only_bind; [by split|]. quiet.
  - apply only_bind; [by split|]. quiet.
  - apply only_bind; [by split|]. quiet.
Qed.

Lemma only_absence f now t : only (recordBrokerOrderAbsence digest stableRecordId f now t) nothing.
Proof. unfold recordBrokerOrderAbsence. quiet. Qed.

Lemma only_target f now t :
  only (reconcile_target digest document localeCompare stableRecordId timestamp_format other_format f now t) nothing.
Proof.
  assert (Hf : ∀ e, only (target_failed digest stableRecordId f now t e) nothing).
  { intros e. unfold target_failed. destruct (_ && _); [|done]. apply only_prog_bind; [apply only_absence|done]. }
  split; [done|]. intros [e|response]; [apply Hf|]. apply only_prog_bind; [|intros [o|c]; [done|apply Hf]].
  unfold record_answer. apply only_bind; [quiet|]. intros s. apply only_bind; [apply only_store|].
  intros n. apply only_bind; [|quiet]. unfold settle_reservation_of. quiet.
Qed.

Lemma only_targets f now ts r :
  only (reconcile_targets digest document localeCompare stableRecordId timestamp_format other_format f now ts r) nothing.
Proof.
  revert r. induction ts as [|t ts IH]; intros r; [done|]. cbn [reconcile_targets].
  apply only_prog_bind; [apply only_target|]. intros o. apply IH.
Qed.

Lemma only_reconciliation input :
  present (ri_externalBrokerOrderId input) = None →
  only (reconcilePostgresPaperOrders digest document localeCompare stableRecordId timestamp_format other_format input)
    nothing.
Proof.
  intros He. unfold reconcilePostgresPaperOrders. rewrite He.
  apply only_bind; [quiet|]. intros now. apply only_bind; [quiet|]. intros _. apply only_bind; [quiet|]. intros ts.
  apply only_bind; [apply only_prog_bind; [apply only_targets|done]|]. intros result.
  destruct (ri_syncBrokerState input); [|done]. apply only_prog_bind; [quiet|]. by intros [u|c].
Qed.
End reconcile.
