(* ===== verification/SubmissionLiveness.v ===== *)
(** A runner of SubmissionCommand.v leaves no order in limbo: from the claim on,
    whatever the broker and the market data answer and whatever else the
    database is used for, the intent ends in a status other than
    submission_pending, when the runner lives to the end of its run, its
    transactions are executed and answered, it keeps its lease, and nobody else
    touches the intent. *)

From S2P Require Import Prelude.
From S2P Require Import JsString.
From S2P Require Import JsNumber.
From S2P Require Import JsText.
From S2P Require Import JsJson.
From S2P Require Import TradeLifecycle.
From S2P Require Import SchedulerLease.
From S2P Require Import ExecutionTables.
From S2P Require Import ExecutionReservation.
From S2P Require Import BrokerResult.
From S2P Require Import SubmissionEvidence.
From S2P Require Import Effects.
From S2P Require Import Submission.
From S2P Require Import SubmissionFacts.
From S2P Require Import Reconciliation.
From S2P Require Import ReconciliationCommand.
From S2P Require Import BrokerStateSync.
From S2P Require Import PendingIntents.
From S2P Require Import SubmissionCommand.
From S2P Require Import AlpacaClient.
From S2P Require Import SubmissionRuns.
Open Scope Z_scope.

Section undisturbed.
Context (env : Environment).
Context (digest : string → string) (hmac : string → string → string) (document : json → jvalue).
Context (localeCompare : string → string → bool) (numeric_ratio : Q → Q → Q) (filled_at : OrderRow → option Z).
Context (stableRecordId : string → string → string) (timestamp_format : string → option Z).
Context (other_format : string → option Z) (optionsQuoteMaxAgeMs : number).

(** The intent of the row is not pending. *)
Definition decided (row : AutonomousExecutionIntentRow) (d : SubmissionDb) : Prop :=
  ∀ i, In i (db_intents (s_exec d)) → intent_id i = row_order_intent_id row → intent_status i ≠ IntentPending.

(** The identifier of the event that records a failure at time [t]. *)
Definition failure_id (scope : string) (row : AutonomousExecutionIntentRow) (t : Z) : string :=
  ("broker_event_" ++ stableRecordId scope
     (row_account_id row ++ ":" ++ row_client_order_id row ++ ":" ++ iso_text t))%string.

Definition failure_scopes : list string :=
  ["alpaca_broker_submission_ambiguous"; "alpaca_broker_submission_rejected"]%string.

(** ** The outside of the run *)

(** The row of the intent. *)
Definition intent_rows (row : AutonomousExecutionIntentRow) (d : SubmissionDb) : list IntentRow :=
  List.filter (λ i, (intent_id i =? row_order_intent_id row)%string) (db_intents (s_exec d)).

(** What other processes, and time, may do to the database while the run goes on:
    anything that lets the lease of the run stand and leaves alone the row of the
    intent, the row of its candidate and the events that record failures of its
    submission. *)
Record left_alone (fence : SchedulerFence) (row : AutonomousExecutionIntentRow) (d d' : SubmissionDb) : Prop := {
  la_ids : NoDup (intent_ids d) → NoDup (intent_ids d');
  la_held : held fence d = true → held fence d' = true;
  la_intent : intent_rows row d' = intent_rows row d;
  la_candidate : ∀ c, present (row_candidate_id row) = Some c →
    List.filter (λ x, (cand_id x =? c)%string) (s_candidates d') =
    List.filter (λ x, (cand_id x =? c)%string) (s_candidates d);
  la_failures : ∀ scope t, In scope failure_scopes →
    has_event (failure_id scope row t) d' = has_event (failure_id scope row t) d
}.

Lemma left_alone_refl fence row d : left_alone fence row d d.
Proof. by split. Qed.

Section outside.
Context (fence : SchedulerFence) (row : AutonomousExecutionIntentRow).

(** Account and positions are mirrored by the statements of BrokerStateSync.v. *)
Definition mirrors (d d' : SubmissionDb) : Prop :=
  (∃ A (s : SyncStatement A) a, execute_sync filled_at s d = Ret (a, d')) ∨ left_alone fence row d d'.

(** The reconciliation the recovery calls: its statements are executed and
    answered, and its lookup is answered with the order that was found. *)
Definition reconcile_answered (response : BrokerResponse) (X : Type) (e : ReconciliationCommand.effect X)
    : ReconcileDb → X → ReconcileDb → Prop :=
  match e in ReconciliationCommand.effect X return ReconcileDb → X → ReconcileDb → Prop with
  | Sql s => λ d x d',
      match execute_statement numeric_ratio s d with
      | Ret (a, d1) => x = Ret a ∧ d' = d1
      | Throw c => x = Throw c ∧ d' = d
      end
  | ReconciliationCommand.LookupOrder _ => λ d x d', x = inr response ∧ d' = d
  | SyncBrokerState _ => λ d _ d', ∃ x, rtc mirrors (r_sub d) x ∧ d' = set_sub x d
  | _ => λ d _ d', d' = d
  end.

Definition reconciles (clientOrderId : string) (response : BrokerResponse) (d d' : SubmissionDb) : Prop :=
  ∃ sync transitions cutover r e,
    runs (reconcile_answered response) (λ a b, left_alone fence row (r_sub a) (r_sub b))
      (reconcilePostgresPaperOrders digest document localeCompare stableRecordId timestamp_format other_format
         {| ri_fence := fence; ri_now := None; ri_externalBrokerOrderId := None; ri_syncBrokerState := sync;
            ri_clientOrderId := Some clientOrderId |})
      {| r_sub := d; r_transitions := transitions; r_cutover := cutover |} r e ∧ d' = r_sub e.

(** Transactions are executed and answered; the reconciliation is the program;
    everybody else answers as in SubmissionRuns.v. *)
Definition answered_handle (X : Type) (e : effect X) : World → X → World → Prop :=
  match e in effect X return World → X → World → Prop with
  | Database o => λ w x w',
      match perform digest hmac document stableRecordId timestamp_format o (db w) with
      | Ret (a, d) => x = Ret a ∧ w' = with_db w d
      | Throw c => x = Throw c ∧ w' = w
      end
  | ReconcileOrders id r => λ w _ w', ∃ d, reconciles id r (db w) d ∧ w' = with_db w d
  | e => handle env digest hmac document stableRecordId timestamp_format _ e
  end.

Definition apart (w w' : World) : Prop := left_alone fence row (db w) (db w').

(** Runs of a part of the command. *)
Definition goes {A} : prog effect A → World → A → World → Prop := runs answered_handle apart.
End outside.

(** A pending intent of a runner that holds its fence; no failure of it has been
    recorded from [now] on. *)
Record limbo (fence : SchedulerFence) (row : AutonomousExecutionIntentRow) (now : Z) (d : SubmissionDb) : Prop := {
  limbo_ids : NoDup (intent_ids d);
  limbo_held : held fence d = true;
  limbo_pending : pending_intent row now d;
  limbo_candidate : candidate_known row d;
  limbo_fresh : ∀ scope t, In scope failure_scopes → now <= t → has_event (failure_id scope row t) d = false
}.

Lemma limbo_later fence row now t d : limbo fence row now d → now <= t → limbo fence row t d.
Proof.
  intros [Hn Hh (i & Hi & Hid & Hs & Hc & Hok) Hk Hf] Ht. split; try done.
  - exists i. split_and!; try done. lia.
  - intros scope u Hs' Hu. apply Hf; [done|lia].
Qed.

Lemma decided_later fence row d d' : left_alone fence row d d' → decided row d → decided row d'.
Proof.
  intros [_ _ Hi _ _] Hd i Hin Hid. apply Hd; [|done].
  assert (In i (intent_rows row d')) as H by (apply filter_In; split; [done|by apply String.eqb_eq]).
  rewrite Hi in H. by apply filter_In in H as [? _].
Qed.

Lemma limbo_apart fence row now d d' : left_alone fence row d d' → limbo fence row now d → limbo fence row now d'.
Proof.
  intros [Hids Hheld Hrow Hcand Hev] [Hn Hh (i & Hi & Hid & Hs) Hk Hf]. split; [auto..| | |].
  - exists i. split; [|by split].
    assert (In i (intent_rows row d)) as H by (apply filter_In; split; [done|by apply String.eqb_eq]).
    rewrite <- Hrow in H. by apply filter_In in H as [? _].
  - intros c Hc. rewrite <- (Hk c Hc). unfold count_where. specialize (Hcand c Hc).
    assert (He : ∀ l : list CandidateRow, List.filter (λ x, (cand_id x =? c)%string && (cand_decision x =? "selected")%string) l
      = List.filter (λ x, (cand_decision x =? "selected")%string) (List.filter (λ x, (cand_id x =? c)%string) l)).
    { induction l as [|x l IH]; [done|]. cbn. destruct (cand_id x =? c)%string; cbn; [|done].
      destruct (_ =? "selected")%string; by rewrite IH. }
    by rewrite !He, Hcand.
  - intros scope t Hscope Ht. rewrite Hev by done. by apply Hf.
Qed.

(** Digests have no blank text. *)
Hypothesis digest_text : ∀ s, btrim_nonempty (digest s) = true.
(** Attempts and failures are digests of different scopes. *)
Hypothesis scopes_differ : ∀ scope key key', In scope failure_scopes →
  stableRecordId "alpaca_broker_submission_attempt" key ≠ stableRecordId scope key'.

Lemma with_intent_decided row f d :
  (∀ i, intent_id (f i) = intent_id i) → (∀ i, intent_status (f i) ≠ IntentPending) →
  decided row (with_intent (row_order_intent_id row) f d).
Proof.
  intros Hid Hs i Hi Hrow. unfold with_intent in Hi. cbn -[update_where] in Hi.
  apply in_map_iff in Hi as (j & <- & Hj). destruct (intent_id j =? row_order_intent_id row)%string eqn:E; [done|].
  by apply String.eqb_neq in E.
Qed.

Lemma btrim_prefix a b : btrim_nonempty a = true → btrim_nonempty (a ++ b)%string = true.
Proof.
  unfold btrim_nonempty. induction a as [|c a IH]; [done|].
  change ((String c a ++ b)%string) with (String c (a ++ b)%string). cbn [string_forall].
  destruct (Ascii.eqb " " c); [exact IH|done].
Qed.

Lemma submission_event_checks id type row status classification retryable fields t :
  btrim_nonempty status = true →
  event_checks (submission_event digest id type row None None status classification retryable fields t t) = true.
Proof using digest_text.
  intros Hs. unfold event_checks, submission_event. cbn [event_id event_status event_response_fingerprint
    event_http_status event_occurred_at event_received_at].
  rewrite (btrim_prefix "broker_event_") by done. unfold canonicalJsonHash. rewrite Hs, digest_text, Z.leb_refl. done.
Qed.

Lemma release_decided fence row now reason d :
  limbo fence row now d → ∃ d', releaseClaim fence row now reason d = Ret (tt, d') ∧ decided row d'.
Proof.
  intros []. destruct (releaseClaim_go fence row now reason d) as [cs Hcs]; try done.
  eexists. split; [exact Hcs|]. by apply (with_intent_decided row).
Qed.

(** The statements of a failure: the intent moves and its event is added. *)
Lemma failure_writes fence row t d f g scope type status classification retryable fields c1 c2 :
  limbo fence row t d → In scope failure_scopes → btrim_nonempty status = true →
  (∀ i, intent_id (f i) = intent_id i) → (∀ i, intent_status (f i) ≠ IntentPending) →
  (∀ i, intent_times_ok i = true → intent_created_at i <= t → intent_times_ok (f i) = true) →
  ∃ d1 d2, require_one c1 (move_intent fence (row_order_intent_id row) IntentPending f g) d = Ret (tt, d1) ∧
    require_one c2 (fenced fence (insert_event
      (submission_event digest (stableRecordId scope (row_account_id row ++ ":" ++ row_client_order_id row ++ ":" ++ iso_text t))
         type row None None status classification retryable fields t t))) d1 = Ret (tt, d2) ∧
    decided row d2 ∧ held fence d2 = true ∧ s_candidates d2 = s_candidates d ∧
    db_intents (s_exec d2) = db_intents (s_exec (with_intent (row_order_intent_id row) f d)) ∧
    db_orders (s_exec d2) = db_orders (s_exec d) ∧ db_reservations (s_exec d2) = db_reservations (s_exec d).
Proof using digest_text.
  intros [Hn Hh (i & Hi & Hid & Hs & Hc & Hok) Hk Hf] Hscope Hst Hfid Hfs Hft.
  do 2 eexists. split; [|split].
  - apply require_one_Ret. apply (move_intent_go _ _ _ _ _ _ i); auto.
  - apply require_one_Ret, fenced_one. split; [exact Hh|].
    apply insert_event_go; [|by apply submission_event_checks]. by apply (Hf scope t); [|lia].
  - split; [|done]. by apply (with_intent_decided row).
Qed.

Lemma fail_decided fence row receipt error t d :
  limbo fence row t d →
  ∃ r d', recordDeterministicSubmissionFailure digest stableRecordId row receipt error fence t d = Ret (r, d') ∧
    decided row d' ∧
    db_intents (s_exec d') = db_intents (s_exec (with_intent (row_order_intent_id row) (end_intent IntentFailed t) d)) ∧
    db_orders (s_exec d') = db_orders (s_exec d) ∧ db_reservations (s_exec d') = db_reservations (s_exec d).
Proof using digest_text.
  intros Hl. unfold recordDeterministicSubmissionFailure.
  edestruct (failure_writes fence row t d (end_intent IntentFailed t) (in_state "failed_terminal")
    "alpaca_broker_submission_rejected" "order_submission" "submission_rejected") as (d1 & d2 & H1 & H2 & Hd & _ & _ & Ht); try done.
  { right. by left. }
  { intros. by apply times_ended. }
  eexists _, d2. split; [|by split]. apply tx_bind_Ret. exists tt, d1. split; [exact H1|].
  apply tx_bind_Ret. exists tt, d2. split; [exact H2|]. done.
Qed.

Lemma ambiguous_decided fence row receipt error t classification d :
  limbo fence row t d →
  ∃ d', recordAmbiguousSubmission digest stableRecordId row receipt error fence t classification d = Ret (receipt, d') ∧
    decided row d'.
Proof using digest_text.
  intros Hl. unfold recordAmbiguousSubmission.
  edestruct (failure_writes fence row t d (set_intent_status IntentAmbiguous t) (in_state (ambiguous_state row))
    "alpaca_broker_submission_ambiguous" "order_submission" (outcome_name (outcomeClassification receipt)))
    as (d1 & d2 & H1 & H2 & Hd & Hh & Hcs & _); try done.
  { by left. }
  { by destruct (outcomeClassification receipt). }
  { intros. by apply times_after. }
  destruct (stage_go fence t row "execution_ambiguous" "POSTGRES_BROKER_SUBMISSION_AMBIGUOUS" d2) as [cs Hst]; [done| |].
  { destruct Hl as [_ _ _ Hk _]. intros c Hc. rewrite Hcs. by apply Hk. }
  eexists. split; [apply tx_bind_Ret; exists tt, d1; split; [exact H1|]; apply tx_bind_Ret; exists tt, d2;
    split; [exact H2|]; apply tx_bind_Ret; eexists tt, _; split; [exact Hst|done]|]. exact Hd.
Qed.

Lemma limbo_attempt fence row payload command now context d receipt d' :
  limbo fence row now d →
  recordSubmissionAttempt digest stableRecordId row payload command fence now context d = Ret (receipt, d') →
  limbo fence row now d'.
Proof using scopes_differ.
  intros [Hn Hh (i & Hi & Hid & Hs & Hc & Hok) Hk Hf] H. unfold recordSubmissionAttempt in H.
  apply tx_bind_Ret in H as (r & d0 & [_ ->]%lift_Ret & H).
  apply tx_bind_Ret in H as (? & d1 & [_ He%insert_event_true]%require_one_Ret%fenced_one & H). subst d1.
  apply tx_bind_Ret in H as (? & d2 & Hm%require_one_Ret & H).
  apply move_intent_one in Hm as [-> _]; [|done]. injection H as _ <-.
  split; [|done| |done|].
  - change (NoDup (intent_ids (with_intent (row_order_intent_id row) (set_intent_status IntentPending now) d))).
    by rewrite with_intent_ids.
  - exists (set_intent_status IntentPending now i). split_and!; [|done..|by apply times_after].
    unfold with_intent. cbn -[update_where]. apply in_map_iff. exists i. by rewrite Hid, String.eqb_refl.
  - intros scope t Hscope Ht. pose proof (Hf scope t Hscope Ht) as Hfresh. unfold has_event in *.
    change (db_events _) with (db_events (s_exec d) ++ [attempt_event digest stableRecordId row r now]).
    rewrite existsb_app, Hfresh. cbn [existsb orb]. rewrite orb_false_r. apply String.eqb_neq.
    intros E%(inj (String.append "broker_event_")). by apply scopes_differ in E.
Qed.

Lemma limbo_claim command fence now expected d row d' :
  NoDup (intent_ids d) → claimIntent document command fence now expected d = Ret (row, d') → candidate_known row d →
  (∀ i, In i (db_intents (s_exec d)) → intent_created_at i <= now ∧ intent_times_ok i = true) →
  (∀ scope t, In scope failure_scopes → now <= t → has_event (failure_id scope row t) d = false) →
  limbo fence row now d'.
Proof.
  intros Hn H Hk Ht Hf. pose proof H as H'. apply claimed_authorized in H' as [i [Hi Hs Hh _ _ _ [Hid _]]].
  injection Hid as Hid _ _. destruct (Ht i Hi) as [Hc Hok].
  apply claimIntent_Ret in H as (? & _ & _ & _ & _ & _ & Hu).
  apply (update_intent_one _ _ _ _ _ (row_order_intent_id row)) in Hu as [-> _]; try done.
  2: { intros j Hj. unfold claims in Hj. by apply andb_true_iff in Hj as [[? _]%in_status_true _]. }
  split; [by rewrite with_intent_ids|done| |done|done].
  exists (set_intent_status IntentPending now i). split_and!; [|done..|by apply times_after].
  unfold with_intent. cbn -[update_where]. apply in_map_iff. exists i. by rewrite Hid, String.eqb_refl.
Qed.

(** *** The recovery makes no intent pending *)

Lemma record_recovery_intents row receipt o b s f now d r d' :
  record_recovery digest stableRecordId row receipt o b s f now d = Ret (r, d') →
  db_intents (s_exec d') = db_intents (s_exec d).
Proof.
  unfold record_recovery, recordReconciledSubmissionReceipt, consume_evidence.
  intros (? & d1 & H & (? & d2 & [cs ->]%stage_tables & H2)%tx_bind_Ret)%tx_bind_Ret. injection H2 as _ <-.
  apply tx_bind_Ret in H as (? & d3 & [_ ->%insert_event_true]%require_one_Ret%fenced_one & H).
  apply tx_bind_Ret in H as (? & d4 & H & H3). injection H3 as _ <-.
  apply tx_bind_Ret in H as (? & d5 & [-> _]%require_one_Ret%consume_one & H).
  by apply require_one_Ret, consume_confirmed_one in H as [-> _].
Qed.

Lemma no_new_decided row d d' :
  no_new_pending (db_intents (s_exec d)) (db_intents (s_exec d')) → decided row d → decided row d'.
Proof. intros Hn Hd i Hi Hid Hs. by apply (Hd i); [apply Hn|..]. Qed.

Lemma mirrors_decided fence row d d' : rtc (mirrors fence row) d d' → decided row d → decided row d'.
Proof.
  induction 1 as [|d1 d2 d3 [(A & s & a & H)|H] _ IH]; [done|..]; intros Hd; apply IH.
  - eapply no_new_decided; [by eapply settling_sync|done].
  - by eapply decided_later.
Qed.

Lemma reconciles_decided fence row id r d d' : reconciles fence row id r d d' → decided row d → decided row d'.
Proof.
  intros (sync & ts & cut & res & e & Hr & ->) Hd.
  refine (runs_monitored _ _ _ _ (λ x, decided row (r_sub x)) tt _ _ _ _ _ _ _ (only_reconciliation _ _ _ _ _ _ _ _) Hr Hd);
    [|intros x y Hx Hy; by eapply decided_later|done].
  intros _ X f x a y Hf Hx. destruct f; cbn [reconcile_answered]; try by intros ->.
  - destruct (execute_statement _ _ _) as [[b z]|c] eqn:E; [|by intros [_ ->]]. intros [_ ->].
    eapply no_new_decided; [|done]. by eapply settling_statement.
  - by intros [_ ->].
  - intros (z & Hz & ->). by eapply mirrors_decided.
Qed.

Lemma recovery_decided input row now summary receipt w r w' :
  decided row (db w) → goes (fence input) row (recoverSubmission input row now summary receipt) w r w' →
  decided row (db w').
Proof.
  intros Hd Hr. refine (runs_monitored _ _ (λ _, recovery_request) (λ m _ _ _, m) (λ w, decided row (db w)) tt
    _ (λ _ _, True) _ _ _ _ _ (monitored_recoverSubmission _ _ _ _ _ _ _ _ _) Hr Hd); [..|done].
  - intros _ X e v x v' He Hv. destruct e; try done; cbn [answered_handle handle]; try by intros ->.
    + destruct o; try done; destruct (perform _ _ _ _ _ _ _) as [[y d]|] eqn:E; intros [_ ->]; try done.
      * cbn [db with_db]. apply record_recovery_intents in E. unfold decided. by rewrite E.
      * injection E as _ <-. done.
    + intros (d & Hrec & ->). by eapply reconciles_decided.
  - intros v v' Hv Ha. by eapply decided_later.
Qed.

(** *** From the claim on *)

Lemma run_release {A} input row now error w (r : res A) w' :
  limbo (fence input) row now (db w) → goes (fence input) row (release_and_rethrow input row now error) w r w' →
  decided row (db w').
Proof.
  intros Hl (x & w1 & w2 & Hx & Ho & Hr)%runs_ask_bind.
  destruct (release_decided _ _ _ (str_take 240 error) _ Hl) as (d' & He & Hd).
  cbn [answered_handle] in Hx. unfold perform, execute in Hx. rewrite He in Hx. destruct Hx as [-> ->].
  destruct Hr as [_ ->]. by eapply decided_later.
Qed.

Lemma run_ambiguous input row t summary receipt receipt' error classification now w r w' :
  limbo (fence input) row t (db w) →
  goes (fence input) row (let! _ := ask (Database (Ambiguous row receipt error (fence input) t classification)) in
                          recoverSubmission input row now summary receipt') w r w' →
  decided row (db w').
Proof using digest_text.
  intros Hl (x & w1 & w2 & Hx & Ho & Hr)%runs_ask_bind.
  destruct (ambiguous_decided _ _ receipt error _ classification _ Hl) as (d' & He & Hd).
  cbn [answered_handle] in Hx. unfold perform, execute in Hx. rewrite He in Hx. destruct Hx as [-> ->].
  eapply recovery_decided; [|exact Hr]. by eapply decided_later.
Qed.

Lemma run_failed input row now summary receipt error w r w' :
  limbo (fence input) row now (db w) →
  goes (fence input) row (submission_failed input row now summary receipt error) w r w' → decided row (db w').
Proof using digest_text.
  intros Hl (clock & w1 & w2 & Hx & Ho & Hr)%runs_ask_value. cbn [answered_handle handle] in Hx. subst w1.
  assert (Hf : limbo (fence input) row (Z.max clock now) (db w2))
    by (eapply limbo_later; [by eapply limbo_apart|lia]).
  destruct (negb _); [|by eapply run_ambiguous]. apply runs_ask_bind in Hr as (x & w3 & w4 & Hx & Ho' & Hr).
  destruct (fail_decided _ _ receipt (error_message error) _ _ Hf) as (y & d' & He & Hd & _).
  cbn [answered_handle] in Hx. unfold perform, execute in Hx. rewrite He in Hx. destruct Hx as [-> ->].
  destruct Hr as [_ ->]. by eapply decided_later.
Qed.

Lemma submitted_decided row response fence0 at_ d d' :
  submission_stored row response fence0 at_ d d' → decided row d'.
Proof.
  intros [_ _ Hi _ _ _ _ _] i Hin Hid. rewrite Hi in Hin. apply in_map_iff in Hin as (j & <- & _).
  destruct (intent_id j =? row_order_intent_id row)%string eqn:E; [|by apply String.eqb_neq in E].
  unfold submitted_intent. cbn. destruct (is_some_bool _); [|done]. by case_bool_decide.
Qed.

Lemma run_answered input row now summary receipt response w r w' :
  limbo (fence input) row now (db w) →
  goes (fence input) row (submission_answered other_format input row now summary receipt response) w r w' →
  decided row (db w').
Proof using digest_text.
  intros Hl (clock & w1 & w2 & Hx & Ho & Hr)%runs_ask_value. cbn [answered_handle handle] in Hx. subst w1.
  set (at_ := acknowledgement_time other_format clock now response) in Hr.
  assert (now <= at_) as Hat by (unfold at_, acknowledgement_time; destruct (broker_time other_format response); lia).
  assert (Hf : limbo (fence input) row at_ (db w2)) by (eapply limbo_later; [by eapply limbo_apart|done]).
  apply runs_ask_then in Hr as (x & w3 & w4 & Hx & Ho' & Hr). cbn [answered_handle] in Hx.
  destruct (perform _ _ _ _ _ _ _) as [[recorded d']|c] eqn:E; destruct Hx as [-> ->].
  - destruct Hr as [_ ->]. apply submission_recorded in E; [|apply Hf]. apply submitted_decided in E.
    by eapply decided_later.
  - eapply run_ambiguous; [|exact Hr]. by eapply limbo_apart.
Qed.

Lemma run_checked input row broker now fence0 t w r w' :
  limbo fence0 row t (db w) →
  goes fence0 row (checked_payload other_format optionsQuoteMaxAgeMs input row broker now) w r w' →
  limbo fence0 row t (db w').
Proof.
  intros Hl Hr. refine (runs_monitored _ _ (λ (_ : unit) X e, match e with CheckAsset _ => True | _ => False end)
    (λ m _ _ _, m) (λ w, limbo fence0 row t (db w)) tt _ (λ _ _, True) _ _ _ _ _ _ Hr Hl).
  - intros _ X e v x v' He Hv. destruct e; try done. cbn [answered_handle handle]. by intros ->.
  - intros v v' Hv Ha. by eapply limbo_apart.
  - apply monitored_async_bind. destruct (_ && _); [done|]. cbn [reject_if async_ret monitored]. apply monitored_async_bind.
    destruct (_ && _); [|done]. apply monitored_async_bind, monitored_ask; [done|]. intros [a|c]; [|done].
    by destruct (_ || _).
Qed.

(** C25: No order is left in limbo.  Take a run of the command from the claim of
    an intent on, to its end: whatever the asset check, the broker client and the
    lookups answer, whatever the clock says, and whatever other processes do to
    the database between its requests; its transactions are executed and
    answered, and the recovery reconciles by running
    reconcilePostgresPaperOrders.  As long as the lease of the run stands and the
    other processes leave alone the row of the intent, the row of its candidate and
    the failure events of this submission, the intent is not submission_pending
    when the run ends: it was given back, submitted, failed, or is ambiguous or
    reconciled. *)
Theorem undisturbed_submission_settles input broker now ready confirmable promoted row w d r w' :
  NoDup (intent_ids (db w)) →
  claimIntent document (command input) (fence input) now (expectedPayloadSignature input) (db w) = Ret (row, d) →
  candidate_known row (db w) →
  (∀ i, In i (db_intents (s_exec (db w))) → intent_created_at i <= now ∧ intent_times_ok i = true) →
  (∀ scope t, In scope failure_scopes → now <= t → has_event (failure_id scope row t) (db w) = false) →
  goes (fence input) row (submit_next other_format optionsQuoteMaxAgeMs input broker now ready confirmable promoted) w r w' →
  decided row (db w').
Proof using digest_text scopes_differ.
  intros Hn Hc Hk Ht Hf Hr. assert (Hl : limbo (fence input) row now (db (with_db w d))) by by eapply limbo_claim.
  apply runs_ask_bind in Hr as (x & w1 & w2 & Hx & Ho & Hr). cbn [answered_handle] in Hx.
  unfold perform, execute in Hx. rewrite Hc in Hx. destruct Hx as [-> ->].
  apply (limbo_apart _ _ _ _ _ Ho) in Hl. unfold try_catch in Hr. apply runs_bind in Hr as (y & w3 & Hck & Hr).
  apply run_checked with (t := now) in Hck; [|done]. destruct y as [payload|error]; [|eapply run_release; [exact Hck|exact Hr]].
  unfold submit_claimed, try_catch in Hr. apply runs_ask_then in Hr as (z & w4 & w5 & Hx & Ho' & Hr).
  cbn [answered_handle] in Hx. destruct (perform _ _ _ _ _ _ _) as [[receipt d2]|error] eqn:E; destruct Hx as [-> ->];
    [|eapply run_release; [eapply limbo_apart; [exact Ho'|exact Hck]|exact Hr]].
  apply limbo_attempt in E; [|done]. apply (limbo_apart _ _ _ _ _ Ho') in E.
  destruct Hr as (answer & w6 & w7 & (fs & _ & ->) & Ho2 & Hr).
  apply (limbo_apart _ _ _ _ _ Ho2) in E.
  destruct answer; [eapply run_failed; [exact E|exact Hr]|eapply run_answered; [exact E|exact Hr]].
Qed.
End undisturbed.
