(* ===== verification/SubmissionRetry.v ===== *)
(** What the retries of AlpacaClient.v do to a submission: the command of
    SubmissionCommand.v, run against a broker that loses one answer.

    A small account on which the properties of the submission are exercised: one
    reviewed and confirmed limit order with its reservation, claimed, submitted,
    answered, lost and given back. *)
From S2P Require Import Prelude.
From S2P Require Import JsNumber.
From S2P Require Import JsString.
From S2P Require Import JsText.
From S2P Require Import TradeLifecycle.
From S2P Require Import SchedulerLease.
From S2P Require Import ExecutionTables.
From S2P Require Import ExecutionReservation.
From S2P Require Import BrokerResult.
From S2P Require Import ExecutionEvidence.
From S2P Require Import AccountSync.
From S2P Require Import ExecutionInvariants.
From S2P Require Import ExecutionWitnesses.
From S2P Require Import JsJson.
From S2P Require Import SubmissionEvidence.
From S2P Require Import Effects.
From S2P Require Import Submission.
From S2P Require Import SubmissionFacts.
From S2P Require Import Reconciliation.
From S2P Require Import ReconciliationCommand.
From S2P Require Import BrokerStateSync.
From S2P Require Import AlpacaClient.
From S2P Require Import SubmissionCommand.
From S2P Require Import SubmissionRuns.
From S2P Require Import SubmissionLiveness.

Open Scope Z_scope.

(** *** One run on its own *)

Section alone.
Context (digest : string → string) (hmac : string → string → string) (document : json → jvalue).
Context (stableRecordId : string → string → string) (timestamp_format : string → option Z).
(** What everybody but the database answers, what a call sends, and what the
    reconciliation does. *)
Context (answers : ∀ X, effect X → X) (posts : AlpacaPaperOrderRequest → list (HttpRequest * HttpOutcome)).
Context (reconcile : string → BrokerResponse → SubmissionDb → SubmissionDb).

(** Transactions are executed and answered. *)
Definition healthy (X : Type) (e : effect X) : World → X * World :=
  match e in effect X return World → X * World with
  | Database o => λ w,
      match perform digest hmac document stableRecordId timestamp_format o (db w) with
      | Ret (a, d) => (Ret a, with_db w d)
      | Throw c => (Throw c, w)
      end
  | SubmitOrder p => λ w, (answers _ (SubmitOrder p), with_call w p (posts p))
  | ReconcileOrders id r => λ w, (answers _ (ReconcileOrders id r), with_db w (reconcile id r (db w)))
  | e => λ w, (answers _ e, w)
  end.
End alone.

Definition paper_safety : TradingSafetyState :=
  {| alpacaEnv := env_paper; AlpacaClient.liveTradingEnabled := false; paperOnly := true; mutationAllowed := false;
     liveMutationAllowed := false |}.

(** C27: A submission whose first answer is lost is recorded as failed although
    the order is live.  The client repeats the POST when no answer came; the
    broker accepted the first one and refuses the second for its client order id,
    status 422; the command takes that for a rejection.  The intent is failed,
    no order is recorded, the reservation stays as it was, and the broker has
    accepted the order. *)
Theorem retried_submission_fails_live_order digest hmac document stableRecordId timestamp_format other_format
    (answers : ∀ X, effect X → X) posts reconcile env credentials order input row payload now summary w receipt d :
  (∀ s, btrim_nonempty (digest s) = true) →
  (∀ scope key key', In scope failure_scopes →
     stableRecordId "alpaca_broker_submission_attempt" key ≠ stableRecordId scope key') →
  getTradingSafetyState env = paper_safety → getAlpacaPaperCredentials env = Ret credentials →
  1 <= parseRetryCount env →
  limbo stableRecordId (fence input) row now (db w) →
  recordSubmissionAttempt digest stableRecordId row payload (command input) (fence input) now (command_context input)
    (db w) = Ret (receipt, d) →
  let posted := run (serve (p_client_order_id payload) order) (submitPaperOrder env payload)
                  {| accepted := []; losing := 1 |} in
  answers _ (SubmitOrder payload) = submission_answer posted.1 →
  let w' := (run (healthy digest hmac document stableRecordId timestamp_format answers posts reconcile)
               (submit_claimed other_format input row payload now summary) w).2 in
  accepted posted.2 = [p_client_order_id payload] ∧
  (∀ i, In i (db_intents (s_exec (db w'))) → intent_id i = row_order_intent_id row → intent_status i = IntentFailed) ∧
  db_orders (s_exec (db w')) = db_orders (s_exec d) ∧
  db_reservations (s_exec (db w')) = db_reservations (s_exec d).
Proof.
  intros Hdig Hsc Hs Hc Hr Hl Ha posted Hans.
  pose proof (retried_post_refused env payload order credentials Hs Hc Hr) as Hp. fold posted in Hp.
  destruct posted as [r b]. destruct Hp as (Hb & e & -> & Hamb). cbn [fst snd submission_answer] in *.
  unfold submit_claimed, try_catch. rewrite run_bind, run_ask. cbn [healthy]. unfold perform, execute.
  unfold command_context in Ha. rewrite Ha. cbn [run healthy]. rewrite Hans.
  unfold submission_failed. rewrite run_async_bind. unfold ask_value. cbn [run healthy]. rewrite Hamb. cbn [negb].
  set (t := Z.max (answers Z Clock) now).
  assert (Ht : limbo stableRecordId (fence input) row t d).
  { apply (limbo_later _ _ _ now); [by eapply limbo_attempt|unfold t; lia]. }
  destruct (fail_decided digest stableRecordId Hdig _ _ receipt (error_message (broker_error e)) t d Ht)
    as (r & d' & Hf & _ & Hi & Ho & Hv).
  rewrite run_async_bind, run_ask. cbn [healthy db]. unfold perform, execute. cbn [with_call with_db db]. rewrite Hf.
  cbn [run reject snd db with_db]. split_and!; [done| |done|done].
  rewrite Hi. intros i Hin Hid. unfold with_intent in Hin. cbn -[update_where] in Hin.
  apply in_map_iff in Hin as (j & <- & _). destruct (intent_id j =? row_order_intent_id row)%string eqn:E; [done|].
  by apply String.eqb_neq in E.
Qed.

Open Scope Z_scope.

(** Digests are their text, record ids the scope and the key; the documents are
    the ones of this account. *)
Definition demo_digest (s : string) : string := ("d" ++ s)%string.
Definition demo_hmac (k s : string) : string := (k ++ s)%string.
Definition demo_stable (scope key : string) : string := (scope ++ ":" ++ key)%string.
Definition no_time : string → option Z := λ _, None.

Definition demo_document (s : json) : jvalue :=
  if (s =? "order")%string then
    JObj [("clientOrderId", JStr "client1"); ("symbol", JStr "SPY"); ("assetClass", JStr "equity"); ("side", JStr "buy");
      ("operation", JStr "buy_to_open"); ("orderType", JStr "limit"); ("timeInForce", JStr "day");
      ("strategyKey", JStr "core"); ("quantity", JStr "1"); ("limitPrice", JStr "300")]%string
  else if (s =? "market")%string then
    JObj [("symbol", JStr "SPY"); ("referencePrice", JNum "299.5"); ("timestamp", JStr "1970-01-01T00:00:00.050Z")]%string
  else if (s =? "[]")%string then JArr []
  else if (s =? "snapshot")%string then JObj [("structuralPortfolioFingerprint", JStr "portfolio")]%string
  else JObj [].

Definition demo_review : ReviewRow :=
  {| review_input :=
       {| rv_id := "review1"; rv_reviewType := ReviewEntry; rv_status := ReviewValid;
          rv_clientOrderId := Some "client1"%string; rv_accountFingerprint := "portfolio";
          rv_sourceRecommendationId := None; rv_sourceSnapshotId := None; rv_configurationFingerprint := "cf";
          rv_payloadFingerprint := "pf1"; rv_signatureAlgorithm := "hmac"; rv_signature := "sig";
          rv_orderIntent := "order"; rv_marketEvidence := "market"; rv_portfolioEvidence := "{}"; rv_warnings := "[]";
          rv_blockers := "[]"; rv_requestId := None; rv_correlationId := None; rv_expiresAt := 100000; rv_createdAt := 60 |};
     review_account_id := "acct"; review_candidate_id := None; review_status := ReviewValid; review_consumed_at := None;
     review_version := 1; review_updated_at := 60 |}.

Definition demo_confirmation : ConfirmationRow :=
  {| conf_input :=
       {| cf_id := "confirmation1"; cf_evidenceType := "token"; cf_confirmationMethod := "auto";
          cf_status := ConfirmationValid; cf_payloadFingerprint := "cpf1"; cf_signatureAlgorithm := None;
          cf_signature := None; cf_evidence := "{}"; cf_confirmedAt := 60; cf_expiresAt := 100000 |};
     conf_review_id := "review1"; conf_account_id := "acct"; conf_candidate_id := None; conf_status := ConfirmationValid;
     conf_consumed_at := None; conf_version := 1; conf_updated_at := 60 |}.

Definition demo_reservation : ReservationRow :=
  {| resv_id := "reservation1"; resv_account_id := "acct"; resv_candidate_id := None; resv_strategy_key := "core";
     resv_symbol := "SPY"; resv_asset_class := equity; resv_amount := 300; resv_status := ReservationActive;
     resv_idempotency_key := "key1"; resv_fingerprint := "rf1"; resv_snapshot_id := "snap"; resv_job_name := "job";
     resv_fencing_token := "1"; resv_expires_at := 9000; resv_committed_at := None; resv_released_at := None;
     resv_release_reason := None; resv_version := 1; resv_created_at := 70; resv_updated_at := 70 |}.

Definition demo_intent : IntentRow :=
  {| intent_id := "intent1"; intent_account_id := "acct"; intent_candidate_id := Some "candidate1"%string;
     intent_reservation_id := Some "reservation1"%string; intent_review_id := Some "review1"%string;
     intent_confirmation_id := Some "confirmation1"%string; intent_client_order_id := "client1";
     intent_idempotency_key := "key1"; intent_strategy_key := "core"; intent_symbol := "SPY";
     intent_underlying_symbol := None; intent_asset_class := equity; intent_side := buy; intent_order_type := limit;
     intent_time_in_force := day; intent_quantity := Some 1%Q; intent_notional := None; intent_limit_price := Some 300%Q;
     intent_stop_price := None; intent_estimated_premium := None; intent_max_risk := Some 300%Q;
     intent_status := IntentReady; intent_fingerprint := "if1"; intent_lifecycle_fingerprint := "lf1";
     intent_request_payload := "{}"; intent_request_id := None; intent_correlation_id := None;
     intent_ready_at := Some 80; intent_submitted_at := None; intent_terminal_at := None; intent_version := 2;
     intent_created_at := 70; intent_updated_at := 80 |}.

Definition demo_columns : LifecycleColumns :=
  {| lc_intent_id := "intent1"; lc_operation := Some "buy_to_open"%string;
     lc_strategy_classification := Some "equity_long"%string; lc_parent_position_id := None; lc_opening_intent_id := None;
     lc_contract_id := None; lc_lifecycle_state := "ready_for_submission"; lc_autonomous_cycle_id := None;
     lc_workstream_execution_id := None; lc_reservation_release_reason := None |}.

Definition demo_with_snapshot : ExecDb :=
  set_snapshots (map (λ s, {| snap_id := snap_id s; snap_account_id := snap_account_id s;
    snap_observed_at := snap_observed_at s; snap_account_status := snap_account_status s;
    snap_currency := snap_currency s; snap_cash := snap_cash s; snap_portfolio_value := snap_portfolio_value s;
    snap_equity := snap_equity s; snap_buying_power := snap_buying_power s;
    snap_options_buying_power := snap_options_buying_power s;
    snap_options_approved_level := snap_options_approved_level s; snap_trading_blocked := snap_trading_blocked s;
    snap_account_blocked := snap_account_blocked s; snap_fingerprint := snap_fingerprint s;
    snap_evidence := "snapshot" |}) (db_snapshots demo_synced)) demo_synced.

(** The account of ExecutionWitnesses.v with the order ready. *)
Definition demo_ready : SubmissionDb :=
  {| s_now := 100;
     s_exec := set_reviews [demo_review] (set_confirmations [demo_confirmation] (set_reservations [demo_reservation]
                 (set_intents [demo_intent] demo_with_snapshot)));
     s_lifecycle := [demo_columns];
     s_candidates := [{| cand_id := "candidate1"; cand_decision := "selected"; cand_lifecycle_status := "confirmed";
                         cand_decision_reason := ""; cand_updated_at := 80; cand_version := 1 |}];
     s_terminals := [] |}.

Definition entry_command : string := "paper:execute:reviewed".

Definition demo_claim : res (AutonomousExecutionIntentRow * SubmissionDb) :=
  claimIntent demo_document entry_command demo_fence 100 None demo_ready.

(** The rows after a transaction, or [d] when it throws. *)
Definition result_of {A} (m : tx SubmissionDb A) (d : SubmissionDb) : SubmissionDb :=
  match m d with Ret (_, d') => d' | Throw _ => d end.

Example demo_claims : match demo_claim with Ret (row, _) => row_order_intent_id row | Throw c => c end = "intent1"%string.
Proof. vm_compute. reflexivity. Qed.

Definition demo_row : AutonomousExecutionIntentRow := match demo_claim with Ret (row, _) => row | Throw _ => sample_exit end.
Definition demo_claimed : SubmissionDb := result_of (claimIntent demo_document entry_command demo_fence 100 None) demo_ready.

Lemma demo_claim_runs : claimIntent demo_document entry_command demo_fence 100 None demo_ready = Ret (demo_row, demo_claimed).
Proof. run. Qed.

Lemma demo_ids : NoDup (intent_ids demo_ready).
Proof. apply NoDup_singleton. Qed.

Lemma claim_only_authorized_witness :
  (∃ i, claim_authorized demo_document entry_command demo_fence 100 demo_ready i demo_row) ∧
  map intent_status (db_intents (s_exec demo_claimed)) = [IntentPending].
Proof.
  destruct (claim_only_authorized _ _ _ _ _ _ _ _ demo_ids demo_claim_runs) as [Ha ->]. split; [exact Ha|run].
Defined.

Definition demo_released : SubmissionDb := result_of (releaseClaim demo_fence demo_row 120 "STALE") demo_claimed.

Lemma demo_release_runs : releaseClaim demo_fence demo_row 120 "STALE" demo_claimed = Ret (tt, demo_released).
Proof. run. Qed.

Lemma claim_release_roundtrip_witness :
  ∃ i, In i (db_intents (s_exec demo_ready)) ∧ db_intents (s_exec demo_released) = [at_version 4 120 i].
Proof.
  destruct (claim_release_roundtrip _ _ _ _ _ _ _ _ _ _ _ demo_ids demo_claim_runs demo_release_runs)
    as (E & i & Hi & _ & Ei).
  exists i. split; [exact Hi|]. rewrite E. destruct Hi as [<-|[]]. run.
Defined.

Lemma released_claim_is_next_witness :
  ∃ filter, commandFilter entry_command = Ret filter ∧
    row_order_intent_id <$> next_claimable demo_document 100 filter demo_released = Some "intent1"%string.
Proof.
  destruct (commandFilter entry_command) as [filter|] eqn:Hf; [|discriminate Hf]. exists filter. split; [reflexivity|].
  refine (eq_trans (released_claim_is_next _ _ _ _ _ _ _ _ _ _ _ _ demo_ids Hf demo_claim_runs demo_release_runs) _).
  run.
Defined.

(** *** The attempt and the answer *)

Definition demo_payload : AlpacaPaperOrderRequest := order_payload demo_row.
Definition demo_context : LifecycleContext := {| context_cycleId := "r1"; context_workstreamExecutionId := "r1" |}.
Definition demo_attempt : tx SubmissionDb BrokerMutationReceipt :=
  recordSubmissionAttempt demo_digest demo_stable demo_row demo_payload entry_command demo_fence 100 demo_context.
Definition demo_attempted : SubmissionDb := result_of demo_attempt demo_claimed.

Definition demo_receipt : BrokerMutationReceipt :=
  match demo_attempt demo_claimed with
  | Ret (r, _) => r
  | Throw c => {| mutationReceiptId := c; intentId := ""; cycleId := ""; workstream := ""; schedulerRunId := "";
                  fencingToken := ""; deterministicClientOrderId := ""; submissionAction := "";
                  receiptBrokerOrderId := None; requestFingerprint := ""; requestedSymbol := ""; requestedSide := "";
                  requestedQuantity := None; requestedNotional := None; requestedOrderType := "";
                  requestedLimitPrice := None; requestedStopPrice := None; requestedPositionIntent := "";
                  submissionAttemptTimestamp := 0; brokerAcknowledgementTimestamp := None;
                  outcomeClassification := submission_attempted; resultingLifecycleState := "" |}
  end.

Lemma demo_attempt_runs : demo_attempt demo_claimed = Ret (demo_receipt, demo_attempted).
Proof. run. Qed.

Definition demo_response (status : string) : BrokerResponse :=
  {| response_data :=
       {| so_id := Some "b1"%string; so_client_order_id := Some "client1"%string; so_status := Some status;
          so_submitted_at := Some "1970-01-01T00:00:00.100Z"%string; so_created_at := None; so_qty := Some "1"%string;
          so_notional := None; so_limit_price := Some "300"%string; so_stop_price := None;
          so_filled_qty := Some "0"%string; so_filled_avg_price := None; so_symbol := None; so_asset_class := None; so_side := None; so_type := None; so_time_in_force := None; so_position_intent := None; so_filled_at := None; so_updated_at := None; so_canceled_at := None; so_cancelled_at := None; so_expired_at := None; so_rejected_at := None;
          so_json := "{}" |};
     response_requestId := None; response_status := 200 |}.

Definition demo_record (status : string) : tx SubmissionDb SubmissionRecord :=
  recordSubmission demo_digest demo_stable no_time demo_row (demo_response status) demo_receipt demo_fence 150.
Definition demo_recorded (status : string) : SubmissionDb := result_of (demo_record status) demo_attempted.

Lemma demo_rejected_runs : ∃ r, demo_record "rejected" demo_attempted = Ret (r, demo_recorded "rejected").
Proof. eexists. run. Qed.

(** A rejected order gives its 300 dollars back; an accepted one commits them. *)
Lemma submission_recorded_witness :
  submission_stored demo_row (demo_response "rejected") demo_fence 150 demo_attempted (demo_recorded "rejected") ∧
  map resv_status (db_reservations (s_exec (demo_recorded "rejected"))) = [ReservationReleased] ∧
  map resv_status (db_reservations (s_exec (demo_recorded "accepted"))) = [ReservationCommitted].
Proof.
  split; [|split; run].
  assert (Hids : NoDup (intent_ids demo_attempted)).
  { assert (intent_ids demo_attempted = ["intent1"%string]) as -> by run. apply NoDup_singleton. }
  destruct demo_rejected_runs as [r E]. unfold demo_record in E.
  exact (submission_recorded demo_digest demo_stable no_time demo_row (demo_response "rejected") demo_receipt demo_fence
    150 demo_attempted r (demo_recorded "rejected") Hids E).
Defined.

(** *** Histories *)

Definition demo_env : Environment := λ name,
  if (name =? "ALPACA_PAPER_API_KEY")%string then Some "key"%string
  else if (name =? "ALPACA_PAPER_SECRET_KEY")%string then Some "secret"%string else None.

Definition demo_order : jvalue :=
  JObj [("id", JStr "b1"); ("client_order_id", JStr "client1"); ("status", JStr "accepted");
        ("submitted_at", JStr "1970-01-01T00:00:00.100Z"); ("qty", JStr "1"); ("limit_price", JStr "300");
        ("filled_qty", JStr "0")]%string.

(** A broker that loses no answer, and one that loses the first. *)
Definition demo_broker_state : Broker := {| accepted := []; AlpacaClient.losing := 0 |}.
Definition demo_call (p : AlpacaPaperOrderRequest) : outcome :=
  (Effects.run (serve (p_client_order_id p) demo_order) (submitPaperOrder demo_env p) demo_broker_state).1.
Definition demo_log (p : AlpacaPaperOrderRequest) : http_log :=
  (run_until (serve (p_client_order_id p) demo_order) (λ _ _, false) (submitPaperOrder demo_env p) demo_broker_state).1.
Definition demo_posts (p : AlpacaPaperOrderRequest) : list (HttpRequest * HttpOutcome) := fetched (demo_log p).

Lemma demo_submission p : submission_call demo_env p (submission_answer (demo_call p)) (demo_posts p).
Proof.
  exists (demo_log p), (Done (demo_call p)). split_and!; [|reflexivity|by intros o [= <-]].
  unfold demo_call, demo_log. rewrite <- (run_until_done (serve (p_client_order_id p) demo_order)). apply run_until_path.
Qed.

Definition demo_world : World := {| db := demo_ready; calls := [] |}.

Lemma demo_only_intent (d : SubmissionDb) :
  identities d = [("intent1", "acct", "client1")]%string → recorded "intent1" "acct" "client1" {| db := d; calls := [] |}.
Proof.
  intros E. unfold recorded. cbn [db]. rewrite E. split; [by left|]. intros i a [[= <- <-]|[]]. done.
Qed.

Definition demo_history : World → system (S := World) (A := res CommandResult) → Prop :=
  history demo_env demo_digest demo_hmac demo_document demo_stable no_time no_time 900000%float.

Definition demo_start (w : World) : system (E := effect) (S := World) (A := res CommandResult) :=
  {| world := w; runners := [] |}.

Definition demo_broker : AutonomousExecutionBrokerSnapshot :=
  {| accountIdentityHash := "hash"; structuralPortfolioFingerprint := "portfolio";
     brokerAccountId := Some "broker"%string |}.

Definition demo_answers (X : Type) (e : effect X) : X :=
  match e in effect X return X with
  | Database _ => Throw ""
  | MarketOpen => Ret true
  | CaptureBrokerSnapshot => Ret demo_broker
  | PersistBrokerSnapshot _ => Ret tt
  | CheckAsset _ => Throw "NOT_ASKED"
  | SubmitOrder p => submission_answer (demo_call p)
  | LookupOrder _ => inl {| error_status := Some 404; error_message := "" |}
  | ReconcileOrders _ _ => Throw ""
  | Clock => 110
  | Sleep _ => tt
  end.

Definition demo_input : CommandInput :=
  {| command := entry_command; checks_market := true; persists_snapshot := true; recovery := None; fence := demo_fence;
     safety := {| environment := "paper"; tradingMode := "paper"; SubmissionCommand.liveTradingEnabled := false;
                  paperOrderExecutionEnabled := true; paperOptionsExecutionEnabled := false; quoteMaxAgeSeconds := 600 |};
     confirmPaper := true; confirmationSigningKey := None; environmentSigningKey := None;
     expectedPayloadSignature := None; lifecycleContext := None; input_now := Some 100 |}.

(** The reconciliation, its statements executed. *)
Definition demo_reconciling (response : BrokerResponse) (X : Type) (e : ReconciliationCommand.effect X)
    : ReconcileDb → X * ReconcileDb :=
  match e in ReconciliationCommand.effect X return ReconcileDb → X * ReconcileDb with
  | Sql s => λ d, match execute_statement Qdiv s d with Ret (a, d') => (Ret a, d') | Throw c => (Throw c, d) end
  | ReconciliationCommand.LookupOrder _ => λ d, (inr response, d)
  | ReconciliationCommand.ObserveExternalOrder _ _ => λ d, (Ret tt, d)
  | SyncBrokerState _ => λ d, (Ret tt, d)
  | ReconciliationCommand.Clock => λ d, (110, d)
  end.

Definition demo_reconcile (id : string) (response : BrokerResponse) (d : SubmissionDb) : SubmissionDb :=
  r_sub (Effects.run (demo_reconciling response)
    (reconcilePostgresPaperOrders demo_digest demo_document String.leb demo_stable no_time no_time
       {| ri_fence := demo_fence; ri_now := None; ri_externalBrokerOrderId := None; ri_syncBrokerState := true;
          ri_clientOrderId := Some id |})
    {| r_sub := d; r_transitions := []; r_cutover := None |}).2.

Definition demo_run_with := healthy demo_digest demo_hmac demo_document demo_stable no_time demo_answers demo_posts.
Definition demo_healthy := demo_run_with (λ _ _ d, d).
Definition demo_command := runAutonomousPostgresExecutionCommand no_time 900000%float demo_input.

Example demo_command_completes :
  match (Effects.run demo_healthy demo_command demo_world).1 with
  | Ret (Completed s o b st rec _) => (orderIntentId s, b, st, rec) = ("intent1", "b1", "accepted", false)%string
  | _ => False
  end.
Proof. vm_compute. reflexivity. Qed.

(** Everything the healthy outside answers is possible. *)
Lemma demo_possible X (e : effect X) w :
  handle demo_env demo_digest demo_hmac demo_document demo_stable no_time X e w (demo_healthy X e w).1 (demo_healthy X e w).2.
Proof.
  unfold demo_healthy, demo_run_with, healthy. destruct e; cbn [handle fst snd]; try reflexivity.
  - destruct (perform _ _ _ _ _ _ _) as [[a d]|c]; cbn [fst snd]; [by left|]. split; [done|by eexists].
  - unfold others. naive_solver.
  - exists (demo_posts payload). split; [apply demo_submission|reflexivity].
  - destruct w. unfold others, with_db. cbn. naive_solver.
Qed.

(** The history in which one runner submits the order, with one POST. *)
Lemma submission_sent_at_most_once_witness :
  ∃ s c, demo_history demo_world s ∧ calls (world s) = [c] ∧ call_payload c = demo_payload ∧
    List.length (call_fetches c) = 1%nat ∧ one_request demo_env (order_request demo_payload) (call_fetches c) ∧
    has_event (attempt_id demo_stable "intent1" "acct" "client1") (db (world s)) = true.
Proof.
  assert (Hr : recorded "intent1" "acct" "client1" demo_world) by (apply demo_only_intent; run).
  set (w' := (Effects.run demo_healthy demo_command demo_world).2).
  assert (Hs : demo_history demo_world {| world := w'; runners := [Done (Effects.run demo_healthy demo_command demo_world).1] |}).
  { eapply rtc_l; [apply step_start; constructor|]. apply run_reachable, demo_possible. }
  assert (H1 : calls w' = [{| call_payload := demo_payload; call_fetches := demo_posts demo_payload |}]) by run.
  destruct (submission_sent_at_most_once demo_env demo_digest demo_hmac demo_document demo_stable no_time no_time
    900000%float "intent1" "acct" "client1" demo_world _ Hr eq_refl Hs) as [_ H].
  destruct (H {| call_payload := demo_payload; call_fetches := demo_posts demo_payload |}) as [He Ho];
    [cbn [world]; rewrite H1; by left|reflexivity|].
  eexists _, _. split; [exact Hs|]. split; [exact H1|]. split; [reflexivity|]. split; [run|]. by split.
Defined.

(** The attempt committed, its answer was lost, and the claim was given back:
    a later runner fails and submits nothing. *)
Definition demo_stranded : World :=
  {| db := result_of (releaseClaim demo_fence demo_row 100 "CONNECTION_LOST") demo_attempted; calls := [] |}.

Lemma attempted_never_submitted_again_witness :
  ∃ s, demo_history demo_stranded s ∧ sent "client1" (world s) = 0%nat ∧
    runners s = [Done (Throw "POSTGRES_BROKER_SUBMISSION_ATTEMPT_PERSISTENCE_FAILED")].
Proof.
  assert (Hr : recorded "intent1" "acct" "client1" demo_stranded) by (apply demo_only_intent; run).
  assert (He : has_event (attempt_id demo_stable "intent1" "acct" "client1") (db demo_stranded) = true) by run.
  set (w' := (Effects.run demo_healthy demo_command demo_stranded).2).
  assert (Hs : demo_history demo_stranded
    {| world := w'; runners := [Done (Effects.run demo_healthy demo_command demo_stranded).1] |}).
  { eapply rtc_l; [apply step_start; constructor|]. apply run_reachable, demo_possible. }
  eexists. split; [exact Hs|]. split; [|run].
  exact (attempted_never_submitted_again demo_env demo_digest demo_hmac demo_document demo_stable no_time no_time 900000%float
    "intent1" "acct" "client1" demo_stranded _ Hr He eq_refl Hs).
Defined.

Definition at_submission (X : Type) (e : effect X) : bool := match e with SubmitOrder _ => true | _ => false end.

Lemma submission_follows_gate_witness :
  ∃ l row broker now, authorized no_time 900000%float demo_input l demo_payload row broker now.
Proof.
  pose proof (run_until_path demo_healthy at_submission demo_command demo_world) as Hp.
  assert (Hq : match (run_until demo_healthy at_submission demo_command demo_world).2 with
               | Ask e _ => match e with SubmitOrder p => p = demo_payload | _ => False end
               | Done _ => False end) by run.
  destruct (run_until demo_healthy at_submission demo_command demo_world) as [l q].
  cbn [fst snd] in Hp, Hq. destruct q as [|X e k]; [destruct Hq|].
  destruct e; try (exfalso; exact Hq). rewrite Hq in Hp. exists l.
  exact (submission_follows_gate no_time 900000%float demo_input l demo_payload k Hp).
Defined.

(** *** No order is left in limbo *)

Lemma demo_digest_text s : btrim_nonempty (demo_digest s) = true.
Proof. reflexivity. Qed.

Lemma demo_scopes_differ scope key key' : In scope failure_scopes →
  demo_stable "alpaca_broker_submission_attempt" key ≠ demo_stable scope key'.
Proof. unfold demo_stable. intros [<-|[<-|[]]]; discriminate. Qed.

Definition no_fill : OrderRow → option Z := λ _, None.

Definition demo_goes {A} (p : prog effect (res A)) : World → res A → World → Prop :=
  goes demo_env demo_digest demo_hmac demo_document String.leb Qdiv no_fill demo_stable no_time no_time demo_fence
    demo_row p.

Lemma demo_answered X (e : effect X) w :
  answered_handle demo_env demo_digest demo_hmac demo_document String.leb Qdiv no_fill demo_stable no_time no_time
    demo_fence demo_row X e w (demo_run_with demo_reconcile X e w).1 (demo_run_with demo_reconcile X e w).2.
Proof.
  unfold demo_run_with, healthy. destruct e; cbn [answered_handle handle fst snd]; try reflexivity.
  - by destruct (perform _ _ _ _ _ _ _) as [[a d]|c].
  - unfold others. naive_solver.
  - exists (demo_posts payload). split; [apply demo_submission|reflexivity].
  - eexists. split; [|reflexivity]. do 5 eexists. split; [|reflexivity].
    apply (run_runs _ _ (demo_reconciling response)); [|intros d; apply left_alone_refl].
    intros Y f d. destruct f; cbn [demo_reconciling reconcile_answered fst snd]; try done.
    + by destruct (execute_statement _ _ _) as [[a d']|c].
    + exists (r_sub d). split; [apply rtc_refl|]. by destruct d.
Qed.

(** The claim is answered, five seconds pass, and the run goes on. *)
Definition demo_later : World :=
  with_db demo_world {| s_now := s_now demo_claimed + 5; s_exec := s_exec demo_claimed;
                        s_lifecycle := s_lifecycle demo_claimed; s_candidates := s_candidates demo_claimed;
                        s_terminals := s_terminals demo_claimed |}.

Lemma demo_left_alone : left_alone demo_stable demo_fence demo_row demo_claimed (db demo_later).
Proof. by split. Qed.

Lemma undisturbed_submission_settles_witness :
  ∃ r w', demo_goes (submit_next no_time 900000%float demo_input demo_broker 100 1 0 false) demo_world r w' ∧
    decided demo_row (db w') ∧ s_now (db w') = 105.
Proof.
  assert (Hr : ∃ k r w', submit_next no_time 900000%float demo_input demo_broker 100 1 0 false =
      Ask (Database (Claim entry_command demo_fence 100 None)) k ∧
      demo_goes (k (Ret demo_row)) demo_later r w' ∧ s_now (db w') = 105).
  { eexists. do 2 eexists. split; [reflexivity|]. split.
    - apply (run_runs _ _ (demo_run_with demo_reconcile)); [apply demo_answered|]. intros w. apply left_alone_refl.
    - run. }
  destruct Hr as (k & r & w' & Hk & Hr & Ht). exists r, w'. rewrite Hk.
  assert (Hg : demo_goes (Ask (Database (Claim entry_command demo_fence 100 None)) k) demo_world r w').
  { exists (Ret demo_row), (with_db demo_world demo_claimed), demo_later.
    split; [|split; [exact demo_left_alone|exact Hr]].
    assert (Hc : perform demo_digest demo_hmac demo_document demo_stable no_time
              (Claim entry_command demo_fence 100 None) (db demo_world) = Ret (demo_row, demo_claimed)) by exact demo_claim_runs.
    cbn [answered_handle]. rewrite Hc. by split. }
  split; [exact Hg|]. split; [|exact Ht]. rewrite <- Hk in Hg.
  refine (undisturbed_submission_settles demo_env demo_digest demo_hmac demo_document String.leb Qdiv no_fill
    demo_stable no_time no_time 900000%float demo_digest_text demo_scopes_differ demo_input demo_broker 100 1 0 false
    demo_row demo_world demo_claimed r w' demo_ids demo_claim_runs _ _ _ Hg).
  - intros c Hc. vm_compute in Hc. injection Hc as <-. run.
  - intros i [<-|[]]. split; [vm_compute; discriminate|run].
  - reflexivity.
Defined.

(** *** The retried POST *)

Definition demo_post : HttpRequest :=
  {| url := "https://paper-api.alpaca.markets/v2/orders"; method := "POST"; body := Some (order_body demo_payload) |}.

(** Two lost answers and a third request. *)
Lemma paper_requests_retry_unanswered_witness :
  let fetch := Fetch demo_post (num_of_Z 15000) in
  let l := [Entry fetch Aborted; Entry fetch (NetworkFailure "reset")] in
  ∃ k, path (submitPaperOrder demo_env demo_payload) l (Ask fetch k) ∧ paper_fetch demo_env demo_post 2 l _ fetch.
Proof.
  intros fetch l. assert (Hp : ∃ k, path (submitPaperOrder demo_env demo_payload) l (Ask fetch k)).
  { change (submitPaperOrder demo_env demo_payload) with (paper_attempts "/v2/orders" demo_post (num_of_Z 15000) 2).
    eexists. unfold l, fetch. cbn [paper_attempts]. do 2 eapply path_ask. apply path_here. }
  destruct Hp as [k Hp]. exists k. split; [exact Hp|].
  exact (proj2 (proj2 (paper_requests_retry_unanswered demo_env "/v2/orders" "POST" _ _ _ _ _ Hp))).
Defined.

Definition retry_answers (X : Type) (e : effect X) : X :=
  match e in effect X return X with
  | SubmitOrder p => submission_answer (Effects.run (serve (p_client_order_id p) JNull) (submitPaperOrder demo_env p)
                       {| accepted := []; losing := 1 |}).1
  | e => demo_answers _ e
  end.

Definition retry_posts (p : AlpacaPaperOrderRequest) : list (HttpRequest * HttpOutcome) :=
  fetched (run_until (serve (p_client_order_id p) JNull) (λ _ _, false) (submitPaperOrder demo_env p)
             {| accepted := []; losing := 1 |}).1.

Lemma demo_limbo : limbo demo_stable demo_fence demo_row 100 demo_claimed.
Proof.
  split.
  - assert (intent_ids demo_claimed = ["intent1"%string]) as -> by run. apply NoDup_singleton.
  - run.
  - exists (set_intent_status IntentPending 100 demo_intent). split_and!; [|run|run|vm_compute; discriminate|run].
    assert (db_intents (s_exec demo_claimed) = [set_intent_status IntentPending 100 demo_intent]) as -> by run. by left.
  - intros c Hc. vm_compute in Hc. injection Hc as <-. run.
  - intros scope t _ _. assert (db_events (s_exec demo_claimed) = []) as E by run. unfold has_event. by rewrite E.
Qed.

(** The broker has accepted the order; the database says it failed, and keeps
    its reservation. *)
Lemma retried_submission_fails_live_order_witness :
  ∃ w', (∀ i, In i (db_intents (s_exec (db w'))) → intent_id i = "intent1"%string → intent_status i = IntentFailed) ∧
    db_orders (s_exec (db w')) = [] ∧ map resv_status (db_reservations (s_exec (db w'))) = [ReservationActive].
Proof.
  pose (summary := {| readyIntentCount := 1; confirmableIntentCount := 0; confirmationPromoted := false;
                      orderIntentId := "intent1" |}).
  destruct (retried_submission_fails_live_order demo_digest demo_hmac demo_document demo_stable no_time no_time
    retry_answers retry_posts (λ _ _ d, d) demo_env
    {| apiKey := "key"; secretKey := "secret"; baseUrl := "https://paper-api.alpaca.markets";
       dataBaseUrl := "https://data.alpaca.markets" |} JNull demo_input demo_row demo_payload 100 summary
    {| db := demo_claimed; calls := [] |} demo_receipt demo_attempted demo_digest_text demo_scopes_differ
    eq_refl eq_refl ltac:(vm_compute; discriminate) demo_limbo demo_attempt_runs eq_refl) as (_ & Hi & Ho & Hr).
  eexists. split; [exact Hi|]. split; [rewrite Ho; run|rewrite Hr; run].
Defined.
