(* ===== verification/RecoveryRuns.v ===== *)
(** Runs of the recovery of Recovery.v: what it asks before it cancels a
    ready intent, and which ready intents it takes for stale. *)

From S2P Require Import Prelude.
From S2P Require Import JsString.
From S2P Require Import JsText.
From S2P Require Import JsJson.
From S2P Require Import SchedulerLease.
From S2P Require Import ExecutionTables.
From S2P Require Import ExecutionReservation.
From S2P Require Import Effects.
From S2P Require Import Submission.
From S2P Require Import SubmissionFacts.
From S2P Require Import SubmissionCommand.
From S2P Require Import SubmissionRuns.
From S2P Require Import Reconciliation.
From S2P Require Import Recovery.
Open Scope Z_scope.

(** ** What is asked before an intent is cancelled *)

Section cancellation_rule.
Context (fence : SchedulerFence) (now : Z).

Local Abbreviation effect := recovery_effect.
Local Abbreviation log := (list (entry (E := recovery_effect))).

(** The intent a statement cancels. *)
Definition cancels {X} (e : effect X) : option string :=
  match e with RecoverySql (CancelStale _ id _) => Some id | _ => None end.

(** The last the program heard: the broker does not know the order, or the
    statement that would have kept the intent failed with a message that reads
    like it. *)
Definition absence_heard (l : log) (clientOrderId : string) : Prop :=
  (∃ l' e, l = l' ++ [Entry (FindOrder clientOrderId) (inl e)] ∧ lookup_absent e = true) ∨
  (∃ l' response id order status code,
     l = l' ++ [Entry (FindOrder clientOrderId) (inr response);
                Entry (RecoverySql (Preserve fence id order status now)) (Throw code)] ∧
     lookup_absent {| error_status := None; error_message := code |} = true).

Definition listed (l : log) (id clientOrderId : string) : Prop :=
  ∃ rows, In (Entry (RecoverySql (ListStale fence now)) (Ret rows)) l ∧
    ∃ c, In (id, c) rows ∧ clientOrderId = trim c ∧ clientOrderId ≠ EmptyString.

Definition may_cancel (l : log) (X : Type) (e : effect X) : Prop :=
  ∀ id, cancels e = Some id → ∃ clientOrderId, listed l id clientOrderId ∧ absence_heard l clientOrderId.

Definition judged {A} (l : log) (p : prog effect A) : Prop := monitored may_cancel extend l p (λ _ _, True).

Lemma judged_async_bind {A B} l (p : async effect A) (f : A → async effect B) :
  judged l p → (∀ l' a, judged l' (f a)) → judged l (async_bind p f).
Proof.
  intros Hp Hf. apply monitored_async_bind. revert Hp. apply monitored_mono. intros l' [a|c] _; [apply Hf|done].
Qed.

Lemma judged_ask {A} l (e : effect (res A)) : cancels e = None → judged l (ask e).
Proof. intros He. apply monitored_ask; [|done]. intros id Hid. congruence. Qed.

Lemma judged_reject_if l b c : judged l (reject_if b c).
Proof. by destruct b. Qed.

Lemma judged_ret {A} l (a : A) : judged l (async_ret a).
Proof. done. Qed.

(** The catch block, after an answer that may say the order is absent. *)
Lemma judged_failed l id clientOrderId e c :
  listed l id clientOrderId → (lookup_absent e = true → absence_heard l clientOrderId) →
  judged l (stale_failed fence now id e c).
Proof.
  intros Hl Ha. unfold stale_failed. destruct (lookup_absent e); [|done]. cbn [negb].
  apply monitored_async_bind. apply monitored_ask; [intros id' [= <-]; by exists clientOrderId; auto|].
  intros [k|code]; [|done]. apply judged_async_bind; [apply judged_reject_if|]. intros l' _.
  destruct (cc_cancelled k =? 1)%nat; [|done]. cbn [negb]. apply judged_async_bind; [apply judged_reject_if|done].
Qed.

Lemma listed_more l l' id c : listed l id c → listed (l ++ l') id c.
Proof. intros (rows & Hr & H). exists rows. split; [apply in_or_app; by left|done]. Qed.

Lemma judged_found l id c0 response c :
  listed l id (trim c0) →
  judged (l ++ [Entry (FindOrder (trim c0)) (inr response)])
    (attempt (stale_found fence now id (trim c0) response c)
       (λ code, stale_failed fence now id {| error_status := None; error_message := code |} c)).
Proof.
  intros Hl. set (l1 := l ++ _). assert (listed l1 id (trim c0)) as Hl1 by by apply listed_more.
  unfold attempt. apply monitored_bind. unfold stale_found. cbv zeta. destruct (negb _).
  - cbn [reject_if monitored prog_bind async_bind]. apply judged_failed with (trim c0); [done|].
    intros Habs. by vm_compute in Habs.
  - split; [by intros id' [=]|]. intros [n|code]; [done|]. cbn [prog_bind monitored].
    apply judged_failed with (trim c0); [by apply listed_more|]. intros Habs. right.
    do 6 eexists. split; [|exact Habs]. unfold l1, extend. by rewrite <- app_assoc.
Qed.

Lemma judged_stale l id c0 c :
  (trim c0 ≠ EmptyString → listed l id (trim c0)) → judged l (recover_stale fence now (id, c0) c).
Proof.
  intros Hl. unfold recover_stale. cbn [fst snd]. destruct (str_truthy (trim c0)) eqn:Et; [|done]. cbn [negb].
  assert (listed l id (trim c0)) as Hl' by (apply Hl; intros E; by rewrite E in Et).
  split; [by intros id' [=]|]. intros [e|response].
  - apply judged_failed with (trim c0); [by apply listed_more|]. intros He. left. by exists l, e.
  - by apply judged_found.
Qed.

(** The log only grows. *)
Definition grown (l l' : log) : Prop := ∃ m, l' = l ++ m.

Lemma monitored_grown {A} (p : prog effect A) : ∀ l,
  monitored may_cancel extend l p (λ _ _, True) → monitored may_cancel extend l p (λ l' _, grown l l').
Proof.
  induction p as [a|X e k IH]; intros l; [by exists []; rewrite app_nil_r|]. intros [He Hk]. split; [done|].
  intros x. eapply monitored_mono; [|by apply IH]. intros l' b [m ->]. unfold extend. rewrite <- app_assoc. by eexists.
Qed.

Lemma judged_each rows : ∀ l c,
  (∀ id c0, In (id, c0) rows → trim c0 ≠ EmptyString → listed l id (trim c0)) →
  judged l (recover_each fence now rows c).
Proof.
  induction rows as [|[id c0] rows IH]; intros l c Hl; cbn [recover_each]; [done|].
  apply monitored_async_bind. eapply monitored_mono; [|apply monitored_grown, judged_stale; intros; apply Hl; [by left|done]].
  cbn. intros l' [c'|code] [m ->]; [|done]. apply IH. intros id1 c1 Hin Hne. apply listed_more, Hl; [by right|done].
Qed.

Lemma judged_recovery lookup : judged [] (runAutonomousPostgresRecovery fence now lookup).
Proof.
  unfold runAutonomousPostgresRecovery. apply judged_async_bind.
  - destruct lookup; [|done]. apply monitored_async_bind. apply monitored_ask; [by intros id [=]|].
    intros [rows|code]; [|done]. apply judged_each. intros id c0 Hin Hne. exists rows. split; [by left|]. by exists c0.
  - intros l stale. repeat (apply judged_async_bind;
      [first [by apply judged_ask|apply judged_reject_if]|intros ? ?]). apply judged_ret.
Qed.

(** C28: Recovery looks an order up before it cancels it.  Whatever the broker and the
    database answer, the recovery asks the database to cancel a ready intent only when
    it was listed as stale, and when the last it heard for the intent's client order id
    was one of two: an error of the lookup with status 404 or with a message that
    contains the word 404 or "order not found", or an order from the broker and then
    the failure, with such a message, of the statement that would have kept the
    intent. *)
Theorem recovery_asks_before_cancelling lookup l X (e : effect X) k id :
  path (runAutonomousPostgresRecovery fence now lookup) l (Ask e k) → cancels e = Some id →
  ∃ clientOrderId, listed l id clientOrderId ∧ absence_heard l clientOrderId.
Proof. intros Hp. exact (monitored_path may_cancel [] _ _ l X e k (judged_recovery lookup) Hp id). Qed.
End cancellation_rule.

(** ** Ready orders without a reservation *)

Section undisturbed.
Context (digest : string → string) (merge : json → json → json) (timestamp_json : Z → json).

(** An undisturbed database, and a broker that answers [lookup]. *)
Definition recovery_reply (lookup : string → BrokerError + BrokerResponse) (clock : Z) (X : Type)
    (e : recovery_effect X) : RecoveryDb → X * RecoveryDb :=
  match e in recovery_effect X return RecoveryDb → X * RecoveryDb with
  | RecoverySql s => λ d,
      match execute_recovery digest merge timestamp_json s d with Ret (a, d') => (Ret a, d') | Throw c => (Throw c, d) end
  | FindOrder id => λ d, (lookup id, d)
  | RecoveryClock => λ d, (clock, d)
  end.

Lemma unreserved_stale now d i r cs :
  intent_status i = IntentReady → intent_reservation_id i = None → has_order (records d) (intent_id i) = false →
  review_of (records d) i = Some r → source_of d i = Some cs → stale_ready now d i = true.
Proof.
  intros Hs Hr Ho Hv Hc. unfold stale_ready. rewrite Hs, Ho, Hv, Hc. destruct cs as [c s].
  assert (reservation_of (records d) i = None) as -> by (unfold reservation_of; by rewrite Hr).
  cbn [stale_reservation]. by rewrite !orb_true_r, bool_decide_eq_true_2.
Qed.

(** The times of a cancelled intent. *)
Lemma times_cancelled now i :
  intent_times_ok i = true → intent_created_at i <= now → intent_times_ok (cancelled_intent digest merge now i) = true.
Proof.
  unfold intent_times_ok. cbn. rewrite !andb_true_iff. intros [[[-> ->] _] _] ?. repeat split; try done; by apply Z.leb_le.
Qed.

Lemma update_intent_ext p q f d : (∀ i, p i = q i) → update_intent p f d = update_intent q f d.
Proof.
  intros H. unfold update_intent, exec, update_rows, update_where. rewrite (filter_ext p q H).
  by rewrite (map_ext (λ r, if p r then f r else r) (λ r, if q r then f r else r)) by (intros r; by rewrite H).
Qed.

Definition cancelled_tables (now : Z) (i : IntentRow) (d : SubmissionDb) : SubmissionDb :=
  with_intent (intent_id i) (cancelled_intent digest merge now) d.

Lemma cancel_unreserved fence now d i :
  NoDup (intent_ids d) → held fence d = true → In i (db_intents (s_exec d)) → intent_status i = IntentReady →
  intent_reservation_id i = None → has_order (s_exec d) (intent_id i) = false →
  intent_times_ok i = true → intent_created_at i <= now →
  cancel_stale digest merge fence (intent_id i) now d =
    Ret ({| cc_ok := true; cc_locked := 0; cc_cancelled := 1; cc_transitions := 0; cc_released := 0; cc_adjusted := 0 |},
         cancelled_tables now i d).
Proof.
  intros Hnd Hf Hi Hs Hr Ho Ht Hle. unfold cancel_stale. rewrite Hf.
  assert (locked_reservation (intent_id i) (s_exec d) = None) as ->.
  { unfold locked_reservation. destruct (select_one _ _) as [j|] eqn:Ej; [|done].
    apply select_one_Some in Ej as [Hj Hid%String.eqb_eq].
    assert (j = i) as -> by (by eapply (unique_key intent_id)). by rewrite Hr. }
  cbn [represented negb andb]. apply tx_bind_Ret. exists 1%nat, (cancelled_tables now i d). split; [|done].
  rewrite (update_intent_ext _ (in_status (intent_id i) IntentReady)).
  - apply (update_intent_go _ _ _ _ i); try done. by apply times_cancelled.
  - intros j. unfold cancellable. by rewrite Ho, andb_true_r.
Qed.

(** Recovery cancels ready exit orders.  A ready intent without a reservation,
    which is what the promotion of an exit order leaves, counts as stale whatever
    its review, confirmation and candidate are worth (the missing reservation is
    taken for a lost one).  When the broker does not have the order yet, an
    undisturbed recovery therefore cancels the intent: the exit is dropped. *)
Theorem recovery_cancels_ready_exits fence now clock d i r cs c e :
  NoDup (intent_ids (submission d)) → held fence (submission d) = true → In i (db_intents (records d)) →
  intent_status i = IntentReady → intent_reservation_id i = None → has_order (records d) (intent_id i) = false →
  review_of (records d) i = Some r → source_of d i = Some cs → intent_times_ok i = true → intent_created_at i <= now →
  trim (intent_client_order_id i) ≠ EmptyString → lookup_absent e = true →
  In (intent_id i, intent_client_order_id i) (stale_ready_intents fence now d) ∧
  ∃ c' d', run (recovery_reply (λ _, inl e) clock) (recover_stale fence now (intent_id i, intent_client_order_id i) c) d =
      (Ret c', d') ∧ staleReadyCancelled c' = S (staleReadyCancelled c) ∧
    ∃ j, In j (db_intents (records d')) ∧ intent_id j = intent_id i ∧ intent_status j = IntentCancelled.
Proof.
  intros Hnd Hf Hi Hs Hr Ho Hv Hcs Ht Hle Htrim He.
  pose proof (cancel_unreserved fence now (submission d) i Hnd Hf Hi Hs Hr Ho Ht Hle) as Hc. split.
  - unfold stale_ready_intents. rewrite Hf. apply in_map_iff. exists i. split; [done|]. apply filter_In.
    split; [done|]. by eapply unreserved_stale.
  - unfold recover_stale. cbn [fst snd].
    assert (str_truthy (trim (intent_client_order_id i)) = true) as -> by by destruct (trim _).
    cbn [negb run recovery_reply]. unfold stale_failed. rewrite He. cbn [negb]. rewrite run_async_bind, run_ask.
    cbn [recovery_reply execute_recovery]. unfold on_sub, sub. change (r_sub (v_db d)) with (submission d). rewrite Hc.
    do 2 eexists. split_and!; [done|done|]. exists (cancelled_intent digest merge now i). split_and!; [|done|done].
    cbn. apply update_where_In. exists i. split; [done|]. by rewrite String.eqb_refl.
Qed.
End undisturbed.
