(* ===== verification/LedgerWitnesses.v ===== *)
(** The account of SubmissionRetry.v with a balanced allocation, on which the
    properties of the ledger, of reconciliation and of recovery are exercised.

    Runs of reconciliation and recovery on the account of LedgerWitnesses.v: an
    order the broker never knew, one that is filled, an exit order whose
    transition key is used up, and an exit order that recovery drops. *)
From stdpp Require Import gmap.
From S2P Require Import Prelude.
From S2P Require Import JsString.
From S2P Require Import JsText.
From S2P Require Import TradeLifecycle.
From S2P Require Import SchedulerLease.
From S2P Require Import ExecutionTables.
From S2P Require Import ExecutionReservation.
From S2P Require Import BrokerResult.
From S2P Require Import ExecutionWitnesses.
From S2P Require Import JsJson.
From S2P Require Import SubmissionEvidence.
From S2P Require Import Effects.
From S2P Require Import Submission.
From S2P Require Import SubmissionFacts.
From S2P Require Import SubmissionCommand.
From S2P Require Import SubmissionRetry.
From S2P Require Import Reconciliation.
From S2P Require Import ReconciliationCommand.
From S2P Require Import Recovery.
From S2P Require Import ReservationLedger.
From S2P Require Import LedgerRuns.
From S2P Require Import LedgerHistory.
From S2P Require Import ReconciliationRuns.
From S2P Require Import ObservationFacts.
From S2P Require Import RecoveryRuns.

Open Scope Z_scope.

(** ** The account *)

Definition with_reserved (q : Q) (a : AllocationRow) : AllocationRow :=
  {| alloc_id := alloc_id a; alloc_account_id := alloc_account_id a; alloc_strategy_key := alloc_strategy_key a;
     alloc_status := alloc_status a; alloc_currency := alloc_currency a; alloc_amount := alloc_amount a;
     alloc_ratio := alloc_ratio a; alloc_reserved := q; alloc_deployed := alloc_deployed a;
     alloc_config_version := alloc_config_version a; alloc_config_fingerprint := alloc_config_fingerprint a;
     alloc_effective_from := alloc_effective_from a; alloc_effective_to := alloc_effective_to a;
     alloc_version := alloc_version a; alloc_updated_at := alloc_updated_at a |}.

(** The allocation reserves the 300 dollars of the order. *)
Definition demo_balanced : SubmissionDb :=
  set_exec (set_allocations (map (with_reserved 300) (db_allocations (s_exec demo_ready))) (s_exec demo_ready)) demo_ready.

Definition demo_runs : list ResearchRunRow :=
  [{| run_id := "run1"; run_status := "completed"; run_started_at := 10; run_heartbeat_at := None;
      run_completed_at := Some 20; run_recovered_at := None; run_recovery_reason := None; run_recovery_source := None;
      run_version := 1; run_updated_at := 20 |}].

Definition recovery_db (d : SubmissionDb) : RecoveryDb :=
  {| v_db := {| r_sub := d; r_transitions := []; r_cutover := Some 1 |};
     v_sources := [{| source_candidate_id := "candidate1"; source_research_run_id := "run1"; source_as_of := 50 |}];
     v_runs := demo_runs |}.

Definition demo_outside : Outside :=
  {| o_digest := demo_digest; o_hmac := demo_hmac; o_document := demo_document; o_stableRecordId := demo_stable;
     o_timestamp_format := no_time; o_numeric_ratio := Qdiv; o_merge := λ a b, (a ++ b)%string;
     o_timestamp_json := λ t, json_string (iso_text t) |}.

Lemma demo_books_ok : ledger_ok (books (records (recovery_db demo_balanced))).
Proof.
  split.
  - apply NoDup_singleton.
  - intros r [<-|[]]. split; run.
  - intros a [<-|[]]. split_and!; by vm_compute.
  - intros account strategy a [<-|[]] Hc. unfold is_current_allocation in Hc. rewrite !andb_true_iff in Hc.
    destruct Hc as [[H1%String.eqb_eq H2%String.eqb_eq] _]. cbn in H1, H2. subst. by vm_compute.
Qed.

(** ** Histories *)

Definition next {A} (m : tx RecoveryDb A) (d : RecoveryDb) : RecoveryDb :=
  match m d with Ret (_, d') => d' | Throw _ => d end.
Definition succeeds {A} (m : tx RecoveryDb A) (d : RecoveryDb) : bool :=
  match m d with Ret _ => true | Throw _ => false end.

(** A further committed step. *)
Lemma then_submission o {A} (op : Operation A) d d' :
  history o d d' → succeeds (submit o op) d' = true → history o d (next (submit o op) d').
Proof.
  intros Hh Hs. eapply rtc_r; [exact Hh|]. unfold next, succeeds in *. destruct (submit o op d') as [[a x]|] eqn:E; [|done].
  by apply (step_submission o d' A op a x).
Qed.

Lemma then_reconciliation o {A} (s : Statement A) d d' :
  history o d d' → succeeds (reconcile o s) d' = true → history o d (next (reconcile o s) d').
Proof.
  intros Hh Hs. eapply rtc_r; [exact Hh|]. unfold next, succeeds in *. destruct (reconcile o s d') as [[a x]|] eqn:E; [|done].
  by apply (step_reconciliation o d' A s a x).
Qed.

Definition demo_start_db : RecoveryDb := recovery_db demo_balanced.
Definition demo_receipt_response : BrokerResponse := demo_response "accepted".

(** The order is claimed, attempted and accepted. *)
Definition claim_operation : Operation AutonomousExecutionIntentRow := Claim entry_command demo_fence 100 None.
Definition attempt_operation : Operation BrokerMutationReceipt :=
  Attempt demo_row demo_payload entry_command demo_fence 100 demo_context.
Definition accept_operation : Operation SubmissionRecord :=
  Acknowledge demo_row (demo_response "accepted") demo_receipt demo_fence 150.

Definition demo_taken : RecoveryDb := next (submit demo_outside claim_operation) demo_start_db.
Definition demo_sent : RecoveryDb := next (submit demo_outside attempt_operation) demo_taken.
Definition demo_accepted : RecoveryDb := next (submit demo_outside accept_operation) demo_sent.

Lemma demo_accepted_history : history demo_outside demo_start_db demo_accepted.
Proof.
  unfold demo_accepted. apply then_submission; [|run]. unfold demo_sent. apply then_submission; [|run].
  unfold demo_taken. apply then_submission; [apply rtc_refl|run].
Qed.

(** ** The broker answers *)

Definition demo_answer (status filled : string) : BrokerResponse :=
  {| response_data :=
       {| so_id := Some "b1"%string; so_client_order_id := Some "client1"%string; so_status := Some status;
          so_submitted_at := Some "1970-01-01T00:00:00.100Z"%string; so_created_at := None; so_qty := Some "1"%string;
          so_notional := None; so_limit_price := Some "300"%string; so_stop_price := None;
          so_filled_qty := Some filled; so_filled_avg_price := None; so_symbol := None; so_asset_class := None;
          so_side := None; so_type := None; so_time_in_force := None; so_position_intent := None; so_filled_at := None;
          so_updated_at := Some "1970-01-01T00:00:00.180Z"%string; so_canceled_at := None; so_cancelled_at := None;
          so_expired_at := None; so_rejected_at := None; so_json := "{}" |};
     response_requestId := None; response_status := 200 |}.

(** The database alone answers, and the broker with [answer]. *)
Definition demo_reply (answer : BrokerError + BrokerResponse) := reply Qdiv (λ _, answer) 200.

Definition demo_reconcile (t : Target) (now : Z) : prog ReconciliationCommand.effect TargetOutcome :=
  reconcile_target demo_digest demo_document String.leb demo_stable no_time no_time demo_fence now t.

(** Reconciling every listed order once. *)
Definition demo_reconcile_all (now : Z) : async ReconciliationCommand.effect ReconciliationResult :=
  reconcilePostgresPaperOrders demo_digest demo_document String.leb demo_stable no_time no_time
    {| ri_fence := demo_fence; ri_now := Some now; ri_externalBrokerOrderId := None; ri_syncBrokerState := false;
       ri_clientOrderId := None |}.
Definition demo_pass (now : Z) (answer : BrokerError + BrokerResponse) (d : ReconcileDb)
    : res ReconciliationResult * ReconcileDb :=
  run (demo_reply answer) (demo_reconcile_all now) d.
Definition demo_after (now : Z) (answer : BrokerError + BrokerResponse) (d : ReconcileDb) : ReconcileDb :=
  snd (demo_pass now answer d).

Definition amounts (d : ReconcileDb) : list (Q * ReservationStatus) * list (Q * Q) :=
  (map (λ r, (Qred (resv_amount r), resv_status r)) (db_reservations (rows d)),
   map (λ a, (Qred (alloc_reserved a), Qred (alloc_deployed a))) (db_allocations (rows d))).

(** Committed on acceptance, deployed when filled; a partial fill deploys its share. *)
Example demo_fill_deploys :
  amounts (v_db demo_accepted) = ([(300%Q, ReservationCommitted)], [(300%Q, 0%Q)]) ∧
  amounts (demo_after 200 (inr (demo_answer "partially_filled" "0.4")) (v_db demo_accepted)) =
    ([(180%Q, ReservationCommitted)], [(180%Q, 120%Q)]) ∧
  amounts (demo_after 200 (inr (demo_answer "filled" "1")) (v_db demo_accepted)) =
    ([(300%Q, ReservationReleased)], [(0%Q, 300%Q)]).
Proof. split_and!; run. Qed.

(** ** Targets, answers and parameters *)

Definition demo_listed : {t | head (list_targets EmptyString (v_db demo_accepted)) = Some t}.
Proof. eexists. run. Defined.
Definition demo_order_target : Target := proj1_sig demo_listed.

Definition demo_read : {s | read_answer no_time demo_order_target (demo_answer "filled" "1") 200 = Ret s}.
Proof. eexists. run. Defined.
Definition demo_seen : Seen := proj1_sig demo_read.

Definition demo_observed :
  {o | observation_of demo_digest demo_document String.leb demo_stable no_time demo_order_target
         (demo_answer "filled" "1") demo_seen 200 = Ret o}.
Proof. eexists. run. Defined.

Definition store_statement : Statement ObservationCounts := StoreObservation demo_fence (proj1_sig demo_observed).
Definition settle_statement : Statement SettlementCounts :=
  SettleTerminal demo_fence (settlement_of demo_stable demo_order_target "reservation1" demo_seen 200).

Definition demo_stored : RecoveryDb := next (reconcile demo_outside store_statement) demo_accepted.
Definition demo_settled : RecoveryDb := next (reconcile demo_outside settle_statement) demo_stored.

Lemma demo_settled_history : history demo_outside demo_start_db demo_settled.
Proof.
  unfold demo_settled. apply then_reconciliation; [|run]. unfold demo_stored. apply then_reconciliation; [|run].
  exact demo_accepted_history.
Qed.

(** The 300 dollars are held at the start, and settled and deployed at the end. *)
Lemma tables_implement_ledger_witness :
  rtc ledger_step (ledger "acct" "core" (books (records demo_start_db)))
    (ledger "acct" "core" (books (records demo_settled))) ∧
  lg_held (ledger "acct" "core" (books (records demo_start_db))) !! "reservation1"%string = Some 30000000000 ∧
  lg_held (ledger "acct" "core" (books (records demo_settled))) !! "reservation1"%string = None ∧
  lg_deployed (ledger "acct" "core" (books (records demo_settled))) = 30000000000.
Proof.
  split_and!; [|run|run|run].
  exact (proj1 (proj2 (tables_implement_ledger _ _ _ demo_books_ok demo_settled_history) "acct" "core")%string).
Defined.

Definition expire_later : RecoveryStatement ExpiryCounts := ExpireReservations demo_fence 9500.
Definition demo_expired_db : RecoveryDb := next (recover demo_outside expire_later) demo_start_db.

Lemma demo_settled_ok : ledger_ok (books (records demo_settled)).
Proof. exact (proj1 (history_simulates _ _ _ demo_settled_history demo_books_ok)). Qed.

Definition expire_reviews_statement : RecoveryStatement nat := ExpireReviews demo_fence 200000.
Definition demo_later : RecoveryDb := next (recover demo_outside expire_reviews_statement) demo_settled.

Lemma then_recovery o {A} (s : RecoveryStatement A) d d' :
  history o d d' → succeeds (recover o s) d' = true → history o d (next (recover o s) d').
Proof.
  intros Hh Hs. eapply rtc_r; [exact Hh|]. unfold next, succeeds in *. destruct (recover o s d') as [[a x]|] eqn:E; [|done].
  by apply (step_recovery o d' A s a x).
Qed.

Lemma demo_later_history : history demo_outside demo_settled demo_later.
Proof. unfold demo_later. apply then_recovery; [apply rtc_refl|run]. Qed.

Lemma settled_reservation_stays_settled_witness :
  ∃ r, In r (db_reservations (records demo_settled)) ∧ unsettled r = false ∧
  ∀ r', In r' (db_reservations (records demo_later)) → resv_id r' = resv_id r → unsettled r' = false.
Proof.
  destruct (db_reservations (records demo_settled)) as [|r l] eqn:E; [exfalso; revert E; by vm_compute|].
  assert (Hr : In r (db_reservations (records demo_settled))) by (rewrite E; by left).
  assert (Hu : unsettled r = false).
  { assert (forallb (λ x, negb (unsettled x)) (db_reservations (records demo_settled)) = true) as H by run.
    rewrite forallb_forall in H. by apply negb_true_iff, H. }
  exists r. split_and!; [by left|done|].
  exact (proj1 (settled_reservation_stays_settled demo_outside demo_settled demo_later r demo_settled_ok
    demo_later_history Hr Hu)).
Defined.

(** ** Expired, then filled *)

Lemma demo_sent_ok : ledger_ok (books (records demo_sent)).
Proof.
  refine (proj1 (history_simulates demo_outside _ _ _ demo_books_ok)). unfold demo_sent.
  apply then_submission; [|run]. unfold demo_taken. apply then_submission; [apply rtc_refl|run].
Qed.

(** The answer for the order that is still pending. *)
Definition demo_pending_listed : {t | head (list_targets EmptyString (v_db demo_sent)) = Some t}.
Proof. eexists. run. Defined.
Definition demo_pending : Target := proj1_sig demo_pending_listed.
Definition demo_pending_read : {s | read_answer no_time demo_pending (demo_answer "filled" "1") 200 = Ret s}.
Proof. eexists. run. Defined.
Definition demo_late : Seen := proj1_sig demo_pending_read.
Definition demo_pending_observed :
  {o | observation_of demo_digest demo_document String.leb demo_stable no_time demo_pending
         (demo_answer "filled" "1") demo_late 9600 = Ret o}.
Proof. eexists. run. Defined.
Definition late_statement : Statement ObservationCounts := StoreObservation demo_fence (proj1_sig demo_pending_observed).

Lemma ret_pair {A B} (m : res (A * B)) p : m = Ret p → m = Ret (fst p, snd p).
Proof. by destruct p. Qed.

Definition demo_expiry : {p | expire_reservations demo_digest demo_fence 9500 (submission demo_sent) = Ret p}.
Proof. eexists. run. Defined.
Definition demo_expired : RecoveryDb := set_db (set_sub (snd (proj1_sig demo_expiry)) (v_db demo_sent)) demo_sent.
Definition demo_expired_filled : RecoveryDb := next (reconcile demo_outside late_statement) demo_expired.

Lemma demo_expired_filled_history : history demo_outside demo_expired demo_expired_filled.
Proof. unfold demo_expired_filled. apply then_reconciliation; [apply rtc_refl|run]. Qed.

Lemma expired_reservation_never_deployed_witness :
  run (reply Qdiv (λ _, inr (demo_answer "filled" "1")) 9600)
    (settle_reservation_of demo_stable demo_fence 9600 demo_pending demo_late) (v_db demo_expired_filled) =
    (Throw "POSTGRES_RECONCILIATION_RESERVATION_RELEASE_FAILED"%string, v_db demo_expired_filled) ∧
  map intent_status (db_intents (records demo_expired_filled)) = [IntentReconciled].
Proof.
  split; [|run]. assert (∃ r, db_reservations (records demo_sent) = [r] ∧ resv_id r = "reservation1"%string ∧
    is_expired 9500 r = true) as (r & Er & Hid & He).
  { eexists. split; [run|]. split; run. }
  refine (proj1 (expired_reservation_never_deployed demo_outside demo_fence 9500 (fst (proj1_sig demo_expiry))
    demo_sent (snd (proj1_sig demo_expiry)) demo_expired_filled r demo_pending demo_late Qdiv _ 9600 demo_fence 9600
    demo_sent_ok _ _ _ _ _ He demo_expired_filled_history _ _)).
  - exact (ret_pair _ _ (proj2_sig demo_expiry)).
  - run.
  - run.
  - run.
  - rewrite Er. by left.
  - rewrite Hid. run.
  - run.
Defined.

Open Scope Z_scope.

(** A run that stops at a request stops at one that [stop] accepts. *)
Lemma run_until_asks {E : Type → Type} {S A} (answer : ∀ X, E X → S → X * S) (stop : ∀ X, E X → bool) (p : prog E A) w :
  (if (run_until answer stop p w).2 is Ask _ _ then true else false) = true →
  ∃ l X (e : E X) k, path p l (Ask e k) ∧ stop X e = true.
Proof.
  intros H. pose proof (run_until_path answer stop p w) as Hp.
  assert (Hs : match (run_until answer stop p w).2 with Ask e _ => stop _ e = true | Done _ => True end).
  { clear H Hp. revert w. induction p as [a|X e k IH]; intros w; [done|]. cbn [run_until].
    destruct (stop X e) eqn:E0; [done|]. destruct (answer X e w) as [x w']. specialize (IH x w').
    by destruct (run_until answer stop (k x) w'). }
  destruct (run_until answer stop p w) as [l [a|X e k]]; [done|]. by exists l, X, e, k.
Qed.

(** ** Given up *)

Definition unknown_order : BrokerError := {| error_status := Some 404; error_message := "order not found" |}.

(** Three passes, two minutes after the attempt. *)
Definition demo_absent : ReconcileDb :=
  demo_after 130000 (inl unknown_order) (demo_after 125000 (inl unknown_order)
    (demo_after 122000 (inl unknown_order) (v_db demo_sent))).

Example demo_absences :
  map intent_status (db_intents (rows demo_absent)) = [IntentPending] ∧
  map intent_status (db_intents (rows (demo_after 140000 (inl unknown_order) demo_absent))) = [IntentFailed] ∧
  amounts (demo_after 140000 (inl unknown_order) demo_absent) = ([(300%Q, ReservationReleased)], [(0%Q, 0%Q)]).
Proof. split_and!; run. Qed.

Definition at_giving_up (X : Type) (e : ReconciliationCommand.effect X) : bool :=
  match gives_up e with Some _ => true | None => false end.

Lemma given_up_only_after_four_absences_witness :
  ∃ l, absence_established 140000 demo_pending l.
Proof.
  destruct (run_until_asks (demo_reply (inl unknown_order)) at_giving_up (demo_reconcile demo_pending 140000) demo_absent)
    as (l & X & e & k & Hp & Hs); [run|]. exists l.
  assert (∃ t', gives_up e = Some t') as [t' Ht] by (unfold at_giving_up in Hs; destruct (gives_up e); by eauto).
  exact (proj1 (proj2 (given_up_only_after_four_absences demo_digest demo_document String.leb demo_stable no_time no_time
    demo_fence 140000 demo_pending l X e k t' Hp Ht))).
Defined.

(** ** Every target *)

Definition never (X : Type) (e : ReconciliationCommand.effect X) : bool := false.

Definition demo_targets : list Target := [demo_pending; demo_order_target].
Definition demo_tally : prog ReconciliationCommand.effect ReconciliationResult :=
  reconcile_targets demo_digest demo_document String.leb demo_stable no_time no_time demo_fence 200 demo_targets empty_result.

Lemma every_target_accounted_for_witness :
  ∃ l r, lookups l = ["client1"; "client1"]%string ∧ checked r = 2%nat ∧ accounted_for r = 2%nat.
Proof.
  pose proof (run_until_path (demo_reply (inr (demo_answer "filled" "1"))) never demo_tally (v_db demo_sent)) as Hp.
  assert (Hd : (if (run_until (demo_reply (inr (demo_answer "filled" "1"))) never demo_tally (v_db demo_sent)).2
                is Done _ then true else false) = true) by run.
  destruct (run_until _ never demo_tally _) as [l [r|X e k]]; [|done]. exists l, r.
  exact (every_target_accounted_for demo_digest demo_document String.leb demo_stable no_time no_time demo_fence 200
    demo_targets l r Hp).
Defined.

(** ** A recorded answer *)

Definition demo_store (t : Target) (answer : BrokerResponse) (seen : Seen) (d : ReconcileDb) : res nat * ReconcileDb :=
  run (demo_reply (inr answer))
    (store demo_digest demo_document String.leb demo_stable no_time demo_fence 200 t answer seen) d.

Lemma recorded_answer_moves_intent_witness :
  ∃ n d', demo_store demo_order_target (demo_answer "filled" "1") demo_seen (v_db demo_accepted) = (Ret n, d') ∧
    Forall (λ s, snd s ∈ TradeLifecycle.transitions (fst s)) (path_steps (seen_path demo_seen)) ∧
    map intent_status (db_intents (rows d')) = [IntentReconciled].
Proof.
  assert (Hr : (if (demo_store demo_order_target (demo_answer "filled" "1") demo_seen (v_db demo_accepted)).1
                is Ret _ then true else false) = true) by run.
  assert (Hs : map intent_status (db_intents (rows
      (demo_store demo_order_target (demo_answer "filled" "1") demo_seen (v_db demo_accepted)).2)) = [IntentReconciled])
    by run.
  destruct (demo_store _ _ _ _) as [[n|code] d'] eqn:E; [|done]. exists n, d'. split; [done|]. split; [|exact Hs].
  destruct (recorded_answer_moves_intent _ _ _ _ _ _ _ _ _ _ _ _ _ _ _ _ E) as (o & i & l & _ & _ & _ & Hall & _).
  exact Hall.
Defined.

(** ** An exit order whose key is used up *)

Definition exit_review : ReviewRow :=
  {| review_input :=
       {| rv_id := "review1"; rv_reviewType := ReviewExit; rv_status := ReviewValid;
          rv_clientOrderId := Some "client1"%string; rv_accountFingerprint := "portfolio";
          rv_sourceRecommendationId := None; rv_sourceSnapshotId := None; rv_configurationFingerprint := "cf";
          rv_payloadFingerprint := "pf1"; rv_signatureAlgorithm := "hmac"; rv_signature := "sig";
          rv_orderIntent := "order"; rv_marketEvidence := "market"; rv_portfolioEvidence := "{}"; rv_warnings := "[]";
          rv_blockers := "[]"; rv_requestId := None; rv_correlationId := None; rv_expiresAt := 100000; rv_createdAt := 60 |};
     review_account_id := "acct"; review_candidate_id := None; review_status := ReviewValid; review_consumed_at := None;
     review_version := 1; review_updated_at := 60 |}.

(** The exit order, without a reservation. *)
Definition exit_intent (status : IntentStatus) : IntentRow :=
  set_intent status None (intent_confirmation_id demo_intent) "lf1" (Some 80) None None 80 demo_intent.

Definition exit_db (status : IntentStatus) (state : string) : SubmissionDb :=
  {| s_now := 100;
     s_exec := set_reviews [exit_review] (set_confirmations [demo_confirmation] (set_intents [exit_intent status]
                 demo_with_snapshot));
     s_lifecycle := [in_state state demo_columns];
     s_candidates := s_candidates demo_ready;
     s_terminals := [] |}.

(** Its submission is ambiguous, a pass discovers it, its cancellation is asked
    for and stays without an answer. *)
Definition exit_discovered : ReconcileDb :=
  demo_after 200 (inr (demo_answer "new" "0")) (v_db (recovery_db (exit_db IntentAmbiguous "exit_submission_ambiguous"))).
Definition exit_cancelling : ReconcileDb :=
  set_sub (set_lifecycle [in_state "cancel_ambiguous" demo_columns] (r_sub exit_discovered)) exit_discovered.

Definition exit_listed : {t | head (list_targets EmptyString exit_cancelling) = Some t}.
Proof. eexists. run. Defined.
Definition exit_target : Target := proj1_sig exit_listed.
Definition exit_read : {s | read_answer no_time exit_target (demo_answer "filled" "1") 200 = Ret s}.
Proof. eexists. run. Defined.
Definition exit_seen : Seen := proj1_sig exit_read.

(** The filled exit is an error of every pass. *)
Example exit_never_reconciled :
  let answer := inr (demo_answer "filled" "1") in
  let failed := [("intent1", "POSTGRES_RECONCILIATION_INTENT_PERSISTENCE_FAILED")]%string in
  match demo_pass 300 answer exit_cancelling with
  | (Ret r, d) => errors r = failed ∧ map intent_status (db_intents (rows d)) = [IntentSubmitted] ∧
      match demo_pass 400 answer d with (Ret r', _) => errors r' = failed | _ => False end
  | _ => False
  end.
Proof. vm_compute. by repeat split. Qed.

Lemma reused_transition_key_blocks_witness :
  let out := demo_store exit_target (demo_answer "filled" "1") exit_seen exit_cancelling in
  (∃ code, out.1 = Throw code) ∧ used_key "intent1" exit_seen out.2 = true.
Proof.
  cbv zeta. destruct (demo_store exit_target (demo_answer "filled" "1") exit_seen exit_cancelling) as [r d'] eqn:E.
  assert (Hne : path_steps (seen_path exit_seen) ≠ []) by (intros H; by vm_compute in H).
  assert (Hused : used_key (t_order_intent_id exit_target) exit_seen exit_cancelling = true) by run.
  destruct (reused_transition_key_blocks _ _ _ _ _ _ _ _ _ _ _ _ _ _ _ _ Hne Hused E) as (Hr & _ & Hu).
  split; [exact Hr|]. exact Hu.
Defined.

(** ** An exit order that recovery drops *)

Definition exit_ready : RecoveryDb := recovery_db (exit_db IntentReady "exit_ready_for_submission").

Definition demo_recovery_reply (answer : BrokerError + BrokerResponse) :=
  recovery_reply demo_digest (o_merge demo_outside) (o_timestamp_json demo_outside) (λ _, answer) 200.

Lemma recovery_cancels_ready_exits_witness :
  ∃ c' d', run (demo_recovery_reply (inl unknown_order)) (recover_stale demo_fence 200 ("intent1", "client1")%string
      (no_stale 1)) exit_ready = (Ret c', d') ∧ staleReadyCancelled c' = 1%nat ∧
    ∃ j, In j (db_intents (records d')) ∧ intent_id j = "intent1"%string ∧ intent_status j = IntentCancelled.
Proof.
  assert (Hv : ∃ r, review_of (records exit_ready) (exit_intent IntentReady) = Some r) by (eexists; run).
  assert (Hc : ∃ cs, source_of exit_ready (exit_intent IntentReady) = Some cs) by (eexists; run).
  destruct Hv as [r Hv], Hc as [cs Hc].
  refine (proj2 (recovery_cancels_ready_exits demo_digest (o_merge demo_outside) (o_timestamp_json demo_outside)
    demo_fence 200 200 exit_ready (exit_intent IntentReady) r cs (no_stale 1) unknown_order _ _ _ _ _ _ Hv Hc _ _ _ _));
    [apply NoDup_singleton|run|by left|run|run|run|run| |done|run]. cbn. lia.
Defined.

Definition at_cancelling (X : Type) (e : recovery_effect X) : bool :=
  match cancels e with Some id => (id =? "intent1")%string | None => false end.

Lemma recovery_asks_before_cancelling_witness :
  ∃ l clientOrderId, listed demo_fence 200 l "intent1" clientOrderId ∧ absence_heard demo_fence 200 l clientOrderId.
Proof.
  destruct (run_until_asks (demo_recovery_reply (inl unknown_order)) at_cancelling
    (runAutonomousPostgresRecovery demo_fence 200 true) exit_ready) as (l & X & e & k & Hp & Hs); [run|].
  exists l. assert (cancels e = Some "intent1"%string) as He.
  { unfold at_cancelling in Hs. destruct (cancels e); [|done]. by apply String.eqb_eq in Hs as ->. }
  exact (recovery_asks_before_cancelling demo_fence 200 true l X e k _ Hp He).
Defined.
