(* ===== verification/ReviewConfiguration.v ===== *)
(** What the reviews are configured with: src/services/paperExplorationConfig.ts,
    src/services/leapsEntryAllocationService.ts and src/services/leapsExitPolicy.ts.

    The environment is a function from names to values. *)

From Stdlib Require Import Floats.
From S2P Require Import Prelude.
From S2P Require Import JsString.
From S2P Require Import JsDate.
From S2P Require Import JsNumber.
From S2P Require Import JsText.
From S2P Require Import AlpacaClient.
From S2P Require Import SubmitConfiguration.
Open Scope Z_scope.

(** ** Reading numbers *)

(** [Number.parseInt(s, 10)] *)
Definition parse_int (s : string) : number :=
  let '(negative, unsigned) := span_sign (trim_left s) in
  let '(d, _) := span_digits unsigned in
  if str_truthy d then (if negative then (- num_of_decimal (digits_val 0 d) 0)%float else num_of_decimal (digits_val 0 d) 0)
  else nan.

(** The exponent at the beginning of a text; a bare [e] is none. *)
Definition leading_exponent (s : string) : option (bool * string) :=
  match s with
  | String c r =>
      if (c =? "e")%char || (c =? "E")%char then
        let '(negative, r') := span_sign r in
        let '(d, _) := span_digits r' in
        if str_truthy d then Some (negative, d) else None
      else None
  | EmptyString => None
  end.

(** [Number.parseFloat(s)]: the longest decimal literal at the beginning. *)
Definition parse_float (s : string) : number :=
  let '(negative, unsigned) := span_sign (trim_left s) in
  let sgn x := if negative then (- x)%float else x in
  let '(whole, rest) := span_digits unsigned in
  let '(fraction, rest') :=
    match rest with
    | String "." r => let '(f, r') := span_digits r in
                      if str_truthy whole || str_truthy f then (f, r') else (EmptyString, rest)
    | _ => (EmptyString, rest)
    end in
  if str_truthy whole || str_truthy fraction then sgn (decimal_number (whole, fraction, leading_exponent rest'))
  else if String.prefix "Infinity" unsigned then sgn infinity
  else nan.

Definition normalized (value : option string) : option string := (λ v, to_lower (trim v)) <$> value.

Definition explicitlyPaperOnly (env : Environment) : bool :=
  let says name text := bool_decide (normalized (env name) = Some text) in
  (says "ALPACA_ENV" "paper" && says "TRADING_MODE" "paper" && says "ALPACA_LIVE_TRADE" "false"
   && says "LIVE_TRADING_ENABLED" "false")%string.

(** ** Exploration thresholds *)

Record PaperExplorationThresholds := {
  directionScore : number;
  minimumDirectionalConfidence : number;
  minimumOptionLiquidityScore : number;
  maximumOptionSpreadPct : number;
  minimumLongOptionConfidence : number;
  minimumAggressiveOptionConfidence : number;
  minimumDefinedRiskConfidence : number;
  minimumOptionExpectedReturnPct : number;
  minimumDefinedRiskExpectedReturnPct : number;
  maxCandidates : number;
  maxOrderNotional : number
}.

Definition BASELINE_DECISION_THRESHOLDS : PaperExplorationThresholds :=
  {| directionScore := 0.25; minimumDirectionalConfidence := 0.35; minimumOptionLiquidityScore := 0.5;
     maximumOptionSpreadPct := 0.08; minimumLongOptionConfidence := 0.5; minimumAggressiveOptionConfidence := 0.7;
     minimumDefinedRiskConfidence := 0.8; minimumOptionExpectedReturnPct := 1;
     minimumDefinedRiskExpectedReturnPct := 1.5; maxCandidates := 10; maxOrderNotional := 1000 |}.

Definition PAPER_EXPLORATION_V1_THRESHOLDS : PaperExplorationThresholds :=
  {| directionScore := 0.15; minimumDirectionalConfidence := 0.25; minimumOptionLiquidityScore := 0.35;
     maximumOptionSpreadPct := 0.12; minimumLongOptionConfidence := 0.4; minimumAggressiveOptionConfidence := 0.6;
     minimumDefinedRiskConfidence := 0.7; minimumOptionExpectedReturnPct := 0.75;
     minimumDefinedRiskExpectedReturnPct := 1; maxCandidates := 25; maxOrderNotional := 1000 |}.

Definition PAPER_EXPLORATION_V2_THRESHOLDS : PaperExplorationThresholds :=
  {| directionScore := 0.05; minimumDirectionalConfidence := 0.1; minimumOptionLiquidityScore := 0.1;
     maximumOptionSpreadPct := 0.15; minimumLongOptionConfidence := 0.25; minimumAggressiveOptionConfidence := 0.4;
     minimumDefinedRiskConfidence := 0.5; minimumOptionExpectedReturnPct := 0.25;
     minimumDefinedRiskExpectedReturnPct := 0.5; maxCandidates := 25; maxOrderNotional := 1000 |}.

Definition PAPER_EXPLORATION_V3_THRESHOLDS : PaperExplorationThresholds :=
  {| directionScore := 0.04; minimumDirectionalConfidence := 0.05; minimumOptionLiquidityScore := 0.1;
     maximumOptionSpreadPct := 0.15; minimumLongOptionConfidence := 0.2; minimumAggressiveOptionConfidence := 0.35;
     minimumDefinedRiskConfidence := 0.45; minimumOptionExpectedReturnPct := 0.2;
     minimumDefinedRiskExpectedReturnPct := 0.4; maxCandidates := 25; maxOrderNotional := 1000 |}.

(** [Number(undefined)] is NaN. *)
Definition env_number (value : option string) : number := match value with Some v => num_of_text v | None => nan end.

Definition boundedNumber (value : option string) (fallback minimum maximum : number) : number :=
  let parsed := env_number value in
  if num_is_finite parsed && (minimum <=? parsed)%float && (parsed <=? maximum)%float then parsed else fallback.

Definition boundedInteger (value : option string) (fallback minimum maximum : number) : number :=
  let parsed := env_number value in
  if num_is_safe_integer parsed && (minimum <=? parsed)%float && (parsed <=? maximum)%float then parsed else fallback.

Definition paperExplorationThresholds (env : Environment) : PaperExplorationThresholds :=
  let B := BASELINE_DECISION_THRESHOLDS in
  let V := PAPER_EXPLORATION_V3_THRESHOLDS in
  if negb (explicitlyPaperOnly env) then B
  else
  {| directionScore := boundedNumber (env "PAPER_EXPLORATION_DIRECTION_SCORE"%string) (directionScore V) 0.04 (directionScore B);
     minimumDirectionalConfidence := boundedNumber (env "PAPER_EXPLORATION_MIN_DIRECTIONAL_CONFIDENCE"%string)
       (minimumDirectionalConfidence V) 0.05 (minimumDirectionalConfidence B);
     minimumOptionLiquidityScore := boundedNumber (env "PAPER_EXPLORATION_MIN_OPTION_LIQUIDITY_SCORE"%string)
       (minimumOptionLiquidityScore V) 0.1 (minimumOptionLiquidityScore B);
     maximumOptionSpreadPct := boundedNumber (env "PAPER_EXPLORATION_MAX_OPTION_SPREAD_PCT"%string)
       (maximumOptionSpreadPct V) (maximumOptionSpreadPct B) 0.15;
     minimumLongOptionConfidence := boundedNumber (env "PAPER_EXPLORATION_MIN_LONG_OPTION_CONFIDENCE"%string)
       (minimumLongOptionConfidence V) 0.2 (minimumLongOptionConfidence B);
     minimumAggressiveOptionConfidence := boundedNumber (env "PAPER_EXPLORATION_MIN_AGGRESSIVE_OPTION_CONFIDENCE"%string)
       (minimumAggressiveOptionConfidence V) 0.35 (minimumAggressiveOptionConfidence B);
     minimumDefinedRiskConfidence := boundedNumber (env "PAPER_EXPLORATION_MIN_DEFINED_RISK_CONFIDENCE"%string)
       (minimumDefinedRiskConfidence V) 0.45 (minimumDefinedRiskConfidence B);
     minimumOptionExpectedReturnPct := boundedNumber (env "PAPER_EXPLORATION_MIN_OPTION_EXPECTED_RETURN_PCT"%string)
       (minimumOptionExpectedReturnPct V) 0.2 (minimumOptionExpectedReturnPct B);
     minimumDefinedRiskExpectedReturnPct := boundedNumber (env "PAPER_EXPLORATION_MIN_DEFINED_RISK_EXPECTED_RETURN_PCT"%string)
       (minimumDefinedRiskExpectedReturnPct V) 0.4 (minimumDefinedRiskExpectedReturnPct B);
     maxCandidates := boundedInteger (env "PAPER_EXPLORATION_MAX_CANDIDATES"%string) (maxCandidates V) (maxCandidates B) 25;
     maxOrderNotional := boundedNumber (env "PAPER_EXPLORATION_MAX_ORDER_NOTIONAL"%string)
       (maxOrderNotional V) 50 (maxOrderNotional B) |}.

(** The thresholds of a profile, [previous] and [current] under each name. *)
Definition paperExplorationProfile (thresholds : PaperExplorationThresholds) : list (string * (number * number)) :=
  map (λ e, (fst e, (snd e PAPER_EXPLORATION_V2_THRESHOLDS, snd e thresholds)))
    [("directionScore", directionScore); ("directionalConfidence", minimumDirectionalConfidence);
     ("optionLiquidityScore", minimumOptionLiquidityScore); ("maxOptionSpreadPct", maximumOptionSpreadPct);
     ("longOptionConfidence", minimumLongOptionConfidence);
     ("aggressiveOptionConfidence", minimumAggressiveOptionConfidence);
     ("definedRiskConfidence", minimumDefinedRiskConfidence);
     ("optionExpectedReturnPct", minimumOptionExpectedReturnPct);
     ("definedRiskExpectedReturnPct", minimumDefinedRiskExpectedReturnPct); ("maxCandidates", maxCandidates);
     ("maxOrderNotional", maxOrderNotional)]%string.

Inductive DirectionalScore : Set := long_score | short_score | neutral_score.

Definition classifyDirectionalScore (score threshold : number) : DirectionalScore :=
  if (threshold <? score)%float then long_score
  else if (score <? - threshold)%float then short_score else neutral_score.

(** ** Exits of LEAPS *)

Definition integer (value : option string) (fallback : number) : number :=
  let parsed := parse_int (default EmptyString value) in if num_is_finite parsed then parsed else fallback.

Definition parsed_number (value : option string) (fallback : number) : number :=
  let parsed := parse_float (default EmptyString value) in if num_is_finite parsed then parsed else fallback.

Record LeapsExitConfig := {
  minDteAtEntry : number;
  dteExitThreshold : number;
  reviewLossPct : number;
  hardStopLossPct : number;
  partialProfitTakePct : number;
  fullProfitTakePct : number;
  trendReviewSma : number;
  severeTrendExitSma : number;
  maxBidAskSpreadPct : number;
  minDeltaReview : number;
  reviewIntervalDays : number
}.

Definition paperLeapsExitConfig (env : Environment) : LeapsExitConfig :=
  {| minDteAtEntry := math_max 1 (integer (env "LEAPS_MIN_DTE_AT_ENTRY"%string) 270);
     dteExitThreshold := math_max 0 (integer (env "LEAPS_DTE_EXIT_THRESHOLD"%string) 180);
     reviewLossPct := parsed_number (env "LEAPS_REVIEW_LOSS_PCT"%string) (-20);
     hardStopLossPct := parsed_number (env "LEAPS_HARD_STOP_LOSS_PCT"%string) (-35);
     partialProfitTakePct := parsed_number (env "LEAPS_PARTIAL_PROFIT_TAKE_PCT"%string) 75;
     fullProfitTakePct := parsed_number (env "LEAPS_FULL_PROFIT_TAKE_PCT"%string) 125;
     trendReviewSma := math_max 1 (integer (env "LEAPS_TREND_REVIEW_SMA"%string) 100);
     severeTrendExitSma := math_max 1 (integer (env "LEAPS_SEVERE_TREND_EXIT_SMA"%string) 200);
     maxBidAskSpreadPct := math_max 0 (parsed_number (env "LEAPS_MAX_BID_ASK_SPREAD_PCT"%string) 20);
     minDeltaReview := math_max 0 (parsed_number (env "LEAPS_MIN_DELTA_REVIEW"%string) 0.45);
     reviewIntervalDays := math_max 1 (integer (env "LEAPS_REVIEW_INTERVAL_DAYS"%string) 30) |}.

(** ** Entries of LEAPS *)

Definition MAX_LEAPS_ENTRY_CAPITAL_USD : number := 5000.
Definition LEAPS_CONTRACT_MULTIPLIER : number := 100.

Inductive LeapsEntryAllocationFailureReason : Set := LeapsAllocationInvalid | LeapsPaperOnlyRequired.

Definition allocation_failure_code (r : LeapsEntryAllocationFailureReason) : string :=
  match r with
  | LeapsAllocationInvalid => "LEAPS_ENTRY_ALLOCATION_INVALID"
  | LeapsPaperOnlyRequired => "LEAPS_PAPER_ONLY_REQUIRED"
  end.

Definition validAllocation (value : number) : bool :=
  num_is_finite value && (0 <? value)%float && (value <=? MAX_LEAPS_ENTRY_CAPITAL_USD)%float.

Definition resolveLeapsEntryAllocation (env : Environment) : LeapsEntryAllocationFailureReason + number :=
  if negb (explicitlyPaperOnly env) then inl LeapsPaperOnlyRequired
  else match env "LEAPS_MAX_ENTRY_CAPITAL_USD"%string with
       | None => inr MAX_LEAPS_ENTRY_CAPITAL_USD
       | Some configured =>
           if negb (str_truthy (trim configured)) then inl LeapsAllocationInvalid
           else let maxEntryCapitalUsd := num_of_text configured in
                if validAllocation maxEntryCapitalUsd then inr maxEntryCapitalUsd else inl LeapsAllocationInvalid
       end.

Inductive LeapsEntrySizingFailureReason : Set :=
| CostExceedsAllocation | MultiplierInvalid | AllocationInvalid | QuantityInvalid | PremiumInvalid
| CapitalInsufficient | CapitalInvalid.

Definition sizing_failure_code (r : LeapsEntrySizingFailureReason) : string :=
  match r with
  | CostExceedsAllocation => "LEAPS_CONTRACT_COST_EXCEEDS_ALLOCATION"
  | MultiplierInvalid => "LEAPS_CONTRACT_MULTIPLIER_INVALID"
  | AllocationInvalid => "LEAPS_ENTRY_ALLOCATION_INVALID"
  | QuantityInvalid => "LEAPS_ENTRY_QUANTITY_INVALID"
  | PremiumInvalid => "LEAPS_EXECUTABLE_PREMIUM_INVALID"
  | CapitalInsufficient => "LEAPS_VALIDATED_AVAILABLE_CAPITAL_INSUFFICIENT"
  | CapitalInvalid => "LEAPS_VALIDATED_AVAILABLE_CAPITAL_INVALID"
  end.

Record LeapsEntrySizingInput := {
  li_executablePremium : number;
  li_contractMultiplier : number;
  li_maxEntryCapitalUsd : number;
  li_availableCapitalUsd : number
}.

Record LeapsEntrySizingResult := {
  ls_configuredPerEntryAllocationUsd : number;
  ls_executablePremium : number;
  ls_contractMultiplier : number;
  ls_contractCostUsd : option number;
  ls_positionCostUsd : number;
  ls_availableCapitalUsd : number;
  ls_quantity : number;
  ls_reason : option LeapsEntrySizingFailureReason
}.

Definition sizingResult (input : LeapsEntrySizingInput) (contractCostUsd : option number) (quantity : number)
    (reason : option LeapsEntrySizingFailureReason) : LeapsEntrySizingResult :=
  {| ls_configuredPerEntryAllocationUsd := li_maxEntryCapitalUsd input;
     ls_executablePremium := li_executablePremium input; ls_contractMultiplier := li_contractMultiplier input;
     ls_contractCostUsd := contractCostUsd;
     ls_positionCostUsd := match contractCostUsd with Some c => (c * quantity)%float | None => zero end;
     ls_availableCapitalUsd := li_availableCapitalUsd input; ls_quantity := quantity; ls_reason := reason |}.

Definition sizeLeapsEntry (input : LeapsEntrySizingInput) : LeapsEntrySizingResult :=
  let fails cost reason := sizingResult input cost zero (Some reason) in
  if negb (num_is_finite (li_executablePremium input)) || (li_executablePremium input <=? 0)%float
  then fails None PremiumInvalid
  else if negb (li_contractMultiplier input =? LEAPS_CONTRACT_MULTIPLIER)%float then fails None MultiplierInvalid
  else
  let cost := (li_executablePremium input * li_contractMultiplier input)%float in
  if negb (num_is_finite cost) || (cost <=? 0)%float then fails None PremiumInvalid
  else if negb (validAllocation (li_maxEntryCapitalUsd input)) then fails (Some cost) AllocationInvalid
  else if negb (num_is_finite (li_availableCapitalUsd input)) || (li_availableCapitalUsd input <? 0)%float
  then fails (Some cost) CapitalInvalid
  else if (li_maxEntryCapitalUsd input <? cost)%float then fails (Some cost) CostExceedsAllocation
  else if (li_availableCapitalUsd input <? cost)%float then fails (Some cost) CapitalInsufficient
  else
  let quantity := math_floor (math_min (li_maxEntryCapitalUsd input) (li_availableCapitalUsd input) / cost)%float in
  if negb (num_is_safe_integer quantity) || (quantity <? 1)%float then fails (Some cost) QuantityInvalid
  else sizingResult input (Some cost) quantity None.

(** ** Facts *)

Lemma boundedNumber_between value fallback minimum maximum :
  between minimum maximum fallback → between minimum maximum (boundedNumber value fallback minimum maximum).
Proof.
  intros H. unfold boundedNumber. destruct (_ && _) eqn:E; [|done].
  apply andb_true_iff in E as [[H1 H2]%andb_true_iff H3]. done.
Qed.

