(* ===== verification/ReviewEvidence.v ===== *)
(** What a review is made from: the rows of candidates and positions with their
    market data, and the checks on them, lines 35 to 440 of
    src/services/postgresReviewWorkflowService.ts.

    A numeric column arrives as text, a timestamp as a Date (milliseconds), a
    jsonb column as a document.  [json_parse] is JSON.parse on a document that was
    stored as a text, [new_york] the calendar of America/New_York in the engine's
    time zone data; [quoteMaxAgeMs] is what optionsQuoteConfig() returns. *)

From Stdlib Require Import Floats.
From S2P Require Import Prelude.
From S2P Require Import JsString.
From S2P Require Import JsDate.
From S2P Require Import JsNumber.
From S2P Require Import JsText.
From S2P Require Import JsJson.
From S2P Require Import OptionSymbol.
From S2P Require Import SchedulerLease.
From S2P Require Import ExecutionTables.
From S2P Require Import ExecutionReservation.
From S2P Require Import Submission.
From S2P Require Import SubmitConfiguration.
From S2P Require Import BrokerSnapshot.
From S2P Require Import ReviewConfiguration.
Open Scope Z_scope.

(** ** Rows *)

(** The market data of a row: its price, and for an option the contract and the
    SIP quote of the underlying.  [mr_option_symbol] is
    [row.option_symbol ?? row.order_symbol]. *)
Record MarketRow := {
  mr_symbol : string;
  mr_asset_class : ExecutionAssetClass;
  mr_option_symbol : option string;
  mr_market_price : option string;
  mr_market_timestamp : Z;
  mr_market_request_id : option string;
  mr_market_evidence : option jvalue;
  mr_contract_option_symbol : option string;
  mr_contract_id : option string;
  mr_contract_underlying_symbol : option string;
  mr_contract_type : option string;
  mr_contract_expiration_date : option Z;
  mr_contract_tradable : option bool;
  mr_contract_status : option string;
  mr_contract_source : option string;
  mr_contract_observed_at : option Z;
  mr_contract_multiplier : option string;
  mr_sip_underlying_symbol : option string;
  mr_sip_market_price : option string;
  mr_sip_market_timestamp : option Z;
  mr_sip_bid_price : option string;
  mr_sip_ask_price : option string;
  mr_sip_requested_feed : option string;
  mr_sip_effective_feed : option string;
  mr_sip_provider : option string;
  mr_sip_request_id : option string
}.

Definition is_option_row (row : MarketRow) : bool := bool_decide (mr_asset_class row = option_contract).

(** ** Reading values *)

(** [finite] of an unknown value, and of a text column. *)
Definition finite_value (v : option jvalue) : option number :=
  match v with
  | Some (JStr s) => if str_truthy (trim s) && num_is_finite (num_of_text s) then Some (num_of_text s) else None
  | Some (JNum t) => if num_is_finite (num_of_text t) then Some (num_of_text t) else None
  | _ => None
  end.
Definition finite (s : option string) : option number := finite_value (JStr <$> s).

Definition positiveOrInfinity (s : option string) : number :=
  match finite s with Some x => if (0 <=? x)%float then x else infinity | None => infinity end.

(** [String(column ?? EMPTY).trim()] in upper and in lower case. *)
Definition column_text (s : option string) : string := trim (default EmptyString s).
Definition upper_text (s : option string) : string := to_upper (column_text s).
Definition lower_text (s : option string) : string := to_lower (column_text s).

Definition isoDateOnly (date : option Z) : string :=
  match date with Some t => str_take 10 (iso_text t) | None => EmptyString end.

(** [{ ...a, ...b }]: the values of [b] at the keys of both. *)
Definition spread (a b : list (string * jvalue)) : list (string * jvalue) :=
  map (λ e, (fst e, default (snd e) (field b (fst e)))) a
  ++ List.filter (λ e, match field a (fst e) with Some _ => false | None => true end) b.

Section evidence.
Context (json_parse : string → option jvalue).

Definition jsonRecord (v : option jvalue) : list (string * jvalue) :=
  match v with
  | Some (JObj l) => l
  | Some (JStr s) =>
      if str_truthy (trim s) then match json_parse s with Some (JObj l) => l | _ => [] end else []
  | _ => []
  end.

Definition optionDecisionInputs (signal_inputs : option jvalue) : list (string * jvalue) :=
  jsonRecord (field (jsonRecord (field (jsonRecord signal_inputs) "marketDecisionInputs")) "option").

(** ** The quote of an option *)

Definition executableOptionEvidence (evidence : list (string * jvalue)) (maximumSpreadPct : number)
    (underlyingPrice : option number) : bool :=
  let feed name := to_lower (value_text name) in
  match finite_value (field evidence "bid"), finite_value (field evidence "ask"),
        finite_value (field evidence "spreadPct"), underlyingPrice,
        finite_value (field evidence "volume"), finite_value (field evidence "openInterest") with
  | Some bid, Some ask, Some spreadPct, Some price, Some volume, Some openInterest =>
      negb (bid <=? 0)%float && negb (ask <=? 0)%float && negb (ask <? bid)%float
      && negb (spreadPct <? 0)%float && negb (maximumSpreadPct <? spreadPct)%float && negb (price <=? 0)%float
      && negb (volume <? 0)%float && negb (openInterest <? 0)%float && negb (volume + openInterest <=? 0)%float
      && (feed (field evidence "requestedFeed") =? "opra")%string
      && (feed (nullish (field evidence "effectiveFeed") (field evidence "feed")) =? "opra")%string
      && (feed (field evidence "provider") =? "alpaca")%string
  | _, _, _, _, _, _ => false
  end.

Definition assertExecutableOptionReviewEvidence (row : MarketRow) (signal_inputs : option jvalue)
    (maximumSpreadPct : number) : res unit :=
  if negb (is_option_row row) then Ret tt
  else if executableOptionEvidence (spread (jsonRecord (mr_market_evidence row)) (optionDecisionInputs signal_inputs))
            maximumSpreadPct (finite (mr_sip_market_price row))
  then Ret tt
  else Throw ("POSTGRES_REVIEW_OPTION_QUOTE_INVALID:" ++ default (mr_symbol row) (mr_option_symbol row))%string.

(** ** The SIP quote of the underlying *)

Record SipEvidence := {
  sip_symbol : string;
  sip_referencePrice : number;
  sip_timestamp : Z;
  sip_requestId : option string;
  sip_bid : option number;
  sip_ask : option number;
  sip_requestedFeed : string;
  sip_effectiveFeed : string;
  sip_provider : string
}.

Inductive ErrorScope : Set := REVIEW | EXIT_REVIEW.
Definition scope_name (s : ErrorScope) : string := match s with REVIEW => "REVIEW" | EXIT_REVIEW => "EXIT_REVIEW" end.

(** [age < -60_000 || age > limit], with [age = now - t]. *)
Definition too_old (now t : Z) (limit : number) : bool :=
  (num_of_Z (now - t) <? -60000)%float || (limit <? num_of_Z (now - t))%float.

Definition FRESHNESS_SECONDS : number := 1800.

Definition or_text (a b : string) : string := if str_truthy a then a else b.

Definition assertFreshAlpacaSipUnderlying (row : MarketRow) (now : Z) (maxAgeSeconds : number) (errorScope : ErrorScope)
    : res (option SipEvidence) :=
  if negb (is_option_row row) then Ret None
  else
  let optionSymbol := upper_text (mr_option_symbol row) in
  let underlying := to_upper (trim (mr_symbol row)) in
  let sipUnderlying := upper_text (mr_sip_underlying_symbol row) in
  let requestedFeed := lower_text (mr_sip_requested_feed row) in
  let effectiveFeed := lower_text (mr_sip_effective_feed row) in
  let provider := lower_text (mr_sip_provider row) in
  let code kind := ("POSTGRES_" ++ scope_name errorScope ++ "_OPTION_UNDERLYING_SIP_" ++ kind ++ ":")%string in
  match finite (mr_sip_market_price row), mr_sip_market_timestamp row with
  | Some price, Some t =>
      if negb (str_truthy underlying) || negb (str_truthy optionSymbol)
         || negb (upper_text (mr_contract_underlying_symbol row) =? underlying)%string
         || negb (sipUnderlying =? underlying)%string || (price <=? 0)%float
         || negb (requestedFeed =? "sip")%string || negb (effectiveFeed =? "sip")%string
         || negb (provider =? "alpaca")%string
      then Throw (code "INVALID" ++ or_text optionSymbol underlying)%string
      else if too_old now (date_text_ms t) (math_min maxAgeSeconds FRESHNESS_SECONDS * 1000)%float
      then Throw (code "STALE" ++ optionSymbol)%string
      else Ret (Some {| sip_symbol := sipUnderlying; sip_referencePrice := price; sip_timestamp := date_text_ms t;
                        sip_requestId := mr_sip_request_id row; sip_bid := finite (mr_sip_bid_price row);
                        sip_ask := finite (mr_sip_ask_price row); sip_requestedFeed := requestedFeed;
                        sip_effectiveFeed := effectiveFeed; sip_provider := provider |})
  | _, _ => Throw (code "INVALID" ++ or_text optionSymbol underlying)%string
  end.

(** ** The contract of an option *)

Definition option_type_name (t : OptionSymbol.OptionType) : string :=
  match t with OptionSymbol.call => "call" | OptionSymbol.put => "put" end.

Definition contract_observed (row : MarketRow) : bool :=
  let optionSymbol := upper_text (mr_option_symbol row) in
  match OptionSymbol.parseOptionSymbol optionSymbol with
  | OptionSymbol.ParseSuccess parsed =>
      str_truthy (column_text (mr_contract_id row))
      && (upper_text (mr_contract_option_symbol row) =? optionSymbol)%string
      && (upper_text (mr_contract_underlying_symbol row) =? to_upper (trim (mr_symbol row)))%string
      && (isoDateOnly (mr_contract_expiration_date row) =? OptionSymbol.expirationDate parsed)%string
      && (lower_text (mr_contract_type row) =? option_type_name (OptionSymbol.optionType parsed))%string
      && bool_decide (mr_contract_tradable row = Some true)
      && (lower_text (mr_contract_status row) =? "active")%string
      && (lower_text (mr_contract_source row) =? "alpaca")%string
      && match finite (mr_contract_multiplier row) with
         | Some m => (m =? LEAPS_CONTRACT_MULTIPLIER)%float | None => false end
      && is_some_bool (mr_contract_observed_at row)
  | OptionSymbol.ParseFailure _ => false
  end.

Definition assertObservedOptionContract (row : MarketRow) : res unit :=
  if negb (is_option_row row) || contract_observed row then Ret tt
  else Throw ("POSTGRES_REVIEW_OPTION_CONTRACT_INVALID:"
              ++ or_text (upper_text (mr_option_symbol row)) (mr_symbol row))%string.

(** ** An entry *)

Record EntryEvidence := {
  en_marketTimestamp : Z;
  en_price : number;
  en_underlyingSip : option SipEvidence
}.

Context (quoteMaxAgeMs : number).

Definition validateEntryReviewEvidence (row : MarketRow) (signal_inputs : option jvalue) (now : Z)
    (maxMarketAgeSeconds maximumOptionSpreadPct : number) : res EntryEvidence :=
  let maxAge := (math_min maxMarketAgeSeconds (if is_option_row row then quoteMaxAgeMs / 1000 else infinity) * 1000)%float in
  if too_old now (mr_market_timestamp row) maxAge
  then Throw ("POSTGRES_REVIEW_MARKET_EVIDENCE_STALE:" ++ mr_symbol row)%string
  else match finite (mr_market_price row) with
  | None => Throw ("POSTGRES_REVIEW_MARKET_PRICE_MISSING:" ++ mr_symbol row)%string
  | Some price =>
      if (price <=? 0)%float then Throw ("POSTGRES_REVIEW_MARKET_PRICE_MISSING:" ++ mr_symbol row)%string
      else
        _ ← assertObservedOptionContract row;
        underlyingSip ← assertFreshAlpacaSipUnderlying row now maxMarketAgeSeconds REVIEW;
        _ ← assertExecutableOptionReviewEvidence row signal_inputs maximumOptionSpreadPct;
        mret {| en_marketTimestamp := mr_market_timestamp row; en_price := price; en_underlyingSip := underlyingSip |}
  end.

Definition REVIEW_PROPOSAL_ERROR_PREFIXES : list string :=
  ["POSTGRES_REVIEW_MARKET_EVIDENCE_STALE:"; "POSTGRES_REVIEW_OPTION_CONTRACT_INVALID:"]%string.

(** The errors that concern one candidate only. *)
Definition scopedReviewProposalReason (message : string) : option string :=
  if existsb (λ p, String.prefix p message) REVIEW_PROPOSAL_ERROR_PREFIXES then Some message else None.

Definition optionSizingScale (row : MarketRow) (signal_inputs : option jvalue) : number :=
  if negb (is_option_row row) then one
  else match finite_value (field (optionDecisionInputs signal_inputs) "selectionScore") with
       | None => one
       | Some s => math_max 0.25 (math_min 1 s)
       end.
End evidence.

(** ** The trading day *)

(** The parts of an instant in New York: the date as yyyy-mm-dd, hour, minute. *)
Record NewYorkParts := { ny_date : string; ny_hour : Z; ny_minute : Z }.

Section new_york.
Context (new_york : Z → NewYorkParts).

Definition newYorkTradingDate (now : Z) : string := ny_date (new_york now).

Definition isFinalThirtyMinutesForZeroDte (optionSymbol : string) (now : Z) : bool :=
  match OptionSymbol.parseOptionSymbol optionSymbol with
  | OptionSymbol.ParseSuccess parsed =>
      let minutes := ny_hour (new_york now) * 60 + ny_minute (new_york now) in
      (OptionSymbol.expirationDate parsed =? newYorkTradingDate now)%string
      && (15 * 60 + 30 <=? minutes) && (minutes <=? 16 * 60)
  | OptionSymbol.ParseFailure _ => false
  end.
End new_york.
