(* ===== verification/ExitEvaluation.v ===== *)
(** Which positions to close: the rows that [runExitReview] of
    src/services/postgresReviewWorkflowService.ts reads, and the evaluation of
    each of them.

    [ExitRow] has the columns the query of the open positions selects; [env] is
    the environment of the process. *)

From Stdlib Require Import Floats.
From S2P Require Import Prelude.
From S2P Require Import JsString.
From S2P Require Import JsDate.
From S2P Require Import JsNumber.
From S2P Require Import JsText.
From S2P Require Import JsJson.
From S2P Require Import OptionSymbol.
From S2P Require Import AlpacaClient.
From S2P Require Import SchedulerLease.
From S2P Require Import ExecutionTables.
From S2P Require Import ExecutionReservation.
From S2P Require Import Submission.
From S2P Require Import SubmitConfiguration.
From S2P Require Import ReviewConfiguration.
From S2P Require Import ReviewEvidence.
Open Scope Z_scope.

(** ** Rows *)

Record ExitRow := {
  er_position_id : string;
  er_candidate_id : option string;
  er_opening_order_id : option string;
  er_opening_intent_id : option string;
  er_opening_review_id : option string;
  er_opening_strategy_classification : option string;
  er_opening_contract_id : option string;
  er_opening_authorization_snapshot_id : option string;
  er_symbol : string;
  er_order_symbol : string;
  er_asset_class : ExecutionAssetClass;
  er_side : PositionSide;
  er_available_quantity : option string;
  er_average_entry_price : option string;
  er_strategy_key : option string;
  er_allocation_id : option string;
  er_allocation_status : option string;
  er_allocation_effective_to : option Z;
  er_account_id : string;
  er_account_snapshot_id : string;
  er_snapshot_fingerprint : option string;
  er_structural_fingerprint : option string;
  er_market_price : option string;
  er_market_timestamp : Z;
  er_market_request_id : option string;
  er_market_evidence : option jvalue;
  er_underlying_close : option string;
  er_severe_trend_sma : option string;
  er_severe_trend_bar_count : option string;
  er_contract_option_symbol : option string;
  er_contract_id : option string;
  er_contract_underlying_symbol : option string;
  er_contract_type : option string;
  er_contract_expiration_date : option Z;
  er_contract_tradable : option bool;
  er_contract_status : option string;
  er_contract_source : option string;
  er_contract_observed_at : option Z;
  er_sip_underlying_symbol : option string;
  er_sip_market_price : option string;
  er_sip_market_timestamp : option Z;
  er_sip_bid_price : option string;
  er_sip_ask_price : option string;
  er_sip_requested_feed : option string;
  er_sip_effective_feed : option string;
  er_sip_provider : option string;
  er_sip_request_id : option string
}.

(** [row as ReviewSourceRow]: the row has no [option_symbol] and no
    [contract_multiplier]. *)
Definition source_row (r : ExitRow) : MarketRow :=
  {| mr_symbol := er_symbol r; mr_asset_class := er_asset_class r; mr_option_symbol := Some (er_order_symbol r);
     mr_market_price := er_market_price r; mr_market_timestamp := er_market_timestamp r;
     mr_market_request_id := er_market_request_id r; mr_market_evidence := er_market_evidence r;
     mr_contract_option_symbol := er_contract_option_symbol r; mr_contract_id := er_contract_id r;
     mr_contract_underlying_symbol := er_contract_underlying_symbol r; mr_contract_type := er_contract_type r;
     mr_contract_expiration_date := er_contract_expiration_date r; mr_contract_tradable := er_contract_tradable r;
     mr_contract_status := er_contract_status r; mr_contract_source := er_contract_source r;
     mr_contract_observed_at := er_contract_observed_at r; mr_contract_multiplier := None;
     mr_sip_underlying_symbol := er_sip_underlying_symbol r; mr_sip_market_price := er_sip_market_price r;
     mr_sip_market_timestamp := er_sip_market_timestamp r; mr_sip_bid_price := er_sip_bid_price r;
     mr_sip_ask_price := er_sip_ask_price r; mr_sip_requested_feed := er_sip_requested_feed r;
     mr_sip_effective_feed := er_sip_effective_feed r; mr_sip_provider := er_sip_provider r;
     mr_sip_request_id := er_sip_request_id r |}.

Definition is_option (r : ExitRow) : bool := bool_decide (er_asset_class r = option_contract).
Definition is_short (r : ExitRow) : bool := bool_decide (er_side r = PositionShort).

(** ** Which positions to close *)

Record ExitTrigger := {
  et_row : ExitRow;
  et_price : number;
  et_quantity : number;
  et_timestamp : Z;
  et_reason : string;
  et_directionalReturn : number;
  et_classification : string;
  et_underlyingSip : option SipEvidence
}.

Definition or_unknown (s : string) : string := or_text s "unknown".

(** The allocation that the exit is charged to must be in force. *)
Definition allocation_authority (r : ExitRow) : res unit :=
  let strategyKey := column_text (er_strategy_key r) in
  if negb (str_truthy strategyKey) || negb (str_truthy (column_text (er_allocation_id r)))
     || negb (lower_text (er_allocation_status r) =? "active")%string || is_some_bool (er_allocation_effective_to r)
  then Throw ("POSTGRES_EXIT_ALLOCATION_AUTHORITY_MISSING:" ++ or_unknown (trim (er_position_id r)) ++ ":"
              ++ or_unknown strategyKey)%string
  else Ret tt.

Definition positive_number (s : option string) : option number :=
  match finite s with Some x => if (x <=? 0)%float then None else Some x | None => None end.

(** Price, entry price and quantity. *)
Definition exit_amounts (r : ExitRow) : res (number * number * number) :=
  match positive_number (er_market_price r), positive_number (er_average_entry_price r),
        positive_number (er_available_quantity r) with
  | Some price, Some entry, Some quantity => Ret (price, entry, quantity)
  | _, _, _ => Throw ("POSTGRES_EXIT_REVIEW_EVIDENCE_INCOMPLETE:" ++ er_symbol r)%string
  end.

Definition option_classifications : list string :=
  ["standard_long_call"; "standard_long_put"; "zero_dte_long_call"; "zero_dte_long_put"; "leaps_long_call";
   "leaps_long_put"; "hedge"]%string.

Section exit_review.
Context (env : Environment) (json_parse : string → option jvalue) (new_york : Z → NewYorkParts).
Context (quoteMaxAgeMs : number).

Definition exit_classification (r : ExitRow) : res string :=
  if is_option r then
    let c := default EmptyString (er_opening_strategy_classification r) in
    if str_mem c option_classifications then Ret c
    else Throw ("POSTGRES_EXIT_OPENING_CLASSIFICATION_MISSING:" ++ er_order_symbol r)%string
  else Ret (if is_short r then "equity_short" else "equity_long")%string.

(** The evidence of an option: the SIP quote of its underlying. *)
Definition exit_option_evidence (r : ExitRow) (now : Z) (maxMarketAgeSeconds : number) : res (option SipEvidence) :=
  if negb (is_option r) then Ret None
  else
    underlyingSip ← assertFreshAlpacaSipUnderlying (source_row r) now maxMarketAgeSeconds EXIT_REVIEW;
    _ ← (if executableOptionEvidence (jsonRecord json_parse (er_market_evidence r))
              (maximumOptionSpreadPct (paperExplorationThresholds env)) (sip_referencePrice <$> underlyingSip)
         then Ret tt else Throw ("POSTGRES_EXIT_REVIEW_OPTION_QUOTE_INVALID:" ++ er_order_symbol r)%string);
    _ ← assertObservedOptionContract (source_row r);
    Ret underlyingSip.

Definition is_leaps (classification : string) : bool :=
  str_mem classification ["leaps_long_call"; "leaps_long_put"]%string.

(** The underlying is on the wrong side of its long moving average. *)
Definition severeTrendBreak (r : ExitRow) (parsed : OptionSymbol.OptionSymbolParseResult) : bool :=
  match parsed, finite (er_severe_trend_bar_count r), finite (er_underlying_close r), finite (er_severe_trend_sma r) with
  | OptionSymbol.ParseSuccess p, Some bars, Some close, Some sma =>
      (severeTrendExitSma (paperLeapsExitConfig env) <=? bars)%float
      && match OptionSymbol.optionType p with
         | OptionSymbol.call => (close <? sma)%float
         | OptionSymbol.put => (sma <? close)%float
         end
  | _, _, _, _ => false
  end.

Definition leaps_reason (r : ExitRow) (now : Z) (directionalReturn : number) : option string :=
  let config := paperLeapsExitConfig env in
  let pct := (directionalReturn * 100)%float in
  let parsed := OptionSymbol.parseOptionSymbol (er_order_symbol r) in
  let dte := match parsed with
             | OptionSymbol.ParseSuccess p => OptionSymbol.optionDaysToExpiration (OptionSymbol.expirationDate p) (Some now)
             | OptionSymbol.ParseFailure _ => None end in
  if (pct <=? hardStopLossPct config)%float then Some "LEAPS_HARD_STOP_LOSS"%string
  else if (fullProfitTakePct config <=? pct)%float then Some "LEAPS_FULL_PROFIT_TAKE"%string
  else if match dte with Some d => (num_of_Z d <=? dteExitThreshold config)%float | None => false end
       then Some "LEAPS_DTE_EXIT_WINDOW"%string
  else if severeTrendBreak r parsed then Some "LEAPS_SEVERE_TREND_BREAK"%string
  else None.

Definition exit_reason (r : ExitRow) (now : Z) (classification : string) (directionalReturn : number) : option string :=
  if is_option r then
    if is_leaps classification then leaps_reason r now directionalReturn
    else if str_mem classification ["zero_dte_long_call"; "zero_dte_long_put"]%string
            && isFinalThirtyMinutesForZeroDte new_york (er_order_symbol r) now
         then Some "ODTE_FORCE_EXIT_BEFORE_CLOSE"%string
    else if (directionalReturn <=? -0.5)%float then Some "ODTE_STOP_LOSS_50"%string
    else if (0.5 <=? directionalReturn)%float then Some "ODTE_TAKE_PROFIT_50"%string
    else None
  else if (directionalReturn <=? -0.05)%float then Some "EQUITY_STOP_LOSS_5"%string
  else if (0.08 <=? directionalReturn)%float then Some "EQUITY_TAKE_PROFIT_8"%string
  else None.

Definition exit_return (r : ExitRow) (price entry : number) : number :=
  ((price / entry - 1) * (if is_short r then -1 else 1))%float.

(** One position: whether and why it is to be closed. *)
Definition evaluate_exit (now : Z) (maxMarketAgeSeconds : number) (r : ExitRow) : res (option ExitTrigger) :=
  _ ← allocation_authority r;
  '(price, entry, quantity) ← exit_amounts r;
  let timestamp := date_text_ms (er_market_timestamp r) in
  let maxAge := if is_option r then math_min maxMarketAgeSeconds (quoteMaxAgeMs / 1000)%float else maxMarketAgeSeconds in
  _ ← (if too_old now timestamp (maxAge * 1000)%float
       then Throw ("POSTGRES_REVIEW_MARKET_EVIDENCE_STALE:" ++ er_symbol r)%string else Ret tt);
  underlyingSip ← exit_option_evidence r now maxMarketAgeSeconds;
  classification ← exit_classification r;
  let directionalReturn := exit_return r price entry in
  Ret ((λ reason, {| et_row := r; et_price := price; et_quantity := quantity; et_timestamp := timestamp;
                     et_reason := reason; et_directionalReturn := directionalReturn;
                     et_classification := classification; et_underlyingSip := underlyingSip |})
       <$> exit_reason r now classification directionalReturn).

(** [rows.flatMap(...)] *)
Fixpoint evaluate_exits (now : Z) (maxMarketAgeSeconds : number) (rows : list ExitRow) : res (list ExitTrigger) :=
  match rows with
  | [] => Ret []
  | r :: rows' =>
      t ← evaluate_exit now maxMarketAgeSeconds r;
      ts ← evaluate_exits now maxMarketAgeSeconds rows';
      Ret (option_list t ++ ts)
  end.
End exit_review.
