(* ===== verification/ExitReview.v ===== *)
(** Reviewing exits: [runExitReview] of
    src/services/postgresReviewWorkflowService.ts.

    The query of the open positions is a request that may be answered with any
    rows.  What is stored for an exit, a review, its confirmation and an intent
    that is ready for submission, is one statement. *)

From Stdlib Require Import Floats.
From S2P Require Import Prelude.
From S2P Require Import JsString.
From S2P Require Import JsDate.
From S2P Require Import JsNumber.
From S2P Require Import JsText.
From S2P Require Import JsJson.
From S2P Require Import CanonicalJson.
From S2P Require Import TradeLifecycle.
From S2P Require Import SchedulerLease.
From S2P Require Import ExecutionTables.
From S2P Require Import ExecutionReservation.
From S2P Require Import ExecutionEvidence.
From S2P Require Import Effects.
From S2P Require Import Submission.
From S2P Require Import SubmitConfiguration.
From S2P Require Import BrokerSnapshot.
From S2P Require Import BrokerStateSync.
From S2P Require Import ReviewConfiguration.
From S2P Require Import ReviewEvidence.
From S2P Require Import ExitEvaluation.
Open Scope Z_scope.

(** ** The statement *)

(** What is stored for one exit. *)
Record ExitRecords := {
  xr_review : ReviewRow;
  xr_confirmation : ConfirmationRow;
  xr_intent : IntentRow;
  xr_lifecycle : LifecycleColumns
}.

Record ExitCounts := {
  xc_fence_held : bool;
  xc_review_count : nat;
  xc_confirmation_count : nat;
  xc_intent_count : nat
}.

(** ON CONFLICT (account_id, client_order_id) *)
Definition same_review_client (a b : ReviewRow) : bool :=
  (review_account_id a =? review_account_id b)%string
  && is_some_bool (rv_clientOrderId (review_input a))
  && opt_str_eqb (rv_clientOrderId (review_input a)) (rv_clientOrderId (review_input b)).

(** ON CONFLICT (account_id, intent_fingerprint) *)
Definition same_intent_content (a b : IntentRow) : bool :=
  (intent_account_id a =? intent_account_id b)%string && (intent_fingerprint a =? intent_fingerprint b)%string.

(** An intent with its lifecycle columns. *)
Definition insert_intent (i : IntentRow) (l : LifecycleColumns) : tx SubmissionDb nat :=
  written ← exec (insert_unless same_intent_content intent_conflicts intent_checks db_intents set_intents i);
  _ ← (if written : bool then modify (λ d, set_lifecycle (s_lifecycle d ++ [l]) d) else mret tt);
  mret (row_count written).

Definition store_exit (fence : SchedulerFence) (x : ExitRecords) : tx SubmissionDb ExitCounts := λ d,
  if negb (held fence d) then
    Ret ({| xc_fence_held := false; xc_review_count := 0; xc_confirmation_count := 0; xc_intent_count := 0 |}, d)
  else
    (written ← exec (insert_unless same_review_client review_conflicts new_review_checks db_reviews set_reviews
                       (xr_review x));
     if negb written then
       mret {| xc_fence_held := true; xc_review_count := 0; xc_confirmation_count := 0; xc_intent_count := 0 |}
     else
       _ ← exec (insert_row confirmation_conflicts new_confirmation_checks db_confirmations set_confirmations
                   (xr_confirmation x));
       n ← insert_intent (xr_intent x) (xr_lifecycle x);
       mret {| xc_fence_held := true; xc_review_count := 1; xc_confirmation_count := 1; xc_intent_count := n |}) d.

(** ** Documents *)

(** A number in a document; JSON has no NaN and no infinities. *)
Definition json_number (x : number) : jvalue := if num_is_finite x then jnum x else JNull.
Definition json_number_opt (x : option number) : jvalue := match x with Some x => json_number x | None => JNull end.

Definition FIFTEEN_MINUTES : Z := 15 * 60000.

Definition sip_document (s : SipEvidence) : jvalue :=
  JObj [("symbol", JStr (sip_symbol s)); ("referencePrice", json_number (sip_referencePrice s));
        ("timestamp", JStr (iso_text (sip_timestamp s))); ("requestId", jstr_opt (sip_requestId s));
        ("bid", json_number_opt (sip_bid s)); ("ask", json_number_opt (sip_ask s));
        ("requestedFeed", JStr (sip_requestedFeed s)); ("effectiveFeed", JStr (sip_effectiveFeed s));
        ("provider", JStr (sip_provider s)); ("source", JStr "postgres.stock_snapshots")]%string.

Definition fence_document (fence : SchedulerFence) : jvalue :=
  JObj [("jobName", JStr (fence_job_name fence)); ("workstream", JStr (fence_workstream fence));
        ("ownerId", JStr (fence_owner_id fence)); ("runId", JStr (fence_run_id fence));
        ("fencingToken", JStr (fence_token fence))]%string.

(** [process.env.AUTONOMOUS_CYCLE_ID?.trim() || fallback] *)
Definition cycle_id (env : string → option string) (fallback : string) : string :=
  match env "AUTONOMOUS_CYCLE_ID"%string with Some c => or_text (trim c) fallback | None => fallback end.

Definition exit_operation (r : ExitRow) : TradeOperation :=
  if is_option r then TradeLifecycle.sell_to_close
  else if is_short r then TradeLifecycle.buy_to_cover else TradeLifecycle.sell_to_close.

Definition exit_side (r : ExitRow) : ExecutionSide :=
  if is_option r then sell_to_close else if is_short r then buy else sell.

Section documents.
Context (env : string → option string) (json_parse : string → option jvalue).
Context (le : string → string → bool) (sha256 : string → string) (hmac : string → string → string).
Context (command signingKey : string) (fence : SchedulerFence) (now : Z).

Local Abbreviation hash := (CanonicalJson.canonicalJsonHash le sha256).

Definition exit_client_order_id (accountId positionId snapshotId : string) : string :=
  ("pg-exit-" ++ str_take 28 (hash (JObj
     [("accountId", JStr accountId); ("positionId", JStr positionId); ("snapshotId", JStr snapshotId)]%string)))%string.

Definition client_id_of (r : ExitRow) : string :=
  exit_client_order_id (er_account_id r) (er_position_id r) (er_account_snapshot_id r).

Definition exit_market_evidence (t : ExitTrigger) : jvalue :=
  let r := et_row t in
  let base := [("symbol", JStr (er_order_symbol r)); ("underlyingSymbol", JStr (er_symbol r));
               ("referencePrice", json_number (et_price t)); ("timestamp", JStr (iso_text (et_timestamp t)));
               ("requestId", jstr_opt (er_market_request_id r))]%string in
  let option_fields :=
    if is_option r then
      spread (jsonRecord json_parse (er_market_evidence r))
        (match et_underlyingSip t with
         | Some s => [("underlyingPrice", json_number (sip_referencePrice s)); ("underlyingSip", sip_document s)]%string
         | None => [("underlyingSip"%string, JNull)]
         end ++ [("maximumSpreadPct"%string, json_number (maximumOptionSpreadPct (paperExplorationThresholds env)))])
    else [] in
  JArr [JObj (spread (spread base option_fields)
    [("source", JStr (if is_option r then "postgres.option_snapshots" else "postgres.stock_snapshots"))]%string)].

Definition exit_order_intent (t : ExitTrigger) : jvalue :=
  let r := et_row t in
  JObj [("symbol", JStr (er_order_symbol r)); ("underlyingSymbol", if is_option r then JStr (er_symbol r) else JNull);
        ("assetClass", JStr (asset_class_name (er_asset_class r))); ("side", JStr (side_name (exit_side r)));
        ("operation", JStr (operation_name (exit_operation r)));
        ("orderType", JStr (if is_option r then "limit" else "market")); ("timeInForce", JStr "day");
        ("quantity", json_number (et_quantity t)); ("notional", JNull);
        ("limitPrice", if is_option r then json_number (et_price t) else JNull);
        ("clientOrderId", JStr (client_id_of r)); ("strategyKey", JStr (default EmptyString (er_strategy_key r)));
        ("reason", JStr (et_reason t)); ("strategyClassification", JStr (et_classification t))]%string.

Definition exit_trigger_document (t : ExitTrigger) : jvalue :=
  JObj [("reason", JStr (et_reason t)); ("return", json_number (et_directionalReturn t))]%string.

(** [row.candidate_id ? String(row.candidate_id) : null] *)
Definition exit_candidate (r : ExitRow) : option string := present (er_candidate_id r).

Definition exit_payload (t : ExitTrigger) (structural : string) : jvalue :=
  let r := et_row t in
  JObj [("positionId", JStr (er_position_id r)); ("candidateId", jstr_opt (exit_candidate r));
        ("accountSnapshotId", JStr (er_account_snapshot_id r)); ("accountFingerprint", JStr structural);
        ("orderIntent", exit_order_intent t); ("marketEvidence", exit_market_evidence t);
        ("trigger", exit_trigger_document t); ("paperOnly", JBool true)]%string.

(** ** Checks of the lineage *)

Record ExitLineage := {
  xl_structural : string;
  xl_portfolio : string;
  xl_openingIntentId : string;
  xl_openingOrderId : string;
  xl_openingReviewId : string;
  xl_contractId : option string
}.

Definition exit_lineage (r : ExitRow) : res ExitLineage :=
  let structural := default EmptyString (er_structural_fingerprint r) in
  let portfolio := default EmptyString (er_snapshot_fingerprint r) in
  let intent := column_text (er_opening_intent_id r) in
  let order := column_text (er_opening_order_id r) in
  let review := column_text (er_opening_review_id r) in
  let observed := column_text (er_contract_id r) in
  if negb (str_truthy structural) || negb (str_truthy portfolio) || negb (str_truthy (er_account_snapshot_id r))
  then Throw "POSTGRES_REVIEW_ACCOUNT_FINGERPRINT_MISSING"
  else if is_option r && is_short r
  then Throw ("POSTGRES_OPTION_CLOSE_SIDE_UNSUPPORTED:" ++ er_order_symbol r)%string
  else if negb (str_truthy intent) || negb (str_truthy order) || negb (str_truthy review)
  then Throw ("POSTGRES_EXIT_OPENING_LINEAGE_MISSING:" ++ er_order_symbol r)%string
  else if is_option r && (negb (str_truthy observed) || negb (observed =? column_text (er_opening_contract_id r))%string)
  then Throw ("POSTGRES_EXIT_OPTION_CONTRACT_LINEAGE_MISMATCH:" ++ er_order_symbol r)%string
  else Ret {| xl_structural := structural; xl_portfolio := portfolio; xl_openingIntentId := intent;
              xl_openingOrderId := order; xl_openingReviewId := review;
              xl_contractId := if is_option r then Some observed else None |}.

Definition exit_portfolio_evidence (t : ExitTrigger) (l : ExitLineage) : jvalue :=
  let r := et_row t in
  JObj [("snapshotId", JStr (er_account_snapshot_id r)); ("portfolioFingerprint", JStr (xl_portfolio l));
        ("structuralPortfolioFingerprint", JStr (xl_structural l)); ("trigger", exit_trigger_document t);
        ("openingLineage", JObj
          [("candidateId", jstr_opt (exit_candidate r)); ("openingReviewId", JStr (xl_openingReviewId l));
           ("openingIntentId", JStr (xl_openingIntentId l)); ("openingOrderId", JStr (xl_openingOrderId l));
           ("openingAuthorizationSnapshotId", jstr_opt (present (trim <$> er_opening_authorization_snapshot_id r)));
           ("strategyClassification", JStr (et_classification t)); ("contractId", jstr_opt (xl_contractId l))])]%string.

Definition exit_confirmation_evidence (r : ExitRow) (l : ExitLineage) : jvalue :=
  JObj [("command", JStr command); ("confirmPaper", JBool true); ("autonomous", JBool true);
        ("parentPositionId", JStr (er_position_id r)); ("openingIntentId", JStr (xl_openingIntentId l));
        ("scheduler", fence_document fence)]%string.

(** ** The rows *)

Definition empty_array : json := "[]"%string.

Definition exit_review_input (t : ExitTrigger) (l : ExitLineage) : ReviewInput :=
  let r := et_row t in
  let fingerprint := hash (exit_payload t (xl_structural l)) in
  {| rv_id := ("review_" ++ fingerprint)%string; rv_reviewType := ReviewExit; rv_status := ReviewValid;
     rv_clientOrderId := Some (client_id_of r); rv_accountFingerprint := xl_structural l;
     rv_sourceRecommendationId := None; rv_sourceSnapshotId := Some (er_account_snapshot_id r);
     rv_configurationFingerprint := hash (JObj [("reason"%string, JStr (et_reason t))]);
     rv_payloadFingerprint := fingerprint; rv_signatureAlgorithm := "hmac-sha256";
     rv_signature := hmac signingKey fingerprint; rv_orderIntent := json_stringify (exit_order_intent t);
     rv_marketEvidence := json_stringify (exit_market_evidence t);
     rv_portfolioEvidence := json_stringify (exit_portfolio_evidence t l);
     rv_warnings := empty_array; rv_blockers := empty_array; rv_requestId := None; rv_correlationId := None;
     rv_expiresAt := now + FIFTEEN_MINUTES; rv_createdAt := now |}.

Definition exit_confirmation_input (t : ExitTrigger) (l : ExitLineage) : ConfirmationInput :=
  let review := exit_review_input t l in
  let evidence := exit_confirmation_evidence (et_row t) l in
  let fingerprint := hash (JObj [("executionReviewId", JStr (rv_id review));
                                 ("reviewPayloadFingerprint", JStr (rv_payloadFingerprint review));
                                 ("evidence", evidence)]%string) in
  {| cf_id := ("confirmation_" ++ fingerprint)%string; cf_evidenceType := "paper_execution_confirmation";
     cf_confirmationMethod := "autonomous_worker_confirm_paper"; cf_status := ConfirmationValid;
     cf_payloadFingerprint := fingerprint; cf_signatureAlgorithm := Some "hmac-sha256"%string;
     cf_signature := Some (hmac signingKey fingerprint); cf_evidence := json_stringify evidence;
     cf_confirmedAt := now; cf_expiresAt := now + FIFTEEN_MINUTES |}.

Definition exit_intent_fingerprint (t : ExitTrigger) (l : ExitLineage) : string :=
  hash (JObj [("reviewId", JStr (rv_id (exit_review_input t l))); ("orderIntent", exit_order_intent t)]%string).

Definition exit_premium (t : ExitTrigger) : number := (et_price t * 100 * et_quantity t)%float.
Definition exit_risk (t : ExitTrigger) : number :=
  if is_option (et_row t) then exit_premium t else (et_price t * et_quantity t)%float.

Definition numeric_when (b : bool) (x : number) : res (option Q) := if b then numeric_parameter 8 x else Ret None.

Definition exit_intent (t : ExitTrigger) (l : ExitLineage) : res IntentRow :=
  let r := et_row t in
  let review := exit_review_input t l in
  let fingerprint := exit_intent_fingerprint t l in
  let confirmation := cf_id (exit_confirmation_input t l) in
  quantity ← numeric_parameter 12 (et_quantity t);
  limitPrice ← numeric_when (is_option r) (et_price t);
  premium ← numeric_when (is_option r) (exit_premium t);
  risk ← numeric_parameter 8 (exit_risk t);
  mret {| intent_id := ("intent_" ++ fingerprint)%string; intent_account_id := er_account_id r;
          intent_candidate_id := exit_candidate r; intent_reservation_id := None;
          intent_review_id := Some (rv_id review); intent_confirmation_id := Some confirmation;
          intent_client_order_id := client_id_of r;
          intent_idempotency_key := ("review:" ++ rv_payloadFingerprint review)%string;
          intent_strategy_key := default EmptyString (er_strategy_key r); intent_symbol := er_order_symbol r;
          intent_underlying_symbol := if is_option r then Some (er_symbol r) else None;
          intent_asset_class := er_asset_class r; intent_side := exit_side r;
          intent_order_type := if is_option r then limit else market; intent_time_in_force := day;
          intent_quantity := quantity; intent_notional := None; intent_limit_price := limitPrice;
          intent_stop_price := None; intent_estimated_premium := premium; intent_max_risk := risk;
          intent_status := IntentReady; intent_fingerprint := fingerprint;
          intent_lifecycle_fingerprint := hash (JObj
            [("orderIntentId", JStr ("intent_" ++ fingerprint)); ("confirmationId", JStr confirmation);
             ("state", JStr "exit_ready_for_submission"); ("at", JStr (iso_text now))]%string);
          intent_request_payload := json_stringify (exit_order_intent t); intent_request_id := None;
          intent_correlation_id := None; intent_ready_at := Some now; intent_submitted_at := None;
          intent_terminal_at := None; intent_version := 1; intent_created_at := now; intent_updated_at := now |}.

Definition exit_lifecycle (t : ExitTrigger) (l : ExitLineage) : LifecycleColumns :=
  {| lc_intent_id := ("intent_" ++ exit_intent_fingerprint t l)%string;
     lc_operation := Some (operation_name (exit_operation (et_row t)));
     lc_strategy_classification := Some (et_classification t);
     lc_parent_position_id := Some (er_position_id (et_row t));
     lc_opening_intent_id := Some (xl_openingIntentId l); lc_contract_id := xl_contractId l;
     lc_lifecycle_state := "exit_ready_for_submission";
     lc_autonomous_cycle_id := Some (cycle_id env (fence_run_id fence));
     lc_workstream_execution_id := Some (fence_run_id fence); lc_reservation_release_reason := None |}.

Definition exit_records (t : ExitTrigger) : res ExitRecords :=
  let r := et_row t in
  l ← exit_lineage r;
  intent ← exit_intent t l;
  mret {| xr_review :=
            {| review_input := exit_review_input t l; review_account_id := er_account_id r;
               review_candidate_id := exit_candidate r; review_status := ReviewValid; review_consumed_at := None;
               review_version := 1; review_updated_at := now |};
          xr_confirmation :=
            {| conf_input := exit_confirmation_input t l; conf_review_id := rv_id (exit_review_input t l);
               conf_account_id := er_account_id r; conf_candidate_id := exit_candidate r;
               conf_status := ConfirmationValid; conf_consumed_at := None; conf_version := 1;
               conf_updated_at := now |};
          xr_intent := intent; xr_lifecycle := exit_lifecycle t l |}.
End documents.

(** ** The review *)

Inductive exit_effect : Type → Type :=
| ExitSource (command : string) : exit_effect (res (list ExitRow))
| StoreExit (fence : SchedulerFence) (x : ExitRecords) : exit_effect (res ExitCounts).

(** The [status], [code] and counters of a result; of an arbitration the number of
    its decisions and how many approve, resize and skip. *)
Record ReviewResult := {
  rr_completed : bool;
  rr_code : option string;
  rr_reviewsCreated : nat;
  rr_skipped : nat;
  rr_capacityBlocked : nat;
  rr_arbitration : option (nat * nat * nat * nat)
}.

Definition no_op (code : string) : ReviewResult :=
  {| rr_completed := false; rr_code := Some code; rr_reviewsCreated := 0; rr_skipped := 0; rr_capacityBlocked := 0;
     rr_arbitration := None |}.

Definition counts_agree (c : ExitCounts) : bool :=
  (xc_review_count c <=? 1)%nat && (xc_confirmation_count c =? xc_review_count c)%nat
  && (xc_intent_count c =? xc_review_count c)%nat.

Section run_exit_review.
Context (env : string → option string) (json_parse : string → option jvalue) (new_york : Z → NewYorkParts).
Context (quoteMaxAgeMs : number).
Context (le : string → string → bool) (sha256 : string → string) (hmac : string → string → string).
Context (command signingKey : string) (fence : SchedulerFence) (now : Z) (maxMarketAgeSeconds : number).

(** One triggered exit: whether it was stored now. *)
Definition store_trigger (t : ExitTrigger) : async exit_effect bool :=
  let! x := sync (exit_records env json_parse le sha256 hmac command signingKey fence now t) in
  let! c := ask (StoreExit fence x) in
  let! _ := reject_if (negb (xc_fence_held c)) "SCHEDULER_FENCE_LOST" in
  let! _ := reject_if (negb (counts_agree c)) "POSTGRES_EXIT_REVIEW_PERSISTENCE_FAILED" in
  async_ret (negb (xc_review_count c =? 0)%nat).

Fixpoint store_triggers (ts : list ExitTrigger) : async exit_effect (nat * nat) :=
  match ts with
  | [] => async_ret (0, 0)%nat
  | t :: ts' =>
      let! stored := store_trigger t in
      let! (created, skipped) := store_triggers ts' in
      async_ret (if stored : bool then (S created, skipped) else (created, S skipped))
  end.

Definition runExitReview : async exit_effect ReviewResult :=
  let! rows := ask (ExitSource command) in
  let! eligible := sync (evaluate_exits env json_parse new_york quoteMaxAgeMs now maxMarketAgeSeconds rows) in
  match eligible with
  | [] => async_ret (no_op "NO_POSTGRES_EXIT_TRIGGER")
  | _ =>
      let! (created, skipped) := store_triggers eligible in
      async_ret {| rr_completed := true; rr_code := None; rr_reviewsCreated := created; rr_skipped := skipped;
                   rr_capacityBlocked := 0; rr_arbitration := None |}
  end.
End run_exit_review.

(** ** Against the database *)

(** [source] is what the query of the positions selects. *)
Definition exit_answer (source : string → SubmissionDb → list ExitRow) (X : Type) (e : exit_effect X) (d : SubmissionDb)
    : X * SubmissionDb :=
  match e in exit_effect X return X * SubmissionDb with
  | ExitSource command => (Ret (source command d), d)
  | StoreExit fence x => match store_exit fence x d with Ret (c, d') => (Ret c, d') | Throw c => (Throw c, d) end
  end.
