(* ===== verification/ExitReviewRuns.v ===== *)
(** What reviewing exits does: runs of [runExitReview] of ExitReview.v. *)

From Stdlib Require Import Floats.
From S2P Require Import Prelude.
From S2P Require Import JsString.
From S2P Require Import JsNumber.
From S2P Require Import JsText.
From S2P Require Import JsJson.
From S2P Require Import SchedulerLease.
From S2P Require Import ExecutionTables.
From S2P Require Import ExecutionReservation.
From S2P Require Import ExecutionEvidence.
From S2P Require Import Effects.
From S2P Require Import Submission.
From S2P Require Import SubmissionFacts.
From S2P Require Import ReviewConfiguration.
From S2P Require Import ReviewEvidence.
From S2P Require Import ExitEvaluation.
From S2P Require Import ExitReview.
Open Scope Z_scope.

(** ** The tables with the records of some exits *)

Definition with_exits (xs : list ExitRecords) (d : SubmissionDb) : SubmissionDb :=
  set_lifecycle (s_lifecycle d ++ map xr_lifecycle xs)
    (set_exec (set_intents (db_intents (s_exec d) ++ map xr_intent xs)
      (set_confirmations (db_confirmations (s_exec d) ++ map xr_confirmation xs)
        (set_reviews (db_reviews (s_exec d) ++ map xr_review xs) (s_exec d)))) d).

Lemma with_exits_nil d : with_exits [] d = d.
Proof. destruct d as [n [] l c t]. unfold with_exits. cbn. by rewrite !app_nil_r. Qed.

Lemma with_exits_app xs ys d : with_exits ys (with_exits xs d) = with_exits (xs ++ ys) d.
Proof. unfold with_exits. cbn. by rewrite !map_app, !app_assoc. Qed.

(** A review stands for the exit of this position from this snapshot. *)
Definition reviews_client (account client : string) (v : ReviewRow) : Prop :=
  review_account_id v = account ∧ rv_clientOrderId (review_input v) = Some client.

Definition client_reviewed (account client : string) (d : SubmissionDb) : Prop :=
  Exists (reviews_client account client) (db_reviews (s_exec d)).

Lemma same_review_client_iff a v client :
  rv_clientOrderId (review_input a) = Some client →
  same_review_client a v = true ↔ reviews_client (review_account_id a) client v.
Proof.
  intros Ha. unfold same_review_client, reviews_client, opt_str_eqb. rewrite Ha.
  rewrite !andb_true_iff, String.eqb_eq, bool_decide_eq_true. naive_solver.
Qed.

Lemma existsb_client a client l :
  rv_clientOrderId (review_input a) = Some client →
  existsb (same_review_client a) l = true ↔ Exists (reviews_client (review_account_id a) client) l.
Proof.
  intros Ha. rewrite existsb_exists, List.Exists_exists.
  split; intros (v & Hv & H); exists v; split; try done; by apply (same_review_client_iff a v client Ha).
Qed.

(** What the statement does while the fence holds. *)
Lemma store_exit_held fence x d c d' :
  held fence d = true → store_exit fence x d = Ret (c, d') → xc_fence_held c = true ∧
  if existsb (same_review_client (xr_review x)) (db_reviews (s_exec d))
  then xc_review_count c = 0%nat ∧ d' = d
  else xc_review_count c = 1%nat ∧ (xc_intent_count c = 1%nat → d' = with_exits [x] d).
Proof.
  intros Hh. unfold store_exit. rewrite Hh. cbn [negb]. intros H. tx_step H as w d1 E.
  apply exec_Ret in E as (x1 & E & ->). apply insert_unless_Ret in E. destruct w; cbn [negb] in H.
  - destruct E as [-> (_ & _ & ->)%insert_row_Ret]. tx_step H as u d2 E2.
    apply exec_Ret in E2 as (x2 & (_ & _ & ->)%insert_row_Ret & ->). tx_step H as n d3 E3. injection H as <- <-.
    split; [done|]. split; [done|]. cbn [xc_intent_count]. intros ->. revert E3. unfold insert_intent. intros E3.
    tx_step E3 as w d4 E4. apply exec_Ret in E4 as (x4 & E4 & ->). apply insert_unless_Ret in E4. destruct w.
    + destruct E4 as [_ (_ & _ & ->)%insert_row_Ret]. tx_step E3 as u5 d5 E5. injection E3 as <-. unfold modify in E5.
      by injection E5 as _ <-.
    + tx_step E3 as u5 d5 E5. discriminate.
  - destruct E as [-> ->]. injection H as <- <-. split; [done|]. split; [done|]. by destruct d.
Qed.

Section runs.
Context (json_parse : string → option jvalue) (new_york : Z → NewYorkParts) (quoteMaxAgeMs : number).
Context (le : string → string → bool) (sha256 : string → string) (hmac : string → string → string).
Context (source : string → SubmissionDb → list ExitRow).

Local Abbreviation go := (run (exit_answer source)).

Section one_run.
Context (env : string → option string) (command signingKey : string) (fence : SchedulerFence) (now : Z).
Context (maxMarketAgeSeconds : number).

Local Abbreviation records := (exit_records env json_parse le sha256 hmac command signingKey fence now).
Local Abbreviation store_one := (store_trigger env json_parse le sha256 hmac command signingKey fence now).
Local Abbreviation store_all := (store_triggers env json_parse le sha256 hmac command signingKey fence now).
Local Abbreviation evaluate := (evaluate_exits env json_parse new_york quoteMaxAgeMs now maxMarketAgeSeconds).
Local Abbreviation review :=
  (runExitReview env json_parse new_york quoteMaxAgeMs le sha256 hmac command signingKey fence now maxMarketAgeSeconds).

(** The exit of this row has been reviewed. *)
Definition exit_reviewed (r : ExitRow) (d : SubmissionDb) : Prop :=
  client_reviewed (er_account_id r) (client_id_of le sha256 r) d.

Lemma records_client t x :
  records t = Ret x →
  review_account_id (xr_review x) = er_account_id (et_row t) ∧
  rv_clientOrderId (review_input (xr_review x)) = Some (client_id_of le sha256 (et_row t)).
Proof.
  unfold exit_records. intros (l & _ & H)%res_bind_Ret. apply res_bind_Ret in H as (i & _ & [= <-]). done.
Qed.

Lemma records_reviewed t x d :
  records t = Ret x →
  existsb (same_review_client (xr_review x)) (db_reviews (s_exec d)) = true ↔ exit_reviewed (et_row t) d.
Proof.
  intros [Ha Hc]%records_client. unfold exit_reviewed, client_reviewed. rewrite <- Ha. by apply existsb_client.
Qed.

Lemma with_exits_reviewed r xs d : exit_reviewed r d → exit_reviewed r (with_exits xs d).
Proof. unfold exit_reviewed, client_reviewed. cbn. intros H. apply Exists_app. by left. Qed.

Lemma go_store_exit f x d c d' : go (ask (StoreExit f x)) d = (Ret c, d') ↔ store_exit f x d = Ret (c, d').
Proof. rewrite run_ask. cbn. destruct (store_exit f x d) as [[b y]|e]; naive_solver. Qed.

Lemma store_one_spec t d b d' :
  held fence d = true → go (store_one t) d = (Ret b, d') →
  ∃ x, records t = Ret x ∧ exit_reviewed (et_row t) d' ∧
    if b : bool then d' = with_exits [x] d ∧ ¬ exit_reviewed (et_row t) d else d' = d.
Proof.
  intros Hh. unfold store_trigger. intros (x & d1 & (Hx & ->)%run_sync_Ret & H)%run_bind_Ret.
  apply run_bind_Ret in H as (c & d2 & Hc%go_store_exit & H).
  apply run_bind_Ret in H as (u1 & d3 & (_ & ->)%run_reject_if_Ret & H).
  apply run_bind_Ret in H as (u2 & d3 & (Hn & ->)%run_reject_if_Ret & [= <- <-]).
  apply (store_exit_held _ _ _ _ _ Hh) in Hc as [_ Hc]. exists x. split; [done|].
  pose proof (records_reviewed t x d Hx) as Hr.
  apply negb_false_iff, andb_true_iff in Hn as [[_ _]%andb_true_iff Hi%Nat.eqb_eq].
  destruct (existsb _ _).
  - destruct Hc as [E ->]. rewrite E. cbn. split; [by apply Hr|done].
  - destruct Hc as [E Hd]. rewrite E in Hi |- *. specialize (Hd Hi) as ->. cbn [Nat.eqb negb]. split.
    + apply (records_reviewed t x _ Hx). cbn. rewrite existsb_app. cbn.
      apply orb_true_iff. right. rewrite orb_false_r. destruct (records_client t x Hx) as [_ Hc].
      by apply (same_review_client_iff _ _ _ Hc).
    + split; [done|]. intros Hd. apply Hr in Hd. done.
Qed.

(** The account and the client order id of an exit. *)
Definition exit_key (r : ExitRow) : string * string := (er_account_id r, client_id_of le sha256 r).

Lemma reviewed_after r t x d :
  records t = Ret x → exit_reviewed r (with_exits [x] d) → exit_reviewed r d ∨ exit_key r = exit_key (et_row t).
Proof.
  intros [Ha Hc]%records_client. unfold exit_reviewed, client_reviewed. cbn. intros [H|H]%Exists_app; [by left|right].
  apply Exists_cons in H as [[H1 H2]|H]; [|by apply Exists_nil in H]. unfold exit_key. rewrite Hc in H2. apply Some_inj in H2.
  by rewrite <- H1, Ha, H2.
Qed.

Lemma same_key_reviewed r r' d : exit_key r = exit_key r' → exit_reviewed r d → exit_reviewed r' d.
Proof. unfold exit_reviewed, exit_key. by intros [-> ->]%pair_equal_spec. Qed.

(** What is stored of the triggers [ts]: the first of each key that had no review. *)
Definition new_exits (d : SubmissionDb) (ts ts' : list ExitTrigger) : Prop :=
  sublist ts' ts ∧ Forall (λ t, ¬ exit_reviewed (et_row t) d) ts' ∧ NoDup (map (λ t, exit_key (et_row t)) ts') ∧
  ∀ t, In t ts → exit_reviewed (et_row t) d ∨ ∃ t', In t' ts' ∧ exit_key (et_row t') = exit_key (et_row t).

Lemma new_exits_stored d t x ts ts' :
  records t = Ret x → ¬ exit_reviewed (et_row t) d → exit_reviewed (et_row t) (with_exits [x] d) →
  new_exits (with_exits [x] d) ts ts' → new_exits d (t :: ts) (t :: ts').
Proof.
  intros Hx Hn Hr (Hsub & Hf & Hnd & Hall). split; [by constructor|]. split; [|split].
  - constructor; [done|]. eapply List.Forall_impl; [|exact Hf]. intros y Hy Hd. by apply Hy, with_exits_reviewed.
  - cbn [map]. constructor; [|done]. intros (y & Hk & Hy)%list_elem_of_In%in_map_iff.
    rewrite List.Forall_forall in Hf. apply (Hf y Hy). by apply (same_key_reviewed (et_row t)).
  - intros y [<-|Hy]; [right; exists t; by split; [left|]|]. destruct (Hall y Hy) as [H|(t' & Ht' & Hk)].
    + apply (reviewed_after _ t) in H as [H|H]; [by left|right; exists t; by split; [left|]|done].
    + right. exists t'. by split; [right|].
Qed.

Lemma new_exits_skipped d t ts ts' : exit_reviewed (et_row t) d → new_exits d ts ts' → new_exits d (t :: ts) ts'.
Proof.
  intros Hr (Hsub & Hf & Hnd & Hall). split; [by constructor|]. split; [done|]. split; [done|].
  intros y [<-|Hy]; [by left|auto].
Qed.

Lemma store_all_spec ts d n s d' :
  held fence d = true → go (store_all ts) d = (Ret (n, s), d') →
  (n + s)%nat = List.length ts ∧ Forall (λ t, exit_reviewed (et_row t) d') ts ∧
  ∃ ts' xs, new_exits d ts ts' ∧ Forall2 (λ t x, records t = Ret x) ts' xs ∧
    d' = with_exits xs d ∧ n = List.length xs.
Proof.
  revert d n s. induction ts as [|t ts IH]; intros d n s Hh.
  - intros [= <- <- <-]. split; [done|]. split; [constructor|]. exists [], []. rewrite with_exits_nil.
    split; [|auto]. split; [constructor|]. split; [constructor|]. by split; [apply NoDup_nil_2|].
  - cbn [store_triggers]. intros (b & d1 & H1 & H)%run_bind_Ret. apply run_bind_Ret in H as ([n' s'] & d2 & H2 & H).
    destruct (store_one_spec _ _ _ _ Hh H1) as (x & Hx & Hr & Hd).
    assert (Hh1 : held fence d1 = true) by (destruct b; [by destruct Hd as [-> _]|by subst]).
    assert (d2 = d') as -> by (by destruct b; injection H).
    destruct (IH _ _ _ Hh1 H2) as (Hlen & Hall & ts' & xs & Hnew & Hxs & -> & ->).
    split; [destruct b; injection H as <- <-; cbn [List.length]; lia|]. split.
    { constructor; [|done]. by apply with_exits_reviewed. }
    destruct b; injection H as <- <-.
    + destruct Hd as [-> Hn]. exists (t :: ts'), (x :: xs). rewrite with_exits_app.
      split_and!; [by eapply new_exits_stored|by constructor|done|done].
    + subst d1. exists ts', xs. split_and!; [by apply new_exits_skipped|done..].
Qed.

(** Every triggered exit has its review at the end. *)
Lemma exit_review_accounts d r d' :
  held fence d = true → go review d = (Ret r, d') →
  ∃ ts, evaluate (source command d) = Ret ts ∧ Forall (λ t, exit_reviewed (et_row t) d') ts.
Proof.
  intros Hh. unfold runExitReview. intros (rows & d1 & H1 & H)%run_bind_Ret. rewrite run_ask in H1. cbn in H1.
  injection H1 as <- <-. apply run_bind_Ret in H as (ts & d1 & (Hts & ->)%run_sync_Ret & H).
  exists ts. split; [done|]. destruct ts as [|t ts]; [constructor|].
  apply run_bind_Ret in H as ([n s] & d2 & H2 & [= _ <-]). by eapply store_all_spec.
Qed.

(** C31: Reviewing exits is complete and all of a piece.  While the scheduler lease
    holds, a review that resolves has evaluated every open position the query
    returned, and what it adds are exactly the exits of the positions to be closed
    that had no review for their account and client order id before, one for each
    such id, in the order of the positions: the review, its confirmation and its
    intent together.  Nothing else in the database changes, the counts of created
    and skipped reviews add up to the positions to be closed, and each of these has
    its review at the end. *)
Theorem exit_review_complete d r d' :
  held fence d = true → go review d = (Ret r, d') →
  ∃ ts ts' xs, evaluate (source command d) = Ret ts ∧ sublist ts' ts ∧
    Forall (λ t, ¬ exit_reviewed (et_row t) d) ts' ∧ NoDup (map (λ t, exit_key (et_row t)) ts') ∧
    (∀ t, In t ts → exit_reviewed (et_row t) d ∨ ∃ t', In t' ts' ∧ exit_key (et_row t') = exit_key (et_row t)) ∧
    Forall2 (λ t x, records t = Ret x) ts' xs ∧ d' = with_exits xs d ∧
    rr_reviewsCreated r = List.length xs ∧ (rr_reviewsCreated r + rr_skipped r)%nat = List.length ts ∧
    Forall (λ t, exit_reviewed (et_row t) d') ts.
Proof.
  intros Hh. unfold runExitReview. intros (rows & d1 & H1 & H)%run_bind_Ret. rewrite run_ask in H1. cbn in H1.
  injection H1 as <- <-. apply run_bind_Ret in H as (ts & d1 & (Hts & ->)%run_sync_Ret & H).
  exists ts. destruct ts as [|t ts].
  - injection H as <- <-. exists [], []. rewrite with_exits_nil. split_and!; try done; constructor.
  - apply run_bind_Ret in H as ([n s] & d2 & H2 & [= <- <-]).
    destruct (store_all_spec _ _ _ _ _ Hh H2) as (Hlen & Hall & ts' & xs & (Hsub & Hf & Hnd & Hcov) & Hxs & Hd & Hn).
    exists ts', xs. by split_and!.
Qed.

(** ** Doing it again *)

Lemma store_one_again t d :
  held fence d = true → (∃ x, records t = Ret x) → exit_reviewed (et_row t) d → go (store_one t) d = (Ret false, d).
Proof.
  intros Hh [x Hx] Hr. unfold store_trigger. rewrite run_async_bind. unfold sync at 1. cbn [run]. rewrite Hx.
  rewrite run_async_bind, run_ask. cbn [exit_answer]. unfold store_exit. rewrite Hh. cbn [negb].
  apply (records_reviewed t x d Hx) in Hr. unfold mbind, tx_bind, exec, insert_unless. rewrite Hr. cbn. by destruct d.
Qed.

Lemma store_all_again ts d :
  held fence d = true → Forall (λ t, (∃ x, records t = Ret x) ∧ exit_reviewed (et_row t) d) ts →
  go (store_all ts) d = (Ret (0%nat, List.length ts), d).
Proof.
  intros Hh. induction 1 as [|t ts [Hx Hr] _ IH]; [done|]. cbn [store_triggers].
  by rewrite run_async_bind, store_one_again, run_async_bind, IH by done.
Qed.

(** ** Options *)

(** The rows of the exit query carry no multiplier. *)
Lemma exit_contract_unobserved r : contract_observed (source_row r) = false.
Proof.
  unfold contract_observed. destruct (OptionSymbol.parseOptionSymbol _); [|done].
  cbn [mr_contract_multiplier source_row]. change (finite None) with (@None number). cbv iota.
  by rewrite andb_false_r.
Qed.

Lemma option_not_evaluated r :
  is_option r = true → ∃ c, evaluate_exit env json_parse new_york quoteMaxAgeMs now maxMarketAgeSeconds r = Throw c.
Proof.
  intros Ho. unfold evaluate_exit, mbind, res_bind. destruct (allocation_authority r); [|by eexists].
  destruct (exit_amounts r) as [[[price entry] quantity]|]; [|by eexists].
  destruct (too_old _ _ _); [by eexists|]. unfold exit_option_evidence, mbind, res_bind. rewrite Ho. cbn [negb].
  destruct (assertFreshAlpacaSipUnderlying _ _ _ _); [|by eexists]. destruct (executableOptionEvidence _ _ _); [|by eexists].
  unfold assertObservedOptionContract. rewrite exit_contract_unobserved.
  assert (is_option_row (source_row r) = true) as -> by done. by eexists.
Qed.

(** C34: One open option position stops every exit.  The query of the open positions
    does not select the multiplier of the contract, which the check of the contract
    requires to be 100; so whenever an option is among the rows, the exit review
    rejects before it has stored anything, for the equities beside it too, and
    however often it is repeated. *)
Theorem option_position_blocks_exits d r :
  In r (source command d) → is_option r = true → ∃ code, go review d = (Throw code, d).
Proof.
  intros Hr Ho. assert (He : ∃ c, evaluate (source command d) = Throw c).
  { induction (source command d) as [|x rows IH]; [done|]. cbn [evaluate_exits]. unfold mbind at 1, res_bind at 1.
    destruct Hr as [->|Hr].
    - destruct (option_not_evaluated r Ho) as [c ->]. by eexists.
    - destruct (evaluate_exit _ _ _ _ _ _ x); [|by eexists]. destruct (IH Hr) as [c Hc].
      unfold mbind, res_bind. rewrite Hc. by eexists. }
  destruct He as [c Hc]. exists c. unfold runExitReview. rewrite run_async_bind, run_ask. cbn [exit_answer].
  rewrite run_async_bind. unfold sync. cbn [run]. by rewrite Hc.
Qed.
End one_run.

(** The same position as it was in the same account snapshot. *)
Definition same_exit (a b : ExitRow) : Prop :=
  er_account_id a = er_account_id b ∧ er_position_id a = er_position_id b ∧
  er_account_snapshot_id a = er_account_snapshot_id b.

(** C33: An exit is reviewed once for an account snapshot.  After a review that
    resolved, any later one, by another worker, with other prices, another
    configuration or at another time, stores nothing for the positions it has
    already seen in this snapshot: it resolves, counts all of them as skipped and
    leaves the database as it is, whatever happened in between as long as no review
    was deleted. *)
Theorem exit_reviewed_once env1 command1 key1 fence1 now1 age1 env2 command2 key2 fence2 now2 age2 d d1 d2 r1 ts1 ts2 :
  held fence1 d = true →
  go (runExitReview env1 json_parse new_york quoteMaxAgeMs le sha256 hmac command1 key1 fence1 now1 age1) d
    = (Ret r1, d1) →
  evaluate_exits env1 json_parse new_york quoteMaxAgeMs now1 age1 (source command1 d) = Ret ts1 →
  (∀ account client, client_reviewed account client d1 → client_reviewed account client d2) →
  held fence2 d2 = true →
  evaluate_exits env2 json_parse new_york quoteMaxAgeMs now2 age2 (source command2 d2) = Ret ts2 →
  Forall (λ t2, (∃ x, exit_records env2 json_parse le sha256 hmac command2 key2 fence2 now2 t2 = Ret x) ∧
                Exists (λ t1, same_exit (et_row t1) (et_row t2)) ts1) ts2 →
  ∃ r2, go (runExitReview env2 json_parse new_york quoteMaxAgeMs le sha256 hmac command2 key2 fence2 now2 age2) d2
          = (Ret r2, d2) ∧ rr_reviewsCreated r2 = 0%nat ∧ rr_skipped r2 = List.length ts2.
Proof.
  intros Hh1 H1 Hts1 Hkept Hh2 Hts2 Hall. apply (exit_review_accounts _ _ _ _ _ _ _ _ _ Hh1) in H1 as (ts & E & Hr).
  rewrite Hts1 in E. injection E as <-.
  assert (Hok : Forall (λ t, (∃ x, exit_records env2 json_parse le sha256 hmac command2 key2 fence2 now2 t = Ret x) ∧
                             exit_reviewed (et_row t) d2) ts2).
  { eapply List.Forall_impl; [|exact Hall]. intros t2 [Hx (t1 & Ht1 & Ea & Ep & Es)%List.Exists_exists]. split; [done|].
    apply Hkept. rewrite List.Forall_forall in Hr. specialize (Hr _ Ht1). unfold exit_reviewed, client_id_of in *.
      by rewrite <- Ea, <- Ep, <- Es. }
  unfold runExitReview. rewrite run_async_bind, run_ask. cbn [exit_answer]. rewrite run_async_bind.
  unfold sync. cbn [run]. rewrite Hts2. destruct ts2 as [|t2 ts2]; [by eexists|].
  rewrite run_async_bind, (store_all_again _ _ _ _ _ _ _ Hh2 Hok). by eexists.
Qed.
End runs.
