(* ===== verification/ExitClaims.v ===== *)
(** Plain decimals as values of numeric columns: a column with enough decimals
    stores the number that the text denotes.

    A reviewed exit can be claimed: what ExitReview.v stores passes the gate that
    Submission.v puts before the submission of an order.

    A small account with three open equity positions, two of them to be closed,
    on which the properties of the exit review are exercised. *)
From Stdlib Require Import Qround Qabs Lqa Floats.
From S2P Require Import Prelude.
From S2P Require Import JsNumber.
From S2P Require Import JsString.
From S2P Require Import JsDate.
From S2P Require Import JsText.
From S2P Require Import TradeLifecycle.
From S2P Require Import SchedulerLease.
From S2P Require Import ExecutionTables.
From S2P Require Import ExecutionReservation.
From S2P Require Import ExecutionWitnesses.
From S2P Require Import PostgresNumeric.
From S2P Require Import JsJson.
From S2P Require Import SubmissionEvidence.
From S2P Require Import Effects.
From S2P Require Import Submission.
From S2P Require Import SubmissionFacts.
From S2P Require Import BrokerSnapshot.
From S2P Require Import BrokerStateSync.
From S2P Require Import ReviewEvidence.
From S2P Require Import ExitEvaluation.
From S2P Require Import ExitReview.
From S2P Require Import ExitReviewRuns.

Open Scope Z_scope.

(** The text of a plain decimal from its digits. *)
Definition decimal_text (w f : string) : string := (w ++ (if str_truthy f then "." ++ f else EmptyString))%string.

Lemma plain_decimal_form s w f : plain_decimal s = Some (false, w, f) → s = decimal_text w f.
Proof.
  unfold plain_decimal, decimal_text.
  destruct (match s with String "-" r => (true, r) | _ => (false, s) end) as [n u] eqn:En.
  destruct (span_digits u) as [d r] eqn:Es. apply span_digits_spec in Es as [_ Eu].
  destruct (str_truthy d) eqn:Et; [|done]. cbn [negb].
  assert (Hs : n = false → s = (d ++ r)%string).
  { intros ->. rewrite <- Eu. destruct s as [|[[] [] [] [] [] [] [] []] s]; congruence. }
  destruct r as [|c r']. { intros [= -> -> <-]. by rewrite Hs. }
  destruct c as [[] [] [] [] [] [] [] []]; try done.
  destruct (span_digits r') as [f' r''] eqn:Es'. apply span_digits_spec in Es' as [_ ->].
  destruct (str_truthy f') eqn:Ef; [|done]. destruct r''; [|done]. cbn [str_truthy negb andb].
  intros [= -> -> <-]. rewrite Ef. rewrite (Hs eq_refl). by rewrite str_app_nil.
Qed.

Lemma digits_no_ws s : string_forall is_digit s = true → string_forall (λ c, negb (is_ws c)) s = true.
Proof. apply string_forall_impl. intros c Hc. by rewrite is_digit_not_ws. Qed.

Lemma trim_decimal w f :
  string_forall is_digit w = true → string_forall is_digit f = true → trim (decimal_text w f) = decimal_text w f.
Proof.
  intros Hw Hf. apply trim_no_ws. unfold decimal_text. rewrite string_forall_app, digits_no_ws by done.
  destruct (str_truthy f); [|done]. change ("." ++ f)%string with (String "." f). cbn [string_forall].
  by rewrite digits_no_ws.
Qed.

Lemma span_sign_digit s : match s with String c _ => is_digit c = true | EmptyString => True end → span_sign s = (false, s).
Proof. destruct s as [|[[] [] [] [] [] [] [] []] s]; done. Qed.

Lemma split_decimal_text w f :
  string_forall is_digit w = true → str_truthy w = true → string_forall is_digit f = true →
  split_decimal (decimal_text w f) = Some (w, f, None).
Proof.
  intros Hw Ht Hf. unfold split_decimal, decimal_text. rewrite span_digits_app; [|done|by destruct (str_truthy f)].
  destruct (str_truthy f) eqn:Ef.
  - change ("." ++ f)%string with (String "." f). cbv beta iota zeta. rewrite <- (str_app_nil f) at 1.
    rewrite span_digits_app by done. by rewrite Ht.
  - destruct f; [|done]. cbv beta iota zeta. by rewrite Ht.
Qed.

Lemma numeric_of_plain s w f :
  plain_decimal s = Some (false, w, f) → ∃ q, numeric_of_text s = Some q ∧ (q == decimal_value w f)%Q.
Proof.
  intros H. pose proof (plain_decimal_form _ _ _ H) as ->. apply plain_decimal_digits in H as (Hw & Ht & Hf).
  unfold numeric_of_text. rewrite trim_decimal, span_sign_digit, split_decimal_text by
    (done || (unfold decimal_text; destruct w as [|c w]; [done|]; by apply andb_prop in Hw as [? _])).
  eexists. split; [done|]. unfold decimal_value, signed. set (n := digits_val 0 _). set (k := String.length f).
  destruct (0 - Z.of_nat k <? 0) eqn:E.
  - by replace (- (0 - Z.of_nat k)) with (Z.of_nat k) by lia.
  - apply Z.ltb_ge in E. replace k with 0%nat by lia.
    change (10 ^ (0 - Z.of_nat 0)) with 1. change (10 ^ Z.of_nat 0) with 1. change (inject_Z 1) with 1%Q. field.
Qed.

(** Rounding keeps what has no more decimals. *)
Lemma numeric_round_keeps scale z k :
  0 <= z → (k <= scale)%nat →
  (numeric_round scale (inject_Z z / inject_Z (10 ^ Z.of_nat k)) == inject_Z z / inject_Z (10 ^ Z.of_nat k))%Q.
Proof.
  intros Hz Hk. unfold numeric_round. set (u := inject_Z (10 ^ Z.of_nat scale)).
  pose proof (pow10_pos k) as Pk. pose proof (pow10_pos (scale - k)) as Pm.
  assert (Eu : u = inject_Z (10 ^ Z.of_nat k * 10 ^ Z.of_nat (scale - k))).
  { unfold u. rewrite <- Z.pow_add_r by lia. do 2 f_equal. lia. }
  assert (Hp : ¬ inject_Z (10 ^ Z.of_nat k) == 0). { unfold Qeq. cbn. lia. }
  assert (Hu : ¬ u == 0). { rewrite Eu. unfold Qeq. cbn. nia. }
  set (q := (inject_Z z / inject_Z (10 ^ Z.of_nat k))%Q).
  assert (Hq : (0 <= q)%Q).
  { unfold q, Qdiv. apply Qmult_le_0_compat; [by unfold Qle; cbn; lia|]. apply Qinv_le_0_compat. unfold Qle. cbn. lia. }
  rewrite (proj2 (Qle_bool_iff 0 q) Hq). assert (Ez : (Qabs q * u == inject_Z (z * 10 ^ Z.of_nat (scale - k)))%Q).
  { rewrite (Qabs_pos q Hq), Eu, !inject_Z_mult. unfold q. field. done. }
  assert (Qfloor (Qabs q * u + (1 # 2)) = z * 10 ^ Z.of_nat (scale - k)) as ->.
  { rewrite (Qfloor_comp _ (inject_Z (z * 10 ^ Z.of_nat (scale - k)) + (1 # 2))%Q) by (by rewrite Ez).
    apply Z.le_antisymm.
    - apply Z.lt_succ_r. rewrite Zlt_Qlt. eapply Qle_lt_trans; [apply Qfloor_le|].
      rewrite <- Z.add_1_r, inject_Z_plus. apply Qplus_lt_r. done.
    - rewrite <- (Qfloor_Z (z * _)) at 1. apply Qfloor_resp_le. rewrite <- (Qplus_0_r (inject_Z _)) at 1.
      by apply Qplus_le_compat; [apply Qle_refl|]. }
  rewrite <- Ez, (Qabs_pos q Hq). field. done.
Qed.

Lemma numeric_round_comp scale x y : (x == y)%Q → (numeric_round scale x == numeric_round scale y)%Q.
Proof.
  intros H. unfold numeric_round. assert (Qle_bool 0 x = Qle_bool 0 y) as -> by (by rewrite H).
  set (u := inject_Z (10 ^ Z.of_nat scale)).
  rewrite (Qfloor_comp (Qabs x * u + (1 # 2)) (Qabs y * u + (1 # 2))); [reflexivity|by rewrite H].
Qed.

(** What a column stores of a plain decimal. *)
Lemma numeric_column_plain scale s w f :
  plain_decimal s = Some (false, w, f) → (String.length f <= scale)%nat →
  ∃ q, numeric_column scale (Some s) = Ret (Some q) ∧ (decimal_value w f == q)%Q.
Proof.
  intros H Hk. destruct (numeric_of_plain _ _ _ H) as (v & Hv & Ev). unfold numeric_column. rewrite Hv.
  eexists. split; [done|]. apply plain_decimal_digits in H as (Hw & _ & Hf).
  assert (Hd : 0 <= digits_val 0 (w ++ f)).
  { apply (digits_val_linear _ 0). by rewrite string_forall_app, Hw. }
  rewrite (numeric_round_comp scale v (decimal_value w f) Ev). symmetry. by apply numeric_round_keeps.
Qed.

Open Scope Z_scope.

(** ** Amounts *)

(** The number prints without an exponent and with at most so many decimals. *)
Definition plain_number (scale : nat) (x : number) : Prop :=
  ∃ w f, plain_decimal (num_text x) = Some (false, w, f) ∧ (String.length f <= scale)%nat.

(** What a column stores of such a number is what its document shows. *)
Lemma plain_number_matches scale x q :
  num_is_finite x = true → plain_number scale x → numeric_parameter scale x = Ret q →
  reviewed_numeric_matches (match json_number x with JNum t => Some t | _ => None end) q = true.
Proof.
  intros Hx (w & f & Hp & Hl) Hq. unfold json_number. rewrite Hx. unfold jnum.
  destruct (numeric_column_plain scale _ _ _ Hp Hl) as (v & Hv & Ev). unfold numeric_parameter in Hq.
  rewrite Hv in Hq. injection Hq as <-. unfold reviewed_numeric_matches. rewrite Hp. by apply Qeq_bool_iff.
Qed.

Lemma finite_is_finite s x : finite s = Some x → num_is_finite x = true.
Proof.
  unfold finite. destruct s as [s|]; [|done]. cbn [fmap option_fmap option_map finite_value].
  destruct (_ && num_is_finite _) eqn:E; [|done]. intros [= <-]. by apply andb_prop in E as [_ ?].
Qed.

Lemma positive_number_finite s x : positive_number s = Some x → num_is_finite x = true.
Proof.
  unfold positive_number. destruct (finite s) as [y|] eqn:E; [|done]. destruct (y <=? 0)%float; [done|].
  intros [= <-]. by eapply finite_is_finite.
Qed.

Section claims.
Context (env : string → option string) (json_parse : string → option jvalue) (new_york : Z → NewYorkParts).
Context (quoteMaxAgeMs : number).
Context (le : string → string → bool) (sha256 : string → string) (hmac : string → string → string).
Context (document : json → jvalue).
Context (command signingKey : string) (fence : SchedulerFence) (now : Z) (maxMarketAgeSeconds : number).

Local Abbreviation records := (exit_records env json_parse le sha256 hmac command signingKey fence now).
Local Abbreviation evaluate_one := (evaluate_exit env json_parse new_york quoteMaxAgeMs now maxMarketAgeSeconds).

Lemma evaluated_finite r t :
  evaluate_one r = Ret (Some t) →
  et_row t = r ∧ num_is_finite (et_quantity t) = true ∧ num_is_finite (et_price t) = true.
Proof.
  unfold evaluate_exit. intros (u & _ & H)%res_bind_Ret.
  apply res_bind_Ret in H as ([[price entry] quantity] & Ha & H). apply res_bind_Ret in H as (u2 & _ & H).
  apply res_bind_Ret in H as (sip & _ & H). apply res_bind_Ret in H as (c & _ & H).
  destruct (exit_reason _ _ _ _ _ _) as [reason|]; [|done]. injection H as <-. split; [done|].
  unfold exit_amounts in Ha. destruct (positive_number (er_market_price r)) eqn:E1; [|done].
  destruct (positive_number (er_average_entry_price r)) eqn:E2; [|done].
  destruct (positive_number (er_available_quantity r)) eqn:E3; [|done].
  injection Ha as <- <- <-. split; by eapply positive_number_finite.
Qed.

Lemma records_Ret t x :
  records t = Ret x →
  ∃ l, exit_lineage (et_row t) = Ret l ∧
    xr_review x = {| review_input := exit_review_input env json_parse le sha256 hmac signingKey now t l;
                     review_account_id := er_account_id (et_row t);
                     review_candidate_id := exit_candidate (et_row t); review_status := ReviewValid;
                     review_consumed_at := None; review_version := 1; review_updated_at := now |} ∧
    conf_status (xr_confirmation x) = ConfirmationValid ∧
    cf_expiresAt (conf_input (xr_confirmation x)) = now + FIFTEEN_MINUTES ∧
    exit_intent env json_parse le sha256 hmac command signingKey fence now t l = Ret (xr_intent x) ∧
    xr_lifecycle x = exit_lifecycle env json_parse le sha256 hmac signingKey fence now t l.
Proof.
  unfold exit_records. intros (l & Hl & H)%res_bind_Ret. apply res_bind_Ret in H as (i & Hi & [= <-]).
  exists l. done.
Qed.

Lemma exit_authorized t x :
  records t = Ret x → num_is_finite (et_quantity t) = true → num_is_finite (et_price t) = true →
  plain_number 12 (et_quantity t) → (is_option (et_row t) = true → plain_number 8 (et_price t)) →
  document (rv_orderIntent (review_input (xr_review x))) = exit_order_intent le sha256 t →
  document empty_array = JArr [] →
  exact_review_authorization document (xr_intent x) (xr_lifecycle x) (xr_review x) = true.
Proof.
  intros (l & Hl & Er & _ & _ & Hi & El)%records_Ret Fq Fp Pq Pp. rewrite Er, El. cbn [review_input rv_orderIntent].
  intros Hd He. unfold exit_intent in Hi. apply res_bind_Ret in Hi as (quantity & Hq & Hi).
  apply res_bind_Ret in Hi as (price & Hp & Hi). apply res_bind_Ret in Hi as (premium & _ & Hi).
  apply res_bind_Ret in Hi as (risk & _ & [= <-]).
  unfold exact_review_authorization. cbn [review_input rv_orderIntent exit_review_input rv_blockers rv_clientOrderId].
  cbn [exit_review_input rv_orderIntent] in Hd. rewrite Hd, He.
  pose proof (plain_number_matches 12 _ _ Fq Pq Hq) as Mq.
  assert (Mp : reviewed_numeric_matches (field_text (exit_order_intent le sha256 t) "limitPrice") price = true).
  { change (field_text (exit_order_intent le sha256 t) "limitPrice") with
      (field_text (JObj [("limitPrice"%string, if is_option (et_row t) then json_number (et_price t) else JNull)])
         "limitPrice").
    destruct (is_option (et_row t)) eqn:Eo; cbn [numeric_when] in Hp; [|by injection Hp as <-].
    pose proof (plain_number_matches 8 _ _ Fp (Pp eq_refl) Hp) as M. unfold json_number in *. by rewrite Fp in *. }
  assert (Eq : field_text (exit_order_intent le sha256 t) "quantity" =
               match json_number (et_quantity t) with JNum t => Some t | _ => None end).
  { change (field_text (exit_order_intent le sha256 t) "quantity") with
      (field_text (JObj [("quantity"%string, json_number (et_quantity t))]) "quantity").
    unfold json_number. by rewrite Fq. }
  rewrite <- Eq in Mq.
  assert (Ht : ∀ a, text_is (Some a) a = true) by (intros a; unfold text_is; by apply bool_decide_eq_true).
  cbn [intent_client_order_id intent_symbol intent_asset_class intent_side lc_operation exit_lifecycle intent_order_type
       intent_time_in_force intent_strategy_key intent_quantity intent_notional intent_limit_price intent_stop_price].
  rewrite Mq, Mp, !andb_true_r.
  repeat (apply andb_true_intro; split); try done; try apply Ht.
  transitivity (text_is (Some (if is_option (et_row t) then "limit" else "market")%string)
                  (order_type_name (if is_option (et_row t) then limit else market))); [done|].
  by destruct (is_option (et_row t)).
Qed.

(** The records of an exit as the tables hold them. *)
Definition holds_exit (d : SubmissionDb) (x : ExitRecords) : Prop :=
  review_of (s_exec d) (xr_intent x) = Some (xr_review x) ∧
  confirmation_of (s_exec d) (xr_intent x) (xr_review x) = Some (xr_confirmation x) ∧
  lifecycle_of d (intent_id (xr_intent x)) = Some (xr_lifecycle x).

(** The account is known, with limits, an allocation for the strategy, and a
    snapshot whose structure is the reviewed one. *)
Definition account_ready (d : SubmissionDb) (i : IntentRow) (r : ReviewRow) : Prop :=
  let x := s_exec d in
  is_Some (select_one (λ a, (acct_id a =? intent_account_id i)%string) (db_accounts x)) ∧
  (∃ s, latest_snapshot x (intent_account_id i) = Some s ∧ portfolio_unchanged document s r = true) ∧
  is_Some (select_one (is_current_allocation (intent_account_id i) (intent_strategy_key i)) (db_allocations x)) ∧
  is_Some (select_one (is_current_limit (intent_account_id i)) (db_risk_limits x)) ∧
  existsb (λ e, (expo_account_id e =? intent_account_id i)%string) (db_exposures x) = true.

(** C30: What the exit review stores can be claimed by the submission.  When the
    review, the confirmation and the intent of a triggered exit are in the tables as
    they were stored, no order or event in them acknowledges it, the account has its
    rows, with limits, an exposure and an allocation for the strategy, and a newest
    snapshot of the structure that was reviewed, then within the fifteen minutes the
    review is valid the command paper:exit:execute finds the intent claimable, for
    every position whose quantity (and, for an option, whose price) prints as a plain
    decimal with no more digits than its column has: the review authorises exactly
    this order.  (Recovery may cancel such an intent first: it has no reservation.) *)
Theorem reviewed_exit_claimable r t x d later :
  evaluate_one r = Ret (Some t) → records t = Ret x →
  plain_number 12 (et_quantity t) → (is_option r = true → plain_number 8 (et_price t)) →
  document (rv_orderIntent (review_input (xr_review x))) = exit_order_intent le sha256 t →
  document empty_array = JArr [] →
  holds_exit d x → account_ready d (xr_intent x) (xr_review x) →
  no_prior_acknowledgement (xr_intent x) (s_exec d) = true → later < now + FIFTEEN_MINUTES →
  ∃ filter row, commandFilter "paper:exit:execute" = Ret filter ∧
    claimable document later filter d (xr_intent x) = Some row.
Proof.
  intros Ht Hx Pq Pp Hd He (Hr & Hc & Hl) ([acct Ha] & (s & Hs & Hp) & [a Hal] & [lim Hlim] & Hex) Hn Hlater.
  apply evaluated_finite in Ht as (<- & Fq & Fp).
  pose proof (exit_authorized t x Hx Fq Fp Pq Pp Hd He) as Hauth.
  apply records_Ret in Hx as (l & _ & Er & Hcs & Hce & Hi & El).
  apply res_bind_Ret in Hi as (quantity & _ & Hi).
  apply res_bind_Ret in Hi as (price & _ & Hi). apply res_bind_Ret in Hi as (premium & _ & Hi).
  apply res_bind_Ret in Hi as (risk & _ & [= Hi]).
  eexists _, _. split; [done|]. unfold claimable. rewrite Ha, Hl, Hs, Hr, Hal, Hlim, Hc.
  assert (bool_decide (intent_status (xr_intent x) = IntentReady) = true) as -> by (by rewrite <- Hi).
  assert (reservation_stands later (xr_intent x) s lim a (s_exec d) = true) as ->
    by (unfold reservation_stands; by rewrite <- Hi).
  assert (review_valid later (xr_review x) = true) as -> by (unfold review_valid; rewrite Er; cbn; by apply Z.ltb_lt).
  assert (confirmation_valid later (xr_confirmation x) = true) as ->
    by (unfold confirmation_valid; rewrite Hcs, Hce; cbn; by apply Z.ltb_lt).
  rewrite Hauth, Hn, Hp, Hex, Er, El. cbn [review_input exit_review_input rv_reviewType].
  assert (Ho : str_mem (operation_name (exit_operation (et_row t))) ["sell_to_close"; "buy_to_cover"]%string = true)
    by (unfold exit_operation; by destruct (is_option (et_row t)), (is_short (et_row t))).
  cbn [lc_operation exit_lifecycle]. by rewrite Ho.
Qed.
End claims.

Open Scope Z_scope.
Open Scope string_scope.

Definition exit_now : Z := 1000000.

Definition exit_row (position symbol entry price : string) (s : PositionSide) (a : ExecutionAssetClass) : ExitRow :=
  {| er_position_id := position; er_candidate_id := None; er_opening_order_id := Some "order";
     er_opening_intent_id := Some "intent"; er_opening_review_id := Some "review";
     er_opening_strategy_classification := None; er_opening_contract_id := None;
     er_opening_authorization_snapshot_id := None; er_symbol := symbol; er_order_symbol := symbol;
     er_asset_class := a; er_side := s; er_available_quantity := Some "2.500000000000";
     er_average_entry_price := Some entry; er_strategy_key := Some "core"; er_allocation_id := Some "allocation";
     er_allocation_status := Some "active"; er_allocation_effective_to := None; er_account_id := "acct";
     er_account_snapshot_id := "snap"; er_snapshot_fingerprint := Some "snapf";
     er_structural_fingerprint := Some "structure"; er_market_price := Some price; er_market_timestamp := 990000;
     er_market_request_id := None; er_market_evidence := None; er_underlying_close := None;
     er_severe_trend_sma := None; er_severe_trend_bar_count := None; er_contract_option_symbol := None;
     er_contract_id := None; er_contract_underlying_symbol := None; er_contract_type := None;
     er_contract_expiration_date := None; er_contract_tradable := None; er_contract_status := None;
     er_contract_source := None; er_contract_observed_at := None; er_sip_underlying_symbol := None;
     er_sip_market_price := None; er_sip_market_timestamp := None; er_sip_bid_price := None; er_sip_ask_price := None;
     er_sip_requested_feed := None; er_sip_effective_feed := None; er_sip_provider := None; er_sip_request_id := None |}.

Definition exit_rows : list ExitRow :=
  [exit_row "p1" "SPY" "100" "90" PositionLong equity; exit_row "p2" "QQQ" "100" "101" PositionLong equity;
   exit_row "p3" "TSLA" "200" "170" PositionShort equity].

(** The last characters first: texts that differ at their end differ at the
    beginning of their digest. *)
Fixpoint reversed (s acc : string) : string :=
  match s with EmptyString => acc | String c s' => reversed s' (String c acc) end.

Definition exit_digest (s : string) : string := str_take 40 (reversed s "").
Definition exit_hmac (key text : string) : string := key ++ text.
Definition no_env (name : string) : option string := None.
Definition no_parse (s : string) : option jvalue := None.
Definition utc_parts (t : Z) : NewYorkParts := {| ny_date := ""; ny_hour := 0; ny_minute := 0 |}.

Definition exit_db : SubmissionDb :=
  {| s_now := 100; s_exec := demo_synced; s_lifecycle := []; s_candidates := []; s_terminals := [] |}.

Definition exit_program (now : Z) : async exit_effect ReviewResult :=
  runExitReview no_env no_parse utc_parts 30000 String.leb exit_digest exit_hmac "paper:exit:review" "key" demo_fence now
    1800.

Definition exit_run : { x | run (exit_answer (λ _ _, exit_rows)) (exit_program exit_now) exit_db = (Ret (fst x), snd x) }.
Proof. eexists (_, _). cbn [fst snd]. vm_compute. reflexivity. Defined.

Example exit_run_stores_two : rr_reviewsCreated (fst (proj1_sig exit_run)) = 2%nat.
Proof. reflexivity. Qed.

Lemma exit_review_complete_witness :
  ∃ ts ts' xs,
    evaluate_exits no_env no_parse utc_parts 30000 exit_now 1800 exit_rows = Ret ts ∧ sublist ts' ts ∧
    Forall (λ t, ¬ exit_reviewed String.leb exit_digest (et_row t) exit_db) ts' ∧
    NoDup (map (λ t, exit_key String.leb exit_digest (et_row t)) ts') ∧
    (∀ t, In t ts → exit_reviewed String.leb exit_digest (et_row t) exit_db ∨
       ∃ t', In t' ts' ∧ exit_key String.leb exit_digest (et_row t') = exit_key String.leb exit_digest (et_row t)) ∧
    Forall2 (λ t x, exit_records no_env no_parse String.leb exit_digest exit_hmac "paper:exit:review" "key" demo_fence
                      exit_now t = Ret x) ts' xs ∧
    snd (proj1_sig exit_run) = with_exits xs exit_db ∧
    rr_reviewsCreated (fst (proj1_sig exit_run)) = List.length xs ∧
    (rr_reviewsCreated (fst (proj1_sig exit_run)) + rr_skipped (fst (proj1_sig exit_run)))%nat = List.length ts ∧
    Forall (λ t, exit_reviewed String.leb exit_digest (et_row t) (snd (proj1_sig exit_run))) ts.
Proof.
  apply (exit_review_complete no_parse utc_parts 30000 String.leb exit_digest exit_hmac (λ _ _, exit_rows) no_env
           "paper:exit:review" "key" demo_fence exit_now 1800 exit_db); [vm_compute; reflexivity|].
  exact (proj2_sig exit_run).
Defined.

(** The triggers and records of the run. *)
Definition exit_triggers : { ts | evaluate_exits no_env no_parse utc_parts 30000 exit_now 1800 exit_rows = Ret ts }.
Proof. eexists. vm_compute. reflexivity. Defined.

(** A second review, ten minutes later. *)
Definition exit_triggers_later :
  { ts | evaluate_exits no_env no_parse utc_parts 30000 (exit_now + 600000) 1800 exit_rows = Ret ts }.
Proof. eexists. vm_compute. reflexivity. Defined.

Lemma exit_reviewed_once_witness :
  ∃ r2, run (exit_answer (λ _ _, exit_rows)) (exit_program (exit_now + 600000)) (snd (proj1_sig exit_run))
          = (Ret r2, snd (proj1_sig exit_run)) ∧ rr_reviewsCreated r2 = 0%nat ∧ rr_skipped r2 = 2%nat.
Proof.
  apply (exit_reviewed_once no_parse utc_parts 30000 String.leb exit_digest exit_hmac (λ _ _, exit_rows) no_env
           "paper:exit:review" "key" demo_fence exit_now 1800 no_env "paper:exit:review" "key" demo_fence
           (exit_now + 600000) 1800 exit_db (snd (proj1_sig exit_run)) (snd (proj1_sig exit_run))
           (fst (proj1_sig exit_run)) (proj1_sig exit_triggers) (proj1_sig exit_triggers_later)).
  - vm_compute. reflexivity.
  - exact (proj2_sig exit_run).
  - exact (proj2_sig exit_triggers).
  - done.
  - vm_compute. reflexivity.
  - exact (proj2_sig exit_triggers_later).
  - constructor; [split; [eexists; vm_compute; reflexivity|by left]|].
    constructor; [split; [eexists; vm_compute; reflexivity|by right; left]|constructor].
Defined.

Definition mixed_rows : list ExitRow :=
  exit_rows ++ [exit_row "p4" "SPY280119C00450500" "10" "2" PositionLong option_contract].

Lemma option_position_blocks_exits_witness :
  ∃ code, run (exit_answer (λ _ _, mixed_rows)) (exit_program exit_now) exit_db = (Throw code, exit_db).
Proof.
  apply (option_position_blocks_exits no_parse utc_parts 30000 String.leb exit_digest exit_hmac (λ _ _, mixed_rows) no_env
           "paper:exit:review" "key" demo_fence exit_now 1800 exit_db
           (exit_row "p4" "SPY280119C00450500" "10" "2" PositionLong option_contract));
    [right; right; right; by left|done].
Defined.

(** ** A claim *)

Definition first_trigger : { t |
  evaluate_exit no_env no_parse utc_parts 30000 exit_now 1800 (exit_row "p1" "SPY" "100" "90" PositionLong equity)
    = Ret (Some t) }.
Proof. eexists. vm_compute. reflexivity. Defined.

Definition first_records : { x |
  exit_records no_env no_parse String.leb exit_digest exit_hmac "paper:exit:review" "key" demo_fence exit_now
    (proj1_sig first_trigger) = Ret x }.
Proof. eexists. vm_compute. reflexivity. Defined.

Definition exit_document (s : json) : jvalue :=
  if s =? "[]" then JArr []
  else if s =? "{}" then JObj [("structuralPortfolioFingerprint", JStr "structure")]
  else exit_order_intent String.leb exit_digest (proj1_sig first_trigger).

Lemma reviewed_exit_claimable_witness :
  ∃ filter row, commandFilter "paper:exit:execute" = Ret filter ∧
    claimable exit_document (exit_now + 60000) filter (snd (proj1_sig exit_run)) (xr_intent (proj1_sig first_records))
      = Some row.
Proof.
  apply (reviewed_exit_claimable no_env no_parse utc_parts 30000 String.leb exit_digest exit_hmac exit_document
           "paper:exit:review" "key" demo_fence exit_now 1800 (exit_row "p1" "SPY" "100" "90" PositionLong equity)
           (proj1_sig first_trigger) (proj1_sig first_records) (snd (proj1_sig exit_run)) (exit_now + 60000)).
  - exact (proj2_sig first_trigger).
  - exact (proj2_sig first_records).
  - exists "2", "5". split; [vm_compute; reflexivity|]. apply Nat.leb_le. reflexivity.
  - done.
  - vm_compute. reflexivity.
  - reflexivity.
  - split_and!; vm_compute; reflexivity.
  - split_and!; [eexists; vm_compute; reflexivity|eexists; split; vm_compute; reflexivity
      |eexists; vm_compute; reflexivity|eexists; vm_compute; reflexivity|vm_compute; reflexivity].
  - vm_compute. reflexivity.
  - vm_compute. reflexivity.
Defined.
