(* ===== verification/EntryEvaluation.v ===== *)
(** Which candidates to enter: the rows that [runPostgresReviewWorkflow] of
    src/services/postgresReviewWorkflowService.ts reads, the capital each of them
    may use, and what the arbitration of the portfolio is asked.

    [EntryRow] has the columns the query of the candidates selects; numeric columns
    and counts arrive as text, timestamps as a Date (milliseconds). *)

From Stdlib Require Import Floats.
From S2P Require Import Prelude.
From S2P Require Import JsString.
From S2P Require Import JsDate.
From S2P Require Import JsNumber.
From S2P Require Import JsText.
From S2P Require Import JsJson.
From S2P Require Import CanonicalJson.
From S2P Require Import SchedulerLease.
From S2P Require Import ExecutionTables.
From S2P Require Import ExecutionReservation.
From S2P Require Import Submission.
From S2P Require Import BrokerSnapshot.
From S2P Require Import ReviewConfiguration.
From S2P Require Import ReviewEvidence.
From S2P Require Import ExitReview.
From S2P Require Import PortfolioArbitrator.
Open Scope Z_scope.

(** ** Rows *)

(** [ny_market]: symbol, asset class, prices, contract and SIP quote. *)
Record EntryRow := {
  ny_candidate_id : string;
  ny_research_run_id : string;
  ny_candidate_score : option string;
  ny_market : MarketRow;
  ny_direction : PortfolioExposureDirection;
  ny_confidence : option string;
  ny_strategy_family : option string;
  ny_signal_inputs : option jvalue;
  ny_account_id : string;
  ny_account_snapshot_id : string;
  ny_account_snapshot_as_of : Z;
  ny_snapshot_fingerprint : string;
  ny_structural_fingerprint : option string;
  ny_buying_power : option string;
  ny_options_buying_power : option string;
  ny_cash : option string;
  ny_equity : option string;
  ny_strategy_key : string;
  ny_allocation_amount : option string;
  ny_allocation_ratio : option string;
  ny_reserved_amount : option string;
  ny_deployed_amount : option string;
  ny_allocation_config_fingerprint : option string;
  ny_risk_config_fingerprint : option string;
  ny_max_position_notional : option string;
  ny_max_symbol_notional : option string;
  ny_max_deployment_amount : option string;
  ny_max_deployment_ratio : option string;
  ny_cash_reserve_amount : option string;
  ny_cash_reserve_ratio : option string;
  ny_max_gross_exposure : option string;
  ny_max_open_order_exposure : option string;
  ny_portfolio_gross_exposure : option string;
  ny_portfolio_open_order_exposure : option string;
  ny_portfolio_deployed_amount : option string;
  ny_portfolio_exposure_fingerprint : option string;
  ny_current_positions : option jvalue;
  ny_current_open_orders : option jvalue;
  ny_pending_commitments : option jvalue;
  ny_position_snapshot_as_of : option Z;
  ny_open_order_snapshot_as_of : option Z;
  ny_open_position_count : string;
  ny_open_order_count : string
}.

Definition row_option (r : EntryRow) : bool := is_option_row (ny_market r).
Definition row_short (r : EntryRow) : bool := bool_decide (ny_direction r = short_direction).
Definition short_equity (r : EntryRow) : bool := negb (row_option r) && row_short r.

(** [row.option_symbol ?? row.symbol] *)
Definition order_symbol_of (r : EntryRow) : string := default (mr_symbol (ny_market r)) (mr_option_symbol (ny_market r)).

Definition strategy_family (r : EntryRow) : string := lower_text (ny_strategy_family r).
Definition leaps_entry (r : EntryRow) : bool := row_option r && (strategy_family r =? "leaps")%string.

Definition or_number (x : option number) (y : number) : number := default y x.

(** [finite(row.contract_multiplier) ?? Number.NaN] *)
Definition contract_multiplier (r : EntryRow) : number := or_number (finite (mr_contract_multiplier (ny_market r))) nan.

(** [Math.floor(x * 100) / 100] *)
Definition floor_cents (x : number) : number := (math_floor (x * 100) / 100)%float.

(** ** Capital *)

(** Buying power, cash and equity of the account. *)
Definition sizing_evidence (r : EntryRow) : res (number * number * number) :=
  match finite (ny_buying_power r), finite (ny_cash r), finite (ny_equity r) with
  | Some buyingPower, Some cash, Some worth => Ret (buyingPower, cash, worth)
  | _, _, _ => Throw "POSTGRES_REVIEW_ACCOUNT_SIZING_EVIDENCE_MISSING"
  end.

Definition cash_reserve_of (r : EntryRow) (worth : number) : number :=
  match ny_cash_reserve_amount r with
  | Some _ => or_number (finite (ny_cash_reserve_amount r)) 0
  | None => (worth * or_number (finite (ny_cash_reserve_ratio r)) 0)%float
  end.

Definition independentlyValidatedAvailableCapital (r : EntryRow) : res number :=
  '(buyingPower, cash, worth) ← sizing_evidence r;
  let allocation :=
    match ny_allocation_amount r with
    | Some _ => positiveOrInfinity (ny_allocation_amount r)
    | None => match finite (ny_allocation_ratio r) with Some q => (buyingPower * q)%float | None => infinity end
    end in
  let allocationRemaining :=
    math_max 0 (allocation - or_number (finite (ny_reserved_amount r)) 0 - or_number (finite (ny_deployed_amount r)) 0)%float in
  let amount := floor_cents (math_min_list
    [buyingPower; math_max 0 (cash - cash_reserve_of r worth)%float; allocationRemaining;
     positiveOrInfinity (ny_max_position_notional r); positiveOrInfinity (ny_max_symbol_notional r);
     positiveOrInfinity (ny_max_deployment_amount r)]) in
  Ret (if num_is_finite amount && (0 <? amount)%float then amount else zero).

(** ** One candidate *)

Record EligibleRow := {
  el_row : EntryRow;
  el_amount : number;
  el_evidence : EntryEvidence;
  el_leapsSizing : option LeapsEntrySizingResult
}.

(** A row is eligible, or blocked for its evidence, or for want of capital. *)
Inductive EntryVerdict : Type :=
| Eligible (e : EligibleRow)
| BlockedRow (r : EntryRow) (reason : string)
| CapacityRow (r : EntryRow) (reason : string) (leapsSizing : option LeapsEntrySizingResult).

Section evaluate.
Context (env : string → option string) (json_parse : string → option jvalue) (quoteMaxAgeMs : number).
Context (now : Z) (maxMarketAgeSeconds : number) (exploration : PaperExplorationThresholds).

Definition sizing (r : EntryRow) : res (option number) :=
  capital ← independentlyValidatedAvailableCapital r;
  let amount := floor_cents (math_min
    (maxOrderNotional exploration * optionSizingScale json_parse (ny_market r) (ny_signal_inputs r))%float capital) in
  Ret (if negb (num_is_finite amount) || (amount <=? 0)%float then None else Some amount).

(** The amount of an entry, or why there is none; for LEAPS with its sizing. *)
Definition size_entry (r : EntryRow) (price : number)
    : res (string * option LeapsEntrySizingResult + number * option LeapsEntrySizingResult) :=
  if leaps_entry r then
    match resolveLeapsEntryAllocation env with
    | inl failure => Throw (allocation_failure_code failure)
    | inr cap =>
        capital ← independentlyValidatedAvailableCapital r;
        let s := sizeLeapsEntry {| li_executablePremium := price; li_contractMultiplier := contract_multiplier r;
                                   li_maxEntryCapitalUsd := cap; li_availableCapitalUsd := capital |} in
        Ret (if (ls_quantity s =? 0)%float
             then inl (match ls_reason s with Some c => sizing_failure_code c
                       | None => "POSTGRES_REVIEW_CAPACITY_UNAVAILABLE"%string end, Some s)
             else inr (ls_positionCostUsd s, Some s))
    end
  else
    amount ← sizing r;
    Ret (match amount with
         | None => inl ("POSTGRES_REVIEW_CAPACITY_UNAVAILABLE"%string, None)
         | Some a => inr (a, None)
         end).

(** [!Math.floor(amount / unit)] *)
Definition no_whole_unit (amount unit_ : number) : bool := negb (num_truthy (math_floor (amount / unit_)%float)).

Definition evaluate_entry (r : EntryRow) : res EntryVerdict :=
  if negb (is_some_bool (present (ny_structural_fingerprint r))) || negb (str_truthy (ny_snapshot_fingerprint r))
  then Throw "POSTGRES_REVIEW_ACCOUNT_FINGERPRINT_MISSING"
  else
  match validateEntryReviewEvidence json_parse quoteMaxAgeMs (ny_market r) (ny_signal_inputs r) now
          maxMarketAgeSeconds (maximumOptionSpreadPct exploration) with
  | Throw message =>
      match scopedReviewProposalReason message with
      | Some reason => Ret (BlockedRow r reason)
      | None => Throw message
      end
  | Ret evidence =>
      let price := en_price evidence in
      sized ← size_entry r price;
      Ret (match sized with
           | inl (reason, s) => CapacityRow r reason s
           | inr (amount, s) =>
               if row_option r && negb (is_some_bool s) && no_whole_unit amount (price * contract_multiplier r)%float
               then CapacityRow r "POSTGRES_REVIEW_OPTION_CAPACITY_INSUFFICIENT" None
               else if short_equity r && no_whole_unit amount price
               then CapacityRow r "POSTGRES_REVIEW_SHORT_CAPACITY_INSUFFICIENT" None
               else Eligible {| el_row := r; el_amount := amount; el_evidence := evidence; el_leapsSizing := s |}
           end)
  end.

(** The loop over the rows. *)
Fixpoint evaluate_entries (rows : list EntryRow) : res (list EntryVerdict) :=
  match rows with
  | [] => Ret []
  | r :: rows' => v ← evaluate_entry r; vs ← evaluate_entries rows'; Ret (v :: vs)
  end.
End evaluate.

Definition eligible_of (v : EntryVerdict) : list EligibleRow := match v with Eligible e => [e] | _ => [] end.
Definition blocked_of (v : EntryVerdict) : list (EntryRow * string) :=
  match v with BlockedRow r reason => [(r, reason)] | _ => [] end.
Definition capacity_of (v : EntryVerdict) : list (EntryRow * string * option LeapsEntrySizingResult) :=
  match v with CapacityRow r reason s => [(r, reason, s)] | _ => [] end.

(** ** The portfolio *)

Section context.
Context (json_parse : string → option jvalue).

(** [jsonRecords]: a text that holds a document holds a shorter text, so that its
    length bounds the recursion. *)
Fixpoint jsonRecords_within (fuel : nat) (v : option jvalue) : list (list (string * jvalue)) :=
  match v, fuel with
  | Some (JArr l), _ => omap (λ x, match x with JObj fields => Some fields | _ => None end) l
  | Some (JStr s), S fuel' => if str_truthy (trim s) then jsonRecords_within fuel' (json_parse s) else []
  | _, _ => []
  end.
Definition jsonRecords (v : option jvalue) : list (list (string * jvalue)) :=
  jsonRecords_within (match v with Some (JStr s) => S (String.length s) | _ => 1 end) v.

Definition direction_of (s : string) : option PortfolioExposureDirection :=
  if (s =? "long")%string then Some long_direction
  else if (s =? "short")%string then Some short_direction else None.

Definition positionExposure (value : list (string * jvalue)) : option PortfolioPositionExposure :=
  let id := value_text (field value "id") in
  let symbol := to_upper (value_text (field value "symbol")) in
  let underlying := to_upper (value_text (nullish (field value "underlyingSymbol") (field value "underlying_symbol"))) in
  let exposure := finite_value (nullish (field value "resourceExposure") (field value "resource_exposure")) in
  match direction_of (to_lower (value_text (field value "direction"))) with
  | Some d =>
      if str_truthy id && str_truthy symbol && str_truthy underlying then
        Some {| exp_id := id; exp_symbol := symbol; exp_underlyingSymbol := underlying; exp_direction := d;
                exp_resourceExposure := match exposure with
                                        | Some x => if (0 <=? x)%float then Some x else None
                                        | None => None
                                        end |}
      else None
  | None => None
  end.

Definition orderExposure (value : list (string * jvalue)) : option PortfolioOrderExposure :=
  let status := value_text (field value "status") in
  match positionExposure value with
  | Some base => if str_truthy status then Some {| order_exposure := base; order_status := status |} else None
  | None => None
  end.

(** The exposure that a count stands for. *)
Definition counted_exposure (id : string) (r : EntryRow) : PortfolioPositionExposure :=
  {| exp_id := (id ++ ny_candidate_id r)%string; exp_symbol := to_upper (trim (order_symbol_of r));
     exp_underlyingSymbol := to_upper (trim (mr_symbol (ny_market r))); exp_direction := ny_direction r;
     exp_resourceExposure := None |}.

Definition positive_count (s : string) : bool := (0 <? num_of_text s)%float.

Definition add_counted_position (ps : list PortfolioPositionExposure) (r : EntryRow) : list PortfolioPositionExposure :=
  let e := counted_exposure "postgres-position:" r in
  if positive_count (ny_open_position_count r) && negb (existsb (λ p, (exp_symbol p =? exp_symbol e)%string) ps)
  then ps ++ [e] else ps.

Definition add_counted_order (os : list PortfolioOrderExposure) (r : EntryRow) : list PortfolioOrderExposure :=
  let e := counted_exposure "postgres-order:" r in
  if positive_count (ny_open_order_count r)
     && negb (existsb (λ o, (exp_symbol (order_exposure o) =? exp_symbol e)%string) os)
  then os ++ [{| order_exposure := e; order_status := "active_postgres_count" |}] else os.

Definition exposure_le (a b : PortfolioPositionExposure) : bool := String.leb (exp_id a) (exp_id b).
Definition order_exposure_le (a b : PortfolioOrderExposure) : bool := exposure_le (order_exposure a) (order_exposure b).

Definition current_positions (rows : list EntryRow) (shared : EntryRow) : list PortfolioPositionExposure :=
  sort_by exposure_le
    (foldl add_counted_position (omap positionExposure (jsonRecords (ny_current_positions shared))) rows).
Definition current_open_orders (rows : list EntryRow) (shared : EntryRow) : list PortfolioOrderExposure :=
  sort_by order_exposure_le
    (foldl add_counted_order (omap orderExposure (jsonRecords (ny_current_open_orders shared))) rows).
Definition pending_commitments (shared : EntryRow) : list PortfolioPositionExposure :=
  omap positionExposure (jsonRecords (ny_pending_commitments shared)).

(** The resources bound by the pending commitments; unknown when one is. *)
Definition pending_resource (ps : list PortfolioPositionExposure) : option number :=
  foldl (λ sum p, match sum, exp_resourceExposure p with
                  | Some s, Some x => Some (s + x)%float | _, _ => None end) (Some 0%float) ps.

(** What the limits leave, before the pending commitments. *)
Record Remaining := {
  rm_buyingPower : number;
  rm_optionsBuyingPower : number;
  rm_cash : number;
  rm_allocation : number;
  rm_deployment : number;
  rm_gross : number;
  rm_openOrders : number
}.

Definition left_of (limit : option number) (used otherwise : number) : number :=
  match limit with Some l => math_max 0 (l - used)%float | None => otherwise end.

Definition remaining_resources (r : EntryRow) : res Remaining :=
  '(buyingPower, cash, worth) ← sizing_evidence r;
  let allocationLimit :=
    match ny_allocation_amount r with
    | Some _ => finite (ny_allocation_amount r)
    | None => Some (match finite (ny_allocation_ratio r) with Some q => (buyingPower * q)%float | None => buyingPower end)
    end in
  let reserved := or_number (finite (ny_reserved_amount r)) 0 in
  let allocationDeployed := or_number (finite (ny_deployed_amount r)) 0 in
  let portfolioDeployed := or_number (finite (ny_portfolio_deployed_amount r)) allocationDeployed in
  let grossExposure := or_number (finite (ny_portfolio_gross_exposure r)) portfolioDeployed in
  let openOrderExposure := or_number (finite (ny_portfolio_open_order_exposure r)) 0 in
  Ret {| rm_buyingPower := buyingPower;
         rm_optionsBuyingPower := or_number (finite (ny_options_buying_power r)) buyingPower;
         rm_cash := (cash - cash_reserve_of r worth)%float;
         rm_allocation := match allocationLimit with
                          | Some l => math_max 0 (l - reserved - allocationDeployed)%float | None => zero end;
         rm_deployment := math_min
           (left_of (finite (ny_max_deployment_amount r)) portfolioDeployed buyingPower)
           (left_of ((λ q, (worth * q)%float) <$> finite (ny_max_deployment_ratio r)) portfolioDeployed buyingPower);
         rm_gross := left_of (finite (ny_max_gross_exposure r)) grossExposure buyingPower;
         rm_openOrders := left_of (finite (ny_max_open_order_exposure r)) openOrderExposure buyingPower |}.

Definition less_pending (x : number) (pending : option number) : option number :=
  (λ p, math_max 0 (x - p)%float) <$> pending.

Definition portfolio_capacity (m : Remaining) (pending : option number) : option number :=
  (λ p, floor_cents (math_min_list
     [math_max 0 (rm_buyingPower m - p); math_max 0 (rm_cash m - p); math_max 0 (rm_allocation m - p);
      math_max 0 (rm_deployment m - p); math_max 0 (rm_gross m - p); math_max 0 (rm_openOrders m - p)]%float)) <$> pending.

Definition direction_name (d : PortfolioExposureDirection) : string :=
  match d with long_direction => "long" | short_direction => "short" end.

Definition exposure_fields (e : PortfolioPositionExposure) : list (string * jvalue) :=
  [("id", JStr (exp_id e)); ("symbol", JStr (exp_symbol e)); ("underlyingSymbol", JStr (exp_underlyingSymbol e));
   ("direction", JStr (direction_name (exp_direction e)));
   ("resourceExposure", json_number_opt (exp_resourceExposure e))]%string.
Definition order_fields (o : PortfolioOrderExposure) : list (string * jvalue) :=
  exposure_fields (order_exposure o) ++ [("status"%string, JStr (order_status o))].

Context (le : string → string → bool) (sha256 : string → string).

(** All rows come from one account and one snapshot of it. *)
Definition same_context (a b : EntryRow) : bool :=
  (ny_account_id a =? ny_account_id b)%string && (ny_account_snapshot_id a =? ny_account_snapshot_id b)%string
  && (ny_snapshot_fingerprint a =? ny_snapshot_fingerprint b)%string.

Definition portfolioResourceContext (rows : list EntryRow) (shared : EntryRow) : res PortfolioResourceContext :=
  if existsb (λ r, negb (same_context r shared)) rows then Throw "POSTGRES_PORTFOLIO_ARBITRATION_CONTEXT_MISMATCH"
  else
  m ← remaining_resources shared;
  let positions := current_positions rows shared in
  let orders := current_open_orders rows shared in
  let commitments := pending_commitments shared in
  let pending := pending_resource commitments in
  let sorted := sort_by exposure_le commitments in
  let buyingPower := less_pending (rm_buyingPower m) pending in
  let optionsPower := less_pending (rm_optionsBuyingPower m) pending in
  let cash := less_pending (rm_cash m) pending in
  let capacity := portfolio_capacity m pending in
  let accountAsOf := iso_text (ny_account_snapshot_as_of shared) in
  let positionAsOf := default accountAsOf (iso_text <$> ny_position_snapshot_as_of shared) in
  let orderAsOf := default accountAsOf (iso_text <$> ny_open_order_snapshot_as_of shared) in
  let version := CanonicalJson.canonicalJsonHash le sha256 (JObj
    [("accountSnapshotId", JStr (ny_account_snapshot_id shared));
     ("accountFingerprint", JStr (ny_snapshot_fingerprint shared));
     ("structuralFingerprint", jstr_opt (ny_structural_fingerprint shared));
     ("riskConfigFingerprint", jstr_opt (ny_risk_config_fingerprint shared));
     ("allocationConfigFingerprint", jstr_opt (ny_allocation_config_fingerprint shared));
     ("exposureFingerprint", jstr_opt (ny_portfolio_exposure_fingerprint shared));
     ("buyingPowerAvailable", json_number_opt buyingPower); ("optionsBuyingPowerAvailable", json_number_opt optionsPower);
     ("cashAvailable", json_number_opt cash); ("portfolioCapacityAvailable", json_number_opt capacity);
     ("maxUnderlyingExposure", JNull); ("currentPositions", JArr (map (λ e, JObj (exposure_fields e)) positions));
     ("currentOpenOrders", JArr (map (λ o, JObj (order_fields o)) orders));
     ("pendingCommitments", JArr (map (λ e, JObj (exposure_fields e)) sorted));
     ("accountSnapshotAsOf", JStr accountAsOf); ("positionSnapshotAsOf", JStr positionAsOf);
     ("openOrderSnapshotAsOf", JStr orderAsOf)]%string) in
  Ret {| contextId := ny_account_snapshot_id shared; contextVersion := version; buyingPowerAvailable := buyingPower;
         optionsBuyingPowerAvailable := optionsPower; cashAvailable := cash; portfolioCapacityAvailable := capacity;
         maxUnderlyingExposure := None; existingPositions := positions; openOrders := orders;
         pendingCommitments := sorted; laneCapacityAvailable := []; accountSnapshotAsOf := Some accountAsOf;
         positionSnapshotAsOf := Some positionAsOf; openOrderSnapshotAsOf := Some orderAsOf |}.
End context.

(** ** Proposals *)

Definition arbitrationLane (r : EntryRow) : WorkstreamLane :=
  let family := strategy_family r in
  if (family =? "zero_dte_spy")%string then options_0dte
  else if (family =? "leaps")%string then options_leaps else equity_lane.

Definition arbitrationPriority (l : WorkstreamLane) : number :=
  match l with equity_lane => 0%float | options_0dte => 1%float | options_leaps => 2%float end.

Definition unit_resource (e : EligibleRow) : number :=
  let r := el_row e in
  if row_option r then (en_price (el_evidence e) * contract_multiplier r)%float
  else if short_equity r then en_price (el_evidence e) else 0.01%float.

Definition requested_quantity (e : EligibleRow) : option number :=
  let r := el_row e in
  let units := math_floor (el_amount e / unit_resource e)%float in
  if row_option r then Some (match el_leapsSizing e with Some s => ls_quantity s | None => units end)
  else if short_equity r then Some units else None.

Definition entry_proposal (cycle : string) (e : EligibleRow) : PortfolioArbitrationProposal :=
  let r := el_row e in
  let whole := row_option r || short_equity r in
  let requirement := if whole then (unit_resource e * or_number (requested_quantity e) 0)%float else el_amount e in
  {| proposalId := ny_candidate_id r; cycleId := cycle; lane := arbitrationLane r;
     strategyPriority := arbitrationPriority (arbitrationLane r); score := finite (ny_candidate_score r);
     confidence := finite (ny_confidence r); symbol := to_upper (order_symbol_of r);
     underlyingSymbol := to_upper (mr_symbol (ny_market r));
     contractId := if row_option r
                   then Some (default (default EmptyString (mr_option_symbol (ny_market r))) (mr_contract_id (ny_market r)))
                   else None;
     direction := ny_direction r;
     assetClass := if row_option r then option_asset else equity_asset;
     requestedQuantity := requested_quantity e; requestedNotional := Some requirement;
     resourceRequirement := Some requirement; unitResource := Some (unit_resource e);
     resizeMode := if row_option r then whole_contracts else if short_equity r then whole_shares else notional |}.
