(* ===== verification/EntryReview.v ===== *)
(** Reviewing entries: [runPostgresReviewWorkflow] of
    src/services/postgresReviewWorkflowService.ts, and
    src/services/postgresPortfolioArbitrationService.ts.

    The candidates that a query returns are evaluated (EntryEvaluation.v) and
    arbitrated (PortfolioArbitrator.v); the decisions are stored, and every entry
    that is granted an amount gets a review and an intent.  Each statement commits
    by itself.  Of a stored decision the table has the keys and the fingerprint as
    columns; the other columns are the decision. *)

From Stdlib Require Import Floats.
From S2P Require Import Prelude.
From S2P Require Import JsString.
From S2P Require Import JsDate.
From S2P Require Import JsNumber.
From S2P Require Import JsText.
From S2P Require Import JsJson.
From S2P Require Import CanonicalJson.
From S2P Require Import TradeLifecycle.
From S2P Require Import SchedulerLease.
From S2P Require Import ExecutionTables.
From S2P Require Import ExecutionReservation.
From S2P Require Import ExecutionEvidence.
From S2P Require Import Effects.
From S2P Require Import Submission.
From S2P Require Import BrokerSnapshot.
From S2P Require Import BrokerStateSync.
From S2P Require Import ReviewConfiguration.
From S2P Require Import ReviewEvidence.
From S2P Require Import ExitEvaluation.
From S2P Require Import ExitReview.
From S2P Require Import PortfolioArbitrator.
From S2P Require Import EntryEvaluation.
Open Scope Z_scope.

(** ** Stored decisions *)

Record DecisionRow := {
  dr_id : string;
  dr_account_id : string;
  dr_account_snapshot_id : string;
  dr_context_id : string;
  dr_decision : PortfolioArbitrationDecision;
  dr_fingerprint : string;
  dr_created_at : Z
}.

(** The database with the table portfolio_arbitration_decisions. *)
Record ReviewDb := { v_sub : SubmissionDb; v_decisions : list DecisionRow }.

Definition same_decision (a b : DecisionRow) : bool :=
  (d_arbitrationId (dr_decision a) =? d_arbitrationId (dr_decision b))%string
  && (d_proposalId (dr_decision a) =? d_proposalId (dr_decision b))%string.

Definition matching_decision (a b : DecisionRow) : bool :=
  same_decision a b && (dr_fingerprint a =? dr_fingerprint b)%string.

Definition same_decision_id (a b : DecisionRow) : bool := (dr_id a =? dr_id b)%string.

(** INSERT ... ON CONFLICT (arbitration_id, proposal_id) DO NOTHING: the table and
    how many were inserted. *)
Fixpoint insert_decisions (rows : list DecisionRow) (t : list DecisionRow) : res (nat * list DecisionRow) :=
  match rows with
  | [] => Ret (0%nat, t)
  | r :: rows' =>
      if existsb (same_decision r) t then insert_decisions rows' t
      else if existsb (same_decision_id r) t then Throw unique_violation
      else '(n, t') ← insert_decisions rows' (t ++ [r]); Ret (S n, t')
  end.

Record DecisionCounts := {
  dc_fence_held : bool;
  dc_inserted : nat;
  dc_matched : nat
}.

Definition store_decisions (fence : SchedulerFence) (rows : list DecisionRow) : tx ReviewDb DecisionCounts := λ d,
  let existing := count_where (λ r, existsb (matching_decision r) (v_decisions d)) rows in
  if held fence (v_sub d) then
    match insert_decisions rows (v_decisions d) with
    | Ret (n, t) => Ret ({| dc_fence_held := true; dc_inserted := n; dc_matched := n + existing |},
                         {| v_sub := v_sub d; v_decisions := t |})
    | Throw c => Throw c
    end
  else Ret ({| dc_fence_held := false; dc_inserted := 0; dc_matched := existing |}, d).

(** ** Reviews and intents *)

(** ON CONFLICT (account_id, payload_fingerprint) *)
Definition same_review_payload (a b : ReviewRow) : bool :=
  (review_account_id a =? review_account_id b)%string
  && (rv_payloadFingerprint (review_input a) =? rv_payloadFingerprint (review_input b))%string.

Definition insert_entry_review (fence : SchedulerFence) (r : ReviewRow) : tx SubmissionDb nat :=
  fenced fence (written ← exec (insert_unless same_review_payload review_conflicts new_review_checks db_reviews
                                  set_reviews r);
                mret (row_count written)).

Definition insert_entry_intent (fence : SchedulerFence) (i : IntentRow) (l : LifecycleColumns) : tx SubmissionDb nat :=
  fenced fence (insert_intent i l).

(** ** Documents *)

Definition lane_name (l : WorkstreamLane) : string :=
  match l with equity_lane => "equity" | options_0dte => "options_0dte" | options_leaps => "options_leaps" end.
Definition action_name (a : PortfolioArbitrationAction) : string :=
  match a with approve => "approve" | resize => "resize" | skip => "skip" end.
Definition classification_name (c : StrategyClassification) : string :=
  match c with
  | equity_long => "equity_long" | equity_short => "equity_short" | standard_long_call => "standard_long_call"
  | standard_long_put => "standard_long_put" | zero_dte_long_call => "zero_dte_long_call"
  | zero_dte_long_put => "zero_dte_long_put" | leaps_long_call => "leaps_long_call"
  | leaps_long_put => "leaps_long_put" | hedge => "hedge"
  end.

Definition text_array (l : list string) : jvalue := JArr (map JStr l).
Definition json_nat (n : nat) : jvalue := JNum (nat_text (Z.of_nat n)).

Definition decision_fields (d : PortfolioArbitrationDecision) : list (string * jvalue) :=
  [("arbitrationId", JStr (d_arbitrationId d)); ("cycleId", JStr (d_cycleId d)); ("proposalId", JStr (d_proposalId d));
   ("lane", JStr (lane_name (d_lane d))); ("rank", json_nat (d_rank d)); ("action", JStr (action_name (d_action d)));
   ("originalQuantity", json_number_opt (d_originalQuantity d));
   ("approvedQuantity", json_number_opt (d_approvedQuantity d));
   ("originalNotional", json_number_opt (d_originalNotional d));
   ("approvedNotional", json_number_opt (d_approvedNotional d));
   ("originalResourceRequirement", json_number_opt (d_originalResourceRequirement d));
   ("approvedResourceRequirement", json_number_opt (d_approvedResourceRequirement d));
   ("score", json_number_opt (d_score d)); ("confidence", json_number_opt (d_confidence d));
   ("strategyPriority", json_number (d_strategyPriority d));
   ("deterministicTiebreak", JStr (d_deterministicTiebreak d)); ("conflictTypes", text_array (d_conflictTypes d));
   ("reasonCodes", text_array (d_reasonCodes d)); ("relatedProposalIds", text_array (d_relatedProposalIds d));
   ("relatedPositionIds", text_array (d_relatedPositionIds d));
   ("relatedOpenOrderIds", text_array (d_relatedOpenOrderIds d));
   ("sharedContextVersion", JStr (d_sharedContextVersion d));
   ("accountSnapshotAsOf", jstr_opt (d_accountSnapshotAsOf d));
   ("positionSnapshotAsOf", jstr_opt (d_positionSnapshotAsOf d));
   ("openOrderSnapshotAsOf", jstr_opt (d_openOrderSnapshotAsOf d))]%string.

Definition leaps_document (s : LeapsEntrySizingResult) : jvalue :=
  JObj [("configuredPerEntryAllocationUsd", json_number (ls_configuredPerEntryAllocationUsd s));
        ("executablePremium", json_number (ls_executablePremium s));
        ("contractMultiplier", json_number (ls_contractMultiplier s));
        ("contractCostUsd", json_number_opt (ls_contractCostUsd s));
        ("positionCostUsd", json_number (ls_positionCostUsd s));
        ("independentlyValidatedAvailableCapitalUsd", json_number (ls_availableCapitalUsd s));
        ("quantity", json_number (ls_quantity s));
        ("reason", jstr_opt (sizing_failure_code <$> ls_reason s))]%string.

Definition profile_document (thresholds : PaperExplorationThresholds) : jvalue :=
  JObj [("scope", JStr "paper_only"); ("profile", JStr "exploration_v3");
        ("thresholds", JObj (map (λ e, (fst e, JObj [("previous", json_number (fst (snd e)));
                                                    ("current", json_number (snd (snd e)))]))
                               (paperExplorationProfile thresholds)))]%string.

(** An entry that was granted an amount. *)
Record ApprovedEntry := {
  ap_row : EntryRow;
  ap_amount : number;
  ap_evidence : EntryEvidence;
  ap_leapsSizing : option LeapsEntrySizingResult;
  ap_decision : PortfolioArbitrationDecision
}.

Section documents.
Context (env : string → option string) (json_parse : string → option jvalue) (new_york : Z → NewYorkParts).
Context (le : string → string → bool) (sha256 : string → string) (hmac : string → string → string).
Context (signingKey : string) (fence : SchedulerFence) (now : Z) (exploration : PaperExplorationThresholds).

Local Abbreviation hash := (CanonicalJson.canonicalJsonHash le sha256).

(** ** Decisions to store *)

Definition serializedDecision (account snapshot context : string) (d : PortfolioArbitrationDecision) : DecisionRow :=
  {| dr_id := ("portfolio_arbitration_" ++ hash (JObj [("arbitrationId", JStr (d_arbitrationId d));
                                                       ("proposalId", JStr (d_proposalId d))]%string))%string;
     dr_account_id := account; dr_account_snapshot_id := snapshot; dr_context_id := context; dr_decision := d;
     dr_fingerprint := hash (JObj (decision_fields d ++
                         [("contextId", JStr context); ("accountSnapshotId", JStr snapshot)]%string));
     dr_created_at := now |}.

Definition decision_key (d : PortfolioArbitrationDecision) : string :=
  (d_arbitrationId d ++ String Ascii.zero (d_proposalId d))%string.

Definition arbitration_id (cycle : string) (r : EntryRow) (version : string) : string :=
  ("portfolio_arbitration_" ++ hash (JObj
     [("cycleId", JStr cycle); ("accountId", JStr (ny_account_id r));
      ("accountSnapshotId", JStr (ny_account_snapshot_id r)); ("contextVersion", JStr version)]%string))%string.

(** ** One entry *)

Definition entry_operation (r : EntryRow) : TradeOperation :=
  if row_option r then TradeLifecycle.buy_to_open
  else if short_equity r then TradeLifecycle.sell_to_open else TradeLifecycle.buy_to_open.

Definition entry_side (r : EntryRow) : ExecutionSide :=
  if row_option r then buy_to_open else if row_short r then sell else buy.

Definition entry_classification (r : EntryRow) : StrategyClassification :=
  if row_option r then
    let is_call := bool_decide (mr_contract_type (ny_market r) = Some "call"%string) in
    if (strategy_family r =? "leaps")%string then (if is_call then leaps_long_call else leaps_long_put)
    else if (strategy_family r =? "zero_dte_spy")%string then (if is_call then zero_dte_long_call else zero_dte_long_put)
    else classifyOptionStrategy (isoDateOnly (mr_contract_expiration_date (ny_market r)))
           (if is_call then call else put) (newYorkTradingDate new_york now)
  else if short_equity r then equity_short else equity_long.

Definition entry_quantity (a : ApprovedEntry) : option number :=
  let r := ap_row a in
  let price := en_price (ap_evidence a) in
  if row_option r then
    Some (match d_approvedQuantity (ap_decision a), ap_leapsSizing a with
          | Some q, _ => q
          | None, Some s => ls_quantity s
          | None, None => math_floor (ap_amount a / (price * contract_multiplier r))%float
          end)
  else if short_equity r then Some (default (math_floor (ap_amount a / price)%float) (d_approvedQuantity (ap_decision a)))
  else None.

Definition entry_premium (a : ApprovedEntry) : option number :=
  if row_option (ap_row a) then
    Some (match ap_leapsSizing a with
          | Some s => ls_positionCostUsd s
          | None => (en_price (ap_evidence a) * contract_multiplier (ap_row a) * or_number (entry_quantity a) 0)%float
          end)
  else None.

Definition entry_risk (a : ApprovedEntry) : number :=
  if short_equity (ap_row a) then (en_price (ap_evidence a) * or_number (entry_quantity a) 0)%float
  else or_number (entry_premium a) (ap_amount a).

Definition entry_notional (a : ApprovedEntry) : option number :=
  if row_option (ap_row a) || short_equity (ap_row a) then None else Some (ap_amount a).
Definition entry_limit_price (a : ApprovedEntry) : option number :=
  if row_option (ap_row a) then Some (en_price (ap_evidence a)) else None.

Definition entry_client_order_id (r : EntryRow) : string :=
  ("pg-" ++ str_take 32 (hash (JObj
     [("account", JStr (ny_account_id r)); ("candidate", JStr (ny_candidate_id r));
      ("snapshot", JStr (ny_account_snapshot_id r))]%string)))%string.

Definition entry_market_evidence (a : ApprovedEntry) : jvalue :=
  let r := ap_row a in
  let base := [("symbol", JStr (order_symbol_of r)); ("underlyingSymbol", JStr (mr_symbol (ny_market r)));
               ("referencePrice", json_number (en_price (ap_evidence a)));
               ("timestamp", JStr (iso_text (en_marketTimestamp (ap_evidence a))));
               ("requestId", jstr_opt (mr_market_request_id (ny_market r)));
               ("source", JStr (if row_option r then "postgres.option_snapshots" else "postgres.stock_snapshots"))]%string in
  let observed := spread base (jsonRecord json_parse (mr_market_evidence (ny_market r))) in
  JArr [JObj (if row_option r then
    spread (spread observed (optionDecisionInputs json_parse (ny_signal_inputs r)))
      (match en_underlyingSip (ap_evidence a) with
       | Some s => [("underlyingPrice", json_number (sip_referencePrice s)); ("underlyingSip", sip_document s)]%string
       | None => [("underlyingSip"%string, JNull)]
       end
       ++ [("maximumSpreadPct"%string, json_number (maximumOptionSpreadPct exploration))]
       ++ match ap_leapsSizing a with Some s => [("leapsSizing"%string, leaps_document s)] | None => [] end)
    else observed)].

Definition entry_order_intent (a : ApprovedEntry) : jvalue :=
  let r := ap_row a in
  JObj [("symbol", JStr (order_symbol_of r));
        ("underlyingSymbol", if row_option r then JStr (mr_symbol (ny_market r)) else JNull);
        ("assetClass", JStr (asset_class_name (mr_asset_class (ny_market r)))); ("side", JStr (side_name (entry_side r)));
        ("orderType", JStr (if row_option r then "limit" else "market")); ("timeInForce", JStr "day");
        ("operation", JStr (operation_name (entry_operation r)));
        ("strategyClassification", JStr (classification_name (entry_classification r)));
        ("quantity", json_number_opt (entry_quantity a)); ("notional", json_number_opt (entry_notional a));
        ("limitPrice", json_number_opt (entry_limit_price a)); ("clientOrderId", JStr (entry_client_order_id r));
        ("strategyKey", JStr (ny_strategy_key r))]%string.

Definition entry_configuration (a : ApprovedEntry) : jvalue :=
  let r := ap_row a in
  JObj ([("environment", JStr "paper"); ("liveTradingEnabled", JBool false);
         ("explorationProfile", profile_document exploration); ("allocationAmount", jstr_opt (ny_allocation_amount r));
         ("allocationRatio", jstr_opt (ny_allocation_ratio r));
         ("maxPositionNotional", jstr_opt (ny_max_position_notional r));
         ("maxSymbolNotional", jstr_opt (ny_max_symbol_notional r));
         ("maxDeploymentAmount", jstr_opt (ny_max_deployment_amount r));
         ("cashReserveAmount", jstr_opt (ny_cash_reserve_amount r));
         ("cashReserveRatio", jstr_opt (ny_cash_reserve_ratio r))]%string
        ++ match ap_leapsSizing a with
           | Some s => [("leapsMaxEntryCapitalUsd"%string, json_number (ls_configuredPerEntryAllocationUsd s))]
           | None => [] end).

Definition arbitration_document (d : PortfolioArbitrationDecision) : jvalue :=
  JObj [("arbitrationId", JStr (d_arbitrationId d)); ("action", JStr (action_name (d_action d)));
        ("rank", json_nat (d_rank d)); ("reasonCodes", text_array (d_reasonCodes d));
        ("sharedContextVersion", JStr (d_sharedContextVersion d))]%string.

Definition entry_payload (a : ApprovedEntry) : jvalue :=
  let r := ap_row a in
  JObj [("candidateId", JStr (ny_candidate_id r)); ("accountSnapshotId", JStr (ny_account_snapshot_id r));
        ("accountFingerprint", jstr_opt (ny_structural_fingerprint r)); ("orderIntent", entry_order_intent a);
        ("marketEvidence", entry_market_evidence a); ("portfolioArbitration", arbitration_document (ap_decision a));
        ("paperOnly", JBool true)]%string.

Definition entry_portfolio_evidence (a : ApprovedEntry) : jvalue :=
  let r := ap_row a in
  JObj [("snapshotId", JStr (ny_account_snapshot_id r)); ("portfolioFingerprint", JStr (ny_snapshot_fingerprint r));
        ("structuralPortfolioFingerprint", jstr_opt (ny_structural_fingerprint r));
        ("portfolioArbitration", arbitration_document (ap_decision a))]%string.

Definition entry_review (a : ApprovedEntry) : ReviewRow :=
  let r := ap_row a in
  let fingerprint := hash (entry_payload a) in
  {| review_input :=
       {| rv_id := ("review_" ++ fingerprint)%string; rv_reviewType := ReviewEntry; rv_status := ReviewValid;
          rv_clientOrderId := Some (entry_client_order_id r);
          rv_accountFingerprint := default EmptyString (ny_structural_fingerprint r);
          rv_sourceRecommendationId := None; rv_sourceSnapshotId := Some (ny_account_snapshot_id r);
          rv_configurationFingerprint := hash (entry_configuration a); rv_payloadFingerprint := fingerprint;
          rv_signatureAlgorithm := "hmac-sha256"; rv_signature := hmac signingKey fingerprint;
          rv_orderIntent := json_stringify (entry_order_intent a);
          rv_marketEvidence := json_stringify (entry_market_evidence a);
          rv_portfolioEvidence := json_stringify (entry_portfolio_evidence a); rv_warnings := empty_array;
          rv_blockers := empty_array; rv_requestId := None; rv_correlationId := None;
          rv_expiresAt := now + FIFTEEN_MINUTES; rv_createdAt := now |};
     review_account_id := ny_account_id r; review_candidate_id := Some (ny_candidate_id r);
     review_status := ReviewValid; review_consumed_at := None; review_version := 1; review_updated_at := now |}.

Definition entry_intent_fingerprint (a : ApprovedEntry) : string :=
  hash (JObj [("reviewId", JStr (rv_id (review_input (entry_review a)))); ("orderIntent", entry_order_intent a)]%string).

Definition numeric_opt (scale : nat) (x : option number) : res (option Q) :=
  match x with Some x => numeric_parameter scale x | None => Ret None end.

Definition entry_intent (a : ApprovedEntry) : res IntentRow :=
  let r := ap_row a in
  let review := review_input (entry_review a) in
  quantity ← numeric_opt 12 (entry_quantity a);
  amount ← numeric_opt 8 (entry_notional a);
  limitPrice ← numeric_opt 8 (entry_limit_price a);
  premium ← numeric_opt 8 (entry_premium a);
  risk ← numeric_parameter 8 (entry_risk a);
  mret {| intent_id := ("intent_" ++ entry_intent_fingerprint a)%string; intent_account_id := ny_account_id r;
          intent_candidate_id := Some (ny_candidate_id r); intent_reservation_id := None;
          intent_review_id := Some (rv_id review); intent_confirmation_id := None;
          intent_client_order_id := entry_client_order_id r;
          intent_idempotency_key := ("review:" ++ rv_payloadFingerprint review)%string;
          intent_strategy_key := ny_strategy_key r; intent_symbol := order_symbol_of r;
          intent_underlying_symbol := if row_option r then Some (mr_symbol (ny_market r)) else None;
          intent_asset_class := mr_asset_class (ny_market r); intent_side := entry_side r;
          intent_order_type := if row_option r then limit else market; intent_time_in_force := day;
          intent_quantity := quantity; intent_notional := amount; intent_limit_price := limitPrice;
          intent_stop_price := None; intent_estimated_premium := premium; intent_max_risk := risk;
          intent_status := IntentCreated; intent_fingerprint := entry_intent_fingerprint a;
          intent_lifecycle_fingerprint := hash (JObj [("status", JStr "created"); ("at", JStr (iso_text now))]%string);
          intent_request_payload := json_stringify (entry_order_intent a); intent_request_id := None;
          intent_correlation_id := None; intent_ready_at := None; intent_submitted_at := None;
          intent_terminal_at := None; intent_version := 1; intent_created_at := now; intent_updated_at := now |}.

Definition entry_lifecycle (a : ApprovedEntry) : LifecycleColumns :=
  let r := ap_row a in
  {| lc_intent_id := ("intent_" ++ entry_intent_fingerprint a)%string;
     lc_operation := Some (operation_name (entry_operation r));
     lc_strategy_classification := Some (classification_name (entry_classification r));
     lc_parent_position_id := None; lc_opening_intent_id := None;
     lc_contract_id := if row_option r then Some (default "null"%string (mr_contract_id (ny_market r))) else None;
     lc_lifecycle_state := "review_created"; lc_autonomous_cycle_id := Some (cycle_id env (fence_run_id fence));
     lc_workstream_execution_id := Some (fence_run_id fence); lc_reservation_release_reason := None |}.
End documents.
