(* ===== verification/ReviewWorkflow.v ===== *)
(** The review workflow as a program: [runPostgresReviewWorkflow] of
    src/services/postgresReviewWorkflowService.ts with
    [persistPortfolioArbitrationDecisions] of
    src/services/postgresPortfolioArbitrationService.ts, over the documents and
    statements of EntryReview.v and the exits of ExitReview.v.

    A stage of a candidate is stored with [update_candidate] of Submission.v; the
    sizing of a LEAPS candidate also goes into its signal inputs, which are not a
    column of the model. *)

From Stdlib Require Import Floats.
From S2P Require Import Prelude.
From S2P Require Import JsString.
From S2P Require Import JsNumber.
From S2P Require Import JsText.
From S2P Require Import JsJson.
From S2P Require Import SchedulerLease.
From S2P Require Import ExecutionTables.
From S2P Require Import Effects.
From S2P Require Import Submission.
From S2P Require Import ReviewConfiguration.
From S2P Require Import ReviewEvidence.
From S2P Require Import ExitEvaluation.
From S2P Require Import ExitReview.
From S2P Require Import PortfolioArbitrator.
From S2P Require Import EntryEvaluation.
From S2P Require Import EntryReview.
Open Scope Z_scope.

(** ** Requests *)

(** Underlying, instant and days to expiration of an option discovery. *)
Definition DiscoveryScope : Type := string * Z * Z.

Inductive entry_effect : Type → Type :=
| EntrySource (command : string) (maxCandidates : number) (scope : option DiscoveryScope) : entry_effect (res (list EntryRow))
| PersistStage (fence : SchedulerFence) (candidate status reason : string) (now : Z) (leapsSizing : option jvalue)
    : entry_effect (res nat)
| PersistDecisions (fence : SchedulerFence) (rows : list DecisionRow) : entry_effect (res DecisionCounts)
| InsertReview (fence : SchedulerFence) (r : ReviewRow) : entry_effect (res nat)
| InsertIntent (fence : SchedulerFence) (i : IntentRow) (l : LifecycleColumns) : entry_effect (res nat).

Inductive review_effect (X : Type) : Type :=
| EntryRequest (e : entry_effect X)
| ExitRequest (e : exit_effect X).
Arguments EntryRequest {X} e.
Arguments ExitRequest {X} e.

Fixpoint map_effects {E F : Type → Type} {A} (h : ∀ X, E X → F X) (p : prog E A) : prog F A :=
  match p with
  | Done a => Done a
  | Ask e k => Ask (h _ e) (λ x, map_effects h (k x))
  end.

(** ** Entries *)

Definition count_action (a : PortfolioArbitrationAction) (ds : list PortfolioArbitrationDecision) : nat :=
  count_where (λ d, bool_decide (d_action d = a)) ds.

Definition LEAPS_COST_REASON : string := "LEAPS_CONTRACT_COST_EXCEEDS_ALLOCATION".
Definition CAPACITY_REASON : string := "POSTGRES_REVIEW_CAPACITY_UNAVAILABLE".

(** The code of a result without an eligible row. *)
Definition capacity_code (capacity : list (EntryRow * string * option LeapsEntrySizingResult)) : option string :=
  match capacity with
  | [] => None
  | _ => Some (if existsb (λ x, (x.1.2 =? LEAPS_COST_REASON)%string) capacity then LEAPS_COST_REASON else CAPACITY_REASON)
  end.

Section entries.
Context (env : string → option string) (json_parse : string → option jvalue) (new_york : Z → NewYorkParts).
Context (quoteMaxAgeMs : number).
Context (le : string → string → bool) (sha256 : string → string) (hmac : string → string → string).
Context (signingKey : string) (fence : SchedulerFence) (now : Z) (maxMarketAgeSeconds : number).
Context (exploration : PaperExplorationThresholds).

Definition persistCandidateStage (candidate status reason : string) (leapsSizing : option LeapsEntrySizingResult)
    : async entry_effect unit :=
  let! n := ask (PersistStage fence candidate status reason now (leaps_document <$> leapsSizing)) in
  reject_if (negb (n =? 1)%nat) "POSTGRES_CANDIDATE_STAGE_PERSISTENCE_FAILED".

Fixpoint persist_blocked (rows : list (EntryRow * string)) : async entry_effect unit :=
  match rows with
  | [] => async_ret tt
  | (r, reason) :: rows' =>
      let! _ := persistCandidateStage (ny_candidate_id r) "blocked" reason None in persist_blocked rows'
  end.

Fixpoint persist_capacity (rows : list (EntryRow * string * option LeapsEntrySizingResult)) : async entry_effect unit :=
  match rows with
  | [] => async_ret tt
  | (r, reason, s) :: rows' =>
      let! _ := persistCandidateStage (ny_candidate_id r) "blocked" reason s in persist_capacity rows'
  end.

(** [persistPortfolioArbitrationDecisions] *)
Definition persistPortfolioArbitrationDecisions (account snapshot context : string)
    (decisions : list PortfolioArbitrationDecision) : async entry_effect unit :=
  match decisions with
  | [] => async_ret tt
  | _ =>
      let! _ := reject_if (negb (bool_decide (NoDup (map decision_key decisions))))
                  "POSTGRES_PORTFOLIO_ARBITRATION_DUPLICATE_INPUT" in
      let! c := ask (PersistDecisions fence (map (serializedDecision le sha256 now account snapshot context) decisions)) in
      let! _ := reject_if (negb (dc_fence_held c)) "POSTGRES_PORTFOLIO_ARBITRATION_FENCE_REJECTED" in
      reject_if (negb (dc_matched c =? List.length decisions)%nat || (List.length decisions <? dc_inserted c)%nat)
        "POSTGRES_PORTFOLIO_ARBITRATION_IDEMPOTENCY_CONFLICT"
  end.

Definition decision_of (decisions : list PortfolioArbitrationDecision) (e : EligibleRow)
    : option PortfolioArbitrationDecision :=
  select_one (λ d, (d_proposalId d =? ny_candidate_id (el_row e))%string) decisions.

(** The sizing of LEAPS at the amount that was granted. *)
Definition resized_leaps (s : LeapsEntrySizingResult) (d : PortfolioArbitrationDecision) (amount : number)
    : LeapsEntrySizingResult :=
  {| ls_configuredPerEntryAllocationUsd := ls_configuredPerEntryAllocationUsd s;
     ls_executablePremium := ls_executablePremium s; ls_contractMultiplier := ls_contractMultiplier s;
     ls_contractCostUsd := ls_contractCostUsd s; ls_positionCostUsd := amount;
     ls_availableCapitalUsd := ls_availableCapitalUsd s; ls_quantity := default (ls_quantity s) (d_approvedQuantity d);
     ls_reason := ls_reason s |}.

Definition granted (e : EligibleRow) (d : PortfolioArbitrationDecision) : res ApprovedEntry :=
  match d_approvedResourceRequirement d with
  | Some amount =>
      if (amount <=? 0)%float then Throw "POSTGRES_PORTFOLIO_ARBITRATION_APPROVED_SIZE_MISSING"
      else Ret {| ap_row := el_row e; ap_amount := amount; ap_evidence := el_evidence e;
                  ap_leapsSizing := (λ s, resized_leaps s d amount) <$> el_leapsSizing e; ap_decision := d |}
  | None => Throw "POSTGRES_PORTFOLIO_ARBITRATION_APPROVED_SIZE_MISSING"
  end.

Definition SKIPPED_REASON : string := "ARBITRATION_SKIPPED_NO_VALID_RESIZE".

(** The loop over the eligible rows: how many are skipped, and the others. *)
Fixpoint apply_decisions (decisions : list PortfolioArbitrationDecision) (es : list EligibleRow)
    : async entry_effect (nat * list ApprovedEntry) :=
  match es with
  | [] => async_ret (0%nat, [])
  | e :: es' =>
      match decision_of decisions e with
      | None => reject "POSTGRES_PORTFOLIO_ARBITRATION_DECISION_MISSING"
      | Some d =>
          if bool_decide (d_action d = skip) then
            let! _ := persistCandidateStage (ny_candidate_id (el_row e)) "skipped"
                        (default SKIPPED_REASON (head (d_reasonCodes d))) None in
            let! (n, approved) := apply_decisions decisions es' in
            async_ret (S n, approved)
          else
            let! a := sync (granted e d) in
            let! (n, approved) := apply_decisions decisions es' in
            async_ret (n, a :: approved)
      end
  end.

(** The review and the intent of one entry: whether the review is new. *)
Definition create_entry (a : ApprovedEntry) : async entry_effect bool :=
  let! reviewed := ask (InsertReview fence (entry_review json_parse new_york le sha256 hmac signingKey now exploration a)) in
  let! _ := reject_if (1 <? reviewed)%nat "POSTGRES_REVIEW_PERSISTENCE_FAILED" in
  let! i := sync (entry_intent json_parse new_york le sha256 hmac signingKey now exploration a) in
  let! intended := ask (InsertIntent fence i
    (entry_lifecycle env json_parse new_york le sha256 hmac signingKey fence now exploration a)) in
  let! _ := reject_if (1 <? intended)%nat "POSTGRES_ORDER_INTENT_PERSISTENCE_FAILED" in
  let! _ := persistCandidateStage (ny_candidate_id (ap_row a)) "sized" "PAPER_ORDER_INTENT_CREATED" (ap_leapsSizing a) in
  async_ret (reviewed =? 1)%nat.

Fixpoint create_entries (l : list ApprovedEntry) : async entry_effect nat :=
  match l with
  | [] => async_ret 0%nat
  | a :: l' =>
      let! new := create_entry a in
      let! n := create_entries l' in
      async_ret (if new : bool then S n else n)
  end.

Definition entry_result (code : option string) (completed : bool) (created skipped capacityBlocked : nat)
    (arbitration : option (nat * nat * nat * nat)) : ReviewResult :=
  {| rr_completed := completed; rr_code := code; rr_reviewsCreated := created; rr_skipped := skipped;
     rr_capacityBlocked := capacityBlocked; rr_arbitration := arbitration |}.

Definition arbitration_input (rows : list EntryRow) (eligible : list EligibleRow) (first : EntryRow)
    (ctx : PortfolioResourceContext) : ArbitrationInput :=
  let cycle := cycle_id env (or_text (ny_research_run_id first) (fence_run_id fence)) in
  {| in_arbitrationId := arbitration_id le sha256 cycle first (contextVersion ctx); in_cycleId := cycle;
     in_proposals := map (entry_proposal cycle) eligible; in_context := ctx |}.

(** The rows that are eligible, from the shared context to the intents. *)
Definition arbitrate_entries (rows : list EntryRow) (shared : EntryRow) (eligible : list EligibleRow) (first : EntryRow)
    (capacityBlocked : nat) : async entry_effect ReviewResult :=
  let! ctx := sync (portfolioResourceContext json_parse le sha256 rows shared) in
  let! arbitration := sync (arbitratePortfolioResources (arbitration_input rows eligible first ctx)) in
  let decisions := r_decisions arbitration in
  let! _ := persistPortfolioArbitrationDecisions (ny_account_id first) (ny_account_snapshot_id first) (contextId ctx)
              decisions in
  let! (skipped, approved) := apply_decisions decisions eligible in
  let counts := Some (List.length decisions, count_action approve decisions, count_action resize decisions,
                      count_action skip decisions) in
  let! created := create_entries approved in
  async_ret (entry_result None true created skipped capacityBlocked counts).

(** The review of the rows that the query returned. *)
Definition review_entries (rows : list EntryRow) : async entry_effect ReviewResult :=
  let! verdicts := sync (evaluate_entries env json_parse quoteMaxAgeMs now maxMarketAgeSeconds exploration rows) in
  let eligible := List.concat (map eligible_of verdicts) in
  let blocked := List.concat (map blocked_of verdicts) in
  let capacity := List.concat (map capacity_of verdicts) in
  let! _ := persist_blocked blocked in
  let! _ := persist_capacity capacity in
  let capacityBlocked := List.length capacity in
  match rows, eligible with
  | shared :: _, e :: _ => arbitrate_entries rows shared eligible (el_row e) capacityBlocked
  | _, _ =>
      async_ret (match blocked with
                 | _ :: _ => entry_result (Some "NO_ELIGIBLE_POSTGRES_CANDIDATES"%string) false 0 0 capacityBlocked None
                 | [] => entry_result (capacity_code capacity) true 0 0 capacityBlocked None
                 end)
  end.
End entries.

(** ** The command *)

Definition ENTRY_REVIEW_COMMANDS : list string :=
  ["paper:review"; "paper:portfolio:review"; "paper:options:discover"; "paper:ops:review"; "hedge:review"]%string.
Definition EXIT_REVIEW_COMMANDS : list string := ["paper:exit:review"; "hedge:exit:review"; "zero-dte:exit:review"]%string.

(** [/^[A-Z][A-Z.]{0,14}$/] *)
Definition underlying_text (s : string) : bool :=
  let letter c := (N_of_ascii "A" <=? N_of_ascii c)%N && (N_of_ascii c <=? N_of_ascii "Z")%N in
  match s with
  | String c r => letter c && string_forall (λ c, letter c || (c =? ".")%char) r && (String.length r <=? 14)%nat
  | EmptyString => false
  end.

Record ReviewInputs := {
  ri_command : string;
  ri_fence : SchedulerFence;
  ri_signingKey : option string;
  ri_now : Z;
  ri_maxMarketAgeSeconds : option number;
  ri_underlying : option string;
  ri_dte : option number;
  ri_maxCandidates : option number;
  ri_explorationThresholds : option PaperExplorationThresholds
}.

(** What an option discovery is restricted to. *)
Definition discovery_scope (input : ReviewInputs) : res (option DiscoveryScope) :=
  if (ri_command input =? "paper:options:discover")%string then
    let underlying := upper_text (ri_underlying input) in
    if negb (underlying_text underlying) then Throw "POSTGRES_OPTION_DISCOVERY_UNDERLYING_REQUIRED"
    else match ri_dte input ≫= num_to_Z with
         | Some dte => if (0 <=? dte) && (dte <=? 730) then Ret (Some (underlying, ri_now input, dte))
                       else Throw "POSTGRES_OPTION_DISCOVERY_DTE_INVALID"
         | None => Throw "POSTGRES_OPTION_DISCOVERY_DTE_INVALID"
         end
  else Ret None.

Section command.
Context (env : string → option string) (json_parse : string → option jvalue) (new_york : Z → NewYorkParts).
Context (quoteMaxAgeMs : number).
Context (le : string → string → bool) (sha256 : string → string) (hmac : string → string → string).

Definition max_candidates (exploration : PaperExplorationThresholds) (input : ReviewInputs) : number :=
  let requested := match ri_maxCandidates input with
                   | Some n => if num_is_safe_integer n then n else maxCandidates exploration
                   | None => maxCandidates exploration
                   end in
  math_max 1 (math_min (maxCandidates exploration) requested).

Definition review_signing_key (input : ReviewInputs) : option string :=
  match ri_signingKey input with Some k => Some k | None => trim <$> env "PAPER_REVIEW_SIGNING_KEY"%string end.

Definition runPostgresReviewWorkflow (input : ReviewInputs) : async review_effect ReviewResult :=
  let command := ri_command input in
  let is_exit := str_mem command EXIT_REVIEW_COMMANDS in
  if negb (str_mem command ENTRY_REVIEW_COMMANDS) && negb is_exit then async_ret (no_op "NO_POSTGRES_REVIEW_SCOPE")
  else
  match review_signing_key input with
  | Some signingKey =>
      if (String.length signingKey <? 16)%nat then reject "PAPER_REVIEW_SIGNING_KEY_REQUIRED"
      else
      let exploration := default (paperExplorationThresholds env) (ri_explorationThresholds input) in
      let maxAge := default FRESHNESS_SECONDS (ri_maxMarketAgeSeconds input) in
      if is_exit then
        map_effects (@ExitRequest) (runExitReview env json_parse new_york quoteMaxAgeMs le sha256 hmac command signingKey
                                      (ri_fence input) (ri_now input) maxAge)
      else map_effects (@EntryRequest)
        (let! scope := sync (discovery_scope input) in
         let! rows := ask (EntrySource command (max_candidates exploration input) scope) in
         match rows with
         | [] => async_ret (no_op "NO_ELIGIBLE_POSTGRES_CANDIDATES")
         | _ => review_entries env json_parse new_york quoteMaxAgeMs le sha256 hmac signingKey (ri_fence input)
                  (ri_now input) maxAge exploration rows
         end)
  | None => reject "PAPER_REVIEW_SIGNING_KEY_REQUIRED"
  end.
End command.

(** ** Against the database *)

Definition answer_with {A} (r : res (A * SubmissionDb)) (d : ReviewDb) : res A * ReviewDb :=
  match r with
  | Ret (a, d') => (Ret a, {| v_sub := d'; v_decisions := v_decisions d |})
  | Throw c => (Throw c, d)
  end.

(** [source] is what the query of the candidates selects. *)
Definition entry_answer (source : ReviewDb → list EntryRow) (X : Type) (e : entry_effect X) (d : ReviewDb)
    : X * ReviewDb :=
  match e in entry_effect X return X * ReviewDb with
  | EntrySource _ _ _ => (Ret (source d), d)
  | PersistStage fence candidate status reason now _ =>
      answer_with (update_candidate fence candidate status reason now (v_sub d)) d
  | PersistDecisions fence rows =>
      match store_decisions fence rows d with Ret (c, d') => (Ret c, d') | Throw c => (Throw c, d) end
  | InsertReview fence r => answer_with (insert_entry_review fence r (v_sub d)) d
  | InsertIntent fence i l => answer_with (insert_entry_intent fence i l (v_sub d)) d
  end.
