(* ===== verification/EntryReviewRuns.v ===== *)
(** What reviewing entries does: runs of [review_entries] of ReviewWorkflow.v.

    A small account with five candidates, on which the properties of the entry
    review are exercised: one is entered, one has an open position, one is for the
    same symbol as the first, one has an old quote, and one costs too much. *)
From Stdlib Require Import Floats.
From S2P Require Import Prelude.
From S2P Require Import JsString.
From S2P Require Import JsNumber.
From S2P Require Import JsText.
From S2P Require Import JsJson.
From S2P Require Import SchedulerLease.
From S2P Require Import ExecutionTables.
From S2P Require Import Effects.
From S2P Require Import Submission.
From S2P Require Import SubmissionFacts.
From S2P Require Import ReviewConfiguration.
From S2P Require Import ReviewEvidence.
From S2P Require Import ExitReview.
From S2P Require Import PortfolioArbitrator.
From S2P Require Import EntryEvaluation.
From S2P Require Import EntryReview.
From S2P Require Import ReviewWorkflow.

Open Scope Z_scope.

(** ** Lists *)

Lemma count_where_cons {R} (p : R → bool) x l :
  count_where p (x :: l) = ((if p x then 1 else 0) + count_where p l)%nat.
Proof. unfold count_where. cbn. by destruct (p x). Qed.

Lemma count_where_pos {R} (p : R → bool) l : (0 < count_where p l)%nat → ∃ x, In x l ∧ p x = true.
Proof.
  unfold count_where. destruct (List.filter p l) as [|x m] eqn:E; cbn; [lia|]. intros _. exists x.
  apply filter_In. rewrite E. by left.
Qed.

Lemma NoDup_map_on {A B C} (f : A → B) (g : A → C) l :
  NoDup (map g l) → (∀ x y, In x l → In y l → f x = f y → g x = g y) → NoDup (map f l).
Proof.
  induction l as [|x l IH]; intros Hg Hfg; [constructor|]. cbn [map] in *. apply NoDup_cons in Hg as [Hx Hg].
  constructor; [|apply IH; [done|]; intros y z Hy Hz; apply Hfg; by right].
  intros (y & Hy & Hin)%list_elem_of_In%in_map_iff. apply Hx, list_elem_of_In, in_map_iff. exists y. split; [|done].
  by apply Hfg; [right|left|].
Qed.

Lemma sublist_In {A} (l m : list A) x : sublist l m → In x l → In x m.
Proof. intros H Hx. apply list_elem_of_In. eapply elem_of_sublist; [|done]. by apply list_elem_of_In. Qed.

Lemma Forall2_combine {A B} (P : A → B → Prop) l m x y : Forall2 P l m → In (x, y) (combine l m) → P x y.
Proof. induction 1 as [|a b l m Hab _ IH]; cbn; [done|]. intros [[= -> ->]|?]; auto. Qed.

Lemma combine_right {A B} (P : A → B → Prop) l m y : Forall2 P l m → In y m → ∃ x, In (x, y) (combine l m) ∧ In x l.
Proof.
  induction 1 as [|a b l m _ _ IH]; cbn; [done|]. intros [->|Hy]; [exists a; auto|].
  destruct (IH Hy) as (x & ? & ?). exists x. auto.
Qed.

Lemma Forall2_map_eq {A B C} (f : A → C) (g : B → C) l m : Forall2 (λ x y, g y = f x) l m → map f l = map g m.
Proof. induction 1 as [|x y l m E _ IH]; cbn; [done|]. by rewrite E, IH. Qed.

Lemma Forall2_find_r {A B} (P : A → B → Prop) l m y : Forall2 P l m → In y m → ∃ x, In x l ∧ P x y.
Proof.
  induction 1 as [|a b l m Hab _ IH]; cbn; [done|]. intros [<-|Hy]; [exists a; auto|].
  destruct (IH Hy) as (x & ? & ?). exists x. auto.
Qed.

Lemma Forall2_find_l {A B} (P : A → B → Prop) l m x : Forall2 P l m → In x l → ∃ y, In y m ∧ P x y.
Proof.
  induction 1 as [|a b l m Hab _ IH]; cbn; [done|]. intros [<-|Hx]; [exists b; auto|].
  destruct (IH Hx) as (y & ? & ?). exists y. auto.
Qed.

(** ** The table of decisions *)

Lemma matching_decision_refl r : matching_decision r r = true.
Proof. unfold matching_decision, same_decision. by rewrite !String.eqb_refl. Qed.

Lemma matching_is_same r s : matching_decision r s = true → same_decision r s = true.
Proof. by intros [? _]%andb_prop. Qed.

Lemma existsb_app_l {A} (p : A → bool) l m : existsb p l = true → existsb p (l ++ m) = true.
Proof. intros H. by rewrite existsb_app, H. Qed.

Definition decision_stored (t : list DecisionRow) (r : DecisionRow) : Prop := existsb (matching_decision r) t = true.

(** Every row of an insert whose counts add up is in the table afterwards. *)
Lemma insert_decisions_stored rows t0 u n t' :
  insert_decisions rows (t0 ++ u) = Ret (n, t') →
  (∃ u', t' = t0 ++ u ++ u') ∧
  (n + count_where (λ r, existsb (matching_decision r) t0) rows <= List.length rows)%nat ∧
  ((n + count_where (λ r, existsb (matching_decision r) t0) rows)%nat = List.length rows →
   Forall (decision_stored t') rows).
Proof.
  revert u n. induction rows as [|r rows IH]; intros u n H; cbn [insert_decisions] in H.
  { injection H as <- <-. split; [exists []; by rewrite app_nil_r|]. split; [done|]. constructor. }
  rewrite count_where_cons. cbn [List.length]. destruct (existsb (same_decision r) (t0 ++ u)) eqn:Es.
  - destruct (IH _ _ H) as ([u' ->] & Hle & Hall). split; [by exists u'|].
    destruct (existsb (matching_decision r) t0) eqn:Em; (split; [lia|]); [|lia]. intros Hn.
    constructor; [by apply existsb_app_l|]. apply Hall. lia.
  - destruct (existsb (same_decision_id r) _); [done|]. apply res_bind_Ret in H as ([m t''] & H & [= <- <-]).
    rewrite <- app_assoc in H. destruct (IH _ _ H) as ([u' ->] & Hle & Hall).
    assert (existsb (matching_decision r) t0 = false) as ->.
    { apply not_true_iff_false. intros (s & Hs & Hm)%existsb_exists. apply not_true_iff_false in Es. apply Es.
      apply existsb_exists. exists s. split; [apply in_or_app; by left|by apply matching_is_same]. }
    split; [exists ([r] ++ u'); by rewrite <- !app_assoc|]. split; [lia|]. intros Hn. constructor; [|apply Hall; lia].
    apply existsb_exists. exists r. split; [|apply matching_decision_refl].
    apply in_or_app. right. apply in_or_app. left. apply in_or_app. right. by left.
Qed.

Section runs.
Context (env : string → option string) (json_parse : string → option jvalue) (new_york : Z → NewYorkParts).
Context (quoteMaxAgeMs : number).
Context (le : string → string → bool) (sha256 : string → string) (hmac : string → string → string).
Context (signingKey : string) (fence : SchedulerFence) (now : Z) (maxMarketAgeSeconds : number).
Context (exploration : PaperExplorationThresholds) (source : ReviewDb → list EntryRow).

Local Abbreviation go := (run (entry_answer source)).
Local Abbreviation intents d := (db_intents (s_exec (v_sub d))).
Local Abbreviation reviews d := (db_reviews (s_exec (v_sub d))).
Local Abbreviation stage := (persistCandidateStage fence now).
Local Abbreviation intent_of := (entry_intent json_parse new_york le sha256 hmac signingKey now exploration).
Local Abbreviation review_of := (entry_review json_parse new_york le sha256 hmac signingKey now exploration).
Local Abbreviation create := (create_entry env json_parse new_york le sha256 hmac signingKey fence now exploration).
Local Abbreviation create_all := (create_entries env json_parse new_york le sha256 hmac signingKey fence now exploration).

(** ** Stages of candidates *)

Definition decided_stage (status : string) : bool := str_mem status ["blocked"; "skipped"; "sized"]%string.

(** The candidate has been decided on. *)
Definition staged (id : string) (d : ReviewDb) : Prop :=
  Exists (λ c, cand_id c = id ∧ decided_stage (cand_lifecycle_status c) = true) (s_candidates (v_sub d)).

(** What the stages of candidates do to the rest. *)
Record only_stages (d d' : ReviewDb) : Prop := {
  os_exec : s_exec (v_sub d') = s_exec (v_sub d);
  os_decisions : v_decisions d' = v_decisions d;
  os_staged : ∀ id, staged id d → staged id d'
}.

Lemma only_stages_refl d : only_stages d d.
Proof. done. Qed.

Lemma only_stages_trans d1 d2 d3 : only_stages d1 d2 → only_stages d2 d3 → only_stages d1 d3.
Proof. intros [E1 D1 S1] [E2 D2 S2]. split; [congruence|congruence|auto]. Qed.

Lemma stage_spec id status reason s d u d' :
  decided_stage status = true → go (stage id status reason s) d = (Ret u, d') → only_stages d d' ∧ staged id d'.
Proof.
  intros Hst. unfold persistCandidateStage. intros (n & d1 & H & H2)%run_bind_Ret.
  apply run_reject_if_Ret in H2 as [Hn ->]. apply negb_false_iff, Nat.eqb_eq in Hn as ->.
  rewrite run_ask in H. cbn [entry_answer] in H. unfold update_candidate in H.
  destruct (fenced _ _ _) as [[m x]|] eqn:E; [|done]. cbn [answer_with] in H. injection H as -> <-.
  apply fenced_one in E as [_ [= Hc <-]].
  set (sel := λ c, (cand_id c =? id)%string && (cand_decision c =? "selected")%string) in *.
  assert (Hkeep : ∀ i, staged i d ∨ i = id → staged i
    {| v_sub := set_candidates (update_where sel (set_candidate status reason now) (s_candidates (v_sub d))) (v_sub d);
       v_decisions := v_decisions d |}).
  { intros i Hi. unfold staged. cbn [v_sub set_candidates s_candidates]. apply Exists_exists. destruct Hi as [Hi| ->].
    - apply Exists_exists in Hi as (c & Hc' & Hid & Hs). exists (if sel c then set_candidate status reason now c else c).
      split; [|by destruct (sel c)]. apply list_elem_of_In, update_where_In. apply list_elem_of_In in Hc'. by exists c.
    - destruct (count_where_pos sel (s_candidates (v_sub d))) as (c & Hin & Hsel); [lia|]. exists (set_candidate status reason now c).
      split; [|split; [by apply andb_prop in Hsel as [?%String.eqb_eq _]|done]].
      apply list_elem_of_In, update_where_In. exists c. by rewrite Hsel. }
  split; [|apply Hkeep; by right]. split; [done|done|]. intros i Hi. apply Hkeep. by left.
Qed.

Lemma persist_blocked_spec rows d u d' :
  go (persist_blocked fence now rows) d = (Ret u, d') →
  only_stages d d' ∧ Forall (λ x, staged (ny_candidate_id (fst x)) d') rows.
Proof.
  revert d. induction rows as [|[r reason] rows IH]; intros d H; cbn [persist_blocked] in H.
  { injection H as _ <-. split; [apply only_stages_refl|constructor]. }
  apply run_bind_Ret in H as (u1 & d1 & [O1 S1]%stage_spec & [O2 S2]%IH); [|done].
  split; [by eapply only_stages_trans|]. constructor; [by apply O2|done].
Qed.

Lemma persist_capacity_spec rows d u d' :
  go (persist_capacity fence now rows) d = (Ret u, d') →
  only_stages d d' ∧ Forall (λ x, staged (ny_candidate_id (fst (fst x))) d') rows.
Proof.
  revert d. induction rows as [|[[r reason] s] rows IH]; intros d H; cbn [persist_capacity] in H.
  { injection H as _ <-. split; [apply only_stages_refl|constructor]. }
  apply run_bind_Ret in H as (u1 & d1 & [O1 S1]%stage_spec & [O2 S2]%IH); [|done].
  split; [by eapply only_stages_trans|]. constructor; [by apply O2|done].
Qed.

(** ** Decisions *)

(** The entry that a decision grants to an eligible row. *)
Definition grants (ds : list PortfolioArbitrationDecision) (e : EligibleRow) (a : ApprovedEntry) : Prop :=
  ap_row a = el_row e ∧ decision_of ds e = Some (ap_decision a) ∧ d_action (ap_decision a) ≠ skip.

Lemma apply_decisions_spec ds es d n approved d' :
  go (apply_decisions fence now ds es) d = (Ret (n, approved), d') →
  only_stages d d' ∧ (n + List.length approved)%nat = List.length es ∧
  ∃ es', sublist es' es ∧ Forall2 (grants ds) es' approved ∧
    Forall (λ e, In e es' ∨ staged (ny_candidate_id (el_row e)) d') es.
Proof.
  revert d n approved. induction es as [|e es IH]; intros d n approved H; cbn [apply_decisions] in H.
  { injection H as <- <- <-. split; [apply only_stages_refl|]. split; [done|]. exists []. auto. }
  destruct (decision_of ds e) as [x|] eqn:Ed; [|done]. case_bool_decide as Hx.
  - apply run_bind_Ret in H as (u1 & d1 & [O1 S1]%stage_spec & H); [|done].
    apply run_bind_Ret in H as ([m l] & d2 & H & [= <- <- <-]).
    destruct (IH _ _ _ H) as (O2 & Hlen & es' & Hsub & Hg & Hall).
    split; [by eapply only_stages_trans|]. split; [cbn; lia|]. exists es'. split_and!; [by constructor|done|].
    constructor; [right; by apply O2|done].
  - apply run_bind_Ret in H as (a & d1 & [Ha ->]%run_sync_Ret & H).
    apply run_bind_Ret in H as ([m l] & d2 & H & [= <- <- <-]).
    destruct (IH _ _ _ H) as (O2 & Hlen & es' & Hsub & Hg & Hall).
    split; [done|]. split; [cbn; lia|]. exists (e :: es'). split_and!; [by constructor| |].
    + constructor; [|done]. unfold granted in Ha. destruct (d_approvedResourceRequirement x) as [amount|]; [|done].
      destruct (amount <=? 0)%float; [done|]. by injection Ha as <-.
    + constructor; [left; by left|]. eapply List.Forall_impl; [|exact Hall]. intros y [?|?]; [left; by right|by right].
Qed.

Local Abbreviation serialized := (serializedDecision le sha256 now).

Lemma persist_decisions_spec account snapshot context ds d u d' :
  go (persistPortfolioArbitrationDecisions le sha256 fence now account snapshot context ds) d = (Ret u, d') →
  v_sub d' = v_sub d ∧ NoDup (map decision_key ds) ∧
  Forall (λ x, decision_stored (v_decisions d') (serialized account snapshot context x)) ds.
Proof.
  destruct ds as [|x ds]; [intros [= _ <-]; split_and!; [done|constructor|constructor]|].
  unfold persistPortfolioArbitrationDecisions. intros (u1 & d1 & [Hnd ->]%run_reject_if_Ret & H)%run_bind_Ret.
  apply negb_false_iff, bool_decide_eq_true in Hnd. apply run_bind_Ret in H as (c & d2 & Hc & H).
  apply run_bind_Ret in H as (u2 & d3 & [Hf ->]%run_reject_if_Ret & [Hm ->]%run_reject_if_Ret).
  apply orb_false_iff in Hm as [Hm _]. apply negb_false_iff, Nat.eqb_eq in Hm. apply negb_false_iff in Hf.
  rewrite run_ask in Hc. cbn [entry_answer] in Hc. unfold store_decisions in Hc.
  destruct (held fence (v_sub d)).
  - destruct (insert_decisions _ (v_decisions d)) as [[n t]|] eqn:Ei; [|done]. injection Hc as <- <-.
    cbn [dc_matched] in Hm. rewrite <- (app_nil_r (v_decisions d)) in Ei.
    apply insert_decisions_stored in Ei as (_ & _ & Hall). rewrite length_map in Hall.
    split; [done|]. split; [done|]. specialize (Hall Hm). cbn [v_decisions]. rewrite List.Forall_map in Hall. exact Hall.
  - injection Hc as <- <-. done.
Qed.

(** ** Entries *)

Lemma insert_entry_review_spec r d n d' :
  insert_entry_review fence r d = Ret (n, d') →
  s_candidates d' = s_candidates d ∧ db_intents (s_exec d') = db_intents (s_exec d) ∧
  db_reviews (s_exec d') = db_reviews (s_exec d) ++ (if (n =? 1)%nat then [r] else []).
Proof.
  unfold insert_entry_review, fenced. destruct (held fence d); [|intros [= <- <-]; by rewrite app_nil_r].
  intros H. tx_step H as w d1 E. injection H as <- <-. apply exec_Ret in E as (x & E & ->).
  apply insert_unless_Ret in E. destruct w.
  - by destruct E as [_ (_ & _ & ->)%insert_row_Ret].
  - destruct E as [_ ->]. by rewrite app_nil_r.
Qed.

Lemma insert_entry_intent_spec i l d n d' :
  insert_entry_intent fence i l d = Ret (n, d') →
  s_candidates d' = s_candidates d ∧ db_reviews (s_exec d') = db_reviews (s_exec d) ∧
  (db_intents (s_exec d') = db_intents (s_exec d) ++ [i] ∨ db_intents (s_exec d') = db_intents (s_exec d)).
Proof.
  unfold insert_entry_intent, fenced. destruct (held fence d); [|intros [= <- <-]; auto].
  unfold insert_intent. intros H. tx_step H as w d1 E. tx_step H as u d2 E2. injection H as <- <-.
  apply exec_Ret in E as (x & E & ->). apply insert_unless_Ret in E. destruct w.
  - destruct E as [_ (_ & _ & ->)%insert_row_Ret]. unfold modify in E2. injection E2 as _ <-. auto.
  - destruct E as [_ ->]. injection E2 as _ <-. auto.
Qed.

Lemma answer_with_Ret {A} (r : res (A * SubmissionDb)) d a d' :
  answer_with r d = (Ret a, d') ↔ ∃ x, r = Ret (a, x) ∧ d' = {| v_sub := x; v_decisions := v_decisions d |}.
Proof. unfold answer_with. destruct r as [[b x]|c]; naive_solver. Qed.

(** What the creation of entries does. *)
Record entries_created (l : list ApprovedEntry) (n : nat) (d d' : ReviewDb) : Prop := {
  ec_decisions : v_decisions d' = v_decisions d;
  ec_staged : ∀ id, staged id d → staged id d';
  ec_sized : Forall (λ a, staged (ny_candidate_id (ap_row a)) d') l;
  ec_intents : ∃ l' news, sublist l' l ∧ Forall2 (λ a i, intent_of a = Ret i) l' news ∧ intents d' = intents d ++ news;
  ec_reviews : ∃ l' news, sublist l' l ∧ news = map review_of l' ∧ reviews d' = reviews d ++ news ∧ n = List.length news
}.

Lemma create_spec a d b d' :
  go (create a) d = (Ret b, d') → entries_created [a] (if b then 1 else 0) d d'.
Proof.
  unfold create_entry. intros (n & d1 & H1 & H)%run_bind_Ret. rewrite run_ask in H1. cbn [entry_answer] in H1.
  apply answer_with_Ret in H1 as (x1 & (C1 & I1 & R1)%insert_entry_review_spec & ->).
  apply run_bind_Ret in H as (u1 & d2 & [Hn ->]%run_reject_if_Ret & H).
  apply run_bind_Ret in H as (i & d2 & [Hi ->]%run_sync_Ret & H).
  apply run_bind_Ret in H as (m & d2 & H2 & H). rewrite run_ask in H2. cbn [entry_answer] in H2.
  apply answer_with_Ret in H2 as (x2 & (C2 & R2 & I2)%insert_entry_intent_spec & ->). cbn [v_sub v_decisions] in *.
  apply run_bind_Ret in H as (u2 & d3 & [_ ->]%run_reject_if_Ret & H).
  apply run_bind_Ret in H as (u3 & d3 & [[E3 D3 S3] T3]%stage_spec & [= <- <-]); [|done].
  cbn [v_sub v_decisions] in *.
  assert (Hs : ∀ id, staged id d → staged id d3).
  { intros id Hid. apply S3. unfold staged in *. cbn [v_sub]. by rewrite C2, C1. }
  split; [done|done|by constructor| |].
  - rewrite E3. destruct I2 as [I2|I2]; rewrite I2, I1.
    + exists [a], [i]. split_and!; [reflexivity|by repeat constructor|done].
    + exists [], []. rewrite app_nil_r. split_and!; [by constructor|constructor|done].
  - rewrite E3, R2, R1. destruct (n =? 1)%nat.
    + exists [a], [review_of a]. split_and!; done.
    + exists [], []. split_and!; [by constructor|done..].
Qed.

Lemma create_all_spec l d n d' : go (create_all l) d = (Ret n, d') → entries_created l n d d'.
Proof.
  revert d n. induction l as [|a l IH]; intros d n H; cbn [create_entries] in H.
  { injection H as <- <-. split; [done|done|constructor| |]; exists [], []; rewrite app_nil_r; auto. }
  apply run_bind_Ret in H as (b & d1 & [D1 S1 T1 (l1 & i1 & U1 & F1 & N1) (k1 & r1 & V1 & G1 & M1 & L1)]%create_spec & H).
  apply run_bind_Ret in H as (m & d2 & H & [= <- <-]).
  apply IH in H as [D2 S2 T2 (l2 & i2 & U2 & F2 & N2) (k2 & r2 & V2 & G2 & M2 & L2)].
  split; [congruence|auto| | |].
  - apply Forall_cons in T1 as [T1 _]. constructor; auto.
  - exists (l1 ++ l2), (i1 ++ i2). rewrite N2, N1, app_assoc.
    split_and!; [change (a :: l) with ([a] ++ l); by apply sublist_app|by apply Forall2_app|done].
  - exists (k1 ++ k2), (r1 ++ r2). rewrite M2, M1, G1, G2, map_app, app_assoc.
    split_and!; [change (a :: l) with ([a] ++ l); by apply sublist_app|done|done|]. rewrite <- G1, <- G2, length_app, <- L1, <- L2. by destruct b.
Qed.
(** ** Arbitration *)

Lemma decideAll_arbitration input st rank l :
  Forall (λ d, d_arbitrationId d = in_arbitrationId input) (decideAll input st rank l).
Proof.
  revert st rank. induction l as [|p l IH]; intros st rank; cbn [decideAll]; [constructor|].
  destruct (decideProposal _ _ _) as [d st']. by constructor.
Qed.

Lemma entry_proposal_key cycle e : exposureKey (entry_proposal cycle e) = normalized (order_symbol_of (el_row e)).
Proof. unfold exposureKey, normalized. cbn [symbol entry_proposal]. by rewrite trim_upper, to_upper_idem. Qed.

Section arbitration.
Context (rows : list EntryRow) (eligible : list EligibleRow) (first : EntryRow) (ctx : PortfolioResourceContext).
Context (arb : PortfolioArbitrationResult).

Local Abbreviation input := (arbitration_input env le sha256 fence rows eligible first ctx).
Local Abbreviation ds := (r_decisions arb).
Local Abbreviation candidate e := (ny_candidate_id (el_row e)).

Hypothesis Harb : arbitratePortfolioResources input = Ret arb.
Hypothesis Hkeys : NoDup (map decision_key ds).

Lemma decisions_of_proposals : Forall2 (λ p d, d_proposalId d = proposalId p) (ranked (in_proposals input)) ds.
Proof using Harb.
  rewrite (arbitrate_Ret _ _ Harb). eapply Forall2_impl; [apply decideAll_decides|]. by intros p d [? _].
Qed.

Lemma candidates_distinct : NoDup (map (λ e, candidate e) eligible).
Proof using Harb Hkeys.
  assert (Hd : NoDup (map d_proposalId ds)).
  { apply (NoDup_map_on _ decision_key); [done|]. intros x y Hx Hy Hp. unfold decision_key. rewrite Hp.
    rewrite (arbitrate_Ret _ _ Harb) in Hx, Hy.
    pose proof (decideAll_arbitration input (initialState (in_context input)) 1 (ranked (in_proposals input))) as Ha.
    rewrite List.Forall_forall in Ha. by rewrite (Ha x Hx), (Ha y Hy). }
  assert (Hp : map proposalId (ranked (in_proposals input)) = map d_proposalId ds).
  { apply Forall2_map_eq, decisions_of_proposals. }
  rewrite <- Hp in Hd. assert (Hperm : ranked (in_proposals input) ≡ₚ in_proposals input) by apply sort_by_perm.
  rewrite Hperm in Hd. cbn [in_proposals arbitration_input] in Hd. by rewrite map_map in Hd.
Qed.

(** The proposal that a decision is about. *)
Lemma decided_pair e x :
  In e eligible → decision_of ds e = Some x →
  In x ds ∧ ∃ cycle, In (entry_proposal cycle e, x) (combine (ranked (in_proposals input)) ds).
Proof using Harb Hkeys.
  intros He (Hin & Hid%String.eqb_eq)%select_one_Some. split; [done|].
  destruct (combine_right _ _ _ _ decisions_of_proposals Hin) as (p & Hpair & Hp).
  pose proof (Forall2_combine _ _ _ _ _ decisions_of_proposals Hpair) as Hpx. cbn beta in Hpx.
  apply list_elem_of_In in Hp. assert (Hperm : ranked (in_proposals input) ≡ₚ in_proposals input) by apply sort_by_perm.
  rewrite Hperm in Hp. apply list_elem_of_In, in_map_iff in Hp as (e0 & <- & He0).
  assert (e0 = e) as ->; [|by eexists].
  apply (unique_key (λ e, candidate e) eligible); [apply candidates_distinct|done|done|].
  cbn [proposalId entry_proposal] in Hpx. congruence.
Qed.

Definition symbol_of (a : ApprovedEntry) : string := normalized (order_symbol_of (ap_row a)).

Lemma approved_symbols es' approved :
  sublist es' eligible → Forall2 (grants ds) es' approved →
  NoDup (map symbol_of approved) ∧
  ∀ a, In a approved → In (ap_decision a) ds ∧
    ∀ e, In e (contextExposures ctx) → contextExposureKey e ≠ symbol_of a.
Proof using Harb Hkeys.
  intros Hsub Hg.
  destruct (decideAll_keys input (initialState (in_context input)) 1 (ranked (in_proposals input))) as [Hnew Hnd].
  rewrite <- (arbitrate_Ret _ _ Harb) in Hnew, Hnd.
  assert (Hpair : ∀ e a, In e es' → grants ds e a → ∃ cycle, In (entry_proposal cycle e, ap_decision a)
      (List.filter (λ q, negb (bool_decide (d_action (snd q) = skip))) (combine (ranked (in_proposals input)) ds))).
  { intros e a He (_ & Hd & Ha). apply (sublist_In _ _ _ Hsub) in He. destruct (decided_pair e _ He Hd) as (_ & c & Hc).
    exists c. apply filter_In. split; [done|]. cbn [snd]. by rewrite bool_decide_eq_false_2. }
  assert (Hrows : map symbol_of approved = map (λ e, normalized (order_symbol_of (el_row e))) es').
  { symmetry. apply Forall2_map_eq. eapply Forall2_impl; [exact Hg|]. intros e a (Hr & _). unfold symbol_of. by rewrite Hr. }
  split.
  - rewrite Hrows. apply (NoDup_map_on _ (λ e, candidate e)).
    { eapply sublist_NoDup; [apply candidates_distinct|]. by apply fmap_sublist. }
    intros e1 e2 H1 H2 Heq.
    destruct (Forall2_find_l _ _ _ _ Hg H1) as (a1 & _ & G1), (Forall2_find_l _ _ _ _ Hg H2) as (a2 & _ & G2).
    destruct (Hpair e1 a1 H1 G1) as [c1 P1], (Hpair e2 a2 H2 G2) as [c2 P2].
    assert (E : (entry_proposal c1 e1, ap_decision a1) = (entry_proposal c2 e2, ap_decision a2)).
    { apply (unique_key _ _ _ _ Hnd P1 P2). cbn [fst]. by rewrite !entry_proposal_key. }
    apply pair_equal_spec in E as [E _]. apply (f_equal proposalId) in E. done.
  - intros a Ha. destruct (Forall2_find_r _ _ _ _ Hg Ha) as (e & He & G). destruct (Hpair e a He G) as [c P]. split.
    + destruct G as (_ & Hd & _). apply (sublist_In _ _ _ Hsub) in He. by apply (decided_pair e _ He Hd).
    + destruct G as (Hr & _). intros x Hx. unfold symbol_of. rewrite Hr, <- (entry_proposal_key c).
      apply (Hnew (exposureKey (entry_proposal c e))); [|done].
      apply in_map_iff. by exists (entry_proposal c e, ap_decision a).
Qed.
End arbitration.

(** ** A whole review *)

Local Abbreviation evaluate := (evaluate_entries env json_parse quoteMaxAgeMs now maxMarketAgeSeconds exploration).
Local Abbreviation review :=
  (review_entries env json_parse new_york quoteMaxAgeMs le sha256 hmac signingKey fence now maxMarketAgeSeconds exploration).
Local Abbreviation arbitrate :=
  (arbitrate_entries env json_parse new_york le sha256 hmac signingKey fence now exploration).

(** What a run that arbitrated the eligible rows did. *)
Record arbitrated (rows : list EntryRow) (shared : EntryRow) (eligible : list EligibleRow) (d : ReviewDb) (r : ReviewResult)
    (d' : ReviewDb) (ctx : PortfolioResourceContext) (ds : list PortfolioArbitrationDecision)
    (approved : list ApprovedEntry) : Prop := {
  ar_context : portfolioResourceContext json_parse le sha256 rows shared = Ret ctx;
  ar_symbols : NoDup (map symbol_of approved);
  ar_free : ∀ a, In a approved → In (ap_decision a) ds ∧ d_action (ap_decision a) ≠ skip ∧
              ∀ e, In e (contextExposures ctx) → contextExposureKey e ≠ symbol_of a;
  ar_rows : ∀ a, In a approved → ∃ e, In e eligible ∧ ap_row a = el_row e ∧ d_proposalId (ap_decision a) = ny_candidate_id (el_row e);
  ar_stored : ∀ x, In x ds → ∃ account snapshot,
                decision_stored (v_decisions d') (serialized account snapshot (contextId ctx) x);
  ar_known : approved ≠ [] → known (buyingPowerAvailable ctx);
  ar_staged : Forall (λ e, staged (ny_candidate_id (el_row e)) d') eligible;
  ar_kept : ∀ id, staged id d → staged id d';
  ar_counts : (rr_skipped r + List.length approved)%nat = List.length eligible;
  ar_intents : ∃ l news, sublist l approved ∧ Forall2 (λ a i, intent_of a = Ret i) l news ∧ intents d' = intents d ++ news;
  ar_reviews : ∃ l, sublist l approved ∧ reviews d' = reviews d ++ map review_of l ∧ rr_reviewsCreated r = List.length l
}.

Lemma arbitrate_spec rows shared eligible first n d r d' :
  go (arbitrate rows shared eligible first n) d = (Ret r, d') →
  rr_capacityBlocked r = n ∧ ∃ ctx ds approved, arbitrated rows shared eligible d r d' ctx ds approved.
Proof.
  unfold arbitrate_entries. intros (ctx & d1 & [Hctx ->]%run_sync_Ret & H)%run_bind_Ret.
  apply run_bind_Ret in H as (arb & d1 & [Harb ->]%run_sync_Ret & H).
  apply run_bind_Ret in H as (u & d1 & (E1 & Hkeys & Hst)%persist_decisions_spec & H).
  apply run_bind_Ret in H as ([skipped approved] & d2 & Happ & H).
  apply apply_decisions_spec in Happ as ([E2 D2 S2] & Hlen & es' & Hsub & Hg & Hall).
  apply run_bind_Ret in H as (created & d3 & [D3 S3 T3 (l & news & Hl & Hnews & Hi) (l2 & rs & Hl2 & -> & Hr & Hc)]%create_all_spec
    & [= <- <-]).
  split; [done|]. exists ctx, (r_decisions arb), approved.
  destruct (approved_symbols _ _ _ _ _ Harb Hkeys es' approved Hsub Hg) as [Hsym Hfree].
  assert (Hback : ∀ a, In a approved → ∃ e, In e es' ∧ grants (r_decisions arb) e a)
    by (intros a Ha; by eapply Forall2_find_r).
  assert (Hs1 : ∀ id, staged id d → staged id d1) by (intros id; unfold staged; by rewrite E1).
  split; [done|done| | | | | | |done| |].
  - intros a Ha. destruct (Hfree a Ha) as [H1 H2]. destruct (Hback a Ha) as (e & He & G1 & G2 & G3). auto.
  - intros a Ha. destruct (Hback a Ha) as (e & He & G1 & G2 & G3). exists e. split; [by eapply sublist_In|]. split; [done|].
    apply select_one_Some in G2 as [_ G2%String.eqb_eq]. done.
  - intros x Hx. rewrite D3, D2. rewrite List.Forall_forall in Hst. eauto.
  - destruct approved as [|a approved]; [done|]. intros _. destruct (Hback a ltac:(by left)) as (e & He & G1 & G2 & G3).
    apply (sublist_In _ _ _ Hsub) in He. destruct (decided_pair _ _ _ _ _ Harb Hkeys e _ He G2) as (_ & c & Hp).
    rewrite (arbitrate_Ret _ _ Harb) in Hp. by apply decideAll_known in Hp as [[Hk _] _]; [|apply remembers_initial|].
  - eapply List.Forall_impl; [|exact Hall]. intros e [He|He]; [|by apply S3].
    destruct (Forall2_find_l _ _ _ _ Hg He) as (a & Ha & G1 & _). rewrite <- G1.
    rewrite List.Forall_forall in T3. by apply T3.
  - auto.
  - rewrite E2, E1 in Hi. by exists l, news.
  - rewrite E2, E1 in Hr. exists l2. split_and!; [done|done|]. cbn. by rewrite Hc, length_map.
Qed.

(** ** The rows and their verdicts *)

Definition verdict_row (v : EntryVerdict) : EntryRow :=
  match v with Eligible e => el_row e | BlockedRow r _ => r | CapacityRow r _ _ => r end.

Definition eligible_rows (vs : list EntryVerdict) : list EligibleRow := List.concat (map eligible_of vs).
Definition blocked_rows (vs : list EntryVerdict) : list (EntryRow * string) := List.concat (map blocked_of vs).
Definition capacity_rows (vs : list EntryVerdict) : list (EntryRow * string * option LeapsEntrySizingResult) :=
  List.concat (map capacity_of vs).

Lemma verdict_of_row r v :
  evaluate_entry env json_parse quoteMaxAgeMs now maxMarketAgeSeconds exploration r = Ret v → verdict_row v = r.
Proof.
  unfold evaluate_entry. destruct (_ || _); [done|].
  destruct (validateEntryReviewEvidence _ _ _ _ _ _ _) as [e|message].
  - intros (s & _ & [= <-])%res_bind_Ret. destruct s as [[reason s]|[amount s]]; [done|].
    destruct (row_option r && _ && _); [done|]. by destruct (short_equity r && _).
  - destruct (scopedReviewProposalReason message); [|done]. by intros [= <-].
Qed.

Lemma evaluate_rows rows vs : evaluate rows = Ret vs → map verdict_row vs = rows.
Proof.
  revert vs. induction rows as [|r rows IH]; intros vs H; cbn [evaluate_entries] in H; [by injection H as <-|].
  apply res_bind_Ret in H as (v & Hv%verdict_of_row & H). apply res_bind_Ret in H as (vs' & Hvs%IH & [= <-]).
  cbn. by rewrite Hv, Hvs.
Qed.

Lemma verdict_counts vs :
  (List.length (blocked_rows vs) + List.length (capacity_rows vs) + List.length (eligible_rows vs))%nat = List.length vs.
Proof.
  induction vs as [|[e|r reason|r reason s] vs IH]; [done|..]; unfold blocked_rows, capacity_rows, eligible_rows in *;
    cbn in *; lia.
Qed.

(** What holds of every eligible, blocked and capacity row holds of every row. *)
Lemma verdict_cases (P : EntryRow → Prop) vs :
  Forall (λ e, P (el_row e)) (eligible_rows vs) → Forall (λ x, P (fst x)) (blocked_rows vs) →
  Forall (λ x, P (fst (fst x))) (capacity_rows vs) → Forall P (map verdict_row vs).
Proof.
  induction vs as [|[e|r reason|r reason s] vs IH]; [done|..]; unfold blocked_rows, capacity_rows, eligible_rows in *;
    cbn in *; intros He Hb Hc; [apply Forall_cons in He as [H He]|apply Forall_cons in Hb as [H Hb]
      |apply Forall_cons in Hc as [H Hc]]; constructor; auto.
Qed.

Lemma eligible_from_rows vs e : In e (eligible_rows vs) → In (el_row e) (map verdict_row vs).
Proof.
  intros (l & (v & <- & Hv)%in_map_iff & He)%in_concat. apply in_map_iff. exists v. split; [|done].
  destruct v as [e'|r reason|r reason s]; cbn in He; [|done..]. by destruct He as [<-|].
Qed.

(** A run that resolves: the rows it blocks are staged, and the eligible ones, if
    there are any, are arbitrated. *)
Lemma review_spec rows d r d' :
  go (review rows) d = (Ret r, d') →
  ∃ vs, evaluate rows = Ret vs ∧ rr_capacityBlocked r = List.length (capacity_rows vs) ∧
    Forall (λ x, staged (ny_candidate_id (fst x)) d') (blocked_rows vs) ∧
    Forall (λ x, staged (ny_candidate_id (fst (fst x))) d') (capacity_rows vs) ∧
    ((eligible_rows vs = [] ∧ rr_reviewsCreated r = 0%nat ∧ rr_skipped r = 0%nat ∧ only_stages d d') ∨
     ∃ shared d1 ctx ds approved, hd_error rows = Some shared ∧ only_stages d d1 ∧
       arbitrated rows shared (eligible_rows vs) d1 r d' ctx ds approved).
Proof.
  unfold review_entries. intros (vs & d1 & [Hvs ->]%run_sync_Ret & H)%run_bind_Ret.
  apply run_bind_Ret in H as (u1 & d1 & [O1 S1]%persist_blocked_spec & H).
  apply run_bind_Ret in H as (u2 & d2 & [O2 S2]%persist_capacity_spec & H).
  fold (eligible_rows vs) (blocked_rows vs) (capacity_rows vs) in *. exists vs. split; [done|].
  pose proof (only_stages_trans _ _ _ O1 O2) as O.
  assert (S1' : Forall (λ x, staged (ny_candidate_id (fst x)) d2) (blocked_rows vs)).
  { eapply List.Forall_impl; [|exact S1]. intros x. apply O2. }
  destruct rows as [|shared rows].
  { injection Hvs as <-. injection H as <- <-. auto 10. }
  destruct (eligible_rows vs) as [|e es] eqn:Ee.
  - assert (d2 = d') as ->.
    { destruct (blocked_rows vs); by injection H. }
    assert (rr_capacityBlocked r = List.length (capacity_rows vs) ∧ rr_reviewsCreated r = 0%nat ∧ rr_skipped r = 0%nat)
      as (? & ? & ?) by (destruct (blocked_rows vs); by injection H as <-).
    split_and!; [done..|]. left. done.
  - apply arbitrate_spec in H as (Hn & ctx & ds & approved & Ha). pose proof (ar_kept _ _ _ _ _ _ _ _ _ Ha) as Hk.
    split; [done|]. split; [by eapply List.Forall_impl; [|exact S1']; intros x; apply Hk|].
    split; [by eapply List.Forall_impl; [|exact S2]; intros x; apply Hk|]. right.
    by exists shared, d2, ctx, ds, approved.
Qed.

(** C32: Every candidate of an entry review is decided on.  A review that resolves
    accounts for every row that the query returned: it is blocked for its evidence,
    blocked for want of capital, skipped by the arbitration, or granted an entry,
    and its candidate is left in the stage blocked, skipped or sized, so that it is
    not selected again.  The reviews it reports as created are the ones it adds. *)
Theorem every_candidate_decided rows d r d' :
  go (review rows) d = (Ret r, d') →
  ∃ vs granted, evaluate rows = Ret vs ∧ map verdict_row vs = rows ∧
    (List.length (blocked_rows vs) + rr_capacityBlocked r + rr_skipped r + granted)%nat = List.length rows ∧
    (rr_reviewsCreated r <= granted)%nat ∧
    List.length (reviews d') = (List.length (reviews d) + rr_reviewsCreated r)%nat ∧
    Forall (λ row, staged (ny_candidate_id row) d') rows.
Proof.
  intros (vs & Hvs & Hc & Hb & Hcap & Hrest)%review_spec. pose proof (evaluate_rows _ _ Hvs) as Hrows.
  pose proof (verdict_counts vs) as Hn. rewrite <- (length_map verdict_row), Hrows in Hn.
  exists vs. destruct Hrest as [(He & Hz & Hs & O)|(shared & d1 & ctx & ds & approved & _ & O & A)].
  - exists 0%nat. rewrite Hc, Hz, Hs. rewrite He in Hn. cbn [List.length] in Hn.
    split_and!; [done|done|lia|lia|by rewrite (os_exec _ _ O)|]. rewrite <- Hrows. apply verdict_cases; [|done..].
    rewrite He. constructor.
  - exists (List.length approved). pose proof (ar_counts _ _ _ _ _ _ _ _ _ A) as Hk.
    destruct (ar_reviews _ _ _ _ _ _ _ _ _ A) as (l & Hl & Hr & Hcr). rewrite Hc, Hcr.
    split_and!; [done|done|lia|by apply sublist_length|by rewrite Hr, length_app, length_map, (os_exec _ _ O)|].
    rewrite <- Hrows. apply verdict_cases; [|done..]. apply (ar_staged _ _ _ _ _ _ _ _ _ A).
Qed.

(** ** What the intents are for *)

Lemma intent_fields a i :
  intent_of a = Ret i →
  intent_candidate_id i = Some (ny_candidate_id (ap_row a)) ∧ intent_symbol i = order_symbol_of (ap_row a) ∧
  intent_status i = IntentCreated.
Proof.
  unfold entry_intent. intros (q & _ & H)%res_bind_Ret. do 4 (apply res_bind_Ret in H as (? & _ & H)).
  by injection H as <-.
Qed.

Lemma normalized_again s : normalized (to_upper (trim s)) = normalized s.
Proof. unfold normalized. by rewrite trim_upper, to_upper_idem, trim_idem. Qed.

(** A counted position is among the positions of the context. *)
Lemma counted_position_kept rows ps e : In e ps → In e (foldl add_counted_position ps rows).
Proof.
  revert ps. induction rows as [|r rows IH]; intros ps He; [done|]. cbn [foldl]. apply IH. unfold add_counted_position.
  destruct (_ && _); [apply in_or_app; by left|done].
Qed.

Lemma counted_position_added rows ps r :
  In r rows → positive_count (ny_open_position_count r) = true →
  ∃ e, In e (foldl add_counted_position ps rows) ∧ exp_symbol e = to_upper (trim (order_symbol_of r)).
Proof.
  revert ps. induction rows as [|x rows IH]; intros ps Hr Hp; [done|]. cbn [foldl]. destruct Hr as [->|Hr]; [|by apply IH].
  assert (∃ e, In e (add_counted_position ps r) ∧ exp_symbol e = to_upper (trim (order_symbol_of r))) as (e & He & Hs).
  { unfold add_counted_position. rewrite Hp. cbn [andb]. destruct (existsb _ ps) eqn:E; cbn [negb].
    - apply existsb_exists in E as (e & He & Hs%String.eqb_eq). by exists e.
    - eexists. split; [apply in_or_app; right; by left|done]. }
  exists e. split; [by apply counted_position_kept|done].
Qed.

Lemma counted_position_in_context rows shared ctx r :
  portfolioResourceContext json_parse le sha256 rows shared = Ret ctx → In r rows →
  positive_count (ny_open_position_count r) = true →
  ∃ e, In e (contextExposures ctx) ∧ contextExposureKey e = normalized (order_symbol_of r).
Proof.
  unfold portfolioResourceContext. destruct (existsb _ rows); [done|]. intros (m & _ & [= <-])%res_bind_Ret Hr Hp.
  destruct (counted_position_added rows (omap positionExposure (jsonRecords json_parse (ny_current_positions shared))) r Hr Hp)
    as (e & He & Hs).
  exists e. split; [|unfold contextExposureKey; by rewrite Hs, normalized_again].
  unfold contextExposures. cbn [existingPositions]. apply in_or_app. left. unfold current_positions. by apply sort_by_In.
Qed.

(** *** Symbols that are taken *)

Local Abbreviation listed_positions shared := (omap positionExposure (jsonRecords json_parse (ny_current_positions shared))).
Local Abbreviation listed_orders shared := (omap orderExposure (jsonRecords json_parse (ny_current_open_orders shared))).
Local Abbreviation listed_commitments shared :=
  (omap positionExposure (jsonRecords json_parse (ny_pending_commitments shared))).

(** What the columns of the first row and the counts of the rows say of a symbol: the
    account has a position in it, an active order for it or an intent pending for it;
    or the query counted positions or orders for a candidate of it.  A count of orders
    stands behind the orders of the same symbol that are listed. *)
Inductive taken (rows : list EntryRow) (shared : EntryRow) : string → Prop :=
| taken_position p : In p (listed_positions shared) → taken rows shared (normalized (exp_symbol p))
| taken_order o : In o (listed_orders shared) → activeOrder o = true →
    taken rows shared (normalized (exp_symbol (order_exposure o)))
| taken_commitment p : In p (listed_commitments shared) → taken rows shared (normalized (exp_symbol p))
| taken_counted_position r : In r rows → positive_count (ny_open_position_count r) = true →
    taken rows shared (normalized (order_symbol_of r))
| taken_counted_order r : In r rows → positive_count (ny_open_order_count r) = true →
    (∀ o, In o (listed_orders shared) → exp_symbol (order_exposure o) = to_upper (trim (order_symbol_of r)) →
       activeOrder o = true) →
    taken rows shared (normalized (order_symbol_of r)).

Lemma counted_order_kept rows os o : In o os → In o (foldl add_counted_order os rows).
Proof.
  revert os. induction rows as [|r rows IH]; intros os Ho; [done|]. cbn [foldl]. apply IH. unfold add_counted_order.
  destruct (_ && _); [apply in_or_app; by left|done].
Qed.

(** Every counted order is listed or stands for its row, as active. *)
Lemma counted_orders_from rows os o :
  In o (foldl add_counted_order os rows) → In o os ∨ activeOrder o = true.
Proof.
  revert os. induction rows as [|r rows IH]; intros os Ho; [by left|]. cbn [foldl] in Ho. apply IH in Ho as [Ho|Ho]; [|by right].
  unfold add_counted_order in Ho. destruct (_ && _); [|by left]. apply in_app_or in Ho as [Ho|[<-|[]]]; [by left|by right].
Qed.

Lemma counted_order_added rows os r :
  In r rows → positive_count (ny_open_order_count r) = true →
  ∃ o, In o (foldl add_counted_order os rows) ∧ exp_symbol (order_exposure o) = to_upper (trim (order_symbol_of r)).
Proof.
  revert os. induction rows as [|x rows IH]; intros os Hr Hp; [done|]. cbn [foldl]. destruct Hr as [->|Hr]; [|by apply IH].
  assert (∃ o, In o (add_counted_order os r) ∧ exp_symbol (order_exposure o) = to_upper (trim (order_symbol_of r)))
    as (o & Ho & Hs).
  { unfold add_counted_order. rewrite Hp. cbn [andb]. destruct (existsb _ os) eqn:E; cbn [negb].
    - apply existsb_exists in E as (o & Ho & Hs%String.eqb_eq). by exists o.
    - eexists. split; [apply in_or_app; right; by left|done]. }
  exists o. split; [by apply counted_order_kept|done].
Qed.

(** Every taken symbol is in the context of the arbitration. *)
Lemma taken_in_context rows shared ctx symbol :
  portfolioResourceContext json_parse le sha256 rows shared = Ret ctx → taken rows shared symbol →
  ∃ e, In e (contextExposures ctx) ∧ contextExposureKey e = symbol.
Proof.
  intros Hctx Ht. destruct Ht as [p Hp|o Ho Hact|p Hp|r Hr Hc|r Hr Hc Hact];
    [| | |by eapply counted_position_in_context|].
  all: unfold portfolioResourceContext in Hctx; destruct (existsb _ rows); [done|];
    apply res_bind_Ret in Hctx as (m & _ & [= <-]); unfold contextExposures, currentOrders;
    cbn [existingPositions openOrders pendingCommitments].
  - exists p. split; [|done]. apply in_or_app. left. unfold current_positions. apply sort_by_In.
    by apply counted_position_kept.
  - exists (order_exposure o). split; [|done]. apply in_or_app. right. apply in_or_app. left. apply in_map, filter_In.
    split; [|done]. unfold current_open_orders. apply sort_by_In. by apply counted_order_kept.
  - exists p. split; [|done]. apply in_or_app. right. apply in_or_app. right. by apply sort_by_In.
  - destruct (counted_order_added rows (listed_orders shared) r Hr Hc) as (o & Ho & Hs). exists (order_exposure o).
    split; [|unfold contextExposureKey; by rewrite Hs, normalized_again].
    apply in_or_app. right. apply in_or_app. left. apply in_map, filter_In. split.
    + unfold current_open_orders. by apply sort_by_In.
    + apply counted_orders_from in Ho as [Ho|Ho]; [by apply Hact|done].
Qed.

(** C29: The entries of a review do not conflict with each other or with the account.
    The intents a review adds are for pairwise different symbols, and the symbol of
    none is taken: it is not that of a position, of an active order or of a pending
    intent that the first row of the query lists for the account, nor one for which
    the query counted positions or active orders.  Each intent is for a candidate of
    the query, and the decisions hold one for it, with its fingerprint, that
    approves or resizes the entry. *)
Theorem entry_intents_conflict_free rows d r d' :
  go (review rows) d = (Ret r, d') →
  ∃ news, intents d' = intents d ++ news ∧ NoDup (map (λ i, normalized (intent_symbol i)) news) ∧
    ∀ i, In i news → ∃ row shared x s account snapshot context,
      In row rows ∧ intent_candidate_id i = Some (ny_candidate_id row) ∧ intent_symbol i = order_symbol_of row ∧
      hd_error rows = Some shared ∧ ¬ taken rows shared (normalized (intent_symbol i)) ∧
      d_proposalId x = ny_candidate_id row ∧ d_action x ≠ skip ∧
      In s (v_decisions d') ∧ matching_decision (serialized account snapshot context x) s = true.
Proof.
  intros (vs & Hvs & _ & _ & _ & Hrest)%review_spec. pose proof (evaluate_rows _ _ Hvs) as Hrows.
  destruct Hrest as [(_ & _ & _ & O)|(shared & d1 & ctx & ds & approved & Hhd & O & A)].
  { exists []. rewrite (os_exec _ _ O), app_nil_r. split_and!; [done|constructor|done]. }
  destruct (ar_intents _ _ _ _ _ _ _ _ _ A) as (l & news & Hl & Hnews & Hi). exists news.
  rewrite <- (os_exec _ _ O). split; [done|].
  assert (Hsym : map (λ i, normalized (intent_symbol i)) news = map symbol_of l).
  { symmetry. apply Forall2_map_eq. eapply Forall2_impl; [exact Hnews|]. intros a i (_ & Hs & _)%intent_fields.
    unfold symbol_of. by rewrite Hs. }
  split. { rewrite Hsym. eapply sublist_NoDup; [apply (ar_symbols _ _ _ _ _ _ _ _ _ A)|]. by apply fmap_sublist. }
  intros i Hin. destruct (Forall2_find_r _ _ _ _ Hnews Hin) as (a & Ha & (Hcand & Hs & _)%intent_fields).
  apply (sublist_In _ _ _ Hl) in Ha. destruct (ar_free _ _ _ _ _ _ _ _ _ A a Ha) as (Hd & Hskip & Hfree).
  destruct (ar_rows _ _ _ _ _ _ _ _ _ A a Ha) as (e & He & Hr & Hp). apply eligible_from_rows in He. rewrite Hrows in He.
  destruct (ar_stored _ _ _ _ _ _ _ _ _ A _ Hd) as (account & snapshot & (s & Hst & Hm)%existsb_exists).
  pose proof (ar_context _ _ _ _ _ _ _ _ _ A) as Hctx. unfold symbol_of in Hfree. rewrite Hr in Hcand, Hs, Hfree.
  exists (el_row e), shared, (ap_decision a), s, account, snapshot, (contextId ctx). rewrite Hs. split_and!; try done.
  intros Ht. destruct (taken_in_context _ _ _ _ Hctx Ht) as (y & Hy & Hk). by apply (Hfree y Hy).
Qed.

(** ** Unknown commitments *)

Lemma pending_unknown p ps : In p ps → exp_resourceExposure p = None → pending_resource ps = None.
Proof.
  unfold pending_resource. intros Hp Hn. assert (Hnone : ∀ l, foldl (λ sum q, match sum, exp_resourceExposure q with
    | Some s, Some x => Some (s + x)%float | _, _ => None end) (None : option number) l = None).
  { induction l as [|q l IH]; [done|]. cbn [foldl]. apply IH. }
  generalize (Some 0%float). induction ps as [|q ps IH]; intros sum; [done|]. cbn [foldl].
  destruct Hp as [->|Hp]; [|by apply IH]. rewrite Hn. destruct sum; apply Hnone.
Qed.

(** The entry review fails closed on an unknown commitment.  When one of the
    pending commitments of the account, an intent without an order and without a
    reservation, has no known size, the buying power that is left is unknown and
    the review enters nothing: it adds no review and no intent, whatever the other
    resources are. *)
Theorem unknown_commitment_blocks_entries rows shared p d r d' :
  hd_error rows = Some shared → In p (pending_commitments json_parse shared) → exp_resourceExposure p = None →
  go (review rows) d = (Ret r, d') →
  rr_reviewsCreated r = 0%nat ∧ reviews d' = reviews d ∧ intents d' = intents d.
Proof.
  intros Hhd Hp Hn (vs & Hvs & _ & _ & _ & Hrest)%review_spec.
  destruct Hrest as [(_ & Hz & _ & O)|(shared' & d1 & ctx & ds & approved & Hhd' & O & A)].
  { by rewrite (os_exec _ _ O). }
  rewrite Hhd in Hhd'. injection Hhd' as <-.
  assert (Hempty : approved = []).
  { destruct approved as [|a approved]; [done|]. exfalso.
    destruct (ar_known _ _ _ _ _ _ _ _ _ A ltac:(done)) as [x Hx]. pose proof (ar_context _ _ _ _ _ _ _ _ _ A) as Hctx.
    unfold portfolioResourceContext in Hctx. destruct (existsb _ rows); [done|].
    apply res_bind_Ret in Hctx as (m & _ & [= <-]). cbn [buyingPowerAvailable] in Hx.
    by rewrite (pending_unknown p) in Hx. }
  destruct (ar_intents _ _ _ _ _ _ _ _ _ A) as (l & news & Hl & Hnews & Hi).
  destruct (ar_reviews _ _ _ _ _ _ _ _ _ A) as (l2 & Hl2 & Hr & Hc). rewrite Hempty in Hl, Hl2.
  apply sublist_nil_r in Hl, Hl2. subst l l2. apply Forall2_nil_inv_l in Hnews as ->. cbn in Hr. rewrite app_nil_r in *.
  by rewrite Hc, Hr, Hi, (os_exec _ _ O).
Qed.
End runs.

From S2P Require Import ExecutionWitnesses.
From S2P Require Import ExitClaims.

Open Scope Z_scope.
Open Scope string_scope.

Definition entry_market (symbol price : string) (observed : Z) : MarketRow :=
  {| mr_symbol := symbol; mr_asset_class := equity; mr_option_symbol := None; mr_market_price := Some price;
     mr_market_timestamp := observed; mr_market_request_id := None; mr_market_evidence := None;
     mr_contract_option_symbol := None; mr_contract_id := None; mr_contract_underlying_symbol := None;
     mr_contract_type := None; mr_contract_expiration_date := None; mr_contract_tradable := None;
     mr_contract_status := None; mr_contract_source := None; mr_contract_observed_at := None;
     mr_contract_multiplier := None; mr_sip_underlying_symbol := None; mr_sip_market_price := None;
     mr_sip_market_timestamp := None; mr_sip_bid_price := None; mr_sip_ask_price := None;
     mr_sip_requested_feed := None; mr_sip_effective_feed := None; mr_sip_provider := None; mr_sip_request_id := None |}.

Definition entry_row (candidate score open_positions : string) (m : MarketRow) (d : PortfolioExposureDirection)
    (commitments : option jvalue) : EntryRow :=
  {| ny_candidate_id := candidate; ny_research_run_id := "research"; ny_candidate_score := Some score; ny_market := m;
     ny_direction := d; ny_confidence := Some "0.8"; ny_strategy_family := Some "core"; ny_signal_inputs := None;
     ny_account_id := "acct"; ny_account_snapshot_id := "snap"; ny_account_snapshot_as_of := 990000;
     ny_snapshot_fingerprint := "snapf"; ny_structural_fingerprint := Some "structure";
     ny_buying_power := Some "1000"; ny_options_buying_power := Some "1000"; ny_cash := Some "1000";
     ny_equity := Some "1000"; ny_strategy_key := "core"; ny_allocation_amount := None; ny_allocation_ratio := None;
     ny_reserved_amount := None; ny_deployed_amount := None; ny_allocation_config_fingerprint := None;
     ny_risk_config_fingerprint := None; ny_max_position_notional := None; ny_max_symbol_notional := None;
     ny_max_deployment_amount := None; ny_max_deployment_ratio := None; ny_cash_reserve_amount := None;
     ny_cash_reserve_ratio := None; ny_max_gross_exposure := None; ny_max_open_order_exposure := None;
     ny_portfolio_gross_exposure := None; ny_portfolio_open_order_exposure := None;
     ny_portfolio_deployed_amount := None; ny_portfolio_exposure_fingerprint := None; ny_current_positions := None;
     ny_current_open_orders := None; ny_pending_commitments := commitments; ny_position_snapshot_as_of := None;
     ny_open_order_snapshot_as_of := None; ny_open_position_count := open_positions; ny_open_order_count := "0" |}.

Definition entry_rows (commitments : option jvalue) : list EntryRow :=
  [entry_row "c1" "0.9" "0" (entry_market "AAPL" "200" 990000) long_direction commitments;
   entry_row "c2" "0.8" "1" (entry_market "MSFT" "400" 990000) long_direction commitments;
   entry_row "c3" "0.7" "0" (entry_market "AAPL" "200" 990000) long_direction commitments;
   entry_row "c4" "0.6" "0" (entry_market "SPY" "500" (-990000)) long_direction commitments;
   entry_row "c5" "0.5" "0" (entry_market "NVDA" "4000" 990000) short_direction commitments].

(** A commitment of unknown size. *)
Definition open_commitment : option jvalue :=
  Some (JArr [JObj [("id", JStr "intent_9"); ("symbol", JStr "QQQ"); ("underlyingSymbol", JStr "QQQ");
                    ("direction", JStr "long")]]).

Definition selected_candidate (id : string) : CandidateRow :=
  {| cand_id := id; cand_decision := "selected"; cand_lifecycle_status := "selected"; cand_decision_reason := "";
     cand_updated_at := 0; cand_version := 1 |}.

Definition entry_db : ReviewDb :=
  {| v_sub := {| s_now := 100; s_exec := demo_synced; s_lifecycle := [];
                 s_candidates := map selected_candidate ["c1"; "c2"; "c3"; "c4"; "c5"]; s_terminals := [] |};
     v_decisions := [] |}.

Definition entry_program (rows : list EntryRow) : async entry_effect ReviewResult :=
  review_entries no_env no_parse utc_parts 30000 String.leb exit_digest exit_hmac "key" demo_fence exit_now 1800
    PAPER_EXPLORATION_V3_THRESHOLDS rows.

Definition entry_run : { x | run (entry_answer (λ _, entry_rows None)) (entry_program (entry_rows None)) entry_db
                             = (Ret (fst x), snd x) }.
Proof. eexists (_, _). cbn [fst snd]. vm_compute. reflexivity. Defined.

Example entry_run_counts :
  rr_reviewsCreated (fst (proj1_sig entry_run)) = 1%nat ∧ rr_skipped (fst (proj1_sig entry_run)) = 2%nat ∧
  rr_capacityBlocked (fst (proj1_sig entry_run)) = 1%nat ∧
  map intent_symbol (db_intents (s_exec (v_sub (snd (proj1_sig entry_run))))) = ["AAPL"] ∧
  map cand_lifecycle_status (s_candidates (v_sub (snd (proj1_sig entry_run))))
    = ["sized"; "skipped"; "skipped"; "blocked"; "blocked"].
Proof. split_and!; reflexivity. Qed.

Lemma every_candidate_decided_witness :
  ∃ vs granted,
    evaluate_entries no_env no_parse 30000 exit_now 1800 PAPER_EXPLORATION_V3_THRESHOLDS (entry_rows None) = Ret vs ∧
    map verdict_row vs = entry_rows None ∧
    (List.length (blocked_rows vs) + rr_capacityBlocked (fst (proj1_sig entry_run))
     + rr_skipped (fst (proj1_sig entry_run)) + granted)%nat = List.length (entry_rows None) ∧
    (rr_reviewsCreated (fst (proj1_sig entry_run)) <= granted)%nat ∧
    List.length (db_reviews (s_exec (v_sub (snd (proj1_sig entry_run)))))
      = (List.length (db_reviews (s_exec (v_sub entry_db))) + rr_reviewsCreated (fst (proj1_sig entry_run)))%nat ∧
    Forall (λ row, staged (ny_candidate_id row) (snd (proj1_sig entry_run))) (entry_rows None).
Proof.
  apply (every_candidate_decided no_env no_parse utc_parts 30000 String.leb exit_digest exit_hmac "key" demo_fence
           exit_now 1800 PAPER_EXPLORATION_V3_THRESHOLDS (λ _, entry_rows None) (entry_rows None) entry_db).
  exact (proj2_sig entry_run).
Defined.

Lemma entry_intents_conflict_free_witness :
  ∃ news, db_intents (s_exec (v_sub (snd (proj1_sig entry_run)))) = (db_intents (s_exec (v_sub entry_db)) ++ news)%list ∧
    NoDup (map (λ i, normalized (intent_symbol i)) news) ∧
    ∀ i, In i news → ∃ row shared x s account snapshot context,
      In row (entry_rows None) ∧ intent_candidate_id i = Some (ny_candidate_id row) ∧
      intent_symbol i = order_symbol_of row ∧ hd_error (entry_rows None) = Some shared ∧
      ¬ taken no_parse (entry_rows None) shared (normalized (intent_symbol i)) ∧
      d_proposalId x = ny_candidate_id row ∧ d_action x ≠ skip ∧
      In s (v_decisions (snd (proj1_sig entry_run))) ∧
      matching_decision (serializedDecision String.leb exit_digest exit_now account snapshot context x) s = true.
Proof.
  apply (entry_intents_conflict_free no_env no_parse utc_parts 30000 String.leb exit_digest exit_hmac "key" demo_fence
           exit_now 1800 PAPER_EXPLORATION_V3_THRESHOLDS (λ _, entry_rows None) (entry_rows None) entry_db
           (fst (proj1_sig entry_run))).
  exact (proj2_sig entry_run).
Defined.

(** The same candidates while a commitment of unknown size is pending. *)
Definition uncertain_run :
  { x | run (entry_answer (λ _, entry_rows open_commitment)) (entry_program (entry_rows open_commitment)) entry_db
        = (Ret (fst x), snd x) }.
Proof. eexists (_, _). cbn [fst snd]. vm_compute. reflexivity. Defined.

Lemma unknown_commitment_blocks_entries_witness :
  rr_reviewsCreated (fst (proj1_sig uncertain_run)) = 0%nat ∧
  db_reviews (s_exec (v_sub (snd (proj1_sig uncertain_run)))) = db_reviews (s_exec (v_sub entry_db)) ∧
  db_intents (s_exec (v_sub (snd (proj1_sig uncertain_run)))) = db_intents (s_exec (v_sub entry_db)).
Proof.
  apply (unknown_commitment_blocks_entries no_env no_parse utc_parts 30000 String.leb exit_digest exit_hmac "key"
           demo_fence exit_now 1800 PAPER_EXPLORATION_V3_THRESHOLDS (λ _, entry_rows open_commitment)
           (entry_rows open_commitment) (hd (entry_row "" "" "" (entry_market "" "" 0) long_direction None)
             (entry_rows open_commitment))
           {| exp_id := "intent_9"; exp_symbol := "QQQ"; exp_underlyingSymbol := "QQQ"; exp_direction := long_direction;
              exp_resourceExposure := None |}).
  - reflexivity.
  - vm_compute. by left.
  - reflexivity.
  - exact (proj2_sig uncertain_run).
Defined.
