(* ===== verification/ControlTables.v ===== *)
(** Tables with versioned rows under the fence of a scheduler lease: what the
    repositories of src/repositories/postgres share
    (postgresRepositorySupport.ts and repositories/contracts/common.ts), next to the
    fence check of SchedulerLease.v.

    A repository works on tables that include scheduler_leases ([HasLeases]) and a
    table of its rows ([TableOf]).  A method is one transaction; [now] is the clock
    of the transaction. *)

From S2P Require Import Prelude.
From S2P Require Import JsString.
From S2P Require Import SchedulerLease.
From S2P Require Import ExecutionTables.
Open Scope Z_scope.

(** ** A table among others *)

Class TableOf (D R : Type) `{HasLeases D} := {
  rows_of : D → list R;
  set_rows : list R → D → D;
  rows_of_set : ∀ t d, rows_of (set_rows t d) = t;
  set_rows_same : ∀ d, set_rows (rows_of d) d = d;
  leases_of_set : ∀ t d, leases_of (set_rows t d) = leases_of d
}.

(** [UPDATE ... WHERE fence ...] inside a method: the fence of the lease. *)
Definition fence_holds {D} `{HasLeases D} (now : Z) (fence : SchedulerFence) (d : D) : bool :=
  fenceSql now fence (leases_of d).

(** [currentFenceToken]: the token of the lease that holds the job. *)
Definition currentFenceToken {D} `{HasLeases D} (now : Z) (fence : SchedulerFence) : tx D (option string) :=
  gets (λ d, (λ r, token_text (lease_fencing_token r)) <$>
               select_one (λ r, is_job (fence_job_name fence) r && lease_is_current now r) (leases_of d)).

Section table.
Context {D R : Type} `{HL : HasLeases D, !TableOf D R}.

(** [SELECT ... WHERE p]: the first row. *)
Definition find_row (p : R → bool) : tx D (option R) := gets (λ d, select_one p (rows_of d)).

(** [INSERT ... ON CONFLICT (target) DO NOTHING]; [INSERT] is the case without a
    target.  [conflicts] are all unique keys, [ok] the CHECK constraints. *)
Definition insert_new (target conflicts : R → R → bool) (ok : R → bool) (r : R) : tx D bool := λ d,
  if existsb (target r) (rows_of d) then Ret (false, d)
  else if existsb (conflicts r) (rows_of d) then Throw unique_violation
  else if ok r then Ret (true, set_rows (rows_of d ++ [r]) d) else Throw check_failed.

(** [UPDATE ... SET f WHERE p RETURNING ...] for a [p] that includes the primary
    key: the row after the update. *)
Definition update_returning (ok : R → bool) (p : R → bool) (f : R → R) : tx D (option R) := λ d,
  match select_one p (rows_of d) with
  | Some r => if ok (f r) then Ret (Some (f r), set_rows (update_where p f (rows_of d)) d) else Throw check_failed
  | None => Ret (None, d)
  end.

Lemma find_row_Ret p d o d' : find_row p d = Ret (o, d') ↔ o = select_one p (rows_of d) ∧ d' = d.
Proof. unfold find_row, gets. naive_solver. Qed.

Lemma insert_new_Ret target conflicts ok r d b d' :
  insert_new target conflicts ok r d = Ret (b, d') ↔
  if b then existsb (target r) (rows_of d) = false ∧ existsb (conflicts r) (rows_of d) = false ∧ ok r = true ∧
            d' = set_rows (rows_of d ++ [r]) d
  else existsb (target r) (rows_of d) = true ∧ d' = d.
Proof. unfold insert_new. destruct (existsb (target r) _), (existsb (conflicts r) _), (ok r), b; naive_solver. Qed.

Lemma returning_Ret ok p f d o d' :
  update_returning ok p f d = Ret (o, d') ↔
  match o with
  | Some x => ∃ r, select_one p (rows_of d) = Some r ∧ x = f r ∧ ok x = true ∧
                   d' = set_rows (update_where p f (rows_of d)) d
  | None => select_one p (rows_of d) = None ∧ d' = d
  end.
Proof.
  unfold update_returning. split.
  - destruct (select_one p (rows_of d)) as [r|]; [destruct (ok (f r)) eqn:E; [|done]|]; intros [= <- <-]; [by exists r|done].
  - destruct o as [x|]; [intros (r & -> & -> & -> & ->)|intros [-> ->]]; done.
Qed.
End table.

(** ** Statements after an error

    PostgreSQL refuses every statement of a transaction in which a statement
    failed, until it is rolled back.  [catch_unique m h] is
    [try { m } catch (error) { if (error.code !== "23505") throw error; h }] inside
    one transaction: [h] gets the way its statements run, which is to be refused. *)
Definition in_failed_sql_transaction : string := "25P02".
Definition refused_statement {D B} (q : tx D B) : tx D B := throw in_failed_sql_transaction.

Definition catch_unique {D A} (m : tx D A) (h : (∀ B, tx D B → tx D B) → tx D A) : tx D A := λ d,
  match m d with
  | Throw c => if (c =? unique_violation)%string then h (@refused_statement D) d else Throw c
  | Ret x => Ret x
  end.

(** A handler that queries never returns. *)
Lemma catch_unique_Ret {D A} (m : tx D A) h d x :
  (∀ y, h (@refused_statement D) d ≠ Ret y) → catch_unique m h d = Ret x → m d = Ret x.
Proof. unfold catch_unique. intros Hh. destruct (m d) as [y|c]; [done|]. destruct (_ =? _)%string; [by intros []%Hh|done]. Qed.

(** ** Versioned writes *)

Inductive VersionedWriteResult : Type :=
| WriteUpdated (version : Z)
| WriteNotFound
| WriteVersionConflict (currentVersion : Z)
| WriteFenceRejected (currentFencingToken : option string).

Section versioned.
Context {D R : Type} `{HL : HasLeases D, !TableOf D R}.
Context (key : R → string) (version : R → Z).

Definition has_id (id : string) (r : R) : bool := (key r =? id)%string.

(** What is said about a row that was not updated. *)
Definition version_verdict (id : string) (expected : Z) : tx D VersionedWriteResult :=
  current ← find_row (has_id id);
  mret (match current with
        | None => WriteNotFound
        | Some r => if version r =? expected then WriteNotFound else WriteVersionConflict (version r)
        end).

(** [mutationMiss], of the repositories that look at the fence again. *)
Definition mutation_miss (now : Z) (fence : SchedulerFence) (id : string) (expected : Z) : tx D VersionedWriteResult :=
  token ← currentFenceToken now fence;
  if bool_decide (token = Some (fence_token fence)) then version_verdict id expected
  else mret (WriteFenceRejected token).

(** [WHERE id = ... AND version = ... AND p AND fence] *)
Definition versioned_row (now : Z) (fence : SchedulerFence) (id : string) (expected : Z) (p : R → bool) (d : D) (r : R)
    : bool := has_id id r && (version r =? expected) && p r && fence_holds now fence d.

(** The common shape of the methods: check the fence, update the row of this
    version, or say why there is none. *)
Definition versioned_write (now clock : Z) (fence : SchedulerFence) (id : string) (expected : Z) (p : R → bool)
    (ok : R → bool) (f : R → R) (miss : tx D VersionedWriteResult) : tx D VersionedWriteResult :=
  verdict ← requireCurrentFence now clock fence;
  if negb (fence_accepted verdict) then mret (WriteFenceRejected (rejected_token verdict))
  else
    updated ← (λ d, update_returning ok (versioned_row now fence id expected p d) f d);
    match updated with
    | Some r => mret (WriteUpdated (version r))
    | None => miss
    end.

(** What a versioned write does: it updates the row of the expected version, or
    changes nothing. *)
Lemma versioned_write_Ret now clock fence id expected p ok f miss d w d' :
  read_only miss → (∀ x w y v, miss x = Ret (w, y) → w ≠ WriteUpdated v) →
  versioned_write now clock fence id expected p ok f miss d = Ret (w, d') →
  (∃ v, w = WriteUpdated v ∧ fence_accepted (fence_verdict now clock (leases_of d) fence) = true ∧
        ∃ r, select_one (versioned_row now fence id expected p d) (rows_of d) = Some r ∧
             key r = id ∧ version r = expected ∧ p r = true ∧ v = version (f r) ∧ ok (f r) = true ∧
             d' = set_rows (update_where (versioned_row now fence id expected p d) f (rows_of d)) d) ∨
  (d' = d ∧ ∀ v, w ≠ WriteUpdated v).
Proof.
  intros Hro Hmiss H. unfold versioned_write in H. tx_step H as verdict d1 E. unfold requireCurrentFence, gets in E.
  injection E as <- <-. destruct (fence_accepted _) eqn:Ef; cbn [negb] in H.
  - tx_step H as o d1 E. apply returning_Ret in E. destruct o as [x|].
    + destruct E as (r & Hs & -> & Hok & ->). injection H as <- <-. left. eexists. split; [done|]. split; [done|].
      exists r. pose proof Hs as Hs'. apply select_one_Some in Hs' as [_ Hp]. unfold versioned_row, has_id in Hp.
      rewrite !andb_true_iff, String.eqb_eq, Z.eqb_eq in Hp. naive_solver.
    + destruct E as [_ ->]. right. split; [by eapply Hro|]. intros v ->. by eapply Hmiss.
  - injection H as <- <-. right. done.
Qed.

Lemma version_verdict_read_only id expected : read_only (version_verdict id expected).
Proof. apply read_only_bind; [apply read_only_gets|intros; apply read_only_ret]. Qed.

Lemma version_verdict_not_updated id expected x w y v : version_verdict id expected x = Ret (w, y) → w ≠ WriteUpdated v.
Proof.
  unfold version_verdict. intros H. tx_step H as o x1 E. injection H as <- _.
  destruct o as [r|]; [by destruct (version r =? expected)|done].
Qed.

Lemma mutation_miss_read_only now fence id expected : read_only (mutation_miss now fence id expected).
Proof.
  apply read_only_bind; [apply read_only_gets|]. intros token.
  destruct (bool_decide _); [apply version_verdict_read_only|apply read_only_ret].
Qed.

Lemma mutation_miss_not_updated now fence id expected x w y v :
  mutation_miss now fence id expected x = Ret (w, y) → w ≠ WriteUpdated v.
Proof.
  unfold mutation_miss. intros H. tx_step H as token x1 E. destruct (bool_decide _).
  - by eapply version_verdict_not_updated.
  - by injection H as <- _.
Qed.
End versioned.

(** ** How rows evolve

    [evolves t t']: every row of [t] has a successor in [t'] with the same key; rows
    may be added.  The histories of a repository are related by it. *)
Section evolution.
Context {R : Type} (key : R → string) (rel : R → R → Prop) `{!PreOrder rel}.

Record evolves (t t' : list R) : Prop := {
  ev_keys : NoDup (map key t) → NoDup (map key t');
  ev_rows : ∀ r, In r t → ∃ r', In r' t' ∧ key r' = key r ∧ rel r r'
}.

#[export] Instance evolves_preorder : PreOrder evolves.
Proof.
  split.
  - intros t. split; [done|]. intros r Hr. by exists r.
  - intros t1 t2 t3 [K1 R1] [K2 R2]. split; [auto|]. intros r Hr. destruct (R1 r Hr) as (r1 & H1 & E1 & L1).
    destruct (R2 r1 H1) as (r2 & H2 & E2 & L2). exists r2. split_and!; [done|congruence|by etrans].
Qed.

Lemma evolves_where p (f : R → R) t :
  (∀ r, In r t → p r = true → key (f r) = key r ∧ rel r (f r)) → evolves t (update_where p f t).
Proof.
  intros Hf. split.
  - intros Hn. assert (map key (update_where p f t) = map key t) as ->; [|done].
    apply (map_ext_in_update key). intros r Hr Hp. by apply Hf.
  - intros r Hr. unfold update_where. destruct (p r) eqn:Hp.
    + exists (f r). destruct (Hf r Hr Hp). split_and!; [|done..]. apply in_map_iff. exists r. by rewrite Hp.
    + exists r. split_and!; [|done..]. apply in_map_iff. exists r. by rewrite Hp.
Qed.

Lemma evolves_append t r : existsb (λ x, (key x =? key r)%string) t = false → evolves t (t ++ [r]).
Proof.
  intros Hno. split; [|intros x Hx; exists x; split_and!; [apply in_or_app; by left|done..]].
  intros Hn. rewrite map_app. apply NoDup_app. split_and!; [done| |apply NoDup_singleton].
  intros k Hk ->%list_elem_of_singleton. apply list_elem_of_In, in_map_iff in Hk as (x & Hk & Hx).
  apply not_true_iff_false in Hno. apply Hno, existsb_exists. exists x. by rewrite String.eqb_eq.
Qed.

(** The only successor of a row. *)
Lemma evolves_row t t' r x :
  evolves t t' → NoDup (map key t) → In r t → In x t' → key x = key r → rel r x.
Proof.
  intros [K E] Hn Hr Hx Hk. destruct (E r Hr) as (r' & Hr' & Hk' & Hl).
  assert (x = r') as ->; [|done]. eapply (unique_key key); [by apply K|done..|congruence].
Qed.
End evolution.

#[export] Hint Resolve version_verdict_read_only mutation_miss_read_only : tx.
