(* ===== verification/ResearchRuns.v ===== *)
(** Research runs: src/repositories/postgres/postgresResearchRunRepository.ts with its
    contract researchRunRepository.ts, and the table research_runs of migration 001.

    A research run is reserved under the fence of a scheduler lease, sends heartbeats
    and progress, and is finished, or recovered when its heartbeats stop.  Every write
    names the version of the row it has read.

    What holds of research runs in every history of the repository: one run of the
    workstream is active, the version of a row is written once, and a run that has
    ended stays as it is. *)
From S2P Require Import Prelude.
From S2P Require Import JsString.
From S2P Require Import SchedulerLease.
From S2P Require Import ExecutionTables.
From S2P Require Import ControlTables.

Open Scope Z_scope.

Inductive ResearchRunStatus : Set :=
| run_reserved | run_running | run_completed | run_failed | run_cancelled | run_recovered.
#[export] Instance ResearchRunStatus_eq_dec : EqDecision ResearchRunStatus.
Proof. solve_decision. Defined.

(** The columns that no method updates. *)
Record RunIdentity := {
  ri_id : string;
  ri_workstream : string;
  ri_run_key : string;
  ri_risk_profile : string;
  ri_options_enabled : bool;
  ri_config : json;
  ri_worker_identity : option string;
  ri_request_id : option string;
  ri_correlation_id : option string;
  ri_started_at : Z;
  ri_created_at : Z
}.

Record ResearchRunRow := {
  rn_identity : RunIdentity;
  rn_status : ResearchRunStatus;
  rn_universe_size : Z;
  rn_targets_generated : Z;
  rn_candidates_selected : Z;
  rn_summary : option json;
  rn_error_code : option string;
  rn_error_message : option string;
  rn_scheduler_job_name : option string;
  rn_scheduler_fencing_token : option string;
  rn_heartbeat_at : option Z;
  rn_completed_at : option Z;
  rn_recovered_at : option Z;
  rn_recovery_reason : option string;
  rn_recovery_source : option string;
  rn_version : Z;
  rn_updated_at : Z
}.

Definition rn_id (r : ResearchRunRow) : string := ri_id (rn_identity r).
Definition rn_started_at (r : ResearchRunRow) : Z := ri_started_at (rn_identity r).

(** [status IN ('reserved', 'running')] *)
Definition run_active (r : ResearchRunRow) : bool := bool_decide (rn_status r ∈ [run_reserved; run_running]).

Definition last_heartbeat (r : ResearchRunRow) : Z := default (rn_started_at r) (rn_heartbeat_at r).

Definition not_before (t : option Z) (start : Z) : bool := match t with Some t => start <=? t | None => true end.

(** The CHECK constraints of research_runs. *)
Definition run_checks (r : ResearchRunRow) : bool :=
  let i := rn_identity r in
  btrim_nonempty (ri_id i) && btrim_nonempty (ri_workstream i) && btrim_nonempty (ri_run_key i)
  && btrim_nonempty (ri_risk_profile i)
  && (0 <=? rn_universe_size r) && (0 <=? rn_targets_generated r) && (0 <=? rn_candidates_selected r)
  && Bool.eqb (run_active r) (negb (bool_decide (is_Some (rn_completed_at r))))
  && not_before (rn_heartbeat_at r) (ri_started_at i) && not_before (rn_completed_at r) (ri_started_at i)
  && not_before (rn_recovered_at r) (ri_started_at i)
  && (0 <? rn_version r) && (ri_created_at i <=? rn_updated_at r).

(** The unique keys: the id, (workstream, run_key), and one active run per
    workstream. *)
Definition run_conflicts (a b : ResearchRunRow) : bool :=
  let same_workstream := (ri_workstream (rn_identity a) =? ri_workstream (rn_identity b))%string in
  (rn_id a =? rn_id b)%string
  || (same_workstream && (ri_run_key (rn_identity a) =? ri_run_key (rn_identity b))%string)
  || (same_workstream && run_active a && run_active b).

Record ResearchDb := { rd_leases : list SchedulerLeaseRow; rd_runs : list ResearchRunRow }.
#[export] Instance ResearchDb_HasLeases : HasLeases ResearchDb := rd_leases.
#[export, refine] Instance ResearchDb_runs : TableOf ResearchDb ResearchRunRow :=
  {| rows_of := rd_runs; set_rows := λ t d, {| rd_leases := rd_leases d; rd_runs := t |} |}.
Proof. - done. - by intros []. - done. Defined.

Section methods.
Context (now clock : Z) (fence : SchedulerFence).

Definition is_run (id : string) (r : ResearchRunRow) : bool := has_id rn_id id r.

Definition findById (runId : string) : tx ResearchDb (option ResearchRunRow) := find_row (is_run runId).

Definition earlier_start (a b : ResearchRunRow) : bool := rn_started_at a <=? rn_started_at b.

(** [ORDER BY started_at LIMIT 1] *)
Definition first_started (p : ResearchRunRow → bool) (d : ResearchDb) : option ResearchRunRow :=
  head (sort_by earlier_start (List.filter p (rd_runs d))).

Definition findActive (heartbeatAfter : option Z) : tx ResearchDb (option ResearchRunRow) :=
  gets (first_started (λ r, run_active r
    && match heartbeatAfter with Some t => t <? last_heartbeat r | None => true end)).

(** ** Reserving *)

Record ReserveInput := {
  rs_runId : string;
  rs_startedAt : Z;
  rs_staleBefore : Z;
  rs_recoveryReason : string;
  rs_recoverySource : string;
  rs_riskProfile : string;
  rs_optionsEnabled : bool;
  rs_config : json;
  rs_workerIdentity : string;
  rs_requestId : option string;
  rs_correlationId : option string
}.

Inductive ReservationResult : Type :=
| Reserved (runId : string) (version : Z)
| AlreadyRunning (activeRunId : string) (startedAt heartbeatAt version : Z)
| ReserveFenceRejected (currentFencingToken : option string).

Definition already_running (r : ResearchRunRow) : ReservationResult :=
  AlreadyRunning (rn_id r) (rn_started_at r) (last_heartbeat r) (rn_version r).

(** The workstream of every run. *)
Definition RESEARCH : string := "research".
Definition of_research (r : ResearchRunRow) : bool := (ri_workstream (rn_identity r) =? RESEARCH)%string.

Definition recovered_row (at_ : Z) (reason source : string) (r : ResearchRunRow) : ResearchRunRow :=
  {| rn_identity := rn_identity r; rn_status := run_recovered; rn_universe_size := rn_universe_size r;
     rn_targets_generated := rn_targets_generated r; rn_candidates_selected := rn_candidates_selected r;
     rn_summary := rn_summary r; rn_error_code := rn_error_code r; rn_error_message := Some (default reason (rn_error_message r));
     rn_scheduler_job_name := Some (fence_job_name fence); rn_scheduler_fencing_token := Some (fence_token fence);
     rn_heartbeat_at := rn_heartbeat_at r; rn_completed_at := Some at_; rn_recovered_at := Some at_;
     rn_recovery_reason := Some reason; rn_recovery_source := Some source; rn_version := rn_version r + 1;
     rn_updated_at := at_ |}.

Definition stale_before (staleBefore : Z) (r : ResearchRunRow) : bool :=
  of_research r && run_active r && (last_heartbeat r <=? staleBefore).

(** UPDATE research_runs SET status = 'recovered' ... WHERE stale AND fence *)
Definition recover_stale_runs (i : ReserveInput) : tx ResearchDb unit := λ d,
  let p r := stale_before (rs_staleBefore i) r && fence_holds now fence d in
  let f := recovered_row (rs_startedAt i) (rs_recoveryReason i) (rs_recoverySource i) in
  if forallb (λ r, negb (p r) || run_checks (f r)) (rd_runs d)
  then Ret (tt, {| rd_leases := rd_leases d; rd_runs := update_where p f (rd_runs d) |})
  else Throw check_failed.

Definition new_run (i : ReserveInput) : ResearchRunRow :=
  {| rn_identity := {| ri_id := rs_runId i; ri_workstream := RESEARCH; ri_run_key := rs_runId i;
                       ri_risk_profile := rs_riskProfile i; ri_options_enabled := rs_optionsEnabled i;
                       ri_config := rs_config i; ri_worker_identity := Some (rs_workerIdentity i);
                       ri_request_id := present (rs_requestId i); ri_correlation_id := present (rs_correlationId i);
                       ri_started_at := rs_startedAt i; ri_created_at := rs_startedAt i |};
     rn_status := run_running; rn_universe_size := 0; rn_targets_generated := 0; rn_candidates_selected := 0;
     rn_summary := None; rn_error_code := None; rn_error_message := None; rn_scheduler_job_name := Some (fence_job_name fence);
     rn_scheduler_fencing_token := Some (fence_token fence); rn_heartbeat_at := Some (rs_startedAt i);
     rn_completed_at := None; rn_recovered_at := None; rn_recovery_reason := None; rn_recovery_source := None;
     rn_version := 1; rn_updated_at := rs_startedAt i |}.

Definition nobody {R} (_ _ : R) : bool := false.

(** The INSERT: the version of the new row, if the fence holds. *)
Definition insert_run (i : ReserveInput) : tx ResearchDb (option Z) := λ d,
  if fence_holds now fence d then
    match insert_new nobody run_conflicts run_checks (new_run i) d with
    | Ret (_, d') => Ret (Some (rn_version (new_run i)), d')
    | Throw c => Throw c
    end
  else Ret (None, d).

Definition reserve (i : ReserveInput) : tx ResearchDb ReservationResult :=
  verdict ← requireCurrentFence now clock fence;
  if negb (fence_accepted verdict) then mret (ReserveFenceRejected (rejected_token verdict))
  else
    _ ← recover_stale_runs i;
    existing ← gets (first_started (λ r, of_research r && run_active r));
    match existing with
    | Some r => mret (already_running r)
    | None =>
        catch_unique
          (inserted ← insert_run i;
           match inserted with
           | Some v => mret (Reserved (rs_runId i) v)
           | None => token ← currentFenceToken now fence; mret (ReserveFenceRejected token)
           end)
          (λ query,
           active ← query _ (findActive None);
           match active with
           | Some r => mret (already_running r)
           | None => throw unique_violation
           end)
    end.

(** ** Versioned writes *)

Definition with_miss (id : string) (expected : Z) (p : ResearchRunRow → bool) (f : ResearchRunRow → ResearchRunRow)
    : tx ResearchDb VersionedWriteResult :=
  versioned_write rn_id rn_version now clock fence id expected p run_checks f
    (mutation_miss rn_id rn_version now fence id expected).

(** [status = 'running'] *)
Definition is_running (r : ResearchRunRow) : bool := bool_decide (rn_status r = run_running).

Definition progress_row (at_ : Z) (universe targets candidates : option Z) (r : ResearchRunRow) : ResearchRunRow :=
  {| rn_identity := rn_identity r; rn_status := rn_status r; rn_universe_size := default (rn_universe_size r) universe;
     rn_targets_generated := default (rn_targets_generated r) targets;
     rn_candidates_selected := default (rn_candidates_selected r) candidates; rn_summary := rn_summary r;
     rn_error_code := rn_error_code r; rn_error_message := rn_error_message r; rn_scheduler_job_name := rn_scheduler_job_name r;
     rn_scheduler_fencing_token := rn_scheduler_fencing_token r; rn_heartbeat_at := Some at_;
     rn_completed_at := rn_completed_at r; rn_recovered_at := rn_recovered_at r;
     rn_recovery_reason := rn_recovery_reason r; rn_recovery_source := rn_recovery_source r;
     rn_version := rn_version r + 1; rn_updated_at := at_ |}.

Definition heartbeat (runId : string) (expectedVersion heartbeatAt : Z) : tx ResearchDb VersionedWriteResult :=
  with_miss runId expectedVersion is_running (progress_row heartbeatAt None None None).

Definition updateProgress (runId : string) (expectedVersion heartbeatAt : Z)
    (universeSize targetsGenerated candidatesSelected : option Z) : tx ResearchDb VersionedWriteResult :=
  with_miss runId expectedVersion is_running (progress_row heartbeatAt universeSize targetsGenerated candidatesSelected).

Inductive FinishStatus : Set := finish_completed | finish_failed.
Definition finished_status (s : FinishStatus) : ResearchRunStatus :=
  match s with finish_completed => run_completed | finish_failed => run_failed end.

Definition finished_row (s : FinishStatus) (at_ targets candidates : Z) (summary : json) (error : option string)
    (r : ResearchRunRow) : ResearchRunRow :=
  {| rn_identity := rn_identity r; rn_status := finished_status s; rn_universe_size := rn_universe_size r;
     rn_targets_generated := targets; rn_candidates_selected := candidates; rn_summary := Some summary;
     rn_error_code := rn_error_code r; rn_error_message := error; rn_scheduler_job_name := rn_scheduler_job_name r;
     rn_scheduler_fencing_token := rn_scheduler_fencing_token r; rn_heartbeat_at := Some at_;
     rn_completed_at := Some at_; rn_recovered_at := rn_recovered_at r; rn_recovery_reason := rn_recovery_reason r;
     rn_recovery_source := rn_recovery_source r; rn_version := rn_version r + 1; rn_updated_at := at_ |}.

Definition finish (runId : string) (expectedVersion : Z) (s : FinishStatus) (completedAt targets candidates : Z)
    (summary : json) (error : option string) : tx ResearchDb VersionedWriteResult :=
  with_miss runId expectedVersion is_running (finished_row s completedAt targets candidates summary error).

(** One run of [recoverStale], after the fence has been checked. *)
Definition recover_run (at_ : Z) (reason source : string) (runId : string) (expectedVersion : Z)
    : tx ResearchDb VersionedWriteResult :=
  updated ← (λ d, update_returning run_checks (versioned_row rn_id rn_version now fence runId expectedVersion run_active d)
                    (recovered_row at_ reason source) d);
  match updated with
  | Some r => mret (WriteUpdated (rn_version r))
  | None => mutation_miss rn_id rn_version now fence runId expectedVersion
  end.

Fixpoint recover_runs (at_ : Z) (reason source : string) (runs : list (string * Z))
    : tx ResearchDb (list (string * VersionedWriteResult)) :=
  match runs with
  | [] => mret []
  | (runId, expectedVersion) :: runs' =>
      w ← recover_run at_ reason source runId expectedVersion;
      ws ← recover_runs at_ reason source runs';
      mret ((runId, w) :: ws)
  end.

Definition recoverStale (runs : list (string * Z)) (at_ : Z) (reason source : string)
    : tx ResearchDb (list (string * VersionedWriteResult)) :=
  verdict ← requireCurrentFence now clock fence;
  if negb (fence_accepted verdict)
  then mret (map (λ r, (fst r, WriteFenceRejected (rejected_token verdict))) runs)
  else recover_runs at_ reason source runs.
End methods.

Open Scope Z_scope.

(** ** Histories *)

(** The methods that write one run. *)
Inductive RunWrite : Type :=
| Beat (at_ : Z)
| Progress (at_ : Z) (universe targets candidates : option Z)
| Finish (s : FinishStatus) (at_ targets candidates : Z) (summary : json) (error : option string).

Definition write_run (now clock : Z) (fence : SchedulerFence) (id : string) (expected : Z) (w : RunWrite)
    : tx ResearchDb VersionedWriteResult :=
  match w with
  | Beat t => heartbeat now clock fence id expected t
  | Progress t u g c => updateProgress now clock fence id expected t u g c
  | Finish s t g c summary error => finish now clock fence id expected s t g c summary error
  end.

(** Leases change by themselves. *)
Inductive research_step (d : ResearchDb) : ResearchDb → Prop :=
| step_lease ls : research_step d {| rd_leases := ls; rd_runs := rd_runs d |}
| step_reserve now clock fence i w d' : reserve now clock fence i d = Ret (w, d') → research_step d d'
| step_write now clock fence id v a w d' : write_run now clock fence id v a d = Ret (w, d') → research_step d d'
| step_recover now clock fence runs t reason source ws d' :
    recoverStale now clock fence runs t reason source d = Ret (ws, d') → research_step d d'.

(** What can become of a run: nothing, or a later version of an active one. *)
Definition run_evolves (r r' : ResearchRunRow) : Prop :=
  r' = r ∨ (run_active r = true ∧ rn_version r < rn_version r' ∧ rn_identity r' = rn_identity r).

#[export] Instance run_evolves_preorder : PreOrder run_evolves.
Proof.
  split; [by left|]. intros r1 r2 r3 [->|(A & V & I)] [->|(A' & V' & I')]; [by left|by right|by right|].
  right. split_and!; [done|lia|congruence].
Qed.

Local Abbreviation runs_evolve := (evolves rn_id run_evolves).

(** At most one run of a workstream is active. *)
Definition single_active (t : list ResearchRunRow) : Prop :=
  ∀ r s, In r t → In s t → run_active r = true → run_active s = true →
    ri_workstream (rn_identity r) = ri_workstream (rn_identity s) → r = s.

Definition research_wf (d : ResearchDb) : Prop := NoDup (map rn_id (rd_runs d)) ∧ single_active (rd_runs d).

(** ** Updates *)

(** An update of active rows that counts the version on and reactivates nothing. *)
Record run_update (p : ResearchRunRow → bool) (f : ResearchRunRow → ResearchRunRow) : Prop := {
  ru_active : ∀ r, p r = true → run_active r = true;
  ru_version : ∀ r, rn_version (f r) = rn_version r + 1;
  ru_identity : ∀ r, rn_identity (f r) = rn_identity r
}.

Lemma update_evolves p f t : run_update p f → runs_evolve t (update_where p f t).
Proof.
  intros [A V I]. apply evolves_where; [apply _|]. intros r _ Hp. unfold rn_id. rewrite I. split; [done|].
  right. rewrite V, (A r Hp), I. split_and!; [done|lia|done].
Qed.

Lemma update_single_active p f t : run_update p f → single_active t → single_active (update_where p f t).
Proof.
  intros [A V I] H x y Hx Hy Ax Ay Hw. apply in_map_iff in Hx as (r & <- & Hr), Hy as (s & <- & Hs).
  assert (P : ∀ r, run_active (if p r then f r else r) = true → run_active r = true).
  { intros q. destruct (p q) eqn:E; [intros _; by apply A|done]. }
  assert (W : ∀ r, rn_identity (if p r then f r else r) = rn_identity r) by (intros q; by destruct (p q)).
  apply P in Ax, Ay. rewrite !W in Hw. by rewrite (H r s Hr Hs Ax Ay Hw).
Qed.

Lemma runs_update_wf p f ls d :
  run_update p f → research_wf d → research_wf {| rd_leases := ls; rd_runs := update_where p f (rd_runs d) |}.
Proof.
  intros H [N S]. split; cbn; [|by apply update_single_active]. by apply (ev_keys _ _ _ _ (update_evolves _ _ _ H)).
Qed.

Lemma recovered_update now fence i d :
  run_update (λ r, stale_before (rs_staleBefore i) r && fence_holds now fence d)
    (recovered_row fence (rs_startedAt i) (rs_recoveryReason i) (rs_recoverySource i)).
Proof.
  split; [|done..]. intros r. unfold stale_before. rewrite !andb_true_iff. naive_solver.
Qed.

Lemma running_active r : is_running r = true → run_active r = true.
Proof. unfold is_running, run_active. rewrite !bool_decide_eq_true. intros ->. by right; left. Qed.

Lemma versioned_update now fence id v p f d :
  (∀ r, p r = true → run_active r = true) → (∀ r, rn_version (f r) = rn_version r + 1) →
  (∀ r, rn_identity (f r) = rn_identity r) → run_update (versioned_row rn_id rn_version now fence id v p d) f.
Proof. intros A V I. split; [|done..]. intros r. unfold versioned_row. rewrite !andb_true_iff. naive_solver. Qed.

(** What a write of one run does. *)
Lemma write_run_Ret now clock fence id v a d w d' :
  write_run now clock fence id v a d = Ret (w, d') →
  (∃ p f r, w = WriteUpdated (v + 1) ∧ run_update p f ∧ In r (rd_runs d) ∧ p r = true ∧ rn_id r = id ∧ rn_version r = v ∧
     match a with Finish s t tg c sm e => f = finished_row s t tg c sm e | _ => True end ∧
     d' = {| rd_leases := rd_leases d; rd_runs := update_where p f (rd_runs d) |}) ∨
  (d' = d ∧ ∀ u, w ≠ WriteUpdated u).
Proof.
  intros H. assert (∃ f, with_miss now clock fence id v is_running f d = Ret (w, d') ∧
    (∀ r, rn_version (f r) = rn_version r + 1) ∧ (∀ r, rn_identity (f r) = rn_identity r) ∧
    match a with Finish s t tg c sm e => f = finished_row s t tg c sm e | _ => True end) as (f & Hf & V & I & A).
  { by destruct a as [t|t u g c|s t g c sm e]; (eexists; split; [exact H|split_and!]). }
  apply versioned_write_Ret in Hf; [|auto with tx|intros x y z u Hm; by eapply mutation_miss_not_updated].
  destruct Hf as [(u & -> & _ & r & Hs & Hk & Hv & Hp & -> & _ & ->)|]; [left|by right].
  eexists _, f, r. rewrite V, Hv. apply select_one_Some in Hs as [Hin Hs].
  split; [done|]. split; [eapply (versioned_update now fence id v is_running); eauto using running_active|].
  split_and!; done.
Qed.

Lemma recover_run_evolves now fence t reason source id v d w d' :
  recover_run now fence t reason source id v d = Ret (w, d') →
  runs_evolve (rd_runs d) (rd_runs d') ∧ (research_wf d → research_wf d').
Proof.
  unfold recover_run. intros H. tx_step H as o d1 E. apply returning_Ret in E. destruct o as [x|].
  - destruct E as (r & _ & -> & _ & ->). injection H as _ <-.
    assert (run_update (versioned_row rn_id rn_version now fence id v run_active d) (recovered_row fence t reason source))
      as U by by apply versioned_update.
    split; [by apply update_evolves|]. by apply runs_update_wf.
  - destruct E as [_ ->]. apply mutation_miss_read_only in H as ->. done.
Qed.

Lemma recover_runs_evolves now fence t reason source l d ws d' :
  recover_runs now fence t reason source l d = Ret (ws, d') →
  runs_evolve (rd_runs d) (rd_runs d') ∧ (research_wf d → research_wf d').
Proof.
  revert d ws d'. induction l as [|[id v] l IH]; intros d ws d' H; cbn [recover_runs] in H; [by injection H as _ <-|].
  tx_step H as w d1 E. apply recover_run_evolves in E as [E1 W1]. tx_step H as ws1 d2 E. apply IH in E as [E2 W2].
  injection H as _ <-. split; [by etrans|auto].
Qed.

(** ** Reserving *)

Lemma accepted_fence_holds {D} `{HasLeases D} now clock fence (d : D) :
  fence_accepted (fence_verdict now clock (leases_of d) fence) = true → fence_holds now fence d = true.
Proof.
  intros (r & Hr & -> & Hc)%verdict_accepted. unfold fence_holds, fenceSql. apply existsb_exists. exists r.
  split; [done|]. cbn. by rewrite !String.eqb_refl, Hc.
Qed.

Lemma first_started_spec p d :
  match first_started p d with
  | Some r => In r (rd_runs d) ∧ p r = true
  | None => ∀ r, In r (rd_runs d) → p r = false
  end.
Proof.
  unfold first_started. destruct (sort_by _ _) as [|r l] eqn:E; cbn.
  - intros r Hr. apply not_true_iff_false. intros Hp.
    assert (In r (sort_by earlier_start (List.filter p (rd_runs d)))) as Hin by (apply sort_by_In, filter_In; auto).
    by rewrite E in Hin.
  - assert (In r (sort_by earlier_start (List.filter p (rd_runs d)))) as Hin by (rewrite E; by left).
    by apply sort_by_In, filter_In in Hin.
Qed.

Lemma recover_stale_Ret now fence i d u d' :
  recover_stale_runs now fence i d = Ret (u, d') →
  d' = {| rd_leases := rd_leases d;
          rd_runs := update_where (λ r, stale_before (rs_staleBefore i) r && fence_holds now fence d)
                       (recovered_row fence (rs_startedAt i) (rs_recoveryReason i) (rs_recoverySource i)) (rd_runs d) |}.
Proof. unfold recover_stale_runs. destruct (forallb _ _); [|done]. by intros [= _ <-]. Qed.

(** A run that is active when the stale ones have been recovered was active before,
    and is not stale. *)
Lemma active_after_recovery now fence i d r :
  fence_holds now fence d = true →
  In r (update_where (λ r, stale_before (rs_staleBefore i) r && fence_holds now fence d)
          (recovered_row fence (rs_startedAt i) (rs_recoveryReason i) (rs_recoverySource i)) (rd_runs d)) →
  of_research r = true → run_active r = true → In r (rd_runs d) ∧ rs_staleBefore i < last_heartbeat r.
Proof.
  intros Hf (s & <- & Hs)%in_map_iff Ho Ha. rewrite Hf, andb_true_r in *.
  destruct (stale_before (rs_staleBefore i) s) eqn:E; [done|]. split; [done|].
  unfold stale_before in E. rewrite Ho, Ha in E. cbn in E. lia.
Qed.

(** The runs when those without a heartbeat since the limit have been recovered. *)
Definition after_recovery (fence : SchedulerFence) (i : ReserveInput) (t : list ResearchRunRow) : list ResearchRunRow :=
  map (λ r, if of_research r && run_active r && (last_heartbeat r <=? rs_staleBefore i)
            then recovered_row fence (rs_startedAt i) (rs_recoveryReason i) (rs_recoverySource i) r else r) t.

(** What a reservation means: see below. *)
Definition reservation_meaning (now : Z) (fence : SchedulerFence) (i : ReserveInput) (d d' : ResearchDb)
    (w : ReservationResult) : Prop :=
  match w with
  | Reserved id v =>
      fence_holds now fence d = true ∧ id = rs_runId i ∧ v = 1 ∧ (∀ r, In r (rd_runs d) → rn_id r ≠ rs_runId i) ∧
      (∀ r, In r (rd_runs d) → of_research r = true → run_active r = true → last_heartbeat r <= rs_staleBefore i) ∧
      rd_runs d' = after_recovery fence i (rd_runs d) ++ [new_run fence i]
  | AlreadyRunning id started beat v =>
      fence_holds now fence d = true ∧ rd_runs d' = after_recovery fence i (rd_runs d) ∧
      ∃ r, In r (rd_runs d) ∧ In r (rd_runs d') ∧ of_research r = true ∧ run_active r = true ∧
           rn_id r = id ∧ rn_started_at r = started ∧ last_heartbeat r = beat ∧ rn_version r = v ∧ rs_staleBefore i < beat
  | ReserveFenceRejected token => d' = d
  end.

Lemma after_recovery_update now fence i d :
  fence_holds now fence d = true →
  update_where (λ r, stale_before (rs_staleBefore i) r && fence_holds now fence d)
    (recovered_row fence (rs_startedAt i) (rs_recoveryReason i) (rs_recoverySource i)) (rd_runs d) =
  after_recovery fence i (rd_runs d).
Proof.
  intros Hf. unfold update_where, after_recovery. apply map_ext. intros r. by rewrite Hf, andb_true_r.
Qed.

(** The insertion, into a table in which no research run is active. *)
Lemma insert_run_Ret now fence i d o d' :
  insert_run now fence i d = Ret (o, d') → fence_holds now fence d = true →
  o = Some 1 ∧ d' = {| rd_leases := rd_leases d; rd_runs := rd_runs d ++ [new_run fence i] |} ∧
  (∀ r, In r (rd_runs d) → rn_id r ≠ rs_runId i).
Proof.
  unfold insert_run. intros H Hf. rewrite Hf in H. destruct (insert_new _ _ _ _ d) as [[b d1]|c] eqn:E; [|done]. injection H as <- <-.
  apply insert_new_Ret in E. destruct b; [|by destruct E as [(x & _ & [=])%existsb_exists _]].
  destruct E as (_ & Hno & _ & ->). split_and!; [done..|]. intros r Hr He. apply not_true_iff_false in Hno.
  apply Hno, existsb_exists. exists r. split; [done|]. unfold run_conflicts. cbn. unfold rn_id in *. cbn.
  by rewrite He, String.eqb_refl.
Qed.

Lemma append_evolves i fence t :
  (∀ r, In r t → rn_id r ≠ rs_runId i) → runs_evolve t (t ++ [new_run fence i]).
Proof.
  intros Hid. apply evolves_append; [apply _|]. apply not_true_iff_false.
  intros (x & Hx & Hk%String.eqb_eq)%existsb_exists. by apply (Hid x Hx).
Qed.

Lemma append_single_active fence i t :
  (∀ r, In r t → of_research r && run_active r = false) → single_active t → single_active (t ++ [new_run fence i]).
Proof.
  intros Hno S. assert (Hact : ∀ r, In r t → run_active r = true → ri_workstream (rn_identity r) ≠ RESEARCH).
  { intros r Hr Ha Hw. specialize (Hno r Hr). unfold of_research in Hno. by rewrite Hw, Ha in Hno. }
  intros r s [Hr|[<-|[]]]%in_app_or [Hs|[<-|[]]]%in_app_or Ar As Hw; [auto|..|done];
    exfalso; [by apply (Hact r)|by apply (Hact s)].
Qed.

Lemma reserve_cases now clock fence i d w d' :
  reserve now clock fence i d = Ret (w, d') →
  reservation_meaning now fence i d d' w ∧ runs_evolve (rd_runs d) (rd_runs d') ∧ (research_wf d → research_wf d').
Proof.
  unfold reserve, requireCurrentFence. intros H. tx_step H as verdict d1 E. injection E as <- <-.
  destruct (fence_accepted _) eqn:Ef; cbn [negb] in H; [|by injection H as <- <-].
  pose proof (accepted_fence_holds _ _ _ _ Ef) as Hf. tx_step H as u d1 E. apply recover_stale_Ret in E.
  pose proof (recovered_update now fence i d) as Hu. tx_step H as o d2 E2. injection E2 as <- <-.
  pose proof (first_started_spec (λ r, of_research r && run_active r) d1) as Hs.
  assert (Ev : runs_evolve (rd_runs d) (rd_runs d1)) by (subst d1; by apply update_evolves).
  assert (Wf : research_wf d → research_wf d1) by (subst d1; by apply runs_update_wf).
  destruct (first_started _ d1) as [r|].
  - injection H as <- <-. destruct Hs as [Hr [Ho Ha]%andb_true_iff]. pose proof Hr as Hr'. rewrite E in Hr.
    cbn [rd_runs] in Hr. apply active_after_recovery in Hr as [Hr Hb]; [|done..]. split; [|done].
    split; [done|]. split; [rewrite E; by apply after_recovery_update|]. exists r. split_and!; done.
  - apply catch_unique_Ret in H; [|done]. tx_step H as v d3 E3. apply insert_run_Ret in E3 as (-> & -> & Hid);
      [|by rewrite E].
    injection H as <- <-. cbn [reservation_meaning rd_runs]. split; [split_and!|split].
    + done.
    + done.
    + done.
    + intros r Hr He. destruct (ev_rows _ _ _ _ Ev r Hr) as (r' & Hr' & Hk & _). apply (Hid r' Hr'). congruence.
    + intros r Hr Ho Ha. destruct (last_heartbeat r <=? rs_staleBefore i) eqn:Eb; [lia|].
      exfalso. assert (In r (rd_runs d1)) as Hr1.
      { rewrite E. apply in_map_iff. exists r. unfold stale_before. by rewrite Ho, Ha, Eb. }
      specialize (Hs r Hr1). by rewrite Ho, Ha in Hs.
    + rewrite E. cbn [rd_runs]. by rewrite after_recovery_update.
    + etrans; [exact Ev|]. by apply append_evolves.
    + intros [N S]%Wf. split; cbn; [by apply (ev_keys _ _ _ _ (append_evolves i fence _ Hid))|].
      by apply append_single_active.
Qed.

(** ** Histories *)

Lemma research_step_evolves d d' :
  research_step d d' → runs_evolve (rd_runs d) (rd_runs d') ∧ (research_wf d → research_wf d').
Proof.
  intros [ls|now clock fence i w d1 H|now clock fence id v a w d1 H|now clock fence runs t reason source ws d1 H].
  - done.
  - by apply reserve_cases in H as (_ & E & W).
  - apply write_run_Ret in H as [(p & f & r & _ & U & _ & _ & _ & _ & _ & ->)|[-> _]]; [|done].
    split; [by apply update_evolves|by apply runs_update_wf].
  - unfold recoverStale, requireCurrentFence in H. tx_step H as verdict d2 E. injection E as <- <-.
    destruct (negb _); [by injection H as _ <-|]. by apply recover_runs_evolves in H.
Qed.

Lemma research_history d d' :
  rtc research_step d d' → runs_evolve (rd_runs d) (rd_runs d') ∧ (research_wf d → research_wf d').
Proof.
  induction 1 as [|d d1 d2 H _ [E W]]; [done|]. apply research_step_evolves in H as [E1 W1].
  split; [by etrans|auto].
Qed.

(** C11: what an answer of [reserve] means.  [Reserved] and [AlreadyRunning] are answers
    to a process whose fence holds.  [Reserved]: no run had the given id, every active
    research run had sent no heartbeat since the limit, and the table is the one before
    with these runs marked as recovered and the new run, at version 1, added.
    [AlreadyRunning]: the table is the one before with the runs that sent no heartbeat
    since the limit marked as recovered, and the run that is named is an active one that
    did, and was not touched.  [ReserveFenceRejected]: nothing was written. *)
Theorem research_reservation now clock fence i d w d' :
  reserve now clock fence i d = Ret (w, d') → reservation_meaning now fence i d d' w.
Proof. intros H. by apply reserve_cases in H as [H _]. Qed.

(** C12: a version of a research run is written once.  When a process has written the
    run it read at version [v], no process that read version [v] ever writes it
    again; and when that write was its completion, the row stays as the completion
    left it, in every later history, recoveries included. *)
Theorem research_version_written_once now clock fence id v a d u d1 d2 :
  research_wf d → write_run now clock fence id v a d = Ret (WriteUpdated u, d1) → rtc research_step d1 d2 →
  u = v + 1 ∧
  (∀ now' clock' fence' b w d3, write_run now' clock' fence' id v b d2 = Ret (w, d3) → (∀ x, w ≠ WriteUpdated x) ∧ d3 = d2) ∧
  (∀ s t tg c sm e, a = Finish s t tg c sm e → ∃ r, In r (rd_runs d) ∧ rn_version r = v ∧
     ∀ x, In x (rd_runs d2) → rn_id x = id → x = finished_row s t tg c sm e r).
Proof.
  intros [N S] H Hd. apply research_history in Hd as [Ev _]. pose proof H as H0.
  apply write_run_Ret in H as [(p & f & r & [= ->] & U & Hr & Hp & Hk & Hv & Ha & Hd1)|[_ []%(λ h, h (u))]]; [|done].
  split; [done|]. assert (Hf : In (f r) (rd_runs d1)).
  { subst d1. apply in_map_iff. exists r. by rewrite Hp. }
  assert (Hkf : rn_id (f r) = id) by (unfold rn_id; rewrite (ru_identity _ _ U); exact Hk).
  assert (N1 : NoDup (map rn_id (rd_runs d1))).
  { subst d1. by apply (ev_keys _ _ _ _ (update_evolves p f (rd_runs d) U)). }
  assert (L : ∀ x, In x (rd_runs d2) → rn_id x = id → run_evolves (f r) x).
  { intros x Hx Hk2. eapply (evolves_row rn_id run_evolves); [exact Ev|done..|congruence]. }
  pose proof (ru_version _ _ U r) as Hvf. split.
  - intros now' clock' fence' b w d3 H. apply write_run_Ret in H as [(p' & f' & x & _ & _ & Hx & _ & Hkx & Hvx & _)|[-> ?]]; [|done].
    exfalso. destruct (L x Hx Hkx) as [->|(_ & V & _)]; lia.
  - intros s t tg c sm e ->. exists r. split_and!; [done..|]. intros x Hx Hkx. subst f.
    destruct (L x Hx Hkx) as [->|(A & _)]; [done|]. by destruct s.
Qed.

(** ** A table with a stale run *)

Definition desk_fence : SchedulerFence :=
  {| fence_job_name := "research"; fence_workstream := RESEARCH; fence_owner_id := "worker"; fence_run_id := "lease-run";
     fence_token := "7" |}.

Definition desk_lease : SchedulerLeaseRow :=
  {| lease_job_name := "research"; lease_workstream := RESEARCH; lease_owner_id := "worker"; lease_run_id := "lease-run";
     lease_fencing_token := 7; lease_status := held; lease_acquired_at := 400; lease_heartbeat_at := 450;
     lease_expires_at := 2000; lease_released_at := None; lease_release_reason := None; lease_version := 3 |}.

Definition desk_input (id : string) (at_ limit : Z) : ReserveInput :=
  {| rs_runId := id; rs_startedAt := at_; rs_staleBefore := limit; rs_recoveryReason := "stale";
     rs_recoverySource := "research"; rs_riskProfile := "moderate"; rs_optionsEnabled := false; rs_config := "null";
     rs_workerIdentity := "worker"; rs_requestId := None; rs_correlationId := None |}.

(** A run of an earlier lease whose heartbeats stopped at 100. *)
Definition desk : ResearchDb :=
  {| rd_leases := [desk_lease]; rd_runs := [new_run desk_fence (desk_input "run-1" 100 0)] |}.

Lemma desk_wf : research_wf desk.
Proof.
  split; [apply NoDup_singleton|]. by intros r s [<-|[]] [<-|[]].
Qed.

Definition desk_reserved : {w & {d | reserve 500 500 desk_fence (desk_input "run-2" 500 300) desk = Ret (w, d)}} :=
  ltac:(eexists; eexists; vm_compute; reflexivity).
Definition desk_now : ResearchDb := proj1_sig (projT2 desk_reserved).

Definition desk_finished :
    {w & {d | write_run 600 600 desk_fence "run-2" 1 (Finish finish_completed 600 3 2 "null" None) desk_now = Ret (w, d)}} :=
  ltac:(eexists; eexists; vm_compute; reflexivity).
Definition desk_then : ResearchDb := proj1_sig (projT2 desk_finished).


Lemma research_reservation_witness :
  projT1 desk_reserved = Reserved "run-2" 1 ∧
  reservation_meaning 500 desk_fence (desk_input "run-2" 500 300) desk desk_now (projT1 desk_reserved).
Proof.
  split; [reflexivity|]. exact (research_reservation _ _ _ _ _ _ _ (proj2_sig (projT2 desk_reserved))).
Defined.

Lemma research_version_written_once_witness :
  projT1 desk_finished = WriteUpdated 2 ∧
  ∃ r, In r (rd_runs desk_now) ∧ ∀ x, In x (rd_runs desk_then) → rn_id x = "run-2" →
       x = finished_row finish_completed 600 3 2 "null" None r.
Proof.
  split; [reflexivity|].
  assert (W : research_wf desk_now) by (eapply reserve_cases; [exact (proj2_sig (projT2 desk_reserved))|exact desk_wf]).
  destruct (research_version_written_once 600 600 desk_fence "run-2" 1 (Finish finish_completed 600 3 2 "null" None)
              desk_now 2 desk_then desk_then W (proj2_sig (projT2 desk_finished)) (rtc_refl _ _)) as (_ & _ & H).
  destruct (H _ _ _ _ _ _ eq_refl) as (r & Hr & _ & Hx). exact (ex_intro _ r (conj Hr Hx)).
Defined.
