(* ===== verification/WorkstreamEvents.v ===== *)
(** Events between workstreams:
    src/repositories/postgres/postgresWorkstreamEventRepository.ts with its contract
    workstreamEventRepository.ts, over the tables workstream_events and
    workstream_event_failures of migrations 001 and 002.

    An event is appended once, claimed for processing when the projection of its
    entity has the expected version, and completed or failed at the version that the
    claim returned.  [completed_events_stay_completed] is about the histories of
    workers that keep to this.  WorkerState.v has a table of its own for the events
    that the worker log writes, with the columns it uses.  A time stamp is printed by toISOString, so that comparing the
    texts compares the milliseconds; parsing the jsonb columns is the identity. *)
From S2P Require Import Prelude.
From S2P Require Import JsString.
From S2P Require Import SchedulerLease.
From S2P Require Import ExecutionTables.
From S2P Require Import JsJson.
From S2P Require Import CanonicalJson.
From S2P Require Import ControlTables.
From S2P Require Import ResearchRuns.

Open Scope Z_scope.

(** ** The tables *)

Inductive WorkstreamEventStatus : Set :=
| event_received | event_processing | event_completed | event_deferred | event_failed | event_dead_letter.
#[export] Instance WorkstreamEventStatus_eq_dec : EqDecision WorkstreamEventStatus.
Proof. solve_decision. Defined.

Record WorkstreamEvent := {
  we_eventId : string;
  we_workstream : string;
  we_eventType : string;
  we_entityType : string;
  we_entityId : string;
  we_occurredAt : Z;
  we_producedAt : Z;
  we_schemaVersion : Z;
  we_runId : option string;
  we_requestId : option string;
  we_correlationId : option string;
  we_entityVersion : option Z;
  we_payload : jvalue
}.

(** A row: the columns that no method updates, and the state of the processing. *)
Record WorkstreamEventRow := {
  ev_event : WorkstreamEvent;
  ev_payload_fingerprint : string;
  ev_created_at : Z;
  ev_processing_status : WorkstreamEventStatus;
  ev_processing_started_at : option Z;
  ev_processed_at : option Z;
  ev_attempts : Z;
  ev_projection_version : option Z;
  ev_version : Z;
  ev_updated_at : Z
}.

Definition ev_id (r : WorkstreamEventRow) : string := we_eventId (ev_event r).

Record EventFailureRow := {
  ef_id : string;
  ef_event_id : string;
  ef_attempt_number : Z;
  ef_error_classification : string;
  ef_error_code : option string;
  ef_redacted_error_message : string;
  ef_retryable : bool;
  ef_failed_at : Z;
  ef_next_retry_at : option Z;
  ef_dead_lettered_at : option Z;
  ef_details : jvalue
}.

Definition has_status (s : WorkstreamEventStatus) (r : WorkstreamEventRow) : bool := bool_decide (ev_processing_status r = s).

(** [t IS NULL OR start IS NULL OR t >= start] *)
Definition after_start (t start : option Z) : bool := match start with Some s => not_before t s | None => true end.

(** The CHECK constraints of workstream_events. *)
Definition event_checks (r : WorkstreamEventRow) : bool :=
  let e := ev_event r in
  btrim_nonempty (we_eventId e) && btrim_nonempty (we_workstream e) && btrim_nonempty (we_eventType e)
  && btrim_nonempty (we_entityType e) && btrim_nonempty (we_entityId e) && (0 <? we_schemaVersion e)
  && match we_entityVersion e with Some n => 0 <=? n | None => true end
  && btrim_nonempty (ev_payload_fingerprint r) && (we_occurredAt e <=? we_producedAt e)
  && (negb (has_status event_completed r) || bool_decide (is_Some (ev_processed_at r)))
  && match ev_projection_version r with Some n => 0 <? n | None => true end
  && (0 <? ev_version r) && (ev_created_at r <=? ev_updated_at r) && (0 <=? ev_attempts r)
  && not_before (ev_processing_started_at r) (we_producedAt e)
  && (negb (has_status event_processing r) || bool_decide (is_Some (ev_processing_started_at r)))
  && after_start (ev_processed_at r) (ev_processing_started_at r).

(** The unique keys: the id, and (workstream, source_sequence) where there is one. *)
Definition same_event_id (a b : WorkstreamEventRow) : bool := (ev_id a =? ev_id b)%string.
Definition event_conflicts (a b : WorkstreamEventRow) : bool :=
  same_event_id a b
  || ((we_workstream (ev_event a) =? we_workstream (ev_event b))%string
      && match we_entityVersion (ev_event a), we_entityVersion (ev_event b) with
         | Some n, Some m => n =? m
         | _, _ => false
         end).

(** The constraints and keys of workstream_event_failures. *)
Definition failure_checks (r : EventFailureRow) : bool :=
  btrim_nonempty (ef_id r) && (0 <? ef_attempt_number r) && btrim_nonempty (ef_error_classification r)
  && btrim_nonempty (ef_redacted_error_message r)
  && ((ef_retryable r && negb (bool_decide (is_Some (ef_dead_lettered_at r)))) || negb (ef_retryable r))
  && not_before (ef_next_retry_at r) (ef_failed_at r) && not_before (ef_dead_lettered_at r) (ef_failed_at r).

Definition same_attempt (a b : EventFailureRow) : bool :=
  (ef_event_id a =? ef_event_id b)%string && (ef_attempt_number a =? ef_attempt_number b).
Definition failure_conflicts (a b : EventFailureRow) : bool := (ef_id a =? ef_id b)%string || same_attempt a b.

Record WorkstreamDb := {
  wd_leases : list SchedulerLeaseRow;
  wd_events : list WorkstreamEventRow;
  wd_failures : list EventFailureRow
}.
#[export] Instance WorkstreamDb_HasLeases : HasLeases WorkstreamDb := wd_leases.

Definition set_wd_events (t : list WorkstreamEventRow) (d : WorkstreamDb) : WorkstreamDb :=
  {| wd_leases := wd_leases d; wd_events := t; wd_failures := wd_failures d |}.
Definition set_wd_failures (t : list EventFailureRow) (d : WorkstreamDb) : WorkstreamDb :=
  {| wd_leases := wd_leases d; wd_events := wd_events d; wd_failures := t |}.

#[export, refine] Instance WorkstreamDb_events : TableOf WorkstreamDb WorkstreamEventRow :=
  {| rows_of := wd_events; set_rows := set_wd_events |}.
Proof. - done. - by intros []. - done. Defined.
#[export, refine] Instance WorkstreamDb_failures : TableOf WorkstreamDb EventFailureRow :=
  {| rows_of := wd_failures; set_rows := set_wd_failures |}.
Proof. - done. - by intros []. - done. Defined.

Definition is_event (id : string) (r : WorkstreamEventRow) : bool := has_id ev_id id r.

(** ** Appending *)

Definition event_conflict_row_missing : string := "POSTGRES_WORKSTREAM_EVENT_CONFLICT_ROW_MISSING".
Definition event_id_conflict : string := "POSTGRES_WORKSTREAM_EVENT_ID_CONFLICT".

Inductive AppendResult : Type :=
| AppendInserted (record : WorkstreamEventRow)
| AppendDuplicate (record : WorkstreamEventRow).

(** The request a repository is called for. *)
Record OperationContext := { cx_requestId : option string; cx_correlationId : option string }.

(** [event.requestId ?? context.requestId ?? null] and the same for the correlation. *)
Definition or_context (own context : option string) : option string :=
  match own with Some s => Some s | None => context end.

Definition in_context (cx : OperationContext) (e : WorkstreamEvent) : WorkstreamEvent :=
  {| we_eventId := we_eventId e; we_workstream := we_workstream e; we_eventType := we_eventType e;
     we_entityType := we_entityType e; we_entityId := we_entityId e; we_occurredAt := we_occurredAt e;
     we_producedAt := we_producedAt e; we_schemaVersion := we_schemaVersion e; we_runId := we_runId e;
     we_requestId := or_context (we_requestId e) (cx_requestId cx);
     we_correlationId := or_context (we_correlationId e) (cx_correlationId cx);
     we_entityVersion := we_entityVersion e; we_payload := we_payload e |}.

Section events.
Context (le : string → string → bool) (sha256 : string → string).

Definition find (eventId : string) : tx WorkstreamDb (option WorkstreamEventRow) := find_row (is_event eventId).

Definition new_event (now : Z) (cx : OperationContext) (e : WorkstreamEvent) : WorkstreamEventRow :=
  {| ev_event := in_context cx e; ev_payload_fingerprint := canonicalJsonHash le sha256 (we_payload e);
     ev_created_at := now; ev_processing_status := event_received; ev_processing_started_at := None;
     ev_processed_at := None; ev_attempts := 0; ev_projection_version := None; ev_version := 1; ev_updated_at := now |}.

(** The comparison of a stored event with the one that is appended again. *)
Definition same_event (stored e : WorkstreamEvent) : bool :=
  (we_workstream stored =? we_workstream e)%string && (we_eventType stored =? we_eventType e)%string
  && (we_entityType stored =? we_entityType e)%string && (we_entityId stored =? we_entityId e)%string
  && (we_occurredAt stored =? we_occurredAt e) && (we_producedAt stored =? we_producedAt e)
  && (we_schemaVersion stored =? we_schemaVersion e) && bool_decide (we_runId stored = we_runId e)
  && bool_decide (we_requestId stored = we_requestId e) && bool_decide (we_correlationId stored = we_correlationId e)
  && bool_decide (we_entityVersion stored = we_entityVersion e)
  && (canonicalJsonHash le sha256 (we_payload stored) =? canonicalJsonHash le sha256 (we_payload e))%string.

Definition append (now : Z) (cx : OperationContext) (e : WorkstreamEvent) : tx WorkstreamDb AppendResult :=
  inserted ← insert_new same_event_id event_conflicts event_checks (new_event now cx e);
  if inserted : bool then mret (AppendInserted (new_event now cx e))
  else
    existing ← find (we_eventId e);
    match existing with
    | None => throw event_conflict_row_missing
    | Some r => if same_event (ev_event r) (in_context cx e) then mret (AppendDuplicate r) else throw event_id_conflict
    end.

(** ** Claiming *)

Inductive ClaimResult : Type :=
| Claimed (record : WorkstreamEventRow)
| AlreadyCompleted (record : WorkstreamEventRow)
| AlreadyProcessing (record : WorkstreamEventRow)
| OutOfOrder (currentEntityVersion : option Z)
| ClaimNotFound
| ClaimFenceRejected (currentFencingToken : option string).

(** [MAX] over a nullable column. *)
Definition sql_max (l : list (option Z)) : option Z :=
  foldr (λ x m, match x, m with
                | Some a, Some b => Some (Z.max a b)
                | Some a, None => Some a
                | None, _ => m
                end) None l.

(** The version to which an entity is projected: [SELECT MAX(source_sequence) ...
    WHERE entity_type = $1 AND entity_id = $2 AND processing_status = 'completed']. *)
Definition of_entity (entityType entityId : string) (r : WorkstreamEventRow) : bool :=
  (we_entityType (ev_event r) =? entityType)%string && (we_entityId (ev_event r) =? entityId)%string
  && has_status event_completed r.
Definition projected_version (entityType entityId : string) (t : list WorkstreamEventRow) : option Z :=
  sql_max (map (λ r, we_entityVersion (ev_event r)) (List.filter (of_entity entityType entityId) t)).

Definition claimed_row (startedAt : Z) (r : WorkstreamEventRow) : WorkstreamEventRow :=
  {| ev_event := ev_event r; ev_payload_fingerprint := ev_payload_fingerprint r; ev_created_at := ev_created_at r;
     ev_processing_status := event_processing; ev_processing_started_at := Some startedAt;
     ev_processed_at := ev_processed_at r; ev_attempts := ev_attempts r + 1;
     ev_projection_version := ev_projection_version r; ev_version := ev_version r + 1; ev_updated_at := startedAt |}.

(** [record.status === "processing" && started !== null && started > staleBefore] *)
Definition processed_by_other (staleBefore : Z) (r : WorkstreamEventRow) : bool :=
  has_status event_processing r
  && match ev_processing_started_at r with Some t => staleBefore <? t | None => false end.

Definition claimForProcessing (now clock : Z) (fence : SchedulerFence) (eventId : string) (expectedEntityVersion : option Z)
    (processingStartedAt processingStaleBefore : Z) : tx WorkstreamDb ClaimResult :=
  verdict ← requireCurrentFence now clock fence;
  if negb (fence_accepted verdict) then mret (ClaimFenceRejected (rejected_token verdict))
  else
    selected ← find eventId;
    match selected with
    | None => mret ClaimNotFound
    | Some r =>
        if has_status event_completed r then mret (AlreadyCompleted r)
        else if processed_by_other processingStaleBefore r then mret (AlreadyProcessing r)
        else
          currentVersion ← gets (λ d, projected_version (we_entityType (ev_event r)) (we_entityId (ev_event r)) (wd_events d));
          if bool_decide (currentVersion ≠ expectedEntityVersion) then mret (OutOfOrder currentVersion)
          else
            updated ← (λ d, update_returning event_checks (λ r, is_event eventId r && fence_holds now fence d)
                              (claimed_row processingStartedAt) d);
            match updated with
            | Some r' => mret (Claimed r')
            | None => token ← currentFenceToken now fence; mret (ClaimFenceRejected token)
            end
    end.

(** ** Completing and failing *)

(** [COALESCE(source_sequence, projection_version, 1)] *)
Definition projection_of (r : WorkstreamEventRow) : Z :=
  match we_entityVersion (ev_event r) with Some n => n | None => default 1 (ev_projection_version r) end.

Definition completed_row (processedAt : Z) (r : WorkstreamEventRow) : WorkstreamEventRow :=
  {| ev_event := ev_event r; ev_payload_fingerprint := ev_payload_fingerprint r; ev_created_at := ev_created_at r;
     ev_processing_status := event_completed; ev_processing_started_at := ev_processing_started_at r;
     ev_processed_at := Some processedAt; ev_attempts := ev_attempts r;
     ev_projection_version := Some (projection_of r); ev_version := ev_version r + 1; ev_updated_at := processedAt |}.

Definition markCompleted (now clock : Z) (fence : SchedulerFence) (eventId : string) (expectedVersion processedAt : Z)
    : tx WorkstreamDb VersionedWriteResult :=
  versioned_write ev_id ev_version now clock fence eventId expectedVersion (has_status event_processing) event_checks
    (completed_row processedAt) (mutation_miss ev_id ev_version now fence eventId expectedVersion).

Record EventFailure := {
  fl_failureId : string;
  fl_attempt : Z;
  fl_errorCode : string;
  fl_errorClassification : string;
  fl_redactedErrorMessage : string;
  fl_retryable : bool;
  fl_failedAt : Z;
  fl_nextRetryAt : option Z;
  fl_deadLetteredAt : option Z;
  fl_details : option jvalue
}.

Definition failed_status (f : EventFailure) : WorkstreamEventStatus :=
  match fl_deadLetteredAt f with Some _ => event_dead_letter | None => event_failed end.

Definition failed_row (f : EventFailure) (r : WorkstreamEventRow) : WorkstreamEventRow :=
  {| ev_event := ev_event r; ev_payload_fingerprint := ev_payload_fingerprint r; ev_created_at := ev_created_at r;
     ev_processing_status := failed_status f; ev_processing_started_at := ev_processing_started_at r;
     ev_processed_at := ev_processed_at r; ev_attempts := ev_attempts r;
     ev_projection_version := ev_projection_version r; ev_version := ev_version r + 1; ev_updated_at := fl_failedAt f |}.

Definition not_null_violation : string := "23502".

(** The INSERT of the failure: the column details is NOT NULL. *)
Definition insert_failure (eventId : string) (f : EventFailure) : tx WorkstreamDb bool :=
  match fl_details f with
  | None => throw not_null_violation
  | Some details =>
      insert_new same_attempt failure_conflicts failure_checks
        {| ef_id := fl_failureId f; ef_event_id := eventId; ef_attempt_number := fl_attempt f;
           ef_error_classification := fl_errorClassification f; ef_error_code := Some (fl_errorCode f);
           ef_redacted_error_message := fl_redactedErrorMessage f; ef_retryable := fl_retryable f;
           ef_failed_at := fl_failedAt f; ef_next_retry_at := fl_nextRetryAt f;
           ef_dead_lettered_at := fl_deadLetteredAt f; ef_details := details |}
  end.

(** Every row may be marked as failed. *)
Definition any_event (_ : WorkstreamEventRow) : bool := true.

Definition markFailed (now clock : Z) (fence : SchedulerFence) (eventId : string) (expectedVersion : Z) (f : EventFailure)
    : tx WorkstreamDb VersionedWriteResult :=
  written ← versioned_write ev_id ev_version now clock fence eventId expectedVersion any_event event_checks (failed_row f)
              (mutation_miss ev_id ev_version now fence eventId expectedVersion);
  match written with
  | WriteUpdated version => _ ← insert_failure eventId f; mret (WriteUpdated version)
  | miss => mret miss
  end.

(** ** Reading *)

(** What waits to be processed: [... ORDER BY produced_at, event_id LIMIT $2]. *)
Definition pending_event (workstream : string) (staleBefore : Z) (r : WorkstreamEventRow) : bool :=
  (we_workstream (ev_event r) =? workstream)%string
  && (bool_decide (ev_processing_status r ∈ [event_received; event_deferred; event_failed])
      || (has_status event_processing r
          && match ev_processing_started_at r with Some t => t <=? staleBefore | None => true end)).

Definition produced_before (a b : WorkstreamEventRow) : bool :=
  (we_producedAt (ev_event a) <? we_producedAt (ev_event b))
  || ((we_producedAt (ev_event a) =? we_producedAt (ev_event b)) && le (ev_id a) (ev_id b)).

Definition listPending (workstream : string) (limit : nat) (staleBefore : Z) : tx WorkstreamDb (list WorkstreamEventRow) :=
  gets (λ d, take limit (sort_by produced_before (List.filter (pending_event workstream staleBefore) (wd_events d)))).

(** A failure as it is read back. *)
Definition mapFailure (r : EventFailureRow) : EventFailure :=
  {| fl_failureId := ef_id r; fl_attempt := ef_attempt_number r;
     fl_errorCode := default "WORKSTREAM_EVENT_FAILED" (present (ef_error_code r));
     fl_errorClassification := ef_error_classification r; fl_redactedErrorMessage := ef_redacted_error_message r;
     fl_retryable := ef_retryable r; fl_failedAt := ef_failed_at r; fl_nextRetryAt := ef_next_retry_at r;
     fl_deadLetteredAt := ef_dead_lettered_at r; fl_details := Some (ef_details r) |}.

Definition earlier_attempt (a b : EventFailureRow) : bool := ef_attempt_number a <=? ef_attempt_number b.

Definition listFailures (eventId : string) : tx WorkstreamDb (list EventFailure) :=
  gets (λ d, map mapFailure (sort_by earlier_attempt
                               (List.filter (λ r, (ef_event_id r =? eventId)%string) (wd_failures d)))).
End events.

(** ** Histories

    A worker reports a failure at the version that its claim returned: [claims] are
    the claims so far.  Leases change by themselves. *)

Definition claims : Type := list (string * Z).

Section histories.
Context (le : string → string → bool) (sha256 : string → string).

Inductive event_step (d : WorkstreamDb) (c : claims) : WorkstreamDb → claims → Prop :=
| event_lease ls : event_step d c {| wd_leases := ls; wd_events := wd_events d; wd_failures := wd_failures d |} c
| event_append now cx e w d' : append le sha256 now cx e d = Ret (w, d') → event_step d c d' c
| event_claim now clock fence id expected t stale w d' :
    claimForProcessing now clock fence id expected t stale d = Ret (w, d') →
    event_step d c d' (match w with Claimed r => (ev_id r, ev_version r) :: c | _ => c end)
| event_complete now clock fence id v t w d' :
    markCompleted now clock fence id v t d = Ret (w, d') → event_step d c d' c
| event_fail now clock fence id v f w d' :
    In (id, v) c → markFailed now clock fence id v f d = Ret (w, d') → event_step d c d' c.

Definition event_history : relation (WorkstreamDb * claims) :=
  rtc (λ s s', event_step (fst s) (snd s) (fst s') (snd s')).

(** What can become of an event: nothing, or a later version of one that is not
    completed. *)
Definition event_evolves (r r' : WorkstreamEventRow) : Prop :=
  r' = r ∨ (has_status event_completed r = false ∧ ev_version r < ev_version r' ∧ ev_event r' = ev_event r).

#[export] Instance event_evolves_preorder : PreOrder event_evolves.
Proof.
  split; [by left|]. intros r1 r2 r3 [->|(A & V & I)] [->|(A' & V' & I')]; [by left|by right|by right|].
  right. split_and!; [done|lia|congruence].
Qed.

Local Abbreviation events_evolve := (evolves ev_id event_evolves).

(** The ids are unique, and a row that still has the version of a claim is being
    processed. *)
Definition claim_live (t : list WorkstreamEventRow) (claim : string * Z) : Prop :=
  ∃ r, In r t ∧ ev_id r = fst claim ∧ snd claim <= ev_version r ∧
       (ev_version r = snd claim → has_status event_processing r = true).

Definition events_wf (d : WorkstreamDb) (c : claims) : Prop :=
  NoDup (map ev_id (wd_events d)) ∧ Forall (claim_live (wd_events d)) c.

(** ** One update *)

(** An update of a row that is not completed, counting the version on. *)
Record event_update (p : WorkstreamEventRow → bool) (f : WorkstreamEventRow → WorkstreamEventRow) (t : list WorkstreamEventRow)
    : Prop := {
  eu_open : ∀ r, In r t → p r = true → has_status event_completed r = false;
  eu_version : ∀ r, ev_version (f r) = ev_version r + 1;
  eu_event : ∀ r, ev_event (f r) = ev_event r
}.

Lemma event_update_evolves p f t : event_update p f t → events_evolve t (update_where p f t).
Proof.
  intros [A V I]. apply evolves_where; [apply _|]. intros r Hr Hp. unfold ev_id. rewrite I. split; [done|].
  right. rewrite V, (A r Hr Hp), I. split_and!; [done|lia|done].
Qed.

Lemma claim_live_update p f t claim :
  event_update p f t → claim_live t claim → claim_live (update_where p f t) claim.
Proof.
  intros [A V I] (r & Hr & Hi & Hv & Hs). unfold update_where. destruct (p r) eqn:Hp.
  - exists (f r). rewrite V. unfold ev_id in *. rewrite I. split_and!; [|done|lia|lia].
    apply in_map_iff. exists r. by rewrite Hp.
  - exists r. split_and!; [|done..]. apply in_map_iff. exists r. by rewrite Hp.
Qed.

Lemma event_update_wf p f d c d' :
  event_update p f (wd_events d) → wd_events d' = update_where p f (wd_events d) → events_wf d c → events_wf d' c.
Proof.
  unfold events_wf. intros H -> [N L]. split.
  - by apply (ev_keys _ _ _ _ (event_update_evolves _ _ _ H)).
  - eapply Forall_impl; [exact L|]. intros claim Hc. by apply claim_live_update.
Qed.

(** The rows that a claim, a completion and a failure update. *)
Lemma claimed_update now fence id t d r :
  NoDup (map ev_id (wd_events d)) → In r (wd_events d) → ev_id r = id → has_status event_completed r = false →
  event_update (λ r, is_event id r && fence_holds now fence d) (claimed_row t) (wd_events d).
Proof.
  intros N Hr Hi Hs. split; [|done..]. intros x Hx [Hx'%String.eqb_eq _]%andb_true_iff.
  by rewrite (unique_key ev_id (wd_events d) x r) by congruence.
Qed.

Lemma completed_update now fence id v t d :
  event_update (versioned_row ev_id ev_version now fence id v (has_status event_processing) d) (completed_row t) (wd_events d).
Proof.
  split; [|done..]. intros r _. unfold versioned_row, has_status.
  rewrite !andb_true_iff, !bool_decide_eq_true, bool_decide_eq_false. intros [[_ ->] _]. done.
Qed.

Lemma failed_update now fence id v f d c :
  events_wf d c → In (id, v) c →
  event_update (versioned_row ev_id ev_version now fence id v any_event d) (failed_row f) (wd_events d).
Proof.
  intros [N L] Hc. split; [|done..]. intros r Hr. unfold versioned_row, has_id.
  rewrite !andb_true_iff, String.eqb_eq, Z.eqb_eq. intros [[[Hi Hv] _] _].
  apply List.Forall_forall with (x := (id, v)) in L as (x & Hx & Hxi & _ & Hs); [|done]. cbn [fst snd] in *.
  assert (x = r) as -> by (apply (unique_key ev_id (wd_events d)); [done..|congruence]).
  specialize (Hs Hv). unfold has_status in *. apply bool_decide_eq_true in Hs. by rewrite Hs.
Qed.

(** ** The methods *)

(** A guard that does not depend on the row. *)
Lemma select_one_guard {R} (p : R → bool) (b : bool) t r : select_one (λ x, p x && b) t = Some r → select_one p t = Some r.
Proof.
  destruct b; [|by intros [_ [_ [=]]%andb_true_iff]%select_one_Some].
  induction t as [|x t IH]; cbn; [done|]. rewrite andb_true_r. by destruct (p x).
Qed.

Lemma event_append_Ret now cx e d w d' :
  append le sha256 now cx e d = Ret (w, d') →
  (w = AppendInserted (new_event le sha256 now cx e) ∧ d' = set_wd_events (wd_events d ++ [new_event le sha256 now cx e]) d ∧
   existsb (λ x, (ev_id x =? we_eventId e)%string) (wd_events d) = false) ∨
  (d' = d ∧ ∃ r, w = AppendDuplicate r ∧ In r (wd_events d) ∧ ev_id r = we_eventId e ∧
     same_event le sha256 (ev_event r) (in_context cx e) = true).
Proof.
  unfold append. intros H. tx_step H as b d1 E. apply insert_new_Ret in E. destruct b.
  - destruct E as (Hno & _ & _ & ->). injection H as <- <-. left. split_and!; [done..|].
    rewrite <-Hno. clear. change (rows_of d) with (wd_events d). induction (wd_events d) as [|x t IH]; cbn [existsb]; [done|].
    f_equal; [apply String.eqb_sym|exact IH].
  - destruct E as [_ ->]. right. tx_step H as o d2 E. apply find_row_Ret in E as [-> ->].
    destruct (select_one _ _) as [r|] eqn:Es; [|done]. apply select_one_Some in Es as [Hr Hi%String.eqb_eq].
    destruct (same_event _ _ _ _) eqn:Ec; [|done]. injection H as <- <-. split; [done|]. by exists r.
Qed.

(** What a claim means: the event was open, no other worker is processing it, and
    the projection of its entity has the expected version; it is written with one
    more attempt.  Any other answer writes nothing. *)
Definition claim_meaning (id : string) (expected : option Z) (t stale : Z) (d d' : WorkstreamDb) (r' : WorkstreamEventRow)
    : Prop :=
  ∃ r p, r' = claimed_row t r ∧ In r (wd_events d) ∧ ev_id r = id ∧ p r = true ∧
    has_status event_completed r = false ∧ processed_by_other stale r = false ∧
    projected_version (we_entityType (ev_event r)) (we_entityId (ev_event r)) (wd_events d) = expected ∧
    event_checks r' = true ∧ d' = set_wd_events (update_where p (claimed_row t) (wd_events d)) d ∧
    (NoDup (map ev_id (wd_events d)) → event_update p (claimed_row t) (wd_events d)).

Lemma event_claim_Ret now clock fence id expected t stale d w d' :
  claimForProcessing now clock fence id expected t stale d = Ret (w, d') →
  match w with
  | Claimed r' => fence_holds now fence d = true ∧ claim_meaning id expected t stale d d' r'
  | _ => d' = d
  end.
Proof.
  unfold claimForProcessing, requireCurrentFence. intros H. tx_step H as verdict d1 E. injection E as <- <-.
  destruct (fence_accepted _) eqn:Ef; cbn [negb] in H; [|by injection H as <- <-].
  tx_step H as o d1 E. apply find_row_Ret in E as [-> ->].
  destruct (select_one _ _) as [r|] eqn:Es; [|by injection H as <- <-].
  pose proof Es as Es'. apply select_one_Some in Es as [Hr Hi%String.eqb_eq].
  destruct (has_status event_completed r) eqn:Hc; [by injection H as <- <-|].
  destruct (processed_by_other stale r) eqn:Hp; [by injection H as <- <-|].
  tx_step H as cv d1 E. injection E as <- <-.
  case_bool_decide as Hv; [by injection H as <- <-|].
  tx_step H as o d1 E. apply returning_Ret in E. destruct o as [x|].
  - destruct E as (y & Hy & -> & Hok & ->). injection H as <- <-.
    pose proof (accepted_fence_holds _ _ _ _ Ef) as Hf. split; [done|].
    assert (y = r) as ->.
    { apply select_one_guard in Hy. pose proof (eq_trans (eq_sym Hy) Es') as Ey. by injection Ey. }
    exists r, (λ r, is_event id r && fence_holds now fence d). split_and!; try done.
    + by apply select_one_Some in Hy as [_ Hy].
    + intros N. by eapply claimed_update.
  - destruct E as [_ ->]. tx_step H as token d1 E. injection E as <- <-. by injection H as <- <-.
Qed.

Lemma mark_completed_Ret now clock fence id v t d w d' :
  markCompleted now clock fence id v t d = Ret (w, d') →
  (w = WriteUpdated (v + 1) ∧ ∃ r p, In r (wd_events d) ∧ ev_id r = id ∧ ev_version r = v ∧ p r = true ∧
     has_status event_processing r = true ∧ event_checks (completed_row t r) = true ∧
     d' = set_wd_events (update_where p (completed_row t) (wd_events d)) d ∧
     event_update p (completed_row t) (wd_events d)) ∨
  (d' = d ∧ ∀ u, w ≠ WriteUpdated u).
Proof.
  intros H. apply versioned_write_Ret in H; [|auto with tx|intros x y z u Hm; by eapply (mutation_miss_not_updated ev_id ev_version)].
  destruct H as [(u & -> & _ & r & Hs & Hk & Hv & Hp & -> & Hok & ->)|]; [left|by right].
  apply select_one_Some in Hs as [Hin Hs]. split; [by rewrite <-Hv|].
  exists r, (versioned_row ev_id ev_version now fence id v (has_status event_processing) d).
  split_and!; try done. apply completed_update.
Qed.

Lemma store_failure_Ret id f d b d' :
  insert_failure id f d = Ret (b, d') → is_Some (fl_details f) ∧ wd_events d' = wd_events d ∧ wd_leases d' = wd_leases d.
Proof.
  unfold insert_failure. destruct (fl_details f) as [x|]; [|done]. intros H. apply insert_new_Ret in H.
  destruct b; [destruct H as (_ & _ & _ & ->)|destruct H as [_ ->]]; done.
Qed.

Lemma mark_failed_Ret now clock fence id v f d w d' :
  markFailed now clock fence id v f d = Ret (w, d') →
  (w = WriteUpdated (v + 1) ∧ is_Some (fl_details f) ∧
   ∃ r p, In r (wd_events d) ∧ ev_id r = id ∧ ev_version r = v ∧ p r = true ∧
     wd_events d' = update_where p (failed_row f) (wd_events d) ∧
     (∀ c, events_wf d c → In (id, v) c → event_update p (failed_row f) (wd_events d))) ∨
  (d' = d ∧ ∀ u, w ≠ WriteUpdated u).
Proof.
  unfold markFailed. intros H. tx_step H as u d1 E.
  apply versioned_write_Ret in E; [|auto with tx|intros x y z q Hm; by eapply (mutation_miss_not_updated ev_id ev_version)].
  destruct E as [(q & -> & _ & r & Hs & Hk & Hv & Hp & -> & Hok & ->)|[-> Hu]].
  - tx_step H as b d2 E. apply store_failure_Ret in E as (Hd & He & _). injection H as <- <-.
    apply select_one_Some in Hs as [Hin Hs]. left. split; [by rewrite <-Hv|]. split; [done|].
    exists r, (versioned_row ev_id ev_version now fence id v any_event d). split_and!; try done.
    intros c W Hc. by eapply failed_update.
  - right. destruct u; [by destruct (Hu version)|..]; by injection H as <- <-.
Qed.

Lemma append_event_evolves now cx e d w d' :
  append le sha256 now cx e d = Ret (w, d') → events_evolve (wd_events d) (wd_events d').
Proof.
  intros H. apply event_append_Ret in H as [(_ & -> & Hno)|[-> _]]; [|done]. by apply evolves_append; [apply _|].
Qed.

Lemma claim_live_evolves t t' claim :
  events_evolve t t' → (∀ r, In r t → In r t') → claim_live t claim → claim_live t' claim.
Proof. intros E H (r & Hr & ?). exists r. split; [by apply H|done]. Qed.

(** ** Histories of events *)

Lemma event_step_evolves d c d' c' :
  event_step d c d' c' → events_wf d c → events_evolve (wd_events d) (wd_events d') ∧ events_wf d' c'.
Proof.
  intros [ls|now cx e w d1 H|now clock fence id x t stale w d1 H|now clock fence id v t w d1 H|now clock fence id v f w d1 Hc H] W.
  - done.
  - pose proof (append_event_evolves _ _ _ _ _ _ H) as E. split; [done|]. destruct W as [N L].
    split; [by apply (ev_keys _ _ _ _ E)|]. eapply Forall_impl; [exact L|]. intros claim. apply claim_live_evolves; [done|].
    apply event_append_Ret in H as [(_ & -> & _)|[-> _]]; [|done]. intros r Hr. apply in_or_app. by left.
  - apply event_claim_Ret in H. destruct w as [r'|r'|r'|cv| |tok]; [|by subst..].
    destruct H as (_ & r & p & -> & Hr & Hi & Hp & _ & _ & _ & _ & -> & U). specialize (U (proj1 W)).
    split; [by apply event_update_evolves|].
    assert (events_wf (set_wd_events (update_where p (claimed_row t) (wd_events d)) d) c) as [N L]
      by by eapply event_update_wf.
    split; [done|]. constructor; [|done]. exists (claimed_row t r). split_and!; [|done|done|done].
    apply in_map_iff. exists r. by rewrite Hp.
  - apply mark_completed_Ret in H as [(_ & r & p & _ & _ & _ & _ & _ & _ & -> & U)|[-> _]]; [|done].
    split; [by apply event_update_evolves|by eapply event_update_wf].
  - apply mark_failed_Ret in H as [(_ & _ & r & p & _ & _ & _ & _ & E & U)|[-> _]]; [|done].
    specialize (U c W Hc). rewrite E. split; [by apply event_update_evolves|by eapply event_update_wf].
Qed.

Lemma event_history_evolves s s' :
  event_history s s' → events_wf (fst s) (snd s) →
  events_evolve (wd_events (fst s)) (wd_events (fst s')) ∧ events_wf (fst s') (snd s').
Proof.
  induction 1 as [|s s1 s2 H _ IH]; [done|]. intros W. apply event_step_evolves in H as [E W1]; [|done].
  destruct (IH W1) as [E2 W2]. split; [by etrans|done].
Qed.
(** ** Completed once *)

(** What is left of an event after its completion, for whoever asks: it cannot be
    claimed, completed or failed any more, and asking does not change the tables. *)
Record settled (id : string) (c : claims) (d : WorkstreamDb) : Prop := {
  st_claim : ∀ now clock fence expected t stale w d',
    claimForProcessing now clock fence id expected t stale d = Ret (w, d') → (∀ r, w ≠ Claimed r) ∧ d' = d;
  st_complete : ∀ now clock fence v t w d',
    markCompleted now clock fence id v t d = Ret (w, d') → (∀ u, w ≠ WriteUpdated u) ∧ d' = d;
  st_fail : ∀ now clock fence v f w d', In (id, v) c →
    markFailed now clock fence id v f d = Ret (w, d') → (∀ u, w ≠ WriteUpdated u) ∧ d' = d
}.

Lemma completed_settled id c d r :
  events_wf d c → In r (wd_events d) → ev_id r = id → has_status event_completed r = true → settled id c d.
Proof.
  intros W Hr Hi Hs. assert (U : ∀ x, In x (wd_events d) → ev_id x = id → x = r).
  { intros x Hx Hk. apply (unique_key ev_id (wd_events d)); [exact (proj1 W)|done..|congruence]. }
  split.
  - intros now clock fence expected t stale w d' H. apply event_claim_Ret in H.
    destruct w as [r'|r'|r'|cv| |tok]; [|by subst..].
    destruct H as (_ & x & p & _ & Hx & Hk & _ & Ho & _). rewrite (U x Hx Hk) in Ho. congruence.
  - intros now clock fence v t w d' H. apply mark_completed_Ret in H as [(_ & x & p & Hx & Hk & _ & _ & Ho & _)|[-> ?]]; [|done].
    rewrite (U x Hx Hk) in Ho. unfold has_status in Ho, Hs. apply bool_decide_eq_true in Ho, Hs. congruence.
  - intros now clock fence v f w d' Hc H. apply mark_failed_Ret in H as [(_ & _ & x & p & Hx & Hk & _ & Hp & _ & Hu)|[-> ?]]; [|done].
    specialize (Hu c W Hc). rewrite (U x Hx Hk) in Hp. pose proof (eu_open _ _ _ Hu r Hr Hp). congruence.
Qed.

(** C40: an event is completed at most once.  Take any history of producers, workers and
    leases in which a worker reports a failure only at a version that a claim of the
    event returned, and in it an answer [WriteUpdated] of [markCompleted] for an
    event.  The event was being processed, at the version given, with the time it is
    completed at not before it was started; in every later history the table shows it
    as that completion left it, no claim of it succeeds, and no completion and no
    failure of it is written, by whichever worker and under whichever fence. *)
Theorem completed_events_stay_completed d0 now clock fence id v t d c u d1 d2 c2 :
  NoDup (map ev_id (wd_events d0)) → event_history (d0, []) (d, c) →
  markCompleted now clock fence id v t d = Ret (WriteUpdated u, d1) → event_history (d1, c) (d2, c2) →
  ∃ r, In r (wd_events d) ∧ ev_id r = id ∧ ev_version r = v ∧ has_status event_processing r = true ∧
    (∀ s, ev_processing_started_at r = Some s → s <= t) ∧
    (∀ x, In x (wd_events d2) ∧ ev_id x = id ↔ x = completed_row t r) ∧ settled id c2 d2.
Proof.
  intros N0 H0 H H2. apply event_history_evolves in H0 as [_ W]; [|by split].
  pose proof (event_complete d c now clock fence id v t (WriteUpdated u) d1 H) as Hs.
  apply event_step_evolves in Hs as [_ W1]; [|done]. apply event_history_evolves in H2 as [E2 W2]; [|done].
  cbn [fst snd] in *. apply mark_completed_Ret in H as [(_ & r & p & Hr & Hi & Hv & Hp & Hst & Hok & -> & _)|[_ []%(λ h, h u)]]; [|done].
  exists r. assert (In (completed_row t r) (wd_events d2)) as Hin.
  { destruct (ev_rows _ _ _ _ E2 (completed_row t r)) as (x & Hx & _ & [->|[[=] _]]); [|done].
    apply in_map_iff. exists r. by rewrite Hp. }
  split_and!; try done.
  - intros s Es. unfold event_checks in Hok. rewrite !andb_true_iff in Hok. destruct Hok as [_ Hok].
    cbn in Hok. rewrite Es in Hok. by apply Z.leb_le.
  - intros x. split; [|intros ->; split; [done|exact Hi]]. intros [Hx Hk].
    apply (unique_key ev_id (wd_events d2)); [exact (proj1 W2)|done..|]. rewrite Hk. by rewrite <-Hi.
  - by apply (completed_settled id c2 d2 (completed_row t r)).
Qed.
End histories.

(** ** An event that is appended, claimed and completed *)

Definition desk_event : WorkstreamEvent :=
  {| we_eventId := "event-1"; we_workstream := RESEARCH; we_eventType := "candidate"; we_entityType := "candidate";
     we_entityId := "candidate-1"; we_occurredAt := 420; we_producedAt := 430; we_schemaVersion := 1; we_runId := None;
     we_requestId := None; we_correlationId := None; we_entityVersion := Some 1; we_payload := JNull |}.

Definition event_desk : WorkstreamDb := {| wd_leases := [desk_lease]; wd_events := []; wd_failures := [] |}.

Definition desk_appended :
    {w & {d | append String.leb (λ s, s) 440 {| cx_requestId := None; cx_correlationId := None |} desk_event event_desk
              = Ret (w, d)}} :=
  ltac:(eexists; eexists; vm_compute; reflexivity).

Definition desk_claimed :
    {r & {d | claimForProcessing 500 500 desk_fence "event-1" None 500 450 (proj1_sig (projT2 desk_appended))
              = Ret (Claimed r, d)}} :=
  ltac:(eexists; eexists; vm_compute; reflexivity).

Definition desk_completed :
    {d | markCompleted 600 600 desk_fence "event-1" 2 600 (proj1_sig (projT2 desk_claimed)) = Ret (WriteUpdated 3, d)} :=
  ltac:(eexists; vm_compute; reflexivity).

Lemma completed_events_stay_completed_witness :
  settled "event-1" [("event-1", 2)] (proj1_sig desk_completed) ∧
  ∃ r, In r (wd_events (proj1_sig desk_completed)) ∧ ev_id r = "event-1" ∧ ev_processed_at r = Some 600.
Proof.
  destruct (completed_events_stay_completed String.leb (λ s, s) event_desk 600 600 desk_fence "event-1" 2 600
              (proj1_sig (projT2 desk_claimed)) [("event-1", 2)] 3 (proj1_sig desk_completed)
              (proj1_sig desk_completed) [("event-1", 2)]) as (r & _ & _ & _ & _ & _ & Hx & Hs).
  - apply NoDup_nil_2.
  - apply (rtc_l _ _ (proj1_sig (projT2 desk_appended), []));
      [exact (event_append _ _ event_desk [] _ _ _ _ _ (proj2_sig (projT2 desk_appended)))|].
    apply rtc_once.
    exact (event_claim _ _ _ [] _ _ _ _ _ _ _ _ _ (proj2_sig (projT2 desk_claimed))).
  - exact (proj2_sig desk_completed).
  - apply rtc_refl.
  - split; [exact Hs|]. exists (completed_row 600 r). split; [|split; [|reflexivity]]; by apply (Hx (completed_row 600 r)).
Defined.

(** A failure is reported at a version, whatever the state of the row: at the version
    of a completed event it reopens the event. *)
Example failure_reopens_completed_event :
  let f := {| fl_failureId := "failure-1"; fl_attempt := 1; fl_errorCode := "X"; fl_errorClassification := "x";
              fl_redactedErrorMessage := "x"; fl_retryable := true; fl_failedAt := 700; fl_nextRetryAt := None;
              fl_deadLetteredAt := None; fl_details := Some JNull |} in
  ∃ d, markFailed 700 700 desk_fence "event-1" 3 f (proj1_sig desk_completed) = Ret (WriteUpdated 4, d) ∧
       map ev_processing_status (wd_events d) = [event_failed].
Proof. eexists. split; vm_compute; reflexivity. Qed.

(** The version of an entity is stored in source_sequence, whose index is unique for
    the workstream: the first event of another entity of the workstream is refused. *)
Example versions_of_entities_collide :
  let other := {| we_eventId := "event-2"; we_workstream := RESEARCH; we_eventType := "candidate";
                  we_entityType := "candidate"; we_entityId := "candidate-2"; we_occurredAt := 420; we_producedAt := 430;
                  we_schemaVersion := 1; we_runId := None; we_requestId := None; we_correlationId := None;
                  we_entityVersion := Some 1; we_payload := JNull |} in
  append String.leb (λ s, s) 700 {| cx_requestId := None; cx_correlationId := None |} other (proj1_sig desk_completed)
  = Throw unique_violation.
Proof. vm_compute. reflexivity. Qed.
