(* ===== verification/DatabaseConfiguration.v ===== *)
(** The configuration of the database: src/lib/database/config.ts and
    src/lib/database/postgresOnlyRuntime.ts.

    The environment is a function from names to values; process.env, which the test
    fixture looks at, may be another one.  Texts are ASCII. *)

From Stdlib Require Import Floats.
From S2P Require Import Prelude.
From S2P Require Import JsString.
From S2P Require Import JsNumber.
From S2P Require Import JsText.
From S2P Require Import AlpacaClient.
From S2P Require Import ReviewConfiguration.
Open Scope Z_scope.

Inductive DatabaseBackend : Set := sqlite | postgres.
Inductive DatabaseRuntime : Set := vercel | vps | local_runtime | test_runtime.
Inductive DatabasePurpose : Set := application | migration | backfill.
#[export] Instance DatabaseBackend_eq_dec : EqDecision DatabaseBackend.
Proof. solve_decision. Defined.
#[export] Instance DatabaseRuntime_eq_dec : EqDecision DatabaseRuntime.
Proof. solve_decision. Defined.
#[export] Instance DatabasePurpose_eq_dec : EqDecision DatabasePurpose.
Proof. solve_decision. Defined.

Record DatabaseFeatureFlags := {
  postgresReads : bool;
  postgresWrites : bool;
  shadowComparison : bool;
  controlPlaneAuthority : bool;
  schedulerAuthority : bool;
  executionStateShadow : bool;
  executionStateAuthority : bool;
  sqliteAuditMirror : bool
}.

Record DatabaseConfig := {
  dc_backend : DatabaseBackend;
  dc_runtime : DatabaseRuntime;
  dc_purpose : DatabasePurpose;
  (** The name of the variable and its value. *)
  dc_pooled : option (string * string);
  dc_direct : option (string * string);
  dc_sslRequired : bool;
  dc_applicationName : string;
  dc_maxConnections : number;
  dc_minConnections : number;
  dc_idleTimeoutMs : number;
  dc_connectionTimeoutMs : number;
  dc_statementTimeoutMs : number;
  dc_lockTimeoutMs : number;
  dc_idleInTransactionTimeoutMs : number;
  dc_transactionTimeoutMs : number;
  dc_features : DatabaseFeatureFlags
}.

Definition pooledVariables : list string := ["DATABASE_URL"; "POSTGRES_URL"; "POSTGRES_PRISMA_URL"]%string.
Definition directVariables : list string := ["DATABASE_URL_UNPOOLED"; "POSTGRES_URL_NON_POOLING"]%string.

(** [environment[name]?.trim()] *)
Definition trimmed (env : Environment) (name : string) : option string := trim <$> env name.

Fixpoint firstPresent (env : Environment) (names : list string) : option (string * string) :=
  match names with
  | [] => None
  | name :: names' =>
      match trimmed env name with
      | Some v => if str_truthy v then Some (name, v) else firstPresent env names'
      | None => firstPresent env names'
      end
  end.

Definition strictBoolean (env : Environment) (name : string) (fallback : bool) : res bool :=
  match to_lower <$> trimmed env name with
  | None => Ret fallback
  | Some v =>
      if (v =? "")%string then Ret fallback
      else if str_mem v ["true"; "1"]%string then Ret true
      else if str_mem v ["false"; "0"]%string then Ret false
      else Throw "DATABASE_BOOLEAN_INVALID"
  end.

Definition boundedInteger (env : Environment) (name : string) (fallback minimum maximum : number) : res number :=
  match trimmed env name with
  | Some raw =>
      if negb (str_truthy raw) then Ret fallback
      else let parsed := parse_int raw in
           if num_is_finite parsed then Ret (math_min maximum (math_max minimum parsed))
           else Throw "DATABASE_INTEGER_INVALID"
  | None => Ret fallback
  end.

(** A variable that is set and not empty. *)
Definition is_set (env : Environment) (name : string) : bool :=
  match env name with Some v => str_truthy v | None => false end.

Definition inferRuntime (env : Environment) : DatabaseRuntime :=
  (if bool_decide (env "VERCEL" = Some "1") || is_set env "VERCEL_ENV" then vercel
   else if is_set env "NODE_TEST_CONTEXT" then test_runtime
   else if is_set env "INVOCATION_ID" || is_set env "SYSTEMD_EXEC_PID" then vps
   else local_runtime)%string.

(** maxConnections, minConnections and idleTimeoutMs. *)
Definition runtimeDefaults (runtime : DatabaseRuntime) (purpose : DatabasePurpose) : number * number * number :=
  (if negb (bool_decide (purpose = application)) then (1, 0, 1000)
   else match runtime with
        | vercel => (1, 0, 1000)
        | vps => (5, 0, 30000)
        | _ => (3, 0, 10000)
        end)%float.

(** [/[a-zA-Z0-9_.-]/] *)
Definition safe_char (c : ascii) : bool :=
  is_digit c || is_upper c || is_lower c || str_mem (String c EmptyString) ["_"; "."; "-"]%string.

Definition safeApplicationName (value : string) : string :=
  let normalized := str_take 63 (string_map (λ c, if safe_char c then c else "-"%char) value) in
  if str_truthy normalized then normalized else "alpaca-paper".

Definition runtime_text (r : DatabaseRuntime) : string :=
  match r with vercel => "vercel" | vps => "vps" | local_runtime => "local" | test_runtime => "test" end.
Definition purpose_text (p : DatabasePurpose) : string :=
  match p with application => "application" | migration => "migration" | backfill => "backfill" end.

(** [sqliteTestFixtureInitializationEnabled]: [process_env] is process.env, [fixture]
    the global mark of the test fixture. *)
Definition sqliteTestFixtureInitializationEnabled (process_env : Environment) (fixture : bool) : bool :=
  bool_decide (process_env "NODE_ENV" = Some "test")%string && is_set process_env "NODE_TEST_CONTEXT" && fixture.

Definition load_backend (env : Environment) : res DatabaseBackend :=
  let value := default EmptyString (to_lower <$> trimmed env "DATABASE_BACKEND") in
  let value := if str_truthy value then value else "postgres"%string in
  if (value =? "sqlite")%string then Ret sqlite
  else if (value =? "postgres")%string then Ret postgres
  else Throw "DATABASE_BACKEND_INVALID".

Definition load_features (env : Environment) : res DatabaseFeatureFlags :=
  (reads ← strictBoolean env "POSTGRES_READS_ENABLED" false;
   writes ← strictBoolean env "POSTGRES_WRITES_ENABLED" false;
   shadow ← strictBoolean env "POSTGRES_SHADOW_COMPARE_ENABLED" false;
   control ← strictBoolean env "POSTGRES_CONTROL_PLANE_AUTHORITY_ENABLED" false;
   scheduler ← strictBoolean env "POSTGRES_SCHEDULER_AUTHORITY_ENABLED" false;
   stateShadow ← strictBoolean env "POSTGRES_EXECUTION_STATE_SHADOW_ENABLED" false;
   stateAuthority ← strictBoolean env "POSTGRES_EXECUTION_STATE_AUTHORITY_ENABLED" false;
   mirror ← strictBoolean env "SQLITE_AUDIT_MIRROR_ENABLED" false;
   Ret {| postgresReads := reads; postgresWrites := writes; shadowComparison := shadow; controlPlaneAuthority := control;
          schedulerAuthority := scheduler; executionStateShadow := stateShadow; executionStateAuthority := stateAuthority;
          sqliteAuditMirror := mirror |})%string.

Definition any_feature (f : DatabaseFeatureFlags) : bool :=
  existsb id [postgresReads f; postgresWrites f; shadowComparison f; controlPlaneAuthority f; schedulerAuthority f;
              executionStateShadow f; executionStateAuthority f; sqliteAuditMirror f].

Definition throw_if (b : bool) (code : string) : res unit := if b then Throw code else Ret tt.

(** The flags that an application needs, and those it must not have. *)
Definition authority_flags (f : DatabaseFeatureFlags) : list bool :=
  [postgresReads f; postgresWrites f; controlPlaneAuthority f; schedulerAuthority f; executionStateAuthority f].
Definition fallback_flags (f : DatabaseFeatureFlags) : list bool :=
  [shadowComparison f; executionStateShadow f; sqliteAuditMirror f].

(** The refusals of [loadDatabaseConfig], in order. *)
Definition check_features (fixture_enabled : bool) (purpose : DatabasePurpose) (backend : DatabaseBackend)
    (pooled direct : option (string * string)) (f : DatabaseFeatureFlags) : res unit :=
  let is_application := bool_decide (purpose = application) in
  let uses_postgres := bool_decide (backend = postgres) in
  let authority := controlPlaneAuthority f || schedulerAuthority f || executionStateAuthority f in
  let missing_io := negb (postgresReads f) || negb (postgresWrites f) in
  _ ← throw_if ((uses_postgres || any_feature f) && negb (bool_decide (is_Some pooled))) "POSTGRES_POOLED_URL_REQUIRED";
  _ ← throw_if (negb is_application && negb (bool_decide (is_Some direct))) "POSTGRES_DIRECT_URL_REQUIRED";
  _ ← throw_if ((shadowComparison f || executionStateShadow f) && missing_io) "POSTGRES_SHADOW_PREREQUISITES_REQUIRED";
  _ ← throw_if (is_application && negb fixture_enabled && (negb uses_postgres || existsb negb (authority_flags f)))
        "POSTGRES_ONLY_AUTHORITY_REQUIRED";
  _ ← throw_if (is_application && negb fixture_enabled && existsb id (fallback_flags f)) "POSTGRES_ONLY_FALLBACK_DISABLED";
  _ ← throw_if (authority && missing_io) "POSTGRES_AUTHORITY_PREREQUISITES_REQUIRED";
  _ ← throw_if ((schedulerAuthority f || executionStateShadow f || executionStateAuthority f) && negb (controlPlaneAuthority f))
        "CONTROL_PLANE_AUTHORITY_REQUIRED";
  _ ← throw_if ((executionStateShadow f || executionStateAuthority f) && negb (schedulerAuthority f))
        "SCHEDULER_AUTHORITY_REQUIRED";
  throw_if (authority && negb uses_postgres) "POSTGRES_AUTHORITY_BACKEND_REQUIRED".

Definition loadDatabaseConfig (fixture_enabled : bool) (env : Environment) (runtime : option DatabaseRuntime)
    (purpose : option DatabasePurpose) : res DatabaseConfig :=
  let runtime := default (inferRuntime env) runtime in
  let purpose := default application purpose in
  backend ← load_backend env;
  let pooled := firstPresent env pooledVariables in
  let direct := firstPresent env directVariables in
  features ← load_features env;
  _ ← check_features fixture_enabled purpose backend pooled direct features;
  let '(defaultMax, defaultMin, defaultIdle) := runtimeDefaults runtime purpose in
  let migrationPurpose := negb (bool_decide (purpose = application)) in
  ssl ← strictBoolean env "POSTGRES_SSL_REQUIRED" true;
  let named := default EmptyString (trimmed env "POSTGRES_APPLICATION_NAME") in
  let name := safeApplicationName (if str_truthy named then named
                                   else "alpaca-paper-" ++ runtime_text runtime ++ "-" ++ purpose_text purpose)%string in
  maxConnections ← boundedInteger env "POSTGRES_POOL_MAX" defaultMax 1
                     (if bool_decide (runtime = vercel) || migrationPurpose then 1 else 10);
  minConnections ← boundedInteger env "POSTGRES_POOL_MIN" defaultMin 0 (if migrationPurpose then 0 else 2);
  idle ← boundedInteger env "POSTGRES_IDLE_TIMEOUT_MS" defaultIdle 1000 120000;
  connection ← boundedInteger env "POSTGRES_CONNECTION_TIMEOUT_MS" 10000 1000 30000;
  statement ← boundedInteger env "POSTGRES_STATEMENT_TIMEOUT_MS" (if migrationPurpose then 120000 else 15000) 1000 300000;
  lock ← boundedInteger env "POSTGRES_LOCK_TIMEOUT_MS" (if migrationPurpose then 10000 else 5000) 100 60000;
  idleInTransaction ← boundedInteger env "POSTGRES_IDLE_IN_TRANSACTION_TIMEOUT_MS"
                        (if migrationPurpose then 60000 else 15000) 1000 300000;
  transaction ← boundedInteger env "POSTGRES_TRANSACTION_TIMEOUT_MS" (if migrationPurpose then 180000 else 30000) 1000 600000;
  Ret {| dc_backend := backend; dc_runtime := runtime; dc_purpose := purpose; dc_pooled := pooled; dc_direct := direct;
         dc_sslRequired := ssl; dc_applicationName := name; dc_maxConnections := maxConnections;
         dc_minConnections := minConnections; dc_idleTimeoutMs := idle; dc_connectionTimeoutMs := connection;
         dc_statementTimeoutMs := statement; dc_lockTimeoutMs := lock; dc_idleInTransactionTimeoutMs := idleInTransaction;
         dc_transactionTimeoutMs := transaction; dc_features := features |}.

(** [assertPostgresOnlyDatabaseAuthority]: the first failure. *)
Definition authority_failures (c : DatabaseConfig) : list string :=
  let f := dc_features c in
  map snd (List.filter fst
    [(negb (bool_decide (dc_backend c = postgres)), "POSTGRES_BACKEND_REQUIRED");
     (negb (postgresReads f), "POSTGRES_READS_REQUIRED"); (negb (postgresWrites f), "POSTGRES_WRITES_REQUIRED");
     (negb (controlPlaneAuthority f), "POSTGRES_CONTROL_PLANE_AUTHORITY_REQUIRED");
     (negb (schedulerAuthority f), "POSTGRES_SCHEDULER_AUTHORITY_REQUIRED");
     (negb (executionStateAuthority f), "POSTGRES_EXECUTION_STATE_AUTHORITY_REQUIRED");
     (shadowComparison f, "POSTGRES_SHADOW_COMPARE_DISABLED_REQUIRED");
     (executionStateShadow f, "POSTGRES_EXECUTION_STATE_SHADOW_DISABLED_REQUIRED");
     (sqliteAuditMirror f, "SQLITE_AUDIT_MIRROR_DISABLED_REQUIRED")])%string.

Definition assertPostgresOnlyDatabaseAuthority (c : DatabaseConfig) : res bool :=
  match authority_failures c with [] => Ret true | code :: _ => Throw code end.

Definition SAFE_PRODUCTION_CLI_COMMANDS : list string :=
  ["alpaca:account"; "alpaca:asset"; "alpaca:config"; "alpaca:health"; "alpaca:orders"; "alpaca:positions";
   "hedge:exit:execute"; "hedge:exit:review"; "hedge:review"; "paper:execute:reviewed"; "paper:exit:execute";
   "paper:exit:review"; "paper:learn"; "paper:outcomes"; "paper:ops:review"; "paper:options:discover"; "paper:order:cancel";
   "paper:portfolio:review"; "paper:reconcile:external-order"; "paper:review"; "research:daily"; "research:import";
   "system:recover"; "worker:state"; "zero-dte:engine"; "zero-dte:exit:review"; "zero-dte:reconcile";
   "db:postgres:authority:cutover"; "db:postgres:authority:status"; "db:postgres:connectivity"; "db:postgres:migrate";
   "db:postgres:status"; "db:postgres:verify"]%string.

Definition assertPostgresOnlyCliCommand (fixture_enabled : bool) (command : option string) : res unit :=
  if fixture_enabled then Ret tt
  else match command with
       | Some c => if str_truthy c && str_mem c SAFE_PRODUCTION_CLI_COMMANDS then Ret tt
                   else Throw "POSTGRES_ONLY_RUNTIME_PATH_DISABLED"
       | None => Throw "POSTGRES_ONLY_RUNTIME_PATH_DISABLED"
       end.

Definition listSafePostgresOnlyCliCommands : list string := sort_strings SAFE_PRODUCTION_CLI_COMMANDS.

(** ** Properties *)

Lemma throw_if_Ret b c : throw_if b c = Ret tt ↔ b = false.
Proof. by destruct b. Qed.

(** The features of an application. *)
Record application_features (f : DatabaseFeatureFlags) : Prop := {
  af_authority : forallb id (authority_flags f) = true;
  af_no_fallback : forallb negb (fallback_flags f) = true
}.

Lemma application_flags f :
  application_features f →
  (postgresReads f = true ∧ postgresWrites f = true ∧ controlPlaneAuthority f = true ∧ schedulerAuthority f = true ∧
   executionStateAuthority f = true) ∧
  shadowComparison f = false ∧ executionStateShadow f = false ∧ sqliteAuditMirror f = false.
Proof. intros [A N]. cbn in A, N. unfold id in A. rewrite !andb_true_iff, ?negb_true_iff in *. tauto. Qed.

(** A value between two bounds. *)
Definition between (lo hi x : number) : Prop := (lo <=? x)%float = true ∧ (x <=? hi)%float = true.

Lemma boundedInteger_between env name fallback lo hi x :
  boundedInteger env name fallback lo hi = Ret x → between lo hi fallback → (lo <=? hi)%float = true → between lo hi x.
Proof.
  unfold boundedInteger. intros H Hf Hl. destruct (trimmed env name) as [raw|]; [|by injection H as <-].
  destruct (negb (str_truthy raw)); [by injection H as <-|]. destruct (num_is_finite (parse_int raw)) eqn:E; [|done].
  injection H as <-. set (p := parse_int raw) in *. rewrite num_is_finite_val in E. destruct (num_val p) as [z|] eqn:Hz; [|done].
  rewrite num_leb_val in Hl. destruct (num_val lo) as [l|] eqn:El, (num_val hi) as [h|] eqn:Eh; try done. cbn [opt_cmp] in Hl.
  pose proof (math_max_val lo p _ _ El Hz) as Hm. pose proof (math_min_val hi (math_max lo p) _ _ Eh Hm) as Hr.
  unfold between. rewrite !num_leb_val, Hr, El, Eh. cbn [opt_cmp]. lia.
Qed.

(** The application name: not empty, at most 63 characters, all of them safe. *)
Definition name_ok (s : string) : Prop :=
  str_truthy s = true ∧ (String.length s <= 63)%nat ∧ string_forall safe_char s = true.

Lemma str_take_safe n s : string_forall safe_char s = true → string_forall safe_char (str_take n s) = true.
Proof. revert s. induction n as [|n IH]; intros [|c s]; [done..|]. cbn. intros [-> H]%andb_true_iff. by apply IH. Qed.

Lemma str_take_at_most n s : (String.length (str_take n s) <= n)%nat.
Proof. revert s. induction n as [|n IH]; intros [|c s]; cbn; [lia..|]. specialize (IH s). lia. Qed.

Lemma safe_name s : name_ok (safeApplicationName s).
Proof.
  unfold safeApplicationName. destruct (str_truthy _) eqn:E; [|by vm_compute; auto with lia]. split; [done|].
  split; [apply str_take_at_most|]. apply str_take_safe. clear E. induction s as [|c s IH]; [done|]. cbn.
  rewrite IH, andb_true_r. by destruct (safe_char c) eqn:E.
Qed.

Lemma check_features_Ret fixture purpose backend pooled direct f :
  check_features fixture purpose backend pooled direct f = Ret tt →
  (backend = postgres → is_Some pooled) ∧
  (purpose = application → fixture = false → backend = postgres ∧ application_features f).
Proof.
  unfold check_features. intros H. repeat (apply res_bind_Ret in H as ([] & ?%throw_if_Ret & H)).
  apply throw_if_Ret in H. split.
  - intros ->. cbn in *. destruct pooled; [done|]. naive_solver.
  - intros -> ->. rewrite !bool_decide_true in * by done. cbn [negb andb] in *.
    destruct backend; [done|]. split; [done|]. split; apply forallb_forall; intros x Hx.
    + destruct x; [done|]. exfalso. revert H3. cbn [negb orb andb]. apply not_false_iff_true, existsb_exists. by exists false.
    + destruct x; [|done]. exfalso. revert H4. cbn [negb orb andb]. apply not_false_iff_true, existsb_exists. by exists true.
Qed.

(** The bounds of the numbers of a configuration. *)
Definition limits_of (c : DatabaseConfig) : list (number * number * number) :=
  [(1, 10, dc_maxConnections c); (0, 2, dc_minConnections c); (1000, 120000, dc_idleTimeoutMs c);
   (1000, 30000, dc_connectionTimeoutMs c); (1000, 300000, dc_statementTimeoutMs c); (100, 60000, dc_lockTimeoutMs c);
   (1000, 300000, dc_idleInTransactionTimeoutMs c); (1000, 600000, dc_transactionTimeoutMs c)]%float.

Lemma between_weaken lo hi hi' x : between lo hi x → (hi <=? hi')%float = true → between lo hi' x.
Proof. intros [? ?] ?. split; [done|]. by eapply num_leb_trans. Qed.

(** C10: a configuration that loads is well-formed, in every environment: all limits
    are numbers within their bounds, the name of the application is safe, and
    PostgreSQL comes with a connection.  For an application outside a test fixture,
    PostgreSQL has all authority, neither SQLite nor shadows are left, and the check
    at the start of the runtime accepts it. *)
Theorem database_config_well_formed fixture env runtime purpose c :
  loadDatabaseConfig fixture env runtime purpose = Ret c →
  Forall (λ '(lo, hi, x), between lo hi x) (limits_of c) ∧ name_ok (dc_applicationName c) ∧
  (dc_backend c = postgres → is_Some (dc_pooled c)) ∧
  (default application purpose = application → fixture = false →
     application_features (dc_features c) ∧ assertPostgresOnlyDatabaseAuthority c = Ret true).
Proof.
  unfold loadDatabaseConfig. intros H. apply res_bind_Ret in H as (backend & _ & H). apply res_bind_Ret in H as (f & _ & H).
  apply res_bind_Ret in H as ([] & Hc%check_features_Ret & H). destruct Hc as [Hp Ha].
  set (rt := default (inferRuntime env) runtime) in *. set (pu := default application purpose) in *.
  destruct (runtimeDefaults rt pu) as [[dmax dmin] didle] eqn:Ed.
  assert (D : between 1 (if bool_decide (rt = vercel) || negb (bool_decide (pu = application)) then 1 else 10) dmax ∧
    between 0 (if negb (bool_decide (pu = application)) then 0 else 2) dmin ∧ between 1000 120000 didle).
  { revert Ed. clear. clearbody rt pu. by destruct pu, rt; intros [= <- <- <-]; vm_compute. }
  destruct D as (D1 & D2 & D3). apply res_bind_Ret in H as (ssl & _ & H).
  apply res_bind_Ret in H as (x1 & H1 & H). apply boundedInteger_between in H1; [|done|by destruct (_ || _)].
  apply res_bind_Ret in H as (x2 & H2 & H). apply boundedInteger_between in H2; [|done|by destruct (negb _)].
  apply res_bind_Ret in H as (x3 & H3 & H). apply boundedInteger_between in H3; [|done|done].
  apply res_bind_Ret in H as (x4 & H4 & H). apply boundedInteger_between in H4; [|done|done].
  apply res_bind_Ret in H as (x5 & H5 & H). apply boundedInteger_between in H5; [|by destruct (negb _)|done].
  apply res_bind_Ret in H as (x6 & H6 & H). apply boundedInteger_between in H6; [|by destruct (negb _)|done].
  apply res_bind_Ret in H as (x7 & H7 & H). apply boundedInteger_between in H7; [|by destruct (negb _)|done].
  apply res_bind_Ret in H as (x8 & H8 & H). apply boundedInteger_between in H8; [|by destruct (negb _)|done].
  apply between_weaken with (hi' := 10%float) in H1; [|by destruct (_ || _)].
  apply between_weaken with (hi' := 2%float) in H2; [|by destruct (negb _)].
  injection H as <-. split_and!.
  - repeat (constructor; [assumption|]). constructor.
  - apply safe_name.
  - exact Hp.
  - intros E F. destruct (Ha E F) as [-> Hf]. split; [done|]. unfold assertPostgresOnlyDatabaseAuthority, authority_failures. cbn [dc_features dc_backend].
    apply application_flags in Hf as ((-> & -> & -> & -> & ->) & -> & -> & ->). done.
Qed.

(** An environment of the production runtime. *)
Definition desk_environment : Environment := λ name,
  if str_mem name ["POSTGRES_READS_ENABLED"; "POSTGRES_WRITES_ENABLED"; "POSTGRES_CONTROL_PLANE_AUTHORITY_ENABLED";
                   "POSTGRES_SCHEDULER_AUTHORITY_ENABLED"; "POSTGRES_EXECUTION_STATE_AUTHORITY_ENABLED"]%string
  then Some "true"%string
  else if (name =? "DATABASE_URL")%string then Some "postgres://desk"%string
  else if (name =? "POSTGRES_POOL_MAX")%string then Some "64"%string else None.

Definition desk_config : {c | loadDatabaseConfig false desk_environment None None = Ret c} :=
  ltac:(eexists; vm_compute; reflexivity).

Lemma database_config_well_formed_witness :
  dc_maxConnections (proj1_sig desk_config) = 10%float ∧ application_features (dc_features (proj1_sig desk_config)).
Proof.
  split; [vm_compute; reflexivity|].
  destruct (database_config_well_formed false desk_environment None None _ (proj2_sig desk_config)) as (_ & _ & _ & H).
  exact (proj1 (H eq_refl eq_refl)).
Defined.
