(* ===== verification/SchedulerExecution.v ===== *)
(** Running a command under a scheduler lease:
    src/services/postgresSchedulerExecutionService.ts.

    [runWithPostgresSchedulerLease] acquires the lease of a job, runs an operation
    and, beside it, a loop that renews the lease; it then releases the lease.  The
    two run concurrently in one process, so the run is a machine ([Session]) that
    handles one event at a time ([on_event]): the end of a wait, an answer to a
    heartbeat, the termination of the process, the end of the operation, the answer
    to the release.  What is written to the log is left out.  Error values are
    objects of a heap, as in WorkerPersistence.v.

    What a run under a scheduler lease guarantees: a command that returns its value
    held the lease from its start to its end, a lost lease is never hidden, and a
    command whose operation has ended ends itself. *)
From S2P Require Import Prelude.
From S2P Require Import JsString.
From S2P Require Import JsText.
From S2P Require Import SchedulerLease.
From S2P Require Import WorkerPersistence.
From S2P Require Import SubmissionCommand.
From S2P Require Import DatabaseConfiguration.

Open Scope Z_scope.

Record PostgresSchedulerJob := { job_jobName : string; job_workstream : string }.

Record PostgresSchedulerExecutionError := {
  se_code : string;
  se_cause : option ErrorValue
}.

Definition scheduler_error (code : string) : PostgresSchedulerExecutionError := {| se_code := code; se_cause := None |}.
Definition caused_error (code : string) (cause : ErrorValue) : PostgresSchedulerExecutionError :=
  {| se_code := code; se_cause := Some cause |}.

(** The durations are integers, or [None]. *)
Record RunWithPostgresSchedulerLeaseInput := {
  ri_features : DatabaseFeatureFlags;
  ri_job : PostgresSchedulerJob;
  ri_ownerId : string;
  ri_runId : string;
  ri_operationId : string;
  ri_leaseDurationMs : option Z;
  ri_heartbeatIntervalMs : option Z
}.

Definition HEARTBEAT_RETRY_INTERVAL_MS : Z := 1000.
Definition HEARTBEAT_EXPIRY_SAFETY_MS : Z := 5000.
Definition TRANSIENT_HEARTBEAT_ERROR_CODES : list string :=
  ["ECONNREFUSED"; "ECONNRESET"; "EHOSTUNREACH"; "ENETDOWN"; "ENETUNREACH"; "EPIPE"; "ETIMEDOUT"; "40001"; "40P01";
   "53300"; "55P03"; "57P01"; "57P02"; "57P03"]%string.

(** ** Transient errors *)

(** The rest of a line, which [.*] can match. *)
Definition is_line_end (c : ascii) : bool := (N_of_ascii c =? 10)%N || (N_of_ascii c =? 13)%N.

(** [\b(w1|w2|...)\b] somewhere in the part of [s] that [.*] can reach. *)
Fixpoint word_in_line (ws : list string) (previous : bool) (s : string) : bool :=
  negb previous && existsb (λ w, String.prefix w s
    && match str_drop (String.length w) s with EmptyString => true | String c _ => negb (is_word_char c) end) ws
  || match s with
     | EmptyString => false
     | String c s' => negb (is_line_end c) && word_in_line ws (is_word_char c) s'
     end.

(** [\b(connection|socket)\b.*\b(closed|...)\b], from [s] on. *)
Fixpoint lost_connection (previous : bool) (s : string) : bool :=
  negb previous && existsb (λ w, String.prefix w s
    && match str_drop (String.length w) s with
       | EmptyString => false
       | String c _ => negb (is_word_char c)
                       && word_in_line ["closed"; "reset"; "terminated"; "timeout"; "timed out"]%string true
                            (str_drop (String.length w) s)
       end) ["connection"; "socket"]%string
  || match s with EmptyString => false | String c s' => lost_connection (is_word_char c) s' end.

Definition transient_message (message : string) : bool :=
  let m := to_lower message in lost_connection false m || has_word "socket hang up" false m.

Section transient.
Context (heap : nat → ErrorRecord).

Definition transient_record (r : ErrorRecord) : bool :=
  let code := match err_code r with Some c => to_upper (trim c) | None => EmptyString end in
  startsWith "08" code || str_mem code TRANSIENT_HEARTBEAT_ERROR_CODES
  || match err_message r with Some m => transient_message m | None => false end.

(** The search of [isTransientHeartbeatError]: [budget] is [12 - seen.size]. *)
Fixpoint search_transient (budget : nat) (seen : list nat) (pending : list ErrorValue) : bool :=
  match budget with
  | O => false
  | S budget' =>
      (fix next (pending : list ErrorValue) : bool :=
         match pending with
         | [] => false
         | OtherValue :: rest => next rest
         | ErrorObject id :: rest =>
             if existsb (Nat.eqb id) seen then next rest
             else transient_record (heap id)
                  || search_transient budget' (id :: seen) (rest ++ successors (heap id))
         end) pending
  end.

Definition isTransientHeartbeatError (error : ErrorValue) : bool := search_transient 12 [] [error].
End transient.

(** ** Before the operation *)

Definition is_blank (s : string) : bool := negb (str_truthy (trim s)).

(** [Number.isSafeInteger(x) && x > 0] *)
Definition positive_safe (x : option Z) : option Z :=
  match x with Some z => if (0 <? z) && (z <=? 2 ^ 53 - 1) then Some z else None | None => None end.

(** [validateInput]: the error code, or the two durations. *)
Definition validateInput (i : RunWithPostgresSchedulerLeaseInput) : PostgresSchedulerExecutionError + Z * Z :=
  let f := ri_features i in
  if (negb (schedulerAuthority f) && negb (shadowComparison f)) || negb (postgresReads f) || negb (postgresWrites f)
  then inl (scheduler_error "POSTGRES_CONTROL_PLANE_AUTHORITY_REQUIRED")
  else if is_blank (job_jobName (ri_job i)) then inl (scheduler_error "SCHEDULER_JOB_NAME_REQUIRED")
  else if is_blank (job_workstream (ri_job i)) then inl (scheduler_error "SCHEDULER_WORKSTREAM_REQUIRED")
  else if is_blank (ri_ownerId i) then inl (scheduler_error "SCHEDULER_OWNER_REQUIRED")
  else if is_blank (ri_runId i) then inl (scheduler_error "SCHEDULER_RUN_REQUIRED")
  else if is_blank (ri_operationId i) then inl (scheduler_error "SCHEDULER_OPERATION_REQUIRED")
  else match positive_safe (ri_leaseDurationMs i), positive_safe (ri_heartbeatIntervalMs i) with
       | Some lease, Some interval =>
           if interval <? lease then inr (lease, interval)
           else inl (scheduler_error "SCHEDULER_HEARTBEAT_BOUNDS_INVALID")
       | _, _ => inl (scheduler_error "SCHEDULER_HEARTBEAT_BOUNDS_INVALID")
       end.

(** The request of the acquisition, for the clock at its start. *)
Definition acquire_input (i : RunWithPostgresSchedulerLeaseInput) (acquiredAt leaseDurationMs : Z) : AcquireInput :=
  {| acq_jobName := job_jobName (ri_job i); acq_workstream := job_workstream (ri_job i); acq_ownerId := ri_ownerId i;
     acq_runId := ri_runId i; acq_acquiredAt := Some acquiredAt; acq_expiresAt := Some (acquiredAt + leaseDurationMs) |}.

(** An answer of the database: a result, or an error that says nothing about
    whether the transaction was committed. *)
Definition answer (A : Type) : Type := A + ErrorValue.

(** The fence of the acquired lease, when it is the one asked for. *)
Definition acquired_fence (i : RunWithPostgresSchedulerLeaseInput) (a : answer SchedulerLeaseAcquisitionResult)
    : PostgresSchedulerExecutionError + SchedulerLeaseRow :=
  match a with
  | inr e => inl (caused_error "SCHEDULER_ACQUIRE_FAILED" e)
  | inl (Held _) => inl (scheduler_error "SCHEDULER_LEASE_HELD")
  | inl (Acquired l) =>
      if (lease_job_name l =? job_jobName (ri_job i))%string && (lease_workstream l =? job_workstream (ri_job i))%string
         && (lease_owner_id l =? ri_ownerId i)%string && (lease_run_id l =? ri_runId i)%string && is_held l
      then inr l else inl (scheduler_error "SCHEDULER_ACQUISITION_IDENTITY_MISMATCH")
  end.

(** ** The machine *)

(** What an operation rejects with; [operationError !== undefined] and its
    truth value matter. *)
Inductive Rejection : Type := RejectedUndefined | RejectedFalsy | RejectedError (e : ErrorValue).

Section machine.
Context {T : Type}.

(** What the run resolves or rejects with; a resolution with [undefined] is
    [None]. *)
Inductive RunOutcome : Type :=
| Returned (value : option T)
| ThrewScheduler (e : PostgresSchedulerExecutionError)
| ThrewOperation (r : Rejection).

(** Where the heartbeat loop is suspended. *)
Inductive LoopState : Type :=
| LoopWaiting
| LoopBeating (heartbeatAt : Z) (retryAttempt : nat)
| LoopRetryWaiting (retryDelayMs : Z) (retryAttempt : nat)
| LoopEnded.

(** Where the function itself is suspended. *)
Inductive MainState : Type :=
| Executing
| Joining
| Releasing (releaseReason : string)
| Finished (outcome : RunOutcome).

Record Session := {
  s_fence : SchedulerFence;
  s_leaseExpiresAtMs : Z;
  s_heartbeatFailure : option PostgresSchedulerExecutionError;
  s_terminationFailure : option PostgresSchedulerExecutionError;
  s_aborted : bool;
  s_stopped : bool;
  s_loop : LoopState;
  s_operation : option (T + Rejection);
  s_main : MainState
}.

Inductive SchedulerEvent : Type :=
| WaitEnded (now : Z) (failure : option ErrorValue)
| HeartbeatAnswered (now : Z) (a : answer SchedulerLeaseMutationResult)
| Terminated (reason : ErrorValue)
| OperationSettled (r : T + Rejection)
| Joined
| ReleaseAnswered (a : answer SchedulerLeaseMutationResult).

Definition set_loop (l : LoopState) (s : Session) : Session :=
  {| s_fence := s_fence s; s_leaseExpiresAtMs := s_leaseExpiresAtMs s; s_heartbeatFailure := s_heartbeatFailure s;
     s_terminationFailure := s_terminationFailure s; s_aborted := s_aborted s; s_stopped := s_stopped s; s_loop := l;
     s_operation := s_operation s; s_main := s_main s |}.

(** [heartbeatFailure = e; operationAbort.abort(e); return;] *)
Definition fail_heartbeat (e : PostgresSchedulerExecutionError) (s : Session) : Session :=
  {| s_fence := s_fence s; s_leaseExpiresAtMs := s_leaseExpiresAtMs s; s_heartbeatFailure := Some e;
     s_terminationFailure := s_terminationFailure s; s_aborted := true; s_stopped := s_stopped s; s_loop := LoopEnded;
     s_operation := s_operation s; s_main := s_main s |}.

Definition renew (expiresAt : Z) (s : Session) : Session :=
  {| s_fence := s_fence s; s_leaseExpiresAtMs := expiresAt; s_heartbeatFailure := s_heartbeatFailure s;
     s_terminationFailure := s_terminationFailure s; s_aborted := s_aborted s; s_stopped := s_stopped s;
     s_loop := if s_stopped s then LoopEnded else LoopWaiting; s_operation := s_operation s; s_main := s_main s |}.

Definition terminate (reason : ErrorValue) (s : Session) : Session :=
  {| s_fence := s_fence s; s_leaseExpiresAtMs := s_leaseExpiresAtMs s; s_heartbeatFailure := s_heartbeatFailure s;
     s_terminationFailure := Some (caused_error "SCHEDULER_COMMAND_TERMINATED" reason); s_aborted := true;
     s_stopped := s_stopped s; s_loop := s_loop s; s_operation := s_operation s; s_main := s_main s |}.

Definition settle (r : T + Rejection) (s : Session) : Session :=
  {| s_fence := s_fence s; s_leaseExpiresAtMs := s_leaseExpiresAtMs s; s_heartbeatFailure := s_heartbeatFailure s;
     s_terminationFailure := s_terminationFailure s; s_aborted := s_aborted s; s_stopped := true; s_loop := s_loop s;
     s_operation := Some r; s_main := Joining |}.

Definition set_main (m : MainState) (s : Session) : Session :=
  {| s_fence := s_fence s; s_leaseExpiresAtMs := s_leaseExpiresAtMs s; s_heartbeatFailure := s_heartbeatFailure s;
     s_terminationFailure := s_terminationFailure s; s_aborted := s_aborted s; s_stopped := s_stopped s;
     s_loop := s_loop s; s_operation := s_operation s; s_main := m |}.

(** The session of an acquired lease; [terminated] when the external signal was
    aborted already. *)
Definition start_session (l : SchedulerLeaseRow) (terminated : option ErrorValue) : Session :=
  let s := {| s_fence := fence_of l; s_leaseExpiresAtMs := lease_expires_at l; s_heartbeatFailure := None;
              s_terminationFailure := None; s_aborted := false; s_stopped := false; s_loop := LoopWaiting;
              s_operation := None; s_main := Executing |} in
  match terminated with Some reason => terminate reason s | None => s end.

(** [operationError] when the lease is released: what the operation rejected
    with, or else the termination; [true] when it is truthy. *)
Definition operation_failed (s : Session) : bool :=
  match s_operation s with
  | Some (inr (RejectedError _)) => true
  | Some (inr RejectedFalsy) => false
  | _ => bool_decide (is_Some (s_terminationFailure s))
  end.

Definition release_reason (s : Session) : string :=
  if bool_decide (is_Some (s_heartbeatFailure s)) then "fence_lost"
  else if operation_failed s then "failed" else "completed".

(** The last lines: what is thrown first. *)
Definition conclude (releaseFailure : option PostgresSchedulerExecutionError) (s : Session) : RunOutcome :=
  match s_heartbeatFailure s, releaseFailure, s_terminationFailure s with
  | Some e, _, _ => ThrewScheduler e
  | None, Some e, _ => ThrewScheduler e
  | None, None, Some e => ThrewScheduler e
  | None, None, None =>
      match s_operation s with
      | Some (inl v) => Returned (Some v)
      | Some (inr RejectedUndefined) | None => Returned None
      | Some (inr r) => ThrewOperation r
      end
  end.

Context (heap : nat → ErrorRecord).

(** The delay before a heartbeat is tried again. *)
Definition retry_delay (now : Z) (s : Session) : Z :=
  let remaining := Z.max 0 (s_leaseExpiresAtMs s - now) in
  Z.min HEARTBEAT_RETRY_INTERVAL_MS (Z.max 0 (remaining - HEARTBEAT_EXPIRY_SAFETY_MS)).

Definition on_heartbeat (now : Z) (retryAttempt : nat) (a : answer SchedulerLeaseMutationResult) (s : Session) : Session :=
  match a with
  | inl (LeaseUpdated l) => renew (lease_expires_at l) s
  | inl _ => fail_heartbeat (scheduler_error "SCHEDULER_FENCE_LOST") s
  | inr e =>
      if negb (isTransientHeartbeatError heap e) || (retry_delay now s <=? 0)
      then fail_heartbeat (caused_error "SCHEDULER_HEARTBEAT_FAILED" e) s
      else set_loop (LoopRetryWaiting (retry_delay now s) (S retryAttempt)) s
  end.

(** The end of a wait: the loop stops, fails or sends a heartbeat. *)
Definition on_wait (now : Z) (retryAttempt : nat) (stop_first : bool) (failure : option ErrorValue) (s : Session)
    : Session :=
  match failure with
  | Some e => if stop_first && s_stopped s then set_loop LoopEnded s
              else fail_heartbeat (caused_error "SCHEDULER_HEARTBEAT_FAILED" e) s
  | None => if s_stopped s then set_loop LoopEnded s else set_loop (LoopBeating now retryAttempt) s
  end.

(** One event; [None] when it cannot occur in this state. *)
Definition on_event (s : Session) (e : SchedulerEvent) : option Session :=
  match e, s_main s with
  | WaitEnded now failure, (Executing | Joining) =>
      match s_loop s with
      | LoopWaiting => Some (on_wait now 0 true failure s)
      | LoopRetryWaiting _ n => Some (on_wait now n false failure s)
      | _ => None
      end
  | HeartbeatAnswered now a, (Executing | Joining) =>
      match s_loop s with LoopBeating _ n => Some (on_heartbeat now n a s) | _ => None end
  | Terminated reason, (Executing | Joining) =>
      match s_terminationFailure s with None => Some (terminate reason s) | Some _ => None end
  | OperationSettled r, Executing => Some (settle r s)
  | Joined, Joining =>
      match s_loop s with LoopEnded => Some (set_main (Releasing (release_reason s)) s) | _ => None end
  | ReleaseAnswered a, Releasing _ =>
      let failure := match a with
                     | inl (LeaseUpdated _) => None
                     | inl _ => Some (scheduler_error "SCHEDULER_RELEASE_REJECTED")
                     | inr e => Some (caused_error "SCHEDULER_RELEASE_FAILED" e)
                     end in
      Some (set_main (Finished (conclude failure s)) s)
  | _, _ => None
  end.

(** ** The machine on the table of leases

    A request to the table is answered with what the repository says, or with an
    error, after the transaction was committed or rolled back; in between other
    processes do what they do. *)
Context (leaseDurationMs : Z).

Inductive request_answer (q : tx LeaseDb SchedulerLeaseMutationResult) (d : LeaseDb)
    : answer SchedulerLeaseMutationResult → LeaseDb → Prop :=
| answered r d' : q d = Ret (r, d') → request_answer q d (inl r) d'
| answer_lost r d' e : q d = Ret (r, d') → request_answer q d (inr e) d'
| rolled_back e : request_answer q d (inr e) d.

Inductive run_step : LeaseDb * Session → LeaseDb * Session → Prop :=
| run_others d d' s : lease_step d d' → run_step (d, s) (d', s)
| run_heartbeat d d' s s' t1 t2 at_ n now a :
    s_loop s = LoopBeating at_ n →
    request_answer (heartbeat t1 t2 (s_fence s) (Some at_) (Some (at_ + leaseDurationMs))) d a d' →
    on_event s (HeartbeatAnswered now a) = Some s' → run_step (d, s) (d', s')
| run_release d d' s s' t1 t2 reason a :
    s_main s = Releasing reason →
    request_answer (release t1 t2 (s_fence s) (Some reason)) d a d' →
    on_event s (ReleaseAnswered a) = Some s' → run_step (d, s) (d', s')
| run_wait d s s' now failure : on_event s (WaitEnded now failure) = Some s' → run_step (d, s) (d, s')
| run_terminated d s s' reason : on_event s (Terminated reason) = Some s' → run_step (d, s) (d, s')
| run_settled d s s' r : on_event s (OperationSettled r) = Some s' → run_step (d, s) (d, s')
| run_joined d s s' : on_event s Joined = Some s' → run_step (d, s) (d, s').
End machine.
Arguments Session : clear implicits.
Arguments RunOutcome : clear implicits.
Arguments MainState : clear implicits.
Arguments SchedulerEvent : clear implicits.

Open Scope Z_scope.

(** ** The rows of a job over time *)

(** A row passes to a newer token, or keeps its holder and is not held again once
    it was given up. *)
Definition same_holder (r r' : SchedulerLeaseRow) : Prop :=
  fence_of r' = fence_of r ∧ (is_held r' = true → is_held r = true).

Definition succeeds (r r' : SchedulerLeaseRow) : Prop :=
  lease_job_name r' = lease_job_name r ∧ (lease_fencing_token r < lease_fencing_token r' ∨ same_holder r r').

Definition rows_advance (d d' : LeaseDb) : Prop := ∀ r, In r (leases d) → ∃ r', In r' (leases d') ∧ succeeds r r'.

Lemma fence_of_token r r' : fence_of r = fence_of r' → lease_fencing_token r = lease_fencing_token r'.
Proof. intros [= _ _ _ _ H]. by apply token_text_inj. Qed.

#[export] Instance rows_advance_preorder : PreOrder rows_advance.
Proof.
  split.
  - intros d r Hr. exists r. split; [done|]. split; [done|]. by right.
  - intros d1 d2 d3 H1 H2 r Hr. destruct (H1 r Hr) as (r1 & Hr1 & J1 & C1). destruct (H2 r1 Hr1) as (r2 & Hr2 & J2 & C2).
    exists r2. split; [done|]. split; [congruence|]. destruct C1 as [?|[F1 H1']], C2 as [?|[F2 H2']]; [left; lia|..].
    + left. by rewrite (fence_of_token _ _ F2).
    + left. by rewrite <- (fence_of_token _ _ F1).
    + right. split; [congruence|auto].
Qed.

Lemma same_rows_advance d d' : leases d' = leases d → rows_advance d d'.
Proof. intros E r Hr. exists r. rewrite E. split; [done|]. split; [done|]. by right. Qed.

Lemma mutation_advances f job d d' :
  (∀ r, fence_of (f r) = fence_of r ∧ (is_held (f r) = true → is_held r = true)) →
  leases d' = update_where (is_job job) f (leases d) → rows_advance d d'.
Proof.
  intros Hf E r Hr. exists (if is_job job r then f r else r). rewrite E. split; [apply update_where_In; eauto|].
  destruct (Hf r) as [F H]. destruct (is_job job r); (split; [by inversion F|by right]) || (split; [done|by right]).
Qed.

Lemma lease_step_advances d d' : lease_wf d → lease_step d d' → rows_advance d d'.
Proof.
  intros Hwf [now i r d1 H|t1 t2 f hb ex r d1 H|t1 t2 f reason r d1 H|n Hn].
  - apply acquire_spec in H as (ttl & w & _ & H & _); [|done]. apply insert_or_take_over_spec in H as [_ H]; [|done].
    destruct w as [l|]; [|by apply same_rows_advance; destruct H].
    destruct H as (Hl & Hj & _ & _ & _ & Ht & _ & _ & _ & Ho). intros r0 Hr.
    destruct (decide (lease_job_name r0 = acq_jobName i)) as [E|E].
    + exists l. split; [done|]. split; [congruence|]. left. rewrite Ht. by apply Hwf.
    + exists r0. split; [by apply Ho|]. split; [done|by right].
  - apply heartbeat_runs in H as (ttl & _ & H). apply fenced_mutation_spec in H as [_ [[_ ->]|(r0 & _ & _ & _ & _ & E)]];
      [done| |done|auto with tx]. by eapply mutation_advances; [|exact E].
  - apply fenced_mutation_spec in H as [_ [[_ ->]|(r0 & _ & _ & _ & _ & E)]]; [done| |done|auto with tx].
    by eapply mutation_advances; [|exact E].
  - by apply same_rows_advance.
Qed.

Lemma lease_history d d' : lease_wf d → lease_reachable d d' → lease_wf d' ∧ rows_advance d d'.
Proof.
  intros Hwf H. revert Hwf. induction H as [d|d d1 d2 Hs _ IH]; intros Hwf; [done|].
  pose proof (lease_step_advances _ _ Hwf Hs) as A. destruct (IH (proj1 (lease_step_wf _ _ Hwf Hs))) as [W A'].
  split; [done|by etrans].
Qed.

(** A row with the same token is held by the same run. *)
Lemma same_token_holder d d' l r :
  lease_wf d → lease_reachable d d' → In l (leases d) → In r (leases d') → lease_job_name r = lease_job_name l →
  lease_fencing_token r = lease_fencing_token l → same_holder l r.
Proof.
  intros Hwf H Hl Hr Hj Ht. destruct (lease_history _ _ Hwf H) as [W A]. destruct (A l Hl) as (r' & Hr' & J & C).
  assert (r' = r) as -> by (eapply (unique_key lease_job_name); [apply W|done..|congruence]).
  destruct C as [C|C]; [lia|done].
Qed.

(** A fence that holds the lease at both ends held it in between. *)
Lemma held_in_between d d1 d2 l r :
  lease_wf d → lease_reachable d d1 → lease_reachable d1 d2 → In l (leases d) → In r (leases d2) →
  fence_of r = fence_of l → is_held r = true →
  ∃ r1, In r1 (leases d1) ∧ fence_of r1 = fence_of l ∧ is_held r1 = true.
Proof.
  intros Hwf H1 H2 Hl Hr Hf Hh. destruct (lease_history _ _ Hwf H1) as [W1 A1]. destruct (A1 l Hl) as (r1 & Hr1 & J1 & C1).
  destruct (lease_history _ _ W1 H2) as [W2 A2]. destruct (A2 r1 Hr1) as (r2 & Hr2 & J2 & C2).
  assert (r2 = r) as ->.
  { eapply (unique_key lease_job_name); [apply W2|done..|]. inversion Hf. congruence. }
  apply fence_of_token in Hf as Ht. exists r1. split; [done|]. destruct C1 as [C1|[F1 S1]], C2 as [C2|[F2 S2]]; [lia|..].
  - apply fence_of_token in F2. lia.
  - apply fence_of_token in F1. lia.
  - split; [done|auto].
Qed.

(** The fence of a held row is the only one the check accepts for its job. *)
Lemma only_fence d r t f d' :
  lease_wf d → In r (leases d) → isCurrentFence t f d = Ret (true, d') → fence_job_name f = lease_job_name r →
  f = fence_of r.
Proof.
  intros Hwf Hr H Hj. apply is_current_fence_accepted in H as [_ H].
  destruct (verdict_accepted _ _ _ _ (H 0)) as (r' & Hr' & -> & _). cbn in Hj.
  by rewrite (unique_key lease_job_name _ r' r (wf_jobs _ Hwf) Hr' Hr Hj).
Qed.

(** ** The machine *)

Section facts.
Context {T : Type} (heap : nat → ErrorRecord) (leaseDurationMs : Z).
Local Abbreviation on_event := (on_event (T := T) heap).
Local Abbreviation run_step := (run_step (T := T) heap leaseDurationMs).

Definition unfinished (s : Session T) : Prop := ∀ o, s_main s ≠ Finished o.

Lemma request_reaches q d a d' :
  (∀ r d1, q d = Ret (r, d1) → lease_step d d1) → request_answer q d a d' → lease_reachable d d'.
Proof. intros H [r d1 E|r d1 e E|e]; [by apply rtc_once, (H r)|by apply rtc_once, (H r)|apply rtc_refl]. Qed.

Lemma run_step_leases w w' : run_step w w' → lease_reachable w.1 w'.1.
Proof.
  intros [d d' s H|d d' s s' t1 t2 at_ n now a _ H _|d d' s s' t1 t2 reason a _ H _|d s s' now f H|d s s' r H|
    d s s' r H|d s s' H]; cbn; try apply rtc_refl.
  - by apply rtc_once.
  - eapply request_reaches; [|exact H]. intros r d1. apply step_heartbeat.
  - eapply request_reaches; [|exact H]. intros r d1. apply step_release.
Qed.

Lemma run_leases w w' : rtc run_step w w' → lease_reachable w.1 w'.1.
Proof. induction 1 as [|w w1 w2 H _ IH]; [apply rtc_refl|]. etrans; [by apply run_step_leases|exact IH]. Qed.

(** What every event of the machine is. *)
Ltac split_event H :=
  unfold on_event in H; repeat case_match; simplify_eq;
  unfold on_wait, on_heartbeat in *; repeat case_match; simplify_eq.

Lemma event_fence s e s' : on_event s e = Some s' → s_fence s' = s_fence s.
Proof. intros H. by split_event H. Qed.

Definition isSome {A} (x : option A) : bool := match x with Some _ => true | None => false end.

(** The invariant: the signal is aborted exactly after a failure, a failure of the
    heartbeat ends the loop, and the loop has ended when the lease is released. *)
Definition main_ok (s : Session T) : Prop :=
  match s_main s with
  | Executing => s_stopped s = false ∧ s_operation s = None
  | Joining => s_stopped s = true ∧ is_Some (s_operation s)
  | Releasing reason => s_stopped s = true ∧ is_Some (s_operation s) ∧ s_loop s = LoopEnded ∧ reason = release_reason s
  | Finished o => s_stopped s = true ∧ is_Some (s_operation s) ∧ s_loop s = LoopEnded ∧
                  (∀ e, s_heartbeatFailure s = Some e → o = ThrewScheduler e) ∧
                  ∀ v, o = Returned v → s_operation s = Some (match v with Some x => inl x | None => inr RejectedUndefined end)
  end.

Record session_ok (s : Session T) : Prop := {
  ok_aborted : s_aborted s = isSome (s_heartbeatFailure s) || isSome (s_terminationFailure s);
  ok_failed : isSome (s_heartbeatFailure s) = true → s_loop s = LoopEnded;
  ok_main : main_ok s
}.

Lemma returned_conclude f (s : Session T) v :
  conclude f s = Returned v → is_Some (s_operation s) →
  f = None ∧ s_heartbeatFailure s = None ∧ s_terminationFailure s = None ∧
  s_operation s = Some (match v with Some x => inl x | None => inr RejectedUndefined end).
Proof.
  unfold conclude. destruct (s_heartbeatFailure s), f, (s_terminationFailure s); try done.
  intros H [[x|r] E]; rewrite E in *; [|destruct r]; try done; by injection H as <-.
Qed.

Lemma event_ok s e s' : session_ok s → on_event s e = Some s' → session_ok s'.
Proof.
  intros [A F M] H. unfold main_ok in M.
  split_event H; (split; [cbn in *; rewrite ?A; try done; by destruct (s_heartbeatFailure _)|cbn in *; try done|
                          unfold main_ok; cbn in *; repeat case_match; simplify_eq; eauto; try tauto]).
  all: try (intros Hx; by specialize (F Hx)). all: destruct_and?; split_and!; try done; try congruence.
  all: intros x Hx; first [by apply returned_conclude in Hx as (_ & _ & _ & ?)|unfold conclude; by rewrite Hx].
Qed.

Lemma start_ok l t : session_ok (start_session l t).
Proof. by destruct t. Qed.

(** An event keeps a failure of the heartbeat and the result of the operation, and
    only the answer to the release finishes. *)
Lemma event_failure s e s' x :
  session_ok s → on_event s e = Some s' → s_heartbeatFailure s = Some x → s_heartbeatFailure s' = Some x.
Proof.
  intros [A F M] H Hx. assert (L : s_loop s = LoopEnded) by (apply F; by rewrite Hx).
  split_event H; cbn in *; congruence.
Qed.

Lemma finished_stays s e o : s_main s = Finished o → on_event s e = None.
Proof. intros H. unfold on_event. rewrite H. by destruct e. Qed.

Lemma event_unfinished s e s' : on_event s e = Some s' → unfinished s.
Proof. intros H o Ho. by rewrite (finished_stays _ _ _ Ho) in H. Qed.

Lemma finishing_event s e s' o :
  on_event s e = Some s' → s_main s' = Finished o → ∃ a reason, e = ReleaseAnswered a ∧ s_main s = Releasing reason.
Proof. intros H Ho. split_event H; cbn in *; simplify_eq; eauto; congruence. Qed.

(** The session part of a step. *)
Lemma run_step_session w w' :
  run_step w w' → w'.2 = w.2 ∨ ∃ e, on_event w.2 e = Some w'.2.
Proof. intros [ | | | | | | ]; cbn; eauto. Qed.

Lemma run_session_ok w w' : session_ok w.2 → rtc run_step w w' → session_ok w'.2 ∧ s_fence w'.2 = s_fence w.2.
Proof.
  intros Hok H. revert Hok. induction H as [w|w w1 w2 H _ IH]; intros Hok; [done|].
  assert (session_ok w1.2 ∧ s_fence w1.2 = s_fence w.2) as [Hok1 F1].
  { apply run_step_session in H as [->|[e H]]; [done|]. split; [by eapply event_ok|by eapply event_fence]. }
  destruct (IH Hok1) as [? ?]. split; [done|congruence].
Qed.

Lemma run_failure_stays w w' x :
  session_ok w.2 → rtc run_step w w' → s_heartbeatFailure w.2 = Some x → s_heartbeatFailure w'.2 = Some x.
Proof.
  intros Hok H. revert Hok. induction H as [w|w w1 w2 H _ IH]; intros Hok Hx; [done|].
  apply run_step_session in H as [E|[e H]]; [apply IH; by rewrite E|].
  apply IH; [by eapply event_ok|by eapply event_failure].
Qed.

Lemma run_finished_stays w w' o : rtc run_step w w' → s_main w.2 = Finished o → w'.2 = w.2.
Proof.
  induction 1 as [w|w w1 w2 H _ IH]; intros Ho; [done|].
  assert (w1.2 = w.2) as E; [|rewrite <- E in Ho |- *; auto].
  apply run_step_session in H as [H|[e H]]; [done|]. by rewrite (finished_stays _ _ _ Ho) in H.
Qed.

(** A run that has finished did so by an answer to its release. *)
Lemma run_finishes w w' o :
  rtc run_step w w' → unfinished w.2 → s_main w'.2 = Finished o →
  ∃ d s d1 t1 t2 reason a,
    rtc run_step w (d, s) ∧ s_main s = Releasing reason ∧
    request_answer (release t1 t2 (s_fence s) (Some reason)) d a d1 ∧
    on_event s (ReleaseAnswered a) = Some w'.2 ∧ lease_reachable d1 w'.1.
Proof.
  intros H Hu Ho. induction H as [w|w w1 w2 H H2 IH]; [by apply Hu in Ho|].
  destruct (s_main w1.2) as [| | |o1] eqn:E1.
  1-3: destruct IH as (d & s & d1 & t1 & t2 & reason & a & P & R); [intros o' Ho'; congruence|done|];
    exists d, s, d1, t1, t2, reason, a; split; [by eapply rtc_l|exact R].
  assert (w2.2 = w1.2) as -> by by eapply run_finished_stays.
  apply run_leases in H2. inversion H as [d d' s Hl|d d' s s' t1 t2 at_ n now a Hb Hq He|d d' s s' t1 t2 reason a Hm Hq He|
    d s s' now f He|d s s' r He|d s s' r He|d s s' He]; subst; cbn [fst snd] in *.
  1: by apply Hu in E1.
  2: exists d, s, d', t1, t2, reason, a; split; [apply rtc_refl|done].
  all: destruct (finishing_event _ _ _ _ He E1) as (a' & reason' & [=] & _).
Qed.
(** The run of an acquired lease, at any later moment. *)
Definition runs_from (l : SchedulerLeaseRow) (terminated : option ErrorValue) (d1 : LeaseDb) (w : LeaseDb * Session T) : Prop :=
  rtc run_step (d1, start_session l terminated) w.

(** A release that takes effect. *)
Lemma release_updated t1 t2 fence reason d l' d' :
  lease_wf d → release t1 t2 fence (Some reason) d = Ret (LeaseUpdated l', d') →
  ∃ r reason, In r (leases d) ∧ is_held r = true ∧ lease_job_name r = fence_job_name fence ∧
    token_text (lease_fencing_token r) = fence_token fence ∧
    leases d' = update_where (is_job (fence_job_name fence)) (retire t2 reason) (leases d).
Proof.
  intros Hwf H. apply fenced_mutation_spec in H as [_ [[H _]|(r & _ & Hr & H & _ & E)]]; [by destruct (H l')| |done|auto with tx].
  apply fenced_row_job in H as (J & _ & _ & K & C). unfold lease_is_current in C. apply andb_true_iff in C as [C _].
  exists r, (release_reason_or_default (Some reason)). split_and!; done.
Qed.

(** What is behind a returned value: a release, under the fence, of the lease that
    was still held. *)
Lemma run_returns l d1 d s d2 s2 v :
  lease_wf d1 → In l (leases d1) → session_ok s → s_fence s = fence_of l → lease_reachable d1 d →
  rtc run_step (d, s) (d2, s2) → unfinished s → s_main s2 = Finished (Returned v) →
  (s_heartbeatFailure s2 = None ∧ s_terminationFailure s2 = None ∧
   s_operation s2 = Some (match v with Some x => inl x | None => inr RejectedUndefined end)) ∧
  ∃ d3 r d4 t reason, lease_reachable d d3 ∧ In r (leases d3) ∧ is_held r = true ∧ fence_of r = fence_of l ∧
    lease_wf d3 ∧ lease_wf d4 ∧ lease_reachable d4 d2 ∧
    leases d4 = update_where (is_job (lease_job_name l)) (retire t reason) (leases d3).
Proof.
  intros W1 Hl Hok Hf H1 H2 Hu Hv.
  destruct (run_finishes _ _ _ H2 Hu Hv) as (d3 & s3 & d4 & t1 & t2 & reason & a & P & Hm & Hq & He & L).
  pose proof (run_leases _ _ P) as L3. destruct (run_session_ok (_, _) _ Hok P) as [[_ _ M] F3]. cbn [fst snd] in *.
  assert (L13 : lease_reachable d1 d3) by (unfold lease_reachable; by etrans).
  pose proof (proj1 (lease_history _ _ W1 L13)) as W3.
  assert (W4 : lease_wf d4).
  { eapply lease_history; [exact W3|]. eapply request_reaches; [|exact Hq]. intros. by eapply step_release. }
  unfold main_ok in M. rewrite Hm in M. destruct M as (_ & Hop & _).
  unfold on_event in He. rewrite Hm in He. injection He as He. rewrite <- He in Hv |- *. cbn in Hv |- *.
  injection Hv as Hv. apply returned_conclude in Hv as (Ha & Hh & Ht & Ho); [|done]. split; [done|].
  inversion Hq as [r d' E|r d' e E|e]; subst; try done. destruct r as [l'| |]; try done.
  apply release_updated in E as (r & reason' & Hr & Hheld & J & K & E); [|done]. rewrite F3, Hf in *. cbn in J, K, E.
  apply token_text_inj in K.
  exists d3, r, d4, t2, reason'. split_and!; try done. by eapply (same_token_holder d1 d3).
Qed.

(** C6: a command that returns the value of its operation held its lease all the
    time.  Between the acquisition and the release the lease was held under its
    fence, whatever other processes did to the table and whatever answers of the
    database were lost; no other fence of the job was ever accepted; its signal was
    never aborted; the value is that of the operation; and the lease is given back. *)
Theorem returned_value_held_lease d0 now i d1 l terminated d2 s2 v :
  lease_reachable lease_init d0 → acquire now i d0 = Ret (Acquired l, d1) →
  runs_from l terminated d1 (d2, s2) → s_main s2 = Finished (Returned v) →
  s_operation s2 = Some (match v with Some x => inl x | None => inr RejectedUndefined end) ∧ s_aborted s2 = false ∧
  (∀ d s, runs_from l terminated d1 (d, s) → rtc run_step (d, s) (d2, s2) → unfinished s →
     (∃ r, In r (leases d) ∧ fence_of r = fence_of l ∧ is_held r = true) ∧
     ∀ t f d', isCurrentFence t f d = Ret (true, d') → fence_job_name f = acq_jobName i → f = fence_of l) ∧
  (∀ r, In r (leases d2) → fence_of r = fence_of l → is_held r = false).
Proof.
  intros H0 Ha Hrun Hv. apply reachable_init_wf in H0 as W0.
  apply acquire_spec in Ha as (ttl & w & _ & Hi & Hw); [|done]. destruct w as [l'|]; [|by destruct Hw as (? & ? & _)].
  injection Hw as <-. apply insert_or_take_over_spec in Hi as [[W1 _] (Hl & Hj & _)]; [|done].
  assert (S0 : session_ok (start_session (T := T) l terminated) ∧ s_fence (start_session (T := T) l terminated) = fence_of l ∧
    unfinished (start_session (T := T) l terminated)) by (split; [apply start_ok|by destruct terminated]).
  destruct S0 as (S0 & F0 & U0).
  destruct (run_returns l d1 d1 _ d2 s2 v W1 Hl S0 F0 (rtc_refl _ _) Hrun U0 Hv)
    as [(Hh & Ht & Ho) (d3 & r & d4 & t & reason & L3 & Hr & Hheld & Hf & W3 & W4 & L4 & E)].
  pose proof (proj1 (run_session_ok (_, _) _ S0 Hrun)) as [A _ _]. cbn in A. rewrite Hh, Ht in A.
  split_and!; [done|done| |].
  - intros d s H1 H2 Hu. pose proof (run_leases _ _ H1) as L. cbn [fst] in L.
    destruct (run_session_ok (_, _) _ S0 H1) as [S F]. cbn [snd] in S, F. rewrite F0 in F.
    destruct (run_returns l d1 d s d2 s2 v W1 Hl S F L H2 Hu Hv)
      as [_ (d5 & r5 & _ & _ & _ & L5 & Hr5 & Hh5 & Hf5 & _)].
    destruct (held_in_between d1 d d5 l r5 W1 L L5 Hl Hr5 Hf5 Hh5) as (r6 & Hr6 & Hf6 & Hh6). split; [eauto|].
    intros t' f d' Hc Hjf. rewrite <- Hf6. eapply only_fence; [apply (lease_history _ _ W1 L)|exact Hr6|exact Hc|].
    inversion Hf6. congruence.
  - intros x Hx Hfx. apply not_true_iff_false. intros Hhx.
    assert (Hr4 : In (retire t reason r) (leases d4)).
    { rewrite E. apply update_where_In. exists r. split; [done|]. rewrite (proj2 (is_job_true _ _)); [done|by inversion Hf]. }
    assert (same_holder (retire t reason r) x) as [_ C].
    { eapply (same_token_holder d4 d2); [done..| |]; rewrite <- Hf in Hfx; [by inversion Hfx|by apply fence_of_token in Hfx]. }
    by specialize (C Hhx).
Qed.
(** What ScheduledCommand.v relies on. *)
Lemma finished_returns_operation l terminated d1 d2 s2 r o v :
  runs_from l terminated d1 (d2, s2) → s_main s2 = Finished o → s_operation s2 = Some r → o = Returned v →
  r = match v with Some x => inl x | None => inr RejectedUndefined end.
Proof.
  intros H Ho Hr ->. destruct (run_session_ok (_, _) _ (start_ok l terminated) H) as [[_ _ M] _]. unfold main_ok in M.
  cbn [snd] in M. rewrite Ho in M. destruct M as (_ & _ & _ & _ & M). specialize (M v eq_refl). congruence.
Qed.

(** C7: a lost lease is never hidden.  When a heartbeat is answered by anything but
    an update, the signal of the operation is aborted from then on, the lease is
    released as lost, and the run throws SCHEDULER_FENCE_LOST, whatever the operation
    makes of it and whatever happens later. *)
Theorem lost_lease_is_reported l terminated d1 d s now a s' d' d2 s2 :
  runs_from l terminated d1 (d, s) → on_event s (HeartbeatAnswered now (inl a)) = Some s' →
  (∀ r, a ≠ LeaseUpdated r) → rtc run_step (d', s') (d2, s2) →
  s_aborted s2 = true ∧ (∀ reason, s_main s2 = Releasing reason → reason = "fence_lost"%string) ∧
  ∀ o, s_main s2 = Finished o → o = ThrewScheduler (scheduler_error "SCHEDULER_FENCE_LOST").
Proof.
  intros H He Ha H2. pose proof (proj1 (run_session_ok (_, _) _ (start_ok l terminated) H)) as S. cbn [snd] in S.
  pose proof (event_ok _ _ _ S He) as S'.
  assert (Hf : s_heartbeatFailure s' = Some (scheduler_error "SCHEDULER_FENCE_LOST")).
  { split_event He; cbn; naive_solver. }
  pose proof (run_failure_stays (_, _) _ _ S' H2 Hf) as Hf2.
  destruct (run_session_ok (_, _) _ S' H2) as [[A _ M] _]. cbn [snd] in *. unfold main_ok in M. rewrite Hf2 in A.
  split; [done|]. split.
  - intros reason Hm. rewrite Hm in M. destruct M as (_ & _ & _ & ->). unfold release_reason. by rewrite Hf2.
  - intros o Hm. rewrite Hm in M. apply M, Hf2.
Qed.

(** ** Ending *)

Fixpoint run_events (s : Session T) (es : list (SchedulerEvent T)) : option (Session T) :=
  match es with
  | [] => Some s
  | e :: es' => match on_event s e with Some s' => run_events s' es' | None => None end
  end.

(** The answer the function waits for is accepted, whatever it is. *)
Definition next_accepted (s : Session T) : Prop :=
  match s_main s with
  | Executing => False
  | Joining =>
      match s_loop s with
      | LoopWaiting | LoopRetryWaiting _ _ => ∀ now failure, is_Some (on_event s (WaitEnded now failure))
      | LoopBeating _ _ => ∀ now a, is_Some (on_event s (HeartbeatAnswered now a))
      | LoopEnded => is_Some (on_event s Joined)
      end
  | Releasing _ => ∀ a, is_Some (on_event s (ReleaseAnswered a))
  | Finished _ => True
  end.

(** The events that are left for a run whose operation has settled. *)
Definition events_left (s : Session T) : nat :=
  match s_main s with
  | Executing => 0
  | Joining =>
      2 + (if isSome (s_terminationFailure s) then 0 else 1)
      + match s_loop s with LoopWaiting | LoopRetryWaiting _ _ => 1 | LoopBeating _ _ => 2 | LoopEnded => 0 end
  | Releasing _ => 1
  | Finished _ => 0
  end%nat.

Definition settled_ok (s : Session T) : Prop := session_ok s ∧ s_main s ≠ Executing.

Lemma settled_event s e s' : settled_ok s → on_event s e = Some s' → settled_ok s' ∧ (events_left s' < events_left s)%nat.
Proof.
  intros [S N] H. pose proof (event_ok _ _ _ S H) as S'. destruct S as [_ _ M]. unfold settled_ok, events_left, main_ok in *.
  split_event H; cbn in *; simplify_eq; destruct_and?; simplify_eq;
    repeat (match goal with E : s_main s = _ |- _ => rewrite E in * | E : s_loop s = _ |- _ => rewrite E in *
                       | E : s_stopped s = _ |- _ => rewrite E in * | E : s_terminationFailure s = _ |- _ => rewrite E in * end);
    cbn; try done; (split; [by split|first [lia|congruence]]).
Qed.

Lemma settled_next s : settled_ok s → next_accepted s.
Proof.
  intros [_ N]. unfold next_accepted, on_event. destruct (s_main s), (s_loop s); try done; eauto.
Qed.

(** C8: a run whose operation has ended ends itself.  After the operation has settled
    the machine takes at most five more events before it is finished, however the
    waits, heartbeats and the release are answered and whenever the process is told
    to terminate, and until then the answer it waits for is always accepted: the
    retries of the heartbeat never keep a finished command alive. *)
Theorem settled_run_ends l terminated d1 d s r s' es s'' :
  runs_from l terminated d1 (d, s) → on_event s (OperationSettled r) = Some s' → run_events s' es = Some s'' →
  (List.length es <= 5)%nat ∧ next_accepted s'' ∧ s_main s'' ≠ Executing.
Proof.
  intros H He Hes. pose proof (proj1 (run_session_ok (_, _) _ (start_ok l terminated) H)) as S. cbn [snd] in S.
  pose proof (event_ok _ _ _ S He) as S'.
  assert (Hk : settled_ok s' ∧ (events_left s' <= 5)%nat).
  { split_event He. split; [done|]. unfold events_left. cbn. destruct (s_terminationFailure s), (s_loop s); cbn; lia. }
  destruct Hk as [Hk Hn].
  assert (G : ∀ n es s', settled_ok s' → (events_left s' <= n)%nat → run_events s' es = Some s'' →
    (List.length es <= n)%nat ∧ settled_ok s'').
  { clear. induction n as [|n IH]; intros [|e es] s' Hk Hn H; cbn in H |- *; try (injection H as <-; split; [lia|done]).
    - destruct (on_event s' e) eqn:E; [|done]. apply settled_event in E as [_ ?]; [lia|done].
    - destruct (on_event s' e) as [s1|] eqn:E; [|done]. apply settled_event in E as [K L]; [|done].
      destruct (IH es s1 K) as [? ?]; [lia|done|]. split; [lia|done]. }
  destruct (G 5%nat es s' Hk Hn Hes) as [? K]. split; [done|]. split; [by apply settled_next|apply K].
Qed.

(** A heartbeat is tried again only while more than the safety margin of the lease
    is left, and the wait does not use up the margin. *)
Theorem heartbeat_retry_margin s now a s' delay n :
  on_event s (HeartbeatAnswered now a) = Some s' → s_loop s' = LoopRetryWaiting delay n →
  0 < delay ∧ delay <= HEARTBEAT_RETRY_INTERVAL_MS ∧ now + delay + HEARTBEAT_EXPIRY_SAFETY_MS <= s_leaseExpiresAtMs s'.
Proof.
  intros H Hl. split_event H; cbn in *; repeat case_match; simplify_eq; unfold retry_delay, HEARTBEAT_RETRY_INTERVAL_MS, HEARTBEAT_EXPIRY_SAFETY_MS in *; lia.
Qed.
End facts.
