(* ===== verification/ScheduledCommand.v ===== *)
(** Commands and their scheduler jobs: src/services/postgresSchedulerCommandRegistry.ts,
    src/services/postgresScheduledCommandService.ts,
    src/services/controlPlaneRuntimeContext.ts and the call in postgresOnlyCli.ts.

    A command line is resolved to the job whose lease it needs.  The command then runs
    its operation under the lease (SchedulerExecution.v), or, while PostgreSQL only
    shadows the older runtime, also without it.  [scheduled_command] is the program,
    whose requests begin and end the lease and run the operation.

    One command under its lease, evaluated: the lease is acquired, a heartbeat is
    answered with an error and tried again, the operation ends, and the lease is
    released; another run loses its lease.  The theorems about scheduled commands are
    applied to these runs. *)
From S2P Require Import Prelude.
From S2P Require Import JsString.
From S2P Require Import SchedulerLease.
From S2P Require Import WorkerPersistence.
From S2P Require Import Effects.
From S2P Require Import DatabaseConfiguration.
From S2P Require Import SchedulerExecution.

Open Scope Z_scope.

(** ** The registry *)

Definition job (name workstream : string) : PostgresSchedulerJob := {| job_jobName := name; job_workstream := workstream |}.

Module POSTGRES_SCHEDULER_JOBS.
Definition research := job "research" "research".
Definition zeroDte := job "zero-dte" "zero_dte".
Definition observatory := job "observatory" "observatory".
Definition reconciliation := job "reconciliation" "reconciliation".
Definition exitReview := job "exit-review" "exit_review".
Definition paperExit := job "paper-exit" "paper_exit".
Definition paperExecution := job "paper-execution" "paper_execution".
Definition allocation := job "allocation" "allocation".
Definition marketDataRefresh := job "market-data-refresh" "market_data_refresh".
Definition universeLifecycle := job "universe-lifecycle" "universe_lifecycle".
Definition autonomousRecovery := job "autonomous-recovery" "autonomous_recovery".
Definition optionDiscovery := job "option-discovery" "option_discovery".
Definition hedgeReview := job "hedge-review" "hedge_review".
Definition hedgeExit := job "hedge-exit" "hedge_exit".
Definition learning := job "learning" "learning".
Definition autonomousWorkerState := job "autonomous-worker-state" "autonomous_worker_state".
End POSTGRES_SCHEDULER_JOBS.

Definition POSTGRES_SCHEDULER_COMMAND_REGISTRY : list (PostgresSchedulerJob * list string) := [
  (POSTGRES_SCHEDULER_JOBS.research, ["research:daily"; "research:import"]);
  (POSTGRES_SCHEDULER_JOBS.zeroDte, ["zero-dte:engine"; "zero-dte:exit:review"; "zero-dte:eod"]);
  (POSTGRES_SCHEDULER_JOBS.observatory, ["observatory:collect"]);
  (POSTGRES_SCHEDULER_JOBS.reconciliation,
    ["zero-dte:reconcile"; "paper:reconcile:external-order"; "paper:order:cancel"; "db:postgres:authority:cutover"]);
  (POSTGRES_SCHEDULER_JOBS.exitReview,
    ["paper:exit:review"; "paper:exit-review"; "paper:ops:review"; "paper:ops:late-day"; "paper:ops:late_day"]);
  (POSTGRES_SCHEDULER_JOBS.paperExit, ["paper:exit:execute"; "paper:exit-execute"]);
  (POSTGRES_SCHEDULER_JOBS.paperExecution, ["paper:execute"; "paper:execute:reviewed"]);
  (POSTGRES_SCHEDULER_JOBS.allocation,
    ["paper:review"; "paper:portfolio:review"; "paper:ops:morning"; "paper:ops:midday"]);
  (POSTGRES_SCHEDULER_JOBS.marketDataRefresh, ["data:ingest"; "options:ingest"]);
  (POSTGRES_SCHEDULER_JOBS.universeLifecycle, ["universe:lifecycle"]);
  (POSTGRES_SCHEDULER_JOBS.autonomousRecovery, ["system:recover"]);
  (POSTGRES_SCHEDULER_JOBS.optionDiscovery, ["paper:options:discover"]);
  (POSTGRES_SCHEDULER_JOBS.hedgeReview, ["hedge:review"]);
  (POSTGRES_SCHEDULER_JOBS.hedgeExit, ["hedge:exit:review"; "hedge:exit:execute"]);
  (POSTGRES_SCHEDULER_JOBS.learning, ["paper:learn"; "paper:outcomes"]);
  (POSTGRES_SCHEDULER_JOBS.autonomousWorkerState, ["worker:state"])]%string.

(** [sections] is absent, a text or a list. *)
Inductive Sections : Type := NoSections | SectionText (s : string) | SectionList (l : list string).

Record PostgresSchedulerCommandInput := {
  ci_command : option string;
  ci_action : option string;
  ci_subaction : option string;
  ci_sections : Sections
}.

Fixpoint has_char (c : ascii) (s : string) : bool :=
  match s with EmptyString => false | String d s' => Ascii.eqb c d || has_char c s' end.

(** [s.split(c)] *)
Fixpoint split_on (c : ascii) (s : string) : list string :=
  match s with
  | EmptyString => [EmptyString]
  | String d s' =>
      if Ascii.eqb c d then EmptyString :: split_on c s'
      else match split_on c s' with x :: l => String d x :: l | [] => [String d EmptyString] end
  end.

Definition present_segment (s : option string) : list string := match s with Some s => [s] | None => [] end.

(** [segments.filter((s) => Boolean(s && !s.startsWith("--"))).join(":")], trimmed. *)
Definition normalizedCommand (i : PostgresSchedulerCommandInput) : option string :=
  match trim <$> ci_command i with
  | Some command =>
      if negb (str_truthy command) then None
      else if has_char ":" command then Some command
      else Some (String.concat ":"
             (List.filter (λ s, str_truthy s && negb (startsWith "--" s))
                (command :: map trim (present_segment (ci_action i) ++ present_segment (ci_subaction i)))))
  | None => None
  end.

Definition exitSections : list string := ["equitySells"; "optionSellToCloseExits"]%string.

Definition isExitOnlyReviewedExecution (i : PostgresSchedulerCommandInput) : bool :=
  let sections := match ci_sections i with
                  | SectionList l => l
                  | SectionText s => split_on "," s
                  | NoSections => split_on "," ""
                  end in
  let normalized := List.filter str_truthy (map trim sections) in
  negb (bool_decide (normalized = [])) && forallb (λ s, str_mem s exitSections) normalized.

Definition resolvePostgresSchedulerJob (i : PostgresSchedulerCommandInput) : option PostgresSchedulerJob :=
  match normalizedCommand i with
  | None => None
  | Some command =>
      if str_mem command ["paper:execute"; "paper:execute:reviewed"]%string && isExitOnlyReviewedExecution i
      then Some POSTGRES_SCHEDULER_JOBS.paperExit
      else fst <$> List.find (λ r, str_mem command (snd r)) POSTGRES_SCHEDULER_COMMAND_REGISTRY
  end.

(** The two inputs of postgresOnlyCli.ts: that of the decision whether a signal ends
    the command in order, and that of the command. *)
Definition cli_handler_input (command : string) (action subaction sections : option string) : PostgresSchedulerCommandInput :=
  let text o := Some (default EmptyString o) in
  {| ci_command := Some command; ci_action := text action; ci_subaction := text subaction;
     ci_sections := SectionText (default EmptyString sections) |}.

Definition cli_command_input (command : string) : PostgresSchedulerCommandInput :=
  {| ci_command := Some command; ci_action := None; ci_subaction := None; ci_sections := NoSections |}.

(** [resolvePostgresSchedulerInvocation] *)
Definition resolvePostgresSchedulerInvocation (schedulerInvocationId : string) (i : PostgresSchedulerCommandInput)
    : option (string * PostgresSchedulerJob) := pair schedulerInvocationId <$> resolvePostgresSchedulerJob i.

(** ** The runtime context

    What the operation sees of its lease: [None] outside a lease. *)

Record ControlPlaneRuntimeContext := { cc_features : DatabaseFeatureFlags; cc_aborted : bool }.

Definition CONTROL_PLANE_FENCE_LOST : string := "CONTROL_PLANE_FENCE_LOST".

Definition assertControlPlaneFenceActive (context : option ControlPlaneRuntimeContext) : res ControlPlaneRuntimeContext :=
  match context with
  | Some c => if cc_aborted c then Throw CONTROL_PLANE_FENCE_LOST else Ret c
  | None => Throw CONTROL_PLANE_FENCE_LOST
  end.

Definition assertScheduledWriteFenceActive (context : option ControlPlaneRuntimeContext)
    : res (option ControlPlaneRuntimeContext) :=
  match context with
  | Some c => if negb (schedulerAuthority (cc_features c)) then Ret (Some c)
              else if cc_aborted c then Throw CONTROL_PLANE_FENCE_LOST else Ret (Some c)
  | None => Ret None
  end.

(** ** The command *)

Section command.
Context {T : Type}.
(** [ControlPlaneFenceLostError] *)
Context (fence_lost_error : ErrorValue).

(** What a command rejects with. *)
Inductive CommandError : Type :=
| ConfigError (code : string)
| LeaseError (e : PostgresSchedulerExecutionError)
| OperationError (r : Rejection).

(** The requests.  [BeginLease] is [runWithPostgresSchedulerLease] up to the start
    of the operation, [EndLease r] what it makes of the operation's outcome,
    [SignalAborted] the state of the signal, [RunOperation leased] the operation,
    with the context of the lease or without. *)
Inductive command_effect : Type → Type :=
| LoadConfig : command_effect (res DatabaseFeatureFlags)
| BeginLease (j : PostgresSchedulerJob) : command_effect (option PostgresSchedulerExecutionError)
| SignalAborted : command_effect bool
| RunOperation (leased : bool) : command_effect (T + Rejection)
| EndLease (r : T + Rejection) : command_effect (RunOutcome T)
| EndPool : command_effect unit.

Local Abbreviation command_prog := (prog command_effect).

(** What the command returns; [undefined] is [None]. *)
Definition command_result : Type := CommandError + option T.

Definition of_operation (r : T + Rejection) : command_result :=
  match r with inl v => inr (Some v) | inr e => inl (OperationError e) end.

Definition run_operation (leased : bool) : command_prog command_result :=
  Ask (RunOperation leased) (λ r, Done (of_operation r)).

(** [operationStarted], [operationCompleted] and [operationResult]. *)
Inductive Progress : Type := NotStarted | StartedOnly | Completed (result : T).

(** The operation under the lease, with the two assertions around it. *)
Definition leased_operation (f : DatabaseFeatureFlags) : command_prog (Progress * RunOutcome T) :=
  let active aborted := assertControlPlaneFenceActive (Some {| cc_features := f; cc_aborted := aborted |}) in
  Ask SignalAborted (λ aborted : bool,
    match active aborted with
    | Throw _ => Ask (EndLease (inr (RejectedError fence_lost_error))) (λ o, Done (NotStarted, o))
    | Ret _ => Ask (RunOperation true) (λ r,
        match r with
        | inl v =>
            Ask SignalAborted (λ aborted : bool,
              Ask (EndLease match active aborted with Throw _ => inr (RejectedError fence_lost_error) | Ret _ => inl v end)
                (λ o, Done (Completed v, o)))
        | inr e => Ask (EndLease (inr e)) (λ o, Done (StartedOnly, o))
        end)
    end).

(** The [catch] of the command. *)
Definition on_failure (f : DatabaseFeatureFlags) (p : Progress) (e : CommandError) : command_prog command_result :=
  if negb (shadowComparison f) || controlPlaneAuthority f then Done (inl e)
  else match p with
       | StartedOnly => Done (inl e)
       | Completed v => Done (inr (Some v))
       | NotStarted => run_operation false
       end.

Definition under_lease (f : DatabaseFeatureFlags) (j : PostgresSchedulerJob) : command_prog command_result :=
  Ask (BeginLease j) (λ failure,
    match failure with
    | Some e => on_failure f NotStarted (LeaseError e)
    | None =>
        prog_bind (leased_operation f) (λ '(p, o),
          match o with
          | Returned v => Done (inr v)
          | ThrewScheduler e => on_failure f p (LeaseError e)
          | ThrewOperation r => on_failure f p (OperationError r)
          end)
    end).

Definition scheduled_command (i : PostgresSchedulerCommandInput) : command_prog command_result :=
  match resolvePostgresSchedulerJob i with
  | None => run_operation false
  | Some j =>
      Ask LoadConfig (λ c,
        match c with
        | Throw code => Done (inl (ConfigError code))
        | Ret f =>
            if negb (shadowComparison f) && negb (schedulerAuthority f) then run_operation false
            else prog_bind (under_lease f j) (λ r, Ask EndPool (λ _, Done r))
        end)
  end.
End command.
Arguments command_effect : clear implicits.
Arguments Progress : clear implicits.
Arguments command_result : clear implicits.

(** ** Properties *)

Section facts.
Context {T : Type} (fence_lost_error : ErrorValue).
Local Abbreviation entry := (entry (E := command_effect T)).

(** The runs of the operation in a log. *)
Definition operation_run (e : entry) : option (bool * (T + Rejection)) :=
  match e with
  | Entry e' x =>
      match e' in command_effect _ X return X → option (bool * (T + Rejection)) with
      | RunOperation leased => λ r, Some (leased, r)
      | _ => λ _, None
      end x
  end.
Definition operation_runs (l : list entry) : list (bool * (T + Rejection)) := omap operation_run l.

Definition config_loaded (e : entry) : option DatabaseFeatureFlags :=
  match e with
  | Entry e' x =>
      match e' in command_effect _ X return X → option DatabaseFeatureFlags with
      | LoadConfig => λ r, match r with Ret f => Some f | Throw _ => None end
      | _ => λ _, None
      end x
  end.

Definition lease_ended (e : entry) : option ((T + Rejection) * RunOutcome T) :=
  match e with
  | Entry e' x =>
      match e' in command_effect _ X return X → option ((T + Rejection) * RunOutcome T) with
      | EndLease r => λ o, Some (r, o)
      | _ => λ _, None
      end x
  end.

(** What SchedulerExecution.v says of a run that returns a value: it is that of
    the operation. *)
Definition returns_operation (x : (T + Rejection) * RunOutcome T) : Prop :=
  ∀ v, snd x = Returned v → fst x = match v with Some y => inl y | None => inr RejectedUndefined end.

(** PostgreSQL decides, and does not only shadow. *)
Definition postgres_decides (f : DatabaseFeatureFlags) : bool :=
  schedulerAuthority f && (negb (shadowComparison f) || controlPlaneAuthority f).

(** The log of a command that ended with [r]. *)
Definition log_ok (scheduled : bool) (l : list entry) (r : command_result T) : Prop :=
  Forall returns_operation (omap lease_ended l) →
  (List.length (operation_runs l) <= 1)%nat ∧
  (∀ v, r = inr (Some v) → ∃ leased, operation_runs l = [(leased, inl v)]) ∧
  (scheduled = true → ∀ f x, In f (omap config_loaded l) → postgres_decides f = true → In (false, x) (operation_runs l) → False).

Local Abbreviation every := (λ (_ : list entry) X (_ : command_effect T X), True).

Lemma unleased_ok b l :
  operation_runs l = [] → (b = true → ∀ f, In f (omap config_loaded l) → postgres_decides f = false) →
  monitored every extend l (run_operation false) (log_ok b).
Proof.
  intros Hl Hf. split; [done|]. intros r _. unfold extend, operation_runs in *. rewrite !omap_app, Hl. cbn.
  split_and!; [lia| |].
  - intros v Hv. destruct r; [|done]. injection Hv as ->. eauto.
  - intros Hb f x Hin Hd [[= <-]|[]]. rewrite app_nil_r in Hin. rewrite Hf in Hd; done.
Qed.

(** What a failure does at the end of a log. *)
Lemma on_failure_ok f p (e : CommandError) l :
  (∀ f', In f' (omap config_loaded l) → f' = f) →
  operation_runs l = [] ∧ p = NotStarted ∨ (∃ r, operation_runs l = [(true, r)] ∧ (p = StartedOnly ∨ ∃ v, p = Completed v ∧ r = inl v)) →
  monitored every extend l (on_failure f p e) (log_ok true).
Proof.
  intros Hc Hp. unfold on_failure. destruct (negb (shadowComparison f) || controlPlaneAuthority f) eqn:E.
  - intros _. destruct Hp as [[-> _]|(r & -> & _)]; (split_and!; [cbn; lia|done|]); [done|].
    by intros _ f' x _ _ [[=]|[]].
  - assert (D : postgres_decides f = false) by (unfold postgres_decides; by rewrite E, andb_false_r).
    destruct Hp as [[Hl ->]|(r & Hl & [->|(v & -> & ->)])].
    + apply unleased_ok; [done|]. by intros _ f' ->%Hc.
    + intros _. rewrite Hl. split_and!; [cbn; lia|done|]. by intros _ f' x _ _ [[=]|[]].
    + intros _. rewrite Hl. split_and!; [cbn; lia| |by intros _ f' x _ _ [[=]|[]]]. intros w [= ->]. eauto.
Qed.

Lemma log_ok_pool b l r u : log_ok b l r → log_ok b (l ++ [Entry EndPool u]) r.
Proof. unfold log_ok, operation_runs. rewrite !omap_app. cbn. by rewrite !app_nil_r. Qed.

(** A command under its lease. *)
Lemma under_lease_ok f j :
  monitored every extend [Entry LoadConfig (Ret f)] (under_lease fence_lost_error f j) (log_ok true).
Proof.
  assert (C : ∀ l', omap config_loaded l' = [] → ∀ f', In f' (omap config_loaded (Entry LoadConfig (Ret f) :: l')) → f' = f).
  { intros l' H f' Hf. change (In f' (f :: omap config_loaded l')) in Hf. rewrite H in Hf. by destruct Hf as [|[]]. }
  split; [done|]. intros [e|].
  { apply on_failure_ok; [by apply C|by left]. }
  cbn [monitored prog_bind leased_operation]. split; [done|]. intros [].
  - split; [done|]. intros [v|e|r].
    + intros H. apply Forall_cons in H as [H _]. specialize (H v eq_refl). by destruct v.
    + apply on_failure_ok; [by apply C|by left].
    + apply on_failure_ok; [by apply C|by left].
  - split; [done|]. intros [v|r].
    + split; [done|]. intros aborted. split; [done|]. intros [w|e|r].
      * intros H. apply Forall_cons in H as [H _]. specialize (H w eq_refl). cbn in H.
        destruct aborted, w; try done. injection H as ->. split_and!; [cbn; lia| |by intros _ f' x _ _ [[=]|[]]].
        intros w [= ->]. by exists true.
      * apply on_failure_ok; [by apply C|right; eauto 10].
      * apply on_failure_ok; [by apply C|right; eauto 10].
    + split; [done|]. intros [w|e|r'].
      * intros H. apply Forall_cons in H as [H _]. specialize (H w eq_refl). cbn in H.
        destruct w; [done|]. split_and!; [cbn; lia|done|by intros _ f' x _ _ [[=]|[]]].
      * apply on_failure_ok; [by apply C|right; eauto 10].
      * apply on_failure_ok; [by apply C|right; eauto 10].
Qed.

Lemma application_decides env c :
  loadDatabaseConfig false env None (Some application) = Ret c → postgres_decides (dc_features c) = true.
Proof.
  unfold loadDatabaseConfig. intros H. apply res_bind_Ret in H as (backend & _ & H). apply res_bind_Ret in H as (f & _ & H).
  apply res_bind_Ret in H as ([] & [_ Ha]%check_features_Ret & H). destruct (Ha eq_refl eq_refl) as [_ F%application_flags].
  destruct (runtimeDefaults _ _) as [[? ?] ?]. do 9 (apply res_bind_Ret in H as (? & _ & H)). injection H as <-.
  unfold postgres_decides. cbn [dc_features]. destruct F as ((_ & _ & -> & -> & _) & -> & _). done.
Qed.

(** C9: the operation of a command is started at most once, under its lease or
    without it, in every course of the lease, the configuration and the signal; a
    value the command returns is the value of that one operation; and with a
    configuration that loads for an application, in any environment, a scheduled
    command never runs its operation without a lease.  The hypothesis is what every run under a lease guarantees
    (SchedulerExecution.finished_returns_operation). *)
Theorem scheduled_command_runs_once i l r :
  path (scheduled_command fence_lost_error i) l (Done r) → Forall returns_operation (omap lease_ended l) →
  (List.length (operation_runs l) <= 1)%nat ∧
  (∀ v, r = inr (Some v) → ∃ leased, operation_runs l = [(leased, inl v)]) ∧
  (∀ j env c, resolvePostgresSchedulerJob i = Some j → loadDatabaseConfig false env None (Some application) = Ret c →
     In (dc_features c) (omap config_loaded l) → ∀ x, ¬ In (false, x) (operation_runs l)).
Proof.
  intros H HR. assert (L : log_ok (bool_decide (is_Some (resolvePostgresSchedulerJob i))) l r).
  { clear HR. apply (monitored_done every [] (scheduled_command fence_lost_error i) (log_ok _) l r); [|exact H].
    unfold scheduled_command. destruct (resolvePostgresSchedulerJob i) as [j|]; [|by apply unleased_ok].
    split; [done|]. intros [f|c]; [|intros _; split_and!; cbn; [lia|done|done]].
    destruct (negb (shadowComparison f) && negb (schedulerAuthority f)) eqn:E.
    { apply unleased_ok; [done|]. intros _ f' [<-|[]]. unfold postgres_decides.
      apply andb_true_iff in E as [_ ->%negb_true_iff]. done. }
    apply monitored_bind. eapply monitored_mono; [|apply under_lease_ok].
    intros l' r' H'. split; [done|]. intros u. by apply log_ok_pool. }
  destruct (L HR) as (H1 & H2 & H3). split_and!; [done..|]. intros j env c Hj Hl Hf x Hx.
  refine (H3 _ _ x Hf _ Hx); [by rewrite Hj|]. by eapply application_decides.
Qed.
End facts.

(** The registry: the aliases are distinct, and each resolves to its job. *)
Lemma registry_resolves :
  NoDup (flat_map snd POSTGRES_SCHEDULER_COMMAND_REGISTRY) ∧ NoDup (map (job_jobName ∘ fst) POSTGRES_SCHEDULER_COMMAND_REGISTRY) ∧
  Forall (λ r, Forall (λ a, resolvePostgresSchedulerJob (cli_command_input a) = Some r.1) r.2)
    POSTGRES_SCHEDULER_COMMAND_REGISTRY.
Proof.
  split_and!; [apply (bool_decide_unpack _); by vm_compute..|]. repeat (constructor; [repeat (constructor; [by vm_compute|]); constructor|]).
  constructor.
Qed.

(** For an execution of exits only, postgresOnlyCli.ts installs its handlers for the job
    paper-exit; the command itself is started without the sections, under the lease of
    paper-execution. *)
Example exits_execute_under_entry_lease :
  let sections := Some "equitySells, optionSellToCloseExits"%string in
  resolvePostgresSchedulerJob (cli_handler_input "paper:execute:reviewed" None None sections) = Some POSTGRES_SCHEDULER_JOBS.paperExit ∧
  resolvePostgresSchedulerJob (cli_command_input "paper:execute:reviewed") = Some POSTGRES_SCHEDULER_JOBS.paperExecution.
Proof. by vm_compute. Qed.

Open Scope Z_scope.

(** Every error object is a reset connection. *)
Definition resets (id : nat) : ErrorRecord :=
  {| err_code := Some "ECONNRESET"%string; err_message := None; err_cause := None; err_errors := [] |}.

Definition desk_features : DatabaseFeatureFlags := dc_features (proj1_sig desk_config).

Definition desk_run : RunWithPostgresSchedulerLeaseInput :=
  {| ri_features := desk_features; ri_job := POSTGRES_SCHEDULER_JOBS.research; ri_ownerId := "host:1"; ri_runId := "run-1";
     ri_operationId := "scheduler:run-1"; ri_leaseDurationMs := Some 60000; ri_heartbeatIntervalMs := Some 15000 |}.

Example desk_run_valid : validateInput desk_run = inr (60000, 15000).
Proof. vm_compute. reflexivity. Qed.

Definition desk_acquired : {l & {d | acquire 1000 (acquire_input desk_run 1000 60000) lease_init = Ret (Acquired l, d)}} :=
  ltac:(eexists; eexists; vm_compute; reflexivity).
Definition desk_lease_row : SchedulerLeaseRow := projT1 desk_acquired.
Definition desk_leases : LeaseDb := proj1_sig (projT2 desk_acquired).

Example desk_lease_accepted : acquired_fence desk_run (inl (Acquired desk_lease_row)) = inr desk_lease_row.
Proof. vm_compute. reflexivity. Qed.

Local Abbreviation session := (Session Z).

(** The first session and the events that follow. *)
Definition desk_start : session := start_session desk_lease_row None.

Definition after (s : session) (es : list (SchedulerEvent Z)) : session := default s (run_events resets s es).

(** The first heartbeat is lost after its commit, the second is answered. *)
Definition desk_beat1 : session := after desk_start [WaitEnded 16000 None].
Definition desk_db1 : LeaseDb :=
  match heartbeat 16000 16000 (s_fence desk_start) (Some 16000) (Some 76000) desk_leases with Ret (_, d) => d | _ => desk_leases end.
Definition desk_lost : session := after desk_beat1 [HeartbeatAnswered 16010 (inr (ErrorObject 0))].
Definition desk_beat2 : session := after desk_lost [WaitEnded 17010 None].
Definition desk_answer2 : {r & {d | heartbeat 17010 17010 (s_fence desk_start) (Some 17010) (Some 77010) desk_db1 = Ret (r, d)}} :=
  ltac:(eexists; eexists; vm_compute; reflexivity).
Definition desk_db2 : LeaseDb := proj1_sig (projT2 desk_answer2).
Definition desk_renewed : session := after desk_beat2 [HeartbeatAnswered 17020 (inl (projT1 desk_answer2))].
Definition desk_settled : session := after desk_renewed [OperationSettled (inl 42)].
Definition desk_joined : session := after desk_settled [WaitEnded 20000 None; Joined].
Definition desk_answer3 : {r & {d | release 20010 20010 (s_fence desk_start) (Some "completed"%string) desk_db2 = Ret (r, d)}} :=
  ltac:(eexists; eexists; vm_compute; reflexivity).
Definition desk_db3 : LeaseDb := proj1_sig (projT2 desk_answer3).
Definition desk_over : session := after desk_joined [ReleaseAnswered (inl (projT1 desk_answer3))].

Example desk_run_retries : s_loop desk_lost = LoopRetryWaiting 1000 1.
Proof. vm_compute. reflexivity. Qed.

Lemma desk_runs_to_beat : runs_from resets 60000 desk_lease_row None desk_leases (desk_db1, desk_beat2).
Proof.
  unfold runs_from. change (start_session desk_lease_row None) with desk_start.
  eapply rtc_l; [eapply (run_wait _ _ _ _ desk_beat1 16000 None); vm_compute; reflexivity|].
  eapply rtc_l.
  { eapply (run_heartbeat resets 60000 desk_leases desk_db1 desk_beat1 desk_lost 16000 16000 16000 0 16010 (inr (ErrorObject 0)));
      [vm_compute; reflexivity| |vm_compute; reflexivity].
    eapply answer_lost. vm_compute. reflexivity. }
  eapply rtc_l; [eapply (run_wait _ _ _ _ desk_beat2 17010 None); vm_compute; reflexivity|apply rtc_refl].
Qed.

Lemma desk_runs_to_settled : runs_from resets 60000 desk_lease_row None desk_leases (desk_db2, desk_renewed).
Proof.
  eapply rtc_r; [apply desk_runs_to_beat|].
  eapply (run_heartbeat resets 60000 desk_db1 desk_db2 desk_beat2 desk_renewed 17010 17010 17010 1 17020 (inl (projT1 desk_answer2)));
    [vm_compute; reflexivity| |vm_compute; reflexivity].
  apply answered. exact (proj2_sig (projT2 desk_answer2)).
Qed.

Lemma desk_runs : runs_from resets 60000 desk_lease_row None desk_leases (desk_db3, desk_over).
Proof.
  unfold runs_from. etrans; [apply desk_runs_to_settled|].
  eapply rtc_l; [eapply (run_settled _ _ _ _ desk_settled (inl 42)); vm_compute; reflexivity|].
  eapply rtc_l; [eapply (run_wait _ _ _ _ (after desk_settled [WaitEnded 20000 None]) 20000 None); vm_compute; reflexivity|].
  eapply rtc_l; [eapply (run_joined _ _ _ _ desk_joined); vm_compute; reflexivity|].
  eapply rtc_l; [|apply rtc_refl].
  eapply (run_release resets 60000 desk_db2 desk_db3 desk_joined desk_over 20010 20010 "completed" (inl (projT1 desk_answer3)));
    [vm_compute; reflexivity| |vm_compute; reflexivity].
  apply answered. exact (proj2_sig (projT2 desk_answer3)).
Qed.

Lemma returned_value_held_lease_witness :
  s_main desk_over = Finished (Returned (Some 42)) ∧ s_aborted desk_over = false ∧
  ∀ r, In r (leases desk_db3) → fence_of r = fence_of desk_lease_row → is_held r = false.
Proof.
  assert (H : s_main desk_over = Finished (Returned (Some 42))) by (vm_compute; reflexivity).
  split; [exact H|].
  destruct (returned_value_held_lease resets 60000 lease_init 1000 (acquire_input desk_run 1000 60000) desk_leases
    desk_lease_row None desk_db3 desk_over (Some 42) (rtc_refl _ _) (proj2_sig (projT2 desk_acquired)) desk_runs H)
    as (_ & A & _ & R).
  exact (conj A R).
Defined.

Definition desk_rejected : session :=
  after desk_beat2 [HeartbeatAnswered 17020 (inl (LeaseFenceRejected "2"%string))].

Lemma lost_lease_is_reported_witness :
  s_main desk_rejected = Executing ∧ s_aborted desk_rejected = true.
Proof.
  split; [vm_compute; reflexivity|].
  exact (proj1 (lost_lease_is_reported resets 60000 desk_lease_row None desk_leases desk_db1 desk_beat2 17020
    (LeaseFenceRejected "2") desk_rejected desk_db1 desk_db1 desk_rejected desk_runs_to_beat
    (ltac:(vm_compute; reflexivity)) (λ r, ltac:(discriminate)) (rtc_refl _ _))).
Defined.

Lemma settled_run_ends_witness :
  run_events resets desk_settled [WaitEnded 20000 None; Joined] = Some desk_joined ∧ s_main desk_joined ≠ Executing.
Proof.
  assert (H : run_events resets desk_settled [WaitEnded 20000 None; Joined] = Some desk_joined) by (vm_compute; reflexivity).
  split; [exact H|].
  exact (proj2 (proj2 (settled_run_ends resets 60000 desk_lease_row None desk_leases desk_db2 desk_renewed (inl 42) desk_settled
    [WaitEnded 20000 None; Joined] desk_joined desk_runs_to_settled (ltac:(vm_compute; reflexivity)) H))).
Defined.

(** A research command whose operation returns 42. *)
Definition desk_command : PostgresSchedulerCommandInput := cli_command_input "research:daily".

Definition desk_log : list (entry (E := command_effect Z)) :=
  [Entry LoadConfig (Ret desk_features); Entry (BeginLease POSTGRES_SCHEDULER_JOBS.research) None; Entry SignalAborted false;
   Entry (RunOperation true) (inl 42); Entry SignalAborted false; Entry (EndLease (inl 42)) (Returned (Some 42)); Entry EndPool tt].

Lemma scheduled_command_runs_once_witness :
  resolvePostgresSchedulerJob desk_command = Some POSTGRES_SCHEDULER_JOBS.research ∧
  ∃ leased, operation_runs desk_log = [(leased, inl 42)].
Proof.
  split; [vm_compute; reflexivity|].
  assert (P : path (scheduled_command OtherValue desk_command) desk_log (Done (inr (Some 42)))) by (repeat constructor).
  assert (R : Forall returns_operation (omap lease_ended desk_log)).
  { constructor; [|constructor]. intros v H. injection H as <-. reflexivity. }
  exact (proj1 (proj2 (scheduled_command_runs_once OtherValue desk_command desk_log _ P R)) 42 eq_refl).
Defined.
