(* ===== verification/FencedHistory.v ===== *)
(** Programs over tables that other processes use at the same time.

    [executes handle others p w a w'] says that the program [p], started in the world
    [w], ends with [a] in [w'], where the outside answers its requests by [handle] and
    does what [others] allows in between.  A [World] has a clock that does not go
    back, the table of leases and the tables of a component; a statement is committed,
    refused, or its answer is lost.  A fence that holds now has held at every
    earlier time since it was issued. *)

From S2P Require Import Prelude.
From S2P Require Import JsString.
From S2P Require Import Effects.
From S2P Require Import SchedulerLease.
From S2P Require Import ExecutionTables.
From S2P Require Import WorkerPersistence.
From S2P Require Import SchedulerExecution.
Open Scope Z_scope.

(** ** Executions *)

Section executions.
Context {E : Type → Type} {S : Type}.
Context (handle : ∀ X, E X → S → X → S → Prop) (others : S → S → Prop).

Fixpoint executes {A} (p : prog E A) (w : S) (a : A) (w' : S) : Prop :=
  match p with
  | Done b => a = b ∧ rtc others w w'
  | Ask e k => ∃ w1 x w2, rtc others w w1 ∧ handle _ e w1 x w2 ∧ executes (k x) w2 a w'
  end.

Lemma executes_bind {A B} (p : prog E A) (f : A → prog E B) w b w' :
  executes (prog_bind p f) w b w' → ∃ a w1, executes p w a w1 ∧ executes (f a) w1 b w'.
Proof.
  revert w. induction p as [a|X e k IH]; intros w; cbn [prog_bind executes].
  - intros H. exists a, w. done.
  - intros (w1 & x & w2 & H1 & Hx & H). apply IH in H as (a & w3 & Hp & H). exists a, w3. naive_solver.
Qed.

(** What follows a part that resolves, and what a rejection skips. *)
Lemma executes_async_bind {A B} (p : async E A) (f : A → async E B) w b w' :
  executes (async_bind p f) w b w' →
  (∃ a w1, executes p w (Ret a) w1 ∧ executes (f a) w1 b w') ∨
  (∃ c w1, executes p w (Throw c) w1 ∧ b = Throw c ∧ rtc others w1 w').
Proof.
  intros (r & w1 & Hp & H)%executes_bind. destruct r as [a|c]; [left; eauto|right]. destruct H as [-> H]. eauto.
Qed.

Lemma executes_async_Ret {A B} (p : async E A) (f : A → async E B) w b w' :
  executes (async_bind p f) w (Ret b) w' → ∃ a w1, executes p w (Ret a) w1 ∧ executes (f a) w1 (Ret b) w'.
Proof. intros [?|(c & w1 & _ & [=] & _)]%executes_async_bind. done. Qed.

Lemma executes_ask {A} (e : E (res A)) w r w' :
  executes (ask e) w r w' → ∃ w1 w2, rtc others w w1 ∧ handle _ e w1 r w2 ∧ rtc others w2 w'.
Proof. intros (w1 & x & w2 & H1 & Hx & -> & H2). eauto. Qed.

Lemma executes_ret {A} (a b : A) w w' : executes (async_ret a) w (Ret b) w' → a = b ∧ rtc others w w'.
Proof. by intros [[= ->] H]. Qed.

Lemma executes_reject_if b c w u w' : executes (reject_if b c) w (Ret u) w' → b = false ∧ rtc others w w'.
Proof. destruct b; [by intros [[=] _]|by intros [_ H]]. Qed.

(** What everything keeps, an execution keeps. *)
Lemma executes_keeps (R : S → S → Prop) `{!PreOrder R} {A} (p : prog E A) w a w' :
  (∀ X (e : E X) w x w1, handle X e w x w1 → R w w1) → (∀ w w1, others w w1 → R w w1) →
  executes p w a w' → R w w'.
Proof.
  intros Hh Ho. assert (Hr : ∀ w w1, rtc others w w1 → R w w1).
  { induction 1 as [|w1 w2 w3 H _ IH]; [done|]. etrans; [by apply Ho|done]. }
  revert w. induction p as [b|X e k IH]; intros w; cbn [executes]; [by intros [_ H]; auto|].
  intros (w1 & x & w2 & H1 & Hx & H). etrans; [by apply Hr|]. etrans; [by eapply Hh|by eapply IH].
Qed.

(** Every request of the program is allowed. *)
Fixpoint asks (allowed : ∀ X, E X → Prop) {A} (p : prog E A) : Prop :=
  match p with Done _ => True | Ask e k => allowed _ e ∧ ∀ x, asks allowed (k x) end.

Lemma asks_bind allowed {A B} (p : prog E A) (f : A → prog E B) :
  asks allowed p → (∀ a, asks allowed (f a)) → asks allowed (prog_bind p f).
Proof. intros Hp Hf. induction p as [a|X e k IH]; cbn [prog_bind asks] in *; [done|]. destruct Hp. split; [done|]. auto. Qed.

Lemma asks_async_bind allowed {A B} (p : async E A) (f : A → async E B) :
  asks allowed p → (∀ a, asks allowed (f a)) → asks allowed (async_bind p f).
Proof. intros Hp Hf. apply asks_bind; [done|]. by intros []. Qed.

Lemma asks_attempt allowed {A} (p : async E A) h : asks allowed p → (∀ c, asks allowed (h c)) → asks allowed (attempt p h).
Proof. intros Hp Hh. apply asks_bind; [done|]. by intros []. Qed.

Lemma asks_reject_if allowed b c : asks allowed (reject_if b c).
Proof. by destruct b. Qed.

(** What the allowed requests and everything else keep, an execution keeps. *)
Lemma executes_asks (allowed : ∀ X, E X → Prop) (R : S → S → Prop) `{!PreOrder R} {A} (p : prog E A) w a w' :
  (∀ X (e : E X) w x w1, allowed X e → handle X e w x w1 → R w w1) → (∀ w w1, others w w1 → R w w1) →
  asks allowed p → executes p w a w' → R w w'.
Proof.
  intros Hh Ho Ha. assert (Hr : ∀ w w1, rtc others w w1 → R w w1).
  { induction 1 as [|w1 w2 w3 H _ IH]; [done|]. etrans; [by apply Ho|done]. }
  revert w Ha. induction p as [b|X e k IH]; intros w; cbn [executes asks]; [by intros _ [_ H]; auto|].
  intros [He Hk] (w1 & x & w2 & H1 & Hx & H). etrans; [by apply Hr|]. etrans; [by eapply Hh|by eapply IH].
Qed.

(** An undisturbed run is an execution. *)
Lemma run_executes (answer : ∀ X, E X → S → X * S) {A} (p : prog E A) w :
  (∀ X (e : E X) w, handle X e w (answer X e w).1 (answer X e w).2) → executes p w (run answer p w).1 (run answer p w).2.
Proof.
  intros Ha. revert w. induction p as [a|X e k IH]; intros w; cbn [run executes]; [done|].
  pose proof (Ha X e w) as Hx. destruct (answer X e w) as [x w1]. exists w, x, w1. split; [done|]. split; [done|]. apply IH.
Qed.
End executions.

Create HintDb asks discriminated.
#[export] Hint Resolve asks_bind asks_async_bind asks_attempt asks_reject_if : asks.

(** ** Leases and time *)

(** The steps of other processes whose clocks are at [t] or later. *)
Inductive lease_step_from (t : Z) (db : LeaseDb) : LeaseDb → Prop :=
| from_acquire now i r db' : t ≤ now → acquire now i db = Ret (r, db') → lease_step_from t db db'
| from_heartbeat t1 t2 f hb ex r db' :
    t ≤ t2 → heartbeat t1 t2 f hb ex db = Ret (r, db') → lease_step_from t db db'
| from_release t1 t2 f reason r db' : t ≤ t2 → release t1 t2 f reason db = Ret (r, db') → lease_step_from t db db'
| from_rolled_back n : 0 <= n → lease_step_from t db {| leases := leases db; token_seq := token_seq db + n |}.

Lemma lease_step_from_step t d d' : lease_step_from t d d' → lease_step d d'.
Proof. intros []; [by eapply step_acquire|by eapply step_heartbeat|by eapply step_release|by apply step_rolled_back]. Qed.

Lemma lease_steps_from t d d' : rtc (lease_step_from t) d d' → lease_reachable d d'.
Proof. apply rtc_congruence with (f := id). apply lease_step_from_step. Qed.

Lemma lease_step_from_later t t' d d' : t' ≤ t → lease_step_from t d d' → lease_step_from t' d d'.
Proof.
  intros Ht []; [eapply from_acquire|eapply from_heartbeat|eapply from_release|by apply from_rolled_back];
    [|eassumption| |eassumption| |eassumption]; lia.
Qed.

Lemma current_earlier t t' r : t' ≤ t → lease_is_current t r = true → lease_is_current t' r = true.
Proof. unfold lease_is_current. rewrite !andb_true_iff, !Z.ltb_lt. naive_solver lia. Qed.

(** The row of the same fence is not current at [t] again once it was not. *)
Definition stays_current (t : Z) (r r' : SchedulerLeaseRow) : Prop :=
  fence_of r' = fence_of r ∧ (lease_is_current t r' = true → lease_is_current t r = true).
Definition succeeds_from (t : Z) (r r' : SchedulerLeaseRow) : Prop :=
  lease_job_name r' = lease_job_name r ∧ (lease_fencing_token r < lease_fencing_token r' ∨ stays_current t r r').
Definition rows_advance_from (t : Z) (d d' : LeaseDb) : Prop :=
  ∀ r, In r (leases d) → ∃ r', In r' (leases d') ∧ succeeds_from t r r'.

#[export] Instance rows_advance_from_preorder t : PreOrder (rows_advance_from t).
Proof.
  split.
  - intros d r Hr. exists r. split; [done|]. split; [done|]. by right.
  - intros d1 d2 d3 H1 H2 r Hr. destruct (H1 r Hr) as (r1 & Hr1 & J1 & C1). destruct (H2 r1 Hr1) as (r2 & Hr2 & J2 & C2).
    exists r2. split; [done|]. split; [congruence|]. destruct C1 as [?|[F1 S1]], C2 as [?|[F2 S2]]; [left; lia|..].
    + left. by rewrite (fence_of_token _ _ F2).
    + left. by rewrite <- (fence_of_token _ _ F1).
    + right. split; [congruence|auto].
Qed.

Lemma same_rows_from t d d' : leases d' = leases d → rows_advance_from t d d'.
Proof. intros E r Hr. exists r. rewrite E. split; [done|]. split; [done|]. by right. Qed.

(** A mutation of the job's row, which was current at [t] or stops being so. *)
Lemma mutation_from t f job d d' r0 :
  lease_wf d → In r0 (leases d) → lease_job_name r0 = job → fence_of (f r0) = fence_of r0 →
  (lease_is_current t (f r0) = true → lease_is_current t r0 = true) →
  leases d' = update_where (is_job job) f (leases d) → rows_advance_from t d d'.
Proof.
  intros Hwf Hr0 Hj Hf Hc E r Hr. exists (if is_job job r then f r else r). rewrite E.
  split; [apply update_where_In; eauto|]. destruct (is_job job r) eqn:Ej.
  - apply is_job_true in Ej. assert (r = r0) as ->.
    { eapply (unique_key lease_job_name); [apply Hwf|done..|congruence]. }
    split; [by inversion Hf|by right].
  - split; [done|by right].
Qed.

Lemma lease_step_from_advances t d d' : lease_wf d → lease_step_from t d d' → rows_advance_from t d d'.
Proof.
  intros Hwf [now i r d1 Ht H|t1 t2 f hb ex r d1 Ht H|t1 t2 f reason r d1 Ht H|n Hn].
  - apply acquire_spec in H as (ttl & w & _ & H & _); [|done]. apply insert_or_take_over_spec in H as [_ H]; [|done].
    destruct w as [l|]; [|by apply same_rows_from; destruct H].
    destruct H as (Hl & Hj & _ & _ & _ & Hk & _ & _ & _ & Ho). intros r0 Hr.
    destruct (decide (lease_job_name r0 = acq_jobName i)) as [E|E].
    + exists l. split; [done|]. split; [congruence|]. left. rewrite Hk. by apply Hwf.
    + exists r0. split; [by apply Ho|]. split; [done|by right].
  - apply heartbeat_runs in H as (ttl & _ & H).
    apply fenced_mutation_spec in H as [_ [[_ ->]|(r0 & _ & Hr0 & _ & Hc & E)]]; [done| |done|auto with tx].
    apply fenced_row_job in Hc as (Hj & _ & _ & _ & Hc).
    refine (mutation_from t _ _ d d1 r0 Hwf Hr0 Hj _ _ E); [done|]. intros _. by eapply current_earlier.
  - apply fenced_mutation_spec in H as [_ [[_ ->]|(r0 & _ & Hr0 & _ & Hc & E)]]; [done| |done|auto with tx].
    apply fenced_row_job in Hc as (Hj & _). by refine (mutation_from t _ _ d d1 r0 Hwf Hr0 Hj _ _ E).
  - by apply same_rows_from.
Qed.

Lemma lease_history_from t d d' : lease_wf d → rtc (lease_step_from t) d d' → lease_wf d' ∧ rows_advance_from t d d'.
Proof.
  intros Hwf H. revert Hwf. induction H as [d|d d1 d2 Hs _ IH]; intros Hwf; [done|].
  pose proof (lease_step_from_advances _ _ _ Hwf Hs) as A.
  destruct (IH (proj1 (lease_step_wf _ _ Hwf (lease_step_from_step _ _ _ Hs)))) as [W A']. split; [done|by etrans].
Qed.

Lemma fenceSql_row now f rows :
  fenceSql now f rows = true ↔ ∃ r, In r rows ∧ fence_of r = f ∧ lease_is_current now r = true.
Proof.
  unfold fenceSql. rewrite existsb_exists. split.
  - intros (r & Hr & H). rewrite !andb_true_iff, !String.eqb_eq in H. destruct H as [[[[[H1 H2] H3] H4] H5] H6].
    exists r. split_and!; [done| |done]. destruct f. cbn in *. unfold fence_of. congruence.
  - intros (r & Hr & <- & H). exists r. split; [done|]. cbn. by rewrite !String.eqb_refl, H.
Qed.

(** ** Worlds *)

Record World (D : Type) := { w_clock : Z; w_leases : LeaseDb; w_data : D }.
Arguments w_clock {D} _.
Arguments w_leases {D} _.
Arguments w_data {D} _.
Arguments Build_World {D} _ _ _.

(** The fence, checked by a statement at time [t]. *)
Definition holds_at {D} (t : Z) (f : SchedulerFence) (w : World D) : bool := fenceSql t f (leases (w_leases w)).

Section worlds.
Context {D : Type}.
Implicit Types w : World D.

(** Time passes, and leases change accordingly. *)
Definition leases_move w w' : Prop :=
  w_clock w ≤ w_clock w' ∧ rtc (lease_step_from (w_clock w)) (w_leases w) (w_leases w').

#[export] Instance leases_move_preorder : PreOrder leases_move.
Proof.
  split; [by intros w; split|]. intros w1 w2 w3 [C1 L1] [C2 L2]. split; [lia|]. etrans; [exact L1|].
  revert L2. apply rtc_congruence with (f := id). intros x y. by apply lease_step_from_later.
Qed.

(** A fence that held once and holds later held at every time in between. *)
Lemma fence_held_before f w0 w1 w2 t0 t1 t2 :
  lease_wf (w_leases w0) → holds_at t0 f w0 = true → leases_move w0 w1 → leases_move w1 w2 →
  t1 ≤ w_clock w1 → t1 ≤ t2 → holds_at t2 f w2 = true → holds_at t1 f w1 = true.
Proof.
  unfold holds_at. intros Hwf H0 [C1 L1] [C2 L2] Ht1 Ht H2. apply fenceSql_row in H0 as (r0 & Hr0 & F0 & _).
  apply fenceSql_row in H2 as (r2 & Hr2 & F2 & K2). pose proof (lease_steps_from _ _ _ L1) as R1.
  destruct (lease_history _ _ Hwf R1) as [W1 _]. assert (Hh : is_held r2 = true).
  { unfold lease_is_current in K2. by apply andb_true_iff in K2 as [? _]. }
  destruct (held_in_between _ _ _ r0 r2 Hwf R1 (lease_steps_from _ _ _ L2) Hr0 Hr2 ltac:(congruence) Hh) as (r1 & Hr1 & F1 & _).
  assert (L2' : rtc (lease_step_from t1) (w_leases w1) (w_leases w2)).
  { revert L2. apply rtc_congruence with (f := id). intros x y. by apply lease_step_from_later. }
  destruct (lease_history_from _ _ _ W1 L2') as [W2 A]. destruct (A r1 Hr1) as (r & Hr & J & Hc).
  assert (r = r2) as ->.
  { eapply (unique_key lease_job_name); [apply W2|done..|]. assert (fence_of r2 = fence_of r1) as Hff by congruence.
    inversion Hff. congruence. }
  apply fenceSql_row. exists r1. split_and!; [done|congruence|]. destruct Hc as [Hc|[_ Hc]].
  - assert (fence_of r2 = fence_of r1) as Hff%fence_of_token by congruence. lia.
  - apply Hc. by eapply current_earlier.
Qed.

(** ** Statements *)

(** A statement reads the clock and the leases and works on the tables. *)
Definition statement (A : Type) : Type := Z → list SchedulerLeaseRow → tx D A.

(** The answers to a statement.  A lost answer says nothing about the effect. *)
Inductive answered {A} (m : statement A) w : res A → World D → Prop :=
| answered_committed t a d' :
    w_clock w ≤ t → m t (leases (w_leases w)) (w_data w) = Ret (a, d') →
    answered m w (Ret a) {| w_clock := t; w_leases := w_leases w; w_data := d' |}
| answered_refused t c :
    w_clock w ≤ t → m t (leases (w_leases w)) (w_data w) = Throw c →
    answered m w (Throw c) {| w_clock := t; w_leases := w_leases w; w_data := w_data w |}
| answered_lost t a d' c :
    w_clock w ≤ t → m t (leases (w_leases w)) (w_data w) = Ret (a, d') → c ≠ unique_violation →
    answered m w (Throw c) {| w_clock := t; w_leases := w_leases w; w_data := d' |}
| answered_never c :
    c ≠ unique_violation → answered m w (Throw c) w.

(** The answer to a statement that nothing disturbs. *)
Definition commit {A} (m : statement A) w : res A * World D :=
  match m (w_clock w) (leases (w_leases w)) (w_data w) with
  | Ret (a, d') => (Ret a, {| w_clock := w_clock w; w_leases := w_leases w; w_data := d' |})
  | Throw c => (Throw c, w)
  end.

Lemma commit_answered {A} (m : statement A) w : answered m w (commit m w).1 (commit m w).2.
Proof.
  unfold commit. destruct (m _ _ _) as [[a d']|c] eqn:E; cbn; [by apply answered_committed|].
  destruct w as [t l d]. by apply (answered_refused _ {| w_clock := t; w_leases := l; w_data := d |} t).
Qed.

Lemma answered_move {A} (m : statement A) w r w' : answered m w r w' → leases_move w w'.
Proof. by intros []; split. Qed.

(** What every outcome of a statement keeps of the tables, its answers keep. *)
Lemma answered_data {A} (m : statement A) (R : D → D → Prop) `{!Reflexive R} w r w' :
  (∀ t rows d a d', m t rows d = Ret (a, d') → R d d') → answered m w r w' → R (w_data w) (w_data w').
Proof. intros Hm []; cbn; [by eapply Hm|done|by eapply Hm|done]. Qed.

Lemma answered_Ret {A} (m : statement A) w a w' :
  answered m w (Ret a) w' →
  w_clock w ≤ w_clock w' ∧ w_leases w' = w_leases w ∧
  m (w_clock w') (leases (w_leases w)) (w_data w) = Ret (a, w_data w').
Proof. inversion 1. naive_solver. Qed.

(** [INSERT ... ON CONFLICT (target) DO NOTHING] into a table: the CHECK constraints
    first, then the keys, then the foreign keys; whether a row was written. *)
Definition insert_unless_exists {R} (check : bool) (target conflicts : R → R → bool) (references : bool) (r : R)
    (t : list R) : res (bool * list R) :=
  if negb check then Throw check_failed
  else if existsb (target r) t then Ret (false, t)
  else if existsb (conflicts r) t then Throw unique_violation
  else if references then Ret (true, t ++ [r]) else Throw "23503".

Lemma insert_unless_exists_Ret {R} check target conflicts references (r : R) t b t' :
  insert_unless_exists check target conflicts references r t = Ret (b, t') ↔
  check = true ∧
  if b then existsb (target r) t = false ∧ existsb (conflicts r) t = false ∧ references = true ∧ t' = t ++ [r]
  else existsb (target r) t = true ∧ t' = t.
Proof.
  unfold insert_unless_exists. destruct check, (existsb (target r) t), (existsb (conflicts r) t), references, b; naive_solver.
Qed.

(** What other processes may do: any step of leases, and [data_step] to the tables. *)
Definition moves (data_step : D → D → Prop) w w' : Prop := leases_move w w' ∧ data_step (w_data w) (w_data w').

#[export] Instance moves_preorder data_step `{!PreOrder data_step} : PreOrder (moves data_step).
Proof. split; [by split|]. intros w1 w2 w3 [L1 D1] [L2 D2]. split; by etrans. Qed.

Lemma moves_rtc data_step `{!PreOrder data_step} w w' : rtc (moves data_step) w w' → moves data_step w w'.
Proof. induction 1 as [|w1 w2 w3 H _ IH]; [done|by etrans]. Qed.

(** What every answer and every other process keeps of the tables. *)
Definition on_data (R : D → D → Prop) w w' : Prop := R (w_data w) (w_data w').
#[export] Instance on_data_preorder R `{!PreOrder R} : PreOrder (on_data R).
Proof. split; [by intros w; unfold on_data|]. intros w1 w2 w3. unfold on_data. apply transitivity. Qed.

Lemma executes_data {E : Type → Type} (handle : ∀ X, E X → World D → X → World D → Prop) (data_step R : D → D → Prop)
    `{!PreOrder R} {A} (p : prog E A) w a w' :
  (∀ X (e : E X) w x w1, handle X e w x w1 → R (w_data w) (w_data w1)) → (∀ d d', data_step d d' → R d d') →
  executes handle (moves data_step) p w a w' → R (w_data w) (w_data w').
Proof.
  intros Hh Hd. apply (executes_keeps _ _ (on_data R)); [exact Hh|]. intros w1 w2 [_ H]. by apply Hd.
Qed.
End worlds.
Arguments statement D A : clear implicits.
