(* ===== verification/ResearchSignals.v ===== *)
(** Research signals: src/services/researchSignalAdapterService.ts.

    A signal is what an external analysis says about a symbol.  An import turns the
    documents of a request into signals or rejections, and a signal moves the score
    of a candidate, for one lane, by a bounded amount.  A time stamp that was printed
    by toISOString is the milliseconds it denotes.  Texts are ASCII. *)

From Stdlib Require Import Floats.
From S2P Require Import Prelude.
From S2P Require Import JsString.
From S2P Require Import JsDate.
From S2P Require Import JsNumber.
From S2P Require Import JsText.
From S2P Require Import JsJson.
From S2P Require Import CanonicalJson.
From S2P Require Import AlpacaClient.
From S2P Require Import ReviewEvidence.
Open Scope Z_scope.

Inductive ResearchHorizon : Set := intraday | short_term | medium_term | long_term.
Inductive ResearchThesisDirection : Set := bullish | bearish | thesis_neutral.
Inductive ResearchContradictionStatus : Set := not_contradicted | is_contradicted.
Inductive ResearchUsabilityState : Set :=
| signal_current | signal_expired | signal_contradicted | signal_invalid | signal_unavailable.
Inductive ResearchDecisionLane : Set := lane_equity | lane_0dte | lane_leaps.
Inductive TargetDirection : Set := long_target | short_target | neutral_target.
#[export] Instance ResearchHorizon_eq_dec : EqDecision ResearchHorizon.
Proof. solve_decision. Defined.
#[export] Instance ResearchThesisDirection_eq_dec : EqDecision ResearchThesisDirection.
Proof. solve_decision. Defined.
#[export] Instance ResearchContradictionStatus_eq_dec : EqDecision ResearchContradictionStatus.
Proof. solve_decision. Defined.
#[export] Instance ResearchUsabilityState_eq_dec : EqDecision ResearchUsabilityState.
Proof. solve_decision. Defined.
#[export] Instance ResearchDecisionLane_eq_dec : EqDecision ResearchDecisionLane.
Proof. solve_decision. Defined.
#[export] Instance TargetDirection_eq_dec : EqDecision TargetDirection.
Proof. solve_decision. Defined.

(** What a provider says. *)
Record SignalContent := {
  sg_provider : string;
  sg_providerSignalId : option string;
  sg_symbol : string;
  sg_asOf : Z;
  sg_horizon : ResearchHorizon;
  sg_thesisSummary : option string;
  sg_thesisDirection : option ResearchThesisDirection;
  sg_confidence : option number;
  sg_catalysts : list string;
  sg_catalystDates : list Z;
  sg_risks : list string;
  sg_invalidationConditions : list string;
  sg_contradictionStatus : option ResearchContradictionStatus;
  sg_contradictionReason : option string;
  sg_valuationSummary : option string;
  sg_sourceReferences : list string;
  sg_expiresOrReviewAt : option Z
}.

Record NormalizedResearchSignal := {
  sg_id : string;
  sg_content : SignalContent;
  sg_ingestionTimestamp : Z;
  sg_contentHash : string;
  sg_schemaVersion : Z
}.

Record ResearchSignalRejection := { rj_index : option nat; rj_reasonCode : string; rj_message : string }.

Record ResearchImportNormalizationResult := {
  ni_schemaVersion : option number;
  ni_accepted : list NormalizedResearchSignal;
  ni_rejected : list ResearchSignalRejection
}.

Record ResearchSignalConfiguration := {
  maxAgeDaysByHorizon : ResearchHorizon → number;
  directionScoreAdjustment : number
}.

Record LaneResearchInfluence := {
  in_signalId : option string;
  in_provider : option string;
  in_asOf : option Z;
  in_horizon : option ResearchHorizon;
  in_sourceReferences : list string;
  in_state : ResearchUsabilityState;
  in_scoreAdjustment : number;
  in_reasonCodes : list string
}.

Definition RESEARCH_SIGNAL_SCHEMA_VERSION : Z := 1.
Definition RESEARCH_IMPORT_MAX_SIGNALS : nat := 100.

(** ** Names *)

Definition horizon_text (h : ResearchHorizon) : string :=
  match h with
  | intraday => "intraday" | short_term => "short_term" | medium_term => "medium_term" | long_term => "long_term"
  end.
Definition direction_text (d : ResearchThesisDirection) : string :=
  match d with bullish => "bullish" | bearish => "bearish" | thesis_neutral => "neutral" end.
Definition contradiction_text (c : ResearchContradictionStatus) : string :=
  match c with not_contradicted => "not_contradicted" | is_contradicted => "contradicted" end.

(** The element of a set of names that a text is. *)
Definition named {A} (text : A → string) (all : list A) (s : string) : option A :=
  select_one (λ a, (text a =? s)%string) all.
Definition HORIZONS : list ResearchHorizon := [intraday; short_term; medium_term; long_term].
Definition DIRECTIONS : list ResearchThesisDirection := [bullish; bearish; thesis_neutral].
Definition CONTRADICTION_STATUSES : list ResearchContradictionStatus := [not_contradicted; is_contradicted].

Definition ALLOWED_SIGNAL_FIELDS : list string :=
  ["provider"; "provider_signal_id"; "symbol"; "as_of"; "horizon"; "thesis_summary"; "thesis_direction"; "confidence";
   "catalysts"; "catalyst_dates"; "risks"; "invalidation_conditions"; "contradiction_status"; "contradiction_reason";
   "valuation_summary"; "source_references"; "expires_or_review_at"]%string.
Definition FORBIDDEN_EXECUTION_FIELDS : list string :=
  ["quantity"; "qty"; "side"; "order_type"; "orderType"; "limit_price"; "limitPrice"; "stop_price"; "stopPrice";
   "client_order_id"; "clientOrderId"; "broker_payload"; "brokerPayload"; "execution_method"; "executionMethod";
   "request_payload"; "requestPayload"; "position_intent"; "positionIntent"]%string.

(** [/^[A-Z][A-Z.]{0,14}$/] and [/^[a-z0-9][a-z0-9._-]{0,63}$/] *)
Definition pattern (first rest : ascii → bool) (most : nat) (s : string) : bool :=
  match s with
  | String c s' => first c && string_forall rest s' && (String.length s' <=? most)%nat
  | EmptyString => false
  end.
Definition symbol_pattern : string → bool := pattern is_upper (λ c, is_upper c || Ascii.eqb c ".") 14.
Definition provider_char (c : ascii) : bool := is_lower c || is_digit c.
Definition provider_pattern : string → bool :=
  pattern provider_char (λ c, provider_char c || str_mem (String c EmptyString) ["."; "_"; "-"]%string) 63.

Definition MAX_TEXT_LENGTH : nat := Z.to_nat 4000.
Definition MAX_ARRAY_LENGTH : nat := 20.
Definition MAX_ARRAY_ITEM_LENGTH : nat := Z.to_nat 1000.
Definition MAX_PROVIDER_SIGNAL_ID_LENGTH : nat := 200.
Definition MAX_REASON_LENGTH : nat := Z.to_nat 1000.
Definition MAX_REJECTION_MESSAGE_LENGTH : nat := 240.

Definition rejection (index : option nat) (reasonCode message : string) : ResearchSignalRejection :=
  {| rj_index := index; rj_reasonCode := reasonCode; rj_message := str_take MAX_REJECTION_MESSAGE_LENGTH message |}.

(** ** Fields of a document *)

(** [value === undefined || value === null] *)
Definition given (v : option jvalue) : option jvalue := match v with Some JNull => None | _ => v end.

Definition fails {A} (code name : string) : res A := Throw (code ++ ":" ++ name).

Definition optionalText (v : option jvalue) (name : string) (maximumLength : nat) : res (option string) :=
  match given v with
  | None => Ret None
  | Some (JStr s) =>
      let normalized := trim s in
      if negb (str_truthy normalized) then Ret None
      else if (maximumLength <? String.length normalized)%nat then fails "RESEARCH_TEXT_TOO_LONG" name
      else Ret (Some normalized)
  | Some _ => fails "RESEARCH_TEXT_INVALID" name
  end.

Definition requiredText (v : option jvalue) (name : string) (maximumLength : nat) : res string :=
  t ← optionalText v name maximumLength;
  match t with Some s => Ret s | None => fails "RESEARCH_FIELD_REQUIRED" name end.

Section dates.
Context (other_format : string → option Z).

Definition timestamp (v : option jvalue) (name : string) : res Z :=
  match v with
  | Some (JStr s) =>
      if negb (str_truthy (trim s)) then fails "RESEARCH_TIMESTAMP_REQUIRED" name
      else match date_parse other_format s with
           | Some t => Ret t
           | None => fails "RESEARCH_TIMESTAMP_INVALID" name
           end
  | _ => fails "RESEARCH_TIMESTAMP_REQUIRED" name
  end.

Definition optionalTimestamp (v : option jvalue) (name : string) : res (option Z) :=
  match given v with None => Ret None | Some x => t ← timestamp (Some x) name; Ret (Some t) end.
End dates.

(** The items of an array, each one read by [read]. *)
Fixpoint read_items {A} (read : nat → jvalue → res A) (index : nat) (items : list jvalue) : res (list A) :=
  match items with
  | [] => Ret []
  | x :: items' => a ← read index x; l ← read_items read (S index) items'; Ret (a :: l)
  end.

Definition index_text (n : nat) : string := nat_text (Z.of_nat n).

(** The trimmed text of an item that is acceptable. *)
Definition item_text (name : string) (index : nat) (v : jvalue) : res string :=
  match v with
  | JStr s =>
      if negb (str_truthy (trim s)) then fails "RESEARCH_ARRAY_ITEM_INVALID" (name ++ ":" ++ index_text index)
      else if (MAX_ARRAY_ITEM_LENGTH <? String.length (trim s))%nat
      then fails "RESEARCH_ARRAY_ITEM_TOO_LONG" (name ++ ":" ++ index_text index)
      else Ret (trim s)
  | _ => fails "RESEARCH_ARRAY_ITEM_INVALID" (name ++ ":" ++ index_text index)
  end.

Definition textArray {A} (read : nat → jvalue → res A) (required : bool) (v : option jvalue) (name : string)
    : res (list A) :=
  match given v with
  | None => if required then fails "RESEARCH_SOURCE_REFERENCES_REQUIRED" name else Ret []
  | Some (JArr items) =>
      if (MAX_ARRAY_LENGTH <? List.length items)%nat then fails "RESEARCH_ARRAY_TOO_LARGE" name
      else l ← read_items read 0 items;
           match l with
           | [] => if required then fails "RESEARCH_SOURCE_REFERENCES_REQUIRED" name else Ret l
           | _ => Ret l
           end
  | Some _ => fails "RESEARCH_ARRAY_INVALID" name
  end.

(** [options.timestamps]: the untrimmed entry is parsed. *)
Definition item_timestamp (other_format : string → option Z) (name : string) (index : nat) (v : jvalue) : res Z :=
  _ ← item_text name index v;
  timestamp other_format (Some v) (name ++ "[" ++ index_text index ++ "]").

(** An enumeration that may be missing. *)
Definition optional_name {A} (text : A → string) (all : list A) (code : string) (v : option jvalue) : res (option A) :=
  match given v with
  | None => Ret None
  | Some (JStr s) => match named text all s with Some a => Ret (Some a) | None => Throw code end
  | Some _ => Throw code
  end.

Definition read_confidence (v : option jvalue) : res (option number) :=
  match given v with
  | None => Ret None
  | Some (JNum t) =>
      let x := num_of_text t in
      if num_is_finite x && (0 <=? x)%float && (x <=? 1)%float then Ret (Some x) else Throw "RESEARCH_CONFIDENCE_INVALID"
  | Some _ => Throw "RESEARCH_CONFIDENCE_INVALID"
  end.

(** The loop over [Object.keys(raw)]. *)
Fixpoint check_fields (keys : list string) : res unit :=
  match keys with
  | [] => Ret tt
  | k :: keys' =>
      if str_mem k FORBIDDEN_EXECUTION_FIELDS then fails "RESEARCH_EXECUTION_FIELD_FORBIDDEN" k
      else if negb (str_mem k ALLOWED_SIGNAL_FIELDS) then fails "RESEARCH_FIELD_UNSUPPORTED" k
      else check_fields keys'
  end.

Definition normalizeSymbol (s : string) : string := to_upper (trim s).

Definition reject_when (b : bool) (code : string) : res unit := if b then Throw code else Ret tt.

(** The content of a signal, as read from its document. *)
Definition signal_content (other_format : string → option Z) (ingestedAt : Z) (raw : list (string * jvalue))
    : res SignalContent :=
  let text name most := optionalText (field raw name) name most in
  let texts name := textArray (item_text name) false (field raw name) name in
  _ ← check_fields (map fst (own_entries raw));
  named_provider ← requiredText (field raw "provider") "provider" 64;
  let provider := to_lower named_provider in
  _ ← reject_when (negb (provider_pattern provider)) "RESEARCH_PROVIDER_INVALID";
  providerSignalId ← text "provider_signal_id" MAX_PROVIDER_SIGNAL_ID_LENGTH;
  named_symbol ← requiredText (field raw "symbol") "symbol" 15;
  let symbol := normalizeSymbol named_symbol in
  _ ← reject_when (negb (symbol_pattern symbol)) "RESEARCH_SYMBOL_INVALID";
  asOf ← timestamp other_format (field raw "as_of") "as_of";
  _ ← reject_when (ingestedAt <? asOf) "RESEARCH_AS_OF_FUTURE";
  horizon ← match field raw "horizon" with
            | Some (JStr s) => match named horizon_text HORIZONS s with
                               | Some h => Ret h
                               | None => Throw "RESEARCH_HORIZON_INVALID"
                               end
            | _ => Throw "RESEARCH_HORIZON_INVALID"
            end;
  thesisSummary ← text "thesis_summary" MAX_TEXT_LENGTH;
  thesisDirection ← optional_name direction_text DIRECTIONS "RESEARCH_THESIS_DIRECTION_INVALID" (field raw "thesis_direction");
  confidence ← read_confidence (field raw "confidence");
  catalysts ← texts "catalysts";
  catalystDates ← textArray (item_timestamp other_format "catalyst_dates") false (field raw "catalyst_dates") "catalyst_dates";
  risks ← texts "risks";
  invalidationConditions ← texts "invalidation_conditions";
  contradictionStatus ← optional_name contradiction_text CONTRADICTION_STATUSES "RESEARCH_CONTRADICTION_STATUS_INVALID"
                          (field raw "contradiction_status");
  contradictionReason ← text "contradiction_reason" MAX_REASON_LENGTH;
  valuationSummary ← text "valuation_summary" MAX_TEXT_LENGTH;
  sourceReferences ← textArray (item_text "source_references") true (field raw "source_references") "source_references";
  expiresOrReviewAt ← optionalTimestamp other_format (field raw "expires_or_review_at") "expires_or_review_at";
  _ ← reject_when (match expiresOrReviewAt with Some t => t <? asOf | None => false end) "RESEARCH_EXPIRATION_BEFORE_AS_OF";
  Ret {| sg_provider := provider; sg_providerSignalId := providerSignalId; sg_symbol := symbol; sg_asOf := asOf;
         sg_horizon := horizon; sg_thesisSummary := thesisSummary; sg_thesisDirection := thesisDirection;
         sg_confidence := confidence; sg_catalysts := catalysts; sg_catalystDates := catalystDates; sg_risks := risks;
         sg_invalidationConditions := invalidationConditions; sg_contradictionStatus := contradictionStatus;
         sg_contradictionReason := contradictionReason; sg_valuationSummary := valuationSummary;
         sg_sourceReferences := sourceReferences; sg_expiresOrReviewAt := expiresOrReviewAt |}.

(** ** Signals *)

Definition json_text (s : option string) : jvalue := match s with Some t => JStr t | None => JNull end.
Definition json_texts (l : list string) : jvalue := JArr (map JStr l).
Definition json_time (t : option Z) : jvalue := json_text (iso_text <$> t).

Definition content_document (c : SignalContent) : jvalue :=
  JObj [("provider", JStr (sg_provider c)); ("providerSignalId", json_text (sg_providerSignalId c));
        ("symbol", JStr (sg_symbol c)); ("asOf", json_time (Some (sg_asOf c)));
        ("horizon", JStr (horizon_text (sg_horizon c))); ("thesisSummary", json_text (sg_thesisSummary c));
        ("thesisDirection", json_text (direction_text <$> sg_thesisDirection c));
        ("confidence", match sg_confidence c with Some x => JNum (num_text x) | None => JNull end);
        ("catalysts", json_texts (sg_catalysts c)); ("catalystDates", json_texts (map iso_text (sg_catalystDates c)));
        ("risks", json_texts (sg_risks c)); ("invalidationConditions", json_texts (sg_invalidationConditions c));
        ("contradictionStatus", json_text (contradiction_text <$> sg_contradictionStatus c));
        ("contradictionReason", json_text (sg_contradictionReason c));
        ("valuationSummary", json_text (sg_valuationSummary c)); ("sourceReferences", json_texts (sg_sourceReferences c));
        ("expiresOrReviewAt", json_time (sg_expiresOrReviewAt c)); ("schemaVersion", JNum "1")]%string.

Section import.
Context (le : string → string → bool) (sha256 : string → string) (other_format : string → option Z).

Local Abbreviation hash := (canonicalJsonHash le sha256).

Definition content_hash (c : SignalContent) : string := hash (content_document c).

Definition signal_id (c : SignalContent) : string :=
  "research_signal_" ++ hash (JObj
    [("provider", JStr (sg_provider c)); ("symbol", JStr (sg_symbol c));
     ("sourceIdentity", match sg_providerSignalId c with Some i => JStr i | None => json_texts (sg_sourceReferences c) end);
     ("asOf", json_time (Some (sg_asOf c))); ("contentHash", JStr (content_hash c))]%string).

Definition signal_of (ingestedAt : Z) (c : SignalContent) : NormalizedResearchSignal :=
  {| sg_id := signal_id c; sg_content := c; sg_ingestionTimestamp := ingestedAt; sg_contentHash := content_hash c;
     sg_schemaVersion := RESEARCH_SIGNAL_SCHEMA_VERSION |}.

Definition normalizeSignal (raw : jvalue) (ingestedAt : Z) : res NormalizedResearchSignal :=
  match raw with
  | JObj l => c ← signal_content other_format ingestedAt l; Ret (signal_of ingestedAt c)
  | _ => Throw "RESEARCH_SIGNAL_OBJECT_REQUIRED"
  end.

Definition reasonCodeFromError (message : string) : string :=
  let code := before_colon message in if str_truthy code then code else "RESEARCH_SIGNAL_INVALID".

Definition signal_rejection (index : nat) (error : string) : ResearchSignalRejection :=
  let code := reasonCodeFromError error in
  rejection (Some index) code (code ++ ": signal " ++ index_text index ++ " was rejected.").

(** [payload.signals.forEach(...)] *)
Fixpoint normalize_signals (ingestedAt : Z) (index : nat) (signals : list jvalue)
    : list NormalizedResearchSignal * list ResearchSignalRejection :=
  match signals with
  | [] => ([], [])
  | raw :: signals' =>
      let '(accepted, rejected) := normalize_signals ingestedAt (S index) signals' in
      match normalizeSignal raw ingestedAt with
      | Ret s => (s :: accepted, rejected)
      | Throw e => (accepted, signal_rejection index e :: rejected)
      end
  end.

Definition refuse_import (version : option number) (code message : string) : ResearchImportNormalizationResult :=
  {| ni_schemaVersion := version; ni_accepted := []; ni_rejected := [rejection None code message] |}.

Definition version_number (v : option jvalue) : option number :=
  match v with Some (JNum t) => Some (num_of_text t) | _ => None end.

Definition normalizeResearchImport (payload : jvalue) (ingestedAt : Z) (maxSignals : option nat)
    : ResearchImportNormalizationResult :=
  match payload with
  | JObj l =>
      let version := version_number (field l "schema_version") in
      let one := Some (num_of_Z RESEARCH_SIGNAL_SCHEMA_VERSION) in
      if existsb (λ e, negb (fst e =? "schema_version") && negb (fst e =? "signals"))%string l
      then refuse_import version "RESEARCH_IMPORT_FIELD_UNSUPPORTED"
             "Research import contains an unsupported top-level field."
      else if negb (match version with Some x => (x =? num_of_Z RESEARCH_SIGNAL_SCHEMA_VERSION)%float | None => false end)
      then refuse_import version "RESEARCH_SCHEMA_VERSION_UNSUPPORTED" "Only schema version 1 is supported."
      else match field l "signals" with
           | Some (JArr signals) =>
               let maximum := default RESEARCH_IMPORT_MAX_SIGNALS maxSignals in
               if (maximum <? List.length signals)%nat
               then refuse_import one "RESEARCH_IMPORT_TOO_MANY_SIGNALS"
                      ("Research import exceeds the " ++ index_text maximum ++ " record limit.")
               else let '(accepted, rejected) := normalize_signals ingestedAt 0 signals in
                    {| ni_schemaVersion := one; ni_accepted := accepted; ni_rejected := rejected |}
           | _ => refuse_import one "RESEARCH_SIGNALS_ARRAY_REQUIRED" "signals must be an array."
           end
  | _ => refuse_import None "RESEARCH_IMPORT_OBJECT_REQUIRED" "Research import must be a JSON object."
  end.
End import.

(** ** Configuration *)

Definition configuredNumber (raw : option string) (fallback minimum maximum : number) : number :=
  match raw with
  | None => fallback
  | Some s =>
      if negb (str_truthy (trim s)) then fallback
      else let value := num_of_text s in
           if num_is_finite value && (minimum <=? value)%float && (value <=? maximum)%float then value else fallback
  end.

Definition researchSignalConfiguration (env : Environment) : ResearchSignalConfiguration :=
  {| maxAgeDaysByHorizon := λ h,
       match h with
       | intraday => configuredNumber (env "RESEARCH_INTRADAY_MAX_AGE_DAYS"%string) 1 0.01 7
       | short_term => configuredNumber (env "RESEARCH_SHORT_TERM_MAX_AGE_DAYS"%string) 14 1 90
       | medium_term => configuredNumber (env "RESEARCH_MEDIUM_TERM_MAX_AGE_DAYS"%string) 45 1 365
       | long_term => configuredNumber (env "RESEARCH_LONG_TERM_MAX_AGE_DAYS"%string) 120 1 730
       end;
     directionScoreAdjustment := configuredNumber (env "RESEARCH_DIRECTION_SCORE_ADJUSTMENT"%string) 3 0 10 |}.

(** ** The influence of a signal on a lane *)

Record ResearchSignalState := { st_state : ResearchUsabilityState; st_reasonCodes : list string }.

Definition age_days (now asOf : Z) : number := (num_of_Z (now - asOf) / 86400000)%float.

Definition evaluateResearchSignalState (s : SignalContent) (now : Z) (config : ResearchSignalConfiguration)
    : ResearchSignalState :=
  if now <? sg_asOf s then {| st_state := signal_invalid; st_reasonCodes := ["RESEARCH_AS_OF_INVALID"]%string |}
  else if bool_decide (sg_contradictionStatus s = Some is_contradicted)
  then {| st_state := signal_contradicted; st_reasonCodes := ["RESEARCH_CONTRADICTED"]%string |}
  else if match sg_expiresOrReviewAt s with Some t => t <? now | None => false end
  then {| st_state := signal_expired; st_reasonCodes := ["RESEARCH_EXPIRES_OR_REVIEW_AT_PASSED"]%string |}
  else if (maxAgeDaysByHorizon config (sg_horizon s) <? age_days now (sg_asOf s))%float
  then {| st_state := signal_expired; st_reasonCodes := ["RESEARCH_HORIZON_RECENCY_EXCEEDED"]%string |}
  else {| st_state := signal_current; st_reasonCodes := ["RESEARCH_CURRENT"]%string |}.

Definition signalReference (s : NormalizedResearchSignal) (state : ResearchUsabilityState) (adjustment : number)
    (reasonCodes : list string) : LaneResearchInfluence :=
  {| in_signalId := Some (sg_id s); in_provider := Some (sg_provider (sg_content s));
     in_asOf := Some (sg_asOf (sg_content s)); in_horizon := Some (sg_horizon (sg_content s));
     in_sourceReferences := sg_sourceReferences (sg_content s); in_state := state; in_scoreAdjustment := adjustment;
     in_reasonCodes := reasonCodes |}.

Definition unavailableInfluence (reasonCode : string) : LaneResearchInfluence :=
  {| in_signalId := None; in_provider := None; in_asOf := None; in_horizon := None; in_sourceReferences := [];
     in_state := signal_unavailable; in_scoreAdjustment := 0%float; in_reasonCodes := [reasonCode] |}.

Section lanes.
(** [le a b] is [a.localeCompare(b) <= 0]. *)
Context (le : string → string → bool) (new_york : Z → NewYorkParts).

(** Newest first, then by provider and id. *)
Definition signal_before (a b : NormalizedResearchSignal) : bool :=
  let x := sg_content a in let y := sg_content b in
  if sg_asOf x =? sg_asOf y then
    if le (sg_provider x) (sg_provider y) && le (sg_provider y) (sg_provider x) then le (sg_id a) (sg_id b)
    else le (sg_provider x) (sg_provider y)
  else sg_asOf y <? sg_asOf x.

Definition applies (lane : ResearchDecisionLane) (s : NormalizedResearchSignal) : bool :=
  negb (bool_decide (lane = lane_leaps)) || bool_decide (sg_horizon (sg_content s) = long_term).

Definition laneSignals (signals : list NormalizedResearchSignal) (lane : ResearchDecisionLane)
    : list NormalizedResearchSignal := sort_by signal_before (List.filter (applies lane) signals).

Definition aligned (d : option ResearchThesisDirection) (t : TargetDirection) : bool :=
  match d, t with Some bullish, long_target | Some bearish, short_target => true | _, _ => false end.
Definition opposed (d : option ResearchThesisDirection) (t : TargetDirection) : bool :=
  match d, t with Some bullish, short_target | Some bearish, long_target => true | _, _ => false end.

Definition directionReason (d : option ResearchThesisDirection) (t : TargetDirection) : string :=
  if aligned d t then "RESEARCH_DIRECTION_ALIGNED"
  else if opposed d t then "RESEARCH_DIRECTION_OPPOSED"
  else if bool_decide (d = Some thesis_neutral) then "RESEARCH_DIRECTION_NEUTRAL"
  else "RESEARCH_DIRECTION_UNAVAILABLE".

Definition scoreAdjustment (config : ResearchSignalConfiguration) (d : option ResearchThesisDirection)
    (t : TargetDirection) : number :=
  if aligned d t then directionScoreAdjustment config
  else if opposed d t then (- directionScoreAdjustment config)%float else 0%float.

Definition buildLaneResearchInfluence (signals : list NormalizedResearchSignal) (lane : ResearchDecisionLane)
    (target : TargetDirection) (now : Z) (config : ResearchSignalConfiguration) (unavailableReasonCode : option string)
    : LaneResearchInfluence :=
  let applicable := laneSignals signals lane in
  let state_of s := evaluateResearchSignalState (sg_content s) now config in
  let current := List.filter (λ s, bool_decide (st_state (state_of s) = signal_current)) applicable in
  if bool_decide (lane = lane_0dte) then
    let today := newYorkTradingDate new_york now in
    match List.filter (λ s, existsb (λ t, (newYorkTradingDate new_york t =? today)%string)
                              (sg_catalystDates (sg_content s))) current with
    | s :: _ => signalReference s signal_current 0 (st_reasonCodes (state_of s) ++ ["RESEARCH_CURRENT_SESSION_CATALYST"]%string)
    | [] => unavailableInfluence
              (match applicable, unavailableReasonCode with
               | [], Some c => if str_truthy c then c else "RESEARCH_0DTE_NO_CURRENT_SESSION_CATALYST"
               | _, _ => "RESEARCH_0DTE_NO_CURRENT_SESSION_CATALYST"
               end)
    end
  else match current, applicable with
       | s :: _, _ =>
           let d := sg_thesisDirection (sg_content s) in
           signalReference s signal_current (scoreAdjustment config d target)
             (st_reasonCodes (state_of s) ++ [directionReason d target])
       | [], s :: _ => signalReference s (st_state (state_of s)) 0 (st_reasonCodes (state_of s))
       | [], [] => unavailableInfluence (default "RESEARCH_UNAVAILABLE"%string unavailableReasonCode)
       end.
End lanes.

(** ** Properties *)

(** A signal that may count. *)
Record signal_usable (config : ResearchSignalConfiguration) (now : Z) (s : SignalContent) : Prop := {
  usable_known : sg_asOf s ≤ now;
  usable_uncontradicted : sg_contradictionStatus s ≠ Some is_contradicted;
  usable_unexpired : ∀ t, sg_expiresOrReviewAt s = Some t → now ≤ t;
  usable_recent : (maxAgeDaysByHorizon config (sg_horizon s) <? age_days now (sg_asOf s))%float = false
}.

Lemma current_usable s now config :
  st_state (evaluateResearchSignalState s now config) = signal_current ↔ signal_usable config now s.
Proof.
  unfold evaluateResearchSignalState. split.
  - intros H. destruct (now <? sg_asOf s) eqn:E1; [done|]. case_bool_decide as E2; [done|].
    destruct (match sg_expiresOrReviewAt s with Some t => t <? now | None => false end) eqn:E3; [done|].
    destruct (_ <? age_days now _)%float eqn:E4; [done|]. split; [lia|done| |done]. intros t Et. rewrite Et in E3. lia.
  - intros [H1 H2 H3 H4]. rewrite (proj2 (Z.ltb_ge _ _) H1), bool_decide_eq_false_2 by done.
    destruct (sg_expiresOrReviewAt s) as [t|]; [rewrite (proj2 (Z.ltb_ge _ _) (H3 t eq_refl))|]; by rewrite H4.
Qed.

Section influence.
Context (le : string → string → bool) (new_york : Z → NewYorkParts).
Context (le_total : ∀ x y, le x y = true ∨ le y x = true).
Context (le_trans : ∀ x y z, le x y = true → le y z = true → le x z = true).

Lemma signal_before_total a b : signal_before le a b = true ∨ signal_before le b a = true.
Proof using le_total.
  unfold signal_before. rewrite (Z.eqb_sym (sg_asOf (sg_content b))).
  destruct (Z.eqb_spec (sg_asOf (sg_content a)) (sg_asOf (sg_content b))) as [E|E].
  - rewrite (andb_comm (le (sg_provider (sg_content b)) _)). destruct (_ && _); auto.
  - destruct (Z.ltb_spec (sg_asOf (sg_content b)) (sg_asOf (sg_content a))); [by left|right]. apply Z.ltb_lt. lia.
Qed.

Lemma signal_before_iff a b :
  signal_before le a b = true ↔
  sg_asOf (sg_content b) < sg_asOf (sg_content a) ∨
  sg_asOf (sg_content a) = sg_asOf (sg_content b) ∧ le (sg_provider (sg_content a)) (sg_provider (sg_content b)) = true ∧
  (le (sg_provider (sg_content b)) (sg_provider (sg_content a)) = true → le (sg_id a) (sg_id b) = true).
Proof.
  unfold signal_before. destruct (Z.eqb_spec (sg_asOf (sg_content a)) (sg_asOf (sg_content b))); [|rewrite Z.ltb_lt; lia].
  destruct (le (sg_provider (sg_content a)) _), (le (sg_provider (sg_content b)) _); cbn [andb]; intuition (congruence || lia).
Qed.

Lemma signal_before_trans a b c :
  signal_before le a b = true → signal_before le b c = true → signal_before le a c = true.
Proof using le_trans.
  rewrite !signal_before_iff. intros [?|(E1 & P1 & I1)] [?|(E2 & P2 & I2)]; [left; lia..|]. right.
  split; [lia|]. split; [by eapply le_trans|]. intros H. eapply le_trans; [apply I1|apply I2]; by eapply le_trans.
Qed.

(** The signals of a lane, newest first. *)
Lemma lane_signals_spec signals lane :
  StronglySorted (λ a b, signal_before le a b = true) (laneSignals le signals lane) ∧
  ∀ s, In s (laneSignals le signals lane) ↔
       In s signals ∧ (lane = lane_leaps → sg_horizon (sg_content s) = long_term).
Proof using le_total le_trans.
  split; [apply sort_by_sorted; [apply signal_before_total|apply signal_before_trans]|]. intros s. unfold laneSignals.
  rewrite sort_by_In, filter_In. unfold applies. rewrite orb_true_iff, negb_true_iff, bool_decide_eq_true, bool_decide_eq_false.
  split; [intros [? [?|?]]; split; [done|done|done|done]|]. intros [? H]. split; [done|].
  destruct (decide (lane = lane_leaps)); auto.
Qed.

Lemma before_newer a b : signal_before le a b = true → sg_asOf (sg_content b) ≤ sg_asOf (sg_content a).
Proof. unfold signal_before. destruct (Z.eqb_spec (sg_asOf (sg_content a)) (sg_asOf (sg_content b))); [lia|rewrite Z.ltb_lt; lia]. Qed.

(** The first of a sorted list that satisfies [p]. *)
Lemma first_newest p l s l' :
  StronglySorted (λ a b, signal_before le a b = true) l → List.filter p l = s :: l' →
  In s l ∧ p s = true ∧ ∀ x, In x l → p x = true → sg_asOf (sg_content x) ≤ sg_asOf (sg_content s).
Proof.
  induction 1 as [|x l Hs IH Hall]; [done|]. cbn [List.filter]. destruct (p x) eqn:Ex.
  - intros [= -> _]. split; [by left|]. split; [done|]. intros y [->|Hy] _; [lia|]. apply before_newer.
    rewrite Forall_forall in Hall. apply Hall. by apply list_elem_of_In.
  - intros H. destruct (IH H) as (Hi & Hp & Hn). split; [by right|]. split; [done|].
    intros y [<-|Hy] Hpy; [congruence|auto].
Qed.

(** C17: a signal changes the score of a candidate only when it is usable, that is
    known, not contradicted, not expired and recent enough for its horizon, when it is
    the newest usable one that applies to the lane (for LEAPS only those with a long
    horizon do), and when it has a direction: the configured adjustment is added for
    the direction of the candidate and subtracted for the opposite one.  The 0DTE lane
    is never adjusted. *)
Theorem research_influence_justified signals lane target now config reason :
  let i := buildLaneResearchInfluence le new_york signals lane target now config reason in
  in_scoreAdjustment i = 0%float ∨
  ∃ s, In s signals ∧ in_signalId i = Some (sg_id s) ∧ in_state i = signal_current ∧ lane ≠ lane_0dte ∧
    (lane = lane_leaps → sg_horizon (sg_content s) = long_term) ∧ signal_usable config now (sg_content s) ∧
    (∀ s', In s' signals → (lane = lane_leaps → sg_horizon (sg_content s') = long_term) →
       signal_usable config now (sg_content s') → sg_asOf (sg_content s') ≤ sg_asOf (sg_content s)) ∧
    (aligned (sg_thesisDirection (sg_content s)) target = true ∧ in_scoreAdjustment i = directionScoreAdjustment config ∨
     opposed (sg_thesisDirection (sg_content s)) target = true ∧
     in_scoreAdjustment i = (- directionScoreAdjustment config)%float).
Proof using le_total le_trans.
  cbv zeta. unfold buildLaneResearchInfluence. case_bool_decide as El; [left; by repeat case_match|].
  destruct (lane_signals_spec signals lane) as [Hs Hin]. set (l := laneSignals le signals lane) in *.
  destruct (List.filter _ l) as [|s l'] eqn:Ef; [left; by destruct l|].
  destruct (first_newest _ _ _ _ Hs Ef) as (Hsl & Hc & Hn). apply Hin in Hsl as [Hsig Hlong].
  rewrite bool_decide_eq_true, current_usable in Hc. cbn [signalReference in_scoreAdjustment in_signalId in_state].
  unfold scoreAdjustment. set (d := sg_thesisDirection (sg_content s)). destruct (aligned d target) eqn:Ea; [|destruct (opposed d target) eqn:Eo].
  3: by left.
  all: right; exists s; split_and!; try done; [|by left + right].
  all: intros s' Hs' Hl' Hu'; apply Hn; [by apply Hin|by rewrite bool_decide_eq_true, current_usable].
Qed.
End influence.

(** Three signals about one symbol, the newest of them contradicted. *)
Definition desk_signal (id : string) (asOf : Z) (h : ResearchHorizon) (d : ResearchThesisDirection)
    (c : option ResearchContradictionStatus) : NormalizedResearchSignal :=
  {| sg_id := id; sg_content := {| sg_provider := "desk"; sg_providerSignalId := None; sg_symbol := "ACME"; sg_asOf := asOf;
       sg_horizon := h; sg_thesisSummary := None; sg_thesisDirection := Some d; sg_confidence := None; sg_catalysts := [];
       sg_catalystDates := []; sg_risks := []; sg_invalidationConditions := []; sg_contradictionStatus := c;
       sg_contradictionReason := None; sg_valuationSummary := None; sg_sourceReferences := ["note"];
       sg_expiresOrReviewAt := None |};
     sg_ingestionTimestamp := asOf; sg_contentHash := "hash"; sg_schemaVersion := 1 |}%string.

Definition desk_signals : list NormalizedResearchSignal :=
  [desk_signal "a" 1767312000000 long_term bullish None; desk_signal "b" 1767398400000 short_term bearish None;
   desk_signal "c" 1767484800000 long_term bullish (Some is_contradicted)].

Definition desk_influence (lane : ResearchDecisionLane) (target : TargetDirection) : LaneResearchInfluence :=
  buildLaneResearchInfluence String.leb (λ _, {| ny_date := "2026-01-05"; ny_hour := 10; ny_minute := 0 |}) desk_signals lane
    target 1767571200000 (researchSignalConfiguration (λ _, None)) None.

Lemma research_influence_justified_witness :
  in_scoreAdjustment (desk_influence lane_equity long_target) = (-3)%float ∧
  in_scoreAdjustment (desk_influence lane_leaps long_target) = 3%float ∧
  in_scoreAdjustment (desk_influence lane_0dte long_target) = 0%float ∧
  ∃ s, In s desk_signals ∧ in_signalId (desk_influence lane_leaps long_target) = Some (sg_id s) ∧
       sg_horizon (sg_content s) = long_term.
Proof.
  split; [vm_compute; reflexivity|]. split; [vm_compute; reflexivity|]. split; [vm_compute; reflexivity|].
  destruct (research_influence_justified String.leb (λ _, {| ny_date := "2026-01-05"; ny_hour := 10; ny_minute := 0 |})
    String.leb_total leb_trans desk_signals lane_leaps long_target 1767571200000 (researchSignalConfiguration (λ _, None)) None)
    as [H|(s & Hs & Hi & _ & _ & Hl & _)].
  - exfalso. change (in_scoreAdjustment (desk_influence lane_leaps long_target) = 0%float) in H.
    apply (f_equal (λ x, (x =? 3)%float)) in H. by vm_compute in H.
  - exists s. split; [done|]. split; [exact Hi|]. by apply Hl.
Defined.
