(* ===== verification/ResearchSignalImport.v ===== *)
(** Importing research signals: [importResearchSignals] of
    src/repositories/postgres/postgresResearchSignalRepository.ts over the table
    research_signals of migration 007.

    Every statement commits by itself.  Parsing the columns of a stored signal back is
    the identity: a row is the signal it was written from.

    What an import of research signals does: an accepted signal can always be stored,
    and every document of the import is accounted for. *)
From Stdlib Require Import Floats.
From S2P Require Import Prelude.
From S2P Require Import JsNumber.
From S2P Require Import JsString.
From S2P Require Import JsDate.
From S2P Require Import JsText.
From S2P Require Import SchedulerLease.
From S2P Require Import ExecutionTables.
From S2P Require Import JsJson.
From S2P Require Import CanonicalJson.
From S2P Require Import Effects.
From S2P Require Import AlpacaClient.
From S2P Require Import FencedHistory.
From S2P Require Import ResearchSignals.

Open Scope Z_scope.

(** ** The tables *)

Record UniverseSymbol := { us_symbol : string; us_enabled : bool }.
Record SignalDb := { sd_universe : list UniverseSymbol; sd_signals : list NormalizedResearchSignal }.

Definition sized (least most : nat) (s : string) : bool :=
  (least <=? String.length s)%nat && (String.length s <=? most)%nat.
Definition absent_or {A} (p : A → bool) (o : option A) : bool := match o with Some a => p a | None => true end.
Definition hex_char (c : ascii) : bool := is_digit c || (("a" <=? c)%char && (c <=? "f")%char).
Definition hex64 (s : string) : bool := string_forall hex_char s && (String.length s =? 64)%nat.

(** The CHECK constraints of research_signals; that the columns of enumerations have
    known values is part of their types. *)
Definition signal_checks (s : NormalizedResearchSignal) : bool :=
  let c := sg_content s in
  String.prefix "research_signal_" (sg_id s) && hex64 (str_drop 16 (sg_id s))
  && provider_pattern (sg_provider c) && absent_or (sized 1 MAX_PROVIDER_SIGNAL_ID_LENGTH) (sg_providerSignalId c)
  && symbol_pattern (sg_symbol c) && absent_or (sized 1 MAX_TEXT_LENGTH) (sg_thesisSummary c)
  && absent_or (λ x, (0 <=? x)%float && (x <=? 1)%float) (sg_confidence c)
  && (List.length (sg_catalysts c) <=? 20)%nat && (List.length (sg_catalystDates c) <=? 20)%nat
  && (List.length (sg_risks c) <=? 20)%nat && (List.length (sg_invalidationConditions c) <=? 20)%nat
  && absent_or (sized 1 MAX_REASON_LENGTH) (sg_contradictionReason c)
  && absent_or (sized 1 MAX_TEXT_LENGTH) (sg_valuationSummary c)
  && (1 <=? List.length (sg_sourceReferences c))%nat && (List.length (sg_sourceReferences c) <=? 20)%nat
  && (sg_asOf c <=? sg_ingestionTimestamp s) && absent_or (λ t, sg_asOf c <=? t) (sg_expiresOrReviewAt c)
  && hex64 (sg_contentHash s) && (sg_schemaVersion s =? 1).

Definition same_id (a b : NormalizedResearchSignal) : bool := (sg_id a =? sg_id b)%string.

(** The unique keys next to the id. *)
Definition signal_conflicts (a b : NormalizedResearchSignal) : bool :=
  let x := sg_content a in let y := sg_content b in
  let provider := (sg_provider x =? sg_provider y)%string in
  (provider && (sg_symbol x =? sg_symbol y)%string && (sg_asOf x =? sg_asOf y)
   && bool_decide (sg_horizon x = sg_horizon y) && (sg_contentHash a =? sg_contentHash b)%string)
  || (provider && match sg_providerSignalId x, sg_providerSignalId y with
                  | Some i, Some j => (i =? j)%string
                  | _, _ => false
                  end).

(** ** Statements *)

Inductive import_query : Type → Type :=
| EnabledSymbols (symbols : list string) : import_query (list string)
| InsertSignal (s : NormalizedResearchSignal) : import_query nat
| FindSignal (id : string) : import_query (option string)
| FenceHeld : import_query bool.

Inductive import_request : Type → Type :=
| Query {A} (q : import_query A) : import_request (res A).

Definition insert_signal (s : NormalizedResearchSignal) : tx SignalDb nat := λ d,
  match insert_unless_exists (signal_checks s) same_id signal_conflicts
          (existsb (λ u, (us_symbol u =? sg_symbol (sg_content s))%string) (sd_universe d)) s (sd_signals d) with
  | Ret (b, t) => Ret (if b then 1%nat else 0%nat, {| sd_universe := sd_universe d; sd_signals := t |})
  | Throw c => Throw c
  end.

Definition import_statement (fence : SchedulerFence) {A} (q : import_query A) : statement SignalDb A := λ t rows,
  match q with
  | EnabledSymbols symbols =>
      gets (λ d, sort_strings (map us_symbol
        (List.filter (λ u, str_mem (us_symbol u) symbols && us_enabled u) (sd_universe d))))
  | InsertSignal s => if fenceSql t fence rows then insert_signal s else mret 0%nat
  | FindSignal id => gets (λ d, sg_contentHash <$> select_one (λ s, (sg_id s =? id)%string) (sd_signals d))
  | FenceHeld => gets (λ _, fenceSql t fence rows)
  end.

(** ** The import *)

Record ResearchSignalImportResult := {
  ir_status : string;
  ir_attempted : nat;
  ir_imported : nat;
  ir_existing : nat;
  ir_signalIds : list string;
  ir_rejections : list ResearchSignalRejection
}.

Definition dedupeSymbols (symbols : list string) : list string :=
  js_unique (List.filter str_truthy (map normalizeSymbol symbols)).

(** [accepted.indexOf(signal)] is the position among the accepted signals. *)
Definition rejectionForUnsupportedSymbol (position : nat) (s : NormalizedResearchSignal) : ResearchSignalRejection :=
  {| rj_index := Some position; rj_reasonCode := "RESEARCH_SYMBOL_UNSUPPORTED";
     rj_message := "RESEARCH_SYMBOL_UNSUPPORTED: " ++ sg_symbol (sg_content s) ++ " is not enabled in the PostgreSQL universe." |}.

Definition conflictRejection (position : nat) : ResearchSignalRejection :=
  {| rj_index := Some position; rj_reasonCode := "RESEARCH_SIGNAL_IDENTITY_CONFLICT";
     rj_message := "RESEARCH_SIGNAL_IDENTITY_CONFLICT: provider signal identity already has different content." |}.

Definition attemptedCount (payload : jvalue) (n : ResearchImportNormalizationResult) : nat :=
  match payload with
  | JObj l => match field l "signals" with
              | Some (JArr signals) => List.length signals
              | _ => List.length (ni_accepted n) + List.length (ni_rejected n)
              end
  | _ => List.length (ni_accepted n) + List.length (ni_rejected n)
  end.

Inductive SignalOutcome : Set := signal_imported | signal_existing | signal_conflict.

Definition import_prog : Type → Type := async import_request.

Definition query {A} (q : import_query A) : import_prog A := ask (Query q).

(** The body of the try block. *)
Definition insert_or_find (s : NormalizedResearchSignal) : import_prog SignalOutcome :=
  let! inserted := query (InsertSignal s) in
  if (inserted =? 1)%nat then async_ret signal_imported
  else if negb (inserted =? 0)%nat then reject "POSTGRES_RESEARCH_SIGNAL_PERSISTENCE_FAILED"
  else
  let! replay := query (FindSignal (sg_id s)) in
  if bool_decide (replay = Some (sg_contentHash s)) then async_ret signal_existing
  else
  let! still_held := query FenceHeld in
  reject (if still_held : bool then "POSTGRES_RESEARCH_SIGNAL_PERSISTENCE_FAILED" else "POSTGRES_RESEARCH_SIGNAL_FENCE_REJECTED").

Definition store_signal (s : NormalizedResearchSignal) : import_prog SignalOutcome :=
  attempt (insert_or_find s) (λ c, if (c =? unique_violation)%string then async_ret signal_conflict else reject c).

Record Tally := { ta_imported : nat; ta_existing : nat; ta_ids : list string; ta_rejections : list ResearchSignalRejection }.

Definition counted (position : nat) (s : NormalizedResearchSignal) (o : SignalOutcome) (t : Tally) : Tally :=
  match o with
  | signal_imported =>
      {| ta_imported := S (ta_imported t); ta_existing := ta_existing t; ta_ids := ta_ids t ++ [sg_id s];
         ta_rejections := ta_rejections t |}
  | signal_existing =>
      {| ta_imported := ta_imported t; ta_existing := S (ta_existing t); ta_ids := ta_ids t ++ [sg_id s];
         ta_rejections := ta_rejections t |}
  | signal_conflict =>
      {| ta_imported := ta_imported t; ta_existing := ta_existing t; ta_ids := ta_ids t;
         ta_rejections := ta_rejections t ++ [conflictRejection position] |}
  end.

Definition unsupported (position : nat) (s : NormalizedResearchSignal) (t : Tally) : Tally :=
  {| ta_imported := ta_imported t; ta_existing := ta_existing t; ta_ids := ta_ids t;
     ta_rejections := ta_rejections t ++ [rejectionForUnsupportedSymbol position s] |}.

Fixpoint import_each (supported : list string) (position : nat) (signals : list NormalizedResearchSignal) (t : Tally)
    : import_prog Tally :=
  match signals with
  | [] => async_ret t
  | s :: signals' =>
      if str_mem (sg_symbol (sg_content s)) supported then
        let! o := store_signal s in import_each supported (S position) signals' (counted position s o t)
      else import_each supported (S position) signals' (unsupported position s t)
  end.

Definition import_status (t : Tally) : string :=
  match (ta_imported t + ta_existing t)%nat, ta_rejections t with
  | O, _ :: _ => "rejected"
  | _, _ :: _ => "completed_with_rejections"
  | _, [] => "completed"
  end.

Section import.
Context (le : string → string → bool) (sha256 : string → string) (other_format : string → option Z).

Definition importResearchSignals (payload : jvalue) (ingestedAt : Z) : import_prog ResearchSignalImportResult :=
  let n := normalizeResearchImport le sha256 other_format payload ingestedAt None in
  let! supported :=
    match ni_accepted n with
    | [] => async_ret []
    | accepted => query (EnabledSymbols (dedupeSymbols (map (λ s, sg_symbol (sg_content s)) accepted)))
    end in
  let! t := import_each supported 0 (ni_accepted n)
              {| ta_imported := 0; ta_existing := 0; ta_ids := []; ta_rejections := ni_rejected n |} in
  async_ret {| ir_status := import_status t; ir_attempted := attemptedCount payload n; ir_imported := ta_imported t;
               ir_existing := ta_existing t; ir_signalIds := ta_ids t; ir_rejections := ta_rejections t |}.
End import.

(** [loadResearchSignalsForSymbols]: of each symbol the ten newest. *)
Section load.
Context (collate : string → string → bool).

Definition signal_newer (a b : NormalizedResearchSignal) : bool :=
  let x := sg_content a in let y := sg_content b in
  if sg_asOf x =? sg_asOf y then
    if sg_ingestionTimestamp a =? sg_ingestionTimestamp b then collate (sg_id a) (sg_id b)
    else sg_ingestionTimestamp b <? sg_ingestionTimestamp a
  else sg_asOf y <? sg_asOf x.

Definition loadResearchSignalsForSymbols (symbols : list string) : tx SignalDb (list NormalizedResearchSignal) :=
  gets (λ d, flat_map (λ symbol,
    firstn 10 (sort_by signal_newer (List.filter (λ s, (sg_symbol (sg_content s) =? symbol)%string) (sd_signals d))))
    (sort_by collate (dedupeSymbols symbols))).
End load.

Open Scope Z_scope.

(** ** Reading a document *)

Lemma reject_when_Ret b code u : reject_when b code = Ret u ↔ b = false.
Proof. destruct b, u; cbn; naive_solver. Qed.

Lemma optionalText_sized v name most o : optionalText v name most = Ret o → absent_or (sized 1 most) o = true.
Proof.
  unfold optionalText, fails. destruct (given v) as [[]|]; try done; [|by intros [= <-]].
  destruct (str_truthy (trim s)) eqn:E; cbn [negb]; [|by intros [= <-]].
  destruct (_ <? _)%nat eqn:El; [done|]. intros [= <-]. cbn. unfold sized. destruct (trim s); [done|].
  apply Nat.ltb_ge in El. by rewrite (proj2 (Nat.leb_le _ _) El).
Qed.

Lemma read_items_length {A} (read : nat → jvalue → res A) k items l :
  read_items read k items = Ret l → List.length l = List.length items.
Proof.
  revert k l. induction items as [|x items IH]; intros k l; cbn [read_items]; [by intros [= <-]|].
  intros (a & _ & (l1 & H%IH & [= <-])%res_bind_Ret)%res_bind_Ret. cbn. by rewrite H.
Qed.

Lemma textArray_length {A} (read : nat → jvalue → res A) required v name l :
  textArray read required v name = Ret l →
  (List.length l <=? 20)%nat = true ∧ (required = true → (1 <=? List.length l)%nat = true).
Proof.
  unfold textArray, fails. destruct (given v) as [[]|]; try done; [|destruct required; [done|by intros [= <-]]].
  destruct (_ <? _)%nat eqn:El; [done|]. apply Nat.ltb_ge in El. intros (m & H%read_items_length & Hm)%res_bind_Ret.
  destruct m as [|x m]; [destruct required; [done|by injection Hm as <-]|]. injection Hm as <-.
  split; [|done]. apply Nat.leb_le. unfold MAX_ARRAY_LENGTH in El. lia.
Qed.

Lemma read_confidence_range v o :
  read_confidence v = Ret o → absent_or (λ x, (0 <=? x)%float && (x <=? 1)%float) o = true.
Proof.
  unfold read_confidence. destruct (given v) as [[]|]; try done; [|by intros [= <-]].
  destruct (_ && _) eqn:E; [|done]. intros [= <-]. cbn. rewrite <- andb_assoc in E. by apply andb_true_iff in E as [_ E].
Qed.

Lemma check_fields_Ret keys u :
  check_fields keys = Ret u → Forall (λ k, In k ALLOWED_SIGNAL_FIELDS ∧ ¬ In k FORBIDDEN_EXECUTION_FIELDS) keys.
Proof.
  unfold fails. induction keys as [|k keys IH]; cbn [check_fields]; [constructor|].
  destruct (str_mem k FORBIDDEN_EXECUTION_FIELDS) eqn:Ef; [done|].
  destruct (str_mem k ALLOWED_SIGNAL_FIELDS) eqn:Ea; [|done]. intros H. constructor; [|by apply IH].
  split; [by apply str_mem_true|by apply str_mem_false].
Qed.

Section facts.
Context (le : string → string → bool) (sha256 : string → string) (other_format : string → option Z).

(** What the constraints say of the content alone. *)
Lemma signal_content_Ret t raw c :
  signal_content other_format t raw = Ret c →
  Forall (λ k, In k ALLOWED_SIGNAL_FIELDS ∧ ¬ In k FORBIDDEN_EXECUTION_FIELDS) (map fst raw) ∧
  ((∀ x, hex64 (sha256 x) = true) → signal_checks (signal_of le sha256 t c) = true).
Proof.
  unfold signal_content. intros H. apply res_bind_Ret in H as (u & Hf%check_fields_Ret & H).
  apply res_bind_Ret in H as (provider & _ & H). apply res_bind_Ret in H as (u1 & Hp%reject_when_Ret & H).
  apply res_bind_Ret in H as (pid & Hpid%optionalText_sized & H). apply res_bind_Ret in H as (symbol & _ & H).
  apply res_bind_Ret in H as (u2 & Hsym%reject_when_Ret & H). apply res_bind_Ret in H as (asOf & _ & H).
  apply res_bind_Ret in H as (u3 & Hfut%reject_when_Ret & H). apply res_bind_Ret in H as (h & _ & H).
  apply res_bind_Ret in H as (summary & Hsum%optionalText_sized & H). apply res_bind_Ret in H as (dir & _ & H).
  apply res_bind_Ret in H as (conf & Hconf%read_confidence_range & H).
  apply res_bind_Ret in H as (cat & [Hcat _]%textArray_length & H).
  apply res_bind_Ret in H as (dates & [Hdates _]%textArray_length & H).
  apply res_bind_Ret in H as (risks & [Hrisks _]%textArray_length & H).
  apply res_bind_Ret in H as (inval & [Hinval _]%textArray_length & H). apply res_bind_Ret in H as (contra & _ & H).
  apply res_bind_Ret in H as (reason & Hreason%optionalText_sized & H).
  apply res_bind_Ret in H as (valuation & Hval%optionalText_sized & H).
  apply res_bind_Ret in H as (sources & [Hs1 Hs2]%textArray_length & H).
  apply res_bind_Ret in H as (expires & _ & H). apply res_bind_Ret in H as (u4 & Hexp%reject_when_Ret & [= <-]).
  split.
  - rewrite Forall_forall in Hf |- *. intros k Hk. apply Hf. revert Hk. by rewrite own_entries_perm.
  - intros Hsha. apply negb_false_iff in Hp, Hsym. apply Z.ltb_ge in Hfut. unfold signal_checks, signal_of, signal_id, content_hash.
    cbn [sg_content sg_id sg_contentHash sg_schemaVersion sg_ingestionTimestamp sg_provider sg_providerSignalId sg_symbol
         sg_asOf sg_thesisSummary sg_confidence sg_catalysts sg_catalystDates sg_risks sg_invalidationConditions
         sg_contradictionReason sg_valuationSummary sg_sourceReferences sg_expiresOrReviewAt].
    unfold canonicalJsonHash. set (i := sha256 _). set (h2 := sha256 _).
    assert (Hi : hex64 i = true) by apply Hsha. assert (Hh : hex64 h2 = true) by apply Hsha.
    change (str_drop 16 ("research_signal_" ++ i)) with i. change (String.prefix "research_signal_" ("research_signal_" ++ i)) with
      (String.prefix EmptyString i). rewrite Hi, Hh, Hp, Hpid, Hsym, Hsum, Hconf, Hcat, Hdates, Hrisks, Hinval, Hreason, Hval, Hs1, (Hs2 eq_refl).
    rewrite (proj2 (Z.leb_le _ _) Hfut). destruct expires as [e|]; cbn [absent_or].
    + apply Z.ltb_ge in Hexp. rewrite (proj2 (Z.leb_le _ _) Hexp). by destruct i.
    + by destruct i.
Qed.

Lemma normalize_signals_spec t k signals accepted rejected :
  normalize_signals le sha256 other_format t k signals = (accepted, rejected) →
  (List.length accepted + List.length rejected)%nat = List.length signals ∧
  ∀ s, In s accepted → ∃ raw, In raw signals ∧ normalizeSignal le sha256 other_format raw t = Ret s.
Proof.
  revert k accepted rejected. induction signals as [|raw signals IH]; intros k accepted rejected; cbn [normalize_signals].
  - by intros [= <- <-].
  - destruct (normalize_signals _ _ _ t (S k) signals) as [acc rej] eqn:E. destruct (IH _ _ _ E) as [Hl Hs].
    destruct (normalizeSignal _ _ _ raw t) as [s|c] eqn:Er; intros [= <- <-]; cbn [List.length]; (split; [lia|]).
    + intros x [<-|Hx]; [exists raw; split; [by left|done]|]. destruct (Hs x Hx) as (y & Hy & Ey). exists y. split; [by right|done].
    + intros x Hx. destruct (Hs x Hx) as (y & Hy & Ey). exists y. split; [by right|done].
Qed.

(** An import that accepts a signal has read all its documents. *)
Lemma accepted_shape payload t most s :
  In s (ni_accepted (normalizeResearchImport le sha256 other_format payload t most)) →
  ∃ l signals accepted rejected, payload = JObj l ∧ field l "signals" = Some (JArr signals) ∧
    normalize_signals le sha256 other_format t 0 signals = (accepted, rejected) ∧
    ni_accepted (normalizeResearchImport le sha256 other_format payload t most) = accepted ∧
    ni_rejected (normalizeResearchImport le sha256 other_format payload t most) = rejected.
Proof.
  unfold normalizeResearchImport. destruct payload as [| | | | |l]; try done. destruct (existsb _ l); [done|].
  destruct (negb _); [done|]. destruct (field l "signals") as [[| | | |signals|]|] eqn:Ef; try done.
  destruct (_ <? _)%nat; [done|]. destruct (normalize_signals _ _ _ t 0 signals) as [acc rej] eqn:E. intros _.
  by exists l, signals, acc, rej.
Qed.

(** a signal that an import accepts satisfies every CHECK constraint of
    research_signals, so that storing it fails only for its keys or its symbol, and it
    comes from a document of the import all of whose fields are known and none of which
    describes an order. *)
Theorem accepted_signal_storable payload t most s :
  (∀ x, hex64 (sha256 x) = true) →
  In s (ni_accepted (normalizeResearchImport le sha256 other_format payload t most)) →
  signal_checks s = true ∧
  ∃ l signals raw, payload = JObj l ∧ field l "signals" = Some (JArr signals) ∧ In (JObj raw) signals ∧
    normalizeSignal le sha256 other_format (JObj raw) t = Ret s ∧
    Forall (λ k, In k ALLOWED_SIGNAL_FIELDS ∧ ¬ In k FORBIDDEN_EXECUTION_FIELDS) (map fst raw).
Proof.
  intros Hsha Hs. pose proof Hs as Hs'. apply accepted_shape in Hs' as (l & signals & acc & rej & -> & Hf & Hn & Ha & _).
  rewrite Ha in Hs. apply normalize_signals_spec in Hn as [_ Hn]. destruct (Hn s Hs) as (raw & Hr & Er).
  pose proof Er as Hc. unfold normalizeSignal in Hc. destruct raw as [| | | | |raw]; try done.
  apply res_bind_Ret in Hc as (c & [Hk Hok]%signal_content_Ret & [= <-]). split; [by apply Hok|].
  by exists l, signals, raw.
Qed.

(** ** Executions *)

Definition import_handle (fence : SchedulerFence) (X : Type) (e : import_request X)
    : World SignalDb → X → World SignalDb → Prop :=
  match e with Query q => answered (import_statement fence q) end.

(** Signals are never changed or deleted, by whoever. *)
Definition signals_kept (d d' : SignalDb) : Prop := ∀ s, In s (sd_signals d) → In s (sd_signals d').
#[export] Instance signals_kept_preorder : PreOrder signals_kept.
Proof. split; [by intros d s|]. intros d1 d2 d3 H1 H2 s Hs. auto. Qed.

Context (fence : SchedulerFence).
Local Abbreviation runs := (executes (import_handle fence) (moves signals_kept)).

Lemma statement_keeps {A} (q : import_query A) t rows d a d' :
  import_statement fence q t rows d = Ret (a, d') → signals_kept d d'.
Proof.
  destruct q as [symbols|s|id|]; cbn [import_statement]; try (by intros [= _ <-]). destruct (fenceSql t fence rows); [|by intros [= _ <-]].
  unfold insert_signal. destruct (insert_unless_exists _ _ _ _ _ _) as [[b x]|c] eqn:E; [|done].
  intros [= _ <-] y Hy. cbn. apply insert_unless_exists_Ret in E as [_ E]. destruct b; [|by destruct E as [_ ->]].
  destruct E as (_ & _ & _ & ->). apply in_or_app. by left.
Qed.

Lemma runs_keep {A} (p : prog import_request A) w a w' : runs p w a w' → signals_kept (w_data w) (w_data w').
Proof.
  apply (executes_data _ _ signals_kept); [|done].
  intros X [B q] w1 x w2 H. eapply (answered_data _ signals_kept); [|exact H]. intros. by eapply statement_keeps.
Qed.

Lemma moved_kept (w w' : World SignalDb) : rtc (moves signals_kept) w w' → signals_kept (w_data w) (w_data w').
Proof. intros H. apply moves_rtc in H; [|apply _]. apply H. Qed.

(** The signal is in the table, with this content. *)
Definition stored (d : SignalDb) (s : NormalizedResearchSignal) : Prop :=
  ∃ x, In x (sd_signals d) ∧ sg_id x = sg_id s ∧ sg_contentHash x = sg_contentHash s.

Lemma stored_kept d d' s : signals_kept d d' → stored d s → stored d' s.
Proof. intros H (x & Hx & E). exists x. split; [by apply H|done]. Qed.

Lemma ask_Ret {A} (q : import_query A) w a w' :
  runs (query q) w (Ret a) w' →
  ∃ w1 w2, signals_kept (w_data w) (w_data w1) ∧ signals_kept (w_data w2) (w_data w') ∧
    import_statement fence q (w_clock w2) (leases (w_leases w1)) (w_data w1) = Ret (a, w_data w2).
Proof.
  intros (w1 & w2 & H1 & Hx & H2)%executes_ask. apply moved_kept in H1, H2. apply answered_Ret in Hx as (_ & _ & Hx). eauto 10.
Qed.

Lemma insert_or_find_stored s w o w' :
  runs (insert_or_find s) w (Ret o) w' → o ≠ signal_conflict ∧ stored (w_data w') s.
Proof.
  unfold insert_or_find. intros H. apply executes_async_Ret in H as (n & w1 & Hi & H).
  destruct (Nat.eqb_spec n 1) as [->|Hn1].
  - apply executes_ret in H as [<- H%moved_kept]. split; [done|]. eapply stored_kept; [exact H|].
    apply ask_Ret in Hi as (w2 & w3 & _ & K & Hi). eapply stored_kept; [exact K|]. cbn [import_statement] in Hi.
    destruct (fenceSql _ _ _); [|by injection Hi]. unfold insert_signal in Hi.
    destruct (insert_unless_exists _ _ _ _ _ _) as [[b x]|c] eqn:E; [|done]. injection Hi as Hb <-.
    destruct b; [|done]. apply insert_unless_exists_Ret in E as (_ & _ & _ & _ & ->). exists s. cbn.
    split; [apply in_or_app; right; by left|done].
  - destruct (n =? 0)%nat; cbn [negb] in H; [|by destruct H as [[=] _]].
    apply executes_async_Ret in H as (replay & w2 & Hf & H). case_bool_decide as E.
    + apply executes_ret in H as [<- H%moved_kept]. split; [done|]. eapply stored_kept; [exact H|].
      apply ask_Ret in Hf as (w3 & w4 & _ & K & Hf). eapply stored_kept; [exact K|]. cbn [import_statement] in Hf.
      injection Hf as Hr <-. rewrite E in Hr. destruct (select_one _ _) as [x|] eqn:Ex; [|done]. injection Hr as Hr.
      apply select_one_Some in Ex as [Hx Hid%String.eqb_eq]. by exists x.
    + apply executes_async_Ret in H as (b & w3 & _ & H). by destruct H as [[=] _].
Qed.

Lemma store_signal_stored s w o w' :
  runs (store_signal s) w (Ret o) w' → o = signal_conflict ∨ stored (w_data w') s.
Proof.
  unfold store_signal, attempt. intros (r & w1 & H1 & H)%executes_bind. destruct r as [o1|c].
  - destruct H as [[= ->] H%moved_kept]. right. eapply stored_kept; [exact H|]. by eapply insert_or_find_stored.
  - destruct (c =? unique_violation)%string; [|by destruct H as [[=] _]]. destruct H as [[= ->] _]. by left.
Qed.

(** What became of the signal at a position. *)
Definition accounted (d : SignalDb) (t : Tally) (position : nat) (s : NormalizedResearchSignal) : Prop :=
  (In (sg_id s) (ta_ids t) ∧ stored d s) ∨
  In (rejectionForUnsupportedSymbol position s) (ta_rejections t) ∨ In (conflictRejection position) (ta_rejections t).

Definition tally_sum (t : Tally) : nat := (ta_imported t + ta_existing t + List.length (ta_rejections t))%nat.

Definition tally_grows (t t' : Tally) : Prop :=
  (∃ l, ta_ids t' = ta_ids t ++ l) ∧ ∃ l, ta_rejections t' = ta_rejections t ++ l.
#[export] Instance tally_grows_preorder : PreOrder tally_grows.
Proof.
  split; [intros t; split; exists []; by rewrite app_nil_r|].
  intros t1 t2 t3 [[l1 H1] [l2 H2]] [[l3 H3] [l4 H4]]. rewrite H1 in H3. rewrite H2 in H4. rewrite <- app_assoc in H3, H4.
  split; eauto.
Qed.

Lemma accounted_later d d' t t' k s : signals_kept d d' → tally_grows t t' → accounted d t k s → accounted d' t' k s.
Proof.
  intros Hd [[l1 H1] [l2 H2]] [[Hi Hs]|[Hr|Hr]]; [left|right; left|right; right]; rewrite ?H1, ?H2.
  - split; [apply in_or_app; by left|by eapply stored_kept].
  - apply in_or_app. by left.
  - apply in_or_app. by left.
Qed.

Lemma counted_spec k s o t :
  tally_sum (counted k s o t) = S (tally_sum t) ∧ tally_grows t (counted k s o t) ∧
  (List.length (ta_ids t) = (ta_imported t + ta_existing t)%nat →
   List.length (ta_ids (counted k s o t)) = (ta_imported (counted k s o t) + ta_existing (counted k s o t))%nat).
Proof.
  unfold tally_sum, tally_grows. destruct o; cbn; rewrite ?length_app; cbn; (split; [lia|]); (split; [|lia]);
    (split; [first [by eexists|exists []; by rewrite app_nil_r]|first [by eexists|exists []; by rewrite app_nil_r]]).
Qed.

Lemma unsupported_spec k s t :
  tally_sum (unsupported k s t) = S (tally_sum t) ∧ tally_grows t (unsupported k s t).
Proof.
  unfold tally_sum, tally_grows. cbn. rewrite length_app. cbn. split; [lia|]. split; [exists []; by rewrite app_nil_r|by eexists].
Qed.

Lemma import_each_spec supported signals k t w t' w' :
  runs (import_each supported k signals t) w (Ret t') w' →
  tally_sum t' = (tally_sum t + List.length signals)%nat ∧ tally_grows t t' ∧
  (List.length (ta_ids t) = (ta_imported t + ta_existing t)%nat →
   List.length (ta_ids t') = (ta_imported t' + ta_existing t')%nat) ∧
  ∀ j s, signals !! j = Some s → accounted (w_data w') t' (k + j) s.
Proof.
  revert k t w. induction signals as [|s signals IH]; intros k t w; cbn [import_each].
  - intros [<- _]%executes_ret. cbn. split_and!; [lia|done|done|done].
  - destruct (str_mem _ supported).
    + intros H. apply executes_async_Ret in H as (o & w1 & Ho & H). pose proof (runs_keep _ _ _ _ H) as K.
      destruct (counted_spec k s o t) as (S1 & G1 & L1). apply IH in H as (S2 & G2 & L2 & A2). cbn [List.length].
      split_and!; [lia|by etrans|auto|]. intros [|j] x Hx.
      * injection Hx as <-. rewrite Nat.add_0_r. apply (accounted_later (w_data w1) _ (counted k s o t)); [done..|].
        apply store_signal_stored in Ho as [->|Hst].
        { right; right. cbn. apply in_or_app. right. by left. }
        destruct o; [left|left|right; right]; [split; [|done]..|]; cbn; apply in_or_app; right; by left.
      * replace (k + S j)%nat with (S k + j)%nat by lia. by apply A2.
    + intros H. destruct (unsupported_spec k s t) as [S1 G1]. pose proof (runs_keep _ _ _ _ H) as K.
      apply IH in H as (S2 & G2 & L2 & A2). cbn [List.length]. split_and!; [lia|by etrans|auto|]. intros [|j] x Hx.
      * injection Hx as <-. rewrite Nat.add_0_r. apply (accounted_later (w_data w) _ (unsupported k s t)); [done..|].
        right; left. cbn. apply in_or_app. right. by left.
      * replace (k + S j)%nat with (S k + j)%nat by lia. by apply A2.
Qed.

Lemma import_status_iff t :
  List.length (ta_ids t) = (ta_imported t + ta_existing t)%nat →
  (import_status t = "completed"%string ↔ ta_rejections t = []) ∧
  (import_status t = "rejected"%string ↔ ta_rejections t ≠ [] ∧ ta_ids t = []) ∧
  (import_status t = "completed_with_rejections"%string ↔ ta_rejections t ≠ [] ∧ ta_ids t ≠ []).
Proof.
  unfold import_status. intros <-. destruct (ta_ids t), (ta_rejections t); cbn; split_and!; split; try done; naive_solver.
Qed.

(** C18: an import that resolves, whatever other processes do meanwhile and whichever
    answers are lost, accounts for every document: each accepted signal is reported by
    its id and is stored with its content, or is rejected at its position, the
    counts add up to the documents that were given, and the status is "rejected" when
    nothing was stored and something rejected, "completed_with_rejections" when
    something was stored and something rejected, and "completed" when nothing was
    rejected. *)
Theorem research_import_accounts payload t w r w' :
  let n := normalizeResearchImport le sha256 other_format payload t None in
  runs (importResearchSignals le sha256 other_format payload t) w (Ret r) w' →
  (ir_imported r + ir_existing r + List.length (ir_rejections r))%nat =
    (List.length (ni_accepted n) + List.length (ni_rejected n))%nat ∧
  (ni_accepted n ≠ [] → ir_attempted r = (ir_imported r + ir_existing r + List.length (ir_rejections r))%nat) ∧
  List.length (ir_signalIds r) = (ir_imported r + ir_existing r)%nat ∧
  (ir_status r = "completed"%string ↔ ir_rejections r = []) ∧
  (ir_status r = "rejected"%string ↔ ir_rejections r ≠ [] ∧ ir_signalIds r = []) ∧
  (ir_status r = "completed_with_rejections"%string ↔ ir_rejections r ≠ [] ∧ ir_signalIds r ≠ []) ∧
  ∀ k s, ni_accepted n !! k = Some s →
    (In (sg_id s) (ir_signalIds r) ∧ stored (w_data w') s) ∨
    In (rejectionForUnsupportedSymbol k s) (ir_rejections r) ∨ In (conflictRejection k) (ir_rejections r).
Proof.
  cbv zeta. unfold importResearchSignals. intros H. set (n := normalizeResearchImport _ _ _ payload t None) in *.
  apply executes_async_Ret in H as (supported & w1 & _ & H). apply executes_async_Ret in H as (ta & w2 & He & H).
  apply executes_ret in H as [<- K%moved_kept]. cbn [ir_status ir_imported ir_existing ir_rejections ir_attempted ir_signalIds].
  apply import_each_spec in He as (Hs & _ & Hl & Ha). unfold tally_sum in Hs. cbn in Hs.
  specialize (Hl eq_refl). destruct (import_status_iff ta Hl) as (S1 & S2 & S3). split_and!; [| | |done..|].
  - lia.
  - intros Hne. destruct (ni_accepted n) as [|s acc] eqn:En; [done|].
    assert (Hin : In s (ni_accepted n)) by (rewrite En; by left).
    apply accepted_shape in Hin as (l & signals & a & rj & -> & Hf & Hn & Ea & Er).
    cbn [attemptedCount]. rewrite Hf. apply normalize_signals_spec in Hn as [Hn _]. fold n in Ea, Er. rewrite <- Ea, <- Er in Hn.
    rewrite <- Hn, En. lia.
  - done.
  - intros k s Hk. apply (Ha k s) in Hk. apply (accounted_later _ (w_data w') _ ta) in Hk; [|done..]. exact Hk.
Qed.
(** The rejections of documents that were refused carry their indexes. *)
Lemma refused_indexes t k bads raw s :
  Forall (λ x, ∃ c, normalizeSignal le sha256 other_format x t = Throw c) bads →
  normalizeSignal le sha256 other_format raw t = Ret s →
  ∃ rejected, normalize_signals le sha256 other_format t k (bads ++ [raw]) = ([s], rejected) ∧
    map rj_index rejected = map Some (seq k (List.length bads)).
Proof.
  intros Hb Hr. revert k. induction Hb as [|x bads [c Hx] _ IH]; intros k; cbn [normalize_signals app].
  - rewrite Hr. by exists [].
  - destruct (IH (S k)) as (rejected & -> & Hi). rewrite Hx. eexists. split; [done|]. cbn. by rewrite Hi.
Qed.

Lemma import_one supported s ta w ta' w' :
  runs (import_each supported 0 [s] ta) w (Ret ta') w' → In (sg_id s) (ta_ids ta') ∨
  ∃ x, rj_index x = Some 0%nat ∧ ta_rejections ta' = ta_rejections ta ++ [x].
Proof.
  cbn [import_each]. destruct (str_mem _ supported).
  - intros H. apply executes_async_Ret in H as (o & w1 & _ & H). apply executes_ret in H as [<- _].
    destruct o; [left|left|right; by exists (conflictRejection 0)]; cbn; apply in_or_app; right; by left.
  - intros [<- _]%executes_ret. right. by exists (rejectionForUnsupportedSymbol 0 s).
Qed.

(** a document that is accepted after others were refused, and then rejected by
    the database for its symbol or its identity, is reported under the index of the
    first document, which was refused for another reason; its own index is never
    reported. *)
Theorem rejection_names_other_document payload l bads raw s t w r w' :
  payload = JObj l → field l "signals" = Some (JArr (bads ++ [raw])) → bads ≠ [] →
  Forall (λ x, ∃ c, normalizeSignal le sha256 other_format x t = Throw c) bads →
  normalizeSignal le sha256 other_format raw t = Ret s →
  ni_accepted (normalizeResearchImport le sha256 other_format payload t None) = [s] →
  runs (importResearchSignals le sha256 other_format payload t) w (Ret r) w' →
  ¬ In (sg_id s) (ir_signalIds r) →
  ∃ first last, ir_rejections r = first ++ [last] ∧ head (map rj_index first) = Some (Some 0%nat) ∧
    rj_index last = Some 0%nat ∧ ¬ In (Some (List.length bads)) (map rj_index (ir_rejections r)).
Proof.
  intros -> Hf Hne Hb Hr Ha H Hid. unfold importResearchSignals in H. set (n := normalizeResearchImport _ _ _ _ t None) in *.
  assert (Hin : In s (ni_accepted n)) by (rewrite Ha; by left).
  apply accepted_shape in Hin as (l' & signals & acc & rej & [= <-] & Hf' & Hn & _ & Er). fold n in Er.
  rewrite Hf in Hf'. injection Hf' as <-. destruct (refused_indexes t 0 bads raw s Hb Hr) as (rej' & E & Hi).
  rewrite E in Hn. injection Hn as _ <-. rewrite Ha in H. apply executes_async_Ret in H as (supported & w1 & _ & H).
  apply executes_async_Ret in H as (ta & w2 & He & H). apply executes_ret in H as [<- _]. cbn [ir_signalIds ir_rejections] in *.
  apply import_one in He as [?|(x & Hx & E')]; [done|]. cbn [ta_rejections] in E'. rewrite Er in E'.
  exists rej', x. split_and!; [done| |done|].
  - rewrite Hi. by destruct bads.
  - rewrite E', map_app, Hi. cbn. rewrite Hx. rewrite in_app_iff, in_map_iff. intros [(j & [= ->] & Hj%in_seq)|[[= Hz]|[]]]; [lia|].
    by destruct bads.
Qed.
End facts.

(** ** A small import

    The first of three documents has no provider, the second is about a symbol of the
    universe, the third is not. *)
Definition toy_digest (s : string) : string :=
  last_digits 64 (fold_left (λ acc c, (acc * 31 + Z.of_N (code c)) mod 1000000007) (list_ascii_of_string s) 7) "".

Lemma toy_digest_hex x : hex64 (toy_digest x) = true.
Proof.
  unfold hex64, toy_digest. rewrite last_digits_length. rewrite (string_forall_impl is_digit hex_char); [done| |apply last_digits_digit].
  unfold hex_char. by intros c ->.
Qed.

Definition desk_document (provider : list (string * jvalue)) (symbol : string) : jvalue :=
  JObj (provider ++ [("symbol", JStr symbol); ("as_of", JStr "2026-01-02"); ("horizon", JStr "long_term");
                     ("source_references", JArr [JStr "note"])]%string).
Definition desk_provider : list (string * jvalue) := [("provider", JStr "Desk")]%string.
Definition desk_import (documents : list jvalue) : jvalue :=
  JObj [("schema_version", JNum "1"); ("signals", JArr documents)]%string.
Definition desk_time : Z := 1767571200000.
Definition desk_normalize (documents : list jvalue) : ResearchImportNormalizationResult :=
  normalizeResearchImport String.leb toy_digest (λ _, None) (desk_import documents) desk_time None.

Definition desk_documents : list jvalue :=
  [desk_document [] "ACME"; desk_document desk_provider "acme"; desk_document desk_provider "ZZZ"]%string.

Definition desk_accepted : {s | head (ni_accepted (desk_normalize desk_documents)) = Some s}.
Proof. eexists. vm_compute. reflexivity. Defined.

Definition desk_fence : SchedulerFence :=
  {| fence_job_name := "research-import"; fence_workstream := "research"; fence_owner_id := "host"; fence_run_id := "run";
     fence_token := token_text 1 |}%string.

(** The lease of the fence was acquired in an empty table. *)
Definition desk_lease : AcquireInput :=
  {| acq_jobName := "research-import"; acq_workstream := "research"; acq_ownerId := "host"; acq_runId := "run";
     acq_acquiredAt := Some desk_time; acq_expiresAt := Some (desk_time + 60000) |}%string.
Definition desk_leases : {d | ∃ r, acquire desk_time desk_lease lease_init = Ret (r, d)}.
Proof. eexists. eexists. vm_compute. reflexivity. Defined.

Definition import_world : World SignalDb :=
  {| w_clock := desk_time; w_leases := `desk_leases;
     w_data := {| sd_universe := [{| us_symbol := "ACME"; us_enabled := true |}]; sd_signals := [] |} |}%string.

Definition import_answer (X : Type) (e : import_request X) : World SignalDb → X * World SignalDb :=
  match e with Query q => commit (import_statement desk_fence q) end.

Lemma import_answer_handled X (e : import_request X) w :
  import_handle desk_fence X e w (import_answer X e w).1 (import_answer X e w).2.
Proof. destruct e. apply commit_answered. Qed.

Definition desk_run (documents : list jvalue) : res ResearchSignalImportResult * World SignalDb :=
  run import_answer (importResearchSignals String.leb toy_digest (λ _, None) (desk_import documents) desk_time) import_world.

Definition desk_result (documents : list jvalue) : option ResearchSignalImportResult :=
  match (desk_run documents).1 with Ret r => Some r | Throw _ => None end.

Example desk_import_counts :
  (λ r, (ir_status r, ir_attempted r, ir_imported r, map (λ x, (rj_index x, rj_reasonCode x)) (ir_rejections r)))
    <$> desk_result desk_documents =
  Some ("completed_with_rejections", 3%nat, 1%nat,
        [(Some 0%nat, "RESEARCH_FIELD_REQUIRED"); (Some 1%nat, "RESEARCH_SYMBOL_UNSUPPORTED")])%string.
Proof. vm_compute. reflexivity. Qed.

Lemma accepted_signal_storable_witness :
  sg_symbol (sg_content (`desk_accepted)) = "ACME"%string ∧ signal_checks (`desk_accepted) = true.
Proof.
  split; [vm_compute; reflexivity|].
  apply (accepted_signal_storable String.leb toy_digest (λ _, None) (desk_import desk_documents) desk_time None).
  - apply toy_digest_hex.
  - vm_compute. left. reflexivity.
Defined.

Lemma desk_executes documents r :
  (desk_run documents).1 = Ret r →
  executes (import_handle desk_fence) (moves signals_kept)
    (importResearchSignals String.leb toy_digest (λ _, None) (desk_import documents) desk_time) import_world (Ret r)
    (desk_run documents).2.
Proof. intros <-. apply run_executes, import_answer_handled. Qed.

Definition desk_report : {r | (desk_run desk_documents).1 = Ret r}.
Proof. eexists. vm_compute. reflexivity. Defined.

Lemma research_import_accounts_witness :
  (desk_run desk_documents).1 = Ret (`desk_report) ∧ List.length (ir_signalIds (`desk_report)) = 1%nat ∧
    (ir_imported (`desk_report) + ir_existing (`desk_report) + List.length (ir_rejections (`desk_report)))%nat = 3%nat.
Proof.
  destruct (research_import_accounts String.leb toy_digest (λ _, None) desk_fence (desk_import desk_documents) desk_time
    import_world (`desk_report) (desk_run desk_documents).2 (desk_executes _ _ (proj2_sig desk_report))) as (H1 & _ & H3 & _).
  split; [exact (proj2_sig desk_report)|]. rewrite H1, H3. split; vm_compute; reflexivity.
Defined.

Definition desk_pair : list jvalue := [desk_document [] "ACME"; desk_document desk_provider "ZZZ"]%string.
Definition desk_second : {s | ni_accepted (desk_normalize desk_pair) = [s] ∧
  normalizeSignal String.leb toy_digest (λ _, None) (desk_document desk_provider "ZZZ") desk_time = Ret s}%string.
Proof. eexists. split; vm_compute; reflexivity. Defined.
Definition desk_pair_report : {r | (desk_run desk_pair).1 = Ret r ∧ ir_signalIds r = nil}.
Proof. eexists. split; vm_compute; reflexivity. Defined.

Lemma rejection_names_other_document_witness :
  ∃ first last, ir_rejections (`desk_pair_report) = first ++ [last] ∧ rj_index last = Some 0%nat.
Proof.
  destruct (rejection_names_other_document String.leb toy_digest (λ _, None) desk_fence (desk_import desk_pair)
    [("schema_version", JNum "1"); ("signals", JArr desk_pair)]%string [desk_document [] "ACME"%string]
    (desk_document desk_provider "ZZZ"%string) (`desk_second) desk_time import_world (`desk_pair_report) (desk_run desk_pair).2)
    as (first & last & H1 & _ & H2 & _).
  - reflexivity.
  - reflexivity.
  - discriminate.
  - constructor; [|constructor]. eexists. vm_compute. reflexivity.
  - exact (proj2 (proj2_sig desk_second)).
  - exact (proj1 (proj2_sig desk_second)).
  - exact (desk_executes _ _ (proj1 (proj2_sig desk_pair_report))).
  - rewrite (proj2 (proj2_sig desk_pair_report)). intros [].
  - exists first, last. exact (conj H1 H2).
Defined.
