(* ===== verification/HistoricalEvidence.v ===== *)
(** Historical outcomes as evidence for a candidate:
    src/services/historicalOutcomeEvidenceService.ts over the table
    historical_outcome_aggregates of migration 009.

    The driver returns a timestamp as a Date (milliseconds), an integer as a number and
    a numeric as a text.  The query is a request that may be answered with any rows. *)

From Stdlib Require Import Floats.
From S2P Require Import Prelude.
From S2P Require Import JsString.
From S2P Require Import JsDate.
From S2P Require Import JsNumber.
From S2P Require Import JsText.
From S2P Require Import JsJson.
From S2P Require Import AlpacaClient.
From S2P Require Import ResearchSignals.
Open Scope Z_scope.

Definition OUTCOME_LEARNING_SCHEMA_VERSION : Z := 1.

Record HistoricalOutcomeEvidenceConfig := {
  hc_enabled : bool;
  hc_lookbackDays : number;
  hc_minimumSample : number;
  hc_maximumIncompleteJoinRatio : number;
  hc_staleAfterMs : number;
  hc_maximumRows : nat;
  hc_schemaVersion : Z
}.

(** [value === undefined || value.trim() === EMPTY] *)
Definition no_text (value : option string) : bool :=
  match value with None => true | Some s => negb (str_truthy (trim s)) end.

Definition envBoolean (value : option string) (fallback : bool) : bool :=
  if no_text value then fallback
  else str_mem (to_lower (trim (default EmptyString value))) ["true"; "1"]%string.

(** [/^[0-9]+$/] *)
Definition digits_only (s : string) : bool := str_truthy s && string_forall is_digit s.

Definition boundedInteger (value : option string) (fallback minimum maximum : number) : number :=
  let s := default EmptyString value in
  if no_text value || negb (digits_only (trim s)) then fallback
  else let parsed := num_of_text s in
       if num_is_safe_integer parsed && (minimum <=? parsed)%float && (parsed <=? maximum)%float then parsed else fallback.

Definition boundedRatio (value : option string) (fallback : number) : number :=
  if no_text value then fallback
  else let parsed := num_of_text (default EmptyString value) in
       if num_is_finite parsed && (0 <=? parsed)%float && (parsed <=? 1)%float then parsed else fallback.

Definition historicalOutcomeEvidenceConfig (env : Environment) : HistoricalOutcomeEvidenceConfig :=
  {| hc_enabled := envBoolean (env "OUTCOME_LEARNING_EVIDENCE_ENABLED"%string) false;
     hc_lookbackDays := boundedInteger (env "OUTCOME_LEARNING_LOOKBACK_DAYS"%string) 31 1 31;
     hc_minimumSample := boundedInteger (env "OUTCOME_LEARNING_MINIMUM_SAMPLE"%string) 5 1 500;
     hc_maximumIncompleteJoinRatio := boundedRatio (env "OUTCOME_LEARNING_MAX_INCOMPLETE_JOIN_RATIO"%string) 0.25;
     hc_staleAfterMs := (boundedInteger (env "OUTCOME_LEARNING_STALE_AFTER_SECONDS"%string) 86400 60 604800 * 1000)%float;
     hc_maximumRows := Z.to_nat 500; hc_schemaVersion := OUTCOME_LEARNING_SCHEMA_VERSION |}.

(** A row as the query selects it. *)
Record AggregateRow := {
  ag_id : string;
  ag_environment : string;
  ag_lane : string;
  ag_dimension : string;
  ag_grouping_key : string;
  ag_date_range_start : Z;
  ag_date_range_end : Z;
  ag_source_truncated : bool;
  ag_sample_count : Z;
  ag_filled_count : Z;
  ag_rejected_count : Z;
  ag_canceled_count : Z;
  ag_average_time_to_first_fill_ms : option string;
  ag_average_slippage_bps : option string;
  ag_realized_return_average : option string;
  ag_win_rate : option string;
  ag_missing_join_count : Z;
  ag_ambiguous_join_count : Z;
  ag_unsupported_metric_count : Z;
  ag_usable_as_evidence : bool;
  ag_source_watermark : Z;
  ag_calculated_at : Z;
  ag_schema_version : Z;
  ag_content_hash : string
}.

Inductive EvidenceIndexState : Set := evidence_disabled | evidence_available | evidence_unavailable.
#[export] Instance EvidenceIndexState_eq_dec : EqDecision EvidenceIndexState.
Proof. solve_decision. Defined.

Record HistoricalOutcomeEvidenceIndex := {
  hi_state : EvidenceIndexState;
  hi_rows : list AggregateRow;
  hi_config : HistoricalOutcomeEvidenceConfig
}.

(** The query is made only when the evidence is enabled; an error of it is caught. *)
Definition evidence_index (config : HistoricalOutcomeEvidenceConfig) (answer : res (list AggregateRow))
    : HistoricalOutcomeEvidenceIndex :=
  match answer with
  | Ret rows => {| hi_state := evidence_available; hi_rows := rows; hi_config := config |}
  | Throw _ => {| hi_state := evidence_unavailable; hi_rows := []; hi_config := config |}
  end.
Definition disabled_index (config : HistoricalOutcomeEvidenceConfig) : HistoricalOutcomeEvidenceIndex :=
  {| hi_state := evidence_disabled; hi_rows := []; hi_config := config |}.

(** [finite] of a numeric column. *)
Definition finite_column (s : option string) : option number :=
  match s with
  | Some t => if str_truthy t && num_is_finite (num_of_text t) then Some (num_of_text t) else None
  | None => None
  end.

(** [count] of an integer column. *)
Definition is_count (z : Z) : bool := (0 <=? z) && (z <=? MAX_SAFE_INTEGER).

Definition lane_text (l : ResearchDecisionLane) : string :=
  match l with lane_equity => "equity" | lane_0dte => "options_0dte" | lane_leaps => "options_leaps" end.

Record EvidenceQuery := {
  eq_environment : string;
  eq_lane : ResearchDecisionLane;
  eq_symbol : string;
  eq_underlyingSymbol : string;
  eq_now : Z
}.

Definition matchesDimension (r : AggregateRow) (q : EvidenceQuery) : bool :=
  (if ag_dimension r =? "symbol" then ag_grouping_key r =? eq_symbol q
   else if ag_dimension r =? "underlying" then ag_grouping_key r =? eq_underlyingSymbol q
   else if ag_dimension r =? "lane" then ag_grouping_key r =? lane_text (eq_lane q)
   else false)%string.

Definition dimensionPriority (r : AggregateRow) : Z :=
  (if ag_dimension r =? "symbol" then 0%Z else if ag_dimension r =? "underlying" then 1%Z
   else if ag_dimension r =? "lane" then 2%Z else 3%Z)%string.

Definition hex_hash (s : string) : bool :=
  string_forall (λ c, is_digit c || (("a" <=? c)%char && (c <=? "f")%char)) s && (String.length s =? 64)%nat.

Definition valid_row (config : HistoricalOutcomeEvidenceConfig) (q : EvidenceQuery) (r : AggregateRow) : bool :=
  let span := num_of_Z (ag_date_range_end r - ag_date_range_start r) in
  let age := num_of_Z (eq_now q - ag_calculated_at r) in
  (ag_environment r =? eq_environment q)%string && (ag_lane r =? lane_text (eq_lane q))%string
  && negb (ag_source_truncated r) && ag_usable_as_evidence r && (ag_schema_version r =? hc_schemaVersion config)
  && is_count (ag_sample_count r) && negb (num_of_Z (ag_sample_count r) <? hc_minimumSample config)%float
  && is_count (ag_filled_count r) && is_count (ag_rejected_count r) && is_count (ag_canceled_count r)
  && is_count (ag_missing_join_count r) && is_count (ag_ambiguous_join_count r)
  && is_count (ag_unsupported_metric_count r) && matchesDimension r q
  && (num_of_Z (ag_missing_join_count r + ag_ambiguous_join_count r) / num_of_Z (ag_sample_count r)
      <=? hc_maximumIncompleteJoinRatio config)%float
  && (0 <? span)%float && (span <=? hc_lookbackDays config * 86400000)%float
  && (ag_date_range_end r <=? eq_now q) && (0 <=? age)%float && (age <=? hc_staleAfterMs config)%float
  && hex_hash (ag_content_hash r).

(** ** [String(date)] *)

Definition day_names : list string := ["Thu"; "Fri"; "Sat"; "Sun"; "Mon"; "Tue"; "Wed"]%string.
Definition month_names : list string :=
  ["Jan"; "Feb"; "Mar"; "Apr"; "May"; "Jun"; "Jul"; "Aug"; "Sep"; "Oct"; "Nov"; "Dec"]%string.
Definition nth_name (names : list string) (i : Z) : string := nth (Z.to_nat i) names EmptyString.

Section dates.
(** The offset from UTC in minutes and the suffix of the time zone of the process. *)
Context (offset : Z → Z) (zone_suffix : Z → string).

Definition date_string (t : Z) : string :=
  let local := t + offset t * 60000 in
  let day := local / MS_PER_DAY in let ms := local mod MS_PER_DAY in
  (nth_name day_names (day mod 7) ++ " " ++ nth_name month_names (month_from_day day) ++ " "
   ++ padded_text 2 (date_from_day day) ++ " " ++ padded_text 4 (year_from_day day) ++ " "
   ++ padded_text 2 (ms / 3600000) ++ ":" ++ padded_text 2 (ms / 60000 mod 60) ++ ":"
   ++ padded_text 2 (ms / 1000 mod 60) ++ " GMT" ++ zone_suffix t)%string.

(** [le a b] is [a.localeCompare(b) <= 0]. *)
Context (le : string → string → bool).

(** The comparator: the priority of the dimension, then the texts of the dates. *)
Definition evidence_le (a b : AggregateRow) : bool :=
  if dimensionPriority a =? dimensionPriority b
  then le (date_string (ag_calculated_at b)) (date_string (ag_calculated_at a))
  else dimensionPriority a <=? dimensionPriority b.

Definition selectHistoricalOutcomeEvidence (index : HistoricalOutcomeEvidenceIndex) (q : EvidenceQuery)
    : option AggregateRow :=
  if negb (bool_decide (hi_state index = evidence_available)) || negb (hc_enabled (hi_config index)) then None
  else head (sort_by evidence_le (List.filter (valid_row (hi_config index) q) (hi_rows index))).
End dates.

(** The document of the evidence. *)
Definition evidence_document (q : EvidenceQuery) (r : AggregateRow) : jvalue :=
  let num o := match o with Some x => JNum (num_text x) | None => JNull end in
  let int z := JNum (num_text (num_of_Z z)) in
  JObj [("state", JStr "available"); ("reasonCode", JStr "HISTORICAL_OUTCOME_EVIDENCE_AVAILABLE");
        ("aggregateId", JStr (ag_id r)); ("environment", JStr (eq_environment q)); ("lane", JStr (lane_text (eq_lane q)));
        ("dimension", JStr (ag_dimension r)); ("groupingKey", JStr (ag_grouping_key r));
        ("dateRangeStart", JStr (iso_text (ag_date_range_start r))); ("dateRangeEnd", JStr (iso_text (ag_date_range_end r)));
        ("sampleCount", int (ag_sample_count r)); ("filledCount", int (ag_filled_count r));
        ("rejectedCount", int (ag_rejected_count r)); ("canceledCount", int (ag_canceled_count r));
        ("averageTimeToFirstFillMs", num (finite_column (ag_average_time_to_first_fill_ms r)));
        ("averageSlippageBps", num (finite_column (ag_average_slippage_bps r)));
        ("realizedReturnAverage", num (finite_column (ag_realized_return_average r)));
        ("winRate", num (finite_column (ag_win_rate r))); ("missingJoinCount", int (ag_missing_join_count r));
        ("ambiguousJoinCount", int (ag_ambiguous_join_count r)); ("unsupportedMetricCount", int (ag_unsupported_metric_count r));
        ("sourceWatermark", JStr (iso_text (ag_source_watermark r))); ("calculatedAt", JStr (iso_text (ag_calculated_at r)));
        ("schemaVersion", int (ag_schema_version r)); ("contentHash", JStr (ag_content_hash r))]%string.

(** [{ ...signalInputs, historicalOutcomeEvidence: evidence }] *)
Definition attachHistoricalOutcomeEvidence (signalInputs : list (string * jvalue)) (q : EvidenceQuery)
    (evidence : option AggregateRow) : list (string * jvalue) :=
  match evidence with
  | None => signalInputs
  | Some r => signalInputs ++ [("historicalOutcomeEvidence"%string, evidence_document q r)]
  end.

(** ** Properties *)

Section facts.
Context (offset : Z → Z) (zone_suffix : Z → string) (le : string → string → bool).

(** The evidence for a candidate is about it, is fresh and complete enough. *)
Lemma selected_valid index q r :
  selectHistoricalOutcomeEvidence offset zone_suffix le index q = Some r →
  In r (hi_rows index) ∧ valid_row (hi_config index) q r = true.
Proof.
  unfold selectHistoricalOutcomeEvidence. destruct (_ || _); [done|]. destruct (sort_by _ _) as [|x l] eqn:E; [done|].
  intros [= ->]. apply filter_In, (sort_by_In (evidence_le offset zone_suffix le)). rewrite E. by left.
Qed.

(** The local day of an instant, counted from the first of January 1970, a Thursday. *)
Definition local_day (t : Z) : Z := (t + offset t * 60000) / MS_PER_DAY.

Lemma thursday_text t : local_day t mod 7 = 0 → ∃ s, date_string offset zone_suffix t = ("Thu" ++ s)%string.
Proof. unfold local_day. intros H. unfold date_string. rewrite H. by eexists. Qed.

Lemma friday_text t : local_day t mod 7 = 1 → ∃ s, date_string offset zone_suffix t = ("Fri" ++ s)%string.
Proof. unfold local_day. intros H. unfold date_string. rewrite H. by eexists. Qed.

(** C19: the evidence of a Thursday wins over the newer one of the Friday after it.
    When the query lists two rows of the same dimension that may both be used, one
    calculated on a Thursday and one on the next day, the older row is selected, since
    the rows are compared by the text of their dates and in the order of texts no text
    that starts with Thu comes before one that starts with Fri. *)
Theorem historical_evidence_by_date_text index q old new :
  (∀ s s', le ("Thu" ++ s) ("Fri" ++ s') = false) →
  hi_state index = evidence_available → hc_enabled (hi_config index) = true → hi_rows index = [new; old] →
  valid_row (hi_config index) q old = true → valid_row (hi_config index) q new = true →
  ag_dimension old = ag_dimension new →
  local_day (ag_calculated_at old) mod 7 = 0 →
  local_day (ag_calculated_at new) = local_day (ag_calculated_at old) + 1 →
  offset (ag_calculated_at new) = offset (ag_calculated_at old) →
  ag_calculated_at old < ag_calculated_at new ∧
  selectHistoricalOutcomeEvidence offset zone_suffix le index q = Some old.
Proof.
  intros Hle Hs He Hr Vo Vn Hd Ht Hn Ho. split.
  - unfold local_day in Hn. rewrite Ho in Hn. set (x := offset _) in *.
    unfold MS_PER_DAY in Hn. Z.div_mod_to_equations. lia.
  - assert (Hf : local_day (ag_calculated_at new) mod 7 = 1)
      by (rewrite Hn, <- Z.add_mod_idemp_l, Ht by lia; done).
    destruct (thursday_text _ Ht) as [s1 E1], (friday_text _ Hf) as [s2 E2].
    unfold selectHistoricalOutcomeEvidence.
    rewrite bool_decide_eq_true_2, He, Hr by done. cbn [negb orb List.filter]. rewrite Vn, Vo.
    unfold sort_by. cbn [foldr insert_by]. unfold evidence_le at 1. unfold dimensionPriority.
    by rewrite Hd, Z.eqb_refl, E1, E2, Hle.
Qed.
End facts.

(** An aggregate of the week to [calculated], calculated then. *)
Definition desk_aggregate (id : string) (calculated : Z) : AggregateRow :=
  {| ag_id := id; ag_environment := "paper"; ag_lane := "equity"; ag_dimension := "symbol"; ag_grouping_key := "ACME";
     ag_date_range_start := calculated - 7 * MS_PER_DAY; ag_date_range_end := calculated; ag_source_truncated := false;
     ag_sample_count := 9; ag_filled_count := 9; ag_rejected_count := 0; ag_canceled_count := 0;
     ag_average_time_to_first_fill_ms := None; ag_average_slippage_bps := None; ag_realized_return_average := Some "0.01";
     ag_win_rate := Some "0.6"; ag_missing_join_count := 0; ag_ambiguous_join_count := 0; ag_unsupported_metric_count := 0;
     ag_usable_as_evidence := true; ag_source_watermark := calculated; ag_calculated_at := calculated; ag_schema_version := 1;
     ag_content_hash := "aaaaaaaaaaaaaaaaaaaaaaaaaaaaaaaaaaaaaaaaaaaaaaaaaaaaaaaaaaaaaaaa" |}%string.

(** Thursday and Friday, the eighth and the ninth of January 2026, and ten minutes later. *)
Definition thursday : Z := 1767873600000.
Definition friday : Z := thursday + MS_PER_DAY - 600000.

Definition desk_index : HistoricalOutcomeEvidenceIndex :=
  {| hi_state := evidence_available; hi_rows := [desk_aggregate "friday" friday; desk_aggregate "thursday" thursday];
     hi_config := historicalOutcomeEvidenceConfig (λ n, if (n =? "OUTCOME_LEARNING_EVIDENCE_ENABLED")%string then Some "true" else None) |}%string.

Definition desk_query : EvidenceQuery :=
  {| eq_environment := "paper"; eq_lane := lane_equity; eq_symbol := "ACME"; eq_underlyingSymbol := "ACME"; eq_now := friday |}%string.

Lemma historical_evidence_by_date_text_witness :
  thursday < friday ∧
  ag_id <$> selectHistoricalOutcomeEvidence (λ _, 0) (λ _, "+0000 (Coordinated Universal Time)"%string) String.leb desk_index desk_query
    = Some "thursday"%string.
Proof.
  destruct (historical_evidence_by_date_text (λ _, 0) (λ _, "+0000 (Coordinated Universal Time)"%string) String.leb desk_index desk_query
    (desk_aggregate "thursday" thursday) (desk_aggregate "friday" friday)) as [H1 H2]; try (vm_compute; reflexivity).
  split; [exact H1|]. rewrite H2. reflexivity.
Defined.
