(* ===== verification/InvestmentLanes.v ===== *)
(** Lanes of the investment cycle: src/services/canonicalWorkstreamResult.ts and
    src/services/investmentOrchestratorService.ts.

    A lane is an async evaluation of a context all lanes share.  The lanes run one after
    the other; a lane that rejects is reported as an error and the others still run.
    The time stamps of a result are left out. *)

From Stdlib Require Import Floats.
From S2P Require Import Prelude.
From S2P Require Import JsString.
From S2P Require Import JsNumber.
From S2P Require Import JsText.
From S2P Require Import Effects.
From S2P Require Import ResearchSignals.
From S2P Require Import FencedHistory.

Inductive WorkstreamOutcome : Set := lane_success | lane_no_action | lane_error.
#[export] Instance WorkstreamOutcome_eq_dec : EqDecision WorkstreamOutcome.
Proof. solve_decision. Defined.

Record WorkstreamResult (P : Type) := {
  wr_cycle_id : string;
  wr_lane : ResearchDecisionLane;
  wr_outcome : WorkstreamOutcome;
  wr_proposals : list P;
  wr_evidence_references : list string;
  wr_confidence : option number;
  wr_reason_codes : list string;
  wr_diagnostic_summary : string
}.
Arguments wr_cycle_id {P} _.
Arguments wr_lane {P} _.
Arguments wr_outcome {P} _.
Arguments wr_proposals {P} _.
Arguments wr_evidence_references {P} _.
Arguments wr_confidence {P} _.
Arguments wr_reason_codes {P} _.
Arguments wr_diagnostic_summary {P} _.

Record WorkstreamLaneEvaluation (P : Type) := {
  ev_proposals : list P;
  ev_evidence_references : list string;
  ev_confidence : option number;
  ev_reason_codes : list string;
  ev_diagnostic_summary : option string
}.
Arguments ev_proposals {P} _.
Arguments ev_evidence_references {P} _.
Arguments ev_confidence {P} _.
Arguments ev_reason_codes {P} _.
Arguments ev_diagnostic_summary {P} _.

Definition DIAGNOSTIC_SUMMARY_MAX_LENGTH : nat := 240.

Definition boundedSummary (value : string) : string := str_take DIAGNOSTIC_SUMMARY_MAX_LENGTH value.

Definition uniqueText (values : list string) : list string := js_unique (List.filter str_truthy (map trim values)).

(** ** The code in a message *)

Definition word_char (c : ascii) : bool := is_digit c || is_upper c || is_lower c || Ascii.eqb c "_".
Definition code_char (c : ascii) : bool := is_digit c || is_upper c.

(** The words of a text: its longest runs of word characters. *)
Fixpoint words_from (current : string) (s : string) : list string :=
  match s with
  | EmptyString => [current]
  | String c s' => if word_char c then words_from (current ++ String c EmptyString)%string s'
                   else current :: words_from EmptyString s'
  end.

(** [[A-Z0-9]+(_[A-Z0-9]+)*] with at least [groups] underscores to come. *)
Fixpoint code_rest (inside : bool) (groups : nat) (s : string) : bool :=
  match s with
  | EmptyString => inside && (groups =? 0)%nat
  | String c s' => if Ascii.eqb c "_" then inside && code_rest false (pred groups) s'
                   else code_char c && code_rest true groups s'
  end.

(** [/\b[A-Z][A-Z0-9]*(?:_[A-Z0-9]+)+\b/]: a match is a whole word. *)
Definition is_error_code (word : string) : bool :=
  match word with String c s => is_upper c && code_rest true 1 s | EmptyString => false end.

Definition error_code (message : string) : option string := select_one is_error_code (words_from EmptyString message).

Example code_of_message : error_code "lane: POSTGRES_FENCE_LOST (again), A_B" = Some "POSTGRES_FENCE_LOST"%string.
Proof. vm_compute. reflexivity. Qed.
Example no_code : error_code "ERROR Timeout_A a_B _A_B" = None.
Proof. vm_compute. reflexivity. Qed.

(** ** Results *)

Section lanes.
Context {P : Type}.

(** The result of a lane that has been evaluated, or has rejected with a message. *)
Definition lane_result (cycleId : string) (lane : ResearchDecisionLane) (r : res (WorkstreamLaneEvaluation P))
    : WorkstreamResult P :=
  match r with
  | Ret e =>
      let n := List.length (ev_proposals e) in
      let codes := uniqueText (ev_reason_codes e) in
      let success := negb (n =? 0)%nat in
      {| wr_cycle_id := cycleId; wr_lane := lane; wr_outcome := if success then lane_success else lane_no_action;
         wr_proposals := ev_proposals e; wr_evidence_references := uniqueText (ev_evidence_references e);
         wr_confidence := match ev_confidence e with Some x => if num_is_finite x then Some x else None | None => None end;
         wr_reason_codes := match codes with
                            | [] => [if success then "PROPOSALS_CREATED" else "NO_ACTION"]
                            | _ => codes
                            end;
         wr_diagnostic_summary := boundedSummary
           (default (if success then "Lane produced " ++ index_text n ++ " proposal(s)."
                     else "Lane evaluation completed without proposals.") (ev_diagnostic_summary e)) |}%string
  | Throw message =>
      {| wr_cycle_id := cycleId; wr_lane := lane; wr_outcome := lane_error; wr_proposals := [];
         wr_evidence_references := []; wr_confidence := None;
         wr_reason_codes := [default "LANE_EXECUTION_ERROR" (error_code message)];
         wr_diagnostic_summary :=
           boundedSummary (if str_truthy message then message else "Lane evaluation failed.") |}%string
  end.

Section programs.
Context {E : Type → Type} {C : Type}.

Fixpoint executeWorkstreamLanes (cycleId : string)
    (lanes : list (ResearchDecisionLane * async E (WorkstreamLaneEvaluation P))) : async E (list (WorkstreamResult P)) :=
  match lanes with
  | [] => async_ret []
  | (lane, execute) :: lanes' =>
      prog_bind execute (λ r,
        let! results := executeWorkstreamLanes cycleId lanes' in
        async_ret (lane_result cycleId lane r :: results))
  end.

Record InvestmentStrategyLane := {
  sl_lane : ResearchDecisionLane;
  sl_enabled : bool;
  sl_execute : C → async E (WorkstreamLaneEvaluation P)
}.

Record InvestmentOrchestratorResult := {
  or_cycleId : string;
  or_enabledLanes : list ResearchDecisionLane;
  or_workstreamResults : list (WorkstreamResult P);
  or_proposals : list P
}.

Definition successful_proposals (results : list (WorkstreamResult P)) : list P :=
  flat_map (λ r, if bool_decide (wr_outcome r = lane_success) then wr_proposals r else []) results.

Definition runInvestmentOrchestrator (cycleId : string) (loadSharedContext : async E C)
    (lanes : list InvestmentStrategyLane) : async E InvestmentOrchestratorResult :=
  let enabled := List.filter sl_enabled lanes in
  let! context := loadSharedContext in
  let! results := executeWorkstreamLanes cycleId (map (λ l, (sl_lane l, sl_execute l context)) enabled) in
  async_ret {| or_cycleId := cycleId; or_enabledLanes := map sl_lane enabled; or_workstreamResults := results;
               or_proposals := successful_proposals results |}.
End programs.
End lanes.
Arguments InvestmentStrategyLane : clear implicits.
Arguments InvestmentOrchestratorResult : clear implicits.

(** ** Executions *)

Section executions.
Context {P : Type} {E : Type → Type} {S : Type}.
Context (handle : ∀ X, E X → S → X → S → Prop) (others : S → S → Prop).

(** The lanes are executed one after the other, and each one has its result. *)
Inductive lanes_run (cycleId : string)
    : list (ResearchDecisionLane * async E (WorkstreamLaneEvaluation P)) → S → list (WorkstreamResult P) → S → Prop :=
| lanes_run_nil w w' : rtc others w w' → lanes_run cycleId [] w [] w'
| lanes_run_cons lane execute lanes w r w1 results w' :
    executes handle others execute w r w1 → lanes_run cycleId lanes w1 results w' →
    lanes_run cycleId ((lane, execute) :: lanes) w (lane_result cycleId lane r :: results) w'.

(** What follows the last lane. *)
Lemma lanes_run_others cycleId lanes w results w1 w2 :
  lanes_run cycleId lanes w results w1 → rtc others w1 w2 → lanes_run cycleId lanes w results w2.
Proof.
  induction 1 as [w w' H|lane execute lanes w r w1 results w' H _ IH]; intros H2.
  - apply lanes_run_nil. by etrans.
  - eapply lanes_run_cons; [exact H|auto].
Qed.

Lemma execute_lanes cycleId lanes w x w' :
  executes handle others (executeWorkstreamLanes cycleId lanes) w x w' →
  ∃ results, x = Ret results ∧ lanes_run cycleId lanes w results w'.
Proof.
  revert w x w'. induction lanes as [|[lane execute] lanes IH]; intros w x w'; cbn [executeWorkstreamLanes].
  - intros [-> H]. exists []. split; [done|]. by apply lanes_run_nil.
  - intros (r & w1 & Hr & H)%executes_bind. apply executes_async_bind in H as [(results & w2 & H & H2)|(c & w2 & H & _)].
    + destruct H2 as [-> H2]. apply IH in H as (l & [= <-] & H). eexists. split; [done|].
      eapply lanes_run_cons; [exact Hr|]. by eapply lanes_run_others.
    + by apply IH in H as (l & [=] & _).
Qed.

Lemma orchestrator_run {C} cycleId (load : async E C) lanes w o w' :
  executes handle others (runInvestmentOrchestrator (P := P) cycleId load lanes) w (Ret o) w' →
  ∃ context w1, executes handle others load w (Ret context) w1 ∧
    lanes_run cycleId (map (λ l, (sl_lane l, sl_execute l context)) (List.filter sl_enabled lanes)) w1 (or_workstreamResults o) w' ∧
    or_proposals o = successful_proposals (or_workstreamResults o) ∧ or_enabledLanes o = map sl_lane (List.filter sl_enabled lanes).
Proof.
  unfold runInvestmentOrchestrator. intros H. apply executes_async_Ret in H as (context & w1 & Hc & H).
  apply executes_async_Ret in H as (results & w2 & H & Ho). apply executes_ret in Ho as [<- Ho].
  apply execute_lanes in H as (l & [= <-] & H). exists context, w1. split_and!; [done| |done|done].
  by eapply lanes_run_others.
Qed.
End executions.
