(* ===== verification/ResearchCandidates.v ===== *)
(** From targets to candidates: the scoring, ranking and selection in
    [persistCandidates] of src/services/postgresResearchWorkflowService.ts, and the rows
    it inserts into candidates (migrations 001 and 002).

    A target comes from the features of a symbol; a time stamp printed by toISOString is
    the milliseconds it denotes.  A number that is passed to a numeric column arrives as
    its text.

    What the selection of candidates does: every target is decided once, in the order
    of the scores, and the best eligible ones are selected. *)
From Stdlib Require Import Floats Qabs.
From S2P Require Import Prelude.
From S2P Require Import JsString.
From S2P Require Import JsDate.
From S2P Require Import JsNumber.
From S2P Require Import JsText.
From S2P Require Import SchedulerLease.
From S2P Require Import ExecutionTables.
From S2P Require Import OptionSymbol.
From S2P Require Import JsJson.
From S2P Require Import CanonicalJson.
From S2P Require Import Submission.
From S2P Require Import AlpacaClient.
From S2P Require Import ReviewConfiguration.
From S2P Require Import ReviewEvidence.
From S2P Require Import FencedHistory.
From S2P Require Import ResearchSignals.
From S2P Require Import HistoricalEvidence.

Open Scope Z_scope.

(** ** Targets *)

Record TargetSnapshot := {
  tg_symbol : string;
  tg_asOf : Z;
  tg_direction : TargetDirection;
  tg_horizon : string;
  tg_entryReference : number;
  tg_upsideTarget : number;
  tg_downsideRisk : number;
  tg_stopLoss : option number;
  tg_takeProfit : option number;
  tg_confidence : number;
  tg_expectedReturn : option number;
  tg_volatilityAdjustedScore : option number;
  tg_riskProfile : string;
  tg_preferredExpression : string;
  tg_rationale : list string;
  tg_sourceFingerprint : string;
  tg_optionsStrategy : option (list (string * jvalue))
}.

(** [target.optionsStrategy?.optionsCandidate] when it is an object. *)
Definition optionsCandidate (t : TargetSnapshot) : option (list (string * jvalue)) :=
  match tg_optionsStrategy t with Some l => record (field l "optionsCandidate") | None => None end.

Definition text_field (l : list (string * jvalue)) (key : string) : option string :=
  match field l key with Some (JStr s) => Some s | _ => None end.

Definition expectedType (t : TargetSnapshot) : option string :=
  if (tg_preferredExpression t =? "long_call")%string then Some "call"%string
  else if (tg_preferredExpression t =? "long_put")%string then Some "put"%string else None.

Definition executableOption (t : TargetSnapshot) : option (list (string * jvalue)) :=
  match optionsCandidate t, expectedType t with
  | Some l, Some expected =>
      if bool_decide (text_field l "type" = Some expected) && bool_decide (is_Some (text_field l "optionSymbol"))
      then Some l else None
  | _, _ => None
  end.

(** ** Scores *)

Definition clamp (value least most : number) : number := math_min most (math_max least value).

Record ScoreComponents := {
  sc_confidence : number;
  sc_expectedReturn : number;
  sc_volatilityAdjusted : number;
  sc_freshness : number;
  sc_optionLiquidity : number;
  sc_riskProfile : number
}.

(** [Number(option?.liquidityScore ?? 0)] *)
Definition liquidity_score (l : option (list (string * jvalue))) : number :=
  match given (match l with Some l => field l "liquidityScore" | None => None end) with
  | Some v => js_number (Some v)
  | None => zero
  end.

Definition target_age_days (now : Z) (t : TargetSnapshot) : number := math_max 0 (num_of_Z (now - tg_asOf t) / 86400000)%float.

Definition score_components (now : Z) (t : TargetSnapshot) : ScoreComponents :=
  {| sc_confidence := (tg_confidence t * 42)%float;
     sc_expectedReturn := (clamp (default zero (tg_expectedReturn t) * 100) (-10) 20 * 1.7)%float;
     sc_volatilityAdjusted := clamp (default one (tg_volatilityAdjustedScore t) * 3)%float (-4) 8;
     sc_freshness := clamp (15 - clamp (target_age_days now t * 0.8) 0 15)%float 0 15;
     sc_optionLiquidity := if negb (tg_preferredExpression t =? "shares")%string
                           then (clamp (liquidity_score (optionsCandidate t) * 18) 0 18 + 4)%float else zero;
     sc_riskProfile := if (tg_riskProfile t =? "aggressive")%string then 6%float else zero |}.

(** [clamp(Object.values(components).reduce((sum, value) => sum + value, 0), 0, 100)] *)
Definition score_total (c : ScoreComponents) : number :=
  clamp (zero + sc_confidence c + sc_expectedReturn c + sc_volatilityAdjusted c + sc_freshness c + sc_optionLiquidity c
         + sc_riskProfile c)%float 0 100.

(** ** Strategy families *)

Inductive StrategyFamily : Set := family_equity | family_zero_dte | family_leaps | family_standard_option.
#[export] Instance StrategyFamily_eq_dec : EqDecision StrategyFamily.
Proof. solve_decision. Defined.

Definition family_text (f : StrategyFamily) : string :=
  match f with
  | family_equity => "equity" | family_zero_dte => "zero_dte_spy" | family_leaps => "leaps"
  | family_standard_option => "standard_option"
  end.

Definition researchLaneForStrategyFamily (f : StrategyFamily) : option ResearchDecisionLane :=
  match f with
  | family_equity => Some lane_equity | family_zero_dte => Some lane_0dte | family_leaps => Some lane_leaps
  | family_standard_option => None
  end.

Record LeapsPolicy := { lp_minDte : number; lp_maxDte : number }.

(** [Number.parseInt(String(env[name] || fallback), 10)] *)
Definition dte_setting (value : option string) (fallback : string) : number :=
  parse_int (match value with Some s => if str_truthy s then s else fallback | None => fallback end).

Definition postgresLeapsPolicy (env : Environment) : LeapsPolicy :=
  let configuredMin := dte_setting (env "PAPER_LEAPS_MIN_DTE"%string) "180" in
  let configuredMax := dte_setting (env "PAPER_LEAPS_MAX_DTE"%string) "730" in
  let minDte := if num_is_safe_integer configuredMin && (180 <=? configuredMin)%float then configuredMin else 180%float in
  {| lp_minDte := minDte;
     lp_maxDte := if num_is_safe_integer configuredMax && (minDte <=? configuredMax)%float then configuredMax else 730%float |}.

Section context.
Context (env : Environment) (new_york : Z → NewYorkParts) (le : string → string → bool).
Context (offset : Z → Z) (zone_suffix : Z → string).

Definition strategy_family (now : Z) (t : TargetSnapshot) (optionSymbol expirationDate : option string)
    (optionDte : option Z) : StrategyFamily :=
  let policy := postgresLeapsPolicy env in
  match optionSymbol with
  | Some s =>
      if negb (str_truthy s) then family_equity
      else if (tg_symbol t =? "SPY")%string && bool_decide (expirationDate = Some (newYorkTradingDate new_york now))
      then family_zero_dte
      else match optionDte with
           | Some d => if (lp_minDte policy <=? num_of_Z d)%float && (num_of_Z d <=? lp_maxDte policy)%float
                       then family_leaps else family_standard_option
           | None => family_standard_option
           end
  | None => family_equity
  end.

(** ** Evaluation *)

Record ResearchInput := {
  rs_signals : list NormalizedResearchSignal;
  rs_configuration : ResearchSignalConfiguration;
  rs_unavailableReasonCode : option string;
  rs_historicalOutcomeEvidence : HistoricalOutcomeEvidenceIndex
}.

Record EvaluatedTarget := {
  et_target : TargetSnapshot;
  et_option : option (list (string * jvalue));
  et_optionSymbol : option string;
  et_optionDte : option Z;
  et_family : StrategyFamily;
  et_components : ScoreComponents;
  et_baseTotal : number;
  et_influence : LaneResearchInfluence;
  et_score : number;
  et_historicalEvidence : option (EvidenceQuery * AggregateRow);
  et_reasons : list string
}.

Definition nonApplicableResearchInfluence : LaneResearchInfluence :=
  {| in_signalId := None; in_provider := None; in_asOf := None; in_horizon := None; in_sourceReferences := [];
     in_state := signal_unavailable; in_scoreAdjustment := zero;
     in_reasonCodes := ["RESEARCH_NOT_APPLICABLE_STANDARD_OPTION"]%string |}.

Definition refusal_reasons (t : TargetSnapshot) : list string :=
  (if bool_decide (tg_direction t = neutral_target) then ["DIRECTION_THRESHOLD_NOT_MET"] else [])%string
  ++ (if (tg_preferredExpression t =? "none")%string then ["STRATEGY_ELIGIBILITY_NOT_MET"] else [])%string
  ++ (if negb (tg_preferredExpression t =? "shares")%string && negb (bool_decide (is_Some (executableOption t)))
      then ["CURRENT_OPTION_EVIDENCE_REQUIRED"] else [])%string.

Definition evidence_query (now : Z) (lane : ResearchDecisionLane) (t : TargetSnapshot) : EvidenceQuery :=
  {| eq_environment := "paper"; eq_lane := lane; eq_symbol := tg_symbol t; eq_underlyingSymbol := tg_symbol t; eq_now := now |}.

Definition evaluate_target (input : ResearchInput) (now : Z) (t : TargetSnapshot) : EvaluatedTarget :=
  let option := executableOption t in
  let optionSymbol := match option with Some l => text_field l "optionSymbol" | None => None end in
  let expirationDate := match option with Some l => text_field l "expirationDate" | None => None end in
  let optionDte :=
    match expirationDate with
    | Some d => if str_truthy d
                then optionDaysToExpiration d (iso_timestamp (newYorkTradingDate new_york now ++ "T00:00:00.000Z")%string)
                else None
    | None => None
    end in
  let family := strategy_family now t optionSymbol expirationDate optionDte in
  let components := score_components now t in
  let influence :=
    match researchLaneForStrategyFamily family with
    | Some lane => buildLaneResearchInfluence le new_york
                     (List.filter (λ s, (sg_symbol (sg_content s) =? tg_symbol t)%string) (rs_signals input)) lane
                     (tg_direction t) now (rs_configuration input) (rs_unavailableReasonCode input)
    | None => nonApplicableResearchInfluence
    end in
  {| et_target := t; et_option := option; et_optionSymbol := optionSymbol; et_optionDte := optionDte; et_family := family;
     et_components := components; et_baseTotal := score_total components; et_influence := influence;
     et_score := clamp (score_total components + in_scoreAdjustment influence)%float 0 100;
     et_historicalEvidence :=
       match researchLaneForStrategyFamily family with
       | Some lane => let q := evidence_query now lane t in
                      pair q <$> selectHistoricalOutcomeEvidence offset zone_suffix le (rs_historicalOutcomeEvidence input) q
       | None => None
       end;
     et_reasons := refusal_reasons t |}.

(** [right.score - left.score]: higher scores first. *)
Definition score_before (a b : EvaluatedTarget) : bool := negb (0 <? et_score b - et_score a)%float.

Definition evaluate_targets (input : ResearchInput) (now : Z) (targets : list TargetSnapshot) : list EvaluatedTarget :=
  sort_by score_before (map (evaluate_target input now) targets).

(** ** Selection *)

Record Decision := {
  de_row : EvaluatedTarget;
  de_rank : nat;
  de_selected : bool;
  de_reasons : list string
}.

Definition eligible (e : EvaluatedTarget) : bool := match et_reasons e with [] => true | _ => false end.
Definition key_of (e : EvaluatedTarget) : string := tg_sourceFingerprint (et_target e).

Definition selected_keys (maxCandidates : nat) (evaluated : list EvaluatedTarget) : list string :=
  map key_of (firstn maxCandidates (List.filter eligible evaluated)).

Definition decide_row (keys : list string) (index : nat) (e : EvaluatedTarget) : Decision :=
  let selected := str_mem (key_of e) keys in
  {| de_row := e; de_rank := S index; de_selected := selected;
     de_reasons := if negb (eligible e) then et_reasons e
                   else if selected then ["RANKED_SELECTED"]%string else ["CANDIDATE_LIMIT_EXCEEDED"]%string |}.

Definition decide_rows (maxCandidates : nat) (evaluated : list EvaluatedTarget) : list Decision :=
  imap (decide_row (selected_keys maxCandidates evaluated)) evaluated.

Definition decisions_of (input : ResearchInput) (now : Z) (maxCandidates : nat) (targets : list TargetSnapshot)
    : list Decision := decide_rows maxCandidates (evaluate_targets input now targets).
End context.

(** ** The document of a candidate *)

Definition json_number (x : number) : jvalue := if num_is_finite x then JNum (num_text x) else JNull.
Definition json_optional (x : option number) : jvalue := match x with Some x => json_number x | None => JNull end.

Definition state_text (s : ResearchUsabilityState) : string :=
  match s with
  | signal_current => "current" | signal_expired => "expired" | signal_contradicted => "contradicted"
  | signal_invalid => "invalid" | signal_unavailable => "unavailable"
  end.

Definition influence_document (i : LaneResearchInfluence) : jvalue :=
  JObj [("signalId", json_text (in_signalId i)); ("provider", json_text (in_provider i)); ("asOf", json_time (in_asOf i));
        ("horizon", json_text (horizon_text <$> in_horizon i)); ("sourceReferences", json_texts (in_sourceReferences i));
        ("state", JStr (state_text (in_state i))); ("scoreAdjustment", json_number (in_scoreAdjustment i));
        ("reasonCodes", json_texts (in_reasonCodes i))]%string.

Definition zero_dte_profile : jvalue :=
  JObj [("lane", JStr "options_0dte"); ("horizon", JStr "intraday"); ("priorityInputs", json_texts
    ["bid"; "ask"; "spreadDollars"; "spreadPct"; "quoteTimestamp"; "underlyingPrice"; "intradayReturn";
     "intradayVolatility"; "volume"; "openInterest"; "hoursToExpiration"; "delta"; "gamma"; "theta"; "vega"; "rho"])]%string.
Definition leaps_profile : jvalue :=
  JObj [("lane", JStr "options_leaps"); ("horizon", JStr "long_horizon"); ("priorityInputs", json_texts
    ["expirationDate"; "daysToExpiration"; "strike"; "moneyness"; "openInterest"; "openInterestDate"; "spreadDollars";
     "spreadPct"; "impliedVolatility"; "delta"; "gamma"; "theta"; "vega"; "rho"; "underlyingHistoricalVolatility"])]%string.

Definition optionDecisionInputsForFamily (option : option (list (string * jvalue))) (f : StrategyFamily) : jvalue :=
  match option with
  | None => JNull
  | Some l =>
      match f with
      | family_zero_dte => JObj (spread l [("evidenceProfile"%string, zero_dte_profile)])
      | family_leaps => JObj (spread l [("evidenceProfile"%string, leaps_profile)])
      | _ => JObj l
      end
  end.

Definition profile_document (thresholds : PaperExplorationThresholds) : jvalue :=
  JObj [("scope", JStr "paper_only"); ("profile", JStr "exploration_v3");
        ("thresholds", JObj (map (λ '(name, (previous, current)),
           (name, JObj [("previous", json_number previous); ("current", json_number current)]))
           (paperExplorationProfile thresholds)))]%string.

Definition score_document (now : Z) (e : EvaluatedTarget) : jvalue :=
  let t := et_target e in let c := et_components e in
  JObj [("total", json_number (et_score e));
        ("inputs", JObj [("confidence", json_number (tg_confidence t)); ("expectedReturn", json_optional (tg_expectedReturn t));
           ("volatilityAdjustedScore", json_optional (tg_volatilityAdjustedScore t));
           ("ageDays", json_number (target_age_days now t));
           ("optionLiquidityScore", json_number (liquidity_score (optionsCandidate t)));
           ("preferredExpression", JStr (tg_preferredExpression t)); ("riskProfile", JStr (tg_riskProfile t))]);
        ("components", JObj [("confidence", json_number (sc_confidence c)); ("expectedReturn", json_number (sc_expectedReturn c));
           ("volatilityAdjusted", json_number (sc_volatilityAdjusted c)); ("freshness", json_number (sc_freshness c));
           ("optionLiquidity", json_number (sc_optionLiquidity c)); ("riskProfile", json_number (sc_riskProfile c))]);
        ("baseTotal", json_number (et_baseTotal e)); ("research", influence_document (et_influence e))]%string.

(** The evidence that there is no learning model, when a candidate was selected. *)
Definition capability_document (verifiedAt : option Z) : jvalue :=
  match verifiedAt with
  | Some t => JObj [("authority", JStr "postgres"); ("relation", JStr "public.learning_runs"); ("status", JStr "absent");
                    ("verifiedAt", JStr (iso_text t))]%string
  | None => JNull
  end.

Definition signal_inputs (policy : LeapsPolicy) (thresholds : PaperExplorationThresholds) (now : Z)
    (verifiedAt : option Z) (d : Decision) : jvalue :=
  let e := de_row d in let t := et_target e in
  let decisionInputs := match tg_optionsStrategy t with
                        | Some l => default [] (record (field l "decisionInputs"))
                        | None => []
                        end in
  let optionInputs := match et_option e with Some l => record (field l "decisionInputs") | None => None end in
  let document :=
    [("targetSourceFingerprint", JStr (tg_sourceFingerprint t)); ("marketEvidenceTimestamp", JStr (iso_text (tg_asOf t)));
     ("entryReference", json_number (tg_entryReference t)); ("stopLoss", json_optional (tg_stopLoss t));
     ("takeProfit", json_optional (tg_takeProfit t));
     ("marketDecisionInputs", JObj (spread decisionInputs [("option", optionDecisionInputsForFamily optionInputs (et_family e))]));
     ("strategyClassification",
        JObj [("family", JStr (family_text (et_family e)));
              ("daysToExpiration", json_optional (num_of_Z <$> et_optionDte e));
              ("leapsMinDte", json_number (lp_minDte policy)); ("leapsMaxDte", json_number (lp_maxDte policy))]);
     ("researchEvidence", influence_document (et_influence e)); ("candidateScore", score_document now e);
     ("decisionGates", JObj [("profile", profile_document thresholds);
        ("outcome", JStr (if de_selected d then "passed" else "failed")); ("reasons", json_texts (de_reasons d))]);
     ("learningAdjustmentStatus", JStr "not_applicable_no_postgres_learning_model");
     ("learningModelCapability", capability_document verifiedAt)]%string in
  JObj (match et_historicalEvidence e with
        | Some (q, r) => attachHistoricalOutcomeEvidence document q (Some r)
        | None => document
        end).

(** ** The table *)

(** A value of a numeric column, which may be NaN. *)
Inductive numeric : Type := NumericNaN | Numeric (q : Q).

(** A number that is passed to a column of type numeric(digits, scale). *)
Definition numeric_parameter (digits scale : nat) (x : number) : res numeric :=
  if is_nan x then Ret NumericNaN
  else match numeric_of_text (num_text x) with
       | Some q =>
           let r := numeric_round scale q in
           if Qle_bool (inject_Z (10 ^ Z.of_nat (digits - scale))) (Qabs r) then Throw "22003" else Ret (Numeric r)
       | None => Throw "22003"
       end.
Definition optional_parameter (digits scale : nat) (x : option number) : res (option numeric) :=
  match x with Some x => n ← numeric_parameter digits scale x; Ret (Some n) | None => Ret None end.

Record CandidateInsert := {
  ci_id : string;
  ci_research_run_id : string;
  ci_symbol : string;
  ci_underlying_symbol : option string;
  ci_option_symbol : option string;
  ci_asset_class : string;
  ci_as_of : Z;
  ci_rank : nat;
  ci_direction : TargetDirection;
  ci_horizon : string;
  ci_risk_profile : string;
  ci_preferred_expression : string;
  ci_strategy_family : string;
  ci_score : numeric;
  ci_confidence : numeric;
  ci_expected_return : option numeric;
  ci_estimated_max_loss : option numeric;
  ci_estimated_max_profit : option numeric;
  ci_option_liquidity_score : numeric;
  ci_volatility_score : option numeric;
  ci_strike : option numeric;
  ci_decision : string;
  ci_lifecycle_status : string;
  ci_decision_reason : option string;
  ci_rationale : list string;
  ci_signal_inputs : jvalue;
  ci_data_quality_status : string;
  ci_created_at : Z
}.

Section insert.
Context (policy : LeapsPolicy) (sha : jvalue → string) (runId : string) (thresholds : PaperExplorationThresholds).
Context (now : Z) (verifiedAt : option Z).

Definition candidate_id (t : TargetSnapshot) : string :=
  "candidate_" ++ sha (JObj [("run", JStr runId); ("source", JStr (tg_sourceFingerprint t))]%string).

(** The row of a decision, or the error of a parameter. *)
Definition candidate_row (d : Decision) : res CandidateInsert :=
  let e := de_row d in let t := et_target e in
  let is_option := match et_optionSymbol e with Some s => str_truthy s | None => false end in
  let verdict := if de_selected d then "selected"%string else "rejected"%string in
  score ← numeric_parameter 24 10 (et_score e);
  confidence ← numeric_parameter 12 10 (tg_confidence t);
  expected_return ← optional_parameter 24 10 (tg_expectedReturn t);
  max_loss ← optional_parameter 28 8 ((λ s, abs (tg_entryReference t - s)%float) <$> tg_stopLoss t);
  max_profit ← optional_parameter 28 8 ((λ p, abs (p - tg_entryReference t)%float) <$> tg_takeProfit t);
  liquidity ← numeric_parameter 24 10 (liquidity_score (et_option e));
  volatility ← optional_parameter 24 10 (tg_volatilityAdjustedScore t);
  strike ← optional_parameter 28 8
    (match et_option e with
     | Some l => match field l "strike" with Some (JNum x) => Some (num_of_text x) | _ => None end
     | None => None
     end);
  Ret {| ci_id := candidate_id t; ci_research_run_id := runId; ci_symbol := tg_symbol t;
         ci_underlying_symbol := if is_option then Some (tg_symbol t) else None; ci_option_symbol := et_optionSymbol e;
         ci_asset_class := if is_option then "option" else "equity"; ci_as_of := tg_asOf t; ci_rank := de_rank d;
         ci_direction := tg_direction t; ci_horizon := tg_horizon t; ci_risk_profile := tg_riskProfile t;
         ci_preferred_expression := tg_preferredExpression t; ci_strategy_family := family_text (et_family e);
         ci_score := score; ci_confidence := confidence; ci_expected_return := expected_return;
         ci_estimated_max_loss := max_loss; ci_estimated_max_profit := max_profit; ci_option_liquidity_score := liquidity;
         ci_volatility_score := volatility; ci_strike := strike; ci_decision := verdict; ci_lifecycle_status := verdict;
         ci_decision_reason := head (de_reasons d); ci_rationale := tg_rationale t;
         ci_signal_inputs := signal_inputs policy thresholds now verifiedAt d;
         ci_data_quality_status := "CURRENT_POSTGRES_MARKET_EVIDENCE"; ci_created_at := now |}.
End insert.

(** NaN is greater than every number. *)
Definition numeric_at_least (n : numeric) (z : Q) : bool := match n with NumericNaN => true | Numeric q => Qle_bool z q end.
Definition numeric_at_most (n : numeric) (z : Q) : bool := match n with NumericNaN => false | Numeric q => Qle_bool q z end.
Definition numeric_above (n : numeric) (z : Q) : bool := match n with NumericNaN => true | Numeric q => negb (Qle_bool q z) end.
Definition null_or {A} (p : A → bool) (o : option A) : bool := match o with Some a => p a | None => true end.

(** The CHECK constraints of candidates on these columns. *)
Definition candidate_checks (c : CandidateInsert) : bool :=
  btrim_nonempty (ci_id c) && btrim_nonempty (ci_symbol c) && (0 <? ci_rank c)%nat
  && btrim_nonempty (ci_horizon c) && btrim_nonempty (ci_risk_profile c) && btrim_nonempty (ci_preferred_expression c)
  && numeric_at_least (ci_confidence c) 0 && numeric_at_most (ci_confidence c) 1
  && null_or (λ n, numeric_at_least n 0) (ci_estimated_max_loss c)
  && null_or (λ n, numeric_at_least n 0) (ci_estimated_max_profit c)
  && null_or (λ n, numeric_above n 0) (ci_strike c).

Definition same_candidate (a b : CandidateInsert) : bool := (ci_id a =? ci_id b)%string.

(** UNIQUE (research_run_id, rank); the other unique keys are the id too. *)
Definition same_rank (a b : CandidateInsert) : bool :=
  (ci_research_run_id a =? ci_research_run_id b)%string && (ci_rank a =? ci_rank b)%nat.

(** INSERT INTO candidates ... ON CONFLICT (id) DO NOTHING *)
Definition insert_candidate (known_run : string → bool) (c : CandidateInsert) (t : list CandidateInsert)
    : res (bool * list CandidateInsert) :=
  insert_unless_exists (candidate_checks c) same_candidate same_rank (known_run (ci_research_run_id c)) c t.

Open Scope Z_scope.

(** ** Selecting from a list by key *)

Section keys.
Context {A : Type} (key : A → string).

Definition key_in (s : list A) (x : A) : bool := str_mem (key x) (map key s).

Lemma key_in_iff s l x : NoDup (map key l) → (∀ y, In y s → In y l) → In x l → key_in s x = true ↔ In x s.
Proof.
  intros Hn Hs Hx. unfold key_in. rewrite str_mem_true, in_map_iff. split.
  - intros (y & Hk & Hy). by rewrite <- (unique_key key l y x Hn (Hs y Hy) Hx Hk).
  - intros H. by exists x.
Qed.

(** The elements of a part of a list, found by their keys. *)
Lemma filter_key_in s l : s `sublist_of` l → NoDup (map key l) → List.filter (key_in s) l = s.
Proof.
  intros Hs Hn. induction Hs as [|x s l Hs IH|x s l Hs IH]; [done|..]; apply NoDup_cons in Hn as [Hx Hn];
    rewrite list_elem_of_In in Hx; cbn [List.filter].
  - assert (E : key_in (x :: s) x = true) by (apply str_mem_true; by left). rewrite E. f_equal.
    rewrite <- (IH Hn) at 2. apply filter_ext_in. intros y Hy. unfold key_in. cbn [map]. unfold str_mem. cbn [existsb].
    destruct (String.eqb_spec (key y) (key x)) as [Hk|]; [|done]. exfalso. apply Hx. rewrite <- Hk. by apply in_map.
  - assert (E : key_in s x = false).
    { apply str_mem_false. intros (y & Hk & Hy)%in_map_iff. apply Hx. rewrite <- Hk. apply in_map.
      apply list_elem_of_In. eapply elem_of_sublist; [|exact Hs]. by apply list_elem_of_In. }
    rewrite E. by apply IH.
Qed.

Lemma firstn_sublist n (l : list A) : firstn n l `sublist_of` l.
Proof. revert n. induction l as [|x l IH]; intros [|n]; cbn; [constructor|constructor|apply sublist_nil_l|by apply sublist_skip]. Qed.

Lemma filter_sublist p (l : list A) : List.filter p l `sublist_of` l.
Proof. induction l as [|x l IH]; cbn; [constructor|]. destruct (p x); by constructor. Qed.
End keys.

Lemma filter_perm_length {A} (p : A → bool) l l' :
  l ≡ₚ l' → List.length (List.filter p l) = List.length (List.filter p l').
Proof. induction 1; cbn [List.filter]; [done|..]; repeat case_match; cbn; congruence. Qed.

(** Sorted lists. *)
Section sorted.
Context {A : Type} {R : A → A → Prop}.

Lemma sorted_filter p (l : list A) : StronglySorted R l → StronglySorted R (List.filter p l).
Proof.
  induction 1 as [|x l H IH Hall]; cbn [List.filter]; [constructor|]. destruct (p x); [|done]. constructor; [done|].
  rewrite Forall_forall in Hall |- *. intros y Hy%list_elem_of_In. apply filter_In in Hy as [Hy _]. by apply Hall, list_elem_of_In.
Qed.

Lemma sorted_lookup (l : list A) i j x y :
  StronglySorted R l → (i < j)%nat → l !! i = Some x → l !! j = Some y → R x y.
Proof.
  intros Hs. revert i j. induction Hs as [|z l H IH Hall]; intros i j Hij Hi Hj; [done|].
  destruct j as [|j]; [lia|]. cbn in Hj. destruct i as [|i]; [|by apply (IH i j); [lia|..]].
  injection Hi as ->. rewrite Forall_forall in Hall. apply Hall. by eapply list_elem_of_lookup_2.
Qed.
End sorted.

Section facts.
Context (env : Environment) (new_york : Z → NewYorkParts) (le : string → string → bool).
Context (offset : Z → Z) (zone_suffix : Z → string).
Local Abbreviation evaluate := (evaluate_target env new_york le offset zone_suffix).
Local Abbreviation evaluated_targets := (evaluate_targets env new_york le offset zone_suffix).
Local Abbreviation decisions := (decisions_of env new_york le offset zone_suffix).

(** ** The order of scores *)

Definition score_key (e : EvaluatedTarget) : Z := default 0 (num_val (et_score e)).
Definition key_before (a b : EvaluatedTarget) : bool := score_key b <=? score_key a.

Lemma score_before_key a b :
  is_nan (et_score a) = false → is_nan (et_score b) = false → score_before a b = key_before a b.
Proof.
  unfold score_before, key_before, score_key. intros [x Hx]%not_nan_val [y Hy]%not_nan_val.
  destruct (num_sub_val _ _ _ _ Hy Hx) as (_ & -> & _). rewrite Hx, Hy. cbn. by rewrite Z.leb_antisym.
Qed.

Lemma key_before_leb a b :
  is_nan (et_score a) = false → is_nan (et_score b) = false → key_before a b = true → (et_score b <=? et_score a)%float = true.
Proof. unfold key_before, score_key. intros [x Hx]%not_nan_val [y Hy]%not_nan_val. rewrite num_leb_val, Hx, Hy. done. Qed.

(** The total of a candidate is between 0 and 100. *)
Lemma clamp_range x : is_nan (clamp x 0 100) = false → (0 <=? clamp x 0 100)%float = true ∧ (clamp x 0 100 <=? 100)%float = true.
Proof.
  intros H. pose proof H as Hm. apply math_min_not_nan, not_nan_val in Hm as [v Hv].
  assert (H1 : num_val 100 = Some (100 * 2 ^ 1074)) by reflexivity. assert (H0 : num_val 0 = Some 0) by reflexivity.
  unfold clamp in *. pose proof (math_min_val _ _ _ _ H1 Hv) as E. rewrite !num_leb_val, E, H1, H0.
  assert (Hx : ∃ a, num_val x = Some a).
  { apply not_nan_val. destruct (is_nan x) eqn:En; [|done]. rewrite is_nan_val in H.
    assert (N : is_nan (math_max 0 x) = true) by (apply math_max_nan; rewrite En; apply orb_true_r).
    rewrite is_nan_val, Hv in N. done. }
  destruct Hx as [a Ha]. pose proof (math_max_val _ _ _ _ H0 Ha) as E'. rewrite Hv in E'. injection E' as ->. cbn.
  rewrite !Z.leb_le. lia.
Qed.

(** ** The evaluated targets *)

Context (input : ResearchInput) (now : Z) (targets : list TargetSnapshot).
Context (Hscores : ∀ t, In t targets → is_nan (et_score (evaluate input now t)) = false).

Lemma evaluated_In e : In e (evaluated_targets input now targets) ↔ ∃ t, evaluate input now t = e ∧ In t targets.
Proof. unfold evaluate_targets. by rewrite sort_by_In, in_map_iff. Qed.

Lemma evaluated_perm : map et_target (evaluated_targets input now targets) ≡ₚ targets.
Proof. unfold evaluate_targets. rewrite sort_by_perm, map_map. cbn. by rewrite map_id. Qed.

Lemma evaluated_nan e : In e (evaluated_targets input now targets) → is_nan (et_score e) = false.
Proof using Hscores. intros (t & <- & Ht)%evaluated_In. by apply Hscores. Qed.

Lemma evaluated_sorted : StronglySorted (λ a b, key_before a b = true) (evaluated_targets input now targets).
Proof using Hscores.
  unfold evaluate_targets. rewrite (sort_by_ext score_before key_before).
  - apply sort_by_sorted; unfold key_before; intros *; rewrite !Z.leb_le; lia.
  - intros x y Hx Hy. apply score_before_key; apply evaluated_nan; unfold evaluate_targets; by rewrite sort_by_In.
Qed.

Context (maxCandidates : nat) (Hkeys : NoDup (map tg_sourceFingerprint targets)).
Local Abbreviation rows := (evaluated_targets input now targets).
Local Abbreviation chosen := (firstn maxCandidates (List.filter eligible rows)).

Lemma evaluated_keys : NoDup (map key_of rows).
Proof using Hkeys.
  unfold key_of. rewrite <- (map_map et_target tg_sourceFingerprint). by rewrite evaluated_perm.
Qed.

Lemma eligible_count :
  List.length (List.filter eligible rows) =
  List.length (List.filter (λ t, match refusal_reasons t with [] => true | _ => false end) targets).
Proof.
  rewrite <- (filter_perm_length _ _ _ evaluated_perm). assert (H : ∀ e, In e rows → et_reasons e = refusal_reasons (et_target e)).
  { by intros e (t & <- & _)%evaluated_In. }
  revert H. generalize rows. intros l H. induction l as [|e l IH]; [done|]. cbn [map List.filter]. unfold eligible at 1.
  rewrite (H e) by (by left). destruct (refusal_reasons _); cbn; rewrite IH by (intros; apply H; by right); done.
Qed.

Lemma chosen_sublist : chosen `sublist_of` rows.
Proof. etrans; [apply firstn_sublist|apply filter_sublist]. Qed.

Lemma chosen_In e : In e rows → str_mem (key_of e) (map key_of chosen) = true ↔ In e chosen.
Proof using Hkeys.
  intros He. apply (key_in_iff key_of chosen rows e evaluated_keys); [|done]. intros y Hy. apply list_elem_of_In.
  eapply elem_of_sublist; [by apply list_elem_of_In|apply chosen_sublist].
Qed.

Lemma chosen_best e e' : In e chosen → In e' rows → eligible e' = true → ¬ In e' chosen → key_before e e' = true.
Proof using Hscores.
  intros He He' Hel Hn. pose proof (sorted_filter eligible rows evaluated_sorted) as Hs.
  assert (Hin : In e' (List.filter eligible rows)) by (by apply filter_In).
  rewrite <- (take_drop maxCandidates (List.filter eligible rows)) in Hin, Hs. apply in_app_or in Hin as [Hin|Hin]; [done|].
  eapply (StronglySorted_app_1_elem_of _ _ _ e e' Hs); by apply list_elem_of_In.
Qed.

Definition decision_at (ds : list Decision) (i : nat) : option EvaluatedTarget := de_row <$> ds !! i.

Lemma decisions_lookup i d :
  decisions input now maxCandidates targets !! i = Some d ↔
  ∃ e, rows !! i = Some e ∧ d = decide_row (map key_of chosen) i e.
Proof.
  unfold decisions_of, decide_rows, selected_keys. rewrite list_lookup_imap. destruct (rows !! i); cbn; naive_solver.
Qed.

Lemma decisions_rows : map de_row (decisions input now maxCandidates targets) = rows.
Proof.
  unfold decisions_of, decide_rows. apply list_eq. intros i. rewrite list_lookup_fmap, list_lookup_imap.
  by destruct (rows !! i).
Qed.

(** C16: the decisions of a research run, for targets with different fingerprints and
    scores that are numbers: every target is decided exactly once, the ranks are 1 to
    n in the order of descending scores between 0 and 100, as many candidates are
    selected as are eligible, up to the limit, every selected one is eligible, and no
    eligible one that was left out has a higher score. *)
Theorem candidate_selection :
  let ds := decisions input now maxCandidates targets in
  map (λ d, et_target (de_row d)) ds ≡ₚ targets ∧
  map de_rank ds = seq 1 (List.length targets) ∧
  (∀ i j d d', (i < j)%nat → ds !! i = Some d → ds !! j = Some d' →
     (et_score (de_row d') <=? et_score (de_row d))%float = true) ∧
  (∀ d, In d ds → (0 <=? et_score (de_row d))%float = true ∧ (et_score (de_row d) <=? 100)%float = true) ∧
  List.length (List.filter de_selected ds) =
    Nat.min maxCandidates (List.length (List.filter (λ t, match refusal_reasons t with [] => true | _ => false end) targets)) ∧
  (∀ d, In d ds → de_selected d = true → refusal_reasons (et_target (de_row d)) = [] ∧ de_reasons d = ["RANKED_SELECTED"%string]) ∧
  (∀ d d', In d ds → In d' ds → de_selected d = true → de_selected d' = false →
     refusal_reasons (et_target (de_row d')) = [] → (et_score (de_row d') <=? et_score (de_row d))%float = true).
Proof using Hscores Hkeys.
  cbv zeta. set (ds := decisions input now maxCandidates targets).
  assert (Hrow : ∀ d, In d ds → ∃ i e, rows !! i = Some e ∧ In e rows ∧ d = decide_row (map key_of chosen) i e).
  { intros d Hd. apply list_elem_of_In, list_elem_of_lookup in Hd as [i Hi].
    apply decisions_lookup in Hi as (e & He & ->). exists i, e. split_and!; [done| |done].
    apply list_elem_of_In, list_elem_of_lookup. by exists i. }
  assert (Hel : ∀ e, In e rows → et_reasons e = refusal_reasons (et_target e)) by (by intros e (t & <- & _)%evaluated_In).
  assert (Hchosen : ∀ e, In e chosen → eligible e = true).
  { intros e He%list_elem_of_In. assert (H : e ∈ List.filter eligible rows) by (eapply elem_of_sublist; [exact He|apply firstn_sublist]).
    by apply list_elem_of_In, filter_In in H as [_ ?]. }
  split_and!.
  - unfold ds. rewrite <- (map_map de_row et_target), decisions_rows. apply evaluated_perm.
  - rewrite <- (Permutation_length evaluated_perm), length_map. unfold ds, decisions_of, decide_rows. apply list_eq. intros i.
    rewrite list_lookup_fmap, list_lookup_imap. destruct (rows !! i) as [e|] eqn:E.
    + rewrite lookup_seq_lt; [done|]. by apply lookup_lt_Some in E.
    + rewrite lookup_seq_ge; [done|]. by apply lookup_ge_None in E.
  - intros i j d d' Hij (e & He & ->)%decisions_lookup (e' & He' & ->)%decisions_lookup. cbn [de_row decide_row].
    apply key_before_leb; [by apply evaluated_nan, list_elem_of_In, (list_elem_of_lookup_2 _ i)|by apply evaluated_nan, list_elem_of_In, (list_elem_of_lookup_2 _ j)|].
    by apply (sorted_lookup rows i j e e' evaluated_sorted).
  - intros d (i & e & _ & He & ->)%Hrow. cbn. pose proof (evaluated_nan e He) as Hn. apply evaluated_In in He as (t & <- & _).
    by apply clamp_range.
  - assert (E : map de_row (List.filter de_selected ds) = chosen).
    { rewrite <- (filter_key_in key_of chosen rows chosen_sublist evaluated_keys).
      transitivity (List.filter (key_in key_of chosen) (map de_row ds)); [|by unfold ds; rewrite decisions_rows].
      assert (Hsel : Forall (λ d, de_selected d = key_in key_of chosen (de_row d)) ds).
      { rewrite Forall_forall. intros d Hd%list_elem_of_In. by apply Hrow in Hd as (i & e & _ & _ & ->). }
      clear Hrow. induction Hsel as [|d ds' Hd _ IH]; [done|]. cbn [map List.filter]. rewrite <- Hd.
      destruct (de_selected d); cbn [map]; [f_equal|]; exact IH. }
    rewrite <- (length_map de_row), E, length_firstn. f_equal.
    apply eligible_count.
  - intros d (i & e & _ & He & ->)%Hrow Hs. cbn in Hs |- *. unfold decide_row in Hs. cbn in Hs. apply (chosen_In e He) in Hs as Hc.
    pose proof (Hchosen e Hc) as Hg. rewrite Hg, Hs. split; [|done]. rewrite <- (Hel e He). unfold eligible in Hg. by destruct (et_reasons e).
  - intros d d' (i & e & _ & He & ->)%Hrow (j & e' & _ & He' & ->)%Hrow Hs Hs' Hr. cbn [de_row de_selected decide_row] in Hs, Hs', Hr |- *. apply (chosen_In e He) in Hs.
    apply key_before_leb; [by apply evaluated_nan..|]. apply chosen_best; [done|done| |].
    + unfold eligible. by rewrite (Hel e' He'), Hr.
    + intros H%(chosen_In e' He'). by rewrite H in Hs'.
Qed.
End facts.

(** Four targets of one run: two good ones, one without a direction, one with an option
    that is not executable. *)
Definition desk_target (symbol key expression : string) (confidence : number) (direction : TargetDirection) : TargetSnapshot :=
  {| tg_symbol := symbol; tg_asOf := 1767571200000; tg_direction := direction; tg_horizon := "swing"; tg_entryReference := 100; tg_upsideTarget := 115;
     tg_downsideRisk := 8;
     tg_stopLoss := Some 95%float; tg_takeProfit := Some 110%float; tg_confidence := confidence;
     tg_expectedReturn := Some 0.05%float; tg_volatilityAdjustedScore := Some 1%float; tg_riskProfile := "moderate";
     tg_preferredExpression := expression; tg_rationale := ["trend"]; tg_sourceFingerprint := key;
     tg_optionsStrategy := None |}%string.

Definition desk_targets : list TargetSnapshot :=
  [desk_target "AAA" "k1" "shares" 0.6 long_target; desk_target "ACME" "k2" "shares" 0.5 long_target;
   desk_target "CCC" "k3" "shares" 0.9 neutral_target; desk_target "DDD" "k4" "long_call" 0.8 long_target]%string.

Definition desk_input : ResearchInput :=
  {| rs_signals := desk_signals; rs_configuration := researchSignalConfiguration (λ _, None);
     rs_unavailableReasonCode := None;
     rs_historicalOutcomeEvidence := disabled_index (historicalOutcomeEvidenceConfig (λ _, None)) |}.

Definition desk_decisions : list Decision :=
  decisions_of (λ _, None) (λ _, {| ny_date := "2026-01-05"; ny_hour := 10; ny_minute := 0 |}%string) String.leb (λ _, 0)
    (λ _, "+0000"%string) desk_input 1767571200000 1 desk_targets.

(** The target with the higher confidence is selected; the two that are refused keep
    their ranks. *)
Example desk_selection :
  map (λ d, (tg_symbol (et_target (de_row d)), de_selected d)) desk_decisions
  = [("CCC", false); ("DDD", false); ("AAA", true); ("ACME", false)]%string.
Proof. vm_compute. reflexivity. Qed.

Lemma candidate_selection_witness :
  List.length (List.filter de_selected desk_decisions) = 1%nat ∧ map de_rank desk_decisions = [1; 2; 3; 4]%nat.
Proof.
  assert (Hn : ∀ t, In t desk_targets → is_nan (et_score (evaluate_target (λ _, None)
    (λ _, {| ny_date := "2026-01-05"; ny_hour := 10; ny_minute := 0 |}%string) String.leb (λ _, 0) (λ _, "+0000"%string)
    desk_input 1767571200000 t)) = false).
  { intros t Ht. repeat destruct Ht as [<-|Ht]; [vm_compute; reflexivity..|destruct Ht]. }
  assert (Hd : NoDup (map tg_sourceFingerprint desk_targets)).
  { cbn. repeat constructor; set_solver. }
  destruct (candidate_selection _ _ _ _ _ _ _ _ Hn 1 Hd) as (_ & Hr & _ & _ & Hc & _).
  split; [exact Hc|exact Hr].
Defined.
