(* ===== verification/ResearchEvidence.v ===== *)
(** The evidence of a research run: the rows that [persistEvidence] of
    src/services/postgresResearchWorkflowService.ts collects from the market data, the
    features and the targets, and the batches it inserts them in.

    A time stamp printed by toISOString is the milliseconds it denotes.  Of the rows of
    the market data the fields are listed that the evidence uses; [evidence] is the
    document of the provider. *)

From Stdlib Require Import Floats.
From S2P Require Import Prelude.
From S2P Require Import JsString.
From S2P Require Import JsNumber.
From S2P Require Import JsText.
From S2P Require Import JsJson.
From S2P Require Import ResearchSignals.
From S2P Require Import ResearchCandidates.
Open Scope Z_scope.

(** ** Market data *)

Record PostgresMarketBar := {
  mb_symbol : string;
  mb_timeframe : string;
  mb_observedAt : Z;
  mb_open : number;
  mb_high : number;
  mb_low : number;
  mb_close : number;
  mb_volume : number;
  mb_source : string;
  mb_requestId : option string
}.

Record PostgresStockSnapshot := {
  sn_id : string;
  sn_symbol : string;
  sn_observedAt : Z;
  sn_sourceTimestamp : option Z;
  sn_evidence : list (string * jvalue)
}.

Record PostgresOptionSnapshot := {
  on_optionSymbol : string;
  on_underlyingSymbol : string;
  on_observedAt : Z;
  on_quoteTimestamp : option Z;
  on_evidence : list (string * jvalue)
}.

Record PostgresFeatureSnapshot := {
  fs_symbol : string;
  fs_observedAt : Z;
  fs_features : jvalue;
  fs_sourceFingerprint : string
}.

Definition bar_document (b : PostgresMarketBar) : jvalue :=
  JObj [("symbol", JStr (mb_symbol b)); ("timeframe", JStr (mb_timeframe b)); ("observedAt", JStr (iso_text (mb_observedAt b)));
        ("open", json_number (mb_open b)); ("high", json_number (mb_high b)); ("low", json_number (mb_low b));
        ("close", json_number (mb_close b)); ("volume", json_number (mb_volume b)); ("source", JStr (mb_source b));
        ("requestId", json_text (mb_requestId b))]%string.

Definition direction_document (d : TargetDirection) : jvalue :=
  JStr (match d with long_target => "long" | short_target => "short" | neutral_target => "neutral" end).

Definition target_document (t : TargetSnapshot) : jvalue :=
  JObj [("symbol", JStr (tg_symbol t)); ("asOf", JStr (iso_text (tg_asOf t))); ("direction", direction_document (tg_direction t));
        ("horizon", JStr (tg_horizon t)); ("entryReference", json_number (tg_entryReference t));
        ("upsideTarget", json_number (tg_upsideTarget t)); ("downsideRisk", json_number (tg_downsideRisk t));
        ("stopLoss", json_optional (tg_stopLoss t)); ("takeProfit", json_optional (tg_takeProfit t));
        ("confidence", json_number (tg_confidence t)); ("expectedReturn", json_optional (tg_expectedReturn t));
        ("volatilityAdjustedScore", json_optional (tg_volatilityAdjustedScore t)); ("riskProfile", JStr (tg_riskProfile t));
        ("preferredExpression", JStr (tg_preferredExpression t)); ("rationale", json_texts (tg_rationale t));
        ("sourceFingerprint", JStr (tg_sourceFingerprint t));
        ("optionsStrategy", match tg_optionsStrategy t with Some l => JObj l | None => JNull end)]%string.

(** ** The latest row of each symbol

    A [Map] keeps the position of a key when its value is replaced. *)

Section latest.
Context {A : Type} (symbol : A → string) (time : A → Z).

Fixpoint set_if_later (r : A) (l : list A) : list A :=
  match l with
  | [] => [r]
  | x :: l' => if (symbol x =? symbol r)%string then (if time x <? time r then r else x) :: l' else x :: set_if_later r l'
  end.

Definition latest_rows (rows : list A) : list A := fold_left (λ l r, set_if_later r l) rows [].
End latest.

(** ** Rows *)

Record ResearchEvidenceRow := {
  ev_type : string;
  ev_symbol : string;
  ev_observedAt : Z;
  ev_table : string;
  ev_key : string;
  ev_fingerprint : string
}.

(** A row with its id; the payload of a feature is copied by the server. *)
Record IdentifiedRow (P : Type) := { ir_id : string; ir_row : ResearchEvidenceRow; ir_payload : P }.
Arguments ir_id {P} _.
Arguments ir_row {P} _.
Arguments ir_payload {P} _.
Arguments Build_IdentifiedRow {P} _ _ _.

Section rows.
Context (sha : jvalue → string) (runId : string).

Definition bar_row (b : PostgresMarketBar) : ResearchEvidenceRow * jvalue :=
  ({| ev_type := "market_bar"; ev_symbol := mb_symbol b; ev_observedAt := mb_observedAt b; ev_table := "market_bars";
      ev_key := mb_symbol b ++ ":" ++ mb_timeframe b ++ ":" ++ iso_text (mb_observedAt b);
      ev_fingerprint := sha (bar_document b) |}%string, bar_document b).

Definition stock_row (s : PostgresStockSnapshot) : ResearchEvidenceRow * jvalue :=
  ({| ev_type := "stock_snapshot"; ev_symbol := sn_symbol s; ev_observedAt := default (sn_observedAt s) (sn_sourceTimestamp s);
      ev_table := "stock_snapshots"; ev_key := sn_id s; ev_fingerprint := sha (JObj (sn_evidence s)) |}, JObj (sn_evidence s)).

Definition option_row (o : PostgresOptionSnapshot) : ResearchEvidenceRow * jvalue :=
  ({| ev_type := "option_snapshot"; ev_symbol := on_underlyingSymbol o;
      ev_observedAt := default (on_observedAt o) (on_quoteTimestamp o); ev_table := "option_snapshots";
      ev_key := on_optionSymbol o ++ ":" ++ iso_text (on_observedAt o); ev_fingerprint := sha (JObj (on_evidence o)) |}%string,
   JObj (on_evidence o)).

Definition target_row (t : TargetSnapshot) : ResearchEvidenceRow * jvalue :=
  ({| ev_type := "target_snapshot"; ev_symbol := tg_symbol t; ev_observedAt := tg_asOf t; ev_table := "target_snapshots";
      ev_key := tg_symbol t ++ ":" ++ iso_text (tg_asOf t) ++ ":" ++ tg_riskProfile t;
      ev_fingerprint := tg_sourceFingerprint t |}%string, target_document t).

Definition feature_row (f : PostgresFeatureSnapshot) : ResearchEvidenceRow * unit :=
  ({| ev_type := "feature_snapshot"; ev_symbol := fs_symbol f; ev_observedAt := fs_observedAt f; ev_table := "feature_snapshots";
      ev_key := fs_symbol f ++ ":" ++ iso_text (fs_observedAt f); ev_fingerprint := fs_sourceFingerprint f |}%string, tt).

Definition evidence_id (r : ResearchEvidenceRow) : string :=
  "research_evidence_" ++ sha (JObj [("run", JStr runId); ("type", JStr (ev_type r)); ("key", JStr (ev_key r));
                                     ("fingerprint", JStr (ev_fingerprint r))]%string).

Definition identified {P} (e : ResearchEvidenceRow * P) : IdentifiedRow P := Build_IdentifiedRow (evidence_id (fst e)) (fst e) (snd e).

(** [uniqueById.set(id, row)] *)
Fixpoint set_by_id {P} (r : IdentifiedRow P) (l : list (IdentifiedRow P)) : list (IdentifiedRow P) :=
  match l with
  | [] => [r]
  | x :: l' => if (ir_id x =? ir_id r)%string then r :: l' else x :: set_by_id r l'
  end.

Definition unique_rows {P} (rows : list (ResearchEvidenceRow * P)) : list (IdentifiedRow P) :=
  fold_left (λ l e, set_by_id (identified e) l) rows [].

Definition inline_evidence (bars : list PostgresMarketBar) (stocks : list PostgresStockSnapshot)
    (options : list PostgresOptionSnapshot) (targets : list TargetSnapshot) : list (IdentifiedRow jvalue) :=
  unique_rows (map bar_row (latest_rows mb_symbol mb_observedAt bars) ++ map stock_row stocks ++ map option_row options
               ++ map target_row targets).

Definition feature_evidence (features : list PostgresFeatureSnapshot) : list (IdentifiedRow unit) :=
  unique_rows (map feature_row (latest_rows fs_symbol fs_observedAt features)).
End rows.

(** ** Batches *)

Definition EVIDENCE_BATCH_SIZE : nat := 250.
Definition POSTGRES_RESEARCH_EVIDENCE_BATCH_MAX_BYTES : Z := 4000000.

(** The row that is serialized. *)
Definition row_document (r : IdentifiedRow jvalue) : jvalue :=
  let e := ir_row r in
  JObj [("id", JStr (ir_id r)); ("evidence_type", JStr (ev_type e)); ("symbol", JStr (ev_symbol e));
        ("observed_at", JStr (iso_text (ev_observedAt e))); ("source_table", JStr (ev_table e)); ("source_key", JStr (ev_key e));
        ("source_fingerprint", JStr (ev_fingerprint e)); ("payload", ir_payload r)]%string.

(** [Buffer.byteLength]; a string is its bytes. *)
Definition byteLength (s : string) : Z := Z.of_nat (String.length s).

Section batches.
Context {R : Type} (document : R → jvalue).

Record EvidenceBatch := { eb_rows : list R; eb_payload : string; eb_bytes : Z }.

(** [currentRows], [serializedRows] and [currentBytes]. *)
Record OpenBatch := { ob_rows : list R; ob_serialized : list string; ob_bytes : Z }.
Definition empty_batch : OpenBatch := {| ob_rows := []; ob_serialized := []; ob_bytes := 2 |}.

Definition flush (o : OpenBatch) : list EvidenceBatch :=
  match ob_rows o with
  | [] => []
  | _ => let payload := ("[" ++ String.concat "," (ob_serialized o) ++ "]")%string in
         [{| eb_rows := ob_rows o; eb_payload := payload; eb_bytes := byteLength payload |}]
  end.

Definition separator (rows : list R) : Z := match rows with [] => 0 | _ => 1 end.

(** The next row does not fit any more. *)
Definition batch_full (o : OpenBatch) (serialized : string) : bool :=
  (EVIDENCE_BATCH_SIZE <=? List.length (ob_rows o))%nat
  || (POSTGRES_RESEARCH_EVIDENCE_BATCH_MAX_BYTES <? ob_bytes o + (byteLength serialized + separator (ob_rows o))).

Definition push_row (r : R) (serialized : string) (o : OpenBatch) : OpenBatch :=
  {| ob_rows := ob_rows o ++ [r]; ob_serialized := ob_serialized o ++ [serialized];
     ob_bytes := ob_bytes o + byteLength serialized + separator (ob_rows o) |}.

Definition row_too_large (serialized : string) : bool :=
  POSTGRES_RESEARCH_EVIDENCE_BATCH_MAX_BYTES <? byteLength serialized + 2.

Definition too_large_code (serialized : string) : string :=
  "POSTGRES_RESEARCH_EVIDENCE_ROW_TOO_LARGE:bytes=" ++ nat_text (byteLength serialized) ++ ":max="
  ++ nat_text POSTGRES_RESEARCH_EVIDENCE_BATCH_MAX_BYTES.

Fixpoint batch_rows (o : OpenBatch) (rows : list R) : res (list EvidenceBatch) :=
  match rows with
  | [] => Ret (flush o)
  | r :: rows' =>
      let serialized := json_stringify (document r) in
      if row_too_large serialized then Throw (too_large_code serialized)
      else if batch_full o serialized then
        bs ← batch_rows (push_row r serialized empty_batch) rows';
        Ret (flush o ++ bs)
      else batch_rows (push_row r serialized o) rows'
  end.

Definition evidenceBatches (rows : list R) : res (list EvidenceBatch) := batch_rows empty_batch rows.
End batches.
Arguments EvidenceBatch : clear implicits.
Arguments OpenBatch : clear implicits.

(** ** What a batch is *)

Section batch_facts.
Context {R : Type} (document : R → jvalue).
Local Abbreviation text r := (json_stringify (document r)).
Local Abbreviation most := POSTGRES_RESEARCH_EVIDENCE_BATCH_MAX_BYTES.

(** The bytes of the texts with the commas between them. *)
Fixpoint joined_bytes (l : list string) : Z :=
  match l with
  | [] => 0
  | [s] => byteLength s
  | s :: l' => byteLength s + 1 + joined_bytes l'
  end.

Lemma byteLength_app a b : byteLength (a ++ b) = byteLength a + byteLength b.
Proof. unfold byteLength. rewrite str_length_app. lia. Qed.

Lemma joined_concat l : byteLength (String.concat "," l) = joined_bytes l.
Proof.
  induction l as [|s l IH]; [done|]. cbn [String.concat joined_bytes]. destruct l as [|s' l]; [done|].
  rewrite !byteLength_app, IH. change (byteLength ",") with 1. lia.
Qed.

Lemma joined_snoc l s : joined_bytes (l ++ [s]) = joined_bytes l + (match l with [] => 0 | _ => 1 end) + byteLength s.
Proof.
  induction l as [|x l IH]; [done|]. cbn [app joined_bytes]. destruct l as [|y l]; [cbn; lia|].
  cbn [app] in IH |- *. rewrite IH. lia.
Qed.

(** The open batch counts its bytes, and fits. *)
Record open_ok (o : OpenBatch R) : Prop := {
  oo_serialized : ob_serialized o = map (λ r, text r) (ob_rows o);
  oo_bytes : ob_bytes o = 2 + joined_bytes (ob_serialized o);
  oo_size : (List.length (ob_rows o) ≤ EVIDENCE_BATCH_SIZE)%nat;
  oo_fits : ob_bytes o ≤ most
}.

Record batch_ok (b : EvidenceBatch R) : Prop := {
  bo_nonempty : eb_rows b ≠ [];
  bo_size : (List.length (eb_rows b) ≤ EVIDENCE_BATCH_SIZE)%nat;
  bo_payload : eb_payload b = json_stringify (JArr (map document (eb_rows b)));
  bo_bytes : eb_bytes b = byteLength (eb_payload b);
  bo_fits : eb_bytes b ≤ most
}.

Lemma empty_ok : open_ok empty_batch.
Proof. split; cbn; [done|done|lia|done]. Qed.

Lemma push_ok r o : open_ok o → batch_full o (text r) = false → open_ok (push_row r (text r) o).
Proof.
  intros [Hs Hb Hn Hf] H. unfold batch_full in H. apply orb_false_iff in H as [Hl%Nat.leb_gt Hm%Z.ltb_ge].
  split; cbn [ob_rows ob_serialized ob_bytes push_row].
  - by rewrite map_app, Hs.
  - rewrite joined_snoc, Hb, Hs. destruct (ob_rows o); cbn; lia.
  - rewrite length_app. cbn. lia.
  - lia.
Qed.

Lemma push_empty_ok r : row_too_large (text r) = false → open_ok (push_row r (text r) empty_batch).
Proof.
  intros H. apply push_ok; [apply empty_ok|]. unfold row_too_large in H. apply Z.ltb_ge in H. unfold batch_full. cbn [ob_rows ob_bytes empty_batch].
  apply orb_false_iff. split; [done|]. apply Z.ltb_ge. cbn [separator]. lia.
Qed.

Lemma flush_ok o : open_ok o → Forall batch_ok (flush o) ∧ List.concat (map eb_rows (flush o)) = ob_rows o.
Proof.
  intros [Hs Hb Hn Hf]. unfold flush. destruct (ob_rows o) as [|r l] eqn:E; [by split|].
  split; [|cbn; by rewrite app_nil_r]. constructor; [|constructor].
  assert (Hlen : byteLength ("[" ++ String.concat "," (ob_serialized o) ++ "]") = ob_bytes o).
  { rewrite !byteLength_app, joined_concat, Hb. change (byteLength "[") with 1. change (byteLength "]") with 1. lia. }
  split; cbn [eb_rows eb_payload eb_bytes]; [done|done| |done|by rewrite Hlen].
  rewrite Hs. unfold json_stringify. cbn [document_text]. by rewrite map_map.
Qed.

(** A batch ends only where the next row does not fit. *)
Fixpoint filled (bs : list (EvidenceBatch R)) : Prop :=
  match bs with
  | b :: ((b' :: _) as bs') =>
      (List.length (eb_rows b) = EVIDENCE_BATCH_SIZE ∨
       ∃ r l, eb_rows b' = r :: l ∧ most < eb_bytes b + 1 + byteLength (text r)) ∧ filled bs'
  | _ => True
  end.

Lemma flush_nonempty o r l : ob_rows o = r :: l → open_ok o →
  ∃ b, flush o = [b] ∧ eb_rows b = r :: l ∧ eb_bytes b = ob_bytes o.
Proof.
  intros E [Hs Hb _ _]. unfold flush. rewrite E. eexists. split; [done|]. split; [done|]. cbn.
  change (byteLength ("[" ++ String.concat "," (ob_serialized o) ++ "]") = ob_bytes o).
  rewrite !byteLength_app, joined_concat, Hb. change (byteLength "[") with 1. change (byteLength "]") with 1. lia.
Qed.

Lemma batch_rows_spec rows o :
  open_ok o →
  match batch_rows document o rows with
  | Ret bs => List.concat (map eb_rows bs) = ob_rows o ++ rows ∧ Forall batch_ok bs ∧ filled bs
  | Throw c => ∃ r, In r rows ∧ row_too_large (text r) = true ∧ c = too_large_code (text r)
  end.
Proof.
  revert o. induction rows as [|r rows IH]; intros o Ho; cbn [batch_rows].
  - destruct (flush_ok o Ho) as [Hf Hc]. rewrite app_nil_r. split_and!; [done|done|].
    unfold flush. by destruct (ob_rows o).
  - destruct (row_too_large (text r)) eqn:El; [by exists r; split; [left|]|]. destruct (batch_full o (text r)) eqn:Ef.
    + pose proof (push_empty_ok r El) as Hp. specialize (IH _ Hp).
      destruct (batch_rows document (push_row r (text r) empty_batch) rows) as [bs|c].
      2: { destruct IH as (x & Hx & H). exists x. split; [by right|done]. }
      destruct IH as (Hc & Hb & Hfill). cbn [mbind res_bind]. destruct (flush_ok o Ho) as [Hf Hfc]. split_and!.
      * rewrite map_app, concat_app, Hfc, Hc. done.
      * by apply Forall_app.
      * destruct (ob_rows o) as [|x l] eqn:E; [unfold flush; by rewrite E|].
        destruct (flush_nonempty o x l E Ho) as (b & -> & Hbr & Hbb). cbn [app]. destruct bs as [|b' bs]; [done|]. split; [|done].
        assert (Hne : eb_rows b' ≠ []) by (apply Forall_cons in Hb as [[H] _]; exact H).
        destruct (eb_rows b') as [|y l'] eqn:E'; [done|]. cbn [map List.concat ob_rows push_row empty_batch app] in Hc. rewrite E' in Hc.
        injection Hc as <- _. unfold batch_full in Ef. apply orb_true_iff in Ef as [Hn%Nat.leb_le|Hm%Z.ltb_lt].
        -- left. rewrite Hbr, <- E. destruct Ho as [_ _ Hs _]. lia.
        -- right. exists y, l'. split; [done|]. rewrite Hbb. rewrite E in Hm. cbn [separator] in Hm. lia.
    + specialize (IH _ (push_ok r o Ho Ef)). destruct (batch_rows document (push_row r (text r) o) rows) as [bs|c].
      * destruct IH as (Hc & H). split; [|done]. rewrite Hc. cbn [ob_rows push_row]. by rewrite <- app_assoc.
      * destruct IH as (x & Hx & H). exists x. split; [by right|done].
Qed.

(** C15: the batches of evidence are the rows in their order, none lost or repeated;
    every batch has at least one and at most 250 rows, its payload is the JSON array of
    its rows with at most 4,000,000 bytes, as counted, and it ends only where the next
    row would not fit.  The only error is a single row that is too large by itself. *)
Theorem evidence_batches_bounded (rows : list R) :
  match evidenceBatches document rows with
  | Ret bs => List.concat (map eb_rows bs) = rows ∧ Forall batch_ok bs ∧ filled bs
  | Throw c => ∃ r, In r rows ∧ most < byteLength (text r) + 2 ∧ c = too_large_code (text r)
  end.
Proof.
  pose proof (batch_rows_spec rows empty_batch empty_ok) as H. unfold evidenceBatches.
  destruct (batch_rows document empty_batch rows) as [bs|c]; [done|].
  destruct H as (r & Hr & Hl%Z.ltb_lt & Hc). by exists r.
Qed.
End batch_facts.
