(* ===== verification/ResearchWorkflow.v ===== *)
(** A research run: [runPostgresResearchWorkflow], [persistEvidence],
    [persistCandidates] and [failResearchRun] of
    src/services/postgresResearchWorkflowService.ts, over the tables research_runs,
    research_evidence, feature_snapshots and candidates.

    Every statement commits by itself.  Collecting the market data, building features
    and targets and reading the aggregates of outcomes are requests that may be answered
    with anything; so is a quote of the data hub.  The documents of the columns config
    and summary, which no statement reads, are parameters.  Telemetry is left out, with
    the deferral of lanes, which is only reported. *)

From Stdlib Require Import Floats.
From S2P Require Import Prelude.
From S2P Require Import JsString.
From S2P Require Import JsNumber.
From S2P Require Import JsText.
From S2P Require Import JsJson.
From S2P Require Import AlpacaClient.
From S2P Require Import Effects.
From S2P Require Import SchedulerLease.
From S2P Require Import ExecutionTables.
From S2P Require Import ReviewConfiguration.
From S2P Require Import ReviewEvidence.
From S2P Require Import ResearchRuns.
From S2P Require Import ResearchSignals.
From S2P Require Import FencedHistory.
From S2P Require Import ResearchSignalImport.
From S2P Require Import HistoricalEvidence.
From S2P Require Import InvestmentLanes.
From S2P Require Import ResearchCandidates.
From S2P Require Import ResearchEvidence.
Open Scope Z_scope.

(** ** Tables *)

Record EvidenceInsert := {
  ei_row : IdentifiedRow jvalue;
  ei_research_run_id : string;
  ei_created_at : Z
}.

Record WorkflowDb := {
  wd_runs : list ResearchRunRow;
  wd_evidence : list EvidenceInsert;
  wd_features : list PostgresFeatureSnapshot;
  wd_candidates : list CandidateInsert;
  wd_signals : SignalDb;
  wd_learning_runs : option string
}.

Definition with_runs (t : list ResearchRunRow) (d : WorkflowDb) : WorkflowDb :=
  {| wd_runs := t; wd_evidence := wd_evidence d; wd_features := wd_features d; wd_candidates := wd_candidates d;
     wd_signals := wd_signals d; wd_learning_runs := wd_learning_runs d |}.
Definition with_evidence (t : list EvidenceInsert) (d : WorkflowDb) : WorkflowDb :=
  {| wd_runs := wd_runs d; wd_evidence := t; wd_features := wd_features d; wd_candidates := wd_candidates d;
     wd_signals := wd_signals d; wd_learning_runs := wd_learning_runs d |}.
Definition with_candidates (t : list CandidateInsert) (d : WorkflowDb) : WorkflowDb :=
  {| wd_runs := wd_runs d; wd_evidence := wd_evidence d; wd_features := wd_features d; wd_candidates := t;
     wd_signals := wd_signals d; wd_learning_runs := wd_learning_runs d |}.

(** The CHECK constraints and keys of research_evidence. *)
Definition evidence_checks (e : EvidenceInsert) : bool :=
  let r := ir_row (ei_row e) in
  btrim_nonempty (ev_type r) && btrim_nonempty (ev_table r) && btrim_nonempty (ev_key r) && btrim_nonempty (ev_fingerprint r).
Definition same_evidence (a b : EvidenceInsert) : bool := (ir_id (ei_row a) =? ir_id (ei_row b))%string.
Definition evidence_conflicts (a b : EvidenceInsert) : bool :=
  let x := ir_row (ei_row a) in let y := ir_row (ei_row b) in
  (ei_research_run_id a =? ei_research_run_id b)%string && (ev_type x =? ev_type y)%string
  && (ev_key x =? ev_key y)%string && (ev_fingerprint x =? ev_fingerprint y)%string.

(** [INSERT ... SELECT ... ON CONFLICT (id) DO NOTHING] of several rows: how many were
    written. *)
Fixpoint insert_evidence_rows (known_run : string → bool) (rows : list EvidenceInsert) (t : list EvidenceInsert)
    : res (nat * list EvidenceInsert) :=
  match rows with
  | [] => Ret (0%nat, t)
  | e :: rows' =>
      '(b, t1) ← insert_unless_exists (evidence_checks e) same_evidence evidence_conflicts (known_run (ei_research_run_id e)) e t;
      '(n, t2) ← insert_evidence_rows known_run rows' t1;
      Ret (if b : bool then S n else n, t2)
  end.

Definition known_run (d : WorkflowDb) (id : string) : bool := existsb (λ r, (rn_id r =? id)%string) (wd_runs d).

Definition insert_evidence (rows : list EvidenceInsert) : tx WorkflowDb nat := λ d,
  '(n, t) ← insert_evidence_rows (known_run d) rows (wd_evidence d); Ret (n, with_evidence t d).

(** [UPDATE research_runs SET ... WHERE p]: the row count. *)
Definition update_runs (p : ResearchRunRow → bool) (f : ResearchRunRow → ResearchRunRow) : tx WorkflowDb nat := λ d,
  if forallb (λ r, negb (p r) || run_checks (f r)) (wd_runs d)
  then Ret (List.length (List.filter p (wd_runs d)), with_runs (update_where p f (wd_runs d)) d)
  else Throw check_failed.

(** ** Requests *)

Inductive workflow_query : Type → Type :=
| RecoverOtherRuns : workflow_query nat
| InsertRun : workflow_query (option Z)
| LoadSignals (symbols : list string) : workflow_query (list NormalizedResearchSignal)
| FenceHeld : workflow_query bool
| InsertEvidence (rows : list (IdentifiedRow jvalue)) : workflow_query nat
| CopyFeature (r : IdentifiedRow unit) : workflow_query nat
| FeatureReplay (r : IdentifiedRow unit) : workflow_query (option (bool * bool))
| LearningRelation : workflow_query (option string)
| InsertCandidate (verifiedAt : option Z) (d : Decision) : workflow_query nat
| CompleteRun (targets selected : nat) (summary : json) : workflow_query nat
| FailRun (fenced : bool) (failedAt : Z) (message : string) : workflow_query nat
| RunStatus : workflow_query (option ResearchRunStatus).

(** What the market data say about the underlying SPY and the rejections. *)
Record MarketSummary := { ms_spyBoundedResult : option jvalue; ms_optionDataRejectionReasons : list string; ms_document : jvalue }.

Record MarketResult := {
  mr_bars : list PostgresMarketBar;
  mr_stockSnapshots : list PostgresStockSnapshot;
  mr_optionSnapshots : list PostgresOptionSnapshot;
  mr_summary : MarketSummary
}.

Record QuoteProvenance := {
  qp_feed : option string;
  qp_symbol : option string;
  qp_providerTimestamp : option string;
  qp_receiptTimestamp : option string
}.

Inductive workflow_request : Type → Type :=
| Query {A} (q : workflow_query A) : workflow_request (res A)
| RefreshMarketData : workflow_request (res MarketResult)
| BuildFeaturesAndTargets (m : MarketResult) : workflow_request (res (list PostgresFeatureSnapshot * list TargetSnapshot))
| OutcomeAggregates : workflow_request (res (list AggregateRow))
| LatestQuote (symbol : string) : workflow_request (option QuoteProvenance)
| CurrentTime : workflow_request Z.

Definition workflow : Type → Type := async workflow_request.
Definition query {A} (q : workflow_query A) : workflow A := ask (Query q).

(** ** Parts of one run *)

Record WorkflowInput := {
  wi_fence : SchedulerFence;
  wi_runId : string;
  wi_cycleId : string;
  wi_riskProfile : string;
  wi_optionsEnabled : bool;
  wi_maxCandidates : nat;
  wi_thresholds : PaperExplorationThresholds;
  wi_symbols : list string;
  wi_now : Z;
  wi_config : json
}.

Definition INVESTMENT_LANE_FAMILIES : list (ResearchDecisionLane * StrategyFamily) :=
  [(lane_equity, family_equity); (lane_0dte, family_zero_dte); (lane_leaps, family_leaps)].

Definition investmentLaneEnabled (lane : ResearchDecisionLane) (optionsEnabled : bool) : bool :=
  bool_decide (lane = lane_equity) || optionsEnabled.

Definition OPRA_BOUNDED_RESULTS : list string :=
  ["ALPACA_OPRA_NOT_AUTHORIZED"; "ALPACA_OPRA_DATA_UNAVAILABLE"; "ALPACA_OPRA_QUOTE_STALE";
   "ALPACA_OPRA_GREEKS_UNAVAILABLE"]%string.

(** The second part of [reason.split(:)]. *)
Fixpoint after_colon (s : string) : option string :=
  match s with
  | EmptyString => None
  | String c s' => if Ascii.eqb c ":" then Some (before_colon s') else after_colon s'
  end.

Definition spy_rejection (reason : string) : bool :=
  bool_decide (after_colon reason = Some "SPY"%string) && str_mem (before_colon reason) OPRA_BOUNDED_RESULTS.

Definition zeroDteOpraBoundedResult (summary : MarketSummary) : option string :=
  let rejection := before_colon <$> List.find spy_rejection (ms_optionDataRejectionReasons summary) in
  match ms_spyBoundedResult summary with
  | Some (JStr direct) => if str_mem direct OPRA_BOUNDED_RESULTS then Some direct else rejection
  | _ => rejection
  end.

Definition quote_reference (q : QuoteProvenance) : string :=
  String.concat ":" ("alpaca_quote"
    :: map (default EmptyString) [qp_feed q; qp_symbol q; qp_providerTimestamp q; qp_receiptTimestamp q])%string.

(** [Math.max(...)] of numbers. *)
Definition max_confidence (rows : list Decision) : option number :=
  match rows with
  | [] => None
  | _ => Some (fold_left math_max (map (λ d, tg_confidence (et_target (de_row d))) rows) neg_infinity)
  end.

Record ResearchResult := {
  rr_universeSize : nat;
  rr_targetsGenerated : nat;
  rr_candidatesSelected : nat;
  rr_candidatesRejected : nat;
  rr_workstreamResults : list (WorkstreamResult TargetSnapshot);
  rr_evidenceStored : nat;
  rr_storedSignalCount : nat;
  rr_lookupStatus : string
}.

Section workflow.
Context (env : Environment) (new_york : Z → NewYorkParts) (le collate : string → string → bool).
Context (offset : Z → Z) (zone_suffix : Z → string) (sha : jvalue → string).
Context (summary_text : MarketResult → ResearchResult → json).
Context (i : WorkflowInput).
Local Abbreviation fence := (wi_fence i).
Local Abbreviation runId := (wi_runId i).
Local Abbreviation now := (wi_now i).
Local Abbreviation policy := (postgresLeapsPolicy env).

(** ** Statements *)

Definition ABANDONED : string := "WORKER_TERMINATED_OR_HEARTBEAT_EXPIRED".

(** [IS DISTINCT FROM] *)
Definition distinct_from (o : option string) (s : string) : bool := negb (bool_decide (o = Some s)).

Definition of_other_fence (r : ResearchRunRow) : bool :=
  of_research r && run_active r
  && (distinct_from (ri_worker_identity (rn_identity r)) (fence_owner_id fence)
      || distinct_from (rn_scheduler_job_name r) (fence_job_name fence)
      || distinct_from (rn_scheduler_fencing_token r) (fence_token fence)).

Definition abandoned_row (r : ResearchRunRow) : ResearchRunRow :=
  {| rn_identity := rn_identity r; rn_status := run_recovered; rn_universe_size := rn_universe_size r;
     rn_targets_generated := rn_targets_generated r; rn_candidates_selected := rn_candidates_selected r;
     rn_summary := rn_summary r; rn_error_code := Some ABANDONED;
     rn_error_message := Some (default "Active research run was abandoned by an older scheduler lease."%string (rn_error_message r));
     rn_scheduler_job_name := rn_scheduler_job_name r; rn_scheduler_fencing_token := rn_scheduler_fencing_token r;
     rn_heartbeat_at := rn_heartbeat_at r; rn_completed_at := Some now; rn_recovered_at := Some now;
     rn_recovery_reason := Some ABANDONED; rn_recovery_source := Some "research_preflight"%string;
     rn_version := rn_version r + 1; rn_updated_at := now |}.

Definition workflow_run : ResearchRunRow :=
  {| rn_identity := {| ri_id := runId; ri_workstream := RESEARCH; ri_run_key := runId; ri_risk_profile := wi_riskProfile i;
                       ri_options_enabled := wi_optionsEnabled i; ri_config := wi_config i;
                       ri_worker_identity := Some (fence_owner_id fence); ri_request_id := None; ri_correlation_id := None;
                       ri_started_at := now; ri_created_at := now |};
     rn_status := run_running; rn_universe_size := 0; rn_targets_generated := 0; rn_candidates_selected := 0;
     rn_summary := None; rn_error_code := None; rn_error_message := None;
     rn_scheduler_job_name := Some (fence_job_name fence); rn_scheduler_fencing_token := Some (fence_token fence);
     rn_heartbeat_at := Some now; rn_completed_at := None; rn_recovered_at := None; rn_recovery_reason := None;
     rn_recovery_source := None; rn_version := 1; rn_updated_at := now |}.

Definition completed_row (targets selected : nat) (summary : json) (r : ResearchRunRow) : ResearchRunRow :=
  {| rn_identity := rn_identity r; rn_status := run_completed; rn_universe_size := Z.of_nat (List.length (wi_symbols i));
     rn_targets_generated := Z.of_nat targets; rn_candidates_selected := Z.of_nat selected; rn_summary := Some summary;
     rn_error_code := rn_error_code r; rn_error_message := rn_error_message r;
     rn_scheduler_job_name := rn_scheduler_job_name r; rn_scheduler_fencing_token := rn_scheduler_fencing_token r;
     rn_heartbeat_at := Some now; rn_completed_at := Some now; rn_recovered_at := rn_recovered_at r;
     rn_recovery_reason := rn_recovery_reason r; rn_recovery_source := rn_recovery_source r;
     rn_version := rn_version r + 1; rn_updated_at := now |}.

Definition failed_row (failedAt : Z) (message : string) (r : ResearchRunRow) : ResearchRunRow :=
  {| rn_identity := rn_identity r; rn_status := run_failed; rn_universe_size := rn_universe_size r;
     rn_targets_generated := rn_targets_generated r; rn_candidates_selected := rn_candidates_selected r;
     rn_summary := rn_summary r; rn_error_code := Some (before_colon message); rn_error_message := Some message;
     rn_scheduler_job_name := rn_scheduler_job_name r; rn_scheduler_fencing_token := rn_scheduler_fencing_token r;
     rn_heartbeat_at := Some failedAt; rn_completed_at := Some failedAt; rn_recovered_at := rn_recovered_at r;
     rn_recovery_reason := rn_recovery_reason r; rn_recovery_source := rn_recovery_source r;
     rn_version := rn_version r + 1; rn_updated_at := failedAt |}.

(** [WHERE id = $1 AND status = 'running'] *)
Definition running_run (r : ResearchRunRow) : bool := (rn_id r =? runId)%string && is_running r.

(** The run of exactly this owner, job and fencing token. *)
Definition owned_run (r : ResearchRunRow) : bool :=
  running_run r && bool_decide (ri_worker_identity (rn_identity r) = Some (fence_owner_id fence))
  && bool_decide (rn_scheduler_job_name r = Some (fence_job_name fence))
  && bool_decide (rn_scheduler_fencing_token r = Some (fence_token fence)).

Definition insert_workflow_run : tx WorkflowDb (option Z) := λ d,
  match insert_unless_exists (run_checks workflow_run) nobody run_conflicts true workflow_run (wd_runs d) with
  | Ret (_, t) => Ret (Some (rn_version workflow_run), with_runs t d)
  | Throw c => Throw c
  end.

Definition evidence_insert {P} (payload : P → jvalue) (r : IdentifiedRow P) : EvidenceInsert :=
  {| ei_row := Build_IdentifiedRow (ir_id r) (ir_row r) (payload (ir_payload r)); ei_research_run_id := runId; ei_created_at := now |}.

(** [f.symbol = $5 AND f.observed_at = $6 AND f.source_fingerprint = $7] *)
Definition is_source (r : IdentifiedRow unit) (f : PostgresFeatureSnapshot) : bool :=
  (fs_symbol f =? ev_symbol (ir_row r))%string && (fs_observedAt f =? ev_observedAt (ir_row r))
  && (fs_sourceFingerprint f =? ev_fingerprint (ir_row r))%string.

Definition copy_feature (r : IdentifiedRow unit) : tx WorkflowDb nat := λ d,
  insert_evidence (map (λ f, evidence_insert (λ _, fs_features f) r) (List.filter (is_source r) (wd_features d))) d.

Definition insert_candidate_row (verifiedAt : option Z) (decision : Decision) : tx WorkflowDb nat := λ d,
  c ← candidate_row policy sha runId (wi_thresholds i) now verifiedAt decision;
  '(b, t) ← insert_candidate (known_run d) c (wd_candidates d);
  Ret (if b : bool then 1%nat else 0%nat, with_candidates t d).

Definition workflow_statement {A} (q : workflow_query A) : statement WorkflowDb A := λ t rows,
  let holds := fenceSql t fence rows in
  match q with
  | RecoverOtherRuns => update_runs (λ r, of_other_fence r && holds) abandoned_row
  | InsertRun => if holds then insert_workflow_run else mret None
  | LoadSignals symbols => λ d,
      match loadResearchSignalsForSymbols collate symbols (wd_signals d) with Ret (l, _) => Ret (l, d) | Throw c => Throw c end
  | FenceHeld => mret holds
  | InsertEvidence l => if holds then insert_evidence (map (evidence_insert (λ p, p)) l) else mret 0%nat
  | CopyFeature r => if holds then copy_feature r else mret 0%nat
  | FeatureReplay r => gets (λ d,
      if holds then Some (existsb (λ e, (ir_id (ei_row e) =? ir_id r)%string) (wd_evidence d), existsb (is_source r) (wd_features d))
      else None)
  | LearningRelation => gets wd_learning_runs
  | InsertCandidate verifiedAt decision => if holds then insert_candidate_row verifiedAt decision else mret 0%nat
  | CompleteRun targets selected summary => update_runs (λ r, running_run r && holds) (completed_row targets selected summary)
  | FailRun true failedAt message => update_runs (λ r, running_run r && holds) (failed_row failedAt message)
  | FailRun false failedAt message => update_runs owned_run (failed_row failedAt message)
  | RunStatus => gets (λ d, rn_status <$> select_one (λ r, (rn_id r =? runId)%string) (wd_runs d))
  end.

(** ** Evidence *)

Definition EVIDENCE_FENCE_REJECTED : string := "POSTGRES_RESEARCH_EVIDENCE_FENCE_REJECTED".
Definition EVIDENCE_PERSISTENCE_FAILED : string := "POSTGRES_RESEARCH_EVIDENCE_PERSISTENCE_FAILED".

Definition require_fence : workflow unit :=
  let! holds := query FenceHeld in reject_if (negb holds) EVIDENCE_FENCE_REJECTED.

Definition persist_batch (b : EvidenceBatch (IdentifiedRow jvalue)) : workflow unit :=
  let! _ := require_fence in
  let! n := query (InsertEvidence (eb_rows b)) in
  if (n =? 0)%nat && (0 <? List.length (eb_rows b))%nat then require_fence
  else reject_if (List.length (eb_rows b) <? n)%nat EVIDENCE_PERSISTENCE_FAILED.

Definition persist_feature (r : IdentifiedRow unit) : workflow unit :=
  let! _ := require_fence in
  let! n := query (CopyFeature r) in
  if (n =? 0)%nat then
    let! replay := query (FeatureReplay r) in
    match replay with
    | None => reject EVIDENCE_FENCE_REJECTED
    | Some (evidence_exists, source_exists) =>
        if negb source_exists then reject ("POSTGRES_RESEARCH_FEATURE_EVIDENCE_SOURCE_MISSING:" ++ ev_symbol (ir_row r))
        else reject_if (negb evidence_exists) EVIDENCE_PERSISTENCE_FAILED
    end
  else reject_if (negb (n =? 1)%nat) EVIDENCE_PERSISTENCE_FAILED.

Fixpoint each {A} (body : A → workflow unit) (l : list A) : workflow unit :=
  match l with
  | [] => async_ret tt
  | x :: l' => let! _ := body x in each body l'
  end.

Definition inline_rows (m : MarketResult) (targets : list TargetSnapshot) : list (IdentifiedRow jvalue) :=
  inline_evidence sha runId (mr_bars m) (mr_stockSnapshots m) (mr_optionSnapshots m) targets.

Definition persistEvidence (m : MarketResult) (features : list PostgresFeatureSnapshot) (targets : list TargetSnapshot)
    : workflow nat :=
  let inline := inline_rows m targets in
  let copied := feature_evidence sha runId features in
  let! batches := sync (evidenceBatches row_document inline) in
  let! _ := each persist_batch batches in
  let! _ := each persist_feature copied in
  async_ret (List.length inline + List.length copied)%nat.

(** ** Candidates *)

Definition resolvePostgresLearningModelCapability : workflow (option Z) :=
  let! relation := query LearningRelation in
  match relation with
  | Some _ => reject "POSTGRES_LEARNING_MODEL_PRESENT_UNSUPPORTED"
  | None => async_ret (Some now)
  end.

Fixpoint latest_quotes (symbols : list string) : workflow (list (string * option QuoteProvenance)) :=
  match symbols with
  | [] => async_ret []
  | s :: symbols' =>
      let! quote := ask_value (LatestQuote s) in
      let! quotes := latest_quotes symbols' in
      async_ret ((s, quote) :: quotes)
  end.

(** The value a [Map] keeps for a key: the last one. *)
Definition shared_quote (quotes : list (string * option QuoteProvenance)) (symbol : string) : option QuoteProvenance :=
  match select_one (λ e, (fst e =? symbol)%string) (rev quotes) with Some (_, q) => q | None => None end.

Definition persist_row (verifiedAt : option Z) (d : Decision) : workflow unit :=
  let! n := query (InsertCandidate verifiedAt d) in
  reject_if (negb (n =? 1)%nat && negb (n =? 0)%nat) "POSTGRES_CANDIDATE_PERSISTENCE_FAILED".

Definition symbol_of (d : Decision) : string := tg_symbol (et_target (de_row d)).

Definition lane_evaluation (rows : list Decision) (quotes : list (string * option QuoteProvenance))
    (emptyReasonCode : option string) : WorkstreamLaneEvaluation TargetSnapshot :=
  let selected := List.filter de_selected rows in
  let references := js_unique (flat_map (λ d,
    match shared_quote quotes (symbol_of d) with Some q => [quote_reference q] | None => [] end) selected) in
  {| ev_proposals := map (λ d, et_target (de_row d)) selected;
     ev_evidence_references :=
       (("research_run:" ++ runId) :: map (λ d, "target:" ++ tg_sourceFingerprint (et_target (de_row d))) selected
        ++ flat_map (λ d, match in_signalId (et_influence (de_row d)) with
                          | Some s => if str_truthy s then ["research_signal:" ++ s] else []
                          | None => []
                          end) selected ++ references)%string;
     ev_confidence := max_confidence selected;
     ev_reason_codes := match selected with
                        | [] => [default "NO_ELIGIBLE_POSTGRES_CANDIDATES"%string emptyReasonCode]
                        | _ => ["RANKED_SELECTED"%string]
                        end;
     ev_diagnostic_summary := match selected, emptyReasonCode with
                              | [], Some c => if str_truthy c
                                              then Some ("Lane could not evaluate current OPRA evidence: " ++ c)%string else None
                              | _, _ => None
                              end |}.

Definition persistDecisionRows (verifiedAt : option Z) (rows : list Decision) (emptyReasonCode : option string)
    : workflow (WorkstreamLaneEvaluation TargetSnapshot) :=
  let! quotes := latest_quotes (map symbol_of rows) in
  let! _ := each (persist_row verifiedAt) rows in
  async_ret (lane_evaluation rows quotes emptyReasonCode).

Definition of_family (f : StrategyFamily) (d : Decision) : bool := bool_decide (et_family (de_row d) = f).

Definition lane_strategy (verifiedAt : option Z) (m : MarketResult) (l : ResearchDecisionLane * StrategyFamily)
    : InvestmentStrategyLane TargetSnapshot workflow_request (list Decision) :=
  let '(lane, family) := l in
  {| sl_lane := lane; sl_enabled := investmentLaneEnabled lane (wi_optionsEnabled i);
     sl_execute := λ shared,
       let rows := List.filter (of_family family) shared in
       persistDecisionRows verifiedAt rows
         (if bool_decide (lane = lane_0dte) && forallb (λ d, negb (de_selected d)) rows
          then zeroDteOpraBoundedResult (mr_summary m) else None) |}.

Record CandidateDecisions := {
  cd_selected : nat;
  cd_rejected : nat;
  cd_workstreamResults : list (WorkstreamResult TargetSnapshot)
}.

Definition decisions (input : ResearchInput) (targets : list TargetSnapshot) : list Decision :=
  decisions_of env new_york le offset zone_suffix input now (wi_maxCandidates i) targets.

Definition persist_decisions (m : MarketResult) (ds : list Decision) : workflow CandidateDecisions :=
  let selectedCount := List.length (List.filter de_selected ds) in
  let! verifiedAt := if (0 <? selectedCount)%nat then resolvePostgresLearningModelCapability else async_ret None in
  let! cycle := runInvestmentOrchestrator (wi_cycleId i) (async_ret ds) (map (lane_strategy verifiedAt m) INVESTMENT_LANE_FAMILIES) in
  let! standard := persistDecisionRows verifiedAt (List.filter (of_family family_standard_option) ds) None in
  async_ret {| cd_selected := List.length (or_proposals cycle) + List.length (ev_proposals standard);
               cd_rejected := List.length ds - selectedCount;
               cd_workstreamResults := or_workstreamResults cycle |}.

(** ** The run *)

(** Signals that cannot be loaded are unavailable; the run continues. *)
Definition load_signals (targets : list TargetSnapshot) : workflow (list NormalizedResearchSignal * option string) :=
  let symbols := dedupeSymbols (map tg_symbol targets) in
  attempt (let! l := match symbols with [] => async_ret [] | _ => query (LoadSignals symbols) end in async_ret (l, None))
    (λ _, async_ret ([], Some "RESEARCH_LOOKUP_UNAVAILABLE"%string)).

Definition load_outcomes : workflow HistoricalOutcomeEvidenceIndex :=
  let config := historicalOutcomeEvidenceConfig env in
  if hc_enabled config then Ask OutcomeAggregates (λ answer, async_ret (evidence_index config answer))
  else async_ret (disabled_index config).

Definition research_input (signals : list NormalizedResearchSignal) (unavailable : option string)
    (outcomes : HistoricalOutcomeEvidenceIndex) : ResearchInput :=
  {| rs_signals := signals; rs_configuration := researchSignalConfiguration env; rs_unavailableReasonCode := unavailable;
     rs_historicalOutcomeEvidence := outcomes |}.

Definition complete (m : MarketResult) (targets : list TargetSnapshot) (c : CandidateDecisions) (evidenceStored : nat)
    (signals : list NormalizedResearchSignal) (unavailable : option string) : workflow ResearchResult :=
  let result :=
    {| rr_universeSize := List.length (wi_symbols i); rr_targetsGenerated := List.length targets;
       rr_candidatesSelected := cd_selected c; rr_candidatesRejected := cd_rejected c;
       rr_workstreamResults := cd_workstreamResults c; rr_evidenceStored := evidenceStored;
       rr_storedSignalCount := List.length signals;
       rr_lookupStatus := default "RESEARCH_LOOKUP_COMPLETED"%string unavailable |} in
  let! n := query (CompleteRun (List.length targets) (cd_selected c) (summary_text m result)) in
  let! _ := reject_if (negb (n =? 1)%nat) "POSTGRES_RESEARCH_COMPLETION_FAILED" in
  async_ret result.

(** The body of the try block. *)
Definition research : workflow ResearchResult :=
  let! m := ask RefreshMarketData in
  let! generated := ask (BuildFeaturesAndTargets m) in
  let '(features, targets) := generated in
  let! loaded := load_signals targets in
  let '(signals, unavailable) := loaded in
  let! outcomes := load_outcomes in
  let! evidenceStored := persistEvidence m features targets in
  let! c := persist_decisions m (decisions (research_input signals unavailable outcomes) targets) in
  complete m targets c evidenceStored signals unavailable.

Definition failResearchRun (message : string) : workflow unit :=
  Ask CurrentTime (λ failedAt,
    let owned :=
      let! n := query (FailRun false failedAt message) in
      if (n =? 1)%nat then async_ret tt
      else
        let! status := query RunStatus in
        reject_if (bool_decide (status = Some run_reserved) || bool_decide (status = Some run_running))
          "POSTGRES_RESEARCH_FAILURE_PERSIST_FAILED" in
    prog_bind (query (FailRun true failedAt message)) (λ r,
      match r with
      | Ret n => if (n =? 1)%nat then async_ret tt else owned
      | Throw _ => owned
      end)).

Definition runPostgresResearchWorkflow : workflow ResearchResult :=
  let! _ := query RecoverOtherRuns in
  let! reserved := query InsertRun in
  match reserved with
  | None => reject "POSTGRES_RESEARCH_RESERVATION_FAILED"
  | Some _ => attempt research (λ error, let! _ := failResearchRun (str_take 240 error) in reject error)
  end.
End workflow.
