(* ===== verification/ResearchWorkflowFacts.v ===== *)
(** What a research run leaves behind, in every concurrent history: a run that resolves
    has stored the candidates and the evidence it reports, and no run stays active. *)

From Stdlib Require Import Floats.
From S2P Require Import Prelude.
From S2P Require Import JsString.
From S2P Require Import JsNumber.
From S2P Require Import JsText.
From S2P Require Import JsJson.
From S2P Require Import AlpacaClient.
From S2P Require Import Effects.
From S2P Require Import SchedulerLease.
From S2P Require Import ExecutionTables.
From S2P Require Import ReviewConfiguration.
From S2P Require Import ReviewEvidence.
From S2P Require Import ControlTables.
From S2P Require Import ResearchRuns.
From S2P Require Import ResearchSignals.
From S2P Require Import FencedHistory.
From S2P Require Import ResearchSignalImport.
From S2P Require Import HistoricalEvidence.
From S2P Require Import InvestmentLanes.
From S2P Require Import ResearchCandidates.
From S2P Require Import ResearchEvidence.
From S2P Require Import ResearchWorkflow.
Open Scope Z_scope.

(** ** What happens to the rows *)

(** A candidate but for its status, which later workflows change. *)
Definition without_status (c : CandidateInsert) : CandidateInsert :=
  {| ci_id := ci_id c; ci_research_run_id := ci_research_run_id c; ci_symbol := ci_symbol c;
     ci_underlying_symbol := ci_underlying_symbol c; ci_option_symbol := ci_option_symbol c;
     ci_asset_class := ci_asset_class c; ci_as_of := ci_as_of c; ci_rank := ci_rank c; ci_direction := ci_direction c;
     ci_horizon := ci_horizon c; ci_risk_profile := ci_risk_profile c; ci_preferred_expression := ci_preferred_expression c;
     ci_strategy_family := ci_strategy_family c; ci_score := ci_score c; ci_confidence := ci_confidence c;
     ci_expected_return := ci_expected_return c; ci_estimated_max_loss := ci_estimated_max_loss c;
     ci_estimated_max_profit := ci_estimated_max_profit c; ci_option_liquidity_score := ci_option_liquidity_score c;
     ci_volatility_score := ci_volatility_score c; ci_strike := ci_strike c; ci_decision := ci_decision c;
     ci_lifecycle_status := EmptyString; ci_decision_reason := ci_decision_reason c; ci_rationale := ci_rationale c;
     ci_signal_inputs := ci_signal_inputs c; ci_data_quality_status := ci_data_quality_status c;
     ci_created_at := ci_created_at c |}.

Definition same_content (a b : CandidateInsert) : Prop := without_status a = without_status b.

Lemma same_content_ids a b : same_content a b → ci_id a = ci_id b ∧ ci_research_run_id a = ci_research_run_id b.
Proof. intros H. split; [exact (f_equal ci_id H)|exact (f_equal ci_research_run_id H)]. Qed.

Definition evidence_stored (id : string) (d : WorkflowDb) : Prop := ∃ e, In e (wd_evidence d) ∧ ir_id (ei_row e) = id.
Definition candidate_stored (id : string) (d : WorkflowDb) : Prop := ∃ c, In c (wd_candidates d) ∧ ci_id c = id.

(** Rows of the run [runId] are only added for the decisions in [P]. *)
Section progress.
Context (runId : string) (row : CandidateInsert → Prop).

Record progress (d d' : WorkflowDb) : Prop := {
  pr_runs : evolves rn_id run_evolves (wd_runs d) (wd_runs d');
  pr_evidence : ∀ id, evidence_stored id d → evidence_stored id d';
  pr_candidates : ∀ c, In c (wd_candidates d) → ∃ c', In c' (wd_candidates d') ∧ same_content c c';
  pr_added : ∀ c', In c' (wd_candidates d') → ci_research_run_id c' = runId →
    (∃ c, In c (wd_candidates d) ∧ same_content c c') ∨ (∃ c, row c ∧ same_content c c')
}.

#[export] Instance progress_preorder : PreOrder progress.
Proof.
  split.
  - intros d. split; [done|done|by intros c; exists c|]. intros c Hc _. left. by exists c.
  - intros d1 d2 d3 [R1 E1 C1 A1] [R2 E2 C2 A2]. split; [by etrans|auto| |].
    + intros c Hc. destruct (C1 c Hc) as (c1 & Hc1 & S1). destruct (C2 c1 Hc1) as (c2 & Hc2 & S2).
      exists c2. split; [done|]. unfold same_content in *. congruence.
    + intros c Hc Hrun. destruct (A2 c Hc Hrun) as [(c1 & Hc1 & S1)|H]; [|by right].
      destruct (A1 c1 Hc1) as [(c0 & Hc0 & S0)|(c0 & Hc0 & S0)].
      { pose proof (same_content_ids _ _ S1) as [_ H]. congruence. }
      * left. exists c0. split; [done|]. unfold same_content in *. congruence.
      * right. exists c0. split; [done|]. unfold same_content in *. congruence.
Qed.

Lemma progress_candidate_stored id d d' : progress d d' → candidate_stored id d → candidate_stored id d'.
Proof.
  intros P (c & Hc & <-). destruct (pr_candidates _ _ P c Hc) as (c' & Hc' & S). exists c'. split; [done|].
  symmetry. by apply same_content_ids.
Qed.
End progress.

Lemma progress_mono runId (row row' : CandidateInsert → Prop) d d' :
  (∀ c, row c → row' c) → progress runId row d d' → progress runId row' d d'.
Proof. intros H [R E C A]. split; [done..|]. intros c Hc Hr. destruct (A c Hc Hr) as [?|(x & Hx & S)]; [by left|]. right. exists x. auto. Qed.

(** An active run stays as it was reserved until it is not active any more. *)
Definition run_moves (r r' : ResearchRunRow) : Prop :=
  run_evolves r r' ∧
  (run_active r' = true → rn_status r' = rn_status r ∧ rn_scheduler_job_name r' = rn_scheduler_job_name r ∧
     rn_scheduler_fencing_token r' = rn_scheduler_fencing_token r).

Lemma run_evolves_active r r' : run_evolves r r' → run_active r' = true → run_active r = true.
Proof. intros [->|(A & _)]; done. Qed.

#[export] Instance run_moves_preorder : PreOrder run_moves.
Proof.
  split; [by intros r; split|]. intros r1 r2 r3 [E1 K1] [E2 K2]. split; [by etrans|]. intros H.
  destruct (K2 H) as (S2 & J2 & T2). destruct (K1 (run_evolves_active _ _ E2 H)) as (S1 & J1 & T1). split_and!; congruence.
Qed.

(** What other processes do to these tables: they do not add to this run, they never
    delete, they change the status of candidates, and they work on runs as the
    repository does, which never breaks a constraint. *)
Record others_move (runId : string) (d d' : WorkflowDb) : Prop := {
  om_runs : evolves rn_id run_moves (wd_runs d) (wd_runs d');
  om_checked : Forall (λ r, run_checks r = true) (wd_runs d) → Forall (λ r, run_checks r = true) (wd_runs d');
  om_run : ∀ r, In r (wd_runs d') → rn_id r = runId → ∃ r0, In r0 (wd_runs d) ∧ rn_id r0 = runId;
  om_rows : progress runId (λ _, False) d d'
}.

#[export] Instance others_move_preorder runId : PreOrder (others_move runId).
Proof.
  split.
  - intros d. split; [done|done| |done]. intros r Hr Hi. by exists r.
  - intros d1 d2 d3 [R1 K1 N1 P1] [R2 K2 N2 P2]. split; [by etrans|auto| |by etrans].
    intros r Hr Hi. destruct (N2 r Hr Hi) as (r1 & Hr1 & Hi1). by apply (N1 r1).
Qed.

(** ** Statements *)

Lemma evolves_none {R} (key : R → string) (rel : R → R → Prop) `{!PreOrder rel} t : evolves key rel t t.
Proof. done. Qed.

Lemma insert_rows_spec known rows t n t' :
  insert_evidence_rows known rows t = Ret (n, t') →
  (∀ e, In e t → In e t') ∧ (n ≤ List.length rows)%nat ∧ ∀ e, In e rows → ∃ e', In e' t' ∧ ir_id (ei_row e') = ir_id (ei_row e).
Proof.
  revert t n t'. induction rows as [|e rows IH]; intros t n t'; cbn [insert_evidence_rows].
  - intros [= <- <-]. split; [done|]. split; [done|]. by intros e [].
  - intros ([b t1] & H & H2)%res_bind_Ret. apply res_bind_Ret in H2 as ([m t2] & H2 & [= <- <-]).
    apply insert_unless_exists_Ret in H as [_ H]. destruct (IH _ _ _ H2) as (Hk & Hn & Hr).
    assert (Hb : (∀ x, In x t → In x t1) ∧ ∃ x, In x t1 ∧ ir_id (ei_row x) = ir_id (ei_row e)).
    { destruct b.
      - destruct H as (_ & _ & _ & ->). split; [intros x Hx; apply in_or_app; by left|].
        exists e. split; [|done]. apply in_or_app. right. by left.
      - destruct H as [(x & Hx & Hi%String.eqb_eq)%existsb_exists ->]. split; [done|]. by exists x. }
    destruct Hb as [Hkeep (x & Hx & Hi)]. split_and!; [auto|destruct b; cbn [List.length]; lia|].
    intros y [<-|Hy]; [exists x; split; [by apply Hk|done]|by apply Hr].
Qed.

Lemma insert_evidence_Ret rows d n d' :
  insert_evidence rows d = Ret (n, d') →
  d' = with_evidence (wd_evidence d') d ∧ (∀ e, In e (wd_evidence d) → In e (wd_evidence d')) ∧
  (n ≤ List.length rows)%nat ∧ ∀ e, In e rows → evidence_stored (ir_id (ei_row e)) d'.
Proof.
  unfold insert_evidence. intros ([m t] & H & [= <- <-])%res_bind_Ret. destruct (insert_rows_spec _ _ _ _ _ H) as (Hk & Hn & Hr).
  split_and!; [done|done|done|]. intros e He. apply Hr in He as (e' & He' & Hi). by exists e'.
Qed.

Lemma update_runs_Ret p f d n d' :
  update_runs p f d = Ret (n, d') →
  n = List.length (List.filter p (wd_runs d)) ∧ d' = with_runs (update_where p f (wd_runs d)) d ∧
  ∀ r, In r (wd_runs d) → p r = true → run_checks (f r) = true.
Proof.
  unfold update_runs. destruct (forallb _ _) eqn:E; [|done]. intros [= <- <-]. rewrite forallb_forall in E. split_and!; [done|done|].
  intros r Hr Hp. specialize (E r Hr). rewrite Hp in E. done.
Qed.

(** Statements on runs do not touch the other tables. *)
Lemma runs_progress runId row t d : evolves rn_id run_evolves (wd_runs d) t → progress runId row d (with_runs t d).
Proof. intros H. split; [done|done|by intros c; exists c|]. intros c Hc _. left. by exists c. Qed.

Lemma update_runs_progress runId row p f d n d' :
  run_update p f → update_runs p f d = Ret (n, d') → progress runId row d d'.
Proof. intros Hu (_ & -> & _)%update_runs_Ret. apply runs_progress. by apply update_evolves. Qed.

Lemma insert_evidence_progress runId row rows d n d' : insert_evidence rows d = Ret (n, d') → progress runId row d d'.
Proof.
  intros (Hd & Hk & _)%insert_evidence_Ret. split.
  - by rewrite Hd.
  - intros id (e & He & Hi). exists e. split; [by apply Hk|done].
  - intros c Hc. exists c. rewrite Hd. by split.
  - rewrite Hd. intros c Hc _. left. by exists c.
Qed.

Lemma filter_of_map {A B} (p : B → bool) (f : A → B) l : List.filter p (map f l) = map f (List.filter (λ x, p (f x)) l).
Proof. induction l as [|x l IH]; [done|]. cbn [map List.filter]. destruct (p (f x)); cbn [map]; by rewrite IH. Qed.

Lemma filter_one {A} (p : A → bool) l n : List.length (List.filter p l) = S n → ∃ x, In x l ∧ p x = true.
Proof.
  destruct (List.filter p l) as [|x k] eqn:E; [done|]. intros _. exists x. apply filter_In. rewrite E. by left.
Qed.

Section facts.
Context (env : Environment) (new_york : Z → NewYorkParts) (le collate : string → string → bool).
Context (offset : Z → Z) (zone_suffix : Z → string) (sha : jvalue → string).
Context (summary_text : MarketResult → ResearchResult → json) (i : WorkflowInput).
Local Abbreviation fence := (wi_fence i).
Local Abbreviation runId := (wi_runId i).
Local Abbreviation now := (wi_now i).
Local Abbreviation policy := (postgresLeapsPolicy env).
Local Abbreviation statement q := (workflow_statement env collate sha i q).
Local Abbreviation row_of v d := (candidate_row policy sha runId (wi_thresholds i) now v d).

(** ** Executions *)

(** Statements may be refused or their answers lost; the other requests are answered
    with anything, the clock with a time after the start. *)
Definition workflow_handle (X : Type) (e : workflow_request X) : World WorkflowDb → X → World WorkflowDb → Prop :=
  match e with
  | Query q => answered (statement q)
  | CurrentTime => λ w t w', now ≤ t ∧ w' = w
  | _ => λ w _ w', w' = w
  end.

Local Abbreviation runs := (executes workflow_handle (moves (others_move runId))).

Lemma moved (w w' : World WorkflowDb) :
  rtc (moves (others_move runId)) w w' → leases_move w w' ∧ others_move runId (w_data w) (w_data w').
Proof. apply moves_rtc, _. Qed.

(** The candidates that the program inserts come from these decisions. *)
Definition inserts_of (P : Decision → Prop) (X : Type) (e : workflow_request X) : Prop :=
  match e with Query (InsertCandidate _ d) => P d | _ => True end.

Definition row_from (P : Decision → Prop) (c : CandidateInsert) : Prop := ∃ v d, P d ∧ row_of v d = Ret c.

Lemma recover_update b : run_update (λ r, of_other_fence i r && b) (abandoned_row i).
Proof. split; [|done|done]. intros r. unfold of_other_fence. rewrite !andb_true_iff. tauto. Qed.

Lemma running_run_active r : running_run i r = true → run_active r = true.
Proof. intros [_ H]%andb_true_iff. by apply running_active. Qed.

Lemma complete_update targets selected summary b :
  run_update (λ r, running_run i r && b) (completed_row i targets selected summary).
Proof. split; [|done|done]. intros r [H _]%andb_true_iff. by apply running_run_active. Qed.

Lemma fail_update b failedAt message : run_update (λ r, running_run i r && b) (failed_row failedAt message).
Proof. split; [|done|done]. intros r [H _]%andb_true_iff. by apply running_run_active. Qed.

Lemma owned_update failedAt message : run_update (owned_run i) (failed_row failedAt message).
Proof. split; [|done|done]. intros r. unfold owned_run. rewrite !andb_true_iff. intros [[[H _] _] _]. by apply running_run_active. Qed.

Lemma insert_workflow_run_Ret o d d' :
  insert_workflow_run i d = Ret (o, d') →
  o = Some 1 ∧ run_checks (workflow_run i) = true ∧ existsb (run_conflicts (workflow_run i)) (wd_runs d) = false ∧
  d' = with_runs (wd_runs d ++ [workflow_run i]) d.
Proof.
  unfold insert_workflow_run. destruct (insert_unless_exists _ _ _ _ _ _) as [[b t]|c] eqn:E; [|done].
  intros [= <- <-]. apply insert_unless_exists_Ret in E as [Hk E]. destruct b.
  - destruct E as (_ & Hc & _ & ->). done.
  - destruct E as [[x [_ Hx]]%existsb_exists _]. done.
Qed.

Lemma conflict_id d : existsb (run_conflicts (workflow_run i)) (wd_runs d) = false →
  existsb (λ x, (rn_id x =? rn_id (workflow_run i))%string) (wd_runs d) = false.
Proof.
  intros H. apply not_true_iff_false. intros (r & Hr & E)%existsb_exists. apply not_true_iff_false in H. apply H, existsb_exists.
  exists r. split; [done|]. unfold run_conflicts. rewrite String.eqb_eq in E. by rewrite E, String.eqb_refl.
Qed.

Lemma insert_run_progress row o d d' : insert_workflow_run i d = Ret (o, d') → progress runId row d d'.
Proof.
  intros (_ & _ & Hc & ->)%insert_workflow_run_Ret. apply runs_progress, evolves_append; [apply _|]. by apply conflict_id.
Qed.

Lemma insert_candidate_Ret v d n db db' :
  insert_candidate_row env sha i v d db = Ret (n, db') →
  ∃ c, row_of v d = Ret c ∧ candidate_stored (ci_id c) db' ∧
    (db' = db ∨ db' = with_candidates (wd_candidates db ++ [c]) db).
Proof.
  unfold insert_candidate_row. intros (c & Hc & H)%res_bind_Ret. apply res_bind_Ret in H as ([b t] & H & [= <- <-]).
  exists c. split; [done|]. apply insert_unless_exists_Ret in H as [_ H]. destruct b.
  - destruct H as (_ & _ & _ & ->). split; [|by right]. exists c. split; [|done]. apply in_or_app. right. by left.
  - destruct H as [(x & Hx & Hi%String.eqb_eq)%existsb_exists ->]. split; [by exists x|]. left. by destruct db.
Qed.

Lemma candidate_row_id v d c : row_of v d = Ret c → ci_id c = candidate_id sha runId (et_target (de_row d)) ∧ ci_research_run_id c = runId.
Proof.
  unfold candidate_row. intros H. repeat (apply res_bind_Ret in H as (? & _ & H)). by injection H as <-.
Qed.

Lemma statement_progress (P : Decision → Prop) {A} (q : workflow_query A) t rows d a d' :
  inserts_of P _ (Query q) → statement q t rows d = Ret (a, d') → progress runId (row_from P) d d'.
Proof.
  intros HP. unfold workflow_statement. destruct q as [| |symbols| |l|r|r| |v dc|n m s|[] at_ msg|].
  - apply update_runs_progress, recover_update.
  - destruct (fenceSql t _ rows); [apply insert_run_progress|by intros [= _ <-]].
  - destruct (loadResearchSignalsForSymbols _ _ _) as [[l s]|c]; [by intros [= _ <-]|done].
  - by intros [= _ <-].
  - destruct (fenceSql t _ rows); [apply insert_evidence_progress|by intros [= _ <-]].
  - destruct (fenceSql t _ rows); [apply insert_evidence_progress|by intros [= _ <-]].
  - by intros [= _ <-].
  - by intros [= _ <-].
  - destruct (fenceSql t _ rows); [|by intros [= _ <-]]. intros (c & Hc & _ & [->| ->])%insert_candidate_Ret; [done|].
    split; [done|done| |].
    + intros x Hx. exists x. split; [|done]. apply in_or_app. by left.
    + intros x [Hx|[<-|[]]]%in_app_iff _; [left; by exists x|]. right. exists c. split; [|done]. exists v, dc. by split.
  - apply update_runs_progress, complete_update.
  - apply update_runs_progress, fail_update.
  - apply update_runs_progress, owned_update.
  - by intros [= _ <-].
Qed.

(** Leases and time go on, and the tables make progress. *)
Definition goes_on (P : Decision → Prop) (w w' : World WorkflowDb) : Prop :=
  leases_move w w' ∧ progress runId (row_from P) (w_data w) (w_data w').

#[local] Instance goes_on_preorder P : PreOrder (goes_on P).
Proof. split; [by intros w; split|]. intros w1 w2 w3 [L1 D1] [L2 D2]. split; by etrans. Qed.

Lemma others_go_on P w w' : moves (others_move runId) w w' → goes_on P w w'.
Proof. intros [L D]. split; [done|]. eapply progress_mono; [|apply D]. done. Qed.

Lemma rtc_goes_on P w w' : rtc (moves (others_move runId)) w w' → goes_on P w w'.
Proof. intros H. apply others_go_on. by apply moved in H. Qed.

Lemma request_goes_on P X (e : workflow_request X) w x w' :
  inserts_of P X e → workflow_handle X e w x w' → goes_on P w w'.
Proof.
  intros HP H. destruct e as [A q| | | | |]; cbn [workflow_handle] in H; try (subst w'; done); [|by destruct H as [_ ->]].
  split; [by eapply answered_move|]. eapply (answered_data (statement q) (progress runId (row_from P))); [|exact H].
  intros. by eapply statement_progress.
Qed.

Lemma runs_go_on P {A} (p : prog workflow_request A) w a w' : asks (inserts_of P) p → runs p w a w' → goes_on P w w'.
Proof. apply (executes_asks _ _ (inserts_of P)); [apply _|apply request_goes_on|apply others_go_on]. Qed.

Lemma goes_on_mono P Q w w' : (∀ d, P d → Q d) → goes_on P w w' → goes_on Q w w'.
Proof.
  intros H [L D]. split; [done|]. eapply progress_mono; [|exact D]. intros c (v & d & Hd & E). exists v, d. auto.
Qed.

(** ** Requests of the parts *)

Lemma asks_query P {A} (q : workflow_query A) : inserts_of P _ (Query q) → asks (inserts_of P) (query q).
Proof. by split. Qed.

Lemma asks_each P {A} (body : A → workflow unit) l :
  (∀ x, In x l → asks (inserts_of P) (body x)) → asks (inserts_of P) (each body l).
Proof.
  induction l as [|x l IH]; intros H; cbn [each]; [done|]. apply asks_async_bind; [apply H; by left|]. intros _. apply IH. auto using in_cons.
Qed.

Lemma asks_require_fence P : asks (inserts_of P) require_fence.
Proof. apply asks_async_bind; [by apply asks_query|]. intros b. apply asks_reject_if. Qed.

Lemma asks_persist_batch P b : asks (inserts_of P) (persist_batch b).
Proof.
  apply asks_async_bind; [apply asks_require_fence|]. intros _. apply asks_async_bind; [by apply asks_query|]. intros n.
  destruct (_ && _); [apply asks_require_fence|apply asks_reject_if].
Qed.

Lemma asks_persist_feature P r : asks (inserts_of P) (persist_feature r).
Proof.
  apply asks_async_bind; [apply asks_require_fence|]. intros _. apply asks_async_bind; [by apply asks_query|]. intros n.
  destruct (_ =? _)%nat; [|apply asks_reject_if]. apply asks_async_bind; [by apply asks_query|]. intros [[x y]|]; [|done].
  destruct (negb y); [done|apply asks_reject_if].
Qed.

Lemma asks_persist_evidence P m features targets : asks (inserts_of P) (persistEvidence sha i m features targets).
Proof.
  apply asks_async_bind; [done|]. intros bs. apply asks_async_bind; [apply asks_each; intros; apply asks_persist_batch|]. intros _.
  apply asks_async_bind; [apply asks_each; intros; apply asks_persist_feature|done].
Qed.

Lemma asks_latest_quotes P symbols : asks (inserts_of P) (latest_quotes symbols).
Proof.
  induction symbols as [|s l IH]; cbn [latest_quotes]; [done|]. apply asks_async_bind; [by split|]. intros q.
  by apply asks_async_bind.
Qed.

Lemma asks_persist_rows P v rows e : (∀ d, In d rows → P d) → asks (inserts_of P) (persistDecisionRows i v rows e).
Proof.
  intros HP. apply asks_async_bind; [apply asks_latest_quotes|]. intros qs. apply asks_async_bind; [|done].
  apply asks_each. intros d Hd. apply asks_async_bind; [apply asks_query; by apply HP|]. intros n. apply asks_reject_if.
Qed.

Lemma asks_lanes P cycle (ds : list Decision) (ls : list (InvestmentStrategyLane TargetSnapshot workflow_request (list Decision))) :
  (∀ l, In l ls → asks (inserts_of P) (sl_execute l ds)) →
  asks (inserts_of P) (executeWorkstreamLanes cycle (map (λ l, (sl_lane l, sl_execute l ds)) ls)).
Proof.
  induction ls as [|l ls IH]; intros H; cbn [map executeWorkstreamLanes]; [done|]. apply asks_bind; [apply H; by left|]. intros r.
  apply asks_async_bind; [|done]. apply IH. auto using in_cons.
Qed.

Lemma asks_persist_decisions m ds : asks (inserts_of (λ d, In d ds)) (persist_decisions i m ds).
Proof.
  apply asks_async_bind.
  { destruct (0 <? _)%nat; [|done]. apply asks_async_bind; [by apply asks_query|]. by intros []. }
  intros v. apply asks_async_bind.
  { refine (asks_async_bind _ (executeWorkstreamLanes _ (map (λ l, (sl_lane l, sl_execute l ds)) _)) _ _ _); [|done].
    apply asks_lanes. intros l [Hl _]%filter_In. apply in_map_iff in Hl as ([lane f] & <- & _).
    apply asks_persist_rows. by intros d [Hd _]%filter_In. }
  intros cycle. apply asks_async_bind; [|done]. apply asks_persist_rows. by intros d [Hd _]%filter_In.
Qed.

Lemma asks_load_signals P targets : asks (inserts_of P) (load_signals targets).
Proof.
  apply asks_attempt; [|done]. apply asks_async_bind; [|done]. destruct (dedupeSymbols _); [done|by apply asks_query].
Qed.

Lemma asks_load_outcomes P : asks (inserts_of P) (load_outcomes env).
Proof. unfold load_outcomes. by destruct (hc_enabled _). Qed.

Lemma asks_complete P m targets c n signals unavailable :
  asks (inserts_of P) (complete summary_text i m targets c n signals unavailable).
Proof. apply asks_async_bind; [by apply asks_query|]. intros k. apply asks_async_bind; [apply asks_reject_if|done]. Qed.

(** ** Statements that were answered *)

Lemma query_Ret {A} (q : workflow_query A) w a w' :
  runs (query q) w (Ret a) w' →
  ∃ w1 w2, rtc (moves (others_move runId)) w w1 ∧ leases_move w1 w2 ∧ rtc (moves (others_move runId)) w2 w' ∧
    statement q (w_clock w2) (leases (w_leases w2)) (w_data w1) = Ret (a, w_data w2).
Proof.
  intros (w1 & w2 & H1 & H & H2)%executes_ask. exists w1, w2. pose proof (answered_move _ _ _ _ H) as L.
  apply answered_Ret in H as (_ & El & E). rewrite El. done.
Qed.

(** ** While the fence holds

    The fence held in [w0] and holds in [w9]; then it held in every world in between. *)
Section within.
Context (w0 w9 : World WorkflowDb) (Hwf : lease_wf (w_leases w0)).
Context (H0 : holds_at (w_clock w0) fence w0 = true) (H9 : holds_at (w_clock w9) fence w9 = true).

Lemma fence_between w : leases_move w0 w → leases_move w w9 → fenceSql (w_clock w) fence (leases (w_leases w)) = true.
Proof. intros M M'. eapply (fence_held_before fence w0 w w9); [done|exact H0|done|done|done|apply M'|exact H9]. Qed.

(** What a statement did between the two. *)
Lemma query_between {A} (q : workflow_query A) w a w' :
  runs (query q) w (Ret a) w' → leases_move w0 w → leases_move w' w9 →
  ∃ w1 w2, goes_on (λ _, False) w w1 ∧ leases_move w1 w2 ∧ goes_on (λ _, False) w2 w' ∧
    fenceSql (w_clock w2) fence (leases (w_leases w2)) = true ∧
    statement q (w_clock w2) (leases (w_leases w2)) (w_data w1) = Ret (a, w_data w2).
Proof.
  intros (w1 & w2 & M1 & M2 & M3 & E)%query_Ret L L'. exists w1, w2. apply (rtc_goes_on (λ _, False)) in M1, M3.
  split_and!; [done|done|done| |done]. apply fence_between.
  - etrans; [exact L|]. etrans; [apply M1|exact M2].
  - etrans; [apply M3|exact L'].
Qed.

(** What holds after each part and is kept, holds of all at the end. *)
Lemma each_between {A} (body : A → workflow unit) l (Q : A → WorkflowDb → Prop) P w u w' :
  (∀ x, In x l → asks (inserts_of P) (body x)) →
  (∀ x d d', Q x d → progress runId (row_from P) d d' → Q x d') →
  (∀ x w1 u w2, In x l → runs (body x) w1 (Ret u) w2 → leases_move w0 w1 → leases_move w2 w9 → Q x (w_data w2)) →
  runs (each body l) w (Ret u) w' → leases_move w0 w → leases_move w' w9 → ∀ x, In x l → Q x (w_data w').
Proof.
  revert w u. induction l as [|x l IH]; intros w u Ha Hk Hb; cbn [each]; [by intros _ _ _ ? []|].
  intros H L L'. apply executes_async_Ret in H as (v & w1 & Hx & H).
  assert (G : goes_on P w w1) by (eapply runs_go_on; [apply Ha; by left|exact Hx]).
  assert (G' : goes_on P w1 w') by (eapply runs_go_on; [apply asks_each; intros z Hz; apply Ha; by right|exact H]).
  intros y [<-|Hy].
  - eapply Hk; [|apply G']. eapply Hb; [by left|exact Hx|exact L|]. etrans; [apply G'|exact L'].
  - eapply (IH w1 u); [intros z Hz; apply Ha; by right|exact Hk| |exact H| |exact L'|exact Hy].
    + intros z w2 v2 w3 Hz. apply Hb. by right.
    + etrans; [exact L|apply G].
Qed.

Lemma goes_on_evidence P id w w' : goes_on P w w' → evidence_stored id (w_data w) → evidence_stored id (w_data w').
Proof. intros [_ G]. apply G. Qed.

Lemma goes_on_candidate P id w w' : goes_on P w w' → candidate_stored id (w_data w) → candidate_stored id (w_data w').
Proof. intros [_ G]. by eapply progress_candidate_stored. Qed.

Lemma batch_stored b w u w' :
  runs (persist_batch b) w (Ret u) w' → leases_move w0 w → leases_move w' w9 →
  ∀ r, In r (eb_rows b) → evidence_stored (ir_id r) (w_data w').
Proof.
  intros H L L' r Hr. apply executes_async_Ret in H as (u1 & w1 & Hf & H).
  apply (runs_go_on (λ _, False)) in Hf; [|apply asks_require_fence]. apply executes_async_Ret in H as (n & w2 & Hi & H).
  apply (runs_go_on (λ _, False)) in H; [|destruct (_ && _); [apply asks_require_fence|apply asks_reject_if]].
  apply query_between in Hi as (w3 & w4 & G1 & M & G2 & Hh & E); [|etrans; [exact L|apply Hf]|etrans; [apply H|exact L']].
  unfold workflow_statement in E. rewrite Hh in E. apply insert_evidence_Ret in E as (_ & _ & _ & E).
  eapply goes_on_evidence; [exact H|]. eapply goes_on_evidence; [exact G2|].
  apply (E (evidence_insert i (λ p, p) r)). by apply in_map.
Qed.

Lemma feature_stored r w u w' :
  runs (persist_feature r) w (Ret u) w' → leases_move w0 w → leases_move w' w9 → evidence_stored (ir_id r) (w_data w').
Proof.
  intros H L L'. apply executes_async_Ret in H as (u1 & w1 & Hf & H).
  apply (runs_go_on (λ _, False)) in Hf; [|apply asks_require_fence]. apply executes_async_Ret in H as (n & w2 & Hi & H).
  destruct (Nat.eqb_spec n 0) as [->|Hn].
  - apply executes_async_Ret in H as ([[x y]|] & w3 & Hr & H); [|by destruct H as [[=] _]].
    destruct y; [|by destruct H as [[=] _]]. apply executes_reject_if in H as [Hx H]. apply negb_false_iff in Hx as ->.
    apply query_Ret in Hr as (w4 & w5 & _ & _ & M & E). unfold workflow_statement in E. cbn in E.
    destruct (fenceSql _ _ _); [|by injection E]. injection E as E _ Ed. apply existsb_exists in E as (e & He & Hid%String.eqb_eq).
    apply (rtc_goes_on (λ _, False)) in M, H. eapply goes_on_evidence; [exact H|]. eapply goes_on_evidence; [exact M|].
    rewrite <- Ed. by exists e.
  - apply executes_reject_if in H as [Hone H]. apply negb_false_iff, Nat.eqb_eq in Hone as ->.
    apply query_Ret in Hi as (w4 & w5 & _ & _ & M & E). apply (rtc_goes_on (λ _, False)) in M, H.
    eapply goes_on_evidence; [exact H|]. eapply goes_on_evidence; [exact M|].
    unfold workflow_statement in E. destruct (fenceSql _ _ _); [|by injection E].
    apply insert_evidence_Ret in E as (_ & _ & Hlen & E). rewrite length_map in Hlen.
    destruct (List.filter _ _) as [|f l] in Hlen, E; [cbn in Hlen; lia|].
    apply (E (evidence_insert i (λ _, fs_features f) r)). by left.
Qed.

(** Every row of evidence is stored. *)
Lemma evidence_between m features targets w n w' :
  runs (persistEvidence sha i m features targets) w (Ret n) w' → leases_move w0 w → leases_move w' w9 →
  n = (List.length (inline_rows sha i m targets) + List.length (feature_evidence sha runId features))%nat ∧
  (∀ r, In r (inline_rows sha i m targets) → evidence_stored (ir_id r) (w_data w')) ∧
  (∀ r, In r (feature_evidence sha runId features) → evidence_stored (ir_id r) (w_data w')).
Proof.
  unfold persistEvidence. set (inline := inline_rows sha i m targets). set (copied := feature_evidence sha runId features).
  intros H L L'. apply executes_async_Ret in H as (bs & w1 & [Eb M1] & H). apply (rtc_goes_on (λ _, False)) in M1.
  apply executes_async_Ret in H as (u1 & w2 & Hb & H). apply executes_async_Ret in H as (u2 & w3 & Hf & H).
  apply executes_ret in H as [<- H]. apply (rtc_goes_on (λ _, False)) in H. split; [done|].
  assert (Gb : goes_on (λ _, False) w1 w2) by (eapply runs_go_on; [apply asks_each; intros; apply asks_persist_batch|exact Hb]).
  assert (Gf : goes_on (λ _, False) w2 w3) by (eapply runs_go_on; [apply asks_each; intros; apply asks_persist_feature|exact Hf]).
  assert (L1 : leases_move w0 w1) by (etrans; [exact L|apply M1]). assert (L3 : leases_move w3 w9) by (etrans; [apply H|exact L']).
  split.
  - intros r Hr. eapply goes_on_evidence; [exact H|]. eapply goes_on_evidence; [exact Gf|].
    pose proof (evidence_batches_bounded row_document inline) as B. fold inline in Eb. rewrite <- Eb in B. destruct B as (B & _ & _).
    rewrite <- B in Hr. apply in_concat in Hr as (rows & (b & <- & Hbs)%in_map_iff & Hr).
    refine (each_between persist_batch bs (λ b d, ∀ r, In r (eb_rows b) → evidence_stored (ir_id r) d) (λ _, False) w1 u1 w2 _ _ _ Hb L1 _ b Hbs r Hr).
    + intros. apply asks_persist_batch.
    + intros x d d' Hx G y Hy. apply G. by apply Hx.
    + intros x wa v wb _. apply batch_stored.
    + etrans; [apply Gf|exact L3].
  - intros r Hr. eapply goes_on_evidence; [exact H|].
    refine (each_between persist_feature copied (λ r d, evidence_stored (ir_id r) d) (λ _, False) w2 u2 w3 _ _ _ Hf _ L3 r Hr).
    + intros. apply asks_persist_feature.
    + intros x d d' Hx G. by apply G.
    + intros x wa v wb _. apply feature_stored.
    + etrans; [exact L1|apply Gb].
Qed.

(** *** Candidates *)

Definition decision_stored (d : Decision) (db : WorkflowDb) : Prop :=
  candidate_stored (candidate_id sha runId (et_target (de_row d))) db.

Lemma row_between v d w u w' :
  runs (persist_row v d) w (Ret u) w' → leases_move w0 w → leases_move w' w9 → decision_stored d (w_data w').
Proof.
  intros H L L'. apply executes_async_Ret in H as (n & w1 & Hi & H). apply executes_reject_if in H as [_ H].
  apply (rtc_goes_on (λ _, False)) in H.
  apply query_between in Hi as (w3 & w4 & _ & _ & G & Hh & E); [|exact L|etrans; [apply H|exact L']].
  unfold workflow_statement in E. rewrite Hh in E. apply insert_candidate_Ret in E as (c & Hc & Hs & _).
  apply candidate_row_id in Hc as [Hid _]. unfold decision_stored. rewrite <- Hid. eapply goes_on_candidate; [exact H|].
  eapply goes_on_candidate; [exact G|exact Hs].
Qed.

Lemma rows_between v rows e w ev w' :
  runs (persistDecisionRows i v rows e) w (Ret ev) w' → leases_move w0 w → leases_move w' w9 →
  ev_proposals ev = map (λ d, et_target (de_row d)) (List.filter de_selected rows) ∧
  ∀ d, In d rows → decision_stored d (w_data w').
Proof.
  intros H L L'. apply executes_async_Ret in H as (qs & w1 & Hq & H). apply executes_async_Ret in H as (u & w2 & Hr & H).
  apply executes_ret in H as [<- H]. apply (rtc_goes_on (λ _, False)) in H. split; [done|]. intros d Hd.
  eapply goes_on_candidate; [exact H|].
  refine (each_between (persist_row v) rows (λ d db, decision_stored d db) (λ d, In d rows) w1 u w2 _ _ _ Hr _ _ d Hd).
  - intros x Hx. apply asks_async_bind; [by apply asks_query|]. intros n. apply asks_reject_if.
  - intros x d1 d2 Hx G. by eapply progress_candidate_stored.
  - intros x wa v' wb _. apply row_between.
  - etrans; [exact L|]. apply (runs_go_on (λ _, False)) in Hq; [apply Hq|apply asks_latest_quotes].
  - etrans; [apply H|exact L'].
Qed.

(** The outcome of a lane: an error, or the decisions of its family, all stored. *)
Definition lane_outcome (ds : list Decision) (db : WorkflowDb) (l : ResearchDecisionLane * StrategyFamily)
    (r : WorkstreamResult TargetSnapshot) : Prop :=
  let rows := List.filter (of_family (snd l)) ds in
  wr_lane r = fst l ∧
  if bool_decide (wr_outcome r = lane_error) then wr_proposals r = []
  else wr_proposals r = map (λ d, et_target (de_row d)) (List.filter de_selected rows) ∧
       wr_outcome r = match wr_proposals r with [] => lane_no_action | _ => lane_success end ∧
       ∀ d, In d rows → decision_stored d db.

Lemma lane_outcome_kept ds db db' P l r : progress runId (row_from P) db db' → lane_outcome ds db l r → lane_outcome ds db' l r.
Proof.
  intros G [Hl H]. split; [done|]. case_bool_decide; [done|]. destruct H as (Hp & Ho & H). split_and!; [done|done|]. intros d Hd.
  eapply progress_candidate_stored; [exact G|by apply H].
Qed.

Definition enabled_families : list (ResearchDecisionLane * StrategyFamily) :=
  List.filter (λ l, investmentLaneEnabled (fst l) (wi_optionsEnabled i)) INVESTMENT_LANE_FAMILIES.

Lemma enabled_lanes v m (fs : list (ResearchDecisionLane * StrategyFamily)) :
  List.filter sl_enabled (map (lane_strategy i v m) fs) =
  map (lane_strategy i v m) (List.filter (λ l, investmentLaneEnabled (fst l) (wi_optionsEnabled i)) fs).
Proof.
  rewrite filter_of_map. f_equal. apply filter_ext. by intros [lane f].
Qed.

Local Abbreviation executions v m ds fs :=
  (map (λ l, (sl_lane l, sl_execute l ds)) (map (lane_strategy i v m) fs)).

Lemma lanes_go_on cycle v m ds fs w results w' :
  lanes_run workflow_handle (moves (others_move runId)) cycle (executions v m ds fs) w results w' → goes_on (λ d, In d ds) w w'.
Proof.
  revert w results. induction fs as [|[lane f] fs IH]; intros w results H; cbn [map] in H.
  - inversion H; subst. by apply rtc_goes_on.
  - inversion H as [|? ? ? ? r w1 results' ? Hr Hl]; subst. etrans; [|by eapply IH]. eapply runs_go_on; [|exact Hr].
    apply asks_persist_rows. by intros d [Hd _]%filter_In.
Qed.

Lemma lanes_between cycle v m ds fs w results w' :
  lanes_run workflow_handle (moves (others_move runId)) cycle (executions v m ds fs) w results w' →
  leases_move w0 w → leases_move w' w9 → Forall2 (lane_outcome ds (w_data w')) fs results.
Proof.
  revert w results. induction fs as [|[lane f] fs IH]; intros w results H L L'; cbn [map] in H.
  - inversion H; subst. constructor.
  - inversion H as [|? ? ? ? r w1 results' ? Hr Hl]; subst.
    assert (G : goes_on (λ d, In d ds) w w1).
    { eapply runs_go_on; [|exact Hr]. apply asks_persist_rows. by intros d [Hd _]%filter_In. }
    pose proof (lanes_go_on _ _ _ _ _ _ _ _ Hl) as G'. constructor; [|eapply IH; [exact Hl| |exact L']; etrans; [exact L|apply G]].
    split; [by destruct r|]. destruct r as [ev|c]; [|done]. cbn [sl_execute lane_strategy] in Hr.
    apply rows_between in Hr as [Hp Hs]; [|exact L|etrans; [apply G'|exact L']]. cbn [lane_result wr_outcome wr_proposals snd].
    rewrite bool_decide_eq_false_2 by (by destruct (negb _)). split_and!; [done|by destruct (ev_proposals ev)|]. intros d Hd.
    eapply goes_on_candidate; [exact G'|by apply Hs].
Qed.

Lemma decisions_between m ds w c w' :
  runs (persist_decisions i m ds) w (Ret c) w' → leases_move w0 w → leases_move w' w9 →
  Forall2 (lane_outcome ds (w_data w')) enabled_families (cd_workstreamResults c) ∧
  (∀ d, In d ds → of_family family_standard_option d = true → decision_stored d (w_data w')) ∧
  cd_selected c = (List.length (flat_map wr_proposals (cd_workstreamResults c)) +
                   List.length (List.filter de_selected (List.filter (of_family family_standard_option) ds)))%nat ∧
  cd_rejected c = (List.length ds - List.length (List.filter de_selected ds))%nat.
Proof.
  intros H L L'. apply executes_async_Ret in H as (v & w1 & Hv & H). apply executes_async_Ret in H as (cycle & w2 & Hc & H).
  apply executes_async_Ret in H as (ev & w3 & Hs & H). apply executes_ret in H as [<- H]. apply (rtc_goes_on (λ _, False)) in H.
  assert (G1 : goes_on (λ _, False) w w1).
  { eapply runs_go_on; [|exact Hv]. destruct (0 <? _)%nat; [|done]. apply asks_async_bind; [by apply asks_query|]. by intros []. }
  assert (G3 : goes_on (λ d, In d ds) w2 w3).
  { eapply runs_go_on; [|exact Hs]. apply asks_persist_rows. by intros d [Hd _]%filter_In. }
  apply orchestrator_run in Hc as (context & wc & Hload & Hrun & Hp & He). apply executes_ret in Hload as [<- Hload].
  apply (rtc_goes_on (λ _, False)) in Hload. rewrite enabled_lanes in Hrun. fold enabled_families in Hrun.
  assert (Lc : leases_move w0 wc) by (etrans; [exact L|]; etrans; [apply G1|apply Hload]).
  assert (L3 : leases_move w3 w9) by (etrans; [apply H|exact L']).
  assert (L2 : leases_move w2 w9) by (etrans; [apply G3|exact L3]).
  pose proof (lanes_between _ _ _ _ _ _ _ _ Hrun Lc L2) as Hl. pose proof (lanes_go_on _ _ _ _ _ _ _ _ Hrun) as Gl.
  apply rows_between in Hs as [Hps Hst]; [|etrans; [exact Lc|apply Gl]|exact L3]. cbn [cd_workstreamResults cd_selected cd_rejected].
  split_and!.
  - eapply Forall2_impl; [exact Hl|]. intros l r Ho. eapply lane_outcome_kept; [apply H|]. eapply lane_outcome_kept; [apply G3|exact Ho].
  - intros d Hd Hf. eapply goes_on_candidate; [exact H|]. apply Hst. by apply filter_In.
  - rewrite Hp, Hps, length_map. f_equal. clear -Hl. induction Hl as [|l r fs results [_ Ho] _ IH]; [done|].
    unfold successful_proposals in *. cbn [flat_map]. rewrite !length_app, IH. f_equal.
    destruct (decide (wr_outcome r = lane_success)) as [E|E]; [by rewrite bool_decide_eq_true_2|].
    rewrite bool_decide_eq_false_2 by done. case_bool_decide; [by rewrite Ho|]. destruct Ho as (_ & Ho & _).
    by destruct (wr_proposals r).
  - done.
Qed.
End within.

(** ** A run that resolves *)

Local Abbreviation decided input targets := (decisions env new_york le offset zone_suffix i input targets).

Lemma selected_by_family (ds : list Decision) :
  List.length (List.filter de_selected ds) =
  (List.length (flat_map (λ f, List.filter de_selected (List.filter (of_family f) ds)) [family_equity; family_zero_dte; family_leaps])
   + List.length (List.filter de_selected (List.filter (of_family family_standard_option) ds)))%nat.
Proof.
  cbn [flat_map]. rewrite app_nil_r, !length_app. induction ds as [|d ds IH]; [done|]. cbn [List.filter].
  assert (H : ∀ f, of_family f d = bool_decide (et_family (de_row d) = f)) by done. rewrite !H.
  destruct (et_family (de_row d));
    repeat first [rewrite bool_decide_eq_true_2 by done|rewrite bool_decide_eq_false_2 by done];
    cbn [List.filter]; destruct (de_selected d); cbn [List.length]; lia.
Qed.

Lemma complete_Ret m targets c n signals unavailable w r w' :
  runs (complete summary_text i m targets c n signals unavailable) w (Ret r) w' →
  ∃ w1 w9 r0, goes_on (λ _, False) w w1 ∧ goes_on (λ _, False) w1 w9 ∧ goes_on (λ _, False) w9 w' ∧
    holds_at (w_clock w9) fence w9 = true ∧ In r0 (wd_runs (w_data w1)) ∧ running_run i r0 = true ∧
    In (completed_row i (List.length targets) (cd_selected c) (summary_text m r) r0) (wd_runs (w_data w9)) ∧
    rr_targetsGenerated r = List.length targets ∧ rr_candidatesSelected r = cd_selected c ∧
    rr_candidatesRejected r = cd_rejected c ∧ rr_workstreamResults r = cd_workstreamResults c ∧ rr_evidenceStored r = n.
Proof.
  unfold complete. set (result := {| rr_universeSize := _ |}). intros H. apply executes_async_Ret in H as (k & w2 & Hq & H).
  apply executes_async_Ret in H as (u & w3 & Hone & H). apply executes_reject_if in Hone as [Hone M3].
  apply executes_ret in H as [<- M4]. apply negb_false_iff, Nat.eqb_eq in Hone as ->.
  apply query_Ret in Hq as (w1 & w9 & M1 & L & M2 & E). pose proof E as Ed. apply (statement_progress (λ _, False)) in Ed; [|done].
  unfold workflow_statement in E. apply update_runs_Ret in E as (Hlen & Hd & _). symmetry in Hlen. apply filter_one in Hlen as (r0 & Hr0 & Hp).
  apply andb_true_iff in Hp as [Hr Hh]. exists w1, w9, r0. apply (rtc_goes_on (λ _, False)) in M1, M2, M3, M4. split_and!; try done.
  - etrans; [exact M2|]. by etrans.
  - rewrite Hd. cbn [wd_runs with_runs]. apply update_where_In. exists r0. split; [done|]. rewrite Hr, Hh. done.
Qed.

(** What a completed run has left in the tables. *)
Record recorded (db : WorkflowDb) (m : MarketResult) (features : list PostgresFeatureSnapshot) (targets : list TargetSnapshot)
    (ds : list Decision) (r : ResearchResult) : Prop := {
  rc_run : ∃ row, In row (wd_runs db) ∧ rn_id row = runId ∧ rn_status row = run_completed ∧
    rn_targets_generated row = Z.of_nat (List.length targets) ∧ rn_candidates_selected row = Z.of_nat (rr_candidatesSelected r) ∧
    rn_summary row = Some (summary_text m r);
  rc_lanes : Forall2 (lane_outcome ds db) enabled_families (rr_workstreamResults r);
  rc_standard : ∀ d, In d ds → et_family (de_row d) = family_standard_option → decision_stored d db;
  rc_only : ∀ c, In c (wd_candidates db) → ci_research_run_id c = runId → ∃ c0, row_from (λ d, In d ds) c0 ∧ same_content c0 c;
  rc_evidence : ∀ id, In id (map ir_id (inline_rows sha i m targets) ++ map ir_id (feature_evidence sha runId features)) →
    evidence_stored id db;
  rc_all : Forall (λ x, wr_outcome x ≠ lane_error) (rr_workstreamResults r) → wi_optionsEnabled i = true →
    (∀ d, In d ds → decision_stored d db) ∧
    (rr_candidatesSelected r + rr_candidatesRejected r)%nat = List.length targets;
  rc_counts : rr_evidenceStored r = (List.length (inline_rows sha i m targets) + List.length (feature_evidence sha runId features))%nat ∧
    rr_candidatesRejected r = (List.length ds - List.length (List.filter de_selected ds))%nat
}.

Lemma results_kept P w w' m features targets ds r :
  goes_on P w w' →
  Forall2 (lane_outcome ds (w_data w)) enabled_families (rr_workstreamResults r) ∧
  (∀ d, In d ds → et_family (de_row d) = family_standard_option → decision_stored d (w_data w)) ∧
  (∀ id, In id (map ir_id (inline_rows sha i m targets) ++ map ir_id (feature_evidence sha runId features)) → evidence_stored id (w_data w)) →
  Forall2 (lane_outcome ds (w_data w')) enabled_families (rr_workstreamResults r) ∧
  (∀ d, In d ds → et_family (de_row d) = family_standard_option → decision_stored d (w_data w')) ∧
  (∀ id, In id (map ir_id (inline_rows sha i m targets) ++ map ir_id (feature_evidence sha runId features)) → evidence_stored id (w_data w')).
Proof.
  intros G (Hl & Hs & He). split_and!.
  - eapply Forall2_impl; [exact Hl|]. intros l x. eapply lane_outcome_kept. apply G.
  - intros d Hd Hf. eapply progress_candidate_stored; [apply G|by apply Hs].
  - intros id Hid. apply G. by apply He.
Qed.

(** The body of the try block, from a world where the fence holds. *)
Lemma research_recorded w0 w r w' :
  lease_wf (w_leases w0) → holds_at (w_clock w0) fence w0 = true → leases_move w0 w →
  runs (research env new_york le offset zone_suffix sha summary_text i) w (Ret r) w' →
  ∃ m features targets input, let ds := decided input targets in
    goes_on (λ d, In d ds) w w' ∧
    (∃ r0 w1 w9, goes_on (λ d, In d ds) w w1 ∧ goes_on (λ _, False) w1 w9 ∧ goes_on (λ _, False) w9 w' ∧
       In r0 (wd_runs (w_data w1)) ∧ running_run i r0 = true ∧
       In (completed_row i (List.length targets) (rr_candidatesSelected r) (summary_text m r) r0) (wd_runs (w_data w9))) ∧
    Forall2 (lane_outcome ds (w_data w')) enabled_families (rr_workstreamResults r) ∧
    (∀ d, In d ds → et_family (de_row d) = family_standard_option → decision_stored d (w_data w')) ∧
    (∀ id, In id (map ir_id (inline_rows sha i m targets) ++ map ir_id (feature_evidence sha runId features)) → evidence_stored id (w_data w')) ∧
    rr_evidenceStored r = (List.length (inline_rows sha i m targets) + List.length (feature_evidence sha runId features))%nat ∧
    rr_candidatesSelected r = (List.length (flat_map wr_proposals (rr_workstreamResults r)) +
      List.length (List.filter de_selected (List.filter (of_family family_standard_option) ds)))%nat ∧
    rr_candidatesRejected r = (List.length ds - List.length (List.filter de_selected ds))%nat.
Proof.
  intros Hwf H0 L H. apply executes_async_Ret in H as (m & wm & Hm & H). apply executes_async_Ret in H as ([features targets] & wg & Hg & H).
  apply executes_async_Ret in H as ([signals unavailable] & wl & Hl & H). apply executes_async_Ret in H as (outcomes & wo & Ho & H).
  apply executes_async_Ret in H as (n & we & He & H). set (input := research_input env signals unavailable outcomes) in H.
  set (ds := decided input targets) in H. apply executes_async_Ret in H as (c & wc & Hc & H).
  apply complete_Ret in H as (w1 & w9 & r0 & G1 & G9 & G' & H9 & Hr0 & Hrun & Hrow & Ht & Hsel & Hrej & Hres & Hn).
  assert (Gm : goes_on (λ _, False) w we).
  { apply (runs_go_on (λ _, False)) in Hm, Hg, Hl, Ho, He; try done; [|apply asks_persist_evidence|apply asks_load_outcomes|apply asks_load_signals].
    etrans; [exact Hm|]. etrans; [exact Hg|]. etrans; [exact Hl|]. by etrans. }
  assert (Gwo : goes_on (λ _, False) w wo).
  { apply (runs_go_on (λ _, False)) in Hm, Hg, Hl, Ho; try done; [|apply asks_load_outcomes|apply asks_load_signals].
    etrans; [exact Hm|]. etrans; [exact Hg|]. by etrans. }
  assert (Gc : goes_on (λ d, In d ds) we wc) by (eapply runs_go_on; [apply asks_persist_decisions|exact Hc]).
  assert (Gf : ∀ x y, goes_on (λ _, False) x y → goes_on (λ d, In d ds) x y) by (intros x y; by apply goes_on_mono).
  assert (Lc : leases_move wc w9) by (etrans; [apply G1|apply G9]).
  assert (Le : leases_move we w9) by (etrans; [apply Gc|exact Lc]).
  destruct (evidence_between w0 w9 Hwf H0 H9 m features targets wo n we He) as (En & Ei & Ef); [etrans; [exact L|apply Gwo]|exact Le|].
  destruct (decisions_between w0 w9 Hwf H0 H9 m ds we c wc Hc) as (Dl & Ds & Dsel & Drej); [etrans; [exact L|apply Gm]|exact Lc|].
  exists m, features, targets, input. cbv zeta. fold ds. rewrite Hsel, Hrej, Hres, Hn.
  assert (Gall : goes_on (λ d, In d ds) w w').
  { etrans; [exact (Gf _ _ Gm)|]. etrans; [exact Gc|]. apply Gf. etrans; [exact G1|]. by etrans. }
  split; [exact Gall|]. split.
  { exists r0, w1, w9. split_and!; try done.
    etrans; [exact (Gf _ _ Gm)|]. etrans; [exact Gc|by apply Gf]. }
  assert (Gt : goes_on (λ d, In d ds) wc w') by (apply Gf; etrans; [exact G1|]; by etrans).
  destruct (results_kept _ wc w' m features targets ds r Gt) as (S1 & S2 & S3).
  - rewrite Hres. split_and!; [done| |].
    + intros d Hd Hf. apply Ds; [done|]. unfold of_family. by rewrite bool_decide_eq_true_2.
    + intros id [Hid|Hid]%in_app_or; apply in_map_iff in Hid as (x & <- & Hx); apply Gc; [by apply Ei|by apply Ef].
  - rewrite Hres in S1. done.
Qed.

Lemma moved_wf (w w' : World WorkflowDb) : lease_wf (w_leases w) → leases_move w w' → lease_wf (w_leases w').
Proof. intros Hwf [_ L]. by apply (lease_history_from _ _ _ Hwf L). Qed.

(** The lanes without errors have the decisions of their families. *)
Lemma lanes_complete ds db fs results :
  Forall2 (lane_outcome ds db) fs results → Forall (λ x, wr_outcome x ≠ lane_error) results →
  List.length (flat_map wr_proposals results) =
    List.length (flat_map (λ f, List.filter de_selected (List.filter (of_family f) ds)) (map snd fs)) ∧
  ∀ d, In d ds → In (et_family (de_row d)) (map snd fs) → decision_stored d db.
Proof.
  induction 1 as [|[lane f] x fs results [_ Ho] _ IH]; intros He; [by split; [|intros ? _ []]|].
  apply Forall_cons in He as [Hx He]. rewrite bool_decide_eq_false_2 in Ho by done. destruct Ho as (Hp & _ & Hs).
  destruct (IH He) as [Hl Hd]. cbn [flat_map map snd]. split.
  - by rewrite !length_app, Hl, Hp, length_map.
  - intros d Hin [Hf|Hf]; [|by apply Hd]. apply Hs. apply filter_In. split; [done|]. cbn in Hf. subst f. unfold of_family. by rewrite bool_decide_eq_true_2.
Qed.

Lemma enabled_all : wi_optionsEnabled i = true → enabled_families = INVESTMENT_LANE_FAMILIES.
Proof. intros H. unfold enabled_families. by rewrite H. Qed.

(** A run that is reserved: the fence holds when its row is inserted. *)
Lemma reserved_run w v w' :
  lease_wf (w_leases w) → runs (query InsertRun) w (Ret (Some v)) w' →
  ∃ w0, lease_wf (w_leases w0) ∧ holds_at (w_clock w0) fence w0 = true ∧ leases_move w0 w'.
Proof.
  intros Hwf (w1 & w0 & M1 & L & M2 & E)%query_Ret. exists w0. apply moved in M1 as [M1 _], M2 as [M2 _]. split_and!; [|..|exact M2].
  - eapply moved_wf; [exact Hwf|]. by etrans.
  - unfold workflow_statement in E. unfold holds_at. by destruct (fenceSql _ _ _).
Qed.

Lemma decided_length input targets : List.length (decided input targets) = List.length targets.
Proof.
  unfold decisions, decisions_of, decide_rows, evaluate_targets. rewrite length_imap.
  by rewrite (Permutation_length (sort_by_perm _ _)), length_map.
Qed.

(** C13: a research run that resolves, in a history in which other processes take leases
    over, add rows and change the status of candidates, and in which statements are
    refused and answers are lost, has left everything it reports: its row is completed
    with the counts and the summary of the result, every row of evidence is stored, and
    so is the candidate of every decision whose lane has not failed, although an INSERT
    that wrote nothing is not an error.  No other candidates of the run are there.  When
    no lane has failed and options are enabled for the run, every target is either
    selected or rejected, and is stored. *)
Theorem completed_research_recorded w r w' :
  lease_wf (w_leases w) → (∀ c, In c (wd_candidates (w_data w)) → ci_research_run_id c ≠ runId) →
  runs (runPostgresResearchWorkflow env new_york le offset zone_suffix sha summary_text i) w (Ret r) w' →
  ∃ m features targets input, recorded (w_data w') m features targets (decided input targets) r.
Proof.
  intros Hwf Hnew H. apply executes_async_Ret in H as (k & w1 & Hrec & H). apply executes_async_Ret in H as (v & w2 & Hins & H).
  assert (G1 : goes_on (λ _, False) w w1) by (eapply runs_go_on; [|exact Hrec]; by apply asks_query).
  assert (G2 : goes_on (λ _, False) w1 w2) by (eapply runs_go_on; [|exact Hins]; by apply asks_query).
  destruct v as [v|]; [|by destruct H as [[=] _]].
  apply reserved_run in Hins as (w0 & Hwf0 & H0 & L0); [|eapply moved_wf; [exact Hwf|apply G1]].
  apply executes_bind in H as ([r'|c] & w3 & H & Hend).
  2: { apply executes_async_Ret in Hend as (u & w4 & _ & [[=] _]). }
  apply executes_ret in Hend as [-> Hend].
  destruct (research_recorded w0 w2 r w3 Hwf0 H0 L0 H) as (m & features & targets & input & G & (r0 & wa & wb & Ga & Gb & Gc & Hr0 & Hrun & Hrow) & S).
  exists m, features, targets, input. cbv zeta in *. set (ds := decided input targets) in *.
  apply (rtc_goes_on (λ _, False)) in Hend. destruct S as (S1 & S2 & S3 & Hn & Hsel & Hrej).
  destruct (results_kept _ w3 w' m features targets ds r Hend (conj S1 (conj S2 S3))) as (T1 & T2 & T3).
  assert (Gw : goes_on (λ d, In d ds) w w').
  { etrans; [eapply goes_on_mono; [|exact G1]; done|]. etrans; [eapply goes_on_mono; [|exact G2]; done|]. etrans; [exact G|].
    eapply goes_on_mono; [|exact Hend]. done. }
  split; [|exact T1|exact T2| |exact T3| |done].
  - assert (Ge : goes_on (λ _, False) wb w') by (by etrans). destruct (ev_rows _ _ _ _ (pr_runs _ _ _ _ (proj2 Ge)) _ Hrow) as (row & Hin & _ & E).
    destruct E as [->|[A _]]; [|done]. apply andb_true_iff in Hrun as [Hid%String.eqb_eq _].
    eexists. split; [exact Hin|]. split_and!; done.
  - intros c Hc Hid. destruct (pr_added _ _ _ _ (proj2 Gw) c Hc Hid) as [(c0 & Hc0 & Sc)|?]; [|done].
    exfalso. apply (Hnew c0 Hc0). apply same_content_ids in Sc as [_ Sc]. congruence.
  - intros He Ho. rewrite (enabled_all Ho) in T1. destruct (lanes_complete _ _ _ _ T1 He) as [Hl Hd]. split.
    + intros d Hd1. destruct (et_family (de_row d)) eqn:Ef; [apply Hd; [done|rewrite Ef; cbn; tauto]..|]. by apply T2.
    + rewrite Hsel, Hrej, Hl. rewrite (decided_length input targets : List.length ds = _).
      pose proof (selected_by_family ds) as Hc. change (map snd INVESTMENT_LANE_FAMILIES) with [family_equity; family_zero_dte; family_leaps].
      rewrite <- Hc. assert (List.length (List.filter de_selected ds) ≤ List.length ds)%nat by apply filter_length_le.
      rewrite (decided_length input targets : List.length ds = _) in *. lia.
Qed.
End facts.
