(* ===== verification/ResearchFailure.v ===== *)
(** No research run stays active: however [runPostgresResearchWorkflow] of
    src/services/postgresResearchWorkflowService.ts ends, its row has been completed,
    failed or recovered.

    One research run on a small database, carried out and failing. *)
From Stdlib Require Import Floats.
From S2P Require Import Prelude.
From S2P Require Import JsNumber.
From S2P Require Import JsString.
From S2P Require Import SchedulerLease.
From S2P Require Import ExecutionTables.
From S2P Require Import JsJson.
From S2P Require Import CanonicalJson.
From S2P Require Import Effects.
From S2P Require Import AlpacaClient.
From S2P Require Import ReviewConfiguration.
From S2P Require Import ReviewEvidence.
From S2P Require Import ControlTables.
From S2P Require Import ResearchRuns.
From S2P Require Import FencedHistory.
From S2P Require Import ResearchSignalImport.
From S2P Require Import InvestmentLanes.
From S2P Require Import ResearchCandidates.
From S2P Require Import ResearchEvidence.
From S2P Require Import ResearchWorkflow.
From S2P Require Import ResearchWorkflowFacts.

Open Scope Z_scope.

Lemma filter_key_one {A} (key : A → string) (p : A → bool) k l :
  NoDup (map key l) → (∀ x, In x l → p x = true → key x = k) → (List.length (List.filter p l) ≤ 1)%nat.
Proof.
  intros Hn Hp. assert (Hs : NoDup (map key (List.filter p l))).
  { clear Hp. induction l as [|x l IH]; [done|]. apply NoDup_cons in Hn as [Hx Hn]. cbn [List.filter]. destruct (p x); [|auto].
    cbn [map]. apply NoDup_cons. split; [|auto]. rewrite list_elem_of_In in Hx |- *. intros (y & E & [Hy _]%filter_In)%in_map_iff.
    apply Hx, in_map_iff. eauto. }
  assert (Hk : ∀ x, In x (List.filter p l) → key x = k) by (intros x [Hx Px]%filter_In; auto).
  destruct (List.filter p l) as [|x [|y m]]; cbn; [lia..|]. exfalso. cbn [map] in Hs. apply NoDup_cons in Hs as [H _]. apply H.
  rewrite (Hk x) by (by left). rewrite <- (Hk y) by (right; by left). left.
Qed.

Section failure.
Context (env : Environment) (new_york : Z → NewYorkParts) (le collate : string → string → bool).
Context (offset : Z → Z) (zone_suffix : Z → string) (sha : jvalue → string).
Context (summary_text : MarketResult → ResearchResult → json) (i : WorkflowInput).
Local Abbreviation fence := (wi_fence i).
Local Abbreviation runId := (wi_runId i).
Local Abbreviation now := (wi_now i).
Local Abbreviation stmt q := (workflow_statement env collate sha i q).

(** The answer to a statement that arrives. *)
Definition arrived {A} (m : statement WorkflowDb A) (w : World WorkflowDb) (r : res A) (w' : World WorkflowDb) : Prop :=
  w_clock w ≤ w_clock w' ∧ w_leases w' = w_leases w ∧
  match m (w_clock w') (leases (w_leases w)) (w_data w) with
  | Ret (a, d) => r = Ret a ∧ w_data w' = d
  | Throw c => r = Throw c ∧ w_data w' = w_data w
  end.

(** The INSERT of the run and the statements of the failure handler. *)
Definition essential {A} (q : workflow_query A) : bool :=
  match q with InsertRun | FailRun _ _ _ | RunStatus => true | _ => false end.

Definition reliable_handle (X : Type) (e : workflow_request X) : World WorkflowDb → X → World WorkflowDb → Prop :=
  match e with
  | Query q => λ w r w', if essential q then arrived (stmt q) w r w' else answered (stmt q) w r w'
  | CurrentTime => λ w t w', now ≤ t ∧ w' = w
  | _ => λ w _ w', w' = w
  end.

Local Abbreviation runs := (executes reliable_handle (moves (others_move runId))).

(** ** The row of the run *)

(** An active row of this run is as it was inserted. *)
Definition own_row (r : ResearchRunRow) : Prop :=
  rn_status r = run_running ∧ ri_worker_identity (rn_identity r) = Some (fence_owner_id fence) ∧
  rn_scheduler_job_name r = Some (fence_job_name fence) ∧ rn_scheduler_fencing_token r = Some (fence_token fence) ∧
  ri_started_at (rn_identity r) = now ∧ ri_created_at (rn_identity r) = now.

Record sound (d : WorkflowDb) : Prop := {
  so_keys : NoDup (map rn_id (wd_runs d));
  so_checks : Forall (λ r, run_checks r = true) (wd_runs d);
  so_own : ∀ r, In r (wd_runs d) → rn_id r = runId → run_active r = true → own_row r
}.

Definition inactive (d : WorkflowDb) : Prop := ∀ r, In r (wd_runs d) → rn_id r = runId → run_active r = false.
Definition unknown (d : WorkflowDb) : Prop := ∀ r, In r (wd_runs d) → rn_id r ≠ runId.

Lemma unknown_inactive d : unknown d → inactive d.
Proof. intros H r Hr Hi. by apply H in Hr. Qed.

(** The row this one has become of. *)
Lemma others_row d d' r' :
  sound d → others_move runId d d' → In r' (wd_runs d') → rn_id r' = runId →
  ∃ r, In r (wd_runs d) ∧ rn_id r = runId ∧ run_moves r r'.
Proof.
  intros S O Hr' Hi. destruct (om_run _ _ _ O r' Hr' Hi) as (r & Hr & Hir). exists r. split_and!; [done|done|].
  eapply (evolves_row rn_id run_moves); [apply O|apply S|done|done|congruence].
Qed.

Lemma others_sound d d' : others_move runId d d' → sound d → sound d'.
Proof.
  intros O S. split.
  - by apply (ev_keys _ _ _ _ (om_runs _ _ _ O)), S.
  - by apply O, S.
  - intros r' Hr' Hi Ha. destruct (others_row d d' r' S O Hr' Hi) as (r & Hr & Hir & E & K). destruct (K Ha) as (K1 & K2 & K3).
    destruct (so_own _ S r Hr Hir (run_evolves_active _ _ E Ha)) as (O1 & O2 & O3 & O4 & O5 & O6).
    assert (I : rn_identity r' = rn_identity r) by (destruct E as [->|(_ & _ & ->)]; done).
    unfold own_row. rewrite I. split_and!; congruence.
Qed.

Lemma others_inactive d d' : sound d → others_move runId d d' → inactive d → inactive d'.
Proof.
  intros S O H r' Hr' Hi. destruct (others_row d d' r' S O Hr' Hi) as (r & Hr & Hir & E & _).
  apply not_true_iff_false. intros Ha. apply (run_evolves_active _ _ E) in Ha. rewrite (H r Hr Hir) in Ha. done.
Qed.

Lemma others_unknown d d' : others_move runId d d' → unknown d → unknown d'.
Proof. intros O H r' Hr' Hi. destruct (om_run _ _ _ O r' Hr' Hi) as (r & Hr & Hir). by apply (H r). Qed.

(** ** Statements *)

(** An update that deactivates the rows it changes. *)
Definition deactivates (f : ResearchRunRow → ResearchRunRow) : Prop :=
  ∀ r, rn_identity (f r) = rn_identity r ∧ run_active (f r) = false.

Lemma abandoned_deactivates : deactivates (abandoned_row i).
Proof. by intros r. Qed.
Lemma completed_deactivates n m s : deactivates (completed_row i n m s).
Proof. by intros r. Qed.
Lemma failed_deactivates t m : deactivates (failed_row t m).
Proof. by intros r. Qed.

Lemma update_sound p f d n d' : deactivates f → update_runs p f d = Ret (n, d') → sound d → sound d'.
Proof.
  intros Hf (_ & -> & Hc)%update_runs_Ret [K C O]. split; cbn [wd_runs with_runs].
  - rewrite update_where_key; [done|]. intros r. unfold rn_id. by rewrite (proj1 (Hf r)).
  - rewrite Forall_forall in C |- *. intros r' Hr'%list_elem_of_In. apply update_where_In in Hr' as (r & Hr & ->).
    destruct (p r) eqn:Hp; [by apply Hc|]. by apply C, list_elem_of_In.
  - intros r' Hr' Hi Ha. apply update_where_In in Hr' as (r & Hr & ->).
    destruct (p r); [rewrite (proj2 (Hf r)) in Ha; done|]. by apply O.
Qed.

Lemma own_workflow_run : own_row (workflow_run i).
Proof. done. Qed.

Lemma insert_sound o d d' : insert_workflow_run i d = Ret (o, d') → sound d → sound d'.
Proof.
  intros (_ & Hk & Hc & ->)%insert_workflow_run_Ret [K C O]. apply conflict_id in Hc. split; cbn [wd_runs with_runs].
  - rewrite map_app. apply NoDup_app. split_and!; [done| |apply NoDup_singleton].
    intros k Hin ->%list_elem_of_singleton. apply list_elem_of_In, in_map_iff in Hin as (x & Hx & Hin).
    apply not_true_iff_false in Hc. apply Hc, existsb_exists. exists x. by rewrite String.eqb_eq.
  - apply Forall_app. split; [done|]. by constructor.
  - intros r [Hr|[<-|[]]]%in_app_or Hi Ha; [by apply O|exact own_workflow_run].
Qed.

(** Only the INSERT adds a row. *)
Lemma statement_unknown {A} (q : workflow_query A) t rows d a d' :
  match q with InsertRun => False | _ => True end → stmt q t rows d = Ret (a, d') → unknown d → unknown d'.
Proof.
  assert (U : ∀ p f n, deactivates f → update_runs p f d = Ret (n, d') → unknown d → unknown d').
  { intros p f n Hf (_ & -> & _)%update_runs_Ret H r' Hr'. apply update_where_In in Hr' as (r & Hr & ->).
    destruct (p r); [|by apply H]. unfold rn_id. rewrite (proj1 (Hf r)). by apply H. }
  unfold workflow_statement. destruct q as [| |symbols| |l|r|r| |v dc|n m s|[] at_ msg|]; intros Hq.
  - apply U, abandoned_deactivates.
  - done.
  - destruct (ResearchSignalImport.loadResearchSignalsForSymbols _ _ _) as [[l s]|c]; [by intros [= _ <-]|done].
  - by intros [= _ <-].
  - destruct (fenceSql t _ rows); [|by intros [= _ <-]]. intros [-> _]%insert_evidence_Ret. done.
  - destruct (fenceSql t _ rows); [|by intros [= _ <-]]. intros [-> _]%insert_evidence_Ret. done.
  - by intros [= _ <-].
  - by intros [= _ <-].
  - destruct (fenceSql t _ rows); [|by intros [= _ <-]]. by intros (c & _ & _ & [->| ->])%insert_candidate_Ret.
  - apply U, completed_deactivates.
  - apply U, failed_deactivates.
  - apply U, failed_deactivates.
  - by intros [= _ <-].
Qed.

Lemma statement_sound {A} (q : workflow_query A) t rows d a d' : stmt q t rows d = Ret (a, d') → sound d → sound d'.
Proof.
  unfold workflow_statement. destruct q as [| |symbols| |l|r|r| |v dc|n m s|[] at_ msg|].
  - apply update_sound, abandoned_deactivates.
  - destruct (fenceSql t _ rows); [apply insert_sound|by intros [= _ <-]].
  - destruct (ResearchSignalImport.loadResearchSignalsForSymbols _ _ _) as [[l s]|c]; [by intros [= _ <-]|done].
  - by intros [= _ <-].
  - destruct (fenceSql t _ rows); [|by intros [= _ <-]]. intros [-> _]%insert_evidence_Ret [K C O]. by split.
  - destruct (fenceSql t _ rows); [|by intros [= _ <-]]. intros [-> _]%insert_evidence_Ret [K C O]. by split.
  - by intros [= _ <-].
  - by intros [= _ <-].
  - destruct (fenceSql t _ rows); [|by intros [= _ <-]]. intros (c & _ & _ & [->| ->])%insert_candidate_Ret [K C O]; by split.
  - apply update_sound, completed_deactivates.
  - apply update_sound, failed_deactivates.
  - apply update_sound, failed_deactivates.
  - by intros [= _ <-].
Qed.

(** ** Executions *)

Definition keeps (I : WorkflowDb → Prop) (w w' : World WorkflowDb) : Prop := I (w_data w) → I (w_data w').
#[local] Instance keeps_preorder I : PreOrder (keeps I).
Proof. split; [intros w H; exact H|]. intros w1 w2 w3 H1 H2 H. exact (H2 (H1 H)). Qed.

Lemma request_keeps (I : WorkflowDb → Prop) (ok : ∀ A, workflow_query A → Prop) X (e : workflow_request X) w x w' :
  (∀ A (q : workflow_query A) t rows d a d', ok A q → stmt q t rows d = Ret (a, d') → I d → I d') →
  match e with Query q => ok _ q | _ => True end → reliable_handle X e w x w' → keeps I w w'.
Proof.
  intros Hs Hok H. destruct e as [A q| | | | |]; cbn [reliable_handle] in H; try (subst w'; by intros ?); [|destruct H as [_ ->]; by intros ?].
  destruct (essential q); unfold keeps.
  - destruct H as (_ & _ & H). destruct (stmt q _ _ _) as [[a d]|c] eqn:E; destruct H as [_ H]; rewrite H; [|done].
    by eapply Hs.
  - destruct H as [t a d ? E|t c ? E|t a d c ? E _|c _]; cbn; try done; by eapply Hs.
Qed.

Lemma runs_sound {A} (p : prog workflow_request A) w a w' : runs p w a w' → sound (w_data w) → sound (w_data w').
Proof.
  apply (executes_keeps _ _ (keeps sound)); [|by intros w1 w2 [_ O]; exact (others_sound _ _ O)].
  intros X e w1 x w2. apply (request_keeps sound (λ _ _, True)); [|by destruct e]. intros A0 q t rows d b d1 _. apply statement_sound.
Qed.

Lemma moved_sound w w' : rtc (moves (others_move runId)) w w' → sound (w_data w) → sound (w_data w').
Proof. intros [_ O]%moves_rtc; [|apply _]. by apply others_sound. Qed.
Lemma moved_inactive w w' :
  rtc (moves (others_move runId)) w w' → sound (w_data w) → inactive (w_data w) → inactive (w_data w').
Proof. intros [_ O]%moves_rtc; [|apply _]. intros S. by apply others_inactive. Qed.
Lemma moved_unknown w w' : rtc (moves (others_move runId)) w w' → unknown (w_data w) → unknown (w_data w').
Proof. intros [_ O]%moves_rtc; [|apply _]. by apply others_unknown. Qed.

(** ** The failure handler *)

Lemma failed_checks t m r : own_row r → run_checks r = true → now ≤ t → run_checks (failed_row t m r) = true.
Proof.
  intros (Hs & _ & _ & _ & Ht & Hc). unfold run_checks. cbn [rn_identity rn_status rn_universe_size rn_targets_generated
    rn_candidates_selected rn_heartbeat_at rn_completed_at rn_recovered_at rn_version rn_updated_at failed_row].
  rewrite !andb_true_iff. intros [[[[[[[[[[[[A1 A2] A3] A4] A5] A6] A7] A8] A9] A10] A11] A12] A13].
  rewrite Ht, Hc in *. unfold not_before in *. rewrite Z.ltb_lt in A12.
  intros Hle. split_and!; try assumption; try done; first [apply Z.leb_le; lia|apply Z.ltb_lt; lia].
Qed.

(** The rows that an UPDATE of this run may match. *)
Definition own_update (p : ResearchRunRow → bool) : Prop := ∀ r, p r = true → running_run i r = true.

Lemma running_id r : running_run i r = true → rn_id r = runId ∧ run_active r = true.
Proof. intros H. split; [|by eapply running_run_active]. by apply andb_true_iff in H as [H%String.eqb_eq _]. Qed.

Lemma update_one_inactive p f d d' :
  sound d → own_update p → deactivates f → update_runs p f d = Ret (1%nat, d') → inactive d'.
Proof.
  intros S Hp Hf (Hn & -> & _)%update_runs_Ret. symmetry in Hn. apply filter_one in Hn as (r & Hr & Pr).
  intros r' Hr' Hi. cbn [wd_runs with_runs] in Hr'. apply update_where_In in Hr' as (r1 & Hr1 & ->).
  destruct (p r1) eqn:P1; [by apply Hf|]. exfalso. pose proof (proj1 (running_id _ (Hp _ Pr))) as Hid.
  assert (r1 = r) as ->; [|congruence]. eapply (unique_key rn_id); [apply S|done|done|congruence].
Qed.

Lemma fail_update_spec p t m d :
  sound d → own_update p → now ≤ t →
  ∃ n d', update_runs p (failed_row t m) d = Ret (n, d') ∧ (n = 1%nat → inactive d') ∧
    (n ≠ 1%nat → (∀ r, In r (wd_runs d) → p r = false) ∧ d' = d).
Proof.
  intros S Hp Ht. unfold update_runs.
  assert (Hc : forallb (λ r, negb (p r) || run_checks (failed_row t m r)) (wd_runs d) = true).
  { apply forallb_forall. intros r Hr. destruct (p r) eqn:E; [|done]. apply Hp, running_id in E as [Hi Ha].
    apply failed_checks; [by apply (so_own d S)| |done]. pose proof (so_checks d S) as C. rewrite Forall_forall in C.
    by apply C, list_elem_of_In. }
  rewrite Hc. do 2 eexists. split; [done|].
  assert (Hle : (List.length (List.filter p (wd_runs d)) ≤ 1)%nat).
  { apply (filter_key_one rn_id p runId); [apply S|]. intros r _ E. by apply Hp, running_id in E as [E _]. }
  split.
  - intros H. eapply (update_one_inactive p (failed_row t m) d); [done|done|apply failed_deactivates|].
    unfold update_runs. by rewrite Hc, H.
  - intros H. assert (E : List.filter p (wd_runs d) = []) by (destruct (List.filter p (wd_runs d)) as [|x [|y l]]; cbn in H, Hle; [done|lia..]).
    assert (F : ∀ r, In r (wd_runs d) → p r = false).
    { intros r Hr. apply not_true_iff_false. intros P. assert (In r []) by (rewrite <- E; by apply filter_In). done. }
    split; [done|]. rewrite update_where_false by done. by destruct d.
Qed.

Lemma active_owned d r : sound d → In r (wd_runs d) → rn_id r = runId → run_active r = true → owned_run i r = true.
Proof.
  intros S Hr Hi Ha. destruct (so_own d S r Hr Hi Ha) as (H1 & H2 & H3 & H4 & _). unfold owned_run, running_run, is_running.
  rewrite H1, H2, H3, H4, Hi, String.eqb_refl. by rewrite !bool_decide_eq_true_2.
Qed.

(** The answer of an essential statement. *)
Lemma essential_query {A} (q : workflow_query A) w r w' :
  essential q = true → runs (query q) w r w' →
  ∃ w1 w2, rtc (moves (others_move runId)) w w1 ∧ arrived (stmt q) w1 r w2 ∧ rtc (moves (others_move runId)) w2 w'.
Proof. intros He (w1 & w2 & M1 & H & M2)%executes_ask. exists w1, w2. cbn [reliable_handle] in H. rewrite He in H. done. Qed.

Lemma arrived_sound {A} (q : workflow_query A) w r w' : arrived (stmt q) w r w' → sound (w_data w) → sound (w_data w').
Proof.
  intros (_ & _ & H). destruct (stmt q _ _ _) as [[a d]|c] eqn:E; destruct H as [_ ->]; [|done]. by eapply statement_sound.
Qed.

Lemma arrived_fail b t m w r w' :
  sound (w_data w) → now ≤ t → arrived (stmt (FailRun b t m)) w r w' →
  ∃ n, r = Ret n ∧ (n = 1%nat → inactive (w_data w')) ∧ (n ≠ 1%nat → b = false → inactive (w_data w')).
Proof.
  intros S Ht (_ & _ & H). unfold workflow_statement in H. destruct b.
  - set (p := λ r, running_run i r && _) in H.
    destruct (fail_update_spec p t m (w_data w) S) as (n & d & E & H1 & H2); [by intros x [? _]%andb_true_iff|done|].
    rewrite E in H. destruct H as [-> ->]. exists n. split_and!; [done|exact H1|done].
  - destruct (fail_update_spec (owned_run i) t m (w_data w) S) as (n & d & E & H1 & H2); [|done|].
    { intros x. unfold owned_run. rewrite !andb_true_iff. tauto. }
    rewrite E in H. destruct H as [-> ->]. exists n. split_and!; [done|exact H1|]. intros Hn _. destruct (H2 Hn) as [F ->].
    intros x Hx Hi. apply not_true_iff_false. intros Ha. pose proof (active_owned _ x S Hx Hi Ha) as O. rewrite (F x Hx) in O. done.
Qed.

Lemma inactive_status d (H : inactive d) s :
  rn_status <$> select_one (λ r, (rn_id r =? runId)%string) (wd_runs d) = Some s → s ∉ [run_reserved; run_running].
Proof.
  intros (x & [Hx Hid%String.eqb_eq]%List.find_some & ->)%fmap_Some_1. specialize (H x Hx Hid). unfold run_active in H.
  by apply bool_decide_eq_false in H.
Qed.

Lemma failure_handled message w r w' :
  sound (w_data w) → runs (failResearchRun message) w r w' → r = Ret tt ∧ inactive (w_data w').
Proof.
  intros S (w1 & t & w2 & M1 & [Ht ->] & H). pose proof (moved_sound _ _ M1 S) as S1. cbv zeta in H.
  apply executes_bind in H as (a & w3 & Hq & H). apply essential_query in Hq as (w4 & w5 & M4 & E & M5); [|done].
  pose proof (moved_sound _ _ M4 S1) as S4. pose proof (arrived_sound _ _ _ _ E S4) as S5. pose proof (moved_sound _ _ M5 S5) as S3.
  apply arrived_fail in E as (n & -> & H1 & _); [|done|done]. destruct (Nat.eqb_spec n 1) as [Hn|Hn].
  { destruct H as [-> M6]. split; [done|]. eapply moved_inactive; [etrans; [exact M5|exact M6]|exact S5|exact (H1 Hn)]. }
  apply executes_bind in H as (a & w6 & Hq & H). apply essential_query in Hq as (w7 & w8 & M7 & E & M8); [|done].
  pose proof (moved_sound _ _ M7 S3) as S7. pose proof (arrived_sound _ _ _ _ E S7) as S8. pose proof (moved_sound _ _ M8 S8) as S6.
  apply arrived_fail in E as (k & -> & K1 & K2); [|done|done].
  assert (I8 : inactive (w_data w8)) by (destruct (decide (k = 1%nat)); auto).
  pose proof (moved_inactive _ _ M8 S8 I8) as I6. destruct (Nat.eqb_spec k 1) as [Hk|Hk].
  { destruct H as [-> M9]. split; [done|]. by eapply moved_inactive. }
  apply executes_bind in H as (a & w9 & Hq & H). apply essential_query in Hq as (w10 & w11 & M10 & E & M11); [|done].
  pose proof (moved_sound _ _ M10 S6) as S10. pose proof (moved_inactive _ _ M10 S6 I6) as I10.
  destruct E as (_ & _ & E). cbn in E. destruct E as [-> E]. rewrite <- E in S10, I10.
  pose proof (moved_sound _ _ M11 S10) as S9. pose proof (moved_inactive _ _ M11 S10 I10) as I9.
  assert (F : bool_decide (rn_status <$> select_one (λ r, (rn_id r =? runId)%string) (wd_runs (w_data w10)) = Some run_reserved) ||
    bool_decide (rn_status <$> select_one (λ r, (rn_id r =? runId)%string) (wd_runs (w_data w10)) = Some run_running) = false).
  { rewrite E in I10. apply orb_false_iff. split; apply bool_decide_eq_false_2; intros Hs%(inactive_status _ I10); set_solver. }
  rewrite F in H. destruct H as [-> M12]. split; [done|]. by eapply moved_inactive.
Qed.

Lemma completed_inactive m targets c n signals unavailable w r w' :
  sound (w_data w) → runs (complete summary_text i m targets c n signals unavailable) w (Ret r) w' → inactive (w_data w').
Proof.
  intros S H. apply executes_async_Ret in H as (k & w1 & Hq & H). apply executes_async_Ret in H as (u & w2 & Hone & H).
  apply executes_reject_if in Hone as [Hone M2]. apply executes_ret in H as [_ M3]. apply negb_false_iff, Nat.eqb_eq in Hone as ->.
  pose proof (runs_sound _ _ _ _ Hq S) as S1. apply executes_ask in Hq as (w4 & w5 & M4 & E & M5). cbn [reliable_handle essential] in E.
  pose proof (moved_sound _ _ M4 S) as S4. apply answered_Ret in E as (_ & _ & E). pose proof (statement_sound _ _ _ _ _ _ E S4) as S5.
  unfold workflow_statement in E. apply update_one_inactive in E; [|done|by intros x [? _]%andb_true_iff|apply completed_deactivates].
  eapply moved_inactive; [|exact S5|exact E]. etrans; [exact M5|]. etrans; [exact M2|exact M3].
Qed.

Lemma research_inactive w r w' :
  sound (w_data w) → runs (research env new_york le offset zone_suffix sha summary_text i) w (Ret r) w' → inactive (w_data w').
Proof.
  intros S H. apply executes_async_Ret in H as (m & w1 & H1 & H). apply executes_async_Ret in H as ([features targets] & w2 & H2 & H).
  apply executes_async_Ret in H as ([signals unavailable] & w3 & H3 & H). apply executes_async_Ret in H as (o & w4 & H4 & H).
  apply executes_async_Ret in H as (n & w5 & H5 & H). apply executes_async_Ret in H as (c & w6 & H6 & H).
  eapply completed_inactive; [|exact H].
  exact (runs_sound _ _ _ _ H6 (runs_sound _ _ _ _ H5 (runs_sound _ _ _ _ H4 (runs_sound _ _ _ _ H3
    (runs_sound _ _ _ _ H2 (runs_sound _ _ _ _ H1 S)))))).
Qed.

(** C14: no research run stays active.  In every history in which other processes work on
    runs as the repository does and leases are lost, and in which the collection of
    market data, the features, the evidence or the candidates fail in any way, also by
    answers that are lost, the run that [runPostgresResearchWorkflow] has inserted is not
    reserved or running any more when it returns, provided that the answers to the
    INSERT and to the statements of the failure handler arrive. *)
Theorem research_run_not_left_active w r w' :
  NoDup (map rn_id (wd_runs (w_data w))) → Forall (λ x, run_checks x = true) (wd_runs (w_data w)) →
  (∀ x, In x (wd_runs (w_data w)) → rn_id x ≠ runId) →
  runs (runPostgresResearchWorkflow env new_york le offset zone_suffix sha summary_text i) w r w' →
  ∀ row, In row (wd_runs (w_data w')) → rn_id row = runId → run_active row = false.
Proof.
  intros Hk Hc Hnew H. assert (S : sound (w_data w)) by (split; [done|done|]; intros x Hx Hi; by apply Hnew in Hx).
  apply executes_bind in H as (a & w1 & Hr & H).
  assert (U1 : unknown (w_data w1)).
  { revert Hnew. change (keeps unknown w w1). revert Hr. apply (executes_asks _ _ (λ X e, match e with Query InsertRun => False | _ => True end)).
    - apply _.
    - intros X e w2 x w3. apply (request_keeps unknown (λ A q, match q with InsertRun => False | _ => True end)).
      intros A q t rows d b d'. apply statement_unknown.
    - intros w2 w3 [_ O]. exact (others_unknown _ _ O).
    - by split. }
  pose proof (runs_sound _ _ _ _ Hr S) as S1. destruct a as [n|c]; [|destruct H as [_ M]; exact (unknown_inactive _ (moved_unknown _ _ M U1))].
  apply executes_bind in H as (a & w2 & Hq & H). pose proof (runs_sound _ _ _ _ Hq S1) as S2.
  apply essential_query in Hq as (w3 & w4 & M3 & E & M4); [|done]. pose proof (moved_unknown _ _ M3 U1) as U3.
  destruct a as [[v|]|c].
  - apply executes_bind in H as (b & w5 & Hb & H). destruct b as [res|c].
    + destruct H as [_ M]. pose proof (runs_sound _ _ _ _ Hb S2) as S5. apply research_inactive in Hb; [|done]. by eapply moved_inactive.
    + pose proof (runs_sound _ _ _ _ Hb S2) as S5. apply executes_bind in H as (b & w6 & Hf & H).
      pose proof (runs_sound _ _ _ _ Hf S5) as S6. apply failure_handled in Hf as [-> I6]; [|done].
      destruct H as [_ M]. by eapply moved_inactive.
  - destruct E as (_ & _ & E). unfold workflow_statement in E. destruct H as [_ M].
    assert (U4 : unknown (w_data w4)).
    { destruct (fenceSql _ _ _); [|destruct E as [_ ->]; exact U3].
      destruct (insert_workflow_run i (w_data w3)) as [[o d]|c] eqn:Ei; [|by destruct E as [[=] _]].
      apply insert_workflow_run_Ret in Ei as (-> & _). by destruct E as [[=] _]. }
    apply unknown_inactive. eapply moved_unknown; [|exact U4]. etrans; [exact M4|exact M].
  - destruct E as (_ & _ & E). destruct H as [_ M]. assert (U4 : unknown (w_data w4)).
    { destruct (workflow_statement _ _ _ _ _ _ _ _) as [[o d]|c']; [by destruct E as [[=] _]|]. destruct E as [_ ->]. exact U3. }
    apply unknown_inactive. eapply moved_unknown; [|exact U4]. etrans; [exact M4|exact M].
Qed.
End failure.

Open Scope Z_scope.

Definition desk_new_york (_ : Z) : NewYorkParts := {| ny_date := "2026-01-05"; ny_hour := 10; ny_minute := 0 |}%string.
Definition desk_hash : jvalue → string := canonicalJsonHash String.leb toy_digest.

Definition desk_workflow (fence : SchedulerFence) (runId : string) (now : Z) : WorkflowInput :=
  {| wi_fence := fence; wi_runId := runId; wi_cycleId := "cycle"; wi_riskProfile := "moderate"; wi_optionsEnabled := true;
     wi_maxCandidates := 1; wi_thresholds := paperExplorationThresholds (λ _, None); wi_symbols := ["AAA"; "ACME"];
     wi_now := now; wi_config := "{}" |}%string.
Definition desk_research : WorkflowInput := desk_workflow desk_fence "research_2" desk_time.

Definition desk_feature : PostgresFeatureSnapshot :=
  {| fs_symbol := "AAA"; fs_observedAt := desk_time; fs_features := JObj []; fs_sourceFingerprint := "f1" |}%string.

Definition desk_market : MarketResult :=
  {| mr_bars := [{| mb_symbol := "AAA"; mb_timeframe := "1Day"; mb_observedAt := desk_time - 60000; mb_open := 99; mb_high := 101;
                    mb_low := 98; mb_close := 100; mb_volume := 1000; mb_source := "sip"; mb_requestId := None |}];
     mr_stockSnapshots := [{| sn_id := "s1"; sn_symbol := "AAA"; sn_observedAt := desk_time; sn_sourceTimestamp := None;
                              sn_evidence := [("price", JNum "100")] |}];
     mr_optionSnapshots := [];
     mr_summary := {| ms_spyBoundedResult := None; ms_optionDataRejectionReasons := []; ms_document := JObj [] |} |}%string.

(** A run that an older lease has left behind. *)
Definition old_fence : SchedulerFence :=
  {| fence_job_name := "research"; fence_workstream := "research"; fence_owner_id := "other"; fence_run_id := "old";
     fence_token := "0" |}%string.

Definition research_world : World WorkflowDb :=
  {| w_clock := desk_time; w_leases := `desk_leases;
     w_data := {| wd_runs := [workflow_run (desk_workflow old_fence "research_1" (desk_time - 1000))]; wd_evidence := [];
                  wd_features := [desk_feature]; wd_candidates := [];
                  wd_signals := {| sd_universe := []; sd_signals := [] |}; wd_learning_runs := None |} |}%string.

Section desk.
Context (market : res MarketResult).

Definition research_answer (X : Type) (e : workflow_request X) : World WorkflowDb → X * World WorkflowDb :=
  match e with
  | Query q => commit (workflow_statement (λ _, None) String.leb desk_hash desk_research q)
  | RefreshMarketData => pair market
  | BuildFeaturesAndTargets _ => pair (Ret ([desk_feature], desk_targets))
  | OutcomeAggregates => pair (Ret [])
  | LatestQuote symbol => pair (Some {| qp_feed := Some "sip"; qp_symbol := Some symbol; qp_providerTimestamp := None;
                                        qp_receiptTimestamp := Some "2026-01-05T00:00:00.000Z" |}%string)
  | CurrentTime => pair desk_time
  end.

Lemma research_answer_handled X (e : workflow_request X) w :
  workflow_handle (λ _, None) String.leb desk_hash desk_research X e w (research_answer X e w).1 (research_answer X e w).2.
Proof. destruct e; cbn; try done. apply commit_answered. Qed.

Lemma research_answer_reliable X (e : workflow_request X) w :
  reliable_handle (λ _, None) String.leb desk_hash desk_research X e w (research_answer X e w).1 (research_answer X e w).2.
Proof.
  destruct e as [A q| | | | |]; cbn [reliable_handle research_answer]; try done. destruct (essential q); [|apply commit_answered].
  unfold arrived, commit. destruct (workflow_statement _ _ _ _ q (w_clock w) _ _) as [[a d]|c] eqn:E; cbn; rewrite E; done.
Qed.

Definition research_program : workflow ResearchResult :=
  runPostgresResearchWorkflow (λ _, None) desk_new_york String.leb (λ _, 0) (λ _, "+0000"%string) desk_hash (λ _ _, "{}"%string)
    desk_research.
Definition research_run : res ResearchResult * World WorkflowDb := run research_answer research_program research_world.

Lemma research_executes r :
  research_run.1 = Ret r →
  executes (workflow_handle (λ _, None) String.leb desk_hash desk_research) (moves (others_move (wi_runId desk_research)))
    research_program research_world (Ret r) research_run.2.
Proof. intros <-. apply run_executes, research_answer_handled. Qed.

Lemma research_executes_reliably :
  executes (reliable_handle (λ _, None) String.leb desk_hash desk_research) (moves (others_move (wi_runId desk_research)))
    research_program research_world research_run.1 research_run.2.
Proof. apply run_executes, research_answer_reliable. Qed.
End desk.

Definition desk_completed : {r | (research_run (Ret desk_market)).1 = Ret r}.
Proof. eexists. vm_compute. reflexivity. Defined.

Example desk_research_counts :
  (rr_candidatesSelected (`desk_completed), rr_candidatesRejected (`desk_completed), rr_evidenceStored (`desk_completed),
   map rn_status (wd_runs (w_data (research_run (Ret desk_market)).2)),
   List.length (wd_candidates (w_data (research_run (Ret desk_market)).2)))
  = (1%nat, 3%nat, 7%nat, [run_recovered; run_completed], 4%nat).
Proof. vm_compute. reflexivity. Qed.

Lemma completed_research_recorded_witness :
  rr_candidatesSelected (`desk_completed) = 1%nat ∧
  ∃ row, In row (wd_runs (w_data (research_run (Ret desk_market)).2)) ∧ rn_id row = "research_2"%string ∧ rn_status row = run_completed.
Proof.
  split; [vm_compute; reflexivity|].
  destruct (completed_research_recorded (λ _, None) desk_new_york String.leb String.leb (λ _, 0) (λ _, "+0000"%string) desk_hash
    (λ _ _, "{}"%string) desk_research research_world (`desk_completed) (research_run (Ret desk_market)).2) as (m & f & t & input & R).
  - destruct (proj2_sig desk_leases) as [x Hx]. apply reachable_init_wf, rtc_once. eapply step_acquire. exact Hx.
  - intros c [].
  - exact (research_executes _ _ (proj2_sig desk_completed)).
  - destruct (rc_run _ _ _ _ _ _ _ _ _ _ R) as (row & H1 & H2 & H3 & _). exists row. exact (conj H1 (conj H2 H3)).
Defined.

(** The market data are stale. *)
Definition stale : res MarketResult := Throw "POSTGRES_STOCK_SNAPSHOT_STALE:AAA"%string.

Example desk_research_failed :
  (match (research_run stale).1 with Throw c => c | Ret _ => EmptyString end,
   map (λ r, (rn_id r, rn_status r, rn_error_code r)) (wd_runs (w_data (research_run stale).2)))
  = ("POSTGRES_STOCK_SNAPSHOT_STALE:AAA",
     [("research_1", run_recovered, Some "WORKER_TERMINATED_OR_HEARTBEAT_EXPIRED");
      ("research_2", run_failed, Some "POSTGRES_STOCK_SNAPSHOT_STALE")])%string.
Proof. vm_compute. reflexivity. Qed.

Lemma research_run_not_left_active_witness :
  List.length (wd_runs (w_data (research_run stale).2)) = 2%nat ∧
  ∀ row, In row (wd_runs (w_data (research_run stale).2)) → rn_id row = "research_2"%string → run_active row = false.
Proof.
  split; [vm_compute; reflexivity|].
  apply (research_run_not_left_active (λ _, None) desk_new_york String.leb String.leb (λ _, 0) (λ _, "+0000"%string) desk_hash
    (λ _ _, "{}"%string) desk_research research_world (research_run stale).1 (research_run stale).2).
  - apply NoDup_singleton.
  - constructor; [vm_compute; reflexivity|constructor].
  - intros x [<-|[]]. vm_compute. discriminate.
  - exact (research_executes_reliably stale).
Defined.
